(* ===== verification/_CoqProject ===== *)
-Q . S2P
Prelude.v
Outcome.v
StdMap.v
Price.v
Common.v
Order.v
L2Level.v
Level.v
Messages.v
BookSide.v
BookSpec.v
Matching.v
SideRep.v
Crossed.v
PendingLiq.v
TradeSide.v
ModifySide.v
Resolve.v
Adapt.v
Follow.v
Format.v
L2Book.v
OrderBook.v
BookInv.v
Aggregate.v
BookManager.v
Session.v
Scenarios.v
SideTheorems.v
DataTheorems.v
BookTheorems.v
SnapshotTheorems.v
CStr.v
FilePath.v
GmockUtils.v
TestFilter.v
EditDistance.v
Printers.v
Utf8.v
SimpleRegex.v
TestResult.v
TestSelect.v
Cardinality.v
Expectations.v
ExpectationWalks.v
ExpectationInv.v
ExpectCall.v
MockCall.v
Actions.v
Bipartite.v
MaxMatching.v
Unordered.v
Assertions.v
Matchers.v
MatcherTheorems.v
UnitTest.v
ReportFormat.v
CommandLine.v
XmlReport.v
XmlGrammar.v
XmlTheorems.v
JsonReport.v
JsonTheorems.v
Listeners.v
Console.v
ConsoleTheorems.v
DeathTest.v
ParamGenerators.v
Runner.v
ParamTests.v
TypedTests.v
RunnerSteps.v
RunnerTest.v
RunnerSuite.v
RunnerProgram.v
RunnerIterations.v
RunnerTheorems.v
CommandLineTheorems.v
GmockTheorems.v
GtestTheorems.v
