(* ===== verification/Prelude.v ===== *)
(** * A verification library for the smart order book

    The program (src/src/, C++17) rebuilds the order book of one instrument
    from three streams that an exchange sends independently: order messages,
    trades, and snapshots of the aggregated (L2) book.  The streams describe
    the same facts but do not arrive together, so the book remembers what one
    stream has promised and the others have yet to confirm.  This library
    models the whole of src/src/ and proves what its operations do, and does the
    same for the parts with logic of the test framework that the repository
    carries.

    ** The program and the files that model it

    - [Price] ([using Price = double], common.h): Price.v.  IEEE binary64 from
      the standard library's [SpecFloat], NaN excluded by the type (a NaN is no
      key for a [std::map]; [NaN_breaks_ask_order] says why).  [price_key] is
      an order embedding into [Z], equal for the two zeros only.
    - [Quantity], [OrderId], the comparators, [OrderInfo] (common.h): Common.v.
      An [int] is a [Z] in its 32-bit range; arithmetic that leaves the range
      is the fault [IntOverflow] (signed overflow is undefined in C++).
    - Outcomes: Outcome.v.  Every operation that can go wrong returns a value
      or a [fault]: a failed assertion, a dangling pointer or iterator, an
      overflow, or [Diverges] when a loop has used its fuel.
    - [std::map] and the unordered map of pending removals: StdMap.v.  Ordered
      association lists over any comparator with a rank (class [Comparator]),
      with [operator[]], [find], [erase] and [begin] as the code uses them.
    - [Order], [std::shared_ptr<Order>], the list iterators (order.h): Order.v.
      One [Store] holds the shared orders; a list node has an address of its
      own, so an [OrderHandler] aliases a node and an order as in the code.
    - [L2PriceLevel], [L3PriceLevel] (level.h, level.cpp): L2Level.v, Level.v.
    - Messages and [Trade] (message.h, trade.h): Messages.v.
    - [BookSide] (book_side.h, book_side.cpp): BookSide.v.  One record with the
      five members of the class, one definition per method, one per loop.
    - [L2Book] (l2_book.h, l2_book.cpp): L2Book.v.
    - [SmartOrderBook] (order_book.h, order_book.cpp): OrderBook.v.  Both sides
      share one store.
    - [BookManager] (book_manager.h, book_manager.cpp): BookManager.v.  The
      [on...] callbacks are declared in the header and defined nowhere, so they
      are a record of functions that [flushEvents] is given.
    - The output operators: Format.v and L2Book.v.

    A message travels [BookManager] -> [SmartOrderBook] -> [BookSide] ->
    [L3PriceLevel] and back as a vector of [OrderInfo] events, which the
    manager collects until [flushEvents] hands them to the callbacks.

    ** Specification and refinement

    BookSpec.v describes a side of the book as the code means it: an [abook] is
    a list of prices, best first, each with its queue of orders, oldest first
    (no store, no map of handlers, no cached sums).  Its operations are [aadd],
    [aremove], [amatch] (Crossed.v), [atrade] (TradeSide.v), [acancel]
    and [amodify] (ModifySide.v) and [aadd_message] (BookInv.v).

    SideRep.v has the representation relation [side_rep m s A]: the levels of
    [s] are those of [A] in the same order with the right sums and counts, the
    order map holds exactly the orders that rest, every handler points at the
    node and the order it should, no two share a node or a pointer, and the
    store has fresh addresses left.  [book_rep] (BookInv.v) is this for both
    sides.  For each operation of [BookSide] there is a lemma [..._rep] that it
    runs without a fault and takes [side_rep] to [side_rep] of what the
    specification does: SideRep.v (add, remove), Crossed.v (one fill and
    [processCrossedOrder]), PendingLiq.v (the pending quantities),
    TradeSide.v ([processTrade]), ModifySide.v (cancellation, changes), BookInv.v for
    [processOrderAddMessage].  Matching.v and the end of Crossed.v
    hold the facts about matching that need no store.  Session.v lifts them to streams of messages.

    [processL2Snapshot] takes an L2 snapshot that leads the other streams:
    Resolve.v, Adapt.v and Follow.v prove step by step that the guessed events
    turn the view of the book into the snapshot (Resolve.v also how many of the
    guesses are executions), Aggregate.v what [getL2Book] shows of it.
    Scenarios.v has a sample book and runs scenarios of the test suite
    (src/tests/) on the model.

    ** The vendored test framework

    The repository carries GoogleTest and GoogleMock under
    src/submodules/googletest/, with which its tests are written.  The parts
    with logic of their own are modelled too, each in a file that depends on
    the prelude, Outcome.v and CStr.v (texts as lists of characters, the class
    [String] and the character classes of gtest.cc and gtest-port.h):

    - FilePath.v (gtest-filepath.cc): paths, over an interface for the file
      system (the class [FileSystem] with its laws).
    - TestFilter.v (gtest.cc): the glob matcher and --gtest_filter.
    - EditDistance.v (gtest.cc): [CalculateOptimalEdits], [CreateUnifiedDiff].
    - Printers.v (gtest-printers.cc): strings, bytes, 128-bit integers, with a
      lexer of C++ string literals as the specification.
    - Utf8.v (gtest.cc): code points, surrogate pairs, wide strings.
    - SimpleRegex.v (gtest-port.cc): validation and matching.
    - TestResult.v (gtest.cc): test parts, properties, counters.
    - Assertions.v (gtest.cc, gtest.h, gtest-internal.h): [AssertionResult], the
      predicates behind EXPECT_ and ASSERT_ with their messages, and floating
      point numbers compared on their bits.
    - ParamGenerators.v, ParamTests.v (gtest-param-util.h): [Range], [Values],
      [Combine] and the other generators with the iterators of a range-based
      loop, TEST_P and INSTANTIATE_TEST_SUITE_P; TypedTests.v
      (gtest-typed-test.cc, gtest-type-util.h): typed suites.
    - TestSelect.v (gtest.cc, gtest-port.cc, gtest-internal-inl.h): integers
      from flags and the environment, sharding, selection, shuffling.
    - UnitTest.v (gtest.cc, gtest-internal-inl.h): registration of tests, the
      suites and their order, environments, counters, the list of tests.
    - ReportFormat.v (gtest.cc): numbers and times as the reports show them.
    - CommandLine.v (gtest.cc, gtest-port.cc, gtest-death-test.cc): the flags,
      their defaults from the environment, parsing of arguments and flag files,
      the output file, the flag of the child process of a death test.
    - XmlReport.v, JsonReport.v (gtest.cc): the two report writers.  XmlGrammar.v
      gives the format of the first as relations on texts and XmlTheorems.v
      relates the writer to them; JsonTheorems.v does both for JSON.
    - Console.v (gtest.cc): the pretty and the brief printer and the listener that
      streams results, for every event; ConsoleTheorems.v has their theorems.
    - DeathTest.v (gtest-death-test.cc, gtest-death-test-internal.h): death tests
      in both styles, the parent and the child with the pipe, stderr and exit
      status between them.  Its [program] is only the environment of the theorems:
      a program with one test in which the statements run.
    - Listeners.v (gtest.cc): the repeater and the list of listeners.
    - Runner.v (gtest.cc): InitGoogleTest and RUN_ALL_TESTS() down to the
      methods of a fixture.  The code of the user (constructors, SetUp, test
      bodies, environments) is a tree of what it does ([body]); what it throws,
      fails, records and traces is given meaning by the framework's functions.
      RunnerSteps.v has the rules of [safe] (a run ends, leaves only overflowing
      counters to go wrong, and its result satisfies a predicate), RunnerTest.v
      one test, RunnerSuite.v a suite, RunnerProgram.v an iteration,
      RunnerIterations.v the program, RunnerTheorems.v how often a test runs.
    - GmockUtils.v (gmock-internal-utils.cc): names, Base64, the log.
    - Cardinality.v (gmock-cardinalities.cc).
    - Expectations.v (gmock-spec-builders.cc and .h): EXPECT_CALL and its
      clauses, sequences, the expectation that answers a call, verification and
      the registry of mock objects, over one [World] in which expectations are
      shared by address.  ExpectationWalks.v has the walks over prerequisites,
      ExpectationInv.v the invariant [Inv] and one call, ExpectCall.v runs
      of calls and the statement EXPECT_CALL.
    - MockCall.v (gmock-spec-builders.h, gmock-nice-strict.h): ON_CALL, nice,
      naggy and strict mocks, and a whole call of a mock function, over a class
      [Actions] of what actions do.  Actions.v (gmock-actions.h) has the actions
      themselves on a memory, with default values.
    - Matchers.v (gtest-matchers.h, gmock-matchers.h): the matchers with their
      descriptions and explanations, EXPECT_THAT; its module [Make] has the
      functions that users call.  MatcherTheorems.v says what they decide.
    - Bipartite.v (gmock-matchers.cc and .h): [MatchMatrix], the search for a
      maximum matching and UnorderedElementsAre.  MaxMatching.v proves the
      search optimal, Unordered.v relates the matcher to permutations.

    ** What the theorems show

    - BookTheorems.v: for streams of messages, the book is well formed and
      uncrossed and nothing goes wrong but the loop of [matchPendingLiqAdd],
      which can hang at an order that is [caught] in it
      ([session_uncrossed]); without trades nothing goes wrong at all
      ([order_session_completes]); the contract of each message handler and of
      the manager.
    - SideTheorems.v: the contracts of [processCrossedOrder], its price-time
      priority and conservation of quantity, of [processTrade], of the pending
      quantities, of cancellation, addition, removal and modification, and the
      agreement of order map and levels.
    - SnapshotTheorems.v: snapshots that lead are followed and shown,
      confirmations, what goes wrong with guessed ids and saved views, the
      share of executions, and where the order of the guesses departs from that
      of the README ([execution_guessed_at_worse_price]).
    - DataTheorems.v: events, comparators, maps, levels and the L2 book.
    - GmockTheorems.v: calls follow the sequences ([calls_in_order]) from any
      state that EXPECT_CALL statements build ([EXPECT_CALL_invariant]); which
      action a call performs and when it reports a failure
      ([mock_call_correct]); the walks over prerequisites and the verification;
      matchings are maximum, and UnorderedElementsAre accepts what some
      permutation accepts.
    - MockCall.v, Actions.v: calls without an expectation
      ([uninteresting_call_correct]), and what the actions do ([ReturnRoundRobin],
      [ReturnByMove], [SetArrayArgument], [WithArgs]).
    - MatcherTheorems.v: every matcher decides the property it is named for
      ([matchers_decide]), and EXPECT_THAT succeeds exactly then and
      else reports the matcher's description and explanation.
    - RunnerTheorems.v: RUN_ALL_TESTS() returns 0 exactly when all tests passed,
      and what listeners hear follows the grammar of a program
      ([RUN_ALL_TESTS_correct]); every selected test runs once in each
      iteration, or none if what was reported outside of tests until then is a
      skip without a failure ([selected_tests_run_once], with one list of events
      for each iteration); the protocol of one test ([TestInfo_Run_correct]) and
      of one suite ([TestSuite_Run_correct]).  What the constructors of a program
      do is an interface of the traces (the class [Constructors]), for which
      [constructors_of] gives the runs of their code: an object is deleted exactly
      if its constructor made it.  These theorems assume exceptions caught, and
      code of the user that throws exceptions of its own only ([civil]).
    - ParamGenerators.v, ParamTests.v, TypedTests.v: a loop over [Combine]
      visits the product once and in order; one test is registered for each
      pattern, instantiation and value; typed suites accept exactly the lists
      that name each of their tests once.
    - Assertions.v: [AlmostEquals] bounds the number of steps of the format
      between its arguments, for any IEEE format.
    - DeathTest.v: each death test of a program passes or fails by what its
      statement does, in both styles ([death_tests_correct]); an error of the
      child is reported ([internal_error_reported]).
    - UnitTest.v: registration keeps tests apart and groups them by
      suite.  CommandLineTheorems.v: parsing removes exactly the arguments it
      recognises, and the flags at the end are those that these arguments and the
      files of flags say.  XmlTheorems.v, JsonTheorems.v: the reports have the
      structure of XML and JSON whatever the names and messages are; keys of
      properties are a hypothesis where the code does not escape them, and the
      bytes of the XML report are UTF-8 if the texts are.  ConsoleTheorems.v: the
      summary counts every selected test once, and what is streamed can be
      decoded.
    - GtestTheorems.v: the type invariant of paths and their round trip; round
      trips of Base64, printed strings (with print_utf8 and without), UTF-8 and
      decimal integers; the filter
      against the glob relation; edits that turn one text into the other; the
      regular expressions against a declarative relation; counters, properties,
      shards ([selects], ShouldShard followed by FilterTests with its [int]
      counters) and shuffles.

    The theorems that have hypotheses are tried on the book of Scenarios.v and
    on small inputs beside them.

    ** Bounds and fuel

    Quantities are bounded by hypotheses that say what must fit into an [int]:
    a session carries at most [INT_MAX] lots in total (each bound is used; the
    code has no checks of its own).  [crossed_loop] and [trade_cancel_loop] get
    one unit of fuel more than the side has levels, since each turn empties a
    level or is the last; [processCrossedOrder_refines] and
    [processTrade_refines] include that this is enough.  The loop of
    [matchPendingLiqAdd] may not end in the program; its fuel is one more than
    the number of entries, [matchPendingLiqAdd_decided] shows for which inputs
    that suffices, and that for the others no fuel does.

    In the test framework: the glob matcher takes [glob_fuel], quadratic in the
    lengths ([glob_loop_correct]); the walk back over the edits one unit for
    each line of both texts; [CreateDirectoriesRecursively] one more than the
    length of the path (it does not end on a relative path when the current
    directory cannot be inspected); [TryAugment] one more than the number of
    right nodes, since each recursive call marks one; the retirement of
    prerequisites one more than the number of expectations, since each turn
    follows a retirement; the two walks that do not retire two to the power of
    that number, since prerequisites are acyclic ([weight] in
    ExpectationWalks.v).  Parsing of arguments takes one unit per argument, the
    search for a free name of an output file one more than the number of names
    taken.  [iterations] takes one unit per iteration: RUN_ALL_TESTS() with
    --gtest_repeat=n needs n units ([RUN_ALL_TESTS_correct] assumes that many),
    and a negative n has no last iteration.  A loop over a generator takes more
    units than it has values; splitting into lines or fields, comparing without
    case and marking the lines of a death test one more than the length of the
    text; reading the message of a child the bytes and the answers of its pipe.
    The child that a death test starts does not start another one.

    ** What is not modelled

    Of the order book: [reserve] on containers (it changes capacity only), the
    destructors, the bytes on standard error of [BookManager] beyond the two
    messages, the build files, and the tests but for Scenarios.v.  Of the test
    framework: threads and the platform layer (system calls are parameters), the
    death tests of Windows, Fuchsia and QNX, stack traces, the premature exit
    file, listeners that throw and the destructors of environments, printers of
    containers and of arbitrary user types (a class, [Printable]),
    [WhenDynamicCastTo], the macros ACTION and ACTION_P, leak detection at exit,
    and the destructors that run when the last handle of an expectation is
    dropped.  The samples come with a tutorial and are left out.  The mutex of
    GoogleMock makes the modelled operations atomic.

    This file: the notation scope, hint databases and tactics of the
    development, and the lemmas about lists and sums that the components
    share. *)

From stdpp Require Export prelude gmap list strings pretty sorting.
From Stdlib Require Export ZArith Lia.

#[global] Open Scope Z_scope.

(** ** Notation scope, hint databases, tactics *)

Declare Scope ob_scope.
Delimit Scope ob_scope with ob.
#[global] Open Scope ob_scope.

Create HintDb ob.
Create Rewrite HintDb ob.

(** Split conjunctions and existentials of the context. *)
Ltac split_hyps :=
  repeat match goal with
  | H : exists x, _ |- _ => let y := fresh x in destruct H as [y H]
  | H : _ /\ _ |- _ => destruct H
  end.

(** Decide one boolean comparison of integers in the goal or a hypothesis. *)
Ltac zcase :=
  match goal with
  | |- context [Z.ltb ?a ?b] => destruct (Z.ltb_spec a b)
  | |- context [Z.leb ?a ?b] => destruct (Z.leb_spec a b)
  | |- context [Z.eqb ?a ?b] => destruct (Z.eqb_spec a b)
  | H : context [Z.ltb ?a ?b] |- _ => destruct (Z.ltb_spec a b)
  | H : context [Z.leb ?a ?b] |- _ => destruct (Z.leb_spec a b)
  | H : context [Z.eqb ?a ?b] |- _ => destruct (Z.eqb_spec a b)
  end.

(** ** Lists *)

Section lists.
Context {A B : Type}.

Lemma StronglySorted_app_iff (R : A -> A -> Prop) (l1 l2 : list A) :
  StronglySorted R (l1 ++ l2) <->
  StronglySorted R l1 /\ StronglySorted R l2 /\
  (forall x y, x ∈ l1 -> y ∈ l2 -> R x y).
Proof.
  induction l1 as [|a l1 IH]; simpl.
  - split; [|by intros (?&?&?)]. intros; repeat split; auto using SSorted_nil.
    intros x y Hx; by apply not_elem_of_nil in Hx.
  - split.
    + intros [H1 H2]%StronglySorted_inv. apply IH in H1 as (Hl1 & Hl2 & H12).
      apply Forall_app in H2 as [Ha1 Ha2]. rewrite Forall_forall in Ha2.
      repeat split; [by constructor | done |].
      intros x y [->|Hx]%elem_of_cons Hy; eauto.
    + intros ([H1 Ha]%StronglySorted_inv & H2 & H12). constructor.
      * apply IH; repeat split; auto. intros; apply H12; [by right | done].
      * apply Forall_app; split; [done|]. apply Forall_forall; intros y Hy.
        apply H12; [by left | done].
Qed.

Lemma NoDup_app_cons_inv (l1 l2 : list A) (a : A) :
  NoDup (l1 ++ a :: l2) <-> (a ∉ l1) /\ (a ∉ l2) /\ NoDup (l1 ++ l2).
Proof.
  rewrite <- Permutation_middle. rewrite NoDup_cons, not_elem_of_app. tauto.
Qed.

End lists.

Lemma split_like {A B} (l : list A) (l1 : list B) b l2 :
  length l = length (l1 ++ b :: l2) ->
  exists k1 a k2, l = k1 ++ a :: k2 /\ length k1 = length l1 /\ length k2 = length l2.
Proof.
  revert l; induction l1 as [|c l1 IH]; intros [|a l]; simpl; try done; intros [= H].
  - by exists [], a, l.
  - apply IH in H as (k1 & a' & k2 & -> & ? & ?). exists (a :: k1), a', k2. simpl; auto.
Qed.

Lemma filter_Forall {A} (P : A -> Prop) `{!forall x, Decision (P x)} l :
  Forall P l -> filter P l = l.
Proof. induction 1; [done|]. rewrite filter_cons_True by done. by f_equal. Qed.

Lemma filter_Forall_not {A} (P : A -> Prop) `{!forall x, Decision (P x)} l :
  Forall (fun x => ~ P x) l -> filter P l = [].
Proof. induction 1; [done|]. by rewrite filter_cons_False by done. Qed.

Lemma existsb_elem {A} (f : A -> bool) l : existsb f l = true <-> exists x, x ∈ l /\ f x = true.
Proof. rewrite existsb_exists. by setoid_rewrite list_elem_of_In. Qed.

(** Sum of an integer measure over a list. *)
Definition zsum {A} (f : A -> Z) (l : list A) : Z := foldr (fun x a => (f x + a)%Z) 0 l.

Lemma zsum_nil {A} (f : A -> Z) : zsum f [] = 0.
Proof. done. Qed.

Lemma zsum_cons {A} (f : A -> Z) x l : zsum f (x :: l) = f x + zsum f l.
Proof. done. Qed.

Lemma zsum_app {A} (f : A -> Z) l1 l2 : zsum f (l1 ++ l2) = zsum f l1 + zsum f l2.
Proof. induction l1; simpl; rewrite ?zsum_cons; [done | lia]. Qed.

Lemma zsum_nonneg {A} (f : A -> Z) l : Forall (fun x => 0 <= f x) l -> 0 <= zsum f l.
Proof. induction 1; rewrite ?zsum_cons; simpl; lia. Qed.

Lemma zsum_elem_le {A} (f : A -> Z) l x :
  Forall (fun x => 0 <= f x) l -> x ∈ l -> f x <= zsum f l.
Proof.
  induction 1 as [|y l Hy Hl IH]; [by intros ?%not_elem_of_nil|].
  rewrite zsum_cons. pose proof (zsum_nonneg f l Hl).
  intros [->|?%IH]%elem_of_cons; lia.
Qed.

#[export] Instance zsum_Permutation {A} (f : A -> Z) : Proper ((≡ₚ) ==> (=)) (zsum f).
Proof. induction 1; rewrite ?zsum_cons; lia. Qed.

#[export] Hint Rewrite @zsum_nil @zsum_cons @zsum_app : ob.
