(* ===== verification/Outcome.v ===== *)
(** * Outcomes: the error monad the C++ code runs in

    A C++ statement either completes or runs into one of the events below,
    after which nothing is promised: a failed [assert], a dereference of a
    null or dangling pointer, the use of an iterator that is not in the list
    it is given to, a signed overflow, a loop that never ends, or a call of
    [exit].  The model is total: it returns an [outcome], and [returns m Q]
    says that [m] completes and that its result satisfies [Q] (total
    correctness). *)

From S2P Require Import Prelude.

Inductive fault : Type :=
  | AssertionFailed
  | InvalidDeref
  | InvalidIterator
  | IntOverflow
  | Diverges
  | ProcessExit.

#[export] Instance fault_eq_dec : EqDecision fault.
Proof. solve_decision. Defined.

Inductive outcome (A : Type) : Type :=
  | Ok (a : A)
  | Err (f : fault).
Arguments Ok {A} a.
Arguments Err {A} f.

#[export] Instance outcome_ret : MRet outcome := @Ok.
#[export] Instance outcome_bind : MBind outcome := fun A B k m =>
  match m with Ok a => k a | Err f => Err f end.

(** C's [assert(c)] in a build without [NDEBUG]. *)
Definition c_assert (c : bool) : outcome unit := if c then Ok () else Err AssertionFailed.

(** A lookup that the C++ code performs without a check. *)
Definition or_fault {A} (f : fault) (o : option A) : outcome A :=
  match o with Some a => Ok a | None => Err f end.

(** Total correctness. *)
Definition returns {A} (m : outcome A) (Q : A -> Prop) : Prop :=
  match m with Ok a => Q a | Err _ => False end.
Notation "m ⇓ Q" := (returns m Q) (at level 70, no associativity) : ob_scope.

Section returns.
Context {A B : Type}.
Implicit Types (m : outcome A) (k : A -> outcome B).

Lemma bind_ok (a : A) k : (Ok a ≫= k) = k a.
Proof. done. Qed.

Lemma bind_err (f : fault) k : (Err f ≫= k) = Err f.
Proof. done. Qed.

Lemma bind_intro m k a r : m = Ok a -> k a = r -> (m ≫= k) = r.
Proof. by intros -> <-. Qed.

Lemma returns_intro m k a (Q : B -> Prop) : m = Ok a -> (k a ⇓ Q) -> (m ≫= k) ⇓ Q.
Proof. by intros ->. Qed.

Lemma bind_assoc {C} m k (k' : B -> outcome C) :
  ((m ≫= k) ≫= k') = (m ≫= (fun a => k a ≫= k')).
Proof. by destruct m. Qed.

Lemma returns_bind m k (Q : B -> Prop) :
  (m ⇓ fun a => k a ⇓ Q) -> (m ≫= k) ⇓ Q.
Proof. by destruct m. Qed.

Lemma returns_mono m (P Q : A -> Prop) : m ⇓ P -> (forall a, P a -> Q a) -> m ⇓ Q.
Proof. destruct m; simpl; auto. Qed.

Lemma returns_iff m (Q : A -> Prop) : m ⇓ Q <-> exists a, m = Ok a /\ Q a.
Proof.
  split; [destruct m; simpl; [eauto | done] | intros (a & -> & H); exact H].
Qed.

Lemma returns_and m (P Q : A -> Prop) : m ⇓ P -> m ⇓ Q -> m ⇓ (fun a => P a /\ Q a).
Proof. destruct m; simpl; tauto. Qed.

End returns.

#[export] Instance returns_proper {A} :
  Proper ((=) ==> pointwise_relation A iff ==> iff) (@returns A).
Proof. intros m ? <- P Q HPQ. destruct m; simpl; [apply HPQ | done]. Qed.

#[export] Hint Rewrite @bind_ok @bind_err : ob.

(** ** Running a program

    [run] executes the statement at the head of a goal [m ≫= k = r] or
    [m ≫= k ⇓ Q] when the database [ok] proves that [m] completes. *)

Create HintDb ok.

Lemma c_assert_ok c : c = true -> c_assert c = Ok ().
Proof. by intros ->. Qed.

Lemma or_fault_ok {A} f (o : option A) a : o = Some a -> or_fault f o = Ok a.
Proof. by intros ->. Qed.
#[export] Hint Resolve or_fault_ok : ok.

Ltac run :=
  first [ eapply bind_intro; [solve [eauto with ok] | cbn beta]
        | eapply returns_intro; [solve [eauto with ok] | cbn beta] ].
