(* ===== verification/StdMap.v ===== *)
(** * [std::map<K, V, Compare>] as the program uses it

    A map is the list of its nodes in iteration order.  [map_find],
    [map_assign] (assignment through [operator[]]), [map_index] (what
    [operator[]] leaves behind), [map_erase] and the head of the list
    ([begin()]) are the operations the program calls.  Two keys are the same
    when neither compares less than the other, and assigning to a present key
    keeps the node's key, as the standard says.

    [Comparator] is what a [Compare] has to promise: it is the order of an
    integer rank, hence a strict weak ordering.  The theorems of this file are
    proved against that interface; Price.v's comparators implement it in
    Common.v. *)

From S2P Require Import Prelude.

Class Comparator {K} (lt : K -> K -> bool) : Type := {
  rank : K -> Z;
  lt_rank : forall a b, lt a b = (rank a <? rank b) }.
#[export] Hint Mode Comparator + ! : typeclass_instances.

Abbreviation smap K V := (list (K * V)).

Section operations.
Context {K V : Type} (lt : K -> K -> bool).

Definition same_key (a b : K) : bool := negb (lt a b) && negb (lt b a).

Fixpoint map_find (k : K) (m : smap K V) : option V :=
  match m with
  | [] => None
  | (k', v) :: t => if same_key k k' then Some v else map_find k t
  end.

(** [m[k] = v] *)
Fixpoint map_assign (k : K) (v : V) (m : smap K V) : smap K V :=
  match m with
  | [] => [(k, v)]
  | (k', v') :: t =>
      if lt k k' then (k, v) :: m
      else if lt k' k then (k', v') :: map_assign k v t
      else (k', v) :: t
  end.

(** [m[k]]: the value, and the map after a default value was inserted for a
    key that was not there *)
Definition map_index (d : V) (k : K) (m : smap K V) : V * smap K V :=
  match map_find k m with
  | Some v => (v, m)
  | None => (d, map_assign k d m)
  end.

Fixpoint map_erase (k : K) (m : smap K V) : smap K V :=
  match m with
  | [] => []
  | (k', v') :: t =>
      if lt k k' then m
      else if lt k' k then (k', v') :: map_erase k t
      else t
  end.

End operations.

(** ** Laws *)

Section laws.
Context {K V : Type} (lt : K -> K -> bool) `{!Comparator lt}.
Abbreviation find := (map_find lt).
Abbreviation assign := (map_assign lt).
Abbreviation erase := (map_erase lt).
Implicit Types (m : smap K V) (k : K) (v : V).

Definition before (x y : K * V) : Prop := rank (lt:=lt) x.1 < rank (lt:=lt) y.1.
Abbreviation rk := (rank (lt:=lt)).

(** The nodes are strictly increasing, so no two keys are the same. *)
Definition sorted (m : smap K V) : Prop := StronglySorted before m.

Lemma lt_rk a b : lt a b = (rk a <? rk b).
Proof. apply lt_rank. Qed.

Lemma same_key_rank a b : same_key lt a b = (rk a =? rk b).
Proof.
  unfold same_key. rewrite !lt_rk.
  repeat zcase; simpl; lia || done.
Qed.

(** The comparator is a strict weak ordering. *)
Lemma comparator_strict_weak_order a b c :
  lt a a = false /\
  (lt a b = true -> lt b c = true -> lt a c = true) /\
  (same_key lt a b = true -> same_key lt b c = true -> same_key lt a c = true).
Proof. rewrite !same_key_rank, !lt_rk. repeat zcase; split_and!; lia || done. Qed.

Lemma find_same k k' m : rk k = rk k' -> find k m = find k' m.
Proof.
  intros E; induction m as [|[k0 v0] m IH]; simpl; [done|].
  by rewrite !same_key_rank, E, IH.
Qed.

Lemma find_Some_elem k v m : find k m = Some v -> exists k', (k', v) ∈ m /\ rk k' = rk k.
Proof.
  induction m as [|[k0 v0] m IH]; simpl; [done|].
  rewrite same_key_rank. zcase.
  - intros [= ->]; exists k0; split; [left | done].
  - intros (k' & ? & ?)%IH; exists k'; split; [by right | done].
Qed.

Lemma find_None k m : find k m = None <-> forall x, x ∈ m -> rk x.1 <> rk k.
Proof.
  induction m as [|[k0 v0] m IH]; simpl.
  - split; [|done]. by intros _ x ?%not_elem_of_nil.
  - rewrite same_key_rank. zcase.
    + split; [done|]. intros Hn. exfalso. apply (Hn (k0, v0)); [left | done].
    + rewrite IH. split.
      * intros Hn x [->|Hx]%elem_of_cons; [simpl; congruence | by apply Hn].
      * intros Hn x Hx; apply Hn; by right.
Qed.

Lemma sorted_cons k v m :
  sorted ((k, v) :: m) <-> sorted m /\ forall x, x ∈ m -> rk k < rk x.1.
Proof.
  unfold sorted. split.
  - intros [? H]%StronglySorted_inv. rewrite Forall_forall in H. by split.
  - intros [? H]. constructor; [done|]. by apply Forall_forall.
Qed.

Lemma sorted_app m1 m2 :
  sorted (m1 ++ m2) <->
  sorted m1 /\ sorted m2 /\ forall x y, x ∈ m1 -> y ∈ m2 -> rk x.1 < rk y.1.
Proof. apply StronglySorted_app_iff. Qed.

(** *** A key that is in the map *)

Lemma find_middle m1 k0 v0 m2 k :
  sorted (m1 ++ (k0, v0) :: m2) -> rk k = rk k0 -> find k (m1 ++ (k0, v0) :: m2) = Some v0.
Proof.
  intros (_ & _ & Hlt)%sorted_app E.
  assert (forall x, x ∈ m1 -> rk x.1 <> rk k) as Hne.
  { intros x Hx. specialize (Hlt x (k0, v0) Hx (list_elem_of_here _ _)). simpl in Hlt. lia. }
  clear Hlt. induction m1 as [|[k1 v1] m1 IH]; simpl; rewrite same_key_rank.
  - zcase; [done | lia].
  - zcase.
    + exfalso. apply (Hne (k1, v1)); [left | simpl; lia].
    + apply IH. intros x Hx; apply Hne; by right.
Qed.

Lemma assign_middle m1 k0 v0 m2 k v :
  sorted (m1 ++ (k0, v0) :: m2) -> rk k = rk k0 ->
  assign k v (m1 ++ (k0, v0) :: m2) = m1 ++ (k0, v) :: m2.
Proof.
  intros (_ & _ & Hlt)%sorted_app E.
  induction m1 as [|[k1 v1] m1 IH]; simpl; rewrite !lt_rk.
  - repeat zcase; lia || done.
  - assert (rk k1 < rk k0) by (apply (Hlt (k1, v1) (k0, v0)); left).
    repeat zcase; try lia. f_equal. apply IH.
    intros x y Hx Hy; apply Hlt; [by right | done].
Qed.

Lemma erase_middle m1 k0 v0 m2 k :
  sorted (m1 ++ (k0, v0) :: m2) -> rk k = rk k0 ->
  erase k (m1 ++ (k0, v0) :: m2) = m1 ++ m2.
Proof.
  intros (_ & _ & Hlt)%sorted_app E.
  induction m1 as [|[k1 v1] m1 IH]; simpl; rewrite !lt_rk.
  - repeat zcase; lia || done.
  - assert (rk k1 < rk k0) by (apply (Hlt (k1, v1) (k0, v0)); left).
    repeat zcase; try lia. f_equal. apply IH.
    intros x y Hx Hy; apply Hlt; [by right | done].
Qed.

Lemma sorted_middle_value m1 k0 v0 v m2 :
  sorted (m1 ++ (k0, v0) :: m2) -> sorted (m1 ++ (k0, v) :: m2).
Proof.
  rewrite !sorted_app, !sorted_cons. intros (H1 & [H2 H2'] & H3). split_and!; [done..|].
  intros x y Hx [->|Hy]%elem_of_cons.
  - apply (H3 x (k0, v0)); [done | left].
  - apply H3; [done | by right].
Qed.

Lemma sorted_middle_drop m1 kv m2 : sorted (m1 ++ kv :: m2) -> sorted (m1 ++ m2).
Proof.
  destruct kv as [k0 v0].
  rewrite !sorted_app, !sorted_cons. intros (H1 & [H2 H2'] & H3). split_and!; [done..|].
  intros x y Hx Hy. apply H3; [done | by right].
Qed.

(** *** A key that is not in the map *)

Lemma assign_absent k v m :
  sorted m -> find k m = None ->
  exists m1 m2, m = m1 ++ m2 /\ assign k v m = m1 ++ (k, v) :: m2 /\
    (forall x, x ∈ m1 -> rk x.1 < rk k) /\ (forall x, x ∈ m2 -> rk k < rk x.1).
Proof.
  intros Hs Hn. induction m as [|[k0 v0] m IH]; simpl.
  - exists [], []. split_and!; [done..| |]; by intros x ?%not_elem_of_nil.
  - apply sorted_cons in Hs as [Hs Hk0]. simpl in Hn. rewrite same_key_rank in Hn.
    rewrite !lt_rk. repeat zcase; try done; try lia.
    + exists [], ((k0, v0) :: m). split_and!; [done..| |].
      * by intros x ?%not_elem_of_nil.
      * intros x [->|Hx]%elem_of_cons; [simpl; lia|]. specialize (Hk0 x Hx). lia.
    + destruct (IH Hs Hn) as (m1 & m2 & -> & -> & H1 & H2).
      exists ((k0, v0) :: m1), m2. split_and!; [done..| |done].
      intros x [->|Hx]%elem_of_cons; [simpl; lia | by apply H1].
Qed.

Lemma assign_between k v m1 m2 :
  (forall x, x ∈ m1 -> rk x.1 < rk k) -> (forall x, x ∈ m2 -> rk k < rk x.1) ->
  assign k v (m1 ++ m2) = m1 ++ (k, v) :: m2.
Proof.
  intros H1 H2. induction m1 as [|[k1 v1] m1 IH]; simpl.
  - destruct m2 as [|[k2 v2] m2]; simpl; [done|]. rewrite lt_rk.
    specialize (H2 (k2, v2) (list_elem_of_here _ _)). simpl in H2. by zcase; [|lia].
  - pose proof (H1 (k1, v1) (list_elem_of_here _ _)) as Hk1. simpl in Hk1.
    rewrite !lt_rk. repeat zcase; try lia. f_equal. apply IH.
    intros x Hx; apply H1; by right.
Qed.

Lemma erase_absent k m : find k m = None -> erase k m = m.
Proof.
  induction m as [|[k0 v0] m IH]; simpl; [done|].
  rewrite same_key_rank, !lt_rk. repeat zcase; try done; try lia.
  intros ?; f_equal; auto.
Qed.

Lemma sorted_find_split k v m :
  find k m = Some v -> exists m1 k' m2, m = m1 ++ (k', v) :: m2 /\ rk k' = rk k.
Proof.
  intros (k' & Hin & E)%find_Some_elem.
  apply list_elem_of_split in Hin as (m1 & m2 & ->). by exists m1, k', m2.
Qed.

(** *** Algebra of lookups *)

Lemma sorted_assign k v m : sorted m -> sorted (assign k v m).
Proof.
  intros Hs. destruct (find k m) as [v0|] eqn:Hf.
  - apply sorted_find_split in Hf as (m1 & k' & m2 & -> & E).
    rewrite assign_middle by done. by eapply sorted_middle_value.
  - destruct (assign_absent k v m Hs Hf) as (m1 & m2 & -> & -> & H1 & H2).
    apply sorted_app in Hs as (Hs1 & Hs2 & H12).
    apply sorted_app. split_and!; [done | by apply sorted_cons |].
    intros x y Hx [->|Hy]%elem_of_cons; [by apply H1 | by apply H12].
Qed.

Lemma sorted_erase k m : sorted m -> sorted (erase k m).
Proof.
  intros Hs. destruct (find k m) as [v0|] eqn:Hf.
  - apply sorted_find_split in Hf as (m1 & k' & m2 & -> & E).
    rewrite erase_middle by done. by eapply sorted_middle_drop.
  - by rewrite erase_absent.
Qed.

Lemma values_assign (P : V -> Prop) k v m :
  Forall (fun x => P x.2) m -> P v -> Forall (fun x => P x.2) (assign k v m).
Proof.
  intros H Hv. induction H as [|[k0 v0] m Hx H IH]; simpl; [by repeat constructor|].
  destruct (lt k k0); [by repeat constructor|]. destruct (lt k0 k); by constructor.
Qed.

Lemma find_assign k v m k' :
  find k' (assign k v m) = if rk k =? rk k' then Some v else find k' m.
Proof.
  induction m as [|[k0 v0] m IH]; simpl.
  - rewrite same_key_rank. repeat zcase; lia || done.
  - rewrite !lt_rk. repeat zcase; simpl; rewrite ?same_key_rank, ?IH;
      repeat zcase; try lia; done.
Qed.

Lemma find_erase k m k' :
  sorted m -> find k' (erase k m) = if rk k =? rk k' then None else find k' m.
Proof.
  intros Hs. destruct (find k m) as [v0|] eqn:Hf.
  - apply sorted_find_split in Hf as (m1 & k0 & m2 & -> & E).
    rewrite erase_middle by done.
    apply sorted_app in Hs as (Hs1 & [Hs2 Hk0]%sorted_cons & H12).
    zcase.
    + apply find_None. intros x [Hx|Hx]%elem_of_app.
      * specialize (H12 x (k0, v0) Hx (list_elem_of_here _ _)). simpl in H12. lia.
      * specialize (Hk0 x Hx). lia.
    + clear Hs1 H12. induction m1 as [|[k1 v1] m1 IH]; simpl; rewrite same_key_rank.
      * zcase; lia || done.
      * by rewrite IH.
  - rewrite erase_absent by done. zcase; [|done].
    rewrite <- Hf. by apply find_same.
Qed.

End laws.

Arguments sorted {K V} lt {_} m.
Arguments rank {K} lt {_} k.

(** Being sorted only looks at the keys. *)
Lemma sorted_same_keys {K V W} (lt : K -> K -> bool) `{!Comparator lt}
    (m : smap K V) (m' : smap K W) :
  m.*1 = m'.*1 -> sorted lt m -> sorted lt m'.
Proof.
  revert m'; induction m as [|[k v] m IH]; intros [|[k' v'] m']; try done.
  { intros _ _. constructor. }
  rewrite !fmap_cons. intros [= <- E]. rewrite !sorted_cons. intros [Hs Hk].
  split; [by apply IH|]. intros x Hx.
  assert (x.1 ∈ m.*1) as (y & -> & Hy)%list_elem_of_fmap.
  { rewrite E. apply list_elem_of_fmap. eauto. }
  by apply Hk.
Qed.

Lemma find_fmap {K V W} (lt : K -> K -> bool) (f : V -> W) k (m : smap K V) :
  map_find lt k ((fun kv => (kv.1, f kv.2)) <$> m) = f <$> map_find lt k m.
Proof.
  induction m as [|[k' v] m IH]; [done|]. rewrite fmap_cons. cbn [map_find fst snd].
  by destruct (same_key lt k k').
Qed.

(** ** Integer-valued maps with default 0, the value [operator[]] creates *)

Section counters.
Context {K : Type} (lt : K -> K -> bool) `{!Comparator lt}.
Implicit Types (m : smap K Z).

Definition count (k : K) (m : smap K Z) : Z := default 0 (map_find lt k m).

Lemma count_same k k' m : rank lt k = rank lt k' -> count k m = count k' m.
Proof. intros E. unfold count. by rewrite (find_same lt k k' m E). Qed.

Lemma count_assign k v m k' :
  count k' (map_assign lt k v m) = if rank lt k =? rank lt k' then v else count k' m.
Proof. unfold count. rewrite (find_assign lt). by zcase. Qed.

Lemma count_erase k m k' :
  sorted lt m ->
  count k' (map_erase lt k m) = if rank lt k =? rank lt k' then 0 else count k' m.
Proof. intros. unfold count. rewrite (find_erase lt) by done. by zcase. Qed.

Lemma count_cons k v m k' :
  count k' ((k, v) :: m) = if rank lt k =? rank lt k' then v else count k' m.
Proof.
  unfold count. cbn [map_find]. rewrite (same_key_rank lt). repeat zcase; lia || done.
Qed.

Lemma count_below k m : (forall x, x ∈ m -> rank lt k < rank lt x.1) -> count k m = 0.
Proof.
  intros H. unfold count. rewrite (proj2 (find_None lt k m)); [done|].
  intros x Hx. specialize (H x Hx). lia.
Qed.

(** Two sorted maps without zeros that count the same are the same. *)
Lemma counts_ext m m' :
  sorted lt m -> sorted lt m' ->
  Forall (fun x => x.2 <> 0) m -> Forall (fun x => x.2 <> 0) m' ->
  (forall k, count k m = count k m') ->
  Forall2 (fun x y => rank lt x.1 = rank lt y.1 /\ x.2 = y.2) m m'.
Proof.
  revert m'. induction m as [|[k v] m IH]; intros [|[k' v'] m'] Hs Hs' Hz Hz' Heq; [done|..].
  - specialize (Heq k'). rewrite count_cons, Z.eqb_refl in Heq by done.
    apply Forall_cons in Hz' as [Hz' _]. by destruct Hz'.
  - specialize (Heq k). rewrite count_cons, Z.eqb_refl in Heq by done.
    apply Forall_cons in Hz as [Hz _]. by destruct Hz.
  - pose proof (proj1 (sorted_cons lt _ _ _) Hs) as [Hs1 Hlt].
    pose proof (proj1 (sorted_cons lt _ _ _) Hs') as [Hs1' Hlt'].
    apply Forall_cons in Hz as [Hv Hz]. apply Forall_cons in Hz' as [Hv' Hz']. simpl in Hv, Hv'.
    assert (rank lt k = rank lt k') as Ek.
    { pose proof (Heq k) as H1. pose proof (Heq k') as H2. rewrite !count_cons in H1, H2 by done.
      rewrite Z.eqb_refl in H1, H2.
      destruct (Z.lt_trichotomy (rank lt k) (rank lt k')) as [?|[?|?]]; [|done|].
      - rewrite (proj2 (Z.eqb_neq _ _)), (count_below k m') in H1; [done| |lia].
        intros x Hx. specialize (Hlt' x Hx). lia.
      - rewrite (proj2 (Z.eqb_neq _ _)), (count_below k' m) in H2; [by destruct Hv'| |lia].
        intros x Hx. specialize (Hlt x Hx). lia. }
    assert (v = v') as <-.
    { specialize (Heq k). rewrite !count_cons, Ek, Z.eqb_refl in Heq by done. done. }
    constructor; [done|]. apply IH; try done. intros j. specialize (Heq j).
    rewrite !count_cons, Ek in Heq by done. revert Heq. zcase; [intros _|done].
    rewrite !count_below; [done|..]; intros x Hx;
      [specialize (Hlt' x Hx)|specialize (Hlt x Hx)]; lia.
Qed.

End counters.
