(* ===== verification/Price.v ===== *)
(** * Prices: [using Price = double] (src/src/include/common.h)

    A price is an IEEE binary64 number, represented by the standard library's
    [spec_float] with precision 53 and maximal exponent 1024.  NaN is left out
    of the type: with a NaN key neither comparator is a strict weak ordering
    and [std::map] promises nothing ([NaN_breaks_ask_order] below shows it).
    The two zeros are both kept: they are different doubles that every
    comparison of the program identifies, so prices are compared up to the
    equivalence [≡] and never up to [=].

    [price_key] maps prices to integers monotonically, and reduces every
    question on the order of prices to linear arithmetic. *)

From S2P Require Import Prelude.
From Stdlib Require Import SpecFloat.

(** binary64 *)
Definition prec : Z := 53.
Definition emax : Z := 1024.

Definition is_number (f : spec_float) : bool :=
  valid_binary prec emax f && match f with S754_nan => false | _ => true end.

Record Price : Type := mkPrice { bits : spec_float; bits_ok : is_number bits = true }.

(** The double nearest to an integer, and to a quotient of integers: how the
    compiler reads the literals [104] and [97.23]. *)
Definition double_of_Z (z : Z) : spec_float := binary_normalize prec emax z 0 false.
Definition double_of_frac (n d : Z) : spec_float :=
  SFdiv prec emax (double_of_Z n) (double_of_Z d).

Notation "'px' z" := (mkPrice (double_of_Z z) eq_refl) (at level 9, z at level 8) : ob_scope.
Notation "'pxf' n d" := (mkPrice (double_of_frac n d) eq_refl)
  (at level 9, n at level 8, d at level 8) : ob_scope.

(** The comparison operators of the language on doubles. *)
Definition plt (a b : Price) : bool := SFltb (bits a) (bits b).   (* a < b  *)
Definition pgt (a b : Price) : bool := SFltb (bits b) (bits a).   (* a > b  *)
Definition ple (a b : Price) : bool := SFleb (bits a) (bits b).   (* a <= b *)
Definition pge (a b : Price) : bool := SFleb (bits b) (bits a).   (* a >= b *)
Definition peq (a b : Price) : bool := SFeqb (bits a) (bits b).   (* a == b *)

(** ** Order-preserving integer keys *)

Definition float_key (f : spec_float) : Z :=
  match f with
  | S754_zero _ => 0
  | S754_infinity s => if s then - 2 ^ 70 else 2 ^ 70
  | S754_nan => 0
  | S754_finite s m e =>
      let k := (e + 1074) * 2 ^ 53 + Zpos m in if s then - k else k
  end.

Definition price_key (p : Price) : Z := float_key (bits p).

Lemma digits2_pos_bound m : Zpos m < 2 ^ Zpos (digits2_pos m).
Proof.
  induction m as [m IH|m IH|]; simpl digits2_pos; [..|done];
    rewrite Pos2Z.inj_succ, Z.pow_succ_r by lia; lia.
Qed.

Lemma valid_finite_range s m e :
  is_number (S754_finite s m e) = true ->
  -1074 <= e <= 971 /\ Zpos m < 2 ^ 53.
Proof.
  unfold is_number, valid_binary, bounded, canonical_mantissa, fexp, SpecFloat.emin, prec, emax.
  rewrite andb_true_r, andb_true_iff, Z.eqb_eq, Z.leb_le. intros [He Hmax].
  split; [lia|].
  eapply Z.lt_le_trans; [apply digits2_pos_bound|].
  apply Z.pow_le_mono_r; lia.
Qed.

Lemma SFcompare_key f g :
  is_number f = true -> is_number g = true ->
  SFcompare f g = Some (float_key f ?= float_key g).
Proof.
  change (2 ^ 53) with 9007199254740992.
  destruct f as [s|[]| |[] m e], g as [t|[]| |[] n d]; try done;
    intros Hf Hg; try apply valid_finite_range in Hf; try apply valid_finite_range in Hg;
    unfold float_key; simpl SFcompare; f_equal; symmetry;
    change (2 ^ 53) with 9007199254740992 in *;
    change (2 ^ 70) with 1180591620717411303424 in *;
    try (apply Z.compare_lt_iff; lia); try (apply Z.compare_gt_iff; lia).
  - destruct (Z.compare_spec e d).
    + subst. change (Pos.compare_cont Eq m n) with (Pos.compare m n).
      change (Pos.compare m n) with (Zpos m ?= Zpos n).
      destruct (Z.compare_spec (Zpos m) (Zpos n)); simpl;
        [apply Z.compare_eq_iff | apply Z.compare_gt_iff | apply Z.compare_lt_iff]; lia.
    + apply Z.compare_gt_iff; lia.
    + apply Z.compare_lt_iff; lia.
  - destruct (Z.compare_spec e d).
    + subst. change (Pos.compare_cont Eq m n) with (Pos.compare m n).
      change (Pos.compare m n) with (Zpos m ?= Zpos n).
      destruct (Z.compare_spec (Zpos m) (Zpos n)); simpl;
        [apply Z.compare_eq_iff | apply Z.compare_lt_iff | apply Z.compare_gt_iff]; lia.
    + apply Z.compare_lt_iff; lia.
    + apply Z.compare_gt_iff; lia.
Qed.

Lemma price_compare a b : SFcompare (bits a) (bits b) = Some (price_key a ?= price_key b).
Proof. apply SFcompare_key; apply bits_ok. Qed.

Ltac by_key :=
  intros; unfold plt, pgt, ple, pge, peq, SFltb, SFleb, SFeqb;
  rewrite price_compare; unfold Z.ltb, Z.leb, Z.eqb;
  first [done | by destruct (Z.compare _ _) ].

Lemma plt_key a b : plt a b = (price_key a <? price_key b).
Proof. by_key. Qed.
Lemma pgt_key a b : pgt a b = (price_key b <? price_key a).
Proof. by_key. Qed.
Lemma ple_key a b : ple a b = (price_key a <=? price_key b).
Proof. by_key. Qed.
Lemma pge_key a b : pge a b = (price_key b <=? price_key a).
Proof. by_key. Qed.
Lemma peq_key a b : peq a b = (price_key a =? price_key b).
Proof.
  unfold peq, SFeqb. rewrite price_compare.
  destruct (Z.compare_spec (price_key a) (price_key b)); symmetry;
    [apply Z.eqb_eq | apply Z.eqb_neq | apply Z.eqb_neq]; lia.
Qed.
#[export] Hint Rewrite plt_key pgt_key ple_key pge_key peq_key : ob.

(** ** Equality of prices *)

#[export] Instance price_equiv : Equiv Price := fun a b => price_key a = price_key b.

#[export] Instance price_equivalence : Equivalence (≡@{Price}).
Proof. split; unfold equiv, price_equiv; repeat intro; congruence. Qed.

#[export] Instance price_equiv_dec : RelDecision (≡@{Price}).
Proof. intros a b. unfold equiv, price_equiv. apply _. Defined.

#[export] Instance price_key_proper : Proper ((≡) ==> (=)) price_key.
Proof. by intros a b. Qed.

#[export] Instance plt_proper : Proper ((≡) ==> (≡) ==> (=)) plt.
Proof. intros a b Hab c d Hcd. by rewrite !plt_key, Hab, Hcd. Qed.

Lemma peq_equiv a b : peq a b = true <-> a ≡ b.
Proof. by rewrite peq_key, Z.eqb_eq. Qed.

(** NaN compares neither less nor greater than anything, while 1 < 2: "neither
    less" is not transitive, so [<] on all doubles is no strict weak ordering. *)
Lemma NaN_breaks_ask_order (one := double_of_Z 1) (two := double_of_Z 2) :
  (SFltb S754_nan one = false /\ SFltb one S754_nan = false) /\
  (SFltb S754_nan two = false /\ SFltb two S754_nan = false) /\
  SFltb one two = true.
Proof. done. Qed.
