(* ===== verification/Common.v ===== *)
(** * Shared types (src/src/include/common.h)

    [using Quantity = int] and [using OrderId = int]: 32-bit signed integers,
    held as [Z].  Every addition and subtraction the program performs on them
    goes through [iadd]/[isub], which fault on signed overflow. *)

From S2P Require Import Prelude Outcome StdMap Price.

Abbreviation Quantity := Z.
Abbreviation OrderId := Z.
Abbreviation PriceComparator := (Price -> Price -> bool).

(** ** 32-bit signed arithmetic *)

Definition INT_MAX : Z := 2147483647.
Definition INT_MIN : Z := -2147483648.

Definition int_ok (z : Z) : bool := (INT_MIN <=? z) && (z <=? INT_MAX).

Definition iadd (a b : Z) : outcome Z :=
  if int_ok (a + b) then Ok (a + b) else Err IntOverflow.
Definition isub (a b : Z) : outcome Z :=
  if int_ok (a - b) then Ok (a - b) else Err IntOverflow.

Lemma int_ok_iff z : int_ok z = true <-> INT_MIN <= z <= INT_MAX.
Proof. unfold int_ok. rewrite andb_true_iff, !Z.leb_le. lia. Qed.

Lemma iadd_ok a b : INT_MIN <= a + b <= INT_MAX -> iadd a b = Ok (a + b).
Proof. intros H%int_ok_iff. unfold iadd. by rewrite H. Qed.

Lemma isub_ok a b : INT_MIN <= a - b <= INT_MAX -> isub a b = Ok (a - b).
Proof. intros H%int_ok_iff. unfold isub. by rewrite H. Qed.

Lemma iadd_overflow a b : INT_MAX < a + b -> iadd a b = Err IntOverflow.
Proof.
  intros H. unfold iadd. destruct (int_ok (a + b)) eqn:E; [|done].
  apply int_ok_iff in E. lia.
Qed.

(** Closes a range condition. *)
Ltac range := unfold INT_MIN, INT_MAX in *; lia.

#[export] Hint Extern 1 (iadd _ _ = Ok _) => apply iadd_ok; range : ok.
#[export] Hint Extern 1 (isub _ _ = Ok _) => apply isub_ok; range : ok.

(** ** Comparators *)

Definition BidComparator : PriceComparator := fun lhs rhs => pgt lhs rhs.
Definition AskComparator : PriceComparator := fun lhs rhs => plt lhs rhs.

#[export] Instance plt_comparator : Comparator plt :=
  Build_Comparator _ plt price_key plt_key.

(** The comparator of a side of the book: best price first on both. *)
Definition side_comp (is_sell : bool) : PriceComparator :=
  if is_sell then AskComparator else BidComparator.

Definition side_rank (is_sell : bool) (p : Price) : Z :=
  if is_sell then price_key p else - price_key p.

Lemma side_comp_rank b x y : side_comp b x y = (side_rank b x <? side_rank b y).
Proof.
  destruct b; simpl; unfold AskComparator, BidComparator.
  - apply plt_key.
  - rewrite pgt_key. repeat zcase; lia || done.
Qed.

#[export] Instance side_comparator b : Comparator (side_comp b) :=
  Build_Comparator _ (side_comp b) (side_rank b) (side_comp_rank b).

Lemma side_rank_equiv b x y : side_rank b x = side_rank b y <-> x ≡ y.
Proof. unfold equiv, price_equiv, side_rank. destruct b; lia. Qed.

#[export] Instance side_rank_proper b : Proper ((≡) ==> (=)) (side_rank b).
Proof. intros x y H. by apply side_rank_equiv. Qed.

(** ** Quantities by price: [m[k] += q] and [m[k] -= q] *)

Definition map_add {K} (lt : K -> K -> bool) (k : K) (q : Z) (m : smap K Z)
    : outcome (smap K Z) :=
  v ← iadd (count lt k m) q; Ok (map_assign lt k v m).

Definition map_sub {K} (lt : K -> K -> bool) (k : K) (q : Z) (m : smap K Z)
    : outcome (smap K Z) :=
  v ← isub (count lt k m) q; Ok (map_assign lt k v m).

(** ** Order events *)

Inductive OrderEvent : Type := ADD | CANCEL | EXEC | MODIF.

#[export] Instance OrderEvent_eq_dec : EqDecision OrderEvent.
Proof. solve_decision. Defined.

Record OrderInfo : Type := mkOrderInfo {
  event : OrderEvent;
  odid : OrderId;
  is_sell : bool;
  quantity : Quantity;
  price : Price }.

(** [operator==]; it does not look at [is_sell]. *)
Definition OrderInfo_eqb (lhs rhs : OrderInfo) : bool :=
  bool_decide (event lhs = event rhs) && (odid lhs =? odid rhs) &&
  (quantity lhs =? quantity rhs) && peq (price lhs) (price rhs).

Abbreviation OrderInfoVec := (list OrderInfo).

(** [a.reserve(...)] and the move of [b]'s elements behind those of [a]. *)
Definition mergeEvents (a b : OrderInfoVec) : OrderInfoVec := a ++ b.
