(* ===== verification/Order.v ===== *)
(** * Orders and the pointers to them (src/src/include/order.h)

    [OrderPtr] is a [std::shared_ptr<Order>]: the level lists, the order map
    and the functions' arguments share one [Order], so orders live in a store
    and a pointer is an address in it.  A shared order stays alive as long as
    somebody points to it; the store never frees, which no operation can
    observe.  [std::list] iterators are node addresses from the same supply. *)

From S2P Require Import Prelude Outcome StdMap Price Common.

Record Order : Type := mkOrder {
  odid : OrderId;
  is_sell : bool;
  quantity : Quantity;
  price : Price;
  filled_quantity : Quantity }.

(** The constructor: nothing is filled yet. *)
Definition new_Order (id : OrderId) (is_sell : bool) (quantity : Quantity) (price : Price) : Order :=
  mkOrder id is_sell quantity price 0.

Definition getRemainingQuantity (o : Order) : outcome Quantity :=
  isub (quantity o) (filled_quantity o).

Definition set_quantity (o : Order) (q : Quantity) : Order :=
  mkOrder (odid o) (is_sell o) q (price o) (filled_quantity o).
Definition set_filled_quantity (o : Order) (f : Quantity) : Order :=
  mkOrder (odid o) (is_sell o) (quantity o) (price o) f.

(** ** The store *)

Abbreviation OrderPtr := positive.
Abbreviation OrderListIter := positive.
Abbreviation OrderList := (list (OrderListIter * OrderPtr)).

(** The null pointer and the singular iterator: never handed out. *)
Definition nullptr : OrderPtr := 1%positive.
Definition singular : OrderListIter := 1%positive.

Record Store : Type := mkStore { heap : gmap positive Order; next : positive }.

Definition emptyStore : Store := mkStore ∅ 2%positive.

Definition deref (m : Store) (p : OrderPtr) : outcome Order :=
  or_fault InvalidDeref (heap m !! p).

(** [std::make_shared<Order>(...)] *)
Definition make_shared (m : Store) (o : Order) : OrderPtr * Store :=
  (next m, mkStore (<[next m := o]> (heap m)) (Pos.succ (next m))).

(** A fresh list node. *)
Definition new_node (m : Store) : OrderListIter * Store :=
  (next m, mkStore (heap m) (Pos.succ (next m))).

Definition write (m : Store) (p : OrderPtr) (o : Order) : Store :=
  mkStore (<[p := o]> (heap m)) (next m).

(** [order->filled_quantity += qty] *)
Definition add_filled (m : Store) (p : OrderPtr) (qty : Quantity) : outcome Store :=
  o ← deref m p;
  f ← iadd (filled_quantity o) qty;
  Ok (write m p (set_filled_quantity o f)).

Record OrderHandler : Type := mkOrderHandler { order : OrderPtr; iter : OrderListIter }.

Abbreviation OrderMap := (gmap Z OrderHandler).

(** ** Remaining quantity as a number *)

Definition rem (o : Order) : Z := quantity o - filled_quantity o.

(** Orders as the program keeps them: what is filled is between nothing and
    the whole quantity. *)
Record order_sane (o : Order) : Prop := {
  sane_filled : 0 <= filled_quantity o <= quantity o;
  sane_max : quantity o <= INT_MAX }.

Lemma getRemainingQuantity_ok o : order_sane o -> getRemainingQuantity o = Ok (rem o).
Proof.
  intros [H1 H2]. unfold getRemainingQuantity, rem. apply isub_ok. unfold INT_MIN. lia.
Qed.

Lemma rem_nonneg o : order_sane o -> 0 <= rem o <= INT_MAX.
Proof. intros [H1 H2]. unfold rem. lia. Qed.

(** An order with [x] more filled. *)
Definition fill (o : Order) (x : Z) : Order := set_filled_quantity o (filled_quantity o + x).

Lemma rem_fill o x : rem (fill o x) = rem o - x.
Proof. unfold rem; simpl; lia. Qed.

Lemma fill_0 o : fill o 0 = o.
Proof. destruct o. unfold fill, set_filled_quantity; simpl. by rewrite Z.add_0_r. Qed.

Lemma fill_fill o x y : fill (fill o x) y = fill o (x + y).
Proof. unfold fill, set_filled_quantity; simpl. by rewrite Z.add_assoc. Qed.

Lemma fill_sane o x : order_sane o -> 0 <= x <= rem o -> order_sane (fill o x).
Proof. intros [H1 H2]. unfold rem. split; simpl; lia. Qed.

Lemma deref_ok m p o : heap m !! p = Some o -> deref m p = Ok o.
Proof. intros H. unfold deref. by rewrite H. Qed.

#[export] Hint Resolve deref_ok getRemainingQuantity_ok : ok.

Lemma add_filled_ok m p o x :
  heap m !! p = Some o -> order_sane o -> 0 <= x <= rem o ->
  add_filled m p x = Ok (write m p (fill o x)).
Proof. intros H [H1 H2] Hx. unfold add_filled, rem in *. by do 2 run. Qed.

#[export] Hint Resolve add_filled_ok : ok.
#[export] Hint Rewrite rem_fill : ob.
