(* ===== verification/L2Level.v ===== *)
(** * Price levels of a snapshot (src/src/include/level.h, [L2PriceLevel]) *)

From S2P Require Import Prelude Outcome StdMap Price Common.

Record L2PriceLevel : Type := mkL2PriceLevel { price : Price; quantity : Quantity }.

(** The default constructor. *)
Definition L2PriceLevel_default : L2PriceLevel := mkL2PriceLevel (px 0) 0.

(** [operator==] *)
Definition L2PriceLevel_eqb (lhs rhs : L2PriceLevel) : bool :=
  peq (price lhs) (price rhs) && (quantity lhs =? quantity rhs).

Abbreviation L2SnapshotSide := (list L2PriceLevel).
Abbreviation L2SnapshotSideQue := (list L2SnapshotSide).

(** [std::vector]'s [operator==] on sides. *)
Fixpoint L2SnapshotSide_eqb (a b : L2SnapshotSide) : bool :=
  match a, b with
  | [], [] => true
  | x :: a', y :: b' => L2PriceLevel_eqb x y && L2SnapshotSide_eqb a' b'
  | _, _ => false
  end.

(** Levels are equal up to the two zeros of their prices. *)
#[export] Instance L2PriceLevel_equiv : Equiv L2PriceLevel := fun a b =>
  price a ≡ price b /\ quantity a = quantity b.

#[export] Instance L2PriceLevel_equivalence : Equivalence (≡@{L2PriceLevel}).
Proof.
  split; unfold equiv, L2PriceLevel_equiv.
  - by intros [].
  - intros x y [? ?]; by split.
  - intros x y z [? ?] [? ?]; split; etransitivity; eauto.
Qed.

Lemma L2PriceLevel_eqb_equiv a b : L2PriceLevel_eqb a b = true <-> a ≡ b.
Proof. unfold L2PriceLevel_eqb. by rewrite andb_true_iff, peq_equiv, Z.eqb_eq. Qed.

Lemma L2SnapshotSide_eqb_equiv a b : L2SnapshotSide_eqb a b = true <-> a ≡ b.
Proof.
  revert b; induction a as [|x a IH]; intros [|y b]; simpl;
    try (split; [done | by inversion 1]); try done.
  rewrite andb_true_iff, L2PriceLevel_eqb_equiv, IH. split.
  - intros [??]; by constructor.
  - by inversion 1.
Qed.

#[export] Instance L2SnapshotSide_equiv_dec : RelDecision (≡@{L2SnapshotSide}).
Proof.
  intros a b. destruct (L2SnapshotSide_eqb a b) eqn:E.
  - left. by apply L2SnapshotSide_eqb_equiv.
  - right. intros H%L2SnapshotSide_eqb_equiv. congruence.
Defined.
