(* ===== verification/Level.v ===== *)
(** * One price level of the book (src/src/include/level.h, src/src/level.cpp)

    [L3PriceLevel] caches the total remaining quantity and the number of its
    orders next to the list itself, which keeps time priority: new orders go
    to the back.  Orders are shared, so operations read and write the store. *)

From S2P Require Import Prelude Outcome StdMap Price Common Order L2Level.

Record L3PriceLevel : Type := mkL3PriceLevel {
  price : Price;
  quantity : Quantity;
  num_orders : Z;
  orders : OrderList }.

(** The default constructor: what [levels_[price]] creates. *)
Definition L3PriceLevel_default : L3PriceLevel := mkL3PriceLevel (px 0) 0 0 [].

(** [L3PriceLevel::addOrder]; the iterator is that of the pushed node. *)
Definition addOrder (m : Store) (l : L3PriceLevel) (order : OrderPtr)
    : outcome (Store * L3PriceLevel * OrderListIter) :=
  o ← deref m order;
  r ← getRemainingQuantity o;
  q ← iadd (quantity l) r;
  n ← iadd (num_orders l) 1;
  let '(it, m) := new_node m in
  Ok (m, mkL3PriceLevel (Order.price o) q n (orders l ++ [(it, order)]), it).

(** [orders.erase(it)]: [it] has to be a node of this list. *)
Fixpoint list_erase (it : OrderListIter) (os : OrderList) : outcome OrderList :=
  match os with
  | [] => Err InvalidIterator
  | c :: os => if Pos.eqb c.1 it then Ok os else os' ← list_erase it os; Ok (c :: os')
  end.

(** [L3PriceLevel::removeOrder] *)
Definition removeOrder (m : Store) (l : L3PriceLevel) (handler : OrderHandler)
    : outcome L3PriceLevel :=
  os ← list_erase (iter handler) (orders l);
  o ← deref m (order handler);
  r ← getRemainingQuantity o;
  q ← isub (quantity l) r;
  n ← isub (num_orders l) 1;
  Ok (mkL3PriceLevel (price l) q n os).

(** [L3PriceLevel::modifyOrder] *)
Definition modifyOrder (m : Store) (l : L3PriceLevel) (order : OrderPtr)
    (new_quantity : Quantity) (new_price : Price) : outcome (Store * L3PriceLevel) :=
  o ← deref m order;
  _ ← c_assert (peq new_price (Order.price o));
  d ← isub new_quantity (Order.quantity o);
  q ← iadd (quantity l) d;
  Ok (write m order (set_quantity o new_quantity),
      mkL3PriceLevel (price l) q (num_orders l) (orders l)).

(** [L3PriceLevel::fillOrder] *)
Definition fillOrder (m : Store) (l : L3PriceLevel) (order : OrderPtr) (qty : Quantity)
    : outcome (Store * L3PriceLevel) :=
  o ← deref m order;
  r ← getRemainingQuantity o;
  _ ← c_assert (qty <=? r);
  m ← add_filled m order qty;
  q ← isub (quantity l) qty;
  Ok (m, mkL3PriceLevel (price l) q (num_orders l) (orders l)).

(** [L3PriceLevel::getL2Level] *)
Definition getL2Level (l : L3PriceLevel) : L2PriceLevel :=
  mkL2PriceLevel (price l) (quantity l).

(** ** What the cached fields stand for *)

Abbreviation total := (zsum rem).

(** A level [l] with key [k] whose list holds the orders [os]. *)
Record level_shape (k : Price) (l : L3PriceLevel) (os : list Order) : Prop := {
  ls_price : price l ≡ k;
  ls_quantity : quantity l = total os;
  ls_num : num_orders l = Z.of_nat (length os);
  ls_length : length (orders l) = length os }.

Lemma total_nonneg os : Forall order_sane os -> 0 <= total os.
Proof.
  intros H. apply zsum_nonneg. eapply Forall_impl; [exact H|].
  intros o Ho. by apply rem_nonneg.
Qed.

(** The error cases of [fillOrder] and [modifyOrder]: overfilling, and a
    modification that changes the price, are assertion failures. *)
Lemma fillOrder_overfill m l p o qty :
  heap m !! p = Some o -> order_sane o -> rem o < qty ->
  fillOrder m l p qty = Err AssertionFailed.
Proof.
  intros Hp Ho Hq. unfold fillOrder. do 2 run.
  rewrite (proj2 (Z.leb_gt _ _)); [done | lia].
Qed.

Lemma modifyOrder_price_change m l p o q price :
  heap m !! p = Some o -> price ≢ Order.price o ->
  modifyOrder m l p q price = Err AssertionFailed.
Proof.
  intros Hp Hne. unfold modifyOrder. run.
  destruct (peq price (Order.price o)) eqn:E; [|done]. by apply peq_equiv in E.
Qed.

(** ** Successful runs *)

Lemma list_erase_middle c1 it p c2 :
  it ∉ c1.*1 -> list_erase it (c1 ++ (it, p) :: c2) = Ok (c1 ++ c2).
Proof.
  induction c1 as [|[n q] c1 IH]; simpl; intros Hn.
  - by rewrite Pos.eqb_refl.
  - rewrite not_elem_of_cons in Hn. destruct Hn as [Hne Hn].
    rewrite (proj2 (Pos.eqb_neq n it)) by congruence. by rewrite IH.
Qed.
#[export] Hint Resolve list_erase_middle : ok.

Lemma addOrder_ok m k l os p o :
  quantity l = total os -> num_orders l = Z.of_nat (length os) ->
  length (orders l) = length os ->
  Order.price o ≡ k -> heap m !! p = Some o -> order_sane o ->
  0 <= total os -> total os + rem o <= INT_MAX -> Z.of_nat (length os) < INT_MAX ->
  exists l',
    addOrder m l p = Ok (mkStore (heap m) (Pos.succ (next m)), l', next m) /\
    orders l' = orders l ++ [(next m, p)] /\ level_shape k l' (os ++ [o]).
Proof.
  intros Hq Hn Hl Hk Ho Hs H0 Htot Hlen. unfold addOrder.
  pose proof (rem_nonneg o Hs).
  eexists; split_and!; [do 4 run; reflexivity | done |].
  split; simpl; autorewrite with ob; rewrite ?length_app; simpl; done || lia.
Qed.

Lemma removeOrder_ok m k l c1 n p c2 os1 o os2 :
  level_shape k l (os1 ++ o :: os2) -> orders l = c1 ++ (n, p) :: c2 ->
  n ∉ c1.*1 -> heap m !! p = Some o -> Forall order_sane (os1 ++ o :: os2) ->
  total (os1 ++ o :: os2) <= INT_MAX -> Z.of_nat (length (os1 ++ o :: os2)) <= INT_MAX ->
  exists l',
    removeOrder m l (mkOrderHandler p n) = Ok l' /\
    price l' = price l /\ orders l' = c1 ++ c2 /\ level_shape k l' (os1 ++ os2).
Proof.
  intros [Hp Hq Hn Hl] Hc Hnin Ho Hs Htot Hnum. unfold removeOrder; simpl.
  rewrite Forall_app, Forall_cons in Hs. destruct Hs as (Hs1 & Hso & Hs2).
  pose proof (total_nonneg _ Hs1). pose proof (total_nonneg _ Hs2).
  pose proof (rem_nonneg o Hso). autorewrite with ob in *. rewrite Hc in *.
  rewrite length_app in Hn, Hnum. rewrite !length_app in Hl. simpl in *.
  eexists; split_and!; [do 5 run; reflexivity | done | done |].
  split; simpl; autorewrite with ob; rewrite ?length_app; done || lia.
Qed.

Lemma fillOrder_ok m k l os1 o os2 p x :
  level_shape k l (os1 ++ o :: os2) -> heap m !! p = Some o ->
  Forall order_sane (os1 ++ o :: os2) -> total (os1 ++ o :: os2) <= INT_MAX ->
  0 <= x <= rem o ->
  exists l',
    fillOrder m l p x = Ok (write m p (fill o x), l') /\
    price l' = price l /\ orders l' = orders l /\ level_shape k l' (os1 ++ fill o x :: os2).
Proof.
  intros [Hp Hq Hn Hl] Ho Hs Htot Hx. unfold fillOrder.
  rewrite Forall_app, Forall_cons in Hs. destruct Hs as (Hs1 & Hso & Hs2).
  pose proof (total_nonneg _ Hs1). pose proof (total_nonneg _ Hs2).
  autorewrite with ob in *. rewrite length_app in *. simpl in *.
  eexists; split_and!.
  - do 2 run. eapply bind_intro; [apply c_assert_ok, Z.leb_le; lia|].
    do 2 run. reflexivity.
  - done.
  - done.
  - split; simpl; autorewrite with ob; rewrite ?length_app; simpl; done || lia.
Qed.

Lemma modifyOrder_ok m k l os1 o os2 p q price' :
  level_shape k l (os1 ++ o :: os2) -> heap m !! p = Some o ->
  Forall order_sane (os1 ++ o :: os2) -> total (os1 ++ o :: os2) <= INT_MAX ->
  price' ≡ Order.price o -> filled_quantity o <= q <= INT_MAX ->
  total (os1 ++ set_quantity o q :: os2) <= INT_MAX ->
  exists l',
    modifyOrder m l p q price' = Ok (write m p (set_quantity o q), l') /\
    price l' = price l /\ orders l' = orders l /\
    level_shape k l' (os1 ++ set_quantity o q :: os2).
Proof.
  intros [Hp Hq Hn Hl] Ho Hs Htot Hprice Hfill Htot'. unfold modifyOrder.
  rewrite Forall_app, Forall_cons in Hs. destruct Hs as (Hs1 & [Hso1 Hso2] & Hs2).
  pose proof (total_nonneg _ Hs1). pose proof (total_nonneg _ Hs2).
  autorewrite with ob in *. rewrite length_app in *. unfold rem in *. simpl in *.
  eexists; split_and!.
  - run. eapply bind_intro; [by apply c_assert_ok, peq_equiv|].
    do 2 run. reflexivity.
  - done.
  - done.
  - split; simpl; autorewrite with ob; rewrite ?length_app; unfold rem; simpl; done || lia.
Qed.
