(* ===== verification/Messages.v ===== *)
(** * Messages of the three streams (src/src/include/message.h, trade.h) *)

From S2P Require Import Prelude Outcome StdMap Price Common Order L2Level.

Module Trade.
Record Trade : Type := mkTrade { quantity : Quantity; price : Price }.
End Trade.

Module OrderMessage.
Inductive MessageType : Type := ADD | CANCEL | MODIFY | EXEC | TRADE | SNAPSHOT.

Record OrderMessage : Type := mkOrderMessage {
  type : MessageType;
  id : OrderId;
  is_sell : bool;
  quantity : Quantity;
  price : Price }.

(** [OrderMessage::toOrder]: a shared order with nothing filled. *)
Definition toOrder (st : Store) (msg : OrderMessage) : OrderPtr * Store :=
  make_shared st (new_Order (id msg) (is_sell msg) (quantity msg) (price msg)).
End OrderMessage.

Module TradeMessage.
Record TradeMessage : Type := mkTradeMessage { quantity : Quantity; price : Price }.

(** [TradeMessage::toTrade] *)
Definition toTrade (msg : TradeMessage) : Trade.Trade :=
  Trade.mkTrade (quantity msg) (price msg).
End TradeMessage.

Module SnapshotMessage.
Record SnapshotMessage : Type := mkSnapshotMessage {
  bid_levels : L2SnapshotSide;
  ask_levels : L2SnapshotSide }.
End SnapshotMessage.
