(* ===== verification/BookSide.v ===== *)
(** * One side of the book (src/src/include/book_side.h, src/src/book_side.cpp)

    The state and every operation of [BookSide], statement by statement.
    Operations take the store of orders and the side, and return the new ones
    inside an [outcome].  [for] loops over a list are structural recursions on
    the nodes of the list; the three [while] loops take fuel:
    - [processCrossedOrder] and step 1 of [processTrade] run with one unit of
      fuel more than there are price levels; both empty at least one level per
      turn (Crossed.v, TradeSide.v prove that the fuel is never exhausted);
    - [matchPendingLiqAdd] runs with one unit more than there are pending
      entries; PendingLiq.v proves that when that is not enough no fuel is. *)

From S2P Require Import Prelude Outcome StdMap Price Common Order L2Level Level Messages.

Record BookSide : Type := mkBookSide {
  is_sell_ : bool;
  comp_ : PriceComparator;
  levels_ : smap Price L3PriceLevel;
  order_map_ : OrderMap;
  l2_snap_queue_ : L2SnapshotSideQue;
  pending_liq_remove_qty_ : smap Price Quantity;   (* unordered_map, by [==] *)
  pending_liq_add_qty_ : smap Price Quantity }.    (* map, by [comp_] *)

(** The constructor. *)
Definition new_BookSide (is_sell : bool) (comp : PriceComparator) : BookSide :=
  mkBookSide is_sell comp [] ∅ [] [] [].

Section setters.
Implicit Types s : BookSide.

Definition with_levels s l := mkBookSide (is_sell_ s) (comp_ s) l (order_map_ s)
  (l2_snap_queue_ s) (pending_liq_remove_qty_ s) (pending_liq_add_qty_ s).
Definition with_order_map s om := mkBookSide (is_sell_ s) (comp_ s) (levels_ s) om
  (l2_snap_queue_ s) (pending_liq_remove_qty_ s) (pending_liq_add_qty_ s).
Definition with_queue s q := mkBookSide (is_sell_ s) (comp_ s) (levels_ s) (order_map_ s)
  q (pending_liq_remove_qty_ s) (pending_liq_add_qty_ s).
Definition with_pending_remove s p := mkBookSide (is_sell_ s) (comp_ s) (levels_ s)
  (order_map_ s) (l2_snap_queue_ s) p (pending_liq_add_qty_ s).
Definition with_pending_add s p := mkBookSide (is_sell_ s) (comp_ s) (levels_ s)
  (order_map_ s) (l2_snap_queue_ s) (pending_liq_remove_qty_ s) p.

End setters.

(** ** Queries *)

Definition existOrder (s : BookSide) (id : OrderId) : bool :=
  match order_map_ s !! id with Some _ => true | None => false end.

(** [order_map_[id]]: an unknown id gets a null handler. *)
Definition getOrderHandler (s : BookSide) (id : OrderId) : OrderHandler * BookSide :=
  match order_map_ s !! id with
  | Some h => (h, s)
  | None =>
      let h := mkOrderHandler nullptr singular in
      (h, with_order_map s (<[id := h]> (order_map_ s)))
  end.

Definition existLevel (s : BookSide) (price : Price) : bool :=
  match map_find (comp_ s) price (levels_ s) with Some _ => true | None => false end.

(** [levels_[price]]: an unknown price gets a default level. *)
Definition getL3Level (s : BookSide) (price : Price) : L3PriceLevel * BookSide :=
  let '(l, levels) := map_index (comp_ s) L3PriceLevel_default price (levels_ s) in
  (l, with_levels s levels).

(** Writes back a level that was modified through a reference. *)
Definition set_level (s : BookSide) (price : Price) (l : L3PriceLevel) : BookSide :=
  with_levels s (map_assign (comp_ s) price l (levels_ s)).

Arguments getL3Level : simpl never.
Arguments set_level : simpl never.

Definition bookCrossedWithPrice (s : BookSide) (price : Price) : bool :=
  match levels_ s with
  | [] => false
  | (_, l) :: _ =>
      if is_sell_ s then pge price (Level.price l) else pge (Level.price l) price
  end.

(** ** Single orders *)

Definition addOrder (m : Store) (s : BookSide) (order : OrderPtr) : outcome (Store * BookSide) :=
  o ← deref m order;
  _ ← c_assert (Bool.eqb (Order.is_sell o) (is_sell_ s));
  if existOrder s (Order.odid o) then Ok (m, s)
  else
    let '(l, s) := getL3Level s (Order.price o) in
    '(m, l, it) ← Level.addOrder m l order;
    let s := set_level s (Order.price o) l in
    Ok (m, with_order_map s (<[Order.odid o := mkOrderHandler order it]> (order_map_ s))).

Definition removeOrder (m : Store) (s : BookSide) (id : OrderId) : outcome BookSide :=
  if negb (existOrder s id) then Ok s
  else
    let '(handler, s) := getOrderHandler s id in
    o ← deref m (Order.order handler);
    let '(cur_level, s) := getL3Level s (Order.price o) in
    cur_level ← Level.removeOrder m cur_level handler;
    let s := set_level s (Order.price o) cur_level in
    let s := with_order_map s (delete id (order_map_ s)) in
    if Level.num_orders cur_level =? 0
    then Ok (with_levels s (map_erase (comp_ s) (Level.price cur_level) (levels_ s)))
    else Ok s.

(** [for (auto odid: orders_to_remove) removeOrder(odid);] *)
Fixpoint removeOrders (m : Store) (s : BookSide) (ids : list OrderId) : outcome BookSide :=
  match ids with
  | [] => Ok s
  | id :: ids => s ← removeOrder m s id; removeOrders m s ids
  end.

Definition modifyOrder (m : Store) (s : BookSide) (odid : OrderId) (quantity : Quantity)
    (price : Price) : outcome (Store * BookSide) :=
  if negb (existOrder s odid) then Ok (m, s)
  else
    let '(handler, s) := getOrderHandler s odid in
    o ← deref m (Order.order handler);
    if peq (Order.price o) price then
      let '(l, s) := getL3Level s price in
      '(m, l) ← Level.modifyOrder m l (Order.order handler) quantity price;
      Ok (m, set_level s price l)
    else
      let new_order := set_filled_quantity
        (new_Order (Order.odid o) (Order.is_sell o) quantity price) (filled_quantity o) in
      let '(p, m) := make_shared m new_order in
      s ← removeOrder m s odid;
      addOrder m s p.

(** ** L2 snapshots of this side *)

Definition l2_side (s : BookSide) : L2SnapshotSide :=
  (fun kl => mkL2PriceLevel kl.1 (Level.quantity kl.2)) <$> levels_ s.

Definition saveL2SnapshoSide (s : BookSide) : BookSide :=
  with_queue s (l2_snap_queue_ s ++ [l2_side s]).

(** ** Pending liquidity *)

Definition matchPendingLiqRemove (s : BookSide) (quantity : Quantity) (price : Price)
    : outcome (Quantity * BookSide) :=
  match map_find plt price (pending_liq_remove_qty_ s) with
  | None => Ok (0, s)
  | Some pending =>
      let matched_qty := Z.min pending quantity in
      pr ← map_sub plt price matched_qty (pending_liq_remove_qty_ s);
      let pr := if count plt price pr =? 0 then map_erase plt price pr else pr in
      Ok (matched_qty, with_pending_remove s pr)
  end.

Fixpoint matchPendingLiqAdd_loop (fuel : nat) (s : BookSide) (quantity : Quantity)
    (price : Price) (matched_qty : Quantity) : outcome (Quantity * BookSide) :=
  match fuel with
  | O => Err Diverges
  | S fuel =>
      match pending_liq_add_qty_ s with
      | [] => Ok (matched_qty, s)
      | (first, second) :: _ =>
          let can_match := if is_sell_ s then ple price first else pge price first in
          if negb can_match then Ok (matched_qty, s)
          else
            rest ← isub quantity matched_qty;
            let cur_matched_qty := Z.min second rest in
            matched_qty ← iadd matched_qty cur_matched_qty;
            pa ← map_sub (comp_ s) first cur_matched_qty (pending_liq_add_qty_ s);
            let pa := if count (comp_ s) first pa =? 0 then map_erase (comp_ s) price pa else pa in
            let s := with_pending_add s pa in
            if matched_qty =? quantity then Ok (matched_qty, s)
            else matchPendingLiqAdd_loop fuel s quantity price matched_qty
      end
  end.

Definition matchPendingLiqAdd (s : BookSide) (quantity : Quantity) (price : Price)
    : outcome (Quantity * BookSide) :=
  matchPendingLiqAdd_loop (S (length (pending_liq_add_qty_ s))) s quantity price 0.

Fixpoint addPendingLiqRemoveQty (s : BookSide) (events : OrderInfoVec) : outcome BookSide :=
  match events with
  | [] => Ok s
  | e :: events =>
      if bool_decide (Common.event e = EXEC) then
        pr ← map_add plt (Common.price e) (Common.quantity e) (pending_liq_remove_qty_ s);
        addPendingLiqRemoveQty (with_pending_remove s pr) events
      else addPendingLiqRemoveQty s events
  end.

(** ** Filling the orders of a level

    The statements that the loops of [processCrossedOrder] and step 2 of
    [processTrade] have in common, for the order [cur] of the level [k]: what
    it was filled with, the quantity left, the order afterwards and whether it
    has nothing remaining. *)
Definition fill_step (m : Store) (s : BookSide) (k : Price) (cur : OrderPtr) (rest : Quantity)
    : outcome (Store * BookSide * Quantity * Quantity * Order * bool) :=
  o ← deref m cur;
  r ← getRemainingQuantity o;
  let fillable_qty := Z.min rest r in
  let '(l, s) := getL3Level s k in
  '(m, l) ← Level.fillOrder m l cur fillable_qty;
  let s := saveL2SnapshoSide (set_level s k l) in
  rest ← isub rest fillable_qty;
  o ← deref m cur;
  r ← getRemainingQuantity o;
  Ok (m, s, fillable_qty, rest, o, r =? 0).

(** ** An aggressive order of the other side *)

Fixpoint crossed_orders (m : Store) (s : BookSide) (k : Price) (aggressor : OrderPtr)
    (os : OrderList) (rest : Quantity) (to_remove : list OrderId) (events : OrderInfoVec)
    : outcome (Store * BookSide * Quantity * list OrderId * OrderInfoVec) :=
  match os with
  | [] => Ok (m, s, rest, to_remove, events)
  | (_, cur) :: os =>
      if rest =? 0 then Ok (m, s, rest, to_remove, events)
      else
        '(m, s, fillable_qty, rest, o, gone) ← fill_step m s k cur rest;
        let to_remove := if (gone : bool) then to_remove ++ [Order.odid o] else to_remove in
        let events := events ++
          [mkOrderInfo EXEC (Order.odid o) (is_sell_ s) fillable_qty (Order.price o)] in
        pr ← map_add plt (Order.price o) fillable_qty (pending_liq_remove_qty_ s);
        let s := with_pending_remove s pr in
        m ← add_filled m aggressor fillable_qty;
        crossed_orders m s k aggressor os rest to_remove events
  end.

Fixpoint crossed_loop (fuel : nat) (m : Store) (s : BookSide) (aggressor : OrderPtr)
    (rest : Quantity) (events : OrderInfoVec) : outcome (Store * BookSide * OrderInfoVec) :=
  match fuel with
  | O => Err Diverges
  | S fuel =>
      a ← deref m aggressor;
      if (0 <? rest) && bookCrossedWithPrice s (Order.price a) then
        match levels_ s with
        | [] => Err InvalidDeref
        | (k, l) :: _ =>
            '(m, s, rest, to_remove, events) ←
              crossed_orders m s k aggressor (Level.orders l) rest [] events;
            s ← removeOrders m s to_remove;
            crossed_loop fuel m s aggressor rest events
        end
      else Ok (m, s, events)
  end.

Definition processCrossedOrder (m : Store) (s : BookSide) (order : OrderPtr)
    : outcome (Store * BookSide * OrderInfoVec) :=
  a ← deref m order;
  _ ← c_assert (negb (Bool.eqb (Order.is_sell a) (is_sell_ s)));
  rest ← getRemainingQuantity a;
  crossed_loop (S (length (levels_ s))) m s order rest [].

(** ** Cancellation *)

Definition processOrderCancel (m : Store) (s : BookSide) (id : OrderId) (quantity : Quantity)
    (price : Price) : outcome (BookSide * OrderInfoVec) :=
  '(matched, s) ← matchPendingLiqRemove s quantity price;
  rest_qty ← isub quantity matched;
  if (0 <? rest_qty) && existOrder s id then
    s ← removeOrder m s id;
    Ok (s, [mkOrderInfo CANCEL id (is_sell_ s) rest_qty price])
  else Ok (s, []).

(** ** Trades *)

(** Step 1, for one level: the ids to remove and the events. *)
Fixpoint cancel_level (m : Store) (is_sell : bool) (os : OrderList)
    : outcome (list OrderId * OrderInfoVec) :=
  match os with
  | [] => Ok ([], [])
  | (_, cur) :: os =>
      o ← deref m cur;
      '(ids, events) ← cancel_level m is_sell os;
      Ok (Order.odid o :: ids,
          mkOrderInfo CANCEL (Order.odid o) is_sell (Order.quantity o) (Order.price o) :: events)
  end.

(** [for (auto odid: orders_to_remove) { removeOrder(odid); saveL2SnapshoSide(); }] *)
Fixpoint removeOrders_save (m : Store) (s : BookSide) (ids : list OrderId) : outcome BookSide :=
  match ids with
  | [] => Ok s
  | id :: ids => s ← removeOrder m s id; removeOrders_save m (saveL2SnapshoSide s) ids
  end.

Fixpoint trade_cancel_loop (fuel : nat) (m : Store) (s : BookSide) (price : Price)
    (events : OrderInfoVec) : outcome (BookSide * OrderInfoVec) :=
  match fuel with
  | O => Err Diverges
  | S fuel =>
      match levels_ s with
      | [] => Ok (s, events)
      | (first, l) :: _ =>
          let should_cancel := if is_sell_ s then plt first price else pgt first price in
          if negb should_cancel then Ok (s, events)
          else
            '(ids, evs) ← cancel_level m (is_sell_ s) (Level.orders l);
            s ← removeOrders_save m s ids;
            trade_cancel_loop fuel m s price (events ++ evs)
      end
  end.

(** Step 2 *)
Fixpoint trade_orders (m : Store) (s : BookSide) (k : Price) (os : OrderList)
    (rest : Quantity) (to_remove : list OrderId) (events : OrderInfoVec)
    : outcome (Store * BookSide * Quantity * list OrderId * OrderInfoVec) :=
  match os with
  | [] => Ok (m, s, rest, to_remove, events)
  | (_, cur) :: os =>
      if rest =? 0 then Ok (m, s, rest, to_remove, events)
      else
        '(m, s, fillable_qty, rest, o, gone) ← fill_step m s k cur rest;
        let to_remove := if (gone : bool) then to_remove ++ [Order.odid o] else to_remove in
        let events := events ++
          [mkOrderInfo EXEC (Order.odid o) (is_sell_ s) fillable_qty (Order.price o)] in
        trade_orders m s k os rest to_remove events
  end.

Definition trade_match (m : Store) (s : BookSide) (price : Price) (rest : Quantity)
    (events : OrderInfoVec) : outcome (Store * BookSide * Quantity * OrderInfoVec) :=
  if existLevel s price then
    let '(cur_level, s) := getL3Level s price in
    '(m, s, rest, to_remove, events) ←
      trade_orders m s price (Level.orders cur_level) rest [] events;
    s ← removeOrders_save m s to_remove;
    Ok (m, s, rest, events)
  else Ok (m, s, rest, events).

(** Step 3 *)
Definition trade_pending (s : BookSide) (price : Price) (rest : Quantity)
    (events : OrderInfoVec) : outcome (BookSide * OrderInfoVec) :=
  if 0 <? rest then
    pa ← map_add (comp_ s) price rest (pending_liq_add_qty_ s);
    Ok (with_pending_add s pa,
        events ++ [mkOrderInfo ADD (-1) (is_sell_ s) rest price;
                   mkOrderInfo EXEC (-1) (is_sell_ s) rest price])
  else Ok (s, events).

Definition processTrade (m : Store) (s : BookSide) (trade : Trade.Trade)
    : outcome (Store * BookSide * OrderInfoVec) :=
  let price := Trade.price trade in
  '(matched, s) ← matchPendingLiqRemove s (Trade.quantity trade) price;
  cur_trade_qty ← isub (Trade.quantity trade) matched;
  '(s, events) ← trade_cancel_loop (S (length (levels_ s))) m s price [];
  '(m, s, cur_trade_qty, events) ← trade_match m s price cur_trade_qty events;
  '(s, events) ← trade_pending s price cur_trade_qty events;
  Ok (m, s, events).

(** ** Snapshots *)

(** The literal [0.3], [ceil], and the number of guessed executions, in
    binary64 arithmetic; the comparison of the loop index with it converts the
    index to a double. *)
Definition double_0_3 : SpecFloat.spec_float := double_of_frac 3 10.

Definition double_ceil (f : SpecFloat.spec_float) : SpecFloat.spec_float :=
  match f with
  | SpecFloat.S754_finite s mant e =>
      if 0 <=? e then f
      else
        let d := 2 ^ (- e) in
        if s then SpecFloat.binary_normalize prec emax (- (Zpos mant / d)) 0 true
        else double_of_Z ((Zpos mant + d - 1) / d)
  | _ => f
  end.

Definition executed_order_num (n : nat) : SpecFloat.spec_float :=
  double_ceil (SpecFloat.SFmul prec emax double_0_3 (double_of_Z (Z.of_nat n))).

Definition is_executed (i n : nat) : bool :=
  SpecFloat.SFltb (double_of_Z (Z.of_nat i)) (executed_order_num n).

(** The orders from the front of a level that make up [qty_to_remove]. *)
Fixpoint pending_from_level (m : Store) (os : OrderList) (qty_to_remove : Quantity)
    : outcome (list (OrderPtr * Quantity)) :=
  match os with
  | [] => Ok []
  | (_, cur) :: os =>
      if qty_to_remove =? 0 then Ok []
      else
        o ← deref m cur;
        r ← getRemainingQuantity o;
        let cur_remove_quantity := Z.min qty_to_remove r in
        qty_to_remove ← isub qty_to_remove cur_remove_quantity;
        rest ← pending_from_level m os qty_to_remove;
        Ok ((cur, cur_remove_quantity) :: rest)
  end.

(** New liquidity in the snapshot: an [ADD] event, pending quantity, and one
    guessed order under a fake id. *)
Definition snapshot_add (m : Store) (s : BookSide) (fake_order_id : OrderId) (price : Price)
    (qty : Quantity) (events : OrderInfoVec)
    : outcome (Store * BookSide * OrderId * OrderInfoVec) :=
  let events := events ++ [mkOrderInfo ADD (-1) (is_sell_ s) qty price] in
  pa ← map_add (comp_ s) price qty (pending_liq_add_qty_ s);
  let s := with_pending_add s pa in
  next_id ← iadd fake_order_id 1;
  let '(p, m) := make_shared m (new_Order fake_order_id (is_sell_ s) qty price) in
  '(m, s) ← addOrder m s p;
  Ok (m, s, next_id, events).

(** The first loop, over the levels of the snapshot. *)
Fixpoint snapshot_levels (m : Store) (s : BookSide) (fake_order_id : OrderId)
    (side : L2SnapshotSide) (pending : list (OrderPtr * Quantity)) (events : OrderInfoVec)
    : outcome (Store * BookSide * list (OrderPtr * Quantity) * OrderInfoVec) :=
  match side with
  | [] => Ok (m, s, pending, events)
  | l2 :: side =>
      let price := L2Level.price l2 in
      if existLevel s price then
        let '(l, s) := getL3Level s price in
        if L2Level.quantity l2 <? Level.quantity l then
          qty_to_remove ← isub (Level.quantity l) (L2Level.quantity l2);
          ps ← pending_from_level m (Level.orders l) qty_to_remove;
          snapshot_levels m s fake_order_id side (pending ++ ps) events
        else if Level.quantity l <? L2Level.quantity l2 then
          cur_qty ← isub (L2Level.quantity l2) (Level.quantity l);
          '(m, s, next_id, events) ← snapshot_add m s fake_order_id price cur_qty events;
          snapshot_levels m s next_id side pending events
        else snapshot_levels m s fake_order_id side pending events
      else
        '(m, s, next_id, events) ←
          snapshot_add m s fake_order_id price (L2Level.quantity l2) events;
        snapshot_levels m s next_id side pending events
  end.

(** All orders of a level, with all they have remaining. *)
Fixpoint pending_whole_level (m : Store) (os : OrderList)
    : outcome (list (OrderPtr * Quantity)) :=
  match os with
  | [] => Ok []
  | (_, cur) :: os =>
      o ← deref m cur;
      r ← getRemainingQuantity o;
      rest ← pending_whole_level m os;
      Ok ((cur, r) :: rest)
  end.

(** The second loop, over the levels of the book that the snapshot lacks. *)
Fixpoint missing_levels (m : Store) (l2_price_set : list Price) (levels : smap Price L3PriceLevel)
    : outcome (list (OrderPtr * Quantity)) :=
  match levels with
  | [] => Ok []
  | (price, l) :: levels =>
      ps ← (if existsb (peq price) l2_price_set then Ok []
            else pending_whole_level m (Level.orders l));
      rest ← missing_levels m l2_price_set levels;
      Ok (ps ++ rest)
  end.

(** The third loop: guess executions and cancellations, and apply them. *)
Fixpoint resolve_pending (m : Store) (s : BookSide) (total i : nat)
    (pending : list (OrderPtr * Quantity)) (events : OrderInfoVec)
    : outcome (Store * BookSide * OrderInfoVec) :=
  match pending with
  | [] => Ok (m, s, events)
  | (p, qty) :: pending =>
      o ← deref m p;
      let ev := if is_executed i total then EXEC else CANCEL in
      let events := events ++ [mkOrderInfo ev (Order.odid o) (is_sell_ s) qty (Order.price o)] in
      r ← getRemainingQuantity o;
      '(m, s) ←
        (if r =? qty then s ← removeOrder m s (Order.odid o); Ok (m, s)
         else if existLevel s (Order.price o) then
           let '(l, s) := getL3Level s (Order.price o) in
           '(m, l) ← Level.fillOrder m l p qty;
           Ok (m, set_level s (Order.price o) l)
         else Ok (m, s));
      resolve_pending m s total (S i) pending events
  end.

Definition processL2Snapshot (m : Store) (s : BookSide) (side : L2SnapshotSide)
    : outcome (Store * BookSide * OrderInfoVec) :=
  match l2_snap_queue_ s with
  | front :: queue =>
      if L2SnapshotSide_eqb front side then Ok (m, with_queue s queue, [])
      else Ok (m, s, [])      (* a polluted snapshot *)
  | [] =>
      '(m, s, pending, events) ← snapshot_levels m s 100 side [] [];
      missing ← missing_levels m (L2Level.price <$> side) (levels_ s);
      let pending := pending ++ missing in
      resolve_pending m s (length pending) 0 pending events
  end.
