(* ===== verification/BookSpec.v ===== *)
(** * What a side of the book is: the abstract book

    The contract of [BookSide]: price levels in the order of the side's
    comparator, each a non-empty queue of orders, oldest first.  No pointers,
    no iterators, no cached totals.  SideRep.v relates the concrete side to an
    abstract book; the operations below are what the concrete ones implement. *)

From S2P Require Import Prelude Outcome StdMap Price Common Order L2Level Level.

Abbreviation abook := (list (Price * list Order)).

(** All resting orders in priority order, and their ids. *)
Definition resting (A : abook) : list Order := A ≫= snd.
Definition ids (A : abook) : list OrderId := Order.odid <$> resting A.

Definition total_of (A : abook) : Z := zsum rem (resting A).

(** The aggregated view. *)
Definition l2_view (A : abook) : L2SnapshotSide :=
  (fun ko => mkL2PriceLevel ko.1 (total ko.2)) <$> A.

(** ** Well-formed books *)

Record order_ok (b : bool) (k : Price) (o : Order) : Prop := {
  ok_side : Order.is_sell o = b;
  ok_price : Order.price o ≡ k;
  ok_sane : order_sane o }.

Record level_ok (b : bool) (ko : Price * list Order) : Prop := {
  lv_orders : Forall (order_ok b ko.1) ko.2;
  lv_nonempty : ko.2 ≠ [];
  lv_total : total ko.2 <= INT_MAX;
  lv_count : Z.of_nat (length ko.2) <= INT_MAX }.

Record book_ok (b : bool) (A : abook) : Prop := {
  bk_sorted : sorted (side_comp b) A;
  bk_levels : Forall (level_ok b) A;
  bk_ids : NoDup (ids A) }.

(** No order without remaining quantity; true between operations, not inside. *)
Definition live (A : abook) : Prop := Forall (fun o => 0 < rem o) (resting A).

(** ** Operations *)

(** A level that lost its last order disappears. *)
Definition keep_level (k : Price) (os : list Order) : abook :=
  match os with [] => [] | _ => [(k, os)] end.

Definition aremove (id : OrderId) (A : abook) : abook :=
  A ≫= fun ko => keep_level ko.1 (filter (fun o => Order.odid o <> id) ko.2).

Definition aremoves (l : list OrderId) (A : abook) : abook := foldl (fun A id => aremove id A) A l.

(** A new order goes to the back of the queue of its price. *)
Definition aadd (b : bool) (o : Order) (A : abook) : abook :=
  map_assign (side_comp b) (Order.price o)
    (default [] (map_find (side_comp b) (Order.price o) A) ++ [o]) A.

(** Fill the orders of a level, oldest first, up to a quantity: the orders
    afterwards, the fills and the quantity left. *)
Fixpoint afill (rest : Z) (os : list Order) : list Order * list (Order * Z) * Z :=
  match os with
  | [] => ([], [], rest)
  | o :: os =>
      if rest =? 0 then (o :: os, [], rest)
      else
        let x := Z.min rest (rem o) in
        let '(os', fills, rest') := afill (rest - x) os in
        (fill o x :: os', (fill o x, x) :: fills, rest')
  end.

(** The orders that stay: those with something remaining. *)
Definition survivors (os : list Order) : list Order := filter (fun o => rem o <> 0) os.

(** ** Structure lemmas *)

Lemma resting_cons k os A : resting ((k, os) :: A) = os ++ resting A.
Proof. done. Qed.

Lemma resting_app A1 A2 : resting (A1 ++ A2) = resting A1 ++ resting A2.
Proof. unfold resting. by rewrite bind_app. Qed.

Lemma ids_cons k os A : ids ((k, os) :: A) = (Order.odid <$> os) ++ ids A.
Proof. unfold ids. by rewrite resting_cons, fmap_app. Qed.

Lemma ids_app A1 A2 : ids (A1 ++ A2) = ids A1 ++ ids A2.
Proof. unfold ids. by rewrite resting_app, fmap_app. Qed.

Lemma resting_keep_level k os : resting (keep_level k os) = os.
Proof. destruct os; [done|]. unfold keep_level, resting; simpl. by rewrite app_nil_r. Qed.

Lemma total_of_app A1 A2 : total_of (A1 ++ A2) = total_of A1 + total_of A2.
Proof. unfold total_of. by rewrite resting_app, zsum_app. Qed.

Lemma total_of_cons k os A : total_of ((k, os) :: A) = total os + total_of A.
Proof. unfold total_of. by rewrite resting_cons, zsum_app. Qed.

#[export] Hint Rewrite resting_cons resting_app ids_cons ids_app resting_keep_level
  total_of_app total_of_cons : ob.

Lemma filter_id_notin id (os : list Order) :
  id ∉ (Order.odid <$> os) -> filter (fun o => Order.odid o <> id) os = os.
Proof.
  induction os as [|o os IH]; [done|].
  rewrite fmap_cons, not_elem_of_cons. intros [Hne Hin].
  rewrite filter_cons_True by congruence. by rewrite IH.
Qed.

Lemma keep_level_nonempty k os : os ≠ [] -> keep_level k os = [(k, os)].
Proof. by destruct os. Qed.

Lemma aremove_app id A1 A2 : aremove id (A1 ++ A2) = aremove id A1 ++ aremove id A2.
Proof. apply bind_app. Qed.

Lemma aremove_absent b id A : Forall (level_ok b) A -> id ∉ ids A -> aremove id A = A.
Proof.
  induction 1 as [|[k os] A [Ho Hne Ht Hc] HA IH]; [done|].
  rewrite ids_cons, not_elem_of_app. intros [H1 H2].
  unfold aremove in *. rewrite bind_cons. simpl.
  by rewrite filter_id_notin, keep_level_nonempty, IH.
Qed.

(** Removing the order [o] that the book is split at. *)
Lemma aremove_middle b A1 k os1 o os2 A2 :
  book_ok b (A1 ++ (k, os1 ++ o :: os2) :: A2) ->
  aremove (Order.odid o) (A1 ++ (k, os1 ++ o :: os2) :: A2) =
  A1 ++ keep_level k (os1 ++ os2) ++ A2.
Proof.
  intros [Hs Hl Hid]. apply Forall_app in Hl as [Hl1 [Hl Hl2]%Forall_cons].
  rewrite ids_app, ids_cons, fmap_app, fmap_cons in Hid.
  rewrite <- (app_assoc (Order.odid <$> os1)) in Hid. simpl in Hid.
  rewrite app_assoc in Hid. apply NoDup_app_cons_inv in Hid as (Hn1 & Hn2 & _).
  rewrite not_elem_of_app in Hn1. rewrite not_elem_of_app in Hn2.
  destruct Hn1 as [Hn1 Hn1'], Hn2 as [Hn2 Hn2'].
  rewrite aremove_app. rewrite (aremove_absent b _ A1) by done. f_equal.
  change ((k, os1 ++ o :: os2) :: A2) with ([(k, os1 ++ o :: os2)] ++ A2).
  rewrite aremove_app. rewrite (aremove_absent b _ A2) by done. f_equal.
  unfold aremove; simpl. rewrite app_nil_r, filter_app, filter_cons_False by auto.
  by rewrite !filter_id_notin.
Qed.

(** Every id of the book splits it. *)
Lemma ids_split id A :
  id ∈ ids A ->
  exists A1 k os1 o os2 A2, A = A1 ++ (k, os1 ++ o :: os2) :: A2 /\ Order.odid o = id.
Proof.
  unfold ids. rewrite list_elem_of_fmap. intros (o & -> & Ho).
  unfold resting in Ho. apply list_elem_of_bind in Ho as ([k os] & Ho & Hk).
  apply list_elem_of_split in Hk as (A1 & A2 & ->).
  apply list_elem_of_split in Ho as (os1 & os2 & Hos). simpl in Hos. subst.
  by exists A1, k, os1, o, os2, A2.
Qed.

(** ** Preservation of well-formedness *)

Lemma level_ok_shrink b k os os' :
  level_ok b (k, os) -> sublist os' os -> os' ≠ [] -> level_ok b (k, os').
Proof.
  intros [Ho Hne Ht Hc] Hsub Hne'. simpl in *.
  assert (Forall (order_ok b k) os') as Ho'.
  { rewrite Forall_forall in Ho |- *. intros x Hx. apply Ho.
    eapply elem_of_submseteq; [done|]. by apply sublist_submseteq. }
  split; simpl; [done..| |].
  - etransitivity; [|exact Ht]. clear -Hsub Ho.
    induction Hsub; autorewrite with ob; [done|..];
      apply Forall_cons in Ho as [[_ _ Hs] Ho]; specialize (IHHsub Ho);
      pose proof (rem_nonneg _ Hs); lia.
  - apply sublist_length in Hsub. lia.
Qed.

Lemma book_ok_drop b A1 k os os' A2 :
  book_ok b (A1 ++ (k, os) :: A2) -> sublist os' os ->
  book_ok b (A1 ++ keep_level k os' ++ A2).
Proof.
  intros [Hs Hl Hid] Hsub.
  apply Forall_app in Hl as [Hl1 [Hl Hl2]%Forall_cons].
  assert (NoDup (ids (A1 ++ keep_level k os' ++ A2))) as Hid'.
  { eapply sublist_NoDup; [exact Hid|]. rewrite !ids_app, ids_cons.
    apply sublist_app; [done|]. apply sublist_app; [|done].
    unfold ids. rewrite resting_keep_level. by apply fmap_sublist. }
  destruct os' as [|o os'].
  - split; [by eapply sorted_middle_drop | by apply Forall_app | exact Hid'].
  - split; [by eapply sorted_middle_value | | exact Hid'].
    apply Forall_app; split; [done|]. constructor; [|done].
    by eapply level_ok_shrink.
Qed.

(** *** Adding an order *)

(** The queue at a price. *)
Definition queue_at (b : bool) (k : Price) (A : abook) : list Order :=
  default [] (map_find (side_comp b) k A).

(** The counters of the order's level do not overflow. *)
Definition has_room (b : bool) (o : Order) (A : abook) : Prop :=
  total (queue_at b (Order.price o) A) + rem o <= INT_MAX /\
  Z.of_nat (length (queue_at b (Order.price o) A)) < INT_MAX.

(** Where a new order goes: behind the queue of its price, or into a level of
    its own between the better and the worse ones. *)
Lemma aadd_cases b o A :
  sorted (side_comp b) A ->
  (exists A1 k os A2, A = A1 ++ (k, os) :: A2 /\ Order.price o ≡ k /\
     queue_at b (Order.price o) A = os /\ aadd b o A = A1 ++ (k, os ++ [o]) :: A2) \/
  (exists A1 A2, A = A1 ++ A2 /\ queue_at b (Order.price o) A = [] /\
     aadd b o A = A1 ++ (Order.price o, [o]) :: A2 /\
     (forall x, x ∈ A1 -> side_rank b x.1 < side_rank b (Order.price o)) /\
     (forall x, x ∈ A2 -> side_rank b (Order.price o) < side_rank b x.1)).
Proof.
  intros Hs. unfold aadd, queue_at.
  destruct (map_find (side_comp b) (Order.price o) A) as [os|] eqn:Hf; simpl.
  - left. apply (sorted_find_split (side_comp b)) in Hf as (A1 & k & A2 & -> & E).
    rewrite (assign_middle (side_comp b)) by done.
    exists A1, k, os, A2. split_and!; try done. by apply (side_rank_equiv b).
  - right. destruct (assign_absent (side_comp b) (Order.price o) [o] A Hs Hf)
      as (A1 & A2 & -> & -> & H1 & H2). by exists A1, A2.
Qed.

Lemma ids_aadd b o A : sorted (side_comp b) A -> ids (aadd b o A) ≡ₚ Order.odid o :: ids A.
Proof.
  intros Hs. destruct (aadd_cases b o A Hs) as
    [(A1 & k & os & A2 & -> & _ & _ & ->)|(A1 & A2 & -> & _ & -> & _ & _)];
    unfold ids; rewrite !resting_app, !resting_cons, !fmap_app;
    simpl; rewrite <- ?app_assoc; simpl; solve_Permutation.
Qed.

Lemma aadd_ok b o A :
  book_ok b A -> Order.is_sell o = b -> order_sane o -> Order.odid o ∉ ids A ->
  has_room b o A -> book_ok b (aadd b o A).
Proof.
  intros [Hs Hl Hid] Hside Hsane Hnew [Hroom Hcount]. split.
  - unfold aadd. by apply (sorted_assign (side_comp b)).
  - destruct (aadd_cases b o A Hs) as
      [(A1 & k & os & A2 & -> & Hk & Hq & ->)|(A1 & A2 & -> & Hq & -> & _ & _)];
      rewrite Hq in *.
    + apply Forall_app in Hl as [Hl1 [[Ho Hne Ht Hc] Hl2]%Forall_cons].
      apply Forall_app; split; [done|]. constructor; [|done]. split; simpl in *.
      * apply Forall_app; split; [done|]. by constructor; [|constructor].
      * by destruct os.
      * autorewrite with ob. lia.
      * rewrite length_app; simpl; lia.
    + apply Forall_app in Hl as [Hl1 Hl2]. apply Forall_app; split; [done|].
      constructor; [|done]. simpl in *. split; simpl; [by constructor; [|constructor] | done | |].
      * autorewrite with ob. lia.
      * unfold INT_MAX; lia.
  - rewrite ids_aadd by done. by constructor.
Qed.

(** A live queue is no longer than its quantity. *)
Lemma live_length os :
  Forall (fun o => 0 < rem o) os -> Z.of_nat (length os) <= total os.
Proof. induction 1; autorewrite with ob; simpl; lia. Qed.

Lemma live_app A1 A2 : live (A1 ++ A2) <-> live A1 /\ live A2.
Proof. unfold live. by rewrite resting_app, Forall_app. Qed.

Lemma live_cons k os A :
  live ((k, os) :: A) <-> Forall (fun o => 0 < rem o) os /\ live A.
Proof. unfold live. by rewrite resting_cons, Forall_app. Qed.

(** *** Removing several orders *)

Lemma keep_level_nil k : keep_level k [] = [].
Proof. done. Qed.

Definition drop_ids (l : list OrderId) (A : abook) : abook :=
  A ≫= fun ko => keep_level ko.1 (filter (fun o => Order.odid o ∉ l) ko.2).

Lemma drop_ids_app l A1 A2 : drop_ids l (A1 ++ A2) = drop_ids l A1 ++ drop_ids l A2.
Proof. apply bind_app. Qed.

Lemma drop_ids_cons l k os A :
  drop_ids l ((k, os) :: A) =
  keep_level k (filter (fun o => Order.odid o ∉ l) os) ++ drop_ids l A.
Proof. done. Qed.

Lemma filter_notin_nil (os : list Order) :
  filter (fun o => Order.odid o ∉ @nil OrderId) os = os.
Proof.
  induction os as [|o os IH]; [done|].
  rewrite filter_cons_True; [by rewrite IH | apply not_elem_of_nil].
Qed.

Lemma filter_notin_cons id l (os : list Order) :
  filter (fun o => Order.odid o ∉ l) (filter (fun o => Order.odid o <> id) os) =
  filter (fun o => Order.odid o ∉ id :: l) os.
Proof.
  rewrite list_filter_filter. apply list_filter_iff. intros o.
  rewrite not_elem_of_cons. tauto.
Qed.

Lemma drop_ids_aremove id l A : drop_ids l (aremove id A) = drop_ids (id :: l) A.
Proof.
  induction A as [|[k os] A IH]; [done|].
  rewrite drop_ids_cons, <- IH, <- filter_notin_cons.
  change (aremove id ((k, os) :: A)) with
    (keep_level k (filter (fun o => Order.odid o <> id) os) ++ aremove id A).
  rewrite drop_ids_app. f_equal.
  destruct (filter (fun o => Order.odid o <> id) os) as [|o os'] eqn:E; [done|].
  rewrite keep_level_nonempty, drop_ids_cons by done. apply app_nil_r.
Qed.

Lemma drop_ids_nil A : Forall (fun ko => ko.2 ≠ []) A -> drop_ids [] A = A.
Proof.
  induction 1 as [|[k os] A Hne HA IH]; [done|].
  by rewrite drop_ids_cons, filter_notin_nil, keep_level_nonempty, IH.
Qed.

Lemma aremove_nonempty id A : Forall (fun ko => ko.2 ≠ []) (aremove id A).
Proof.
  unfold aremove. apply Forall_bind, Forall_true. intros [k os]; simpl.
  by destruct (filter _ os); simpl; constructor.
Qed.

Lemma aremoves_drop_ids l A :
  Forall (fun ko => ko.2 ≠ []) A -> aremoves l A = drop_ids l A.
Proof.
  revert A; induction l as [|id l IH]; intros A HA; simpl.
  - by rewrite drop_ids_nil.
  - change (foldl _ _ _) with (aremoves l (aremove id A)).
    rewrite IH by apply aremove_nonempty. apply drop_ids_aremove.
Qed.

Lemma drop_ids_absent b l A :
  Forall (level_ok b) A -> (forall id, id ∈ l -> id ∉ ids A) -> drop_ids l A = A.
Proof.
  induction 1 as [|[k os] A [_ Hne _ _] HA IH]; intros Hid; [done|].
  rewrite drop_ids_cons, IH.
  - assert (filter (fun o => Order.odid o ∉ l) os = os) as ->.
    { apply filter_Forall. apply Forall_forall. intros o Ho Hl.
      apply (Hid _ Hl). rewrite ids_cons. apply elem_of_app; left.
      apply list_elem_of_fmap. eauto. }
    by rewrite keep_level_nonempty.
  - intros id Hl Hin. apply (Hid id Hl). rewrite ids_cons. apply elem_of_app. by right.
Qed.

Lemma levels_nonempty b A : Forall (level_ok b) A -> Forall (fun ko => ko.2 ≠ []) A.
Proof. intros H. eapply Forall_impl; [exact H|]. by intros ko []. Qed.

Lemma book_ok_ids_disjoint b A1 k os A2 id :
  book_ok b (A1 ++ (k, os) :: A2) -> id ∈ Order.odid <$> os -> (id ∉ ids A1) /\ (id ∉ ids A2).
Proof.
  intros [_ _ Hid] Hin. rewrite ids_app, ids_cons in Hid.
  apply NoDup_app in Hid as (_ & H1 & Hid). apply NoDup_app in Hid as (_ & H2 & _).
  split; [|by apply H2]. intros Ha. apply (H1 id Ha), elem_of_app. by left.
Qed.

(** Removing orders of one level. *)
Lemma aremoves_level b l A1 k os A2 :
  book_ok b (A1 ++ (k, os) :: A2) -> (forall id, id ∈ l -> id ∈ Order.odid <$> os) ->
  aremoves l (A1 ++ (k, os) :: A2) =
  A1 ++ keep_level k (filter (fun o => Order.odid o ∉ l) os) ++ A2.
Proof.
  intros Hok Hl. pose proof (bk_levels _ _ Hok) as Hlv.
  rewrite aremoves_drop_ids by (by eapply levels_nonempty).
  rewrite drop_ids_app, drop_ids_cons. apply Forall_app in Hlv as [H1 [_ H2]%Forall_cons].
  rewrite !(drop_ids_absent b); try done;
    intros id Hid%Hl; by edestruct book_ok_ids_disjoint.
Qed.

(** *** What rests after an addition *)

Lemma resting_aadd b o A :
  sorted (side_comp b) A -> resting (aadd b o A) ≡ₚ o :: resting A.
Proof.
  intros Hs. destruct (aadd_cases b o A Hs) as
    [(A1 & k & os & A2 & -> & _ & _ & ->)|(A1 & A2 & -> & _ & -> & _ & _)];
    rewrite !resting_app, !resting_cons, <- ?app_assoc; simpl; solve_Permutation.
Qed.

Lemma aadd_live b o A : sorted (side_comp b) A -> live A -> 0 < rem o -> live (aadd b o A).
Proof.
  intros Hs Hl Ho. unfold live. rewrite resting_aadd by done. by constructor.
Qed.

(** A queue is part of the book. *)
Lemma queue_at_total b k A :
  Forall order_sane (resting A) -> live A ->
  total (queue_at b k A) <= total_of A /\
  Z.of_nat (length (queue_at b k A)) <= total (queue_at b k A).
Proof.
  intros Hs Hl. pose proof (total_nonneg _ Hs) as H0. fold (total_of A) in H0.
  unfold queue_at. destruct (map_find (side_comp b) k A) as [os|] eqn:E; simpl; [|by split].
  apply (sorted_find_split (side_comp b)) in E as (A1 & k' & A2 & -> & _).
  rewrite resting_app, resting_cons in Hs. apply Forall_app in Hs as [Hs1 Hs].
  apply Forall_app in Hs as [_ Hs2]. apply live_app in Hl as [_ [Hl _]%live_cons].
  split; [|by apply live_length]. rewrite total_of_app, total_of_cons. unfold total_of.
  pose proof (total_nonneg _ Hs1). pose proof (total_nonneg _ Hs2). lia.
Qed.

Lemma total_of_aadd b o A :
  sorted (side_comp b) A -> total_of (aadd b o A) = total_of A + rem o.
Proof.
  intros Hs. unfold total_of. rewrite resting_aadd by done. rewrite zsum_cons. lia.
Qed.
