(* ===== verification/Matching.v ===== *)
(** * Matching a quantity against a queue of orders

    Facts about [afill], the specification of both fill loops of book_side.cpp:
    conservation, first-in-first-out, and what is left in the queue after the
    completely filled orders are removed. *)

From S2P Require Import Prelude Outcome StdMap Price Common Order L2Level Level BookSpec.

(** The ids the code collects in [orders_to_remove], and the events it emits. *)
Definition gone_ids (fills : list (Order * Z)) : list OrderId :=
  Order.odid <$> filter (fun o => rem o = 0) fills.*1.

Definition exec_events (b : bool) (fills : list (Order * Z)) : OrderInfoVec :=
  (fun ox => mkOrderInfo EXEC (Order.odid ox.1) b ox.2 (Order.price ox.1)) <$> fills.

(** The snapshots saved on the way: one per fill, before removals. *)
Fixpoint afill_views (view : list Order -> L2SnapshotSide) (done : list Order) (rest : Z)
    (os : list Order) : list L2SnapshotSide :=
  match os with
  | [] => []
  | o :: os =>
      if rest =? 0 then []
      else
        let x := Z.min rest (rem o) in
        view (done ++ fill o x :: os) :: afill_views view (done ++ [fill o x]) (rest - x) os
  end.

Abbreviation afill_orders r os := (afill r os).1.1.
Abbreviation afill_fills r os := (afill r os).1.2.
Abbreviation afill_rest r os := (afill r os).2.

Lemma afill_cons r o os :
  r <> 0 ->
  let x := Z.min r (rem o) in
  afill r (o :: os) =
  (fill o x :: afill_orders (r - x) os, (fill o x, x) :: afill_fills (r - x) os,
   afill_rest (r - x) os).
Proof.
  intros Hr. simpl. rewrite (proj2 (Z.eqb_neq r 0) Hr).
  by destruct (afill _ os) as [[os' fills] r'].
Qed.

Lemma afill_zero os : afill 0 os = (os, [], 0).
Proof. by destruct os. Qed.

(** Induction over a run of [afill]. *)
Lemma afill_ind (P : Z -> list Order -> list Order -> list (Order * Z) -> Z -> Prop) :
  (forall r, P r [] [] [] r) ->
  (forall os, P 0 os os [] 0) ->
  (forall r o os os' fills r', r <> 0 ->
     P (r - Z.min r (rem o)) os os' fills r' ->
     P r (o :: os) (fill o (Z.min r (rem o)) :: os')
       ((fill o (Z.min r (rem o)), Z.min r (rem o)) :: fills) r') ->
  forall r os, P r os (afill_orders r os) (afill_fills r os) (afill_rest r os).
Proof.
  intros Hnil Hzero Hcons r os. revert r. induction os as [|o os IH]; intros r; [apply Hnil|].
  destruct (decide (r = 0)) as [->|Hr]; [rewrite afill_zero; apply Hzero|].
  rewrite afill_cons by done. simpl. by apply Hcons.
Qed.

Lemma afill_ids r os : Order.odid <$> afill_orders r os = Order.odid <$> os.
Proof.
  apply (afill_ind (fun r os os' _ _ => Order.odid <$> os' = Order.odid <$> os)); [done..|].
  intros ????????; rewrite !fmap_cons; simpl. congruence.
Qed.

Lemma afill_length r os : length (afill_orders r os) = length os.
Proof. pose proof (f_equal length (afill_ids r os)) as H. by rewrite !length_fmap in H. Qed.

(** Conservation: what the orders lost is what was filled is what was taken
    from the quantity. *)
Lemma afill_conservation r os :
  total os - total (afill_orders r os) = r - afill_rest r os /\
  zsum snd (afill_fills r os) = r - afill_rest r os.
Proof.
  apply (afill_ind (fun r os os' fills r' =>
    total os - total os' = r - r' /\ zsum snd fills = r - r'));
    intros; autorewrite with ob; simpl; lia.
Qed.

(** The quantity left is what the queue could not supply. *)
Lemma afill_rest_spec r os :
  0 <= r -> Forall order_sane os -> afill_rest r os = Z.max 0 (r - total os).
Proof.
  revert r. induction os as [|o os IH]; intros r Hr Hs; [simpl; lia|].
  destruct (decide (r = 0)) as [->|Hne].
  { rewrite afill_zero. cbn [snd]. pose proof (total_nonneg _ Hs). lia. }
  apply Forall_cons in Hs as [Ho Hs]. pose proof (rem_nonneg o Ho).
  rewrite afill_cons by done. simpl. rewrite IH; [|lia|done].
  autorewrite with ob. pose proof (total_nonneg _ Hs). lia.
Qed.

Lemma afill_order_ok b k r os :
  0 <= r -> Forall (order_ok b k) os -> Forall (order_ok b k) (afill_orders r os).
Proof.
  revert r. induction os as [|o os IH]; intros r Hr Ho; [done|].
  destruct (decide (r = 0)) as [->|Hne]; [by rewrite afill_zero|].
  apply Forall_cons in Ho as [[H1 H2 H3] Ho]. pose proof (rem_nonneg o H3).
  rewrite afill_cons by done. simpl. constructor.
  - split; [done..|]. apply fill_sane; [done|lia].
  - apply IH; [lia|done].
Qed.

Lemma afill_rest_bounds r os :
  0 <= r -> Forall order_sane os -> 0 <= afill_rest r os <= r.
Proof.
  intros Hr Hs. rewrite afill_rest_spec by done. pose proof (total_nonneg _ Hs). lia.
Qed.

Lemma level_ok_sane b k os : level_ok b (k, os) -> Forall order_sane os.
Proof. intros [Ho _ _ _]. eapply Forall_impl; [exact Ho|]. by intros o []. Qed.

Lemma afill_level_ok b k r os :
  0 <= r -> level_ok b (k, os) -> level_ok b (k, afill_orders r os).
Proof.
  intros Hr Hl. pose proof (level_ok_sane _ _ _ Hl) as Hs. destruct Hl as [Ho Hne Ht Hc].
  pose proof (afill_rest_bounds r os Hr Hs). pose proof (afill_conservation r os) as [Hcons _].
  split; simpl in *.
  - by apply afill_order_ok.
  - intros E. apply Hne, nil_length_inv. by rewrite <- (afill_length r), E.
  - lia.
  - by rewrite afill_length.
Qed.

Lemma afill_book_ok b A1 k r os A2 :
  0 <= r -> book_ok b (A1 ++ (k, os) :: A2) ->
  book_ok b (A1 ++ (k, afill_orders r os) :: A2).
Proof.
  intros Hr [Hs Hl Hid]. split.
  - by eapply (sorted_middle_value (side_comp b)).
  - apply Forall_app in Hl as [Hl1 [Hl Hl2]%Forall_cons].
    apply Forall_app; split; [done|]. constructor; [by apply afill_level_ok | done].
  - rewrite ids_app, ids_cons in Hid |- *. by rewrite afill_ids.
Qed.

(** First in, first out: a prefix of the queue is filled completely, at most
    one order after it is filled in part, the others are not touched. *)
Lemma afill_fifo r os :
  0 <= r -> Forall order_sane os ->
  exists os1 os2, os = os1 ++ os2 /\
    (afill_orders r os = ((fun o => fill o (rem o)) <$> os1) ++ os2 \/
     exists o x t, os2 = o :: t /\ 0 < x < rem o /\
       afill_orders r os = ((fun o => fill o (rem o)) <$> os1) ++ fill o x :: t).
Proof.
  revert r. induction os as [|o os IH]; intros r Hr Hs.
  { exists [], []. split; [done|]. by left. }
  destruct (decide (r = 0)) as [->|Hne].
  { exists [], (o :: os). rewrite afill_zero. split; [done|]. by left. }
  apply Forall_cons in Hs as [Ho Hs]. pose proof (rem_nonneg o Ho).
  rewrite afill_cons by done. simpl.
  destruct (decide (r < rem o)) as [Hlt|Hge].
  - rewrite Z.min_l by lia. rewrite Z.sub_diag, afill_zero. simpl.
    exists [], (o :: os). split; [done|]. right. exists o, r, os. split_and!; lia || done.
  - rewrite Z.min_r by lia.
    destruct (IH (r - rem o)) as (os1 & os2 & E & [H1|H1]); [lia|done|..].
    + exists (o :: os1), os2. split; [by rewrite E|]. left. simpl. by rewrite H1.
    + destruct H1 as (o' & x & t & E2 & Hx & H1).
      exists (o :: os1), os2. split; [by rewrite E|]. right.
      exists o', x, t. split_and!; try done; try lia. simpl. by rewrite H1.
Qed.

(** ** Removing what was filled completely *)

Lemma fills_elem r os o x : (o, x) ∈ afill_fills r os -> o ∈ afill_orders r os.
Proof.
  revert r. induction os as [|o' os IH]; intros r; [by intros ?%not_elem_of_nil|].
  destruct (decide (r = 0)) as [->|Hne].
  { rewrite afill_zero. by intros ?%not_elem_of_nil. }
  rewrite afill_cons by done. simpl.
  intros [[= -> ->]|H]%elem_of_cons; [left | right; by eapply IH].
Qed.

Lemma filled_elem r os o :
  Forall (fun o => 0 < rem o) os -> o ∈ afill_orders r os -> rem o = 0 ->
  o ∈ (afill_fills r os).*1.
Proof.
  intros Hlive. revert r. induction Hlive as [|o' os Ho' Hlive IH]; intros r.
  { by intros ?%not_elem_of_nil. }
  destruct (decide (r = 0)) as [->|Hne].
  { rewrite afill_zero. simpl. intros Hin H0. exfalso.
    assert (Forall (fun o => 0 < rem o) (o' :: os)) as Hall by by constructor.
    rewrite Forall_forall in Hall. specialize (Hall _ Hin). lia. }
  rewrite afill_cons by done. simpl.
  intros [->|H]%elem_of_cons H0; [left | right; by apply IH].
Qed.

Lemma gone_ids_elem r os id : id ∈ gone_ids (afill_fills r os) -> id ∈ Order.odid <$> os.
Proof.
  unfold gone_ids. intros (o & -> & Ho)%list_elem_of_fmap.
  apply list_elem_of_filter in Ho as [_ Ho].
  apply list_elem_of_fmap in Ho as ([o' x] & -> & Hin). apply fills_elem in Hin.
  rewrite <- (afill_ids r). apply list_elem_of_fmap. by exists o'.
Qed.

(** An order is determined by its id. *)
Lemma NoDup_ids_inj (os : list Order) o o' :
  NoDup (Order.odid <$> os) -> o ∈ os -> o' ∈ os -> Order.odid o = Order.odid o' -> o = o'.
Proof.
  intros Hnd (i & Hi)%list_elem_of_lookup (j & Hj)%list_elem_of_lookup E.
  assert (i = j) as <-; [|congruence].
  eapply NoDup_lookup; [exact Hnd|..]; rewrite list_lookup_fmap.
  - by rewrite Hi.
  - rewrite Hj. simpl. by rewrite E.
Qed.

Lemma survivors_gone r os :
  NoDup (Order.odid <$> os) -> Forall (fun o => 0 < rem o) os ->
  filter (fun o => Order.odid o ∉ gone_ids (afill_fills r os)) (afill_orders r os) =
  survivors (afill_orders r os).
Proof.
  intros Hnd Hlive. unfold survivors. rewrite <- (afill_ids r) in Hnd.
  assert (forall o, o ∈ afill_orders r os ->
    (Order.odid o ∉ gone_ids (afill_fills r os)) <-> rem o <> 0) as Hiff.
  { intros o Ho. unfold gone_ids. split.
    - intros Hn H0. apply Hn, list_elem_of_fmap. exists o; split; [done|].
      apply list_elem_of_filter; split; [done|]. by apply filled_elem.
    - intros H0 (o' & E & Ho')%list_elem_of_fmap.
      apply list_elem_of_filter in Ho' as [Hz Hin].
      apply list_elem_of_fmap in Hin as ([o'' x] & -> & Hin%fills_elem). simpl in *.
      rewrite (NoDup_ids_inj _ _ _ Hnd Ho Hin E) in H0. done. }
  clear Hnd Hlive. revert Hiff. generalize (gone_ids (afill_fills r os)).
  induction (afill_orders r os) as [|o l IH]; intros g Hiff; [done|].
  assert (forall o, o ∈ l -> (Order.odid o ∉ g) <-> rem o <> 0) as Hl.
  { intros o' Ho'. apply Hiff. by right. }
  destruct (decide (rem o <> 0)) as [Hr|Hr].
  - rewrite !filter_cons_True; [by rewrite IH | done | apply Hiff; [left|done]].
  - rewrite !filter_cons_False; [by apply IH | done |].
    intros Hg. apply Hr, Hiff; [left | done].
Qed.

(** A quantity that is not used up empties the queue. *)
Lemma survivors_all_filled r os :
  0 <= r -> Forall order_sane os -> 0 < afill_rest r os -> survivors (afill_orders r os) = [].
Proof.
  intros Hr Hs Hrest.
  assert (total (afill_orders r os) = 0) as H0.
  { pose proof (afill_rest_spec r os Hr Hs). pose proof (afill_conservation r os). lia. }
  assert (Forall order_sane (afill_orders r os)) as Hs'.
  { clear -Hr Hs. revert r Hr. induction Hs as [|o os Ho Hs IH]; intros r Hr; [done|].
    destruct (decide (r = 0)) as [->|Hne]; [rewrite afill_zero; by constructor|].
    pose proof (rem_nonneg o Ho).
    rewrite afill_cons by done. simpl. constructor; [apply fill_sane; [done|lia]|].
    apply IH. lia. }
  revert H0 Hs'. generalize (afill_orders r os). intros l H0 Hl. unfold survivors.
  induction Hl as [|o l Ho Hl IH]; [done|].
  rewrite zsum_cons in H0. pose proof (rem_nonneg o Ho). pose proof (total_nonneg _ Hl).
  rewrite filter_cons_False by lia. apply IH. lia.
Qed.

Lemma survivors_sublist os : sublist (survivors os) os.
Proof. apply sublist_filter. Qed.

Lemma survivors_live os :
  Forall order_sane os -> Forall (fun o => 0 < rem o) (survivors os).
Proof.
  intros H. apply Forall_forall. intros o Ho. apply list_elem_of_filter in Ho as [Hr Ho].
  rewrite Forall_forall in H. pose proof (rem_nonneg o (H o Ho)). lia.
Qed.

Lemma survivors_total os : total (survivors os) = total os.
Proof.
  induction os as [|o os IH]; [done|]. unfold survivors in *.
  destruct (decide (rem o <> 0)).
  - rewrite filter_cons_True by done. rewrite !zsum_cons. lia.
  - rewrite filter_cons_False by done. rewrite zsum_cons. lia.
Qed.
