(* ===== verification/SideRep.v ===== *)
(** * The representation of an abstract book by a [BookSide]

    [side_rep m s A]: in store [m], side [s] holds the abstract book [A].  It
    is the invariant of the class: level lists, order map and store describe
    the same orders, cached totals and counts are right, keys are ordered and
    ids are unique.  The lemmas say what the operations on single orders do to
    [A]; they are total, so they also show that no assertion fails, no pointer
    dangles and nothing overflows. *)

From S2P Require Import Prelude Outcome StdMap Price Common Order L2Level Level Messages BookSide.
From S2P Require Import BookSpec.

(** ** Nodes, orders and the order map *)

(** The entries the order map must have for nodes [C] holding orders [O]. *)
Definition bindings (C : OrderList) (O : list Order) : list (OrderId * OrderHandler) :=
  zip_with (fun c o => (Order.odid o, mkOrderHandler c.2 c.1)) C O.

Arguments bindings : simpl never.

Record flat_rep (m : Store) (om : OrderMap) (C : OrderList) (O : list Order) : Prop := {
  fr_heap : Forall2 (fun c o => heap m !! c.2 = Some o) C O;
  fr_ptrs : NoDup C.*2;
  fr_nodes : NoDup C.*1;
  fr_map : forall id h, om !! id = Some h <-> (id, h) ∈ bindings C O;
  fr_fresh : Forall (fun c => (c.1 < next m)%positive /\ (c.2 < next m)%positive) C }.

Lemma heap_frame (m m' : Store) (C : OrderList) (O : list Order) :
  (forall p, p ∈ C.*2 -> heap m' !! p = heap m !! p) ->
  Forall2 (fun c o => heap m !! c.2 = Some o) C O ->
  Forall2 (fun c o => heap m' !! c.2 = Some o) C O.
Proof.
  intros Heq H. induction H as [|[n p] o C O Hp H IH]; constructor.
  - rewrite Heq; [done | left].
  - apply IH. intros q Hq. apply Heq. by right.
Qed.

Lemma bindings_app C1 O1 C2 O2 :
  length C1 = length O1 -> bindings (C1 ++ C2) (O1 ++ O2) = bindings C1 O1 ++ bindings C2 O2.
Proof. intros H. unfold bindings. by rewrite zip_with_app by done. Qed.

Lemma bindings_cons n p C o O :
  bindings ((n, p) :: C) (o :: O) = (Order.odid o, mkOrderHandler p n) :: bindings C O.
Proof. done. Qed.

Lemma bindings_id C O id h : (id, h) ∈ bindings C O -> id ∈ Order.odid <$> O.
Proof.
  revert O; induction C as [|[n p] C IH]; intros [|o O]; simpl; try by intros ?%not_elem_of_nil.
  rewrite bindings_cons. intros [[= -> ->]|H]%elem_of_cons; [left | right].
  by apply IH.
Qed.

Lemma bindings_id_ex C O id :
  length C = length O -> id ∈ Order.odid <$> O -> exists h, (id, h) ∈ bindings C O.
Proof.
  revert O; induction C as [|[n p] C IH]; intros [|o O]; simpl; try done.
  - by intros _ ?%not_elem_of_nil.
  - intros [= H]. intros [->|Hin]%elem_of_cons.
    + eexists; left.
    + destruct (IH O H Hin) as [h Hh]. exists h. by right.
Qed.

Lemma flat_length m om C O : flat_rep m om C O -> length C = length O.
Proof. intros []. by eapply Forall2_length. Qed.

Lemma flat_lookup m om C1 n p C2 O1 o O2 :
  flat_rep m om (C1 ++ (n, p) :: C2) (O1 ++ o :: O2) -> length C1 = length O1 ->
  heap m !! p = Some o /\ om !! Order.odid o = Some (mkOrderHandler p n).
Proof.
  intros [Hh _ _ Hm _] Hl. split.
  - apply Forall2_app_inv in Hh as [_ Hh]; [|done]. by inversion Hh.
  - apply Hm. rewrite bindings_app, bindings_cons by done.
    apply elem_of_app; right; left.
Qed.

Lemma flat_remove m om C1 n p C2 O1 o O2 :
  flat_rep m om (C1 ++ (n, p) :: C2) (O1 ++ o :: O2) -> length C1 = length O1 ->
  NoDup (Order.odid <$> O1 ++ o :: O2) ->
  flat_rep m (delete (Order.odid o) om) (C1 ++ C2) (O1 ++ O2).
Proof.
  intros [Hh Hp Hn Hm Hf] Hl Hid.
  rewrite !fmap_app, !fmap_cons in *. simpl in *.
  apply NoDup_app_cons_inv in Hp as (_ & _ & Hp), Hn as (_ & _ & Hn).
  apply NoDup_app_cons_inv in Hid as (Hid1 & Hid2 & _).
  apply Forall2_app_inv in Hh as [Hh1 Hh2]; [|done]. inversion Hh2; subst.
  apply Forall_app in Hf as [Hf1 [_ Hf2]%Forall_cons].
  split; rewrite ?fmap_app; [by apply Forall2_app | done | done | | by apply Forall_app].
  intros id h. rewrite lookup_delete. rewrite bindings_app by done.
  case_decide as Hid; [subst id|].
  - split; [done|]. by intros [?%bindings_id|?%bindings_id]%elem_of_app.
  - rewrite Hm, bindings_app, bindings_cons by done.
    rewrite !elem_of_app, elem_of_cons.
    split; [intros [?|[[= Hx _]|?]]; [tauto | by destruct Hid | tauto] | tauto].
Qed.

Lemma flat_insert m om C1 C2 O1 o O2 p :
  flat_rep m om (C1 ++ C2) (O1 ++ O2) -> length C1 = length O1 ->
  heap m !! p = Some o -> (p < next m)%positive -> p ∉ (C1 ++ C2).*2 ->
  Order.odid o ∉ (Order.odid <$> O1 ++ O2) ->
  flat_rep (mkStore (heap m) (Pos.succ (next m)))
    (<[Order.odid o := mkOrderHandler p (next m)]> om)
    (C1 ++ (next m, p) :: C2) (O1 ++ o :: O2).
Proof.
  intros [Hh Hp Hn Hm Hf] Hl Hpo Hpf Hpn Hid.
  apply Forall2_app_inv in Hh as [Hh1 Hh2]; [|done].
  assert (next m ∉ (C1 ++ C2).*1) as Hnn.
  { rewrite list_elem_of_fmap. intros (c & Hc & Hin).
    rewrite Forall_forall in Hf. apply Hf in Hin. lia. }
  rewrite fmap_app in Hp. rewrite fmap_app in Hn. rewrite fmap_app in Hid.
  rewrite fmap_app, not_elem_of_app in Hpn. rewrite fmap_app, not_elem_of_app in Hnn.
  rewrite not_elem_of_app in Hid.
  split; simpl; rewrite ?fmap_app, ?fmap_cons; simpl.
  - apply Forall2_app; [done | by constructor].
  - apply NoDup_app_cons_inv. tauto.
  - apply NoDup_app_cons_inv. tauto.
  - intros id h. rewrite bindings_app, bindings_cons by done.
    rewrite elem_of_app, elem_of_cons, lookup_insert.
    specialize (Hm id h). rewrite bindings_app, elem_of_app in Hm by done.
    case_decide as E; [subst id|];
      [|rewrite Hm; split; [tauto|]; intros [?|[[= Hx _]|?]]; [tauto | by destruct E | tauto]].
    split; [intros [= ->]; tauto |].
    intros [?%bindings_id|[[= ->]|?%bindings_id]]; tauto.
  - rewrite Forall_app, Forall_cons in *. destruct Hf as [Hf1 Hf2].
    split; [|split; [simpl; lia|]]; (eapply Forall_impl; [eassumption|]); simpl; lia.
Qed.

Lemma flat_update m om C1 n p C2 O1 o O2 o' :
  flat_rep m om (C1 ++ (n, p) :: C2) (O1 ++ o :: O2) -> length C1 = length O1 ->
  Order.odid o' = Order.odid o ->
  flat_rep (write m p o') om (C1 ++ (n, p) :: C2) (O1 ++ o' :: O2).
Proof.
  intros [Hh Hp Hn Hm Hf] Hl Hid. split; [|done|done| |done].
  - rewrite fmap_app, fmap_cons in Hp. apply NoDup_app_cons_inv in Hp as (Hp1 & Hp2 & _).
    simpl in Hp1, Hp2. apply Forall2_app_inv in Hh as [Hh1 Hh2]; [|done]. inversion Hh2; subst.
    assert (forall C : OrderList, p ∉ C.*2 -> forall q, q ∈ C.*2 ->
      heap (write m p o') !! q = heap m !! q) as Hframe.
    { intros C Hp q Hq. apply lookup_insert_ne. by intros ->. }
    apply Forall2_app; [by apply (heap_frame m); [apply Hframe|]|].
    constructor; [|by apply (heap_frame m); [apply Hframe|]].
    simpl. by rewrite lookup_insert_eq.
  - intros id h. rewrite Hm, !bindings_app, !bindings_cons, Hid by done. done.
Qed.

(** The store may change elsewhere. *)
Lemma flat_frame m m' om C O :
  flat_rep m om C O -> (next m <= next m')%positive ->
  (forall p, p ∈ C.*2 -> heap m' !! p = heap m !! p) -> flat_rep m' om C O.
Proof.
  intros [Hh Hp Hn Hm Hf] Hnext Heq. split; [|done..|].
  - by eapply heap_frame.
  - eapply Forall_impl; [exact Hf|]. simpl. lia.
Qed.

(** ** Levels *)

Definition cells (ls : smap Price L3PriceLevel) : OrderList :=
  ls ≫= fun kl => Level.orders kl.2.

Definition same_level (kl : Price * L3PriceLevel) (ko : Price * list Order) : Prop :=
  kl.1 = ko.1 /\ level_shape kl.1 kl.2 ko.2.

Record side_rep (m : Store) (s : BookSide) (A : abook) : Prop := {
  sr_comp : comp_ s = side_comp (is_sell_ s);
  sr_levels : Forall2 same_level (levels_ s) A;
  sr_flat : flat_rep m (order_map_ s) (cells (levels_ s)) (resting A);
  sr_ok : book_ok (is_sell_ s) A }.

Lemma cells_app L1 L2 : cells (L1 ++ L2) = cells L1 ++ cells L2.
Proof. apply bind_app. Qed.

Lemma cells_cons k l L : cells ((k, l) :: L) = Level.orders l ++ cells L.
Proof. done. Qed.

Lemma same_level_cells L A : Forall2 same_level L A -> length (cells L) = length (resting A).
Proof.
  induction 1 as [|[k l] [k' os] L A [_ []] H IH]; [done|].
  rewrite cells_cons, resting_cons, !length_app. simpl in *. lia.
Qed.

Lemma same_level_keys L A : Forall2 same_level L A -> L.*1 = A.*1.
Proof. induction 1 as [|[k l] [k' os] L A [E _] H IH]; [done|]. simpl in E; subst. by rewrite !fmap_cons, IH. Qed.

Lemma same_level_split L A1 k os A2 :
  Forall2 same_level L (A1 ++ (k, os) :: A2) ->
  exists L1 l L2, L = L1 ++ (k, l) :: L2 /\ Forall2 same_level L1 A1 /\
    level_shape k l os /\ Forall2 same_level L2 A2.
Proof.
  intros H. apply Forall2_app_inv_r in H as (L1 & L' & H1 & H2 & ->).
  inversion H2 as [|[k' l] ? L2 ? [E Hl] HL2]; subst. simpl in *; subst.
  by exists L1, l, L2.
Qed.

Lemma rep_sorted m s A : side_rep m s A -> sorted (side_comp (is_sell_ s)) (levels_ s).
Proof.
  intros [_ HL _ [Hs _ _]]. eapply sorted_same_keys; [|exact Hs].
  symmetry. by apply same_level_keys.
Qed.

(** *** Reading a level the book has *)

Lemma getL3Level_middle s L1 k l L2 k' :
  comp_ s = side_comp (is_sell_ s) -> levels_ s = L1 ++ (k, l) :: L2 ->
  sorted (side_comp (is_sell_ s)) (levels_ s) -> k' ≡ k ->
  getL3Level s k' = (l, s).
Proof.
  intros Hc HL Hs Hk. unfold getL3Level, map_index. rewrite Hc, HL in *.
  rewrite (find_middle (side_comp (is_sell_ s))); [|done|by apply side_rank_equiv].
  unfold with_levels. rewrite <- HL. by destruct s.
Qed.

Lemma set_level_middle s L1 k l L2 k' l' :
  comp_ s = side_comp (is_sell_ s) -> levels_ s = L1 ++ (k, l) :: L2 ->
  sorted (side_comp (is_sell_ s)) (levels_ s) -> k' ≡ k ->
  set_level s k' l' = with_levels s (L1 ++ (k, l') :: L2).
Proof.
  intros Hc HL Hs Hk. unfold set_level. rewrite Hc, HL in *.
  by rewrite (assign_middle (side_comp (is_sell_ s))); [|done|apply side_rank_equiv].
Qed.

(** *** What an operation on single orders leaves alone *)

Record same_aux (s s' : BookSide) : Prop := {
  sa_is_sell : is_sell_ s' = is_sell_ s;
  sa_comp : comp_ s' = comp_ s;
  sa_queue : l2_snap_queue_ s' = l2_snap_queue_ s;
  sa_remove : pending_liq_remove_qty_ s' = pending_liq_remove_qty_ s;
  sa_add : pending_liq_add_qty_ s' = pending_liq_add_qty_ s }.

#[export] Instance same_aux_preorder : PreOrder same_aux.
Proof. split; [by intros s | intros s1 s2 s3 [] []; split; congruence]. Qed.

(** ** Removing an order *)

Lemma existOrder_iff m s A id : side_rep m s A -> existOrder s id = true <-> id ∈ ids A.
Proof.
  intros [_ HL Hf _]. unfold existOrder.
  pose proof (same_level_cells _ _ HL) as Hlen. split.
  - destruct (order_map_ s !! id) as [h|] eqn:E; [|done]. intros _.
    apply (fr_map _ _ _ _ Hf) in E. by eapply bindings_id.
  - intros Hin. destruct (bindings_id_ex _ _ _ Hlen Hin) as [h Hh].
    apply (fr_map _ _ _ _ Hf) in Hh. by rewrite Hh.
Qed.

Lemma existOrder_false m s A id : side_rep m s A -> id ∉ ids A -> existOrder s id = false.
Proof. intros H Hid. apply not_true_iff_false. by rewrite (existOrder_iff m s A id H). Qed.

(** The node of the order that splits the abstract book. *)
Lemma rep_focus m s A1 k os1 o os2 A2 :
  side_rep m s (A1 ++ (k, os1 ++ o :: os2) :: A2) ->
  exists L1 l L2 c1 n p c2,
    levels_ s = L1 ++ (k, l) :: L2 /\ Level.orders l = c1 ++ (n, p) :: c2 /\
    Forall2 same_level L1 A1 /\ Forall2 same_level L2 A2 /\
    level_shape k l (os1 ++ o :: os2) /\
    length c1 = length os1 /\ length (cells L1 ++ c1) = length (resting A1 ++ os1) /\
    flat_rep m (order_map_ s) ((cells L1 ++ c1) ++ (n, p) :: (c2 ++ cells L2))
      ((resting A1 ++ os1) ++ o :: (os2 ++ resting A2)).
Proof.
  intros [Hc HL Hf Hok].
  apply same_level_split in HL as (L1 & l & L2 & EL & HL1 & Hl & HL2).
  destruct (split_like (Level.orders l) os1 o os2) as (c1 & [n p] & c2 & Ec & Hlc & _).
  { by rewrite (ls_length _ _ _ Hl). }
  exists L1, l, L2, c1, n, p, c2. split_and!; try done.
  - rewrite !length_app, Hlc. by rewrite (same_level_cells _ _ HL1).
  - rewrite EL in Hf. rewrite cells_app, cells_cons, Ec, resting_app, resting_cons in Hf.
    rewrite <- !app_assoc in *. exact Hf.
Qed.

Lemma level_sane b k os : level_ok b (k, os) -> Forall order_sane os.
Proof. intros [Ho _ _ _]. eapply Forall_impl; [exact Ho|]. by intros o []. Qed.

Lemma book_level b A1 k os A2 : book_ok b (A1 ++ (k, os) :: A2) -> level_ok b (k, os).
Proof. intros [_ Hl _]. by apply Forall_app in Hl as [_ [Hl _]%Forall_cons]. Qed.

Lemma level_order b k os1 o os2 : level_ok b (k, os1 ++ o :: os2) -> order_ok b k o.
Proof. intros [Ho _ _ _]. by apply Forall_app in Ho as [_ [Ho _]%Forall_cons]. Qed.

(** Reassembling a representation around the level that was worked on. *)
Lemma rep_intro m s L1 k l L2 A1 os A2 :
  comp_ s = side_comp (is_sell_ s) -> levels_ s = L1 ++ (k, l) :: L2 ->
  Forall2 same_level L1 A1 -> Forall2 same_level L2 A2 -> level_shape k l os ->
  flat_rep m (order_map_ s) (cells L1 ++ Level.orders l ++ cells L2)
    (resting A1 ++ os ++ resting A2) ->
  book_ok (is_sell_ s) (A1 ++ (k, os) :: A2) ->
  side_rep m s (A1 ++ (k, os) :: A2).
Proof.
  intros Hc HL H1 H2 Hl Hf Hok. split; [done| |..|done].
  - rewrite HL. apply Forall2_app; [done|]. by constructor.
  - by rewrite HL, cells_app, cells_cons, resting_app, resting_cons.
Qed.

Lemma removeOrder_rep m s A1 k os1 o os2 A2 :
  side_rep m s (A1 ++ (k, os1 ++ o :: os2) :: A2) ->
  exists s', removeOrder m s (Order.odid o) = Ok s' /\ same_aux s s' /\
    side_rep m s' (A1 ++ keep_level k (os1 ++ os2) ++ A2).
Proof.
  intros Hrep. pose proof Hrep as [Hc _ _ Hok]. pose proof (rep_sorted _ _ _ Hrep) as Hsort.
  apply rep_focus in Hrep as (L1 & l & L2 & c1 & n & p & c2 &
    EL & El & HL1 & HL2 & Hl & Hlc & Hlen & Hf).
  pose proof (book_level _ _ _ _ _ Hok) as Hlv.
  pose proof (level_order _ _ _ _ _ Hlv) as [_ Hprice _].
  destruct (flat_lookup _ _ _ _ _ _ _ _ _ Hf Hlen) as [Hp Hom].
  assert (n ∉ c1.*1) as Hn1.
  { pose proof (fr_nodes _ _ _ _ Hf) as Hn. rewrite fmap_app, fmap_cons in Hn.
    apply NoDup_app_cons_inv in Hn as (Hn & _ & _).
    rewrite fmap_app, not_elem_of_app in Hn. tauto. }
  destruct (Level.removeOrder_ok m k l c1 n p c2 os1 o os2) as (l' & Hrem & Hpl & Eo & Hl');
    try done; try apply Hlv; [by eapply level_sane|].
  assert (flat_rep m (delete (Order.odid o) (order_map_ s))
    (cells L1 ++ (c1 ++ c2) ++ cells L2) (resting A1 ++ (os1 ++ os2) ++ resting A2)) as Hf'.
  { apply flat_remove in Hf; [|done|].
    - by rewrite <- !app_assoc in *.
    - destruct Hok as [_ _ Hid]. unfold ids in Hid.
      rewrite resting_app, resting_cons in Hid. by rewrite <- !app_assoc in *. }
  assert (sublist (os1 ++ os2) (os1 ++ o :: os2)) as Hsub.
  { apply sublist_app; [done|]. by apply sublist_cons. }
  unfold removeOrder, existOrder, getOrderHandler. rewrite Hom. cbn [negb Order.order].
  rewrite (deref_ok _ _ _ Hp), bind_ok.
  rewrite (getL3Level_middle s L1 k l L2) by done.
  rewrite Hrem, bind_ok. rewrite (set_level_middle s L1 k l L2) by done.
  rewrite (ls_num _ _ _ Hl').
  pose proof (book_ok_drop _ _ _ _ _ _ Hok Hsub) as Hok'.
  destruct (os1 ++ os2) as [|o' os'] eqn:Eos; simpl.
  - (* the level is empty *)
    assert (c1 ++ c2 = []) as Ecs.
    { apply nil_length_inv. rewrite <- Eo, (ls_length _ _ _ Hl'). done. }
    assert (map_erase (comp_ s) (Level.price l') (L1 ++ (k, l') :: L2) = L1 ++ L2) as ->.
    { rewrite Hc. apply (erase_middle (side_comp (is_sell_ s))).
      - rewrite EL in Hsort. by eapply sorted_middle_value.
      - apply side_rank_equiv. apply Hl'. }
    eexists; split; [reflexivity|]. split; [by split|].
    split; simpl; [done|by apply Forall2_app| |done].
    rewrite cells_app, resting_app. by rewrite Ecs in Hf'.
  - eexists; split; [reflexivity|]. split; [by split|].
    eapply (rep_intro _ _ L1 k l' L2); simpl; try done. by rewrite Eo.
Qed.

(** In terms of ids; an unknown id changes nothing. *)
Lemma removeOrder_spec m s A id :
  side_rep m s A ->
  exists s', removeOrder m s id = Ok s' /\ same_aux s s' /\ side_rep m s' (aremove id A).
Proof.
  intros Hrep. destruct (decide (id ∈ ids A)) as [Hin|Hnin].
  - pose proof (sr_ok _ _ _ Hrep) as Hok.
    apply ids_split in Hin as (A1 & k & os1 & o & os2 & A2 & -> & <-).
    erewrite aremove_middle by done. by apply removeOrder_rep.
  - exists s. split_and!.
    + unfold removeOrder. by rewrite (existOrder_false _ _ _ _ Hrep Hnin).
    + reflexivity.
    + erewrite aremove_absent; [done| |done]. apply Hrep.
Qed.

Lemma removeOrders_spec m s A l :
  side_rep m s A ->
  exists s', removeOrders m s l = Ok s' /\ same_aux s s' /\ side_rep m s' (aremoves l A).
Proof.
  revert s A; induction l as [|id l IH]; intros s A Hrep; simpl.
  - exists s. split_and!; [done | reflexivity | done].
  - destruct (removeOrder_spec m s A id Hrep) as (s1 & -> & Haux & Hrep1).
    destruct (IH s1 _ Hrep1) as (s2 & Hrun & Haux2 & Hrep2).
    exists s2. rewrite bind_ok. split_and!; [done | by transitivity s1 | done].
Qed.

(** ** Adding an order *)

(** Adding under an id that is in use does nothing. *)
Lemma addOrder_known m s A p o :
  side_rep m s A -> heap m !! p = Some o -> Order.is_sell o = is_sell_ s ->
  Order.odid o ∈ ids A -> addOrder m s p = Ok (m, s).
Proof.
  intros Hrep Hp Hside Hid. unfold addOrder. rewrite (deref_ok _ _ _ Hp), bind_ok.
  rewrite Hside, eqb_reflx, (c_assert_ok true eq_refl), bind_ok.
  by rewrite (proj2 (existOrder_iff _ _ _ _ Hrep) Hid).
Qed.

(** Splitting the concrete levels like the abstract ones. *)
Lemma same_level_bound b L A :
  Forall2 same_level L A -> forall P : Z -> Prop,
  (forall x, x ∈ A -> P (side_rank b x.1)) -> forall x, x ∈ L -> P (side_rank b x.1).
Proof.
  intros H P HA x Hx. assert (x.1 ∈ L.*1) as Hk by (apply list_elem_of_fmap; eauto).
  rewrite (same_level_keys _ _ H) in Hk. apply list_elem_of_fmap in Hk as (y & -> & Hy).
  by apply HA.
Qed.

Lemma addOrder_rep m s A p o :
  side_rep m s A -> heap m !! p = Some o -> (p < next m)%positive ->
  p ∉ (cells (levels_ s)).*2 ->
  Order.is_sell o = is_sell_ s -> order_sane o -> Order.odid o ∉ ids A ->
  has_room (is_sell_ s) o A ->
  exists s', addOrder m s p = Ok (mkStore (heap m) (Pos.succ (next m)), s') /\ same_aux s s' /\
    side_rep (mkStore (heap m) (Pos.succ (next m))) s' (aadd (is_sell_ s) o A).
Proof.
  intros Hrep Hp Hpf Hpn Hside Hsane Hid Hroom.
  pose proof Hrep as [Hc HL Hf Hok]. pose proof (rep_sorted _ _ _ Hrep) as Hsort.
  pose proof (aadd_ok _ _ _ Hok Hside Hsane Hid Hroom) as Hok'.
  destruct Hroom as [Hroom Hcount].
  unfold addOrder. rewrite (deref_ok _ _ _ Hp), bind_ok, Hside, eqb_reflx.
  rewrite (c_assert_ok true eq_refl), bind_ok, (existOrder_false _ _ _ _ Hrep Hid).
  unfold ids in Hid.
  destruct (aadd_cases (is_sell_ s) o A (bk_sorted _ _ Hok)) as
    [(A1 & k & os & A2 & -> & Hk & Hq & EA)|(A1 & A2 & -> & Hq & EA & H1 & H2)];
    rewrite Hq in *; rewrite EA in *; clear EA.
  - (* an existing level *)
    apply same_level_split in HL as (L1 & l & L2 & EL & HL1 & Hl & HL2).
    pose proof (book_level _ _ _ _ _ Hok) as Hlv.
    destruct (Level.addOrder_ok m k l os p o) as (l' & Hadd & Eo & Hl'); try apply Hl; try done.
    { eapply total_nonneg. by eapply level_sane. }
    rewrite (getL3Level_middle s L1 k l L2) by done. rewrite Hadd, bind_ok.
    rewrite (set_level_middle s L1 k l L2) by done.
    eexists; split; [reflexivity|]. split; [by split|].
    eapply (rep_intro _ _ L1 k l' L2); simpl; try done.
    rewrite Eo, <- (app_assoc (Level.orders l)), app_assoc.
    rewrite <- (app_assoc os), (app_assoc (resting A1)). simpl.
    rewrite EL, cells_app, cells_cons, app_assoc in Hf.
    rewrite resting_app, resting_cons, app_assoc in Hf.
    rewrite EL, cells_app, cells_cons, app_assoc in Hpn.
    rewrite resting_app, resting_cons, app_assoc in Hid.
    apply flat_insert; try done.
    rewrite !length_app, (same_level_cells _ _ HL1), (ls_length _ _ _ Hl). done.
  - (* a new level *)
    apply Forall2_app_inv_r in HL as (L1 & L2 & HL1 & HL2 & EL).
    pose proof (same_level_bound (is_sell_ s) L1 A1 HL1
      (fun z => z < side_rank (is_sell_ s) (Order.price o)) H1) as HB1.
    pose proof (same_level_bound (is_sell_ s) L2 A2 HL2
      (fun z => side_rank (is_sell_ s) (Order.price o) < z) H2) as HB2.
    destruct (Level.addOrder_ok m (Order.price o) L3PriceLevel_default [] p o)
      as (l' & Hadd & Eo & Hl'); try done.
    assert (map_find (side_comp (is_sell_ s)) (Order.price o) (levels_ s) = None) as Hnone.
    { apply (find_None (side_comp (is_sell_ s))). rewrite EL. intros x [Hx|Hx]%elem_of_app.
      - apply HB1 in Hx. simpl in *. lia.
      - apply HB2 in Hx. simpl in *. lia. }
    unfold getL3Level, map_index. rewrite Hc, Hnone, Hadd, bind_ok.
    assert (forall l, map_assign (side_comp (is_sell_ s)) (Order.price o) l (levels_ s) =
      L1 ++ (Order.price o, l) :: L2) as Has.
    { intros l. rewrite EL. by apply (assign_between (side_comp (is_sell_ s))). }
    unfold set_level. simpl. rewrite Hc, Has.
    rewrite (assign_middle (side_comp (is_sell_ s))); [|rewrite <- Has|done].
    2: { by apply (sorted_assign (side_comp (is_sell_ s))). }
    eexists; split; [reflexivity|]. split; [by split|].
    eapply (rep_intro _ _ L1 (Order.price o) l' L2); simpl; try done.
    rewrite Eo. simpl.
    rewrite EL, cells_app, resting_app in Hf. rewrite EL, cells_app in Hpn.
    rewrite resting_app in Hid.
    apply flat_insert; try done. by apply same_level_cells.
Qed.

(** ** Handlers *)

Lemma bindings_order m C O id h :
  Forall2 (fun c o => heap m !! c.2 = Some o) C O -> (id, h) ∈ bindings C O ->
  exists o, heap m !! Order.order h = Some o /\ o ∈ O /\ Order.odid o = id.
Proof.
  induction 1 as [|[n p] o C O Hp H IH]; [by intros ?%not_elem_of_nil|].
  rewrite bindings_cons. intros [[= -> ->]|Hin]%elem_of_cons.
  - exists o. split_and!; [done|left|done].
  - destruct (IH Hin) as (o' & Ho' & Hin' & Hid). exists o'. split_and!; [done|by right|done].
Qed.

Lemma handler_order m s A id h :
  side_rep m s A -> order_map_ s !! id = Some h ->
  exists o, heap m !! Order.order h = Some o /\ o ∈ resting A.
Proof.
  intros [_ _ Hf _] Hid. apply (fr_map _ _ _ _ Hf) in Hid.
  destruct (bindings_order m _ _ _ _ (fr_heap _ _ _ _ Hf) Hid) as (o & Ho & Hin & _). by exists o.
Qed.

Lemma book_sane b A : Forall (level_ok b) A -> Forall order_sane (resting A).
Proof.
  induction 1 as [|[k os] A Hl HA IH]; [done|]. rewrite resting_cons.
  apply Forall_app; split; [by eapply level_sane|done].
Qed.

Lemma rep_resting_sane m s A : side_rep m s A -> Forall order_sane (resting A).
Proof. intros [_ _ _ Hok]. by eapply book_sane, bk_levels. Qed.

Lemma rep_resting_side m s A o : side_rep m s A -> o ∈ resting A -> Order.is_sell o = is_sell_ s.
Proof.
  intros [_ _ _ Hok] ([k os] & Ho & Hk)%list_elem_of_bind.
  pose proof (bk_levels _ _ Hok) as Hl. rewrite Forall_forall in Hl.
  pose proof (lv_orders _ _ (Hl _ Hk)) as Hos. rewrite Forall_forall in Hos. by apply Hos.
Qed.
