(* ===== verification/Crossed.v ===== *)
(** * Aggressive orders: [BookSide::processCrossedOrder]

    [amatch] is the contract: walk the levels from the best price while they
    cross, fill each queue oldest first, drop what is filled completely.  The
    refinement theorem says that [processCrossedOrder] completes and does
    exactly that, with the events in the order of the fills, the aggressor's
    fill, and the trades it expects noted as pending removals. *)

From S2P Require Import Prelude Outcome StdMap Price Common Order L2Level Level Messages BookSide BookSpec Matching.
From S2P Require Import SideRep.

(** ** One step of a fill loop

    [fill_step] on a side that represents a book fills one order of one level
    in place and saves the view; the loops of Crossed.v and TradeSide.v iterate
    it.  [cursor] is their loop invariant on the nodes still to be visited. *)

(** The aggregated view of the concrete side is that of the book. *)
Lemma rep_l2_side m s A : side_rep m s A -> l2_side s = l2_view A.
Proof.
  intros [_ HL _ _]. unfold l2_side, l2_view.
  induction HL as [|[k l] [k' os] L A [E Hl] H IH]; [done|].
  simpl in E; subst. rewrite !fmap_cons, IH. simpl. do 2 f_equal.
  apply (ls_quantity _ _ _ Hl).
Qed.

(** The store may change away from the nodes of the side. *)
Lemma rep_frame m m' s A :
  side_rep m s A -> (next m <= next m')%positive ->
  (forall p, p ∈ (cells (levels_ s)).*2 -> heap m' !! p = heap m !! p) -> side_rep m' s A.
Proof.
  intros [Hc HL Hf Hok] Hn Heq. split; try done. by eapply flat_frame.
Qed.

(** The pointers of a side are below the supply, so a new one is not among
    them. *)
Lemma rep_pointer_fresh m s A p :
  side_rep m s A -> p ∈ (cells (levels_ s)).*2 -> (p < next m)%positive.
Proof.
  intros [_ _ Hf _] ([n q] & -> & Hin)%list_elem_of_fmap.
  pose proof (fr_fresh _ _ _ _ Hf) as H. rewrite Forall_forall in H. by apply H in Hin as [_ ?].
Qed.

(** Every node of a side points to an order of that side. *)
Lemma rep_pointer m s A p :
  side_rep m s A -> p ∈ (cells (levels_ s)).*2 ->
  exists o, heap m !! p = Some o /\ o ∈ resting A /\ Order.is_sell o = is_sell_ s.
Proof.
  intros [_ _ Hf Hok] ([n q] & -> & Hin)%list_elem_of_fmap.
  pose proof (fr_heap _ _ _ _ Hf) as Hh.
  apply list_elem_of_lookup in Hin as [i Hi].
  destruct (Forall2_lookup_l _ _ _ _ _ Hh Hi) as (o & Ho & Hp). simpl in Hp.
  apply list_elem_of_lookup_2 in Ho. exists o. split_and!; [done..|].
  unfold resting in Ho. apply list_elem_of_bind in Ho as ([k os] & Ho & Hk).
  pose proof (bk_levels _ _ Hok) as Hl. rewrite Forall_forall in Hl.
  pose proof (lv_orders _ _ (Hl _ Hk)) as Hos. rewrite Forall_forall in Hos.
  by apply Hos.
Qed.

(** An order of the other side is not in this side's nodes. *)
Lemma rep_not_pointer m s A p o :
  side_rep m s A -> heap m !! p = Some o -> Order.is_sell o <> is_sell_ s ->
  p ∉ (cells (levels_ s)).*2.
Proof.
  intros Hrep Hp Hne Hin. destruct (rep_pointer _ _ _ _ Hrep Hin) as (o' & Hp' & _ & Hs).
  congruence.
Qed.

(** ** What the fill loops leave alone *)

(** The queue grows by [q]. *)
Record saves (q : L2SnapshotSideQue) (s s' : BookSide) : Prop := {
  sv_is_sell : is_sell_ s' = is_sell_ s;
  sv_comp : comp_ s' = comp_ s;
  sv_queue : l2_snap_queue_ s' = l2_snap_queue_ s ++ q;
  sv_add : pending_liq_add_qty_ s' = pending_liq_add_qty_ s }.

Lemma saves_refl s : saves [] s s.
Proof. split; [done..| |done]. by rewrite app_nil_r. Qed.

Lemma saves_trans q1 q2 s1 s2 s3 : saves q1 s1 s2 -> saves q2 s2 s3 -> saves (q1 ++ q2) s1 s3.
Proof. intros [] []; split; try congruence. rewrite app_assoc. congruence. Qed.

Lemma same_aux_saves s s' : same_aux s s' -> saves [] s s'.
Proof. intros []; split; try done. by rewrite app_nil_r. Qed.

(** Orders of the other side, the aggressor apart, are not written. *)
Definition keeps_others (b : bool) (aggressor : option OrderPtr) (m m' : Store) : Prop :=
  next m' = next m /\
  forall p o, heap m !! p = Some o -> Order.is_sell o <> b -> Some p <> aggressor ->
    heap m' !! p = Some o.

Lemma keeps_others_refl b a m : keeps_others b a m m.
Proof. by split. Qed.

Lemma keeps_others_trans b a m1 m2 m3 :
  keeps_others b a m1 m2 -> keeps_others b a m2 m3 -> keeps_others b a m1 m3.
Proof. intros [N1 H1] [N2 H2]. split; [congruence|]. eauto. Qed.

(** The other side's representation survives. *)
Lemma rep_keeps_others m m' s A b a :
  side_rep m s A -> is_sell_ s <> b -> keeps_others b a m m' ->
  (forall p, a = Some p -> p ∉ (cells (levels_ s)).*2) -> side_rep m' s A.
Proof.
  intros Hrep Hb [Hn Hk] Ha. eapply rep_frame; [done|rewrite Hn; lia|].
  intros p Hp. destruct (rep_pointer _ _ _ _ Hrep Hp) as (o & Ho & _ & Hs).
  rewrite Ho. apply Hk; [done|congruence|]. intros E. by apply (Ha p).
Qed.

(** ** The cursor *)

(** The nodes [c2] follow, in the level [k] behind the levels [A1], those of
    the orders [os1]. *)
Definition cursor (s : BookSide) (A1 : abook) (k : Price) (os1 : list Order) (c2 : OrderList)
    : Prop :=
  exists L1 l L2 c1, levels_ s = L1 ++ (k, l) :: L2 /\ Level.orders l = c1 ++ c2 /\
    length L1 = length A1 /\ length c1 = length os1.

Lemma cursor_start m s A1 k os A2 :
  side_rep m s (A1 ++ (k, os) :: A2) ->
  exists L1 l L2, levels_ s = L1 ++ (k, l) :: L2 /\ length L1 = length A1 /\
    length (Level.orders l) = length os /\ cursor s A1 k [] (Level.orders l).
Proof.
  intros [_ HL _ _]. apply same_level_split in HL as (L1 & l & L2 & EL & HL1 & Hl & _).
  exists L1, l, L2. split_and!; [done|by eapply Forall2_length|apply Hl|].
  exists L1, l, L2, []. split_and!; try done. by eapply Forall2_length.
Qed.

Lemma level_order_ok b k os1 o os2 A1 A2 :
  book_ok b (A1 ++ (k, os1 ++ o :: os2) :: A2) -> order_ok b k o.
Proof. intros H. eapply level_order, book_level, H. Qed.

Lemma fill_book_ok b A1 k os1 o os2 A2 x :
  book_ok b (A1 ++ (k, os1 ++ o :: os2) :: A2) -> 0 <= x <= rem o ->
  book_ok b (A1 ++ (k, os1 ++ fill o x :: os2) :: A2).
Proof.
  intros [Hs Hl Hid] Hx. split.
  - by eapply (sorted_middle_value (side_comp b)).
  - apply Forall_app in Hl as [Hl1 [[Ho Hne Ht Hc] Hl2]%Forall_cons].
    apply Forall_app; split; [done|]. constructor; [|done].
    simpl in *. apply Forall_app in Ho as [Ho1 [[H1 H2 H3] Ho2]%Forall_cons].
    split; simpl.
    + apply Forall_app; split; [done|]. constructor; [|done]. split; [done..|by apply fill_sane].
    + by destruct os1.
    + autorewrite with ob in *. lia.
    + rewrite length_app in *. done.
  - rewrite ids_app, ids_cons, fmap_app in Hid |- *. exact Hid.
Qed.

Lemma fill_step_rep m s A1 k os1 o os2 A2 n p c2 k' rest :
  side_rep m s (A1 ++ (k, os1 ++ o :: os2) :: A2) -> cursor s A1 k os1 ((n, p) :: c2) ->
  k' ≡ k -> 0 <= rest <= INT_MAX ->
  let x := Z.min rest (rem o) in
  let A' := A1 ++ (k, os1 ++ fill o x :: os2) :: A2 in
  heap m !! p = Some o /\
  exists s', fill_step m s k' p rest =
    Ok (write m p (fill o x), s', x, rest - x, fill o x, rem (fill o x) =? 0) /\
    side_rep (write m p (fill o x)) s' A' /\ cursor s' A1 k (os1 ++ [fill o x]) c2 /\
    saves [l2_view A'] s s' /\ pending_liq_remove_qty_ s' = pending_liq_remove_qty_ s /\
    keeps_others (is_sell_ s) None m (write m p (fill o x)).
Proof.
  intros Hrep (L1 & l & L2 & c1 & EL & El & Hlen1 & Hlenc) Hk Hrest x A'.
  pose proof Hrep as [Hc HL Hf Hok]. pose proof (rep_sorted _ _ _ Hrep) as Hsort.
  pose proof (book_level _ _ _ _ _ Hok) as Hlv.
  pose proof (level_order_ok _ _ _ _ _ _ _ Hok) as [Hside Hprice Hsane].
  pose proof (rem_nonneg o Hsane) as Hrem.
  assert (0 <= x <= rem o) as Hx by lia.
  pose proof (fill_sane o x Hsane Hx) as Hsane'.
  rewrite EL in HL. apply Forall2_app_inv in HL as [HL1 HL2]; [|done].
  inversion HL2 as [|? ? ? ? [_ Hl] HL2']; subst. simpl in Hl. clear HL2.
  assert (flat_rep m (order_map_ s) ((cells L1 ++ c1) ++ (n, p) :: (c2 ++ cells L2))
    ((resting A1 ++ os1) ++ o :: (os2 ++ resting A2))) as Hf'.
  { rewrite EL, cells_app, cells_cons, El, resting_app, resting_cons in Hf.
    rewrite <- !app_assoc in *. exact Hf. }
  assert (length (cells L1 ++ c1) = length (resting A1 ++ os1)) as Hlen.
  { rewrite !length_app, Hlenc. by rewrite (same_level_cells _ _ HL1). }
  destruct (flat_lookup _ _ _ _ _ _ _ _ _ Hf' Hlen) as [Hp Hom].
  destruct (Level.fillOrder_ok m k l os1 o os2 p x) as (l' & Hfill & Hpl & Eo & Hl');
    try done; [by eapply level_sane|apply Hlv|].
  assert (heap (write m p (fill o x)) !! p = Some (fill o x)) as Hp'.
  { simpl. by rewrite lookup_insert_eq. }
  assert (side_rep (write m p (fill o x)) (with_levels s (L1 ++ (k, l') :: L2)) A') as Hrep'.
  { eapply (rep_intro _ _ L1 k l' L2); simpl; try done; [|by apply fill_book_ok].
    apply (flat_update _ _ _ _ _ _ _ _ _ (fill o x)) in Hf'; [|done..].
    rewrite Eo, El, <- !app_assoc in *. exact Hf'. }
  split; [done|].
  exists (saveL2SnapshoSide (with_levels s (L1 ++ (k, l') :: L2))). split_and!.
  - unfold fill_step. do 2 run. rewrite (getL3Level_middle s L1 k l L2) by done.
    fold x. rewrite Hfill, bind_ok, (set_level_middle s L1 k l L2) by done.
    do 3 run. done.
  - destruct Hrep' as [? ? ? ?]. by split.
  - exists L1, l', L2, (c1 ++ [(n, p)]). simpl. split_and!; try done.
    + by rewrite Eo, El, <- app_assoc.
    + rewrite !length_app. simpl. lia.
  - split; simpl; try done. by rewrite (rep_l2_side _ _ _ Hrep').
  - done.
  - split; [done|]. intros q o' Hq Hne _. simpl. rewrite lookup_insert_ne; [done|].
    intros <-. rewrite Hp in Hq. injection Hq as <-. by destruct Hne.
Qed.

(** A level with key [k] is crossed by an order of the other side at [price]. *)
Definition crosses (b : bool) (k price : Price) : bool :=
  if b then pge price k else pge k price.

Lemma crosses_rank b k price : crosses b k price = (side_rank b k <=? side_rank b price).
Proof.
  unfold crosses, side_rank. destruct b; rewrite pge_key; [done|]. repeat zcase; lia || done.
Qed.

Fixpoint amatch (b : bool) (price : Price) (rest : Z) (A : abook)
    : abook * list (Order * Z) * Z :=
  match A with
  | [] => ([], [], rest)
  | (k, os) :: A' =>
      if (0 <? rest) && crosses b k price then
        let '(os', fills, rest') := afill rest os in
        let '(A'', fills', rest'') := amatch b price rest' A' in
        (keep_level k (survivors os') ++ A'', fills ++ fills', rest'')
      else (A, [], rest)
  end.

(** The quantity filled at a price. *)
Definition filled_at (p : Price) (fills : list (Order * Z)) : Z :=
  zsum (fun ox => if peq (Order.price ox.1) p then ox.2 else 0) fills.

Arguments filled_at : simpl never.

(** The pending removals have room for everything the book could trade. *)
Definition pending_room (s : BookSide) (A : abook) : Prop :=
  Forall (fun ko => 0 <= count plt ko.1 (pending_liq_remove_qty_ s) /\
    count plt ko.1 (pending_liq_remove_qty_ s) + total ko.2 <= INT_MAX) A.

Lemma filled_at_nil p : filled_at p [] = 0.
Proof. done. Qed.

Lemma filled_at_cons p o x fills :
  filled_at p ((o, x) :: fills) = (if peq (Order.price o) p then x else 0) + filled_at p fills.
Proof. done. Qed.

Lemma filled_at_app p f1 f2 : filled_at p (f1 ++ f2) = filled_at p f1 + filled_at p f2.
Proof. apply zsum_app. Qed.

(** ** [pending_liq_remove_qty_[p] += q] *)

Lemma map_add_ok p q (m : smap Price Quantity) :
  INT_MIN <= count plt p m + q <= INT_MAX ->
  exists m', map_add plt p q m = Ok m' /\ (sorted plt m -> sorted plt m') /\
    forall p', count plt p' m' = count plt p' m + (if peq p p' then q else 0).
Proof.
  intros H. unfold map_add. rewrite iadd_ok, bind_ok by done.
  eexists; split; [done|]. split; [apply (sorted_assign plt)|].
  intros p'. rewrite (count_assign plt). simpl rank.
  rewrite peq_key. zcase; [|lia]. f_equal. by apply (count_same plt).
Qed.

(** ** One level *)

Section level.
Context (A1 : abook) (k : Price) (A2 : abook) (agg : OrderPtr).

(** The loop invariant: the orders [os1] are done, those at [c2] are not. *)
Record crossed_inv (os1 os2 : list Order) (c2 : OrderList) (m : Store) (s : BookSide)
    (a : Order) (rest : Z) : Prop := {
  ci_rep : side_rep m s (A1 ++ (k, os1 ++ os2) :: A2);
  ci_cursor : cursor s A1 k os1 c2;
  ci_length : length c2 = length os2;
  ci_agg : heap m !! agg = Some a;
  ci_side : Order.is_sell a <> is_sell_ s;
  ci_sane : order_sane a;
  ci_rest : rem a = rest;
  ci_pending : 0 <= count plt k (pending_liq_remove_qty_ s);
  ci_room : count plt k (pending_liq_remove_qty_ s) + total os2 <= INT_MAX }.

(** What a run from [(m, s)] to [(m', s')] that filled [fills] has done. *)
Record crossed_done (fills : list (Order * Z)) (taken : Z) (q : L2SnapshotSideQue)
    (a : Order) (m : Store) (s : BookSide) (m' : Store) (s' : BookSide) : Prop := {
  cd_agg : heap m' !! agg = Some (fill a taken);
  cd_keeps : keeps_others (is_sell_ s) (Some agg) m m';
  cd_saves : saves q s s';
  cd_pending : forall p, count plt p (pending_liq_remove_qty_ s') =
    count plt p (pending_liq_remove_qty_ s) + filled_at p fills;
  cd_sorted : sorted plt (pending_liq_remove_qty_ s) -> sorted plt (pending_liq_remove_qty_ s') }.

Lemma crossed_done_refl a m s :
  heap m !! agg = Some a -> crossed_done [] 0 [] a m s m s.
Proof.
  intros Ha. split.
  - by rewrite fill_0.
  - apply keeps_others_refl.
  - apply saves_refl.
  - intros p. rewrite filled_at_nil. lia.
  - done.
Qed.

Lemma crossed_done_trans f1 t1 q1 f2 t2 q2 a m1 s1 m2 s2 m3 s3 :
  crossed_done f1 t1 q1 a m1 s1 m2 s2 -> crossed_done f2 t2 q2 (fill a t1) m2 s2 m3 s3 ->
  crossed_done (f1 ++ f2) (t1 + t2) (q1 ++ q2) a m1 s1 m3 s3.
Proof.
  intros [H1 H2 H3 H4 H5] [J1 J2 J3 J4 J5]. split; [..|auto].
  - by rewrite J1, fill_fill.
  - rewrite (sv_is_sell _ _ _ H3) in J2. by eapply keeps_others_trans.
  - by eapply saves_trans.
  - intros p. rewrite J4, H4, filled_at_app. lia.
Qed.

(** One turn of the loop. *)
Lemma crossed_step os1 o os2 n p c2 m s a rest :
  crossed_inv os1 (o :: os2) ((n, p) :: c2) m s a rest -> rest <> 0 ->
  let x := Z.min rest (rem o) in
  exists m1 s1,
    (forall rm evs, crossed_orders m s k agg ((n, p) :: c2) rest rm evs =
       crossed_orders m1 s1 k agg c2 (rest - x)
         (rm ++ gone_ids [(fill o x, x)]) (evs ++ exec_events (is_sell_ s) [(fill o x, x)])) /\
    crossed_inv (os1 ++ [fill o x]) os2 c2 m1 s1 (fill a x) (rest - x) /\
    crossed_done [(fill o x, x)] x [l2_view (A1 ++ (k, os1 ++ fill o x :: os2) :: A2)] a m s m1 s1.
Proof.
  intros [Hrep Hcur Hlen Ha Hside Hsane Hrest Hpend Hroom] Hne x.
  pose proof (rem_nonneg a Hsane) as Ha0. pose proof (sr_ok _ _ _ Hrep) as Hok.
  destruct (fill_step_rep m s A1 k os1 o os2 A2 n p c2 k rest) as
    (Hp & s1 & Hstep & Hrep1 & Hcur1 & Hsv1 & Hpr1 & Hk1); [done..|lia|].
  fold x in Hstep, Hrep1, Hcur1, Hsv1, Hk1. pose proof (sv_is_sell _ _ _ Hsv1) as Hs1.
  destruct (level_order_ok _ _ _ _ _ _ _ Hok) as [Hos Hop Hosane].
  pose proof (rem_nonneg o Hosane) as Ho0.
  pose proof (level_ok_sane _ _ _ (book_level _ _ _ _ _ Hok)) as Hsos.
  apply Forall_app in Hsos as [_ [_ Hsos]%Forall_cons].
  pose proof (total_nonneg _ Hsos) as Htot. rewrite zsum_cons in Hroom.
  assert (agg <> p) as Hap by congruence.
  destruct (map_add_ok (Order.price o) x (pending_liq_remove_qty_ s1)) as (pr & Hadd & Hsorted & Hpr).
  { rewrite Hpr1, (count_same plt (Order.price o) k) by done. range. }
  assert (heap (write m p (fill o x)) !! agg = Some a) as Ha1.
  { simpl. by rewrite lookup_insert_ne. }
  exists (write (write m p (fill o x)) agg (fill a x)), (with_pending_remove s1 pr). split_and!.
  - intros rm evs. simpl crossed_orders.
    rewrite (proj2 (Z.eqb_neq rest 0) Hne), Hstep, bind_ok. simpl Order.price.
    rewrite Hadd, bind_ok, (add_filled_ok _ _ _ x Ha1), bind_ok by (done || lia).
    rewrite Hs1. f_equal. unfold gone_ids. rewrite fmap_cons. simpl.
    destruct (Z.eqb_spec (rem (fill o x)) 0).
    + by rewrite filter_cons_True by done.
    + rewrite filter_cons_False by done. by rewrite app_nil_r.
  - assert (side_rep (write (write m p (fill o x)) agg (fill a x)) s1
      (A1 ++ (k, (os1 ++ [fill o x]) ++ os2) :: A2)) as Hr.
    { rewrite <- app_assoc. eapply rep_frame; [exact Hrep1|simpl; lia|].
      intros q Hq. simpl. apply lookup_insert_ne. intros <-. revert Hq.
      eapply rep_not_pointer; [exact Hrep1|exact Ha1|]. by rewrite Hs1. }
    split; simpl; try done; try lia.
    + by destruct Hr; split.
    + by injection Hlen.
    + by rewrite lookup_insert_eq.
    + by rewrite Hs1.
    + apply fill_sane; [done|lia].
    + rewrite rem_fill. lia.
    + rewrite Hpr, Hpr1, (proj2 (peq_equiv _ _) Hop). lia.
    + rewrite Hpr, Hpr1, (proj2 (peq_equiv _ _) Hop). lia.
  - split; simpl.
    + by rewrite lookup_insert_eq.
    + destruct Hk1 as [_ Hk1]. split; [done|]. intros q o' Hq Ho' Hqa. simpl.
      rewrite lookup_insert_ne by congruence. by apply Hk1.
    + by destruct Hsv1; split.
    + intros q. rewrite Hpr, Hpr1, filled_at_cons, filled_at_nil. simpl. lia.
    + by rewrite <- Hpr1.
Qed.

Lemma crossed_orders_rep : forall os2 os1 c2 m s rest a,
  crossed_inv os1 os2 c2 m s a rest ->
  exists m' s',
    (forall rm evs, crossed_orders m s k agg c2 rest rm evs =
      Ok (m', s', afill_rest rest os2, rm ++ gone_ids (afill_fills rest os2),
          evs ++ exec_events (is_sell_ s) (afill_fills rest os2))) /\
    side_rep m' s' (A1 ++ (k, os1 ++ afill_orders rest os2) :: A2) /\
    crossed_done (afill_fills rest os2) (rest - afill_rest rest os2)
      (afill_views (fun os => l2_view (A1 ++ (k, os) :: A2)) os1 rest os2) a m s m' s'.
Proof.
  induction os2 as [|o os2 IH]; intros os1 c2 m s rest a Hinv;
    pose proof (ci_length _ _ _ _ _ _ _ Hinv) as Hlen.
  - destruct c2; [|done]. exists m, s. simpl. rewrite Z.sub_diag.
    destruct Hinv as [Hrep ? ? Ha]. rewrite app_nil_r in Hrep.
    split_and!; try done; [intros; by rewrite !app_nil_r|by rewrite app_nil_r|].
    by apply crossed_done_refl.
  - destruct c2 as [|[n p] c2]; [done|]. destruct (decide (rest = 0)) as [E0|Hne].
    { exists m, s. rewrite E0, afill_zero. simpl.
      split_and!; [intros; by rewrite !app_nil_r|apply Hinv|]. apply crossed_done_refl, Hinv. }
    destruct (crossed_step _ _ _ _ _ _ _ _ _ _ Hinv Hne) as (m1 & s1 & Hrun & Hinv1 & Hd1).
    destruct (IH _ _ _ _ _ _ Hinv1) as (m' & s' & Hrun' & Hrep' & Hd').
    pose proof (sv_is_sell _ _ _ (cd_saves _ _ _ _ _ _ _ _ Hd1)) as Hs1. rewrite Hs1 in Hrun'.
    exists m', s'. rewrite afill_cons by done. cbn [fst snd]. split_and!.
    + intros rm evs. rewrite Hrun, Hrun', <- !app_assoc. do 3 f_equal. unfold gone_ids.
      by rewrite <- fmap_app, <- filter_app, <- fmap_app.
    + by rewrite <- app_assoc in Hrep'.
    + pose proof (crossed_done_trans _ _ _ _ _ _ _ _ _ _ _ _ _ Hd1 Hd') as Hd.
      simpl. rewrite (proj2 (Z.eqb_neq rest 0) Hne).
      match type of Hd with crossed_done _ ?t _ _ _ _ _ _ =>
        match goal with |- crossed_done _ ?t' _ _ _ _ _ _ => replace t' with t by lia end end.
      exact Hd.
Qed.

End level.

(** ** After the loop over a level: [removeOrder] on what is filled *)

Lemma level_ids_nodup b A1 k os A2 :
  book_ok b (A1 ++ (k, os) :: A2) -> NoDup (Order.odid <$> os).
Proof.
  intros [_ _ Hid]. rewrite ids_app, ids_cons in Hid.
  apply NoDup_app in Hid as (_ & _ & Hid). by apply NoDup_app in Hid as (Hid & _ & _).
Qed.

Lemma aremoves_filled b A1 k r os A2 :
  book_ok b (A1 ++ (k, os) :: A2) -> 0 <= r -> Forall (fun o => 0 < rem o) os ->
  aremoves (gone_ids (afill_fills r os)) (A1 ++ (k, afill_orders r os) :: A2) =
  A1 ++ keep_level k (survivors (afill_orders r os)) ++ A2.
Proof.
  intros Hok Hr Hlive. rewrite (aremoves_level b).
  - by rewrite survivors_gone by (done || by eapply level_ids_nodup).
  - by apply afill_book_ok.
  - intros id Hid. rewrite afill_ids. by eapply gone_ids_elem.
Qed.

Lemma remove_filled m s A1 k r os A2 :
  side_rep m s (A1 ++ (k, afill_orders r os) :: A2) ->
  book_ok (is_sell_ s) (A1 ++ (k, os) :: A2) -> 0 <= r -> Forall (fun o => 0 < rem o) os ->
  exists s', removeOrders m s (gone_ids (afill_fills r os)) = Ok s' /\ same_aux s s' /\
    side_rep m s' (A1 ++ keep_level k (survivors (afill_orders r os)) ++ A2).
Proof.
  intros Hrep Hok Hr Hlive.
  destruct (removeOrders_spec m s _ (gone_ids (afill_fills r os)) Hrep) as (s' & H1 & H2 & H3).
  exists s'. split_and!; [done..|]. by erewrite <- aremoves_filled.
Qed.

Lemma afill_sane r os :
  0 <= r -> Forall order_sane os -> Forall order_sane (afill_orders r os).
Proof.
  intros Hr Hs. revert r Hr. induction Hs as [|o os Ho Hs IH]; intros r Hr; [done|].
  destruct (decide (r = 0)) as [->|Hne]; [rewrite afill_zero; by constructor|].
  pose proof (rem_nonneg o Ho). rewrite afill_cons by done. simpl.
  constructor; [apply fill_sane; [done|lia]|]. apply IH. lia.
Qed.

Lemma keep_level_live k r os :
  0 <= r -> Forall order_sane os -> live (keep_level k (survivors (afill_orders r os))).
Proof.
  intros Hr Hs. unfold live. rewrite resting_keep_level.
  by apply survivors_live, afill_sane.
Qed.

Lemma crossed_done_aux agg fills t q a m s m' s1 s2 :
  crossed_done agg fills t q a m s m' s1 -> same_aux s1 s2 ->
  crossed_done agg fills t q a m s m' s2.
Proof.
  intros [H1 H2 [] H4 H5] []. split; try done; [split; congruence|..].
  - intros p. rewrite <- H4. congruence.
  - intros Hs%H5. congruence.
Qed.

(** The price of every fill of a level is the level's. *)
Lemma fills_price b k r os ox :
  0 <= r -> Forall (order_ok b k) os -> ox ∈ afill_fills r os -> Order.price ox.1 ≡ k.
Proof.
  intros Hr Ho Hin. destruct ox as [o x]. apply fills_elem in Hin.
  pose proof (afill_order_ok _ _ _ _ Hr Ho) as Hall. rewrite Forall_forall in Hall.
  by apply Hall.
Qed.

Lemma filled_at_other b k p r os :
  0 <= r -> Forall (order_ok b k) os -> k ≢ p -> filled_at p (afill_fills r os) = 0.
Proof.
  intros Hr Ho Hkp.
  assert (forall ox, ox ∈ afill_fills r os -> Order.price ox.1 ≡ k) as Hall.
  { intros ox. by eapply fills_price. }
  revert Hall. induction (afill_fills r os) as [|[o x] l IH]; intros Hall; [done|].
  rewrite filled_at_cons, IH.
  - specialize (Hall (o, x) ltac:(left)). simpl in Hall.
    destruct (peq (Order.price o) p) eqn:E; [|done]. apply peq_equiv in E.
    destruct Hkp. by rewrite <- Hall.
  - intros ox Hin. apply Hall. by right.
Qed.

Lemma sorted_head_other b k os A ko :
  book_ok b ((k, os) :: A) -> ko ∈ A -> k ≢ ko.1.
Proof.
  intros [Hs _ _] Hin E. apply (sorted_cons (side_comp b)) in Hs as [_ Hlt].
  apply Hlt in Hin. apply (side_rank_equiv b) in E. simpl in *. lia.
Qed.

(** ** The loop over the levels *)

(** The snapshots saved on the way. *)
Fixpoint amatch_views (b : bool) (price : Price) (rest : Z) (A : abook)
    : list L2SnapshotSide :=
  match A with
  | [] => []
  | (k, os) :: A' =>
      if (0 <? rest) && crosses b k price then
        afill_views (fun os => l2_view ((k, os) :: A')) [] rest os ++
        amatch_views b price (afill_rest rest os) A'
      else []
  end.

Abbreviation amatch_book b p r A := (amatch b p r A).1.1.
Abbreviation amatch_fills b p r A := (amatch b p r A).1.2.
Abbreviation amatch_rest b p r A := (amatch b p r A).2.

Lemma amatch_stop b price rest k os A :
  (0 <? rest) && crosses b k price = false ->
  amatch b price rest ((k, os) :: A) = ((k, os) :: A, [], rest).
Proof. intros E. simpl. by rewrite E. Qed.

Lemma amatch_cons b price rest k os A :
  0 < rest -> crosses b k price = true ->
  amatch b price rest ((k, os) :: A) =
  (keep_level k (survivors (afill_orders rest os)) ++ amatch_book b price (afill_rest rest os) A,
   afill_fills rest os ++ amatch_fills b price (afill_rest rest os) A,
   amatch_rest b price (afill_rest rest os) A).
Proof.
  intros Hr Hc. simpl. rewrite Hc, (proj2 (Z.ltb_lt _ _) Hr). simpl.
  destruct (afill rest os) as [[os' f] r']; simpl.
  by destruct (amatch b price r' A) as [[A' f'] r''].
Qed.

Lemma amatch_zero b price A : amatch b price 0 A = (A, [], 0).
Proof. by destruct A as [|[k os] A]. Qed.

Lemma crosses_concrete m s k os A price :
  side_rep m s ((k, os) :: A) -> bookCrossedWithPrice s price = crosses (is_sell_ s) k price.
Proof.
  intros [_ HL _ _]. inversion HL as [|[k' l] ? L ? [E Hl] HL2 EL]; subst.
  simpl in *; subst k'. unfold bookCrossedWithPrice. rewrite <- EL.
  unfold crosses. rewrite !pge_key.
  assert (price_key (Level.price l) = price_key k) as -> by apply (ls_price _ _ _ Hl).
  done.
Qed.

Lemma crossed_loop_idle fuel m s agg a rest events :
  heap m !! agg = Some a -> rest <= 0 ->
  crossed_loop (S fuel) m s agg rest events = Ok (m, s, events).
Proof.
  intros Ha Hr. simpl. rewrite (deref_ok _ _ _ Ha), bind_ok.
  by rewrite (proj2 (Z.ltb_ge _ _) Hr).
Qed.

(** What holds when the loop is about to look at the best level. *)
Record crossed_pre (agg : OrderPtr) (m : Store) (s : BookSide) (A : abook) (a : Order) : Prop := {
  cp_rep : side_rep m s A;
  cp_live : live A;
  cp_agg : heap m !! agg = Some a;
  cp_side : Order.is_sell a <> is_sell_ s;
  cp_sane : order_sane a;
  cp_room : pending_room s A }.

Lemma crossed_pre_inv agg m s k os A a :
  crossed_pre agg m s ((k, os) :: A) a ->
  exists l L, levels_ s = (k, l) :: L /\
    crossed_inv [] k A agg [] os (Level.orders l) m s a (rem a).
Proof.
  intros [Hrep Hlive Ha Hside Hsane [[Hp Hroom] _]%Forall_cons].
  destruct (cursor_start m s [] k os A Hrep) as ([|] & l & L & EL & HlL & Hll & Hcur); [|done].
  exists l, L. split; [done|]. by split.
Qed.

(** One turn of the loop over the levels. *)
Lemma crossed_turn agg m s k os A a :
  crossed_pre agg m s ((k, os) :: A) a -> 0 < rem a -> crosses (is_sell_ s) k (Order.price a) = true ->
  let r := rem a in let r' := afill_rest r os in
  exists m' s',
    (forall fuel ev, crossed_loop (S fuel) m s agg r ev =
       crossed_loop fuel m' s' agg r' (ev ++ exec_events (is_sell_ s) (afill_fills r os))) /\
    side_rep m' s' (keep_level k (survivors (afill_orders r os)) ++ A) /\
    live (keep_level k (survivors (afill_orders r os)) ++ A) /\
    crossed_done agg (afill_fills r os) (r - r')
      (afill_views (fun os => l2_view ((k, os) :: A)) [] r os) a m s m' s' /\
    pending_room s' A.
Proof.
  intros Hpre Hr Hc. cbv zeta. pose proof Hpre as [Hrep Hlive Ha Hside Hsane Hroom].
  pose proof (sr_ok _ _ _ Hrep) as Hok. pose proof (book_level _ [] _ _ _ Hok) as Hlv.
  pose proof (level_ok_sane _ _ _ Hlv) as Hsos. apply live_cons in Hlive as [Hlos HlA].
  destruct (crossed_pre_inv _ _ _ _ _ _ _ Hpre) as (l & L & EL & Hinv).
  destruct (crossed_orders_rep _ _ _ _ _ _ _ _ _ _ _ Hinv) as (m1 & s1 & Hrun & Hrep1 & Hd).
  pose proof (sv_is_sell _ _ _ (cd_saves _ _ _ _ _ _ _ _ _ Hd)) as Hs1.
  destruct (remove_filled m1 s1 [] k (rem a) os A Hrep1) as (s2 & Hrm & Haux & Hrep2);
    try done; [by rewrite Hs1|lia|].
  pose proof (crossed_done_aux _ _ _ _ _ _ _ _ _ _ Hd Haux) as Hd2.
  exists m1, s2. split_and!; try done.
  - intros fuel ev. cbn [crossed_loop].
    rewrite (deref_ok _ _ _ Ha), bind_ok, (crosses_concrete _ _ _ _ _ _ Hrep), Hc.
    rewrite (proj2 (Z.ltb_lt _ _) Hr), EL. cbn [andb].
    by rewrite Hrun, bind_ok, app_nil_l, Hrm, bind_ok.
  - apply live_app. split; [apply keep_level_live; [lia|done] | done].
  - apply Forall_cons in Hroom as [_ HroomA]. unfold pending_room in *.
    rewrite Forall_forall in HroomA |- *. intros ko Hin.
    rewrite (cd_pending _ _ _ _ _ _ _ _ _ Hd2).
    rewrite (filled_at_other (is_sell_ s) k); [|lia|apply Hlv|by eapply sorted_head_other].
    rewrite Z.add_0_r. by apply HroomA.
Qed.

(** The contract of [processCrossedOrder] on the levels [A] behind the levels
    [D], which it does not touch. *)
Record has_crossed (agg : OrderPtr) (D A : abook) (a : Order) (m : Store) (s : BookSide)
    (m' : Store) (s' : BookSide) : Prop := {
  hc_rep : side_rep m' s' (D ++ amatch_book (is_sell_ s) (Order.price a) (rem a) A);
  hc_live : live (D ++ amatch_book (is_sell_ s) (Order.price a) (rem a) A);
  hc_done : crossed_done agg (amatch_fills (is_sell_ s) (Order.price a) (rem a) A)
    (rem a - amatch_rest (is_sell_ s) (Order.price a) (rem a) A)
    (amatch_views (is_sell_ s) (Order.price a) (rem a) A) a m s m' s' }.

(** Either the turn used up the aggressor, or it emptied the level. *)
Lemma crossed_turn_cases agg m s k os A a :
  crossed_pre agg m s ((k, os) :: A) a -> 0 < rem a -> crosses (is_sell_ s) k (Order.price a) = true ->
  exists m1 s1 a1,
    (forall fuel ev, crossed_loop (S fuel) m s agg (rem a) ev =
       crossed_loop fuel m1 s1 agg (rem a1)
         (ev ++ exec_events (is_sell_ s) (afill_fills (rem a) os))) /\
    a1 = fill a (rem a - afill_rest (rem a) os) /\ rem a1 = afill_rest (rem a) os /\
    is_sell_ s1 = is_sell_ s /\
    crossed_done agg (afill_fills (rem a) os) (rem a - rem a1)
      (afill_views (fun os => l2_view ((k, os) :: A)) [] (rem a) os) a m s m1 s1 /\
    ((rem a1 = 0 /\ heap m1 !! agg = Some a1 /\
      side_rep m1 s1 (keep_level k (survivors (afill_orders (rem a) os)) ++ A) /\
      live (keep_level k (survivors (afill_orders (rem a) os)) ++ A)) \/
     (keep_level k (survivors (afill_orders (rem a) os)) = [] /\ crossed_pre agg m1 s1 A a1)).
Proof.
  intros Hpre Hr Hc. destruct (crossed_turn _ _ _ _ _ _ _ Hpre Hr Hc)
    as (m1 & s1 & Hrun & Hrep1 & Hl1 & Hd1 & Hroom1).
  pose proof Hpre as [Hrep Hlive Ha Hside Hsane _].
  pose proof (sr_ok _ _ _ Hrep) as Hok. pose proof (book_level _ [] _ _ _ Hok) as Hlv.
  pose proof (level_ok_sane _ _ _ Hlv) as Hsos.
  pose proof (afill_rest_bounds (rem a) os ltac:(lia) Hsos) as Hr'.
  exists m1, s1, (fill a (rem a - afill_rest (rem a) os)).
  assert (rem (fill a (rem a - afill_rest (rem a) os)) = afill_rest (rem a) os) as Er.
  { rewrite rem_fill. lia. }
  pose proof (sv_is_sell _ _ _ (cd_saves _ _ _ _ _ _ _ _ _ Hd1)) as Hs1.
  rewrite Er. split_and!; try done.
  destruct (decide (afill_rest (rem a) os = 0)) as [E0|Hne]; [left | right].
  - split_and!; [done|by eapply cd_agg|done..].
  - assert (keep_level k (survivors (afill_orders (rem a) os)) = []) as E.
    { rewrite survivors_all_filled; [done|lia|done|lia]. }
    rewrite E in Hrep1, Hl1. split; [done|]. split; try done.
    + by eapply cd_agg.
    + by rewrite Hs1.
    + apply fill_sane; [done|lia].
Qed.

(** No turn: the loop is over. *)
Lemma has_crossed_zero agg D A a m s :
  side_rep m s (D ++ A) -> live (D ++ A) -> heap m !! agg = Some a -> rem a = 0 ->
  has_crossed agg D A a m s m s.
Proof.
  intros Hrep Hlive Ha E.
  split; rewrite ?E, ?amatch_zero; [done..|]. cbn [fst snd]. rewrite Z.sub_diag.
  destruct A as [|[k os] A]; by apply crossed_done_refl.
Qed.

(** A turn and the rest of the loop. *)
Lemma has_crossed_cons agg k os A a a1 m s m1 s1 m' s' :
  0 < rem a -> crosses (is_sell_ s) k (Order.price a) = true ->
  a1 = fill a (rem a - afill_rest (rem a) os) -> rem a1 = afill_rest (rem a) os ->
  is_sell_ s1 = is_sell_ s ->
  crossed_done agg (afill_fills (rem a) os) (rem a - rem a1)
    (afill_views (fun os => l2_view ((k, os) :: A)) [] (rem a) os) a m s m1 s1 ->
  has_crossed agg (keep_level k (survivors (afill_orders (rem a) os))) A a1 m1 s1 m' s' ->
  has_crossed agg [] ((k, os) :: A) a m s m' s'.
Proof.
  intros Hr Hc Ea1 Er1 Hs1 Hd1 [Hrep Hlive Hd].
  rewrite Er1, Hs1 in *. assert (Order.price a1 = Order.price a) as Ep by by rewrite Ea1.
  rewrite Ep, Ea1 in *. pose proof (crossed_done_trans _ _ _ _ _ _ _ _ _ _ _ _ _ _ Hd1 Hd) as Hd2.
  split; rewrite amatch_cons by done; cbn [fst snd]; try done.
  cbn [amatch_views]. rewrite Hc, (proj2 (Z.ltb_lt _ _) Hr). cbn [andb].
  match type of Hd2 with crossed_done _ _ ?t _ _ _ _ _ _ =>
    match goal with |- crossed_done _ _ ?t' _ _ _ _ _ _ => replace t' with t by lia end end.
  exact Hd2.
Qed.

Lemma crossed_loop_rep agg : forall A fuel m s a ev,
  crossed_pre agg m s A a -> (length A < fuel)%nat ->
  exists m' s',
    crossed_loop fuel m s agg (rem a) ev =
      Ok (m', s', ev ++ exec_events (is_sell_ s)
        (amatch_fills (is_sell_ s) (Order.price a) (rem a) A)) /\
    has_crossed agg [] A a m s m' s'.
Proof.
  induction A as [|[k os] A IH]; intros [|fuel] m s a ev Hpre Hfuel; try (simpl in Hfuel; lia).
  - destruct Hpre as [Hrep Hlive Ha]. exists m, s. split; [|split; try done; simpl].
    + cbn [crossed_loop]. rewrite (deref_ok _ _ _ Ha), bind_ok. unfold bookCrossedWithPrice.
      destruct Hrep as [_ HL _ _]. rewrite (Forall2_nil_inv_r _ _ HL).
      by rewrite andb_false_r, app_nil_r.
    + rewrite Z.sub_diag. by apply crossed_done_refl.
  - pose proof Hpre as [Hrep Hlive Ha Hside Hsane _].
    destruct ((0 <? rem a) && crosses (is_sell_ s) k (Order.price a)) eqn:E.
    + apply andb_true_iff in E as [Hr%Z.ltb_lt Hc].
      destruct (crossed_turn_cases _ _ _ _ _ _ _ Hpre Hr Hc)
        as (m1 & s1 & a1 & Hrun & Ea1 & Er1 & Hs1 & Hd1 & Hcase).
      destruct Hcase as [(E0 & Ha1 & Hrep1 & Hlive1)|(Ek & Hpre1)].
      * exists m1, s1. split; [|by eapply has_crossed_cons, has_crossed_zero].
        rewrite Hrun. destruct fuel as [|fuel]; [simpl in Hfuel; lia|].
        rewrite (crossed_loop_idle _ _ _ _ a1) by (done || lia).
        rewrite amatch_cons by done. cbn [fst snd].
        by rewrite <- Er1, E0, amatch_zero, app_nil_r.
      * destruct (IH fuel m1 s1 a1 (ev ++ exec_events (is_sell_ s) (afill_fills (rem a) os))
          Hpre1 ltac:(simpl in Hfuel; lia)) as (m' & s' & Hrun' & Hhc).
        exists m', s'. split; [|eapply has_crossed_cons; [done..|by rewrite Ek]].
        rewrite Hrun, Hrun', Hs1, amatch_cons by done. cbn [fst snd].
        rewrite <- app_assoc, Er1, Ea1. unfold exec_events. by rewrite fmap_app.
    + exists m, s. split; [|split].
      * cbn [crossed_loop].
        rewrite (deref_ok _ _ _ Ha), bind_ok, (crosses_concrete _ _ _ _ _ _ Hrep), E.
        by rewrite amatch_stop, app_nil_r.
      * by rewrite amatch_stop.
      * by rewrite amatch_stop.
      * rewrite amatch_stop by done. simpl. rewrite E, Z.sub_diag. by apply crossed_done_refl.
Qed.

(** [processCrossedOrder] refines [amatch]: it completes, without a failed
    assertion, a dangling pointer or an overflow. *)
Lemma processCrossedOrder_rep m s A agg a :
  crossed_pre agg m s A a ->
  exists m' s',
    processCrossedOrder m s agg =
      Ok (m', s', exec_events (is_sell_ s)
        (amatch_fills (is_sell_ s) (Order.price a) (rem a) A)) /\
    has_crossed agg [] A a m s m' s'.
Proof.
  intros Hpre. pose proof Hpre as [Hrep _ Ha Hside Hsane _].
  unfold processCrossedOrder. rewrite (deref_ok _ _ _ Ha), bind_ok.
  assert (Bool.eqb (Order.is_sell a) (is_sell_ s) = false) as ->.
  { by apply eqb_false_iff. }
  cbn [negb]. rewrite (c_assert_ok true eq_refl), bind_ok, (getRemainingQuantity_ok _ Hsane), bind_ok.
  destruct (crossed_loop_rep agg A (S (length (levels_ s))) m s a [] Hpre) as (m' & s' & Hrun & H).
  { pose proof (sr_levels _ _ _ Hrep) as HL. apply Forall2_length in HL. lia. }
  exists m', s'. by rewrite Hrun.
Qed.

(** ** Price–time priority

    [amatch] walks levels and queues; seen flat, it fills the crossing orders
    of the book in one queue sorted by price and then by arrival. *)

Lemma afill_app r l1 l2 :
  afill r (l1 ++ l2) =
  (afill_orders r l1 ++ afill_orders (afill_rest r l1) l2,
   afill_fills r l1 ++ afill_fills (afill_rest r l1) l2,
   afill_rest (afill_rest r l1) l2).
Proof.
  revert r. induction l1 as [|o l1 IH]; intros r.
  - simpl. by destruct (afill r l2) as [[? ?] ?].
  - destruct (decide (r = 0)) as [->|Hne].
    { simpl app. by rewrite !afill_zero. }
    rewrite <- app_comm_cons, (afill_cons r o (l1 ++ l2)), (afill_cons r o l1) by exact Hne.
    cbn [fst snd]. rewrite IH. reflexivity.
Qed.

Lemma survivors_app l1 l2 : survivors (l1 ++ l2) = survivors l1 ++ survivors l2.
Proof. apply filter_app. Qed.

Lemma live_survivors A : live A -> survivors (resting A) = resting A.
Proof.
  intros H. apply filter_Forall. eapply Forall_impl; [exact H|]. simpl. lia.
Qed.

(** The book falls into the levels that cross and those that do not. *)
Lemma crosses_split b price A :
  sorted (side_comp b) A ->
  exists A1 A2, A = A1 ++ A2 /\ Forall (fun ko : Price * list Order => crosses b ko.1 price = true) A1 /\
    Forall (fun ko : Price * list Order => crosses b ko.1 price = false) A2.
Proof.
  induction A as [|[k os] A IH]; intros Hs; [by exists [], []|].
  apply (sorted_cons (side_comp b)) in Hs as [Hs Hlt].
  destruct (crosses b k price) eqn:E.
  - destruct (IH Hs) as (A1 & A2 & -> & H1 & H2). exists ((k, os) :: A1), A2. split_and!; auto.
  - exists [], ((k, os) :: A). split_and!; [done..|]. constructor; [done|].
    apply Forall_forall. intros ko Hin. apply Hlt in Hin. rewrite crosses_rank in *.
    simpl in *. repeat zcase; done || lia.
Qed.

Lemma amatch_none b price r A :
  Forall (fun ko : Price * list Order => crosses b ko.1 price = false) A -> amatch b price r A = (A, [], r).
Proof.
  destruct 1 as [|[k os] A E]; [done|]. apply amatch_stop. simpl in E. by rewrite E, andb_false_r.
Qed.

Lemma amatch_flat b price A1 A2 r :
  Forall (fun ko : Price * list Order => crosses b ko.1 price = true) A1 ->
  Forall (fun ko : Price * list Order => crosses b ko.1 price = false) A2 ->
  0 <= r -> live A1 -> Forall order_sane (resting A1) ->
  resting (amatch_book b price r (A1 ++ A2)) =
    survivors (afill_orders r (resting A1)) ++ resting A2 /\
  amatch_fills b price r (A1 ++ A2) = afill_fills r (resting A1) /\
  amatch_rest b price r (A1 ++ A2) = afill_rest r (resting A1).
Proof.
  intros Hc1 Hc2. revert r. induction Hc1 as [|[k os] A1 Hk Hc1 IH]; intros r Hr Hlive Hs.
  { simpl app. by rewrite amatch_none. }
  destruct (decide (r = 0)) as [->|Hne].
  { rewrite amatch_zero, afill_zero. cbn [fst snd].
    by rewrite resting_app, live_survivors. }
  apply live_cons in Hlive as [Hos Hlive].
  rewrite resting_cons in Hs |- *. apply Forall_app in Hs as [Hs1 Hs2].
  simpl app. rewrite amatch_cons by (simpl in *; lia || done). rewrite afill_app.
  cbn [fst snd]. pose proof (afill_rest_bounds r os Hr Hs1).
  rewrite resting_app, resting_keep_level, survivors_app, <- app_assoc.
  by destruct (IH (afill_rest r os)) as (-> & -> & ->); [lia|..].
Qed.
