(* ===== verification/PendingLiq.v ===== *)
(** * Pending liquidity

    [matchPendingLiqRemove] takes from the quantity that trades are still
    expected to remove.  [matchPendingLiqAdd] is the one [while] loop of the
    program that need not end: it walks the expected additions but erases
    under the caller's price instead of the entry's, so an entry that is used
    up at another price stays, with quantity zero, and is looked at again. *)

From S2P Require Import Prelude Outcome StdMap Price Common Order L2Level Level Messages BookSide.

(** Quantities that wait at a price: never negative, always an [int]. *)
Definition counts_ok (m : smap Price Quantity) : Prop :=
  sorted plt m /\ forall p, 0 <= count plt p m <= INT_MAX.

Lemma map_find_count {K} (lt : K -> K -> bool) (k : K) (m : smap K Z) v :
  map_find lt k m = Some v -> count lt k m = v.
Proof. intros E. unfold count. by rewrite E. Qed.

Lemma map_sub_ok p q (m : smap Price Quantity) :
  INT_MIN <= count plt p m - q <= INT_MAX ->
  map_sub plt p q m = Ok (map_assign plt p (count plt p m - q) m).
Proof. intros H. unfold map_sub. by rewrite isub_ok, bind_ok. Qed.

(** What [matchPendingLiqRemove] does to the counts. *)
Lemma matchPendingLiqRemove_rep s q p :
  counts_ok (pending_liq_remove_qty_ s) -> 0 <= q <= INT_MAX ->
  let x := Z.min (count plt p (pending_liq_remove_qty_ s)) q in
  exists pr, matchPendingLiqRemove s q p = Ok (x, with_pending_remove s pr) /\
    counts_ok pr /\
    forall p', count plt p' pr =
      count plt p' (pending_liq_remove_qty_ s) - (if peq p p' then x else 0).
Proof.
  intros [Hs Hc] Hq x. unfold matchPendingLiqRemove. pose proof (Hc p) as Hp.
  destruct (map_find plt p (pending_liq_remove_qty_ s)) as [v|] eqn:E.
  - pose proof (map_find_count _ _ _ _ E) as Ev. rewrite <- Ev. fold x.
    rewrite map_sub_ok, bind_ok by range.
    set (m1 := map_assign plt p _ _).
    assert (sorted plt m1) as Hs1 by by apply (sorted_assign plt).
    assert (forall p', count plt p' m1 =
      count plt p' (pending_liq_remove_qty_ s) - (if peq p p' then x else 0)) as Hm1.
    { intros p'. unfold m1. rewrite (count_assign plt), peq_key. simpl rank. zcase; [|lia].
      f_equal. by apply (count_same plt). }
    assert (exists pr, (if count plt p m1 =? 0 then map_erase plt p m1 else m1) = pr /\
      sorted plt pr /\ forall p', count plt p' pr = count plt p' m1) as (pr & -> & Hspr & Hpr).
    { eexists; split; [done|]. destruct (Z.eqb_spec (count plt p m1) 0) as [E0|]; [|done].
      split; [by apply (sorted_erase plt)|]. intros p'. rewrite (count_erase plt) by done.
      zcase; [|done]. rewrite <- E0. by apply (count_same plt). }
    exists pr. split; [done|].
    assert (forall p', count plt p' pr =
      count plt p' (pending_liq_remove_qty_ s) - (if peq p p' then x else 0)) as Hall.
    { intros p'. by rewrite Hpr, Hm1. }
    split; [|done]. split; [done|]. intros p'. rewrite Hall. specialize (Hc p').
    rewrite peq_key. zcase; [|lia]. rewrite (count_same plt p' p) in Hc |- * by done. lia.
  - assert (count plt p (pending_liq_remove_qty_ s) = 0) as E0 by (unfold count; by rewrite E).
    exists (pending_liq_remove_qty_ s). unfold x. rewrite E0, Z.min_l by lia.
    split; [by destruct s|]. split; [done|]. intros p'. destruct (peq p p'); lia.
Qed.

(** ** [matchPendingLiqAdd] *)

(** [can_match] for the first entry. *)
Definition can_match (b : bool) (price first : Price) : bool :=
  if b then ple price first else pge price first.

Lemma can_match_rank b price first :
  can_match b price first = (side_rank b price <=? side_rank b first).
Proof.
  unfold can_match, side_rank. destruct b; rewrite ?ple_key, ?pge_key; [done|].
  repeat zcase; lia || done.
Qed.

(** What the entries offer to an order: everything when the first matches. *)
Definition matches_first (b : bool) (price : Price) (pa : smap Price Quantity) : bool :=
  match pa with [] => false | (k, _) :: _ => can_match b price k end.

Definition available (b : bool) (price : Price) (pa : smap Price Quantity) : Z :=
  if matches_first b price pa then zsum snd pa else 0.

(** When the loop ends: the first entry does not match or covers the order; or
    it is used up at the order's own price, and then the next one covers what
    is left or there is none. *)
Definition add_loop_ends (b : bool) (pa : smap Price Quantity) (q : Quantity) (price : Price)
    : bool :=
  match pa with
  | [] => true
  | (k, v) :: pa =>
      negb (can_match b price k) || (q <=? v) ||
      (peq k price && match pa with [] => true | (_, v') :: _ => q - v <=? v' end)
  end.

Record pending_add_ok (s : BookSide) : Prop := {
  pa_comp : comp_ s = side_comp (is_sell_ s);
  pa_sorted : sorted (side_comp (is_sell_ s)) (pending_liq_add_qty_ s);
  pa_nonneg : Forall (fun kv : Price * Quantity => 0 <= kv.2) (pending_liq_add_qty_ s);
  pa_total : zsum snd (pending_liq_add_qty_ s) <= INT_MAX }.

Lemma with_pending_add_id s : with_pending_add s (pending_liq_add_qty_ s) = s.
Proof. by destruct s. Qed.

(** One turn on a matching first entry. *)
Lemma add_turn fuel s q price mq k v pa :
  pending_add_ok s -> pending_liq_add_qty_ s = (k, v) :: pa ->
  can_match (is_sell_ s) price k = true -> 0 <= mq <= q -> q <= INT_MAX ->
  let x := Z.min v (q - mq) in
  let s' := with_pending_add s
    (if v - x =? 0 then map_erase (comp_ s) price ((k, v - x) :: pa) else (k, v - x) :: pa) in
  matchPendingLiqAdd_loop (S fuel) s q price mq =
  if mq + x =? q then Ok (mq + x, s') else matchPendingLiqAdd_loop fuel s' q price (mq + x).
Proof.
  intros [Hc Hs Hn Ht] E Hcan Hmq Hq x s'. cbn [matchPendingLiqAdd_loop].
  rewrite E in *. apply Forall_cons in Hn as [Hv Hn]. simpl in Hv.
  pose proof (zsum_nonneg snd pa Hn). rewrite zsum_cons in Ht. simpl in Ht.
  change (if is_sell_ s then ple price k else pge price k) with (can_match (is_sell_ s) price k).
  rewrite Hcan. cbn [negb]. rewrite isub_ok, bind_ok by range. fold x.
  rewrite iadd_ok, bind_ok by range.
  assert (count (comp_ s) k ((k, v) :: pa) = v) as Ec.
  { unfold count. rewrite Hc. by rewrite (find_middle (side_comp (is_sell_ s)) [] k v pa). }
  unfold map_sub. rewrite Ec, isub_ok, bind_ok, bind_ok by range.
  assert (map_assign (comp_ s) k (v - x) ((k, v) :: pa) = (k, v - x) :: pa) as ->.
  { rewrite Hc. by rewrite (assign_middle (side_comp (is_sell_ s)) [] k v pa). }
  assert (count (comp_ s) k ((k, v - x) :: pa) = v - x) as ->.
  { unfold count. rewrite Hc. rewrite (find_middle (side_comp (is_sell_ s)) [] k (v - x) pa); [done| |done].
    by apply (sorted_middle_value _ [] k v). }
  done.
Qed.

(** Matching prices other than the order's own are worse, so nothing is
    erased. *)
Lemma erase_other b price k (v : Z) pa :
  sorted (side_comp b) ((k, v) :: pa) -> can_match b price k = true -> peq k price = false ->
  map_erase (side_comp b) price ((k, v) :: pa) = (k, v) :: pa.
Proof.
  intros [Hs Hlt]%(sorted_cons (side_comp b)) Hcan Hne. rewrite can_match_rank in Hcan.
  apply Z.leb_le in Hcan. apply (erase_absent (side_comp b)).
  assert (side_rank b k <> side_rank b price) as Hk.
  { intros E. apply side_rank_equiv, peq_equiv in E. congruence. }
  apply (find_None (side_comp b)). intros x [->|Hin]%elem_of_cons; simpl; [done|].
  apply Hlt in Hin. simpl in *. lia.
Qed.

(** The stale entry: used up, not erased, looked at again for ever. *)
Lemma add_loop_stuck fuel s q price mq k pa :
  pending_add_ok s -> pending_liq_add_qty_ s = (k, 0) :: pa ->
  can_match (is_sell_ s) price k = true -> peq k price = false ->
  0 <= mq < q -> q <= INT_MAX ->
  matchPendingLiqAdd_loop fuel s q price mq = Err Diverges.
Proof.
  intros Hok E Hcan Hne Hmq Hq. pose proof Hok as [Hc Hs _ _]. rewrite E in Hs.
  induction fuel as [|fuel IH]; [done|].
  erewrite add_turn by (done || lia). rewrite Z.min_l by lia.
  change (0 - 0) with 0. change (0 =? 0) with true. cbv iota.
  rewrite Z.add_0_r, (proj2 (Z.eqb_neq mq q)) by lia.
  rewrite Hc, erase_other by done. rewrite <- E, with_pending_add_id. exact IH.
Qed.

Lemma pending_add_ok_with s pa :
  comp_ s = side_comp (is_sell_ s) -> sorted (side_comp (is_sell_ s)) pa ->
  Forall (fun kv : Price * Quantity => 0 <= kv.2) pa -> zsum snd pa <= INT_MAX ->
  pending_add_ok (with_pending_add s pa).
Proof. by split. Qed.

(** It depends on three fields only. *)
Lemma pending_add_ok_same s s' :
  is_sell_ s' = is_sell_ s -> comp_ s' = comp_ s ->
  pending_liq_add_qty_ s' = pending_liq_add_qty_ s -> pending_add_ok s -> pending_add_ok s'.
Proof. intros E1 E2 E3 [? ? ? ?]. split; rewrite ?E1, ?E2, ?E3; done. Qed.

Lemma erase_first b price k (v : Z) pa :
  sorted (side_comp b) ((k, v) :: pa) -> peq k price = true ->
  map_erase (side_comp b) price ((k, v) :: pa) = pa.
Proof.
  intros Hs E. apply (erase_middle (side_comp b) [] k v pa); [done|].
  apply side_rank_equiv. symmetry. by apply peq_equiv.
Qed.

(** Lowering the first entry keeps the map well formed. *)
Lemma pending_lower s k v v' pa :
  pending_add_ok s -> pending_liq_add_qty_ s = (k, v) :: pa -> 0 <= v' <= v ->
  pending_add_ok (with_pending_add s ((k, v') :: pa)).
Proof.
  intros [Hc Hs Hn Ht] E Hv. rewrite E in *. rewrite zsum_cons in Ht. simpl in Ht.
  apply Forall_cons in Hn as [_ Hn]. apply pending_add_ok_with; [done|..].
  - by apply (sorted_middle_value _ [] k v).
  - by constructor; [simpl; lia|].
  - rewrite zsum_cons. simpl. lia.
Qed.

Lemma pending_tail s k v pa :
  pending_add_ok s -> pending_liq_add_qty_ s = (k, v) :: pa ->
  pending_add_ok (with_pending_add s pa).
Proof.
  intros [Hc Hs Hn Ht] E. rewrite E in *. rewrite zsum_cons in Ht. simpl in Ht.
  apply Forall_cons in Hn as [Hv Hn]. simpl in Hv.
  apply pending_add_ok_with; [done|by apply (sorted_middle_drop _ [] (k, v))|done|lia].
Qed.

(** A first entry at another price that does not cover the order. *)
Lemma add_loop_diverges fuel s q price mq k v pa :
  pending_add_ok s -> pending_liq_add_qty_ s = (k, v) :: pa ->
  can_match (is_sell_ s) price k = true -> peq k price = false ->
  0 <= mq -> mq + v < q <= INT_MAX ->
  matchPendingLiqAdd_loop fuel s q price mq = Err Diverges.
Proof.
  intros Hok E Hcan Hne Hmq Hq. destruct fuel as [|fuel]; [done|].
  pose proof (pa_nonneg _ Hok) as Hn. rewrite E in Hn.
  apply Forall_cons in Hn as [Hv _]. simpl in Hv.
  assert (pending_add_ok (with_pending_add s ((k, 0) :: pa))) as Hok'
    by (eapply pending_lower; [done..|lia]).
  pose proof Hok' as [Hc Hs _ _]. simpl in Hs.
  erewrite add_turn by (done || lia). rewrite Z.min_l, Z.sub_diag by lia.
  change (0 =? 0) with true. cbv iota.
  rewrite (proj2 (Z.eqb_neq (mq + v) q)) by lia.
  rewrite (pa_comp _ Hok), erase_other by done.
  eapply add_loop_stuck; [exact Hok'|done..|lia|lia].
Qed.

(** A first entry that covers the order. *)
Lemma add_loop_covers fuel s q price mq k v pa :
  pending_add_ok s -> pending_liq_add_qty_ s = (k, v) :: pa ->
  can_match (is_sell_ s) price k = true -> 0 <= mq -> mq <= q <= INT_MAX -> q <= mq + v ->
  exists pa', matchPendingLiqAdd_loop (S fuel) s q price mq = Ok (q, with_pending_add s pa') /\
    pending_add_ok (with_pending_add s pa') /\ zsum snd pa' = zsum snd ((k, v) :: pa) - (q - mq) /\
    (length pa' <= S (length pa))%nat.
Proof.
  intros Hok E Hcan Hmq Hq Hv.
  erewrite add_turn by (done || lia). rewrite Z.min_r by lia.
  replace (mq + (q - mq)) with q by lia. rewrite Z.eqb_refl.
  eexists; split; [reflexivity|]. rewrite (pa_comp _ Hok).
  assert (pending_add_ok (with_pending_add s ((k, v - (q - mq)) :: pa))) as Hok'
    by (eapply pending_lower; [done..|lia]).
  pose proof Hok' as [_ Hs _ _]. simpl in Hs. rewrite zsum_cons. cbn [snd].
  destruct (Z.eqb_spec (v - (q - mq)) 0) as [E0|Hne];
    [|by split_and!; [|rewrite zsum_cons; simpl; lia|]].
  destruct (peq k price) eqn:Ek.
  - rewrite erase_first by done. split_and!; [by eapply pending_tail|lia|lia].
  - rewrite erase_other by done. split_and!; [done|rewrite zsum_cons; simpl; lia|done].
Qed.

(** The entries behind one at the order's price match and are not at it. *)
Lemma next_entry b price k v k' v' (pa : smap Price Quantity) :
  sorted (side_comp b) ((k, v) :: (k', v') :: pa) -> peq k price = true ->
  can_match b price k' = true /\ peq k' price = false.
Proof.
  intros [_ Hlt]%(sorted_cons (side_comp b)) E.
  specialize (Hlt (k', v') ltac:(left)). apply peq_equiv in E.
  apply (side_rank_equiv b) in E. simpl in *. split.
  - rewrite can_match_rank. apply Z.leb_le. lia.
  - destruct (peq k' price) eqn:E'; [|done].
    apply peq_equiv, (side_rank_equiv b) in E'. lia.
Qed.

(** The turn that uses up an entry at the order's price. *)
Lemma add_turn_exact fuel s q price mq k v pa :
  pending_add_ok s -> pending_liq_add_qty_ s = (k, v) :: pa ->
  can_match (is_sell_ s) price k = true -> peq k price = true ->
  0 <= mq -> mq + v < q <= INT_MAX ->
  matchPendingLiqAdd_loop (S fuel) s q price mq =
  matchPendingLiqAdd_loop fuel (with_pending_add s pa) q price (mq + v).
Proof.
  intros Hok E Hcan Hk Hmq Hq.
  pose proof (pa_nonneg _ Hok) as Hn. rewrite E in Hn.
  apply Forall_cons in Hn as [Hv _]. simpl in Hv.
  erewrite add_turn by (done || lia). rewrite Z.min_l, Z.sub_diag by lia.
  change (0 =? 0) with true. cbv iota.
  rewrite (proj2 (Z.eqb_neq (mq + v) q)) by lia.
  rewrite (pa_comp _ Hok), erase_first; [done| |done].
  pose proof (pa_sorted _ Hok) as Hs. rewrite E in Hs. by apply (sorted_middle_value _ [] k v).
Qed.

(** Nothing to match. *)
Lemma add_loop_none fuel s q price mq :
  matches_first (is_sell_ s) price (pending_liq_add_qty_ s) = false ->
  matchPendingLiqAdd_loop (S fuel) s q price mq = Ok (mq, s).
Proof.
  intros H. cbn [matchPendingLiqAdd_loop].
  destruct (pending_liq_add_qty_ s) as [|[k v] pa]; [done|].
  change (if is_sell_ s then ple price k else pge price k) with (can_match (is_sell_ s) price k).
  simpl in H. by rewrite H.
Qed.

(** Used up at the order's price, and the next entry covers the rest. *)
Lemma add_loop_exact fuel s q price k v pa :
  pending_add_ok s -> pending_liq_add_qty_ s = (k, v) :: pa ->
  can_match (is_sell_ s) price k = true -> peq k price = true -> v < q <= INT_MAX ->
  match pa with [] => True | (_, v') :: _ => q - v <= v' end ->
  exists pa', matchPendingLiqAdd_loop (S (S fuel)) s q price 0 =
      Ok (Z.min q (v + zsum snd pa), with_pending_add s pa') /\
    pending_add_ok (with_pending_add s pa') /\
    zsum snd pa' = v + zsum snd pa - Z.min q (v + zsum snd pa) /\ (length pa' <= length pa)%nat.
Proof.
  intros Hok E Hcan Hk Hq Hnext. pose proof (pa_nonneg _ Hok) as Hn. rewrite E in Hn.
  apply Forall_cons in Hn as [Hv Hn]. simpl in Hv.
  pose proof (pa_sorted _ Hok) as Hs. rewrite E in Hs.
  pose proof (pending_tail _ _ _ _ Hok E) as Hok1.
  rewrite (add_turn_exact _ _ _ _ _ k v pa) by (done || lia).
  destruct pa as [|[k' v'] pa].
  - exists []. cbn [matchPendingLiqAdd_loop with_pending_add pending_liq_add_qty_ zsum foldr].
    rewrite Z.min_r by lia. split_and!; [by rewrite Z.add_0_r|done|lia|done].
  - destruct (next_entry _ _ _ _ _ _ _ Hs Hk) as [Hcan' _].
    apply Forall_cons in Hn as [Hv' Hn]. simpl in Hv'. pose proof (zsum_nonneg snd pa Hn).
    destruct (add_loop_covers fuel _ q price (0 + v) k' v' pa Hok1 eq_refl)
      as (pa' & Hrun & Hok' & Hz & Hlen); [done|lia..|].
    exists pa'. rewrite Hrun, Hz, !zsum_cons. cbn [snd]. rewrite Z.min_l by lia.
    split_and!; [done|done|lia|done].
Qed.

(** Which orders the loop ends for, and what it returns. *)
Lemma matchPendingLiqAdd_ends s q price :
  pending_add_ok s -> 0 <= q <= INT_MAX ->
  add_loop_ends (is_sell_ s) (pending_liq_add_qty_ s) q price = true ->
  let x := Z.min q (available (is_sell_ s) price (pending_liq_add_qty_ s)) in
  exists pa', matchPendingLiqAdd s q price = Ok (x, with_pending_add s pa') /\
    pending_add_ok (with_pending_add s pa') /\
    zsum snd pa' = zsum snd (pending_liq_add_qty_ s) - x /\
    (length pa' <= length (pending_liq_add_qty_ s))%nat.
Proof.
  intros Hok Hq Hends. cbv zeta. unfold matchPendingLiqAdd.
  pose proof (zsum_nonneg snd _ (pa_nonneg _ Hok)) as Htot.
  unfold available. destruct (matches_first _ price _) eqn:Hm.
  2: { exists (pending_liq_add_qty_ s). rewrite with_pending_add_id, Z.min_r by lia.
    split_and!; [by apply add_loop_none|done|lia|done]. }
  destruct (pending_liq_add_qty_ s) as [|[k v] pa] eqn:E; [done|].
  pose proof (pa_nonneg _ Hok) as Hn. rewrite E in Hn.
  apply Forall_cons in Hn as [Hv Hn]. simpl in Hv, Hends, Hm. pose proof (zsum_nonneg snd pa Hn).
  rewrite Hm in Hends. rewrite zsum_cons in Htot |- *. cbn [snd length] in *.
  destruct (Z.leb_spec q v) as [Hle|Hgt]; simpl in Hends.
  - destruct (add_loop_covers (S (length pa)) s q price 0 k v pa) as (pa' & Hrun & Hok' & Hz & Hlen);
      [done..|lia|lia|lia|].
    exists pa'. rewrite Hrun, Hz, Z.min_l, zsum_cons by lia. split_and!; [done|done|simpl; lia|done].
  - apply andb_true_iff in Hends as [Hk Hnext].
    destruct (add_loop_exact (length pa) s q price k v pa) as (pa' & Hrun & Hok' & Hz & Hlen);
      try done; [lia| |exists pa'; split_and!; (done || lia)].
    destruct pa as [|[k' v'] pa]; [done|]. by apply Z.leb_le.
Qed.

(** The orders the loop never ends for, whatever the fuel. *)
Lemma matchPendingLiqAdd_stuck fuel s q price :
  pending_add_ok s -> 0 <= q <= INT_MAX ->
  add_loop_ends (is_sell_ s) (pending_liq_add_qty_ s) q price = false ->
  matchPendingLiqAdd_loop fuel s q price 0 = Err Diverges.
Proof.
  intros Hok Hq Hends. destruct (pending_liq_add_qty_ s) as [|[k v] pa] eqn:E; [done|].
  simpl in Hends. destruct (can_match (is_sell_ s) price k) eqn:Hcan; [|done].
  destruct (Z.leb_spec q v) as [|Hgt]; [done|]. simpl in Hends.
  destruct (peq k price) eqn:Hk; [|eapply (add_loop_diverges _ s q price 0 k v pa); try done; lia].
  destruct fuel as [|fuel]; [done|].
  pose proof (pa_nonneg _ Hok) as Hn. rewrite E in Hn. apply Forall_cons in Hn as [Hv Hn].
  pose proof (pa_sorted _ Hok) as Hs. rewrite E in Hs.
  simpl in Hv, Hends. destruct pa as [|[k' v'] pa]; [done|]. apply Z.leb_gt in Hends.
  destruct (next_entry _ _ _ _ _ _ _ Hs Hk) as [Hcan' Hk'].
  rewrite (add_turn_exact _ _ _ _ _ k v ((k', v') :: pa)) by (done || lia).
  eapply (add_loop_diverges _ _ _ _ _ k' v'); try done; try lia.
  by eapply pending_tail.
Qed.

(** ** Noting an expected addition: [pending_liq_add_qty_[price] += rest] *)

Section add.
Context (b : bool).
Implicit Types (m : smap Price Quantity).

Lemma zsum_assign k q m :
  sorted (side_comp b) m ->
  zsum snd (map_assign (side_comp b) k (count (side_comp b) k m + q) m) = zsum snd m + q.
Proof.
  intros Hs. unfold count. destruct (map_find (side_comp b) k m) as [v|] eqn:E; simpl.
  - apply (sorted_find_split (side_comp b)) in E as (m1 & k' & m2 & -> & Ek).
    rewrite (assign_middle (side_comp b)) by done. autorewrite with ob. simpl. lia.
  - rewrite ?Z.add_0_l. destruct (assign_absent (side_comp b) k q m Hs E) as (m1 & m2 & -> & -> & _).
    autorewrite with ob. simpl. lia.
Qed.

Lemma nonneg_assign k v m :
  Forall (fun kv : Price * Quantity => 0 <= kv.2) m -> 0 <= v ->
  Forall (fun kv : Price * Quantity => 0 <= kv.2) (map_assign (side_comp b) k v m).
Proof. apply (values_assign (side_comp b) (fun q => 0 <= q)). Qed.

Lemma count_bounds k m :
  Forall (fun kv : Price * Quantity => 0 <= kv.2) m ->
  0 <= count (side_comp b) k m <= zsum snd m.
Proof.
  intros Hn. unfold count. destruct (map_find (side_comp b) k m) as [v|] eqn:E; simpl.
  - apply (find_Some_elem (side_comp b)) in E as (k' & Hin & _). split.
    + rewrite Forall_forall in Hn. apply (Hn _ Hin).
    + apply (zsum_elem_le snd m (k', v) Hn Hin).
  - split; [lia|by apply zsum_nonneg].
Qed.

End add.

Lemma counts_ok_of (m : smap Price Quantity) :
  sorted plt m -> Forall (fun kv : Price * Quantity => 0 <= kv.2) m -> zsum snd m <= INT_MAX ->
  counts_ok m.
Proof.
  intros Hs Hn Ht. split; [done|]. intros p.
  pose proof (count_bounds true p m Hn : 0 <= count plt p m <= zsum snd m). lia.
Qed.
