(* ===== verification/TradeSide.v ===== *)
(** * Trades: [BookSide::processTrade]

    The contract: a trade first takes from the pending removals of its price;
    then the levels better than the trade are cancelled, the level at the
    trade's price is filled oldest first, and what is left is noted as a
    pending addition.  The loops complete, and every change is saved. *)

From S2P Require Import Prelude Outcome StdMap Price Common Order L2Level Level Messages BookSide.
From S2P Require Import BookSpec Matching SideRep Crossed PendingLiq.

(** ** The contract *)

(** Levels that the trade overtakes. *)
Fixpoint overtaken (b : bool) (price : Price) (A : abook) : abook * abook :=
  match A with
  | [] => ([], [])
  | (k, os) :: A' =>
      if side_comp b k price then
        let '(A1, A2) := overtaken b price A' in ((k, os) :: A1, A2)
      else ([], A)
  end.

Definition cancel_events (b : bool) (os : list Order) : OrderInfoVec :=
  (fun o => mkOrderInfo CANCEL (Order.odid o) b (Order.quantity o) (Order.price o)) <$> os.

(** The views saved by removing orders one by one. *)
Fixpoint remove_views (l : list OrderId) (A : abook) : L2SnapshotSideQue :=
  match l with
  | [] => []
  | id :: l => l2_view (aremove id A) :: remove_views l (aremove id A)
  end.

Fixpoint overtaken_views (b : bool) (price : Price) (A : abook) : L2SnapshotSideQue :=
  match A with
  | [] => []
  | (k, os) :: A' =>
      if side_comp b k price then
        remove_views (Order.odid <$> os) A ++ overtaken_views b price A'
      else []
  end.

(** Step 2 on the book that is left: only its best level can be at the price. *)
Definition afill_best (price : Price) (q : Z) (A : abook) : abook * list (Order * Z) * Z :=
  match A with
  | (k, os) :: A' =>
      if peq k price then
        let '(os', fills, rest) := afill q os in (keep_level k (survivors os') ++ A', fills, rest)
      else (A, [], q)
  | [] => ([], [], q)
  end.

Definition afill_best_views (price : Price) (q : Z) (A : abook) : L2SnapshotSideQue :=
  match A with
  | (k, os) :: A' =>
      if peq k price then
        afill_views (fun os => l2_view ((k, os) :: A')) [] q os ++
        remove_views (gone_ids (afill_fills q os)) ((k, afill_orders q os) :: A')
      else []
  | [] => []
  end.

(** ** Removing with snapshots *)

(** The store is the same, the pending quantities too. *)
Record only_saves (q : L2SnapshotSideQue) (s s' : BookSide) : Prop := {
  os_saves : saves q s s';
  os_remove : pending_liq_remove_qty_ s' = pending_liq_remove_qty_ s }.

Lemma only_saves_refl s : only_saves [] s s.
Proof. split; [apply saves_refl|done]. Qed.

Lemma only_saves_trans q1 q2 s1 s2 s3 :
  only_saves q1 s1 s2 -> only_saves q2 s2 s3 -> only_saves (q1 ++ q2) s1 s3.
Proof. intros [H1 E1] [H2 E2]. split; [by eapply saves_trans|congruence]. Qed.

Lemma saved_rep m s s1 A' :
  same_aux s s1 -> side_rep m s1 A' ->
  only_saves [l2_view A'] s (saveL2SnapshoSide s1) /\ side_rep m (saveL2SnapshoSide s1) A'.
Proof.
  intros [] Hrep. split.
  - split; [|done]. split; simpl; try done. rewrite (rep_l2_side _ _ _ Hrep). congruence.
  - destruct Hrep. by split.
Qed.

Lemma removeOrders_save_spec m l : forall s A,
  side_rep m s A ->
  exists s', removeOrders_save m s l = Ok s' /\ only_saves (remove_views l A) s s' /\
    side_rep m s' (aremoves l A).
Proof.
  induction l as [|id l IH]; intros s A Hrep; simpl.
  - exists s. split_and!; [done|apply only_saves_refl|done].
  - destruct (removeOrder_spec m s A id Hrep) as (s1 & -> & Haux & Hrep1). rewrite bind_ok.
    destruct (saved_rep _ _ _ _ Haux Hrep1) as [Hs2 Hrep2].
    destruct (IH _ _ Hrep2) as (s' & Hrun & Hs' & Hrep').
    exists s'. split_and!; [done| |done]. by apply (only_saves_trans [_] _ s (saveL2SnapshoSide s1)).
Qed.

(** ** Step 1 *)

Lemma cancel_level_ok m b C : forall os,
  Forall2 (fun c o => heap m !! c.2 = Some o) C os ->
  cancel_level m b C = Ok (Order.odid <$> os, cancel_events b os).
Proof.
  intros os H. induction H as [|[n p] o C os Hp H IH]; [done|].
  simpl in *. by rewrite (deref_ok _ _ _ Hp), bind_ok, IH.
Qed.

Lemma head_nodes m s k os A :
  side_rep m s ((k, os) :: A) ->
  exists l L, levels_ s = (k, l) :: L /\
    Forall2 (fun c o => heap m !! c.2 = Some o) (Level.orders l) os.
Proof.
  intros [_ HL Hf _]. inversion HL as [|[k' l] ? L ? [E Hl] HL2 EL]; subst.
  simpl in E, Hl; subst k'. exists l, L. split; [done|].
  pose proof (fr_heap _ _ _ _ Hf) as Hh. rewrite <- EL, cells_cons, resting_cons in Hh.
  apply Forall2_app_inv in Hh as [Hh _]; [done|apply Hl].
Qed.

Lemma aremoves_all b k os A :
  book_ok b ((k, os) :: A) -> aremoves (Order.odid <$> os) ((k, os) :: A) = A.
Proof.
  intros Hok. rewrite (aremoves_level b _ [] k os A) by done. simpl.
  rewrite filter_Forall_not; [done|]. apply Forall_forall. intros o Ho Hn. apply Hn.
  apply list_elem_of_fmap. by exists o.
Qed.

Abbreviation cancelled b price A := (resting (overtaken b price A).1).
Abbreviation not_overtaken b price A := ((overtaken b price A).2).

Lemma overtaken_cons b price k (os : list Order) A :
  side_comp b k price = true ->
  overtaken b price ((k, os) :: A) =
  ((k, os) :: (overtaken b price A).1, not_overtaken b price A).
Proof. intros E. simpl. rewrite E. by destruct (overtaken b price A). Qed.

Lemma overtaken_stop b price k (os : list Order) A :
  side_comp b k price = false -> overtaken b price ((k, os) :: A) = ([], (k, os) :: A).
Proof. intros E. simpl. by rewrite E. Qed.

Lemma should_cancel_side (b : bool) k price :
  (if b then plt k price else pgt k price) = side_comp b k price.
Proof. by destruct b. Qed.

Lemma trade_cancel_loop_rep m price : forall A fuel s ev,
  side_rep m s A -> (length A < fuel)%nat ->
  exists s',
    trade_cancel_loop fuel m s price ev =
      Ok (s', ev ++ cancel_events (is_sell_ s) (cancelled (is_sell_ s) price A)) /\
    only_saves (overtaken_views (is_sell_ s) price A) s s' /\
    side_rep m s' (not_overtaken (is_sell_ s) price A).
Proof.
  induction A as [|[k os] A IH]; intros [|fuel] s ev Hrep Hfuel; try (simpl in Hfuel; lia).
  - exists s. pose proof Hrep as [_ HL _ _]. cbn [trade_cancel_loop].
    rewrite (Forall2_nil_inv_r _ _ HL). simpl. rewrite app_nil_r.
    split_and!; [done|apply only_saves_refl|done].
  - destruct (head_nodes _ _ _ _ _ Hrep) as (l & L & EL & Hnodes).
    cbn [trade_cancel_loop]. rewrite EL.
    rewrite should_cancel_side.
    pose proof (sr_ok _ _ _ Hrep) as Hok.
    destruct (side_comp (is_sell_ s) k price) eqn:E.
    + cbn [negb]. rewrite (cancel_level_ok _ _ _ _ Hnodes), bind_ok.
      destruct (removeOrders_save_spec m (Order.odid <$> os) s _ Hrep) as (s1 & -> & Hs1 & Hrep1).
      rewrite bind_ok. rewrite (aremoves_all _ _ _ _ Hok) in Hrep1.
      destruct (IH fuel s1 (ev ++ cancel_events (is_sell_ s) os) Hrep1)
        as (s' & Hrun & Hs' & Hrep'); [simpl in Hfuel; lia|].
      pose proof (sv_is_sell _ _ _ (os_saves _ _ _ Hs1)) as Eb. rewrite Eb in *.
      exists s'. rewrite Hrun, overtaken_cons by done. cbn [fst snd].
      rewrite resting_cons, <- app_assoc. unfold cancel_events. rewrite fmap_app.
      split_and!; [done| |done]. simpl overtaken_views. rewrite E.
      by eapply only_saves_trans.
    + cbn [negb]. exists s. rewrite overtaken_stop by done. simpl. rewrite E, app_nil_r.
      split_and!; [done|apply only_saves_refl|done].
Qed.

(** ** Step 2 *)

Lemma gone_ids_cons o x f :
  gone_ids ((o, x) :: f) = (if rem o =? 0 then [Order.odid o] else []) ++ gone_ids f.
Proof.
  unfold gone_ids. rewrite fmap_cons. cbn [fst]. destruct (Z.eqb_spec (rem o) 0).
  - by rewrite filter_cons_True.
  - by rewrite filter_cons_False.
Qed.

Lemma exec_events_cons b o x f :
  exec_events b ((o, x) :: f) = mkOrderInfo EXEC (Order.odid o) b x (Order.price o) :: exec_events b f.
Proof. done. Qed.

Lemma trade_orders_rep A1 k A2 price : price ≡ k -> forall os2 os1 c2 m s rest,
  side_rep m s (A1 ++ (k, os1 ++ os2) :: A2) -> cursor s A1 k os1 c2 ->
  length c2 = length os2 -> 0 <= rest <= INT_MAX ->
  exists m' s',
    (forall rm evs, trade_orders m s price c2 rest rm evs =
      Ok (m', s', afill_rest rest os2, rm ++ gone_ids (afill_fills rest os2),
          evs ++ exec_events (is_sell_ s) (afill_fills rest os2))) /\
    side_rep m' s' (A1 ++ (k, os1 ++ afill_orders rest os2) :: A2) /\
    only_saves (afill_views (fun os => l2_view (A1 ++ (k, os) :: A2)) os1 rest os2) s s' /\
    keeps_others (is_sell_ s) None m m'.
Proof.
  intros Hk. induction os2 as [|o os2 IH]; intros os1 c2 m s rest Hrep Hcur Hlen Hr.
  - destruct c2; [|done]. exists m, s. simpl.
    split_and!; [intros; by rewrite !app_nil_r|done|apply only_saves_refl|apply keeps_others_refl].
  - destruct c2 as [|[n p] c2]; [done|]. destruct (decide (rest = 0)) as [E0|Hne].
    { exists m, s. rewrite E0, afill_zero. simpl.
      split_and!; [intros; by rewrite !app_nil_r|done|apply only_saves_refl|apply keeps_others_refl]. }
    destruct (fill_step_rep m s A1 k os1 o os2 A2 n p c2 price rest) as
      (Hp & s1 & Hstep & Hrep1 & Hcur1 & Hsv1 & Hpr1 & Hk1); [done..|].
    pose proof (level_order_ok _ _ _ _ _ _ _ (sr_ok _ _ _ Hrep)) as [_ _ Hsane].
    pose proof (rem_nonneg o Hsane) as Ho.
    pose proof (sv_is_sell _ _ _ Hsv1) as Hs1.
    destruct (IH (os1 ++ [fill o (Z.min rest (rem o))]) c2
      (write m p (fill o (Z.min rest (rem o)))) s1 (rest - Z.min rest (rem o)))
      as (m' & s' & Hrun & Hrep' & Hs' & Hk'); [by rewrite <- app_assoc|done|by injection Hlen|lia|].
    rewrite Hs1 in *. exists m', s'. rewrite afill_cons by done. cbn [fst snd]. split_and!.
    + intros rm evs. cbn [trade_orders]. rewrite (proj2 (Z.eqb_neq rest 0) Hne), Hstep, bind_ok.
      rewrite Hrun, Hs1, gone_ids_cons, exec_events_cons, <- (app_assoc evs).
      destruct (rem (fill o _) =? 0); by rewrite <- ?app_assoc.
    + by rewrite <- app_assoc in Hrep'.
    + simpl. rewrite (proj2 (Z.eqb_neq rest 0) Hne).
      by eapply (only_saves_trans [_]); [split|].
    + by eapply keeps_others_trans.
Qed.

Lemma trade_match_absent m s price rest ev :
  map_find (comp_ s) price (levels_ s) = None ->
  trade_match m s price rest ev = Ok (m, s, rest, ev).
Proof. intros E. unfold trade_match, existLevel. by rewrite E. Qed.

(** The price is that of the best level. *)
Lemma trade_match_best m s price rest k os A :
  side_rep m s ((k, os) :: A) -> live ((k, os) :: A) -> 0 <= rest <= INT_MAX -> price ≡ k ->
  exists m' s',
    (forall ev, trade_match m s price rest ev =
      Ok (m', s', afill_rest rest os, ev ++ exec_events (is_sell_ s) (afill_fills rest os))) /\
    side_rep m' s' (keep_level k (survivors (afill_orders rest os)) ++ A) /\
    live (keep_level k (survivors (afill_orders rest os)) ++ A) /\
    only_saves (afill_views (fun os => l2_view ((k, os) :: A)) [] rest os ++
      remove_views (gone_ids (afill_fills rest os)) ((k, afill_orders rest os) :: A)) s s' /\
    keeps_others (is_sell_ s) None m m'.
Proof.
  intros Hrep [Hlos HlA]%live_cons Hr E.
  destruct (cursor_start m s [] k os A Hrep) as ([|] & l & L & EL & HlL & Hll & Hcur); [|done].
  pose proof (sr_comp _ _ _ Hrep) as Hc. pose proof (rep_sorted _ _ _ Hrep) as Hsort.
  assert (map_find (comp_ s) price (levels_ s) = Some l) as Hfind.
  { rewrite Hc, EL in *. apply (find_middle (side_comp (is_sell_ s)) [] k l L); [done|].
    by apply side_rank_equiv. }
  destruct (trade_orders_rep [] k A price E os [] (Level.orders l) m s rest Hrep Hcur Hll Hr)
    as (m1 & s1 & Hrun & Hrep1 & Hs1 & Hk1).
  destruct (removeOrders_save_spec m1 (gone_ids (afill_fills rest os)) s1 _ Hrep1)
    as (s2 & Hrm & Hs2 & Hrep2).
  pose proof (sr_ok _ _ _ Hrep) as Hok.
  pose proof (level_ok_sane _ _ _ (book_level _ [] _ _ _ Hok)) as Hsos.
  pose proof (aremoves_filled (is_sell_ s) [] k rest os A Hok (proj1 Hr) Hlos) as Ha.
  simpl app in Ha, Hrep2. rewrite Ha in Hrep2.
  exists m1, s2. split_and!; [|done| |by eapply only_saves_trans|done].
  - intros ev. unfold trade_match, existLevel. rewrite Hfind.
    rewrite (getL3Level_middle s [] k l L) by done.
    by rewrite Hrun, bind_ok, app_nil_l, Hrm, bind_ok.
  - apply live_app. split; [|done]. apply keep_level_live; [lia|done].
Qed.

Lemma head_absent m s k os A price :
  side_rep m s ((k, os) :: A) -> side_comp (is_sell_ s) k price = false -> peq k price = false ->
  map_find (comp_ s) price (levels_ s) = None.
Proof.
  intros Hrep Hhead E. rewrite side_comp_rank in Hhead. apply Z.ltb_ge in Hhead.
  pose proof (rep_sorted _ _ _ Hrep) as Hsort.
  destruct (head_nodes _ _ _ _ _ Hrep) as (l & L & EL & _).
  rewrite (sr_comp _ _ _ Hrep), EL in *.
  assert (side_rank (is_sell_ s) k <> side_rank (is_sell_ s) price) as Hne.
  { intros E'. apply side_rank_equiv, peq_equiv in E'. congruence. }
  apply (sorted_cons (side_comp (is_sell_ s))) in Hsort as [_ Hlt].
  apply (find_None (side_comp (is_sell_ s))). intros x [->|Hin]%elem_of_cons; [done|].
  apply Hlt in Hin. simpl in *. lia.
Qed.

(** What a book with at most its best level at the trade's price becomes. *)
Lemma trade_match_rep m s price rest A :
  side_rep m s A -> live A -> 0 <= rest <= INT_MAX ->
  (forall k os A', A = (k, os) :: A' -> side_comp (is_sell_ s) k price = false) ->
  exists m' s',
    (forall ev, trade_match m s price rest ev =
      Ok (m', s', (afill_best price rest A).2,
          ev ++ exec_events (is_sell_ s) (afill_best price rest A).1.2)) /\
    side_rep m' s' (afill_best price rest A).1.1 /\ live (afill_best price rest A).1.1 /\
    only_saves (afill_best_views price rest A) s s' /\ keeps_others (is_sell_ s) None m m'.
Proof.
  intros Hrep Hlive Hr Hhead.
  assert (map_find (comp_ s) price (levels_ s) = None -> afill_best price rest A = (A, [], rest) ->
    afill_best_views price rest A = [] -> exists m' s',
    (forall ev, trade_match m s price rest ev =
      Ok (m', s', (afill_best price rest A).2,
          ev ++ exec_events (is_sell_ s) (afill_best price rest A).1.2)) /\
    side_rep m' s' (afill_best price rest A).1.1 /\ live (afill_best price rest A).1.1 /\
    only_saves (afill_best_views price rest A) s s' /\ keeps_others (is_sell_ s) None m m')
    as Hidle.
  { intros Hfind -> ->. exists m, s.
    split_and!; try done; [|apply only_saves_refl].
    intros ev. cbn [fst snd]. rewrite app_nil_r. by apply trade_match_absent. }
  destruct A as [|[k os] A].
  { apply Hidle; [|done..]. pose proof (sr_levels _ _ _ Hrep) as HL.
    by rewrite (Forall2_nil_inv_r _ _ HL). }
  specialize (Hhead k os A eq_refl). simpl in *. destruct (peq k price) eqn:E.
  - destruct (trade_match_best m s price rest k os A) as (m' & s' & H1 & H2 & H3 & H4 & H5);
      [done..|by symmetry; apply peq_equiv|].
    exists m', s'. destruct (afill rest os) as [[os' fills] rest'] eqn:Ef. by split_and!.
  - apply Hidle; [|done..]. by eapply head_absent.
Qed.

(** ** The whole trade *)

Definition atrade (b : bool) (price : Price) (q : Z) (A : abook)
    : abook * OrderInfoVec * Z :=
  let '(A', fills, rest) := afill_best price q (not_overtaken b price A) in
  (A', cancel_events b (cancelled b price A) ++ exec_events b fills, rest).

Definition atrade_views (b : bool) (price : Price) (q : Z) (A : abook) : L2SnapshotSideQue :=
  overtaken_views b price A ++ afill_best_views price q (not_overtaken b price A).

(** The guess for what the book could not supply. *)
Definition guess_events (b : bool) (price : Price) (rest : Z) : OrderInfoVec :=
  if 0 <? rest then [mkOrderInfo ADD (-1) b rest price; mkOrderInfo EXEC (-1) b rest price]
  else [].

Lemma not_overtaken_head b price A k os A' :
  not_overtaken b price A = (k, os) :: A' -> side_comp b k price = false.
Proof.
  induction A as [|[k0 os0] A IH]; [done|]. simpl.
  destruct (side_comp b k0 price) eqn:E.
  - by destruct (overtaken b price A).
  - by intros [= -> -> ->].
Qed.

Lemma overtaken_app b price A :
  A = (overtaken b price A).1 ++ not_overtaken b price A /\
  Forall (fun ko : Price * list Order => side_comp b ko.1 price = true) (overtaken b price A).1.
Proof.
  induction A as [|[k os] A [IH1 IH2]]; [done|]. simpl.
  destruct (side_comp b k price) eqn:E; [|done].
  destruct (overtaken b price A) as [A1 A2]; simpl in *. split; [by rewrite <- IH1|].
  by constructor.
Qed.

Lemma not_overtaken_live b price A : live A -> live (not_overtaken b price A).
Proof.
  intros H. rewrite (proj1 (overtaken_app b price A)) in H. by apply live_app in H as [_ H].
Qed.

Lemma trade_pending_ok s price rest ev :
  pending_add_ok s -> 0 <= rest -> zsum snd (pending_liq_add_qty_ s) + rest <= INT_MAX ->
  exists pa, trade_pending s price rest ev =
      Ok (with_pending_add s pa, ev ++ guess_events (is_sell_ s) price rest) /\
    pending_add_ok (with_pending_add s pa) /\
    zsum snd pa = zsum snd (pending_liq_add_qty_ s) + rest /\
    forall p, count (comp_ s) p pa =
      count (comp_ s) p (pending_liq_add_qty_ s) + (if peq price p then rest else 0).
Proof.
  intros Hok Hr Hroom. pose proof Hok as [Hc Hs Hn _].
  pose proof (count_bounds (is_sell_ s) price _ Hn) as Hb.
  unfold trade_pending, guess_events. rewrite Hc. zcase.
  - unfold map_add. rewrite iadd_ok, bind_ok, bind_ok by range.
    eexists; split; [done|]. rewrite (zsum_assign (is_sell_ s)) by done. split_and!; [|done|].
    + apply pending_add_ok_with; [done|by apply (sorted_assign (side_comp (is_sell_ s)))|
        by apply nonneg_assign; [|lia]|by rewrite (zsum_assign (is_sell_ s))].
    + intros p. rewrite (count_assign (side_comp (is_sell_ s))). simpl rank.
      destruct (peq price p) eqn:E.
      * apply peq_equiv, (side_rank_equiv (is_sell_ s)) in E.
        rewrite (proj2 (Z.eqb_eq _ _) E). f_equal. by apply (count_same (side_comp (is_sell_ s))).
      * rewrite (proj2 (Z.eqb_neq _ _)); [lia|]. intros E'%side_rank_equiv%peq_equiv. congruence.
  - exists (pending_liq_add_qty_ s). rewrite app_nil_r, with_pending_add_id.
    split_and!; [done|done|lia|]. intros p. destruct (peq price p); lia.
Qed.

(** What a trade needs: a live book, pending counts in range, room for what
    the book cannot supply. *)
Record trade_pre (m : Store) (s : BookSide) (A : abook) (price : Price) (q : Quantity) : Prop := {
  tp_rep : side_rep m s A;
  tp_live : live A;
  tp_counts : counts_ok (pending_liq_remove_qty_ s);
  tp_qty : 0 <= q <= INT_MAX;
  tp_pending : pending_add_ok s;
  tp_room : zsum snd (pending_liq_add_qty_ s) + q <= INT_MAX }.

(** What it does, on a book [A], when [x] of it was expected. *)
Record has_traded (A : abook) (price : Price) (q x : Quantity) (m : Store) (s : BookSide)
    (m' : Store) (s' : BookSide) : Prop := {
  ht_rep : side_rep m' s' (atrade (is_sell_ s) price (q - x) A).1.1;
  ht_live : live (atrade (is_sell_ s) price (q - x) A).1.1;
  ht_side : is_sell_ s' = is_sell_ s;
  ht_queue : l2_snap_queue_ s' =
    l2_snap_queue_ s ++ atrade_views (is_sell_ s) price (q - x) A;
  ht_keeps : keeps_others (is_sell_ s) None m m';
  ht_counts : counts_ok (pending_liq_remove_qty_ s');
  ht_remove : forall p, count plt p (pending_liq_remove_qty_ s') =
    count plt p (pending_liq_remove_qty_ s) - (if peq price p then x else 0);
  ht_add : forall p, count (comp_ s) p (pending_liq_add_qty_ s') =
    count (comp_ s) p (pending_liq_add_qty_ s) +
    (if peq price p then (atrade (is_sell_ s) price (q - x) A).2 else 0);
  ht_pending : pending_add_ok s';
  ht_total : zsum snd (pending_liq_add_qty_ s') =
    zsum snd (pending_liq_add_qty_ s) + (atrade (is_sell_ s) price (q - x) A).2 }.

Lemma afill_best_rest price q A b :
  book_ok b A -> 0 <= q -> 0 <= (afill_best price q A).2 <= q.
Proof.
  intros Hok Hq. destruct A as [|[k os] A]; simpl; [lia|].
  destruct (peq k price); [|simpl; lia].
  pose proof (afill_rest_bounds q os Hq (level_ok_sane _ _ _ (book_level _ [] _ _ _ Hok))) as H.
  destruct (afill q os) as [[os' fills] r]. exact H.
Qed.

(** [with_pending_*] do not touch the book. *)
Lemma rep_pending_add m s A pa : side_rep m s A -> side_rep m (with_pending_add s pa) A.
Proof. intros []. by split. Qed.
Lemma rep_pending_remove m s A pr : side_rep m s A -> side_rep m (with_pending_remove s pr) A.
Proof. intros []. by split. Qed.

Lemma processTrade_rep m s A price q :
  trade_pre m s A price q ->
  let x := Z.min (count plt price (pending_liq_remove_qty_ s)) q in
  exists m' s',
    processTrade m s (Trade.mkTrade q price) =
      Ok (m', s', (atrade (is_sell_ s) price (q - x) A).1.2 ++
        guess_events (is_sell_ s) price (atrade (is_sell_ s) price (q - x) A).2) /\
    has_traded A price q x m s m' s'.
Proof.
  intros [Hrep Hlive Hcnt Hq Hpend Hroom] x. unfold processTrade.
  cbn [Trade.price Trade.quantity].
  destruct (matchPendingLiqRemove_rep s q price Hcnt Hq) as (pr & -> & Hcnt' & Hpr).
  fold x in Hpr |- *. pose proof (proj2 Hcnt price) as Hcp.
  rewrite bind_ok, isub_ok, bind_ok by range.
  pose proof (rep_pending_remove _ _ _ pr Hrep) as Hrep0.
  destruct (trade_cancel_loop_rep m price A (S (length (levels_ (with_pending_remove s pr))))
    _ [] Hrep0) as (s1 & -> & [Hs1 Er1] & Hrep1).
  { pose proof (Forall2_length _ _ _ (sr_levels _ _ _ Hrep0)). lia. }
  rewrite bind_ok. pose proof Hs1 as [Eb1 Ec1 Eq1 Ea1].
  simpl in Eb1, Ec1, Eq1, Ea1, Er1, Hrep1.
  destruct (trade_match_rep m s1 price (q - x) _ Hrep1) as (m2 & s2 & Hrun2 & Hrep2 & Hl2 & [Hs2 Er2] & Hk2).
  { by apply not_overtaken_live. }
  { lia. }
  { rewrite Eb1. intros k os A'. apply not_overtaken_head. }
  rewrite Hrun2, bind_ok. pose proof Hs2 as [Eb2 Ec2 Eq2 Ea2].
  pose proof (afill_best_rest price (q - x) _ _ (sr_ok _ _ _ Hrep1) ltac:(lia)) as Hrest.
  unfold atrade, atrade_views. rewrite Eb1 in *.
  destruct (afill_best price (q - x) (not_overtaken (is_sell_ s) price A))
    as [[A' fills] rest] eqn:Ef. cbn [fst snd] in *.
  destruct (trade_pending_ok s2 price rest
    (([] ++ cancel_events (is_sell_ s) (cancelled (is_sell_ s) price A)) ++
     exec_events (is_sell_ s) fills)) as (pa & Hrun3 & Hpend3 & Hz & Hpa).
  { eapply pending_add_ok_same; [..|exact Hpend]; congruence. }
  { lia. }
  { rewrite Ea2, Ea1. lia. }
  exists m2, (with_pending_add s2 pa). simpl app in *. rewrite Hrun3, bind_ok, Eb2.
  split; [done|]. split; unfold atrade, atrade_views; rewrite ?Ef; simpl; try done.
  - by apply rep_pending_add.
  - by rewrite Eq2, Eq1, <- app_assoc.
  - by rewrite Er2, Er1.
  - by rewrite Er2, Er1.
  - rewrite Ec2, Ec1, Ea2, Ea1 in Hpa. done.
  - by rewrite Hz, Ea2, Ea1.
Qed.
