(* ===== verification/ModifySide.v ===== *)
(** * Modification: [BookSide::modifyOrder]

    A new quantity at the same price keeps the order's place in the queue; a
    new price takes the order out and puts a copy, with the same filled
    quantity, behind the queue of the new price. *)

From S2P Require Import Prelude Outcome StdMap Price Common Order L2Level Level Messages BookSide BookSpec Matching.
From S2P Require Import SideRep Crossed PendingLiq TradeSide.

(** ** Cancellation: [BookSide::processOrderCancel]

    A cancellation first takes from the pending removals of its price; only
    what is left of its quantity can remove the order. *)

(** The order leaves the book. *)
Definition acancel (b : bool) (id : OrderId) (rest : Z) (price : Price) (A : abook)
    : abook * OrderInfoVec :=
  if (0 <? rest) && bool_decide (id ∈ ids A)
  then (aremove id A, [mkOrderInfo CANCEL id b rest price])
  else (A, []).

Lemma resting_aremove id A :
  resting (aremove id A) = filter (fun o => Order.odid o <> id) (resting A).
Proof.
  induction A as [|[k os] A IH]; [done|]. rewrite resting_cons, filter_app, <- IH.
  change (aremove id ((k, os) :: A)) with
    (keep_level k (filter (fun o => Order.odid o <> id) os) ++ aremove id A).
  by rewrite resting_app, resting_keep_level.
Qed.

Lemma aremove_live id A : live A -> live (aremove id A).
Proof.
  unfold live. rewrite resting_aremove, !Forall_forall. intros H o Ho.
  apply list_elem_of_filter in Ho as [_ Ho]. by apply H.
Qed.

Lemma aremove_prices id A x : x ∈ aremove id A -> exists y, y ∈ A /\ y.1 = x.1.
Proof.
  unfold aremove. intros ([k os] & Hx & Hin)%list_elem_of_bind. exists (k, os). split; [done|].
  simpl in Hx. destruct (filter _ os); simpl in Hx; [by apply not_elem_of_nil in Hx|].
  by apply list_elem_of_singleton in Hx as ->.
Qed.

Lemma processOrderCancel_rep m s A id q price :
  side_rep m s A -> counts_ok (pending_liq_remove_qty_ s) -> 0 <= q <= INT_MAX ->
  let x := Z.min (count plt price (pending_liq_remove_qty_ s)) q in
  let r := acancel (is_sell_ s) id (q - x) price A in
  exists s', processOrderCancel m s id q price = Ok (s', r.2) /\ side_rep m s' r.1 /\
    is_sell_ s' = is_sell_ s /\ l2_snap_queue_ s' = l2_snap_queue_ s /\
    comp_ s' = comp_ s /\ pending_liq_add_qty_ s' = pending_liq_add_qty_ s /\
    counts_ok (pending_liq_remove_qty_ s') /\
    forall p, count plt p (pending_liq_remove_qty_ s') =
      count plt p (pending_liq_remove_qty_ s) - (if peq price p then x else 0).
Proof.
  intros Hrep Hcnt Hq x r. subst r. unfold processOrderCancel.
  destruct (matchPendingLiqRemove_rep s q price Hcnt Hq) as (pr & -> & Hcnt' & Hpr).
  fold x in Hpr |- *. pose proof (proj2 Hcnt price) as Hcp.
  rewrite bind_ok, isub_ok, bind_ok by range.
  pose proof (rep_pending_remove _ _ _ pr Hrep) as Hrep1.
  unfold acancel. destruct (0 <? q - x) eqn:E; [|by exists (with_pending_remove s pr)].
  destruct (decide (id ∈ ids A)) as [Hin|Hnin].
  - rewrite bool_decide_eq_true_2 by done. cbn [andb].
    rewrite (proj2 (existOrder_iff _ _ _ id Hrep1) Hin).
    destruct (removeOrder_spec m _ A id Hrep1) as (s' & -> & Haux & Hrep').
    rewrite bind_ok. exists s'. destruct Haux as [H1 H2 H3 H4 H5]. simpl in *.
    rewrite H1, H2, H3, H4, H5. by split_and!.
  - rewrite bool_decide_eq_false_2 by done. cbn [andb].
    rewrite (existOrder_false _ _ _ id Hrep1) by done.
    by exists (with_pending_remove s pr).
Qed.

(** ** Changing one order of a book in place

    [update_book id f A] applies [f] to the order with this id, which keeps its
    place in the queue: what a modification without a price change and a partial
    fill do. *)

Definition update_order (id : OrderId) (f : Order -> Order) (o : Order) : Order :=
  if Order.odid o =? id then f o else o.

Definition update_book (id : OrderId) (f : Order -> Order) (A : abook) : abook :=
  (fun ko : Price * list Order => (ko.1, update_order id f <$> ko.2)) <$> A.

Lemma resting_split o A :
  o ∈ resting A -> exists A1 k os1 os2 A2, A = A1 ++ (k, os1 ++ o :: os2) :: A2.
Proof.
  unfold resting. intros ([k os] & Ho & Hk)%list_elem_of_bind.
  apply list_elem_of_split in Hk as (A1 & A2 & ->).
  apply list_elem_of_split in Ho as (os1 & os2 & Hos). simpl in Hos. subst.
  by exists A1, k, os1, os2, A2.
Qed.

Lemma update_absent id f (os : list Order) : id ∉ Order.odid <$> os -> update_order id f <$> os = os.
Proof.
  induction os as [|o os IH]; [done|]. rewrite !fmap_cons, not_elem_of_cons. intros [Hne Hin].
  rewrite IH by done. unfold update_order. by rewrite (proj2 (Z.eqb_neq _ _)) by congruence.
Qed.

Lemma update_book_absent id f A : id ∉ ids A -> update_book id f A = A.
Proof.
  induction A as [|[k os] A IH]; [done|]. rewrite ids_cons, not_elem_of_app. intros [H1 H2].
  unfold update_book in *. rewrite fmap_cons, IH by done. simpl. by rewrite update_absent.
Qed.

Lemma update_book_app id f A1 A2 : update_book id f (A1 ++ A2) = update_book id f A1 ++ update_book id f A2.
Proof. apply fmap_app. Qed.

Lemma update_book_middle b f A1 k os1 o os2 A2 :
  book_ok b (A1 ++ (k, os1 ++ o :: os2) :: A2) ->
  update_book (Order.odid o) f (A1 ++ (k, os1 ++ o :: os2) :: A2) =
  A1 ++ (k, os1 ++ f o :: os2) :: A2.
Proof.
  intros [_ _ Hid]. rewrite ids_app, ids_cons, fmap_app, fmap_cons in Hid.
  rewrite <- (app_assoc (Order.odid <$> os1)) in Hid. simpl in Hid.
  rewrite app_assoc in Hid. apply NoDup_app_cons_inv in Hid as (Hn1 & Hn2 & _).
  rewrite not_elem_of_app in Hn1. rewrite not_elem_of_app in Hn2.
  destruct Hn1 as [Hn1 Hn1'], Hn2 as [Hn2 Hn2'].
  rewrite update_book_app, update_book_absent by done. f_equal.
  change (update_book (Order.odid o) f ((k, os1 ++ o :: os2) :: A2)) with
    ((k, update_order (Order.odid o) f <$> os1 ++ o :: os2) :: update_book (Order.odid o) f A2).
  rewrite update_book_absent by done. rewrite fmap_app, fmap_cons, !update_absent by done.
  unfold update_order. by rewrite Z.eqb_refl.
Qed.

(** The order with this id. *)
Definition order_of (id : OrderId) (A : abook) : option Order :=
  list_find (fun o => Order.odid o = id) (resting A) ≫= fun io => Some io.2.

(** The copy under a new price. *)
Definition moved (o : Order) (q : Quantity) (price : Price) : Order :=
  set_filled_quantity (new_Order (Order.odid o) (Order.is_sell o) q price) (filled_quantity o).

Definition amodify (b : bool) (id : OrderId) (q : Quantity) (price : Price) (A : abook) : abook :=
  match order_of id A with
  | None => A
  | Some o =>
      if peq (Order.price o) price then update_book id (fun o => set_quantity o q) A
      else aadd b (moved o q price) (aremove id A)
  end.

(** ** Locating the order *)

Lemma order_of_Some id A o : order_of id A = Some o -> Order.odid o = id /\ o ∈ resting A.
Proof.
  unfold order_of. destruct (list_find _ (resting A)) as [[i o']|] eqn:E; [|done].
  intros [= <-]. apply list_find_Some in E as (Hi & Hid & _).
  split; [done|]. by apply list_elem_of_lookup_2 in Hi.
Qed.

Lemma order_of_None id A : order_of id A = None -> id ∉ ids A.
Proof.
  unfold order_of. destruct (list_find _ (resting A)) as [[i o']|] eqn:E; [done|]. intros _.
  apply list_find_None in E. unfold ids. rewrite list_elem_of_fmap. intros (o & -> & Ho).
  rewrite Forall_forall in E. by apply (E o Ho).
Qed.

(** ** In place *)

Definition modify_room (q : Quantity) (os1 : list Order) (o : Order) (os2 : list Order) : Prop :=
  filled_quantity o <= q <= INT_MAX /\ total (os1 ++ set_quantity o q :: os2) <= INT_MAX.

Lemma update_book_ok b A1 k os1 o os2 A2 q :
  book_ok b (A1 ++ (k, os1 ++ o :: os2) :: A2) -> modify_room q os1 o os2 ->
  book_ok b (A1 ++ (k, os1 ++ set_quantity o q :: os2) :: A2).
Proof.
  intros [Hs Hl Hid] [Hq Htot]. split.
  - by eapply (sorted_middle_value (side_comp b)).
  - apply Forall_app in Hl as [Hl1 [[Ho Hne Ht Hc] Hl2]%Forall_cons].
    apply Forall_app; split; [done|]. constructor; [|done].
    simpl in *. apply Forall_app in Ho as [Ho1 [[H1 H2 [H3 H4]] Ho2]%Forall_cons].
    split; simpl; [|by destruct os1|done|by rewrite length_app in *].
    apply Forall_app; split; [done|]. constructor; [|done]. split; [done..|]. split; simpl; lia.
  - by rewrite ids_app, ids_cons, fmap_app in Hid |- *.
Qed.

Lemma modifyOrder_in_place m s A1 k os1 o os2 A2 q price :
  side_rep m s (A1 ++ (k, os1 ++ o :: os2) :: A2) -> price ≡ Order.price o ->
  modify_room q os1 o os2 ->
  exists m' s', modifyOrder m s (Order.odid o) q price = Ok (m', s') /\ same_aux s s' /\
    side_rep m' s' (A1 ++ (k, os1 ++ set_quantity o q :: os2) :: A2).
Proof.
  intros Hrep Hprice Hroom. pose proof Hrep as [Hc _ _ Hok].
  pose proof (rep_sorted _ _ _ Hrep) as Hsort.
  apply rep_focus in Hrep as (L1 & l & L2 & c1 & n & p & c2 &
    EL & El & HL1 & HL2 & Hl & Hlc & Hlen & Hf).
  pose proof (book_level _ _ _ _ _ Hok) as Hlv.
  pose proof (level_order _ _ _ _ _ Hlv) as [_ Hk _].
  destruct (flat_lookup _ _ _ _ _ _ _ _ _ Hf Hlen) as [Hp Hom].
  destruct Hroom as [Hq Htot].
  destruct (Level.modifyOrder_ok m k l os1 o os2 p q price) as (l' & Hmod & Hpl & Eo & Hl');
    try done; [by eapply level_sane|apply Hlv|].
  unfold modifyOrder, existOrder, getOrderHandler. rewrite Hom. cbn [negb Order.order].
  rewrite (deref_ok _ _ _ Hp), bind_ok.
  rewrite (proj2 (peq_equiv (Order.price o) price)) by done.
  assert (price ≡ k) as Hpk by by rewrite Hprice.
  rewrite (getL3Level_middle s L1 k l L2) by done.
  rewrite Hmod, bind_ok, (set_level_middle s L1 k l L2) by done.
  eexists _, _; split; [reflexivity|]. split; [by split|].
  eapply (rep_intro _ _ L1 k l' L2); simpl; try done; [|by apply update_book_ok].
  apply (flat_update _ _ _ _ _ _ _ _ _ (set_quantity o q)) in Hf; [|done..].
  rewrite Eo, El, <- !app_assoc in *. exact Hf.
Qed.

(** ** To another price *)

Lemma aremove_id id A : id ∉ ids (aremove id A).
Proof.
  unfold ids. rewrite resting_aremove, list_elem_of_fmap.
  intros (o & -> & Ho). by apply list_elem_of_filter in Ho as [? _].
Qed.

Lemma modifyOrder_move m s A id o q price :
  side_rep m s A -> order_of id A = Some o -> peq (Order.price o) price = false ->
  filled_quantity o <= q <= INT_MAX ->
  has_room (is_sell_ s) (moved o q price) (aremove id A) ->
  exists m' s', modifyOrder m s id q price = Ok (m', s') /\ same_aux s s' /\
    side_rep m' s' (aadd (is_sell_ s) (moved o q price) (aremove id A)).
Proof.
  intros Hrep Ho Hne Hq Hroom. apply order_of_Some in Ho as [<- Hin].
  destruct (resting_split _ _ Hin) as (A1 & k & os1 & os2 & A2 & ->).
  pose proof (rep_focus _ _ _ _ _ _ _ _ Hrep) as (L1 & l & L2 & c1 & n & p & c2 &
    _ & _ & _ & _ & _ & _ & Hlen & Hf).
  destruct (flat_lookup _ _ _ _ _ _ _ _ _ Hf Hlen) as [Hp Hom].
  destruct (level_order_ok _ _ _ _ _ _ _ (sr_ok _ _ _ Hrep)) as [Hside _ Hsane].
  unfold modifyOrder, existOrder, getOrderHandler. rewrite Hom. cbn [negb Order.order].
  rewrite (deref_ok _ _ _ Hp), bind_ok, Hne.
  cbv zeta.
  change (set_filled_quantity _ (filled_quantity o)) with (moved o q price).
  set (m1 := mkStore (<[next m := moved o q price]> (heap m)) (Pos.succ (next m))).
  change (make_shared m (moved o q price)) with (next m, m1). cbv iota beta.
  assert (side_rep m1 s (A1 ++ (k, os1 ++ o :: os2) :: A2)) as Hrep1.
  { eapply rep_frame; [exact Hrep|simpl; lia|]. intros r Hr. simpl. apply lookup_insert_ne.
    pose proof (rep_pointer_fresh _ _ _ _ Hrep Hr). lia. }
  destruct (removeOrder_spec m1 s _ (Order.odid o) Hrep1) as (s1 & -> & Haux1 & Hrep2).
  rewrite bind_ok.
  pose proof (sa_is_sell _ _ Haux1) as Hs1. rewrite <- Hs1 in Hroom.
  destruct (addOrder_rep m1 s1 _ (next m) (moved o q price) Hrep2) as (s2 & Hadd & Haux2 & Hrep3).
  - simpl. by rewrite lookup_insert_eq.
  - simpl. lia.
  - intros Hr. destruct (rep_pointer _ _ _ _ Hrep2 Hr) as (o' & Ho' & Hin' & _).
    simpl in Ho'. rewrite lookup_insert_eq in Ho'. injection Ho' as <-.
    rewrite resting_aremove in Hin'. by apply list_elem_of_filter in Hin' as [? _].
  - simpl. congruence.
  - destruct Hsane. split; simpl; lia.
  - apply aremove_id.
  - done.
  - rewrite Hs1 in Hrep3. eexists _, s2. split; [exact Hadd|]. split; [by etransitivity|done].
Qed.

(** ** The contract *)

(** At least what is filled already, and room for the rest. *)
Definition can_modify (b : bool) (id : OrderId) (q : Quantity) (price : Price) (A : abook) : Prop :=
  match order_of id A with
  | None => True
  | Some o =>
      filled_quantity o <= q <= INT_MAX /\
      if peq (Order.price o) price
      then Forall (fun ko : Price * list Order => total ko.2 <= INT_MAX)
             (update_book id (fun o => set_quantity o q) A)
      else has_room b (moved o q price) (aremove id A)
  end.

Lemma modifyOrder_rep m s A id q price :
  side_rep m s A -> can_modify (is_sell_ s) id q price A ->
  exists m' s', modifyOrder m s id q price = Ok (m', s') /\ same_aux s s' /\
    side_rep m' s' (amodify (is_sell_ s) id q price A).
Proof.
  intros Hrep Hcan. unfold can_modify, amodify in *.
  destruct (order_of id A) as [o|] eqn:Ho.
  2: { exists m, s. unfold modifyOrder.
    rewrite (existOrder_false _ _ _ _ Hrep) by by apply order_of_None.
    split_and!; [done|reflexivity|done]. }
  destruct Hcan as [Hq Hroom]. destruct (peq (Order.price o) price) eqn:E.
  - apply order_of_Some in Ho as [<- Hin].
    destruct (resting_split _ _ Hin) as (A1 & k & os1 & os2 & A2 & ->).
    rewrite (update_book_middle _ _ _ _ _ _ _ _ (sr_ok _ _ _ Hrep)) in *.
    apply Forall_app in Hroom as [_ [Htot _]%Forall_cons].
    apply modifyOrder_in_place; [done|symmetry; by apply peq_equiv|by split].
  - by apply modifyOrder_move.
Qed.
