(* ===== verification/Resolve.v ===== *)
(** * Guessed removals: the third loop of [BookSide::processL2Snapshot]

    The first two loops collect pairs of an order and a quantity to take from
    it; [resolve_pending] guesses which are executions and which cancellations,
    removes the orders of which nothing remains and fills the others in place.
    On the abstract book this is [areduces] of a plan: the same list with the
    orders themselves for the pointers. *)

From S2P Require Import Prelude Outcome StdMap Price Common Order L2Level Level Messages BookSide BookSpec Matching.
From S2P Require Import SideRep Crossed PendingLiq TradeSide ModifySide.

(** ** The specification *)

Definition areduce (o : Order) (x : Z) (A : abook) : abook :=
  if rem o =? x then aremove (Order.odid o) A
  else update_book (Order.odid o) (fun o => fill o x) A.

Definition areduces (plan : list (Order * Z)) (A : abook) : abook :=
  foldl (fun A ox => areduce ox.1 ox.2 A) A plan.

Fixpoint removal_events (b : bool) (n i : nat) (plan : list (Order * Z)) : OrderInfoVec :=
  match plan with
  | [] => []
  | (o, x) :: plan =>
      mkOrderInfo (if is_executed i n then EXEC else CANCEL) (Order.odid o) b x (Order.price o)
        :: removal_events b n (S i) plan
  end.

(** ** Pointers into the side *)

(** [p] is the pointer under which the side knows the order [o]. *)
Definition holds (m : Store) (s : BookSide) (p : OrderPtr) (o : Order) : Prop :=
  heap m !! p = Some o /\ exists n, order_map_ s !! Order.odid o = Some (mkOrderHandler p n).

Lemma holds_resting m s A p o : side_rep m s A -> holds m s p o -> o ∈ resting A.
Proof.
  intros Hrep [Hp [n Hn]]. destruct (handler_order _ _ _ _ _ Hrep Hn) as (o' & Ho & Hin).
  simpl in Ho. congruence.
Qed.

(** The node of a held order, in a split of the book at that order. *)
Lemma holds_focus m s A p o :
  side_rep m s A -> holds m s p o ->
  exists A1 k os1 os2 A2 L1 l L2 c1 n c2, A = A1 ++ (k, os1 ++ o :: os2) :: A2 /\
    levels_ s = L1 ++ (k, l) :: L2 /\ Level.orders l = c1 ++ (n, p) :: c2 /\
    Forall2 same_level L1 A1 /\ Forall2 same_level L2 A2 /\ level_shape k l (os1 ++ o :: os2) /\
    length (cells L1 ++ c1) = length (resting A1 ++ os1) /\
    flat_rep m (order_map_ s) ((cells L1 ++ c1) ++ (n, p) :: (c2 ++ cells L2))
      ((resting A1 ++ os1) ++ o :: (os2 ++ resting A2)).
Proof.
  intros Hrep Hh. pose proof (holds_resting _ _ _ _ _ Hrep Hh) as Hin. destruct Hh as [Hp [n0 Hn0]].
  destruct (resting_split _ _ Hin) as (A1 & k & os1 & os2 & A2 & ->).
  apply rep_focus in Hrep as (L1 & l & L2 & c1 & n & q & c2 &
    EL & El & HL1 & HL2 & Hl & _ & Hlen & Hf).
  destruct (flat_lookup _ _ _ _ _ _ _ _ _ Hf Hlen) as [_ Hom].
  rewrite Hom in Hn0. injection Hn0 as -> _.
  exists A1, k, os1, os2, A2, L1, l, L2, c1, n, c2. by split_and!.
Qed.

Lemma holds_fresh m s A p o : side_rep m s A -> holds m s p o -> (p < next m)%positive.
Proof.
  intros Hrep Hh. destruct (holds_focus _ _ _ _ _ Hrep Hh) as
    (A1 & k & os1 & os2 & A2 & L1 & l & L2 & c1 & n & c2 & _ & _ & _ & _ & _ & _ & _ & Hf).
  pose proof (fr_fresh _ _ _ _ Hf) as H. by apply Forall_app in H as [_ [[_ H] _]%Forall_cons].
Qed.

(** ** Writes to orders of one side *)

(** Orders of the other side are not written and the supply only grows; cells
    above the supply do not count. *)
Record own_writes (b : bool) (m m' : Store) : Prop := {
  ow_next : (next m <= next m')%positive;
  ow_others : forall p o, heap m !! p = Some o -> (p < next m)%positive ->
    Order.is_sell o <> b -> heap m' !! p = Some o }.

#[export] Instance own_writes_preorder b : PreOrder (own_writes b).
Proof.
  split; [by split|]. intros m1 m2 m3 [N1 H1] [N2 H2]. split; [lia|].
  intros p o Hp Hlt Ho. apply H2; [by apply H1|lia|done].
Qed.

Lemma own_writes_write b m p o o' :
  heap m !! p = Some o -> Order.is_sell o = b -> own_writes b m (write m p o').
Proof.
  intros Hp Hb. split; [done|]. intros q oq Hq _ Hne. simpl. rewrite lookup_insert_ne; [done|].
  intros <-. congruence.
Qed.

Lemma rep_own_writes m m' s A b :
  side_rep m s A -> is_sell_ s <> b -> own_writes b m m' -> side_rep m' s A.
Proof.
  intros Hrep Hb [Hn Hk]. eapply rep_frame; [done|done|].
  intros p Hp. destruct (rep_pointer _ _ _ _ Hrep Hp) as (o & Ho & _ & Hs).
  rewrite Ho. apply Hk; [done|by eapply rep_pointer_fresh|congruence].
Qed.

(** ** One removal *)

Lemma removeOrder_map m s id s' :
  removeOrder m s id = Ok s' -> existOrder s id = true -> order_map_ s' = delete id (order_map_ s).
Proof.
  unfold removeOrder, existOrder, getOrderHandler.
  destruct (order_map_ s !! id) as [h|]; [|done]. intros H _. cbn [negb] in H.
  destruct (deref m (Order.order h)) as [o|]; [|done]. rewrite bind_ok in H.
  unfold getL3Level in H. destruct (map_index _ _ _ _) as [l ls].
  destruct (Level.removeOrder _ _ _) as [l'|]; [|done]. rewrite bind_ok in H.
  unfold set_level in H. destruct (Level.num_orders l' =? 0); injection H as <-; done.
Qed.

(** A partial fill in place. *)
Lemma fill_in_place m s A p o x :
  side_rep m s A -> holds m s p o -> 0 <= x < rem o ->
  let m' := write m p (fill o x) in
  exists l s0 l', existLevel s (Order.price o) = true /\
    getL3Level s (Order.price o) = (l, s0) /\ Level.fillOrder m l p x = Ok (m', l') /\
    let s' := set_level s0 (Order.price o) l' in
    same_aux s s' /\ order_map_ s' = order_map_ s /\
    side_rep m' s' (update_book (Order.odid o) (fun o => fill o x) A).
Proof.
  intros Hrep Hh Hx m'. pose proof Hrep as [Hc _ _ Hok].
  pose proof (rep_sorted _ _ _ Hrep) as Hsort.
  destruct (holds_focus _ _ _ _ _ Hrep Hh) as (A1 & k & os1 & os2 & A2 & L1 & l & L2 & c1 & n & c2 &
    -> & EL & El & HL1 & HL2 & Hl & Hlen & Hf).
  destruct Hh as [Hp _]. pose proof (book_level _ _ _ _ _ Hok) as Hlv.
  pose proof (level_order _ _ _ _ _ Hlv) as [_ Hk _].
  destruct (Level.fillOrder_ok m k l os1 o os2 p x) as (l' & Hfill & Hpl & Eo & Hl');
    try done; [by eapply level_sane|apply Hlv|lia|].
  exists l, s, l'. rewrite (getL3Level_middle s L1 k l L2) by done.
  split; [|split; [done|split; [done|]]].
  { unfold existLevel. rewrite Hc, EL in *.
    by rewrite (find_middle (side_comp (is_sell_ s))); [|done|apply side_rank_equiv]. }
  cbv zeta. rewrite (set_level_middle s L1 k l L2) by done.
  split_and!; [by split|done|]. rewrite (update_book_middle _ _ _ _ _ _ _ _ Hok).
  eapply (rep_intro _ _ L1 k l' L2); simpl; try done; [|by apply fill_book_ok; [|lia]].
  apply (flat_update _ _ _ _ _ _ _ _ _ (fill o x)) in Hf; [|done..].
  rewrite Eo, El, <- !app_assoc in *. exact Hf.
Qed.

(** What an iteration does besides. *)
Record resolved (o : Order) (m : Store) (s : BookSide) (m' : Store) (s' : BookSide) : Prop := {
  rs_aux : same_aux s s';
  rs_own : own_writes (is_sell_ s) m m';
  rs_holds : forall q o', holds m s q o' -> Order.odid o' <> Order.odid o -> holds m' s' q o' }.

Definition resolve_one (m : Store) (s : BookSide) (p : OrderPtr) (o : Order) (r qty : Quantity)
    : outcome (Store * BookSide) :=
  if r =? qty then s ← removeOrder m s (Order.odid o); Ok (m, s)
  else if existLevel s (Order.price o) then
    let '(l, s) := getL3Level s (Order.price o) in
    '(m, l) ← Level.fillOrder m l p qty;
    Ok (m, set_level s (Order.price o) l)
  else Ok (m, s).

Lemma resolve_one_rep m s A p o x :
  side_rep m s A -> holds m s p o -> 0 <= x <= rem o ->
  exists m' s', resolve_one m s p o (rem o) x = Ok (m', s') /\
    side_rep m' s' (areduce o x A) /\ resolved o m s m' s'.
Proof.
  intros Hrep Hh Hx. unfold resolve_one, areduce.
  pose proof (holds_resting _ _ _ _ _ Hrep Hh) as Hin. zcase.
  - destruct (removeOrder_spec m s A (Order.odid o) Hrep) as (s' & Hrun & Haux & Hrep').
    exists m, s'. rewrite Hrun, bind_ok. split_and!; [done..|].
    apply removeOrder_map in Hrun.
    2: { apply (existOrder_iff _ _ _ _ Hrep). unfold ids. apply list_elem_of_fmap. eauto. }
    split; [done|done|]. intros q o' [Hq [n1 Hn]] Hne. split; [done|]. exists n1.
    rewrite Hrun. by rewrite lookup_delete_ne.
  - destruct (fill_in_place m s A p o x Hrep Hh ltac:(lia)) as (l & s0 & l' & -> & -> & -> & H).
    rewrite bind_ok. destruct H as (Haux & Hom & Hrep').
    eexists _, _. split; [reflexivity|]. split; [exact Hrep'|].
    destruct Hh as [Hp _]. pose proof (rep_resting_side _ _ _ _ Hrep Hin) as Hside.
    split; [done|by eapply own_writes_write|]. intros q o' [Hq [n1 Hn]] Hne. split.
    + simpl. rewrite lookup_insert_ne; [done|]. intros <-. congruence.
    + exists n1. by rewrite Hom.
Qed.

(** ** The loop *)

(** The plan that a list of pointers and quantities stands for. *)
Definition plan_of (m : Store) (s : BookSide) (pending : list (OrderPtr * Quantity))
    (plan : list (Order * Z)) : Prop :=
  Forall2 (fun pq ox => pq.2 = ox.2 /\ holds m s pq.1 ox.1 /\ 0 <= ox.2 <= rem ox.1) pending plan /\
  NoDup (Order.odid <$> plan.*1).

Lemma resolve_pending_rep n pending : forall m s A plan i ev,
  side_rep m s A -> plan_of m s pending plan ->
  exists m' s', resolve_pending m s n i pending ev =
      Ok (m', s', ev ++ removal_events (is_sell_ s) n i plan) /\
    side_rep m' s' (areduces plan A) /\ same_aux s s' /\ own_writes (is_sell_ s) m m'.
Proof.
  induction pending as [|[p x] pending IH]; intros m s A plan i ev Hrep [Hplan Hnd].
  { apply Forall2_nil_inv_l in Hplan as ->. exists m, s. simpl. by rewrite app_nil_r. }
  apply Forall2_cons_inv_l in Hplan as ([o x'] & plan' & (Ex & Hh & Hx) & Hplan & ->).
  simpl in Ex, Hh, Hx; subst x'. rewrite !fmap_cons in Hnd. apply NoDup_cons in Hnd as [Hnin Hnd].
  pose proof (holds_resting _ _ _ _ _ Hrep Hh) as Hin.
  pose proof (rep_resting_sane _ _ _ Hrep) as Hsane. rewrite Forall_forall in Hsane.
  destruct (resolve_one_rep m s A p o x Hrep Hh Hx) as (m1 & s1 & Hrun & Hrep1 & [Haux Hown Hkeep]).
  cbn [resolve_pending]. rewrite (deref_ok _ _ _ (proj1 Hh)), bind_ok.
  rewrite (getRemainingQuantity_ok _ (Hsane _ Hin)), bind_ok.
  fold (resolve_one m s p o (rem o) x). rewrite Hrun, bind_ok. cbv beta iota.
  destruct (IH m1 s1 (areduce o x A) plan' (S i)
    (ev ++ [mkOrderInfo (if is_executed i n then EXEC else CANCEL) (Order.odid o) (is_sell_ s) x
      (Order.price o)]) Hrep1) as (m2 & s2 & -> & Hrep2 & Haux2 & Hown2).
  { split; [|done]. apply Forall2_same_length_lookup. apply Forall2_same_length_lookup in Hplan as [Hl H].
    split; [done|]. intros j [q y] [o' y'] Hj Hj'. destruct (H j _ _ Hj Hj') as (E & Hh' & Hy).
    split; [done|split; [|done]]. apply Hkeep; [done|]. intros E'. apply Hnin. simpl in E' |- *.
    rewrite <- E'. apply list_elem_of_fmap. exists o'. split; [done|].
    apply list_elem_of_fmap. exists (o', y'). split; [done|]. by apply list_elem_of_lookup_2 in Hj'. }
  exists m2, s2. rewrite (sa_is_sell _ _ Haux) in *. rewrite <- app_assoc.
  split_and!; [done|done|by etransitivity|by etransitivity].
Qed.

(** ** The share of executions among guessed removals

    [ceil(0.3 * pending_orders.size())] in binary64 arithmetic, and the
    comparison of the loop index with it, against the integer that is meant.
    Both are evaluated for all sizes up to [share_max]; the double nearest to
    0.3 is less than 0.3, so that exact multiples could have gone wrong. *)

Definition share_max : nat := 1024.

(** The number that is meant: [ceil (3 n / 10)]. *)
Definition share (n : nat) : nat := (3 * n + 9) / 10.

Definition nat_double (n : nat) : SpecFloat.spec_float := double_of_Z (Z.of_nat n).

Definition share_exact (n : nat) : bool :=
  is_number (executed_order_num n) &&
  (float_key (executed_order_num n) =? float_key (nat_double (share n))).

Definition int_step (n : nat) : bool :=
  is_number (nat_double n) && (float_key (nat_double n) <? float_key (nat_double (S n))).

Lemma shares_exact : forallb share_exact (seq 0 (S share_max)) = true.
Proof. vm_compute. reflexivity. Qed.

Lemma int_steps : forallb int_step (seq 0 (S share_max)) = true.
Proof. vm_compute. reflexivity. Qed.

Lemma table (f : nat -> bool) n :
  forallb f (seq 0 (S share_max)) = true -> (n <= share_max)%nat -> f n = true.
Proof. intros H Hn. rewrite forallb_forall in H. apply H, in_seq. lia. Qed.

Lemma nat_double_number n : (n <= share_max)%nat -> is_number (nat_double n) = true.
Proof. intros Hn. by apply (table _ _ int_steps), andb_true_iff in Hn as [? _]. Qed.

Lemma nat_double_lt i j : (i < j)%nat -> (j <= share_max)%nat ->
  float_key (nat_double i) < float_key (nat_double j).
Proof.
  induction 1 as [|j Hij IH]; intros Hj.
  - assert (i <= share_max)%nat as Hi by lia.
    apply (table _ _ int_steps), andb_true_iff in Hi as [_ Hi]. by apply Z.ltb_lt.
  - assert (j <= share_max)%nat as Hi by lia.
    pose proof Hi as Hi'. apply (table _ _ int_steps), andb_true_iff in Hi as [_ Hi].
    apply Z.ltb_lt in Hi. specialize (IH Hi'). lia.
Qed.

Lemma share_le n : (share n <= n)%nat.
Proof. unfold share. apply Nat.lt_succ_r, Nat.Div0.div_lt_upper_bound. lia. Qed.

(** The guess for the order of index [i] out of [n]. *)
Lemma is_executed_share i n :
  (n <= share_max)%nat -> (i <= n)%nat -> is_executed i n = (i <? share n)%nat.
Proof.
  intros Hn Hi. pose proof (share_le n) as Hs.
  pose proof (table _ n shares_exact Hn) as [Hnum Hkey%Z.eqb_eq]%andb_true_iff.
  unfold is_executed, SpecFloat.SFltb. fold (nat_double i).
  rewrite SFcompare_key, Hkey by (done || by apply nat_double_number; lia).
  destruct (Nat.ltb_spec i (share n)) as [Hlt|Hge].
  - apply (nat_double_lt i (share n)) in Hlt; [|lia]. by rewrite (proj2 (Z.compare_lt_iff _ _)).
  - destruct (decide (i = share n)) as [->|Hne]; [by rewrite Z.compare_refl|].
    assert (share n < i)%nat as Hgt by lia. apply (nat_double_lt (share n) i) in Hgt; [|lia].
    by rewrite (proj2 (Z.compare_gt_iff _ _)).
Qed.

(** The events of a plan: first executions, then cancellations. *)
Definition guess_event (b : bool) (e : OrderEvent) (ox : Order * Z) : OrderInfo :=
  mkOrderInfo e (Order.odid ox.1) b ox.2 (Order.price ox.1).

Lemma removal_events_from b n pl : forall i,
  (n <= share_max)%nat -> (i + length pl <= n)%nat ->
  removal_events b n i pl =
    (guess_event b EXEC <$> take (share n - i) pl) ++
    (guess_event b CANCEL <$> drop (share n - i) pl).
Proof.
  induction pl as [|[o x] pl IH]; intros i Hn Hi; [by rewrite take_nil, drop_nil|].
  simpl in Hi. cbn [removal_events]. rewrite IH, is_executed_share by lia.
  destruct (Nat.ltb_spec i (share n)) as [Hlt|Hge].
  - by replace (share n - i)%nat with (S (share n - S i)) by lia.
  - by replace (share n - i)%nat with 0%nat by lia; replace (share n - S i)%nat with 0%nat by lia.
Qed.

Lemma removal_events_split b (pl : list (Order * Z)) :
  (length pl <= share_max)%nat ->
  removal_events b (length pl) 0 pl =
    (guess_event b EXEC <$> take (share (length pl)) pl) ++
    (guess_event b CANCEL <$> drop (share (length pl)) pl).
Proof. intros Hn. rewrite removal_events_from by lia. by rewrite Nat.sub_0_r. Qed.
