(* ===== verification/Adapt.v ===== *)
(** * What a snapshot that leads does to the book: the specification

    [aadapt] is the first loop of [processL2Snapshot] on abstract books: where
    the snapshot shows more than the book an order is guessed and added, where
    it shows less the excess is planned to be taken from the front of the
    queue.  [amissing] is the second loop: the levels the snapshot does not list
    are planned to go.  The plan is carried out by [areduces] (Resolve.v).  The
    lemmas account for the quantity at every price; the result is that the book
    shows the snapshot. *)

From S2P Require Import Prelude Outcome StdMap Price Common Order L2Level Level.
From S2P Require Import BookSpec Matching SideRep Crossed ModifySide Resolve.

Abbreviation plan := (list (Order * Z)).

(** The orders from the front of a queue that make up [rest]. *)
Fixpoint atake (rest : Z) (os : list Order) : plan :=
  match os with
  | [] => []
  | o :: os => if rest =? 0 then [] else
      let x := Z.min rest (rem o) in (o, x) :: atake (rest - x) os
  end.

(** By how much the snapshot's level exceeds that of the book. *)
Definition lack (b : bool) (l : L2PriceLevel) (A : abook) : Z :=
  L2Level.quantity l - total (queue_at b (L2Level.price l) A).

Definition guessed (b : bool) (id : OrderId) (l : L2PriceLevel) (A : abook) : Order :=
  new_Order id b (lack b l A) (L2Level.price l).

Fixpoint aadapt (b : bool) (id : OrderId) (side : L2SnapshotSide) (A : abook)
    : abook * OrderInfoVec * plan :=
  match side with
  | [] => (A, [], [])
  | l :: side =>
      if 0 <? lack b l A then
        let '(A', ev, pl) := aadapt b (id + 1) side (aadd b (guessed b id l A) A) in
        (A', mkOrderInfo ADD (-1) b (lack b l A) (L2Level.price l) :: ev, pl)
      else
        let '(A', ev, pl) := aadapt b id side A in
        (A', ev, atake (- lack b l A) (queue_at b (L2Level.price l) A) ++ pl)
  end.

Abbreviation adapted b id side A := (aadapt b id side A).1.1.
Abbreviation adds b id side A := (aadapt b id side A).1.2.
Abbreviation cuts b id side A := (aadapt b id side A).2.

Definition amissing (prices : list Price) (A : abook) : plan :=
  A ≫= fun ko => if existsb (peq ko.1) prices then [] else (fun o => (o, rem o)) <$> ko.2.

(** The whole plan, and the book afterwards. *)
Definition removals (b : bool) (side : L2SnapshotSide) (A : abook) : plan :=
  cuts b 100 side A ++ amissing (L2Level.price <$> side) (adapted b 100 side A).

Definition afollow (b : bool) (side : L2SnapshotSide) (A : abook) : abook :=
  areduces (removals b side A) (adapted b 100 side A).

(** ** Quantities at a price *)

Definition at_price (p : Price) (A : abook) : Z :=
  zsum (fun o => if peq (Order.price o) p then rem o else 0) (resting A).

Definition planned (p : Price) (pl : plan) : Z :=
  zsum (fun ox => if peq (Order.price ox.1) p then ox.2 else 0) pl.

Lemma planned_nil p : planned p [] = 0.
Proof. done. Qed.

Lemma planned_app p pl1 pl2 : planned p (pl1 ++ pl2) = planned p pl1 + planned p pl2.
Proof. apply zsum_app. Qed.

Lemma at_price_app p A1 A2 : at_price p (A1 ++ A2) = at_price p A1 + at_price p A2.
Proof. unfold at_price. by rewrite resting_app, zsum_app. Qed.

Lemma peq_proper p p' q : p ≡ p' -> peq p q = peq p' q.
Proof. intros E. rewrite !peq_key. by rewrite E. Qed.

Lemma at_price_level b p k os :
  Forall (order_ok b k) os -> at_price p [(k, os)] = if peq k p then total os else 0.
Proof.
  unfold at_price. rewrite resting_cons, app_nil_r.
  induction 1 as [|o os [_ Hk _] H IH]; [by destruct (peq k p)|].
  rewrite !zsum_cons, IH, (peq_proper _ _ p Hk). by destruct (peq k p).
Qed.

Lemma at_price_absent b p A :
  Forall (level_ok b) A -> (forall x, x ∈ A -> side_rank b x.1 <> side_rank b p) ->
  at_price p A = 0.
Proof.
  induction 1 as [|[k os] A Hl HA IH]; intros Hne; [done|].
  change ((k, os) :: A) with ([(k, os)] ++ A).
  rewrite at_price_app, (at_price_level b), IH; [|intros x Hx; apply Hne; by right|apply Hl].
  destruct (peq k p) eqn:E; [|done]. apply peq_equiv, (side_rank_equiv b) in E.
  by destruct (Hne (k, os) ltac:(left)).
Qed.

(** The quantity at a price is that of the queue there. *)
Lemma at_price_queue b p A : book_ok b A -> at_price p A = total (queue_at b p A).
Proof.
  intros [Hs Hl _]. unfold queue_at.
  destruct (map_find (side_comp b) p A) as [os|] eqn:E; simpl.
  - apply (sorted_find_split (side_comp b)) in E as (A1 & k & A2 & -> & E).
    apply Forall_app in Hl as [Hl1 [Hl Hl2]%Forall_cons].
    apply (sorted_app (side_comp b)) in Hs as (_ & [_ H2]%(sorted_cons (side_comp b)) & H12).
    simpl in E, H2, H12. change ((k, os) :: A2) with ([(k, os)] ++ A2).
    rewrite !at_price_app, (at_price_level b p k os), !(at_price_absent b); try done; try apply Hl.
    + apply side_rank_equiv, peq_equiv in E as ->. lia.
    + intros x Hx. specialize (H2 x Hx). lia.
    + intros x Hx. specialize (H12 x (k, os) Hx ltac:(left)). simpl in H12. lia.
  - apply (at_price_absent b); [done|]. exact (proj1 (find_None (side_comp b) p A) E).
Qed.

Lemma at_price_aadd b p o A :
  sorted (side_comp b) A ->
  at_price p (aadd b o A) = (if peq (Order.price o) p then rem o else 0) + at_price p A.
Proof. intros Hs. unfold at_price. rewrite resting_aadd by done. by rewrite zsum_cons. Qed.

(** ** Carrying out the plan *)

(** Both cases of [areduce] at a split of the book. *)
Lemma areduce_split b A o x :
  book_ok b A -> o ∈ resting A -> 0 <= x <= rem o ->
  exists R1 R2, resting A = R1 ++ o :: R2 /\ book_ok b (areduce o x A) /\
    resting (areduce o x A) = R1 ++ (if rem o =? x then [] else [fill o x]) ++ R2.
Proof.
  intros Hok Hin Hx. destruct (resting_split _ _ Hin) as (A1 & k & os1 & os2 & A2 & ->).
  exists (resting A1 ++ os1), (os2 ++ resting A2). unfold areduce. zcase.
  - rewrite (aremove_middle _ _ _ _ _ _ _ Hok). autorewrite with ob. rewrite <- !app_assoc.
    split_and!; [done| |done]. eapply book_ok_drop; [exact Hok|].
    apply sublist_app; [done|]. by apply sublist_cons.
  - rewrite (update_book_middle _ _ _ _ _ _ _ _ Hok). autorewrite with ob. rewrite <- !app_assoc.
    split_and!; [done|by apply fill_book_ok|done].
Qed.

Lemma areduce_at_price b p A o x :
  book_ok b A -> o ∈ resting A -> 0 <= x <= rem o ->
  at_price p (areduce o x A) = at_price p A - (if peq (Order.price o) p then x else 0).
Proof.
  intros Hok Hin Hx. destruct (areduce_split b A o x Hok Hin Hx) as (R1 & R2 & E & _ & E').
  unfold at_price. rewrite E, E', !zsum_app, zsum_cons. zcase; subst.
  - rewrite zsum_nil. destruct (peq _ _); lia.
  - rewrite zsum_cons, zsum_nil, rem_fill. simpl. destruct (peq _ _); lia.
Qed.

Lemma areduce_total b A o x :
  book_ok b A -> o ∈ resting A -> 0 <= x <= rem o -> total_of (areduce o x A) = total_of A - x.
Proof.
  intros Hok Hin Hx. destruct (areduce_split b A o x Hok Hin Hx) as (R1 & R2 & E & _ & E').
  unfold total_of. rewrite E, E', !zsum_app, zsum_cons. zcase; subst.
  - rewrite zsum_nil. lia.
  - rewrite zsum_cons, zsum_nil, rem_fill. lia.
Qed.

Lemma areduce_live b A o x :
  book_ok b A -> o ∈ resting A -> 0 <= x <= rem o -> live A -> live (areduce o x A).
Proof.
  intros Hok Hin Hx. destruct (areduce_split b A o x Hok Hin Hx) as (R1 & R2 & E & _ & E').
  unfold live. rewrite E, E', !Forall_app, Forall_cons. intros (H1 & H & H2).
  split_and!; [done| |done]. zcase; constructor; [rewrite rem_fill; lia|done].
Qed.

Lemma areduce_keeps b A o x o' :
  book_ok b A -> o ∈ resting A -> 0 <= x <= rem o -> o' ∈ resting A ->
  Order.odid o' <> Order.odid o -> o' ∈ resting (areduce o x A).
Proof.
  intros Hok Hin Hx. destruct (areduce_split b A o x Hok Hin Hx) as (R1 & R2 & E & _ & E').
  rewrite E, E', !elem_of_app, elem_of_cons. intros [?|[->|?]] Hne; tauto.
Qed.

(** A plan for the book: distinct orders, at most what remains of each. *)
Definition plan_ok (A : abook) (pl : plan) : Prop :=
  Forall (fun ox : Order * Z => ox.1 ∈ resting A /\ 0 <= ox.2 <= rem ox.1) pl /\
  NoDup (Order.odid <$> pl.*1).

Lemma areduces_spec b pl : forall A,
  book_ok b A -> live A -> plan_ok A pl ->
  book_ok b (areduces pl A) /\ live (areduces pl A) /\
  (forall p, at_price p (areduces pl A) = at_price p A - planned p pl) /\
  total_of (areduces pl A) = total_of A - zsum snd pl.
Proof.
  induction pl as [|[o x] pl IH]; intros A Hok Hlive [Hpl Hnd].
  { split_and!; [done|done| |].
    - intros p. rewrite planned_nil. simpl. lia.
    - rewrite zsum_nil. simpl. lia. }
  apply Forall_cons in Hpl as [[Hin Hx] Hpl]. simpl in Hin, Hx.
  rewrite !fmap_cons in Hnd. apply NoDup_cons in Hnd as [Hnin Hnd].
  destruct (areduce_split b A o x Hok Hin Hx) as (_ & _ & _ & Hok1 & _).
  destruct (IH (areduce o x A) Hok1 (areduce_live b A o x Hok Hin Hx Hlive)) as (H1 & H2 & H3 & H4).
  { split; [|done]. rewrite Forall_forall in Hpl |- *. intros ox Hox.
    destruct (Hpl ox Hox) as [Hin' Hx']. split; [|done]. apply (areduce_keeps b); try done.
    intros E. apply Hnin. simpl. rewrite <- E. do 2 apply list_elem_of_fmap_2. done. }
  change (areduces ((o, x) :: pl) A) with (areduces pl (areduce o x A)).
  split_and!; [done|done| |].
  - intros p. rewrite H3, (areduce_at_price b) by done. unfold planned. rewrite zsum_cons. simpl. lia.
  - rewrite H4, (areduce_total b), zsum_cons by done. simpl. lia.
Qed.

(** ** Following the snapshot *)

(** The snapshot as a map from prices to quantities. *)
Definition quotes (side : L2SnapshotSide) : smap Price Quantity :=
  (fun l => (L2Level.price l, L2Level.quantity l)) <$> side.

(** No price is listed twice; [double] prices are the same when [==] says so. *)
Definition distinct (side : L2SnapshotSide) : Prop :=
  NoDup ((fun l => price_key (L2Level.price l)) <$> side).

(** The snapshot from the best price to the worst, as the side lists its levels. *)
Definition arranged (b : bool) (side : L2SnapshotSide) : smap Price Quantity :=
  foldr (fun l m => map_assign (side_comp b) (L2Level.price l) (L2Level.quantity l) m) [] side.
Definition best_first (b : bool) (side : L2SnapshotSide) : L2SnapshotSide :=
  (fun kv => mkL2PriceLevel kv.1 kv.2) <$> arranged b side.

(** A snapshot in any order, without repeated prices and empty levels, and no
    order of the book under an id that the code may invent. *)
Record adapt_pre (b : bool) (id : OrderId) (side : L2SnapshotSide) (A : abook) : Prop := {
  ad_ok : book_ok b A;
  ad_live : live A;
  ad_distinct : distinct side;
  ad_qty : Forall (fun l => 0 < L2Level.quantity l <= INT_MAX) side;
  ad_ids : forall i, i ∈ ids A -> (i < id) \/ (id + Z.of_nat (length side) <= i) }.

Lemma rem_guessed b id l A : rem (guessed b id l A) = lack b l A.
Proof. unfold rem; simpl; lia. Qed.

Lemma guessed_room b id l side A :
  adapt_pre b id (l :: side) A -> 0 < lack b l A ->
  order_sane (guessed b id l A) /\ (Order.odid (guessed b id l A) ∉ ids A) /\
  has_room b (guessed b id l A) A.
Proof.
  intros [Hok Hlive _ Hq Hid] Hlack. apply Forall_cons in Hq as [Hq _].
  pose proof (book_sane _ _ (bk_levels _ _ Hok)) as Hsane.
  destruct (queue_at_total b (L2Level.price l) A Hsane Hlive) as [_ Hlen]. unfold lack in Hlack.
  split_and!.
  - split; simpl; unfold lack; lia.
  - intros Hin. apply Hid in Hin. simpl in Hin. lia.
  - split; rewrite ?rem_guessed; unfold lack; simpl; lia.
Qed.

Lemma adapt_pre_add b id l side A :
  adapt_pre b id (l :: side) A -> 0 < lack b l A ->
  adapt_pre b (id + 1) side (aadd b (guessed b id l A) A).
Proof.
  intros Hpre Hlack. destruct (guessed_room b id l side A Hpre Hlack) as (Hsane & Hnew & Hroom).
  destruct Hpre as [Hok Hlive Hs Hq Hid]. split.
  - by apply aadd_ok.
  - apply aadd_live; [apply Hok|done|]. by rewrite rem_guessed.
  - by apply NoDup_cons in Hs as [_ Hs].
  - by apply Forall_cons in Hq as [_ Hq].
  - intros i. rewrite ids_aadd by apply Hok. simpl length in Hid.
    intros [->|Hi]%elem_of_cons; [simpl; lia|]. apply Hid in Hi. lia.
Qed.

Lemma adapt_pre_cut b id l side A :
  adapt_pre b id (l :: side) A -> adapt_pre b id side A.
Proof.
  intros [Hok Hlive Hs Hq Hid]. split; [done|done| | |].
  - by apply NoDup_cons in Hs as [_ Hs].
  - by apply Forall_cons in Hq as [_ Hq].
  - intros i Hi. apply Hid in Hi. simpl length in Hi. lia.
Qed.

(** *** The front of a queue *)

Lemma atake_fst rest os : exists os', os = (atake rest os).*1 ++ os'.
Proof.
  revert rest. induction os as [|o os IH]; intros rest; simpl; [by exists []|].
  destruct (rest =? 0); [by exists (o :: os)|].
  destruct (IH (rest - Z.min rest (rem o))) as [os' E]. exists os'. simpl. by f_equal.
Qed.

Lemma atake_bounds rest os :
  Forall order_sane os -> 0 <= rest -> Forall (fun ox : Order * Z => 0 <= ox.2 <= rem ox.1) (atake rest os).
Proof.
  intros H. revert rest. induction H as [|o os Ho H IH]; intros rest Hr; simpl; [done|].
  destruct (rest =? 0); [done|]. pose proof (rem_nonneg o Ho).
  constructor; [simpl; lia|]. apply IH. lia.
Qed.

Lemma atake_sum rest os :
  Forall order_sane os -> 0 <= rest <= total os -> zsum snd (atake rest os) = rest.
Proof.
  intros H. revert rest. induction H as [|o os Ho H IH]; intros rest.
  { unfold zsum; simpl. lia. }
  rewrite zsum_cons. cbn [atake]. pose proof (rem_nonneg o Ho). pose proof (total_nonneg _ H).
  intros Hr. zcase; subst; [done|]. rewrite zsum_cons, IH by lia. simpl. lia.
Qed.

(** The queue at a price: orders of the book with that price. *)
Lemma queue_at_elem b p A o :
  book_ok b A -> o ∈ queue_at b p A -> o ∈ resting A /\ Order.price o ≡ p /\ order_sane o.
Proof.
  intros [_ Hl _]. unfold queue_at. destruct (map_find (side_comp b) p A) as [os|] eqn:E; simpl.
  2: { by intros ?%not_elem_of_nil. }
  intros Ho. apply (sorted_find_split (side_comp b)) in E as (A1 & k & A2 & -> & E).
  apply side_rank_equiv in E. apply Forall_app in Hl as [_ [[Hl _ _ _] _]%Forall_cons].
  rewrite Forall_forall in Hl. destruct (Hl o Ho) as [_ Hk Hs]. split_and!; [|by rewrite Hk|done].
  rewrite resting_app, resting_cons. apply elem_of_app; right. by apply elem_of_app; left.
Qed.

Lemma queue_at_nodup b p A : book_ok b A -> NoDup (Order.odid <$> queue_at b p A).
Proof.
  intros [_ _ Hid]. unfold queue_at. destruct (map_find (side_comp b) p A) as [os|] eqn:E; simpl.
  2: { constructor. }
  apply (sorted_find_split (side_comp b)) in E as (A1 & k & A2 & -> & _).
  rewrite ids_app, ids_cons in Hid. apply NoDup_app in Hid as (_ & _ & Hid).
  by apply NoDup_app in Hid as [Hid _].
Qed.

(** *** The first loop *)

(** Induction over the snapshot, with the two kinds of turns. *)
Lemma aadapt_ind b (P : OrderId -> L2SnapshotSide -> abook -> abook -> OrderInfoVec -> plan -> Prop) :
  (forall id A, adapt_pre b id [] A -> P id [] A A [] []) ->
  (forall id l side A A' ev pl, adapt_pre b id (l :: side) A -> 0 < lack b l A ->
     P (id + 1) side (aadd b (guessed b id l A) A) A' ev pl ->
     P id (l :: side) A A' (mkOrderInfo ADD (-1) b (lack b l A) (L2Level.price l) :: ev) pl) ->
  (forall id l side A A' ev pl, adapt_pre b id (l :: side) A -> lack b l A <= 0 ->
     P id side A A' ev pl ->
     P id (l :: side) A A' ev (atake (- lack b l A) (queue_at b (L2Level.price l) A) ++ pl)) ->
  forall side id A, adapt_pre b id side A ->
    P id side A (adapted b id side A) (adds b id side A) (cuts b id side A).
Proof.
  intros Hnil Hadd Hcut side. induction side as [|l side IH]; intros id A Hpre; simpl.
  { by apply Hnil. }
  destruct (Z.ltb_spec 0 (lack b l A)) as [Hl|Hl].
  - specialize (IH _ _ (adapt_pre_add _ _ _ _ _ Hpre Hl)).
    destruct (aadapt b (id + 1) side _) as [[A' ev] pl]. by apply Hadd.
  - specialize (IH _ _ (adapt_pre_cut _ _ _ _ _ Hpre)).
    destruct (aadapt b id side A) as [[A' ev] pl]. by apply Hcut.
Qed.

(** A well-formed live book, larger than before, and cuts of orders in it that
    rest at prices the snapshot lists. *)
Record adapt_post (b : bool) (side : L2SnapshotSide) (A A' : abook) (pl : plan) : Prop := {
  ap_ok : book_ok b A';
  ap_live : live A';
  ap_grows : forall o, o ∈ resting A -> o ∈ resting A';
  ap_cuts : Forall (fun ox : Order * Z => ox.1 ∈ resting A' /\ 0 <= ox.2 <= rem ox.1) pl;
  ap_prices : Forall (fun ox : Order * Z =>
    exists l, l ∈ side /\ Order.price ox.1 ≡ L2Level.price l) pl;
  ap_nodup : NoDup (Order.odid <$> pl.*1) }.

(** What is cut from one level. *)
Lemma cut_level b id l side A :
  adapt_pre b id (l :: side) A -> lack b l A <= 0 ->
  Forall (fun ox : Order * Z => ox.1 ∈ resting A /\ 0 <= ox.2 <= rem ox.1 /\
      Order.price ox.1 ≡ L2Level.price l)
    (atake (- lack b l A) (queue_at b (L2Level.price l) A)).
Proof.
  intros [Hok _ _ _ _] Hneg. set (os := queue_at b (L2Level.price l) A).
  assert (Forall order_sane os) as Hs.
  { apply Forall_forall. intros o Ho. by eapply queue_at_elem. }
  pose proof (atake_bounds (- lack b l A) _ Hs ltac:(lia)) as Hb.
  destruct (atake_fst (- lack b l A) os) as [os' E].
  rewrite Forall_forall in Hb |- *. intros ox Hox.
  assert (ox.1 ∈ os) as Hin.
  { rewrite E. apply elem_of_app; left. by apply list_elem_of_fmap_2. }
  destruct (queue_at_elem _ _ _ _ Hok Hin) as (H1 & H2 & _).
  split; [done|]. by split; [apply Hb|].
Qed.

(** No price is listed twice. *)
Lemma distinct_head l side l' :
  distinct (l :: side) -> l' ∈ side -> L2Level.price l ≢ L2Level.price l'.
Proof.
  intros [Hnin _]%NoDup_cons Hl E. apply Hnin. rewrite E.
  by apply (list_elem_of_fmap_2 (fun l => price_key (L2Level.price l))).
Qed.

(** The cuts of one level and those of the others are of different orders. *)
Lemma cut_nodup b l (side : L2SnapshotSide) A' (head pl : plan) :
  book_ok b A' ->
  Forall (fun ox : Order * Z => ox.1 ∈ resting A' /\ Order.price ox.1 ≡ L2Level.price l) head ->
  Forall (fun ox : Order * Z => ox.1 ∈ resting A' /\ 0 <= ox.2 <= rem ox.1) pl ->
  Forall (fun ox : Order * Z => exists l, l ∈ side /\ Order.price ox.1 ≡ L2Level.price l) pl ->
  (forall l', l' ∈ side -> L2Level.price l ≢ L2Level.price l') ->
  NoDup (Order.odid <$> head.*1) -> NoDup (Order.odid <$> pl.*1) ->
  NoDup (Order.odid <$> (head ++ pl).*1).
Proof.
  intros Hok Hh Hp Hprices Hne Hnd1 Hnd2. rewrite !fmap_app. apply NoDup_app. split_and!; try done.
  rewrite Forall_forall in Hh, Hp, Hprices. intros id H1 H2.
  apply list_elem_of_fmap in H1 as (o & -> & ([o1 x] & -> & H1)%list_elem_of_fmap).
  apply list_elem_of_fmap in H2 as (o' & E & ([o2 y] & -> & H2)%list_elem_of_fmap).
  destruct (Hh _ H1) as [Hin1 Hk]. destruct (Hp _ H2) as [Hin2 _].
  destruct (Hprices _ H2) as (l' & Hl' & Hk'). simpl in *.
  apply (Hne l' Hl'). rewrite <- Hk, <- Hk'.
  by rewrite (NoDup_ids_inj _ _ _ (bk_ids _ _ Hok) Hin1 Hin2 E).
Qed.

Lemma adapted_post b id side A :
  adapt_pre b id side A -> adapt_post b side A (adapted b id side A) (cuts b id side A).
Proof.
  revert side id A. apply (aadapt_ind b (fun _ side A A' _ pl => adapt_post b side A A' pl)).
  - intros id A [H1 H2 _ _ _]. split; auto. constructor.
  - intros id l side A A' ev pl Hpre Hl [H1 H2 H3 H4 H5 H6]. split; [done|done| |done| |done].
    + intros o Ho. apply H3. rewrite resting_aadd by apply (ad_ok _ _ _ _ Hpre). by right.
    + eapply Forall_impl; [exact H5|]. intros ox (l' & Hl' & E). exists l'. by split; [right|].
  - intros id l side A A' ev pl Hpre Hl [H1 H2 H3 H4 H5 H6]. pose proof (cut_level _ _ _ _ _ Hpre Hl) as Hc.
    split; [done..| | |].
    + apply Forall_app; split; [|done]. eapply Forall_impl; [exact Hc|].
      intros ox (Hin & Hx & _). by split; [apply H3|].
    + apply Forall_app; split.
      * eapply Forall_impl; [exact Hc|]. intros ox (_ & _ & E). exists l. by split; [left|].
      * eapply Forall_impl; [exact H5|]. intros ox (l' & Hl' & E). exists l'. by split; [right|].
    + apply (cut_nodup b l side A'); try done.
      * eapply Forall_impl; [exact Hc|]. intros ox (Hin & _ & E). by split; [apply H3|].
      * intros l' Hl'. eapply distinct_head; [apply (ad_distinct _ _ _ _ Hpre)|done].
      * destruct (atake_fst (- lack b l A) (queue_at b (L2Level.price l) A)) as [os' E].
        pose proof (queue_at_nodup b (L2Level.price l) A (ad_ok _ _ _ _ Hpre)) as Hnd.
        rewrite E, fmap_app in Hnd. by apply NoDup_app in Hnd as [Hnd _].
Qed.

(** *** The account at every price *)

Lemma planned_level p k (pl : plan) :
  Forall (fun ox : Order * Z => Order.price ox.1 ≡ k) pl ->
  planned p pl = if peq k p then zsum snd pl else 0.
Proof.
  unfold planned. induction 1 as [|[o x] pl Hk H IH]; [by destruct (peq k p)|].
  rewrite !zsum_cons, IH. simpl in *. rewrite (peq_proper _ _ p Hk). by destruct (peq k p).
Qed.

Lemma queue_at_proper b p p' A : p ≡ p' -> queue_at b p A = queue_at b p' A.
Proof.
  intros E%(side_rank_equiv b). unfold queue_at. by rewrite (find_same (side_comp b) p p').
Qed.

Lemma quotes_find b p l side :
  distinct (l :: side) ->
  map_find (side_comp b) p (quotes (l :: side)) =
    (if peq (L2Level.price l) p then Some (L2Level.quantity l)
     else map_find (side_comp b) p (quotes side)) /\
  (peq (L2Level.price l) p = true -> map_find (side_comp b) p (quotes side) = None).
Proof.
  intros Hd. change (quotes (l :: side)) with ((L2Level.price l, L2Level.quantity l) :: quotes side).
  cbn [map_find]. rewrite (same_key_rank (side_comp b)). simpl rank.
  assert ((side_rank b p =? side_rank b (L2Level.price l)) = peq (L2Level.price l) p) as ->.
  { destruct (peq (L2Level.price l) p) eqn:E.
    - apply peq_equiv, (side_rank_equiv b) in E. rewrite E. apply Z.eqb_refl.
    - apply Z.eqb_neq. intros E'%eq_sym%side_rank_equiv%peq_equiv. congruence. }
  split; [done|]. intros E. apply (find_None (side_comp b)). intros x Hx E'.
  apply list_elem_of_fmap in Hx as (l' & -> & Hl'). apply side_rank_equiv in E'. simpl in E'.
  apply peq_equiv in E. apply (distinct_head _ _ _ Hd Hl'). by rewrite E, E'.
Qed.

(** What the snapshot wants at a price before the levels it does not list go. *)
Definition wanted (b : bool) (p : Price) (side : L2SnapshotSide) (A : abook) : Z :=
  default (at_price p A) (map_find (side_comp b) p (quotes side)).

Lemma adapt_accounts b id side A p :
  adapt_pre b id side A ->
  at_price p (adapted b id side A) - planned p (cuts b id side A) = wanted b p side A.
Proof.
  revert side id A. apply (aadapt_ind b (fun _ side A A' _ pl =>
    at_price p A' - planned p pl = wanted b p side A)).
  - intros id A _. rewrite planned_nil. unfold wanted. simpl. lia.
  - intros id l side A A' ev pl Hpre Hl IH. destruct Hpre as [Hok _ Hs _ _].
    destruct (quotes_find b p l side Hs) as [E1 E2]. unfold wanted in *.
    rewrite IH, E1, at_price_aadd, rem_guessed by apply Hok. simpl Order.price.
    destruct (peq (L2Level.price l) p) eqn:E; [|done]. rewrite E2 by done. simpl.
    rewrite (at_price_queue b) by done. apply peq_equiv in E. unfold lack.
    rewrite (queue_at_proper b _ _ A E). lia.
  - intros id l side A A' ev pl Hpre Hl IH. pose proof (cut_level _ _ _ _ _ Hpre Hl) as Hc.
    destruct Hpre as [Hok _ Hs Hq _]. destruct (quotes_find b p l side Hs) as [E1 E2].
    apply Forall_cons in Hq as [Hq _]. unfold wanted in *. rewrite planned_app, E1.
    rewrite (planned_level p (L2Level.price l)); [|by eapply Forall_impl; [exact Hc|]; intros ox (_ & _ & ?)].
    destruct (peq (L2Level.price l) p) eqn:E; [|rewrite <- IH; lia]. rewrite E2 in IH by done.
    simpl in IH |- *. rewrite atake_sum.
    + rewrite (at_price_queue b p A) in IH by done. apply peq_equiv in E.
      rewrite <- (queue_at_proper b _ _ A E) in IH. unfold lack. lia.
    + apply Forall_forall. intros o Ho. by eapply queue_at_elem.
    + unfold lack in *. lia.
Qed.

(** *** The second loop *)

Lemma existsb_price (p p' : Price) prices : p ≡ p' -> existsb (peq p) prices = existsb (peq p') prices.
Proof. intros E. induction prices as [|q prices IH]; [done|]. simpl. by rewrite (peq_proper p p' q E), IH. Qed.

Lemma missing_orders b prices A :
  book_ok b A ->
  Forall (fun ox : Order * Z => ox.1 ∈ resting A /\ 0 <= ox.2 <= rem ox.1 /\
    existsb (peq (Order.price ox.1)) prices = false) (amissing prices A).
Proof.
  intros [_ Hl _]. apply Forall_forall. intros ox ([k os] & Hox & Hk)%list_elem_of_bind.
  simpl in Hox. destruct (existsb (peq k) prices) eqn:E; [by apply not_elem_of_nil in Hox|].
  apply list_elem_of_fmap in Hox as (o & -> & Ho). rewrite Forall_forall in Hl.
  destruct (Hl _ Hk) as [Hos _ _ _]. rewrite Forall_forall in Hos.
  destruct (Hos _ Ho) as [_ Hp Hs]. pose proof (rem_nonneg o Hs). simpl in *.
  split; [by apply list_elem_of_bind; exists (k, os)|]. split; [lia|].
  by rewrite (existsb_price _ k).
Qed.

Lemma missing_sublist prices A : sublist (amissing prices A).*1 (resting A).
Proof.
  induction A as [|[k os] A IH]; [done|].
  change (amissing prices ((k, os) :: A)) with
    ((if existsb (peq k) prices then [] else (fun o => (o, rem o)) <$> os) ++ amissing prices A).
  rewrite resting_cons, fmap_app. destruct (existsb (peq k) prices); [by apply sublist_inserts_l|].
  apply sublist_app; [|done]. by rewrite <- list_fmap_compose, list_fmap_id.
Qed.

Lemma missing_accounts b prices A p :
  Forall (level_ok b) A ->
  planned p (amissing prices A) = if existsb (peq p) prices then 0 else at_price p A.
Proof.
  induction 1 as [|[k os] A [Ho _ _ _] HA IH]; [by destruct (existsb _ _)|].
  change ((k, os) :: A) with ([(k, os)] ++ A) at 2. rewrite at_price_app, (at_price_level b) by done.
  change (amissing prices ((k, os) :: A)) with
    ((if existsb (peq k) prices then [] else (fun o => (o, rem o)) <$> os) ++ amissing prices A).
  rewrite planned_app, IH. simpl in Ho. clear IH.
  assert (planned p ((fun o => (o, rem o)) <$> os) = if peq k p then total os else 0) as Hp.
  { rewrite (planned_level p k).
    - unfold zsum. by rewrite foldr_fmap.
    - apply Forall_fmap. eapply Forall_impl; [exact Ho|]. by intros o [_ ? _]. }
  destruct (peq k p) eqn:E.
  - apply peq_equiv in E. rewrite (existsb_price k p) by done.
    destruct (existsb (peq p) prices); [rewrite planned_nil; lia|rewrite Hp; lia].
  - destruct (existsb (peq k) prices); [rewrite planned_nil|rewrite Hp];
      destruct (existsb (peq p) prices); lia.
Qed.

(** ** The result *)

Lemma listed_find b p side :
  existsb (peq p) (L2Level.price <$> side) =
  match map_find (side_comp b) p (quotes side) with Some _ => true | None => false end.
Proof.
  induction side as [|l side IH]; [done|].
  change (quotes (l :: side)) with ((L2Level.price l, L2Level.quantity l) :: quotes side).
  rewrite fmap_cons. cbn [existsb map_find]. rewrite (same_key_rank (side_comp b)), IH. simpl rank.
  destruct (peq p (L2Level.price l)) eqn:E; simpl.
  - apply peq_equiv, (side_rank_equiv b) in E. by rewrite E, Z.eqb_refl.
  - rewrite (proj2 (Z.eqb_neq _ _)); [done|]. intros E'%side_rank_equiv%peq_equiv. congruence.
Qed.

Lemma listed_elem p l (side : L2SnapshotSide) :
  l ∈ side -> p ≡ L2Level.price l -> existsb (peq p) (L2Level.price <$> side) = true.
Proof.
  intros Hl E. apply existsb_exists. exists (L2Level.price l). split; [|by apply peq_equiv].
  apply list_elem_of_In. by apply list_elem_of_fmap_2.
Qed.

Lemma removals_ok b side A :
  adapt_pre b 100 side A -> plan_ok (adapted b 100 side A) (removals b side A).
Proof.
  intros Hpre. destruct (adapted_post _ _ _ _ Hpre) as [Hok _ _ Hcuts Hprices Hnd].
  pose proof (missing_orders b (L2Level.price <$> side) _ Hok) as Hmiss. split.
  - apply Forall_app; split; [done|]. eapply Forall_impl; [exact Hmiss|]. by intros ox (? & ? & _).
  - unfold removals. rewrite !fmap_app. apply NoDup_app. split; [done|]. split.
    + rewrite Forall_forall in Hcuts, Hprices, Hmiss. intros id H1 H2.
      apply list_elem_of_fmap in H1 as (o & -> & (ox & -> & H1)%list_elem_of_fmap).
      apply list_elem_of_fmap in H2 as (o' & E & (ox' & -> & H2)%list_elem_of_fmap).
      destruct (Hcuts _ H1) as [Hin1 _]. destruct (Hmiss _ H2) as (Hin2 & _ & Hno).
      destruct (Hprices _ H1) as (l & Hl & Hk).
      apply (NoDup_ids_inj _ _ _ (bk_ids _ _ Hok) Hin1 Hin2) in E. rewrite <- E in Hno.
      by rewrite (listed_elem _ _ _ Hl Hk) in Hno.
    + eapply sublist_NoDup; [apply (bk_ids _ _ Hok)|]. apply fmap_sublist, missing_sublist.
Qed.

Lemma cuts_listed b id side A p :
  adapt_pre b id side A -> existsb (peq p) (L2Level.price <$> side) = false ->
  planned p (cuts b id side A) = 0.
Proof.
  intros Hpre Hno. destruct (adapted_post _ _ _ _ Hpre) as [_ _ _ _ Hprices _].
  induction Hprices as [|[o x] pl (l & Hl & Hk) H IH]; [done|].
  unfold planned in *. rewrite zsum_cons, IH. simpl in *.
  destruct (peq (Order.price o) p) eqn:E; [|done]. apply peq_equiv in E.
  rewrite (listed_elem p l) in Hno; [done..|]. by rewrite <- E.
Qed.

(** After the snapshot the book is well formed, and at every price it has what
    the snapshot lists. *)
Lemma afollow_spec b side A :
  adapt_pre b 100 side A ->
  book_ok b (afollow b side A) /\ live (afollow b side A) /\
  forall p, at_price p (afollow b side A) = count (side_comp b) p (quotes side).
Proof.
  intros Hpre. destruct (adapted_post _ _ _ _ Hpre) as [Hok Hlive _ _ _ _].
  destruct (areduces_spec b _ _ Hok Hlive (removals_ok _ _ _ Hpre)) as (H1 & H2 & H3 & _).
  split_and!; [done..|]. intros p. unfold afollow. rewrite H3. unfold removals.
  rewrite planned_app, (missing_accounts b) by apply Hok.
  pose proof (adapt_accounts b 100 side A p Hpre) as Hacc. unfold wanted, count in *.
  destruct (existsb (peq p) (L2Level.price <$> side)) eqn:E.
  - rewrite (listed_find b) in E. destruct (map_find _ p (quotes side)); [|done]. simpl in *. lia.
  - rewrite (cuts_listed b 100 side A p Hpre E).
    rewrite (listed_find b) in E. destruct (map_find _ p (quotes side)); [done|]. simpl in *. lia.
Qed.

Lemma arranged_cons b l side :
  arranged b (l :: side) =
  map_assign (side_comp b) (L2Level.price l) (L2Level.quantity l) (arranged b side).
Proof. done. Qed.

Lemma arranged_sorted b side : sorted (side_comp b) (arranged b side).
Proof.
  induction side as [|l side IH]; [constructor|]. by apply (sorted_assign (side_comp b)).
Qed.

Lemma arranged_count b p side :
  count (side_comp b) p (arranged b side) = count (side_comp b) p (quotes side).
Proof.
  induction side as [|l side IH]; [done|].
  change (quotes (l :: side)) with ((L2Level.price l, L2Level.quantity l) :: quotes side).
  rewrite arranged_cons. by rewrite (count_assign (side_comp b)), (count_cons (side_comp b)), <- IH.
Qed.

(** A snapshot that is in order already. *)
Lemma best_first_sorted b side :
  sorted (side_comp b) (quotes side) -> best_first b side = side.
Proof.
  intros Hs. unfold best_first. assert (arranged b side = quotes side) as ->.
  - induction side as [|l side IH]; [done|].
    change (quotes (l :: side)) with ((L2Level.price l, L2Level.quantity l) :: quotes side) in *.
    apply (sorted_cons (side_comp b)) in Hs as [Hs Hlt].
    rewrite arranged_cons, (IH Hs). apply (assign_between (side_comp b) _ _ []); [|exact Hlt].
    by intros x ?%not_elem_of_nil.
  - unfold quotes. rewrite <- list_fmap_compose. rewrite <- (list_fmap_id side) at 2.
    apply list_fmap_ext. by intros i [].
Qed.

(** The view as a map without zeros. *)
Lemma live_levels b A :
  book_ok b A -> live A ->
  Forall (fun x : Price * Z => x.2 <> 0) ((fun ko => (ko.1, total ko.2)) <$> A).
Proof.
  intros [_ Hl _] Hlive. apply Forall_fmap, Forall_forall. intros [k os] Hin. simpl.
  rewrite Forall_forall in Hl. destruct (Hl _ Hin) as [_ Hne _ _]. simpl in Hne.
  assert (Forall (fun o => 0 < rem o) os) as Hpos.
  { unfold live, resting in Hlive. rewrite Forall_forall in Hlive |- *. intros o Ho.
    apply Hlive, list_elem_of_bind. by exists (k, os). }
  destruct os as [|o os]; [done|]. pose proof (live_length _ Hpos). simpl length in *. lia.
Qed.

(** The book shows the snapshot. *)
Lemma afollow_view b side A :
  adapt_pre b 100 side A -> l2_view (afollow b side A) ≡ best_first b side.
Proof.
  intros Hpre. destruct (afollow_spec b side A Hpre) as (Hok & Hlive & Hat).
  set (A' := afollow b side A) in *.
  assert (Forall2 (fun x y : Price * Z => side_rank b x.1 = side_rank b y.1 /\ x.2 = y.2)
    ((fun ko => (ko.1, total ko.2)) <$> A') (arranged b side)) as H.
  { eapply Forall2_impl; [apply (counts_ext (side_comp b))|by intros x y].
    - eapply sorted_same_keys; [|apply (bk_sorted _ _ Hok)]. by rewrite <- list_fmap_compose.
    - apply arranged_sorted.
    - by apply (live_levels b).
    - pose proof (ad_qty _ _ _ _ Hpre) as Hq. clear -Hq.
      induction Hq as [|l side Hl Hq IH]; [constructor|]. rewrite arranged_cons.
      apply (values_assign (side_comp b) (fun q => q <> 0)); [exact IH|lia].
    - intros p. rewrite arranged_count, <- Hat, (at_price_queue b) by done. unfold count, queue_at.
      rewrite find_fmap. by destruct (map_find (side_comp b) p A'). }
  unfold l2_view, best_first. apply list_equiv_Forall2, Forall2_fmap_l, Forall2_fmap_r.
  rewrite Forall2_fmap_l in H. eapply Forall2_impl; [exact H|]. intros [k os] l [E1 E2]. simpl in *.
  split; [by apply (side_rank_equiv b)|done].
Qed.

(** The account over all prices. *)
Lemma adds_total b id side A :
  adapt_pre b id side A ->
  total_of (adapted b id side A) = total_of A + zsum Common.quantity (adds b id side A).
Proof.
  revert side id A. apply (aadapt_ind b (fun _ _ A A' ev _ =>
    total_of A' = total_of A + zsum Common.quantity ev)); [|intros id l side A A' ev pl Hpre Hl IH|done].
  - intros id A _. rewrite zsum_nil. lia.
  - rewrite IH, zsum_cons, total_of_aadd, rem_guessed by apply (ad_ok _ _ _ _ Hpre). simpl. lia.
Qed.

Lemma afollow_total b side A :
  adapt_pre b 100 side A ->
  total_of (afollow b side A) =
  total_of A + zsum Common.quantity (adds b 100 side A) - zsum snd (removals b side A).
Proof.
  intros Hpre. destruct (adapted_post _ _ _ _ Hpre) as [Hok Hlive _ _ _ _].
  destruct (areduces_spec b _ _ Hok Hlive (removals_ok _ _ _ Hpre)) as (_ & _ & _ & H).
  unfold afollow. by rewrite H, adds_total.
Qed.

Lemma adds_kind b side : forall id A, Forall (fun e => Common.event e = ADD) (adds b id side A).
Proof.
  induction side as [|l side IH]; intros id A; [done|]. cbn [aadapt].
  destruct (0 <? lack b l A).
  - specialize (IH (id + 1) (aadd b (guessed b id l A) A)). destruct (aadapt _ _ side _) as [[A' ev] pl].
    by constructor.
  - specialize (IH id A). by destruct (aadapt _ _ side _) as [[A' ev] pl].
Qed.
