(* ===== verification/Follow.v ===== *)
(** * Snapshots that lead: [BookSide::processL2Snapshot] with an empty queue

    The loops of the code refine [aadapt], [amissing] and [areduces] of Adapt.v
    and Resolve.v: the side ends up representing [afollow], whose view is the
    snapshot. *)

From S2P Require Import Prelude Outcome StdMap Price Common Order L2Level Level Messages BookSide.
From S2P Require Import BookSpec Matching SideRep Crossed PendingLiq TradeSide ModifySide.
From S2P Require Import Resolve Adapt.

(** ** Reading the side *)

Lemma cells_hold m s A :
  side_rep m s A -> Forall2 (fun c o => holds m s c.2 o) (cells (levels_ s)) (resting A).
Proof.
  intros [_ _ [Hh _ _ Hm _] _]. apply Forall2_same_length_lookup.
  apply Forall2_same_length_lookup in Hh as [Hlen Hh]. split; [done|].
  intros i [n p] o Hc Ho. split; [by apply (Hh i _ _ Hc Ho)|]. exists n. apply Hm.
  apply list_elem_of_lookup. exists i. unfold bindings. by rewrite lookup_zip_with, Hc, Ho.
Qed.

Lemma find_level m s A p :
  side_rep m s A ->
  match map_find (side_comp (is_sell_ s)) p A with
  | None => existLevel s p = false
  | Some os => exists l, existLevel s p = true /\ getL3Level s p = (l, s) /\
      Level.quantity l = total os /\ Forall2 (fun c o => holds m s c.2 o) (Level.orders l) os
  end.
Proof.
  intros Hrep. pose proof (cells_hold _ _ _ Hrep) as Hcells.
  pose proof (rep_sorted _ _ _ Hrep) as Hsort. pose proof Hrep as [Hc HL _ _].
  destruct (map_find _ p A) as [os|] eqn:E.
  - apply (sorted_find_split (side_comp (is_sell_ s))) in E as (A1 & k & A2 & -> & E).
    apply side_rank_equiv in E. apply same_level_split in HL as (L1 & l & L2 & EL & HL1 & Hl & HL2).
    exists l. rewrite (getL3Level_middle s L1 k l L2) by done. split_and!; [|done|apply Hl|].
    + unfold existLevel. rewrite Hc, EL in *.
      by rewrite (find_middle (side_comp (is_sell_ s))); [|done|apply side_rank_equiv].
    + rewrite EL, cells_app, cells_cons, resting_app, resting_cons in Hcells.
      apply Forall2_app_inv in Hcells as [_ Hcells]; [|by apply same_level_cells].
      apply Forall2_app_inv in Hcells as [Hcells _]; [done|apply Hl].
  - unfold existLevel. rewrite Hc, (proj2 (find_None (side_comp (is_sell_ s)) p _)); [done|].
    pose proof (proj1 (find_None (side_comp (is_sell_ s)) p _) E) as Hne.
    by apply (same_level_bound (is_sell_ s) _ _ HL (fun z => z <> side_rank (is_sell_ s) p)).
Qed.

(** A pending removal and the entry of the plan it stands for. *)
Definition stands_for (m : Store) (s : BookSide) (pq : OrderPtr * Quantity) (ox : Order * Z) : Prop :=
  pq.2 = ox.2 /\ holds m s pq.1 ox.1.

Lemma pending_from_level_ok m s C os rest :
  Forall2 (fun c o => holds m s c.2 o) C os -> Forall order_sane os -> 0 <= rest <= INT_MAX ->
  exists ps, pending_from_level m C rest = Ok ps /\ Forall2 (stands_for m s) ps (atake rest os).
Proof.
  intros H. revert rest. induction H as [|[n p] o C os Hh H IH]; intros rest Hs Hr; simpl.
  { by exists []. }
  apply Forall_cons in Hs as [Ho Hs]. zcase; [by exists []|].
  pose proof (rem_nonneg o Ho) as Hrem. simpl in Hh.
  rewrite (deref_ok _ _ _ (proj1 Hh)), bind_ok, (getRemainingQuantity_ok _ Ho), bind_ok.
  rewrite isub_ok, bind_ok by range.
  destruct (IH (rest - Z.min rest (rem o)) Hs ltac:(lia)) as (ps & -> & Hps).
  rewrite bind_ok. eexists. split; [done|]. by constructor.
Qed.

Lemma pending_whole_level_ok m s C os :
  Forall2 (fun c o => holds m s c.2 o) C os -> Forall order_sane os ->
  exists ps, pending_whole_level m C = Ok ps /\
    Forall2 (stands_for m s) ps ((fun o => (o, rem o)) <$> os).
Proof.
  induction 1 as [|[n p] o C os Hh H IH]; intros Hs; simpl; [by exists []|].
  apply Forall_cons in Hs as [Ho Hs]. simpl in Hh.
  rewrite (deref_ok _ _ _ (proj1 Hh)), bind_ok, (getRemainingQuantity_ok _ Ho), bind_ok.
  destruct (IH Hs) as (ps & -> & Hps). rewrite bind_ok. eexists. split; [done|]. by constructor.
Qed.

(** The second loop. *)
Lemma missing_levels_ok m s prices L A :
  Forall2 same_level L A -> Forall2 (fun c o => holds m s c.2 o) (cells L) (resting A) ->
  Forall order_sane (resting A) ->
  exists ps, missing_levels m prices L = Ok ps /\ Forall2 (stands_for m s) ps (amissing prices A).
Proof.
  induction 1 as [|[k l] [k' os] L A [E Hl] H IH]; intros Hc Hs; simpl; [by exists []|].
  simpl in E, Hl; subst k'. rewrite cells_cons, resting_cons in Hc. rewrite resting_cons in Hs.
  apply Forall2_app_inv in Hc as [Hc1 Hc2]; [|apply Hl]. apply Forall_app in Hs as [Hs1 Hs2].
  destruct (IH Hc2 Hs2) as (ps2 & -> & Hps2).
  change (amissing prices ((k, os) :: A)) with
    ((if existsb (peq k) prices then [] else (fun o => (o, rem o)) <$> os) ++ amissing prices A).
  destruct (existsb (peq k) prices).
  - rewrite !bind_ok. by exists ps2.
  - destruct (pending_whole_level_ok m s _ _ Hc1 Hs1) as (ps1 & -> & Hps1).
    rewrite !bind_ok. exists (ps1 ++ ps2). split; [done|]. by apply Forall2_app.
Qed.

(** ** Adding guessed liquidity *)

(** What the first loop does besides: pending additions grow by [q]. *)
Record grown (q : Z) (m : Store) (s : BookSide) (m' : Store) (s' : BookSide) : Prop := {
  gr_own : own_writes (is_sell_ s) m m';
  gr_holds : forall p o, holds m s p o -> holds m' s' p o;
  gr_side : is_sell_ s' = is_sell_ s;
  gr_queue : l2_snap_queue_ s' = l2_snap_queue_ s;
  gr_remove : pending_liq_remove_qty_ s' = pending_liq_remove_qty_ s;
  gr_add : pending_add_ok s';
  gr_total : zsum snd (pending_liq_add_qty_ s') = zsum snd (pending_liq_add_qty_ s) + q }.

Lemma grown_refl m s : pending_add_ok s -> grown 0 m s m s.
Proof. intros H. split; try done. lia. Qed.

Lemma grown_trans q1 q2 m1 s1 m2 s2 m3 s3 :
  grown q1 m1 s1 m2 s2 -> grown q2 m2 s2 m3 s3 -> grown (q1 + q2) m1 s1 m3 s3.
Proof.
  intros [H1 H2 H3 H4 H5 H6 H7] [K1 K2 K3 K4 K5 K6 K7]. rewrite H3 in *.
  split; try congruence; [by etransitivity|auto|lia].
Qed.

Lemma addOrder_map m s p o m' s' :
  addOrder m s p = Ok (m', s') -> heap m !! p = Some o -> existOrder s (Order.odid o) = false ->
  exists h, order_map_ s' = <[Order.odid o := h]> (order_map_ s).
Proof.
  unfold addOrder. intros H Hp Hex. rewrite (deref_ok _ _ _ Hp), bind_ok, Hex in H.
  destruct (c_assert _); [|done]. rewrite bind_ok in H.
  unfold getL3Level in H. destruct (map_index _ _ _ _) as [l ls].
  destruct (Level.addOrder _ _ _) as [[[m1 l1] it]|]; [|done]. rewrite bind_ok in H.
  injection H as _ <-. by eexists.
Qed.

(** A fresh order joins the side. *)
Lemma place_new m s A o :
  side_rep m s A -> Order.is_sell o = is_sell_ s -> order_sane o -> Order.odid o ∉ ids A ->
  has_room (is_sell_ s) o A ->
  let '(p, m1) := make_shared m o in
  exists m' s', addOrder m1 s p = Ok (m', s') /\ side_rep m' s' (aadd (is_sell_ s) o A) /\
    same_aux s s' /\ own_writes (is_sell_ s) m m' /\ (forall q o', holds m s q o' -> holds m' s' q o').
Proof.
  intros Hrep Hside Hsane Hid Hroom. unfold make_shared. set (m1 := mkStore _ _).
  assert (forall q, (q < next m)%positive -> heap m1 !! q = heap m !! q) as Hkeep.
  { intros q Hlt. simpl. rewrite lookup_insert_ne; [done|lia]. }
  assert (side_rep m1 s A) as Hrep1.
  { eapply rep_frame; [exact Hrep|simpl; lia|]. intros p Hp. apply Hkeep.
    by eapply rep_pointer_fresh. }
  assert (heap m1 !! next m = Some o) as Hnew by (simpl; by rewrite lookup_insert_eq).
  destruct (addOrder_rep m1 s A (next m) o Hrep1) as (s' & Hadd & Haux & Hrep2); try done.
  { simpl. lia. }
  { intros Hp. pose proof (rep_pointer_fresh _ _ _ _ Hrep Hp). lia. }
  eexists _, s'. split; [exact Hadd|]. split_and!; [done|done| |].
  - split; [simpl; lia|]. intros q oq Hq Hlt _. simpl. by rewrite lookup_insert_ne by lia.
  - intros q o' Hh. pose proof (holds_resting _ _ _ _ _ Hrep Hh) as Hin.
    pose proof (holds_fresh _ _ _ _ _ Hrep Hh) as Hlt. destruct Hh as [Hq [n Hn]]. split.
    + simpl. by rewrite lookup_insert_ne by lia.
    + apply addOrder_map with (o := o) in Hadd as [h ->]; [|done|by eapply existOrder_false].
      exists n. rewrite lookup_insert_ne; [done|]. intros E. apply Hid. rewrite E.
      unfold ids. by apply list_elem_of_fmap_2.
Qed.

(** [snapshot_add]: note the addition and place the guessed order. *)
Lemma snapshot_add_rep m s A id price qty ev :
  side_rep m s A -> pending_add_ok s -> 0 < qty <= INT_MAX ->
  zsum snd (pending_liq_add_qty_ s) + qty <= INT_MAX -> 0 <= id < INT_MAX -> id ∉ ids A ->
  has_room (is_sell_ s) (new_Order id (is_sell_ s) qty price) A ->
  exists m' s', snapshot_add m s id price qty ev =
      Ok (m', s', id + 1, ev ++ [mkOrderInfo ADD (-1) (is_sell_ s) qty price]) /\
    side_rep m' s' (aadd (is_sell_ s) (new_Order id (is_sell_ s) qty price) A) /\
    grown qty m s m' s'.
Proof.
  intros Hrep Hpend Hq Hroom Hid Hnew Hspace. pose proof Hpend as [Hc Hs Hn _].
  pose proof (count_bounds (is_sell_ s) price _ Hn) as Hb.
  unfold snapshot_add, map_add. rewrite Hc, (iadd_ok (count _ price _) qty), !bind_ok by range.
  set (pa := map_assign _ _ _ _). set (s1 := with_pending_add s pa).
  rewrite (iadd_ok id 1), bind_ok by range.
  pose proof (place_new m s1 A (new_Order id (is_sell_ s) qty price)
    (rep_pending_add _ _ _ pa Hrep) eq_refl ltac:(split; simpl; lia) Hnew Hspace) as Hplace.
  change (is_sell_ s1) with (is_sell_ s). destruct (make_shared m _) as [p m1].
  destruct Hplace as (m' & s' & -> & Hrep' & [E1 E2 E3 E4 E5] & Hown & Hholds).
  rewrite bind_ok. exists m', s'. split_and!; [done|done|]. split; try done.
  - eapply pending_add_ok_same; [exact E1|exact E2|exact E5|].
    apply pending_add_ok_with; [done|by apply (sorted_assign (side_comp (is_sell_ s)))|
      by apply nonneg_assign; [|lia]|]. unfold pa. by rewrite (zsum_assign (is_sell_ s)).
  - rewrite E5. simpl. unfold pa. by rewrite (zsum_assign (is_sell_ s)).
Qed.

(** ** The first loop *)

Lemma queue_at_found b p A os : map_find (side_comp b) p A = Some os -> queue_at b p A = os.
Proof. intros E. unfold queue_at. by rewrite E. Qed.

Lemma queue_at_none b p A : map_find (side_comp b) p A = None -> queue_at b p A = [].
Proof. intros E. unfold queue_at. by rewrite E. Qed.

Lemma stands_for_grown g m s m' s' ps pl :
  grown g m s m' s' -> Forall2 (stands_for m s) ps pl -> Forall2 (stands_for m' s') ps pl.
Proof.
  intros Hg H. eapply Forall2_impl; [exact H|]. intros pq ox [E Hh]. split; [done|].
  by eapply gr_holds.
Qed.

(** A level of which the snapshot shows more. *)
Lemma turn_add m s A id l side pending ev :
  side_rep m s A -> adapt_pre (is_sell_ s) id (l :: side) A -> 0 < lack (is_sell_ s) l A ->
  snapshot_levels m s id (l :: side) pending ev =
    ('(m, s, next_id, events) ← snapshot_add m s id (L2Level.price l) (lack (is_sell_ s) l A) ev;
     snapshot_levels m s next_id side pending events).
Proof.
  intros Hrep [Hok Hlive _ Hq _] Hlack. apply Forall_cons in Hq as [Hq _].
  pose proof (find_level m s A (L2Level.price l) Hrep) as Hfind.
  pose proof (queue_at_total (is_sell_ s) (L2Level.price l) A (rep_resting_sane _ _ _ Hrep) Hlive)
    as [_ Hlen]. cbn [snapshot_levels]. unfold lack in *.
  destruct (map_find _ _ A) as [os|] eqn:E.
  - rewrite (queue_at_found _ _ _ _ E) in *. destruct Hfind as (lv & -> & -> & Etot & _).
    rewrite Etot, (proj2 (Z.ltb_ge _ _)), (proj2 (Z.ltb_lt _ _)), isub_ok, bind_ok by (range || lia).
    done.
  - rewrite Hfind, (queue_at_none _ _ _ E). by rewrite Z.sub_0_r.
Qed.

(** A level of which it does not. *)
Lemma turn_cut m s A id l side pending ev :
  side_rep m s A -> adapt_pre (is_sell_ s) id (l :: side) A -> lack (is_sell_ s) l A <= 0 ->
  exists ps, Forall2 (stands_for m s) ps
      (atake (- lack (is_sell_ s) l A) (queue_at (is_sell_ s) (L2Level.price l) A)) /\
    snapshot_levels m s id (l :: side) pending ev =
      snapshot_levels m s id side (pending ++ ps) ev.
Proof.
  intros Hrep [Hok Hlive _ Hq _] Hlack. apply Forall_cons in Hq as [Hq _].
  pose proof (find_level m s A (L2Level.price l) Hrep) as Hfind.
  cbn [snapshot_levels]. unfold lack in *. destruct (map_find _ _ A) as [os|] eqn:E.
  2: { rewrite (queue_at_none _ _ _ E) in Hlack. change (total []) with 0 in Hlack. lia. }
  pose proof (queue_at_total (is_sell_ s) (L2Level.price l) A (rep_resting_sane _ _ _ Hrep) Hlive)
    as [_ Hlen].
  assert (total os <= INT_MAX) as Hmax.
  { apply (sorted_find_split (side_comp (is_sell_ s))) in E as (A1 & k & A2 & -> & _).
    apply (lv_total _ _ (book_level _ _ _ _ _ Hok)). }
  assert (Forall order_sane os) as Hsane.
  { apply Forall_forall. intros o Ho. rewrite <- (queue_at_found _ _ _ _ E) in Ho.
    by eapply queue_at_elem. }
  rewrite (queue_at_found _ _ _ _ E) in *. destruct Hfind as (lv & -> & -> & Etot & Hcells).
  rewrite Etot, (proj2 (Z.ltb_ge (total os) _)) by lia.
  destruct (Z.ltb_spec (L2Level.quantity l) (total os)).
  - rewrite isub_ok, bind_ok by range.
    destruct (pending_from_level_ok m s _ _ (total os - L2Level.quantity l) Hcells Hsane)
      as (ps & -> & Hps); [lia|].
    rewrite bind_ok. exists ps. split; [|done].
    by replace (- _) with (total os - L2Level.quantity l) by lia.
  - exists []. rewrite app_nil_r. split; [|done].
    replace (- _) with 0 by lia. destruct os; constructor.
Qed.

Lemma snapshot_levels_rep side : forall m s A id pending ev,
  side_rep m s A -> pending_add_ok s -> adapt_pre (is_sell_ s) id side A ->
  0 <= id -> id + Z.of_nat (length side) <= INT_MAX ->
  zsum snd (pending_liq_add_qty_ s) + zsum L2Level.quantity side <= INT_MAX ->
  exists m' s' ps, snapshot_levels m s id side pending ev =
      Ok (m', s', pending ++ ps, ev ++ adds (is_sell_ s) id side A) /\
    side_rep m' s' (adapted (is_sell_ s) id side A) /\
    grown (zsum Common.quantity (adds (is_sell_ s) id side A)) m s m' s' /\
    Forall2 (stands_for m' s') ps (cuts (is_sell_ s) id side A).
Proof.
  induction side as [|l side IH]; intros m s A id pending ev Hrep Hpend Hpre Hid Hmax Hroom.
  { exists m, s, []. simpl. rewrite !app_nil_r. split_and!; [done|done|by apply grown_refl|done]. }
  pose proof (ad_qty _ _ _ _ Hpre) as [Hq Hqs]%Forall_cons.
  rewrite zsum_cons in Hroom. simpl length in Hmax. cbn [aadapt].
  assert (0 <= zsum L2Level.quantity side) as Hpos.
  { apply zsum_nonneg. eapply Forall_impl; [exact Hqs|]. simpl. lia. }
  destruct (Z.ltb_spec 0 (lack (is_sell_ s) l A)) as [Hl|Hl].
  - destruct (guessed_room _ _ _ _ _ Hpre Hl) as (Hsane & Hnew & Hspace).
    assert (lack (is_sell_ s) l A <= L2Level.quantity l) as Hle.
    { destruct (queue_at_total (is_sell_ s) (L2Level.price l) A (rep_resting_sane _ _ _ Hrep)
        (ad_live _ _ _ _ Hpre)) as [_ Hlen]. unfold lack. lia. }
    rewrite (turn_add _ _ A) by done.
    destruct (snapshot_add_rep m s A id (L2Level.price l) (lack (is_sell_ s) l A) ev)
      as (m1 & s1 & -> & Hrep1 & Hg1); try done; try lia.
    rewrite bind_ok. cbv beta iota. pose proof (adapt_pre_add _ _ _ _ _ Hpre Hl) as Hpre1.
    pose proof (gr_side _ _ _ _ _ Hg1) as Eb. rewrite <- Eb in Hpre1.
    destruct (IH m1 s1 (aadd (is_sell_ s) (guessed (is_sell_ s) id l A) A) (id + 1) pending
      (ev ++ [mkOrderInfo ADD (-1) (is_sell_ s) (lack (is_sell_ s) l A) (L2Level.price l)]))
      as (m2 & s2 & ps & -> & Hrep2 & Hg2 & Hps).
    { done. } { apply Hg1. } { by rewrite Eb in *. } { lia. } { lia. }
    { rewrite (gr_total _ _ _ _ _ Hg1). lia. }
    rewrite Eb in *. exists m2, s2, ps. destruct (aadapt _ _ side _) as [[A' ev'] pl].
    rewrite <- app_assoc. split_and!; [done|done| |done]. cbn [fst snd] in *. rewrite zsum_cons.
    by eapply grown_trans.
  - destruct (turn_cut m s A id l side pending ev Hrep Hpre Hl) as (ps1 & Hps1 & ->).
    destruct (IH m s A id (pending ++ ps1) ev) as (m2 & s2 & ps2 & -> & Hrep2 & Hg2 & Hps2);
      try done; try lia; [by eapply adapt_pre_cut|].
    exists m2, s2, (ps1 ++ ps2). destruct (aadapt _ _ side _) as [[A' ev'] pl].
    rewrite <- app_assoc. split_and!; [done|done|done|].
    apply Forall2_app; [by eapply stands_for_grown|done].
Qed.

(** ** The whole operation *)

(** A snapshot that leads: nothing is expected, the snapshot is well formed and
    fits, and no id that may be invented is in use. *)
Record lead_pre (m : Store) (s : BookSide) (A : abook) (side : L2SnapshotSide) : Prop := {
  lp_rep : side_rep m s A;
  lp_queue : l2_snap_queue_ s = [];
  lp_pending : pending_add_ok s;
  lp_adapt : adapt_pre (is_sell_ s) 100 side A;
  lp_length : 100 + Z.of_nat (length side) <= INT_MAX;
  lp_room : zsum snd (pending_liq_add_qty_ s) + zsum L2Level.quantity side <= INT_MAX }.

(** The events: the guessed additions, then the guessed removals. *)
Definition follow_events (b : bool) (side : L2SnapshotSide) (A : abook) : OrderInfoVec :=
  adds b 100 side A ++ removal_events b (length (removals b side A)) 0 (removals b side A).

Record has_followed (A : abook) (side : L2SnapshotSide) (m : Store) (s : BookSide)
    (m' : Store) (s' : BookSide) : Prop := {
  hf_rep : side_rep m' s' (afollow (is_sell_ s) side A);
  hf_live : live (afollow (is_sell_ s) side A);
  hf_view : l2_side s' ≡ best_first (is_sell_ s) side;
  hf_own : own_writes (is_sell_ s) m m';
  hf_side : is_sell_ s' = is_sell_ s;
  hf_queue : l2_snap_queue_ s' = [];
  hf_remove : pending_liq_remove_qty_ s' = pending_liq_remove_qty_ s;
  hf_add : pending_add_ok s';
  hf_total : zsum snd (pending_liq_add_qty_ s') =
    zsum snd (pending_liq_add_qty_ s) + zsum Common.quantity (adds (is_sell_ s) 100 side A) }.

Lemma plan_of_stands m s A ps pl :
  Forall2 (stands_for m s) ps pl -> plan_ok A pl -> plan_of m s ps pl.
Proof.
  intros H [Hpl Hnd]. split; [|done]. induction H as [|pq ox ps pl [E Hh] H IH]; [done|].
  apply Forall_cons in Hpl as [[_ Hx] Hpl]. rewrite !fmap_cons in Hnd.
  apply NoDup_cons in Hnd as [_ Hnd]. constructor; [done|by apply IH].
Qed.

Lemma processL2Snapshot_rep m s A side :
  lead_pre m s A side ->
  exists m' s', processL2Snapshot m s side = Ok (m', s', follow_events (is_sell_ s) side A) /\
    has_followed A side m s m' s'.
Proof.
  intros [Hrep Hqueue Hpend Hpre Hlen Hroom]. unfold processL2Snapshot. rewrite Hqueue.
  destruct (snapshot_levels_rep side m s A 100 [] [] Hrep Hpend Hpre ltac:(lia) Hlen Hroom)
    as (m1 & s1 & ps1 & -> & Hrep1 & Hg & Hps1).
  rewrite bind_ok. cbv beta iota. pose proof Hg as [Hown1 _ Eb1 Eq1 Er1 Hpend1 Et1].
  destruct (missing_levels_ok m1 s1 (L2Level.price <$> side) _ _ (sr_levels _ _ _ Hrep1)
    (cells_hold _ _ _ Hrep1) (rep_resting_sane _ _ _ Hrep1)) as (ps2 & -> & Hps2).
  rewrite bind_ok. simpl app.
  pose proof (Forall2_app Hps1 Hps2) as Hps. fold (removals (is_sell_ s) side A) in Hps.
  pose proof (plan_of_stands _ _ _ _ _ Hps (removals_ok _ _ _ Hpre)) as Hplan.
  rewrite (Forall2_length _ _ _ Hps).
  destruct (resolve_pending_rep (length (removals (is_sell_ s) side A)) (ps1 ++ ps2) m1 s1 _ _ 0
    (adds (is_sell_ s) 100 side A) Hrep1 Hplan) as (m2 & s2 & Hrun & Hrep2 & Haux & Hown2).
  exists m2, s2. rewrite Hrun, Eb1. split; [done|]. rewrite Eb1 in *.
  destruct (afollow_spec _ _ _ Hpre) as (_ & Hlive & _). destruct Haux as [E1 E2 E3 E4 E5].
  split; try congruence.
  - done.
  - rewrite (rep_l2_side _ _ _ Hrep2). by apply afollow_view.
  - by etransitivity.
  - by eapply pending_add_ok_same.
Qed.

(** ** Which removals are guessed executed *)

(** No level that the snapshot lists shows less than the book holds there. *)
Definition lowers_no_level (side : L2SnapshotSide) (A : abook) : Prop :=
  Forall (fun l => at_price (L2Level.price l) A <= L2Level.quantity l) side.

Lemma no_cuts b side id A :
  adapt_pre b id side A -> lowers_no_level side A -> cuts b id side A = [].
Proof.
  revert side id A. apply (aadapt_ind b (fun _ side A _ _ pl => lowers_no_level side A -> pl = [])); [done| |].
  - intros id l side A A' ev pl Hpre Hl IH [Hq Hall]%Forall_cons. apply IH.
    apply Forall_forall. intros l' Hl'. unfold lowers_no_level in Hall. rewrite Forall_forall in Hall.
    pose proof (distinct_head l side l' (ad_distinct _ _ _ _ Hpre) Hl') as Hne.
    rewrite (at_price_aadd b) by apply (ad_ok _ _ _ _ Hpre). simpl.
    destruct (peq _ _) eqn:E; [by apply peq_equiv in E|]. by apply Hall.
  - intros id l side A A' ev pl Hpre Hl IH [Hq Hall]%Forall_cons. rewrite (IH Hall), app_nil_r.
    rewrite (at_price_queue b) in Hq by apply (ad_ok _ _ _ _ Hpre). unfold lack in *.
    replace (- (_ - _)) with 0 by lia. by destruct (queue_at _ _ _).
Qed.

(** The levels that vanish are taken from the best to the worst. *)
Lemma missing_sorted b prices A :
  book_ok b A ->
  StronglySorted (fun x y : Order * Z => side_rank b (Order.price x.1) <= side_rank b (Order.price y.1))
    (amissing prices A).
Proof.
  intros [Hs Hl _]. induction A as [|[k os] A IH]; [constructor|].
  apply (sorted_cons (side_comp b)) in Hs as [Hs Hk]. apply Forall_cons in Hl as [[Hos _ _ _] Hl].
  change (amissing prices ((k, os) :: A)) with
    ((if existsb (peq k) prices then [] else (fun o => (o, rem o)) <$> os) ++ amissing prices A).
  destruct (existsb (peq k) prices); [by apply IH|]. simpl in Hos.
  assert (Hin : forall x, x ∈ ((fun o => (o, rem o)) <$> os) -> side_rank b (Order.price x.1) = side_rank b k).
  { intros x (o & -> & Ho)%list_elem_of_fmap. rewrite Forall_forall in Hos.
    by apply side_rank_equiv, (ok_price _ _ _ (Hos o Ho)). }
  apply StronglySorted_app_iff. split_and!; [|by apply IH|].
  - clear -Hin. induction os as [|o os IH]; cbn; [constructor|]. constructor.
    + apply IH. intros x Hx. apply Hin. by right.
    + apply Forall_forall. intros y Hy. rewrite !Hin; [lia|by right|by left].
  - intros x y Hx (ko & Hy & Hko)%list_elem_of_bind. rewrite (Hin x Hx). specialize (Hk ko Hko). simpl in Hk.
    destruct (existsb (peq ko.1) prices); [by apply not_elem_of_nil in Hy|].
    apply list_elem_of_fmap in Hy as (o & -> & Ho). rewrite Forall_forall in Hl.
    destruct (Hl _ Hko) as [Hos' _ _ _]. rewrite Forall_forall in Hos'.
    pose proof (proj2 (side_rank_equiv b _ _) (ok_price _ _ _ (Hos' o Ho))) as E.
    cbn [fst] in *. lia.
Qed.

(** If the snapshot lowers no level, what is guessed executed is at prices at
    least as good as what is guessed cancelled. *)
Lemma follow_events_by_price b side A :
  adapt_pre b 100 side A -> lowers_no_level side A -> (length (removals b side A) <= share_max)%nat ->
  forall e c, e ∈ follow_events b side A -> c ∈ follow_events b side A ->
    Common.event e = EXEC -> Common.event c = CANCEL ->
    side_rank b (Common.price e) <= side_rank b (Common.price c).
Proof.
  intros Hpre Hlow Hn e c He Hc Hev Hcv. unfold follow_events in He, Hc.
  rewrite removal_events_split in He, Hc by done.
  assert (Hadd : forall x, x ∈ adds b 100 side A -> Common.event x = ADD)
    by (apply Forall_forall, adds_kind).
  unfold removals in He, Hc. rewrite (no_cuts _ _ _ _ Hpre Hlow) in He, Hc. cbn [app] in He, Hc.
  set (pl := amissing _ _) in *.
  pose proof (missing_sorted b (L2Level.price <$> side) _ (ap_ok _ _ _ _ _ (adapted_post _ _ _ _ Hpre))) as Hs.
  fold pl in Hs. rewrite <- (take_drop (share (length pl)) pl) in Hs.
  apply StronglySorted_app_iff in Hs as (_ & _ & Hs).
  repeat apply elem_of_app in He as [He|He]; [by rewrite (Hadd _ He) in Hev| |];
    apply list_elem_of_fmap in He as (x & -> & Hx); [|done].
  repeat apply elem_of_app in Hc as [Hc|Hc]; [by rewrite (Hadd _ Hc) in Hcv| |];
    apply list_elem_of_fmap in Hc as (y & -> & Hy); [done|].
  by apply Hs.
Qed.
