(* ===== verification/Format.v ===== *)
(** * Printing (the [operator<<] of order.cpp, level.cpp and book_side.cpp)

    Streams print an [int] in decimal and, under [std::fixed] and
    [std::setprecision(2)], a double as the decimal number with two places
    nearest to its exact value, ties going to the even last digit. *)

From S2P Require Import Prelude Outcome StdMap Price Common Order L2Level Level BookSide.
From Stdlib Require Import SpecFloat.

(** [n / d] rounded to the nearest integer, ties to even. *)
Definition div_half_even (n d : Z) : Z :=
  let q := n / d in
  match 2 * (n mod d) ?= d with
  | Lt => q
  | Gt => q + 1
  | Eq => if Z.even q then q else q + 1
  end.

(** A finite double's magnitude in hundredths. *)
Definition hundredths (m : positive) (e : Z) : Z :=
  if 0 <=? e then Zpos m * 2 ^ e * 100 else div_half_even (Zpos m * 100) (2 ^ (- e)).

Definition two_digits (z : Z) : string := pretty (z / 10) +:+ pretty (z mod 10).

Definition print_fixed2 (f : spec_float) : string :=
  let sign (s : bool) := if s then "-" else "" in
  match f with
  | S754_nan => "nan"
  | S754_infinity s => sign s +:+ "inf"
  | S754_zero s => sign s +:+ "0.00"
  | S754_finite s m e =>
      let c := hundredths m e in
      sign s +:+ pretty (c / 100) +:+ "." +:+ two_digits (c mod 100)
  end.

Definition endl : string := String (Ascii.Ascii false true false true false false false false) EmptyString.

Definition print_price (p : Price) : string := print_fixed2 (bits p).

Definition print_Order (o : Order) : string :=
  "[" +:+ pretty (Order.odid o) +:+ ", " +:+ pretty (Order.quantity o) +:+ "@" +:+
  print_price (Order.price o) +:+ "]".

Definition print_L2PriceLevel (l : L2PriceLevel) : string :=
  "L2: " +:+ pretty (L2Level.quantity l) +:+ "@" +:+ print_price (L2Level.price l) +:+ endl.

Fixpoint print_orders (m : Store) (os : OrderList) : outcome string :=
  match os with
  | [] => Ok ""
  | (_, p) :: os => o ← deref m p; rest ← print_orders m os; Ok (print_Order o +:+ rest)
  end.

Definition print_L3PriceLevel (m : Store) (l : L3PriceLevel) : outcome string :=
  os ← print_orders m (Level.orders l);
  Ok ("L3: " +:+ pretty (Level.quantity l) +:+ "@" +:+ print_price (Level.price l) +:+ endl +:+
      "Orders:(" +:+ os +:+ ")" +:+ endl).

Fixpoint print_levels (m : Store) (tag : string) (ls : list (Price * L3PriceLevel))
    : outcome string :=
  match ls with
  | [] => Ok ""
  | (_, l) :: ls =>
      t ← print_L3PriceLevel m l; rest ← print_levels m tag ls; Ok (tag +:+ t +:+ rest)
  end.

(** Asks from the worst price to the best, bids from the best to the worst. *)
Definition print_BookSide (m : Store) (s : BookSide) : outcome string :=
  if is_sell_ s then print_levels m "A " (rev (levels_ s))
  else print_levels m "B " (levels_ s).

Example print_97_23 : print_price (pxf 9723 100) = "97.23".
Proof. vm_compute. reflexivity. Qed.
Example print_104 : print_price (px 104) = "104.00".
Proof. vm_compute. reflexivity. Qed.
