(* ===== verification/L2Book.v ===== *)
(** * The L2 book (src/src/include/l2_book.h, src/src/l2_book.cpp)

    Two maps from prices to aggregated levels.  Standard error is the text an
    operation returns next to the new book. *)

From S2P Require Import Prelude Outcome StdMap Price Common Order L2Level Level BookSide Format.

Record L2Book : Type := mkL2Book {
  bidBook_ : smap Price L2PriceLevel;
  askBook_ : smap Price L2PriceLevel }.

(** The default constructor. *)
Definition empty_L2Book : L2Book := mkL2Book [] [].

(** [askBook_] or [bidBook_], chosen by [is_sell], and its replacement. *)
Definition l2_map (b : L2Book) (is_sell : bool) : smap Price L2PriceLevel :=
  if is_sell then askBook_ b else bidBook_ b.
Definition with_l2_map (b : L2Book) (is_sell : bool) (m : smap Price L2PriceLevel) : L2Book :=
  if is_sell then mkL2Book (bidBook_ b) m else mkL2Book m (askBook_ b).

Definition existLevel (b : L2Book) (is_sell : bool) (price : Price) : bool :=
  match map_find (side_comp is_sell) price (l2_map b is_sell) with
  | Some _ => true
  | None => false
  end.

Definition getL2Level (b : L2Book) (is_sell : bool) (price : Price) : L2PriceLevel * L2Book :=
  let '(l, m) := map_index (side_comp is_sell) L2PriceLevel_default price (l2_map b is_sell) in
  (l, with_l2_map b is_sell m).

Definition addLevel (b : L2Book) (is_sell : bool) (price : Price) (quantity : Quantity)
    : L2Book * string :=
  if existLevel b is_sell price then
    (b, "[L2Book]: Trying to add an L2 level that already exist: " +:+
        pretty quantity +:+ "@" +:+ pretty quantity +:+ endl)
  else
    (with_l2_map b is_sell
       (map_assign (side_comp is_sell) price (mkL2PriceLevel price quantity) (l2_map b is_sell)),
     "").

Definition updateLevel (b : L2Book) (is_sell : bool) (price : Price) (quantity : Quantity)
    : L2Book :=
  if existLevel b is_sell price then
    with_l2_map b is_sell
      (map_assign (side_comp is_sell) price (mkL2PriceLevel price quantity) (l2_map b is_sell))
  else b.

Definition removeLevel (b : L2Book) (is_sell : bool) (price : Price) : L2Book :=
  if existLevel b is_sell price then
    with_l2_map b is_sell (map_erase (side_comp is_sell) price (l2_map b is_sell))
  else b.

Definition print_side (tag : string) (ls : list (Price * L2PriceLevel)) : string :=
  foldr (fun kl rest => tag +:+ print_L2PriceLevel kl.2 +:+ rest) "" ls.

(** [operator<<]: asks from the worst price to the best, then bids. *)
Definition print_L2Book (b : L2Book) : string :=
  print_side "A " (rev (askBook_ b)) +:+ print_side "B " (bidBook_ b).
