(* ===== verification/OrderBook.v ===== *)
(** * The order book (src/src/include/order_book.h, src/src/order_book.cpp)

    [SmartOrderBook] is the two sides; the store that holds the orders both
    sides and the pending messages point to is part of its state.  [sides_[b]]
    with [b = false] is the bid side, with [b = true] the ask side. *)

From S2P Require Import Prelude Outcome StdMap Price Common Order L2Level Level Messages BookSide.
From S2P Require Import Format L2Book.

Record SmartOrderBook : Type := mkSmartOrderBook {
  store_ : Store;
  bid_side : BookSide;
  ask_side : BookSide }.

Definition new_SmartOrderBook : SmartOrderBook :=
  mkSmartOrderBook emptyStore (new_BookSide false BidComparator) (new_BookSide true AskComparator).

(** [sides_[b]] *)
Definition sides_ (book : SmartOrderBook) (b : bool) : BookSide :=
  if b then ask_side book else bid_side book.
Definition with_side (book : SmartOrderBook) (b : bool) (s : BookSide) : SmartOrderBook :=
  if b then mkSmartOrderBook (store_ book) (bid_side book) s
  else mkSmartOrderBook (store_ book) s (ask_side book).
Definition with_store (book : SmartOrderBook) (m : Store) : SmartOrderBook :=
  mkSmartOrderBook m (bid_side book) (ask_side book).

Definition existOrder (book : SmartOrderBook) (id : OrderId) : bool :=
  BookSide.existOrder (sides_ book false) id || BookSide.existOrder (sides_ book true) id.

Definition getOrderHandler (book : SmartOrderBook) (id : OrderId) : OrderHandler * SmartOrderBook :=
  let b := negb (BookSide.existOrder (sides_ book false) id) in
  let '(h, s) := BookSide.getOrderHandler (sides_ book b) id in
  (h, with_side book b s).

(** The statement [if (sides_[1-msg.is_sell].bookCrossedWithPrice(msg.price)) ...]. *)
Definition uncross (book : SmartOrderBook) (b : bool) (price : Price) (order : OrderPtr)
    : outcome (SmartOrderBook * OrderInfoVec) :=
  if bookCrossedWithPrice (sides_ book (negb b)) price then
    '(m, s, uncross_events) ← processCrossedOrder (store_ book) (sides_ book (negb b)) order;
    let book := with_side (with_store book m) (negb b) s in
    s ← addPendingLiqRemoveQty (sides_ book b) uncross_events;
    Ok (with_side book b s, mergeEvents [] uncross_events)
  else Ok (book, []).

Definition processOrderAddMessage (book : SmartOrderBook) (msg : OrderMessage.OrderMessage)
    : outcome (SmartOrderBook * OrderInfoVec) :=
  let b := OrderMessage.is_sell msg in
  let price := OrderMessage.price msg in
  let '(order, m) := OrderMessage.toOrder (store_ book) msg in
  let book := with_store book m in
  '(matched_qty, s) ← matchPendingLiqAdd (sides_ book b) (OrderMessage.quantity msg) price;
  let book := with_side book b s in
  m ← add_filled (store_ book) order matched_qty;
  let book := with_store book m in
  o ← deref (store_ book) order;
  r ← getRemainingQuantity o;
  if r =? 0 then Ok (book, [])
  else
    '(book, events) ← uncross book b price order;
    o ← deref (store_ book) order;
    r ← getRemainingQuantity o;
    if r =? 0 then Ok (book, events)
    else
      '(m, s) ← addOrder (store_ book) (sides_ book b) order;
      let book := with_side (with_store book m) b s in
      Ok (book, events ++ [mkOrderInfo ADD (OrderMessage.id msg) b r (Order.price o)]).

Definition processOrderCancelMessage (book : SmartOrderBook) (msg : OrderMessage.OrderMessage)
    : outcome (SmartOrderBook * OrderInfoVec) :=
  let b := OrderMessage.is_sell msg in
  '(s, events) ← processOrderCancel (store_ book) (sides_ book b) (OrderMessage.id msg)
    (OrderMessage.quantity msg) (OrderMessage.price msg);
  Ok (with_side book b s, mergeEvents [] events).

Definition processOrderModifyMessage (book : SmartOrderBook) (msg : OrderMessage.OrderMessage)
    : outcome (SmartOrderBook * OrderInfoVec) :=
  let '(OrderMessage.mkOrderMessage _ id b quantity price) := msg in
  let events := [mkOrderInfo MODIF id b quantity price] in
  if negb (existOrder book id) then Ok (book, events)
  else
    let '(handler, book) := getOrderHandler book id in
    o ← deref (store_ book) (Order.order handler);
    r ← getRemainingQuantity o;
    '(book, _) ← processOrderCancelMessage book
      (OrderMessage.mkOrderMessage OrderMessage.CANCEL id b r price);
    '(book, _) ← processOrderAddMessage book
      (OrderMessage.mkOrderMessage OrderMessage.ADD id b quantity price);
    Ok (book, events).

Definition processTradeMessage (book : SmartOrderBook) (msg : TradeMessage.TradeMessage)
    : outcome (SmartOrderBook * OrderInfoVec) :=
  '(m, s, ev0) ← processTrade (store_ book) (sides_ book false) (TradeMessage.toTrade msg);
  let book := with_side (with_store book m) false s in
  '(m, s, ev1) ← processTrade (store_ book) (sides_ book true) (TradeMessage.toTrade msg);
  let book := with_side (with_store book m) true s in
  Ok (book, mergeEvents (mergeEvents [] ev0) ev1).

Definition processSnapshotMessage (book : SmartOrderBook) (msg : SnapshotMessage.SnapshotMessage)
    : outcome (SmartOrderBook * OrderInfoVec) :=
  '(m, s, ev0) ←
    processL2Snapshot (store_ book) (sides_ book false) (SnapshotMessage.bid_levels msg);
  let book := with_side (with_store book m) false s in
  '(m, s, ev1) ←
    processL2Snapshot (store_ book) (sides_ book true) (SnapshotMessage.ask_levels msg);
  let book := with_side (with_store book m) true s in
  Ok (book, mergeEvents (mergeEvents [] ev0) ev1).

(** The loops of [getL2Book]. *)
Fixpoint add_levels (b : bool) (ls : smap Price L3PriceLevel) (book : L2Book) : L2Book * string :=
  match ls with
  | [] => (book, "")
  | (k, v) :: ls =>
      let '(book, err) := L2Book.addLevel book b k (Level.quantity v) in
      let '(book, errs) := add_levels b ls book in
      (book, err +:+ errs)
  end.

Definition getL2Book (book : SmartOrderBook) : L2Book * string :=
  let '(l2, err0) := add_levels false (levels_ (sides_ book false)) empty_L2Book in
  let '(l2, err1) := add_levels true (levels_ (sides_ book true)) l2 in
  (l2, err0 +:+ err1).
