(* ===== verification/BookInv.v ===== *)
(** * The two sides together

    [book_rep bk B]: the order book [bk] holds the abstract books [B false]
    (bids) and [B true] (asks), which live in one store.  [uncrossed B] is the
    property the program exists for: every bid is below every ask.  The
    contract of an arriving order is [aadd_message]. *)

From S2P Require Import Prelude Outcome StdMap Price Common Order L2Level Level Messages BookSide.
From S2P Require Import BookSpec Matching SideRep Crossed PendingLiq TradeSide.
From S2P Require Import Format L2Book OrderBook.

Abbreviation abooks := (bool -> abook).

Record book_rep (bk : SmartOrderBook) (B : abooks) : Prop := {
  br_side : forall b, side_rep (store_ bk) (sides_ bk b) (B b);
  br_is_sell : forall b, is_sell_ (sides_ bk b) = b;
  br_live : forall b, live (B b);
  br_counts : forall b, counts_ok (pending_liq_remove_qty_ (sides_ bk b)) }.

Lemma book_ok_of bk B b : book_rep bk B -> book_ok b (B b).
Proof.
  intros [H1 H2 _ _]. pose proof (sr_ok _ _ _ (H1 b)) as H. by rewrite H2 in H.
Qed.

(** Every bid is below every ask. *)
Definition uncrossed (B : abooks) : Prop :=
  forall x y, x ∈ B false -> y ∈ B true -> price_key x.1 < price_key y.1.

Definition set_book (B : abooks) (b : bool) (A : abook) : abooks :=
  fun c => if Bool.eqb c b then A else B c.

(** The pending removals could take the whole book. *)
Definition room_for (s : BookSide) (A : abook) : Prop :=
  forall p, count plt p (pending_liq_remove_qty_ s) + total_of A <= INT_MAX.

(** ** Quantities in a match *)

Lemma afill_fills_nonneg r os :
  0 <= r -> Forall order_sane os -> Forall (fun ox : Order * Z => 0 <= ox.2) (afill_fills r os).
Proof.
  intros Hr Hs. revert r Hr. induction Hs as [|o os Ho Hs IH]; intros r Hr; [done|].
  destruct (decide (r = 0)) as [->|Hne]; [by rewrite afill_zero|].
  pose proof (rem_nonneg o Ho). rewrite afill_cons by done. cbn [fst snd].
  constructor; [simpl; lia|]. apply IH. lia.
Qed.

(** Conservation over the whole book. *)
Lemma amatch_conservation b price r A :
  0 <= r -> Forall order_sane (resting A) ->
  0 <= amatch_rest b price r A <= r /\
  total_of A - total_of (amatch_book b price r A) = r - amatch_rest b price r A /\
  zsum snd (amatch_fills b price r A) = r - amatch_rest b price r A /\
  Forall (fun ox : Order * Z => 0 <= ox.2) (amatch_fills b price r A).
Proof.
  revert r. induction A as [|[k os] A IH]; intros r Hr Hs.
  { simpl. split_and!; try done; lia. }
  rewrite resting_cons in Hs. apply Forall_app in Hs as [Hs1 Hs2].
  destruct ((0 <? r) && crosses b k price) eqn:E.
  - apply andb_true_iff in E as [Hpos%Z.ltb_lt Hc]. rewrite amatch_cons by done. cbn [fst snd].
    pose proof (afill_rest_bounds r os Hr Hs1). pose proof (afill_conservation r os) as [E1 E2].
    destruct (IH (afill_rest r os)) as (I1 & I2 & I3 & I4); [lia|done|].
    rewrite total_of_app, total_of_cons, zsum_app.
    assert (total_of (keep_level k (survivors (afill_orders r os))) = total (afill_orders r os)) as ->.
    { unfold total_of. rewrite resting_keep_level. apply survivors_total. }
    split_and!; try lia. apply Forall_app; split; [by apply afill_fills_nonneg|done].
  - rewrite amatch_stop by done. cbn [fst snd]. split_and!; try done; simpl; lia.
Qed.

Lemma filled_at_le p fills :
  Forall (fun ox : Order * Z => 0 <= ox.2) fills -> 0 <= filled_at p fills <= zsum snd fills.
Proof.
  induction 1 as [|[o x] fills Hx H IH]; [done|]. rewrite filled_at_cons, zsum_cons.
  simpl in *. destruct (peq (Order.price o) p); lia.
Qed.

(** ** [addPendingLiqRemoveQty] after an uncrossing *)

Lemma addPendingLiqRemoveQty_rep b fills : forall s,
  Forall (fun ox : Order * Z => 0 <= ox.2) fills -> counts_ok (pending_liq_remove_qty_ s) ->
  (forall p, count plt p (pending_liq_remove_qty_ s) + zsum snd fills <= INT_MAX) ->
  exists pr, addPendingLiqRemoveQty s (exec_events b fills) = Ok (with_pending_remove s pr) /\
    counts_ok pr /\
    forall p, count plt p pr = count plt p (pending_liq_remove_qty_ s) + filled_at p fills.
Proof.
  induction fills as [|[o x] fills IH]; intros s Hn Hc Hroom.
  { exists (pending_liq_remove_qty_ s). split; [by destruct s|]. split; [done|].
    intros p. rewrite filled_at_nil. lia. }
  apply Forall_cons in Hn as [Hx Hn]. simpl in Hx. pose proof (zsum_nonneg snd fills Hn) as Hz.
  rewrite zsum_cons in Hroom. cbn [snd] in Hroom.
  destruct (map_add_ok (Order.price o) x (pending_liq_remove_qty_ s)) as (pr & Hadd & Hsort & Hpr).
  { pose proof (proj2 Hc (Order.price o)). specialize (Hroom (Order.price o)). range. }
  destruct (IH (with_pending_remove s pr)) as (pr' & Hrun & Hc' & Hpr'); [done|..].
  - split; [by apply Hsort, Hc|]. intros p. simpl. rewrite Hpr.
    pose proof (proj2 Hc p). specialize (Hroom p). destruct (peq _ p); lia.
  - intros p. simpl. rewrite Hpr. specialize (Hroom p). destruct (peq _ p); lia.
  - exists pr'. rewrite exec_events_cons. cbn [addPendingLiqRemoveQty Common.event Common.price Common.quantity].
    rewrite bool_decide_eq_true_2 by done. rewrite Hadd, bind_ok, Hrun.
    split_and!; [by destruct s|done|]. intros p. rewrite Hpr', filled_at_cons. simpl.
    rewrite Hpr. lia.
Qed.

(** ** The two sides in one store *)

Lemma sides_with_side bk b s c :
  sides_ (with_side bk b s) c = if Bool.eqb c b then s else sides_ bk c.
Proof. by destruct b, c. Qed.

Lemma sides_with_store bk m c : sides_ (with_store bk m) c = sides_ bk c.
Proof. by destruct c. Qed.

Lemma store_with_side bk b s : store_ (with_side bk b s) = store_ bk.
Proof. by destruct b. Qed.

#[export] Hint Rewrite sides_with_side sides_with_store store_with_side : ob.

(** Replacing one side, the store and the book that side holds. *)
Lemma book_rep_set bk B b m s A :
  book_rep bk B -> side_rep m s A -> is_sell_ s = b -> live A ->
  counts_ok (pending_liq_remove_qty_ s) ->
  side_rep m (sides_ bk (negb b)) (B (negb b)) ->
  book_rep (with_side (with_store bk m) b s) (set_book B b A).
Proof.
  intros [H1 H2 H3 H4] Hrep Hb Hl Hc Hother. unfold set_book. split; intros c;
    rewrite ?store_with_side, ?sides_with_side, ?sides_with_store;
    (destruct (Bool.eqb c b) eqn:E; [apply eqb_prop in E as ->; done|]); try done.
  simpl. replace c with (negb b); [done|]. by destruct b, c.
Qed.

(** An order [agg] of side [b] that is not in the book yet. *)
Record aggressor (bk : SmartOrderBook) (b : bool) (agg : OrderPtr) (a : Order) : Prop := {
  ag_heap : heap (store_ bk) !! agg = Some a;
  ag_side : Order.is_sell a = b;
  ag_sane : order_sane a;
  ag_fresh : (agg < next (store_ bk))%positive;
  ag_out : agg ∉ (cells (levels_ (sides_ bk b))).*2 }.

Lemma pending_room_of s A :
  counts_ok (pending_liq_remove_qty_ s) -> Forall order_sane (resting A) -> room_for s A ->
  pending_room s A.
Proof.
  intros [_ Hc] Hs Hroom. unfold pending_room. apply Forall_forall. intros [k os] Hin.
  specialize (Hc k). specialize (Hroom k). simpl. split; [lia|].
  assert (total os <= total_of A); [|lia].
  apply list_elem_of_split in Hin as (A1 & A2 & ->).
  rewrite resting_app, resting_cons in Hs.
  apply Forall_app in Hs as [Hs1 Hs]. apply Forall_app in Hs as [_ Hs2].
  rewrite total_of_app, total_of_cons. unfold total_of.
  pose proof (total_nonneg _ Hs1). pose proof (total_nonneg _ Hs2). lia.
Qed.

(** Nothing crosses: the guard of the code and the contract agree. *)
Lemma not_crossed_match m s A price r :
  side_rep m s A -> bookCrossedWithPrice s price = false ->
  amatch (is_sell_ s) price r A = (A, [], r).
Proof.
  intros Hrep E. destruct A as [|[k os] A]; [done|]. apply amatch_stop.
  rewrite (crosses_concrete _ _ _ _ _ _ Hrep) in E. by rewrite E, andb_false_r.
Qed.

(** The counts after a match. *)
Lemma crossed_counts agg fills t q a m s m' s' :
  crossed_done agg fills t q a m s m' s' -> counts_ok (pending_liq_remove_qty_ s) ->
  Forall (fun ox : Order * Z => 0 <= ox.2) fills ->
  (forall p, count plt p (pending_liq_remove_qty_ s) + zsum snd fills <= INT_MAX) ->
  counts_ok (pending_liq_remove_qty_ s').
Proof.
  intros Hd [Hs Hc] Hn Hroom. split; [by eapply cd_sorted|]. intros p.
  rewrite (cd_pending _ _ _ _ _ _ _ _ _ Hd). pose proof (filled_at_le p _ Hn).
  specialize (Hc p). specialize (Hroom p). lia.
Qed.

Lemma book_rep_ext bk B B' : (forall c, B c = B' c) -> book_rep bk B -> book_rep bk B'.
Proof. intros E [H1 H2 H3 H4]. split; try done; intros c; by rewrite <- E. Qed.

(** Replacing the pending removals of a side. *)
Lemma book_rep_pending_remove bk B b pr :
  book_rep bk B -> counts_ok pr ->
  book_rep (with_side bk b (with_pending_remove (sides_ bk b) pr)) B.
Proof.
  intros [H1 H2 H3 H4] Hc. split; try done; intros c;
    rewrite ?store_with_side, ?sides_with_side;
    (destruct (Bool.eqb c b) eqn:E; [apply eqb_prop in E as ->; try done|done]).
  - by apply rep_pending_remove.
  - simpl. apply H2.
Qed.

Lemma book_rep_pending_add bk B b pa :
  book_rep bk B -> book_rep (with_side bk b (with_pending_add (sides_ bk b) pa)) B.
Proof.
  intros [H1 H2 H3 H4]. split; try done; intros c;
    rewrite ?store_with_side, ?sides_with_side;
    (destruct (Bool.eqb c b) eqn:E; [apply eqb_prop in E as ->; try done|done]).
  - by apply rep_pending_add.
  - simpl. apply H2.
  - simpl. apply H4.
Qed.

Lemma negb_neq b : negb b <> b.
Proof. by destruct b. Qed.

Lemma sides_other bk b s : sides_ (with_side bk (negb b) s) b = sides_ bk b.
Proof. by destruct b. Qed.

Lemma sides_other_neg bk b s : sides_ (with_side bk b s) (negb b) = sides_ bk (negb b).
Proof. by destruct b. Qed.

Lemma sides_same bk b s : sides_ (with_side bk b s) b = s.
Proof. by destruct b. Qed.

(** What the pending quantities of both sides become. *)
Record noted (fills : list (Order * Z)) (bk bk' : SmartOrderBook) : Prop := {
  nt_count : forall c p, count plt p (pending_liq_remove_qty_ (sides_ bk' c)) =
    count plt p (pending_liq_remove_qty_ (sides_ bk c)) + filled_at p fills;
  nt_add : forall c,
    pending_liq_add_qty_ (sides_ bk' c) = pending_liq_add_qty_ (sides_ bk c) }.

Lemma noted_refl bk : noted [] bk bk.
Proof. split; [|done]. intros c p. rewrite filled_at_nil. lia. Qed.

(** Side [b] of [bk] becomes [so], the other one [s']. *)
Lemma noted_sides fills bk b m' so s' :
  (forall p, count plt p (pending_liq_remove_qty_ so) =
    count plt p (pending_liq_remove_qty_ (sides_ bk b)) + filled_at p fills) ->
  pending_liq_add_qty_ so = pending_liq_add_qty_ (sides_ bk b) ->
  (forall p, count plt p (pending_liq_remove_qty_ s') =
    count plt p (pending_liq_remove_qty_ (sides_ bk (negb b))) + filled_at p fills) ->
  pending_liq_add_qty_ s' = pending_liq_add_qty_ (sides_ bk (negb b)) ->
  noted fills bk (with_side (with_side (with_store bk m') (negb b) s') b so).
Proof. intros. split; intros c; destruct b, c; simpl in *; done. Qed.

(** One side changes, with the same pending quantities. *)
Lemma noted_aux fills bk bk' b m s :
  noted fills bk bk' -> same_aux (sides_ bk' b) s ->
  noted fills bk (with_side (with_store bk' m) b s).
Proof.
  intros [H1 H2] [_ _ _ Hr Ha]. split; intros c; specialize (H1 c); specialize (H2 c);
    destruct b, c; simpl in *; rewrite ?Hr, ?Ha; done.
Qed.

Lemma uncross_idle bk B b agg a :
  book_rep bk B -> aggressor bk b agg a ->
  bookCrossedWithPrice (sides_ bk (negb b)) (Order.price a) = false ->
  let r := amatch (negb b) (Order.price a) (rem a) (B (negb b)) in
  uncross bk b (Order.price a) agg = Ok (bk, exec_events (negb b) r.1.2) /\
  book_rep bk (set_book B (negb b) r.1.1) /\ aggressor bk b agg (fill a (rem a - r.2)) /\
  noted r.1.2 bk bk.
Proof.
  intros Hbk Hag E. pose proof (not_crossed_match _ _ _ _ (rem a) (br_side _ _ Hbk (negb b)) E) as En.
  rewrite (br_is_sell _ _ Hbk) in En. cbv zeta. rewrite En. cbn [fst snd].
  rewrite Z.sub_diag, fill_0. unfold uncross. rewrite E. split_and!; [done| |done|apply noted_refl].
  eapply book_rep_ext; [|exact Hbk]. intros c. unfold set_book.
  destruct (Bool.eqb c (negb b)) eqn:Ec; [|done]. by apply eqb_prop in Ec as ->.
Qed.

Lemma uncross_rep bk B b agg a :
  book_rep bk B -> aggressor bk b agg a ->
  room_for (sides_ bk b) (B (negb b)) -> room_for (sides_ bk (negb b)) (B (negb b)) ->
  let r := amatch (negb b) (Order.price a) (rem a) (B (negb b)) in
  exists bk',
    uncross bk b (Order.price a) agg = Ok (bk', exec_events (negb b) r.1.2) /\
    book_rep bk' (set_book B (negb b) r.1.1) /\
    aggressor bk' b agg (fill a (rem a - r.2)) /\ noted r.1.2 bk bk'.
Proof.
  intros Hbk Hag Hroom1 Hroom2. cbv zeta.
  destruct (bookCrossedWithPrice (sides_ bk (negb b)) (Order.price a)) eqn:E;
    [|by exists bk; apply uncross_idle].
  pose proof Hbk as [Hrep Hsell Hlive Hcnt]. pose proof Hag as [Ha Hside Hsane Hfresh Hout].
  pose proof (rep_resting_sane _ _ _ (Hrep (negb b))) as Hsos.
  destruct (processCrossedOrder_rep (store_ bk) (sides_ bk (negb b)) (B (negb b)) agg a)
    as (m' & s' & Hrun & [Hrep' Hlive' Hd]).
  { split; try done; [rewrite Hsell, Hside; by destruct b|by apply pending_room_of]. }
  rewrite Hsell in *. pose proof (rem_nonneg a Hsane) as Hr.
  destruct (amatch_conservation (negb b) (Order.price a) (rem a) (B (negb b)))
    as (Hrest & Htot & Hz & Hnn); [lia|done|].
  assert (0 <= total_of (amatch_book (negb b) (Order.price a) (rem a) (B (negb b)))) as Htot'.
  { exact (total_nonneg _ (rep_resting_sane _ _ _ Hrep')). }
  destruct (addPendingLiqRemoveQty_rep (negb b) _ (sides_ bk b) Hnn (Hcnt b)) as (pr & Hadd & Hpr & Hcount).
  { intros p. specialize (Hroom1 p). lia. }
  assert (counts_ok (pending_liq_remove_qty_ s')) as Hc'.
  { eapply crossed_counts; [exact Hd|apply Hcnt|exact Hnn|].
    intros p. specialize (Hroom2 p). lia. }
  pose proof (cd_keeps _ _ _ _ _ _ _ _ _ Hd) as Hk. rewrite Hsell in Hk.
  assert (side_rep m' (sides_ bk b) (B b)) as Hown.
  { eapply rep_keeps_others; [apply Hrep| |exact Hk|by intros p [= <-]].
    rewrite Hsell. by destruct b. }
  pose proof (sv_is_sell _ _ _ (cd_saves _ _ _ _ _ _ _ _ _ Hd)) as Hs'. rewrite Hsell in Hs'.
  assert (book_rep (with_side (with_store bk m') (negb b) s')
    (set_book B (negb b) (amatch_book (negb b) (Order.price a) (rem a) (B (negb b))))) as Hbk1.
  { apply book_rep_set; try done. by rewrite negb_involutive. }
  eexists. split_and!.
  - unfold uncross. rewrite E, Hrun, bind_ok, sides_other, sides_with_store, Hadd, bind_ok. done.
  - pose proof (book_rep_pending_remove _ _ b pr Hbk1 Hpr) as H.
    by rewrite sides_other, sides_with_store in H.
  - split; rewrite ?store_with_side, ?sides_same; simpl.
    + by apply Hd.
    + done.
    + apply fill_sane; [done|lia].
    + destruct Hk as [-> _]. done.
    + done.
  - apply noted_sides; [exact Hcount|done|apply Hd|apply (cd_saves _ _ _ _ _ _ _ _ _ Hd)].
Qed.

(** ** Resting an order *)

Lemma has_room_fill b o x A : 0 <= x -> has_room b o A -> has_room b (fill o x) A.
Proof. intros Hx [H1 H2]. split; [rewrite rem_fill; simpl; lia|done]. Qed.

Lemma with_side_id bk b : with_side (with_store bk (store_ bk)) b (sides_ bk b) = bk.
Proof. by destruct bk, b. Qed.

Lemma rest_known bk B b agg a :
  book_rep bk B -> aggressor bk b agg a -> Order.odid a ∈ ids (B b) ->
  addOrder (store_ bk) (sides_ bk b) agg = Ok (store_ bk, sides_ bk b).
Proof.
  intros [Hrep Hsell _ _] [Ha Hside _ _ _] Hid.
  eapply addOrder_known; [apply Hrep|done| |done]. by rewrite Hsell.
Qed.

Lemma rest_new bk B b agg a :
  book_rep bk B -> aggressor bk b agg a -> 0 < rem a -> Order.odid a ∉ ids (B b) ->
  has_room b a (B b) ->
  exists m' s', addOrder (store_ bk) (sides_ bk b) agg = Ok (m', s') /\
    same_aux (sides_ bk b) s' /\
    book_rep (with_side (with_store bk m') b s') (set_book B b (aadd b a (B b))).
Proof.
  intros Hbk [Ha Hside Hsane Hfresh Hout] Hr Hid Hroom.
  pose proof Hbk as [Hrep Hsell Hlive Hcnt].
  destruct (addOrder_rep (store_ bk) (sides_ bk b) (B b) agg a) as (s' & Hrun & Haux & Hrep');
    rewrite ?Hsell; try done.
  rewrite Hsell in Hrep'. eexists _, s'. split; [exact Hrun|]. split; [done|]. apply book_rep_set; try done.
  - by rewrite (sa_is_sell _ _ Haux), Hsell.
  - apply aadd_live; [|done..]. pose proof (bk_sorted _ _ (sr_ok _ _ _ (Hrep b))) as H.
    by rewrite Hsell in H.
  - by rewrite (sa_remove _ _ Haux).
  - eapply rep_frame; [apply Hrep|simpl; lia|done].
Qed.

(** ** The arrival of an order *)

(** The order is new: nobody else points to it. *)
Lemma arrive bk B b o :
  book_rep bk B -> Order.is_sell o = b -> order_sane o ->
  let '(p, m) := make_shared (store_ bk) o in
  book_rep (with_store bk m) B /\ aggressor (with_store bk m) b p o.
Proof.
  intros [H1 H2 H3 H4] Hb Hs. simpl.
  set (m := mkStore _ _).
  assert (forall c, side_rep m (sides_ bk c) (B c)) as Hrep.
  { intros c. eapply rep_frame; [apply H1|simpl; lia|]. intros p Hp. simpl.
    apply lookup_insert_ne. pose proof (rep_pointer_fresh _ _ _ _ (H1 c) Hp). lia. }
  split.
  - split; intros c; rewrite ?sides_with_store; [apply Hrep|apply H2|apply H3|apply H4].
  - split; rewrite ?sides_with_store; try done; simpl.
    + by rewrite lookup_insert_eq.
    + lia.
    + intros Hp. pose proof (rep_pointer_fresh _ _ _ _ (H1 b) Hp). lia.
Qed.

(** Writing to it does not touch the books. *)
Lemma aggressor_fill bk B b p o x :
  book_rep bk B -> aggressor bk b p o -> 0 <= x <= rem o ->
  add_filled (store_ bk) p x = Ok (write (store_ bk) p (fill o x)) /\
  book_rep (with_store bk (write (store_ bk) p (fill o x))) B /\
  aggressor (with_store bk (write (store_ bk) p (fill o x))) b p (fill o x).
Proof.
  intros [H1 H2 H3 H4] [Ha Hside Hsane Hfresh Hout] Hx.
  assert (forall c, p ∉ (cells (levels_ (sides_ bk c))).*2) as Hnp.
  { intros c. destruct (decide (c = b)) as [->|Hne]; [done|].
    eapply rep_not_pointer; [apply H1|exact Ha|]. rewrite H2, Hside. by intros <-. }
  split_and!; [by apply add_filled_ok|split|split]; try intros c;
    rewrite ?sides_with_store; simpl; try done.
  - eapply rep_frame; [apply H1|simpl; lia|]. intros q Hq. simpl.
    apply lookup_insert_ne. intros <-. by apply (Hnp c).
  - by rewrite lookup_insert_eq.
  - by apply fill_sane.
Qed.

Lemma aggressor_pending_add bk b p o pa :
  aggressor bk b p o -> aggressor (with_side bk b (with_pending_add (sides_ bk b) pa)) b p o.
Proof. intros []. split; rewrite ?store_with_side, ?sides_same; done. Qed.

(** The contract: match the opposite side, rest what is left. *)
Definition aadd_message (B : abooks) (b : bool) (a : Order) : abooks * OrderInfoVec :=
  let r := amatch (negb b) (Order.price a) (rem a) (B (negb b)) in
  let B1 := set_book B (negb b) r.1.1 in
  (if r.2 =? 0 then B1
   else if bool_decide (Order.odid a ∈ ids (B b)) then B1
   else set_book B1 b (aadd b (fill a (rem a - r.2)) (B b)),
   exec_events (negb b) r.1.2 ++
   if r.2 =? 0 then [] else [mkOrderInfo ADD (Order.odid a) b r.2 (Order.price a)]).

(** The incoming order, of which [x] was expected by trades. *)
Definition arriving (msg : OrderMessage.OrderMessage) (x : Quantity) : Order :=
  fill (new_Order (OrderMessage.id msg) (OrderMessage.is_sell msg) (OrderMessage.quantity msg)
    (OrderMessage.price msg)) x.

(** What pending trades take of it. *)
Definition expected (bk : SmartOrderBook) (msg : OrderMessage.OrderMessage) : Quantity :=
  let s := sides_ bk (OrderMessage.is_sell msg) in
  Z.min (OrderMessage.quantity msg)
    (available (is_sell_ s) (OrderMessage.price msg) (pending_liq_add_qty_ s)).

Record add_pre (bk : SmartOrderBook) (B : abooks) (msg : OrderMessage.OrderMessage) : Prop := {
  ap_rep : book_rep bk B;
  ap_qty : 0 <= OrderMessage.quantity msg <= INT_MAX;
  ap_pending : pending_add_ok (sides_ bk (OrderMessage.is_sell msg));
  ap_ends : add_loop_ends (OrderMessage.is_sell msg)
    (pending_liq_add_qty_ (sides_ bk (OrderMessage.is_sell msg)))
    (OrderMessage.quantity msg) (OrderMessage.price msg) = true;
  ap_own : room_for (sides_ bk (OrderMessage.is_sell msg)) (B (negb (OrderMessage.is_sell msg)));
  ap_opp : room_for (sides_ bk (negb (OrderMessage.is_sell msg)))
    (B (negb (OrderMessage.is_sell msg)));
  ap_room : 0 < OrderMessage.quantity msg ->
    has_room (OrderMessage.is_sell msg) (arriving msg 0) (B (OrderMessage.is_sell msg)) }.

Lemma available_nonneg b price pa :
  Forall (fun kv : Price * Quantity => 0 <= kv.2) pa -> 0 <= available b price pa.
Proof.
  intros H. unfold available. destruct (matches_first b price pa); [by apply zsum_nonneg|lia].
Qed.

Lemma set_book_other B b A : set_book B (negb b) A b = B b.
Proof. unfold set_book. by destruct b. Qed.

Lemma set_book_same B b A : set_book B b A b = A.
Proof. unfold set_book. by rewrite eqb_reflx. Qed.

Lemma set_book_neg B b A : set_book B b A (negb b) = B (negb b).
Proof. unfold set_book. by destruct b. Qed.

(** After the pending additions are matched: uncross and rest. *)
Lemma add_finish bk B b agg a :
  book_rep bk B -> aggressor bk b agg a ->
  room_for (sides_ bk b) (B (negb b)) -> room_for (sides_ bk (negb b)) (B (negb b)) ->
  has_room b a (B b) ->
  exists bk',
    ('(book, events) ← uncross bk b (Order.price a) agg;
     o ← deref (store_ book) agg;
     r ← getRemainingQuantity o;
     if r =? 0 then Ok (book, events)
     else
       '(m, s) ← addOrder (store_ book) (sides_ book b) agg;
       Ok (with_side (with_store book m) b s,
           events ++ [mkOrderInfo ADD (Order.odid a) b r (Order.price o)])) =
      Ok (bk', (aadd_message B b a).2) /\
    book_rep bk' (aadd_message B b a).1 /\
    noted (amatch_fills (negb b) (Order.price a) (rem a) (B (negb b))) bk bk'.
Proof.
  intros Hbk Hag Hroom1 Hroom2 Hroom.
  destruct (uncross_rep bk B b agg a Hbk Hag Hroom1 Hroom2) as (bk1 & -> & Hbk1 & Hag1 & Hn1).
  pose proof (rem_nonneg a (ag_sane _ _ _ _ Hag)) as Hr.
  destruct (amatch_conservation (negb b) (Order.price a) (rem a) (B (negb b))) as (Hrest & _);
    [lia|by eapply rep_resting_sane, Hbk|].
  rewrite bind_ok, (deref_ok _ _ _ (ag_heap _ _ _ _ Hag1)), bind_ok.
  rewrite (getRemainingQuantity_ok _ (ag_sane _ _ _ _ Hag1)), bind_ok, rem_fill.
  unfold aadd_message.
  destruct (amatch (negb b) (Order.price a) (rem a) (B (negb b))) as [[opp fills] rest].
  cbn [fst snd] in *. replace (rem a - (rem a - rest)) with rest by lia.
  destruct (Z.eqb_spec rest 0) as [E0|Hne].
  { exists bk1. by rewrite app_nil_r. }
  destruct (decide (Order.odid a ∈ ids (B b))) as [Hid|Hid].
  - rewrite bool_decide_eq_true_2 by done.
    rewrite (rest_known bk1 _ b agg _ Hbk1 Hag1) by by rewrite set_book_other.
    rewrite bind_ok. exists bk1. by rewrite with_side_id.
  - rewrite bool_decide_eq_false_2 by done.
    destruct (rest_new bk1 _ b agg _ Hbk1 Hag1) as (m' & s' & -> & Haux & Hbk').
    { rewrite rem_fill. lia. }
    { by rewrite set_book_other. }
    { rewrite set_book_other. apply has_room_fill; [lia|done]. }
    rewrite bind_ok. eexists. split; [reflexivity|].
    rewrite set_book_other in Hbk'. split; [done|]. by apply noted_aux.
Qed.

Lemma aadd_message_nothing B b a :
  rem a = 0 -> (aadd_message B b a).2 = [] /\ (forall c, B c = (aadd_message B b a).1 c) /\
  amatch_fills (negb b) (Order.price a) (rem a) (B (negb b)) = [].
Proof.
  intros E0. unfold aadd_message. rewrite E0, amatch_zero. cbn [fst snd]. split_and!; [done| |done].
  intros c. unfold set_book. simpl.
  destruct (Bool.eqb c (negb b)) eqn:Ec; [|done]. by apply eqb_prop in Ec as ->.
Qed.

(** The state in which the remaining order meets the book. *)
Lemma add_start bk B b p m o price x pa :
  book_rep (with_store bk m) B -> aggressor (with_store bk m) b p o -> 0 <= x <= rem o ->
  Order.price o = price ->
  exists bk3, bk3 = with_store (with_side (with_store bk m) b (with_pending_add (sides_ bk b) pa))
      (write m p (fill o x)) /\
    add_filled (store_ (with_side (with_store bk m) b (with_pending_add (sides_ bk b) pa))) p x =
      Ok (write m p (fill o x)) /\
    book_rep bk3 B /\ aggressor bk3 b p (fill o x).
Proof.
  intros Hbk1 Hag1 Hx Hprice. eexists. split; [reflexivity|].
  pose proof (book_rep_pending_add _ _ b pa Hbk1) as Hbk2.
  pose proof (aggressor_pending_add _ _ _ _ pa Hag1) as Hag2. rewrite sides_with_store in Hbk2, Hag2.
  destruct (aggressor_fill _ B b p o x Hbk2 Hag2 Hx) as (Hfill & Hbk3 & Hag3).
  rewrite store_with_side in *. done.
Qed.

Lemma noted_base fills bk b m1 m2 s bk' :
  noted fills (with_store (with_side (with_store bk m1) b s) m2) bk' ->
  noted fills (with_side bk b s) bk'.
Proof.
  intros [H1 H2]. split; intros c; specialize (H1 c); specialize (H2 c);
    destruct b, c; simpl in *; done.
Qed.

(** The contract of [processOrderAddMessage]. *)
Record has_added (bk : SmartOrderBook) (B : abooks) (msg : OrderMessage.OrderMessage)
    (bk' : SmartOrderBook) : Prop := {
  ha_rep : book_rep bk' (aadd_message B (OrderMessage.is_sell msg) (arriving msg (expected bk msg))).1;
  ha_pending : exists pa,
    pending_add_ok (with_pending_add (sides_ bk (OrderMessage.is_sell msg)) pa) /\
    zsum snd pa = zsum snd (pending_liq_add_qty_ (sides_ bk (OrderMessage.is_sell msg))) -
      expected bk msg /\
    (length pa <= length (pending_liq_add_qty_ (sides_ bk (OrderMessage.is_sell msg))))%nat /\
    noted (amatch_fills (negb (OrderMessage.is_sell msg)) (OrderMessage.price msg)
        (rem (arriving msg (expected bk msg))) (B (negb (OrderMessage.is_sell msg))))
      (with_side bk (OrderMessage.is_sell msg)
        (with_pending_add (sides_ bk (OrderMessage.is_sell msg)) pa)) bk' }.

Lemma processOrderAddMessage_rep bk B msg :
  add_pre bk B msg ->
  exists bk',
    processOrderAddMessage bk msg = Ok (bk',
      (aadd_message B (OrderMessage.is_sell msg) (arriving msg (expected bk msg))).2) /\
    has_added bk B msg bk'.
Proof.
  intros [Hbk Hq Hpa Hends Hown Hopp Hroom].
  unfold processOrderAddMessage, OrderMessage.toOrder. cbv zeta.
  pose proof (arrive bk B (OrderMessage.is_sell msg)
    (new_Order (OrderMessage.id msg) (OrderMessage.is_sell msg) (OrderMessage.quantity msg)
      (OrderMessage.price msg)) Hbk eq_refl) as Harr.
  destruct (make_shared (store_ bk) _) as [p m] eqn:Em.
  destruct Harr as [Hbk1 Hag1]; [split; simpl; lia|].
  destruct (matchPendingLiqAdd_ends (sides_ bk (OrderMessage.is_sell msg))
    (OrderMessage.quantity msg) (OrderMessage.price msg) Hpa Hq) as (pa & Hrun & Hpa' & Hz & Hlen).
  { by rewrite (br_is_sell _ _ Hbk). }
  rewrite sides_with_store, Hrun, bind_ok.
  pose proof (available_nonneg (is_sell_ (sides_ bk (OrderMessage.is_sell msg)))
    (OrderMessage.price msg) _ (pa_nonneg _ Hpa)) as Hav.
  change (Z.min (OrderMessage.quantity msg) _) with (expected bk msg) in *.
  assert (0 <= expected bk msg <= OrderMessage.quantity msg) as Hx by (unfold expected; lia).
  destruct (add_start bk B (OrderMessage.is_sell msg) p m _ (OrderMessage.price msg)
    (expected bk msg) pa Hbk1 Hag1) as (bk3 & Ebk3 & Hfill & Hbk3 & Hag3);
    [unfold rem; simpl; lia|done|].
  rewrite Hfill, bind_ok, <- Ebk3.
  rewrite (deref_ok _ _ _ (ag_heap _ _ _ _ Hag3)), bind_ok.
  rewrite (getRemainingQuantity_ok _ (ag_sane _ _ _ _ Hag3)), bind_ok.
  change (fill _ (expected bk msg)) with (arriving msg (expected bk msg)) in *.
  destruct (Z.eqb_spec (rem (arriving msg (expected bk msg))) 0) as [E0|Hne].
  - destruct (aadd_message_nothing B (OrderMessage.is_sell msg) _ E0) as (-> & Eb & Ef).
    exists bk3. split; [done|]. split; [by eapply book_rep_ext|].
    exists pa. split_and!; [done..|]. eapply noted_base. rewrite <- Ebk3.
    change (OrderMessage.price msg) with (Order.price (arriving msg (expected bk msg))).
    rewrite Ef. apply noted_refl.
  - destruct (add_finish bk3 B (OrderMessage.is_sell msg) p _ Hbk3 Hag3) as (bk' & Hfin & Hbk' & Hn').
    + rewrite Ebk3. intros q. rewrite sides_with_store, sides_same. apply Hown.
    + rewrite Ebk3. intros q. rewrite sides_with_store, sides_other_neg. apply Hopp.
    + unfold arriving in *. rewrite fill_0 in Hroom. apply has_room_fill; [lia|].
      apply Hroom. revert Hne. rewrite rem_fill. unfold rem. simpl. lia.
    + exists bk'. split; [exact Hfin|]. split; [done|].
      exists pa. split_and!; [done..|]. eapply noted_base. rewrite <- Ebk3. exact Hn'.
Qed.

(** ** The book stays uncrossed *)

Lemma crosses_false b k price :
  crosses b k price = false <->
  if b then price_key price < price_key k else price_key k < price_key price.
Proof. unfold crosses. destruct b; rewrite pge_key; zcase; split; (done || lia). Qed.

Lemma amatch_prices b price r A x :
  x ∈ amatch_book b price r A -> exists y, y ∈ A /\ y.1 = x.1.
Proof.
  revert r. induction A as [|[k os] A IH]; intros r; [by intros ?%not_elem_of_nil|].
  destruct ((0 <? r) && crosses b k price) eqn:E.
  - apply andb_true_iff in E as [Hr%Z.ltb_lt Hc]. rewrite amatch_cons by done. cbn [fst].
    intros [Hx|Hx]%elem_of_app.
    + exists (k, os). split; [left|]. destruct (survivors _); simpl in Hx.
      * by apply not_elem_of_nil in Hx.
      * by apply list_elem_of_singleton in Hx as ->.
    + destruct (IH _ Hx) as (y & Hy & E). exists y. split; [by right|done].
  - rewrite amatch_stop by done. cbn [fst]. intros Hx. by exists x.
Qed.

(** An order that is not used up leaves nothing it crosses with. *)
Lemma amatch_blocks b price r A :
  sorted (side_comp b) A -> Forall order_sane (resting A) -> 0 <= r ->
  0 < amatch_rest b price r A ->
  Forall (fun x : Price * list Order => crosses b x.1 price = false) (amatch_book b price r A).
Proof.
  revert r. induction A as [|[k os] A IH]; intros r Hs Hsane Hr; [by constructor|].
  rewrite resting_cons in Hsane. apply Forall_app in Hsane as [Hs1 Hs2].
  pose proof Hs as [HsA _]%(sorted_cons (side_comp b)).
  destruct ((0 <? r) && crosses b k price) eqn:E.
  - apply andb_true_iff in E as [Hpos%Z.ltb_lt Hc]. rewrite amatch_cons by done. cbn [fst snd].
    intros Hrest. pose proof (afill_rest_bounds r os Hr Hs1) as Hb.
    destruct (amatch_conservation b price (afill_rest r os) A) as (Hle & _); [lia|done|].
    rewrite survivors_all_filled by (done || lia). simpl. apply IH; (done || lia).
  - rewrite amatch_stop by done. cbn [fst snd]. intros Hrest.
    rewrite (proj2 (Z.ltb_lt 0 r) Hrest) in E. simpl in E.
    destruct (crosses_split b price _ Hs) as ([|[k1 os1] A1] & A2 & EA & H1 & H2).
    + by rewrite EA.
    + injection EA as -> -> _. apply Forall_cons in H1 as [H1 _]. simpl in H1. congruence.
Qed.

Lemma aadd_prices b o A x :
  sorted (side_comp b) A -> x ∈ aadd b o A -> (exists y, y ∈ A /\ y.1 = x.1) \/ x.1 ≡ Order.price o.
Proof.
  intros Hs. destruct (aadd_cases b o A Hs) as
    [(A1 & k & os & A2 & -> & Hk & _ & ->)|(A1 & A2 & -> & _ & -> & _ & _)].
  - intros [Hx|[->|Hx]%elem_of_cons]%elem_of_app; [left|by right|left]; exists x;
      (split; [|done]); apply elem_of_app; [by left|right; by right].
  - intros [Hx|[->|Hx]%elem_of_cons]%elem_of_app; [left|by right|left]; exists x;
      (split; [|done]); apply elem_of_app; [by left|by right].
Qed.

(** The same property seen from one side. *)
Definition apart (b : bool) (A A' : abook) : Prop :=
  forall x y, x ∈ A -> y ∈ A' -> crosses (negb b) y.1 x.1 = false.

Lemma uncrossed_apart B b : uncrossed B <-> apart b (B b) (B (negb b)).
Proof.
  unfold uncrossed, apart.
  destruct b; cbn [negb]; split; intros H x y Hx Hy;
    [apply crosses_false, (H y x)|pose proof (proj1 (crosses_false _ _ _) (H y x Hy Hx))
    |apply crosses_false, (H x y)|pose proof (proj1 (crosses_false _ _ _) (H x y Hx Hy))]; done.
Qed.

(** An arriving order leaves the book uncrossed. *)
Lemma aadd_message_uncrossed B b a :
  (forall c, book_ok c (B c)) -> order_sane a -> uncrossed B ->
  uncrossed (aadd_message B b a).1.
Proof.
  intros Hok Hsane Hun. apply (uncrossed_apart _ b) in Hun. apply (uncrossed_apart _ b).
  pose proof (rem_nonneg a Hsane) as Hr. pose proof (Hok (negb b)) as Hopp.
  pose proof (book_sane _ _ (bk_levels _ _ Hopp)) as Hs.
  destruct (amatch_conservation (negb b) (Order.price a) (rem a) (B (negb b))) as (Hrest & _);
    [lia|done|].
  pose proof (amatch_blocks (negb b) (Order.price a) (rem a) _ (bk_sorted _ _ Hopp) Hs) as Hblock.
  assert (forall A, (forall x, x ∈ A -> (exists y, y ∈ B b /\ y.1 = x.1) \/
      (0 < amatch_rest (negb b) (Order.price a) (rem a) (B (negb b)) /\ x.1 ≡ Order.price a)) ->
    apart b A (amatch_book (negb b) (Order.price a) (rem a) (B (negb b)))) as Hgen.
  { intros A HA x y Hx Hy. destruct (HA x Hx) as [(x' & Hx' & <-)|[Hpos E]].
    - destruct (amatch_prices _ _ _ _ _ Hy) as (y' & Hy' & <-). by apply Hun.
    - specialize (Hblock ltac:(lia) Hpos). rewrite Forall_forall in Hblock.
      apply crosses_false. specialize (Hblock y Hy). apply crosses_false in Hblock.
      unfold equiv, price_equiv in E. by rewrite E. }
  unfold aadd_message.
  destruct (amatch _ _ _ _) as [[opp fills] rest]. cbn [fst snd] in *.
  destruct (Z.eqb_spec rest 0) as [E0|Hne]; [|case_bool_decide];
    rewrite ?set_book_same, ?set_book_other, ?set_book_neg, ?set_book_same;
    apply Hgen; intros x Hx; [left; eauto..|].
  apply aadd_prices in Hx as [?|E]; [by left| |apply Hok]. right. split; [lia|exact E].
Qed.
