(* ===== verification/Aggregate.v ===== *)
(** * The aggregated view of the whole book: [SmartOrderBook::getL2Book] *)

From S2P Require Import Prelude Outcome StdMap Price Common Order L2Level Level Messages BookSide.
From S2P Require Import BookSpec Matching SideRep Crossed L2Book OrderBook BookInv.

Lemma l2_map_with l2 b m c : l2_map (with_l2_map l2 b m) c = if Bool.eqb b c then m else l2_map l2 c.
Proof. by destruct b, c. Qed.

Definition l2_nodes (A : abook) : smap Price L2PriceLevel :=
  (fun ko : Price * list Order => (ko.1, mkL2PriceLevel ko.1 (total ko.2))) <$> A.

Lemma add_levels_spec b L A : forall l2,
  Forall2 same_level L A -> sorted (side_comp b) (l2_map l2 b ++ l2_nodes A) ->
  add_levels b L l2 = (with_l2_map l2 b (l2_map l2 b ++ l2_nodes A), "").
Proof.
  intros l2 H. revert l2. induction H as [|[k l] [k' os] L A [E Hl] H IH]; intros l2 Hs.
  { simpl. rewrite app_nil_r. by destruct l2, b. }
  simpl in E, Hl; subst k'. cbn [add_levels].
  change (l2_nodes ((k, os) :: A)) with ((k, mkL2PriceLevel k (total os)) :: l2_nodes A) in *.
  pose proof Hs as (Hs1 & Hs2 & Hlt)%(sorted_app (side_comp b)).
  unfold L2Book.addLevel, L2Book.existLevel.
  assert (forall x, x ∈ l2_map l2 b -> side_rank b x.1 < side_rank b k) as Hbefore.
  { intros x Hx. exact (Hlt x _ Hx ltac:(left)). }
  assert (map_find (side_comp b) k (l2_map l2 b) = None) as ->.
  { apply (find_None (side_comp b)). intros x Hx. specialize (Hbefore x Hx). simpl. lia. }
  rewrite <- (app_nil_r (l2_map l2 b)) at 1.
  rewrite (assign_between (side_comp b)) by (done || by intros ? ?%not_elem_of_nil).
  rewrite (ls_quantity _ _ _ Hl), IH; rewrite l2_map_with, eqb_reflx, <- app_assoc; [|exact Hs].
  by destruct l2, b.
Qed.

(** On a represented book nothing collides, so nothing is reported. *)
Lemma getL2Book_rep bk B :
  book_rep bk B -> getL2Book bk = (mkL2Book (l2_nodes (B false)) (l2_nodes (B true)), "").
Proof.
  intros Hbk. unfold getL2Book.
  assert (forall b, sorted (side_comp b) (l2_nodes (B b))) as Hs.
  { intros b. eapply sorted_same_keys; [|apply (bk_sorted _ _ (book_ok_of _ _ b Hbk))].
    unfold l2_nodes. by rewrite <- list_fmap_compose. }
  rewrite (add_levels_spec false _ (B false)); [|apply (br_side _ _ Hbk false)|apply (Hs false)].
  rewrite (add_levels_spec true _ (B true)); [done|apply (br_side _ _ Hbk true)|apply (Hs true)].
Qed.
