(* ===== verification/BookManager.v ===== *)
(** * The book manager (src/src/include/book_manager.h, src/src/book_manager.cpp)

    [BookManager] dispatches messages to the book, collects the events and
    later hands them to the callbacks [onOrderAdd], [onOrderCancel],
    [onOrderModify] and [onOrderExecution].  The repository declares the
    callbacks and defines none of them: they are the field [callbacks] of a
    record that the operations take as an argument. *)

From S2P Require Import Prelude Outcome StdMap Price Common Order L2Level Level Messages BookSide.
From S2P Require Import Format L2Book OrderBook.

Record BookManager : Type := mkBookManager {
  book_ : SmartOrderBook;
  events_ : OrderInfoVec }.

Definition new_BookManager : BookManager := mkBookManager new_SmartOrderBook [].

(** A callback gets the book by reference and one event. *)
Abbreviation callback := (SmartOrderBook -> OrderInfo -> outcome SmartOrderBook).

Record Callbacks : Type := mkCallbacks {
  onOrderAdd : callback;
  onOrderCancel : callback;
  onOrderModify : callback;
  onOrderExecution : callback }.

(** The new manager and the text on standard error. *)
Definition processOrderMessage (bm : BookManager) (msg : OrderMessage.OrderMessage)
    : outcome (BookManager * string) :=
  let handle (f : SmartOrderBook -> OrderMessage.OrderMessage ->
                  outcome (SmartOrderBook * OrderInfoVec)) :=
    '(book, events) ← f (book_ bm) msg;
    Ok (mkBookManager book (mergeEvents (events_ bm) events), "") in
  match OrderMessage.type msg with
  | OrderMessage.ADD => handle processOrderAddMessage
  | OrderMessage.CANCEL => handle processOrderCancelMessage
  | OrderMessage.MODIFY => handle processOrderModifyMessage
  | _ => Ok (bm, "Invalid order message type" +:+ endl)
  end.

Definition processSnapshotMessage (bm : BookManager) (msg : SnapshotMessage.SnapshotMessage)
    : outcome BookManager :=
  '(book, events) ← OrderBook.processSnapshotMessage (book_ bm) msg;
  Ok (mkBookManager book (mergeEvents (events_ bm) events)).

Definition processTradeMessage (bm : BookManager) (msg : TradeMessage.TradeMessage)
    : outcome BookManager :=
  '(book, events) ← OrderBook.processTradeMessage (book_ bm) msg;
  Ok (mkBookManager book (mergeEvents (events_ bm) events)).

(** The callback for an event. *)
Definition dispatch (cb : Callbacks) (book : SmartOrderBook) (info : OrderInfo)
    : outcome SmartOrderBook :=
  match event info with
  | ADD => onOrderAdd cb book info
  | CANCEL => onOrderCancel cb book info
  | EXEC => onOrderExecution cb book info
  | MODIF => onOrderModify cb book info
  end.

Fixpoint flush (cb : Callbacks) (book : SmartOrderBook) (events : OrderInfoVec)
    : outcome SmartOrderBook :=
  match events with
  | [] => Ok book
  | info :: events => book ← dispatch cb book info; flush cb book events
  end.

Definition flushEvents (cb : Callbacks) (bm : BookManager) : outcome BookManager :=
  book ← flush cb (book_ bm) (events_ bm);
  Ok (mkBookManager book []).
