(* ===== verification/Session.v ===== *)
(** * Sessions: the book manager over a stream of messages

    A session feeds order and trade messages to a [BookManager].  [within bk B
    T] bounds every quantity of the state by the volume [T] of the messages so
    far; it is an invariant of all operations, and it is what keeps the [int]
    arithmetic of the code in range.  The session theorem has no other
    hypothesis on the state: a session of at most [INT_MAX] lots either
    completes with a well-formed, uncrossed book, or is caught in the loop of
    [matchPendingLiqAdd]. *)

From S2P Require Import Prelude Outcome StdMap Price Common Order L2Level Level Messages BookSide.
From S2P Require Import BookSpec Matching SideRep Crossed PendingLiq TradeSide.
From S2P Require Import ModifySide Format L2Book OrderBook BookInv BookManager.

(** The state is well formed and the book is uncrossed; what a side expects to
    be removed at a price and what a book holds are together at most [T]. *)
Record within (bk : SmartOrderBook) (B : abooks) (T : Z) : Prop := {
  wi_rep : book_rep bk B;
  wi_uncrossed : uncrossed B;
  wi_count : forall b c p,
    count plt p (pending_liq_remove_qty_ (sides_ bk b)) + total_of (B c) <= T }.

(** The pending additions of side [b] are at most [U]. *)
Definition adds_within (bk : SmartOrderBook) (b : bool) (U : Z) : Prop :=
  pending_add_ok (sides_ bk b) /\ zsum snd (pending_liq_add_qty_ (sides_ bk b)) <= U.

(** No addition is expected on any side: the state between trades. *)
Definition quiet (bk : SmartOrderBook) : Prop :=
  forall b, pending_liq_add_qty_ (sides_ bk b) = [].

Lemma book_sane_of bk B b : book_rep bk B -> Forall order_sane (resting (B b)).
Proof. intros H. eapply book_sane, bk_levels. by eapply book_ok_of. Qed.

Lemma total_of_nonneg bk B b : book_rep bk B -> 0 <= total_of (B b).
Proof. intros H. apply total_nonneg. by eapply book_sane_of. Qed.

(** What a match takes from one book it does not put into the other. *)
Lemma aadd_message_total B b a c p :
  (forall c, book_ok c (B c)) -> order_sane a ->
  filled_at p (amatch_fills (negb b) (Order.price a) (rem a) (B (negb b))) +
    total_of ((aadd_message B b a).1 c) <= total_of (B c) + rem a.
Proof.
  intros Hok Hsane. pose proof (rem_nonneg a Hsane) as Hr.
  destruct (amatch_conservation (negb b) (Order.price a) (rem a) (B (negb b)))
    as (Hrest & Htot & Hz & Hnn); [lia|by eapply book_sane, bk_levels|].
  pose proof (filled_at_le p _ Hnn) as Hf. unfold aadd_message.
  destruct (amatch _ _ _ _) as [[opp fills] rest]. cbn [fst snd] in *.
  assert (forall X, total_of X <= total_of (B b) + rest ->
    filled_at p fills + total_of X <= total_of (B b) + rem a) as Hown by (intros; lia).
  destruct (Bool.eqb c b) eqn:E.
  - apply eqb_prop in E as ->. destruct (Z.eqb_spec rest 0); [|case_bool_decide];
      rewrite ?set_book_same, ?set_book_other; apply Hown; [lia|lia|].
    rewrite total_of_aadd by apply Hok. rewrite rem_fill. lia.
  - assert (c = negb b) as -> by by destruct b, c.
    destruct (Z.eqb_spec rest 0); [|case_bool_decide];
      rewrite ?set_book_neg, ?set_book_same; lia.
Qed.

(** The pending additions stay when the map does. *)
Lemma adds_transfer bk B c s U :
  book_rep bk B -> pending_add_ok s -> is_sell_ s = c ->
  pending_liq_add_qty_ (sides_ bk c) = pending_liq_add_qty_ s ->
  zsum snd (pending_liq_add_qty_ s) <= U -> adds_within bk c U.
Proof.
  intros Hbk Hok Hs E HU. split; [|by rewrite E].
  eapply pending_add_ok_same; [| |exact E|exact Hok].
  - by rewrite Hs, (br_is_sell _ _ Hbk).
  - rewrite (sr_comp _ _ _ (br_side _ _ Hbk c)), (br_is_sell _ _ Hbk).
    by rewrite (pa_comp _ Hok), Hs.
Qed.

(** ** Arriving orders *)

Section arrival.
Context (bk : SmartOrderBook) (B : abooks) (T U : Z) (msg : OrderMessage.OrderMessage).
Abbreviation b := (OrderMessage.is_sell msg).
Abbreviation q := (OrderMessage.quantity msg).
Context (Hin : within bk B T) (Hadds : adds_within bk b U) (Hq : 0 <= q) (HT : T + q <= INT_MAX).

Lemma within_add_pre :
  add_loop_ends b (pending_liq_add_qty_ (sides_ bk b)) q (OrderMessage.price msg) = true ->
  add_pre bk B msg.
Proof.
  intros Hends. destruct Hin as [Hbk _ Hcount]. destruct Hadds as [Hok _].
  pose proof (total_of_nonneg _ _ b Hbk) as Hb.
  pose proof (proj2 (br_counts _ _ Hbk b) (OrderMessage.price msg)) as Hc.
  pose proof (Hcount b b (OrderMessage.price msg)) as HTb.
  split; try done; [lia|intros p; specialize (Hcount b (negb b) p); lia
    |intros p; specialize (Hcount (negb b) (negb b) p); lia|].
  intros Hpos. unfold arriving. rewrite fill_0.
  destruct (queue_at_total b (OrderMessage.price msg) (B b)) as [H1 H2];
    [by eapply book_sane_of|by apply Hbk|].
  split; simpl Order.price; [|lia].
  unfold rem at 2. simpl. lia.
Qed.

Lemma add_diverges :
  add_loop_ends b (pending_liq_add_qty_ (sides_ bk b)) q (OrderMessage.price msg) = false ->
  processOrderAddMessage bk msg = Err Diverges.
Proof.
  intros Hends. destruct Hadds as [Hok _]. unfold processOrderAddMessage, matchPendingLiqAdd.
  destruct (OrderMessage.toOrder (store_ bk) msg) as [p m]. rewrite sides_with_store.
  rewrite matchPendingLiqAdd_stuck; [done|done| |].
  - pose proof (wi_count _ _ _ Hin b b (OrderMessage.price msg)).
    pose proof (total_of_nonneg _ _ b (wi_rep _ _ _ Hin)).
    pose proof (proj2 (br_counts _ _ (wi_rep _ _ _ Hin) b) (OrderMessage.price msg)). lia.
  - by rewrite (br_is_sell _ _ (wi_rep _ _ _ Hin)).
Qed.

Lemma expected_bounds : 0 <= expected bk msg <= q.
Proof.
  destruct Hadds as [[_ _ Hn _] _]. unfold expected.
  pose proof (available_nonneg (is_sell_ (sides_ bk b)) (OrderMessage.price msg) _ Hn). lia.
Qed.

Lemma rem_arriving x : rem (arriving msg x) = q - x.
Proof. unfold arriving. rewrite rem_fill. unfold rem. simpl. lia. Qed.

(** Room or not, an arriving order either never returns or keeps the bounds. *)
Lemma within_add :
  match processOrderAddMessage bk msg with
  | Ok (bk', _) => exists B', within bk' B' (T + q) /\ adds_within bk' b U /\
      (forall U', adds_within bk (negb b) U' -> adds_within bk' (negb b) U') /\
      (quiet bk -> quiet bk')
  | Err f => f = Diverges /\ ~ quiet bk /\
      add_loop_ends b (pending_liq_add_qty_ (sides_ bk b)) q (OrderMessage.price msg) = false
  end.
Proof.
  destruct (add_loop_ends b (pending_liq_add_qty_ (sides_ bk b)) q (OrderMessage.price msg)) eqn:Hends.
  2: { rewrite (add_diverges Hends). split_and!; [done| |done]. intros Hquiet. by rewrite Hquiet in Hends. }
  pose proof (within_add_pre Hends) as Hpre. pose proof expected_bounds as Hx.
  destruct (processOrderAddMessage_rep bk B msg Hpre) as (bk' & -> & [Hbk' (pa & Hpa & Hz & Hlen & Hn)]).
  pose proof (wi_rep _ _ _ Hin) as Hbk.
  set (a := arriving msg (expected bk msg)) in *.
  assert (rem a = q - expected bk msg) as Ha by apply rem_arriving.
  assert (order_sane a) as Hsane.
  { pose proof (ap_qty _ _ _ Hpre). split; simpl; lia. }
  destruct Hadds as [Hadd HU].
  exists (aadd_message B b a).1. split_and!.
  - split; [done| |].
    + apply aadd_message_uncrossed; [|done|apply Hin]. intros c. by eapply book_ok_of.
    + intros c d p. rewrite (nt_count _ _ _ Hn). change (OrderMessage.price msg) with (Order.price a).
      pose proof (aadd_message_total B b a d p (fun c => book_ok_of _ _ c Hbk) Hsane).
      pose proof (wi_count _ _ _ Hin c d p) as Hc.
      destruct b, c; simpl in *; lia.
  - eapply (adds_transfer _ _ b _ _ Hbk' Hpa); [apply Hbk| |simpl; lia].
    rewrite (nt_add _ _ _ Hn). by rewrite sides_same.
  - intros U' [Hok' HU']. eapply (adds_transfer _ _ (negb b) _ _ Hbk' Hok'); [apply Hbk| |done].
    rewrite (nt_add _ _ _ Hn). by rewrite sides_other_neg.
  - intros Hquiet c. rewrite (nt_add _ _ _ Hn), sides_with_side.
    destruct (Bool.eqb c b); [|apply Hquiet]. simpl.
    rewrite (Hquiet b) in Hlen. apply nil_length_inv. simpl in Hlen. lia.
Qed.
End arrival.

(** ** Cancellations and trades *)

(** One side shrinks. *)
Lemma within_side bk B T b m s A :
  within bk B T -> side_rep m s A -> is_sell_ s = b -> live A ->
  counts_ok (pending_liq_remove_qty_ s) ->
  side_rep m (sides_ bk (negb b)) (B (negb b)) ->
  (forall x, x ∈ A -> exists y, y ∈ B b /\ y.1 = x.1) -> total_of A <= total_of (B b) ->
  (forall p, count plt p (pending_liq_remove_qty_ s) <=
    count plt p (pending_liq_remove_qty_ (sides_ bk b))) ->
  within (with_side (with_store bk m) b s) (set_book B b A) T.
Proof.
  intros [Hbk Hun Hcount] Hrep Hs Hl Hc Hother Hsub Htot Hle. split.
  - by apply book_rep_set.
  - apply (uncrossed_apart _ b) in Hun. apply (uncrossed_apart _ b).
    rewrite set_book_same, set_book_neg. intros x y Hx Hy.
    destruct (Hsub x Hx) as (x' & Hx' & <-). by apply Hun.
  - intros c d p. assert (total_of (set_book B b A d) <= total_of (B d)) as Hd.
    { unfold set_book. destruct (Bool.eqb d b) eqn:E; [|lia]. by apply eqb_prop in E as ->. }
    specialize (Hcount c d p). specialize (Hle p). rewrite sides_with_side.
    destruct (Bool.eqb c b) eqn:E; [apply eqb_prop in E as ->|]; rewrite ?sides_with_store; lia.
Qed.

Lemma acancel_sub b id r price A x :
  x ∈ (acancel b id r price A).1 -> exists y, y ∈ A /\ y.1 = x.1.
Proof.
  unfold acancel. destruct (_ && _); simpl; [apply aremove_prices|]. intros Hx. by exists x.
Qed.

Lemma zsum_filter {X} (f : X -> Z) (P : X -> Prop) `{!forall x, Decision (P x)} l :
  Forall (fun x => 0 <= f x) l -> zsum f (filter P l) <= zsum f l.
Proof.
  induction 1 as [|x l Hx Hl IH]; [done|]. rewrite zsum_cons.
  destruct (decide (P x)); [rewrite filter_cons_True by done|rewrite filter_cons_False by done];
    rewrite ?zsum_cons; lia.
Qed.

Lemma acancel_total b id r price A :
  Forall order_sane (resting A) -> total_of (acancel b id r price A).1 <= total_of A.
Proof.
  intros Hs. unfold acancel. destruct (_ && _); simpl; [|lia].
  unfold total_of. rewrite resting_aremove. apply zsum_filter.
  eapply Forall_impl; [exact Hs|]. intros o Ho. by apply rem_nonneg.
Qed.

Lemma acancel_live b id r price A : live A -> live (acancel b id r price A).1.
Proof. unfold acancel. destruct (_ && _); simpl; [apply aremove_live|done]. Qed.

Lemma with_store_id bk : with_store bk (store_ bk) = bk.
Proof. by destruct bk. Qed.

(** The contract of a cancellation message. *)
Definition cancelled_by (bk : SmartOrderBook) (B : abooks) (msg : OrderMessage.OrderMessage)
    : abook * OrderInfoVec :=
  let b := OrderMessage.is_sell msg in let q := OrderMessage.quantity msg in
  let price := OrderMessage.price msg in
  acancel b (OrderMessage.id msg)
    (q - Z.min (count plt price (pending_liq_remove_qty_ (sides_ bk b))) q) price (B b).

Lemma quiet_same bk bk' :
  (forall c, pending_liq_add_qty_ (sides_ bk' c) = pending_liq_add_qty_ (sides_ bk c)) ->
  quiet bk -> quiet bk'.
Proof. intros E H c. by rewrite E. Qed.

Lemma within_cancel bk B T msg :
  within bk B T -> 0 <= OrderMessage.quantity msg <= INT_MAX ->
  let b := OrderMessage.is_sell msg in
  exists bk', processOrderCancelMessage bk msg = Ok (bk', (cancelled_by bk B msg).2) /\
    within bk' (set_book B b (cancelled_by bk B msg).1) T /\
    (forall c, pending_liq_add_qty_ (sides_ bk' c) = pending_liq_add_qty_ (sides_ bk c)) /\
    (forall c U, adds_within bk c U -> adds_within bk' c U).
Proof.
  intros Hin Hq b. pose proof (wi_rep _ _ _ Hin) as Hbk.
  unfold processOrderCancelMessage, cancelled_by. fold b.
  destruct (processOrderCancel_rep (store_ bk) (sides_ bk b) (B b) (OrderMessage.id msg)
    (OrderMessage.quantity msg) (OrderMessage.price msg)) as
    (s' & -> & Hrep & Hsell & _ & Hcomp & Hadd & Hc & Hcount); [apply Hbk|apply Hbk|done|].
  rewrite bind_ok. rewrite (br_is_sell _ _ Hbk) in *. eexists. split; [reflexivity|].
  pose proof (proj2 (br_counts _ _ Hbk b) (OrderMessage.price msg)) as Hb.
  rewrite <- (with_store_id bk) at 1. split_and!.
  - apply within_side; try done.
    + apply acancel_live, Hbk.
    + apply Hbk.
    + apply acancel_sub.
    + apply acancel_total. by eapply book_sane_of.
    + intros p. rewrite Hcount. destruct (peq _ p); lia.
  - intros c. rewrite sides_with_side.
    destruct (Bool.eqb c b) eqn:E; [apply eqb_prop in E as ->; done|by rewrite ?sides_with_store].
  - intros c U [Hok HU]. unfold adds_within. rewrite sides_with_side.
    destruct (Bool.eqb c b) eqn:E; [apply eqb_prop in E as ->|by rewrite ?sides_with_store].
    rewrite Hadd. split; [|done]. eapply pending_add_ok_same; [..|exact Hok]; try done.
    by rewrite Hsell, (br_is_sell _ _ Hbk).
Qed.

Lemma keep_level_prices k os x : x ∈ keep_level k os -> x.1 = k.
Proof.
  destruct os; simpl; [by intros ?%not_elem_of_nil|]. by intros ->%list_elem_of_singleton.
Qed.

Lemma afill_best_sub price q A x :
  x ∈ (afill_best price q A).1.1 -> exists y, y ∈ A /\ y.1 = x.1.
Proof.
  destruct A as [|[k os] A]; simpl; [by intros ?%not_elem_of_nil|].
  destruct (peq k price); [|intros Hx; by exists x].
  destruct (afill q os) as [[os' fills] r]; simpl. intros [Hx|Hx]%elem_of_app.
  - exists (k, os). split; [left|]. symmetry. by eapply keep_level_prices.
  - exists x. split; [by right|done].
Qed.

Lemma atrade_sub b price q A x :
  x ∈ (atrade b price q A).1.1 -> exists y, y ∈ A /\ y.1 = x.1.
Proof.
  unfold atrade. destruct (afill_best price q (not_overtaken b price A)) as [[A' fills] r] eqn:E.
  simpl. intros Hx. destruct (afill_best_sub price q (not_overtaken b price A) x) as (y & Hy & Ey);
    [by rewrite E|].
  exists y. split; [|done]. rewrite (proj1 (overtaken_app b price A)).
  apply elem_of_app. by right.
Qed.

Lemma afill_best_total price q A :
  0 <= q -> Forall order_sane (resting A) -> total_of (afill_best price q A).1.1 <= total_of A.
Proof.
  intros Hq. destruct A as [|[k os] A]; [done|]. rewrite resting_cons.
  intros [Hs1 Hs2]%Forall_app. cbn [afill_best]. destruct (peq k price); [|done].
  pose proof (afill_conservation q os) as [Hc _]. pose proof (afill_rest_bounds q os Hq Hs1) as Hr.
  destruct (afill q os) as [[os' fills] r] eqn:E; simpl in *.
  rewrite total_of_app, total_of_cons.
  assert (total_of (keep_level k (survivors os')) = total os') as ->; [|lia].
  unfold total_of. rewrite resting_keep_level. apply survivors_total.
Qed.

Lemma atrade_total b price q A :
  0 <= q -> Forall order_sane (resting A) -> total_of (atrade b price q A).1.1 <= total_of A.
Proof.
  intros Hq Hs. unfold atrade.
  destruct (overtaken_app b price A) as [EA _]. rewrite EA, resting_app in Hs.
  apply Forall_app in Hs as [Hs1 Hs2]. pose proof (afill_best_total price q _ Hq Hs2) as H.
  destruct (afill_best price q (not_overtaken b price A)) as [[A' fills] r]. simpl in *.
  rewrite EA at 1. rewrite total_of_app. pose proof (total_nonneg _ Hs1). unfold total_of in *. lia.
Qed.

Lemma atrade_rest b price q A :
  book_ok b A -> 0 <= q -> 0 <= (atrade b price q A).2 <= q.
Proof.
  intros Hok Hq. unfold atrade.
  assert (book_ok b (not_overtaken b price A)) as Hok'.
  { destruct (overtaken_app b price A) as [EA _]. rewrite EA in Hok. destruct Hok as [H1 H2 H3].
    split.
    - by apply (sorted_app (side_comp b)) in H1 as (_ & ? & _).
    - by apply Forall_app in H2 as [_ ?].
    - rewrite ids_app in H3. by apply NoDup_app in H3 as (_ & _ & ?). }
  pose proof (afill_best_rest price q _ _ Hok' Hq) as H.
  by destruct (afill_best price q (not_overtaken b price A)) as [[A' fills] r].
Qed.

Lemma within_trade_side bk B T b U price q :
  within bk B T -> adds_within bk b U -> 0 <= q -> q <= INT_MAX -> U + q <= INT_MAX ->
  exists m' s' ev B', processTrade (store_ bk) (sides_ bk b) (Trade.mkTrade q price) = Ok (m', s', ev) /\
    within (with_side (with_store bk m') b s') B' T /\
    adds_within (with_side (with_store bk m') b s') b (U + q) /\
    forall U', adds_within bk (negb b) U' ->
      adds_within (with_side (with_store bk m') b s') (negb b) U'.
Proof.
  intros Hin [Hadd HU] Hq HqM HUq. pose proof (wi_rep _ _ _ Hin) as Hbk.
  destruct (processTrade_rep (store_ bk) (sides_ bk b) (B b) price q) as (m' & s' & Hrun & Hht).
  { split; [apply Hbk|apply Hbk|apply Hbk|done|done|lia]. }
  rewrite (br_is_sell _ _ Hbk) in *. eexists m', s', _, _. split; [exact Hrun|].
  destruct Hht as [Hrep Hlive Hsell Hqueue Hkeeps Hc Hremove _ Hpend Htot].
  rewrite (br_is_sell _ _ Hbk) in *.
  pose proof (proj2 (br_counts _ _ Hbk b) price) as Hcp.
  split_and!.
  - apply within_side; try done.
    + eapply rep_keeps_others; [apply Hbk| |exact Hkeeps|done].
      rewrite (br_is_sell _ _ Hbk). by destruct b.
    + apply atrade_sub.
    + apply atrade_total; [lia|]. by eapply book_sane_of.
    + intros p. rewrite Hremove. destruct (peq price p); lia.
  - unfold adds_within. rewrite sides_same. split; [done|]. rewrite Htot.
    pose proof (atrade_rest b price (q - Z.min (count plt price (pending_liq_remove_qty_ (sides_ bk b))) q)
      (B b) (book_ok_of _ _ b Hbk)). lia.
  - intros U' Hother. unfold adds_within. by rewrite sides_other_neg, sides_with_store.
Qed.

(** ** Modifications *)

(** A handler that exists points to an order of the book, and reading it does
    not change the book. *)
Lemma getOrderHandler_known bk B id :
  book_rep bk B -> OrderBook.existOrder bk id = true ->
  exists h o, OrderBook.getOrderHandler bk id = (h, bk) /\
    heap (store_ bk) !! Order.order h = Some o /\ order_sane o.
Proof.
  intros Hbk Hex. unfold OrderBook.existOrder, OrderBook.getOrderHandler in *.
  set (c := negb (BookSide.existOrder (sides_ bk false) id)) in *.
  assert (exists h, order_map_ (sides_ bk c) !! id = Some h) as [h Hh].
  { subst c. unfold BookSide.existOrder in *.
    destruct (order_map_ (sides_ bk false) !! id) as [h|] eqn:E; [by exists h|].
    simpl in *. destruct (order_map_ (ask_side bk) !! id) as [h|]; [by exists h|done]. }
  destruct (handler_order _ _ _ _ _ (br_side _ _ Hbk c) Hh) as (o & Ho & Hin).
  exists h, o. unfold BookSide.getOrderHandler. rewrite Hh. split_and!; [|done|].
  - f_equal. destruct bk, c; done.
  - pose proof (book_sane_of _ _ c Hbk) as Hs. rewrite Forall_forall in Hs. by apply Hs.
Qed.

Lemma within_modify bk B T U msg :
  within bk B T -> (forall c, adds_within bk c U) -> 0 <= OrderMessage.quantity msg ->
  T + OrderMessage.quantity msg <= INT_MAX ->
  match processOrderModifyMessage bk msg with
  | Ok (bk', _) => exists B', within bk' B' (T + OrderMessage.quantity msg) /\
      (forall c, adds_within bk' c U) /\ (quiet bk -> quiet bk')
  | Err f => f = Diverges /\ ~ quiet bk /\ OrderBook.existOrder bk (OrderMessage.id msg) = true /\
      add_loop_ends (OrderMessage.is_sell msg)
        (pending_liq_add_qty_ (sides_ bk (OrderMessage.is_sell msg)))
        (OrderMessage.quantity msg) (OrderMessage.price msg) = false
  end.
Proof.
  intros Hin Hadds Hq HT. destruct msg as [t id b q price]. simpl in *.
  destruct (OrderBook.existOrder bk id) eqn:Hex; simpl.
  2: { exists B. split_and!; [|done..]. destruct Hin as [H1 H2 H3]. split; [done..|].
    intros c d p. specialize (H3 c d p). lia. }
  destruct (getOrderHandler_known bk B id (wi_rep _ _ _ Hin) Hex) as (h & o & -> & Ho & Hs).
  rewrite (deref_ok _ _ _ Ho), bind_ok, (getRemainingQuantity_ok _ Hs), bind_ok.
  destruct (within_cancel bk B T (OrderMessage.mkOrderMessage OrderMessage.CANCEL id b (rem o) price))
    as (bk1 & -> & Hin1 & Hsame & Hadds1); [done|simpl; by apply rem_nonneg|].
  rewrite bind_ok. pose proof (quiet_same _ _ Hsame) as Hquiet1.
  pose proof (within_add bk1 _ T U (OrderMessage.mkOrderMessage OrderMessage.ADD id b q price)
    Hin1 (Hadds1 _ _ (Hadds b)) Hq HT) as H.
  destruct (processOrderAddMessage bk1 _) as [[bk' ev']|f]; simpl in *.
  - destruct H as (B' & Hin' & Hb & Hnb & Hquiet'). exists B'. split_and!; [done| |by auto].
    intros c. destruct (Bool.eqb c b) eqn:E; [by apply eqb_prop in E as ->|].
    assert (c = negb b) as -> by by destruct b, c. apply Hnb, Hadds1, Hadds.
  - destruct H as (-> & H & Hends). rewrite (Hsame b) in Hends. split_and!; [done| |done|done].
    intros Hquiet. by apply H, Hquiet1.
Qed.

(** ** Streams of messages *)

Inductive message : Type :=
  | order_message (msg : OrderMessage.OrderMessage)
  | trade_message (msg : TradeMessage.TradeMessage).

Definition handle (bm : BookManager) (msg : message) : outcome BookManager :=
  match msg with
  | order_message msg => '(bm, _) ← processOrderMessage bm msg; Ok bm
  | trade_message msg => processTradeMessage bm msg
  end.

Fixpoint session (bm : BookManager) (msgs : list message) : outcome BookManager :=
  match msgs with
  | [] => Ok bm
  | msg :: msgs => bm ← handle bm msg; session bm msgs
  end.

(** The quantity that the message carries, and what it can bring into the
    book: cancellations bring nothing. *)
Definition carried (msg : message) : Z :=
  match msg with
  | order_message msg => OrderMessage.quantity msg
  | trade_message msg => TradeMessage.quantity msg
  end.

Definition volume (msg : message) : Z :=
  match msg with
  | order_message msg =>
      match OrderMessage.type msg with
      | OrderMessage.ADD | OrderMessage.MODIFY => OrderMessage.quantity msg
      | _ => 0
      end
  | trade_message msg => TradeMessage.quantity msg
  end.

Definition is_trade (msg : message) : bool :=
  match msg with order_message _ => false | trade_message _ => true end.

(** The invariant of sessions. *)
Definition sound (bm : BookManager) (T : Z) : Prop :=
  exists B, within (book_ bm) B T /\ forall b, adds_within (book_ bm) b T.

Lemma within_mono bk B T T' : within bk B T -> T <= T' -> within bk B T'.
Proof. intros [H1 H2 H3] Hle. split; [done..|]. intros b c p. specialize (H3 b c p). lia. Qed.

Lemma adds_mono bk b U U' : adds_within bk b U -> U <= U' -> adds_within bk b U'.
Proof. intros [H1 H2] Hle. split; [done|lia]. Qed.

Lemma trade_message_sound bk B T msg :
  within bk B T -> (forall b, adds_within bk b T) -> 0 <= TradeMessage.quantity msg ->
  0 <= T -> T + TradeMessage.quantity msg <= INT_MAX ->
  exists bk' ev B', OrderBook.processTradeMessage bk msg = Ok (bk', ev) /\ within bk' B' T /\
    forall b, adds_within bk' b (T + TradeMessage.quantity msg).
Proof.
  intros Hin Hadds Hq HT HTq. unfold OrderBook.processTradeMessage, TradeMessage.toTrade.
  destruct (within_trade_side bk B T false T (TradeMessage.price msg) (TradeMessage.quantity msg))
    as (m1 & s1 & ev1 & B1 & -> & Hin1 & Ha1 & Hother1); [done|apply Hadds|lia..|].
  rewrite bind_ok.
  destruct (within_trade_side _ B1 T true T (TradeMessage.price msg) (TradeMessage.quantity msg)
    Hin1 (Hother1 T (Hadds true)))
    as (m2 & s2 & ev2 & B2 & -> & Hin2 & Ha2 & Hother2); [lia..|].
  rewrite bind_ok. eexists _, _, B2. split; [reflexivity|]. split; [done|].
  intros [|]; [done|]. by apply (Hother2 _ Ha1).
Qed.

Lemma add_sound bk B T msg :
  within bk B T -> (forall b, adds_within bk b T) -> 0 <= OrderMessage.quantity msg ->
  T + OrderMessage.quantity msg <= INT_MAX ->
  match processOrderAddMessage bk msg with
  | Ok (bk', _) => exists B', within bk' B' (T + OrderMessage.quantity msg) /\
      (forall b, adds_within bk' b T) /\ (quiet bk -> quiet bk')
  | Err f => f = Diverges /\ ~ quiet bk /\
      add_loop_ends (OrderMessage.is_sell msg)
        (pending_liq_add_qty_ (sides_ bk (OrderMessage.is_sell msg)))
        (OrderMessage.quantity msg) (OrderMessage.price msg) = false
  end.
Proof.
  intros Hin Hadds Hq HT. pose proof (within_add bk B T T msg Hin (Hadds _) Hq HT) as H.
  destruct (processOrderAddMessage bk msg) as [[bk' ev]|f]; [|done].
  destruct H as (B' & Hin' & Hb & Hnb & Hquiet). exists B'. split_and!; [done| |done].
  intros c. destruct (Bool.eqb c (OrderMessage.is_sell msg)) eqn:E; [by apply eqb_prop in E as ->|].
  assert (c = negb (OrderMessage.is_sell msg)) as -> by by destruct c, (OrderMessage.is_sell msg).
  by apply Hnb.
Qed.

(** The manager is caught by the message: it is an order that arrives, or changes
    an order of the book, and [matchPendingLiqAdd] never returns for it, whatever
    the fuel. *)
Definition caught (bm : BookManager) (msg : message) : Prop :=
  match msg with
  | order_message msg =>
      (OrderMessage.type msg = OrderMessage.ADD \/
       OrderMessage.type msg = OrderMessage.MODIFY /\
       OrderBook.existOrder (book_ bm) (OrderMessage.id msg) = true) /\
      forall fuel, matchPendingLiqAdd_loop fuel (sides_ (book_ bm) (OrderMessage.is_sell msg))
                     (OrderMessage.quantity msg) (OrderMessage.price msg) 0 = Err Diverges
  | trade_message _ => False
  end.

Lemma stuck_loop bk B T msg :
  within bk B T -> (forall b, adds_within bk b T) -> 0 <= OrderMessage.quantity msg <= INT_MAX ->
  add_loop_ends (OrderMessage.is_sell msg) (pending_liq_add_qty_ (sides_ bk (OrderMessage.is_sell msg)))
    (OrderMessage.quantity msg) (OrderMessage.price msg) = false ->
  forall fuel, matchPendingLiqAdd_loop fuel (sides_ bk (OrderMessage.is_sell msg))
                 (OrderMessage.quantity msg) (OrderMessage.price msg) 0 = Err Diverges.
Proof.
  intros Hin Hadds Hq Hends fuel. destruct (Hadds (OrderMessage.is_sell msg)) as [Hok _].
  apply matchPendingLiqAdd_stuck; [done|done|]. by rewrite (br_is_sell _ _ (wi_rep _ _ _ Hin)).
Qed.

(** One message. *)
Lemma handle_sound bm T msg :
  sound bm T -> 0 <= T -> 0 <= carried msg <= INT_MAX -> T + volume msg <= INT_MAX ->
  match handle bm msg with
  | Ok bm' => sound bm' (T + volume msg) /\
      (is_trade msg = false -> quiet (book_ bm) -> quiet (book_ bm'))
  | Err f => f = Diverges /\ (is_trade msg = false -> ~ quiet (book_ bm)) /\ caught bm msg
  end.
Proof.
  intros (B & Hin & Hadds) HT Hc Hv. destruct msg as [msg|msg].
  - simpl in *. unfold processOrderMessage.
    destruct (OrderMessage.type msg) eqn:Et; rewrite ?bind_assoc;
      try (rewrite bind_ok, Z.add_0_r; split; [by exists B|done]).
    + pose proof (add_sound _ _ _ msg Hin Hadds (proj1 Hc) Hv) as H.
      destruct (processOrderAddMessage (book_ bm) msg) as [[bk' ev]|f].
      2: { destruct H as (-> & Hnq & Hends). split; [done|]. split; [done|]. split; [by left|].
           by eapply stuck_loop. }
      destruct H as (B' & Hin' & Ha' & Hquiet). rewrite !bind_ok. split; [|done].
      exists B'. split; [done|]. intros b. eapply adds_mono; [apply Ha'|lia].
    + destruct (within_cancel _ _ _ msg Hin Hc) as (bk' & -> & Hin' & Hsame & Ha').
      rewrite !bind_ok, Z.add_0_r. split; [|intros _; by apply quiet_same].
      eexists. split; [exact Hin'|]. intros b. by apply Ha'.
    + pose proof (within_modify _ _ _ T msg Hin Hadds (proj1 Hc) Hv) as H.
      destruct (processOrderModifyMessage (book_ bm) msg) as [[bk' ev]|f].
      2: { destruct H as (-> & Hnq & Hex & Hends). split; [done|]. split; [done|]. split; [by right|].
           by eapply stuck_loop. }
      destruct H as (B' & Hin' & Ha' & Hquiet). rewrite !bind_ok. split; [|done].
      exists B'. split; [done|]. intros b. eapply adds_mono; [apply Ha'|lia].
  - simpl in *. unfold processTradeMessage.
    destruct (trade_message_sound _ _ _ msg Hin Hadds (proj1 Hc) HT Hv)
      as (bk' & ev & B' & -> & Hin' & Ha').
    rewrite bind_ok. split; [|done]. exists B'. split; [|done]. eapply within_mono; [done|lia].
Qed.

Lemma volume_bounds msg : 0 <= carried msg -> 0 <= volume msg <= carried msg.
Proof. destruct msg as [msg|msg]; simpl; [|lia]. destruct (OrderMessage.type msg); lia. Qed.

Lemma session_from bm T msgs :
  sound bm T -> 0 <= T -> Forall (fun msg => 0 <= carried msg <= INT_MAX) msgs ->
  T + zsum volume msgs <= INT_MAX ->
  match session bm msgs with
  | Ok bm' => sound bm' (T + zsum volume msgs) /\
      (Forall (fun msg => is_trade msg = false) msgs -> quiet (book_ bm) -> quiet (book_ bm'))
  | Err f => f = Diverges /\
      (Forall (fun msg => is_trade msg = false) msgs -> ~ quiet (book_ bm)) /\
      exists before msg after bm1, msgs = before ++ msg :: after /\ session bm before = Ok bm1 /\
        sound bm1 (T + zsum volume before) /\ caught bm1 msg
  end.
Proof.
  intros Hs HT Hc. revert bm T Hs HT. induction Hc as [|msg msgs Hm Hc IH]; intros bm T Hs HT Hv.
  { simpl. by rewrite Z.add_0_r. }
  rewrite zsum_cons in Hv |- *. pose proof (volume_bounds msg (proj1 Hm)) as Hvm.
  assert (0 <= zsum volume msgs) as Hvs.
  { apply zsum_nonneg. eapply Forall_impl; [exact Hc|]. intros x Hx. apply volume_bounds, Hx. }
  pose proof (handle_sound bm T msg Hs HT Hm ltac:(lia)) as H. cbn [session].
  destruct (handle bm msg) as [bm1|f] eqn:Eh.
  - rewrite bind_ok. destruct H as [Hs1 Hq1].
    specialize (IH bm1 (T + volume msg) Hs1 ltac:(lia) ltac:(lia)).
    rewrite Z.add_assoc. destruct (session bm1 msgs) as [bm'|f].
    + destruct IH as [Hs' Hq']. split; [done|]. intros [Ht Hts]%Forall_cons Hquiet. auto.
    + destruct IH as (-> & Hq' & before & msg' & after & bm2 & -> & Hb & Hs2 & Hcaught). split_and!; [done| |].
      * intros [Ht Hts]%Forall_cons Hquiet. by apply (Hq' Hts), Hq1.
      * exists (msg :: before), msg', after, bm2. cbn [session]. rewrite Eh, bind_ok, zsum_cons, Z.add_assoc.
        by split_and!.
  - destruct H as (-> & Hq1 & Hcaught). split_and!; [done| |].
    + by intros [Ht _]%Forall_cons; apply Hq1.
    + exists [], msg, msgs, bm. by rewrite zsum_nil, Z.add_0_r.
Qed.

(** The empty book. *)
Lemma new_side_rep b : side_rep emptyStore (new_BookSide b (side_comp b)) [].
Proof.
  split; simpl; [done|constructor| |].
  - split; simpl; try constructor. intros Hh. by rewrite lookup_empty in Hh.
    by intros ?%not_elem_of_nil.
  - split; [constructor|constructor|constructor].
Qed.

Lemma new_sound : sound new_BookManager 0 /\ quiet (book_ new_BookManager).
Proof.
  split; [|by intros []]. exists (fun _ => []). split.
  - split.
    + split; intros b; [destruct b; apply new_side_rep|by destruct b|constructor|].
      destruct b; (split; [constructor|intros p; by unfold count]).
    + intros x y Hx. by apply not_elem_of_nil in Hx.
    + intros b c p. by destruct b, c.
  - intros b. destruct b; (split; [split; simpl; try done; constructor|done]).
Qed.
