(* ===== verification/Scenarios.v ===== *)
(** * The scenarios of the test suite, run on the model

    src/tests/test_book_side.cpp and src/tests/test_order_book.cpp build a book,
    send it messages and compare the printed L2 book and the events with what
    they expect.  The model gives the same texts and the same events. *)

From S2P Require Import Prelude Outcome StdMap Price Common Order L2Level Level Messages BookSide BookSpec Matching.
From S2P Require Import SideRep Crossed PendingLiq TradeSide ModifySide Format L2Book BookManager OrderBook BookInv Session.

(** ** A concrete book

    Asks 20@100 (order 1), 40@100 (order 2), 50@101 (order 3) and the bid
    30@99 (order 4) in one store, with the proof that the concrete state
    represents them: the state in which the theorems are tried. *)

Definition o1 : Order := mkOrder 1 true 20 (px 100) 0.
Definition o2 : Order := mkOrder 2 true 40 (px 100) 0.
Definition o3 : Order := mkOrder 3 true 50 (px 101) 0.
Definition o4 : Order := mkOrder 4 false 30 (px 99) 0.

Definition sample_store : Store :=
  mkStore (list_to_map [(2, o1); (4, o2); (6, o3); (8, o4)]%positive) 10.

Definition ask_book : abook := [(px 100, [o1; o2]); (px 101, [o3])].
Definition bid_book : abook := [(px 99, [o4])].

Definition ask_levels : smap Price L3PriceLevel :=
  [(px 100, mkL3PriceLevel (px 100) 60 2 [(3, 2); (5, 4)]%positive);
   (px 101, mkL3PriceLevel (px 101) 50 1 [(7, 6)]%positive)].
Definition bid_levels : smap Price L3PriceLevel :=
  [(px 99, mkL3PriceLevel (px 99) 30 1 [(9, 8)]%positive)].

Definition sample_side (b : bool) : BookSide :=
  mkBookSide b (side_comp b) (if b then ask_levels else bid_levels)
    (list_to_map (bindings (cells (if b then ask_levels else bid_levels))
      (resting (if b then ask_book else bid_book)))) [] [] [].

Definition sample_book : SmartOrderBook :=
  mkSmartOrderBook sample_store (sample_side false) (sample_side true).
Definition sample_books : abooks := fun b => if b then ask_book else bid_book.

Lemma bindings_fst C O : length C = length O -> (bindings C O).*1 = Order.odid <$> O.
Proof.
  revert O; induction C as [|[n p] C IH]; intros [|o O]; try done.
  intros [= H]. rewrite bindings_cons, !fmap_cons, IH by done. done.
Qed.

Lemma flat_rep_of_list m C O :
  Forall2 (fun c o => heap m !! c.2 = Some o) C O -> NoDup C.*2 -> NoDup C.*1 ->
  NoDup (Order.odid <$> O) ->
  Forall (fun c => (c.1 < next m)%positive /\ (c.2 < next m)%positive) C ->
  flat_rep m (list_to_map (bindings C O)) C O.
Proof.
  intros Hh Hp Hn Hid Hf. split; try done. intros id h.
  symmetry. apply elem_of_list_to_map.
  rewrite bindings_fst; [done|]. by eapply Forall2_length.
Qed.

Lemma ask_book_ok : book_ok true ask_book.
Proof.
  split.
  - repeat constructor; by vm_compute.
  - repeat constructor; try done; by vm_compute.
  - apply (bool_decide_unpack _). by vm_compute.
Qed.

Lemma bid_book_ok : book_ok false bid_book.
Proof.
  split.
  - repeat constructor; by vm_compute.
  - repeat constructor; try done; by vm_compute.
  - apply (bool_decide_unpack _). by vm_compute.
Qed.

Lemma sample_rep b : side_rep sample_store (sample_side b) (sample_books b).
Proof.
  split; [done| | |destruct b; [apply ask_book_ok|apply bid_book_ok]].
  - destruct b; repeat constructor.
  - apply flat_rep_of_list; [destruct b; repeat constructor|..]; apply (bool_decide_unpack _); destruct b; by vm_compute.
Qed.

Lemma sample_counts b : counts_ok (pending_liq_remove_qty_ (sample_side b)).
Proof. split; [constructor|]. intros p. by destruct b. Qed.

Lemma sample_live b : live (sample_books b).
Proof. destruct b; repeat constructor. Qed.

Lemma sample_book_rep : book_rep sample_book sample_books.
Proof.
  split; intros b.
  - destruct b; apply sample_rep.
  - by destruct b.
  - apply sample_live.
  - destruct b; apply sample_counts.
Qed.

Lemma sample_uncrossed : uncrossed sample_books.
Proof.
  intros x y Hx Hy. simpl in *. apply list_elem_of_singleton in Hx as ->.
  apply elem_of_cons in Hy as [->|Hy]; [by vm_compute|].
  apply list_elem_of_singleton in Hy as ->. by vm_compute.
Qed.

Lemma sample_pending b : pending_add_ok (sample_side b).
Proof. split; [done|constructor|constructor|done]. Qed.

Definition line (text : string) : string := text +:+ endl.
Definition lines (texts : list string) : string := foldr (fun t rest => line t +:+ rest) "" texts.

Definition text_of {A} (print : A -> string) (r : outcome A) : string :=
  match r with Ok a => print a | Err _ => "error" end.

(** ** One side: test_book_side.cpp *)

Definition add_to (r : outcome (Store * BookSide)) (o : Order) : outcome (Store * BookSide) :=
  '(m, s) ← r; let '(p, m) := make_shared m o in addOrder m s p.

(** [SetUp] *)
Definition side_setup : outcome (Store * BookSide) :=
  foldl add_to (Ok (emptyStore, new_BookSide true AskComparator))
    [new_Order 1 true 40 (px 104); new_Order 2 true 80 (px 103); new_Order 3 true 60 (px 102);
     new_Order 4 true 50 (px 101); new_Order 5 true 60 (px 100)].

(** [getCurL2Book] *)
Definition side_text (ms : Store * BookSide) : string :=
  foldr (fun kl rest => "A " +:+ print_L2PriceLevel (Level.getL2Level kl.2) +:+ rest) ""
    (rev (levels_ ms.2)).

(** The L2 text and the events of a step on the side that [SetUp] builds. *)
Definition on_side (f : Store -> BookSide -> outcome (Store * BookSide * OrderInfoVec))
    : string * OrderInfoVec :=
  match '(m, s) ← side_setup; f m s with
  | Ok (m, s, events) => (side_text (m, s), events)
  | Err _ => ("error", [])
  end.

Example initializationTest : text_of side_text side_setup =
  lines ["A L2: 40@104.00"; "A L2: 80@103.00"; "A L2: 60@102.00"; "A L2: 50@101.00"; "A L2: 60@100.00"].
Proof. vm_compute. reflexivity. Qed.

Example addOrderTest :
  text_of side_text (foldl add_to side_setup
    [new_Order 1 true 10 (px 101); new_Order 6 true 10 (px 101); new_Order 7 true 20 (px 105)]) =
  lines ["A L2: 20@105.00"; "A L2: 40@104.00"; "A L2: 80@103.00"; "A L2: 60@102.00";
         "A L2: 60@101.00"; "A L2: 60@100.00"].
Proof. vm_compute. reflexivity. Qed.

Example removeOrderTest :
  text_of side_text ('(m, s) ← side_setup; s ← removeOrders m s [10; 1]; Ok (m, s)) =
  lines ["A L2: 80@103.00"; "A L2: 60@102.00"; "A L2: 50@101.00"; "A L2: 60@100.00"].
Proof. vm_compute. reflexivity. Qed.

Example modifyOrderTest :
  text_of side_text ('(m, s) ← side_setup; '(m, s) ← modifyOrder m s 10 20 (px 101);
    '(m, s) ← modifyOrder m s 1 80 (px 104); modifyOrder m s 2 60 (px 102)) =
  lines ["A L2: 80@104.00"; "A L2: 120@102.00"; "A L2: 50@101.00"; "A L2: 60@100.00"].
Proof. vm_compute. reflexivity. Qed.

Definition cross (o : Order) (m : Store) (s : BookSide)
    : outcome (Store * BookSide * OrderInfoVec) :=
  let '(p, m) := make_shared m o in processCrossedOrder m s p.

Example orderSteamLeadTest1 : on_side (cross (new_Order 6 false 100 (px 102))) =
  (lines ["A L2: 40@104.00"; "A L2: 80@103.00"; "A L2: 60@102.00"; "A L2: 10@101.00"],
   [mkOrderInfo EXEC 5 true 60 (px 100); mkOrderInfo EXEC 4 true 40 (px 101)]).
Proof. vm_compute. reflexivity. Qed.

Example orderSteamLeadTest4 :
  on_side (cross (set_filled_quantity (new_Order 6 false 100 (px 102)) 80)) =
  (lines ["A L2: 40@104.00"; "A L2: 80@103.00"; "A L2: 60@102.00"; "A L2: 50@101.00";
          "A L2: 40@100.00"],
   [mkOrderInfo EXEC 5 true 20 (px 100)]).
Proof. vm_compute. reflexivity. Qed.

Example tradeSteamLeadTest3 :
  on_side (fun m s => processTrade m s (Trade.mkTrade 20 (px 102))) =
  (lines ["A L2: 40@104.00"; "A L2: 80@103.00"; "A L2: 40@102.00"],
   [mkOrderInfo CANCEL 5 true 60 (px 100); mkOrderInfo CANCEL 4 true 50 (px 101);
    mkOrderInfo EXEC 3 true 20 (px 102)]).
Proof. vm_compute. reflexivity. Qed.

(** The matches of [tradeSteamLeadTest4] after a trade 30@99. *)
Example tradeSteamLeadTest4 :
  ('(m, s) ← side_setup; '(m, s, _) ← processTrade m s (Trade.mkTrade 30 (px 99));
   '(a, s) ← matchPendingLiqAdd s 10 (px 100); '(b, s) ← matchPendingLiqAdd s 10 (px 99);
   '(c, s) ← matchPendingLiqAdd s 10 (px 98); '(d, s) ← matchPendingLiqAdd s 10 (px 90);
   Ok [a; b; c; d]) = Ok [0; 10; 10; 10].
Proof. vm_compute. reflexivity. Qed.

Example l2SnapshotLeadOddSnapTest :
  (on_side (fun m s => processL2Snapshot m s [mkL2PriceLevel (px 130) 30;
    mkL2PriceLevel (px 120) 20; mkL2PriceLevel (px 95) 80; mkL2PriceLevel (px 90) 40])).1 =
  lines ["A L2: 30@130.00"; "A L2: 20@120.00"; "A L2: 80@95.00"; "A L2: 40@90.00"].
Proof. vm_compute. reflexivity. Qed.

Example l2SnapshotLeadMoreOddSnapTest :
  (on_side (fun m s => processL2Snapshot m s [mkL2PriceLevel (px 105) 20; mkL2PriceLevel (px 103) 10])).1 =
  lines ["A L2: 20@105.00"; "A L2: 10@103.00"].
Proof. vm_compute. reflexivity. Qed.

(** ** The whole book: test_order_book.cpp *)

Definition order_msg (t : OrderMessage.MessageType) (id : OrderId) (b : bool) (q : Quantity)
    (p : Price) : OrderMessage.OrderMessage := OrderMessage.mkOrderMessage t id b q p.

Inductive step : Type :=
  | Add (id : OrderId) (b : bool) (q : Quantity) (p : Price)
  | Cancel (id : OrderId) (b : bool) (q : Quantity) (p : Price)
  | Modify (id : OrderId) (b : bool) (q : Quantity) (p : Price)
  | Deal (q : Quantity) (p : Price)
  | Snap (bids asks : L2SnapshotSide).

Definition take_step (book : SmartOrderBook) (st : step) : outcome (SmartOrderBook * OrderInfoVec) :=
  match st with
  | Add id b q p => processOrderAddMessage book (order_msg OrderMessage.ADD id b q p)
  | Cancel id b q p => processOrderCancelMessage book (order_msg OrderMessage.CANCEL id b q p)
  | Modify id b q p => processOrderModifyMessage book (order_msg OrderMessage.MODIFY id b q p)
  | Deal q p => processTradeMessage book (TradeMessage.mkTradeMessage q p)
  | Snap bids asks => processSnapshotMessage book (SnapshotMessage.mkSnapshotMessage bids asks)
  end.

Definition steps (r : outcome SmartOrderBook) (l : list step) : outcome SmartOrderBook :=
  foldl (fun r st => book ← r; '(book, _) ← take_step book st; Ok book) r l.

(** [addOrders]: [n] orders of 10 with consecutive ids. *)
Definition adds (id : OrderId) (n : nat) (b : bool) (p : Price) : list step :=
  (fun i => Add (id + Z.of_nat i) b 10 p) <$> seq 0 n.

Definition book_setup : outcome SmartOrderBook :=
  steps (Ok new_SmartOrderBook)
    (adds 1 6 true (px 104) ++ adds 7 7 true (px 103) ++ adds 14 11 true (px 102) ++
     adds 25 3 true (px 101) ++ adds 28 2 false (px 95) ++ adds 30 13 false (px 94) ++
     adds 43 7 false (px 93) ++ adds 50 5 false (px 92)).

Definition book_text (r : outcome SmartOrderBook) : string :=
  text_of (fun book => print_L2Book (getL2Book book).1) r.

Definition after (l : list step) : string := book_text (steps book_setup l).

Definition low_bids : list string := ["B L2: 130@94.00"; "B L2: 70@93.00"; "B L2: 50@92.00"].

Example book_initializationTest : after [] =
  lines (["A L2: 60@104.00"; "A L2: 70@103.00"; "A L2: 110@102.00"; "A L2: 30@101.00";
          "B L2: 20@95.00"] ++ low_bids).
Proof. vm_compute. reflexivity. Qed.

(** The expected trades do not change the book, the unexpected one does. *)
Example book_orderSteamLeadTest2 :
  after [Add 100 false 50 (px 101); Deal 10 (px 101); Deal 10 (px 101); Deal 10 (px 101)] =
  lines (["A L2: 60@104.00"; "A L2: 70@103.00"; "A L2: 110@102.00"; "B L2: 20@101.00";
          "B L2: 20@95.00"] ++ low_bids) /\
  after [Add 100 false 50 (px 101); Deal 10 (px 101); Deal 10 (px 101); Deal 10 (px 101);
         Deal 10 (px 101)] =
  lines (["A L2: 60@104.00"; "A L2: 70@103.00"; "A L2: 110@102.00"; "B L2: 10@101.00";
          "B L2: 20@95.00"] ++ low_bids).
Proof. vm_compute. split; reflexivity. Qed.

(** A trade, the late cancellations, and the aggressive order behind it. *)
Example book_tradeSteamLeadTest2 :
  after [Deal 10 (px 102); Cancel 25 true 10 (px 101); Cancel 26 true 10 (px 101);
         Cancel 27 true 10 (px 101); Add 100 false 10 (px 102)] =
  lines (["A L2: 60@104.00"; "A L2: 70@103.00"; "A L2: 100@102.00"; "B L2: 20@95.00"] ++ low_bids).
Proof. vm_compute. reflexivity. Qed.

Example book_tradeSteamLeadTest4 :
  after [Deal 10 (px 99); Add 100 false 10 (px 99); Add 101 true 10 (px 99);
         Add 102 false 10 (px 98); Add 103 true 10 (px 99)] =
  lines (["A L2: 60@104.00"; "A L2: 70@103.00"; "A L2: 110@102.00"; "A L2: 30@101.00";
          "A L2: 10@99.00"; "B L2: 10@98.00"; "B L2: 20@95.00"] ++ low_bids).
Proof. vm_compute. reflexivity. Qed.

Example book_testOrderModifAndOrderLeadTrade :
  after [Modify 1 true 10 (px 95); Deal 10 (px 95)] =
  lines (["A L2: 50@104.00"; "A L2: 70@103.00"; "A L2: 110@102.00"; "A L2: 30@101.00";
          "B L2: 10@95.00"] ++ low_bids).
Proof. vm_compute. reflexivity. Qed.

Example book_testL2SnapLeadLiqAdd :
  after [Snap [mkL2PriceLevel (px 95) 30; mkL2PriceLevel (px 94) 130; mkL2PriceLevel (px 93) 70;
               mkL2PriceLevel (px 92) 50]
              [mkL2PriceLevel (px 104) 60; mkL2PriceLevel (px 103) 70; mkL2PriceLevel (px 102) 110;
               mkL2PriceLevel (px 101) 40];
         Add 100 true 10 (px 101); Add 101 false 10 (px 95)] =
  lines (["A L2: 60@104.00"; "A L2: 70@103.00"; "A L2: 110@102.00"; "A L2: 40@101.00";
          "B L2: 30@95.00"] ++ low_bids).
Proof. vm_compute. reflexivity. Qed.
