(* ===== verification/SideTheorems.v ===== *)
(** * Properties of one side of the book

    The contracts of the operations of [BookSide], each tried on the book of
    Scenarios.v. *)

From S2P Require Import Prelude Outcome StdMap Price Common Order L2Level Level Messages BookSide.
From S2P Require Import BookSpec Matching SideRep Crossed PendingLiq TradeSide.
From S2P Require Import ModifySide Format L2Book OrderBook BookInv BookManager Session.
From S2P Require Import Scenarios.

(** ** Aggressive orders *)

(** A store in which a bid of 50@101 has arrived. *)
Definition buy_50 : Order := mkOrder 9 false 50 (px 101) 0.
Definition store_50 : Store := mkStore (<[10%positive := buy_50]> (heap sample_store)) 11.

Lemma store_50_rep b : side_rep store_50 (sample_side b) (sample_books b).
Proof.
  eapply rep_frame; [apply sample_rep|done|]. intros p Hp. simpl. apply lookup_insert_ne.
  intros <-. pose proof (rep_pointer_fresh _ _ _ _ (sample_rep b) Hp). done.
Qed.

Lemma buy_50_pre : crossed_pre 10%positive store_50 (sample_side true) ask_book buy_50.
Proof.
  split; [apply (store_50_rep true)|apply (sample_live true)|done|done|by split|].
  repeat constructor; by vm_compute.
Qed.

(** C4. [processCrossedOrder] refines the walk over the book: whatever the book
    and the aggressor, it completes (no failed assertion, no dangling pointer,
    no overflow, the loop ends), returns one EXEC event per fill in the order
    of the fills, and leaves a side that represents the matched book, with the
    aggressor filled by what was taken, the snapshots and the expected trades
    noted, and the other side untouched. *)
Theorem processCrossedOrder_refines m s A agg a :
  crossed_pre agg m s A a ->
  exists m' s',
    processCrossedOrder m s agg =
      Ok (m', s', exec_events (is_sell_ s)
        (amatch_fills (is_sell_ s) (Order.price a) (rem a) A)) /\
    has_crossed agg [] A a m s m' s'.
Proof. apply processCrossedOrder_rep. Qed.

Lemma processCrossedOrder_refines_witness :
  exists m' s', processCrossedOrder store_50 (sample_side true) 10%positive =
    Ok (m', s', [mkOrderInfo EXEC 1 true 20 (px 100); mkOrderInfo EXEC 2 true 30 (px 100)]) /\
    has_crossed 10%positive [] ask_book buy_50 store_50 (sample_side true) m' s'.
Proof. exact (processCrossedOrder_refines _ _ _ _ _ buy_50_pre). Defined.

(** C5. Price-time priority: the orders that [processCrossedOrder] fills are
    the crossing ones, taken in one queue sorted by price and then by arrival:
    those of a prefix completely, at most one more in part, the others not at
    all.  What is filled completely leaves, and the orders that do not cross
    keep their places. *)
Theorem processCrossedOrder_priority m s A agg a :
  crossed_pre agg m s A a ->
  exists A1 A2 os1 os2 m' s' A',
    A = A1 ++ A2 /\
    Forall (fun x : Price * list Order => crosses (is_sell_ s) x.1 (Order.price a) = true) A1 /\
    Forall (fun x : Price * list Order => crosses (is_sell_ s) x.1 (Order.price a) = false) A2 /\
    processCrossedOrder m s agg =
      Ok (m', s', exec_events (is_sell_ s) (afill_fills (rem a) (resting A1))) /\
    side_rep m' s' A' /\
    resting A' = survivors (afill_orders (rem a) (resting A1)) ++ resting A2 /\
    resting A1 = os1 ++ os2 /\
    (afill_orders (rem a) (resting A1) = ((fun o => fill o (rem o)) <$> os1) ++ os2 \/
     exists o x t, os2 = o :: t /\ 0 < x < rem o /\
       afill_orders (rem a) (resting A1) =
         ((fun o => fill o (rem o)) <$> os1) ++ fill o x :: t).
Proof.
  intros Hpre. destruct (processCrossedOrder_rep _ _ _ _ _ Hpre) as (m' & s' & Hrun & Hhc).
  destruct Hpre as [Hrep Hlive _ _ Hsane _]. pose proof (rem_nonneg a Hsane) as Hr.
  pose proof (rep_resting_sane _ _ _ Hrep) as Hs.
  destruct (crosses_split (is_sell_ s) (Order.price a) A (bk_sorted _ _ (sr_ok _ _ _ Hrep)))
    as (A1 & A2 & -> & H1 & H2).
  apply live_app in Hlive as [Hl1 _]. rewrite resting_app in Hs. apply Forall_app in Hs as [Hs1 _].
  destruct (amatch_flat (is_sell_ s) (Order.price a) A1 A2 (rem a) H1 H2) as (Eb & Ef & _);
    [lia|done|done|].
  destruct (afill_fifo (rem a) (resting A1) (proj1 Hr) Hs1) as (os1 & os2 & E & Hfifo).
  rewrite Ef in Hrun.
  exists A1, A2, os1, os2, m', s',
    (amatch_book (is_sell_ s) (Order.price a) (rem a) (A1 ++ A2)).
  split_and!; [done|done|done|exact Hrun|apply Hhc|exact Eb|exact E|exact Hfifo].
Qed.

Lemma processCrossedOrder_priority_witness :
  exists A1 A2 os1 os2 m' s' A', ask_book = A1 ++ A2 /\ side_rep m' s' A' /\
    processCrossedOrder store_50 (sample_side true) 10%positive =
      Ok (m', s', exec_events true (afill_fills 50 (resting A1))) /\
    resting A1 = os1 ++ os2.
Proof.
  destruct (processCrossedOrder_priority _ _ _ _ _ buy_50_pre)
    as (A1 & A2 & os1 & os2 & m' & s' & A' & E & _ & _ & Hrun & Hrep & _ & E1 & _).
  exists A1, A2, os1, os2, m', s', A'. split; [exact E|]. split; [exact Hrep|].
  split; [exact Hrun|exact E1].
Defined.

(** The quantities of execution events. *)
Definition executed (events : OrderInfoVec) : Z :=
  zsum (fun e => if bool_decide (Common.event e = EXEC) then Common.quantity e else 0) events.

Lemma executed_exec_events b fills : executed (exec_events b fills) = zsum snd fills.
Proof.
  induction fills as [|[o x] fills IH]; [done|]. rewrite exec_events_cons.
  unfold executed in *. rewrite !zsum_cons, IH. done.
Qed.

(** C6. Nothing is lost in an uncrossing: the quantity of the execution events
    is what the side loses and what the aggressor is filled by, and it is not
    more than the aggressor asked for. *)
Theorem processCrossedOrder_conserves m s A agg a :
  crossed_pre agg m s A a ->
  exists m' s' events A' taken,
    processCrossedOrder m s agg = Ok (m', s', events) /\ side_rep m' s' A' /\
    heap m' !! agg = Some (fill a taken) /\ 0 <= taken <= rem a /\
    executed events = taken /\ total_of A - total_of A' = taken.
Proof.
  intros Hpre. destruct (processCrossedOrder_rep _ _ _ _ _ Hpre) as (m' & s' & Hrun & Hhc).
  destruct Hpre as [Hrep _ _ _ Hsane _]. pose proof (rem_nonneg a Hsane) as Hr.
  destruct (amatch_conservation (is_sell_ s) (Order.price a) (rem a) A) as (H1 & H2 & H3 & _);
    [lia|by eapply rep_resting_sane|].
  eexists m', s', _, _, (rem a - amatch_rest (is_sell_ s) (Order.price a) (rem a) A).
  split; [exact Hrun|]. split; [apply Hhc|].
  split; [apply Hhc|]. rewrite executed_exec_events. simpl app. lia.
Qed.

Lemma processCrossedOrder_conserves_witness :
  exists m' s' events A' taken,
    processCrossedOrder store_50 (sample_side true) 10%positive = Ok (m', s', events) /\
    side_rep m' s' A' /\
    heap m' !! 10%positive = Some (fill buy_50 taken) /\ 0 <= taken <= 50 /\
    executed events = taken /\ 110 - total_of A' = taken.
Proof. exact (processCrossedOrder_conserves _ _ _ _ _ buy_50_pre). Defined.

(** ** Trades *)

Lemma sample_trade_pre q : 0 <= q <= INT_MAX ->
  trade_pre sample_store (sample_side true) ask_book (px 101) q.
Proof.
  intros Hq. split; [apply (sample_rep true)|apply (sample_live true)|apply (sample_counts true)
    |done|apply (sample_pending true)|simpl; lia].
Qed.

(** C7. [processTrade] refines its contract: what was expected at the price is
    absorbed first; of the rest, the levels better than the trade are
    cancelled order by order, the level at the price is filled oldest first,
    and what the book cannot supply becomes a pending addition with a guessed
    ADD and EXEC event.  It completes, saves a snapshot for every change and
    leaves the other side alone. *)
Theorem processTrade_refines m s A price q :
  trade_pre m s A price q ->
  let x := Z.min (count plt price (pending_liq_remove_qty_ s)) q in
  exists m' s',
    processTrade m s (Trade.mkTrade q price) =
      Ok (m', s', (atrade (is_sell_ s) price (q - x) A).1.2 ++
        guess_events (is_sell_ s) price (atrade (is_sell_ s) price (q - x) A).2) /\
    has_traded A price q x m s m' s'.
Proof. apply processTrade_rep. Qed.

Lemma processTrade_refines_witness :
  exists m' s',
    processTrade sample_store (sample_side true) (Trade.mkTrade 70 (px 101)) =
      Ok (m', s', [mkOrderInfo CANCEL 1 true 20 (px 100); mkOrderInfo CANCEL 2 true 40 (px 100);
        mkOrderInfo EXEC 3 true 50 (px 101); mkOrderInfo ADD (-1) true 20 (px 101);
        mkOrderInfo EXEC (-1) true 20 (px 101)]) /\
    has_traded ask_book (px 101) 70 0 sample_store (sample_side true) m' s'.
Proof.
  exact (processTrade_refines _ _ _ _ _ (sample_trade_pre 70 ltac:(unfold INT_MAX; lia))).
Defined.

Lemma cancel_events_executed b os : executed (cancel_events b os) = 0.
Proof.
  unfold cancel_events, executed. induction os as [|o os IH]; [done|].
  rewrite fmap_cons, zsum_cons, IH. done.
Qed.

Lemma executed_app e1 e2 : executed (e1 ++ e2) = executed e1 + executed e2.
Proof. apply zsum_app. Qed.

Lemma afill_best_accounts price q A :
  zsum snd (afill_best price q A).1.2 = q - (afill_best price q A).2.
Proof.
  destruct A as [|[k os] A]; simpl; [lia|]. destruct (peq k price); [|simpl; lia].
  destruct (afill_conservation q os) as [_ H]. destruct (afill q os) as [[os' f] r].
  simpl in *. lia.
Qed.

Lemma afill_best_head b price q A k os A' :
  (forall k os A', A = (k, os) :: A' -> side_comp b k price = false) ->
  sorted (side_comp b) A ->
  (afill_best price q A).1.1 = (k, os) :: A' -> side_comp b k price = false.
Proof.
  intros Hhead Hs. destruct A as [|[k0 os0] A]; simpl; [done|].
  specialize (Hhead k0 os0 A eq_refl).
  apply (sorted_cons (side_comp b)) in Hs as [_ Hlt].
  destruct (peq k0 price); [|by intros [= <- _ _]].
  destruct (afill q os0) as [[os' f] r]; simpl.
  rewrite side_comp_rank in *. apply Z.ltb_ge in Hhead.
  destruct (survivors os'); simpl; [|by intros [= <- _ _]; apply Z.ltb_ge].
  intros ->. specialize (Hlt (k, os) ltac:(left)). simpl in *. apply Z.ltb_ge. lia.
Qed.

Lemma sorted_not_overtaken b price A :
  sorted (side_comp b) A -> sorted (side_comp b) (not_overtaken b price A).
Proof.
  rewrite (proj1 (overtaken_app b price A)) at 1.
  by intros (_ & H & _)%(sorted_app (side_comp b)).
Qed.

(** C8. A trade is accounted for to the last lot: its quantity is what had been
    expected, plus what was executed against the book, plus what now waits for
    an order; and no level better than the trade remains. *)
Theorem processTrade_accounts m s A price q :
  trade_pre m s A price q ->
  exists m' s' A' booked rest,
    processTrade m s (Trade.mkTrade q price) =
      Ok (m', s', booked ++ guess_events (is_sell_ s) price rest) /\ side_rep m' s' A' /\
    q = Z.min (count plt price (pending_liq_remove_qty_ s)) q + executed booked + rest /\
    0 <= rest /\
    zsum snd (pending_liq_add_qty_ s') = zsum snd (pending_liq_add_qty_ s) + rest /\
    (forall k os A'', A' = (k, os) :: A'' -> side_comp (is_sell_ s) k price = false).
Proof.
  intros Hpre. destruct (processTrade_rep _ _ _ _ _ Hpre) as (m' & s' & Hrun & Hht).
  destruct Hpre as [Hrep _ Hcnt Hq _ _]. pose proof (proj2 Hcnt price) as Hc.
  set (x := Z.min _ _) in *.
  eexists m', s', _, _, _. split; [exact Hrun|]. split; [apply Hht|].
  pose proof (atrade_rest (is_sell_ s) price (q - x) A (sr_ok _ _ _ Hrep)) as Hr.
  pose proof (afill_best_accounts price (q - x) (not_overtaken (is_sell_ s) price A)) as Ha.
  split; [|split; [lia|split; [apply Hht|]]].
  - unfold atrade in *. destruct (afill_best _ _ _) as [[A' fills] rest]. simpl in *.
    rewrite executed_app, cancel_events_executed, executed_exec_events. lia.
  - intros k os A''. unfold atrade.
    pose proof (fun k os A' => afill_best_head (is_sell_ s) price (q - x)
      (not_overtaken (is_sell_ s) price A) k os A' (not_overtaken_head _ _ _)) as Hh.
    destruct (afill_best _ _ _) as [[A' fills] rest]. simpl in *. apply Hh.
    apply sorted_not_overtaken, Hrep.
Qed.

Lemma processTrade_accounts_witness :
  exists m' s' A' booked rest,
    processTrade sample_store (sample_side true) (Trade.mkTrade 70 (px 101)) =
      Ok (m', s', booked ++ guess_events true (px 101) rest) /\ side_rep m' s' A' /\
    70 = 0 + executed booked + rest /\ 0 <= rest /\
    zsum snd (pending_liq_add_qty_ s') = 0 + rest /\
    (forall k os A'', A' = (k, os) :: A'' -> side_comp true k (px 101) = false).
Proof.
  exact (processTrade_accounts _ _ _ _ _ (sample_trade_pre 70 ltac:(unfold INT_MAX; lia))).
Defined.

(** ** Pending liquidity *)

(** An ask side on which trades of 10@98 and 30@99 wait for their orders. *)
Definition waiting : BookSide :=
  with_pending_add (new_BookSide true (side_comp true)) [(px 98, 10); (px 99, 30)].

Lemma waiting_ok : pending_add_ok waiting.
Proof.
  split; [done| | |done]; repeat constructor; by vm_compute.
Qed.

(** C12. [matchPendingLiqAdd], decided: for the orders that [add_loop_ends]
    accepts the loop ends and returns as much of the order as the waiting
    trades can supply, taking exactly that from them; for every other order it
    runs for ever, whatever the fuel. *)
Theorem matchPendingLiqAdd_decided s q price :
  pending_add_ok s -> 0 <= q <= INT_MAX ->
  if add_loop_ends (is_sell_ s) (pending_liq_add_qty_ s) q price then
    let x := Z.min q (available (is_sell_ s) price (pending_liq_add_qty_ s)) in
    exists pa', matchPendingLiqAdd s q price = Ok (x, with_pending_add s pa') /\
      pending_add_ok (with_pending_add s pa') /\
      zsum snd pa' = zsum snd (pending_liq_add_qty_ s) - x
  else forall fuel, matchPendingLiqAdd_loop fuel s q price 0 = Err Diverges.
Proof.
  intros Hok Hq. destruct (add_loop_ends _ _ _ _) eqn:E.
  - destruct (matchPendingLiqAdd_ends s q price Hok Hq E) as (pa' & H1 & H2 & H3 & _).
    by exists pa'.
  - intros fuel. by apply matchPendingLiqAdd_stuck.
Qed.

(** 25@98 takes the 10@98 and 15 of the 30@99. *)
Lemma matchPendingLiqAdd_decided_witness :
  exists pa', matchPendingLiqAdd waiting 25 (px 98) = Ok (25, with_pending_add waiting pa') /\
    pending_add_ok (with_pending_add waiting pa') /\ zsum snd pa' = 15.
Proof.
  exact (matchPendingLiqAdd_decided waiting 25 (px 98) waiting_ok ltac:(unfold INT_MAX; lia)).
Defined.

(** The loop does hang: an ask of 20@97 arrives while trades of 10@98 and
    30@99 wait for it.  The 10@98 are used up, the entry is not erased because
    the code erases the price of the order, and the loop looks at it again for
    ever. *)
Theorem matchPendingLiqAdd_hangs fuel :
  matchPendingLiqAdd_loop fuel waiting 20 (px 97) 0 = Err Diverges.
Proof. apply matchPendingLiqAdd_stuck; [apply waiting_ok|unfold INT_MAX; lia|done]. Qed.

Definition owed : BookSide :=
  with_pending_remove (new_BookSide true (side_comp true)) [(px 100, 60); (px 101, 20)].

Lemma owed_ok : counts_ok (pending_liq_remove_qty_ owed).
Proof.
  apply counts_ok_of; [repeat constructor; by vm_compute|by repeat constructor|by vm_compute].
Qed.

(** [matchPendingLiqRemove] takes from the price what is expected there, at
    most the quantity asked for, and touches no other price; the counts stay
    in range. *)
Theorem matchPendingLiqRemove_refines s q p :
  counts_ok (pending_liq_remove_qty_ s) -> 0 <= q <= INT_MAX ->
  let x := Z.min (count plt p (pending_liq_remove_qty_ s)) q in
  exists pr, matchPendingLiqRemove s q p = Ok (x, with_pending_remove s pr) /\
    counts_ok pr /\
    forall p', count plt p' pr =
      count plt p' (pending_liq_remove_qty_ s) - (if peq p p' then x else 0).
Proof. apply matchPendingLiqRemove_rep. Qed.

Lemma matchPendingLiqRemove_refines_witness :
  exists pr, matchPendingLiqRemove owed 70 (px 100) = Ok (60, with_pending_remove owed pr) /\
    counts_ok pr /\
    forall p', count plt p' pr =
      count plt p' [(px 100, 60); (px 101, 20)] - (if peq (px 100) p' then 60 else 0).
Proof.
  exact (matchPendingLiqRemove_refines owed 70 (px 100) owed_ok ltac:(unfold INT_MAX; lia)).
Defined.

(** ** Single orders *)

(** C13. [processOrderCancel] refines its contract: what is expected to leave at
    the price absorbs the cancellation; if something is left of it and the
    order rests in the book, the order leaves and one CANCEL event with that
    quantity is returned; otherwise neither happens. *)
Theorem processOrderCancel_refines m s A id q price :
  side_rep m s A -> counts_ok (pending_liq_remove_qty_ s) -> 0 <= q <= INT_MAX ->
  let x := Z.min (count plt price (pending_liq_remove_qty_ s)) q in
  let r := acancel (is_sell_ s) id (q - x) price A in
  exists s', processOrderCancel m s id q price = Ok (s', r.2) /\ side_rep m s' r.1 /\
    l2_snap_queue_ s' = l2_snap_queue_ s /\
    counts_ok (pending_liq_remove_qty_ s') /\
    forall p, count plt p (pending_liq_remove_qty_ s') =
      count plt p (pending_liq_remove_qty_ s) - (if peq price p then x else 0).
Proof.
  intros Hrep Hc Hq. destruct (processOrderCancel_rep m s A id q price Hrep Hc Hq)
    as (s' & H1 & H2 & H3 & H4 & H5 & H6 & H7 & H8). by exists s'.
Qed.

Lemma processOrderCancel_refines_witness :
  exists s', processOrderCancel sample_store (sample_side true) 2 40 (px 100) =
      Ok (s', [mkOrderInfo CANCEL 2 true 40 (px 100)]) /\
    side_rep sample_store s' [(px 100, [o1]); (px 101, [o3])] /\
    l2_snap_queue_ s' = [] /\ counts_ok (pending_liq_remove_qty_ s') /\
    forall p, count plt p (pending_liq_remove_qty_ s') = 0 - (if peq (px 100) p then 0 else 0).
Proof.
  exact (processOrderCancel_refines _ _ _ 2 40 (px 100) (sample_rep true) (sample_counts true)
    ltac:(unfold INT_MAX; lia)).
Defined.

(** [addOrder] refines the insertion into the book: an order whose id is in
    use is ignored; any other goes to the back of the queue of its price, into
    a new level between the better and the worse ones if there is none. *)
Theorem addOrder_refines m s A p o :
  side_rep m s A -> heap m !! p = Some o -> (p < next m)%positive ->
  p ∉ (cells (levels_ s)).*2 -> Order.is_sell o = is_sell_ s -> order_sane o ->
  (Order.odid o ∉ ids A -> has_room (is_sell_ s) o A) ->
  exists m' s', addOrder m s p = Ok (m', s') /\ heap m' = heap m /\ same_aux s s' /\
    side_rep m' s' (if bool_decide (Order.odid o ∈ ids A) then A else aadd (is_sell_ s) o A).
Proof.
  intros Hrep Hp Hpf Hpn Hside Hsane Hroom. case_bool_decide as Hid.
  - exists m, s. split_and!; [by eapply addOrder_known|done|reflexivity|done].
  - destruct (addOrder_rep m s A p o) as (s' & Hrun & Haux & Hrep'); try done; [by apply Hroom|].
    by exists (mkStore (heap m) (Pos.succ (next m))), s'.
Qed.

(** An ask of 10@101 behind order 3. *)
Definition ask_10 : Order := mkOrder 9 true 10 (px 101) 0.
Definition store_10 : Store := mkStore (<[10%positive := ask_10]> (heap sample_store)) 11.

Lemma store_10_rep : side_rep store_10 (sample_side true) ask_book.
Proof.
  eapply rep_frame; [apply (sample_rep true)|done|]. intros p Hp. simpl. apply lookup_insert_ne.
  intros <-. pose proof (rep_pointer_fresh _ _ _ _ (sample_rep true) Hp). done.
Qed.

Lemma addOrder_refines_witness :
  exists m' s', addOrder store_10 (sample_side true) 10%positive = Ok (m', s') /\
    heap m' = heap store_10 /\ same_aux (sample_side true) s' /\
    side_rep m' s' [(px 100, [o1; o2]); (px 101, [o3; ask_10])].
Proof.
  refine (addOrder_refines store_10 (sample_side true) ask_book 10%positive ask_10
    store_10_rep eq_refl eq_refl _ eq_refl _ _).
  - apply (bool_decide_unpack _). by vm_compute.
  - by split.
  - intros _. by split.
Defined.

(** [removeOrder] refines the removal by id: an unknown id changes nothing,
    a known one takes out that order alone, with its level if it was the last
    one there, and the handlers of all other orders stay valid. *)
Theorem removeOrder_refines m s A id :
  side_rep m s A ->
  exists s', removeOrder m s id = Ok s' /\ same_aux s s' /\ side_rep m s' (aremove id A) /\
    resting (aremove id A) = filter (fun o => Order.odid o <> id) (resting A).
Proof.
  intros Hrep. destruct (removeOrder_spec m s A id Hrep) as (s' & H1 & H2 & H3).
  exists s'. split_and!; [done..|]. apply resting_aremove.
Qed.

Lemma removeOrder_refines_witness :
  exists s', removeOrder sample_store (sample_side true) 3 = Ok s' /\
    same_aux (sample_side true) s' /\ side_rep sample_store s' [(px 100, [o1; o2])] /\
    [o1; o2] = [o1; o2].
Proof. exact (removeOrder_refines _ _ _ 3 (sample_rep true)). Defined.

(** [modifyOrder] refines its contract: an unknown id changes nothing; a new
    quantity at the same price keeps the order's place in the queue; a new
    price moves it, with what was already filled, behind the queue there. *)
Theorem modifyOrder_refines m s A id q price :
  side_rep m s A -> can_modify (is_sell_ s) id q price A ->
  exists m' s', modifyOrder m s id q price = Ok (m', s') /\ same_aux s s' /\
    side_rep m' s' (amodify (is_sell_ s) id q price A).
Proof. apply modifyOrder_rep. Qed.

Lemma modifyOrder_refines_witness :
  exists m' s', modifyOrder sample_store (sample_side true) 1 25 (px 101) = Ok (m', s') /\
    same_aux (sample_side true) s' /\
    side_rep m' s' [(px 100, [o2]); (px 101, [o3; mkOrder 1 true 25 (px 101) 0])].
Proof.
  refine (modifyOrder_refines sample_store (sample_side true) ask_book 1 25 (px 101)
    (sample_rep true) _).
  split; [by unfold INT_MAX|by split].
Defined.

(** The order map and the book agree: [existOrder] says whether an order of
    this id rests in the book, and the handler points to that order. *)
Theorem order_map_agrees m s A id :
  side_rep m s A ->
  (BookSide.existOrder s id = true <-> id ∈ ids A) /\
  (BookSide.existOrder s id = true -> exists h o, BookSide.getOrderHandler s id = (h, s) /\
     heap m !! Order.order h = Some o /\ o ∈ resting A /\ Order.odid o = id).
Proof.
  intros Hrep. split; [by eapply existOrder_iff|]. unfold BookSide.existOrder, BookSide.getOrderHandler.
  destruct (order_map_ s !! id) as [h|] eqn:E; [|done]. intros _.
  destruct Hrep as [_ _ Hf _]. apply (fr_map _ _ _ _ Hf) in E.
  destruct (bindings_order m _ _ _ _ (fr_heap _ _ _ _ Hf) E) as (o & Ho & Hin & Hid).
  by exists h, o.
Qed.

Lemma order_map_agrees_witness :
  (BookSide.existOrder (sample_side true) 3 = true <-> 3 ∈ [1; 2; 3]) /\
  (BookSide.existOrder (sample_side true) 3 = true -> exists h o,
     BookSide.getOrderHandler (sample_side true) 3 = (h, sample_side true) /\
     heap sample_store !! Order.order h = Some o /\ o ∈ [o1; o2; o3] /\ Order.odid o = 3).
Proof. exact (order_map_agrees _ _ _ 3 (sample_rep true)). Defined.
