(* ===== verification/DataTheorems.v ===== *)
(** * Properties of the data the book is made of

    Prices and their comparators, the ordered maps, the price levels with
    their assertions, the aggregated book and the dispatch of events. *)

From S2P Require Import Prelude Outcome StdMap Price Common Order L2Level Level Messages BookSide.
From S2P Require Import BookSpec Matching SideRep Crossed PendingLiq TradeSide.
From S2P Require Import ModifySide Format L2Book OrderBook BookInv Aggregate BookManager Session.
From S2P Require Import Scenarios.

(** ** Prices and maps *)

(** The comparators of both sides are strict weak orderings on all doubles
    except NaN, and they are total up to the two zeros: of two prices exactly
    one is better or they are equal for [==].  This is what [std::map] asks of
    a comparator. *)
Theorem comparators_order b (x y z : Price) :
  side_comp b x x = false /\
  (side_comp b x y = true -> side_comp b y z = true -> side_comp b x z = true) /\
  (side_comp b x y = true -> side_comp b y x = false) /\
  (peq x y = negb (side_comp b x y) && negb (side_comp b y x)).
Proof.
  rewrite !side_comp_rank. split_and!; try (repeat zcase; lia || done).
  destruct (peq x y) eqn:E.
  - apply peq_equiv, (side_rank_equiv b) in E. rewrite E, Z.ltb_irrefl. done.
  - assert (side_rank b x <> side_rank b y) as Hne.
    { intros E'%side_rank_equiv%peq_equiv. congruence. }
    repeat zcase; lia || done.
Qed.

(** The ordered maps of the book behave as finite maps and stay ordered:
    what is assigned to a price is found there and at no other price, what is
    erased is not found, [m[k]] finds the value or creates the default. *)
Theorem book_map_laws {V} b (m : smap Price V) k v d k' :
  sorted (side_comp b) m ->
  sorted (side_comp b) (map_assign (side_comp b) k v m) /\
  sorted (side_comp b) (map_erase (side_comp b) k m) /\
  map_find (side_comp b) k' (map_assign (side_comp b) k v m) =
    (if peq k k' then Some v else map_find (side_comp b) k' m) /\
  map_find (side_comp b) k' (map_erase (side_comp b) k m) =
    (if peq k k' then None else map_find (side_comp b) k' m) /\
  (map_index (side_comp b) d k m).1 = default d (map_find (side_comp b) k m) /\
  map_find (side_comp b) k (map_index (side_comp b) d k m).2 =
    Some (default d (map_find (side_comp b) k m)).
Proof.
  intros Hs.
  assert (forall x y, (side_rank b x =? side_rank b y) = peq x y) as Hpeq.
  { intros x y. destruct (peq x y) eqn:E.
    - apply Z.eqb_eq, side_rank_equiv. by apply peq_equiv.
    - apply Z.eqb_neq. intros E'%side_rank_equiv%peq_equiv. congruence. }
  split_and!.
  - by apply (sorted_assign (side_comp b)).
  - by apply (sorted_erase (side_comp b)).
  - rewrite (find_assign (side_comp b)). simpl rank. by rewrite Hpeq.
  - rewrite (find_erase (side_comp b)) by done. simpl rank. by rewrite Hpeq.
  - unfold map_index. by destruct (map_find (side_comp b) k m).
  - unfold map_index. destruct (map_find (side_comp b) k m) eqn:E; simpl; [done|].
    rewrite (find_assign (side_comp b)). by rewrite Z.eqb_refl.
Qed.

Lemma book_map_laws_witness :
  sorted (side_comp true) (map_assign (side_comp true) (px 100) 5 [(px 99, 1); (px 101, 2)]) /\
  sorted (side_comp true) (map_erase (side_comp true) (px 100) [(px 99, 1); (px 101, 2)]) /\
  Some 5 = Some 5 /\ @None Z = None /\ 0 = 0 /\ Some 0 = Some 0.
Proof.
  refine (book_map_laws true [(px 99, 1); (px 101, 2)] (px 100) 5 0 (px 100) _).
  repeat constructor; by vm_compute.
Defined.

(** Equality of events is what the tests compare the code by: it is an
    equivalence, it tells events with different kinds, ids, quantities or prices
    apart, and it does not see the side at all. *)
Theorem OrderInfo_equality (x y z : OrderInfo) c :
  OrderInfo_eqb x x = true /\
  OrderInfo_eqb x y = OrderInfo_eqb y x /\
  (OrderInfo_eqb x y = true -> OrderInfo_eqb y z = true -> OrderInfo_eqb x z = true) /\
  (OrderInfo_eqb x y = true <-> Common.event x = Common.event y /\ Common.odid x = Common.odid y /\
     Common.quantity x = Common.quantity y /\ Common.price x ≡ Common.price y) /\
  OrderInfo_eqb x (mkOrderInfo (Common.event x) (Common.odid x) c (Common.quantity x)
    (Common.price x)) = true.
Proof.
  assert (forall x y, OrderInfo_eqb x y = true <-> Common.event x = Common.event y /\
    Common.odid x = Common.odid y /\ Common.quantity x = Common.quantity y /\
    Common.price x ≡ Common.price y) as Hiff.
  { intros u v. unfold OrderInfo_eqb.
    rewrite !andb_true_iff, bool_decide_eq_true, !Z.eqb_eq, peq_equiv. tauto. }
  split_and!.
  - by apply Hiff.
  - apply eq_true_iff_eq. rewrite !Hiff. split; intros (? & ? & ? & ?); by split_and!.
  - rewrite !Hiff. intros (? & ? & ? & ?) (? & ? & ? & ?). split_and!; congruence || by etransitivity.
  - apply Hiff.
  - by apply Hiff.
Qed.

(** ** Levels *)

(** The assertions of a price level, exactly: filling an order fails the
    assertion if and only if it is asked for more than remains, and modifying
    it if and only if the price differs. *)
Theorem level_assertions m l p o q price :
  heap m !! p = Some o -> order_sane o ->
  (Level.fillOrder m l p q = Err AssertionFailed <-> rem o < q) /\
  (Level.modifyOrder m l p q price = Err AssertionFailed <-> price ≢ Order.price o).
Proof.
  intros Hp Hs. split; split.
  - unfold Level.fillOrder. rewrite (deref_ok _ _ _ Hp), bind_ok, (getRemainingQuantity_ok _ Hs), bind_ok.
    destruct (Z.leb_spec q (rem o)); [|done]. rewrite (c_assert_ok true eq_refl), bind_ok.
    unfold add_filled. rewrite (deref_ok _ _ _ Hp), bind_ok. unfold iadd, isub.
    unfold mbind, outcome_bind. destruct (int_ok _); [|done]. by destruct (int_ok _).
  - by apply fillOrder_overfill.
  - unfold Level.modifyOrder. rewrite (deref_ok _ _ _ Hp), bind_ok.
    destruct (peq price (Order.price o)) eqn:E.
    + rewrite (c_assert_ok true eq_refl), bind_ok. unfold iadd, isub.
      unfold mbind, outcome_bind. destruct (int_ok _); [|done]. by destruct (int_ok _).
    + intros _ E'. apply peq_equiv in E'. congruence.
  - by apply modifyOrder_price_change.
Qed.

Lemma level_assertions_witness :
  (Level.fillOrder sample_store L3PriceLevel_default 2%positive 21 = Err AssertionFailed <-> 20 < 21) /\
  (Level.modifyOrder sample_store L3PriceLevel_default 2%positive 21 (px 99) = Err AssertionFailed
     <-> px 99 ≢ px 100).
Proof.
  exact (level_assertions sample_store L3PriceLevel_default 2%positive o1 21 (px 99) eq_refl
    ltac:(by split)).
Defined.

(** The cached quantity of a level is an [int]: adding an order that takes
    the level past [INT_MAX] is an overflow, not a wrapped number. *)
Theorem level_overflow m l p o :
  heap m !! p = Some o -> order_sane o -> INT_MAX < Level.quantity l + rem o ->
  Level.addOrder m l p = Err IntOverflow.
Proof.
  intros Hp Hs Ho. unfold Level.addOrder.
  rewrite (deref_ok _ _ _ Hp), bind_ok, (getRemainingQuantity_ok _ Hs), bind_ok.
  rewrite (iadd_overflow _ _ Ho). reflexivity.
Qed.

Lemma level_overflow_witness :
  Level.addOrder sample_store (mkL3PriceLevel (px 100) INT_MAX 1 []) 2%positive = Err IntOverflow.
Proof.
  apply (level_overflow sample_store (mkL3PriceLevel (px 100) INT_MAX 1 []) 2%positive o1);
    [reflexivity|by split|reflexivity].
Defined.

(** ** The aggregated book *)

Definition l2_lookup (l2 : L2Book) (b : bool) (p : Price) : option L2PriceLevel :=
  map_find (side_comp b) p (l2_map l2 b).

Lemma l2_lookup_assign l2 b p v c p' :
  l2_lookup (with_l2_map l2 b (map_assign (side_comp b) p v (l2_map l2 b))) c p' =
  if Bool.eqb b c && (side_rank b p =? side_rank b p') then Some v else l2_lookup l2 c p'.
Proof.
  unfold l2_lookup. rewrite l2_map_with. destruct (Bool.eqb b c) eqn:E; [|done].
  apply eqb_prop in E as <-. rewrite (find_assign (side_comp b)). done.
Qed.

Lemma rank_peq b x y : (side_rank b x =? side_rank b y) = peq x y.
Proof.
  destruct (peq x y) eqn:E.
  - apply Z.eqb_eq, side_rank_equiv. by apply peq_equiv.
  - apply Z.eqb_neq. intros E'%side_rank_equiv%peq_equiv. congruence.
Qed.

(** The aggregated book, operation by operation: adding touches an absent
    level only (and complains on standard error otherwise), updating and
    removing a present one only, and none of them touches any other level or
    the other side. *)
Theorem L2Book_operations l2 b p q c p' :
  sorted (side_comp b) (l2_map l2 b) ->
  let here := Bool.eqb b c && peq p p' in
  let there := L2Book.existLevel l2 b p in
  l2_lookup (L2Book.addLevel l2 b p q).1 c p' =
    (if here && negb there then Some (mkL2PriceLevel p q) else l2_lookup l2 c p') /\
  ((L2Book.addLevel l2 b p q).2 = "" <-> there = false) /\
  l2_lookup (L2Book.updateLevel l2 b p q) c p' =
    (if here && there then Some (mkL2PriceLevel p q) else l2_lookup l2 c p') /\
  l2_lookup (L2Book.removeLevel l2 b p) c p' =
    (if here && there then None else l2_lookup l2 c p').
Proof.
  intros Hs. cbv zeta. unfold L2Book.addLevel, L2Book.updateLevel, L2Book.removeLevel.
  destruct (L2Book.existLevel l2 b p); cbn [fst snd negb]; rewrite ?andb_true_r, ?andb_false_r;
    (split_and!; [|split; [done|]|..]); try done;
    rewrite ?l2_lookup_assign, ?rank_peq; try done.
  unfold l2_lookup. rewrite l2_map_with. destruct (Bool.eqb b c) eqn:E; [|done].
  apply eqb_prop in E as <-. rewrite (find_erase (side_comp b)) by done. simpl rank.
  by rewrite rank_peq.
Qed.

Definition l2_sample : L2Book :=
  mkL2Book [(px 99, mkL2PriceLevel (px 99) 30)] [(px 100, mkL2PriceLevel (px 100) 60)].

Lemma L2Book_operations_witness :
  l2_lookup (L2Book.addLevel l2_sample true (px 101) 50).1 true (px 101) =
    Some (mkL2PriceLevel (px 101) 50) /\
  ((L2Book.addLevel l2_sample true (px 101) 50).2 = "" <-> false = false) /\
  l2_lookup (L2Book.updateLevel l2_sample true (px 101) 50) true (px 101) = None /\
  l2_lookup (L2Book.removeLevel l2_sample true (px 101)) true (px 101) = None.
Proof.
  refine (L2Book_operations l2_sample true (px 101) 50 true (px 101) _).
  repeat constructor.
Defined.

(** *** [getL2Book] *)

(** [getL2Book] is faithful: it lists, on both sides and in price order,
    every level of the book with the sum of what remains of its orders, and
    writes nothing to standard error. *)
Theorem getL2Book_faithful bk B :
  book_rep bk B -> getL2Book bk = (mkL2Book (l2_nodes (B false)) (l2_nodes (B true)), "").
Proof. apply getL2Book_rep. Qed.

Lemma getL2Book_faithful_witness :
  getL2Book sample_book =
  (mkL2Book [(px 99, mkL2PriceLevel (px 99) 30)]
     [(px 100, mkL2PriceLevel (px 100) 60); (px 101, mkL2PriceLevel (px 101) 50)], "").
Proof. exact (getL2Book_faithful _ _ sample_book_rep). Defined.
