(* ===== verification/BookTheorems.v ===== *)
(** * Properties of the order book and its manager

    Sessions first: what holds of every stream of messages.  Then the contract
    of each message, and what the manager does with the events. *)

From S2P Require Import Prelude Outcome StdMap Price Common Order L2Level Level Messages BookSide.
From S2P Require Import BookSpec Matching SideRep Crossed PendingLiq TradeSide.
From S2P Require Import ModifySide Format L2Book OrderBook BookInv BookManager Session.
From S2P Require Import Scenarios.

(** ** Sessions *)

(** The concrete book: best bid below best ask, all levels counted. *)
Definition bids_below_asks (bk : SmartOrderBook) : Prop :=
  forall x y, x ∈ levels_ (bid_side bk) -> y ∈ levels_ (ask_side bk) -> plt x.1 y.1 = true.

Lemma concrete_uncrossed bk B : book_rep bk B -> uncrossed B -> bids_below_asks bk.
Proof.
  intros Hbk Hun x y Hx Hy. rewrite plt_key. apply Z.ltb_lt.
  assert (forall c (z : Price * L3PriceLevel), z ∈ levels_ (sides_ bk c) ->
    exists z', z' ∈ B c /\ price_key z'.1 = price_key z.1) as Hkeys.
  { intros c z Hz. eapply (same_level_bound true _ _ (sr_levels _ _ _ (br_side _ _ Hbk c))
      (fun k => exists z', z' ∈ B c /\ price_key z'.1 = k)); [|exact Hz].
    intros z' Hz'. by exists z'. }
  destruct (Hkeys false x Hx) as (x' & Hx' & <-), (Hkeys true y Hy) as (y' & Hy' & <-).
  by apply Hun.
Qed.

(** A session: a quote on each side, an order that crosses both ask levels, a
    trade, a modification and a cancellation. *)
Definition add_msg (id : OrderId) (b : bool) (q : Quantity) (p : Price) : message :=
  order_message (OrderMessage.mkOrderMessage OrderMessage.ADD id b q p).

Definition quotes : list message :=
  [add_msg 1 true 20 (px 100); add_msg 2 true 40 (px 101); add_msg 3 false 30 (px 99);
   add_msg 4 false 50 (px 101);
   order_message (OrderMessage.mkOrderMessage OrderMessage.MODIFY 3 false 25 (px 98));
   order_message (OrderMessage.mkOrderMessage OrderMessage.CANCEL 2 true 5 (px 101))].

Definition with_trade : list message :=
  quotes ++ [trade_message (TradeMessage.mkTradeMessage 20 (px 100))].

Lemma quotes_carried : Forall (fun msg => 0 <= carried msg <= INT_MAX) quotes.
Proof. unfold INT_MAX. repeat (constructor; [simpl; lia|]). constructor. Qed.

(** C1. For every stream of order and trade messages of at most [INT_MAX] lots:
    either the manager processes all of it, and then its book is well formed
    (level lists, order map, cached totals and pointers agree) and uncrossed,
    every bid below every ask; or it comes to an order message, with a book that
    is still well formed and uncrossed, for which the loop of
    [matchPendingLiqAdd] runs for ever whatever the fuel ([caught]).  No other
    loop hangs, no assertion fails, nothing dangles, nothing overflows. *)
Theorem session_uncrossed msgs :
  Forall (fun msg => 0 <= carried msg <= INT_MAX) msgs -> zsum volume msgs <= INT_MAX ->
  match session new_BookManager msgs with
  | Ok bm => (exists B, book_rep (book_ bm) B) /\ bids_below_asks (book_ bm)
  | Err f => f = Diverges /\
      exists before msg after bm, msgs = before ++ msg :: after /\
        session new_BookManager before = Ok bm /\
        (exists B, book_rep (book_ bm) B) /\ bids_below_asks (book_ bm) /\ caught bm msg
  end.
Proof.
  intros Hc Hv. destruct new_sound as [Hs _].
  pose proof (session_from new_BookManager 0 msgs Hs ltac:(lia) Hc Hv) as H.
  destruct (session new_BookManager msgs) as [bm|f].
  - destruct H as [(B & [Hbk Hun _] & _) _]. split; [by exists B|by eapply concrete_uncrossed].
  - destruct H as (-> & _ & before & msg & after & bm & -> & Hb & (B & [Hbk Hun _] & _) & Hcaught).
    split; [done|]. exists before, msg, after, bm.
    split_and!; [done|done|by exists B|by eapply concrete_uncrossed|done].
Qed.

Lemma session_uncrossed_witness :
  match session new_BookManager with_trade with
  | Ok bm => (exists B, book_rep (book_ bm) B) /\ bids_below_asks (book_ bm)
  | Err f => f = Diverges /\
      exists before msg after bm, with_trade = before ++ msg :: after /\
        session new_BookManager before = Ok bm /\
        (exists B, book_rep (book_ bm) B) /\ bids_below_asks (book_ bm) /\ caught bm msg
  end.
Proof.
  apply (session_uncrossed with_trade).
  - unfold INT_MAX. repeat (constructor; [simpl; lia|]). constructor.
  - by vm_compute.
Defined.

(** C2. Streams without trades always complete: the manager processes every
    stream of additions, cancellations and modifications of at most [INT_MAX]
    lots to the end, and the book is well formed and uncrossed. *)
Theorem order_session_completes msgs :
  Forall (fun msg => 0 <= carried msg <= INT_MAX) msgs -> zsum volume msgs <= INT_MAX ->
  Forall (fun msg => is_trade msg = false) msgs ->
  exists bm, session new_BookManager msgs = Ok bm /\
    (exists B, book_rep (book_ bm) B) /\ bids_below_asks (book_ bm) /\ quiet (book_ bm).
Proof.
  intros Hc Hv Ht. destruct new_sound as [Hs Hq].
  pose proof (session_from new_BookManager 0 msgs Hs ltac:(lia) Hc Hv) as H.
  destruct (session new_BookManager msgs) as [bm|f]; [|by destruct H as (_ & [] & _)].
  destruct H as [(B & [Hbk Hun _] & _) Hq']. exists bm.
  split_and!; [done|by exists B|by eapply concrete_uncrossed|by apply Hq'].
Qed.

Lemma order_session_completes_witness :
  exists bm, session new_BookManager quotes = Ok bm /\
    (exists B, book_rep (book_ bm) B) /\ bids_below_asks (book_ bm) /\ quiet (book_ bm).
Proof.
  apply (order_session_completes quotes quotes_carried); [by vm_compute|by repeat constructor].
Defined.

(** ** Messages *)

Definition buy_70 : OrderMessage.OrderMessage :=
  OrderMessage.mkOrderMessage OrderMessage.ADD 9 false 70 (px 100).

Lemma buy_70_pre : add_pre sample_book sample_books buy_70.
Proof.
  split; [apply sample_book_rep|simpl; unfold INT_MAX; lia|apply (sample_pending false)|done| | |].
  - intros p. by vm_compute.
  - intros p. by vm_compute.
  - intros _. by split.
Qed.

(** C3. [processOrderAddMessage] refines its contract: what trades had promised
    of the order is taken off, the opposite side is matched up to the price,
    and what is left rests in the book; the events are the executions and the
    addition, in this order; the book stays uncrossed. *)
Theorem processOrderAddMessage_refines bk B msg :
  add_pre bk B msg ->
  let b := OrderMessage.is_sell msg in
  let a := arriving msg (expected bk msg) in
  exists bk',
    processOrderAddMessage bk msg = Ok (bk', (aadd_message B b a).2) /\
    has_added bk B msg bk' /\ (uncrossed B -> bids_below_asks bk').
Proof.
  intros Hpre. cbv zeta. destruct (processOrderAddMessage_rep bk B msg Hpre) as (bk' & Hrun & Hha).
  exists bk'. split_and!; [done|done|]. intros Hun. eapply concrete_uncrossed; [apply Hha|].
  destruct Hpre as [Hbk Hq Hpa _ _ _ _].
  apply aadd_message_uncrossed; [intros c; by eapply book_ok_of| |done].
  pose proof (expected_bounds bk _ msg (conj Hpa (Z.le_refl _)) (proj1 Hq)).
  split; simpl; lia.
Qed.

(** 70@100 to buy: 60 are executed, 10 rest. *)
Lemma processOrderAddMessage_refines_witness :
  exists bk',
    processOrderAddMessage sample_book buy_70 =
      Ok (bk', [mkOrderInfo EXEC 1 true 20 (px 100); mkOrderInfo EXEC 2 true 40 (px 100);
        mkOrderInfo ADD 9 false 10 (px 100)]) /\
    has_added sample_book sample_books buy_70 bk' /\
    (uncrossed sample_books -> bids_below_asks bk').
Proof. exact (processOrderAddMessage_refines _ _ _ buy_70_pre). Defined.

(** *** Trades *)

(** What the trade does to side [b]. *)
Definition traded (bk : SmartOrderBook) (B : abooks) (q : Quantity) (price : Price) (b : bool)
    : abook * OrderInfoVec * Z :=
  let x := Z.min (count plt price (pending_liq_remove_qty_ (sides_ bk b))) q in
  atrade b price (q - x) (B b).

Definition trade_events (bk : SmartOrderBook) (B : abooks) (q : Quantity) (price : Price) (b : bool)
    : OrderInfoVec :=
  (traded bk B q price b).1.2 ++ guess_events b price (traded bk B q price b).2.

(** No level is better than the trade. *)
Lemma atrade_not_better b price q A x :
  sorted (side_comp b) A -> x ∈ (atrade b price q A).1.1 -> side_comp b x.1 price = false.
Proof.
  intros Hs Hx. unfold atrade in Hx.
  destruct (afill_best price q (not_overtaken b price A)) as [[A' fills] r] eqn:E. simpl in Hx.
  destruct (afill_best_sub price q (not_overtaken b price A) x) as (y & Hy & <-); [by rewrite E|].
  assert (sorted (side_comp b) (not_overtaken b price A)) as Hs'.
  { rewrite (proj1 (overtaken_app b price A)) in Hs.
    by apply (sorted_app (side_comp b)) in Hs as (_ & ? & _). }
  pose proof (not_overtaken_head b price A) as Hhead.
  destruct (not_overtaken b price A) as [|[k os] A2]; [by apply not_elem_of_nil in Hy|].
  specialize (Hhead k os A2 eq_refl). apply (sorted_cons (side_comp b)) in Hs' as [_ Hlt].
  apply elem_of_cons in Hy as [->|Hy]; [done|]. apply Hlt in Hy.
  rewrite side_comp_rank in *. apply Z.ltb_ge in Hhead. apply Z.ltb_ge. simpl in *. lia.
Qed.

(** One side of the book after another. *)
Lemma trade_one bk B b q price :
  book_rep bk B -> trade_pre (store_ bk) (sides_ bk b) (B b) price q ->
  exists m' s', processTrade (store_ bk) (sides_ bk b) (Trade.mkTrade q price) =
      Ok (m', s', trade_events bk B q price b) /\
    book_rep (with_side (with_store bk m') b s') (set_book B b (traded bk B q price b).1.1) /\
    (trade_pre (store_ bk) (sides_ bk (negb b)) (B (negb b)) price q ->
     trade_pre m' (sides_ bk (negb b)) (B (negb b)) price q).
Proof.
  intros Hbk Hpre. destruct (processTrade_rep _ _ _ _ _ Hpre) as (m' & s' & Hrun & Hht).
  rewrite (br_is_sell _ _ Hbk) in Hrun. exists m', s'. split; [exact Hrun|].
  destruct Hht as [Hrep Hlive Hsell _ Hkeeps Hc _ _ _ _].
  rewrite (br_is_sell _ _ Hbk) in *.
  assert (side_rep m' (sides_ bk (negb b)) (B (negb b))) as Hother.
  { eapply rep_keeps_others; [apply Hbk| |exact Hkeeps|done].
    rewrite (br_is_sell _ _ Hbk). by destruct b. }
  split; [by apply book_rep_set|]. intros [_ H2 H3 H4 H5 H6]. by split.
Qed.

Lemma set_both B A0 A1 c :
  set_book (set_book B false A0) true A1 c = if c then A1 else A0.
Proof. by destruct c. Qed.

(** C9. [processTradeMessage] refines the contract of a trade on both sides,
    bids first; afterwards no bid is above and no ask below the price of the
    trade, so the book is uncrossed around it. *)
Theorem processTradeMessage_refines bk B q price :
  book_rep bk B -> (forall b, trade_pre (store_ bk) (sides_ bk b) (B b) price q) ->
  exists bk',
    OrderBook.processTradeMessage bk (TradeMessage.mkTradeMessage q price) =
      Ok (bk', trade_events bk B q price false ++ trade_events bk B q price true) /\
    book_rep bk' (fun b => (traded bk B q price b).1.1) /\
    (forall x, x ∈ (traded bk B q price false).1.1 -> pgt x.1 price = false) /\
    (forall x, x ∈ (traded bk B q price true).1.1 -> plt x.1 price = false).
Proof.
  intros Hbk Hpre. unfold OrderBook.processTradeMessage, TradeMessage.toTrade.
  cbn [TradeMessage.quantity TradeMessage.price].
  destruct (trade_one bk B false q price Hbk (Hpre false)) as (m1 & s1 & -> & Hbk1 & Hnext).
  rewrite bind_ok. specialize (Hnext (Hpre true)).
  destruct (trade_one _ _ true q price Hbk1 Hnext) as (m2 & s2 & Hrun & Hbk2 & _).
  simpl in Hrun |- *. rewrite Hrun, bind_ok.
  eexists. split; [reflexivity|]. split.
  - eapply book_rep_ext; [|exact Hbk2]. intros c. rewrite set_both. by destruct c.
  - split; intros x Hx;
      [apply (atrade_not_better false price _ (B false)) in Hx
      |apply (atrade_not_better true price _ (B true)) in Hx];
      try exact Hx; apply (bk_sorted _ _ (book_ok_of _ _ _ Hbk)).
Qed.

Lemma processTradeMessage_refines_witness :
  exists bk',
    OrderBook.processTradeMessage sample_book (TradeMessage.mkTradeMessage 20 (px 100)) =
      Ok (bk', [mkOrderInfo ADD (-1) false 20 (px 100); mkOrderInfo EXEC (-1) false 20 (px 100);
        mkOrderInfo EXEC 1 true 20 (px 100)]) /\
    book_rep bk' (fun b => if b then [(px 100, [o2]); (px 101, [o3])] else [(px 99, [o4])]) /\
    (forall x, x ∈ [(px 99, [o4])] -> pgt x.1 (px 100) = false) /\
    (forall x, x ∈ [(px 100, [o2]); (px 101, [o3])] -> plt x.1 (px 100) = false).
Proof.
  destruct (processTradeMessage_refines sample_book sample_books 20 (px 100) sample_book_rep)
    as (bk' & H1 & H2 & H3 & H4).
  - intros [|]; (split; [apply sample_rep|apply sample_live|apply sample_counts
      |unfold INT_MAX; lia|apply sample_pending|simpl; unfold INT_MAX; lia]).
  - exists bk'. split; [exact H1|]. split; [|split; [exact H3|exact H4]].
    eapply book_rep_ext; [|exact H2]. by intros [|].
Defined.

(** *** Cancellations and modifications *)

Lemma sample_within : within sample_book sample_books 110.
Proof.
  split; [apply sample_book_rep|apply sample_uncrossed|].
  intros [|] [|] p; unfold count; simpl; unfold total_of, rem; simpl; lia.
Qed.

Lemma sample_adds b : adds_within sample_book b 0.
Proof. destruct b; (split; [apply (sample_pending _)|done]). Qed.

(** C14. A modification message for a known id is a cancellation of what remains
    of the order, under the new price, followed by the arrival of a new order
    with the new quantity; one MODIF event is returned and the events of the
    two steps are dropped.  For an unknown id only the event is returned. *)
Theorem processOrderModifyMessage_refines bk B T U id b q price t :
  within bk B T -> adds_within bk b U -> 0 <= q -> T + q <= INT_MAX ->
  add_loop_ends b (pending_liq_add_qty_ (sides_ bk b)) q price = true ->
  let msg := OrderMessage.mkOrderMessage t id b q price in
  let events := [mkOrderInfo MODIF id b q price] in
  (OrderBook.existOrder bk id = false -> processOrderModifyMessage bk msg = Ok (bk, events)) /\
  (OrderBook.existOrder bk id = true -> exists h o bk',
     OrderBook.getOrderHandler bk id = (h, bk) /\ heap (store_ bk) !! Order.order h = Some o /\
     processOrderModifyMessage bk msg = Ok (bk', events) /\
     let B1 := set_book B b (cancelled_by bk B
       (OrderMessage.mkOrderMessage OrderMessage.CANCEL id b (rem o) price)).1 in
     book_rep bk' (aadd_message B1 b (arriving msg (expected bk msg))).1).
Proof.
  intros Hin Hadds Hq HT Hends msg events. split; intros Hex;
    unfold processOrderModifyMessage; simpl; rewrite Hex; [done|].
  destruct (getOrderHandler_known bk B id (wi_rep _ _ _ Hin) Hex) as (h & o & Hh & Ho & Hs).
  rewrite Hh. cbn [negb]. rewrite (deref_ok _ _ _ Ho), bind_ok, (getRemainingQuantity_ok _ Hs), bind_ok.
  destruct (within_cancel bk B T (OrderMessage.mkOrderMessage OrderMessage.CANCEL id b (rem o) price))
    as (bk1 & -> & Hin1 & Hsame & Hadds1); [done|simpl; by apply rem_nonneg|].
  rewrite bind_ok. simpl OrderMessage.is_sell in *.
  set (add := OrderMessage.mkOrderMessage OrderMessage.ADD id b q price).
  destruct (processOrderAddMessage_rep bk1 _ add (within_add_pre bk1 _ T U add Hin1
    (Hadds1 _ _ Hadds) Hq HT ltac:(simpl; by rewrite Hsame))) as (bk' & -> & Hha).
  exists h, o, bk'. split_and!; [done|done|done|].
  pose proof (ha_rep _ _ _ _ Hha) as Hrep. simpl in Hrep |- *.
  assert (expected bk1 add = expected bk msg) as E.
  { unfold expected. simpl. rewrite Hsame. f_equal. f_equal.
    by rewrite (br_is_sell _ _ (wi_rep _ _ _ Hin1)), (br_is_sell _ _ (wi_rep _ _ _ Hin)). }
  rewrite <- E. exact Hrep.
Qed.

Lemma processOrderModifyMessage_refines_witness :
  let msg := OrderMessage.mkOrderMessage OrderMessage.MODIFY 2 true 15 (px 101) in
  (OrderBook.existOrder sample_book 2 = false ->
     processOrderModifyMessage sample_book msg = Ok (sample_book, [mkOrderInfo MODIF 2 true 15 (px 101)])) /\
  (OrderBook.existOrder sample_book 2 = true -> exists h o bk',
     OrderBook.getOrderHandler sample_book 2 = (h, sample_book) /\
     heap sample_store !! Order.order h = Some o /\
     processOrderModifyMessage sample_book msg = Ok (bk', [mkOrderInfo MODIF 2 true 15 (px 101)]) /\
     book_rep bk' (aadd_message (set_book sample_books true (cancelled_by sample_book sample_books
       (OrderMessage.mkOrderMessage OrderMessage.CANCEL 2 true (rem o) (px 101))).1) true
       (arriving msg (expected sample_book msg))).1).
Proof.
  apply (processOrderModifyMessage_refines sample_book sample_books 110 0);
    [apply sample_within|apply sample_adds|lia|unfold INT_MAX; lia|done].
Defined.

(** ** The manager *)

(** [flushEvents] hands every collected event to the callback of its kind,
    in order and exactly once, and forgets them: with callbacks that note what
    they are called with, the notes are the collected events. *)
Theorem flushEvents_in_order (note : OrderEvent -> OrderInfo -> SmartOrderBook -> SmartOrderBook)
    (cb : Callbacks) bm :
  (forall bk e, onOrderAdd cb bk e = Ok (note ADD e bk)) ->
  (forall bk e, onOrderCancel cb bk e = Ok (note CANCEL e bk)) ->
  (forall bk e, onOrderModify cb bk e = Ok (note MODIF e bk)) ->
  (forall bk e, onOrderExecution cb bk e = Ok (note EXEC e bk)) ->
  flushEvents cb bm =
    Ok (mkBookManager (foldl (fun bk e => note (Common.event e) e bk) (book_ bm) (events_ bm)) []).
Proof.
  intros H1 H2 H3 H4. unfold flushEvents.
  assert (forall events bk, flush cb bk events =
    Ok (foldl (fun bk e => note (Common.event e) e bk) bk events)) as Hflush.
  { induction events as [|e events IH]; intros bk; [done|]. cbn [flush foldl].
    assert (dispatch cb bk e = Ok (note (Common.event e) e bk)) as ->; [|by rewrite bind_ok].
    unfold dispatch. destruct (Common.event e); auto. }
  by rewrite Hflush.
Qed.

Lemma flushEvents_in_order_witness :
  let put (e : OrderInfo) (bk : SmartOrderBook) :=
    with_store bk (mkStore (heap (store_ bk)) (next (store_ bk) + Pos.of_nat (Z.to_nat (Common.odid e)))) in
  flushEvents (mkCallbacks (fun bk e => Ok (put e bk)) (fun bk e => Ok (put e bk))
      (fun bk e => Ok (put e bk)) (fun bk e => Ok (put e bk)))
    (mkBookManager new_SmartOrderBook [mkOrderInfo ADD 3 true 1 (px 1); mkOrderInfo EXEC 4 true 1 (px 1)]) =
  Ok (mkBookManager (with_store new_SmartOrderBook (mkStore ∅ 9)) []).
Proof.
  apply (flushEvents_in_order (fun _ e bk =>
    with_store bk (mkStore (heap (store_ bk)) (next (store_ bk) + Pos.of_nat (Z.to_nat (Common.odid e))))));
    intros; reflexivity.
Defined.

(** The order stream accepts additions, cancellations and modifications and
    nothing else: a message of another type, EXEC included, leaves the manager
    as it was and complains on standard error. *)
Theorem processOrderMessage_rejects bm msg :
  OrderMessage.type msg <> OrderMessage.ADD -> OrderMessage.type msg <> OrderMessage.CANCEL ->
  OrderMessage.type msg <> OrderMessage.MODIFY ->
  processOrderMessage bm msg = Ok (bm, "Invalid order message type" +:+ endl).
Proof. intros H1 H2 H3. unfold processOrderMessage. by destruct (OrderMessage.type msg). Qed.

Lemma processOrderMessage_rejects_witness :
  processOrderMessage new_BookManager (OrderMessage.mkOrderMessage OrderMessage.EXEC 1 true 5 (px 1)) =
  Ok (new_BookManager, "Invalid order message type" +:+ endl).
Proof. apply (processOrderMessage_rejects new_BookManager); discriminate. Defined.
