(* ===== verification/SnapshotTheorems.v ===== *)
(** * Snapshots: [BookSide::processL2Snapshot]

    A side remembers the views it expects to be confirmed.  While the queue is
    not empty, a snapshot either confirms its front or is ignored; when it is
    empty, the snapshot leads and the book is made to follow. *)

From S2P Require Import Prelude Outcome StdMap Price Common Order L2Level Level Messages BookSide.
From S2P Require Import BookSpec Matching SideRep Crossed PendingLiq TradeSide.
From S2P Require Import Resolve Adapt Follow Aggregate.
From S2P Require Import ModifySide Format L2Book OrderBook BookInv BookManager Session.
From S2P Require Import Scenarios.

(** ** Expected snapshots *)

(** A stream of snapshots for one side. *)
Fixpoint snapshots (m : Store) (s : BookSide) (sides : list L2SnapshotSide)
    : outcome (Store * BookSide * OrderInfoVec) :=
  match sides with
  | [] => Ok (m, s, [])
  | side :: sides =>
      '(m, s, e1) ← processL2Snapshot m s side;
      '(m, s, e2) ← snapshots m s sides;
      Ok (m, s, e1 ++ e2)
  end.

Lemma snapshot_front m s front queue side :
  l2_snap_queue_ s = front :: queue ->
  processL2Snapshot m s side =
    Ok (m, if bool_decide (front ≡ side) then with_queue s queue else s, []).
Proof.
  intros E. unfold processL2Snapshot. rewrite E.
  destruct (L2SnapshotSide_eqb front side) eqn:Eq.
  - by rewrite bool_decide_eq_true_2 by by apply L2SnapshotSide_eqb_equiv.
  - rewrite bool_decide_eq_false_2; [done|].
    intros H%L2SnapshotSide_eqb_equiv. congruence.
Qed.

(** The snapshots that the side expects, in the order in which it saved
    them, are confirmations: they empty the queue, change nothing else and
    raise no events.  Anything else that arrives while the queue is not empty
    is ignored. *)
Theorem expected_snapshots m s saved sides later :
  l2_snap_queue_ s = saved ++ later -> saved ≡ sides ->
  snapshots m s sides = Ok (m, with_queue s later, []) /\
  (forall front queue side, l2_snap_queue_ s = front :: queue -> front ≢ side ->
     processL2Snapshot m s side = Ok (m, s, [])).
Proof.
  intros Hq Heq. split.
  - revert s Hq. induction Heq as [|front side saved sides Hf Heq IH]; intros s Hq.
    + simpl in *. rewrite <- Hq. by destruct s.
    + rewrite <- app_comm_cons in Hq. cbn [snapshots]. rewrite (snapshot_front _ _ _ _ _ Hq), bool_decide_eq_true_2 by done.
      rewrite bind_ok. cbv beta iota. by rewrite (IH (with_queue s (saved ++ later)) eq_refl).
  - intros front queue side E Hne. rewrite (snapshot_front _ _ _ _ _ E).
    by rewrite bool_decide_eq_false_2.
Qed.

Lemma expected_snapshots_witness :
  let s := with_queue (sample_side true)
    [[mkL2PriceLevel (px 100) 40]; [mkL2PriceLevel (px 100) 10]] in
  snapshots sample_store s [[mkL2PriceLevel (px 100) 40]] =
    Ok (sample_store, with_queue s [[mkL2PriceLevel (px 100) 10]], []) /\
  (forall front queue side, l2_snap_queue_ s = front :: queue -> front ≢ side ->
     processL2Snapshot sample_store s side = Ok (sample_store, s, [])).
Proof.
  apply (expected_snapshots sample_store _ [[mkL2PriceLevel (px 100) 40]]); [reflexivity|].
  reflexivity.
Defined.

(** ** Stale snapshots *)

(** A bid of 60@100 takes the whole best ask level. *)
Definition buy_60 : Order := mkOrder 9 false 60 (px 100) 0.
Definition store_60 : Store := mkStore (<[10%positive := buy_60]> (heap sample_store)) 11.

Definition zero_level (side : L2SnapshotSide) : bool :=
  existsb (fun l => L2Level.quantity l =? 0) side.

Lemma zero_level_equiv side side' : side ≡ side' -> zero_level side = zero_level side'.
Proof.
  induction 1 as [|l l' side side' [_ E] H IH]; [done|]. simpl. by rewrite E, IH.
Qed.

(** A level that is filled completely is saved with quantity zero before it
    is removed, and the book without it is never saved.  So after 60@100 is
    taken the side waits for a snapshot with an empty level at 100: it ignores
    the true snapshot of the book, and every other snapshot that lists no
    empty levels, for good. *)
Theorem stale_snapshot :
  exists m s events,
    processCrossedOrder store_60 (sample_side true) 10%positive = Ok (m, s, events) /\
    l2_side s = [mkL2PriceLevel (px 101) 50] /\
    l2_snap_queue_ s =
      [[mkL2PriceLevel (px 100) 40; mkL2PriceLevel (px 101) 50];
       [mkL2PriceLevel (px 100) 0; mkL2PriceLevel (px 101) 50]] /\
    (forall sides, Forall (fun side => zero_level side = false) sides ->
       exists s', snapshots m s sides = Ok (m, s', []) /\ levels_ s' = levels_ s /\
         l2_snap_queue_ s' <> []).
Proof.
  destruct (processCrossedOrder store_60 (sample_side true) 10%positive) as [[[m s] events]|f] eqn:E;
    [|by vm_compute in E].
  exists m, s, events. split; [done|].
  assert (l2_side s = [mkL2PriceLevel (px 101) 50] /\ l2_snap_queue_ s =
    [[mkL2PriceLevel (px 100) 40; mkL2PriceLevel (px 101) 50];
     [mkL2PriceLevel (px 100) 0; mkL2PriceLevel (px 101) 50]]) as [H1 H2].
  { assert (match processCrossedOrder store_60 (sample_side true) 10%positive with
      | Ok (_, s, _) => l2_side s = [mkL2PriceLevel (px 101) 50] /\ l2_snap_queue_ s =
          [[mkL2PriceLevel (px 100) 40; mkL2PriceLevel (px 101) 50];
           [mkL2PriceLevel (px 100) 0; mkL2PriceLevel (px 101) 50]]
      | Err _ => False end) as H by (vm_compute; by split).
    by rewrite E in H. }
  split_and!; [done|done|]. clear E.
  assert (forall sides s', levels_ s' = levels_ s ->
    (exists pre last, l2_snap_queue_ s' = pre ++ [last] /\ zero_level last = true) ->
    Forall (fun side => zero_level side = false) sides ->
    exists s'', snapshots m s' sides = Ok (m, s'', []) /\ levels_ s'' = levels_ s /\
      l2_snap_queue_ s'' <> []) as Hgen.
  { clear H1 H2. induction sides as [|side sides IH]; intros s' Hl (pre & last & Hq & Hz) Hs.
    { exists s'. split_and!; [done|done|]. rewrite Hq. by destruct pre. }
    apply Forall_cons in Hs as [Hside Hs]. cbn [snapshots].
    destruct (l2_snap_queue_ s') as [|front queue] eqn:Eq; [by destruct pre|].
    rewrite (snapshot_front _ _ _ _ _ Eq), bind_ok. cbv beta iota.
    case_bool_decide as Hf.
    - destruct pre as [|p pre]; simpl in Hq; injection Hq as -> ->.
      + apply zero_level_equiv in Hf. congruence.
      + destruct (IH (with_queue s' (pre ++ [last])) Hl) as (s'' & -> & H1 & H2); [|done|].
        * by exists pre, last.
        * by exists s''.
    - destruct (IH s' Hl) as (s'' & -> & H1 & H2); [|done|by exists s''].
      exists pre, last. by rewrite Eq. }
  intros sides Hs. apply Hgen; [done| |done]. rewrite H2. eexists [_], _. by split.
Qed.

(** ** Snapshots that lead *)

(** For the sample book, a snapshot that shows 30 less at 100, nothing at 101
    and 25 more at 102, asks from the worst price to the best. *)
Definition lead_side : L2SnapshotSide := [mkL2PriceLevel (px 102) 25; mkL2PriceLevel (px 100) 30].
Definition lead_bids : L2SnapshotSide := [mkL2PriceLevel (px 99) 45].

Definition lead_levels (b : bool) : L2SnapshotSide := if b then lead_side else lead_bids.

Lemma sample_lead b : lead_pre sample_store (sample_side b) (sample_books b) (lead_levels b).
Proof.
  split; [apply sample_rep|by destruct b|apply sample_pending| |by destruct b|by destruct b].
  split.
  - destruct b; [apply ask_book_ok|apply bid_book_ok].
  - apply sample_live.
  - apply (bool_decide_unpack _). destruct b; by vm_compute.
  - destruct b; repeat constructor; by vm_compute.
  - assert (Forall (fun i => i < 100) (ids (sample_books b))) as H.
    { destruct b; repeat constructor. }
    rewrite Forall_forall in H. intros i Hi. left. destruct b; by apply H.
Qed.

(** C11. A snapshot that leads the other streams is followed exactly: when
    nothing is expected and no id the code may invent is in use, the operation
    completes, the book stays well formed and live, and its view is the
    snapshot, level by level (arranged from the best price to the worst, if it
    was not).  The events are the guessed additions and removals in the order of
    the code: levels that the snapshot lowers come before levels that it does not
    list.  Executions are therefore at prices at least as good as cancellations,
    as the README describes, if the snapshot lowers no level that it lists (and
    the share of executions is computed without rounding errors, up to 1024
    removals); else they need not be ([execution_guessed_at_worse_price]). *)
Theorem processL2Snapshot_follows m s A side :
  lead_pre m s A side ->
  exists m' s', processL2Snapshot m s side = Ok (m', s', follow_events (is_sell_ s) side A) /\
    l2_side s' ≡ best_first (is_sell_ s) side /\
    (sorted (side_comp (is_sell_ s)) (quotes side) -> l2_side s' ≡ side) /\
    has_followed A side m s m' s' /\
    (lowers_no_level side A -> (length (removals (is_sell_ s) side A) <= share_max)%nat ->
     forall e c, e ∈ follow_events (is_sell_ s) side A -> c ∈ follow_events (is_sell_ s) side A ->
       Common.event e = EXEC -> Common.event c = CANCEL ->
       side_rank (is_sell_ s) (Common.price e) <= side_rank (is_sell_ s) (Common.price c)).
Proof.
  intros Hpre. destruct (processL2Snapshot_rep _ _ _ _ Hpre) as (m' & s' & Hrun & Hhf).
  pose proof (hf_view _ _ _ _ _ _ Hhf) as Hview.
  exists m', s'. split_and!; [done|done| |done|].
  - intros Hs. by rewrite Hview, best_first_sorted.
  - apply follow_events_by_price, Hpre.
Qed.

Lemma processL2Snapshot_follows_witness :
  exists m' s', processL2Snapshot sample_store (sample_side true) lead_side =
      Ok (m', s', [mkOrderInfo ADD (-1) true 25 (px 102); mkOrderInfo EXEC 1 true 20 (px 100);
        mkOrderInfo CANCEL 2 true 10 (px 100); mkOrderInfo CANCEL 3 true 50 (px 101)]) /\
    l2_side s' ≡ [mkL2PriceLevel (px 100) 30; mkL2PriceLevel (px 102) 25] /\
    (sorted (side_comp true) (quotes lead_side) -> l2_side s' ≡ lead_side) /\
    has_followed ask_book lead_side sample_store (sample_side true) m' s'.
Proof.
  destruct (processL2Snapshot_follows _ _ _ _ (sample_lead true)) as (m' & s' & H1 & H2 & H3 & H4 & _).
  exists m', s'. exact (conj H1 (conj H2 (conj H3 H4))).
Defined.

(** The README says that of the removed asks those with lower prices are guessed
    as executed first (and a comment of the code speaks of an order by price).
    The code takes the levels that the snapshot lowers first: with one order for each
    ask of the README's example, 10@102 is guessed executed besides 60@100, while
    50@101 is cancelled; and of the sample 10@101 is executed while both orders at
    100 are cancelled. *)
Theorem execution_guessed_at_worse_price :
  (book ← steps (Ok new_SmartOrderBook)
     [Add 1 true 40 (px 104); Add 2 true 80 (px 103); Add 3 true 60 (px 102); Add 4 true 50 (px 101);
      Add 5 true 60 (px 100)];
   '(_, events) ← take_step book (Snap [] [mkL2PriceLevel (px 103) 80; mkL2PriceLevel (px 102) 50]);
   Ok events) =
  Ok [mkOrderInfo EXEC 3 true 10 (px 102); mkOrderInfo EXEC 5 true 60 (px 100);
      mkOrderInfo CANCEL 4 true 50 (px 101); mkOrderInfo CANCEL 1 true 40 (px 104)] /\
  ('(_, _, events) ← processL2Snapshot sample_store (sample_side true) [mkL2PriceLevel (px 101) 40];
   Ok events) =
  Ok [mkOrderInfo EXEC 3 true 10 (px 101); mkOrderInfo CANCEL 1 true 20 (px 100);
      mkOrderInfo CANCEL 2 true 40 (px 100)].
Proof. split; vm_compute; reflexivity. Qed.

Lemma guess_event_kind b e (pl : list (Order * Z)) :
  Forall (fun ev => Common.event ev = e) (guess_event b e <$> pl).
Proof. apply Forall_fmap, Forall_true. done. Qed.

Lemma guess_event_quantity b e (pl : list (Order * Z)) :
  zsum Common.quantity (guess_event b e <$> pl) = zsum snd pl.
Proof. unfold zsum. by rewrite foldr_fmap. Qed.

(** What the guess reports for a snapshot that leads: first additions, then
    executions, then cancellations.  Of the [n] removals the first
    [ceil (0.3 * n)] are executions, without rounding errors for up to 1024
    of them; and the quantities of the events account for the change of the
    book to the last lot. *)
Theorem snapshot_guesses m s A side :
  lead_pre m s A side -> (length (removals (is_sell_ s) side A) <= share_max)%nat ->
  exists m' s' A' added executions cancellations,
    processL2Snapshot m s side = Ok (m', s', added ++ executions ++ cancellations) /\
    side_rep m' s' A' /\
    Forall (fun e => Common.event e = ADD) added /\
    Forall (fun e => Common.event e = EXEC) executions /\
    Forall (fun e => Common.event e = CANCEL) cancellations /\
    length executions = share (length executions + length cancellations) /\
    total_of A + zsum Common.quantity added =
      total_of A' + zsum Common.quantity executions + zsum Common.quantity cancellations.
Proof.
  intros Hpre Hn. destruct (processL2Snapshot_rep _ _ _ _ Hpre) as (m' & s' & Hrun & Hhf).
  set (pl := removals (is_sell_ s) side A) in *. unfold follow_events in Hrun. fold pl in Hrun.
  rewrite removal_events_split in Hrun by done. set (e := share (length pl)) in *.
  eexists m', s', _, _, _, _. split; [exact Hrun|]. split; [apply Hhf|].
  split; [apply adds_kind|]. do 2 (split; [apply guess_event_kind|]).
  rewrite !length_fmap, length_take, length_drop, !guess_event_quantity.
  pose proof (share_le (length pl)) as He. split.
  - replace (e `min` length pl + (length pl - e))%nat with (length pl) by lia. fold e. lia.
  - rewrite (afollow_total _ _ _ (lp_adapt _ _ _ _ Hpre)). fold pl.
    rewrite <- (take_drop e pl) at 1. rewrite zsum_app. lia.
Qed.

Lemma snapshot_guesses_witness :
  exists m' s' A' added executions cancellations,
    processL2Snapshot sample_store (sample_side true) lead_side =
      Ok (m', s', added ++ executions ++ cancellations) /\
    side_rep m' s' A' /\
    Forall (fun e => Common.event e = ADD) added /\
    Forall (fun e => Common.event e = EXEC) executions /\
    Forall (fun e => Common.event e = CANCEL) cancellations /\
    length executions = share (length executions + length cancellations) /\
    110 + zsum Common.quantity added =
      total_of A' + zsum Common.quantity executions + zsum Common.quantity cancellations.
Proof.
  refine (snapshot_guesses _ _ _ _ (sample_lead true) _).
  apply Nat.leb_le. vm_compute. reflexivity.
Defined.

(** *** The whole message *)

(** What a snapshot of one side does to the book. *)
Lemma follow_one bk B b side :
  book_rep bk B -> lead_pre (store_ bk) (sides_ bk b) (B b) side ->
  exists m' s', processL2Snapshot (store_ bk) (sides_ bk b) side =
      Ok (m', s', follow_events b side (B b)) /\
    book_rep (with_side (with_store bk m') b s') (set_book B b (afollow b side (B b))) /\
    l2_view (afollow b side (B b)) ≡ best_first b side /\
    (forall side', lead_pre (store_ bk) (sides_ bk (negb b)) (B (negb b)) side' ->
     lead_pre m' (sides_ bk (negb b)) (B (negb b)) side').
Proof.
  intros Hbk Hpre. destruct (processL2Snapshot_rep _ _ _ _ Hpre) as (m' & s' & Hrun & Hhf).
  pose proof (afollow_view _ _ _ (lp_adapt _ _ _ _ Hpre)) as Hview.
  destruct Hhf as [Hrep Hlive _ Hown Hsell _ Hrem _ _].
  rewrite (br_is_sell _ _ Hbk) in *. exists m', s'.
  assert (side_rep m' (sides_ bk (negb b)) (B (negb b))) as Hother.
  { eapply rep_own_writes; [apply Hbk| |exact Hown]. rewrite (br_is_sell _ _ Hbk). by destruct b. }
  split_and!; [done| |done|].
  - apply book_rep_set; try done. rewrite Hrem. apply Hbk.
  - intros side' [_ H2 H3 H4 H5 H6]. by split.
Qed.

Lemma l2_nodes_view A : (l2_nodes A).*2 = l2_view A.
Proof. unfold l2_nodes. by rewrite <- list_fmap_compose. Qed.

(** C10. A snapshot message that leads on both sides makes the order book show
    it: [getL2Book] afterwards returns the bid and the ask levels of the
    message, best first, and the L3 book behind it is well formed. *)
Theorem processSnapshotMessage_shows bk B msg :
  book_rep bk B ->
  lead_pre (store_ bk) (sides_ bk false) (B false) (SnapshotMessage.bid_levels msg) ->
  lead_pre (store_ bk) (sides_ bk true) (B true) (SnapshotMessage.ask_levels msg) ->
  exists bk' B' l2,
    OrderBook.processSnapshotMessage bk msg =
      Ok (bk', follow_events false (SnapshotMessage.bid_levels msg) (B false) ++
               follow_events true (SnapshotMessage.ask_levels msg) (B true)) /\
    book_rep bk' B' /\ getL2Book bk' = (l2, "") /\
    (bidBook_ l2).*2 ≡ best_first false (SnapshotMessage.bid_levels msg) /\
    (askBook_ l2).*2 ≡ best_first true (SnapshotMessage.ask_levels msg).
Proof.
  intros Hbk Hbids Hasks. unfold OrderBook.processSnapshotMessage.
  destruct (follow_one bk B false _ Hbk Hbids) as (m1 & s1 & -> & Hbk1 & Hview1 & Hnext).
  rewrite bind_ok. specialize (Hnext _ Hasks).
  destruct (follow_one _ _ true _ Hbk1 Hnext) as (m2 & s2 & Hrun & Hbk2 & Hview2 & _).
  simpl in Hrun |- *. rewrite Hrun, bind_ok.
  eexists _, _, _. split; [reflexivity|]. split; [exact Hbk2|].
  split; [apply (getL2Book_rep _ _ Hbk2)|]. simpl. rewrite !l2_nodes_view. done.
Qed.

Lemma processSnapshotMessage_shows_witness :
  exists bk' B' l2,
    OrderBook.processSnapshotMessage sample_book
        (SnapshotMessage.mkSnapshotMessage lead_bids lead_side) =
      Ok (bk', [mkOrderInfo ADD (-1) false 15 (px 99);
        mkOrderInfo ADD (-1) true 25 (px 102); mkOrderInfo EXEC 1 true 20 (px 100);
        mkOrderInfo CANCEL 2 true 10 (px 100); mkOrderInfo CANCEL 3 true 50 (px 101)]) /\
    book_rep bk' B' /\ getL2Book bk' = (l2, "") /\
    (bidBook_ l2).*2 ≡ lead_bids /\
    (askBook_ l2).*2 ≡ [mkL2PriceLevel (px 100) 30; mkL2PriceLevel (px 102) 25].
Proof.
  exact (processSnapshotMessage_shows sample_book sample_books
    (SnapshotMessage.mkSnapshotMessage lead_bids lead_side) sample_book_rep
    (sample_lead false) (sample_lead true)).
Defined.

(** *** Invented ids *)

(** What two snapshots in a row leave of an empty ask side. *)
Definition two_snapshots : outcome (Store * BookSide * OrderInfoVec) :=
  snapshots emptyStore (new_BookSide true AskComparator)
    [[mkL2PriceLevel (px 100) 10]; [mkL2PriceLevel (px 100) 10; mkL2PriceLevel (px 101) 5]].

(** The ids the code invents for the liquidity it guesses start at 100 in
    every snapshot, and the guessed orders rest under them.  So of two
    snapshots in a row that add liquidity to an empty side, only the first is
    followed: the second says ADD 5@101 and notes the quantity, but its order
    has the id of the first and is dropped, and the book does not show it. *)
Theorem fake_id_collision :
  exists m s, two_snapshots =
      Ok (m, s, [mkOrderInfo ADD (-1) true 10 (px 100); mkOrderInfo ADD (-1) true 5 (px 101)]) /\
    l2_side s = [mkL2PriceLevel (px 100) 10] /\
    pending_liq_add_qty_ s = [(px 100, 10); (px 101, 5)].
Proof.
  destruct two_snapshots as [[[m s] ev]|f] eqn:E; [|by vm_compute in E].
  assert (match two_snapshots with
    | Ok (_, s, ev) =>
        ev = [mkOrderInfo ADD (-1) true 10 (px 100); mkOrderInfo ADD (-1) true 5 (px 101)] /\
        l2_side s = [mkL2PriceLevel (px 100) 10] /\
        pending_liq_add_qty_ s = [(px 100, 10); (px 101, 5)]
    | Err _ => False end) as H by (vm_compute; by split_and!).
  rewrite E in H. destruct H as (-> & H1 & H2). by exists m, s.
Qed.
