(* ===== verification/CStr.v ===== *)
(** * Characters and strings of the vendored GoogleTest (gtest-port.h, gtest.cc)

    A [char] is an [ascii]; [code] is its value as [unsigned char], [scode] as
    the signed [char] of the usual x86-64 and AArch64/Linux x86 ABIs.  A
    [std::string] is the list of its characters and may hold NULs; [c_str]
    cuts it at the first NUL, which is what a function that is handed
    [s.c_str()] gets to see.  A [const char*] that may be null is an
    [option text].  The character classes are those of the "C" locale.

    Models the [String] class and the character functions of GoogleTest. *)

From S2P Require Import Prelude Outcome Common.
From Stdlib Require Export Ascii.
From Stdlib Require Import String.

Abbreviation text := (list ascii).

Definition str (s : string) : text := list_ascii_of_string s.

Definition NUL : ascii := "000".
Definition LF : ascii := "010".

(** The value of a character, unsigned and signed, and the cast to [char]. *)
Definition code (c : ascii) : Z := Z.of_N (N_of_ascii c).
Definition scode (c : ascii) : Z := if code c <? 128 then code c else code c - 256.
Definition to_char (z : Z) : ascii := ascii_of_N (Z.to_N (z mod 256)).

(** ** Character classes (gtest-port.h) *)

Definition in_range (lo hi : ascii) (c : ascii) : bool :=
  (code lo <=? code c) && (code c <=? code hi).

Definition IsLower : ascii -> bool := in_range "a" "z".
Definition IsUpper : ascii -> bool := in_range "A" "Z".
Definition IsAlpha (c : ascii) : bool := IsLower c || IsUpper c.
Definition IsDigit : ascii -> bool := in_range "0" "9".
Definition IsAlNum (c : ascii) : bool := IsAlpha c || IsDigit c.
Definition IsXDigit (c : ascii) : bool :=
  IsDigit c || in_range "a" "f" c || in_range "A" "F" c.
(** Blank, tab, line feed, vertical tab, form feed, carriage return. *)
Definition IsSpace (c : ascii) : bool :=
  (code c =? 32) || in_range "009" "013" c.
Definition ToLower (c : ascii) : ascii := if IsUpper c then to_char (code c + 32) else c.
Definition ToUpper (c : ascii) : ascii := if IsLower c then to_char (code c - 32) else c.

(** [StripTrailingSpaces] erases blanks from the end, on the reversed string. *)
Fixpoint drop_spaces (s : text) : text :=
  match s with
  | c :: s' => if IsSpace c then drop_spaces s' else s
  | [] => []
  end.
Definition StripTrailingSpaces (s : text) : text := rev (drop_spaces (rev s)).

(** ** C strings *)

(** What is visible through [s.c_str()]. *)
Fixpoint c_str (s : text) : text :=
  match s with
  | c :: s' => if bool_decide (c = NUL) then [] else c :: c_str s'
  | [] => []
  end.

(** [strchr] and [strrchr] on the characters before the NUL, as an index. *)
Fixpoint find_char (d : ascii) (s : text) : option nat :=
  match s with
  | c :: s' => if bool_decide (c = d) then Some O else S <$> find_char d s'
  | [] => None
  end.
Fixpoint find_last_char (d : ascii) (s : text) : option nat :=
  match s with
  | c :: s' => match find_last_char d s' with
               | Some i => Some (S i)
               | None => if bool_decide (c = d) then Some O else None
               end
  | [] => None
  end.

(** [strncmp(prefix, s, strlen(prefix)) == 0]. *)
Fixpoint has_prefix (prefix s : text) : bool :=
  match prefix, s with
  | [], _ => true
  | c :: prefix', d :: s' => bool_decide (c = d) && has_prefix prefix' s'
  | _ :: _, [] => false
  end.

(** [s.find(needle)]: the first position at which [needle] occurs. *)
Fixpoint find_text (needle s : text) : option nat :=
  if has_prefix needle s then Some O
  else match s with
       | _ :: s' => S <$> find_text needle s'
       | [] => None
       end.

(** ** Numbers in text *)

(** Digits of a non-negative number, most significant first, upper case. *)
Definition digit_char (d : Z) : ascii :=
  if d <? 10 then to_char (48 + d) else to_char (55 + d).

Fixpoint digits_loop (fuel : nat) (base n : Z) (acc : text) : text :=
  match fuel with
  | O => acc
  | S fuel => let acc := digit_char (n mod base) :: acc in
              if n <? base then acc else digits_loop fuel base (n / base) acc
  end.
Definition digits (base n : Z) : text :=
  digits_loop (S (Z.to_nat (Z.log2 n))) base n [].

(** [std::to_string], [operator<<] of an integer to a stream. *)
Definition dec (n : Z) : text :=
  if n <? 0 then "-"%char :: digits 10 (- n) else digits 10 n.

(** [std::setfill(c) << std::setw(width)]: padding on the left. *)
Definition pad_left (c : ascii) (width : Z) (s : text) : text :=
  replicate (Z.to_nat (width - Z.of_nat (List.length s))) c ++ s.

(** ** The class [String] of gtest-string.h *)

Module Gtest_String.

(** [CStringEquals]: a null pointer equals only a null pointer. *)
Definition CStringEquals (lhs rhs : option text) : bool :=
  match lhs, rhs with
  | None, None => true
  | Some l, Some r => bool_decide (c_str l = c_str r)
  | _, _ => false
  end.

Definition CaseInsensitiveCStringEquals (lhs rhs : option text) : bool :=
  match lhs, rhs with
  | None, None => true
  | Some l, Some r => bool_decide (map ToLower (c_str l) = map ToLower (c_str r))
  | _, _ => false
  end.

Definition EndsWithCaseInsensitive (s suffix : text) : bool :=
  let str_len := List.length s in
  let suffix_len := List.length suffix in
  (suffix_len <=? str_len)%nat &&
  CaseInsensitiveCStringEquals (Some (drop (str_len - suffix_len) s)) (Some suffix).

Definition FormatIntWidthN (value width : Z) : text := pad_left "0" width (dec value).
Definition FormatIntWidth2 (value : Z) : text := FormatIntWidthN value 2.
Definition FormatHexUInt32 (value : Z) : text := digits 16 value.
Definition FormatHexInt (value : Z) : text := FormatHexUInt32 (value mod 2 ^ 32).
Definition FormatByte (value : Z) : text := pad_left "0" 2 (digits 16 value).

End Gtest_String.

(** [SplitString]: the pieces between the delimiters, at least one. *)
Fixpoint SplitString (s : text) (delimiter : ascii) : list text :=
  match s with
  | [] => [[]]
  | c :: s' =>
      if bool_decide (c = delimiter) then [] :: SplitString s' delimiter
      else match SplitString s' delimiter with
           | piece :: pieces => (c :: piece) :: pieces
           | [] => [[c]]
           end
  end.

(** [StringStreamToString]: a NUL becomes the two characters backslash, 0. *)
Definition StringStreamToString (s : text) : text :=
  flat_map (fun ch => if bool_decide (ch = NUL) then str "\0" else [ch]) s.

(** ** Lemmas *)

(** Bits side by side. *)
Lemma lor_disjoint x y n :
  0 <= n -> 0 <= y < 2 ^ n -> Z.lor (x * 2 ^ n) y = x * 2 ^ n + y.
Proof.
  intros Hn Hy. rewrite <- Z.add_lor_land.
  replace (Z.land _ _) with 0; [lia|]. symmetry. apply Z.bits_inj'. intros i Hi.
  rewrite Z.land_spec, Z.bits_0. destruct (Z.lt_ge_cases i n).
  - by rewrite Z.mul_pow2_bits_low by lia.
  - rewrite <- (Z.mod_small y (2 ^ n)), Z.mod_pow2_bits_high by lia.
    apply andb_false_r.
Qed.

Lemma code_range c : 0 <= code c < 256.
Proof.
  unfold code. pose proof (N_ascii_bounded c). lia.
Qed.

Lemma to_char_code c : to_char (code c) = c.
Proof.
  unfold to_char. rewrite Z.mod_small by apply code_range.
  unfold code. by rewrite N2Z.id, ascii_N_embedding.
Qed.

Lemma code_to_char z : 0 <= z < 256 -> code (to_char z) = z.
Proof.
  intros H. unfold code, to_char. rewrite Z.mod_small by lia.
  rewrite N_ascii_embedding by lia. lia.
Qed.

Lemma code_inj c d : code c = code d -> c = d.
Proof. intros H. by rewrite <- (to_char_code c), H, to_char_code. Qed.

(** A test that all 256 characters pass. *)
Lemma every_char (f : ascii -> bool) :
  forallb (fun i => f (to_char (Z.of_nat i))) (seq 0 256) = true -> forall c, f c = true.
Proof.
  rewrite forallb_forall. intros H c. rewrite <- (to_char_code c).
  pose proof (code_range c). replace (code c) with (Z.of_nat (Z.to_nat (code c))) by lia.
  apply H, in_seq. lia.
Qed.

Lemma c_str_id s : NUL ∉ s -> c_str s = s.
Proof.
  induction s as [|c s IH]; [done|]. simpl. intros H.
  case_bool_decide; [set_solver|]. f_equal. apply IH. set_solver.
Qed.

Lemma has_prefix_spec p s : has_prefix p s = true <-> exists r, s = p ++ r.
Proof.
  revert s; induction p as [|c p IH]; intros s; simpl; [naive_solver|].
  destruct s as [|d s]; [split; [done | by intros (? & ?)]|].
  rewrite andb_true_iff, bool_decide_eq_true, IH. split.
  - intros (-> & r & ->). by exists r.
  - intros (r & [= -> ->]). eauto.
Qed.

Lemma SplitString_nonempty s d : SplitString s d <> [].
Proof.
  destruct s as [|c s]; simpl; [done|]. case_bool_decide; [done|].
  by destruct (SplitString s d).
Qed.

(** Joining the pieces again: [SplitString] is inverted by [join]. *)
Fixpoint join (d : text) (pieces : list text) : text :=
  match pieces with
  | [] => []
  | [piece] => piece
  | piece :: pieces => piece ++ d ++ join d pieces
  end.

Lemma SplitString_join s d : join [d] (SplitString s d) = s.
Proof.
  induction s as [|c s IH]; simpl; [done|].
  pose proof (SplitString_nonempty s d) as Hn. case_bool_decide as Hc.
  - subst. destruct (SplitString s d); [done|]. simpl in *. by rewrite IH.
  - destruct (SplitString s d) as [|p [|p' ps]]; simpl in *; [done| |]; by rewrite <- IH.
Qed.

Lemma SplitString_free s d p : p ∈ SplitString s d -> d ∉ p.
Proof.
  revert p; induction s as [|c s IH]; simpl; intros p.
  { intros ->%list_elem_of_singleton. apply not_elem_of_nil. }
  case_bool_decide as Hc.
  { intros [->|?]%elem_of_cons; [apply not_elem_of_nil | auto]. }
  destruct (SplitString s d) as [|q qs].
  - intros ->%list_elem_of_singleton. rewrite list_elem_of_singleton. congruence.
  - intros [->|?]%elem_of_cons; [|by apply IH; right].
    intros [?|?]%elem_of_cons; [congruence|]. by apply (IH q); [left|].
Qed.
