(* ===== verification/FilePath.v ===== *)
(** * Path names (gtest-filepath.h, gtest-filepath.cc), as built on Linux

    A [FilePath] is a string without consecutive separators: the constructor
    from a string calls [Normalize], every operation builds its result with
    that constructor or copies one.  The file system is a parameter: the three
    system calls the class makes are the methods of [FileSystem], and what the
    code relies on are the laws of [FileSystemLaws]. *)

From S2P Require Import Prelude Outcome Common CStr.

Definition kPathSeparator : ascii := "/".
Definition kCurrentDirectoryString : text := str "./".

Definition IsPathSeparator (c : ascii) : bool := bool_decide (c = kPathSeparator).

Record FilePath : Type := mkFilePath { pathname_ : text }.

(** [FilePath::Normalize].  [out] is what has been written to the front of the
    string so far; the writing iterator never passes the reading one. *)
Fixpoint normalize_loop (out : text) (i : text) : text :=
  match i with
  | [] => out
  | character :: i =>
      if negb (IsPathSeparator character) then normalize_loop (out ++ [character]) i
      else if bool_decide (out = []) || negb (bool_decide (last out = Some kPathSeparator))
      then normalize_loop (out ++ [kPathSeparator]) i
      else normalize_loop out i
  end.
Definition Normalize (pathname : text) : text := normalize_loop [] pathname.

(** The constructors [FilePath()] and [FilePath(std::string)]. *)
Definition FilePath_empty : FilePath := mkFilePath [].
Definition FilePath_of (pathname : text) : FilePath := mkFilePath (Normalize pathname).

Definition IsEmpty (p : FilePath) : bool := bool_decide (pathname_ p = []).

Definition RemoveExtension (p : FilePath) (extension : text) : FilePath :=
  let dot_extension := str "." ++ extension in
  if Gtest_String.EndsWithCaseInsensitive (pathname_ p) dot_extension
  then FilePath_of
         (take (List.length (pathname_ p) - List.length dot_extension) (pathname_ p))
  else p.

(** The offset of the last separator in [c_str()]. *)
Definition FindLastPathSeparator (p : FilePath) : option nat :=
  find_last_char kPathSeparator (c_str (pathname_ p)).

Definition CalculateRootLength (p : FilePath) : nat :=
  match pathname_ p with
  | s :: _ => if IsPathSeparator s then 1%nat else O
  | [] => O
  end.

Definition RemoveDirectoryName (p : FilePath) : FilePath :=
  match FindLastPathSeparator p with
  | Some last_sep => FilePath_of (drop (S last_sep) (c_str (pathname_ p)))
  | None => p
  end.

Definition RemoveFileName (p : FilePath) : FilePath :=
  let dir := match FindLastPathSeparator p with
             | Some last_sep => take (S last_sep) (pathname_ p)
             | None => kCurrentDirectoryString
             end in
  FilePath_of dir.

Definition IsDirectory (p : FilePath) : bool :=
  match last (pathname_ p) with Some c => IsPathSeparator c | None => false end.

Definition RemoveTrailingPathSeparator (p : FilePath) : FilePath :=
  if IsDirectory p
  then FilePath_of (take (List.length (pathname_ p) - 1) (pathname_ p)) else p.

Definition ConcatPaths (directory relative_path : FilePath) : FilePath :=
  if IsEmpty directory then relative_path
  else let dir := RemoveTrailingPathSeparator directory in
       FilePath_of (pathname_ dir ++ kPathSeparator :: pathname_ relative_path).

Definition MakeFileName (directory base_name : FilePath) (number : Z) (extension : text)
    : FilePath :=
  let file := if number =? 0 then pathname_ base_name ++ str "." ++ extension
              else pathname_ base_name ++ str "_" ++ dec number ++ str "." ++ extension in
  ConcatPaths directory (FilePath_of file).

Definition IsRootDirectory (p : FilePath) : bool :=
  let root_length := CalculateRootLength p in
  (0 <? root_length)%nat && (root_length =? List.length (pathname_ p))%nat &&
  match pathname_ p !! (root_length - 1)%nat with
  | Some c => IsPathSeparator c | None => false end.

Definition IsAbsolutePath (p : FilePath) : bool := (0 <? CalculateRootLength p)%nat.

(** ** The operations that ask the file system *)

(** [stat]: what the name denotes, [true] for a directory; [mkdir]: whether the
    directory was made; [getcwd]. *)
Class FileSystem (FS : Type) : Type := {
  fs_stat : FS -> text -> option bool;
  fs_mkdir : FS -> text -> bool * FS;
  fs_getcwd : FS -> option text }.

Section file_system.
Context {FS : Type} `{!FileSystem FS}.
Implicit Types fs : FS.

Definition GetCurrentDir (fs : FS) : FilePath :=
  FilePath_of (match fs_getcwd fs with None => [] | Some cwd => cwd end).

Definition FileOrDirectoryExists (fs : FS) (p : FilePath) : bool :=
  match fs_stat fs (c_str (pathname_ p)) with Some _ => true | None => false end.

Definition DirectoryExists (fs : FS) (p : FilePath) : bool :=
  match fs_stat fs (c_str (pathname_ p)) with Some is_dir => is_dir | None => false end.

(** The [do ... while] of [GenerateUniqueFileName]; [number++] is an [int]. *)
Fixpoint unique_loop (fuel : nat) (fs : FS) (directory base_name : FilePath) (number : Z)
    (extension : text) : outcome FilePath :=
  match fuel with
  | O => Err Diverges
  | S fuel =>
      let full_pathname := MakeFileName directory base_name number extension in
      number ← iadd number 1;
      if FileOrDirectoryExists fs full_pathname
      then unique_loop fuel fs directory base_name number extension
      else Ok full_pathname
  end.
Definition GenerateUniqueFileName (fuel : nat) (fs : FS) (directory base_name : FilePath)
    (extension : text) : outcome FilePath :=
  unique_loop fuel fs directory base_name 0 extension.

Definition CreateFolder (fs : FS) (p : FilePath) : bool * FS :=
  match fs_mkdir fs (c_str (pathname_ p)) with
  | (true, fs) => (true, fs)
  | (false, fs) => (DirectoryExists fs p, fs)
  end.

Fixpoint CreateDirectoriesRecursively (fuel : nat) (fs : FS) (p : FilePath)
    : outcome (bool * FS) :=
  match fuel with
  | O => Err Diverges
  | S fuel =>
      if negb (IsDirectory p) then Ok (false, fs)
      else if IsEmpty p || DirectoryExists fs p then Ok (true, fs)
      else
        let parent := RemoveFileName (RemoveTrailingPathSeparator p) in
        '(made, fs) ← CreateDirectoriesRecursively fuel fs parent;
        if made : bool then Ok (CreateFolder fs p) else Ok (false, fs)
  end.

End file_system.

(** What the documentation of [mkdir] and [stat] promises. *)
Class FileSystemLaws (FS : Type) `{!FileSystem FS} : Prop := {
  mkdir_creates fs p fs' : fs_mkdir fs p = (true, fs') -> fs_stat fs' p = Some true;
  mkdir_keeps fs p q : fs_stat fs q = Some true ->
    fs_stat (snd (fs_mkdir fs p)) q = Some true }.

(** ** Normal path names *)

(** No two separators in a row. *)
Fixpoint normal (s : text) : bool :=
  match s with
  | c :: s' => match s' with
               | d :: _ => negb (IsPathSeparator c && IsPathSeparator d) && normal s'
               | [] => true
               end
  | [] => true
  end.

(** The non-empty names between the separators. *)
Definition path_names (s : text) : list text :=
  filter (fun piece => piece <> []) (SplitString s kPathSeparator).

Lemma IsPathSeparator_spec c : IsPathSeparator c = true <-> c = kPathSeparator.
Proof. apply bool_decide_eq_true. Qed.

Lemma normal_snoc s c :
  normal (s ++ [c]) =
  normal s && negb (bool_decide (last s = Some kPathSeparator) && IsPathSeparator c).
Proof.
  induction s as [|a s IH]; [done|]. destruct s as [|b s].
  - simpl. unfold IsPathSeparator. repeat case_bool_decide; naive_solver.
  - change ((a :: b :: s) ++ [c]) with (a :: (b :: s) ++ [c]).
    change (last (a :: b :: s)) with (last (b :: s)).
    change (normal (a :: (b :: s) ++ [c]))
      with (negb (IsPathSeparator a && IsPathSeparator b) && normal ((b :: s) ++ [c])).
    change (normal (a :: b :: s))
      with (negb (IsPathSeparator a && IsPathSeparator b) && normal (b :: s)).
    by rewrite IH, andb_assoc.
Qed.

Lemma normal_app_l s1 s2 : normal (s1 ++ s2) = true -> normal s1 = true.
Proof.
  induction s2 as [|c s2 IH] using rev_ind; [by rewrite app_nil_r|].
  rewrite app_assoc, normal_snoc, andb_true_iff. tauto.
Qed.

Lemma normal_tail c s : normal (c :: s) = true -> normal s = true.
Proof. destruct s; simpl; [done|]. rewrite andb_true_iff. tauto. Qed.

Lemma normal_drop n s : normal s = true -> normal (drop n s) = true.
Proof.
  revert s; induction n as [|n IH]; intros [|c s]; simpl; try done.
  intros H%normal_tail. by apply IH.
Qed.

Lemma normal_take n s : normal s = true -> normal (take n s) = true.
Proof. intros H. rewrite <- (take_drop n s) in H. by eapply normal_app_l. Qed.

Lemma normalize_loop_normal i out :
  normal out = true -> normal (normalize_loop out i) = true.
Proof.
  revert out; induction i as [|c i IH]; intros out H; simpl; [done|].
  destruct (IsPathSeparator c) eqn:Hc; simpl.
  - case_bool_decide as E; simpl; [subst; by apply IH|].
    case_bool_decide as E'; simpl; [by apply IH|].
    apply IH. rewrite normal_snoc, H, bool_decide_false by done. done.
  - apply IH. by rewrite normal_snoc, H, Hc, andb_false_r.
Qed.

Lemma normalize_loop_id i out :
  normal (out ++ i) = true -> normalize_loop out i = out ++ i.
Proof.
  revert out; induction i as [|c i IH]; intros out H; simpl; [by rewrite app_nil_r|].
  rewrite (cons_middle c out i), app_assoc in *.
  destruct (IsPathSeparator c) eqn:Hc; simpl; [|by apply IH].
  apply IsPathSeparator_spec in Hc as ->. case_bool_decide; simpl; [by apply IH|].
  pose proof (normal_app_l _ _ H) as H'. rewrite normal_snoc in H'.
  case_bool_decide; simpl in *; [by rewrite andb_false_r in H' | by apply IH].
Qed.

Lemma Normalize_normal s : normal (Normalize s) = true.
Proof. by apply normalize_loop_normal. Qed.

Lemma Normalize_id s : normal s = true -> Normalize s = s.
Proof. apply (normalize_loop_id s []). Qed.

Lemma SplitString_app_delimiter a b d :
  SplitString (a ++ d :: b) d = SplitString a d ++ SplitString b d.
Proof.
  induction a as [|c a IH]; simpl.
  - by rewrite bool_decide_true.
  - case_bool_decide; rewrite IH; [done|].
    pose proof (SplitString_nonempty a d). by destruct (SplitString a d).
Qed.

Lemma path_names_app a b :
  path_names (a ++ kPathSeparator :: b) = path_names a ++ path_names b.
Proof. unfold path_names. by rewrite SplitString_app_delimiter, filter_app. Qed.

Lemma normalize_loop_names i out :
  path_names (normalize_loop out i) = path_names (out ++ i).
Proof.
  revert out; induction i as [|c i IH]; intros out; simpl; [by rewrite app_nil_r|].
  destruct (IsPathSeparator c) eqn:Hc; simpl; [|by rewrite IH, <- app_assoc].
  apply IsPathSeparator_spec in Hc as ->. case_bool_decide; simpl.
  { by rewrite IH, <- app_assoc. }
  case_bool_decide as E; simpl; rewrite IH; [|by rewrite <- app_assoc].
  apply last_Some in E as [o ->]. rewrite <- !app_assoc. simpl.
  rewrite !path_names_app. change (kPathSeparator :: i) with ([] ++ kPathSeparator :: i).
  by rewrite path_names_app.
Qed.

Lemma Normalize_names s : path_names (Normalize s) = path_names s.
Proof. apply (normalize_loop_names s []). Qed.

Lemma normalize_loop_prefix i out : exists r, normalize_loop out i = out ++ r.
Proof.
  revert out; induction i as [|c i IH]; intros out; simpl; [exists []; by rewrite app_nil_r|].
  repeat case_match; eauto;
    edestruct IH as [r ->]; rewrite <- app_assoc; eauto.
Qed.

Lemma Normalize_head s : head (Normalize s) = head s.
Proof.
  destruct s as [|c s]; [done|]. unfold Normalize. simpl.
  destruct (IsPathSeparator c) eqn:Hc; simpl;
    [apply IsPathSeparator_spec in Hc as ->|];
    match goal with |- context [normalize_loop ?o s] =>
      destruct (normalize_loop_prefix s o) as [r ->] end; done.
Qed.

(** Every operation returns a normal path, given normal ones. *)
Definition well_formed (p : FilePath) : Prop := normal (pathname_ p) = true.

Lemma FilePath_of_wf s : well_formed (FilePath_of s).
Proof. apply Normalize_normal. Qed.
Create HintDb path.
#[export] Hint Resolve FilePath_of_wf : path.

Lemma FilePath_of_id p : well_formed p -> FilePath_of (pathname_ p) = p.
Proof. destruct p. unfold FilePath_of. simpl. intros H. by rewrite Normalize_id. Qed.

Lemma find_last_char_spec d s :
  match find_last_char d s with
  | Some i => exists a b, s = a ++ d :: b /\ List.length a = i /\ d ∉ b
  | None => d ∉ s
  end.
Proof.
  induction s as [|c s IH]; simpl; [apply not_elem_of_nil|].
  destruct (find_last_char d s) as [i|].
  - destruct IH as (a & b & -> & <- & Hb). by exists (c :: a), b.
  - case_bool_decide as Hc; [subst; by exists [], s|]. set_solver.
Qed.

Lemma find_last_char_lt d s i : find_last_char d s = Some i -> (i < List.length s)%nat.
Proof.
  intros H. pose proof (find_last_char_spec d s) as Hs. rewrite H in Hs.
  destruct Hs as (a & b & -> & <- & _). rewrite length_app. simpl. lia.
Qed.

Lemma c_str_length s : (List.length (c_str s) <= List.length s)%nat.
Proof. induction s as [|c s IH]; simpl; [done|]. case_bool_decide; simpl; lia. Qed.

Lemma normalize_loop_length i out :
  (List.length (normalize_loop out i) <= List.length out + List.length i)%nat.
Proof.
  revert out; induction i as [|c i IH]; intros out; simpl; [lia|].
  repeat case_match; (etransitivity; [apply IH|]); rewrite ?length_app; simpl; lia.
Qed.

Lemma Normalize_length s : (List.length (Normalize s) <= List.length s)%nat.
Proof. apply (normalize_loop_length s []). Qed.

(** ** The recursion of [CreateDirectoriesRecursively] *)

Definition parent_of (p : FilePath) : FilePath :=
  RemoveFileName (RemoveTrailingPathSeparator p).

Lemma RemoveTrailing_length p :
  IsDirectory p = true ->
  (List.length (pathname_ (RemoveTrailingPathSeparator p)) < List.length (pathname_ p))%nat.
Proof.
  intros H. unfold RemoveTrailingPathSeparator. rewrite H. simpl.
  eapply Nat.le_lt_trans; [apply Normalize_length|].
  unfold IsDirectory in H. destruct (pathname_ p); [done|].
  rewrite length_take. simpl. lia.
Qed.

(** The parent is a shorter name, unless it is the current directory. *)
Lemma parent_of_length p :
  IsDirectory p = true ->
  parent_of p = FilePath_of kCurrentDirectoryString \/
  (List.length (pathname_ (parent_of p)) < List.length (pathname_ p))%nat.
Proof.
  intros H%RemoveTrailing_length. unfold parent_of, RemoveFileName.
  destruct (FindLastPathSeparator _) as [i|] eqn:E; [right | by left].
  simpl. eapply Nat.le_lt_trans; [apply Normalize_length|]. rewrite length_take. lia.
Qed.

Section file_system_lemmas.
Context {FS : Type} `{!FileSystem FS, !FileSystemLaws FS}.

Lemma CreateFolder_makes (fs : FS) p :
  fst (CreateFolder fs p) = true -> DirectoryExists (snd (CreateFolder fs p)) p = true.
Proof.
  unfold CreateFolder. destruct (fs_mkdir fs _) as [[] fs'] eqn:E; simpl; [|done].
  intros _. unfold DirectoryExists. by rewrite (mkdir_creates _ _ _ E).
Qed.

Lemma current_directory_runs fuel (fs : FS) :
  DirectoryExists fs (FilePath_of kCurrentDirectoryString) = true ->
  CreateDirectoriesRecursively (S fuel) fs (FilePath_of kCurrentDirectoryString) =
  Ok (true, fs).
Proof. intros H. cbn [CreateDirectoriesRecursively]. by rewrite H. Qed.

(** Enough fuel: one more than the length of the name. *)
Lemma CreateDirectories_runs fuel (fs : FS) p :
  DirectoryExists fs (FilePath_of kCurrentDirectoryString) = true ->
  (List.length (pathname_ p) < fuel)%nat ->
  CreateDirectoriesRecursively fuel fs p ⇓ fun '(made, fs') =>
    made = true -> DirectoryExists fs' p = true.
Proof.
  intros Hc. revert p; induction fuel as [|fuel IH]; intros p Hf; [lia|]. simpl.
  destruct (IsDirectory p) eqn:Hd; simpl; [|done].
  case_match eqn:He; simpl.
  { intros _. apply orb_true_iff in He as [He|He]; [|done].
    unfold IsEmpty in He. apply bool_decide_eq_true in He.
    unfold IsDirectory in Hd. by rewrite He in Hd. }
  fold (parent_of p). apply returns_bind.
  eapply (returns_mono _ (fun _ => True)).
  - destruct (parent_of_length p Hd) as [Hp|Hp].
    + destruct fuel; [unfold IsDirectory in Hd; destruct (pathname_ p); simpl in *; [done|lia]|].
      by rewrite Hp, current_directory_runs.
    + eapply returns_mono; [apply IH; lia | done].
  - intros [[] fs'] _; simpl; [|done].
    pose proof (CreateFolder_makes fs' p) as Hm. by destruct (CreateFolder fs' p).
Qed.

End file_system_lemmas.

(** ** A path taken apart at its last separator *)

Lemma split_last_separator p :
  well_formed p -> NUL ∉ pathname_ p -> kPathSeparator ∈ pathname_ p ->
  exists a b, pathname_ p = a ++ kPathSeparator :: b /\ (kPathSeparator ∉ b) /\
    RemoveFileName p = mkFilePath (a ++ [kPathSeparator]) /\
    RemoveDirectoryName p = mkFilePath b.
Proof.
  intros Hwf Hnul Hsep. destruct p as [s]. unfold well_formed in Hwf. simpl in *.
  unfold RemoveFileName, RemoveDirectoryName, FindLastPathSeparator. simpl.
  rewrite (c_str_id s Hnul).
  pose proof (find_last_char_spec kPathSeparator s) as Hl.
  destruct (find_last_char _ s) as [i|]; [|done].
  destruct Hl as (a & b & -> & <- & Hb). exists a, b.
  rewrite cons_middle, app_assoc in Hwf |- *.
  replace (S (List.length a)) with (List.length (a ++ [kPathSeparator]))
    by (rewrite length_app; simpl; lia).
  rewrite take_app_length, drop_app_length. split_and!; try done.
  - unfold FilePath_of. f_equal. apply Normalize_id. by eapply normal_app_l.
  - unfold FilePath_of. f_equal. apply Normalize_id.
    rewrite <- (drop_app_length (a ++ [kPathSeparator]) b). by apply normal_drop.
Qed.

Lemma ConcatPaths_split p a b :
  well_formed p -> pathname_ p = a ++ kPathSeparator :: b ->
  ConcatPaths (mkFilePath (a ++ [kPathSeparator])) (mkFilePath b) = p.
Proof.
  intros Hwf Hs. destruct p as [s]. unfold well_formed in Hwf. simpl in *. subst s.
  unfold ConcatPaths, IsEmpty. simpl. rewrite bool_decide_false by (by destruct a).
  unfold RemoveTrailingPathSeparator, IsDirectory. simpl. rewrite last_snoc. simpl.
  rewrite length_app. simpl. replace (List.length a + 1 - 1)%nat with (List.length a) by lia.
  rewrite take_app_length, (Normalize_id a) by (by eapply normal_app_l).
  unfold FilePath_of. f_equal. by apply Normalize_id.
Qed.
