(* ===== verification/GmockUtils.v ===== *)
(** * Utilities of GoogleMock (gmock-internal-utils.cc)

    The text functions, the decoder of Base64 and the log of GoogleMock.  The
    text a function prints is its result.  [UnBase64] computes the table of the
    decoder as the [constexpr] functions do; an index outside of its 256
    entries is the fault [InvalidDeref]. *)

From S2P Require Import Prelude Outcome Common CStr.

(** ** Names *)

Definition build_one (name value : text) : text := name ++ str ": " ++ value.

(** [JoinAsKeyValueTuple]; [GTEST_CHECK_] aborts when the lengths differ. *)
Definition JoinAsKeyValueTuple (names values : list text) : outcome text :=
  _ ← c_assert (bool_decide (List.length names = List.length values));
  match zip names values with
  | [] => Ok []
  | (n, v) :: rest =>
      Ok (str "(" ++ build_one n v ++
          flat_map (fun '(n, v) => str ", " ++ build_one n v) rest ++ str ")")
  end.

(** The loop of [ConvertIdentifierNameToWords] over the characters at [p]. *)
Fixpoint convert_loop (prev_char : ascii) (p : text) (result : text) : text :=
  match p with
  | [] => result
  | c :: p' =>
      let starts_new_word := IsUpper c || (negb (IsAlpha prev_char) && IsLower c) ||
                             (negb (IsDigit prev_char) && IsDigit c) in
      let result :=
        if IsAlNum c then
          (if starts_new_word && negb (bool_decide (result = []))
           then result ++ str " " else result) ++ [ToLower c]
        else result in
      convert_loop c p' result
  end.
Definition ConvertIdentifierNameToWords (id_name : text) : text :=
  convert_loop NUL (c_str id_name) [].

(** ** The log *)

Inductive LogSeverity : Type := kInfo | kWarning.

(** The value of --gmock_verbose is any string. *)
Definition LogIsVisible (verbose : text) (severity : LogSeverity) : bool :=
  if bool_decide (verbose = str "info") then true
  else if bool_decide (verbose = str "error") then false
  else match severity with kWarning => true | kInfo => false end.

(** What [Log] writes to standard output; [stack_trace] is the text of the
    trace without the given number of frames (here: with [NDEBUG] unset). *)
Definition Log (stack_trace : Z -> text) (verbose : text) (severity : LogSeverity)
    (message : text) (stack_frames_to_skip : Z) : outcome text :=
  if negb (LogIsVisible verbose severity) then Ok [] else
  let out := match severity with
             | kWarning => LF :: str "GMOCK WARNING:" | kInfo => [] end in
  let out := out ++ (if bool_decide (head message = Some LF) then [] else [LF]) in
  let out := out ++ message in
  if 0 <=? stack_frames_to_skip then
    actual_to_skip ← iadd stack_frames_to_skip 1;
    let out := out ++ (match last message with
                       | Some c => if bool_decide (c = LF) then [] else [LF]
                       | None => [] end) in
    Ok (out ++ str "Stack trace:" ++ LF :: stack_trace actual_to_skip)
  else Ok out.

(** ** Base64 *)

Definition UndoWebSafeEncoding (c : ascii) : ascii :=
  if bool_decide (c = "-"%char) then "+"%char
  else if bool_decide (c = "_"%char) then "/"%char else c.

(** The position of [c] in the alphabet, counted from [carry]; 65 when absent.
    The [char]s of the result stay below 128. *)
Fixpoint UnBase64Impl (c : ascii) (base64 : text) (carry : Z) : Z :=
  match base64 with
  | [] => 65
  | d :: base64 => if bool_decide (d = c) then carry else UnBase64Impl c base64 (carry + 1)
  end.

Definition kBase64 : text :=
  str "ABCDEFGHIJKLMNOPQRSTUVWXYZabcdefghijklmnopqrstuvwxyz0123456789+/".

Definition UnBase64 (base64 : text) : list Z :=
  (fun I => UnBase64Impl (UndoWebSafeEncoding (to_char (Z.of_nat I))) base64 0) <$> seq 0 256.
Definition kUnBase64 : list Z := Eval vm_compute in UnBase64 kBase64.

(** The loop; [dst] is the byte under construction, [bit_pos] the number of bits
    that it has.  [src] is the signed value of the character. *)
Fixpoint unescape_loop (encoded : text) (bit_pos dst : Z) (decoded : text)
    : outcome (bool * text) :=
  match encoded with
  | [] => Ok (true, decoded)
  | c :: encoded =>
      let src := scode c in
      if ((src =? 32) || ((9 <=? src) && (src <=? 13))) || (src =? 61)
      then unescape_loop encoded bit_pos dst decoded
      else
        src_bin ← or_fault InvalidDeref
          (if src <? 0 then None else kUnBase64 !! Z.to_nat src);
        if 64 <=? src_bin then Ok (false, [])
        else if bit_pos =? 0 then
          let dst := Z.lor dst (Z.shiftl src_bin 2 mod 256) in
          unescape_loop encoded 6 dst decoded
        else
          let dst := Z.lor dst (Z.shiftr src_bin (bit_pos - 2)) in
          let decoded := decoded ++ [to_char dst] in
          let dst := Z.shiftl src_bin (10 - bit_pos) mod 256 in
          unescape_loop encoded ((bit_pos + 6) mod 8) dst decoded
  end.
Definition Base64Unescape (encoded : text) : outcome (bool * text) :=
  unescape_loop encoded 0 0 [].

(** ** Base64 as RFC 4648 defines it *)

(** The 6-bit groups of a sequence of bytes. *)
Fixpoint base64_groups (bytes : text) : list Z :=
  match bytes with
  | [] => []
  | [a] => [code a / 4; code a mod 4 * 16]
  | [a; b] => [code a / 4; code a mod 4 * 16 + code b / 16; code b mod 16 * 4]
  | a :: b :: c :: bytes =>
      [code a / 4; code a mod 4 * 16 + code b / 16;
       code b mod 16 * 4 + code c / 64; code c mod 64] ++ base64_groups bytes
  end.

(** [s] encodes the groups: its characters other than blanks and padding are
    the digits of the groups, in either of the two alphabets. *)
Definition significant (c : ascii) : bool :=
  negb (IsSpace c) && negb (bool_decide (c = "="%char)).
Definition base64_text (s : text) (groups : list Z) : Prop :=
  map (fun c => kBase64 !! Z.to_nat c) groups =
  map (fun c => Some (UndoWebSafeEncoding c)) (List.filter significant s).

(** ** Decoding an encoding *)

Lemma scode_ascii c : code c < 128 -> scode c = code c.
Proof. intros H. unfold scode. by rewrite (proj2 (Z.ltb_lt _ _) H). Qed.

(** One step of the loop on the value of a digit. *)
Definition digit_step (src_bin bit_pos dst : Z) (decoded : text) : Z * Z * text :=
  if bit_pos =? 0 then (6, Z.lor dst (Z.shiftl src_bin 2 mod 256), decoded)
  else ((bit_pos + 6) mod 8, Z.shiftl src_bin (10 - bit_pos) mod 256,
        decoded ++ [to_char (Z.lor dst (Z.shiftr src_bin (bit_pos - 2)))]).

Fixpoint groups_loop (groups : list Z) (bit_pos dst : Z) (decoded : text) : text :=
  match groups with
  | [] => decoded
  | g :: groups => let '(bit_pos, dst, decoded) := digit_step g bit_pos dst decoded in
                   groups_loop groups bit_pos dst decoded
  end.

Definition digit_ok (c : ascii) : bool :=
  forallb (fun v =>
    implb (bool_decide (kBase64 !! v = Some (UndoWebSafeEncoding c)))
      (bool_decide (kUnBase64 !! Z.to_nat (code c) = Some (Z.of_nat v)) && (code c <? 128)))
    (seq 0 64).

(** Checked for each of the 256 characters. *)
Lemma all_digits_ok c : digit_ok c = true.
Proof. revert c. apply every_char. vm_compute. reflexivity. Qed.

Lemma decode_digit v c :
  0 <= v < 64 -> kBase64 !! Z.to_nat v = Some (UndoWebSafeEncoding c) ->
  kUnBase64 !! Z.to_nat (code c) = Some v /\ code c < 128.
Proof.
  intros Hv Hk. pose proof (all_digits_ok c) as H. unfold digit_ok in H.
  rewrite forallb_forall in H. specialize (H (Z.to_nat v)).
  rewrite bool_decide_true in H by done. cbn [implb] in H.
  rewrite andb_true_iff, bool_decide_eq_true, Z.ltb_lt, Z2Nat.id in H by lia.
  apply H, in_seq. lia.
Qed.

Lemma IsSpace_scode c :
  ((scode c =? 32) || ((9 <=? scode c) && (scode c <=? 13))) || (scode c =? 61) =
  negb (significant c).
Proof.
  unfold significant, IsSpace, in_range, scode. pose proof (code_range c) as Hc.
  change (code "009") with 9. change (code "013") with 13.
  destruct (Z.ltb_spec (code c) 128).
  - rewrite negb_andb, !negb_involutive. f_equal. case_bool_decide as E.
    + subst. reflexivity.
    + apply Z.eqb_neq. intros E'. apply E. by apply code_inj.
  - replace (bool_decide (c = "="%char)) with false
      by (symmetry; apply bool_decide_eq_false; intros ->; change (code "=") with 61 in *; lia).
    repeat zcase; simpl; lia || done.
Qed.

Lemma unescape_skip s bit_pos dst decoded :
  unescape_loop s bit_pos dst decoded =
  unescape_loop (List.filter significant s) bit_pos dst decoded.
Proof.
  revert bit_pos dst decoded; induction s as [|c s IH]; intros; [done|].
  cbn [unescape_loop List.filter]. rewrite IsSpace_scode.
  destruct (significant c) eqn:Hc; cbn [negb]; [|apply IH].
  cbn [unescape_loop]. rewrite IsSpace_scode, Hc. cbn [negb].
  destruct (or_fault _ _) as [v|]; [cbn; by rewrite !IH | done].
Qed.

Lemma unescape_groups s groups bit_pos dst decoded :
  Forall (fun g => 0 <= g < 64) groups -> forallb significant s = true ->
  map (fun g => kBase64 !! Z.to_nat g) groups =
    map (fun c => Some (UndoWebSafeEncoding c)) s ->
  unescape_loop s bit_pos dst decoded = Ok (true, groups_loop groups bit_pos dst decoded).
Proof.
  intros Hg. revert s bit_pos dst decoded.
  induction Hg as [|g groups Hg _ IH]; intros [|c s] bit_pos dst decoded Hs Hm; try done.
  injection Hm as Hm1 Hm. apply andb_true_iff in Hs as [Hc Hs].
  cbn [unescape_loop groups_loop]. rewrite IsSpace_scode, Hc. cbn [negb].
  destruct (decode_digit g c Hg Hm1) as [Hd Ha]. rewrite (scode_ascii c Ha).
  pose proof (code_range c). rewrite (proj2 (Z.ltb_ge _ _)) by lia.
  rewrite Hd. cbn. rewrite (proj2 (Z.leb_gt _ _)) by lia. unfold digit_step.
  destruct (bit_pos =? 0); by apply IH.
Qed.

(** ** Putting the bits together *)

(** The four steps of a group; [dst] holds the first 6, 4, 2 bits of a byte. *)
Lemma loop_first g gs decoded :
  0 <= g < 64 -> groups_loop (g :: gs) 0 0 decoded = groups_loop gs 6 (g * 4) decoded.
Proof.
  intros Hg. unfold groups_loop at 1, digit_step. fold groups_loop. simpl Z.eqb. cbv iota.
  rewrite Z.lor_0_l, Z.shiftl_mul_pow2, Z.mod_small by (change (2 ^ 2) with 4; lia). done.
Qed.

Lemma loop_next n x g gs decoded :
  n = 6 \/ n = 4 \/ n = 2 -> 0 <= g < 64 ->
  groups_loop (g :: gs) n (x * 2 ^ (8 - n)) decoded =
  groups_loop gs ((n + 6) mod 8) ((g mod 2 ^ (n - 2)) * 2 ^ (10 - n))
    (decoded ++ [to_char (x * 2 ^ (8 - n) + g / 2 ^ (n - 2))]).
Proof.
  intros Hn Hg. unfold groups_loop at 1, digit_step. fold groups_loop.
  rewrite (proj2 (Z.eqb_neq _ _)) by lia.
  rewrite Z.shiftl_mul_pow2, Z.shiftr_div_pow2 by lia.
  rewrite lor_disjoint
    by (destruct Hn as [->|[->| ->]]; cbn; Z.to_euclidean_division_equations; lia).
  f_equal. change 256 with (2 ^ 8). replace (2 ^ 8) with (2 ^ (n - 2) * 2 ^ (10 - n))
    by (rewrite <- Z.pow_add_r by lia; f_equal; lia).
  by rewrite Zmult_mod_distr_r.
Qed.

Lemma loop_second x g gs decoded : 0 <= g < 64 ->
  groups_loop (g :: gs) 6 (x * 4) decoded =
  groups_loop gs 4 (g mod 16 * 16) (decoded ++ [to_char (x * 4 + g / 16)]).
Proof. apply (loop_next 6). lia. Qed.

Lemma loop_third x g gs decoded : 0 <= g < 64 ->
  groups_loop (g :: gs) 4 (x * 16) decoded =
  groups_loop gs 2 (g mod 4 * 64) (decoded ++ [to_char (x * 16 + g / 4)]).
Proof. apply (loop_next 4). lia. Qed.

Lemma loop_fourth x g gs decoded : 0 <= g < 64 ->
  groups_loop (g :: gs) 2 (x * 64) decoded =
  groups_loop gs 0 0 (decoded ++ [to_char (x * 64 + g)]).
Proof.
  intros Hg. rewrite (loop_next 2 x) by lia. change (2 ^ (2 - 2)) with 1.
  by rewrite Z.mod_1_r, Z.div_1_r.
Qed.

Lemma base64_groups_range bytes : Forall (fun g => 0 <= g < 64) (base64_groups bytes).
Proof.
  remember (List.length bytes) as n eqn:Hn. revert bytes Hn.
  induction (lt_wf n) as [n _ IH]. intros bytes ->.
  destruct bytes as [|a [|b [|c bytes]]]; cbn [base64_groups app];
    repeat match goal with a : ascii |- _ =>
      lazymatch goal with H : 0 <= code a < 256 |- _ => fail | _ => pose proof (code_range a) end end;
    repeat constructor; try (Z.to_euclidean_division_equations; lia).
  eapply IH; [|done]. simpl. lia.
Qed.

Lemma loop_end n x decoded : groups_loop [] n x decoded = decoded.
Proof. done. Qed.

#[local] Arguments groups_loop : simpl never.

Lemma to_char_eq z c : z = code c -> to_char z = c.
Proof. intros ->. apply to_char_code. Qed.

(** The bytes that decoding the groups yields. *)
Lemma groups_loop_bytes bytes decoded :
  groups_loop (base64_groups bytes) 0 0 decoded = decoded ++ bytes.
Proof.
  remember (List.length bytes) as n eqn:Hn. revert bytes decoded Hn.
  induction (lt_wf n) as [n _ IH]. intros bytes decoded ->.
  destruct bytes as [|a bytes]; [by rewrite app_nil_r|].
  pose proof (base64_groups_range (a :: bytes)) as Hr. pose proof (code_range a) as Ha.
  destruct bytes as [|b [|c bytes]]; cbn [base64_groups app] in *; decompose_Forall.
  all: rewrite loop_first, loop_second by done.
  - rewrite loop_end. do 2 f_equal. apply to_char_eq. Z.to_euclidean_division_equations; lia.
  - pose proof (code_range b). rewrite loop_third, loop_end, <- app_assoc by done.
    f_equal. simpl. f_equal; [|f_equal]; apply to_char_eq;
      Z.to_euclidean_division_equations; lia.
  - pose proof (code_range b). pose proof (code_range c).
    rewrite loop_third, loop_fourth by done.
    rewrite (IH (List.length bytes)) by (simpl; lia || done).
    rewrite <- !app_assoc. f_equal. simpl. f_equal; [|f_equal; [|f_equal]];
      apply to_char_eq; Z.to_euclidean_division_equations; lia.
Qed.

(** ** Characters outside of the alphabet *)

Definition in_alphabet (c : ascii) : bool :=
  bool_decide (UndoWebSafeEncoding c ∈ kBase64).

Definition stray_ok (c : ascii) : bool :=
  match kUnBase64 !! Z.to_nat (code c) with
  | Some v => Bool.eqb (in_alphabet c) (v <? 64) && implb (in_alphabet c) (code c <? 128)
  | None => false
  end.

Lemma all_stray_ok c : stray_ok c = true.
Proof. revert c. apply every_char. vm_compute. reflexivity. Qed.

(** What the decoder does at the first character that is no digit. *)
Lemma unescape_stray s c rest bit_pos dst decoded :
  forallb (fun c => negb (significant c) || in_alphabet c) s = true ->
  significant c = true -> in_alphabet c = false ->
  unescape_loop (s ++ c :: rest) bit_pos dst decoded =
  if code c <? 128 then Ok (false, []) else Err InvalidDeref.
Proof.
  intros Hs Hc Ha. revert bit_pos dst decoded; induction s as [|d s IH]; intros;
    cbn [app unescape_loop]; rewrite IsSpace_scode.
  - rewrite Hc. cbn [negb]. pose proof (all_stray_ok c) as H. unfold stray_ok in H.
    pose proof (code_range c). unfold scode. destruct (Z.ltb_spec (code c) 128).
    + rewrite (proj2 (Z.ltb_ge _ _)) by lia. destruct (kUnBase64 !! _) as [v|]; [|done].
      rewrite Ha in H. cbn. rewrite andb_true_r in H. apply Bool.eqb_prop in H.
      by rewrite Z.leb_antisym, <- H.
    + rewrite (proj2 (Z.ltb_lt _ _)) by lia. done.
  - apply andb_true_iff in Hs as [Hd Hs]. specialize (IH Hs).
    destruct (significant d); cbn [negb] in *; [|apply IH].
    pose proof (all_stray_ok d) as H. unfold stray_ok in H. simpl in Hd. rewrite Hd in H.
    destruct (kUnBase64 !! Z.to_nat (code d)) as [v|] eqn:Hv; [|done].
    apply andb_true_iff in H as [H1 H2]. apply Bool.eqb_prop in H1. simpl in H2.
    apply Z.ltb_lt in H2. pose proof (code_range d). rewrite (scode_ascii d H2).
    rewrite (proj2 (Z.ltb_ge _ _)) by lia. rewrite Hv. cbn.
    rewrite Z.leb_antisym, <- H1. cbn. destruct (bit_pos =? 0); apply IH.
Qed.
