(* ===== verification/TestFilter.v ===== *)
(** * Test filters (gtest.cc: PatternMatchesString, UnitTestFilter)

    A pattern is matched by the linear-time algorithm with one restart point;
    the pointers into pattern and name are indices.  A pointer to the end of a
    string is the length of the string. *)

From S2P Require Import Prelude Outcome Common CStr FilePath.

(** ** The matcher *)

Record glob_state : Type := mkGlob {
  pattern : nat; name : nat; pattern_next : nat; name_next : nat }.

(** The loop of [PatternMatchesString], one turn: the next state ([continue]) or
    the result. *)
Definition restart (n : text) (st : glob_state) : glob_state + bool :=
  if (0 <? name_next st)%nat && (name_next st <=? List.length n)%nat
  then inl (mkGlob (pattern_next st) (name_next st) (pattern_next st) (name_next st))
  else inr false.

Definition glob_step (n p : text) (st : glob_state) : glob_state + bool :=
  let advance := inl (mkGlob (S (pattern st)) (S (name st)) (pattern_next st) (name_next st)) in
  if (pattern st <? List.length p)%nat || (name st <? List.length n)%nat then
    match p !! pattern st with
    | Some c =>
        if bool_decide (c = "*"%char)
        then inl (mkGlob (S (pattern st)) (name st) (pattern st) (S (name st)))
        else if bool_decide (c = "?"%char)
        then if (name st <? List.length n)%nat then advance else restart n st
        else if bool_decide (n !! name st = Some c) then advance else restart n st
    | None => restart n st
    end
  else inr true.

Fixpoint glob_loop (fuel : nat) (n p : text) (st : glob_state) : option bool :=
  match fuel with
  | O => None
  | S fuel => match glob_step n p st with
              | inl st => glob_loop fuel n p st
              | inr result => Some result
              end
  end.

(** Turns that the loop can take at most; [glob_loop_correct] shows that they
    are enough. *)
Definition glob_fuel (n p : text) : nat :=
  (2 + (List.length n + 1) * (List.length p + 2) + List.length p)%nat.

Definition PatternMatchesString (name_str pattern : text) : option bool :=
  glob_loop (glob_fuel name_str pattern) name_str pattern (mkGlob 0 0 0 0).

(** ** Filters *)

Definition IsGlobPattern (pattern : text) : bool :=
  existsb (fun c => bool_decide (c = "?"%char) || bool_decide (c = "*"%char)) pattern.

(** The exact patterns are an unordered set; only membership is asked. *)
Record UnitTestFilter : Type := mkFilter {
  glob_patterns_ : list text;
  exact_match_patterns_ : list text }.

Definition UnitTestFilter_empty : UnitTestFilter := mkFilter [] [].

Definition UnitTestFilter_of (filter : text) : UnitTestFilter :=
  let all_patterns := SplitString filter ":" in
  mkFilter (List.filter IsGlobPattern all_patterns)
           (List.filter (fun p => negb (IsGlobPattern p)) all_patterns).

Definition MatchesName (f : UnitTestFilter) (name : text) : bool :=
  existsb (fun p => bool_decide (p = name)) (exact_match_patterns_ f) ||
  existsb (fun p => default false (PatternMatchesString name p)) (glob_patterns_ f).

Definition kUniversalFilter : text := str "*".

Record PositiveAndNegativeUnitTestFilter : Type := mkPNFilter {
  positive_filter_ : UnitTestFilter;
  negative_filter_ : UnitTestFilter }.

Definition PositiveAndNegativeUnitTestFilter_of (filter : text)
    : PositiveAndNegativeUnitTestFilter :=
  match SplitString filter "-" with
  | positive_filter :: second :: rest =>
      mkPNFilter
        (UnitTestFilter_of
           (if bool_decide (positive_filter = []) then kUniversalFilter else positive_filter))
        (UnitTestFilter_of (foldl (fun acc part => acc ++ "-"%char :: part) second rest))
  | [positive_filter] =>
      mkPNFilter (UnitTestFilter_of positive_filter) UnitTestFilter_empty
  | [] => mkPNFilter UnitTestFilter_empty UnitTestFilter_empty
  end.

Definition PN_MatchesName (f : PositiveAndNegativeUnitTestFilter) (name : text) : bool :=
  MatchesName (positive_filter_ f) name && negb (MatchesName (negative_filter_ f) name).

Definition MatchesTest (f : PositiveAndNegativeUnitTestFilter)
    (test_suite_name test_name : text) : bool :=
  PN_MatchesName f (test_suite_name ++ str "." ++ test_name).

Definition MatchesFilter (name_str filter : text) : bool :=
  MatchesName (UnitTestFilter_of filter) name_str.

(** [flag] is the value of --gtest_filter. *)
Definition FilterMatchesTest (flag test_suite_name test_name : text) : bool :=
  MatchesTest (PositiveAndNegativeUnitTestFilter_of flag) test_suite_name test_name.

(** ** What a pattern means *)

Inductive glob : text -> text -> Prop :=
  | glob_nil : glob [] []
  | glob_any c p n : glob p n -> glob ("?"%char :: p) (c :: n)
  | glob_char c p n : c <> "?"%char -> c <> "*"%char -> glob p n -> glob (c :: p) (c :: n)
  | glob_star s p n : glob p n -> glob ("*"%char :: p) (s ++ n).
(** One pattern character, not a star, against one character of the name. *)
Definition char_matches (a b : ascii) : Prop :=
  a <> "*"%char /\ (a = "?"%char \/ a = b).

Lemma glob_cons a p b n : char_matches a b -> glob (a :: p) (b :: n) <-> glob p n.
Proof.
  intros [Ha Hb]. split.
  - intros H. inversion H; subst; naive_solver.
  - intros H. destruct (decide (a = "?"%char)) as [->|]; [by constructor|].
    destruct Hb as [?| ->]; [done | by constructor].
Qed.

Lemma glob_char_inv c p n :
  c <> "?"%char -> c <> "*"%char -> glob (c :: p) n -> exists m, n = c :: m.
Proof. intros H1 H2 H. inversion H; subst; done || eauto. Qed.

Lemma glob_star_iff p n : glob ("*"%char :: p) n <-> exists s m, n = s ++ m /\ glob p m.
Proof.
  split; [|intros (s & m & -> & H); by constructor].
  intros H. inversion H; subst; [done | eauto].
Qed.

Lemma glob_star_absorb p s n : glob ("*"%char :: p) n -> glob ("*"%char :: p) (s ++ n).
Proof.
  rewrite !glob_star_iff. intros (s' & m & -> & H). exists (s ++ s'), m.
  by rewrite app_assoc.
Qed.

Lemma glob_app u w p n : Forall2 char_matches u w -> glob (u ++ p) (w ++ n) <-> glob p n.
Proof. intros H. induction H; simpl; [done|]. by rewrite glob_cons. Qed.

(** A star-free prefix of the pattern matches as many characters. *)
Lemma glob_app_inv u p m :
  Forall (fun a => a <> "*"%char) u -> glob (u ++ p) m ->
  exists w n, m = w ++ n /\ List.length w = List.length u /\ glob p n.
Proof.
  intros Hu. revert m; induction Hu as [|a u Ha Hu IH]; simpl; intros m H.
  - by exists [], m.
  - inversion H as [|b q m' Hm|b q m' _ _ Hm|]; subst; try done;
      destruct (IH _ Hm) as (w & n & -> & Hw & Hn); eexists (_ :: w), n; simpl; auto.
Qed.

Lemma star_free u w : Forall2 char_matches u w -> Forall (fun a => a <> "*"%char) u.
Proof. intros H. induction H as [|a b u w [Ha _]]; auto. Qed.

(** ** The matcher is correct and terminates *)

Section matcher.
Context (n p : text).

(** The pattern and the name from the current pointers on. *)
Definition P (st : glob_state) : text := drop (pattern st) p.
Definition N (st : glob_state) : text := drop (name st) n.

(** After a star at [pattern_next] that has been tried with [x] characters of
    the name before it, the code is either about to retry it or has matched the
    star-free [u] with the characters [w] that follow. *)
Definition retrying (st : glob_state) : Prop :=
  pattern st = pattern_next st /\ name st = name_next st.
Definition star_inv (st : glob_state) : Prop :=
  exists x q, name_next st = S x /\ (x <= List.length n)%nat /\
    drop (pattern_next st) p = "*"%char :: q /\
    (retrying st \/ exists u w, Forall2 char_matches u w /\
       q = u ++ P st /\ drop x n = w ++ N st /\ (x <= name st)%nat).
Definition glob_inv (st : glob_state) : Prop :=
  (pattern st <= List.length p)%nat /\ (name st <= List.length n)%nat /\
  (name_next st = O \/ star_inv st).

(** What the remaining run will answer. *)
Definition can_restart (st : glob_state) : Prop :=
  (0 < name_next st <= List.length n)%nat.
Definition answer (st : glob_state) : Prop :=
  glob (P st) (N st) \/
  (can_restart st /\ glob (drop (pattern_next st) p) (drop (name_next st) n)).

(** The measure that each turn decreases. *)
Definition phi (st : glob_state) : nat :=
  ((List.length n + 1 - name_next st) * (List.length p + 2) +
   if (0 <? name_next st)%nat && (pattern st =? pattern_next st)%nat &&
      (name st =? name_next st)%nat
   then 0 else List.length p - pattern st + 1)%nat.

Lemma phi_fresh st : ~ (0 < name_next st /\ retrying st)%nat ->
  phi st = ((List.length n + 1 - name_next st) * (List.length p + 2) +
            (List.length p - pattern st + 1))%nat.
Proof.
  intros H. unfold phi, retrying in *.
  destruct (Nat.ltb_spec 0 (name_next st)), (Nat.eqb_spec (pattern st) (pattern_next st)),
    (Nat.eqb_spec (name st) (name_next st)); simpl; try done. by destruct H.
Qed.

Lemma phi_le st : (phi st <= (List.length n + 1 - name_next st) * (List.length p + 2) +
                             (List.length p - pattern st + 1))%nat.
Proof. unfold phi. destruct (_ && _); lia. Qed.

(** At another character than a star, no retry is under way. *)
Lemma not_retrying st :
  glob_inv st -> p !! pattern st <> Some "*"%char -> ~ (0 < name_next st /\ retrying st)%nat.
Proof.
  intros (_ & _ & [H0|(x & q & _ & _ & Hq & _)]) Hp [Hn [Hr _]]; [lia|].
  apply Hp. rewrite Hr, <- (Nat.add_0_r (pattern_next st)), <- lookup_drop, Hq. done.
Qed.

Lemma drop_lookup_cons (l : text) i c : l !! i = Some c -> drop i l = c :: drop (S i) l.
Proof. intros H. by rewrite (drop_S _ _ _ H). Qed.

(** The two ways on from a failure to match a character. *)
Lemma restart_correct st :
  glob_inv st -> p !! pattern st <> Some "*"%char -> ~ glob (P st) (N st) ->
  match restart n st with
  | inl st' => glob_inv st' /\ (phi st' < phi st)%nat /\ (answer st' <-> answer st)
  | inr b => b = true <-> answer st
  end.
Proof.
  intros Hi Hp Hg. pose proof (phi_fresh st (not_retrying st Hi Hp)) as Hphi.
  destruct Hi as (H1 & H2 & H3). unfold restart, answer, can_restart.
  destruct (Nat.ltb_spec 0 (name_next st)), (Nat.leb_spec (name_next st) (List.length n));
    simpl; [|split; [done | naive_solver lia]..].
  destruct H3 as [?|(x & q & Hx & Hxn & Hq & _)]; [lia|]. split_and!.
  - unfold glob_inv. simpl. split_and!; [|lia|right].
    { apply Nat.nlt_ge. intros Hlt. rewrite drop_ge in Hq by lia. done. }
    exists x, q. unfold retrying. simpl. split_and!; auto.
  - rewrite Hphi. unfold phi. simpl. rewrite !Nat.eqb_refl, (proj2 (Nat.ltb_lt 0 _)) by lia.
    simpl. lia.
  - unfold P, N. simpl. naive_solver.
Qed.

(** Moving on by one character on both sides. *)
Lemma advance_correct st a b :
  glob_inv st -> p !! pattern st = Some a -> n !! name st = Some b -> char_matches a b ->
  let st' := mkGlob (S (pattern st)) (S (name st)) (pattern_next st) (name_next st) in
  glob_inv st' /\ (phi st' < phi st)%nat /\ (answer st' <-> answer st).
Proof.
  intros Hi Ha Hb Hab st'.
  assert (Hp : p !! pattern st <> Some "*"%char) by (rewrite Ha; destruct Hab; congruence).
  pose proof (phi_fresh st (not_retrying st Hi Hp)) as Hphi.
  pose proof (not_retrying st Hi Hp) as Hr.
  pose proof (lookup_lt_Some _ _ _ Ha). pose proof (lookup_lt_Some _ _ _ Hb).
  assert (HP : P st = a :: P st') by by apply drop_lookup_cons.
  assert (HN : N st = b :: N st') by by apply drop_lookup_cons.
  split_and!.
  - destruct Hi as (H1 & H2 & H3). split_and!; simpl; [lia..|].
    destruct H3 as [?|(x & q & Hx & Hxn & Hq & [Hre|(u & w & Huw & Hu & Hw & Hle)])];
      [by left | destruct Hr; split; [lia|done] | right].
    exists x, q. simpl. split_and!; try done. right. exists (u ++ [a]), (w ++ [b]).
    rewrite <- !app_assoc. simpl. rewrite <- HP, <- HN. split_and!; try done; [|lia].
    apply Forall2_app; auto.
  - pose proof (phi_le st'). rewrite Hphi. simpl in *. lia.
  - unfold answer. rewrite HP, HN. by rewrite glob_cons.
Qed.

(** A star discards the restart point of an earlier one. *)
Lemma star_subsumes st q :
  glob_inv st -> P st = "*"%char :: q -> answer st <-> glob (P st) (N st).
Proof.
  intros (_ & _ & H) HP. unfold answer. split; [|by left].
  intros [Hg|[Hc Hg]]; [done|]. unfold can_restart in Hc.
  destruct H as [?|(x & q' & Hx & Hxn & Hq & Hre)]; [lia|].
  destruct Hre as [[Hr1 Hr2]|(u & w & Huw & Hu & Hw & Hle)].
  { unfold P, N. by rewrite Hr1, Hr2. }
  rewrite Hq in Hg. apply glob_star_iff in Hg as (s & m & Hs & Hm). subst q'.
  rewrite HP in *.
  destruct (glob_app_inv u _ _ (star_free _ _ Huw) Hm) as (w' & m' & -> & Hw' & Hm').
  assert (Hd : drop x n = ([default NUL (n !! x)] ++ s ++ w') ++ m').
  { rewrite <- !app_assoc, <- Hs, Hx. simpl.
    destruct (lookup_lt_is_Some_2 n x) as [c Hc']; [lia|].
    rewrite Hc'. simpl. by apply drop_lookup_cons. }
  rewrite Hw in Hd. pose proof (Forall2_length _ _ _ Huw) as Hl.
  apply app_eq_inv in Hd as [(k & E & E')|(k & E & E')].
  - rewrite E in Hl. rewrite !length_app in Hl. simpl in Hl. lia.
  - rewrite E'. by apply glob_star_absorb.
Qed.

Lemma star_correct st q :
  glob_inv st -> P st = "*"%char :: q ->
  let st' := mkGlob (S (pattern st)) (name st) (pattern st) (S (name st)) in
  glob_inv st' /\ (phi st' < phi st)%nat /\ (answer st' <-> answer st).
Proof.
  intros Hi HP st'. rewrite (star_subsumes st q Hi HP).
  assert (HP' : P st' = q).
  { unfold P, st' in *. simpl. by rewrite <- Nat.add_1_r, <- drop_drop, HP. }
  assert (Hlt : (pattern st < List.length p)%nat).
  { apply Nat.nle_gt. intros H. unfold P in HP. by rewrite drop_ge in HP. }
  pose proof Hi as (H1 & H2 & H3). split_and!.
  - split_and!; simpl; [lia..|]. right. exists (name st), q. simpl. split_and!; try done.
    right. exists [], []. rewrite HP'. split_and!; done.
  - pose proof (phi_le st') as Hle. simpl in Hle.
    destruct H3 as [H0|(x & q' & Hx & Hxn & Hq & Hre)].
    + rewrite (phi_fresh st) by lia. rewrite H0. simpl. nia.
    + destruct Hre as [Hr|(u & w & _ & Hu & _ & Hxle)].
      * destruct Hr as [Hr1 Hr2]. unfold phi at 2.
        rewrite (proj2 (Nat.ltb_lt 0 _)), Hr1, Hr2, !Nat.eqb_refl by lia. simpl.
        rewrite Hx in *. nia.
      * rewrite (phi_fresh st), Hx; [nia|]. intros [_ [Hr _]].
        apply (f_equal List.length) in Hq, Hu. unfold P in Hu.
        rewrite length_app in Hu. rewrite !length_drop in *. simpl in Hq. lia.
  - unfold answer. rewrite HP', HP. unfold can_restart. simpl.
    change (drop (pattern st) p) with (P st). rewrite HP, (glob_star_iff q (N st)). split.
    + intros [Hg|[Hc Hg]]; [by exists [], (N st)|].
      apply glob_star_iff in Hg as (s & m & Hs & Hm).
      destruct (lookup_lt_is_Some_2 n (name st)) as [c Hc']; [lia|].
      exists (c :: s), m. split; [|done]. unfold N.
      rewrite (drop_lookup_cons _ _ _ Hc'), Hs. done.
    + intros (s & m & Hs & Hm). destruct s as [|c s]; [left; by simpl in Hs; subst m|]. right.
      unfold N in Hs. assert (Hlen : (name st < List.length n)%nat).
      { apply Nat.nle_gt. intros H. by rewrite drop_ge in Hs. }
      split; [lia|]. apply glob_star_iff. exists s, m. split; [|done].
      by rewrite <- Nat.add_1_r, <- drop_drop, Hs.
Qed.

(** One turn. *)
Lemma glob_step_correct st :
  glob_inv st ->
  match glob_step n p st with
  | inl st' => glob_inv st' /\ (phi st' < phi st)%nat /\ (answer st' <-> answer st)
  | inr b => b = true <-> answer st
  end.
Proof.
  intros Hi. pose proof Hi as (H1 & H2 & _). unfold glob_step.
  destruct (p !! pattern st) as [c|] eqn:Hc.
  - pose proof (lookup_lt_Some _ _ _ Hc) as Hlt. rewrite (proj2 (Nat.ltb_lt _ _) Hlt). simpl.
    pose proof (drop_lookup_cons _ _ _ Hc) as HP. fold (P st) in HP.
    case_bool_decide as Hs; [subst; by eapply star_correct|].
    assert (Hn : p !! pattern st <> Some "*"%char) by congruence.
    case_bool_decide as Hq; [subst c; destruct (Nat.ltb_spec (name st) (List.length n))|].
    + destruct (lookup_lt_is_Some_2 n (name st)) as [d Hd]; [done|].
      apply (advance_correct st "?" d Hi Hc Hd). split; auto.
    + apply restart_correct; [done..|]. unfold N. rewrite drop_ge, HP by lia.
      intros H'. inversion H'.
    + case_bool_decide as Hd; [apply (advance_correct st c c Hi Hc Hd); split; auto|].
      apply restart_correct; [done..|]. rewrite HP. intros H'.
      apply glob_char_inv in H' as [m Hm]; [|done..].
      apply Hd. rewrite <- (Nat.add_0_r (name st)), <- lookup_drop.
      change (drop (name st) n) with (N st). by rewrite Hm.
  - apply lookup_ge_None in Hc as Hge. rewrite (proj2 (Nat.ltb_ge _ _)) by lia. simpl.
    destruct (Nat.ltb_spec (name st) (List.length n)).
    + apply restart_correct; [done | congruence |]. unfold P, N.
      rewrite (drop_ge p) by lia. destruct (lookup_lt_is_Some_2 n (name st)) as [d Hd]; [done|].
      rewrite (drop_lookup_cons _ _ _ Hd). intros H'. inversion H'.
    + split; [intros _ | done]. left. unfold P, N. rewrite !drop_ge by lia. constructor.
Qed.

Lemma glob_loop_correct fuel st :
  glob_inv st -> (phi st < fuel)%nat ->
  exists b, glob_loop fuel n p st = Some b /\ (b = true <-> answer st).
Proof.
  revert st; induction fuel as [|fuel IH]; intros st Hi Hf; [lia|]. simpl.
  pose proof (glob_step_correct st Hi) as H.
  destruct (glob_step n p st) as [st'|b]; [|by exists b].
  destruct H as (Hi' & Hphi & Ha). destruct (IH st' Hi') as (b & Hb & Hb'); [lia|].
  exists b. split; [done|]. by rewrite Hb'.
Qed.

End matcher.

Lemma PatternMatchesString_glob n p :
  exists b, PatternMatchesString n p = Some b /\ (b = true <-> glob p n).
Proof.
  destruct (glob_loop_correct n p (glob_fuel n p) (mkGlob 0 0 0 0)) as (b & Hb & Hb').
  - unfold glob_inv. simpl. lia.
  - rewrite phi_fresh by (simpl; lia). simpl. unfold glob_fuel. lia.
  - exists b. split; [done|]. rewrite Hb'. unfold answer, can_restart, P, N. simpl.
    rewrite !drop_0. split; [intros [?|[? _]]; [done | lia] | auto].
Qed.

(** ** What a filter matches *)

Lemma glob_exact p n : IsGlobPattern p = false -> glob p n <-> p = n.
Proof.
  revert n; induction p as [|c p IH]; simpl; intros n H.
  - split; [intros H'; by inversion H' | intros <-; constructor].
  - apply orb_false_iff in H as [[Hq Hs]%orb_false_iff H].
    apply bool_decide_eq_false in Hq, Hs. split.
    + intros H'. destruct (glob_char_inv c p n) as [m ->]; [done..|].
      rewrite glob_cons in H' by (split; auto). by f_equal; apply IH.
    + intros <-. rewrite glob_cons by (split; auto). by apply IH.
Qed.

(** Some pattern of the list separated by colons matches. *)
Definition some_pattern_matches (filter name : text) : Prop :=
  exists p, p ∈ SplitString filter ":" /\ glob p name.

Lemma filter_elem {A} (f : A -> bool) l x :
  x ∈ List.filter f l <-> x ∈ l /\ f x = true.
Proof. rewrite !list_elem_of_In. apply filter_In. Qed.

Lemma MatchesName_spec filter name :
  MatchesName (UnitTestFilter_of filter) name = true <-> some_pattern_matches filter name.
Proof.
  unfold MatchesName, some_pattern_matches. simpl. rewrite orb_true_iff, !existsb_elem.
  setoid_rewrite filter_elem. split.
  - intros [(p & [Hp Hg] & Hm)|(p & [Hp Hg] & Hm)]; exists p; split; try done.
    + apply bool_decide_eq_true in Hm. apply glob_exact; [|done].
      by apply negb_true_iff.
    + destruct (PatternMatchesString_glob name p) as (b & Hb & Hb').
      rewrite Hb in Hm. by apply Hb'.
  - intros (p & Hp & Hg). destruct (IsGlobPattern p) eqn:E; [right|left]; exists p.
    + destruct (PatternMatchesString_glob name p) as (b & Hb & Hb').
      rewrite Hb. split; [done|]. by apply Hb'.
    + rewrite E. split; [done|]. by apply bool_decide_eq_true, glob_exact.
Qed.

Lemma SplitString_whole s d : d ∉ s -> SplitString s d = [s].
Proof.
  induction s as [|c s IH]; simpl; intros H; [done|].
  rewrite bool_decide_false, IH; set_solver.
Qed.

Lemma foldl_join d a rest :
  foldl (fun acc part => acc ++ d :: part) a rest = join [d] (a :: rest).
Proof.
  revert a; induction rest as [|b rest IH]; intros a; [done|]. simpl foldl. rewrite IH.
  destruct rest; simpl; by rewrite <- ?app_assoc.
Qed.

Lemma PN_positive_only filter name :
  "-"%char ∉ filter ->
  PN_MatchesName (PositiveAndNegativeUnitTestFilter_of filter) name =
  MatchesName (UnitTestFilter_of filter) name.
Proof.
  intros H. unfold PN_MatchesName, PositiveAndNegativeUnitTestFilter_of.
  rewrite SplitString_whole by done. simpl. by rewrite andb_true_r.
Qed.

Lemma PN_with_negative pos neg name :
  "-"%char ∉ pos ->
  PN_MatchesName (PositiveAndNegativeUnitTestFilter_of (pos ++ "-"%char :: neg)) name =
  MatchesName (UnitTestFilter_of (if bool_decide (pos = []) then kUniversalFilter else pos))
    name && negb (MatchesName (UnitTestFilter_of neg) name).
Proof.
  intros H. unfold PN_MatchesName, PositiveAndNegativeUnitTestFilter_of.
  rewrite SplitString_app_delimiter, SplitString_whole by done. simpl.
  pose proof (SplitString_nonempty neg "-").
  destruct (SplitString neg "-") as [|second rest] eqn:E; [done|].
  rewrite foldl_join, <- E, SplitString_join. done.
Qed.
