(* ===== verification/EditDistance.v ===== *)
(** * Differences of two lists of lines (gtest.cc, namespace edit_distance)

    The costs are doubles, as in the code (IEEE binary64 of the standard
    library's [SpecFloat]).  A row of the two tables [costs] and [best_move] is
    one list of cells, filled from the row before it.  An index outside of a
    vector is the fault [InvalidDeref].  Sizes and indices are numbers without a
    width: CreateUnifiedDiff converts the index of an edit to [int], so the model
    is that of lists whose edits an [int] can count. *)

From S2P Require Import Prelude Outcome Price Common CStr.
From Stdlib Require Import SpecFloat.

Inductive EditType : Type := kMatch | kAdd | kRemove | kReplace.

#[export] Instance EditType_eq_dec : EqDecision EditType.
Proof. solve_decision. Defined.

(** ** The tables *)

Definition double_add (a b : spec_float) : spec_float := SFadd prec emax a b.
(** The literals [1] and [1.00001]. *)
Definition one : spec_float := double_of_Z 1.
Definition replace_cost : spec_float := S754_finite false 4503644663366770 (-52).

Definition cell : Type := (spec_float * EditType)%type.

Section optimal_edits.
Context {A : Type} `{!EqDecision A}.
Implicit Types left right : list A.

(** The body of the double loop: the cell at [l_i + 1], [r_i + 1]. *)
Definition next_cell (l r : A) (add remove replace : spec_float) : cell :=
  if bool_decide (l = r) then (replace, kMatch)
  else if SFltb add remove && SFltb add replace then (double_add add one, kAdd)
  else if SFltb remove add && SFltb remove replace then (double_add remove one, kRemove)
  else (double_add replace replace_cost, kReplace).

(** The rest of a row: [corner] and [above] are cells of the row before. *)
Fixpoint fill_row (l : A) (right : list A) (corner before : cell) (above : list cell)
    : list cell :=
  match right, above with
  | r :: right', up :: above =>
      let c := next_cell l r (fst before) (fst up) (fst corner) in
      c :: fill_row l right' up c above
  | _, _ => []
  end.

Definition first_row (n : nat) : list cell :=
  (fun r_i => (double_of_Z (Z.of_nat r_i), if bool_decide (r_i = O) then kRemove else kAdd))
    <$> seq 0 (S n).

Definition next_row (l_i : nat) (l : A) (right : list A) (row : list cell) : list cell :=
  let start := (double_of_Z (Z.of_nat (S l_i)), kRemove) in
  start :: match row with
           | corner :: above => fill_row l right corner start above
           | [] => []
           end.

Fixpoint fill_rows (l_i : nat) (left right : list A) (row : list cell) : list (list cell) :=
  row :: match left with
         | l :: left' => fill_rows (S l_i) left' right (next_row l_i l right row)
         | [] => []
         end.
Definition cells (left right : list A) : list (list cell) :=
  fill_rows 0 left right (first_row (length right)).

Definition best_move (left right : list A) (l_i r_i : nat) : option EditType :=
  row ← cells left right !! l_i; snd <$> row !! r_i.

(** The walk back from the last cell; [best_path] is kept in the final order. *)
Fixpoint reconstruct (fuel : nat) (move_at : nat -> nat -> option EditType) (l_i r_i : nat)
    (best_path : list EditType) : outcome (list EditType) :=
  match l_i, r_i with
  | O, O => Ok best_path
  | _, _ =>
      match fuel with
      | O => Err Diverges
      | S fuel =>
          move ← or_fault InvalidDeref (move_at l_i r_i);
          l' ← (if bool_decide (move = kAdd) then Ok l_i
                else match l_i with S l => Ok l | O => Err InvalidDeref end);
          r' ← (if bool_decide (move = kRemove) then Ok r_i
                else match r_i with S r => Ok r | O => Err InvalidDeref end);
          reconstruct fuel move_at l' r' (move :: best_path)
      end
  end.

Definition CalculateOptimalEdits (left right : list A) : outcome (list EditType) :=
  reconstruct (length left + length right) (best_move left right)
    (length left) (length right) [].

End optimal_edits.

(** ** Lines: strings become numbers first *)

(** [InternalStrings]: the map from strings to ids. *)
Definition InternalStrings : Type := list (text * nat).

Fixpoint ids_find (s : text) (ids_ : InternalStrings) : option nat :=
  match ids_ with
  | (t, id) :: ids_ => if bool_decide (s = t) then Some id else ids_find s ids_
  | [] => None
  end.

Definition GetId (ids_ : InternalStrings) (s : text) : nat * InternalStrings :=
  match ids_find s ids_ with
  | Some id => (id, ids_)
  | None => let id := length ids_ in (id, (s, id) :: ids_)
  end.

Fixpoint GetIds (ids_ : InternalStrings) (lines : list text) : list nat * InternalStrings :=
  match lines with
  | [] => ([], ids_)
  | s :: lines => let '(id, ids_) := GetId ids_ s in
                  let '(ids, ids_) := GetIds ids_ lines in (id :: ids, ids_)
  end.

Definition CalculateOptimalEdits_lines (left right : list text) : outcome (list EditType) :=
  let '(left_ids, intern_table) := GetIds [] left in
  let '(right_ids, _) := GetIds intern_table right in
  CalculateOptimalEdits left_ids right_ids.

(** ** Hunks *)

Record Hunk : Type := mkHunk {
  left_start_ : nat; right_start_ : nat;
  adds_ : nat; removes_ : nat; common_ : nat;
  hunk_ : list (ascii * text); hunk_adds_ : list (ascii * text);
  hunk_removes_ : list (ascii * text) }.

Definition new_Hunk (left_start right_start : nat) : Hunk :=
  mkHunk left_start right_start 0 0 0 [] [] [].

Definition FlushEdits (h : Hunk) : Hunk :=
  mkHunk (left_start_ h) (right_start_ h) (adds_ h) (removes_ h) (common_ h)
    (hunk_ h ++ hunk_removes_ h ++ hunk_adds_ h) [] [].

Inductive line_edit : Type := line_common | line_removed | line_added.

Definition PushLine (h : Hunk) (edit : line_edit) (line : text) : Hunk :=
  match edit with
  | line_common =>
      let h := FlushEdits (mkHunk (left_start_ h) (right_start_ h) (adds_ h) (removes_ h)
                 (S (common_ h)) (hunk_ h) (hunk_adds_ h) (hunk_removes_ h)) in
      mkHunk (left_start_ h) (right_start_ h) (adds_ h) (removes_ h) (common_ h)
        (hunk_ h ++ [(" "%char, line)]) (hunk_adds_ h) (hunk_removes_ h)
  | line_removed =>
      mkHunk (left_start_ h) (right_start_ h) (adds_ h) (S (removes_ h)) (common_ h)
        (hunk_ h) (hunk_adds_ h) (hunk_removes_ h ++ [("-"%char, line)])
  | line_added =>
      mkHunk (left_start_ h) (right_start_ h) (S (adds_ h)) (removes_ h) (common_ h)
        (hunk_ h) (hunk_adds_ h ++ [("+"%char, line)]) (hunk_removes_ h)
  end.

Definition dec_nat (n : nat) : text := dec (Z.of_nat n).

Definition PrintHeader (h : Hunk) : text :=
  str "@@ " ++
  (if bool_decide (removes_ h = O) then []
   else str "-" ++ dec_nat (left_start_ h) ++ str "," ++ dec_nat (removes_ h + common_ h)) ++
  (if bool_decide (removes_ h = O) || bool_decide (adds_ h = O) then [] else str " ") ++
  (if bool_decide (adds_ h = O) then []
   else str "+" ++ dec_nat (right_start_ h) ++ str "," ++ dec_nat (adds_ h + common_ h)) ++
  str " @@" ++ [LF].

Definition PrintTo (h : Hunk) : text :=
  PrintHeader h ++
  flat_map (fun '(edit, line) => edit :: line ++ [LF]) (hunk_ (FlushEdits h)).

Definition has_edits (h : Hunk) : bool :=
  negb (bool_decide (adds_ h = O)) || negb (bool_decide (removes_ h = O)).

(** ** The unified diff *)

(** [for (i = prefix_context; i > 0; --i) hunk.PushLine(' ', left[l_i - i])]. *)
Fixpoint push_prefix (i : nat) (left : list text) (l_i : nat) (h : Hunk) : outcome Hunk :=
  match i with
  | O => Ok h
  | S i' => line ← or_fault InvalidDeref (left !! (l_i - i)%nat);
            push_prefix i' left l_i (PushLine h line_common (c_str line))
  end.

(** The number of matches that [edits] begins with. *)
Fixpoint matches_ahead (edits : list EditType) : nat :=
  match edits with
  | kMatch :: edits => S (matches_ahead edits)
  | _ => O
  end.

(** [PushLine] for the lines that an edit consumes. *)
Definition push_edit (left right : list text) (edit : EditType) (l_i r_i : nat) (h : Hunk)
    : outcome Hunk :=
  h ← (if bool_decide (edit = kAdd) then Ok h
       else line ← or_fault InvalidDeref (left !! l_i);
            Ok (PushLine h (if bool_decide (edit = kMatch) then line_common else line_removed)
                  (c_str line)));
  if bool_decide (edit = kAdd) || bool_decide (edit = kReplace)
  then line ← or_fault InvalidDeref (right !! r_i);
       Ok (PushLine h line_added (c_str line))
  else Ok h.

(** The loop that fills a hunk; it returns what is left of the edits. *)
Fixpoint hunk_loop (left right : list text) (context : nat) (edits : list EditType)
    (n_suffix l_i r_i : nat) (h : Hunk) : outcome (list EditType * nat * nat * Hunk) :=
  match edits with
  | [] => Ok (edits, l_i, r_i, h)
  | edit :: edits' =>
      let ahead := matches_ahead edits in
      if (context <=? n_suffix)%nat &&
         ((ahead =? length edits)%nat || (context <=? ahead)%nat)
      then Ok (edits, l_i, r_i, h)
      else
        let n_suffix := if bool_decide (edit = kMatch) then S n_suffix else O in
        h ← push_edit left right edit l_i r_i h;
        hunk_loop left right context edits' n_suffix
          (if bool_decide (edit = kAdd) then l_i else S l_i)
          (if bool_decide (edit = kRemove) then r_i else S r_i) h
  end.

Fixpoint diff_loop (fuel : nat) (left right : list text) (context : nat)
    (edits : list EditType) (l_i r_i : nat) (ss : text) : outcome text :=
  match edits with
  | [] => Ok ss
  | _ =>
      match fuel with
      | O => Err Diverges
      | S fuel =>
          let skipped := matches_ahead edits in
          let edits := drop skipped edits in
          let l_i := (l_i + skipped)%nat in
          let r_i := (r_i + skipped)%nat in
          let prefix_context := Nat.min l_i context in
          let hunk := new_Hunk (l_i - prefix_context + 1) (r_i - prefix_context + 1) in
          hunk ← push_prefix prefix_context left l_i hunk;
          '(edits, l_i, r_i, hunk) ← hunk_loop left right context edits 0 l_i r_i hunk;
          if negb (has_edits hunk) then Ok ss
          else diff_loop fuel left right context edits l_i r_i (ss ++ PrintTo hunk)
      end
  end.

Definition CreateUnifiedDiff (left right : list text) (context : nat) : outcome text :=
  edits ← CalculateOptimalEdits_lines left right;
  diff_loop (length edits) left right context edits 0 0 [].

(** ** What a list of edits does *)

Section edits.
Context {A : Type} `{!EqDecision A}.
Implicit Types l r left right : list A.

(** [edits left right es]: the edits [es] turn [left] into [right]. *)
Inductive edits : list A -> list A -> list EditType -> Prop :=
  | edits_nil : edits [] [] []
  | edits_match x l r es : edits l r es -> edits (x :: l) (x :: r) (kMatch :: es)
  | edits_add y l r es : edits l r es -> edits l (y :: r) (kAdd :: es)
  | edits_remove x l r es : edits l r es -> edits (x :: l) r (kRemove :: es)
  | edits_replace x y l r es : x <> y -> edits l r es ->
      edits (x :: l) (y :: r) (kReplace :: es).

Lemma edits_all_match l r es :
  edits l r es -> Forall (fun e => e = kMatch) es -> l = r.
Proof. induction 1; intros Hf; inversion Hf; subst; try done. f_equal; auto. Qed.

Lemma edits_length l r es : edits l r es -> (length es <= length l + length r)%nat.
Proof. induction 1; simpl; lia. Qed.

(** What the move of a cell promises about the elements before it. *)
Definition move_ok left right (i j : nat) (m : EditType) : Prop :=
  (i <= length left)%nat /\ (j <= length right)%nat /\
  match i, j with
  | O, O => True
  | S _, O => m = kRemove
  | O, S _ => m = kAdd
  | S i, S j => exists x y, left !! i = Some x /\ right !! j = Some y /\
                 (m = kMatch <-> x = y)
  end.

Lemma next_cell_move (x y : A) add remove replace :
  snd (next_cell x y add remove replace) = kMatch <-> x = y.
Proof.
  unfold next_cell. case_bool_decide as E; [done|].
  split; [|done]. by destruct (_ && _); [|destruct (_ && _)].
Qed.

(** A row is good when each of its cells is. *)
Definition row_ok left right i (row : list cell) : Prop :=
  length row = S (length right) /\
  forall j c, row !! j = Some c -> move_ok left right i j (snd c).

Lemma fill_row_length (x : A) right corner before above :
  length above = length right -> length (fill_row x right corner before above) = length right.
Proof.
  revert corner before above; induction right as [|r right' IH]; intros corner before [|up above];
    simpl; intros H; try done. f_equal. apply IH. lia.
Qed.

Lemma fill_row_lookup (x : A) right corner before above j c :
  fill_row x right corner before above !! j = Some c ->
  exists y, right !! j = Some y /\ (snd c = kMatch <-> x = y).
Proof.
  revert corner before above j; induction right as [|r right' IH];
    intros corner before [|up above] j H; try done.
  destruct j as [|j]; simpl in *; [|by eapply IH].
  injection H as <-. exists r. split; [done | apply next_cell_move].
Qed.

Lemma next_row_ok left right i x row :
  left !! i = Some x -> row_ok left right i row ->
  row_ok left right (S i) (next_row i x right row).
Proof.
  intros Hx [Hl _]. pose proof (lookup_lt_Some _ _ _ Hx). unfold next_row.
  destruct row as [|corner above]; [done|]. injection Hl as Hl. split.
  - simpl. by rewrite fill_row_length.
  - intros [|j] c; simpl.
    + intros [= <-]. repeat split; simpl; lia || done.
    + intros (y & Hy & Hc)%fill_row_lookup. pose proof (lookup_lt_Some _ _ _ Hy).
      repeat split; [lia..|]. eauto.
Qed.

Lemma fill_rows_ok left rest right i row k row' :
  (forall j, rest !! j = left !! (i + j)%nat) -> row_ok left right i row ->
  fill_rows i rest right row !! k = Some row' -> row_ok left right (i + k) row'.
Proof.
  revert i row k; induction rest as [|x rest IH]; intros i row k Hrest Hrow; simpl;
    destruct k as [|k]; simpl; intros H; try done.
  1, 2: injection H as <-; by rewrite Nat.add_0_r.
  replace (i + S k)%nat with (S i + k)%nat by lia. eapply IH; [| |exact H].
  - intros j. rewrite Nat.add_succ_comm. apply (Hrest (S j)).
  - apply next_row_ok; [|done].
    specialize (Hrest O). rewrite Nat.add_0_r in Hrest. by rewrite <- Hrest.
Qed.

Lemma first_row_ok left right : row_ok left right 0 (first_row (length right)).
Proof.
  unfold row_ok, first_row. split; [by rewrite length_fmap, length_seq|].
  intros j c. rewrite list_lookup_fmap.
  destruct (seq 0 (S (length right)) !! j) as [k|] eqn:E; [|done].
  apply lookup_seq in E as [-> Hk]. intros [= <-]. repeat split; [lia|simpl in Hk; lia|].
  by destruct j.
Qed.

Lemma fill_rows_length i left right row : length (fill_rows i left right row) = S (length left).
Proof.
  revert i row; induction left as [|x left' IH]; intros i row; simpl; [done|].
  by rewrite IH.
Qed.

Lemma best_move_ok left right i j :
  (i <= length left)%nat -> (j <= length right)%nat ->
  exists m, best_move left right i j = Some m /\ move_ok left right i j m.
Proof.
  intros Hi Hj. unfold best_move, cells.
  destruct (lookup_lt_is_Some_2 (fill_rows 0 left right (first_row (length right))) i)
    as [row Hrow]; [rewrite fill_rows_length; lia|].
  rewrite Hrow. simpl.
  destruct (fill_rows_ok left left right 0 _ i row (fun _ => eq_refl)
              (first_row_ok left right) Hrow) as [Hl Hm].
  destruct (lookup_lt_is_Some_2 row j) as [c Hc]; [lia|].
  exists (snd c). split; [exact (f_equal (fmap snd) Hc) | by apply Hm].
Qed.

(** ** The walk back *)

Lemma take_snoc l i x : l !! i = Some x -> take (S i) l = take i l ++ [x].
Proof. apply take_S_r. Qed.

Lemma edits_snoc_match x l r es :
  edits l r es -> edits (l ++ [x]) (r ++ [x]) (es ++ [kMatch]).
Proof. induction 1; simpl; repeat constructor; auto. Qed.
Lemma edits_snoc_add y l r es :
  edits l r es -> edits l (r ++ [y]) (es ++ [kAdd]).
Proof. induction 1; simpl; repeat constructor; auto. Qed.
Lemma edits_snoc_remove x l r es :
  edits l r es -> edits (l ++ [x]) r (es ++ [kRemove]).
Proof. induction 1; simpl; repeat constructor; auto. Qed.
Lemma edits_snoc_replace x y l r es :
  x <> y -> edits l r es -> edits (l ++ [x]) (r ++ [y]) (es ++ [kReplace]).
Proof. intros Hxy. induction 1; simpl; repeat constructor; auto. Qed.

Lemma reconstruct_correct left right fuel i j path :
  (i <= length left)%nat -> (j <= length right)%nat -> (i + j <= fuel)%nat ->
  exists es, reconstruct fuel (best_move left right) i j path = Ok (es ++ path) /\
    edits (take i left) (take j right) es.
Proof.
  revert i j path; induction fuel as [|fuel IH]; intros i j path Hi Hj Hf.
  { assert (i = O) as -> by lia. assert (j = O) as -> by lia. exists []. split; [done|].
    rewrite !take_0. constructor. }
  destruct (best_move_ok left right i j Hi Hj) as (m & Hm & _ & _ & Hok).
  destruct i as [|i], j as [|j].
  - exists []. split; [done|]. rewrite !take_0. constructor.
  - subst m. cbn [reconstruct]. rewrite Hm. simpl.
    destruct (IH O j (kAdd :: path)) as (es & -> & He); [lia..|].
    destruct (lookup_lt_is_Some_2 right j) as [y Hy]; [lia|].
    exists (es ++ [kAdd]). rewrite <- app_assoc, (take_snoc right j y Hy). split; [done|].
    by apply edits_snoc_add.
  - subst m. cbn [reconstruct]. rewrite Hm. simpl.
    destruct (IH i O (kRemove :: path)) as (es & -> & He); [lia..|].
    destruct (lookup_lt_is_Some_2 left i) as [x Hx]; [lia|].
    exists (es ++ [kRemove]). rewrite <- app_assoc, (take_snoc left i x Hx). split; [done|].
    by apply edits_snoc_remove.
  - destruct Hok as (x & y & Hx & Hy & Hxy). cbn [reconstruct]. rewrite Hm. simpl.
    pose proof (take_snoc left i x Hx) as Hl. pose proof (take_snoc right j y Hy) as Hr.
    destruct m; simpl.
    + destruct (IH i j (kMatch :: path)) as (es & -> & He); [lia..|].
      exists (es ++ [kMatch]). rewrite <- app_assoc, Hl, Hr. split; [done|].
      rewrite (proj1 Hxy eq_refl). by apply edits_snoc_match.
    + destruct (IH (S i) j (kAdd :: path)) as (es & -> & He); [lia..|].
      exists (es ++ [kAdd]). rewrite <- app_assoc, Hr. split; [done|].
      by apply edits_snoc_add.
    + destruct (IH i (S j) (kRemove :: path)) as (es & -> & He); [lia..|].
      exists (es ++ [kRemove]). rewrite <- app_assoc, Hl. split; [done|].
      by apply edits_snoc_remove.
    + destruct (IH i j (kReplace :: path)) as (es & -> & He); [lia..|].
      exists (es ++ [kReplace]). rewrite <- app_assoc, Hl, Hr. split; [done|].
      apply edits_snoc_replace; [|done]. naive_solver.
Qed.

Lemma CalculateOptimalEdits_edits left right :
  exists es, CalculateOptimalEdits left right = Ok es /\ edits left right es.
Proof.
  unfold CalculateOptimalEdits.
  destruct (reconstruct_correct left right (length left + length right)
              (length left) (length right) []) as (es & -> & He); [lia..|].
  exists es. rewrite app_nil_r. split; [done|]. by rewrite !firstn_all in He.
Qed.

(** Equal lists: the walk stays on the diagonal. *)
Lemma reconstruct_same left fuel i path :
  (i <= length left)%nat -> (i + i <= fuel)%nat ->
  reconstruct fuel (best_move left left) i i path = Ok (replicate i kMatch ++ path).
Proof.
  revert i path; induction fuel as [|fuel IH]; intros [|i] path Hi Hf; [done|lia|done|].
  destruct (best_move_ok left left (S i) (S i) Hi Hi) as (m & Hm & _ & _ & x & y & Hx & Hy & Hxy).
  assert (m = kMatch) as -> by (apply Hxy; congruence).
  cbn [reconstruct]. rewrite Hm. simpl. rewrite IH by lia. f_equal.
  by rewrite (cons_middle kMatch), app_assoc, <- replicate_S_end.
Qed.

Lemma CalculateOptimalEdits_same left :
  CalculateOptimalEdits left left = Ok (replicate (length left) kMatch).
Proof.
  unfold CalculateOptimalEdits. rewrite reconstruct_same by lia. by rewrite app_nil_r.
Qed.

End edits.

(** ** Interning strings keeps equality *)

Lemma edits_transport {A B} (R : A -> B -> Prop) (ls rs : list A) (l r : list B) es :
  (forall s t i, R s i -> R t i -> s = t) -> (forall s i j, R s i -> R s j -> i = j) ->
  edits l r es -> Forall2 R ls l -> Forall2 R rs r -> edits ls rs es.
Proof.
  intros Hinj Hfun H. revert ls rs; induction H; intros ls rs Hl Hr;
    try (apply Forall2_nil_inv_r in Hl); try (apply Forall2_nil_inv_r in Hr); subst;
    try (apply Forall2_cons_inv_r in Hl as (s & ls' & Hs & Hl & ->));
    try (apply Forall2_cons_inv_r in Hr as (t & rs' & Ht & Hr & ->));
    try (rewrite (Hinj s t x) by done); try (constructor; eauto); done || idtac.
  intros ->. naive_solver.
Qed.

(** The ids are below the size of the table and identify the strings. *)
Definition ids_ok (T : InternalStrings) : Prop :=
  (forall s i, ids_find s T = Some i -> (i < length T)%nat) /\
  (forall s t i, ids_find s T = Some i -> ids_find t T = Some i -> s = t).

Lemma GetId_ok T s :
  ids_ok T ->
  let '(id, T') := GetId T s in
  ids_ok T' /\ ids_find s T' = Some id /\
  forall t i, ids_find t T = Some i -> ids_find t T' = Some i.
Proof.
  intros Hok. unfold GetId. destruct (ids_find s T) as [id|] eqn:E; [done|].
  destruct Hok as [Hlt Hinj]. split_and!.
  - split; simpl.
    + intros t i. case_bool_decide; [intros [= <-]; lia|]. intros Ht%Hlt. lia.
    + intros t u i. do 2 case_bool_decide; subst; try done; try by apply Hinj.
      * intros [= E'] Ht%Hlt. lia.
      * intros Ht%Hlt [= E']. lia.
  - simpl. by rewrite bool_decide_true.
  - simpl. intros t i H. case_bool_decide; [congruence | done].
Qed.

Lemma GetIds_ok lines T :
  ids_ok T ->
  let '(ids, T') := GetIds T lines in
  ids_ok T' /\ Forall2 (fun s i => ids_find s T' = Some i) lines ids /\
  forall t i, ids_find t T = Some i -> ids_find t T' = Some i.
Proof.
  revert T; induction lines as [|s lines IH]; intros T Hok; simpl; [by split_and!|].
  pose proof (GetId_ok T s Hok) as H. destruct (GetId T s) as [id T1].
  destruct H as (Hok1 & Hs & Hk1). specialize (IH T1 Hok1).
  destruct (GetIds T1 lines) as [ids T2]. destruct IH as (Hok2 & Hl & Hk2).
  split_and!; [done | constructor; auto | auto].
Qed.

Lemma CalculateOptimalEdits_lines_edits left right :
  exists es, CalculateOptimalEdits_lines left right = Ok es /\ edits left right es /\
    (left = right -> Forall (fun e => e = kMatch) es).
Proof.
  unfold CalculateOptimalEdits_lines.
  pose proof (GetIds_ok left [] ltac:(done)) as H1. destruct (GetIds [] left) as [l T1].
  destruct H1 as (Hok1 & Hl & _). pose proof (GetIds_ok right T1 Hok1) as H2.
  destruct (GetIds T1 right) as [r T2]. destruct H2 as (Hok2 & Hr & Hk).
  destruct (CalculateOptimalEdits_edits l r) as (es & He & Hed). exists es.
  assert (Hl2 : Forall2 (fun s i => ids_find s T2 = Some i) left l)
    by (eapply Forall2_impl; [exact Hl | auto]).
  split_and!; [done| |].
  - eapply (edits_transport (fun s i => ids_find s T2 = Some i)); [| |exact Hed|done|done].
    + apply Hok2.
    + congruence.
  - intros ->. assert (l = r) as ->.
    { clear -Hl2 Hr. revert r Hr; induction Hl2; intros r Hr; inversion Hr; subst; [done|].
      f_equal; [congruence | auto]. }
    rewrite CalculateOptimalEdits_same in He. injection He as <-.
    by apply Forall_replicate.
Qed.

(** ** The unified diff *)

Lemma PushLine_common_edits h line : has_edits (PushLine h line_common line) = has_edits h.
Proof. done. Qed.

Lemma push_prefix_runs i left l_i h :
  (i <= l_i <= length left)%nat ->
  exists h', push_prefix i left l_i h = Ok h' /\ has_edits h' = has_edits h.
Proof.
  revert h; induction i as [|i IH]; intros h Hi; [by exists h|]. cbn [push_prefix].
  destruct (lookup_lt_is_Some_2 left (l_i - S i)) as [line Hl]; [lia|]. rewrite Hl.
  cbn [or_fault]. rewrite bind_ok.
  destruct (IH (PushLine h line_common (c_str line))) as (h' & -> & Hh); [lia|].
  by exists h'.
Qed.

Lemma drop_lookup_head {A} (l : list A) i x l' : drop i l = x :: l' ->
  l !! i = Some x /\ drop (S i) l = l' /\ (i < length l)%nat.
Proof.
  intros H. assert (Hi : (i < length l)%nat).
  { apply Nat.nle_gt. intros Hge. by rewrite drop_ge in H. }
  split_and!; [| |done].
  - rewrite <- (Nat.add_0_r i), <- lookup_drop, H. done.
  - by rewrite <- Nat.add_1_r, <- drop_drop, H.
Qed.

(** The position reached by an edit, and the lines it pushes. *)
Lemma push_edit_runs left right edit es l_i r_i h :
  edits (drop l_i left) (drop r_i right) (edit :: es) ->
  exists h', push_edit left right edit l_i r_i h = Ok h' /\
    has_edits h' = has_edits h || negb (bool_decide (edit = kMatch)) /\
    edits (drop (if bool_decide (edit = kAdd) then l_i else S l_i) left)
      (drop (if bool_decide (edit = kRemove) then r_i else S r_i) right) es /\
    (l_i <= length left ->
     (if bool_decide (edit = kAdd) then l_i else S l_i) <= length left)%nat.
Proof.
  intros H. unfold push_edit.
  inversion H as [|x l r es' He Hl Hr|y l r es' He Hl Hr|x l r es' He Hl Hr
                  |x y l r es' Hxy He Hl Hr]; subst;
    try (symmetry in Hl; apply drop_lookup_head in Hl as (Hl & Hld & Hlt); rewrite Hl);
    try (symmetry in Hr; apply drop_lookup_head in Hr as (Hr & Hrd & _); rewrite Hr);
    simpl; eexists; (split; [reflexivity|]); subst; (split; [|split; [done | simpl; lia]]);
    unfold has_edits; simpl; rewrite ?orb_true_r, ?orb_false_r; done.
Qed.

Lemma hunk_loop_runs left right context es n_suffix l_i r_i h :
  edits (drop l_i left) (drop r_i right) es ->
  exists es' l' r' h', hunk_loop left right context es n_suffix l_i r_i h = Ok (es', l', r', h') /\
    edits (drop l' left) (drop r' right) es' /\ (length es' <= length es)%nat /\
    (has_edits h = true -> has_edits h' = true) /\
    (l_i <= length left -> l' <= length left)%nat.
Proof.
  revert n_suffix l_i r_i h; induction es as [|e es IH]; intros n_suffix l_i r_i h H;
    cbn [hunk_loop]; [by exists [], l_i, r_i, h|].
  destruct (_ && _); [by exists (e :: es), l_i, r_i, h|].
  destruct (push_edit_runs left right e es l_i r_i h H) as (h1 & -> & Hh1 & H1 & Hb1). cbn.
  destruct (IH (if bool_decide (e = kMatch) then S n_suffix else O) _ _ h1 H1)
    as (es' & l' & r' & h' & -> & He & Hlen & Hh & Hb).
  exists es', l', r', h'. split_and!; [done|done|simpl; lia| |auto].
  intros Ht. apply Hh. by rewrite Hh1, Ht.
Qed.

Lemma edits_skip {A} (l r : list A) es :
  edits l r es ->
  edits (drop (matches_ahead es) l) (drop (matches_ahead es) r) (drop (matches_ahead es) es).
Proof. induction 1; simpl; rewrite ?drop_0; try constructor; auto. Qed.

Lemma matches_ahead_head es :
  match drop (matches_ahead es) es with kMatch :: _ => False | _ => True end.
Proof. induction es as [|[] es IH]; done. Qed.

Lemma matches_ahead_all es :
  drop (matches_ahead es) es = [] <-> Forall (fun e => e = kMatch) es.
Proof.
  induction es as [|[] es IH]; simpl; [naive_solver|..]; rewrite ?Forall_cons; naive_solver.
Qed.

Lemma edits_matches_le {A} (l r : list A) es :
  edits l r es -> (matches_ahead es <= length l)%nat.
Proof. intros H. induction H; simpl; lia. Qed.

Lemma diff_loop_runs fuel left right context es l_i r_i ss :
  edits (drop l_i left) (drop r_i right) es -> (l_i <= length left)%nat ->
  (length es <= fuel)%nat ->
  diff_loop fuel left right context es l_i r_i ss ⇓ fun d =>
    exists t, d = ss ++ t /\ (t = [] <-> Forall (fun e => e = kMatch) es \/ context = O).
Proof.
  revert es l_i r_i ss; induction fuel as [|fuel IH]; intros es l_i r_i ss He Hl Hf.
  { destruct es; simpl in *; [|lia]. exists []. rewrite app_nil_r. split; [done|].
    split; [left; constructor | done]. }
  destruct es as [|e es]; [exists []; rewrite app_nil_r; split; [done|]; split; [left; constructor|done]|].
  cbn [diff_loop]. pose proof (edits_skip _ _ _ He) as Hs. rewrite !drop_drop in Hs.
  pose proof (matches_ahead_head (e :: es)) as Hh.
  pose proof (matches_ahead_all (e :: es)) as Ha.
  pose proof (edits_matches_le _ _ _ He) as Hle. rewrite length_drop in Hle.
  set (k := matches_ahead (e :: es)) in *.
  destruct (push_prefix_runs (Nat.min (l_i + k) context) left (l_i + k)
              (new_Hunk (l_i + k - Nat.min (l_i + k) context + 1)
                 (r_i + k - Nat.min (l_i + k) context + 1))) as (h & -> & Hno); [lia|].
  rewrite bind_ok. change (has_edits (new_Hunk _ _)) with false in Hno.
  destruct (drop k (e :: es)) as [|e1 es1] eqn:Ek.
  - cbn [hunk_loop]. rewrite bind_ok, Hno. simpl. exists []. rewrite app_nil_r.
    split; [done|]. split; [intros _; left; by apply Ha | done].
  - assert (Hnot : ~ Forall (fun e => e = kMatch) (e :: es)) by (rewrite <- Ha; done).
    assert (Hlen : (length (e1 :: es1) <= S (length es))%nat)
      by (rewrite <- Ek, length_drop; simpl; lia).
    destruct context as [|context].
    + cbn [hunk_loop]. rewrite (proj2 (Nat.leb_le 0 _)), orb_true_r by lia. simpl.
      rewrite Hno. simpl. exists []. rewrite app_nil_r. split; [done|]. tauto.
    + assert (He1 : e1 <> kMatch) by (intros ->; done).
      cbn [hunk_loop]. rewrite (proj2 (Nat.leb_gt _ 0)) by lia. simpl.
      destruct (push_edit_runs left right e1 es1 _ _ h Hs) as (h1 & -> & Hh1 & H1 & Hb1).
      rewrite bind_ok, bool_decide_false by done.
      destruct (hunk_loop_runs left right (S context) es1 0 _ _ h1 H1)
        as (es' & l' & r' & h' & -> & He' & Hlen' & Hh' & Hb').
      rewrite bind_ok. rewrite Hh' by (rewrite Hh1, bool_decide_false, orb_true_r by done; done).
      cbn [negb]. eapply returns_mono; [apply IH; [exact He' | | simpl in *; lia]|].
      * apply Hb', Hb1. lia.
      * intros d (t & -> & _). exists (PrintTo h' ++ t). rewrite app_assoc.
        split; [done|]. split; [|intros [?|?]; done]. intros Hnil.
        apply app_eq_nil in Hnil as [Hnil _]. done.
Qed.
