(* ===== verification/Printers.v ===== *)
(** * The universal printer (gtest-printers.cc)

    What a function writes to the stream is (part of) its result.  The character
    types the templates are instantiated with are described by a [CharType]: the
    prefix of their literals, their width and signedness; a character is its
    value, an integer.  The strings of [char] are [text]s, whose values [scode]
    gives. *)

From S2P Require Import Prelude Outcome Common CStr.

(** ** Bytes of an object *)

Fixpoint print_bytes (obj_bytes : list Z) (i j : nat) : text :=
  match obj_bytes with
  | [] => []
  | b :: obj_bytes =>
      (if bool_decide (i = O) then []
       else if bool_decide (Nat.even j = true) then str " " else str "-") ++
      Gtest_String.FormatByte b ++ print_bytes obj_bytes (S i) (S j)
  end.
Definition PrintByteSegmentInObjectTo (obj_bytes : list Z) (start count : nat) : text :=
  print_bytes (take count (drop start obj_bytes)) 0 start.

Definition kThreshold : nat := 132.
Definition kChunkSize : nat := 64.

Definition PrintBytesInObjectToImpl (obj_bytes : list Z) : text :=
  let count := length obj_bytes in
  dec (Z.of_nat count) ++ str "-byte object <" ++
  (if (count <? kThreshold)%nat then PrintByteSegmentInObjectTo obj_bytes 0 count
   else let resume_pos := ((count - kChunkSize + 1) / 2 * 2)%nat in
        PrintByteSegmentInObjectTo obj_bytes 0 kChunkSize ++ str " ... " ++
        PrintByteSegmentInObjectTo obj_bytes resume_pos (count - resume_pos)) ++
  str ">".

(** ** Characters *)

Record CharType : Type := mkCharType {
  GetCharWidthPrefix : text; width : Z; signed : bool }.

Definition char_type : CharType := mkCharType [] 8 true.
Definition unsigned_char_type : CharType := mkCharType [] 8 false.
Definition char8_type : CharType := mkCharType (str "u8") 8 false.
Definition char16_type : CharType := mkCharType (str "u") 16 false.
Definition char32_type : CharType := mkCharType (str "U") 32 false.
Definition wchar_type : CharType := mkCharType (str "L") 32 true.

Definition ToChar32 (t : CharType) (c : Z) : Z := c mod 2 ^ width t.

Inductive CharFormat : Type := kAsIs | kHexEscape | kSpecialEscape.

#[export] Instance CharFormat_eq_dec : EqDecision CharFormat.
Proof. solve_decision. Defined.

Definition IsPrintableAscii (c : Z) : bool := (32 <=? c) && (c <=? 126).

Definition backslash : ascii := "\".

(** [PrintAsCharLiteralTo]; the argument is what [ToChar32] returns. *)
Definition PrintAsCharLiteralTo (u_c : Z) : text * CharFormat :=
  if u_c =? 0 then ([backslash; "0"%char], kSpecialEscape)
  else if u_c =? 39 then ([backslash; "'"%char], kSpecialEscape)
  else if u_c =? 92 then ([backslash; backslash], kSpecialEscape)
  else if u_c =? 7 then ([backslash; "a"%char], kSpecialEscape)
  else if u_c =? 8 then ([backslash; "b"%char], kSpecialEscape)
  else if u_c =? 12 then ([backslash; "f"%char], kSpecialEscape)
  else if u_c =? 10 then ([backslash; "n"%char], kSpecialEscape)
  else if u_c =? 13 then ([backslash; "r"%char], kSpecialEscape)
  else if u_c =? 9 then ([backslash; "t"%char], kSpecialEscape)
  else if u_c =? 11 then ([backslash; "v"%char], kSpecialEscape)
  else if IsPrintableAscii u_c then ([to_char u_c], kAsIs)
  else (backslash :: "x"%char :: digits 16 u_c, kHexEscape).

Definition quote : ascii := "034".

Definition PrintAsStringLiteralTo (u_c : Z) : text * CharFormat :=
  if u_c =? 39 then (["'"%char], kAsIs)
  else if u_c =? 34 then ([backslash; quote], kSpecialEscape)
  else PrintAsCharLiteralTo u_c.

Definition PrintCharAndCodeTo (t : CharType) (c : Z) : text :=
  let '(literal, format) := PrintAsCharLiteralTo (ToChar32 t c) in
  GetCharWidthPrefix t ++ str "'" ++ literal ++ str "'" ++
  (if c =? 0 then []
   else str " (" ++ dec c ++
        (if bool_decide (format = kHexEscape) || ((1 <=? c) && (c <=? 9)) then []
         else str ", 0x" ++ Gtest_String.FormatHexInt c) ++
        str ")").

(** [PrintTo(char32_t)]. *)
Definition PrintTo_char32 (c : Z) : text := str "U+" ++ pad_left "0" 4 (digits 16 c).

(** ** 128-bit integers, by long division of two 64-bit halves *)

Definition u64 (z : Z) : Z := z mod 2 ^ 64.

(** One turn: the decimal digit and the quotient. *)
Definition divide_by_10 (high low : Z) : Z * Z * Z :=
  let high_mod := high mod 10 in
  let high := high / 10 in
  let carry := u64 (u64 (6 * high_mod) + low mod 10) in
  let low := u64 (u64 (low / 10 + u64 (high_mod * 1844674407370955161)) + carry / 10) in
  (carry mod 10, high, low).

(** [buf] has 40 places, the last for the NUL: a 40th digit does not fit. *)
Fixpoint print_u128_loop (places : nat) (high low : Z) (p : text) : outcome text :=
  if (high =? 0) && (low =? 0) then Ok p
  else match places with
       | O => Err InvalidDeref
       | S places =>
           let '(digit, high, low) := divide_by_10 high low in
           print_u128_loop places high low (to_char (48 + digit) :: p)
       end.
Definition PrintTo_uint128 (v : Z) : outcome text :=
  if v =? 0 then Ok (str "0")
  else print_u128_loop 39 (v / 2 ^ 64) (v mod 2 ^ 64) [].

Definition PrintTo_int128 (v : Z) : outcome text :=
  let uv := v mod 2 ^ 128 in
  if v <? 0 then p ← PrintTo_uint128 (- uv mod 2 ^ 128); Ok ("-"%char :: p)
  else PrintTo_uint128 uv.

(** ** Strings *)

(** [IsXDigit] for any character type. *)
Definition IsXDigit_value (u_c : Z) : bool := (u_c <? 256) && IsXDigit (to_char u_c).

Fixpoint print_chars_loop (t : CharType) (begin : list Z) (is_previous_hex : bool)
    (print_format : CharFormat) : text * CharFormat :=
  match begin with
  | [] => ([quote], print_format)
  | cur :: begin =>
      let u_c := ToChar32 t cur in
      let break := if is_previous_hex && IsXDigit_value u_c
                   then quote :: " "%char :: GetCharWidthPrefix t ++ [quote] else [] in
      let '(literal, format) := PrintAsStringLiteralTo u_c in
      let is_previous_hex := bool_decide (format = kHexEscape) in
      let print_format := if is_previous_hex then kHexEscape else print_format in
      let '(rest, print_format) := print_chars_loop t begin is_previous_hex print_format in
      (break ++ literal ++ rest, print_format)
  end.
Definition PrintCharsAsStringTo (t : CharType) (begin : list Z) : text * CharFormat :=
  let '(out, print_format) := print_chars_loop t begin false kAsIs in
  (GetCharWidthPrefix t ++ quote :: out, print_format).

Definition UniversalPrintCharArray (t : CharType) (begin : list Z) : text :=
  match last begin with
  | Some c =>
      if c =? 0 then fst (PrintCharsAsStringTo t (take (length begin - 1) begin))
      else fst (PrintCharsAsStringTo t begin) ++ str " (no terminating NUL)"
  | None => fst (PrintCharsAsStringTo t begin) ++ str " (no terminating NUL)"
  end.

(** A C string at the address that prints as [address]; [s] are its characters. *)
Definition PrintCStringTo (t : CharType) (s : option (text * list Z)) : text :=
  match s with
  | None => str "NULL"
  | Some (address, s) => address ++ str " pointing to " ++ fst (PrintCharsAsStringTo t s)
  end.

(** ** UTF-8 *)

Definition iscntrl (ch : Z) : bool := (ch <? 32) || (ch =? 127).

Definition ContainsUnprintableControlCodes (s : text) : bool :=
  existsb (fun c => let ch := code c in
    iscntrl ch && negb ((ch =? 9) || (ch =? 10) || (ch =? 13))) s.

Definition IsUTF8TrailByte (t : Z) : bool := (128 <=? t) && (t <=? 191).

(** [IsValidUTF8] on the bytes from [i] on; [i + k <= length] is that the list
    has that many elements left. *)
Fixpoint IsValidUTF8_bytes (s : list Z) : bool :=
  match s with
  | [] => true
  | lead :: s =>
      if lead <=? 127 then IsValidUTF8_bytes s
      else if lead <? 194 then false
      else
        match s with
        | s0 :: s1' =>
            if (lead <=? 223) && IsUTF8TrailByte s0 then IsValidUTF8_bytes s1'
            else
              match s1' with
              | s1 :: s2' =>
                  if (224 <=? lead) && (lead <=? 239) && IsUTF8TrailByte s0 &&
                     IsUTF8TrailByte s1 && (negb (lead =? 224) || (160 <=? s0)) &&
                     (negb (lead =? 237) || (s0 <? 160))
                  then IsValidUTF8_bytes s2'
                  else
                    match s2' with
                    | s2 :: s3' =>
                        if (240 <=? lead) && (lead <=? 244) && IsUTF8TrailByte s0 &&
                           IsUTF8TrailByte s1 && IsUTF8TrailByte s2 &&
                           (negb (lead =? 240) || (144 <=? s0)) &&
                           (negb (lead =? 244) || (s0 <? 144))
                        then IsValidUTF8_bytes s3'
                        else false
                    | [] => false
                    end
              | [] => false
              end
        | [] => false
        end
  end.
Definition IsValidUTF8 (s : text) : bool := IsValidUTF8_bytes (map code s).

(** The text is printed through [operator<<] of a [const char*]. *)
Definition ConditionalPrintAsText (s : text) : text :=
  if negb (ContainsUnprintableControlCodes s) && IsValidUTF8 s
  then LF :: str "    As Text: " ++ quote :: c_str s ++ [quote] else [].

(** [print_utf8] is the flag --gtest_print_utf8. *)
Definition PrintStringTo (print_utf8 : bool) (s : text) : text :=
  let '(out, format) := PrintCharsAsStringTo char_type (map scode s) in
  if bool_decide (format = kHexEscape) && print_utf8
  then out ++ ConditionalPrintAsText s else out.

(** ** Decimal output of 128-bit integers *)

Lemma divide_by_10_spec high low :
  0 <= high < 2 ^ 64 -> 0 <= low < 2 ^ 64 ->
  exists high' low', divide_by_10 high low = ((high * 2 ^ 64 + low) mod 10, high', low') /\
    0 <= high' < 2 ^ 64 /\ 0 <= low' < 2 ^ 64 /\
    high' * 2 ^ 64 + low' = (high * 2 ^ 64 + low) / 10.
Proof.
  intros Hh Hl. unfold divide_by_10, u64. change (2 ^ 64) with 18446744073709551616 in *.
  set (h := high mod 10). assert (Hmod : 0 <= h < 10) by (apply Z.mod_pos_bound; lia).
  rewrite (Z.mod_small (6 * h)) by lia.
  set (l := low mod 10). assert (Hlmod : 0 <= l < 10) by (apply Z.mod_pos_bound; lia).
  rewrite (Z.mod_small (6 * h + l)) by lia.
  rewrite (Z.mod_small (h * 1844674407370955161)) by lia.
  assert (E : high = 10 * (high / 10) + h) by (apply Z.div_mod; lia).
  assert (E' : low = 10 * (low / 10) + l) by (apply Z.div_mod; lia).
  set (H := high / 10) in *. set (L := low / 10) in *.
  set (c := (6 * h + l) / 10).
  assert (Hc : 6 * h + l = 10 * c + (6 * h + l) mod 10) by (apply Z.div_mod; lia).
  set (d := (6 * h + l) mod 10) in *.
  assert (Hd : 0 <= d < 10) by (apply Z.mod_pos_bound; lia).
  rewrite (Z.mod_small (L + h * 1844674407370955161)) by lia.
  rewrite (Z.mod_small (L + h * 1844674407370955161 + c)) by lia.
  assert (Ev : high * 18446744073709551616 + low =
               10 * (H * 18446744073709551616 + (L + h * 1844674407370955161 + c)) + d) by lia.
  exists H, (L + h * 1844674407370955161 + c). rewrite Ev. split_and!; try lia.
  - do 2 f_equal. rewrite (Z.mul_comm 10), Z.add_comm, Z.mod_add, Z.mod_small by lia. done.
  - rewrite (Z.mul_comm 10), Z.div_add_l, (Z.div_small d) by lia. lia.
Qed.

Lemma print_u128_digits places fuel high low p :
  0 <= high < 2 ^ 64 -> 0 <= low < 2 ^ 64 -> 0 < high * 2 ^ 64 + low ->
  high * 2 ^ 64 + low < 10 ^ Z.of_nat places -> high * 2 ^ 64 + low < 2 ^ Z.of_nat fuel ->
  print_u128_loop places high low p = Ok (digits_loop fuel 10 (high * 2 ^ 64 + low) p).
Proof.
  revert fuel high low p; induction places as [|places IH];
    intros fuel high low p Hh Hl Hpos Hplaces Hfuel; [simpl in Hplaces; lia|].
  destruct fuel as [|fuel]; [simpl in Hfuel; lia|].
  destruct (divide_by_10_spec high low Hh Hl) as (h' & l' & Hdiv & Hh' & Hl' & Hq).
  cbn [print_u128_loop digits_loop]. rewrite Hdiv.
  set (v := high * 2 ^ 64 + low) in *.
  replace ((high =? 0) && (low =? 0)) with false.
  2: { symmetry. apply andb_false_iff. rewrite !Z.eqb_neq.
       destruct (Z.eq_dec high 0); [right|left]; lia. }
  assert (Hdc : to_char (48 + v mod 10) = digit_char (v mod 10)).
  { unfold digit_char. pose proof (Z.mod_pos_bound v 10 ltac:(lia)).
    rewrite (proj2 (Z.ltb_lt _ _)) by lia. done. }
  rewrite Hdc. destruct (Z.ltb_spec v 10).
  - rewrite Z.div_small in Hq by lia.
    assert (h' = 0) as -> by lia. assert (l' = 0) as -> by lia. by destruct places.
  - rewrite <- Hq. apply IH; try done; rewrite Hq.
    + apply Z.div_str_pos. lia.
    + apply Z.div_lt_upper_bound; [lia|]. rewrite Nat2Z.inj_succ, Z.pow_succ_r in Hplaces; lia.
    + rewrite Nat2Z.inj_succ, Z.pow_succ_r in Hfuel by lia.
      apply Z.div_lt_upper_bound; lia.
Qed.

Lemma PrintTo_uint128_dec v : 0 <= v < 2 ^ 128 -> PrintTo_uint128 v = Ok (dec v).
Proof.
  intros Hv. unfold PrintTo_uint128, dec. rewrite (proj2 (Z.ltb_ge v 0)) by lia.
  destruct (Z.eqb_spec v 0) as [->|H0]; [done|].
  assert (E : v / 2 ^ 64 * 2 ^ 64 + v mod 2 ^ 64 = v).
  { rewrite Z.mul_comm. symmetry. apply Z.div_mod. lia. }
  unfold digits.
  rewrite (print_u128_digits _ (S (Z.to_nat (Z.log2 v)))); rewrite ?E; try done.
  - change (2 ^ 128) with (2 ^ 64 * 2 ^ 64) in Hv. split; [apply Z.div_pos; lia|].
    apply Z.div_lt_upper_bound; lia.
  - apply Z.mod_pos_bound. lia.
  - lia.
  - eapply Z.lt_trans; [apply Hv|]. vm_compute. done.
  - rewrite Nat2Z.inj_succ, Z2Nat.id by apply Z.log2_nonneg.
    apply Z.log2_spec. lia.
Qed.

Lemma PrintTo_int128_dec v : - 2 ^ 127 <= v < 2 ^ 127 -> PrintTo_int128 v = Ok (dec v).
Proof.
  intros Hv. assert (H2 : 2 ^ 128 = 2 * 2 ^ 127) by done. unfold PrintTo_int128.
  destruct (Z.ltb_spec v 0).
  - assert (E : v mod 2 ^ 128 = v + 2 ^ 128).
    { symmetry. apply (Z.mod_unique v _ (-1)); lia. }
    assert (E' : (- (v + 2 ^ 128)) mod 2 ^ 128 = - v).
    { symmetry. apply (Z.mod_unique _ _ (-1)); lia. }
    rewrite E, E', PrintTo_uint128_dec by lia. simpl.
    unfold dec. rewrite (proj2 (Z.ltb_ge (- v) 0)), (proj2 (Z.ltb_lt v 0)) by lia. done.
  - rewrite Z.mod_small by lia. apply PrintTo_uint128_dec. lia.
Qed.

(** ** Reading a string literal *)

(** A lexer of C++ string literals of [char], one character at a time: adjacent
    literals are concatenated, a hexadecimal escape takes all the digits that
    follow it, an octal one up to three. *)
Inductive lexer : Type :=
  | Outside | Between | Inside | Escape
  | Hex (value : Z) | Octal (value : Z) (count : nat).

#[export] Instance lexer_eq_dec : EqDecision lexer.
Proof. solve_decision. Defined.

Definition xdigit_value (c : ascii) : Z :=
  if IsDigit c then code c - 48
  else if in_range "a" "f" c then code c - 87 else code c - 55.

(** Inside of the quotes, after a complete character. *)
Definition lex_inside (c : ascii) : lexer * list Z :=
  if bool_decide (c = quote) then (Outside, [])
  else if bool_decide (c = backslash) then (Escape, []) else (Inside, [code c]).

Definition simple_escape (c : ascii) : option Z :=
  if bool_decide (c = "'"%char) then Some 39
  else if bool_decide (c = quote) then Some 34
  else if bool_decide (c = backslash) then Some 92
  else if bool_decide (c = "a"%char) then Some 7
  else if bool_decide (c = "b"%char) then Some 8
  else if bool_decide (c = "f"%char) then Some 12
  else if bool_decide (c = "n"%char) then Some 10
  else if bool_decide (c = "r"%char) then Some 13
  else if bool_decide (c = "t"%char) then Some 9
  else if bool_decide (c = "v"%char) then Some 11 else None.

Definition is_octal (c : ascii) : bool := in_range "0" "7" c.

Definition lex (st : lexer) (c : ascii) : option (lexer * list Z) :=
  match st with
  | Outside => if bool_decide (c = " "%char) then Some (Between, []) else None
  | Between => if bool_decide (c = quote) then Some (Inside, []) else None
  | Inside => Some (lex_inside c)
  | Escape =>
      if bool_decide (c = "x"%char) then Some (Hex 0, [])
      else if is_octal c then Some (Octal (code c - 48) 1, [])
      else match simple_escape c with Some v => Some (Inside, [v]) | None => None end
  | Hex v =>
      if IsXDigit c then Some (Hex (v * 16 + xdigit_value c), [])
      else let '(st, out) := lex_inside c in Some (st, v :: out)
  | Octal v n =>
      if is_octal c && (n <? 3)%nat then Some (Octal (v * 8 + (code c - 48)) (S n), [])
      else let '(st, out) := lex_inside c in Some (st, v :: out)
  end.

(** The values read from [s], and where the lexer is then. *)
Fixpoint lex_text (st : lexer) (s : text) : option (lexer * list Z) :=
  match s with
  | [] => Some (st, [])
  | c :: s => '(st, out) ← lex st c; '(st, out') ← lex_text st s; Some (st, out ++ out')
  end.

(** [s] is a (sequence of) string literal(s) for the characters [l]. *)
Definition literal_of (s : text) (l : list Z) : Prop :=
  lex_text Between s = Some (Outside, l).

Lemma lex_text_app st s1 s2 :
  lex_text st (s1 ++ s2) =
  '(st, out) ← lex_text st s1; '(st, out') ← lex_text st s2; Some (st, out ++ out').
Proof.
  revert st; induction s1 as [|c s1 IH]; intros st; simpl.
  - by destruct (lex_text st s2) as [[]|].
  - destruct (lex st c) as [[st1 o1]|]; simpl; [|done]. rewrite IH.
    destruct (lex_text st1 s1) as [[st2 o2]|]; simpl; [|done].
    destruct (lex_text st2 s2) as [[st3 o3]|]; simpl; [|done]. by rewrite app_assoc.
Qed.

(** What is pending after the literal of a character. *)
Definition after (c : ascii) : lexer :=
  if bool_decide (c = NUL) then Octal 0 1
  else if bool_decide (snd (PrintAsStringLiteralTo (code c)) = kHexEscape) then Hex (code c)
  else Inside.
Definition pending (st : lexer) : list Z :=
  match st with Hex v => [v] | Octal v _ => [v] | _ => [] end.

Definition literal_head_ok (c h : ascii) : bool :=
  (IsXDigit c || negb (IsXDigit h)) && (is_octal c || negb (is_octal h)).

Definition literal_ok (c : ascii) : bool :=
  let l := fst (PrintAsStringLiteralTo (code c)) in
  bool_decide (lex_text Inside l = Some (after c, if bool_decide (pending (after c) = [])
                                                  then [code c] else [])) &&
  match l with h :: _ => literal_head_ok c h | [] => false end.

Lemma all_literals_ok c : literal_ok c = true.
Proof. revert c. apply every_char. vm_compute. reflexivity. Qed.

Lemma ToChar32_scode c : ToChar32 char_type (scode c) = code c.
Proof.
  unfold ToChar32, scode. simpl. change (2 ^ 8) with 256. pose proof (code_range c).
  destruct (Z.ltb_spec (code c) 128); [by rewrite Z.mod_small by lia|].
  symmetry. apply (Z.mod_unique _ _ (-1)); lia.
Qed.

(** [st] lets the next character [h] be read as inside of the quotes. *)
Definition ends_before (st : lexer) (h : ascii) : Prop :=
  match st with
  | Inside => True
  | Hex _ => IsXDigit h = false
  | Octal _ _ => is_octal h = false
  | _ => False
  end.

Lemma lex_text_pending st h s st' out :
  ends_before st h -> lex_text Inside (h :: s) = Some (st', out) ->
  lex_text st (h :: s) = Some (st', pending st ++ out).
Proof.
  destruct st; simpl; try done; intros E H; rewrite E; simpl;
    destruct (lex_inside h) as [st1 o1]; simpl in *;
    destruct (lex_text st1 s) as [[st2 o2]|]; simpl in *; try done;
    by injection H as -> <-.
Qed.

Lemma lex_literal st c :
  ends_before st c ->
  lex_text st (fst (PrintAsStringLiteralTo (code c))) =
  Some (after c, pending st ++ if bool_decide (pending (after c) = []) then [code c] else []).
Proof.
  intros E. pose proof (all_literals_ok c) as H. unfold literal_ok in H.
  apply andb_true_iff in H as [H Hh]. apply bool_decide_eq_true in H.
  destruct (fst (PrintAsStringLiteralTo (code c))) as [|h l]; [done|].
  apply lex_text_pending; [|exact H]. unfold literal_head_ok in Hh.
  apply andb_true_iff in Hh as [H1 H2].
  destruct st; simpl in *; try done; rewrite E in *; by apply negb_true_iff.
Qed.

Lemma pending_after c :
  (if bool_decide (pending (after c) = []) then [code c] else []) ++ pending (after c) = [code c].
Proof.
  unfold after. destruct (bool_decide (c = NUL)) eqn:E.
  - apply bool_decide_eq_true in E as ->. done.
  - by destruct (bool_decide (_ = kHexEscape)).
Qed.

(** No NUL before an octal digit. *)
Fixpoint no_ambiguous_NUL (s : text) : bool :=
  match s with
  | c :: s' => (negb (bool_decide (c = NUL)) ||
                match s' with d :: _ => negb (is_octal d) | [] => true end) &&
               no_ambiguous_NUL s'
  | [] => true
  end.

(** The loop in a state that agrees with the lexer. *)
Definition in_step (st : lexer) (is_previous_hex : bool) (s : text) : Prop :=
  match st with
  | Inside => is_previous_hex = false
  | Hex _ => is_previous_hex = true
  | Octal _ _ => is_previous_hex = false /\
      match s with d :: _ => is_octal d = false | [] => True end
  | _ => False
  end.

Lemma print_chars_loop_literal st hex f s :
  in_step st hex s -> no_ambiguous_NUL s = true ->
  lex_text st (fst (print_chars_loop char_type (map scode s) hex f)) =
  Some (Outside, pending st ++ map code s).
Proof.
  revert st hex f; induction s as [|c s IH]; intros st hex f Hst Hs.
  { simpl. destruct st; simpl in *; try done. }
  apply andb_true_iff in Hs as [Hc Hs]. cbn [map print_chars_loop].
  rewrite ToChar32_scode. change (GetCharWidthPrefix char_type ++ [quote]) with [quote].
  set (break := if hex && IsXDigit_value (code c) then _ else _).
  pose proof (lex_literal Inside c I) as Hlit0.
  pose proof (fun E => lex_literal st c E) as Hlit.
  destruct (PrintAsStringLiteralTo (code c)) as [lit fmt] eqn:Ep. cbn [fst] in *.
  specialize (IH (after c) (bool_decide (fmt = kHexEscape))
                 (if bool_decide (fmt = kHexEscape) then kHexEscape else f)).
  destruct (print_chars_loop _ _ _ _) as [rest pf]. cbn [fst] in *.
  assert (Hxd : IsXDigit_value (code c) = IsXDigit c).
  { unfold IsXDigit_value. rewrite to_char_code, (proj2 (Z.ltb_lt _ _)); [done|].
    apply code_range. }
  assert (Hbl : lex_text st (break ++ lit) = Some (after c,
             pending st ++ if bool_decide (pending (after c) = []) then [code c] else [])).
  { unfold break. rewrite Hxd. destruct (hex && IsXDigit c) eqn:Eh.
    - apply andb_true_iff in Eh as [-> Eh]. destruct st; simpl in Hst; try done.
      + rewrite lex_text_app.
        change (lex_text (Hex value) [quote; " "%char; quote]) with (Some (Inside, [value])).
        cbn [mbind option_bind]. by rewrite Hlit0.
      + by destruct Hst.
    - apply Hlit. destruct st; simpl in *; try done.
      + by subst hex.
      + by destruct Hst. }
  rewrite app_assoc, lex_text_app, Hbl. cbn.
  rewrite IH; [| |done].
  - cbn. change (code c :: map code s) with ([code c] ++ map code s).
    pose proof (pending_after c) as P. revert P.
    generalize (if bool_decide (pending (after c) = []) then [code c] else []).
    intros X P. by rewrite <- app_assoc, (app_assoc X), P.
  - unfold after. rewrite Ep. simpl.
    destruct (bool_decide (c = NUL)) eqn:En.
    + apply bool_decide_eq_true in En as ->. injection Ep as <- <-. simpl. split; [done|].
      destruct s; [done|]. simpl in Hc. by apply negb_true_iff.
    + by destruct (bool_decide (fmt = kHexEscape)).
Qed.

Lemma PrintStringTo_literal s :
  no_ambiguous_NUL s = true ->
  literal_of (PrintStringTo false s) (map code s).
Proof.
  intros Hs. unfold PrintStringTo, PrintCharsAsStringTo.
  pose proof (print_chars_loop_literal Inside false kAsIs s eq_refl Hs) as H.
  destruct (print_chars_loop _ _ _ _) as [out f]. rewrite andb_false_r.
  unfold literal_of. change (GetCharWidthPrefix char_type ++ quote :: out) with ([quote] ++ out).
  rewrite lex_text_app. change (lex_text Between [quote]) with (Some (Inside, @nil Z)).
  cbn [mbind option_bind fst] in *. by rewrite H.
Qed.

(** *** The text after the literal *)

Lemma print_chars_loop_format t cs hex f :
  snd (print_chars_loop t cs hex f) =
  if existsb (fun c => bool_decide (snd (PrintAsStringLiteralTo (ToChar32 t c)) = kHexEscape)) cs
  then kHexEscape else f.
Proof.
  revert hex f; induction cs as [|c cs IH]; intros hex f; cbn [print_chars_loop existsb]; [done|].
  destruct (PrintAsStringLiteralTo (ToChar32 t c)) as [lit fmt]. cbn [snd].
  specialize (IH (bool_decide (fmt = kHexEscape)) (if bool_decide (fmt = kHexEscape) then kHexEscape else f)).
  destruct (print_chars_loop t cs _ _) as [rest pf]. cbn [snd] in *. rewrite IH.
  destruct (bool_decide (fmt = kHexEscape)); cbn [orb]; by destruct (existsb _ cs).
Qed.

(** No control characters but tabulators and ends of lines. *)
Definition readable (c : ascii) : Prop := 32 <= code c /\ code c <> 127 \/ c = to_char 9 \/ c = LF \/ c = to_char 13.

Lemma control_codes_spec s : ContainsUnprintableControlCodes s = false <-> Forall readable s.
Proof.
  unfold ContainsUnprintableControlCodes, readable, iscntrl.
  assert (Hc : forall c n, 0 <= n < 256 -> (code c =? n) = true <-> c = to_char n).
  { intros c n Hn. rewrite Z.eqb_eq. split; [by intros <-; rewrite to_char_code|by intros ->; apply code_to_char]. }
  induction s as [|c s IH]; cbn [existsb]; [by split|]. rewrite orb_false_iff, IH, Forall_cons.
  apply and_iff_compat_r. rewrite andb_false_iff, negb_false_iff, !orb_true_iff, !Hc by lia.
  rewrite orb_false_iff, Z.ltb_ge, Z.eqb_neq. change (to_char 10) with LF. tauto.
Qed.

(** A readable character is escaped in hexadecimal exactly if it is not ASCII. *)
Lemma readable_hex c :
  readable c -> bool_decide (snd (PrintAsStringLiteralTo (code c)) = kHexEscape) = (128 <=? code c).
Proof.
  intros H%Forall_singleton%control_codes_spec. revert H.
  assert (Hall : forall c, ContainsUnprintableControlCodes [c] ||
    Bool.eqb (bool_decide (snd (PrintAsStringLiteralTo (code c)) = kHexEscape)) (128 <=? code c) = true)
    by (apply every_char; vm_compute; reflexivity).
  intros H. specialize (Hall c). rewrite H in Hall. by apply eqb_prop.
Qed.

(** The part that follows the literal. *)
Definition as_text (s : text) : text := LF :: str "    As Text: " ++ quote :: s ++ [quote].

Lemma readable_c_str s : Forall readable s -> c_str s = s.
Proof.
  induction 1 as [|c s Hc _ IH]; [done|]. cbn. case_bool_decide as E; [|by rewrite IH].
  subst c. destruct Hc as [[H _]|[H|[H|H]]]; [by vm_compute in H|done..].
Qed.

Lemma PrintStringTo_split print_utf8 s :
  PrintStringTo print_utf8 s = PrintStringTo false s ++
    (if print_utf8 && bool_decide (Forall readable s) && IsValidUTF8 s && existsb (fun c => 128 <=? code c) s
     then as_text s else []).
Proof.
  unfold PrintStringTo, PrintCharsAsStringTo.
  pose proof (print_chars_loop_format char_type (map scode s) false kAsIs) as Hf.
  destruct (print_chars_loop _ _ _ _) as [out f]. cbn [snd] in Hf. rewrite andb_false_r.
  destruct print_utf8; rewrite ?andb_false_r, ?andb_true_r; cbn [andb]; [|by rewrite app_nil_r].
  unfold ConditionalPrintAsText.
  destruct (ContainsUnprintableControlCodes s) eqn:Ec.
  { rewrite (bool_decide_false (Forall readable s)) by (intros H%control_codes_spec; congruence).
    cbn. rewrite app_nil_r. by destruct (bool_decide _). }
  apply control_codes_spec in Ec. rewrite (bool_decide_true (Forall readable s)) by done. cbn [negb andb].
  assert (Hx : bool_decide (f = kHexEscape) = existsb (fun c => 128 <=? code c) s).
  { assert (Hex : existsb (fun c => bool_decide (snd (PrintAsStringLiteralTo (ToChar32 char_type c)) = kHexEscape))
      (map scode s) = existsb (fun c => 128 <=? code c) s).
    { clear Hf. induction Ec as [|c s Hc _ IH]; [done|]. cbn [map existsb].
      by rewrite IH, ToChar32_scode, (readable_hex c Hc). }
    rewrite Hf, Hex. by destruct (existsb _ s). }
  rewrite Hx, readable_c_str by done. destruct (IsValidUTF8 s), (existsb _ s); cbn; rewrite ?app_nil_r; done.
Qed.

(** Arrays of characters, with and without the NUL at the end. *)
Lemma UniversalPrintCharArray_NUL s :
  UniversalPrintCharArray char_type (map scode s ++ [0]) = PrintStringTo false s.
Proof.
  unfold UniversalPrintCharArray, PrintStringTo. rewrite last_snoc, length_app, Nat.add_sub, take_app_length.
  destruct (PrintCharsAsStringTo _ _) as [out f]. by rewrite andb_false_r.
Qed.
Lemma UniversalPrintCharArray_open s :
  last s <> Some NUL ->
  UniversalPrintCharArray char_type (map scode s) = PrintStringTo false s ++ str " (no terminating NUL)".
Proof.
  intros H. unfold UniversalPrintCharArray, PrintStringTo. change (map scode s) with (scode <$> s).
  rewrite fmap_last. destruct (PrintCharsAsStringTo char_type (scode <$> s)) as [out f]. rewrite andb_false_r.
  destruct (last s) as [c|]; [|done]. cbn. destruct (scode c =? 0) eqn:E; [|done].
  exfalso. apply H. f_equal. apply Z.eqb_eq in E. rewrite <- (to_char_code c). unfold scode in E.
  pose proof (code_range c). destruct (code c <? 128) eqn:E2; [by rewrite E|]. lia.
Qed.
