(* ===== verification/Utf8.v ===== *)
(** * UTF-8 (gtest.cc: CodePointToUtf8, WideStringToUtf8)

    A code point is an unsigned 32-bit integer, a wide string the list of its
    characters.  The size of [wchar_t] is a parameter, as in the code: 4 on
    Linux, 2 where wide strings are UTF-16. *)

From S2P Require Import Prelude Outcome Common CStr Printers.

Definition kMaxCodePoint1 : Z := Z.shiftl 1 7 - 1.
Definition kMaxCodePoint2 : Z := Z.shiftl 1 (5 + 6) - 1.
Definition kMaxCodePoint3 : Z := Z.shiftl 1 (4 + 2 * 6) - 1.
Definition kMaxCodePoint4 : Z := Z.shiftl 1 (3 + 3 * 6) - 1.

(** The low bits and what is left of the pattern. *)
Definition ChopLowBits (bits n : Z) : Z * Z :=
  (Z.land bits (Z.shiftl 1 n - 1), Z.shiftr bits n).

(** The bytes of a code point up to [kMaxCodePoint4]. *)
Definition utf8_bytes (code_point : Z) : list Z :=
  if code_point <=? kMaxCodePoint1 then [code_point]
  else if code_point <=? kMaxCodePoint2 then
    let '(low1, code_point) := ChopLowBits code_point 6 in
    [Z.lor 192 code_point; Z.lor 128 low1]
  else if code_point <=? kMaxCodePoint3 then
    let '(low2, code_point) := ChopLowBits code_point 6 in
    let '(low1, code_point) := ChopLowBits code_point 6 in
    [Z.lor 224 code_point; Z.lor 128 low1; Z.lor 128 low2]
  else
    let '(low3, code_point) := ChopLowBits code_point 6 in
    let '(low2, code_point) := ChopLowBits code_point 6 in
    let '(low1, code_point) := ChopLowBits code_point 6 in
    [Z.lor 240 code_point; Z.lor 128 low1; Z.lor 128 low2; Z.lor 128 low3].

(** [return str] converts a NUL-terminated array, so U+0000 gives the empty
    string. *)
Definition CodePointToUtf8 (code_point : Z) : text :=
  if kMaxCodePoint4 <? code_point
  then str "(Invalid Unicode 0x" ++ Gtest_String.FormatHexUInt32 code_point ++ str ")"
  else c_str (map to_char (utf8_bytes code_point)).

Section wide.
Variable sizeof_wchar : Z.

(** [static_cast<uint32_t>] of a wide character. *)
Definition to_uint32 (c : Z) : Z := c mod 2 ^ 32.

Definition IsUtf16SurrogatePair (first second : Z) : bool :=
  (sizeof_wchar =? 2) && (Z.land first 64512 =? 55296) && (Z.land second 64512 =? 56320).

Definition CreateCodePointFromUtf16SurrogatePair (first second : Z) : Z :=
  let first_u := to_uint32 first in
  let second_u := to_uint32 second in
  let mask := Z.shiftl 1 10 - 1 in
  if sizeof_wchar =? 2
  then Z.lor (Z.shiftl (Z.land first_u mask) 10) (Z.land second_u mask) + 65536
  else first_u.

(** The loop over the [num_chars] characters of [str]. *)
Fixpoint wide_loop (str : list Z) : text :=
  match str with
  | [] => []
  | c :: rest =>
      if c =? 0 then []
      else match rest with
           | d :: rest' =>
               if IsUtf16SurrogatePair c d
               then CodePointToUtf8 (CreateCodePointFromUtf16SurrogatePair c d) ++ wide_loop rest'
               else CodePointToUtf8 (to_uint32 c) ++ wide_loop rest
           | [] => CodePointToUtf8 (to_uint32 c) ++ wide_loop rest
           end
  end.

(** [num_chars] = -1 stands for the whole string. *)
Definition WideStringToUtf8 (str : list Z) (num_chars : Z) : text :=
  StringStreamToString
    (wide_loop (if num_chars =? -1 then str else take (Z.to_nat num_chars) str)).

Definition ShowWideCString (wide_c_str : option (list Z)) : text :=
  match wide_c_str with
  | None => CStr.str "(null)"
  | Some s => WideStringToUtf8 s (-1)
  end.

(** Characters before the terminating NUL. *)
Fixpoint wide_c_str (s : list Z) : list Z :=
  match s with
  | c :: s => if c =? 0 then [] else c :: wide_c_str s
  | [] => []
  end.

Definition WideCStringEquals (lhs rhs : option (list Z)) : bool :=
  match lhs, rhs with
  | None, None => true
  | Some l, Some r => bool_decide (wide_c_str l = wide_c_str r)
  | _, _ => false
  end.

(** [StreamWideCharsToMessage]: pieces between NULs; a NUL is streamed as it is.
    The inner loop skips the characters that [WideStringToUtf8] has converted. *)
Fixpoint stream_wide (in_piece : bool) (wstr : list Z) : text :=
  match wstr with
  | [] => []
  | c :: rest =>
      if c =? 0 then NUL :: stream_wide false rest
      else (if in_piece then [] else WideStringToUtf8 wstr (Z.of_nat (length wstr))) ++
           stream_wide true rest
  end.
Definition StreamWideCharsToMessage (wstr : list Z) : text := stream_wide false wstr.

End wide.

(** ** The encoding of Unicode scalar values *)

(** A code point that is no surrogate. *)
Definition scalar (cp : Z) : Prop :=
  0 <= cp <= 1114111 /\ ~ (55296 <= cp <= 57343).

(** The same bytes, in arithmetic (the table of RFC 3629). *)
Definition rfc3629 (cp : Z) : list Z :=
  if cp <? 128 then [cp]
  else if cp <? 2048 then [192 + cp / 64; 128 + cp mod 64]
  else if cp <? 65536 then [224 + cp / 4096; 128 + cp / 64 mod 64; 128 + cp mod 64]
  else [240 + cp / 262144; 128 + cp / 4096 mod 64; 128 + cp / 64 mod 64; 128 + cp mod 64].

Lemma chop_six cp : ChopLowBits cp 6 = (cp mod 64, cp / 64).
Proof.
  unfold ChopLowBits. rewrite Z.shiftr_div_pow2 by lia. f_equal.
  change (Z.shiftl 1 6 - 1) with (Z.ones 6). rewrite Z.land_ones by lia. done.
Qed.

Lemma lor_add x y k n : 0 <= n -> x = k * 2 ^ n -> 0 <= y < 2 ^ n -> Z.lor x y = x + y.
Proof. intros Hn -> Hy. by apply lor_disjoint. Qed.

Lemma utf8_bytes_rfc cp : 0 <= cp <= kMaxCodePoint4 -> utf8_bytes cp = rfc3629 cp.
Proof.
  change kMaxCodePoint4 with 2097151. intros H. unfold utf8_bytes, rfc3629.
  change kMaxCodePoint1 with 127. change kMaxCodePoint2 with 2047.
  change kMaxCodePoint3 with 65535. rewrite !chop_six.
  rewrite (lor_add 128 (cp mod 64) 2 6), (lor_add 128 (cp / 64 mod 64) 2 6),
    (lor_add 128 (cp / 64 / 64 mod 64) 2 6)
    by (lia || change (2 ^ 6) with 64; Z.to_euclidean_division_equations; lia).
  rewrite !Z.div_div by lia.
  change (64 * 64) with 4096. change (4096 * 64) with 262144.
  repeat zcase; try lia; [done|..]; f_equal.
  - apply (lor_add 192 _ 6 5); [lia|done|].
    change (2 ^ 5) with 32. Z.to_euclidean_division_equations; lia.
  - apply (lor_add 224 _ 14 4); [lia|done|].
    change (2 ^ 4) with 16. Z.to_euclidean_division_equations; lia.
  - apply (lor_add 240 _ 30 3); [lia|done|].
    change (2 ^ 3) with 8. Z.to_euclidean_division_equations; lia.
Qed.

(** Decides the tests of the checker on bytes about which [lia] knows enough. *)
Ltac zcases := unfold IsUTF8TrailByte; repeat (zcase; try lia); cbn [andb orb negb]; try done.

Lemma valid_one a s : 0 <= a < 128 -> IsValidUTF8_bytes (a :: s) = IsValidUTF8_bytes s.
Proof. intros H. cbn [IsValidUTF8_bytes]. zcases. Qed.

Definition trail (b : Z) : Prop := 128 <= b < 192.

Lemma valid_two a b s :
  194 <= a < 224 -> trail b -> IsValidUTF8_bytes (a :: b :: s) = IsValidUTF8_bytes s.
Proof. unfold trail. intros Ha Hb. cbn [IsValidUTF8_bytes]. zcases. Qed.

Lemma valid_three a b c s :
  224 <= a < 240 -> trail b -> trail c -> (a = 224 -> 160 <= b) -> (a = 237 -> b < 160) ->
  IsValidUTF8_bytes (a :: b :: c :: s) = IsValidUTF8_bytes s.
Proof. unfold trail. intros Ha Hb Hc H1 H2. cbn [IsValidUTF8_bytes]. zcases. Qed.

Lemma valid_four a b c d s :
  240 <= a <= 244 -> trail b -> trail c -> trail d ->
  (a = 240 -> 144 <= b) -> (a = 244 -> b < 144) ->
  IsValidUTF8_bytes (a :: b :: c :: d :: s) = IsValidUTF8_bytes s.
Proof. unfold trail. intros Ha Hb Hc Hd H1 H2. cbn [IsValidUTF8_bytes]. zcases. Qed.

(** The checker steps over an encoded scalar value. *)
Lemma IsValidUTF8_encoded cp s :
  scalar cp -> IsValidUTF8_bytes (rfc3629 cp ++ s) = IsValidUTF8_bytes s.
Proof.
  intros [Hr Hs]. unfold rfc3629. repeat zcase; cbn [app].
  - apply valid_one. lia.
  - apply valid_two; unfold trail; Z.to_euclidean_division_equations; lia.
  - apply valid_three; unfold trail; Z.to_euclidean_division_equations; lia.
  - apply valid_four; unfold trail; Z.to_euclidean_division_equations; lia.
Qed.

(** What the checker accepts begins with an encoded scalar value. *)
Definition begins_encoded (bs : list Z) : Prop :=
  exists cp rest, scalar cp /\ bs = rfc3629 cp ++ rest /\ IsValidUTF8_bytes rest = true /\
    (length rest < length bs)%nat.

Lemma begins_intro cp bs rest n :
  scalar cp -> firstn n bs = rfc3629 cp -> rest = skipn n bs -> bs <> [] ->
  IsValidUTF8_bytes rest = true -> begins_encoded bs.
Proof.
  intros Hc Hn -> Hne Hv. exists cp, (drop n bs). split_and!; try done.
  - rewrite <- Hn. symmetry. apply take_drop.
  - rewrite length_drop. assert (n <> O).
    { intros ->. rewrite take_0 in Hn. symmetry in Hn. unfold rfc3629 in Hn.
      repeat case_match; done. }
    destruct bs; simpl in *; [done | lia].
Qed.

Lemma IsValidUTF8_begins b bs :
  Forall (fun b => 0 <= b < 256) (b :: bs) -> IsValidUTF8_bytes (b :: bs) = true ->
  begins_encoded (b :: bs).
Proof.
  intros Hb H. decompose_Forall_hyps. cbn [IsValidUTF8_bytes] in H.
  destruct (Z.leb_spec b 127).
  { apply (begins_intro b _ bs 1); try done; [unfold scalar; lia|].
    unfold rfc3629. rewrite (proj2 (Z.ltb_lt _ _)) by lia. done. }
  destruct (Z.ltb_spec b 194); [done|].
  destruct bs as [|b1 bs]; [done|]. decompose_Forall_hyps.
  destruct ((b <=? 223) && IsUTF8TrailByte b1) eqn:E2.
  { unfold IsUTF8TrailByte in E2. rewrite !andb_true_iff, !Z.leb_le in E2.
    assert (Hcp : rfc3629 ((b - 192) * 64 + (b1 - 128)) = [b; b1]).
    { unfold rfc3629. repeat (zcase; try lia). f_equal; [|f_equal];
        Z.to_euclidean_division_equations; lia. }
    apply (begins_intro ((b - 192) * 64 + (b1 - 128)) _ bs 2); try done.
    unfold scalar. lia. }
  clear E2. destruct bs as [|b2 bs]; [done|]. decompose_Forall_hyps.
  destruct ((224 <=? b) && (b <=? 239) && IsUTF8TrailByte b1 && IsUTF8TrailByte b2 &&
            (negb (b =? 224) || (160 <=? b1)) && (negb (b =? 237) || (b1 <? 160))) eqn:E3.
  { unfold IsUTF8TrailByte in E3.
    rewrite !andb_true_iff, !orb_true_iff, !negb_true_iff, !Z.leb_le, Z.ltb_lt, !Z.eqb_neq in E3.
    assert (Hcp : rfc3629 ((b - 224) * 4096 + (b1 - 128) * 64 + (b2 - 128)) = [b; b1; b2]).
    { unfold rfc3629. repeat (zcase; try lia). f_equal; [|f_equal; [|f_equal]];
        Z.to_euclidean_division_equations; lia. }
    apply (begins_intro ((b - 224) * 4096 + (b1 - 128) * 64 + (b2 - 128)) _ bs 3); try done.
    unfold scalar. lia. }
  clear E3. destruct bs as [|b3 bs]; [done|]. decompose_Forall_hyps.
  destruct (_ && _) eqn:E4 in H; [|done].
  unfold IsUTF8TrailByte in E4.
  rewrite !andb_true_iff, !orb_true_iff, !negb_true_iff, !Z.leb_le, Z.ltb_lt, !Z.eqb_neq in E4.
  set (cp := (b - 240) * 262144 + (b1 - 128) * 4096 + (b2 - 128) * 64 + (b3 - 128)).
  assert (Hcp : rfc3629 cp = [b; b1; b2; b3]).
  { unfold rfc3629, cp. repeat (zcase; try lia). f_equal; [|f_equal; [|f_equal; [|f_equal]]];
      Z.to_euclidean_division_equations; lia. }
  apply (begins_intro cp _ bs 4); try done. unfold scalar, cp. lia.
Qed.

(** ** Strings of encoded code points *)

Definition encode (cps : list Z) : text :=
  concat (map (fun cp => map to_char (utf8_bytes cp)) cps).

Lemma rfc3629_range cp : 0 <= cp <= kMaxCodePoint4 -> Forall (fun b => 0 <= b < 256) (rfc3629 cp).
Proof.
  change kMaxCodePoint4 with 2097151. intros H. unfold rfc3629.
  repeat zcase; repeat constructor; Z.to_euclidean_division_equations; lia.
Qed.

Lemma rfc3629_nonzero cp : 0 < cp <= kMaxCodePoint4 -> Forall (fun b => b <> 0) (rfc3629 cp).
Proof.
  change kMaxCodePoint4 with 2097151. intros H. unfold rfc3629.
  repeat zcase; repeat constructor; Z.to_euclidean_division_equations; lia.
Qed.

Lemma scalar_max cp : scalar cp -> 0 <= cp <= kMaxCodePoint4.
Proof. unfold scalar. change kMaxCodePoint4 with 2097151. lia. Qed.

Lemma map_code_to_char bs : Forall (fun b => 0 <= b < 256) bs -> map code (map to_char bs) = bs.
Proof. induction 1; simpl; [done|]. by rewrite code_to_char, IHForall. Qed.

Lemma map_to_char_code s : map to_char (map code s) = s.
Proof. induction s; simpl; [done|]. by rewrite to_char_code, IHs. Qed.

Lemma encode_cons cp cps :
  scalar cp -> map code (encode (cp :: cps)) = rfc3629 cp ++ map code (encode cps).
Proof.
  intros H%scalar_max. unfold encode. simpl. rewrite map_app. f_equal.
  rewrite utf8_bytes_rfc by done. by apply map_code_to_char, rfc3629_range.
Qed.

Lemma encode_valid cps : Forall scalar cps -> IsValidUTF8 (encode cps) = true.
Proof.
  unfold IsValidUTF8. induction 1 as [|cp cps Hcp _ IH]; [done|].
  by rewrite encode_cons, IsValidUTF8_encoded.
Qed.

Lemma valid_encode s : IsValidUTF8 s = true -> exists cps, Forall scalar cps /\ s = encode cps.
Proof.
  unfold IsValidUTF8. remember (length s) as n eqn:Hn. revert s Hn.
  induction (lt_wf n) as [n _ IH]. intros [|c s] -> H; [by exists []|].
  destruct (IsValidUTF8_begins (code c) (map code s)) as (cp & rest & Hcp & Heq & Hr & Hl);
    [|done|].
  { constructor; [apply code_range|]. apply Forall_forall.
    intros b (d & -> & _)%list_elem_of_fmap. apply code_range. }
  destruct (IH (length rest)) with (s := map to_char rest) as (cps & Hcps & Hrest).
  - simpl in *. rewrite length_map in Hl. lia.
  - by rewrite length_map.
  - rewrite map_code_to_char; [done|].
    assert (Hall : Forall (fun b => 0 <= b < 256) (rfc3629 cp ++ rest)).
    { rewrite <- Heq. change (code c :: map code s) with (map code (c :: s)).
      apply Forall_forall. intros b (d & -> & _)%list_elem_of_fmap. apply code_range. }
    by apply Forall_app in Hall as [_ Hall].
  - exists (cp :: cps). split; [by constructor|].
    rewrite <- (map_to_char_code (c :: s)). simpl map at 2. rewrite Heq, map_app.
    unfold encode. simpl. rewrite utf8_bytes_rfc by by apply scalar_max.
    by rewrite Hrest.
Qed.

Lemma IsValidUTF8_spec s : IsValidUTF8 s = true <-> exists cps, Forall scalar cps /\ s = encode cps.
Proof. split; [apply valid_encode|]. intros (cps & Hcps & ->). by apply encode_valid. Qed.

Lemma CodePointToUtf8_encoded cp :
  0 < cp <= kMaxCodePoint4 -> CodePointToUtf8 cp = map to_char (utf8_bytes cp).
Proof.
  intros H. unfold CodePointToUtf8. rewrite (proj2 (Z.ltb_ge _ _)) by lia.
  apply c_str_id. rewrite utf8_bytes_rfc by lia.
  pose proof (rfc3629_nonzero cp H) as H0. pose proof (rfc3629_range cp ltac:(lia)) as Hr.
  intros (b & Hb & Hin)%list_elem_of_fmap.
  rewrite Forall_forall in H0, Hr. apply (H0 b Hin).
  rewrite <- (code_to_char b) by by apply Hr. by rewrite <- Hb.
Qed.

Lemma wide_loop_encode cps :
  Forall (fun cp => scalar cp /\ cp <> 0) cps -> wide_loop 4 cps = encode cps.
Proof.
  induction 1 as [|cp cps [Hcp H0] Hcps IH]; [done|].
  pose proof (scalar_max cp Hcp) as Hm.
  assert (E : wide_loop 4 (cp :: cps) = CodePointToUtf8 (to_uint32 cp) ++ wide_loop 4 cps).
  { simpl. rewrite (proj2 (Z.eqb_neq _ _)) by done. by destruct cps. }
  rewrite E, IH. unfold encode. simpl. f_equal. unfold to_uint32.
  change kMaxCodePoint4 with 2097151 in Hm.
  rewrite Z.mod_small by (change (2 ^ 32) with 4294967296; lia).
  apply CodePointToUtf8_encoded. change kMaxCodePoint4 with 2097151. lia.
Qed.

Lemma encode_NUL_free cps : Forall (fun cp => scalar cp /\ cp <> 0) cps -> NUL ∉ encode cps.
Proof.
  intros H Hin. apply (list_elem_of_fmap_2 code) in Hin. revert Hin.
  induction H as [|cp cps [Hcp H0] _ IH]; [apply not_elem_of_nil|].
  change (code <$> encode (cp :: cps)) with (map code (encode (cp :: cps))).
  rewrite encode_cons by done. intros [Hin|Hin]%elem_of_app; [|by apply IH].
  pose proof (rfc3629_nonzero cp) as Hn. rewrite Forall_forall in Hn.
  pose proof (scalar_max cp Hcp). apply (Hn ltac:(lia) _ Hin). done.
Qed.

Lemma StringStreamToString_id s : NUL ∉ s -> StringStreamToString s = s.
Proof.
  unfold StringStreamToString. induction s as [|c s IH]; [done|]. simpl. intros H.
  rewrite bool_decide_false by set_solver. simpl. f_equal. apply IH. set_solver.
Qed.
