(* ===== verification/SimpleRegex.v ===== *)
(** * The simple regular expressions of GoogleTest (gtest-port.cc)

    The matcher that the library falls back on where POSIX regular expressions
    are missing (GTEST_USES_SIMPLE_RE).  A C string is the list of its
    characters, none of which is NUL; a pointer into it is the rest of the list
    from there.  Reading past the terminating NUL is the fault [InvalidDeref]. *)

From S2P Require Import Prelude Outcome Common CStr.

(** ** Characters and atoms *)

Definition IsInSet (ch : ascii) (s : text) : bool :=
  negb (bool_decide (ch = NUL)) && bool_decide (ch ∈ s).

Definition IsAsciiDigit (ch : ascii) : bool := in_range "0" "9" ch.
Definition IsAsciiPunct (ch : ascii) : bool :=
  IsInSet ch (str "^-!" ++ "034"%char :: str "#$%&'()*+,./:;<=>?@[\]_`{|}~").
Definition IsRepeat (ch : ascii) : bool := IsInSet ch (str "?*+").
Definition IsAsciiWhiteSpace (ch : ascii) : bool :=
  IsInSet ch [" "; "012"; "010"; "013"; "009"; "011"]%char.
Definition IsAsciiWordChar (ch : ascii) : bool :=
  in_range "a" "z" ch || in_range "A" "Z" ch || in_range "0" "9" ch ||
  bool_decide (ch = "_"%char).

Definition IsValidEscape (c : ascii) : bool :=
  IsAsciiPunct c || IsInSet c (str "dDfnrsStvwW").

Definition is_char (c d : ascii) : bool := bool_decide (c = d).

Definition AtomMatchesChar (escaped : bool) (pattern_char ch : ascii) : bool :=
  if escaped then
    if is_char pattern_char "d" then IsAsciiDigit ch
    else if is_char pattern_char "D" then negb (IsAsciiDigit ch)
    else if is_char pattern_char "f" then is_char ch "012"
    else if is_char pattern_char "n" then is_char ch "010"
    else if is_char pattern_char "r" then is_char ch "013"
    else if is_char pattern_char "s" then IsAsciiWhiteSpace ch
    else if is_char pattern_char "S" then negb (IsAsciiWhiteSpace ch)
    else if is_char pattern_char "t" then is_char ch "009"
    else if is_char pattern_char "v" then is_char ch "011"
    else if is_char pattern_char "w" then IsAsciiWordChar ch
    else if is_char pattern_char "W" then negb (IsAsciiWordChar ch)
    else IsAsciiPunct pattern_char && is_char pattern_char ch
  else (is_char pattern_char "." && negb (is_char ch "010")) || is_char pattern_char ch.

(** ** Validation *)

Definition FormatRegexSyntaxError (regex : text) (index : Z) : text :=
  str "Syntax error at index " ++ dec index ++ str " in simple regular expression " ++
  "034"%char :: regex ++ "034"%char :: str ": ".

(** The loop of [ValidateRegex] from index [i] on; the failures it adds are
    collected. *)
Fixpoint validate_loop (regex : text) (rest : text) (i : Z) (prev_repeatable is_valid : bool)
    (failures : list text) : bool * list text :=
  match rest with
  | [] => (is_valid, failures)
  | ch :: rest =>
      if is_char ch "\" then
        match rest with
        | [] => (false, failures ++ [FormatRegexSyntaxError regex i ++
                                     str "'\' cannot appear at the end."])
        | c :: rest =>
            if IsValidEscape c then validate_loop regex rest (i + 2) true is_valid failures
            else validate_loop regex rest (i + 2) true false
                   (failures ++ [FormatRegexSyntaxError regex i ++
                      str "invalid escape sequence " ++ "034"%char :: str "\" ++
                      c :: "034"%char :: str "."])
        end
      else
        let next := negb (IsInSet ch (str "^$?*+")) in
        let fail message := validate_loop regex rest (i + 1) next false
                              (failures ++ [FormatRegexSyntaxError regex i ++ message]) in
        if is_char ch "^" && (0 <? i) then fail (str "'^' can only appear at the beginning.")
        else if is_char ch "$" && negb (bool_decide (rest = []))
        then fail (str "'$' can only appear at the end.")
        else if IsInSet ch (str "()[]{}|") then fail (str "'" ++ ch :: str "' is unsupported.")
        else if IsRepeat ch && negb prev_repeatable
        then fail (str "'" ++ ch :: str "' can only follow a repeatable token.")
        else validate_loop regex rest (i + 1) next is_valid failures
  end.
Definition ValidateRegex (regex : option text) : bool * list text :=
  match regex with
  | None => (false, [str "NULL is not a valid simple regular expression."])
  | Some regex => validate_loop regex regex 0 false true []
  end.

(** ** Matching *)

(** [MatchRepetitionAndRegexAtHead]: [tail] matches the regular expression that
    follows the repeated atom, [i] characters have matched the atom already.
    [max_count] is [None] for the largest value of [size_t]. *)
Fixpoint repetition_loop (min_count : nat) (max_count : option nat) (escaped : bool) (c : ascii)
    (tail : text -> outcome bool) (i : nat) (s : text) : outcome bool :=
  found ← (if (min_count <=? i)%nat then tail s else Ok false);
  if found : bool then Ok true
  else match s with
       | [] => Ok false
       | ch :: s =>
           if negb (AtomMatchesChar escaped c ch) then Ok false
           else if bool_decide (max_count = Some i) then Ok false
           else repetition_loop min_count max_count escaped c tail (S i) s
       end.
Definition MatchRepetitionAndRegexAtHead (escaped : bool) (c repeat : ascii)
    (tail : text -> outcome bool) (s : text) : outcome bool :=
  repetition_loop (if is_char repeat "+" then 1 else 0) (if is_char repeat "?" then Some 1%nat else None)
    escaped c tail 0 s.

(** The case of an atom without repetition. *)
Definition match_atom (escaped : bool) (c : ascii) (tail : text -> outcome bool) (s : text)
    : outcome bool :=
  match s with
  | [] => Ok false
  | ch :: s => if AtomMatchesChar escaped c ch then tail s else Ok false
  end.

Fixpoint MatchRegexAtHead (regex : text) (s : text) {struct regex} : outcome bool :=
  match regex with
  | [] => Ok true
  | c0 :: rest0 =>
      if is_char c0 "$" then Ok (bool_decide (s = []))
      else if is_char c0 "\" then
        match rest0 with
        | [] => Err InvalidDeref
        | c :: rest =>
            match rest with
            | repeat :: rest' =>
                if IsRepeat repeat
                then MatchRepetitionAndRegexAtHead true c repeat (MatchRegexAtHead rest') s
                else match_atom true c (MatchRegexAtHead rest) s
            | [] => match_atom true c (MatchRegexAtHead rest) s
            end
        end
      else
        match rest0 with
        | repeat :: rest' =>
            if IsRepeat repeat
            then MatchRepetitionAndRegexAtHead false c0 repeat (MatchRegexAtHead rest') s
            else match_atom false c0 (MatchRegexAtHead rest0) s
        | [] => match_atom false c0 (MatchRegexAtHead rest0) s
        end
  end.

(** The [do ... while] of [MatchRegexAnywhere]. *)
Fixpoint anywhere_loop (regex s : text) : outcome bool :=
  found ← MatchRegexAtHead regex s;
  if found : bool then Ok true
  else match s with
       | [] => Ok false
       | _ :: s => anywhere_loop regex s
       end.
Definition MatchRegexAnywhere (regex s : option text) : outcome bool :=
  match regex, s with
  | Some (c :: rest), Some s =>
      if is_char c "^" then MatchRegexAtHead rest s else anywhere_loop (c :: rest) s
  | Some [], Some s => anywhere_loop [] s
  | _, _ => Ok false
  end.

(** ** The class [RE] *)

Record RE : Type := mkRE { pattern_ : text; full_pattern_ : text; is_valid_ : bool }.

(** [RE::Init]; the failures are those of [ValidateRegex]. *)
Definition RE_Init (regex : option text) : RE * list text :=
  let pattern := match regex with Some regex => regex | None => [] end in
  let '(is_valid, failures) := ValidateRegex regex in
  let full :=
    if negb is_valid then []
    else (if bool_decide (head pattern = Some "^"%char) then [] else str "^") ++ pattern ++
         (if bool_decide (last pattern = Some "$"%char) then [] else str "$") in
  (mkRE pattern full is_valid, failures).

Definition FullMatch (s : option text) (re : RE) : outcome bool :=
  if is_valid_ re then MatchRegexAnywhere (Some (full_pattern_ re)) s else Ok false.
Definition PartialMatch (s : option text) (re : RE) : outcome bool :=
  if is_valid_ re then MatchRegexAnywhere (Some (pattern_ re)) s else Ok false.

(** ** What a regular expression means *)

(** An atom and how often it is repeated. *)
Inductive repetition : Type := once | optional | any_number | at_least_one.
Record token : Type := mkToken { tk_escaped : bool; tk_char : ascii; tk_rep : repetition }.

Definition atom_matches (t : token) (ch : ascii) : Prop :=
  AtomMatchesChar (tk_escaped t) (tk_char t) ch = true.

Definition count_ok (r : repetition) (n : nat) : Prop :=
  match r with
  | once => n = 1%nat | optional => (n <= 1)%nat | any_number => True
  | at_least_one => (1 <= n)%nat
  end.

(** The language of a list of tokens. *)
Fixpoint language (tokens : list token) (s : text) : Prop :=
  match tokens with
  | [] => s = []
  | t :: tokens => exists s1 s2, s = s1 ++ s2 /\ Forall (atom_matches t) s1 /\
                     count_ok (tk_rep t) (length s1) /\ language tokens s2
  end.

Definition repetition_of (c : ascii) : option repetition :=
  if is_char c "?" then Some optional
  else if is_char c "*" then Some any_number
  else if is_char c "+" then Some at_least_one else None.

(** The tokens of a regular expression after the '^', and whether a '$' ends it. *)
Fixpoint tokens_of (regex : text) : option (list token * bool) :=
  match regex with
  | [] => Some ([], false)
  | c0 :: rest0 =>
      if is_char c0 "$" then match rest0 with [] => Some ([], true) | _ => None end
      else
        let continue esc c rest :=
          match rest with
          | r :: rest' =>
              match repetition_of r with
              | Some rep => '(ts, e) ← tokens_of rest'; Some (mkToken esc c rep :: ts, e)
              | None => '(ts, e) ← tokens_of rest; Some (mkToken esc c once :: ts, e)
              end
          | [] => '(ts, e) ← tokens_of rest; Some (mkToken esc c once :: ts, e)
          end in
        if is_char c0 "\" then match rest0 with c :: rest => continue true c rest | [] => None end
        else continue false c0 rest0
  end.

(** A prefix of [s] is in the language, all of [s] if a '$' ends the expression. *)
Definition prefix_language (tokens : list token) (ends : bool) (s : text) : Prop :=
  exists s1 s2, s = s1 ++ s2 /\ language tokens s1 /\ (ends = true -> s2 = []).

(** A regular expression, with an optional '^' at the beginning. *)
Definition anchored (regex : text) : bool := bool_decide (head regex = Some "^"%char).
Definition body (regex : text) : text := if anchored regex then tail regex else regex.

Definition matches_somewhere (regex s : text) : Prop :=
  exists tokens ends s0 s',
    tokens_of (body regex) = Some (tokens, ends) /\ s = s0 ++ s' /\
    (anchored regex = true -> s0 = []) /\ prefix_language tokens ends s'.
Definition matches_entirely (regex s : text) : Prop :=
  exists tokens ends, tokens_of (body regex) = Some (tokens, ends) /\ language tokens s.

(** ** The matcher decides the language *)

Lemma is_char_spec c d : is_char c d = true <-> c = d.
Proof. apply bool_decide_eq_true. Qed.

Lemma IsRepeat_repetition r : IsRepeat r = match repetition_of r with Some _ => true | None => false end.
Proof.
  apply (f_equal (fun b => b)). revert r.
  enough (H : forall r, Bool.eqb (IsRepeat r)
    (match repetition_of r with Some _ => true | None => false end) = true)
    by (intros r; apply Bool.eqb_prop, H).
  apply every_char. vm_compute. reflexivity.
Qed.

Lemma prefix_language_cons t ts e s :
  prefix_language (t :: ts) e s <->
  exists s1 s2, s = s1 ++ s2 /\ Forall (atom_matches t) s1 /\
    count_ok (tk_rep t) (length s1) /\ prefix_language ts e s2.
Proof.
  unfold prefix_language. simpl. split.
  - intros (s1 & s2 & -> & (u & v & -> & Hu & Hn & Hv) & He).
    exists u, (v ++ s2). rewrite <- app_assoc. split_and!; eauto.
  - intros (u & w & -> & Hu & Hn & v & s2 & -> & Hv & He).
    exists (u ++ v), s2. rewrite <- app_assoc. split_and!; eauto 7.
Qed.

(** [m] answers the question [Q]. *)
Definition decides (m : outcome bool) (Q : Prop) : Prop := m ⇓ fun b => b = true <-> Q.

Lemma decides_iff m (Q Q' : Prop) : (Q <-> Q') -> decides m Q -> decides m Q'.
Proof. unfold decides. intros HQ H. eapply returns_mono; [exact H|]. intros b Hb. by rewrite <- HQ. Qed.

Section repetition.
Context (min_count : nat) (max_count : option nat) (escaped : bool) (c : ascii).
Context (tail : text -> outcome bool) (Q : text -> Prop).
Hypothesis Htail : forall s, decides (tail s) (Q s).

Lemma tail_first i s :
  decides (if (min_count <=? i)%nat then tail s else Ok false) ((min_count <= i)%nat /\ Q s).
Proof.
  destruct (Nat.leb_spec min_count i).
  - eapply decides_iff; [|apply Htail]. tauto.
  - unfold decides. simpl. split; [done | lia].
Qed.

Lemma repetition_loop_decides i s :
  match max_count with Some m => (i <= m)%nat | None => True end ->
  decides (repetition_loop min_count max_count escaped c tail i s)
    (exists s1 s2, s = s1 ++ s2 /\
       Forall (fun ch => AtomMatchesChar escaped c ch = true) s1 /\
       (min_count <= i + length s1)%nat /\
       match max_count with Some m => (i + length s1 <= m)%nat | None => True end /\ Q s2).
Proof.
  revert i; induction s as [|ch s IH]; intros i Hi.
  - cbn [repetition_loop].
    pose proof (tail_first i []) as Hf.
    unfold decides in *.
    destruct (if (min_count <=? i)%nat then _ else _) as [[]|]; simpl in *; [| |done].
    + split; [intros _|done]. exists [], []. destruct (proj1 Hf eq_refl) as [? ?].
      rewrite Nat.add_0_r. repeat split; done || by destruct max_count.
    + split; [done|]. intros (s1 & s2 & Hs & _ & Hm & _ & HQ).
      symmetry in Hs. apply app_eq_nil in Hs as [-> ->]. simpl in Hm.
      rewrite Nat.add_0_r in Hm. by apply Hf.
  - cbn [repetition_loop].
    pose proof (tail_first i (ch :: s)) as Hf.
    unfold decides in *. destruct (if (min_count <=? i)%nat then _ else _) as [[]|];
      simpl in Hf |- *; [| |done].
    { split; [intros _|done]. exists [], (ch :: s). destruct (proj1 Hf eq_refl) as [? ?].
      simpl. rewrite Nat.add_0_r. repeat split; done || by destruct max_count. }
    destruct (AtomMatchesChar escaped c ch) eqn:Ha; simpl.
    2: { split; [done|]. intros ([|d s1] & s2 & Hs & Hall & Hm & _ & HQ); simpl in *.
         - subst s2. rewrite Nat.add_0_r in Hm. by apply Hf.
         - injection Hs as <- _. inversion Hall; congruence. }
    case_bool_decide as Hmax; simpl.
    { split; [done|]. rewrite Hmax.
      intros ([|d s1] & s2 & Hs & Hall & Hm & Hn & HQ); simpl in *; [|lia].
      subst s2. rewrite Nat.add_0_r in Hm. by apply Hf. }
    eapply returns_mono; [apply (IH (S i)); destruct max_count as [m|]; [|done];
      assert (m <> i) by congruence; lia|].
    intros b ->. split.
    + intros (s1 & s2 & -> & Hall & Hm & Hn & HQ). exists (ch :: s1), s2. simpl.
      rewrite Nat.add_succ_r. repeat split; auto.
    + intros ([|d s1] & s2 & Hs & Hall & Hm & Hn & HQ); simpl in *.
      * subst s2. rewrite Nat.add_0_r in Hm. exfalso.
        assert (false = true) by (by apply Hf). done.
      * injection Hs as <- ->. exists s1, s2. inversion Hall; subst.
        rewrite <- Nat.add_succ_comm in *. repeat split; auto.
Qed.

End repetition.

(** The bounds of [MatchRepetitionAndRegexAtHead] are those of the repetition. *)
Lemma repetition_of_cases r rep :
  repetition_of r = Some rep ->
  (r = "?"%char /\ rep = optional) \/ (r = "*"%char /\ rep = any_number) \/
  (r = "+"%char /\ rep = at_least_one).
Proof.
  unfold repetition_of, is_char. repeat case_bool_decide; intros [= <-]; tauto.
Qed.

Lemma match_repetition_decides escaped c r rep tail Q s :
  repetition_of r = Some rep -> (forall s, decides (tail s) (Q s)) ->
  decides (MatchRepetitionAndRegexAtHead escaped c r tail s)
    (exists s1 s2, s = s1 ++ s2 /\ Forall (atom_matches (mkToken escaped c rep)) s1 /\
       count_ok rep (length s1) /\ Q s2).
Proof.
  intros Hr HQ. unfold MatchRepetitionAndRegexAtHead.
  destruct (repetition_of_cases r rep Hr) as [[-> ->]|[[-> ->]|[-> ->]]];
    (eapply decides_iff; [|apply repetition_loop_decides; [exact HQ | simpl; lia || done]]);
    split; intros (s1 & s2 & ? & ? & H); exists s1, s2; simpl in *;
    intuition (auto; lia).
Qed.

Lemma match_atom_decides escaped c tail Q s :
  (forall s, decides (tail s) (Q s)) ->
  decides (match_atom escaped c tail s)
    (exists s1 s2, s = s1 ++ s2 /\ Forall (atom_matches (mkToken escaped c once)) s1 /\
       count_ok once (length s1) /\ Q s2).
Proof.
  intros HQ. destruct s as [|ch s]; simpl.
  - unfold decides. simpl. split; [done|]. intros ([|] & s2 & Hs & _ & Hn & _); done.
  - destruct (AtomMatchesChar escaped c ch) eqn:Ha.
    + eapply decides_iff; [|apply HQ]. split.
      * intros H. exists [ch], s. repeat split; auto.
      * intros ([|d [|]] & s2 & Hs & _ & Hn & H); simpl in *; try done.
        injection Hs as _ ->. done.
    + unfold decides. simpl. split; [done|].
      intros ([|d s1] & s2 & Hs & Hall & Hn & _); [done|].
      injection Hs as <- _. inversion Hall as [|? ? Hd]; subst.
      unfold atom_matches in Hd. simpl in Hd. congruence.
Qed.

(** The two ways to continue after the first atom, with the tokens. *)
Definition continue_match (escaped : bool) (c : ascii) (rest s : text) : outcome bool :=
  match rest with
  | repeat :: rest' =>
      if IsRepeat repeat
      then MatchRepetitionAndRegexAtHead escaped c repeat (MatchRegexAtHead rest') s
      else match_atom escaped c (MatchRegexAtHead rest) s
  | [] => match_atom escaped c (MatchRegexAtHead rest) s
  end.
Definition continue_tokens (escaped : bool) (c : ascii) (rest : text)
    : option (list token * bool) :=
  match rest with
  | r :: rest' =>
      match repetition_of r with
      | Some rep => '(ts, e) ← tokens_of rest'; Some (mkToken escaped c rep :: ts, e)
      | None => '(ts, e) ← tokens_of rest; Some (mkToken escaped c once :: ts, e)
      end
  | [] => '(ts, e) ← tokens_of rest; Some (mkToken escaped c once :: ts, e)
  end.

Lemma MatchRegexAtHead_cons c0 rest s :
  MatchRegexAtHead (c0 :: rest) s =
  if is_char c0 "$" then Ok (bool_decide (s = []))
  else if is_char c0 "\" then
    match rest with [] => Err InvalidDeref | c :: rest => continue_match true c rest s end
  else continue_match false c0 rest s.
Proof. done. Qed.

Lemma tokens_of_cons c0 rest :
  tokens_of (c0 :: rest) =
  if is_char c0 "$" then match rest with [] => Some ([], true) | _ => None end
  else if is_char c0 "\" then match rest with c :: rest => continue_tokens true c rest | [] => None end
  else continue_tokens false c0 rest.
Proof. done. Qed.

Definition head_decides (regex : text) : Prop :=
  forall ts e, tokens_of regex = Some (ts, e) ->
    forall s, decides (MatchRegexAtHead regex s) (prefix_language ts e s).

Lemma continue_match_decides escaped c rest ts e s :
  (forall regex, (length regex <= length rest)%nat -> head_decides regex) ->
  continue_tokens escaped c rest = Some (ts, e) ->
  decides (continue_match escaped c rest s) (prefix_language ts e s).
Proof.
  intros IH H.
  assert (Hone : forall ts e, tokens_of rest = Some (ts, e) ->
            decides (match_atom escaped c (MatchRegexAtHead rest) s)
              (prefix_language (mkToken escaped c once :: ts) e s)).
  { intros ts1 e1 H1. eapply decides_iff; [symmetry; apply prefix_language_cons|].
    apply match_atom_decides. intros s'. by apply IH. }
  destruct rest as [|r rest']; unfold continue_match, continue_tokens in *.
  - destruct (tokens_of []) as [[ts1 e1]|] eqn:E; [|done]. injection H as <- <-. by apply Hone.
  - rewrite IsRepeat_repetition. destruct (repetition_of r) as [rep|] eqn:Er.
    + destruct (tokens_of rest') as [[ts1 e1]|] eqn:E; [|done]. injection H as <- <-.
      eapply decides_iff; [symmetry; apply prefix_language_cons|].
      apply (match_repetition_decides escaped c r rep); [done|]. intros s'.
      apply IH; [simpl; lia | done].
    + destruct (tokens_of (r :: rest')) as [[ts1 e1]|] eqn:E; [|done]. injection H as <- <-.
      by apply Hone.
Qed.

Lemma MatchRegexAtHead_decides regex : head_decides regex.
Proof.
  remember (length regex) as n eqn:Hn. revert regex Hn.
  induction (lt_wf n) as [n _ IH]. intros [|c0 rest] -> ts e H s.
  - injection H as <- <-. unfold decides. simpl. split; [intros _|done].
    exists [], s. repeat split; done.
  - rewrite tokens_of_cons in H. rewrite MatchRegexAtHead_cons.
    destruct (is_char c0 "$").
    { destruct rest; [|done]. injection H as <- <-. unfold decides, prefix_language. simpl.
      rewrite bool_decide_eq_true. split; [intros ->; by exists [], []|].
      intros (s1 & s2 & -> & -> & Hs). by apply Hs. }
    destruct (is_char c0 "\"); [destruct rest as [|c rest]; [done|]|];
      (apply continue_match_decides; [|exact H]);
      intros regex Hl; (eapply IH; [|reflexivity]); simpl in *; lia.
Qed.

Lemma anywhere_loop_decides regex ts e s :
  tokens_of regex = Some (ts, e) ->
  decides (anywhere_loop regex s) (exists s0 s', s = s0 ++ s' /\ prefix_language ts e s').
Proof.
  intros H. induction s as [|ch s IH]; cbn [anywhere_loop].
  - pose proof (MatchRegexAtHead_decides regex ts e H []) as Hh. unfold decides in *.
    destruct (MatchRegexAtHead regex []) as [[]|]; simpl in *; [| |done].
    + split; [intros _|done]. exists [], []. split; [done|]. by apply Hh.
    + split; [done|]. intros (s0 & s' & Hs & Hp). symmetry in Hs.
      apply app_eq_nil in Hs as [-> ->]. by apply Hh.
  - pose proof (MatchRegexAtHead_decides regex ts e H (ch :: s)) as Hh. unfold decides in *.
    destruct (MatchRegexAtHead regex (ch :: s)) as [[]|]; simpl in Hh |- *; [| |done].
    + split; [intros _|done]. exists [], (ch :: s). split; [done|]. by apply Hh.
    + eapply returns_mono; [exact IH|]. intros b ->. split.
      * intros (s0 & s' & -> & Hp). by exists (ch :: s0), s'.
      * intros ([|d s0] & s' & Hs & Hp).
        -- simpl in Hs. subst s'. assert (false = true) by by apply Hh. done.
        -- injection Hs as _ ->. by exists s0, s'.
Qed.

Lemma MatchRegexAnywhere_decides regex ts e s :
  tokens_of (body regex) = Some (ts, e) ->
  decides (MatchRegexAnywhere (Some regex) (Some s)) (matches_somewhere regex s).
Proof.
  intros H. unfold matches_somewhere. destruct (anchored regex) eqn:Ha.
  - pose proof Ha as Ha'. unfold body in H. rewrite Ha in H.
    unfold anchored in Ha'. apply bool_decide_eq_true in Ha'.
    destruct regex as [|c rest]; [done|]. injection Ha' as ->. simpl.
    eapply decides_iff; [|apply (MatchRegexAtHead_decides rest ts e H s)].
    unfold body. rewrite Ha. simpl. split.
    + intros Hp. by exists ts, e, [], s.
    + intros (ts1 & e1 & s0 & s' & H1 & -> & H0 & Hp). rewrite (H0 eq_refl).
      simpl in *. congruence.
  - assert (E : MatchRegexAnywhere (Some regex) (Some s) = anywhere_loop regex s).
    { unfold anchored in Ha. apply bool_decide_eq_false in Ha.
      destruct regex as [|c rest]; [done|]. simpl. unfold is_char.
      rewrite bool_decide_false; [done|]. intros ->. by apply Ha. }
    rewrite E. unfold body in *. rewrite Ha in *.
    eapply decides_iff; [|apply (anywhere_loop_decides regex ts e s H)]. split.
    + intros (s0 & s' & -> & Hp). by exists ts, e, s0, s'.
    + intros (ts1 & e1 & s0 & s' & H1 & -> & _ & Hp). exists s0, s'. split; [done|]. congruence.
Qed.

(** ** Valid expressions have tokens *)

Lemma validate_loop_invalid regex rest i prev failures :
  fst (validate_loop regex rest i prev false failures) = false.
Proof.
  remember (length rest) as n eqn:Hn. revert rest i prev failures Hn.
  induction (lt_wf n) as [n _ IH]. intros [|ch rest] i prev failures ->; [done|].
  cbn [validate_loop]. cbv zeta. destruct (is_char ch "\"); [destruct rest as [|c rest]; [done|]|];
    repeat case_match; eapply IH; try reflexivity; simpl; lia.
Qed.

Lemma validate_loop_tokens regex rest i prev failures :
  fst (validate_loop regex rest i prev true failures) = true -> tokens_of rest <> None.
Proof.
  remember (length rest) as n eqn:Hn. revert rest i prev failures Hn.
  induction (lt_wf n) as [n _ IH]. intros [|ch rest] i prev failures ->; [done|].
  rewrite tokens_of_cons. cbn [validate_loop]. cbv zeta.
  assert (Hcont : forall esc c rest' j prev' fl, (length rest' <= length rest)%nat ->
            fst (validate_loop regex rest' j prev' true fl) = true ->
            continue_tokens esc c rest' <> None).
  { intros esc c [|r rest'] j prev' fl Hl Hv; [done|]. unfold continue_tokens.
    destruct (repetition_of r) as [rep|] eqn:Er.
    - assert (Hr : is_char r "\" = false /\ is_char r "$" = false /\ is_char r "^" = false /\
                   IsInSet r (str "()[]{}|") = false).
      { destruct (repetition_of_cases r rep Er) as [[-> _]|[[-> _]|[-> _]]]; done. }
      destruct Hr as (H1 & H2 & H3 & H4). cbn [validate_loop] in Hv. cbv zeta in Hv.
      rewrite H1, H2, H3, H4 in Hv. cbn [andb] in Hv.
      destruct (IsRepeat r && negb prev'); [by rewrite validate_loop_invalid in Hv|].
      apply (IH (length rest')) in Hv; [|simpl in *; lia|done].
      by destruct (tokens_of rest') as [[]|].
    - apply (IH (length (r :: rest'))) in Hv; [|simpl in *; lia|done].
      by destruct (tokens_of (r :: rest')) as [[]|]. }
  destruct (is_char ch "\") eqn:Hb.
  { apply is_char_spec in Hb as ->. simpl is_char. cbv iota.
    destruct rest as [|c rest]; [done|].
    destruct (IsValidEscape c); [|by rewrite validate_loop_invalid].
    apply Hcont. simpl. lia. }
  destruct (is_char ch "^" && (0 <? i)); [by rewrite validate_loop_invalid|].
  destruct (is_char ch "$") eqn:Hd; cbn [andb].
  { destruct rest as [|d rest]; [done|]. cbn [negb bool_decide].
    rewrite bool_decide_false by done. cbn [negb]. by rewrite validate_loop_invalid. }
  destruct (IsInSet ch (str "()[]{}|")); [by rewrite validate_loop_invalid|].
  destruct (IsRepeat ch && negb prev); [by rewrite validate_loop_invalid|].
  by apply Hcont.
Qed.

Lemma ValidateRegex_tokens regex :
  fst (ValidateRegex (Some regex)) = true -> exists ts e, tokens_of (body regex) = Some (ts, e).
Proof.
  intros H. enough (Hn : tokens_of (body regex) <> None)
    by (destruct (tokens_of (body regex)) as [[ts e]|]; [by exists ts, e | done]).
  unfold body. destruct (anchored regex) eqn:Ha.
  - unfold anchored in Ha. apply bool_decide_eq_true in Ha.
    destruct regex as [|c rest]; [done|]. injection Ha as ->.
    unfold ValidateRegex in H. cbn [validate_loop] in H. cbn in H.
    eapply validate_loop_tokens. exact H.
  - eapply validate_loop_tokens. exact H.
Qed.

(** ** The class *)

Lemma RE_valid regex :
  fst (ValidateRegex (Some regex)) = true ->
  is_valid_ (fst (RE_Init (Some regex))) = true /\
  pattern_ (fst (RE_Init (Some regex))) = regex /\
  full_pattern_ (fst (RE_Init (Some regex))) =
    (if anchored regex then [] else str "^") ++ regex ++
    (if bool_decide (last regex = Some "$"%char) then [] else str "$").
Proof.
  intros H. unfold RE_Init. destruct (ValidateRegex (Some regex)) as [v fl].
  simpl in H. subst v. done.
Qed.

(** Appending the '$' that [Init] adds. *)
Lemma tokens_of_dollar regex ts :
  tokens_of regex = Some (ts, false) -> tokens_of (regex ++ ["$"%char]) = Some (ts, true).
Proof.
  remember (length regex) as n eqn:Hn. revert regex ts Hn.
  induction (lt_wf n) as [n _ IH]. intros [|c0 rest] ts -> H.
  - by injection H as <-.
  - cbn [app]. rewrite tokens_of_cons in *.
    assert (Hcont : forall esc c rest', (length rest' <= length rest)%nat ->
              continue_tokens esc c rest' = Some (ts, false) ->
              continue_tokens esc c (rest' ++ ["$"%char]) = Some (ts, true)).
    { intros esc c [|r rest'] Hl Hc.
      - by injection Hc as <-.
      - unfold continue_tokens in *. cbn [app]. destruct (repetition_of r).
        + destruct (tokens_of rest') as [[ts1 e1]|] eqn:E; [|done]. injection Hc as <- ->.
          rewrite (IH (length rest') ltac:(simpl in *; lia) rest' ts1 eq_refl E). done.
        + destruct (tokens_of (r :: rest')) as [[ts1 e1]|] eqn:E; [|done].
          injection Hc as <- ->.
          change (r :: rest' ++ ["$"%char]) with ((r :: rest') ++ ["$"%char]).
          rewrite (IH (length (r :: rest')) ltac:(simpl in *; lia) (r :: rest') ts1 eq_refl E).
          done. }
    destruct (is_char c0 "$"); [by destruct rest|].
    destruct (is_char c0 "\"); [|by apply Hcont].
    destruct rest as [|c rest]; [done|]. cbn [app]. apply Hcont; [simpl; lia | done].
Qed.

(** An expression whose last character is no '$' has no '$' at its end. *)
Lemma tokens_of_no_dollar regex ts e :
  tokens_of regex = Some (ts, e) -> last regex <> Some "$"%char -> e = false.
Proof.
  remember (length regex) as n eqn:Hn. revert regex ts Hn.
  induction (lt_wf n) as [n _ IH]. intros [|c0 rest] ts -> H Hl.
  - by injection H as _ <-.
  - assert (Hcont : forall esc c rest', (length rest' <= length rest)%nat ->
              last rest' <> Some "$"%char ->
              continue_tokens esc c rest' = Some (ts, e) -> e = false).
    { intros esc c [|r rest'] Hle Hla Hc.
      - by injection Hc as _ <-.
      - unfold continue_tokens in Hc. destruct (repetition_of r).
        + destruct (tokens_of rest') as [[ts1 e1]|] eqn:E; [|done]. injection Hc as _ ->.
          eapply (IH (length rest')); [simpl in *; lia | reflexivity | exact E |].
          by destruct rest'.
        + destruct (tokens_of (r :: rest')) as [[ts1 e1]|] eqn:E; [|done].
          injection Hc as _ ->.
          eapply (IH (length (r :: rest'))); [simpl in *; lia | reflexivity | exact E | done]. }
    rewrite tokens_of_cons in H. destruct (is_char c0 "$") eqn:Hd.
    { apply is_char_spec in Hd as ->. by destruct rest. }
    destruct (is_char c0 "\").
    + destruct rest as [|c rest]; [done|]. apply Hcont in H; [done | simpl; lia |].
      by destruct rest.
    + apply Hcont in H; [done..|]. by destruct rest.
Qed.

Lemma body_full regex :
  let d := if bool_decide (last regex = Some "$"%char) then [] else str "$" in
  let full := (if anchored regex then [] else str "^") ++ regex ++ d in
  anchored full = true /\ body full = body regex ++ d.
Proof.
  intros d full. assert (Ha : anchored full = true).
  { unfold full. destruct (anchored regex) eqn:E; [|done]. unfold anchored in *.
    apply bool_decide_eq_true in E. by destruct regex as [|c rest]; [|injection E as ->]. }
  split; [done|]. unfold body. rewrite Ha. unfold full.
  destruct (anchored regex) eqn:E; [|done]. unfold anchored in E.
  apply bool_decide_eq_true in E. by destruct regex.
Qed.

(** The full pattern, provided that a '$' at the end of the expression is no
    escaped one. *)
Lemma full_pattern_decides regex ts e s :
  tokens_of (body regex) = Some (ts, e) -> (last regex = Some "$"%char -> e = true) ->
  decides (MatchRegexAnywhere (Some ((if anchored regex then [] else str "^") ++ regex ++
             (if bool_decide (last regex = Some "$"%char) then [] else str "$"))) (Some s))
    (matches_entirely regex s).
Proof.
  intros H Hl. pose proof (body_full regex) as [Ha Hb]. cbv zeta in *.
  assert (Hf : tokens_of (body regex ++
            (if bool_decide (last regex = Some "$"%char) then [] else str "$")) = Some (ts, true)).
  { case_bool_decide as E; [by rewrite app_nil_r, H, (Hl E)|].
    assert (e = false) as ->; [|by apply tokens_of_dollar].
    eapply tokens_of_no_dollar; [exact H|]. unfold body. destruct (anchored regex); [|done].
    destruct regex as [|c [|d rest]]; try done. }
  eapply decides_iff; [|eapply MatchRegexAnywhere_decides; rewrite Hb; exact Hf].
  unfold matches_somewhere, matches_entirely. rewrite Ha, Hb, Hf. split.
  - intros (ts1 & e1 & s0 & s' & [= <- <-] & -> & H0 & s1 & s2 & -> & Hs & He).
    exists ts, e. split; [done|].
    by rewrite (H0 eq_refl), (He eq_refl), app_nil_r.
  - intros (ts1 & e1 & H1 & Hs). rewrite H in H1. injection H1 as <- <-.
    exists ts, true, [], s. repeat split; try done.
    exists s, []. by rewrite app_nil_r.
Qed.
