(* ===== verification/TestResult.v ===== *)
(** * Results of tests and their counts (gtest.cc, gtest-test-part.cc)

    Test parts, the result of a test, the tests of a suite and the suites of a
    program, as far as the counting functions look at them.  The counters are
    [int]s: a count that leaves the range is the fault [IntOverflow].  The
    failures that a function adds to the current test ([ADD_FAILURE]) are part
    of its result. *)

From S2P Require Import Prelude Outcome Common CStr.

(** ** Test parts *)

Inductive TestPartType : Type := kSuccess | kNonFatalFailure | kFatalFailure | kSkip.

#[export] Instance TestPartType_eq_dec : EqDecision TestPartType.
Proof. solve_decision. Defined.

Record TestPartResult : Type := mkTestPartResult {
  type_ : TestPartType; file_name_ : text; line_number_ : Z;
  summary_ : text; message_ : text }.

Definition kStackTraceMarker : text := LF :: str "Stack trace:" ++ [LF].

Definition ExtractSummary (message : text) : text :=
  match find_text kStackTraceMarker message with
  | None => message
  | Some stack_trace => take stack_trace message
  end.

(** The constructor; [a_file_name] may be null. *)
Definition new_TestPartResult (a_type : TestPartType) (a_file_name : option text)
    (a_line_number : Z) (a_message : text) : TestPartResult :=
  mkTestPartResult a_type (default [] a_file_name) a_line_number
    (ExtractSummary a_message) a_message.

Definition part_file_name (r : TestPartResult) : option text :=
  if bool_decide (file_name_ r = []) then None else Some (file_name_ r).

Definition skipped (r : TestPartResult) : bool := bool_decide (type_ r = kSkip).
Definition passed (r : TestPartResult) : bool := bool_decide (type_ r = kSuccess).
Definition nonfatally_failed (r : TestPartResult) : bool :=
  bool_decide (type_ r = kNonFatalFailure).
Definition fatally_failed (r : TestPartResult) : bool := bool_decide (type_ r = kFatalFailure).
Definition failed (r : TestPartResult) : bool := fatally_failed r || nonfatally_failed r.

Definition kUnknownFile : text := str "unknown file".

Definition FormatFileLocation (file : option text) (line : Z) : text :=
  let file_name := default kUnknownFile file in
  if line <? 0 then file_name ++ str ":"
  else file_name ++ str ":" ++ dec line ++ str ":".

Definition FormatCompilerIndependentFileLocation (file : option text) (line : Z) : text :=
  let file_name := default kUnknownFile file in
  if line <? 0 then file_name else file_name ++ str ":" ++ dec line.

(** [operator<<] of a test part. *)
Definition print_TestPartResult (r : TestPartResult) : text :=
  FormatFileLocation (part_file_name r) (line_number_ r) ++ str " " ++
  match type_ r with
  | kSuccess => str "Success" | kSkip => str "Skipped"
  | kFatalFailure => str "Fatal failure" | kNonFatalFailure => str "Non-fatal failure"
  end ++ str ":" ++ LF :: message_ r ++ [LF].

(** The message of an assertion with what the user has streamed into it. *)
Definition AppendUserMessage (gtest_msg user_msg : text) : text :=
  let user_msg_string := StringStreamToString user_msg in
  if bool_decide (user_msg_string = []) then gtest_msg
  else if bool_decide (gtest_msg = []) then user_msg_string
  else gtest_msg ++ [LF] ++ user_msg_string.

(** ** The result of a test *)

Record TestProperty : Type := mkTestProperty { prop_key : text; prop_value : text }.

Record TestResult : Type := mkTestResult {
  test_part_results_ : list TestPartResult; test_properties_ : list TestProperty;
  death_test_count_ : Z; start_timestamp_ : Z; elapsed_time_ : Z }.

Definition new_TestResult : TestResult := mkTestResult [] [] 0 0 0.

Definition with_parts (r : TestResult) (p : list TestPartResult) : TestResult :=
  mkTestResult p (test_properties_ r) (death_test_count_ r) (start_timestamp_ r) (elapsed_time_ r).
Definition with_properties (r : TestResult) (p : list TestProperty) : TestResult :=
  mkTestResult (test_part_results_ r) p (death_test_count_ r) (start_timestamp_ r) (elapsed_time_ r).

(** [CountIf]. *)
Definition CountIf {A} (c : list A) (predicate : A -> bool) : outcome Z :=
  foldl (fun count x => n ← count; if predicate x then iadd n 1 else Ok n) (Ok 0) c.

(** [GetTestPartResult], which aborts outside of the list. *)
Definition GetTestPartResult (r : TestResult) (i : Z) : outcome TestPartResult :=
  if (i <? 0) || (Z.of_nat (length (test_part_results_ r)) <=? i) then Err AssertionFailed
  else or_fault InvalidDeref (test_part_results_ r !! Z.to_nat i).
Definition GetTestProperty (r : TestResult) (i : Z) : outcome TestProperty :=
  if (i <? 0) || (Z.of_nat (length (test_properties_ r)) <=? i) then Err AssertionFailed
  else or_fault InvalidDeref (test_properties_ r !! Z.to_nat i).

Definition ClearTestPartResults (r : TestResult) : TestResult := with_parts r [].
Definition AddTestPartResult (r : TestResult) (p : TestPartResult) : TestResult :=
  with_parts r (test_part_results_ r ++ [p]).
Definition Clear (r : TestResult) : TestResult := mkTestResult [] [] 0 (start_timestamp_ r) 0.

Definition total_part_count (r : TestResult) : Z := Z.of_nat (length (test_part_results_ r)).
Definition test_property_count (r : TestResult) : Z := Z.of_nat (length (test_properties_ r)).

Definition Failed (r : TestResult) : bool := existsb failed (test_part_results_ r).
Definition Skipped (r : TestResult) : outcome bool :=
  if Failed r then Ok false
  else n ← CountIf (test_part_results_ r) skipped; Ok (0 <? n).
Definition Passed (r : TestResult) : outcome bool :=
  s ← Skipped r; Ok (negb s && negb (Failed r)).
Definition HasFatalFailure (r : TestResult) : outcome bool :=
  n ← CountIf (test_part_results_ r) fatally_failed; Ok (0 <? n).
Definition HasNonfatalFailure (r : TestResult) : outcome bool :=
  n ← CountIf (test_part_results_ r) nonfatally_failed; Ok (0 <? n).

(** ** Properties with names that the report does not use itself *)

Definition kReservedTestSuitesAttributes : list text :=
  [str "disabled"; str "errors"; str "failures"; str "name"; str "random_seed"; str "tests";
   str "time"; str "timestamp"].
Definition kReservedTestSuiteAttributes : list text :=
  [str "disabled"; str "errors"; str "failures"; str "name"; str "tests"; str "time";
   str "timestamp"; str "skipped"].
Definition kReservedTestCaseAttributes : list text :=
  [str "classname"; str "name"; str "status"; str "time"; str "type_param";
   str "value_param"; str "file"; str "line"].
Definition kReservedOutputTestCaseAttributes : list text :=
  [str "classname"; str "name"; str "status"; str "time"; str "type_param";
   str "value_param"; str "file"; str "line"; str "result"; str "timestamp"].

Definition GetReservedAttributesForElement (xml_element : text) : outcome (list text) :=
  if bool_decide (xml_element = str "testsuites") then Ok kReservedTestSuitesAttributes
  else if bool_decide (xml_element = str "testsuite") then Ok kReservedTestSuiteAttributes
  else if bool_decide (xml_element = str "testcase") then Ok kReservedTestCaseAttributes
  else Err AssertionFailed.
Definition GetReservedOutputAttributesForElement (xml_element : text) : outcome (list text) :=
  if bool_decide (xml_element = str "testsuites") then Ok kReservedTestSuitesAttributes
  else if bool_decide (xml_element = str "testsuite") then Ok kReservedTestSuiteAttributes
  else if bool_decide (xml_element = str "testcase") then Ok kReservedOutputTestCaseAttributes
  else Err AssertionFailed.

Definition FormatWordList (words : list text) : text :=
  let n := length words in
  concat (imap (fun i word =>
    (if (0 <? i)%nat && (2 <? n)%nat then str ", " else []) ++
    (if (i =? n - 1)%nat then str "and " else []) ++ str "'" ++ word ++ str "'") words).

(** Whether the name may be used, and the failure if it may not. *)
Definition ValidateTestPropertyName (property_name : text) (reserved_names : list text)
    : bool * list text :=
  if bool_decide (property_name ∈ reserved_names) then
    (false, [str "Reserved key used in RecordProperty(): " ++ property_name ++ str " (" ++
             FormatWordList reserved_names ++ str " are reserved by Google Test)"])
  else (true, []).

Definition ValidateTestProperty (xml_element : text) (test_property : TestProperty)
    : outcome (bool * list text) :=
  reserved ← GetReservedAttributesForElement xml_element;
  Ok (ValidateTestPropertyName (prop_key test_property) reserved).

(** The property with the same key gets the new value; otherwise it is added. *)
Fixpoint set_property (p : TestProperty) (props : list TestProperty) : list TestProperty :=
  match props with
  | [] => [p]
  | q :: props => if bool_decide (prop_key q = prop_key p)
                  then mkTestProperty (prop_key q) (prop_value p) :: props
                  else q :: set_property p props
  end.

Definition RecordProperty (r : TestResult) (xml_element : text) (test_property : TestProperty)
    : outcome (TestResult * list text) :=
  '(valid, failures) ← ValidateTestProperty xml_element test_property;
  if negb valid then Ok (r, failures)
  else Ok (with_properties r (set_property test_property (test_properties_ r)), failures).

(** ** Tests, suites, programs *)

Record CodeLocation : Type := mkCodeLocation { loc_file : text; loc_line : Z }.

(** [factory_] identifies the object that creates the fixture. *)
Record TestInfo : Type := mkTestInfo {
  test_suite_name_ : text; test_name_ : text; type_param_ : option text;
  value_param_ : option text; location_ : CodeLocation; fixture_class_id_ : Z;
  should_run_ : bool; is_disabled_ : bool; matches_filter_ : bool;
  is_in_another_shard_ : bool; factory_ : Z; result_ : TestResult }.

Definition with_result (t : TestInfo) (r : TestResult) : TestInfo :=
  mkTestInfo (test_suite_name_ t) (test_name_ t) (type_param_ t) (value_param_ t) (location_ t)
    (fixture_class_id_ t) (should_run_ t) (is_disabled_ t) (matches_filter_ t)
    (is_in_another_shard_ t) (factory_ t) r.

Definition is_reportable (t : TestInfo) : bool :=
  matches_filter_ t && negb (is_in_another_shard_ t).

(** The two functions of the suite, which may be null, by their identity. *)
Record TestSuite : Type := mkTestSuite {
  suite_name_ : text; suite_type_param_ : option text; test_info_list_ : list TestInfo;
  test_indices_ : list Z; set_up_tc_ : option Z; tear_down_tc_ : option Z;
  suite_should_run_ : bool; ad_hoc_test_result_ : TestResult;
  suite_start_timestamp_ : Z; suite_elapsed_time_ : Z }.

Definition with_tests (s : TestSuite) (tests : list TestInfo) (indices : list Z)
    (should_run : bool) (ad_hoc : TestResult) : TestSuite :=
  mkTestSuite (suite_name_ s) (suite_type_param_ s) tests indices (set_up_tc_ s)
    (tear_down_tc_ s) should_run ad_hoc (suite_start_timestamp_ s) (suite_elapsed_time_ s).
Definition with_times (s : TestSuite) (start_timestamp elapsed_time : Z) : TestSuite :=
  mkTestSuite (suite_name_ s) (suite_type_param_ s) (test_info_list_ s) (test_indices_ s)
    (set_up_tc_ s) (tear_down_tc_ s) (suite_should_run_ s) (ad_hoc_test_result_ s)
    start_timestamp elapsed_time.

(** The predicates of [CountIf]; [Passed] and [Skipped] count, too. *)
Definition count_where (f : TestInfo -> outcome bool) (tests : list TestInfo) : outcome Z :=
  foldl (fun count t => n ← count; b ← f t; if b : bool then iadd n 1 else Ok n) (Ok 0) tests.
Definition if_should_run (f : TestResult -> outcome bool) (t : TestInfo) : outcome bool :=
  if should_run_ t then f (result_ t) else Ok false.

Definition TestPassed : TestInfo -> outcome bool := if_should_run Passed.
Definition TestSkipped : TestInfo -> outcome bool := if_should_run Skipped.
Definition TestFailed (t : TestInfo) : bool := should_run_ t && Failed (result_ t).
Definition TestReportableDisabled (t : TestInfo) : bool := is_reportable t && is_disabled_ t.

Definition successful_test_count (s : TestSuite) : outcome Z :=
  count_where TestPassed (test_info_list_ s).
Definition skipped_test_count (s : TestSuite) : outcome Z :=
  count_where TestSkipped (test_info_list_ s).
Definition failed_test_count (s : TestSuite) : outcome Z := CountIf (test_info_list_ s) TestFailed.
Definition reportable_disabled_test_count (s : TestSuite) : outcome Z :=
  CountIf (test_info_list_ s) TestReportableDisabled.
Definition disabled_test_count (s : TestSuite) : outcome Z :=
  CountIf (test_info_list_ s) is_disabled_.
Definition reportable_test_count (s : TestSuite) : outcome Z :=
  CountIf (test_info_list_ s) is_reportable.
Definition test_to_run_count (s : TestSuite) : outcome Z := CountIf (test_info_list_ s) should_run_.
Definition total_test_count (s : TestSuite) : Z := Z.of_nat (length (test_info_list_ s)).

Definition suite_Failed (s : TestSuite) : outcome bool :=
  n ← failed_test_count s; Ok ((0 <? n) || Failed (ad_hoc_test_result_ s)).
Definition suite_Passed (s : TestSuite) : outcome bool := f ← suite_Failed s; Ok (negb f).

Definition AddTestInfo (s : TestSuite) (t : TestInfo) : TestSuite :=
  with_tests s (test_info_list_ s ++ [t])
    (test_indices_ s ++ [Z.of_nat (length (test_indices_ s))]) (suite_should_run_ s)
    (ad_hoc_test_result_ s).

(** [GetElementOr] with the default -1, and the test it selects. *)
Definition GetElementOr (v : list Z) (i default_value : Z) : Z :=
  if (i <? 0) || (Z.of_nat (length v) <=? i) then default_value
  else default default_value (v !! Z.to_nat i).
Definition GetTestInfo (s : TestSuite) (i : Z) : outcome (option TestInfo) :=
  let index := GetElementOr (test_indices_ s) i (-1) in
  if index <? 0 then Ok None
  else t ← or_fault InvalidDeref (test_info_list_ s !! Z.to_nat index); Ok (Some t).

Definition ClearTestResult (t : TestInfo) : TestInfo := with_result t (Clear (result_ t)).
Definition ClearResult (s : TestSuite) : TestSuite :=
  with_tests s (map ClearTestResult (test_info_list_ s)) (test_indices_ s)
    (suite_should_run_ s) (Clear (ad_hoc_test_result_ s)).

(** [SumOverTestSuiteList]. *)
Definition SumOverTestSuiteList (case_list : list TestSuite) (method : TestSuite -> outcome Z)
    : outcome Z :=
  foldl (fun sum s => n ← sum; k ← method s; iadd n k) (Ok 0) case_list.

(** The counters of [UnitTestImpl] over all suites. *)
Module UnitTestImpl.
Section counts.
Variable test_suites_ : list TestSuite.

Definition successful_test_count := SumOverTestSuiteList test_suites_ successful_test_count.
Definition skipped_test_count := SumOverTestSuiteList test_suites_ skipped_test_count.
Definition failed_test_count := SumOverTestSuiteList test_suites_ failed_test_count.
Definition reportable_disabled_test_count :=
  SumOverTestSuiteList test_suites_ reportable_disabled_test_count.
Definition disabled_test_count := SumOverTestSuiteList test_suites_ disabled_test_count.
Definition reportable_test_count := SumOverTestSuiteList test_suites_ reportable_test_count.
Definition total_test_count :=
  SumOverTestSuiteList test_suites_ (fun s => Ok (total_test_count s)).
Definition test_to_run_count := SumOverTestSuiteList test_suites_ test_to_run_count.

End counts.
End UnitTestImpl.

(** ** Counting *)

Definition int_list {A} (l : list A) : Prop := Z.of_nat (length l) <= INT_MAX.

Lemma CountIf_length {A} (l : list A) p :
  int_list l -> CountIf l p = Ok (Z.of_nat (length (List.filter p l))).
Proof.
  unfold CountIf, int_list. intros H.
  enough (G : forall n, n + Z.of_nat (length l) <= INT_MAX -> 0 <= n ->
     foldl (fun count x => n ← count; if p x then iadd n 1 else Ok n) (Ok n) l =
     Ok (n + Z.of_nat (length (List.filter p l)))) by (rewrite G; [done | lia | lia]).
  clear H. induction l as [|x l IH]; intros n H Hn; cbn [foldl List.filter].
  - simpl. f_equal. lia.
  - simpl length in H. rewrite bind_ok. destruct (p x).
    + rewrite iadd_ok by range. rewrite IH by lia. simpl. f_equal. lia.
    + rewrite IH by lia. done.
Qed.

Lemma count_where_pure f p tests :
  (forall t, t ∈ tests -> f t = Ok (p t)) -> count_where f tests = CountIf tests p.
Proof.
  unfold count_where, CountIf. generalize (Ok 0). induction tests as [|t tests IH]; intros n H.
  - done.
  - simpl. rewrite IH by set_solver. f_equal. destruct n; simpl; [|done].
    by rewrite H by set_solver.
Qed.

(** A test is in exactly one of the three states. *)
Definition skipped_result (r : TestResult) : bool :=
  negb (Failed r) && existsb skipped (test_part_results_ r).

Lemma filter_existsb {A} (p : A -> bool) l :
  (0 <? Z.of_nat (length (List.filter p l))) = existsb p l.
Proof.
  induction l as [|x l IH]; [done|]. simpl. destruct (p x); [done|exact IH].
Qed.

Lemma Skipped_pure r : int_list (test_part_results_ r) -> Skipped r = Ok (skipped_result r).
Proof.
  intros H. unfold Skipped, skipped_result. destruct (Failed r); [done|].
  rewrite CountIf_length by done. simpl. by rewrite filter_existsb.
Qed.

Definition passed_result (r : TestResult) : bool := negb (skipped_result r) && negb (Failed r).

Lemma Passed_pure r : int_list (test_part_results_ r) -> Passed r = Ok (passed_result r).
Proof. intros H. unfold Passed. by rewrite Skipped_pure. Qed.

(** What fits into the counters. *)
Definition suite_ok (s : TestSuite) : Prop :=
  int_list (test_info_list_ s) /\
  Forall (fun t => int_list (test_part_results_ (result_ t))) (test_info_list_ s).

Definition tests_where (p : TestInfo -> bool) (s : TestSuite) : Z :=
  Z.of_nat (length (List.filter p (test_info_list_ s))).

Lemma successful_count s : suite_ok s ->
  successful_test_count s =
  Ok (tests_where (fun t => should_run_ t && passed_result (result_ t)) s).
Proof.
  intros [H1 H2]. rewrite Forall_forall in H2. unfold successful_test_count.
  rewrite (count_where_pure _ (fun t => should_run_ t && passed_result (result_ t))).
  - by apply CountIf_length.
  - intros t Ht. unfold TestPassed, if_should_run.
    destruct (should_run_ t); [|done]. by rewrite Passed_pure by auto.
Qed.

Lemma skipped_count s : suite_ok s ->
  skipped_test_count s =
  Ok (tests_where (fun t => should_run_ t && skipped_result (result_ t)) s).
Proof.
  intros [H1 H2]. rewrite Forall_forall in H2. unfold skipped_test_count.
  rewrite (count_where_pure _ (fun t => should_run_ t && skipped_result (result_ t))).
  - by apply CountIf_length.
  - intros t Ht. unfold TestSkipped, if_should_run.
    destruct (should_run_ t); [|done]. by rewrite Skipped_pure by auto.
Qed.

Lemma filter_three {A} (p q r s : A -> bool) l :
  (forall x, p x = xorb (q x) (xorb (r x) (s x)) /\ q x && r x = false /\ q x && s x = false /\
             r x && s x = false) ->
  length (List.filter p l) = (length (List.filter q l) + length (List.filter r l) +
                              length (List.filter s l))%nat.
Proof.
  intros H. induction l as [|x l IH]; [done|]. simpl. destruct (H x) as (H1 & H2 & H3 & H4).
  destruct (q x), (r x), (s x); simpl in *; try done; rewrite H1; simpl; lia.
Qed.

Lemma run_partition s :
  tests_where should_run_ s =
  tests_where (fun t => should_run_ t && passed_result (result_ t)) s +
  tests_where (fun t => should_run_ t && skipped_result (result_ t)) s +
  tests_where TestFailed s.
Proof.
  unfold tests_where. rewrite (filter_three should_run_
    (fun t => should_run_ t && passed_result (result_ t))
    (fun t => should_run_ t && skipped_result (result_ t)) TestFailed); [lia|].
  intros t. unfold TestFailed, passed_result, skipped_result.
  destruct (should_run_ t), (Failed (result_ t)), (existsb skipped _); done.
Qed.

(** Sums over the suites. *)
Lemma zsum_nonneg_all {A} (f : A -> Z) suites : (forall s, 0 <= f s) -> 0 <= zsum f suites.
Proof. intros H. induction suites as [|s suites IH]; rewrite ?zsum_cons; [done|]. specialize (H s). lia. Qed.

Lemma zsum_le_all {A} (f g : A -> Z) suites : (forall s, f s <= g s) -> zsum f suites <= zsum g suites.
Proof. intros H. induction suites as [|s suites IH]; rewrite ?zsum_cons; [done|]. specialize (H s). lia. Qed.

Lemma Sum_pure (suites : list TestSuite) method f :
  (forall s, s ∈ suites -> method s = Ok (f s)) -> (forall s, 0 <= f s) ->
  zsum f suites <= INT_MAX -> SumOverTestSuiteList suites method = Ok (zsum f suites).
Proof.
  unfold SumOverTestSuiteList. intros Hm Hf Ht.
  enough (G : forall n, 0 <= n -> n + zsum f suites <= INT_MAX ->
     foldl (fun sum s => n ← sum; k ← method s; iadd n k) (Ok n) suites =
     Ok (n + zsum f suites)) by (rewrite G by lia; f_equal; lia).
  clear Ht. induction suites as [|s suites IH]; intros n Hn Ht; simpl in *; [f_equal; lia|].
  rewrite Hm by set_solver. simpl. pose proof (zsum_nonneg_all f suites Hf).
  specialize (Hf s). rewrite iadd_ok by range.
  rewrite IH by (lia || (intros; apply Hm; set_solver)). f_equal. lia.
Qed.

Lemma tests_where_nonneg p s : 0 <= tests_where p s.
Proof. unfold tests_where. lia. Qed.

Lemma tests_where_le p s : tests_where p s <= total_test_count s.
Proof.
  unfold tests_where, total_test_count.
  pose proof (List.filter_length_le p (test_info_list_ s)). lia.
Qed.

(** A counter of the program whose method counts [p] in each suite. *)
Lemma program_count suites method p :
  (forall s, s ∈ suites -> method s = Ok (tests_where p s)) ->
  zsum total_test_count suites <= INT_MAX ->
  SumOverTestSuiteList suites method = Ok (zsum (tests_where p) suites).
Proof.
  intros Hm Ht. apply Sum_pure; [done | apply tests_where_nonneg |].
  etransitivity; [apply zsum_le_all; apply tests_where_le | done].
Qed.

Lemma zsum_add3 {A} (f g h k : A -> Z) suites :
  (forall s, f s = g s + h s + k s) -> zsum f suites = zsum g suites + zsum h suites + zsum k suites.
Proof. intros H. induction suites as [|s suites IH]; rewrite ?zsum_cons; [done|]. rewrite H. lia. Qed.

(** ** Properties *)

Lemma set_property_keys p props :
  map prop_key (set_property p props) =
  map prop_key props ++ (if bool_decide (prop_key p ∈ map prop_key props) then [] else [prop_key p]).
Proof.
  induction props as [|q props IH]; [done|]. simpl.
  destruct (decide (prop_key q = prop_key p)) as [E|E].
  - rewrite (bool_decide_true _ E). simpl.
    rewrite bool_decide_true by (rewrite E; apply elem_of_cons; auto). by rewrite app_nil_r.
  - rewrite (bool_decide_false _ E). simpl. rewrite IH. do 2 f_equal.
    rewrite (bool_decide_ext (prop_key p ∈ prop_key q :: map prop_key props)
               (prop_key p ∈ map prop_key props)); [done|].
    rewrite elem_of_cons. naive_solver.
Qed.

Lemma set_property_NoDup p props :
  NoDup (map prop_key props) -> NoDup (map prop_key (set_property p props)).
Proof.
  intros H. rewrite set_property_keys. case_bool_decide as E; [by rewrite app_nil_r|].
  apply NoDup_app. split_and!; [done | set_solver | apply NoDup_singleton].
Qed.

(** The value recorded last under a key. *)
Fixpoint property_value (k : text) (props : list TestProperty) : option text :=
  match props with
  | [] => None
  | q :: props => if bool_decide (prop_key q = k) then Some (prop_value q)
                  else property_value k props
  end.

Lemma set_property_value p props k :
  property_value k (set_property p props) =
  if bool_decide (prop_key p = k) then Some (prop_value p) else property_value k props.
Proof.
  induction props as [|q props IH]; simpl; [done|].
  destruct (decide (prop_key q = prop_key p)) as [E|E].
  - rewrite (bool_decide_true _ E). simpl. rewrite E. by case_bool_decide.
  - rewrite (bool_decide_false _ E). simpl. rewrite IH.
    destruct (decide (prop_key q = k)) as [E'|E']; [|by rewrite (bool_decide_false _ E')].
    rewrite (bool_decide_true _ E'). rewrite bool_decide_false; [done | congruence].
Qed.
