(* ===== verification/TestSelect.v ===== *)
(** * Which tests run, and in which order (gtest.cc, gtest-internal-inl.h)

    Numbers from the environment and the command line, sharding, the filter, the
    random number generator and the shuffle.  The environment is a parameter
    [getenv]; [strtol] and the conversions are modelled as the C standard has
    them for a 64-bit [long].  [exit] is the fault [ProcessExit]. *)

From S2P Require Import Prelude Outcome Common CStr TestFilter TestResult.

(** ** Numbers in text *)

Definition LONG_MAX : Z := 9223372036854775807.
Definition LONG_MIN : Z := -9223372036854775808.

Fixpoint skip_spaces (s : text) : text :=
  match s with
  | c :: s' => if IsSpace c then skip_spaces s' else s
  | [] => []
  end.

(** The value of the digits that [s] begins with, and the rest. *)
Fixpoint digits_value (acc : Z) (s : text) : Z * text :=
  match s with
  | c :: s' => if IsDigit c then digits_value (acc * 10 + (code c - 48)) s' else (acc, s)
  | [] => (acc, [])
  end.

Definition clamp_long (v : Z) : Z := Z.max LONG_MIN (Z.min LONG_MAX v).

(** [strtol(s, &end, 10)]: the value and what [end] points to. *)
Definition strtol (s : text) : Z * text :=
  let body := skip_spaces s in
  let '(negative, body) := match body with
                           | c :: rest => if bool_decide (c = "-"%char) then (true, rest)
                                          else if bool_decide (c = "+"%char) then (false, rest)
                                          else (false, body)
                           | [] => (false, [])
                           end in
  match body with
  | c :: _ => if IsDigit c then
                let '(v, end_) := digits_value 0 body in
                (clamp_long (if negative : bool then - v else v), end_)
              else (0, s)
  | [] => (0, s)
  end.

(** [static_cast<int32_t>]. *)
Definition to_int32 (v : Z) : Z := (v + 2 ^ 31) mod 2 ^ 32 - 2 ^ 31.

(** The parsed value, and the warning that is printed. *)
Definition ParseInt32 (src_text s : text) : option Z * text :=
  let '(long_value, end_) := strtol s in
  let warning tail := str "WARNING: " ++ src_text ++
    str " is expected to be a 32-bit integer, but actually has value " ++ tail in
  if negb (bool_decide (end_ = [])) then
    (None, warning ("034"%char :: s ++ "034"%char :: str "." ++ [LF]))
  else
    let result := to_int32 long_value in
    if (long_value =? LONG_MAX) || (long_value =? LONG_MIN) || negb (result =? long_value)
    then (None, warning (s ++ str ", which overflows." ++ [LF]))
    else (Some result, []).

Section environment.
Variable getenv : text -> option text.

Definition GTEST_FLAG_PREFIX_ : text := str "gtest_".

Definition FlagToEnvVar (flag : text) : text := map ToUpper (GTEST_FLAG_PREFIX_ ++ flag).

Definition BoolFromGTestEnv (flag : text) (default_value : bool) : bool :=
  match getenv (FlagToEnvVar flag) with
  | None => default_value
  | Some string_value => negb (bool_decide (string_value = str "0"))
  end.

(** The value and what is printed. *)
Definition Int32FromGTestEnv (flag : text) (default_value : Z) : Z * text :=
  let env_var := FlagToEnvVar flag in
  match getenv env_var with
  | None => (default_value, [])
  | Some string_value =>
      match ParseInt32 (str "Environment variable " ++ env_var) string_value with
      | (Some result, out) => (result, out)
      | (None, out) => (default_value, out ++ str "The default value " ++ dec default_value ++
                                       str " is used." ++ [LF])
      end
  end.

Definition OutputFlagAlsoCheckEnvVar : text :=
  match getenv (str "XML_OUTPUT_FILE") with
  | None => []
  | Some xml_output_file_env => str "xml:" ++ xml_output_file_env
  end.

Definition StringFromGTestEnv (flag : text) (default_value : option text) : option text :=
  match getenv (FlagToEnvVar flag) with
  | None => default_value
  | Some value => Some value
  end.

(** ** Sharding *)

Definition kTestShardIndex : text := str "GTEST_SHARD_INDEX".
Definition kTestTotalShards : text := str "GTEST_TOTAL_SHARDS".

Definition Int32FromEnvOrDie (var : text) (default_val : Z) : outcome Z :=
  match getenv var with
  | None => Ok default_val
  | Some str_val =>
      match fst (ParseInt32 (str "The value of environment variable " ++ var) str_val) with
      | Some result => Ok result
      | None => Err ProcessExit
      end
  end.

Definition ShouldShard (total_shards_env shard_index_env : text)
    (in_subprocess_for_death_test : bool) : outcome bool :=
  if in_subprocess_for_death_test then Ok false else
  total_shards ← Int32FromEnvOrDie total_shards_env (-1);
  shard_index ← Int32FromEnvOrDie shard_index_env (-1);
  if (total_shards =? -1) && (shard_index =? -1) then Ok false
  else if (total_shards =? -1) && negb (shard_index =? -1) then Err ProcessExit
  else if negb (total_shards =? -1) && (shard_index =? -1) then Err ProcessExit
  else if (shard_index <? 0) || (total_shards <=? shard_index) then Err ProcessExit
  else Ok (1 <? total_shards).

(** C's [%]; the program divides by [total_shards] only if it is at least 2. *)
Definition ShouldRunTestOnShard (total_shards shard_index test_id : Z) : bool :=
  Z.rem test_id total_shards =? shard_index.

(** ** The filter *)

Inductive ReactionToSharding : Type := HONOR_SHARDING_PROTOCOL | IGNORE_SHARDING_PROTOCOL.

Definition kDisableTestFilter : text := str "DISABLED_*:*/DISABLED_*".

(** The flags that [FilterTests] reads. *)
Record FilterFlags : Type := mkFilterFlags {
  flag_filter : text; flag_also_run_disabled_tests : bool }.

Section filter.
Context (flags : FilterFlags) (shard_tests : ReactionToSharding) (total_shards shard_index : Z).

Definition is_disabled (test_suite_name test_name : text) : bool :=
  let disable_test_filter := UnitTestFilter_of kDisableTestFilter in
  MatchesName disable_test_filter test_suite_name || MatchesName disable_test_filter test_name.

Definition is_runnable (test_suite_name test_name : text) : bool :=
  (flag_also_run_disabled_tests flags || negb (is_disabled test_suite_name test_name)) &&
  MatchesTest (PositiveAndNegativeUnitTestFilter_of (flag_filter flags)) test_suite_name test_name.

(** The body of the inner loop: the test and the two counters. *)
Definition filter_test (test_suite_name : text) (t : TestInfo) (num_runnable_tests : Z)
    : TestInfo * bool * bool :=
  let runnable := is_runnable test_suite_name (test_name_ t) in
  let is_in_another_shard :=
    match shard_tests with IGNORE_SHARDING_PROTOCOL => false | HONOR_SHARDING_PROTOCOL => true end
    && negb (ShouldRunTestOnShard total_shards shard_index num_runnable_tests) in
  let is_selected := runnable && negb is_in_another_shard in
  (mkTestInfo (test_suite_name_ t) (test_name_ t) (type_param_ t) (value_param_ t)
     (location_ t) (fixture_class_id_ t) is_selected
     (is_disabled test_suite_name (test_name_ t))
     (MatchesTest (PositiveAndNegativeUnitTestFilter_of (flag_filter flags))
        test_suite_name (test_name_ t))
     is_in_another_shard (factory_ t) (result_ t), runnable, is_selected).

Fixpoint filter_tests (test_suite_name : text) (tests : list TestInfo)
    (num_runnable_tests num_selected_tests : Z) : outcome (list TestInfo * Z * Z) :=
  match tests with
  | [] => Ok ([], num_runnable_tests, num_selected_tests)
  | t :: tests =>
      let '(t, runnable, selected) := filter_test test_suite_name t num_runnable_tests in
      num_runnable_tests ← iadd num_runnable_tests (Z.b2z runnable);
      num_selected_tests ← iadd num_selected_tests (Z.b2z selected);
      '(tests, r, s) ← filter_tests test_suite_name tests num_runnable_tests num_selected_tests;
      Ok (t :: tests, r, s)
  end.

Fixpoint filter_suites (suites : list TestSuite) (num_runnable_tests num_selected_tests : Z)
    : outcome (list TestSuite * Z) :=
  match suites with
  | [] => Ok ([], num_selected_tests)
  | s :: suites =>
      '(tests, r, n) ← filter_tests (suite_name_ s) (test_info_list_ s)
                         num_runnable_tests num_selected_tests;
      '(suites, n) ← filter_suites suites r n;
      Ok (with_tests s tests (test_indices_ s) (existsb should_run_ tests)
            (ad_hoc_test_result_ s) :: suites, n)
  end.

End filter.

Definition FilterTests (flags : FilterFlags) (shard_tests : ReactionToSharding)
    (test_suites_ : list TestSuite) : outcome (list TestSuite * Z) :=
  total_shards ← match shard_tests with
                 | HONOR_SHARDING_PROTOCOL => Int32FromEnvOrDie kTestTotalShards (-1)
                 | IGNORE_SHARDING_PROTOCOL => Ok (-1) end;
  shard_index ← match shard_tests with
                | HONOR_SHARDING_PROTOCOL => Int32FromEnvOrDie kTestShardIndex (-1)
                | IGNORE_SHARDING_PROTOCOL => Ok (-1) end;
  filter_suites flags shard_tests total_shards shard_index test_suites_ 0 0.

End environment.

(** ** Random order *)

Definition kMaxRange : Z := 2 ^ 31.
Definition kMaxRandomSeed : Z := 99999.

(** [Random::Generate]: the new state and the number. *)
Definition Generate (state_ range : Z) : outcome (Z * Z) :=
  let state_ := ((1103515245 * state_ + 12345) mod 2 ^ 64) mod 2 ^ 32 mod kMaxRange in
  _ ← c_assert (0 <? range);
  _ ← c_assert (range <=? kMaxRange);
  Ok (state_, state_ mod range).

(** [time_in_millis] is the clock; the flag is an [int32_t]. *)
Definition GetRandomSeedFromFlag (time_in_millis random_seed_flag : Z) : Z :=
  let raw_seed := (if random_seed_flag =? 0 then time_in_millis else random_seed_flag) mod 2 ^ 32 in
  ((raw_seed - 1) mod 2 ^ 32) mod kMaxRandomSeed + 1.

Definition GetNextRandomSeed (seed : Z) : outcome Z :=
  _ ← c_assert ((1 <=? seed) && (seed <=? kMaxRandomSeed));
  let next_seed := seed + 1 in
  Ok (if kMaxRandomSeed <? next_seed then 1 else next_seed).

Section shuffle.
Context {A : Type}.

(** [std::swap] of two elements. *)
Definition swap (i j : nat) (v : list A) : outcome (list A) :=
  x ← or_fault InvalidDeref (v !! i);
  y ← or_fault InvalidDeref (v !! j);
  Ok (<[j := x]> (<[i := y]> v)).

(** The loop of [ShuffleRange], for the range widths from [width] down to 2. *)
Fixpoint shuffle_loop (width : nat) (random : Z) (begin_ : nat) (v : list A)
    : outcome (Z * list A) :=
  match width with
  | S (S _ as width') =>
      let last_in_range := (begin_ + width - 1)%nat in
      '(random, n) ← Generate random (Z.of_nat width);
      v ← swap (begin_ + Z.to_nat n) last_in_range v;
      shuffle_loop width' random begin_ v
  | _ => Ok (random, v)
  end.

Definition ShuffleRange (random begin_ end_ : Z) (v : list A) : outcome (Z * list A) :=
  let size := Z.of_nat (length v) in
  _ ← c_assert ((0 <=? begin_) && (begin_ <=? size));
  _ ← c_assert ((begin_ <=? end_) && (end_ <=? size));
  shuffle_loop (Z.to_nat (end_ - begin_)) random (Z.to_nat begin_) v.

Definition Shuffle (random : Z) (v : list A) : outcome (Z * list A) :=
  ShuffleRange random 0 (Z.of_nat (length v)) v.

End shuffle.

(** [TestSuite::ShuffleTests] and [UnshuffleTests]. *)
Definition with_indices (s : TestSuite) (indices : list Z) : TestSuite :=
  with_tests s (test_info_list_ s) indices (suite_should_run_ s) (ad_hoc_test_result_ s).
Definition suite_ShuffleTests (random : Z) (s : TestSuite) : outcome (Z * TestSuite) :=
  '(random, indices) ← Shuffle random (test_indices_ s); Ok (random, with_indices s indices).
Definition suite_UnshuffleTests (s : TestSuite) : TestSuite :=
  with_indices s (map Z.of_nat (seq 0 (length (test_indices_ s)))).

(** The suites of the program with the order in which they run; the death test
    suites are the first [last_death_test_suite_ + 1]. *)
Record Suites : Type := mkSuites {
  test_suites_ : list TestSuite; test_suite_indices_ : list Z; last_death_test_suite_ : Z }.

Fixpoint shuffle_suites (random : Z) (suites : list TestSuite) : outcome (Z * list TestSuite) :=
  match suites with
  | [] => Ok (random, [])
  | s :: suites => '(random, s) ← suite_ShuffleTests random s;
                   '(random, suites) ← shuffle_suites random suites; Ok (random, s :: suites)
  end.

Definition ShuffleTests (random : Z) (u : Suites) : outcome (Z * Suites) :=
  '(random, idx) ← ShuffleRange random 0 (last_death_test_suite_ u + 1) (test_suite_indices_ u);
  '(random, idx) ← ShuffleRange random (last_death_test_suite_ u + 1)
                     (Z.of_nat (length (test_suites_ u))) idx;
  '(random, suites) ← shuffle_suites random (test_suites_ u);
  Ok (random, mkSuites suites idx (last_death_test_suite_ u)).

Definition UnshuffleTests (u : Suites) : Suites :=
  mkSuites (map suite_UnshuffleTests (test_suites_ u))
    (map Z.of_nat (seq 0 (length (test_suites_ u)))) (last_death_test_suite_ u).

(** [UnitTestImpl::GetTestSuite] and [GetMutableSuiteCase]; the former indexes
    the suites with [i] instead of [index]. *)
Definition GetTestSuite (u : Suites) (i : Z) : outcome (option TestSuite) :=
  let index := GetElementOr (test_suite_indices_ u) i (-1) in
  if index <? 0 then Ok None
  else s ← or_fault InvalidDeref (test_suites_ u !! Z.to_nat i); Ok (Some s).
Definition GetMutableSuiteCase (u : Suites) (i : Z) : outcome (option TestSuite) :=
  let index := GetElementOr (test_suite_indices_ u) i (-1) in
  if index <? 0 then Ok None
  else s ← or_fault InvalidDeref (test_suites_ u !! Z.to_nat index); Ok (Some s).

(** ** Decimal numbers read back *)

Definition digits_fold (a : Z) (D : text) : Z :=
  foldl (fun acc c => acc * 10 + (code c - 48)) a D.

Lemma digits_value_all a D :
  Forall (fun c => IsDigit c = true) D -> digits_value a D = (digits_fold a D, []).
Proof.
  intros H. revert a; induction H as [|c D Hc _ IH]; intros a; simpl; [done|]. by rewrite Hc.
Qed.

Lemma digit_char_spec d : 0 <= d < 10 -> IsDigit (digit_char d) = true /\ code (digit_char d) = 48 + d.
Proof.
  intros H. unfold digit_char. rewrite (proj2 (Z.ltb_lt _ _)) by lia.
  unfold IsDigit, in_range. rewrite code_to_char by lia. split; [|done].
  change (code "0") with 48. change (code "9") with 57.
  rewrite andb_true_iff, !Z.leb_le. lia.
Qed.

Lemma digits_loop_spec fuel n s :
  0 <= n < 2 ^ Z.of_nat fuel -> (0 < fuel)%nat ->
  exists D, digits_loop fuel 10 n s = D ++ s /\ D <> [] /\
    Forall (fun c => IsDigit c = true) D /\
    forall a, digits_fold a D = a * 10 ^ Z.of_nat (length D) + n.
Proof.
  revert n s; induction fuel as [|fuel IH]; intros n s Hn Hf; [lia|]. cbn [digits_loop].
  pose proof (Z.mod_pos_bound n 10 ltac:(lia)) as Hm.
  destruct (digit_char_spec (n mod 10) Hm) as [Hd Hc].
  destruct (Z.ltb_spec n 10).
  - exists [digit_char (n mod 10)]. split_and!; [done|done|by constructor|].
    intros a. unfold digits_fold. cbn [foldl length]. rewrite Hc, Z.mod_small by lia.
    change (10 ^ Z.of_nat 1) with 10. lia.
  - assert (Hfuel : (0 < fuel)%nat).
    { destruct fuel; [|lia]. change (2 ^ Z.of_nat 1) with 2 in Hn. lia. }
    destruct (IH (n / 10) (digit_char (n mod 10) :: s)) as (D & HD & Hne & Hall & Hv); [|done|].
    { rewrite Nat2Z.inj_succ, Z.pow_succ_r in Hn by lia.
      split; [apply Z.div_pos; lia | apply Z.div_lt_upper_bound; lia]. }
    exists (D ++ [digit_char (n mod 10)]). rewrite HD, <- app_assoc. split_and!; [done| | |].
    + by destruct D.
    + apply Forall_app. split; [done | by constructor].
    + intros a. unfold digits_fold in *. rewrite foldl_app. cbn [foldl].
      rewrite Hv, Hc, length_app. cbn [length].
      rewrite Nat2Z.inj_add, Z.pow_add_r by lia. change (10 ^ Z.of_nat 1) with 10.
      pose proof (Z.div_mod n 10). lia.
Qed.

Lemma digits_spec n :
  0 <= n -> exists D, digits 10 n = D /\ D <> [] /\ Forall (fun c => IsDigit c = true) D /\
    digits_fold 0 D = n.
Proof.
  intros Hn. unfold digits.
  destruct (digits_loop_spec (S (Z.to_nat (Z.log2 n))) n []) as (D & HD & Hne & Hall & Hv);
    [|lia|].
  - rewrite Nat2Z.inj_succ, Z2Nat.id by apply Z.log2_nonneg. split; [done|].
    destruct (Z.eq_dec n 0) as [->|]; [done|]. apply Z.log2_spec. lia.
  - exists D. rewrite HD, app_nil_r, Hv. split_and!; [done..|]. lia.
Qed.

Definition digit_facts (c : ascii) : bool :=
  implb (IsDigit c) (negb (IsSpace c) && negb (bool_decide (c = "-"%char)) &&
                     negb (bool_decide (c = "+"%char))).

Lemma digit_facts_all c : digit_facts c = true.
Proof. revert c. apply every_char. vm_compute. reflexivity. Qed.

(** [strtol] of the decimal notation of a number, after blanks. *)
Lemma strtol_dec blanks v :
  Forall (fun c => IsSpace c = true) blanks -> strtol (blanks ++ dec v) = (clamp_long v, []).
Proof.
  intros Hb. unfold strtol.
  assert (Hskip : forall s, match s with c :: _ => IsSpace c = false | [] => True end ->
            skip_spaces (blanks ++ s) = s).
  { intros s Hs. induction Hb as [|c b Hc _ IH]; simpl; [|by rewrite Hc].
    destruct s as [|c s]; [done|]. simpl. by rewrite Hs. }
  unfold dec. destruct (Z.ltb_spec v 0) as [Hneg|Hpos].
  - destruct (digits_spec (- v)) as (D & -> & Hne & Hall & Hval); [lia|].
    rewrite Hskip by done. rewrite bool_decide_true by done.
    destruct D as [|c D]; [done|]. pose proof (Forall_inv Hall) as Hc. simpl in Hc.
    rewrite Hc, digits_value_all, Hval by done. do 2 f_equal. lia.
  - destruct (digits_spec v) as (D & -> & Hne & Hall & Hval); [lia|].
    destruct D as [|c D]; [done|]. pose proof (Forall_inv Hall) as Hc. simpl in Hc.
    pose proof (digit_facts_all c) as Hf. unfold digit_facts in Hf. rewrite Hc in Hf.
    simpl in Hf. rewrite !andb_true_iff, !negb_true_iff in Hf. destruct Hf as [[H1 H2] H3].
    rewrite Hskip by done. by rewrite H2, H3, Hc, digits_value_all, Hval by done.
Qed.

Lemma ParseInt32_dec src blanks v :
  Forall (fun c => IsSpace c = true) blanks ->
  fst (ParseInt32 src (blanks ++ dec v)) = if int_ok v then Some v else None.
Proof.
  intros Hb. unfold ParseInt32. rewrite strtol_dec by done. cbn [negb].
  rewrite bool_decide_true by done. cbn [negb].
  set (w := clamp_long v). destruct (int_ok v) eqn:Eo.
  - apply int_ok_iff in Eo.
    assert (Hw : w = v) by (unfold w, clamp_long, LONG_MAX, LONG_MIN; range).
    assert (E : to_int32 v = v).
    { unfold to_int32. change (2 ^ 31) with 2147483648. change (2 ^ 32) with 4294967296.
      rewrite Z.mod_small; range. }
    rewrite Hw, E, Z.eqb_refl, !(proj2 (Z.eqb_neq _ _)) by (unfold LONG_MAX, LONG_MIN; range).
    done.
  - enough (H : (w =? LONG_MAX) || (w =? LONG_MIN) || negb (to_int32 w =? w) = true)
      by (by rewrite H).
    destruct (Z.eqb_spec w LONG_MAX), (Z.eqb_spec w LONG_MIN); try done. simpl.
    apply negb_true_iff, Z.eqb_neq. intros E.
    assert (Hw : w = v) by (unfold w, clamp_long, LONG_MAX, LONG_MIN in *; lia).
    enough (int_ok v = true) by congruence. rewrite Hw in E. rewrite <- E. apply int_ok_iff.
    unfold to_int32. change (2 ^ 31) with 2147483648. change (2 ^ 32) with 4294967296.
    pose proof (Z.mod_pos_bound (v + 2147483648) 4294967296 ltac:(lia)). range.
Qed.

(** ** Sharding *)

(** Whether each test of the program is runnable, in order. *)
Definition runnables (flags : FilterFlags) (suites : list TestSuite) : list bool :=
  concat (map (fun s => map (fun t => is_runnable flags (suite_name_ s) (test_name_ t))
                          (test_info_list_ s)) suites).
(** What [FilterTests] decided for each test. *)
Definition selection (suites : list TestSuite) : list bool :=
  concat (map (fun s => map should_run_ (test_info_list_ s)) suites).

(** The selection of a shard: each runnable test whose number has the remainder
    [i]; [r] tests were runnable before. *)
Fixpoint shard_selection (n i r : Z) (rs : list bool) : list bool :=
  match rs with
  | [] => []
  | b :: rs => (b && (Z.rem r n =? i)) :: shard_selection n i (r + Z.b2z b) rs
  end.

Definition count_runnable (r : Z) (rs : list bool) : Z := foldl (fun r b => r + Z.b2z b) r rs.

Lemma shard_selection_app n i r rs1 rs2 :
  shard_selection n i r (rs1 ++ rs2) =
  shard_selection n i r rs1 ++ shard_selection n i (count_runnable r rs1) rs2.
Proof. revert r; induction rs1 as [|b rs1 IH]; intros r; simpl; [done|]. by rewrite IH. Qed.

(** The selection under a protocol. *)
Definition protocol_selection (shard : ReactionToSharding) (n i r : Z) (rs : list bool) : list bool :=
  match shard with
  | HONOR_SHARDING_PROTOCOL => shard_selection n i r rs
  | IGNORE_SHARDING_PROTOCOL => rs
  end.

Lemma protocol_selection_app shard n i r rs1 rs2 :
  protocol_selection shard n i r (rs1 ++ rs2) =
  protocol_selection shard n i r rs1 ++ protocol_selection shard n i (count_runnable r rs1) rs2.
Proof. destruct shard; [apply shard_selection_app|done]. Qed.

Lemma count_runnable_app r rs1 rs2 : count_runnable r (rs1 ++ rs2) = count_runnable (count_runnable r rs1) rs2.
Proof. apply foldl_app. Qed.
Lemma count_runnable_bounds r rs : r <= count_runnable r rs <= r + Z.of_nat (length rs).
Proof.
  revert r; induction rs as [|b rs IH]; intros r; cbn [count_runnable foldl length]; [lia|].
  specialize (IH (r + Z.b2z b)). unfold count_runnable in IH. destruct b; cbn [Z.b2z] in *; lia.
Qed.

(** The counters stay in the range of an [int] if the number of tests does. *)
Lemma filter_tests_spec flags shard n i name tests r s :
  0 <= s <= r -> r + Z.of_nat (length tests) <= INT_MAX ->
  let rs := map (fun t => is_runnable flags name (test_name_ t)) tests in
  exists tests',
    filter_tests flags shard n i name tests r s =
      Ok (tests', count_runnable r rs, count_runnable s (map should_run_ tests')) /\
    map should_run_ tests' = protocol_selection shard n i r rs /\
    count_runnable s (map should_run_ tests') <= count_runnable r rs.
Proof.
  revert r s; induction tests as [|t tests IH]; intros r s Hs Hr.
  { exists []. destruct shard; (split; [done|split; [done|cbn; lia]]). }
  cbn [filter_tests length] in *. unfold filter_test. cbv zeta.
  set (run := is_runnable flags name (test_name_ t)). set (sel := andb run _).
  assert (Hsel : 0 <= Z.b2z sel <= Z.b2z run /\ Z.b2z run <= 1)
    by (subst sel; destruct run, shard, (ShouldRunTestOnShard n i r); cbn; lia).
  rewrite !iadd_ok, !bind_ok by range.
  destruct (IH (r + Z.b2z run) (s + Z.b2z sel)) as (tests' & -> & H1 & H2); [lia|lia|].
  rewrite bind_ok. match goal with |- exists _, Ok (?ts, _, _) = _ /\ _ => exists ts end.
  cbn [map]. split; [reflexivity|]. split; [|exact H2]. rewrite H1. subst sel.
  destruct shard; cbn; [by rewrite negb_involutive|by rewrite andb_true_r].
Qed.

Lemma filter_suites_spec flags shard n i suites r s :
  0 <= s <= r -> r + Z.of_nat (length (runnables flags suites)) <= INT_MAX ->
  exists suites',
    filter_suites flags shard n i suites r s = Ok (suites', count_runnable s (selection suites')) /\
    selection suites' = protocol_selection shard n i r (runnables flags suites).
Proof.
  revert r s; induction suites as [|u suites IH]; intros r s Hs Hr.
  { exists []. by destruct shard. }
  cbn [filter_suites]. unfold runnables in *. cbn [map concat] in *. rewrite length_app, length_map in Hr.
  destruct (filter_tests_spec flags shard n i (suite_name_ u) (test_info_list_ u) r s)
    as (tests & -> & H1 & H2); [lia|lia|]. rewrite bind_ok.
  set (rs := map _ (test_info_list_ u)) in *.
  pose proof (count_runnable_bounds r rs) as Hb. pose proof (count_runnable_bounds s (map should_run_ tests)).
  unfold rs in Hb at 3. rewrite length_map in Hb.
  destruct (IH (count_runnable r rs) (count_runnable s (map should_run_ tests))) as (suites' & -> & H4); [lia|lia|].
  rewrite bind_ok. match goal with |- exists _, Ok (?us, _) = _ /\ _ => exists us end.
  unfold selection in *. cbn [map concat test_info_list_ with_tests]. rewrite count_runnable_app.
  split; [reflexivity|]. by rewrite H1, H4, protocol_selection_app.
Qed.

Lemma count_runnable_nonneg r rs : 0 <= r -> 0 <= count_runnable r rs.
Proof.
  revert r; induction rs as [|b rs IH]; intros r H; [done|]. simpl. apply IH. destruct b; simpl; lia.
Qed.

(** The [k]-th test of each shard has the same number. *)
Lemma shard_selection_lookup n i r rs k b :
  rs !! k = Some b ->
  shard_selection n i r rs !! k = Some (b && (Z.rem (count_runnable r (take k rs)) n =? i)).
Proof.
  revert r k; induction rs as [|c rs IH]; intros r [|k] H; try done.
  - by injection H as ->.
  - simpl in *. by apply IH.
Qed.

(** The environment of shard [i] of [n]. *)
Definition shard_env (n i : Z) (var : text) : option text :=
  if bool_decide (var = kTestTotalShards) then Some (dec n)
  else if bool_decide (var = kTestShardIndex) then Some (dec i) else None.

Lemma shard_env_reads n i :
  int_ok n = true -> int_ok i = true ->
  Int32FromEnvOrDie (shard_env n i) kTestTotalShards (-1) = Ok n /\
  Int32FromEnvOrDie (shard_env n i) kTestShardIndex (-1) = Ok i.
Proof.
  intros Hn Hi. unfold Int32FromEnvOrDie.
  change (shard_env n i kTestTotalShards) with (Some (dec n)).
  change (shard_env n i kTestShardIndex) with (Some (dec i)). cbv beta iota.
  by rewrite (ParseInt32_dec _ [] n), (ParseInt32_dec _ [] i), Hn, Hi by constructor.
Qed.

(** The tests that [RunAllTests] selects outside of a death test: with the protocol
    that [ShouldShard] asks for. *)
Definition selects (getenv : text -> option text) (flags : FilterFlags)
    (suites suites' : list TestSuite) (count : Z) : Prop :=
  exists should_shard,
    ShouldShard getenv kTestTotalShards kTestShardIndex false = Ok should_shard /\
    FilterTests getenv flags (if should_shard then HONOR_SHARDING_PROTOCOL else IGNORE_SHARDING_PROTOCOL)
      suites = Ok (suites', count).

(** Without the two variables there is no sharding. *)
Lemma selects_unsharded getenv flags suites :
  getenv kTestTotalShards = None -> getenv kTestShardIndex = None ->
  Z.of_nat (length (runnables flags suites)) <= INT_MAX ->
  exists suites', selects getenv flags suites suites' (count_runnable 0 (selection suites')) /\
    selection suites' = runnables flags suites.
Proof.
  intros H1 H2 Hlen.
  destruct (filter_suites_spec flags IGNORE_SHARDING_PROTOCOL (-1) (-1) suites 0 0) as (suites' & E & H); [lia|lia|].
  exists suites'. split; [|exact H]. exists false. split; [|exact E].
  unfold ShouldShard, Int32FromEnvOrDie. by rewrite H1, H2.
Qed.

Lemma selects_shard n i flags suites :
  0 <= i < n -> n <= INT_MAX -> Z.of_nat (length (runnables flags suites)) <= INT_MAX ->
  exists suites', selects (shard_env n i) flags suites suites' (count_runnable 0 (selection suites')) /\
    selection suites' = protocol_selection (if 1 <? n then HONOR_SHARDING_PROTOCOL else IGNORE_SHARDING_PROTOCOL)
                          n i 0 (runnables flags suites).
Proof.
  intros Hi Hn Hlen. assert (Hin : int_ok n = true /\ int_ok i = true) by (rewrite !int_ok_iff; range).
  destruct (shard_env_reads n i (proj1 Hin) (proj2 Hin)) as [E1 E2].
  assert (Hshard : ShouldShard (shard_env n i) kTestTotalShards kTestShardIndex false = Ok (1 <? n)).
  { unfold ShouldShard. rewrite E1, E2, !bind_ok.
    rewrite (proj2 (Z.eqb_neq n (-1))), (proj2 (Z.eqb_neq i (-1))) by lia. cbn [andb negb].
    by rewrite (proj2 (Z.ltb_ge i 0)), (proj2 (Z.leb_gt n i)) by lia. }
  destruct (Z.ltb_spec 1 n).
  - destruct (filter_suites_spec flags HONOR_SHARDING_PROTOCOL n i suites 0 0) as (suites' & E & H'); [lia|lia|].
    exists suites'. split; [|exact H']. exists true. split; [exact Hshard|].
    unfold FilterTests. by rewrite E1, E2, !bind_ok.
  - destruct (filter_suites_spec flags IGNORE_SHARDING_PROTOCOL (-1) (-1) suites 0 0) as (suites' & E & H');
      [lia|lia|].
    exists suites'. split; [|exact H']. exists false. split; [exact Hshard|exact E].
Qed.

(** ** Shuffling *)

Lemma Generate_range state_ range :
  0 < range <= kMaxRange ->
  exists state' n, Generate state_ range = Ok (state', n) /\ 0 <= n < range /\
    0 <= state' < kMaxRange.
Proof.
  intros H. unfold Generate. rewrite (proj2 (Z.ltb_lt _ _)), (proj2 (Z.leb_le range _)) by lia.
  simpl. do 2 eexists. split; [reflexivity|].
  split; apply Z.mod_pos_bound; [lia | unfold kMaxRange; lia].
Qed.

Section shuffle_lemmas.
Context {A : Type}.
Implicit Types v : list A.

Lemma insert_middle (a b : list A) x y : <[length a := y]> (a ++ x :: b) = a ++ y :: b.
Proof. induction a as [|z a IH]; simpl; [done | by rewrite IH]. Qed.

Lemma swap_Permutation i j v :
  (i <= j)%nat -> (j < length v)%nat ->
  exists v', swap i j v = Ok v' /\ v' ≡ₚ v /\ length v' = length v /\
    take i v' = take i v /\ drop (S j) v' = drop (S j) v.
Proof.
  intros Hij Hj. destruct (lookup_lt_is_Some_2 v i) as [x Hx]; [lia|].
  destruct (lookup_lt_is_Some_2 v j) as [y Hy]; [lia|].
  unfold swap. rewrite Hx, Hy. simpl. eexists. split; [reflexivity|].
  assert (Hp : <[j:=x]> (<[i:=y]> v) ≡ₚ v).
  { destruct (Nat.eq_dec i j) as [->|Hne].
    - rewrite Hx in Hy. injection Hy as <-. by rewrite (list_insert_id v j x), list_insert_id.
    - apply take_drop_middle in Hx as E1. set (a := take i v) in *.
      set (r := drop (S i) v) in *.
      assert (Hla : length a = i) by (unfold a; rewrite length_take; lia).
      assert (Hr : r !! (j - S i)%nat = Some y).
      { unfold r. rewrite lookup_drop. rewrite <- Hy. f_equal. lia. }
      apply take_drop_middle in Hr as E2. set (b := take (j - S i) r) in *.
      set (c := drop (S (j - S i)) r) in *.
      assert (Hlb : length b = (j - S i)%nat).
      { unfold b. rewrite length_take. apply lookup_lt_Some in Hr. lia. }
      clearbody a r b c. subst r v. replace i with (length a) at 1 by done.
      rewrite insert_middle.
      replace j with (length (a ++ y :: b)) at 1 by (rewrite length_app; simpl; lia).
      change (a ++ y :: b ++ y :: c) with (a ++ (y :: b) ++ y :: c).
      rewrite app_assoc, insert_middle, <- app_assoc. simpl.
      apply Permutation_app_head.
      rewrite <- (Permutation_middle b c x), <- (Permutation_middle b c y).
      apply perm_swap. }
  split_and!; [done | by rewrite !length_insert | |].
  - by rewrite !take_insert_ge by lia.
  - by rewrite !drop_insert_lt by lia.
Qed.

Lemma shuffle_loop_step width random b v :
  shuffle_loop (S (S width)) random b v =
  ('(random, n) ← Generate random (Z.of_nat (S (S width)));
   v ← swap (b + Z.to_nat n) (b + S (S width) - 1) v;
   shuffle_loop (S width) random b v).
Proof. done. Qed.

(** The loop permutes the range and nothing else. *)
Lemma shuffle_loop_Permutation width random b v :
  (b + width <= length v)%nat -> Z.of_nat width <= kMaxRange ->
  exists random' v', shuffle_loop width random b v = Ok (random', v') /\ v' ≡ₚ v /\
    length v' = length v /\ take b v' = take b v /\ drop (b + width) v' = drop (b + width) v.
Proof.
  revert random v; induction width as [|width IH]; intros random v Hl Hm.
  - by exists random, v.
  - destruct width as [|width]; [by exists random, v|].
    rewrite shuffle_loop_step.
    destruct (Generate_range random (Z.of_nat (S (S width)))) as (r & n & -> & Hn & _); [lia|].
    rewrite bind_ok.
    destruct (swap_Permutation (b + Z.to_nat n) (b + S (S width) - 1) v)
      as (v1 & -> & Hp & Hlen & Ht & Hd); [lia..|]. rewrite bind_ok.
    destruct (IH r v1) as (r' & v2 & -> & Hp2 & Hlen2 & Ht2 & Hd2); [lia..|].
    exists r', v2. split_and!; [done | by rewrite Hp2 | by rewrite Hlen2 | |].
    + rewrite Ht2. apply (f_equal (take b)) in Ht. rewrite !take_take in Ht.
      by rewrite Nat.min_l in Ht by lia.
    + replace (b + S (S width))%nat with (b + S width + 1)%nat by lia.
      rewrite <- !(drop_drop _ 1 (b + S width)), Hd2.
      rewrite !drop_drop. replace (b + S width + 1)%nat with (S (b + S (S width) - 1)) by lia.
      done.
Qed.

Lemma ShuffleRange_Permutation random b e v :
  0 <= b <= e -> e <= Z.of_nat (length v) -> e - b <= kMaxRange ->
  exists random' v', ShuffleRange random b e v = Ok (random', v') /\ v' ≡ₚ v /\
    length v' = length v /\ take (Z.to_nat b) v' = take (Z.to_nat b) v /\
    drop (Z.to_nat e) v' = drop (Z.to_nat e) v.
Proof.
  intros Hb He Hm. unfold ShuffleRange.
  rewrite !(proj2 (Z.leb_le _ _)) by lia. simpl.
  destruct (shuffle_loop_Permutation (Z.to_nat (e - b)) random (Z.to_nat b) v)
    as (r & v' & -> & Hp & Hl & Ht & Hd); [lia..|].
  exists r, v'. replace (Z.to_nat b + Z.to_nat (e - b))%nat with (Z.to_nat e) in Hd by lia.
  done.
Qed.

(** The two halves of a list whose first part was permuted in place. *)
Lemma Permutation_halves k v v' :
  v' ≡ₚ v -> drop k v' = drop k v -> take k v' ≡ₚ take k v.
Proof.
  intros Hp Hd. rewrite <- (take_drop k v), <- (take_drop k v') in Hp. rewrite Hd in Hp.
  by apply Permutation_app_inv_r in Hp.
Qed.

End shuffle_lemmas.

Lemma shuffle_suites_runs random suites :
  Forall (fun s => Z.of_nat (length (test_indices_ s)) <= kMaxRange) suites ->
  exists random' suites', shuffle_suites random suites = Ok (random', suites') /\
    Forall2 (fun s s' => s' = with_indices s (test_indices_ s') /\
                         test_indices_ s' ≡ₚ test_indices_ s) suites suites'.
Proof.
  intros H. revert random; induction H as [|s suites Hs _ IH]; intros random.
  { exists random, []. split; [done | constructor]. }
  cbn [shuffle_suites]. unfold suite_ShuffleTests, Shuffle.
  destruct (ShuffleRange_Permutation random 0 (Z.of_nat (length (test_indices_ s)))
              (test_indices_ s)) as (r & v' & -> & Hp & _); [lia..|].
  cbn [mbind outcome_bind]. destruct (IH r) as (r' & ss & -> & Hf). cbn [mbind outcome_bind].
  do 2 eexists. split; [reflexivity|]. by constructor.
Qed.

(** Unshuffling a program that was in the order of registration. *)
Lemma unshuffle_restores u idx ss :
  test_suite_indices_ u = map Z.of_nat (seq 0 (length (test_suites_ u))) ->
  Forall (fun s => Z.of_nat (length (test_indices_ s)) <= kMaxRange /\
       test_indices_ s = map Z.of_nat (seq 0 (length (test_indices_ s)))) (test_suites_ u) ->
  Forall2 (fun s s' => s' = with_indices s (test_indices_ s') /\
                       test_indices_ s' ≡ₚ test_indices_ s) (test_suites_ u) ss ->
  UnshuffleTests (mkSuites ss idx (last_death_test_suite_ u)) = u.
Proof.
  destruct u as [suites indices deaths]. unfold UnshuffleTests. simpl. intros Hidx Ht Hss.
  pose proof (Forall2_length _ _ _ Hss) as Hl. rewrite <- Hl, <- Hidx. f_equal.
  clear -Ht Hss. induction Hss as [|s s' suites ss [Hs Hp] _ IH]; [done|].
  inversion Ht as [|? ? [_ Hord] Ht']; subst. simpl. f_equal; [|by apply IH].
  rewrite Hs. unfold suite_UnshuffleTests, with_indices. simpl.
  rewrite (Permutation_length Hp), <- Hord. by destruct s.
Qed.

(** Shuffling. *)
Lemma ShuffleTests_runs (random : Z) (u : Suites)
    (Hlast : -1 <= last_death_test_suite_ u < Z.of_nat (length (test_suites_ u)))
    (Hidx : test_suite_indices_ u = map Z.of_nat (seq 0 (length (test_suites_ u))))
    (Hmax : Z.of_nat (length (test_suites_ u)) <= kMaxRange)
    (Htests : Forall (fun s => Z.of_nat (length (test_indices_ s)) <= kMaxRange /\
       test_indices_ s = map Z.of_nat (seq 0 (length (test_indices_ s)))) (test_suites_ u)) :
  let deaths := Z.to_nat (last_death_test_suite_ u + 1) in
  exists random' u', ShuffleTests random u = Ok (random', u') /\
    take deaths (test_suite_indices_ u') ≡ₚ take deaths (test_suite_indices_ u) /\
    drop deaths (test_suite_indices_ u') ≡ₚ drop deaths (test_suite_indices_ u) /\
    Forall2 (fun s s' => s' = with_indices s (test_indices_ s') /\
                         test_indices_ s' ≡ₚ test_indices_ s) (test_suites_ u) (test_suites_ u') /\
    UnshuffleTests u' = u.
Proof.
  intros deaths. unfold ShuffleTests.
  assert (Hlen : length (test_suite_indices_ u) = length (test_suites_ u))
    by (rewrite Hidx, length_map, length_seq; done).
  destruct (ShuffleRange_Permutation random 0 (last_death_test_suite_ u + 1)
              (test_suite_indices_ u)) as (r1 & v1 & -> & Hp1 & Hl1 & _ & Hd1); [lia..|].
  rewrite bind_ok.
  destruct (ShuffleRange_Permutation r1 (last_death_test_suite_ u + 1)
              (Z.of_nat (length (test_suites_ u))) v1) as (r2 & v2 & -> & Hp2 & Hl2 & Ht2 & _);
    [lia..|]. rewrite bind_ok.
  destruct (shuffle_suites_runs r2 (test_suites_ u)) as (r3 & ss & -> & Hss);
    [eapply Forall_impl; [exact Htests | by intros s [? _]]|].
  rewrite bind_ok. do 2 eexists. split; [reflexivity|]. simpl.
  fold deaths in Hd1, Ht2. split_and!.
  - rewrite Ht2. by apply Permutation_halves.
  - rewrite <- Hd1. pose proof (take_drop deaths v1) as E1. pose proof (take_drop deaths v2) as E2.
    rewrite <- E1, <- E2 in Hp2. rewrite Ht2 in Hp2. by apply Permutation_app_inv_l in Hp2.
  - exact Hss.
  - apply unshuffle_restores; [done | done | done].
Qed.
