(* ===== verification/Cardinality.v ===== *)
(** * Cardinalities (gmock-cardinalities.cc, gmock-cardinalities.h)

    How many times a mock function is expected to be called.  [Between] gives
    the object and the text of the failure it reports, if any. *)

From S2P Require Import Prelude Outcome Common CStr.

(** [BetweenCardinalityImpl]. *)
Record Cardinality : Type := mkCardinality { min_ : Z; max_ : Z }.

#[export] Instance Cardinality_eq_dec : EqDecision Cardinality.
Proof. solve_decision. Defined.

Definition Between (min max : Z) : Cardinality * option text :=
  let lo := if 0 <=? min then min else 0 in
  let hi := if lo <=? max then max else lo in
  (mkCardinality lo hi,
   if min <? 0 then
     Some (str "The invocation lower bound must be >= 0, but is actually " ++ dec min ++ str ".")
   else if max <? 0 then
     Some (str "The invocation upper bound must be >= 0, but is actually " ++ dec max ++ str ".")
   else if max <? min then
     Some (str "The invocation upper bound (" ++ dec max ++
           str ") must be >= the invocation lower bound (" ++ dec min ++ str ").")
   else None).

Definition AtLeast (n : Z) : Cardinality * option text := Between n INT_MAX.
Definition AtMost (n : Z) : Cardinality * option text := Between 0 n.
Definition AnyNumber : Cardinality * option text := AtLeast 0.
Definition Exactly (n : Z) : Cardinality * option text := Between n n.

Definition ConservativeLowerBound (c : Cardinality) : Z := min_ c.
Definition ConservativeUpperBound (c : Cardinality) : Z := max_ c.
Definition IsSatisfiedByCallCount (c : Cardinality) (call_count : Z) : bool :=
  (min_ c <=? call_count) && (call_count <=? max_ c).
Definition IsSaturatedByCallCount (c : Cardinality) (call_count : Z) : bool :=
  max_ c <=? call_count.
Definition IsOverSaturatedByCallCount (c : Cardinality) (call_count : Z) : bool :=
  IsSaturatedByCallCount c call_count && negb (IsSatisfiedByCallCount c call_count).

Definition FormatTimes (n : Z) : text :=
  if n =? 1 then str "once" else if n =? 2 then str "twice" else dec n ++ str " times".

Definition DescribeTo (c : Cardinality) : text :=
  if min_ c =? 0 then
    if max_ c =? 0 then str "never called"
    else if max_ c =? INT_MAX then str "called any number of times"
    else str "called at most " ++ FormatTimes (max_ c)
  else if min_ c =? max_ c then str "called " ++ FormatTimes (min_ c)
  else if max_ c =? INT_MAX then str "called at least " ++ FormatTimes (min_ c)
  else str "called between " ++ dec (min_ c) ++ str " and " ++ dec (max_ c) ++ str " times".

Definition DescribeActualCallCountTo (actual_call_count : Z) : text :=
  if 0 <? actual_call_count then str "called " ++ FormatTimes actual_call_count
  else str "never called".

(** ** Bounds *)

(** What the constructor establishes, whatever its arguments. *)
Definition proper (c : Cardinality) : Prop := 0 <= min_ c <= max_ c.

Lemma Between_proper min max : proper (fst (Between min max)).
Proof. unfold proper, Between. simpl. repeat zcase; lia. Qed.

Lemma Between_accepts min max :
  snd (Between min max) = None -> fst (Between min max) = mkCardinality min max /\ 0 <= min <= max.
Proof.
  unfold Between. simpl. repeat zcase; try done; try lia.
Qed.

Lemma IsSatisfied_iff c n : IsSatisfiedByCallCount c n = true <-> min_ c <= n <= max_ c.
Proof. unfold IsSatisfiedByCallCount. lia. Qed.

Lemma IsSaturated_iff c n : IsSaturatedByCallCount c n = true <-> max_ c <= n.
Proof. unfold IsSaturatedByCallCount. lia. Qed.

Lemma IsOverSaturated_iff c n :
  proper c -> IsOverSaturatedByCallCount c n = true <-> max_ c < n.
Proof.
  unfold IsOverSaturatedByCallCount, IsSaturatedByCallCount, IsSatisfiedByCallCount, proper.
  intros H. lia.
Qed.

