(* ===== verification/Expectations.v ===== *)
(** * Expectations (gmock-spec-builders.cc, gmock-spec-builders.h)

    The state of GoogleMock is one value, [World]: the expectations by address
    (an expectation is shared by its mock function, the sequences and its
    successors), the mock functions, the sequences, the failures reported and
    the text logged.  [Args] is the type of the argument tuples of all the mock
    functions, [Act] that of the actions; what a matcher answers and writes is
    given with it.  Addresses are numbers in the order of allocation, and an
    [ExpectationSet] is walked in the order of [elements]; the addresses that
    order it in the program are not specified.

    The two walks over the prerequisites that do not retire them end only when
    the prerequisites are acyclic; with [n] expectations a walk from one of them
    then visits at most [2 ^ n]. *)

From S2P Require Import Prelude Outcome Common CStr GmockUtils TestResult Cardinality.

Inductive Clause : Type :=
  kNone | kWith | kTimes | kInSequence | kAfter | kWillOnce | kWillRepeatedly
  | kRetiresOnSaturation.
(** The order of the enumeration. *)
Definition clause_index (c : Clause) : Z :=
  match c with
  | kNone => 0 | kWith => 1 | kTimes => 2 | kInSequence => 3 | kAfter => 4 | kWillOnce => 5
  | kWillRepeatedly => 6 | kRetiresOnSaturation => 7
  end.

(** An action; the one of [DoDefault()] stands for the default action. *)
Inductive Action (Act : Type) : Type := DoDefault | Perform (a : Act).
Arguments DoDefault {Act}.
Arguments Perform {Act} a.

(** Matchers on an argument tuple, with what they write about a mismatch. *)
Record Matcher (Args : Type) : Type := mkMatcher {
  Matches : Args -> bool;
  ExplainFailure : Args -> text;
  DescribeMatcher : text;
}.
Arguments mkMatcher {Args} _ _ _.
Arguments Matches {Args} _ _.
Arguments ExplainFailure {Args} _ _.
Arguments DescribeMatcher {Args} _.

Record ExpectationBase {Args Act : Type} : Type := mkExpectation {
  file_ : option text;
  line_ : Z;
  source_text_ : text;
  description_ : text;
  cardinality_specified_ : bool;
  cardinality_ : Cardinality;
  immediate_prerequisites_ : gset nat;
  call_count_ : Z;
  retired_ : bool;
  untyped_actions_ : list (Action Act);
  extra_matcher_specified_ : bool;
  repeated_action_specified_ : bool;
  retires_on_saturation_ : bool;
  last_clause_ : Clause;
  action_count_checked_ : bool;
  matchers_ : Matcher Args;
  extra_matcher_ : Matcher Args;
  repeated_action_ : Action Act;
}.
Arguments ExpectationBase : clear implicits.
Arguments mkExpectation {Args Act} _ _ _ _ _ _ _ _ _ _ _ _ _ _ _ _ _ _.

Definition with_cardinality {Args Act} (specified : bool) (c : Cardinality) (x : ExpectationBase Args Act)
    : ExpectationBase Args Act :=
  mkExpectation (file_ x) (line_ x) (source_text_ x) (description_ x) specified c
    (immediate_prerequisites_ x) (call_count_ x) (retired_ x) (untyped_actions_ x)
    (extra_matcher_specified_ x) (repeated_action_specified_ x) (retires_on_saturation_ x)
    (last_clause_ x) (action_count_checked_ x) (matchers_ x) (extra_matcher_ x)
    (repeated_action_ x).
Definition with_prerequisites {Args Act} (s : gset nat) (x : ExpectationBase Args Act)
    : ExpectationBase Args Act :=
  mkExpectation (file_ x) (line_ x) (source_text_ x) (description_ x) (cardinality_specified_ x)
    (cardinality_ x) s (call_count_ x) (retired_ x) (untyped_actions_ x)
    (extra_matcher_specified_ x) (repeated_action_specified_ x) (retires_on_saturation_ x)
    (last_clause_ x) (action_count_checked_ x) (matchers_ x) (extra_matcher_ x)
    (repeated_action_ x).
Definition with_call_count {Args Act} (n : Z) (x : ExpectationBase Args Act)
    : ExpectationBase Args Act :=
  mkExpectation (file_ x) (line_ x) (source_text_ x) (description_ x) (cardinality_specified_ x)
    (cardinality_ x) (immediate_prerequisites_ x) n (retired_ x) (untyped_actions_ x)
    (extra_matcher_specified_ x) (repeated_action_specified_ x) (retires_on_saturation_ x)
    (last_clause_ x) (action_count_checked_ x) (matchers_ x) (extra_matcher_ x)
    (repeated_action_ x).
Definition Retire {Args Act}  (x : ExpectationBase Args Act)
    : ExpectationBase Args Act :=
  mkExpectation (file_ x) (line_ x) (source_text_ x) (description_ x) (cardinality_specified_ x)
    (cardinality_ x) (immediate_prerequisites_ x) (call_count_ x) true (untyped_actions_ x)
    (extra_matcher_specified_ x) (repeated_action_specified_ x) (retires_on_saturation_ x)
    (last_clause_ x) (action_count_checked_ x) (matchers_ x) (extra_matcher_ x)
    (repeated_action_ x).
Definition with_actions {Args Act} (actions : list (Action Act)) (x : ExpectationBase Args Act)
    : ExpectationBase Args Act :=
  mkExpectation (file_ x) (line_ x) (source_text_ x) (description_ x) (cardinality_specified_ x)
    (cardinality_ x) (immediate_prerequisites_ x) (call_count_ x) (retired_ x) actions
    (extra_matcher_specified_ x) (repeated_action_specified_ x) (retires_on_saturation_ x)
    (last_clause_ x) (action_count_checked_ x) (matchers_ x) (extra_matcher_ x)
    (repeated_action_ x).
Definition with_extra_matcher {Args Act} (m : Matcher Args) (x : ExpectationBase Args Act)
    : ExpectationBase Args Act :=
  mkExpectation (file_ x) (line_ x) (source_text_ x) (description_ x) (cardinality_specified_ x)
    (cardinality_ x) (immediate_prerequisites_ x) (call_count_ x) (retired_ x)
    (untyped_actions_ x) true (repeated_action_specified_ x) (retires_on_saturation_ x)
    (last_clause_ x) (action_count_checked_ x) (matchers_ x) m (repeated_action_ x).
Definition with_repeated_action {Args Act} (a : Action Act) (x : ExpectationBase Args Act)
    : ExpectationBase Args Act :=
  mkExpectation (file_ x) (line_ x) (source_text_ x) (description_ x) (cardinality_specified_ x)
    (cardinality_ x) (immediate_prerequisites_ x) (call_count_ x) (retired_ x)
    (untyped_actions_ x) (extra_matcher_specified_ x) true (retires_on_saturation_ x)
    (last_clause_ x) (action_count_checked_ x) (matchers_ x) (extra_matcher_ x) a.
Definition with_retires_on_saturation {Args Act}  (x : ExpectationBase Args Act)
    : ExpectationBase Args Act :=
  mkExpectation (file_ x) (line_ x) (source_text_ x) (description_ x) (cardinality_specified_ x)
    (cardinality_ x) (immediate_prerequisites_ x) (call_count_ x) (retired_ x)
    (untyped_actions_ x) (extra_matcher_specified_ x) (repeated_action_specified_ x) true
    (last_clause_ x) (action_count_checked_ x) (matchers_ x) (extra_matcher_ x)
    (repeated_action_ x).
Definition with_clause {Args Act} (c : Clause) (x : ExpectationBase Args Act)
    : ExpectationBase Args Act :=
  mkExpectation (file_ x) (line_ x) (source_text_ x) (description_ x) (cardinality_specified_ x)
    (cardinality_ x) (immediate_prerequisites_ x) (call_count_ x) (retired_ x)
    (untyped_actions_ x) (extra_matcher_specified_ x) (repeated_action_specified_ x)
    (retires_on_saturation_ x) c (action_count_checked_ x) (matchers_ x) (extra_matcher_ x)
    (repeated_action_ x).
Definition with_checked {Args Act}  (x : ExpectationBase Args Act)
    : ExpectationBase Args Act :=
  mkExpectation (file_ x) (line_ x) (source_text_ x) (description_ x) (cardinality_specified_ x)
    (cardinality_ x) (immediate_prerequisites_ x) (call_count_ x) (retired_ x)
    (untyped_actions_ x) (extra_matcher_specified_ x) (repeated_action_specified_ x)
    (retires_on_saturation_ x) (last_clause_ x) true (matchers_ x) (extra_matcher_ x)
    (repeated_action_ x).
Definition UntypedDescription {Args Act} (d : text) (x : ExpectationBase Args Act)
    : ExpectationBase Args Act :=
  mkExpectation (file_ x) (line_ x) (source_text_ x) d (cardinality_specified_ x) (cardinality_ x)
    (immediate_prerequisites_ x) (call_count_ x) (retired_ x) (untyped_actions_ x)
    (extra_matcher_specified_ x) (repeated_action_specified_ x) (retires_on_saturation_ x)
    (last_clause_ x) (action_count_checked_ x) (matchers_ x) (extra_matcher_ x)
    (repeated_action_ x).


Record OnCallSpec {Args Act : Type} : Type := mkOnCallSpec {
  spec_file : option text; spec_line : Z; spec_clause : Z;
  spec_matchers : Matcher Args; spec_extra : Matcher Args; spec_action : Action Act }.
Arguments OnCallSpec : clear implicits.
Arguments mkOnCallSpec {Args Act} _ _ _ _ _ _.

Record FunctionMocker {Args Act : Type} : Type := mkFunctionMocker {
  mock_obj_ : option nat;
  name_ : text;
  returns_void : bool;
  untyped_on_call_specs_ : list (OnCallSpec Args Act);
  untyped_expectations_ : list nat;
}.
Arguments FunctionMocker : clear implicits.
Arguments mkFunctionMocker {Args Act} _ _ _ _ _.

(** A failure reported to GoogleTest. *)
Record Report : Type := mkReport { report_file : option text; report_line : Z; report_text : text }.

(** What is known of a mock object; its mock functions by their addresses. *)
Record MockObjectState : Type := mkMockObjectState {
  first_used_file : option text;
  first_used_line : Z;
  first_used_test_suite : text;
  first_used_test : text;
  leakable : bool;
  function_mockers : gset nat;
}.
(** [kAllow], [kWarn] and [kFail]. *)
Inductive CallReaction : Type := kAllow | kWarn | kFail.

(** The registry of mock objects and the reactions on uninteresting calls, by
    the address of the mock object. *)
Record Registry : Type := mkRegistry {
  states : gmap nat MockObjectState;
  reactions : gmap nat CallReaction;
}.

Record World {Args Act : Type} : Type := mkWorld {
  expectations : gmap nat (ExpectationBase Args Act);
  mockers : gmap nat (FunctionMocker Args Act);
  sequences : gmap nat (option nat);
  implicit_sequence : option nat;
  registry : Registry;
  reports : list Report;
  logged : text;
}.
Arguments World : clear implicits.
Arguments mkWorld {Args Act} _ _ _ _ _ _ _.

Section expectations.
Context {Args Act : Type}.
(** The trace without some frames, the flag --gmock_verbose and the matcher [A<T>()]. *)
Variables (stack_trace : Z -> text) (verbose : text).
Implicit Types (w : World Args Act) (x : ExpectationBase Args Act) (m : FunctionMocker Args Act).

Definition with_expectations (s : gmap nat (ExpectationBase Args Act)) w : World Args Act :=
  mkWorld s (mockers w) (sequences w) (implicit_sequence w) (registry w) (reports w) (logged w).
Definition with_mockers (s : gmap nat (FunctionMocker Args Act)) w : World Args Act :=
  mkWorld (expectations w) s (sequences w) (implicit_sequence w) (registry w) (reports w) (logged w).
Definition with_sequences (s : gmap nat (option nat)) (i : option nat) w : World Args Act :=
  mkWorld (expectations w) (mockers w) s i (registry w) (reports w) (logged w).
Definition with_registry (r : Registry) w : World Args Act :=
  mkWorld (expectations w) (mockers w) (sequences w) (implicit_sequence w) r (reports w) (logged w).
Definition write_log (t : text) w : World Args Act :=
  mkWorld (expectations w) (mockers w) (sequences w) (implicit_sequence w) (registry w) (reports w)
    (logged w ++ t).

(** [Expect]; the condition is [property]. *)
Definition Expect (property : bool) (file : option text) (line : Z) (msg : text) w
    : World Args Act :=
  if property then w
  else mkWorld (expectations w) (mockers w) (sequences w) (implicit_sequence w) (registry w)
         (reports w ++ [mkReport file line msg]) (logged w).

Definition get w (e : nat) : outcome (ExpectationBase Args Act) :=
  or_fault InvalidDeref (expectations w !! e).
Definition set (e : nat) x w : World Args Act :=
  with_expectations (<[e := x]> (expectations w)) w.

Definition any_args : Matcher Args :=
  mkMatcher (fun _ => true) (fun _ => []) (str "is anything").

(** ** The statement EXPECT_CALL *)

(** The constructors of [ExpectationBase] and [TypedExpectation]. *)
Definition new_Expectation (file : option text) (line : Z) (source_text : text)
    (ms : Matcher Args) : ExpectationBase Args Act :=
  mkExpectation file line source_text [] false (fst (Exactly 1)) ∅ 0 false [] false false false
    kNone false ms any_args DoDefault.

Definition ExpectSpecProperty x (property : bool) (failure_message : text) w : World Args Act :=
  Expect property (file_ x) (line_ x) failure_message w.

(** [CheckActionCountIfNotDone]. *)
Definition CheckActionCountIfNotDone (e : nat) w : outcome (World Args Act) :=
  x ← get w e;
  if action_count_checked_ x then Ok w else
  let w := set e (with_checked x) w in
  if negb (cardinality_specified_ x) then Ok w else
  let action_count := Z.of_nat (List.length (untyped_actions_ x)) in
  let upper_bound := ConservativeUpperBound (cardinality_ x) in
  let lower_bound := ConservativeLowerBound (cardinality_ x) in
  let report (too_many : bool) :=
    t ← Log stack_trace verbose kWarning
          (FormatFileLocation (file_ x) (line_ x) ++ str " " ++
           str "Too " ++ (if too_many then str "many" else str "few") ++
           str " actions specified in " ++ source_text_ x ++ str "..." ++ [LF] ++
           str "Expected to be " ++ DescribeTo (cardinality_ x) ++ str ", but has " ++
           (if too_many then [] else str "only ") ++ dec action_count ++ str " WillOnce()" ++
           (if action_count =? 1 then [] else str "s") ++
           (if repeated_action_specified_ x then str " and a WillRepeatedly()" else []) ++
           str ".") (-1);
    Ok (write_log t w) in
  if (upper_bound <? action_count) ||
     ((action_count =? upper_bound) && repeated_action_specified_ x) then report true
  else if (0 <? action_count) && (action_count <? lower_bound) &&
          negb (repeated_action_specified_ x) then report false
  else Ok w.

Definition With (e : nat) (matcher : Matcher Args) w : outcome (World Args Act) :=
  x ← get w e;
  let w :=
    match last_clause_ x with
    | kWith => ExpectSpecProperty x false
                 (str ".With() cannot appear more than once in an EXPECT_CALL().") w
    | c => ExpectSpecProperty x (clause_index c <? clause_index kWith)
             (str ".With() must be the first clause in an EXPECT_CALL().") w
    end in
  Ok (set e (with_extra_matcher matcher (with_clause kWith x)) w).

(** [UntypedTimes] and the overloads of [Times]. *)
Definition Times (e : nat) (a_cardinality : Cardinality) w : outcome (World Args Act) :=
  x ← get w e;
  let w :=
    match last_clause_ x with
    | kTimes => ExpectSpecProperty x false
                  (str ".Times() cannot appear more than once in an EXPECT_CALL().") w
    | c => ExpectSpecProperty x (clause_index c <? clause_index kTimes)
             (str ".Times() may only appear *before* .InSequence(), .WillOnce(), " ++
              str ".WillRepeatedly(), or .RetiresOnSaturation(), not after.") w
    end in
  Ok (set e (with_cardinality true a_cardinality (with_clause kTimes x)) w).

(** [Sequence::AddExpectation]. *)
Definition AddExpectation (s e : nat) w : outcome (World Args Act) :=
  last ← or_fault InvalidDeref (sequences w !! s);
  if bool_decide (last = Some e) then Ok w else
  w ← (match last with
       | Some l => x ← get w e;
                   Ok (set e (with_prerequisites ({[l]} ∪ immediate_prerequisites_ x) x) w)
       | None => Ok w
       end);
  Ok (with_sequences (<[s := Some e]> (sequences w)) (implicit_sequence w) w).

(** [GetHandleOf]: the expectation must be one of the mock function. *)
Definition GetHandleOf (owner e : nat) w : outcome nat :=
  m ← or_fault InvalidDeref (mockers w !! owner);
  _ ← c_assert (bool_decide (e ∈ untyped_expectations_ m));
  Ok e.

Definition InSequence (owner e s : nat) w : outcome (World Args Act) :=
  x ← get w e;
  let w := ExpectSpecProperty x (clause_index (last_clause_ x) <=? clause_index kInSequence)
             (str ".InSequence() cannot appear after .After(), .WillOnce(), " ++
              str ".WillRepeatedly(), or .RetiresOnSaturation().") w in
  let w := set e (with_clause kInSequence x) w in
  h ← GetHandleOf owner e w;
  AddExpectation s h w.

Definition After (e : nat) (s : gset nat) w : outcome (World Args Act) :=
  x ← get w e;
  let w := ExpectSpecProperty x (clause_index (last_clause_ x) <=? clause_index kAfter)
             (str ".After() cannot appear after .WillOnce(), .WillRepeatedly(), or " ++
              str ".RetiresOnSaturation().") w in
  Ok (set e (with_prerequisites (immediate_prerequisites_ x ∪ s) (with_clause kAfter x)) w).

Definition WillOnce (e : nat) (action : Action Act) w : outcome (World Args Act) :=
  x ← get w e;
  let w := ExpectSpecProperty x (clause_index (last_clause_ x) <=? clause_index kWillOnce)
             (str ".WillOnce() cannot appear after .WillRepeatedly() or " ++
              str ".RetiresOnSaturation().") w in
  let x := with_actions (untyped_actions_ x ++ [action]) (with_clause kWillOnce x) in
  let n := Z.of_nat (List.length (untyped_actions_ x)) in
  Ok (set e (if cardinality_specified_ x then x
             else with_cardinality false (fst (Exactly n)) x) w).

Definition WillRepeatedly (e : nat) (action : Action Act) w : outcome (World Args Act) :=
  x ← get w e;
  let w :=
    match last_clause_ x with
    | kWillRepeatedly => ExpectSpecProperty x false
        (str ".WillRepeatedly() cannot appear more than once in an EXPECT_CALL().") w
    | c => ExpectSpecProperty x (clause_index c <? clause_index kWillRepeatedly)
             (str ".WillRepeatedly() cannot appear after .RetiresOnSaturation().") w
    end in
  let x := with_repeated_action action (with_clause kWillRepeatedly x) in
  let n := Z.of_nat (List.length (untyped_actions_ x)) in
  CheckActionCountIfNotDone e
    (set e (if cardinality_specified_ x then x
            else with_cardinality false (fst (AtLeast n)) x) w).

Definition RetiresOnSaturation (e : nat) w : outcome (World Args Act) :=
  x ← get w e;
  let w := ExpectSpecProperty x
             (clause_index (last_clause_ x) <? clause_index kRetiresOnSaturation)
             (str ".RetiresOnSaturation() cannot appear more than once.") w in
  CheckActionCountIfNotDone e
    (set e (with_retires_on_saturation (with_clause kRetiresOnSaturation x)) w).

(** ** Sequences *)

Definition new_Sequence w : nat * World Args Act :=
  let s := size (sequences w) in
  (s, with_sequences (<[s := None]> (sequences w)) (implicit_sequence w) w).
(** The constructor of [InSequence]; it answers [sequence_created_]. *)
Definition new_InSequence w : bool * World Args Act :=
  match implicit_sequence w with
  | None => let '(s, w) := new_Sequence w in (true, with_sequences (sequences w) (Some s) w)
  | Some _ => (false, w)
  end.
(** Its destructor. *)
Definition delete_InSequence (sequence_created_ : bool) w : World Args Act :=
  if sequence_created_ then with_sequences (sequences w) None w else w.

(** ** The registry of mock objects *)

Definition new_MockObjectState : MockObjectState := mkMockObjectState None (-1) [] [] false ∅.

(** [states()[mock_obj]] and an assignment to it. *)
Definition state_of (mock_obj : nat) w : MockObjectState :=
  default new_MockObjectState (states (registry w) !! mock_obj).
Definition set_state (mock_obj : nat) (s : MockObjectState) w : World Args Act :=
  with_registry (mkRegistry (<[mock_obj := s]> (states (registry w))) (reactions (registry w))) w.

(** [Mock::Register]. *)
Definition Register (mock_obj mocker : nat) w : World Args Act :=
  let s := state_of mock_obj w in
  set_state mock_obj
    (mkMockObjectState (first_used_file s) (first_used_line s) (first_used_test_suite s)
       (first_used_test s) (leakable s) ({[mocker]} ∪ function_mockers s)) w.

(** [Mock::RegisterUseByOnCallOrExpectCall]; [current_test] is the current test
    info: the names of the test suite and of the test. *)
Definition RegisterUseByOnCallOrExpectCall (current_test : option (text * text))
    (mock_obj : nat) (file : option text) (line : Z) w : World Args Act :=
  let s := state_of mock_obj w in
  match first_used_file s with
  | Some _ => set_state mock_obj s w
  | None =>
      let '(suite, test) := default (first_used_test_suite s, first_used_test s) current_test in
      set_state mock_obj
        (mkMockObjectState file line suite test (leakable s) (function_mockers s)) w
  end.

(** [Mock::AllowLeak]. *)
Definition AllowLeak (mock_obj : nat) w : World Args Act :=
  let s := state_of mock_obj w in
  set_state mock_obj
    (mkMockObjectState (first_used_file s) (first_used_line s) (first_used_test_suite s)
       (first_used_test s) true (function_mockers s)) w.

Definition with_owner (o : option nat) (n : text) m : FunctionMocker Args Act :=
  mkFunctionMocker o n (returns_void m) (untyped_on_call_specs_ m) (untyped_expectations_ m).
Definition RegisterOwner (mocker mock_obj : nat) w : outcome (World Args Act) :=
  m ← or_fault InvalidDeref (mockers w !! mocker);
  let w := with_mockers (<[mocker := with_owner (Some mock_obj) (name_ m) m]> (mockers w)) w in
  Ok (Register mock_obj mocker w).
Definition SetOwnerAndName (mocker mock_obj : nat) (name : text) w : outcome (World Args Act) :=
  m ← or_fault InvalidDeref (mockers w !! mocker);
  Ok (with_mockers (<[mocker := with_owner (Some mock_obj) name m]> (mockers w)) w).
(** [MockObject]; [Assert] aborts. *)
Definition MockObject m : outcome nat := or_fault AssertionFailed (mock_obj_ m).

(** The reactions on uninteresting calls; [default_mock_behavior] is a flag. *)
Definition SetReactionOnUninterestingCalls (mock_obj : nat) (r : CallReaction) w
    : World Args Act :=
  with_registry (mkRegistry (states (registry w)) (<[mock_obj := r]> (reactions (registry w)))) w.
Definition AllowUninterestingCalls (mock_obj : nat) w : World Args Act :=
  SetReactionOnUninterestingCalls mock_obj kAllow w.
Definition WarnUninterestingCalls (mock_obj : nat) w : World Args Act :=
  SetReactionOnUninterestingCalls mock_obj kWarn w.
Definition FailUninterestingCalls (mock_obj : nat) w : World Args Act :=
  SetReactionOnUninterestingCalls mock_obj kFail w.
Definition UnregisterCallReaction (mock_obj : nat) w : World Args Act :=
  with_registry (mkRegistry (states (registry w)) (delete mock_obj (reactions (registry w)))) w.
Definition intToCallReaction (mock_behavior : Z) : CallReaction :=
  if mock_behavior =? 0 then kAllow
  else if mock_behavior =? 1 then kWarn
  else if mock_behavior =? 2 then kFail else kWarn.
Definition GetReactionOnUninterestingCalls (default_mock_behavior : Z) (mock_obj : nat) w
    : CallReaction :=
  match reactions (registry w) !! mock_obj with
  | None => intToCallReaction default_mock_behavior
  | Some r => r
  end.

(** [AddNewExpectation]. *)
Definition AddNewExpectation (current_test : option (text * text)) (owner : nat) (file : option text) (line : Z)
    (source_text : text) (ms : Matcher Args) w
    : outcome (nat * World Args Act) :=
  m ← or_fault InvalidDeref (mockers w !! owner);
  obj ← MockObject m;
  let w := RegisterUseByOnCallOrExpectCall current_test obj file line w in
  let e := size (expectations w) in
  let w := set e (new_Expectation file line source_text ms) w in
  let m := mkFunctionMocker (mock_obj_ m) (name_ m) (returns_void m) (untyped_on_call_specs_ m)
             (untyped_expectations_ m ++ [e]) in
  let w := with_mockers (<[owner := m]> (mockers w)) w in
  w ← (match implicit_sequence w with
       | Some s => AddExpectation s e w
       | None => Ok w
       end);
  Ok (e, w).

(** ** The state of an expectation *)

Definition IsSatisfied x : bool := IsSatisfiedByCallCount (cardinality_ x) (call_count_ x).
Definition IsSaturated x : bool := IsSaturatedByCallCount (cardinality_ x) (call_count_ x).
Definition IsOverSaturated x : bool :=
  IsOverSaturatedByCallCount (cardinality_ x) (call_count_ x).
Definition is_retired x : bool := retired_ x.

Definition IncrementCallCount x : outcome (ExpectationBase Args Act) :=
  if int_ok (call_count_ x + 1) then Ok (with_call_count (call_count_ x + 1) x)
  else Err IntOverflow.

Definition DescribeCallCountTo x : text :=
  str "         Expected: to be " ++ DescribeTo (cardinality_ x) ++ [LF] ++
  str "           Actual: " ++ DescribeActualCallCountTo (call_count_ x) ++
  str " - " ++ (if IsOverSaturated x then str "over-saturated"
                else if IsSaturated x then str "saturated"
                else if IsSatisfied x then str "satisfied" else str "unsatisfied") ++
  str " and " ++ (if is_retired x then str "retired" else str "active").

Definition MaybeDescribeExtraMatcherTo x : text :=
  if extra_matcher_specified_ x
  then str "    Expected args: " ++ DescribeMatcher (extra_matcher_ x) ++ [LF] else [].

(** ** The walks over the prerequisites

    The vector of a walk is a stack: its back is the head of the list. *)

(** [RetireAllPreRequisites]: the loop over the prerequisites of one expectation. *)
Fixpoint retire_each (nexts : list nat) (stack : list nat) w : outcome (list nat * World Args Act) :=
  match nexts with
  | [] => Ok (stack, w)
  | next :: nexts =>
      x ← get w next;
      if negb (is_retired x) then retire_each nexts (next :: stack) (set next (Retire x) w)
      else retire_each nexts stack w
  end.
Fixpoint retire_walk (fuel : nat) (stack : list nat) w : outcome (World Args Act) :=
  match stack with
  | [] => Ok w
  | exp :: stack =>
      match fuel with
      | O => Err Diverges
      | S fuel =>
          x ← get w exp;
          '(stack, w) ← retire_each (elements (immediate_prerequisites_ x)) stack w;
          retire_walk fuel stack w
      end
  end.
Definition RetireAllPreRequisites (this : nat) w : outcome (World Args Act) :=
  x ← get w this;
  if is_retired x then Ok w
  else retire_walk (S (size (expectations w))) [this] w.

(** [AllPrerequisitesAreSatisfied]; [None] is the early [return false]. *)
Fixpoint check_each (nexts : list nat) (stack : list nat) w : outcome (option (list nat)) :=
  match nexts with
  | [] => Ok (Some stack)
  | next :: nexts =>
      x ← get w next;
      if negb (IsSatisfied x) then Ok None else check_each nexts (next :: stack) w
  end.
Fixpoint check_walk (fuel : nat) (stack : list nat) w : outcome bool :=
  match stack with
  | [] => Ok true
  | exp :: stack =>
      match fuel with
      | O => Err Diverges
      | S fuel =>
          x ← get w exp;
          r ← check_each (elements (immediate_prerequisites_ x)) stack w;
          match r with
          | None => Ok false
          | Some stack => check_walk fuel stack w
          end
      end
  end.
Definition walk_fuel w : nat := 2 ^ size (expectations w).
Definition AllPrerequisitesAreSatisfied (this : nat) w : outcome bool :=
  check_walk (walk_fuel w) [this] w.

(** [FindUnsatisfiedPrerequisites]. *)
Fixpoint find_each (nexts : list nat) (stack : list nat) (result : gset nat) w
    : outcome (list nat * gset nat) :=
  match nexts with
  | [] => Ok (stack, result)
  | next :: nexts =>
      x ← get w next;
      if IsSatisfied x then
        find_each nexts (if call_count_ x =? 0 then next :: stack else stack) result w
      else find_each nexts stack ({[next]} ∪ result) w
  end.
Fixpoint find_walk (fuel : nat) (stack : list nat) (result : gset nat) w : outcome (gset nat) :=
  match stack with
  | [] => Ok result
  | exp :: stack =>
      match fuel with
      | O => Err Diverges
      | S fuel =>
          x ← get w exp;
          '(stack, result) ← find_each (elements (immediate_prerequisites_ x)) stack result w;
          find_walk fuel stack result w
      end
  end.
Definition FindUnsatisfiedPrerequisites (this : nat) (result : gset nat) w : outcome (gset nat) :=
  find_walk (walk_fuel w) [this] result w.

(** ** Calls *)

Definition expectation_matches x (args : Args) : bool :=
  Matches (matchers_ x) args && Matches (extra_matcher_ x) args.

Definition ShouldHandleArguments (e : nat) (args : Args) w : outcome (bool * World Args Act) :=
  w ← CheckActionCountIfNotDone e w;
  x ← get w e;
  if is_retired x then Ok (false, w) else
  all ← AllPrerequisitesAreSatisfied e w;
  Ok (all && expectation_matches x args, w).

Fixpoint number_prerequisites (i : nat) (es : list nat) w : outcome text :=
  match es with
  | [] => Ok []
  | e :: es =>
      x ← get w e; rest ← number_prerequisites (S i) es w;
      Ok (FormatFileLocation (file_ x) (line_ x) ++ str " " ++ str "pre-requisite #" ++
          dec (Z.of_nat i) ++ [LF] ++ rest)
  end.

Definition ExplainMatchResultTo (e : nat) (args : Args) w : outcome text :=
  x ← get w e;
  if is_retired x then
    Ok (str "         Expected: the expectation is active" ++ [LF] ++
        str "           Actual: it is retired" ++ [LF])
  else if negb (expectation_matches x args) then
    let extra := ExplainFailure (extra_matcher_ x) args in
    Ok ((if Matches (matchers_ x) args then [] else ExplainFailure (matchers_ x) args) ++
        (if Matches (extra_matcher_ x) args then []
         else str "    Expected args: " ++ DescribeMatcher (extra_matcher_ x) ++ [LF] ++
              str "           Actual: don't match" ++
              (if bool_decide (extra = []) then [] else str ", " ++ extra) ++ [LF]))
  else
    all ← AllPrerequisitesAreSatisfied e w;
    if negb all then
      unsatisfied_prereqs ← FindUnsatisfiedPrerequisites e ∅ w;
      t ← number_prerequisites 0 (elements unsatisfied_prereqs) w;
      Ok (str "         Expected: all pre-requisites are satisfied" ++ [LF] ++
          str "           Actual: the following immediate pre-requisites " ++
          str "are not satisfied:" ++ [LF] ++ t ++
          str "                   (end of pre-requisites)" ++ [LF])
    else Ok (str "The call matches the expectation." ++ [LF]).

(** [FindOnCallSpec] looks from the last spec to the first. *)
Definition FindOnCallSpec m (args : Args) : option (OnCallSpec Args Act) :=
  snd <$> list_find (fun spec => Matches (spec_matchers spec) args &&
                                 Matches (spec_extra spec) args)
            (rev (untyped_on_call_specs_ m)).
Definition DescribeDefaultActionTo m (args : Args) : text :=
  match FindOnCallSpec m args with
  | None => if returns_void m then str "returning directly." ++ [LF]
            else str "returning default value." ++ [LF]
  | Some spec => str "taking default action specified at:" ++ [LF] ++
                 FormatFileLocation (spec_file spec) (spec_line spec) ++ [LF]
  end.

(** The action of an invocation, with the log of [GetCurrentAction]; [Assert]
    aborts. *)
Definition GetCurrentAction m (e : nat) (args : Args) w
    : outcome (Action Act * World Args Act) :=
  x ← get w e;
  let count := call_count_ x in
  _ ← c_assert (1 <=? count);
  let action_count := Z.of_nat (List.length (untyped_actions_ x)) in
  w ← (if (0 <? action_count) && negb (repeated_action_specified_ x) && (action_count <? count)
       then
         t ← Log stack_trace verbose kWarning
               (FormatFileLocation (file_ x) (line_ x) ++ str " " ++
                str "Actions ran out in " ++ source_text_ x ++ str "..." ++ [LF] ++
                str "Called " ++ dec count ++ str " times, but only " ++ dec action_count ++
                str " WillOnce()" ++
                (if action_count =? 1 then str " is" else str "s are") ++ str " specified - " ++
                DescribeDefaultActionTo m args) 1;
         Ok (write_log t w)
       else Ok w);
  if count <=? action_count then
    a ← or_fault InvalidDeref (untyped_actions_ x !! Z.to_nat (count - 1));
    Ok (a, w)
  else Ok (repeated_action_ x, w).

Definition description_text x : text :=
  match description_ x with
  | [] => []
  | d => "034"%char :: d ++ "034"%char :: str " "
  end.

(** [GetActionForArguments]: the action ([None] is the default one), [what]
    and [why]. *)
Definition GetActionForArguments m (e : nat) (args : Args) w
    : outcome (option (Action Act) * text * text * World Args Act) :=
  x ← get w e;
  if IsSaturated x then
    x' ← IncrementCallCount x;
    Ok (None,
        str "Mock function " ++ description_text x ++
        str "called more times than expected - " ++ DescribeDefaultActionTo m args,
        DescribeCallCountTo x',
        set e x' w)
  else
    x' ← IncrementCallCount x;
    w ← RetireAllPreRequisites e (set e x' w);
    x ← get w e;
    let w := if retires_on_saturation_ x && IsSaturated x then set e (Retire x) w else w in
    '(a, w) ← GetCurrentAction m e args w;
    Ok (Some a,
        str "Mock function " ++ description_text x ++ str "call matches " ++ source_text_ x ++
        str "..." ++ [LF],
        [], w).

(** [FindMatchingExpectationLocked] looks from the last expectation to the first. *)
Fixpoint find_matching (es : list nat) (args : Args) w : outcome (option nat * World Args Act) :=
  match es with
  | [] => Ok (None, w)
  | e :: es =>
      '(handles, w) ← ShouldHandleArguments e args w;
      if handles : bool then Ok (Some e, w) else find_matching es args w
  end.
Definition FindMatchingExpectationLocked m (args : Args) w
    : outcome (option nat * World Args Act) :=
  find_matching (rev (untyped_expectations_ m)) args w.

Fixpoint print_tried (count i : nat) (es : list nat) (args : Args) w : outcome text :=
  match es with
  | [] => Ok []
  | e :: es =>
      x ← get w e;
      why ← ExplainMatchResultTo e args w;
      rest ← print_tried count (S i) es args w;
      Ok ([LF] ++ FormatFileLocation (file_ x) (line_ x) ++ str " " ++
          (if (1 <? count)%nat
           then str "tried expectation #" ++ dec (Z.of_nat i) ++ str ": " else []) ++
          source_text_ x ++ str "..." ++ [LF] ++ why ++ DescribeCallCountTo x ++ rest)
  end.
Definition PrintTriedExpectationsLocked m (args : Args) w : outcome text :=
  let count := List.length (untyped_expectations_ m) in
  tried ← print_tried count 0 (untyped_expectations_ m) args w;
  Ok (str "Google Mock tried the following " ++ dec (Z.of_nat count) ++ str " " ++
      (if bool_decide (count = 1%nat) then str "expectation, but it didn't match"
       else str "expectations, but none matched") ++ str ":" ++ [LF] ++ tried).

Record Match : Type := mkMatch {
  match_expectation : option nat;
  match_action : option Act;
  is_excessive : bool;
  what : text;
  why : text;
}.

Definition UntypedFindMatchingExpectation (mocker : nat) (args : Args) w
    : outcome (Match * World Args Act) :=
  m ← or_fault InvalidDeref (mockers w !! mocker);
  '(exp, w) ← FindMatchingExpectationLocked m args w;
  match exp with
  | None =>
      why ← PrintTriedExpectationsLocked m args w;
      Ok (mkMatch None None false
            ([LF] ++ str "Unexpected mock function call - " ++ DescribeDefaultActionTo m args)
            why, w)
  | Some e =>
      x ← get w e;
      let excessive := IsSaturated x in
      '(action, what, why, w) ← GetActionForArguments m e args w;
      let action := match action with Some (Perform a) => Some a | _ => None end in
      Ok (mkMatch (Some e) action excessive what why, w)
  end.

(** ** Verification

    The loop of [VerifyAndClearExpectationsLocked] and the swap; the objects
    that are released when the copy is cleared are not deleted from the store. *)

Fixpoint verify_loop (es : list nat) (expectations_met : bool) w
    : outcome (bool * World Args Act) :=
  match es with
  | [] => Ok (expectations_met, w)
  | e :: es =>
      x ← get w e;
      if IsOverSaturated x then verify_loop es false w
      else if negb (IsSatisfied x) then
        verify_loop es false
          (Expect false (file_ x) (line_ x)
             (str "Actual function " ++ description_text x ++ str "call count doesn't match " ++
              source_text_ x ++ str "..." ++ [LF] ++ MaybeDescribeExtraMatcherTo x ++
              DescribeCallCountTo x) w)
      else verify_loop es expectations_met w
  end.
Definition VerifyAndClearExpectationsLocked (mocker : nat) w : outcome (bool * World Args Act) :=
  m ← or_fault InvalidDeref (mockers w !! mocker);
  '(met, w) ← verify_loop (untyped_expectations_ m) true w;
  let m := mkFunctionMocker (mock_obj_ m) (name_ m) (returns_void m) (untyped_on_call_specs_ m)
             [] in
  Ok (met, with_mockers (<[mocker := m]> (mockers w)) w).

Definition ClearDefaultActions_mocker (mocker : nat) w : outcome (World Args Act) :=
  m ← or_fault InvalidDeref (mockers w !! mocker);
  let m := mkFunctionMocker (mock_obj_ m) (name_ m) (returns_void m) []
             (untyped_expectations_ m) in
  Ok (with_mockers (<[mocker := m]> (mockers w)) w).

Fixpoint verify_mockers (ks : list nat) (expectations_met : bool) w
    : outcome (bool * World Args Act) :=
  match ks with
  | [] => Ok (expectations_met, w)
  | k :: ks =>
      '(met, w) ← VerifyAndClearExpectationsLocked k w;
      verify_mockers ks (if met : bool then expectations_met else false) w
  end.
(** [Mock::VerifyAndClearExpectationsLocked]. *)
Definition Mock_VerifyAndClearExpectationsLocked (mock_obj : nat) w
    : outcome (bool * World Args Act) :=
  match states (registry w) !! mock_obj with
  | None => Ok (true, w)
  | Some s => verify_mockers (elements (function_mockers s)) true w
  end.

Fixpoint clear_mockers (ks : list nat) w : outcome (World Args Act) :=
  match ks with
  | [] => Ok w
  | k :: ks => w ← ClearDefaultActions_mocker k w; clear_mockers ks w
  end.
(** [Mock::ClearDefaultActionsLocked]. *)
Definition Mock_ClearDefaultActionsLocked (mock_obj : nat) w : outcome (World Args Act) :=
  match states (registry w) !! mock_obj with
  | None => Ok w
  | Some s => clear_mockers (elements (function_mockers s)) w
  end.
Definition VerifyAndClear (mock_obj : nat) w : outcome (bool * World Args Act) :=
  w ← Mock_ClearDefaultActionsLocked mock_obj w;
  Mock_VerifyAndClearExpectationsLocked mock_obj w.

(** [Mock::UnregisterLocked]: the first object that has the mock function (the
    objects are walked in the order of [map_to_list]). *)
Definition UnregisterLocked (mocker : nat) w : World Args Act :=
  match list_find (fun os => mocker ∈ function_mockers os.2) (map_to_list (states (registry w))) with
  | None => w
  | Some (_, (obj, s)) =>
      let fs := function_mockers s ∖ {[mocker]} in
      with_registry
        (mkRegistry
           (if decide (fs = ∅) then delete obj (states (registry w))
            else <[obj := mkMockObjectState (first_used_file s) (first_used_line s)
                            (first_used_test_suite s) (first_used_test s) (leakable s) fs]>
                   (states (registry w)))
           (reactions (registry w))) w
  end.

End expectations.
