(* ===== verification/ExpectationWalks.v ===== *)
(** * The walks over the prerequisites of an expectation

    [prereq w e p]: [p] is an immediate prerequisite of [e].  In an [ordered]
    world a prerequisite is older than its successor, so every walk ends. *)

From S2P Require Import Prelude Outcome Common CStr Cardinality Expectations.

Section walks.
Context {Args Act : Type}.
Implicit Types (w : World Args Act) (x : ExpectationBase Args Act) (e p : nat).

Definition prereq w e p : Prop :=
  exists x, expectations w !! e = Some x /\ p ∈ immediate_prerequisites_ x.
Definition satisfied_at w e : Prop :=
  exists x, expectations w !! e = Some x /\ IsSatisfied x = true.
Definition retired_at w e : Prop :=
  exists x, expectations w !! e = Some x /\ retired_ x = true.

(** The addresses are allocated in order and prerequisites exist and are older. *)
Record ordered w : Prop := {
  ordered_bound e : is_Some (expectations w !! e) -> (e < size (expectations w))%nat;
  ordered_older e p : prereq w e p -> (p < e)%nat;
  ordered_exists e p : prereq w e p -> is_Some (expectations w !! p);
}.

Lemma elem_prereq w e x p :
  expectations w !! e = Some x -> p ∈ elements (immediate_prerequisites_ x) <-> prereq w e p.
Proof.
  intros Hx. rewrite elem_of_elements. unfold prereq. split; [eauto |].
  intros (y & Hy & Hp). congruence.
Qed.

(** ** Fuel: the walk from a stack visits at most [weight stack] expectations *)

Definition weight (l : list nat) : nat := foldr (fun e a => 2 ^ e + a)%nat 0%nat l.

Lemma weight_app l k : weight (l ++ k) = (weight l + weight k)%nat.
Proof. induction l as [| e l IH]; simpl; [done | rewrite IH; lia]. Qed.

Lemma weight_submseteq l k : l ⊆+ k -> (weight l <= weight k)%nat.
Proof. induction 1; simpl; lia. Qed.

Lemma weight_seq n : S (weight (seq 0 n)) = (2 ^ n)%nat.
Proof. induction n as [| n IH]; [done |]. rewrite seq_S, weight_app. simpl. lia. Qed.

Lemma weight_older l e :
  NoDup l -> (forall p, p ∈ l -> (p < e)%nat) -> (weight l < 2 ^ e)%nat.
Proof.
  intros Hn Hl. rewrite <- weight_seq. apply Nat.lt_succ_r, weight_submseteq, NoDup_submseteq; [done |].
  intros p Hp%Hl. apply elem_of_seq. lia.
Qed.

Lemma weight_reverse l : weight (reverse l) = weight l.
Proof.
  apply Nat.le_antisymm; apply weight_submseteq; by rewrite reverse_Permutation.
Qed.

(** The stack after [e] has been replaced with its prerequisites. *)
Lemma weight_step w e x stack nexts fuel :
  ordered w -> expectations w !! e = Some x ->
  nexts ⊆+ elements (immediate_prerequisites_ x) ->
  (weight (e :: stack) <= S fuel)%nat -> (weight (reverse nexts ++ stack) <= fuel)%nat.
Proof.
  intros Ho Hx Hs. rewrite weight_app, weight_reverse. simpl.
  apply weight_submseteq in Hs.
  assert (weight (elements (immediate_prerequisites_ x)) < 2 ^ e)%nat; [| lia].
  apply weight_older; [apply NoDup_elements |]. intros p Hp.
  apply (ordered_older w Ho). by apply (elem_prereq w e x).
Qed.

Lemma weight_start w e :
  ordered w -> is_Some (expectations w !! e) -> (weight [e] <= walk_fuel w)%nat.
Proof.
  intros Ho He%(ordered_bound _ Ho). simpl. unfold walk_fuel. rewrite Nat.add_0_r.
  apply Nat.pow_le_mono_r; lia.
Qed.

Lemma get_ok w e x : expectations w !! e = Some x -> get w e = Ok x.
Proof. unfold get. by intros ->. Qed.

(** ** AllPrerequisitesAreSatisfied *)

Lemma check_each_spec nexts stack w :
  (forall p, p ∈ nexts -> is_Some (expectations w !! p)) ->
  (check_each nexts stack w = Ok None /\ exists p, p ∈ nexts /\ ~ satisfied_at w p) \/
  (check_each nexts stack w = Ok (Some (reverse nexts ++ stack)) /\
   forall p, p ∈ nexts -> satisfied_at w p).
Proof.
  revert stack. induction nexts as [| p nexts IH]; intros stack Hex.
  { right. split; [done |]. by intros p ?%elem_of_nil. }
  destruct (Hex p) as [x Hx]; [by left |]. simpl. rewrite (get_ok _ _ _ Hx), bind_ok.
  destruct (IsSatisfied x) eqn:Hs; simpl.
  - destruct (IH (p :: stack)) as [[Hr (q & Hq & Hn)] | [Hr Hall]].
    { intros q Hq. apply Hex. by right. }
    + left. split; [done |]. exists q. split; [by right | done].
    + right. rewrite Hr, reverse_cons, <- app_assoc. split; [done |].
      intros q [-> | ?]%elem_of_cons; [by exists x | auto].
  - left. split; [done |]. exists p. split; [by left |]. intros (y & Hy & ?). congruence.
Qed.

Lemma check_walk_spec fuel stack w :
  ordered w -> (forall e, e ∈ stack -> is_Some (expectations w !! e)) ->
  (weight stack <= fuel)%nat ->
  exists b, check_walk fuel stack w = Ok b /\
    (b = true <-> forall e p, e ∈ stack -> tc (prereq w) e p -> satisfied_at w p).
Proof.
  intros Ho. revert stack. induction fuel as [| fuel IH]; intros [| e stack] Hex Hf.
  - exists true. split; [done |]. split; [by intros _ e p ?%elem_of_nil | done].
  - simpl in Hf. pose proof (Nat.pow_nonzero 2 e). lia.
  - exists true. split; [done |]. split; [by intros _ e p ?%elem_of_nil | done].
  - destruct (Hex e) as [x Hx]; [by left |]. simpl. rewrite (get_ok _ _ _ Hx), bind_ok.
    pose proof (fun p => elem_prereq w e x p Hx) as Hpre.
    destruct (check_each_spec (elements (immediate_prerequisites_ x)) stack w)
      as [[-> (p & Hp & Hn)] | [-> Hall]].
    { intros p Hp%Hpre. by eapply ordered_exists. }
    + exists false. split; [done |]. split; [done |]. intros H. destruct Hn.
      apply (H e p); [by left | by apply tc_once, Hpre].
    + destruct (IH (reverse (elements (immediate_prerequisites_ x)) ++ stack)) as (b & Hb & Hiff).
      { intros p [Hp%elem_of_reverse%Hpre | Hp]%elem_of_app; [by eapply ordered_exists |].
        apply Hex. by right. }
      { by eapply weight_step. }
      exists b. split; [done |]. rewrite Hiff. split.
      * intros H e' q [-> | He']%elem_of_cons Hq; [| by apply (H e'); [apply elem_of_app; right |]].
        inversion Hq as [? ? Hp | ? p ? Hp Hpq]; subst; [by apply Hall, Hpre |].
        apply (H p); [| done]. apply elem_of_app. left. by apply elem_of_reverse, Hpre.
      * intros H e' q [Hp%elem_of_reverse%Hpre | He']%elem_of_app Hq.
        -- apply (H e); [by left | by eapply tc_l].
        -- apply (H e'); [by right | done].
Qed.

Lemma AllPrerequisitesAreSatisfied_spec e w :
  ordered w -> is_Some (expectations w !! e) ->
  exists b, AllPrerequisitesAreSatisfied e w = Ok b /\
    (b = true <-> forall p, tc (prereq w) e p -> satisfied_at w p).
Proof.
  intros Ho He. destruct (check_walk_spec (walk_fuel w) [e] w) as (b & Hb & Hiff).
  - done.
  - intros e' ->%list_elem_of_singleton. done.
  - by apply weight_start.
  - exists b. split; [done |]. rewrite Hiff. setoid_rewrite list_elem_of_singleton. naive_solver.
Qed.

(** ** FindUnsatisfiedPrerequisites *)

(** The walk goes on through a satisfied prerequisite that was never called. *)
Definition skips w e p : Prop :=
  prereq w e p /\ exists x, expectations w !! p = Some x /\ IsSatisfied x = true /\ call_count_ x = 0.
(** What the walk finds. *)
Definition finds w e p : Prop :=
  exists e', rtc (skips w) e e' /\ prereq w e' p /\ ~ satisfied_at w p.

Definition open_at w p : Prop :=
  exists x, expectations w !! p = Some x /\ IsSatisfied x = true /\ call_count_ x = 0.

Lemma find_each_spec nexts stack result w :
  (forall p, p ∈ nexts -> is_Some (expectations w !! p)) ->
  exists opens result', find_each nexts stack result w = Ok (reverse opens ++ stack, result') /\
    opens ⊆+ nexts /\ (forall p, p ∈ opens <-> p ∈ nexts /\ open_at w p) /\
    (forall p, p ∈ result' <-> p ∈ result \/ (p ∈ nexts /\ ~ satisfied_at w p)).
Proof.
  revert stack result. induction nexts as [| p nexts IH]; intros stack result Hex.
  { exists [], result. simpl. split; [done |]. split; [done |].
    split; intros q; rewrite elem_of_nil; naive_solver. }
  destruct (Hex p) as [x Hx]; [by left |]. simpl. rewrite (get_ok _ _ _ Hx), bind_ok.
  assert (Hsat : satisfied_at w p <-> IsSatisfied x = true).
  { unfold satisfied_at. rewrite Hx. naive_solver. }
  assert (Hopen : open_at w p <-> IsSatisfied x = true /\ call_count_ x = 0).
  { unfold open_at. rewrite Hx. naive_solver. }
  assert (Hex' : forall q, q ∈ nexts -> is_Some (expectations w !! q)) by (intros; apply Hex; by right).
  destruct (IsSatisfied x) eqn:Hs; [destruct (Z.eqb_spec (call_count_ x) 0) as [Hc | Hc] |].
  - destruct (IH (p :: stack) result Hex') as (opens & r & -> & Hsub & Ho & Hr).
    exists (p :: opens), r. rewrite reverse_cons, <- app_assoc. split; [done |].
    split; [by constructor |].
    split; intros q; [rewrite !elem_of_cons, Ho | rewrite Hr, elem_of_cons]; naive_solver.
  - destruct (IH stack result Hex') as (opens & r & -> & Hsub & Ho & Hr).
    exists opens, r. split; [done |]. split; [by constructor |].
    split; intros q; [rewrite elem_of_cons, Ho | rewrite Hr, elem_of_cons]; naive_solver.
  - destruct (IH stack ({[p]} ∪ result) Hex') as (opens & r & -> & Hsub & Ho & Hr).
    exists opens, r. split; [done |]. split; [by constructor |].
    split; intros q; [rewrite elem_of_cons, Ho | rewrite Hr, elem_of_cons, elem_of_union,
      elem_of_singleton]; naive_solver.
Qed.

Lemma find_walk_spec fuel stack result w :
  ordered w -> (forall e, e ∈ stack -> is_Some (expectations w !! e)) ->
  (weight stack <= fuel)%nat ->
  exists result', find_walk fuel stack result w = Ok result' /\
    forall p, p ∈ result' <-> p ∈ result \/ exists e, e ∈ stack /\ finds w e p.
Proof.
  intros Ho. revert stack result. induction fuel as [| fuel IH]; intros [| e stack] result Hex Hf.
  - exists result. split; [done |]. intros p. setoid_rewrite elem_of_nil. naive_solver.
  - simpl in Hf. pose proof (Nat.pow_nonzero 2 e). lia.
  - exists result. split; [done |]. intros p. setoid_rewrite elem_of_nil. naive_solver.
  - destruct (Hex e) as [x Hx]; [by left |]. simpl. rewrite (get_ok _ _ _ Hx), bind_ok.
    pose proof (fun p => elem_prereq w e x p Hx) as Hpre.
    destruct (find_each_spec (elements (immediate_prerequisites_ x)) stack result w)
      as (opens & r & -> & Hsub & Hopen & Hr).
    { intros p Hp%Hpre. by eapply ordered_exists. }
    rewrite bind_ok. cbn beta iota.
    destruct (IH (reverse opens ++ stack) r) as (result' & Hb & Hiff).
    { intros p [Hp%elem_of_reverse%Hopen | Hp]%elem_of_app; [| apply Hex; by right].
      destruct Hp as [Hp%Hpre _]. by eapply ordered_exists. }
    { by eapply weight_step. }
    exists result'. split; [done |]. intros p. rewrite Hiff, Hr, Hpre.
    setoid_rewrite elem_of_app. setoid_rewrite elem_of_reverse. setoid_rewrite Hopen.
    setoid_rewrite Hpre. setoid_rewrite elem_of_cons. split.
    + intros [[? | [Hp Hn]] | (e' & [[Hp Hopn] | He'] & Hq)]; [by left | | |].
      * right. exists e. split; [by left |]. exists e. split; [apply rtc_refl | done].
      * right. exists e. split; [by left |]. destruct Hq as (e2 & Hrtc & Hq).
        exists e2. split; [| done]. eapply rtc_l; [| exact Hrtc]. split; [done |]. exact Hopn.
      * right. exists e'. split; [by right | done].
    + intros [? | (e' & [-> | He'] & e2 & Hrtc & Hq & Hn)]; [by left; left | |].
      * apply rtc_inv in Hrtc as [-> | (e3 & [Hp Hopn] & Hrtc)]; [by left; right |].
        right. exists e3. split; [by left |]. by exists e2.
      * right. exists e'. split; [by right |]. by exists e2.
Qed.

Lemma FindUnsatisfiedPrerequisites_spec e w :
  ordered w -> is_Some (expectations w !! e) ->
  exists result, FindUnsatisfiedPrerequisites e ∅ w = Ok result /\
    forall p, p ∈ result <-> finds w e p.
Proof.
  intros Ho He. destruct (find_walk_spec (walk_fuel w) [e] ∅ w) as (r & Hb & Hiff).
  - done.
  - intros e' ->%list_elem_of_singleton. done.
  - by apply weight_start.
  - exists r. split; [done |]. intros p. rewrite Hiff. setoid_rewrite list_elem_of_singleton.
    set_solver.
Qed.

(** ** RetireAllPreRequisites *)

(** Some expectations are retired; nothing else changes. *)
Record retiring w w' : Prop := {
  retiring_exps e : expectations w' !! e = expectations w !! e \/
                    expectations w' !! e = Retire <$> expectations w !! e;
  retiring_rest : w' = with_expectations (expectations w') w;
}.

Lemma retiring_refl w : retiring w w.
Proof. split; [by left | by destruct w]. Qed.

Lemma retiring_trans w1 w2 w3 : retiring w1 w2 -> retiring w2 w3 -> retiring w1 w3.
Proof.
  intros [H1 R1] [H2 R2]. split.
  - intros e. destruct (H1 e) as [E1 | E1], (H2 e) as [E2 | E2]; rewrite E2, E1; auto.
    right. by destruct (expectations w1 !! e).
  - rewrite R2 at 1. by rewrite R1.
Qed.

Lemma retiring_set w e x : expectations w !! e = Some x -> retiring w (set e (Retire x) w).
Proof.
  intros Hx. split; [| done]. intros e'. simpl. destruct (decide (e' = e)) as [-> | Hne].
  - right. by rewrite lookup_insert_eq, Hx.
  - left. by rewrite lookup_insert_ne.
Qed.

Lemma retiring_dom w w' e :
  retiring w w' -> is_Some (expectations w' !! e) <-> is_Some (expectations w !! e).
Proof. intros [H _]. destruct (H e) as [-> | ->]; [done | by rewrite fmap_is_Some]. Qed.

Lemma retiring_size w w' : retiring w w' -> size (expectations w') = size (expectations w).
Proof.
  intros H. rewrite <- !size_dom. f_equal. apply leibniz_equiv, set_equiv. intros e.
  rewrite !elem_of_dom. by apply retiring_dom.
Qed.

Lemma retiring_prereq w w' e p : retiring w w' -> prereq w' e p <-> prereq w e p.
Proof.
  intros [H _]. unfold prereq. destruct (H e) as [-> | ->]; [done |].
  destruct (expectations w !! e) as [x |]; simpl; [| done].
  split; intros (y & [= <-] & Hp); eauto.
Qed.

Lemma retiring_satisfied w w' e : retiring w w' -> satisfied_at w' e <-> satisfied_at w e.
Proof.
  intros [H _]. unfold satisfied_at. destruct (H e) as [-> | ->]; [done |].
  destruct (expectations w !! e) as [x |]; simpl; [| done].
  split; intros (y & [= <-] & Hp); eauto.
Qed.

Lemma retiring_retired w w' e : retiring w w' -> retired_at w e -> retired_at w' e.
Proof.
  intros [H _] (x & Hx & Hr). unfold retired_at. destruct (H e) as [-> | ->]; rewrite Hx; simpl; eauto.
Qed.

Lemma retiring_ordered w w' : retiring w w' -> ordered w -> ordered w'.
Proof.
  intros H [H1 H2 H3]. split.
  - intros e. rewrite (retiring_size _ _ H), (retiring_dom _ _ _ H). apply H1.
  - intros e p. rewrite (retiring_prereq _ _ _ _ H). apply H2.
  - intros e p. rewrite (retiring_prereq _ _ _ _ H), (retiring_dom _ _ _ H). apply H3.
Qed.

Lemma retiring_tc w w' e p : retiring w w' -> tc (prereq w') e p <-> tc (prereq w) e p.
Proof.
  intros H. split; induction 1 as [a b Hab | a b c Hab _ IH].
  - by apply tc_once, (retiring_prereq _ _ _ _ H).
  - eapply tc_l; [by apply (retiring_prereq _ _ _ _ H) | done].
  - by apply tc_once, (retiring_prereq _ _ _ _ H).
  - eapply tc_l; [by apply (retiring_prereq _ _ _ _ H) | done].
Qed.

(** The number of expectations that are not retired. *)
Definition active w : nat := size (filter (fun ex => retired_ ex.2 = false) (expectations w)).

Lemma active_retire w e x :
  expectations w !! e = Some x -> retired_ x = false ->
  S (active (set e (Retire x) w)) = active w.
Proof.
  intros Hx Hr. unfold active. simpl.
  rewrite map_filter_insert_False, map_filter_delete by done.
  assert (Hin : filter (fun ex => retired_ ex.2 = false) (expectations w) !! e = Some x)
    by (by apply map_lookup_filter_Some).
  rewrite map_size_delete_Some by eauto.
  assert (size (filter (fun ex => retired_ ex.2 = false) (expectations w)) <> 0%nat); [| lia].
  intros H0%map_size_empty_inv. rewrite H0 in Hin. by rewrite lookup_empty in Hin.
Qed.

Lemma active_le w : (active w <= size (expectations w))%nat.
Proof. unfold active. apply map_size_filter. Qed.

(** What was retired by a loop: the stack holds every expectation whose
    prerequisites may still be active. *)
Definition pending w (stack : list nat) : Prop :=
  forall e p, retired_at w e -> prereq w e p -> e ∈ stack \/ retired_at w p.

Definition closed_world w : Prop := forall e p, retired_at w e -> prereq w e p -> retired_at w p.

Lemma retired_set w e x e' :
  expectations w !! e = Some x -> retired_at (set e (Retire x) w) e' <-> e' = e \/ retired_at w e'.
Proof.
  intros Hx. unfold retired_at. simpl. destruct (decide (e' = e)) as [-> | Hne].
  - rewrite lookup_insert_eq. naive_solver.
  - rewrite lookup_insert_ne by done. naive_solver.
Qed.

Lemma retire_each_spec nexts stack w :
  (forall p, p ∈ nexts -> is_Some (expectations w !! p)) ->
  exists fresh_ w', retire_each nexts stack w = Ok (reverse fresh_ ++ stack, w') /\
    retiring w w' /\ (forall p, p ∈ fresh_ -> p ∈ nexts) /\
    (forall p, retired_at w' p <-> p ∈ fresh_ \/ retired_at w p) /\
    (forall p, p ∈ nexts -> retired_at w' p) /\
    (List.length fresh_ + active w' = active w)%nat.
Proof.
  revert stack w. induction nexts as [| p nexts IH]; intros stack w Hex.
  { exists [], w. simpl. split; [done |]. split; [apply retiring_refl |].
    split_and!; try done; intros q; rewrite elem_of_nil; naive_solver. }
  destruct (Hex p) as [x Hx]; [by left |]. simpl. rewrite (get_ok _ _ _ Hx), bind_ok.
  unfold is_retired. destruct (retired_ x) eqn:Hr; simpl.
  - destruct (IH stack w) as (fr & w' & -> & Hret & Hsub & Hiff & Hall & Hact).
    { intros q Hq. apply Hex. by right. }
    exists fr, w'. split; [done |]. split; [done |].
    split; [intros q Hq; right; auto |]. split; [done |]. split; [| done].
    intros q [-> | Hq]%elem_of_cons; [apply Hiff; right; by exists x | auto].
  - pose proof (retiring_set w p x Hx) as Hset.
    destruct (IH (p :: stack) (set p (Retire x) w)) as (fr & w' & -> & Hret & Hsub & Hiff & Hall & Hact).
    { intros q Hq. apply (retiring_dom _ _ _ Hset), Hex. by right. }
    exists (p :: fr), w'. rewrite reverse_cons, <- app_assoc. split; [done |].
    split; [by eapply retiring_trans |].
    split; [intros q [-> | Hq]%elem_of_cons; [by left | right; auto] |].
    assert (Hiff' : forall q, retired_at w' q <-> q ∈ p :: fr \/ retired_at w q).
    { intros q. rewrite Hiff, (retired_set _ _ _ _ Hx), elem_of_cons. tauto. }
    split; [done |]. split.
    + intros q [-> | Hq]%elem_of_cons; [apply Hiff'; left; by left | auto].
    + pose proof (active_retire _ _ _ Hx Hr). simpl. lia.
Qed.

Lemma retire_walk_spec fuel stack w :
  ordered w -> (forall e, e ∈ stack -> is_Some (expectations w !! e)) ->
  (List.length stack + active w <= fuel)%nat -> pending w stack ->
  retire_walk fuel stack w ⇓ fun w' =>
    retiring w w' /\ closed_world w' /\
    (forall e p, e ∈ stack -> prereq w e p -> retired_at w' p) /\
    (forall p, retired_at w' p -> retired_at w p \/ exists e, e ∈ stack /\ tc (prereq w) e p).
Proof.
  revert stack w. induction fuel as [| fuel IH]; intros [| e stack] w Ho Hex Hf Hp.
  - simpl. split; [apply retiring_refl |]. split; [| split; [by intros e p ?%elem_of_nil | by left]].
    intros e p Hr He. destruct (Hp e p Hr He) as [?%elem_of_nil | ?]; done.
  - simpl in Hf. lia.
  - simpl. split; [apply retiring_refl |]. split; [| split; [by intros e p ?%elem_of_nil | by left]].
    intros e p Hr He. destruct (Hp e p Hr He) as [?%elem_of_nil | ?]; done.
  - destruct (Hex e) as [x Hx]; [by left |]. simpl. rewrite (get_ok _ _ _ Hx), bind_ok.
    pose proof (fun p => elem_prereq w e x p Hx) as Hpre.
    destruct (retire_each_spec (elements (immediate_prerequisites_ x)) stack w)
      as (fr & w1 & -> & Hret & Hsub & Hiff & Hall & Hact).
    { intros p Hp'%Hpre. by eapply ordered_exists. }
    rewrite bind_ok. cbn beta iota.
    pose proof (fun a b => retiring_prereq w w1 a b Hret) as Hpw.
    eapply returns_mono; [apply IH |].
    + by eapply retiring_ordered.
    + intros q. rewrite (retiring_dom _ _ _ Hret).
      intros [Hq%elem_of_reverse%Hsub%Hpre | Hq]%elem_of_app; [by eapply ordered_exists |].
      apply Hex. by right.
    + rewrite length_app, length_reverse. simpl in Hf. lia.
    + intros a b Ha Hb%Hpw. apply Hiff in Ha as [Ha | Ha].
      { left. apply elem_of_app. left. by apply elem_of_reverse. }
      destruct (Hp a b Ha Hb) as [[-> | Hin]%elem_of_cons | Hin].
      * right. by apply Hall, Hpre.
      * left. apply elem_of_app. by right.
      * right. apply Hiff. by right.
    + intros w' (Hret' & Hcl & Hpr & Honly). split; [by eapply retiring_trans |].
      split; [done |]. split.
      * intros a b [-> | Ha]%elem_of_cons Hb.
        -- eapply retiring_retired; [done |]. by apply Hall, Hpre.
        -- apply (Hpr a); [apply elem_of_app; by right | by apply Hpw].
      * intros q [[Hq | Hq]%Hiff | (a & Ha & Hq)]%Honly.
        -- right. exists e. split; [by left |]. by apply tc_once, Hpre, Hsub.
        -- by left.
        -- apply (retiring_tc _ _ _ _ Hret) in Hq. right.
           apply elem_of_app in Ha as [Ha%elem_of_reverse%Hsub%Hpre | Ha].
           ++ exists e. split; [by left | by eapply tc_l].
           ++ exists a. split; [by right | done].
Qed.

Lemma RetireAllPreRequisites_spec e x w :
  ordered w -> closed_world w -> expectations w !! e = Some x -> retired_ x = false ->
  RetireAllPreRequisites e w ⇓ fun w' =>
    retiring w w' /\ closed_world w' /\
    forall p, retired_at w' p <-> retired_at w p \/ tc (prereq w) e p.
Proof.
  intros Ho Hc Hx Hr. unfold RetireAllPreRequisites, is_retired.
  rewrite (get_ok _ _ _ Hx), bind_ok, Hr. eapply returns_mono; [apply retire_walk_spec |].
  - done.
  - intros e' ->%list_elem_of_singleton. eauto.
  - simpl. pose proof (active_le w). lia.
  - intros a b Ha Hb. right. eauto.
  - intros w' (Hret & Hcl & Hpr & Honly). split; [done |]. split; [done |].
    intros p. split.
    + intros [? | (e' & ->%list_elem_of_singleton & ?)]%Honly; auto.
    + intros [Hp | Hp]; [by eapply retiring_retired |].
      assert (Hstep : forall a q, tc (prereq w) a q ->
        (forall b, prereq w a b -> retired_at w' b) -> retired_at w' q).
      { induction 1 as [a b Hab | a b c Hab _ IH]; intros Ha; [by apply Ha |].
        apply IH. intros b' Hb'. apply (Hcl b); [by apply Ha |].
        by apply (retiring_prereq _ _ _ _ Hret). }
      apply (Hstep e); [done |]. intros b Hb. apply (Hpr e); [by left | done].
Qed.

End walks.
