(* ===== verification/ExpectationInv.v ===== *)
(** * The invariant of the expectations

    An expectation is retired only after its prerequisites, and one that was
    called, without exceeding its cardinality, has retired and satisfied
    prerequisites: the calls follow the sequences. *)

From S2P Require Import Prelude Outcome Common CStr GmockUtils TestResult Cardinality Expectations ExpectationWalks.

Section invariant.
Context {Args Act : Type}.
Variables (stack_trace : Z -> text) (verbose : text).
Implicit Types (w : World Args Act) (x : ExpectationBase Args Act) (e p : nat).

Record Inv w : Prop := {
  inv_ordered : ordered w;
  inv_closed : closed_world w;
  inv_called e x : expectations w !! e = Some x -> 0 < call_count_ x <= max_ (cardinality_ x) ->
    forall p, tc (prereq w) e p -> retired_at w p /\ satisfied_at w p;
  inv_count e x : expectations w !! e = Some x -> 0 <= call_count_ x /\ proper (cardinality_ x);
  inv_mockers k m e : mockers w !! k = Some m -> e ∈ untyped_expectations_ m ->
    is_Some (expectations w !! e);
}.

(** ** What a change keeps *)

Definition data x : gset nat * Cardinality * Z :=
  (immediate_prerequisites_ x, cardinality_ x, call_count_ x).
Definition keeps w w' e : Prop := data <$> expectations w' !! e = data <$> expectations w !! e.

Lemma keeps_lookup w w' e x' :
  keeps w w' e -> expectations w' !! e = Some x' ->
  exists x, expectations w !! e = Some x /\ data x' = data x.
Proof.
  unfold keeps. intros H Hx. rewrite Hx in H. destruct (expectations w !! e) as [x |]; [| done].
  exists x. split; [done |]. by apply (inj Some) in H.
Qed.

Lemma keeps_sym w w' e : keeps w w' e -> keeps w' w e.
Proof. unfold keeps. by intros ->. Qed.

Lemma keeps_trans w1 w2 w3 e : keeps w1 w2 e -> keeps w2 w3 e -> keeps w1 w3 e.
Proof. unfold keeps. intros H1 H2. by rewrite H2. Qed.

Lemma keeps_satisfied w w' e : keeps w w' e -> satisfied_at w e -> satisfied_at w' e.
Proof.
  intros H%keeps_sym (x & Hx & Hs). destruct (keeps_lookup _ _ _ _ H Hx) as (x' & Hx' & Hd).
  exists x'. split; [done |]. unfold IsSatisfied in *. unfold data in Hd. congruence.
Qed.

Lemma keeps_prereq w w' e p : keeps w w' e -> prereq w e p -> prereq w' e p.
Proof.
  intros H%keeps_sym (x & Hx & Hs). destruct (keeps_lookup _ _ _ _ H Hx) as (x' & Hx' & Hd).
  exists x'. split; [done |]. unfold data in Hd. congruence.
Qed.

Lemma retiring_keeps w w' e : retiring w w' -> keeps w w' e.
Proof.
  intros [H _]. unfold keeps. destruct (H e) as [-> | ->]; [done |].
  by destruct (expectations w !! e).
Qed.

Lemma set_keeps w e x x' e' :
  expectations w !! e = Some x -> data x' = data x -> keeps w (set e x' w) e'.
Proof.
  intros Hx Hd. unfold keeps. simpl. destruct (decide (e' = e)) as [-> | Hne].
  - rewrite lookup_insert_eq, Hx. simpl. by rewrite Hd.
  - by rewrite lookup_insert_ne.
Qed.

Lemma set_other w e x' e' : e' <> e -> expectations (set e x' w) !! e' = expectations w !! e'.
Proof. intros. simpl. by rewrite lookup_insert_ne. Qed.

(** ** The step of a call on the expectation [e] *)

Lemma tc_older w e p : ordered w -> tc (prereq w) e p -> (p < e)%nat.
Proof.
  intros Ho. induction 1 as [a b Hab | a b c Hab _ IH]; [by apply (ordered_older w Ho) |].
  apply (ordered_older w Ho) in Hab. lia.
Qed.

Lemma tc_mono (R R' : nat -> nat -> Prop) a b :
  (forall a b, R a b -> R' a b) -> tc R a b -> tc R' a b.
Proof.
  intros H. induction 1 as [a b Hab | a b c Hab _ IH]; [by apply tc_once, H |].
  eapply tc_l; [by apply H | done].
Qed.

Record call_step w e x w' x' : Prop := {
  cs_old : expectations w !! e = Some x;
  cs_new : expectations w' !! e = Some x';
  cs_active : retired_ x = false;
  cs_same : immediate_prerequisites_ x' = immediate_prerequisites_ x /\
            cardinality_ x' = cardinality_ x;
  cs_count : call_count_ x' = call_count_ x + 1;
  cs_other e' : e' <> e -> keeps w w' e';
  cs_size : size (expectations w') = size (expectations w);
  cs_mockers : mockers w' = mockers w;
  cs_retired p : retired_at w p -> retired_at w' p;
  cs_closed : closed_world w';
  cs_prereqs : call_count_ x + 1 <= max_ (cardinality_ x) ->
    forall p, tc (prereq w) e p -> retired_at w' p;
}.

Section step.
Variables (w w' : World Args Act) (e : nat) (x x' : ExpectationBase Args Act).
Hypotheses (HI : Inv w) (Hstep : call_step w e x w' x')
  (Hsat : forall p, tc (prereq w) e p -> satisfied_at w p).

Lemma step_prereq a p : prereq w' a p <-> prereq w a p.
Proof.
  destruct Hstep. destruct (decide (a = e)) as [-> | Hne].
  - unfold prereq. rewrite cs_old0, cs_new0. destruct cs_same0 as [Hp _]. split.
    + intros (y & [= <-] & H). exists x. by rewrite <- Hp.
    + intros (y & [= <-] & H). exists x'. by rewrite Hp.
  - split; apply keeps_prereq; [apply keeps_sym |]; by apply cs_other0.
Qed.

Lemma step_tc a p : tc (prereq w') a p <-> tc (prereq w) a p.
Proof. split; apply tc_mono; intros ??; apply step_prereq. Qed.

Lemma step_dom a : is_Some (expectations w' !! a) <-> is_Some (expectations w !! a).
Proof.
  destruct Hstep. destruct (decide (a = e)) as [-> | Hne]; [rewrite cs_old0, cs_new0; split; eauto |].
  specialize (cs_other0 a Hne). unfold keeps in cs_other0.
  rewrite <- (fmap_is_Some data), cs_other0, fmap_is_Some. done.
Qed.

(** An expectation that was called does not depend on an active one. *)
Lemma active_not_prereq a y p :
  expectations w !! a = Some y -> 0 < call_count_ y <= max_ (cardinality_ y) ->
  tc (prereq w) a p -> p <> e.
Proof.
  intros Hy Hc Hp ->. destruct (inv_called w HI a y Hy Hc e Hp) as [(z & Hz & Hr) _].
  pose proof (cs_active _ _ _ _ _ Hstep). pose proof (cs_old _ _ _ _ _ Hstep). congruence.
Qed.

Lemma call_step_inv : Inv w'.
Proof.
  pose proof Hstep as [Hold Hnew Hact [Hpre Hcard] Hcount Hother Hsize Hm Hret Hcl Hprs].
  pose proof (inv_ordered w HI) as Ho. split.
  - split.
    + intros a. rewrite step_dom, Hsize. apply Ho.
    + intros a p. rewrite step_prereq. apply Ho.
    + intros a p. rewrite step_prereq, step_dom. apply Ho.
  - done.
  - intros a y Hy Hc p Hp%step_tc. destruct (decide (a = e)) as [-> | Hne].
    + assert (y = x') as -> by congruence. rewrite Hcount, Hcard in Hc.
      split; [apply Hprs; [lia | done] |].
      pose proof (tc_older _ _ _ Ho Hp). apply (keeps_satisfied w); [apply Hother; lia | auto].
    + destruct (keeps_lookup _ _ _ _ (Hother a Hne) Hy) as (y0 & Hy0 & Hd).
      unfold data in Hd. injection Hd as _ Hd1 Hd2. rewrite Hd1, Hd2 in Hc.
      destruct (inv_called w HI a y0 Hy0 Hc p Hp) as [Hr Hs]. split; [auto |].
      apply (keeps_satisfied w); [apply Hother | done]. by eapply active_not_prereq.
  - intros a y Hy. destruct (decide (a = e)) as [-> | Hne].
    + assert (y = x') as -> by congruence. rewrite Hcount, Hcard.
      destruct (inv_count w HI e x Hold) as [H0 Hp]. split; [lia | done].
    + destruct (keeps_lookup _ _ _ _ (Hother a Hne) Hy) as (y0 & Hy0 & Hd).
      unfold data in Hd. injection Hd as _ Hd1 Hd2. rewrite Hd1, Hd2. by apply (inv_count w HI a).
  - intros k m a. rewrite Hm, step_dom. apply (inv_mockers w HI).
Qed.

End step.

(** ** CheckActionCountIfNotDone changes no more than its flag and the log *)

Record agree w w' : Prop := {
  agree_exps e : with_checked <$> expectations w' !! e = with_checked <$> expectations w !! e;
  agree_mockers : mockers w' = mockers w;
  agree_sequences : sequences w' = sequences w /\ implicit_sequence w' = implicit_sequence w;
}.

Lemma agree_refl w : agree w w.
Proof. done. Qed.
Lemma agree_trans w1 w2 w3 : agree w1 w2 -> agree w2 w3 -> agree w1 w3.
Proof.
  intros [H1 M1 [S1 I1]] [H2 M2 [S2 I2]].
  split; [intros e; by rewrite H2 | congruence | split; congruence].
Qed.
Lemma agree_sym w1 w2 : agree w1 w2 -> agree w2 w1.
Proof. intros [H1 M1 [S1 I1]]. split; [intros e; by rewrite H1 | done | done]. Qed.

Lemma agree_lookup w w' e x :
  agree w w' -> expectations w !! e = Some x ->
  exists x', expectations w' !! e = Some x' /\ with_checked x' = with_checked x.
Proof.
  intros [H _ _] Hx. specialize (H e). rewrite Hx in H.
  destruct (expectations w' !! e) as [x' |]; [| done].
  exists x'. split; [done |]. by apply (inj Some) in H.
Qed.

Lemma agree_keeps w w' e : agree w w' -> keeps w w' e.
Proof.
  intros [H _ _]. unfold keeps. specialize (H e).
  assert (Hd : forall o : option (ExpectationBase Args Act), data <$> o = data <$> (with_checked <$> o))
    by (by intros []).
  by rewrite Hd, (Hd (expectations w !! e)), H.
Qed.

Lemma agree_retired w w' e : agree w w' -> retired_at w e -> retired_at w' e.
Proof.
  intros Ha (x & Hx & Hr). destruct (agree_lookup _ _ _ _ Ha Hx) as (x' & Hx' & H).
  exists x'. split; [done |]. apply (f_equal retired_) in H. simpl in H. congruence.
Qed.

Lemma agree_prereq w w' e p : agree w w' -> prereq w e p <-> prereq w' e p.
Proof. intros Ha. split; apply keeps_prereq, agree_keeps; [done | by apply agree_sym]. Qed.

Lemma agree_tc w w' e p : agree w w' -> tc (prereq w) e p <-> tc (prereq w') e p.
Proof. intros Ha. split; apply tc_mono; intros ??; by rewrite (agree_prereq _ _ _ _ Ha). Qed.

Lemma agree_satisfied w w' e : agree w w' -> satisfied_at w e -> satisfied_at w' e.
Proof. intros Ha. by apply keeps_satisfied, agree_keeps. Qed.

Lemma agree_dom w w' e : agree w w' -> is_Some (expectations w !! e) -> is_Some (expectations w' !! e).
Proof. intros Ha [x Hx]. destruct (agree_lookup _ _ _ _ Ha Hx) as (x' & -> & _). eauto. Qed.

Lemma agree_size w w' : agree w w' -> size (expectations w') = size (expectations w).
Proof.
  intros Ha. rewrite <- !size_dom. f_equal. apply leibniz_equiv, set_equiv. intros e.
  rewrite !elem_of_dom. split; apply agree_dom; [by apply agree_sym | done].
Qed.

Lemma agree_inv w w' : agree w w' -> Inv w -> Inv w'.
Proof.
  intros Ha [[O1 O2 O3] Hc Hcalled Hcount Hm]. pose proof (agree_sym _ _ Ha) as Hs. split.
  - split.
    + intros e He. rewrite (agree_size _ _ Ha). by apply O1, (agree_dom w').
    + intros e p Hp%(agree_prereq _ _ _ _ Ha). by apply O2.
    + intros e p Hp%(agree_prereq _ _ _ _ Ha). by apply (agree_dom w), (O3 e).
  - intros e p He Hp%(agree_prereq _ _ _ _ Ha). apply (agree_retired w); [done |].
    by apply (Hc e); [apply (agree_retired w') |].
  - intros e x Hx Hn p Hp%(agree_tc _ _ _ _ Ha).
    destruct (keeps_lookup _ _ _ _ (agree_keeps _ _ e Ha) Hx) as (y & Hy & Hd).
    unfold data in Hd. injection Hd as _ Hd1 Hd2. rewrite Hd1, Hd2 in Hn.
    destruct (Hcalled e y Hy Hn p Hp). split; [by apply (agree_retired w) | by apply (agree_satisfied w)].
  - intros e x Hx. destruct (keeps_lookup _ _ _ _ (agree_keeps _ _ e Ha) Hx) as (y & Hy & Hd).
    unfold data in Hd. injection Hd as _ Hd1 Hd2. rewrite Hd1, Hd2. by apply (Hcount e).
  - intros k m e. rewrite (agree_mockers _ _ Ha). intros Hk He. by apply (agree_dom w), (Hm k m).
Qed.

Lemma agree_log t w : agree w (write_log t w).
Proof. done. Qed.

Lemma agree_checked e x w : expectations w !! e = Some x -> agree w (set e (with_checked x) w).
Proof.
  intros Hx. split; [| done | done]. intros e'. simpl. destruct (decide (e' = e)) as [-> | Hne].
  - by rewrite lookup_insert_eq, Hx.
  - by rewrite lookup_insert_ne.
Qed.

Lemma Log_quiet severity msg : exists t, Log stack_trace verbose severity msg (-1) = Ok t.
Proof. unfold Log. destruct (negb _); simpl; eauto. Qed.
Lemma Log_trace severity msg : exists t, Log stack_trace verbose severity msg 1 = Ok t.
Proof. unfold Log. destruct (negb _); simpl; eauto. Qed.

Lemma Check_agree e w :
  is_Some (expectations w !! e) -> CheckActionCountIfNotDone stack_trace verbose e w ⇓ agree w.
Proof.
  intros [x Hx]. unfold CheckActionCountIfNotDone. rewrite (get_ok _ _ _ Hx), bind_ok.
  destruct (action_count_checked_ x); [done |]. pose proof (agree_checked _ _ _ Hx) as Ha.
  destruct (negb _); [exact Ha |].
  assert (Hlog : forall t, agree w (write_log t (set e (with_checked x) w)))
    by (intros t; eapply agree_trans; [exact Ha | apply agree_log]).
  repeat match goal with |- context [Log ?a ?b ?c ?d (-1)] =>
    destruct (Log_quiet c d) as [? ->]; rewrite ?bind_ok end.
  destruct (_ || _); [apply Hlog |]. destruct (_ && _); [apply Hlog | exact Ha].
Qed.

(** ** Which expectation handles a call *)

Definition handles w e (args : Args) : Prop :=
  exists x, expectations w !! e = Some x /\ retired_ x = false /\
    (forall p, tc (prereq w) e p -> satisfied_at w p) /\ expectation_matches x args = true.

Lemma agree_handles w w' e args : agree w w' -> handles w e args -> handles w' e args.
Proof.
  intros Ha (x & Hx & Hr & Hs & Hm). destruct (agree_lookup _ _ _ _ Ha Hx) as (x' & Hx' & H).
  exists x'. split; [done |].
  pose proof (f_equal retired_ H). pose proof (f_equal matchers_ H). pose proof (f_equal extra_matcher_ H).
  simpl in *. split; [congruence |]. split.
  - intros p Hp%(agree_tc _ _ _ _ Ha). apply (agree_satisfied w); auto.
  - unfold expectation_matches in *. congruence.
Qed.

Lemma ShouldHandleArguments_spec e args w :
  ordered w -> is_Some (expectations w !! e) ->
  ShouldHandleArguments stack_trace verbose e args w ⇓ fun '(b, w') =>
    agree w w' /\ (b = true <-> handles w' e args).
Proof.
  intros Ho He. unfold ShouldHandleArguments. apply returns_bind.
  eapply returns_mono; [by apply Check_agree |]. intros w' Ha.
  pose proof (agree_dom _ _ _ Ha He) as He'. destruct He' as [x Hx].
  rewrite (get_ok _ _ _ Hx), bind_ok. unfold is_retired. destruct (retired_ x) eqn:Hr.
  { split; [done |]. split; [done |]. intros (y & Hy & Hf & _). congruence. }
  assert (Ho' : ordered w').
  { destruct Ho as [O1 O2 O3]. pose proof (agree_sym _ _ Ha) as Hs. split.
    - intros a H. rewrite (agree_size _ _ Ha). by apply O1, (agree_dom w').
    - intros a p H%(agree_prereq _ _ _ _ Ha). by apply O2.
    - intros a p H%(agree_prereq _ _ _ _ Ha). by apply (agree_dom w), (O3 a). }
  destruct (AllPrerequisitesAreSatisfied_spec e w' Ho') as (b & -> & Hb); [eauto |].
  rewrite bind_ok. split; [done |]. unfold handles. rewrite Hx. split.
  - intros [H1 H2]%andb_true_iff. exists x. split; [done |]. split; [done |]. split; [by apply Hb | done].
  - intros (y & [= <-] & _ & Hs & Hm). rewrite Hm, (proj2 Hb Hs). done.
Qed.

(** The result of the search: the first of [es] that handles the call. *)
Definition first_handler w (es : list nat) (args : Args) (r : option nat) : Prop :=
  match r with
  | None => forall e, e ∈ es -> ~ handles w e args
  | Some e => exists l1 l2, es = l1 ++ e :: l2 /\ handles w e args /\
                forall e', e' ∈ l1 -> ~ handles w e' args
  end.

Lemma find_matching_spec es args w :
  Inv w -> (forall e, e ∈ es -> is_Some (expectations w !! e)) ->
  find_matching stack_trace verbose es args w ⇓ fun '(r, w') =>
    agree w w' /\ first_handler w es args r.
Proof.
  revert w. induction es as [| e es IH]; intros w HI Hes; simpl.
  { split; [done |]. by intros e ?%elem_of_nil. }
  apply returns_bind. eapply returns_mono.
  { apply ShouldHandleArguments_spec; [apply HI | apply Hes; by left]. }
  intros [b w1] [Ha Hb]. pose proof (agree_sym _ _ Ha) as Hsym. destruct b.
  - split; [done |]. exists [], es. split; [done |].
    split; [by apply (agree_handles w1), Hb | by intros e' ?%elem_of_nil].
  - assert (Hno : ~ handles w e args).
    { intros H%(agree_handles _ _ _ _ Ha)%Hb. done. }
    eapply returns_mono.
    { apply IH; [by eapply agree_inv |]. intros e' He'. apply (agree_dom w); [done |]. apply Hes. by right. }
    intros [r w'] [Ha' Hr]. split; [by eapply agree_trans |].
    assert (Hback : forall a, handles w a args -> handles w1 a args) by (intros a; by apply agree_handles).
    destruct r as [e' |]; simpl in *.
    + destruct Hr as (l1 & l2 & -> & Hh & Hl). exists (e :: l1), l2. split; [done |].
      split; [by apply (agree_handles w1) |].
      intros a [-> | Hin]%elem_of_cons; [done |]. intros Hx%Hback. by apply (Hl a).
    + intros a [-> | Hin]%elem_of_cons; [done |]. intros Hx%Hback. by apply (Hr a).
Qed.

(** ** GetActionForArguments *)

(** A new value with the same prerequisites and the same flag. *)
Section same_shape.
Variables (w : World Args Act) (e : nat) (x x1 : ExpectationBase Args Act).
Hypotheses (Hx : expectations w !! e = Some x)
  (Hp : immediate_prerequisites_ x1 = immediate_prerequisites_ x)
  (Hr : retired_ x1 = retired_ x).

Lemma shape_prereq a p : prereq (set e x1 w) a p <-> prereq w a p.
Proof.
  unfold prereq. simpl. destruct (decide (a = e)) as [-> | Hne].
  - rewrite lookup_insert_eq, Hx. split; intros (y & [= <-] & H); [exists x | exists x1]; (split; [done | congruence]).
  - by rewrite lookup_insert_ne.
Qed.

Lemma shape_retired a : retired_at (set e x1 w) a <-> retired_at w a.
Proof.
  unfold retired_at. simpl. destruct (decide (a = e)) as [-> | Hne].
  - rewrite lookup_insert_eq, Hx. split; intros (y & [= <-] & H); [exists x | exists x1]; (split; [done | congruence]).
  - by rewrite lookup_insert_ne.
Qed.

Lemma shape_size : size (expectations (set e x1 w)) = size (expectations w).
Proof. simpl. apply map_size_insert_Some. eauto. Qed.

Lemma shape_dom a : is_Some (expectations (set e x1 w) !! a) <-> is_Some (expectations w !! a).
Proof.
  simpl. destruct (decide (a = e)) as [-> | Hne].
  - rewrite lookup_insert_eq, Hx. split; eauto.
  - by rewrite lookup_insert_ne.
Qed.

Lemma shape_ordered : ordered w -> ordered (set e x1 w).
Proof.
  intros [O1 O2 O3]. split.
  - intros a. rewrite shape_size, shape_dom. apply O1.
  - intros a p. rewrite shape_prereq. apply O2.
  - intros a p. rewrite shape_prereq, shape_dom. apply O3.
Qed.

Lemma shape_closed : closed_world w -> closed_world (set e x1 w).
Proof. intros H a p. rewrite shape_prereq, !shape_retired. apply H. Qed.

Lemma shape_tc a p : tc (prereq (set e x1 w)) a p <-> tc (prereq w) a p.
Proof. split; apply tc_mono; intros ??; apply shape_prereq. Qed.

End same_shape.

(** The action of the [n]-th call. *)
Definition nth_action x (n : Z) : Action Act :=
  if n <=? Z.of_nat (List.length (untyped_actions_ x))
  then default (repeated_action_ x) (untyped_actions_ x !! Z.to_nat (n - 1))
  else repeated_action_ x.

Lemma GetCurrentAction_spec m e args w x :
  expectations w !! e = Some x -> 1 <= call_count_ x ->
  GetCurrentAction stack_trace verbose m e args w ⇓ fun '(a, w') =>
    a = nth_action x (call_count_ x) /\ agree w w' /\ expectations w' = expectations w.
Proof.
  intros Hx Hc. unfold GetCurrentAction. rewrite (get_ok _ _ _ Hx), bind_ok.
  assert (Hc' : (1 <=? call_count_ x) = true) by lia.
  rewrite Hc'. cbn [c_assert]. rewrite bind_ok. apply returns_bind. eapply (returns_mono _ (fun w' => agree w w' /\ expectations w' = expectations w)).
  { destruct (_ && _); [| done].
    match goal with |- context [Log ?a ?b ?c ?d 1] => destruct (Log_trace c d) as [? ->] end.
    by rewrite bind_ok. }
  intros w' [Ha He]. unfold nth_action. destruct (Z.leb_spec (call_count_ x)
    (Z.of_nat (List.length (untyped_actions_ x)))) as [Hle | Hle]; [| done].
  destruct (lookup_lt_is_Some_2 (untyped_actions_ x) (Z.to_nat (call_count_ x - 1))) as [a Hlook]; [lia |].
  rewrite Hlook. cbn [or_fault]. rewrite bind_ok. done.
Qed.

Lemma call_step_agree w e x w1 x1 w2 :
  call_step w e x w1 x1 -> agree w1 w2 -> expectations w2 = expectations w1 ->
  call_step w e x w2 x1.
Proof.
  intros [] Ha He. split; try done.
  - by rewrite He.
  - intros e' Hne. eapply keeps_trans; [by apply cs_other0 | by apply agree_keeps].
  - by rewrite He.
  - by rewrite (agree_mockers _ _ Ha).
  - intros p Hp. apply (agree_retired w1); auto.
  - intros a p Hr Hp%(agree_prereq _ _ _ _ Ha). apply (agree_retired w1); [done |].
    apply (cs_closed0 a); [| done]. by apply (agree_retired w2), Hr; apply agree_sym.
  - intros Hc p Hp. apply (agree_retired w1); auto.
Qed.

Lemma excessive_step w e x :
  Inv w -> expectations w !! e = Some x -> retired_ x = false -> IsSaturated x = true ->
  call_step w e x (set e (with_call_count (call_count_ x + 1) x) w)
    (with_call_count (call_count_ x + 1) x).
Proof.
  intros HI Hx Hr Hsat%IsSaturated_iff. set (x1 := with_call_count _ x).
  split; try done.
  - simpl. by rewrite lookup_insert_eq.
  - intros e' Hne. unfold keeps. by rewrite set_other.
  - by apply (shape_size w e x).
  - intros p Hp. by apply (shape_retired w e x).
  - by apply (shape_closed w e x), HI.
  - lia.
Qed.

(** The world after the prerequisites were retired and, maybe, [e] itself. *)
Lemma normal_step w e x w2 (retires : bool) :
  Inv w -> expectations w !! e = Some x -> retired_ x = false ->
  let x1 := with_call_count (call_count_ x + 1) x in
  retiring (set e x1 w) w2 -> closed_world w2 ->
  (forall p, retired_at w2 p <-> retired_at (set e x1 w) p \/ tc (prereq (set e x1 w)) e p) ->
  expectations w2 !! e = Some x1 /\
  call_step w e x (if retires then set e (Retire x1) w2 else w2)
    (if retires then Retire x1 else x1).
Proof.
  intros HI Hx Hr x1 Hret Hcl Hiff.
  assert (Hnot : ~ retired_at w2 e).
  { rewrite Hiff, (shape_retired w e x), (shape_tc w e x) by done. intros [(y & Hy & ?) | Ht].
    - congruence.
    - apply (tc_older w) in Ht; [lia | apply HI]. }
  assert (He : expectations w2 !! e = Some x1).
  { destruct (retiring_exps _ _ Hret e) as [E | E]; simpl in E; rewrite lookup_insert_eq in E; [done |].
    destruct Hnot. exists (Retire x1). split; [by rewrite E | done]. }
  assert (Hkeep : forall e', e' <> e -> keeps w w2 e').
  { intros e' Hne. eapply keeps_trans; [| by apply retiring_keeps].
    unfold keeps. by rewrite set_other. }
  assert (Hmono : forall p, retired_at w p -> retired_at w2 p).
  { intros p Hp. apply Hiff. left. by apply (shape_retired w e x). }
  assert (Hprs : forall p, tc (prereq w) e p -> retired_at w2 p).
  { intros p Hp. apply Hiff. right. by apply (shape_tc w e x). }
  assert (Hm : mockers w2 = mockers w) by (by rewrite (retiring_rest _ _ Hret)).
  split; [done |]. destruct retires; split; try done.
  - simpl. by rewrite lookup_insert_eq.
  - intros e' Hne. unfold keeps. rewrite set_other by done. by apply Hkeep.
  - rewrite (shape_size w2 e x1), (retiring_size _ _ Hret), (shape_size w e x); done.
  - intros p Hp%Hmono. by apply (retired_set _ _ _ _ He); right.
  - intros a p Ha Hp%(shape_prereq w2 e x1 (Retire x1) He eq_refl).
    apply (retired_set _ _ _ _ He). right. apply (retired_set _ _ _ _ He) in Ha as [-> | Ha].
    + apply Hprs, tc_once. apply (shape_prereq w e x x1 Hx eq_refl).
      by apply (retiring_prereq _ _ _ _ Hret).
    + by apply (Hcl a).
  - intros _ p Hp%Hprs. by apply (retired_set _ _ _ _ He); right.
  - by rewrite (retiring_size _ _ Hret), (shape_size w e x).
Qed.

Lemma GetActionForArguments_spec m e args w x :
  Inv w -> expectations w !! e = Some x -> retired_ x = false -> call_count_ x < INT_MAX ->
  GetActionForArguments stack_trace verbose m e args w ⇓ fun '(a, _, _, w') =>
    (exists x', call_step w e x w' x') /\
    a = if IsSaturated x then None else Some (nth_action x (call_count_ x + 1)).
Proof.
  intros HI Hx Hr Hc. destruct (inv_count w HI e x Hx) as [H0 _].
  unfold GetActionForArguments, IncrementCallCount.
  rewrite (get_ok _ _ _ Hx), bind_ok.
  assert (Hok : int_ok (call_count_ x + 1) = true).
  { unfold int_ok, INT_MIN. unfold INT_MAX in *. lia. }
  rewrite Hok. destruct (IsSaturated x) eqn:Hsat; rewrite bind_ok.
  { split; [| done]. eexists. by apply excessive_step. }
  set (x1 := with_call_count (call_count_ x + 1) x). apply returns_bind.
  eapply returns_mono.
  { apply (RetireAllPreRequisites_spec e x1).
    - by apply (shape_ordered w e x), HI.
    - by apply (shape_closed w e x), HI.
    - simpl. by rewrite lookup_insert_eq.
    - done. }
  intros w2 (Hret & Hcl & Hiff).
  destruct (normal_step w e x w2 (retires_on_saturation_ x1 && IsSaturated x1) HI Hx Hr Hret Hcl Hiff)
    as [He Hstep].
  rewrite (get_ok _ _ _ He), bind_ok. apply returns_bind. set (sat := retires_on_saturation_ x1 && IsSaturated x1) in *.
  set (w3 := if sat then set e (Retire x1) w2 else w2) in *.
  set (x3 := if sat then Retire x1 else x1) in *.
  assert (Hx3 : call_count_ x3 = call_count_ x + 1) by (unfold x3; by destruct sat).
  eapply returns_mono.
  { apply (GetCurrentAction_spec m e args w3 x3); [apply Hstep | lia]. }
  intros [a w4] (-> & Ha & Hexp). split.
  - exists x3. by eapply call_step_agree.
  - rewrite Hx3. f_equal. unfold x3. by destruct sat.
Qed.

End invariant.
