(* ===== verification/ExpectCall.v ===== *)
(** * The statement EXPECT_CALL keeps the invariant

    The statement adds an expectation and applies its clauses to it.  While it
    is built nothing depends on the new expectation, which is active and was
    never called. *)

From S2P Require Import Prelude Outcome Common CStr GmockUtils TestResult Cardinality Expectations ExpectationWalks ExpectationInv.

(** ** Runs of calls, and the statement EXPECT_CALL

    A call keeps the invariant and never answers with a retired expectation;
    the statement EXPECT_CALL builds expectations that satisfy it. *)

Section runs.
Context {Args Act : Type}.
Variables (stack_trace : Z -> text) (verbose : text).
Implicit Types (w : World Args Act) (x : ExpectationBase Args Act) (e p : nat).

(** ** The explanation of a call that no expectation handles *)

Lemma number_prerequisites_ok i es w :
  (forall e, e ∈ es -> is_Some (expectations w !! e)) ->
  exists t, number_prerequisites i es w = Ok t.
Proof.
  revert i. induction es as [| e es IH]; intros i Hes; simpl; [eauto |].
  destruct (Hes e) as [x Hx]; [by left |]. rewrite (get_ok _ _ _ Hx), bind_ok.
  destruct (IH (S i)) as [t ->]; [intros; apply Hes; by right |]. rewrite bind_ok. eauto.
Qed.

Lemma ExplainMatchResultTo_ok e args w :
  ordered w -> is_Some (expectations w !! e) -> exists t, ExplainMatchResultTo e args w = Ok t.
Proof.
  intros Ho [x Hx]. unfold ExplainMatchResultTo. rewrite (get_ok _ _ _ Hx), bind_ok.
  destruct (is_retired x); [eauto |]. destruct (negb _); [eauto |].
  destruct (AllPrerequisitesAreSatisfied_spec e w Ho) as (b & -> & _); [eauto |]. rewrite bind_ok.
  destruct b; simpl; [eauto |].
  destruct (FindUnsatisfiedPrerequisites_spec e w Ho) as (r & -> & Hr); [eauto |]. rewrite bind_ok.
  destruct (number_prerequisites_ok 0 (elements r) w) as [t ->]; [| rewrite bind_ok; eauto].
  intros p (e' & _ & Hp & _)%elem_of_elements%Hr. by eapply ordered_exists.
Qed.

Lemma print_tried_ok count i es args w :
  ordered w -> (forall e, e ∈ es -> is_Some (expectations w !! e)) ->
  exists t, print_tried count i es args w = Ok t.
Proof.
  intros Ho. revert i. induction es as [| e es IH]; intros i Hes; simpl; [eauto |].
  destruct (Hes e) as [x Hx]; [by left |]. rewrite (get_ok _ _ _ Hx), bind_ok.
  destruct (ExplainMatchResultTo_ok e args w Ho) as [t ->]; [eauto |]. rewrite bind_ok.
  destruct (IH (S i)) as [t' ->]; [intros; apply Hes; by right |]. rewrite bind_ok. eauto.
Qed.

(** ** One call *)

(** No count overflows within [n] more calls. *)
Definition room w (n : Z) : Prop :=
  forall e x, expectations w !! e = Some x -> call_count_ x + n <= INT_MAX.

Definition performed (a : option (Action Act)) : option Act :=
  match a with Some (Perform a) => Some a | _ => None end.

(** What a call does: [r] answers it, [w'] is the world after it. *)
Definition call_result w (m : FunctionMocker Args Act) (args : Args) (r : Match (Act := Act)) w' : Prop :=
  first_handler w (rev (untyped_expectations_ m)) args (match_expectation r) /\
  match match_expectation r with
  | None => agree w w' /\ is_excessive r = false /\ match_action r = None
  | Some e => exists w1 x x', agree w w1 /\ call_step w1 e x w' x' /\
      is_excessive r = IsSaturated x /\
      match_action r = performed (if IsSaturated x then None
                                  else Some (nth_action x (call_count_ x + 1)))
  end.

Lemma UntypedFindMatchingExpectation_spec k m args w :
  Inv w -> room w 1 -> mockers w !! k = Some m ->
  UntypedFindMatchingExpectation stack_trace verbose k args w ⇓ fun '(r, w') =>
    Inv w' /\ call_result w m args r w'.
Proof.
  intros HI Hroom Hk. unfold UntypedFindMatchingExpectation, FindMatchingExpectationLocked.
  rewrite Hk. cbn [or_fault]. rewrite bind_ok. apply returns_bind.
  assert (Hin : forall e, e ∈ rev (untyped_expectations_ m) -> is_Some (expectations w !! e)).
  { intros e He. apply (inv_mockers w HI k m); [done |]. by apply list_elem_of_In, in_rev, list_elem_of_In. }
  eapply returns_mono; [by apply find_matching_spec |].
  intros [[e |] w1] [Ha Hf].
  - assert (HI1 : Inv w1) by (by eapply agree_inv).
    destruct Hf as (l1 & l2 & Hes & Hh & Hl).
    pose proof (agree_handles _ _ _ _ Ha Hh) as (x & Hx & Hr & Hs & _).
    destruct (keeps_lookup _ _ _ _ (agree_keeps _ _ e Ha) Hx) as (y & Hy & Hd).
    unfold data in Hd. injection Hd as _ _ Hd. pose proof (Hroom e y Hy).
    rewrite (get_ok _ _ _ Hx), bind_ok. apply returns_bind. eapply returns_mono.
    { apply (GetActionForArguments_spec stack_trace verbose m e args w1 x); try done. lia. }
    intros [[[a wh] wy] w'] [(x' & Hstep) ->]. split.
    + by eapply (call_step_inv w1 w' e x x').
    + split; [by exists l1, l2 |]. simpl. exists w1, x, x'. split; [done |]. split; [done |].
      split; [done |]. by destruct (IsSaturated x).
  - assert (HI1 : Inv w1) by (by eapply agree_inv). unfold PrintTriedExpectationsLocked.
    destruct (print_tried_ok (List.length (untyped_expectations_ m)) 0 (untyped_expectations_ m) args w1)
      as [t ->]; [apply HI1 | | rewrite !bind_ok; done].
    intros e He. apply (agree_dom w); [done |]. by apply (inv_mockers w HI k m).
Qed.

(** ** Consequences for the next calls *)

Lemma call_result_mockers w m args r w' : call_result w m args r w' -> mockers w' = mockers w.
Proof.
  intros [_ H]. destruct (match_expectation r).
  - destruct H as (w1 & x & x' & Ha & Hs & _).
    by rewrite (cs_mockers _ _ _ _ _ Hs), (agree_mockers _ _ Ha).
  - by apply H.
Qed.

Lemma call_result_retired w m args r w' p :
  call_result w m args r w' -> retired_at w p -> retired_at w' p.
Proof.
  intros [_ H] Hp. destruct (match_expectation r).
  - destruct H as (w1 & x & x' & Ha & Hs & _). by apply (cs_retired _ _ _ _ _ Hs), (agree_retired w).
  - destruct H as [Ha _]. by apply (agree_retired w).
Qed.

Lemma call_result_tc w m args r w' e p :
  call_result w m args r w' -> tc (prereq w') e p <-> tc (prereq w) e p.
Proof.
  intros [_ H]. destruct (match_expectation r).
  - destruct H as (w1 & x & x' & Ha & Hs & _).
    rewrite (agree_tc _ _ _ _ Ha). by apply (step_tc w1 w' n x x').
  - destruct H as [Ha _]. symmetry. by apply agree_tc.
Qed.

Lemma call_result_room w m args r w' n :
  call_result w m args r w' -> room w (n + 1) -> room w' n.
Proof.
  intros [_ H] Hroom e y Hy. destruct (match_expectation r) as [e0 |].
  - destruct H as (w1 & x & x' & Ha & Hs & _).
    assert (Hroom1 : room w1 (n + 1)).
    { intros a z Hz. destruct (keeps_lookup _ _ _ _ (agree_keeps _ _ a Ha) Hz) as (z0 & Hz0 & Hd).
      unfold data in Hd. injection Hd as _ _ Hd. rewrite Hd. by apply (Hroom a). }
    destruct (decide (e = e0)) as [-> | Hne].
    + assert (y = x') as -> by (pose proof (cs_new _ _ _ _ _ Hs); congruence).
      rewrite (cs_count _ _ _ _ _ Hs). pose proof (Hroom1 e0 x (cs_old _ _ _ _ _ Hs)). lia.
    + destruct (keeps_lookup _ _ _ _ (cs_other _ _ _ _ _ Hs e Hne) Hy) as (z & Hz & Hd).
      unfold data in Hd. injection Hd as _ _ Hd. rewrite Hd. pose proof (Hroom1 e z Hz). lia.
  - destruct H as [Ha _]. destruct (keeps_lookup _ _ _ _ (agree_keeps _ _ e Ha) Hy) as (z & Hz & Hd).
    unfold data in Hd. injection Hd as _ _ Hd. rewrite Hd. pose proof (Hroom e z Hz). lia.
Qed.

Lemma call_result_active w m args r w' p :
  call_result w m args r w' -> retired_at w p -> match_expectation r <> Some p.
Proof.
  intros [Hf _] (x & Hx & Hr) Heq. rewrite Heq in Hf.
  destruct Hf as (l1 & l2 & _ & (y & Hy & Hn & _) & _). congruence.
Qed.

Lemma call_result_prereqs w m args r w' e p :
  call_result w m args r w' -> match_expectation r = Some e -> is_excessive r = false ->
  tc (prereq w) e p -> retired_at w' p.
Proof.
  intros [_ H] He Hex Hp. rewrite He in H. destruct H as (w1 & x & x' & Ha & Hs & Hx & _).
  apply (cs_prereqs _ _ _ _ _ Hs); [| by apply (agree_tc _ _ _ _ Ha)].
  rewrite Hex in Hx. symmetry in Hx. unfold IsSaturated, IsSaturatedByCallCount in Hx. lia.
Qed.

(** ** Many calls *)

Fixpoint run_calls (calls : list (nat * Args)) w : outcome (list (Match (Act := Act)) * World Args Act) :=
  match calls with
  | [] => Ok ([], w)
  | (k, args) :: calls =>
      '(r, w) ← UntypedFindMatchingExpectation stack_trace verbose k args w;
      '(rs, w) ← run_calls calls w;
      Ok (r :: rs, w)
  end.

(** [p] answers none of the calls. *)
Definition unanswered p (rs : list (Match (Act := Act))) : Prop :=
  forall r, r ∈ rs -> match_expectation r <> Some p.

(** After a call that [e] answers in time, its prerequisites answer no more. *)
Definition in_order w (rs : list (Match (Act := Act))) : Prop :=
  forall rs1 r rs2 e p, rs = rs1 ++ r :: rs2 -> match_expectation r = Some e ->
    is_excessive r = false -> tc (prereq w) e p -> unanswered p rs2.

Lemma run_calls_spec calls w :
  Inv w -> room w (Z.of_nat (List.length calls)) ->
  (forall k args, (k, args) ∈ calls -> is_Some (mockers w !! k)) ->
  run_calls calls w ⇓ fun '(rs, w') =>
    Inv w' /\ List.length rs = List.length calls /\
    (forall p, retired_at w p -> unanswered p rs) /\ in_order w rs.
Proof.
  revert w. induction calls as [| [k args] calls IH]; intros w HI Hroom Hk; simpl.
  { split; [done |]. split; [done |]. split; [by intros p _ r ?%elem_of_nil |].
    intros rs1 r rs2 e p Hnil. by destruct rs1. }
  destruct (Hk k args) as [m Hm]; [by left |]. apply returns_bind.
  simpl in Hroom. eapply returns_mono.
  { apply (UntypedFindMatchingExpectation_spec k m); try done.
    intros e x Hx. pose proof (Hroom e x Hx). lia. }
  intros [r w1] [HI1 Hr]. apply returns_bind. eapply returns_mono.
  { apply IH; [done | |].
    - apply (call_result_room _ _ _ _ _ _ Hr). intros e x Hx. pose proof (Hroom e x Hx). lia.
    - intros k' args' Hin. rewrite (call_result_mockers _ _ _ _ _ Hr). apply (Hk k' args'). by right. }
  intros [rs w'] (HI' & Hlen & Hun & Hord). simpl. split; [done |]. split; [by rewrite Hlen |]. split.
  - intros p Hp r' [-> | Hin]%elem_of_cons; [by eapply call_result_active |].
    apply (Hun p); [by eapply call_result_retired | done].
  - intros [| r0 rs1] r1 rs2 e p Heq He Hex Hp; simpl in Heq; injection Heq as <- ->.
    + apply Hun. by eapply call_result_prereqs.
    + eapply (Hord rs1 r1 rs2 e); try done. by apply (call_result_tc _ _ _ _ _ _ _ Hr).
Qed.

End runs.

Section expect_call.
Context {Args Act : Type}.
Variables (stack_trace : Z -> text) (verbose : text) (current_test : option (text * text)).
Implicit Types (w : World Args Act) (x : ExpectationBase Args Act) (e p : nat).

(** ** The clauses of a statement *)

Inductive clause : Type :=
  | CWith (m : Matcher Args) | CTimes (c : Cardinality) | CInSequence (s : nat)
  | CAfter (es : gset nat) | CWillOnce (a : Action Act) | CWillRepeatedly (a : Action Act)
  | CRetiresOnSaturation.

Definition run_clause (owner e : nat) (c : clause) w : outcome (World Args Act) :=
  match c with
  | CWith m => With e m w
  | CTimes c => Times e c w
  | CInSequence s => InSequence owner e s w
  | CAfter es => After e es w
  | CWillOnce a => WillOnce e a w
  | CWillRepeatedly a => WillRepeatedly stack_trace verbose e a w
  | CRetiresOnSaturation => RetiresOnSaturation stack_trace verbose e w
  end.
Fixpoint run_clauses (owner e : nat) (cs : list clause) w : outcome (World Args Act) :=
  match cs with
  | [] => Ok w
  | c :: cs => w ← run_clause owner e c w; run_clauses owner e cs w
  end.
(** [EXPECT_CALL(obj, call)] followed by its clauses. *)
Definition EXPECT_CALL (owner : nat) (file : option text) (line : Z) (source_text : text)
    (ms : Matcher Args) (cs : list clause) w : outcome (nat * World Args Act) :=
  '(e, w) ← AddNewExpectation current_test owner file line source_text ms w;
  w ← run_clauses owner e cs w;
  Ok (e, w).

(** ** The expectation under construction *)

Record well_formed w : Prop := {
  wf_inv : Inv w;
  wf_last s l : sequences w !! s = Some (Some l) -> is_Some (expectations w !! l);
  wf_implicit s : implicit_sequence w = Some s -> is_Some (sequences w !! s);
}.

Definition unused x : Prop :=
  call_count_ x = 0 /\ retired_ x = false /\ proper (cardinality_ x).

Record building (owner e : nat) w : Prop := {
  b_wf : well_formed w;
  b_unused : exists x, expectations w !! e = Some x /\ unused x;
  b_last : size (expectations w) = S e;
  b_owner : exists m, mockers w !! owner = Some m /\ e ∈ untyped_expectations_ m;
}.

(** A change of the expectation under construction, and of nothing but the
    reports and the log. *)
Record rebuilt e x' w w' : Prop := {
  rb_exps : expectations w' = <[e := x']> (expectations w);
  rb_mockers : mockers w' = mockers w;
  rb_sequences : sequences w' = sequences w /\ implicit_sequence w' = implicit_sequence w;
}.

Section rebuild.
Variables (owner e : nat) (w w' : World Args Act) (x' : ExpectationBase Args Act).
Hypotheses (Hb : building owner e w) (Hu : unused x')
  (Hprs : forall p, p ∈ immediate_prerequisites_ x' -> is_Some (expectations w !! p) /\ p <> e)
  (Hset : rebuilt e x' w w').

Lemma rebuild_lookup a : a <> e -> expectations w' !! a = expectations w !! a.
Proof. intros Hne. rewrite (rb_exps _ _ _ _ Hset). by rewrite lookup_insert_ne. Qed.

Lemma rebuild_new : expectations w' !! e = Some x'.
Proof. rewrite (rb_exps _ _ _ _ Hset). by rewrite lookup_insert_eq. Qed.

Lemma rebuild_dom a : is_Some (expectations w' !! a) <-> is_Some (expectations w !! a).
Proof.
  destruct (decide (a = e)) as [-> | Hne]; [| by rewrite rebuild_lookup].
  rewrite rebuild_new. destruct (b_unused _ _ _ Hb) as (x & Hx & _). rewrite Hx. split; eauto.
Qed.

Lemma rebuild_size : size (expectations w') = size (expectations w).
Proof.
  rewrite (rb_exps _ _ _ _ Hset). apply map_size_insert_Some.
  destruct (b_unused _ _ _ Hb) as (x & Hx & _). eauto.
Qed.

Lemma rebuild_bound a : is_Some (expectations w !! a) -> a <> e -> (a < e)%nat.
Proof.
  intros Ha Hne. pose proof (ordered_bound w (inv_ordered w (wf_inv w (b_wf _ _ _ Hb))) a Ha).
  rewrite (b_last _ _ _ Hb) in *. lia.
Qed.

Lemma rebuild_prereq a p : a <> e -> prereq w' a p <-> prereq w a p.
Proof. intros Hne. unfold prereq. by rewrite rebuild_lookup. Qed.

Lemma rebuild_tc a p : a <> e -> tc (prereq w') a p -> tc (prereq w) a p /\ p <> e.
Proof.
  pose proof (inv_ordered w (wf_inv w (b_wf _ _ _ Hb))) as Ho.
  assert (Hstep : forall a b, a <> e -> prereq w a b -> b <> e).
  { intros a0 b Ha Hab. pose proof (ordered_older w Ho _ _ Hab).
    destruct Hab as (y & Hy & _). pose proof (rebuild_bound a0 ltac:(eauto) Ha). lia. }
  intros Hne H. induction H as [a b Hab | a b c Hab _ IH].
  - apply (rebuild_prereq _ _ Hne) in Hab. split; [by apply tc_once | by apply (Hstep a)].
  - apply (rebuild_prereq _ _ Hne) in Hab. destruct IH as [IH ?]; [by apply (Hstep a) |].
    split; [by eapply tc_l | done].
Qed.

Lemma rebuild_inv : Inv w'.
Proof.
  pose proof (wf_inv w (b_wf _ _ _ Hb)) as [[O1 O2 O3] Hc Hcalled Hcount Hm].
  destruct Hu as (Hu0 & Hur & Hup). split.
  - split.
    + intros a. rewrite rebuild_dom, rebuild_size. apply O1.
    + intros a p Hp. destruct (decide (a = e)) as [-> | Hne]; [| by apply O2, rebuild_prereq].
      destruct Hp as (y & Hy & Hp). rewrite rebuild_new in Hy. injection Hy as <-.
      destruct (Hprs p Hp). by apply rebuild_bound.
    + intros a p Hp. rewrite rebuild_dom.
      destruct (decide (a = e)) as [-> | Hne]; [| by apply (O3 a), rebuild_prereq].
      destruct Hp as (y & Hy & Hp). rewrite rebuild_new in Hy. injection Hy as <-. by apply Hprs.
  - intros a p (y & Hy & Hr) Hp. destruct (decide (a = e)) as [-> | Hne].
    { rewrite rebuild_new in Hy. congruence. }
    rewrite rebuild_lookup in Hy by done.
    destruct (rebuild_tc a p Hne) as [_ Hpe]; [by apply tc_once |].
    apply rebuild_prereq in Hp; [| done]. unfold retired_at. rewrite rebuild_lookup by done.
    apply (Hc a); [by exists y | done].
  - intros a y Hy Hn p Hp. destruct (decide (a = e)) as [-> | Hne].
    { rewrite rebuild_new in Hy. injection Hy as <-. lia. }
    rewrite rebuild_lookup in Hy by done.
    destruct (rebuild_tc a p Hne Hp) as [Hp' Hpe]. unfold retired_at, satisfied_at.
    rewrite rebuild_lookup by done. by apply (Hcalled a y).
  - intros a y Hy. destruct (decide (a = e)) as [-> | Hne].
    + rewrite rebuild_new in Hy. injection Hy as <-. rewrite Hu0. done.
    + rewrite rebuild_lookup in Hy by done. by apply (Hcount a).
  - intros k m a. rewrite (rb_mockers _ _ _ _ Hset), rebuild_dom. apply Hm.
Qed.

Lemma rebuild_building : building owner e w'.
Proof.
  destruct (rb_sequences _ _ _ _ Hset) as [Hs Hi]. split.
  - split; [apply rebuild_inv | |].
    + intros s l. rewrite Hs, rebuild_dom. apply (b_wf _ _ _ Hb).
    + intros s. rewrite Hi, Hs. apply (b_wf _ _ _ Hb).
  - exists x'. split; [apply rebuild_new | done].
  - rewrite rebuild_size. apply (b_last _ _ _ Hb).
  - rewrite (rb_mockers _ _ _ _ Hset). apply (b_owner _ _ _ Hb).
Qed.

End rebuild.

Lemma agree_building owner e w w' : agree w w' -> building owner e w -> building owner e w'.
Proof.
  intros Ha [[HI Hl Himp] (x & Hx & Hu) Hlast Ho].
  destruct (agree_sequences _ _ Ha) as [Hs Hi]. split.
  - split; [by eapply agree_inv | |].
    + intros s l. rewrite Hs. intros H%Hl. by apply (agree_dom w).
    + intros s. rewrite Hi, Hs. apply Himp.
  - destruct (agree_lookup _ _ _ _ Ha Hx) as (x' & Hx' & Hd). exists x'. split; [done |].
    destruct Hu as (H1 & H2 & H3). pose proof (f_equal call_count_ Hd).
    pose proof (f_equal retired_ Hd). pose proof (f_equal cardinality_ Hd). simpl in *.
    split; [congruence |]. split; [congruence |]. congruence.
  - by rewrite (agree_size _ _ Ha).
  - by rewrite (agree_mockers _ _ Ha).
Qed.

(** The prerequisites of the new expectation are older ones. *)
Lemma building_prereqs owner e w x :
  building owner e w -> expectations w !! e = Some x ->
  forall p, p ∈ immediate_prerequisites_ x -> is_Some (expectations w !! p) /\ p <> e.
Proof.
  intros Hb Hx p Hp. pose proof (inv_ordered w (wf_inv w (b_wf _ _ _ Hb))) as Ho.
  assert (Hpr : prereq w e p) by (by exists x).
  split; [by eapply ordered_exists |]. pose proof (ordered_older w Ho _ _ Hpr). lia.
Qed.

(** ** Each clause *)

Definition valid (e : nat) w (c : clause) : Prop :=
  match c with
  | CTimes c => proper c
  | CInSequence s => is_Some (sequences w !! s)
  | CAfter es => forall p, p ∈ es -> is_Some (expectations w !! p) /\ p <> e
  | _ => True
  end.

(** The expectations and sequences of [w] are in [w']. *)
Definition extends w w' : Prop :=
  (forall a, is_Some (expectations w !! a) -> is_Some (expectations w' !! a)) /\
  (forall s, is_Some (sequences w !! s) -> is_Some (sequences w' !! s)).

Lemma extends_valid e w w' c : extends w w' -> valid e w c -> valid e w' c.
Proof.
  intros [He Hs]. destruct c; simpl; auto. intros H p Hp. destruct (H p Hp). auto.
Qed.

Lemma extends_trans w1 w2 w3 : extends w1 w2 -> extends w2 w3 -> extends w1 w3.
Proof. intros [H1 H2] [H3 H4]. split; auto. Qed.

Definition built (owner e : nat) w w' : Prop := building owner e w' /\ extends w w'.

Lemma rebuilt_built owner e x' w w' :
  building owner e w -> rebuilt e x' w w' -> unused x' ->
  (forall p, p ∈ immediate_prerequisites_ x' -> is_Some (expectations w !! p) /\ p <> e) ->
  built owner e w w'.
Proof.
  intros Hb Hr Hu Hp. split; [by eapply rebuild_building |]. split.
  - intros a. by rewrite (rebuild_dom owner e w w' x').
  - intros s. by rewrite (proj1 (rb_sequences _ _ _ _ Hr)).
Qed.

Lemma rebuilt_Expect e x' property file line msg w :
  rebuilt e x' w (set e x' (Expect property file line msg w)).
Proof. by destruct property. Qed.

Lemma agree_built owner e w w' : agree w w' -> building owner e w -> built owner e w w'.
Proof.
  intros Ha Hb. split; [by eapply agree_building |]. split.
  - intros a. by apply agree_dom.
  - intros s. by rewrite (proj1 (agree_sequences _ _ Ha)).
Qed.

Lemma built_trans owner e w1 w2 w3 : built owner e w1 w2 -> built owner e w2 w3 -> built owner e w1 w3.
Proof. intros [_ E1] [B2 E2]. split; [done | by eapply extends_trans]. Qed.

Lemma Check_built owner e w1 w :
  built owner e w1 w ->
  CheckActionCountIfNotDone stack_trace verbose e w ⇓ built owner e w1.
Proof.
  intros Hb. destruct (b_unused _ _ _ (proj1 Hb)) as (x & Hx & _).
  eapply returns_mono; [apply Check_agree; eauto |].
  intros w' Ha. eapply built_trans; [exact Hb |]. by apply agree_built, Hb.
Qed.

Lemma sequences_inv s i w : Inv w -> Inv (with_sequences s i w).
Proof. intros [[O1 O2 O3] H1 H2 H3 H4]. split; [by split | ..]; assumption. Qed.

Lemma AddExpectation_built owner e s w :
  building owner e w -> is_Some (sequences w !! s) -> AddExpectation s e w ⇓ built owner e w.
Proof.
  intros Hb [last Hs]. unfold AddExpectation. rewrite Hs. cbn [or_fault]. rewrite bind_ok.
  case_bool_decide as Hl. { split; [done |]. by split. }
  destruct (b_unused _ _ _ Hb) as (x & Hx & Hu).
  assert (Hseq : forall w1, built owner e w w1 -> sequences w1 = sequences w ->
    built owner e w (with_sequences (<[s := Some e]> (sequences w1)) (implicit_sequence w1) w1)).
  { intros w1 [[[HI Hlast Himp] Hun Hsz Hown] [E1 E2]] Hsame.
    assert (Hdom : forall s', is_Some (sequences w1 !! s') ->
      is_Some (<[s := Some e]> (sequences w1) !! s')).
    { intros s' H. rewrite lookup_insert_is_Some. destruct (decide (s = s')); auto. }
    split; [split; [split | exact Hun | exact Hsz | exact Hown] |].
    - by apply sequences_inv.
    - intros s' l. simpl. destruct (decide (s' = s)) as [-> | Hne].
      + rewrite lookup_insert_eq. intros [= <-]. destruct Hun as (y & Hy & _). eauto.
      + rewrite lookup_insert_ne by done. apply Hlast.
    - intros s' H%Himp. by apply Hdom.
    - split; [exact E1 |]. intros s' H%E2. by apply Hdom. }
  destruct last as [l |].
  - rewrite (get_ok _ _ _ Hx), !bind_ok.
    apply Hseq; [| done]. eapply rebuilt_built; [done | done | done |].
    intros p Hp. cbn in Hp.
    apply elem_of_union in Hp as [->%elem_of_singleton | Hp]; [| by eapply building_prereqs].
    split; [by apply (wf_last w (b_wf _ _ _ Hb) s) | congruence].
  - rewrite bind_ok. apply Hseq; [| done]. split; [done |]. by split.
Qed.

Lemma GetHandleOf_ok owner e w : building owner e w -> GetHandleOf owner e w = Ok e.
Proof.
  intros Hb. destruct (b_owner _ _ _ Hb) as (m & Hm & Hin). unfold GetHandleOf.
  rewrite Hm. cbn [or_fault]. rewrite bind_ok, bool_decide_true by done. done.
Qed.

(** The cardinality that a clause infers is proper. *)
Lemma unused_inferred (specified : bool) min max x :
  unused x ->
  unused (if specified then x else with_cardinality false (fst (Between min max)) x).
Proof.
  intros (? & ? & ?). destruct specified; [done |].
  split; [done |]. split; [done | apply Between_proper].
Qed.

Lemma run_clause_built owner e c w :
  building owner e w -> valid e w c -> run_clause owner e c w ⇓ built owner e w.
Proof.
  intros Hb Hv. destruct (b_unused _ _ _ Hb) as (x & Hx & Hu).
  pose proof (building_prereqs _ _ _ _ Hb Hx) as Hprs.
  destruct c; simpl; unfold With, Times, InSequence, After, WillOnce, WillRepeatedly,
    RetiresOnSaturation; rewrite (get_ok _ _ _ Hx), bind_ok.
  - eapply rebuilt_built; [done | destruct (last_clause_ x); apply rebuilt_Expect | done | exact Hprs].
  - eapply rebuilt_built; [done | destruct (last_clause_ x); apply rebuilt_Expect | | exact Hprs].
    destruct Hu as (? & ? & ?). done.
  - assert (Hb1 : built owner e w (set e (with_clause kInSequence x)
      (ExpectSpecProperty x (clause_index (last_clause_ x) <=? clause_index kInSequence)
         (str ".InSequence() cannot appear after .After(), .WillOnce(), " ++
          str ".WillRepeatedly(), or .RetiresOnSaturation().") w))).
    { eapply rebuilt_built; [done | apply rebuilt_Expect | done | exact Hprs]. }
    rewrite (GetHandleOf_ok _ _ _ (proj1 Hb1)), bind_ok.
    eapply returns_mono; [apply AddExpectation_built; [apply Hb1 | by apply Hb1] |].
    intros w'. by apply built_trans.
  - eapply rebuilt_built; [done | apply rebuilt_Expect | done |].
    intros p Hp. cbn in Hp. apply elem_of_union in Hp as [Hp | Hp]; [by apply Hprs | by apply Hv].
  - eapply rebuilt_built; [done | apply rebuilt_Expect | |].
    + apply unused_inferred, Hu.
    + simpl. by destruct (cardinality_specified_ x).
  - apply Check_built.
    eapply rebuilt_built; [done | destruct (last_clause_ x); apply rebuilt_Expect | |].
    + apply unused_inferred, Hu.
    + simpl. by destruct (cardinality_specified_ x).
  - apply Check_built. eapply rebuilt_built; [done | apply rebuilt_Expect | done | exact Hprs].
Qed.

Lemma run_clauses_built owner e cs w :
  building owner e w -> (forall c, c ∈ cs -> valid e w c) ->
  run_clauses owner e cs w ⇓ built owner e w.
Proof.
  revert w. induction cs as [| c cs IH]; intros w Hb Hv; simpl; [split; [done | by split] |].
  apply returns_bind. eapply returns_mono; [apply run_clause_built; [done | apply Hv; by left] |].
  intros w1 Hb1. eapply returns_mono.
  - apply IH; [apply Hb1 |]. intros c' Hc'. eapply extends_valid; [apply Hb1 | apply Hv; by right].
  - intros w'. by apply built_trans.
Qed.

(** ** The new expectation *)

Section add.
Variables (w w' : World Args Act) (owner : nat) (m m' : FunctionMocker Args Act)
  (x : ExpectationBase Args Act).
Let e := size (expectations w).
Hypotheses (Hwf : well_formed w) (Hm : mockers w !! owner = Some m)
  (Hexps : expectations w' = <[e := x]> (expectations w))
  (Hmockers : mockers w' = <[owner := m']> (mockers w))
  (Hlist : untyped_expectations_ m' = untyped_expectations_ m ++ [e])
  (Hseq : sequences w' = sequences w) (Himp : implicit_sequence w' = implicit_sequence w)
  (Hx : unused x) (Hno : immediate_prerequisites_ x = ∅).

Lemma add_fresh : expectations w !! e = None.
Proof.
  destruct (expectations w !! e) eqn:H; [| done].
  pose proof (ordered_bound w (inv_ordered w (wf_inv w Hwf)) e ltac:(eauto)). unfold e in *. lia.
Qed.

Lemma add_old a : is_Some (expectations w !! a) -> a <> e.
Proof. intros [y Hy] ->. rewrite add_fresh in Hy. done. Qed.

Lemma add_lookup a : a <> e -> expectations w' !! a = expectations w !! a.
Proof. intros Hne. rewrite Hexps. by rewrite lookup_insert_ne. Qed.

Lemma add_new : expectations w' !! e = Some x.
Proof. rewrite Hexps. by rewrite lookup_insert_eq. Qed.

Lemma add_prereq a p : prereq w' a p <-> prereq w a p.
Proof.
  unfold prereq. destruct (decide (a = e)) as [-> | Hne]; [| by rewrite add_lookup].
  rewrite add_new, add_fresh. split; [| by intros (y & ? & _)].
  intros (y & [= <-] & Hp). rewrite Hno in Hp. by apply elem_of_empty in Hp.
Qed.

Lemma add_tc a p : tc (prereq w') a p <-> tc (prereq w) a p.
Proof. split; apply tc_mono; intros ??; by rewrite add_prereq. Qed.

Lemma add_dom a : is_Some (expectations w !! a) -> is_Some (expectations w' !! a).
Proof. intros Ha. rewrite add_lookup; [done | by apply add_old]. Qed.

Lemma add_size : size (expectations w') = S e.
Proof. rewrite Hexps. apply map_size_insert_None, add_fresh. Qed.

Lemma add_inv : Inv w'.
Proof.
  destruct (wf_inv w Hwf) as [[O1 O2 O3] Hc Hcalled Hcount Hms].
  destruct Hx as (Hx0 & Hxr & Hxp).
  assert (Hsome : forall a p, tc (prereq w) a p -> is_Some (expectations w !! p)).
  { induction 1; [by eapply O3 | done]. }
  assert (Hret : forall a, retired_at w' a <-> retired_at w a).
  { intros a. unfold retired_at. destruct (decide (a = e)) as [-> | Hne]; [| by rewrite add_lookup].
    rewrite add_new, add_fresh. split; [intros (y & [= <-] & ?); congruence | by intros (y & ? & _)]. }
  split.
  - split.
    + intros a [y Hy]. rewrite add_size. destruct (decide (a = e)) as [-> | Hne]; [lia |].
      rewrite add_lookup in Hy by done. pose proof (O1 a ltac:(eauto)). unfold e. lia.
    + intros a p. rewrite add_prereq. apply O2.
    + intros a p. rewrite add_prereq. intros H%O3. by apply add_dom.
  - intros a p. rewrite add_prereq, !Hret. apply Hc.
  - intros a y Hy Hn p Hp%add_tc. destruct (decide (a = e)) as [-> | Hne].
    { rewrite add_new in Hy. injection Hy as <-. lia. }
    rewrite add_lookup in Hy by done. destruct (Hcalled a y Hy Hn p Hp) as [H1 H2].
    split; [by apply Hret |]. unfold satisfied_at.
    rewrite add_lookup; [done |]. by apply add_old, (Hsome a).
  - intros a y Hy. destruct (decide (a = e)) as [-> | Hne].
    + rewrite add_new in Hy. injection Hy as <-. by rewrite Hx0.
    + rewrite add_lookup in Hy by done. by apply (Hcount a).
  - intros k m0 a. rewrite Hmockers. destruct (decide (k = owner)) as [-> | Hne].
    + rewrite lookup_insert_eq. intros [= <-]. rewrite Hlist.
      intros [Ha | ->%list_elem_of_singleton]%elem_of_app; [by apply add_dom, (Hms owner m) |].
      rewrite add_new. eauto.
    + rewrite lookup_insert_ne by done. intros Hk Ha. by apply add_dom, (Hms k m0).
Qed.

Lemma add_built : building owner e w' /\ extends w w'.
Proof.
  split; [split |].
  - split; [apply add_inv | |].
    + intros s l. rewrite Hseq. intros H%(wf_last w Hwf). by apply add_dom.
    + intros s. rewrite Himp, Hseq. apply (wf_implicit w Hwf).
  - exists x. split; [apply add_new | done].
  - apply add_size.
  - exists m'. rewrite Hmockers, lookup_insert_eq. split; [done |]. rewrite Hlist.
    apply elem_of_app. right. by left.
  - split; [apply add_dom |]. intros s. by rewrite Hseq.
Qed.

End add.

Lemma register_frame obj file line w :
  let w' := RegisterUseByOnCallOrExpectCall current_test obj file line w in
  expectations w' = expectations w /\ mockers w' = mockers w /\ sequences w' = sequences w /\
  implicit_sequence w' = implicit_sequence w.
Proof.
  unfold RegisterUseByOnCallOrExpectCall. destruct (first_used_file _); [done |].
  by destruct (default _ current_test).
Qed.

Lemma EXPECT_CALL_spec owner m file line src ms cs w :
  well_formed w -> mockers w !! owner = Some m -> is_Some (mock_obj_ m) ->
  (forall c, c ∈ cs -> valid (size (expectations w)) w c) ->
  EXPECT_CALL owner file line src ms cs w ⇓ fun '(e, w') =>
    e = size (expectations w) /\ well_formed w' /\ extends w w'.
Proof.
  intros Hwf Hm [obj Hobj] Hv. unfold EXPECT_CALL, AddNewExpectation, MockObject.
  rewrite Hm. cbn [or_fault]. rewrite bind_ok, Hobj. cbn [or_fault]. rewrite bind_ok. cbn zeta.
  destruct (register_frame obj file line w) as (H1 & H2 & H3 & H4).
  set (w0 := RegisterUseByOnCallOrExpectCall _ _ _ _ _) in *.
  rewrite H1. set (e := size (expectations w)) in *.
  set (m' := mkFunctionMocker _ _ _ _ _). set (w1 := with_mockers _ _).
  destruct (add_built w w1 owner m m' (new_Expectation file line src ms)) as [Hb1 He1]; try done;
    [unfold w1; simpl; by rewrite ?H1, ?H2 .. |].
  fold e in Hb1. rewrite bind_assoc. apply returns_bind.
  eapply (returns_mono _ (built owner e w)).
  { destruct (implicit_sequence w1) as [s |] eqn:Hs; [| by split].
    eapply returns_mono; [apply AddExpectation_built; [done | by apply (b_wf _ _ _ Hb1)] |].
    intros w2 [Hb2 He2]. split; [done | by eapply extends_trans]. }
  intros w2 [Hb2 He2]. rewrite bind_ok. apply returns_bind. eapply returns_mono.
  { apply run_clauses_built; [done |]. intros c Hc. eapply extends_valid; [done | by apply Hv]. }
  intros w3 [Hb3 He3]. split; [done |]. split; [apply Hb3 | by eapply extends_trans].
Qed.

End expect_call.
