(* ===== verification/MockCall.v ===== *)
(** * A call of a mock function (gmock-spec-builders.h, gmock-nice-strict.h)

    [FunctionMocker::InvokeWith]: what a call of a mock function does, from the
    reaction on an uninteresting call or the search for an expectation to the
    action that is performed, its result and what is reported, and the statement
    ON_CALL, which sets the default actions.

    An action is a name [Act]; what performing it does is an operation of the
    class [Actions].  It may change the state [U] of the program and the mock
    objects, for instance by calling another mock function, and returns or
    throws.  A fatal failure of GoogleMock aborts the program. *)

From S2P Require Import Prelude Outcome Common CStr GmockUtils TestResult Cardinality Expectations ExpectationWalks ExpectationInv ExpectCall.

(** How user code ends. *)
Inductive completion (R Ex : Type) : Type := Returned (r : R) | Thrown (e : Ex).
Arguments Returned {R Ex} r.
Arguments Thrown {R Ex} e.

(** What the program brings: actions, the default value of the return type
    ([DefaultValue<R>]), [std::runtime_error], and how arguments and results are
    printed; there is no printer for [void] and for what cannot be moved. *)
Class Actions (Args Act R Ex U : Type) : Type := {
  perform : Act -> Args -> World Args Act * U -> outcome (completion R Ex * (World Args Act * U));
  DefaultValue_Exists : U -> bool;
  DefaultValue_Get : World Args Act * U -> outcome (completion R Ex * (World Args Act * U));
  runtime_error : text -> Ex;
  print_args : Args -> text;
  print_result : option (R -> text) }.

(** [LogWithLocation]. *)
Definition LogWithLocation (stack_trace : Z -> text) (verbose : text) (severity : LogSeverity)
    (file : option text) (line : Z) (message : text) : outcome text :=
  Log stack_trace verbose severity (FormatFileLocation file line ++ str " " ++ message ++ [LF]) 0.

(** ** ON_CALL *)

Section on_call.
Context {Args Act : Type} (stack_trace : Z -> text) (verbose : text).
Implicit Types (w : World Args Act) (m : FunctionMocker Args Act) (s : OnCallSpec Args Act).

(** The clauses of a spec: [kNone], [kWith], [kWillByDefault]. *)
Definition sNone : Z := 0.
Definition sWith : Z := 1.
Definition sWillByDefault : Z := 2.

Definition new_OnCallSpec (file : option text) (line : Z) (matchers : Matcher Args) : OnCallSpec Args Act :=
  mkOnCallSpec file line sNone matchers any_args DoDefault.

Definition OnCallSpec_With (matcher : Matcher Args) s w : OnCallSpec Args Act * World Args Act :=
  let w := Expect (spec_clause s <? sWith) (spec_file s) (spec_line s)
             (str ".With() cannot appear " ++ str "more than once in an ON_CALL().") w in
  (mkOnCallSpec (spec_file s) (spec_line s) sWith (spec_matchers s) matcher (spec_action s), w).

Definition IsDoDefault (a : Action Act) : bool := match a with DoDefault => true | Perform _ => false end.

Definition WillByDefault (action : Action Act) s w : OnCallSpec Args Act * World Args Act :=
  let w := Expect (spec_clause s <? sWillByDefault) (spec_file s) (spec_line s)
             (str ".WillByDefault() must appear " ++ str "exactly once in an ON_CALL().") w in
  let w := Expect (negb (IsDoDefault action)) (spec_file s) (spec_line s)
             (str "DoDefault() cannot be used in ON_CALL().") w in
  (mkOnCallSpec (spec_file s) (spec_line s) sWillByDefault (spec_matchers s) (spec_extra s) action, w).

(** [GetAction]; [Assert] aborts. *)
Definition GetAction s : outcome (Action Act) :=
  _ ← c_assert (spec_clause s =? sWillByDefault); Ok (spec_action s).

(** The function mocker with other specs. *)
Definition with_specs (specs : list (OnCallSpec Args Act)) m : FunctionMocker Args Act :=
  mkFunctionMocker (mock_obj_ m) (name_ m) (returns_void m) specs (untyped_expectations_ m).

Definition AddNewOnCallSpec (current_test : option (text * text)) (owner : nat) (file : option text) (line : Z)
    (matchers : Matcher Args) w : outcome (World Args Act) :=
  m ← or_fault InvalidDeref (mockers w !! owner);
  obj ← MockObject m;
  let w := RegisterUseByOnCallOrExpectCall current_test obj file line w in
  let m := with_specs (untyped_on_call_specs_ m ++ [new_OnCallSpec file line matchers]) m in
  Ok (with_mockers (<[owner := m]> (mockers w)) w).

(** [ON_CALL(obj, call)]: [InternalDefaultActionSetAt]. *)
Definition InternalDefaultActionSetAt (current_test : option (text * text)) (owner : nat) (file : option text)
    (line : Z) (obj call : text) (matchers : Matcher Args) w : outcome (World Args Act) :=
  t ← LogWithLocation stack_trace verbose kInfo file line
        (str "ON_CALL(" ++ obj ++ str ", " ++ call ++ str ") invoked");
  AddNewOnCallSpec current_test owner file line matchers (write_log t w).

(** A clause is applied to the spec that the statement added, the last one. *)
Definition on_last_spec (owner : nat) (clause : OnCallSpec Args Act -> World Args Act -> OnCallSpec Args Act * World Args Act)
    w : outcome (World Args Act) :=
  m ← or_fault InvalidDeref (mockers w !! owner);
  s ← or_fault InvalidDeref (last (untyped_on_call_specs_ m));
  let '(s, w) := clause s w in
  Ok (with_mockers (<[owner := with_specs (removelast (untyped_on_call_specs_ m) ++ [s]) m]> (mockers w)) w).

(** The whole statement, [With] at most once. *)
Definition ON_CALL (current_test : option (text * text)) (owner : nat) (file : option text) (line : Z)
    (obj call : text) (matchers : Matcher Args) (extra : option (Matcher Args)) (action : Action Act) w
    : outcome (World Args Act) :=
  w ← InternalDefaultActionSetAt current_test owner file line obj call matchers w;
  w ← match extra with Some e => on_last_spec owner (OnCallSpec_With e) w | None => Ok w end;
  on_last_spec owner (WillByDefault action) w.

(** ** NiceMock, NaggyMock and StrictMock *)

Definition new_NiceMockImpl (this : nat) w : World Args Act := AllowUninterestingCalls this w.
Definition new_NaggyMockImpl (this : nat) w : World Args Act := WarnUninterestingCalls this w.
Definition new_StrictMockImpl (this : nat) w : World Args Act := FailUninterestingCalls this w.
Definition delete_MockImpl (this : nat) w : World Args Act := UnregisterCallReaction this w.

Definition IsNaggy (default_mock_behavior : Z) (mock_obj : nat) w : bool :=
  match GetReactionOnUninterestingCalls default_mock_behavior mock_obj w with kWarn => true | _ => false end.
Definition IsNice (default_mock_behavior : Z) (mock_obj : nat) w : bool :=
  match GetReactionOnUninterestingCalls default_mock_behavior mock_obj w with kAllow => true | _ => false end.
Definition IsStrict (default_mock_behavior : Z) (mock_obj : nat) w : bool :=
  match GetReactionOnUninterestingCalls default_mock_behavior mock_obj w with kFail => true | _ => false end.
End on_call.

(** ** Performing an action *)

Section invoke.
Context {Args Act R Ex U : Type} `{Actions Args Act R Ex U}.
Context (stack_trace : Z -> text) (verbose : text) (default_mock_behavior : Z).
#[local] Abbreviation St := (World Args Act * U)%type.
#[local] Abbreviation Completion := (completion R Ex).
Implicit Types (m : FunctionMocker Args Act) (s : St) (args : Args).

(** [Action::Perform]; [IllegalDoDefault] aborts. *)
Definition Action_Perform (a : Action Act) args s : outcome (Completion * St) :=
  match a with
  | DoDefault => Err AssertionFailed
  | Perform a => perform a args s
  end.

Definition PerformDefaultAction (mocker : nat) args (call_description : text) s : outcome (Completion * St) :=
  m ← or_fault InvalidDeref (mockers s.1 !! mocker);
  match FindOnCallSpec m args with
  | Some spec => a ← GetAction spec; Action_Perform a args s
  | None =>
      if negb (DefaultValue_Exists s.2)
      then Ok (Thrown (runtime_error
                 (call_description ++ LF :: str "    The mock function has no default action " ++
                  str "set, and its return type has no default value set.")), s)
      else DefaultValue_Get s
  end.

(** [PerformAction]: no action stands for the default. *)
Definition PerformAction (mocker : nat) (action : option Act) args (call_description : text) s
    : outcome (Completion * St) :=
  match action with
  | None => PerformDefaultAction mocker args call_description s
  | Some a => Action_Perform (Perform a) args s
  end.

(** [PerformActionAndPrintResult], with what it prints. *)
Definition PerformActionAndPrintResult (mocker : nat) (action : option Act) args (call_description : text) s
    : outcome (Completion * text * St) :=
  '(c, s) ← PerformAction mocker action args call_description s;
  Ok (c, match c, print_result with
         | Returned r, Some print => LF :: str "          Returns: " ++ print r
         | _, _ => []
         end, s).

(** ** Reporting *)

Definition ReportUninterestingCall (reaction : CallReaction) (msg : text) (w : World Args Act)
    : outcome (World Args Act) :=
  let stack_frames_to_skip := if bool_decide (verbose = str "info") then 3 else -1 in
  match reaction with
  | kAllow => t ← Log stack_trace verbose kInfo msg stack_frames_to_skip; Ok (write_log t w)
  | kWarn =>
      t ← Log stack_trace verbose kWarning
            (msg ++ LF :: str "NOTE: You can safely ignore the above warning unless this " ++
             str "call should not happen.  Do not suppress it by blindly adding " ++
             str "an EXPECT_CALL() if you don't mean to enforce the call.  " ++
             str "See " ++ str "https://github.com/google/googletest/blob/main/docs/" ++
             str "gmock_cook_book.md#" ++ str "knowing-when-to-expect-useoncall for details." ++ [LF])
            stack_frames_to_skip;
      Ok (write_log t w)
  | kFail => Ok (Expect false None (-1) msg w)
  end.

Definition UntypedDescribeUninterestingCall m args : text :=
  str "Uninteresting mock function call - " ++ DescribeDefaultActionTo m args ++
  str "    Function call: " ++ name_ m ++ print_args args.

(** The destructor of [FailureCleanupHandler]. *)
Definition cleanup_failure (ss why loc : text) (found : option nat) (is_excessive : bool) (w : World Args Act)
    : outcome (World Args Act) :=
  let ss := ss ++ LF :: why in
  match found with
  | None => Ok (Expect false None (-1) ss w)
  | Some e =>
      if is_excessive then x ← get w e; Ok (Expect false (file_ x) (line_ x) ss w)
      else t ← Log stack_trace verbose kInfo (loc ++ ss) 2; Ok (write_log t w)
  end.

(** ** The call *)

(** No expectation is set: the call is uninteresting. *)
Definition invoke_uninteresting (mocker : nat) m args s : outcome (Completion * St) :=
  obj ← MockObject m;
  let reaction := GetReactionOnUninterestingCalls default_mock_behavior obj s.1 in
  let need_to_report_uninteresting_call :=
    match reaction with
    | kAllow => LogIsVisible verbose kInfo
    | kWarn => LogIsVisible verbose kWarning
    | kFail => true
    end in
  if negb need_to_report_uninteresting_call
  then PerformDefaultAction mocker args (str "Function call: " ++ name_ m) s
  else
    let ss := UntypedDescribeUninterestingCall m args in
    '(c, printed, s) ← PerformActionAndPrintResult mocker None args ss s;
    w ← ReportUninterestingCall reaction (ss ++ printed) s.1;
    Ok (c, (w, s.2)).

Definition InvokeWith (mocker : nat) args s : outcome (Completion * St) :=
  m ← or_fault InvalidDeref (mockers s.1 !! mocker);
  match untyped_expectations_ m with
  | [] => invoke_uninteresting mocker m args s
  | _ =>
      '(r, w) ← UntypedFindMatchingExpectation stack_trace verbose mocker args s.1;
      let s := (w, s.2) in
      let need_to_report_call :=
        negb (bool_decide (is_Some (match_expectation r))) || is_excessive r || LogIsVisible verbose kInfo in
      if negb need_to_report_call then PerformAction mocker (match_action r) args [] s
      else
        m ← or_fault InvalidDeref (mockers w !! mocker);
        let ss := what r ++ str "    Function call: " ++ name_ m ++ print_args args in
        loc ← match match_expectation r with
              | Some e => if is_excessive r then Ok []
                          else x ← get w e; Ok (FormatFileLocation (file_ x) (line_ x) ++ str " ")
              | None => Ok []
              end;
        '(c, printed, s) ← PerformActionAndPrintResult mocker (match_action r) args ss s;
        w ← cleanup_failure (ss ++ printed) (why r) loc (match_expectation r) (is_excessive r) s.1;
        Ok (c, (w, s.2))
  end.

(** Calls one after the other, until one throws. *)
Fixpoint invoke_all (calls : list (nat * Args)) s : outcome (list Completion * St) :=
  match calls with
  | [] => Ok ([], s)
  | (mocker, args) :: calls =>
      '(c, s) ← InvokeWith mocker args s;
      '(cs, s) ← invoke_all calls s;
      Ok (c :: cs, s)
  end.
End invoke.

(** ** Finding the expectation reports nothing *)

(** [Q] holds of the result, if there is one. *)
Definition on_ok {A} (Q : A -> Prop) (r : outcome A) : Prop := match r with Ok a => Q a | Err _ => True end.

Lemma on_ok_bind {A B} (Q : B -> Prop) (r : outcome A) k : on_ok (fun a => on_ok Q (k a)) r -> on_ok Q (r ≫= k).
Proof. by destruct r. Qed.

Lemma on_ok_any {A} (Q : A -> Prop) r : (forall a, Q a) -> on_ok Q r.
Proof. intros HQ. destruct r; [apply HQ|done]. Qed.

Lemma on_ok_mono {A} (P Q : A -> Prop) r : on_ok P r -> (forall a, P a -> Q a) -> on_ok Q r.
Proof. destruct r; cbn; auto. Qed.

Section quiet.
Context {Args Act : Type} (stack_trace : Z -> text) (verbose : text).
Implicit Types (w : World Args Act).
#[local] Abbreviation same w := (fun w' => reports w' = reports w).

(** A step that reads or logs. *)
Ltac quiet := repeat first
  [ progress cbn beta iota
  | done
  | match goal with
    | |- on_ok _ (_ ≫= _) => apply on_ok_bind
    | |- on_ok _ (if ?b then _ else _) => destruct b
    | |- on_ok _ (match ?p with pair _ _ => _ end) => destruct p
    | |- on_ok _ (match ?o with Some _ => _ | None => _ end) => destruct o
    | |- on_ok _ (match ?a with DoDefault => _ | Perform _ => _ end) => destruct a
    | |- on_ok _ (get _ _) => apply on_ok_any; intros
    | |- on_ok _ (Log _ _ _ _ _) => apply on_ok_any; intros
    | |- on_ok _ (or_fault _ _) => apply on_ok_any; intros
    | |- on_ok _ (c_assert _) => apply on_ok_any; intros
    | |- on_ok _ (IncrementCallCount _) => apply on_ok_any; intros
    end ].

Lemma CheckActionCountIfNotDone_quiet e w : on_ok (same w) (CheckActionCountIfNotDone stack_trace verbose e w).
Proof. unfold CheckActionCountIfNotDone. quiet. Qed.

Lemma ShouldHandleArguments_quiet e args w :
  on_ok (fun p => reports p.2 = reports w) (ShouldHandleArguments stack_trace verbose e args w).
Proof.
  unfold ShouldHandleArguments. apply on_ok_bind. eapply on_ok_mono; [apply CheckActionCountIfNotDone_quiet|].
  intros w1 E. quiet. apply on_ok_any. done.
Qed.

Lemma find_matching_quiet es args w :
  on_ok (fun p => reports p.2 = reports w) (find_matching stack_trace verbose es args w).
Proof.
  revert w. induction es as [|e es IH]; intros w; [done|]. cbn [find_matching]. apply on_ok_bind.
  eapply on_ok_mono; [apply ShouldHandleArguments_quiet|]. intros [b w1] E. cbn in *.
  destruct b; [done|]. eapply on_ok_mono; [apply IH|]. intros p Hp. congruence.
Qed.

Lemma retire_each_quiet nexts stack w : on_ok (fun p => reports p.2 = reports w) (retire_each nexts stack w).
Proof.
  revert stack w. induction nexts as [|n nexts IH]; intros stack w; [done|].
  cbn [retire_each]. apply on_ok_bind, on_ok_any. intros x. destruct (negb (is_retired x)); [|apply IH].
  eapply on_ok_mono; [apply IH|]. done.
Qed.

Lemma retire_walk_quiet fuel stack w : on_ok (same w) (retire_walk fuel stack w).
Proof.
  revert stack w. induction fuel as [|fuel IH]; intros [|e stack] w; cbn [retire_walk]; [done..|].
  apply on_ok_bind, on_ok_any. intros x. apply on_ok_bind. eapply on_ok_mono; [apply retire_each_quiet|].
  intros [stack' w'] E. eapply on_ok_mono; [apply IH|]. cbn in *. congruence.
Qed.

Lemma GetActionForArguments_quiet m e args w :
  on_ok (fun p => reports p.2 = reports w) (GetActionForArguments stack_trace verbose m e args w).
Proof.
  unfold GetActionForArguments. apply on_ok_bind, on_ok_any. intros x. destruct (IsSaturated x); [quiet|].
  apply on_ok_bind, on_ok_any. intros x'. apply on_ok_bind. unfold RetireAllPreRequisites.
  eapply (on_ok_mono (same w)).
  - quiet. eapply on_ok_mono; [apply retire_walk_quiet|]. done.
  - intros w1 E. apply on_ok_bind, on_ok_any. intros y. apply on_ok_bind. unfold GetCurrentAction.
    eapply (on_ok_mono (fun p => reports p.2 = reports w)); [|by intros [a w2]]. apply on_ok_bind, on_ok_any. intros z.
    apply on_ok_bind, on_ok_any. intros _. apply on_ok_bind. eapply (on_ok_mono (same w)).
    + destruct (retires_on_saturation_ y && IsSaturated y); quiet.
    + intros w2 E2. quiet.
Qed.

Lemma UntypedFindMatchingExpectation_quiet k args w :
  on_ok (fun p => reports p.2 = reports w) (UntypedFindMatchingExpectation stack_trace verbose k args w).
Proof.
  unfold UntypedFindMatchingExpectation. apply on_ok_bind, on_ok_any. intros m. apply on_ok_bind.
  eapply on_ok_mono; [apply find_matching_quiet|]. intros [[e|] w1] E; cbn in E.
  - apply on_ok_bind, on_ok_any. intros x. apply on_ok_bind.
    eapply on_ok_mono; [apply GetActionForArguments_quiet|]. intros [[[a wh] wy] w2] E2. cbn in *. congruence.
  - apply on_ok_bind, on_ok_any. done.
Qed.
End quiet.

(** ** The theorem

    Actions that do not use the mock objects: [act] and [default_value] only
    change the state of the program. *)

Section outside.
Context {Args Act R Ex U : Type}.
Context (act : Act -> Args -> U -> outcome (completion R Ex * U)).
Context (default_exists : U -> bool) (default_value : U -> outcome (completion R Ex * U)).
Context (error : text -> Ex) (args_text : Args -> text) (result_text : option (R -> text)).
Implicit Types (w : World Args Act) (m : FunctionMocker Args Act) (c : completion R Ex).

#[local] Instance outside : Actions Args Act R Ex U := {|
  perform a args s := '(c, u) ← act a args s.2; Ok (c, (s.1, u));
  DefaultValue_Exists := default_exists;
  DefaultValue_Get s := '(c, u) ← default_value s.2; Ok (c, (s.1, u));
  runtime_error := error; print_args := args_text; print_result := result_text |}.

(** The action of the expectation, or that of the last matching ON_CALL, or the
    default value. *)
Definition result_of m (a : option Act) (args : Args) (description : text) (u : U) : outcome (completion R Ex * U) :=
  match a with
  | Some a => act a args u
  | None =>
      match FindOnCallSpec m args with
      | Some spec => a ← GetAction spec; match a with DoDefault => Err AssertionFailed | Perform a => act a args u end
      | None =>
          if default_exists u then default_value u
          else Ok (Thrown (error (description ++ LF :: str "    The mock function has no default action " ++
                                  str "set, and its return type has no default value set.")), u)
      end
  end.

Definition returns_text c : text :=
  match c, result_text with Returned r, Some print => LF :: str "          Returns: " ++ print r | _, _ => [] end.

(** The failure that a call is reported with, if it is unexpected or excessive. *)
Definition call_message m (r : Match (Act := Act)) (args : Args) c : text :=
  (what r ++ str "    Function call: " ++ name_ m ++ args_text args) ++ returns_text c ++ LF :: why r.
Definition call_failures m w (r : Match (Act := Act)) (args : Args) c : list Report :=
  match match_expectation r with
  | None => [mkReport None (-1) (call_message m r args c)]
  | Some e => if is_excessive r
              then match expectations w !! e with
                   | Some x => [mkReport (file_ x) (line_ x) (call_message m r args c)]
                   | None => []
                   end
              else []
  end.

Context (stack_trace : Z -> text) (verbose : text) (default_mock_behavior : Z).

Lemma Log_completes severity msg n : -1 <= n <= 100 -> exists t, Log stack_trace verbose severity msg n = Ok t.
Proof.
  intros Hn. unfold Log. destruct (negb _); [by eexists|]. destruct (0 <=? n); [|by eexists].
  rewrite iadd_ok by range. rewrite bind_ok. by eexists.
Qed.

Lemma agree_report w w' : expectations w' = expectations w -> mockers w' = mockers w ->
  sequences w' = sequences w -> implicit_sequence w' = implicit_sequence w -> agree w w'.
Proof. intros E1 E2 E3 E4. split; [intros e; by rewrite E1|done|done]. Qed.

Lemma PerformAction_result k m a args description w u : mockers w !! k = Some m ->
  PerformAction k a args description (w, u) =
  ('(c, u) ← result_of m a args description u; Ok (c, (w, u))).
Proof.
  intros Hk. unfold PerformAction, result_of. destruct a as [a|]; [done|].
  unfold PerformDefaultAction. cbn [fst snd]. rewrite Hk. cbn [or_fault]. rewrite bind_ok.
  destruct (FindOnCallSpec m args) as [spec|].
  - destruct (GetAction spec) as [[|a]|]; done.
  - cbn. destruct (default_exists u); done.
Qed.

Lemma cleanup_failure_spec m r args c loc w :
  (forall e, match_expectation r = Some e -> is_Some (expectations w !! e)) ->
  exists w2, cleanup_failure stack_trace verbose
      ((what r ++ str "    Function call: " ++ name_ m ++ args_text args) ++ returns_text c) (why r) loc
      (match_expectation r) (is_excessive r) w = Ok w2 /\
    agree w w2 /\ reports w2 = reports w ++ call_failures m w r args c.
Proof.
  intros He. unfold cleanup_failure, call_failures, call_message. rewrite <- !app_assoc.
  destruct (match_expectation r) as [e|].
  - destruct (is_excessive r).
    + destruct (He e eq_refl) as [x Hx]. unfold get. rewrite Hx. cbn [or_fault]. rewrite bind_ok.
      eexists. split; [reflexivity|]. split; [by apply agree_report|done].
    + destruct (Log_completes kInfo (loc ++ what r ++ str "    Function call: " ++ name_ m ++ args_text args ++
        returns_text c ++ LF :: why r) 2) as [t Ht]; [lia|]. rewrite Ht, bind_ok.
      eexists. split; [reflexivity|]. split; [by apply agree_report|]. cbn. by rewrite app_nil_r.
  - eexists. split; [reflexivity|]. split; [by apply agree_report|done].
Qed.

(** An uninteresting call performs the default action, and is a failure on a
    strict mock only. *)
Definition uninteresting_failures m (obj : nat) w (args : Args) c : list Report :=
  match GetReactionOnUninterestingCalls default_mock_behavior obj w with
  | kFail => [mkReport None (-1) (UntypedDescribeUninterestingCall m args ++ returns_text c)]
  | _ => []
  end.

Lemma ReportUninterestingCall_spec reaction msg w :
  exists w2, ReportUninterestingCall stack_trace verbose reaction msg w = Ok w2 /\ agree w w2 /\
    reports w2 = reports w ++ match reaction with kFail => [mkReport None (-1) msg] | _ => [] end.
Proof.
  unfold ReportUninterestingCall. set (n := if bool_decide _ then 3 else -1).
  assert (Hn : -1 <= n <= 100) by (unfold n; case_bool_decide; lia).
  destruct reaction.
  - destruct (Log_completes kInfo msg n Hn) as [t ->]. eexists. split; [reflexivity|].
    split; [by apply agree_report|]. cbn. by rewrite app_nil_r.
  - match goal with |- context [Log _ _ kWarning ?msg' n] => destruct (Log_completes kWarning msg' n Hn) as [t ->] end.
    eexists. split; [reflexivity|]. split; [by apply agree_report|]. cbn. by rewrite app_nil_r.
  - eexists. split; [reflexivity|]. split; [by apply agree_report|done].
Qed.

Theorem uninteresting_call_correct k m obj args w u
    (Hk : mockers w !! k = Some m) (Hnone : untyped_expectations_ m = []) (Hobj : mock_obj_ m = Some obj) :
  exists description,
    match result_of m None args description u with
    | Err f => InvokeWith stack_trace verbose default_mock_behavior k args (w, u) = Err f
    | Ok (c, u') =>
        exists w2, InvokeWith stack_trace verbose default_mock_behavior k args (w, u) = Ok (c, (w2, u')) /\
          agree w w2 /\ reports w2 = reports w ++ uninteresting_failures m obj w args c
    end.
Proof.
  unfold InvokeWith. cbn [fst snd]. rewrite Hk. cbn [or_fault]. rewrite bind_ok, Hnone.
  unfold invoke_uninteresting, MockObject. rewrite Hobj. cbn [or_fault]. rewrite bind_ok. cbn [fst snd].
  set (reaction := GetReactionOnUninterestingCalls default_mock_behavior obj w).
  set (need := match reaction with kAllow => _ | kWarn => _ | kFail => _ end).
  destruct need eqn:Hneed; cbn [negb].
  - exists (UntypedDescribeUninterestingCall m args). unfold PerformActionAndPrintResult.
    rewrite (PerformAction_result k m) by done. destruct (result_of m _ _ _ u) as [[c u']|f]; [|done].
    repeat first [rewrite bind_ok | progress cbn beta iota]. cbn [fst snd].
    change (match c with Returned r0 => _ | Thrown _ => _ end) with (returns_text c).
    destruct (ReportUninterestingCall_spec reaction (UntypedDescribeUninterestingCall m args ++ returns_text c) w)
      as (w2 & Hw2 & Ha & Hr). rewrite Hw2, bind_ok. by exists w2.
  - exists (str "Function call: " ++ name_ m).
    change (PerformDefaultAction k args ?d (w, u)) with (PerformAction k None args d (w, u)).
    rewrite (PerformAction_result k m) by done. destruct (result_of m _ _ _ u) as [[c u']|f]; [|done].
    rewrite bind_ok. cbn beta iota. exists w. split; [done|]. split; [done|].
    unfold uninteresting_failures. fold reaction. subst need. destruct reaction; [by rewrite app_nil_r..|done].
Qed.

(** A call of a mock function with expectations: [call_result] says which
    expectation answers and how the state changes; the action of its turn, or
    the default, is performed once, with the arguments and in the state of the
    program at the call; what it returns or throws is what the call returns or
    throws; and a failure is reported exactly if no expectation answers or the
    call is excessive, at the expectation in the latter case. *)
Theorem InvokeWith_spec k m args w u
    (HI : Inv w) (Hroom : room w 1) (Hk : mockers w !! k = Some m) (Hne : untyped_expectations_ m <> []) :
  exists r w1 description, Inv w1 /\ reports w1 = reports w /\ call_result w m args r w1 /\
    match result_of m (match_action r) args description u with
    | Err f => InvokeWith stack_trace verbose default_mock_behavior k args (w, u) = Err f
    | Ok (c, u') =>
        exists w2, InvokeWith stack_trace verbose default_mock_behavior k args (w, u) = Ok (c, (w2, u')) /\
          Inv w2 /\ agree w1 w2 /\ reports w2 = reports w ++ call_failures m w1 r args c
    end.
Proof.
  pose proof (UntypedFindMatchingExpectation_spec stack_trace verbose k m args w HI Hroom Hk) as Hfind.
  apply returns_iff in Hfind as ([r w1] & Hfind & HI1 & Hr).
  pose proof (UntypedFindMatchingExpectation_quiet stack_trace verbose k args w) as Hq.
  rewrite Hfind in Hq. cbn in Hq.
  assert (Hk1 : mockers w1 !! k = Some m) by (by rewrite (call_result_mockers _ _ _ _ _ Hr)).
  assert (He : forall e, match_expectation r = Some e -> is_Some (expectations w1 !! e)).
  { intros e E. destruct Hr as [_ Hr]. rewrite E in Hr. destruct Hr as (w0 & x & x' & _ & Hs & _).
    exists x'. apply Hs. }
  set (ss := what r ++ str "    Function call: " ++ name_ m ++ args_text args).
  set (need := negb (bool_decide (is_Some (match_expectation r))) || is_excessive r || LogIsVisible verbose kInfo).
  exists r, w1, (if need then ss else []). do 3 (split; [done|]).
  assert (E : InvokeWith stack_trace verbose default_mock_behavior k args (w, u) =
    if negb need then PerformAction k (match_action r) args [] (w1, u)
    else loc ← match match_expectation r with
               | Some e => if is_excessive r then Ok []
                           else x ← get w1 e; Ok (FormatFileLocation (file_ x) (line_ x) ++ str " ")
               | None => Ok []
               end;
         '(c, printed, s) ← PerformActionAndPrintResult k (match_action r) args ss (w1, u);
         w2 ← cleanup_failure stack_trace verbose (ss ++ printed) (why r) loc (match_expectation r) (is_excessive r) s.1;
         Ok (c, (w2, s.2))).
  { unfold InvokeWith. cbn [fst snd]. rewrite Hk. cbn [or_fault]. rewrite bind_ok.
    destruct (untyped_expectations_ m); [done|]. rewrite Hfind, bind_ok. cbn beta iota. fold need.
    destruct (negb need); [done|]. rewrite Hk1. cbn [or_fault]. by rewrite bind_ok. }
  rewrite E. destruct need eqn:Hneed; cbn [negb].
  - assert (Hloc : exists loc, match match_expectation r with
               | Some e => if is_excessive r then Ok []
                           else x ← get w1 e; Ok (FormatFileLocation (file_ x) (line_ x) ++ str " ")
               | None => Ok []
               end = Ok loc).
    { destruct (match_expectation r) as [e|]; [|by eexists]. destruct (is_excessive r); [by eexists|].
      destruct (He e eq_refl) as [x Hx]. unfold get. rewrite Hx. by eexists. }
    destruct Hloc as [loc ->]. rewrite bind_ok. unfold PerformActionAndPrintResult.
    rewrite (PerformAction_result k m) by done. destruct (result_of m _ _ _ u) as [[c u']|f]; [|done].
    repeat first [rewrite bind_ok | progress cbn beta iota]. cbn [fst snd].
    destruct (cleanup_failure_spec m r args c loc w1 He) as (w2 & Hw2 & Ha & Hrep).
    change (match c with Returned r0 => _ | Thrown _ => _ end) with (returns_text c).
    fold ss in Hw2. rewrite Hw2, bind_ok. exists w2. split; [done|]. split; [by eapply agree_inv|].
    split; [done|]. by rewrite Hrep, Hq.
  - rewrite (PerformAction_result k m) by done. destruct (result_of m _ _ _ u) as [[c u']|f]; [|done].
    rewrite bind_ok. cbn beta iota. exists w1. split; [done|]. split; [done|]. split; [done|].
    rewrite Hq. unfold call_failures. subst need. apply orb_false_iff in Hneed as [[H1 H2]%orb_false_iff _].
    rewrite negb_false_iff, bool_decide_eq_true in H1. destruct H1 as [e ->]. by rewrite H2, app_nil_r.
Qed.
End outside.
