(* ===== verification/Actions.v ===== *)
(** * Actions (gmock-actions.h)

    What the actions of GoogleMock do to the memory of the program: values are
    plain or pointers to cells, an argument is passed by value or is a reference
    to a cell, and an action returns nothing, a value or a reference, or throws.
    What an action shares between its copies (the state of [ReturnRoundRobin] and
    of [ByMove]) lives in the memory, too.  User code is a function on the
    memory.  Which of the calls compile is not modelled; where the code has a
    [static_assert] the model fails. *)

From S2P Require Import Prelude Outcome Common CStr GmockUtils TestResult Cardinality Expectations ExpectationWalks ExpectationInv ExpectCall MockCall.

Section actions.
(** Values that are not pointers. *)
Context {V : Type}.

Inductive Value : Type := Plain (v : V) | Pointer (address : option nat).
Inductive Argument : Type := ByValue (v : Value) | ByReference (address : nat).
Inductive Result : Type := Nothing | AValue (v : Value) | AReference (address : nat).

(** The state that the copies of an action share. *)
Inductive ActionState : Type :=
  | RoundRobin (values : list Value) (i : nat)
  | ToMove (value : Value) (called : bool).

Record Memory : Type := mkMemory {
  cells : gmap nat Value;
  shared : gmap nat ActionState;
  errno : Z }.

Definition with_cells (c : gmap nat Value) (mem : Memory) : Memory := mkMemory c (shared mem) (errno mem).
Definition with_shared (s : gmap nat ActionState) (mem : Memory) : Memory := mkMemory (cells mem) s (errno mem).
Definition with_errno (n : Z) (mem : Memory) : Memory := mkMemory (cells mem) (shared mem) n.

(** [*p] as a value and as the target of an assignment. *)
Definition load (p : option nat) (mem : Memory) : outcome Value := or_fault InvalidDeref (a ← p; cells mem !! a).
Definition store (p : option nat) (v : Value) (mem : Memory) : outcome Memory :=
  a ← or_fault InvalidDeref p; _ ← load (Some a) mem; Ok (with_cells (<[a := v]> (cells mem)) mem).
Definition as_pointer (v : Value) : outcome (option nat) :=
  match v with Pointer p => Ok p | Plain _ => Err InvalidDeref end.

(** [std::get<k>] of the arguments, and the value it has when the action runs. *)
Definition get_arg (k : nat) (args : list Argument) : outcome Argument := or_fault InvalidDeref (args !! k).
Definition arg_value (a : Argument) (mem : Memory) : outcome Value :=
  match a with ByValue v => Ok v | ByReference p => load (Some p) mem end.
Definition arg_pointer (k : nat) (args : list Argument) (mem : Memory) : outcome (option nat) :=
  a ← get_arg k args; v ← arg_value a mem; as_pointer v.

#[local] Abbreviation Completion := (completion Result Value).
(** What is called with arguments: the function of an action, or user code. *)
Definition Body : Type := list Argument -> Memory -> outcome (Completion * Memory).
Definition Action : Type := Expectations.Action Body.

Definition return_ (r : Result) (mem : Memory) : outcome (Completion * Memory) := Ok (Returned r, mem).
Definition return_void (o : outcome Memory) : outcome (Completion * Memory) := mem ← o; Ok (Returned Nothing, mem).

(** [Action::Perform]; [IllegalDoDefault] aborts. *)
Definition Perform (action : Action) : Body := fun args mem =>
  match action with
  | DoDefault => Err AssertionFailed
  | Expectations.Perform fun_ => fun_ args mem
  end.
Definition act (fun_ : Body) : Action := Expectations.Perform fun_.

(** ** Returning *)

Definition Return (value : Value) : Action := act (fun _ mem => return_ (AValue value) mem).
Definition ReturnVoid : Action := act (fun _ mem => return_ Nothing mem).
Definition ReturnNull : Action := act (fun _ mem => return_ (AValue (Pointer None)) mem).
Definition ReturnRef (ref_ : nat) : Action := act (fun _ mem => return_ (AReference ref_) mem).

(** The address of a new cell or state. *)
Definition fresh_cell (mem : Memory) : nat := fresh (dom (cells mem)).
Definition fresh_state (mem : Memory) : nat := fresh (dom (shared mem)).
Definition new_cell (v : Value) (mem : Memory) : nat * Memory :=
  (fresh_cell mem, with_cells (<[fresh_cell mem := v]> (cells mem)) mem).
Definition new_state (s : ActionState) (mem : Memory) : nat * Memory :=
  (fresh_state mem, with_shared (<[fresh_state mem := s]> (shared mem)) mem).

(** The copy is a member of the action's implementation. *)
Definition ReturnRefOfCopy (value : Value) (mem : Memory) : Action * Memory :=
  let '(a, mem) := new_cell value mem in (ReturnRef a, mem).

(** [Return(ByMove(value))]: [GTEST_CHECK_] aborts a second call; what is left
    behind is moved from. *)
Definition ReturnByMove_call (state_ : nat) : Body := fun _ mem =>
  s ← or_fault InvalidDeref (shared mem !! state_);
  match s with
  | ToMove value called =>
      _ ← c_assert (negb called);
      return_ (AValue value) (with_shared (<[state_ := ToMove value true]> (shared mem)) mem)
  | RoundRobin _ _ => Err InvalidDeref
  end.
Definition ReturnByMove (value : Value) (mem : Memory) : Action * Memory :=
  let '(s, mem) := new_state (ToMove value false) mem in (act (ReturnByMove_call s), mem).

(** [ReturnRoundRobin] checks that there are values. *)
Definition Next (values : list Value) (i : nat) : outcome (Value * nat) :=
  v ← or_fault InvalidDeref (values !! i);
  Ok (v, if (S i =? length values)%nat then 0%nat else S i).
Definition ReturnRoundRobin_call (state_ : nat) : Body := fun _ mem =>
  s ← or_fault InvalidDeref (shared mem !! state_);
  match s with
  | RoundRobin values i =>
      '(v, i) ← Next values i;
      return_ (AValue v) (with_shared (<[state_ := RoundRobin values i]> (shared mem)) mem)
  | ToMove _ _ => Err InvalidDeref
  end.
Definition ReturnRoundRobin (values : list Value) (mem : Memory) : outcome (Action * Memory) :=
  _ ← c_assert (negb (bool_decide (values = [])));
  let '(s, mem) := new_state (RoundRobin values 0) mem in
  Ok (act (ReturnRoundRobin_call s), mem).

(** [new T(params...)]; the constructor makes a value of the parameters. *)
Definition ReturnNew (T : list Value -> Value) (params : list Value) : Action := act (fun _ mem =>
  let '(a, mem) := new_cell (T params) mem in return_ (AValue (Pointer (Some a))) mem).

(** What was passed by reference is returned as a reference. *)
Definition ReturnArg (k : nat) : Action := act (fun args mem =>
  a ← get_arg k args;
  match a with ByValue v => return_ (AValue v) mem | ByReference p => return_ (AReference p) mem end).
Definition ReturnPointee (pointer : option nat) : Action := act (fun _ mem =>
  v ← load pointer mem; return_ (AValue v) mem).

Definition Throw (exception : Value) : Action := act (fun _ mem => Ok (Thrown exception, mem)).
Definition Rethrow (exception : Value) : Action := act (fun _ mem => Ok (Thrown exception, mem)).

(** ** Side effects *)

Definition Assign (ptr_ : option nat) (value_ : Value) : Action :=
  act (fun _ mem => return_void (store ptr_ value_ mem)).
Definition SetErrnoAndReturn (errno_ : Z) (result_ : Value) : Action :=
  act (fun _ mem => return_ (AValue result_) (with_errno errno_ mem)).
Definition SetArgPointee (N : nat) (value : Value) : Action := act (fun args mem =>
  p ← arg_pointer N args mem; return_void (store p value mem)).
Definition SaveArg (k : nat) (pointer : option nat) : Action := act (fun args mem =>
  a ← get_arg k args; v ← arg_value a mem; return_void (store pointer v mem)).
Definition SaveArgPointee (k : nat) (pointer : option nat) : Action := act (fun args mem =>
  p ← arg_pointer k args mem; v ← load p mem; return_void (store pointer v mem)).
Definition SetArgReferee (k : nat) (value : Value) : Action := act (fun args mem =>
  a ← get_arg k args;
  match a with
  | ByReference p => return_void (store (Some p) value mem)
  | ByValue _ => Err InvalidDeref
  end).

(** [for (it = first; it != last; ++it, ++value) *value = *it]; an iterator that
    starts behind [last] never gets there. *)
Fixpoint copy_loop (n : nat) (it value : nat) (mem : Memory) : outcome Memory :=
  match n with
  | O => Ok mem
  | S n => v ← load (Some it) mem; mem ← store (Some value) v mem; copy_loop n (S it) (S value) mem
  end.
Definition SetArrayArgument (k : nat) (first last : nat) : Action := act (fun args mem =>
  p ← arg_pointer k args mem;
  if (last <? first)%nat then Err Diverges
  else if (first =? last)%nat then return_void (Ok mem)
  else value ← or_fault InvalidDeref p; return_void (copy_loop (last - first) first value mem)).

(** [delete] of a null pointer does nothing. *)
Definition DeleteArg (k : nat) : Action := act (fun args mem =>
  p ← arg_pointer k args mem;
  match p with
  | None => return_void (Ok mem)
  | Some a => _ ← load (Some a) mem; return_void (Ok (with_cells (delete a (cells mem)) mem))
  end).

(** ** Calling and combining *)

Definition Invoke (function_impl : Body) : Action := act function_impl.
Definition InvokeMethod {Class_} (method_ptr : Class_ -> Body) (obj_ptr : Class_) : Action := act (method_ptr obj_ptr).
Definition InvokeWithoutArgs (function_impl : Body) : Action := act (fun _ => function_impl []).
Definition InvokeMethodWithoutArgs {Class_} (method_ptr : Class_ -> Body) (obj_ptr : Class_) : Action :=
  act (fun _ => method_ptr obj_ptr []).

Definition IgnoreResult (action_ : Action) : Action := act (fun args mem =>
  '(c, mem) ← Perform action_ args mem;
  match c with
  | Returned _ => return_ Nothing mem
  | Thrown e => Ok (Thrown e, mem)
  end).

Definition select (ks : list nat) (args : list Argument) : outcome (list Argument) := mapM (fun k => get_arg k args) ks.
Definition WithArgs (ks : list nat) (inner_action : Action) : Action := act (fun args mem =>
  args ← select ks args; Perform inner_action args mem).
Definition WithArg (k : nat) (inner_action : Action) : Action := WithArgs [k] inner_action.
Definition WithoutArgs (inner_action : Action) : Action := WithArgs [] inner_action.

(** The result of all but the last action is ignored; a thrown exception skips
    the rest. *)
Fixpoint DoAll (initial_actions : list Action) (final_action_ : Action) : Action :=
  match initial_actions with
  | [] => final_action_
  | initial_action :: others => act (fun args mem =>
      '(c, mem) ← Perform initial_action args mem;
      match c with
      | Returned _ => Perform (DoAll others final_action_) args mem
      | Thrown e => Ok (Thrown e, mem)
      end)
  end.

(** ** DefaultValue

    Of a type: what it is constructed to by default, if it can be, and what the
    user set. *)

Inductive ValueProducer : Type :=
  | FixedValueProducer (value_ : Value)
  | FactoryValueProducer (factory_ : Memory -> outcome (Completion * Memory)).
Definition Produce (p : ValueProducer) (mem : Memory) : outcome (Completion * Memory) :=
  match p with
  | FixedValueProducer v => return_ (AValue v) mem
  | FactoryValueProducer factory_ => factory_ mem
  end.

Definition DefaultValue_Set (x : Value) : option ValueProducer := Some (FixedValueProducer x).
Definition DefaultValue_SetFactory (factory : Memory -> outcome (Completion * Memory)) : option ValueProducer :=
  Some (FactoryValueProducer factory).
Definition DefaultValue_Clear : option ValueProducer := None.
Definition DefaultValue_IsSet (producer_ : option ValueProducer) : bool := bool_decide (is_Some producer_).
Definition BuiltInDefaultValue_Exists (builtin : option Result) : bool := bool_decide (is_Some builtin).
(** [Get] of a type without a built-in value aborts. *)
Definition BuiltInDefaultValue_Get (builtin : option Result) : outcome Result := or_fault AssertionFailed builtin.
Definition DefaultValueExists (builtin : option Result) (producer_ : option ValueProducer) : bool :=
  DefaultValue_IsSet producer_ || BuiltInDefaultValue_Exists builtin.
Definition DefaultValueGet (builtin : option Result) (producer_ : option ValueProducer) (mem : Memory)
    : outcome (Completion * Memory) :=
  match producer_ with
  | None => r ← BuiltInDefaultValue_Get builtin; return_ r mem
  | Some p => Produce p mem
  end.
(** [DefaultValue<T&>] and [DefaultValue<void>]; a reference has no built-in value. *)
Definition DefaultReferenceExists (address_ : option nat) : bool := bool_decide (is_Some address_).
Definition DefaultReferenceGet (address_ : option nat) (mem : Memory) : outcome (Completion * Memory) :=
  a ← or_fault AssertionFailed address_; return_ (AReference a) mem.
Definition DefaultVoidExists : bool := true.
Definition DefaultVoidGet (mem : Memory) : outcome (Completion * Memory) := return_ Nothing mem.

(** Calls of an action one after the other, whatever happens in between. *)
Fixpoint perform_all (action : Action) (calls : list (list Argument * (Memory -> Memory))) (mem : Memory)
    : outcome (list Completion * Memory) :=
  match calls with
  | [] => Ok ([], mem)
  | (args, between) :: calls =>
      '(c, mem) ← Perform action args mem;
      '(cs, mem) ← perform_all action calls (between mem);
      Ok (c :: cs, mem)
  end.
End actions.
Arguments Value : clear implicits.
Arguments Argument : clear implicits.
Arguments Result : clear implicits.
Arguments ActionState : clear implicits.
Arguments Memory : clear implicits.
Arguments mkMemory {V} _ _ _.
Arguments Body : clear implicits.
Arguments Action : clear implicits.
Arguments ValueProducer : clear implicits.

(** ** Theorems *)

Section theorems.
Context {V : Type}.
Implicit Types (mem : Memory V) (args : list (Argument V)) (a : Action V).

Lemma store_ok p v mem w : cells mem !! p = Some w -> store (Some p) v mem = Ok (with_cells (<[p := v]> (cells mem)) mem).
Proof. intros E. unfold store, load. cbn. by rewrite E. Qed.

Lemma load_ok p v mem : cells mem !! p = Some v -> load (Some p) mem = Ok v.
Proof. intros E. unfold load. cbn. by rewrite E. Qed.

(** What the state of a round-robin action answers next. *)
Lemma Next_ok (values : list (Value V)) i v : values !! (i mod length values)%nat = Some v ->
  Next values (i mod length values) = Ok (v, (S i mod length values)%nat).
Proof.
  intros Hv. unfold Next. rewrite Hv. cbn [or_fault]. rewrite bind_ok.
  pose proof (lookup_lt_Some _ _ _ Hv) as Hlt. set (n := length values) in *. clearbody n. do 2 f_equal.
  pose proof (Nat.div_mod i n ltac:(lia)) as Hd.
  destruct (Nat.eqb_spec (S (i mod n)) n) as [E|E].
  - symmetry. apply Nat.Div0.mod_divides. exists (S (i / n)). lia.
  - apply (Nat.mod_unique _ _ (i / n)); lia.
Qed.

Lemma round_robin_step values state_ i v args mem : shared mem !! state_ = Some (RoundRobin values (i mod length values)) ->
  values !! (i mod length values)%nat = Some v ->
  Perform (act (ReturnRoundRobin_call state_)) args mem =
  Ok (Returned (AValue v), with_shared (<[state_ := RoundRobin values (S i mod length values)]> (shared mem)) mem).
Proof.
  intros Hs Hv. unfold Perform, act, ReturnRoundRobin_call. rewrite Hs. cbn [or_fault].
  by rewrite bind_ok, (Next_ok _ _ v Hv), bind_ok.
Qed.

Lemma round_robin_from values state_ calls : values <> [] ->
  Forall (fun call => forall mem, shared (call.2 mem) = shared mem) calls ->
  forall i mem, shared mem !! state_ = Some (RoundRobin values (i mod length values)) ->
  exists mem', perform_all (act (ReturnRoundRobin_call state_)) calls mem =
    Ok (map (fun k => Returned (AValue (nth (k mod length values) values (Pointer None)))) (seq i (length calls)), mem').
Proof.
  intros Hne Hcalls. induction Hcalls as [|[args between] calls Hb _ IH]; intros i mem Hs; [by eexists|].
  cbn [perform_all].
  assert (Hlen : (i mod length values < length values)%nat) by (apply Nat.mod_upper_bound; by destruct values).
  destruct (lookup_lt_is_Some_2 _ _ Hlen) as [v Hv].
  rewrite (round_robin_step _ _ _ _ _ _ Hs Hv), bind_ok. cbn beta iota.
  destruct (IH (S i) (between (with_shared (<[state_:=RoundRobin values (S i mod length values)]> (shared mem)) mem)))
    as [mem' ->].
  { rewrite Hb. cbn. by rewrite lookup_insert_eq. }
  rewrite bind_ok. cbn beta iota. exists mem'. cbn [length seq map]. by rewrite (nth_lookup_Some _ _ (Pointer None) v Hv).
Qed.

(** An action made by [ReturnRoundRobin] returns its values in turn, for as many
    calls as there are and whatever happens between them, as long as nobody else
    changes what the copies of the action share. *)
Theorem ReturnRoundRobin_correct values mem calls (Hne : values <> [])
    (Hcalls : Forall (fun call : list (Argument V) * (Memory V -> Memory V) =>
       forall mem, shared (call.2 mem) = shared mem) calls) :
  exists a mem1 mem', ReturnRoundRobin values mem = Ok (a, mem1) /\
    perform_all a calls mem1 =
      Ok (map (fun k => Returned (AValue (nth (k mod length values) values (Pointer None)))) (seq 0 (length calls)), mem').
Proof.
  unfold ReturnRoundRobin. rewrite bool_decide_eq_false_2 by done. cbn [negb c_assert]. rewrite bind_ok.
  unfold new_state. cbn beta iota.
  destruct (round_robin_from values (fresh_state mem) calls Hne Hcalls 0
    (with_shared (<[fresh_state mem := RoundRobin values 0]> (shared mem)) mem)) as [mem' E].
  { cbn. rewrite lookup_insert_eq. f_equal. f_equal. symmetry. apply Nat.Div0.mod_0_l. }
  eexists _, _, mem'. split; [reflexivity|exact E].
Qed.

(** [Return(ByMove(x))] answers one call; the next one aborts. *)
Theorem ReturnByMove_once x mem args1 args2 between
    (Hb : forall mem, shared (between mem) = shared mem) :
  let '(a, mem1) := ReturnByMove x mem in
  exists mem2, Perform a args1 mem1 = Ok (Returned (AValue x), mem2) /\
    Perform a args2 (between mem2) = Err AssertionFailed.
Proof.
  unfold ReturnByMove, new_state. cbn [Perform act]. unfold ReturnByMove_call. cbn [shared with_shared].
  rewrite lookup_insert_eq. eexists. split; [reflexivity|]. rewrite Hb. cbn [shared with_shared].
  by rewrite lookup_insert_eq.
Qed.

(** ** Copying *)

(** The cells from [a] on hold [vs]. *)
Definition holds (c : gmap nat (Value V)) (a : nat) (vs : list (Value V)) : Prop :=
  forall i v, vs !! i = Some v -> c !! (a + i)%nat = Some v.

Lemma copy_loop_spec vs it value mem :
  holds (cells mem) it vs ->
  (forall i, (i < length vs)%nat -> is_Some (cells mem !! (value + i)%nat)) ->
  ((value <= it)%nat \/ (it + length vs <= value)%nat) ->
  exists mem', copy_loop (length vs) it value mem = Ok mem' /\ holds (cells mem') value vs /\
    (forall p, ~ (value <= p < value + length vs)%nat -> cells mem' !! p = cells mem !! p) /\
    shared mem' = shared mem /\ errno mem' = errno mem.
Proof.
  revert it value mem. induction vs as [|v vs IH]; intros it value mem Hsrc Hdst Hsep.
  - exists mem. by split_and!.
  - cbn [length copy_loop] in *. pose proof (Hsrc 0%nat v eq_refl) as H0. rewrite Nat.add_0_r in H0.
    destruct (Hdst 0%nat) as [w Hw]; [lia|]. rewrite Nat.add_0_r in Hw.
    rewrite (load_ok _ _ _ H0), bind_ok, (store_ok _ _ _ _ Hw), bind_ok.
    set (mem1 := with_cells (<[value:=v]> (cells mem)) mem).
    destruct (IH (S it) (S value) mem1) as (mem' & Heq & Hh & Hk & Hs & He).
    + intros i v' Hi. cbn. rewrite lookup_insert_ne.
      * replace (S (it + i)) with (it + S i)%nat by lia. by apply Hsrc.
      * pose proof (lookup_lt_Some _ _ _ Hi). lia.
    + intros i Hi. cbn. rewrite lookup_insert_ne by lia. replace (S (value + i)) with (value + S i)%nat by lia.
      apply Hdst. lia.
    + lia.
    + exists mem'. split; [done|]. split; [|split; [|by rewrite Hs, He]].
      * intros [|i] v' Hi.
        -- injection Hi as <-. rewrite Nat.add_0_r, Hk by lia. cbn. by rewrite lookup_insert_eq.
        -- replace (value + S i)%nat with (S value + i)%nat by lia. by apply (Hh i).
      * intros p Hp. rewrite Hk by lia. cbn. by rewrite lookup_insert_ne by lia.
Qed.

(** [SetArrayArgument<k>(first, last)] copies the range to where the argument
    points and changes nothing else, also if the target overlaps the range from
    the left. *)
Theorem SetArrayArgument_correct k first vs value args mem
    (Harg : arg_pointer k args mem = Ok (Some value))
    (Hsrc : holds (cells mem) first vs)
    (Hdst : forall i, (i < length vs)%nat -> is_Some (cells mem !! (value + i)%nat))
    (Hsep : (value <= first)%nat \/ (first + length vs <= value)%nat) :
  exists mem', Perform (SetArrayArgument k first (first + length vs)) args mem = Ok (Returned Nothing, mem') /\
    holds (cells mem') value vs /\
    (forall p, ~ (value <= p < value + length vs)%nat -> cells mem' !! p = cells mem !! p) /\
    shared mem' = shared mem /\ errno mem' = errno mem.
Proof.
  cbn [Perform act SetArrayArgument]. rewrite Harg, bind_ok, (proj2 (Nat.ltb_ge _ _)) by lia.
  destruct vs as [|v vs].
  - rewrite Nat.add_0_r, Nat.eqb_refl. exists mem. split; [done|]. by split_and!.
  - rewrite (proj2 (Nat.eqb_neq _ _)) by (cbn; lia). cbn [or_fault]. rewrite bind_ok.
    replace (first + length (v :: vs) - first)%nat with (length (v :: vs)) by lia.
    destruct (copy_loop_spec (v :: vs) first value mem Hsrc Hdst Hsep) as (mem' & -> & H).
    exists mem'. split; [done|exact H].
Qed.

(** ** Combinators *)

Lemma select_pointwise js args args' : select js args = Ok args' -> Forall2 (fun j x => get_arg j args = Ok x) js args'.
Proof.
  revert args'. unfold select. induction js as [|j js IH]; intros args' E; cbn in E; [injection E as <-; constructor|].
  destruct (get_arg j args) as [x|] eqn:Ex; [|done]. cbn in E.
  destruct (mapM _ js) as [xs|]; [|done]. injection E as <-. constructor; [done|by apply IH].
Qed.

Lemma select_compose ks js args args' : select js args = Ok args' ->
  Forall (fun k => (k < length js)%nat) ks ->
  select ks args' = select (map (fun k => nth k js 0%nat) ks) args.
Proof.
  intros Hjs%select_pointwise Hks. unfold select.
  induction Hks as [|k ks Hk _ IH]; [done|].
  destruct (lookup_lt_is_Some_2 js k Hk) as [j Hj]. destruct (Forall2_lookup_l _ _ _ _ _ Hjs Hj) as (x & Hx & Hget).
  assert (E : get_arg k args' = get_arg (nth k js 0%nat) args).
  { rewrite (nth_lookup_Some _ _ _ _ Hj), Hget. unfold get_arg. by rewrite Hx. }
  cbn. by rewrite E, IH.
Qed.

Lemma select_total js args : Forall (fun j => (j < length args)%nat) js -> exists args', select js args = Ok args'.
Proof.
  unfold select. induction 1 as [|j js Hj _ [args' IH]]; [by eexists|].
  destruct (lookup_lt_is_Some_2 args j Hj) as [x Hx]. exists (x :: args').
  assert (E : get_arg j args = Ok x) by (unfold get_arg; by rewrite Hx). cbn. by rewrite E, IH.
Qed.

Lemma WithArgs_perform js a args mem :
  Perform (WithArgs js a) args mem = (args ← select js args; Perform a args mem).
Proof. done. Qed.

(** Selecting twice is selecting once. *)
Theorem WithArgs_compose ks js a args mem :
  Forall (fun k => (k < length js)%nat) ks -> Forall (fun j => (j < length args)%nat) js ->
  Perform (WithArgs js (WithArgs ks a)) args mem = Perform (WithArgs (map (fun k => nth k js 0%nat) ks) a) args mem.
Proof.
  intros Hks Hjs. destruct (select_total js args Hjs) as [args' E]. 
  by rewrite !WithArgs_perform, E, bind_ok, WithArgs_perform, (select_compose ks js args args').
Qed.
End theorems.
