(* ===== verification/Bipartite.v ===== *)
(** * Maximum matchings and UnorderedElementsAre (gmock-matchers.cc, gmock-matchers.h)

    [MatchMatrix] is the flattened table of the code, and an index outside of
    a vector is the fault [InvalidDeref].  [kUnused] is [None].  The search
    [TryAugment] takes fuel: every recursive call marks a right node that was
    not seen before, so one more than the number of right nodes is enough.

    A describer is the pair of the texts it writes, a listener the text
    written so far ([None] when it is not interested). *)

From S2P Require Import Prelude Outcome CStr GmockUtils.

(** ** The matrix *)

Record MatchMatrix : Type := mkMatchMatrix {
  num_elements_ : nat;
  num_matchers_ : nat;
  matched_ : list bool;
}.
Definition new_MatchMatrix (num_elements num_matchers : nat) : MatchMatrix :=
  mkMatchMatrix num_elements num_matchers (replicate (num_elements * num_matchers) false).

Definition LhsSize (g : MatchMatrix) : nat := num_elements_ g.
Definition RhsSize (g : MatchMatrix) : nat := num_matchers_ g.
Definition SpaceIndex (g : MatchMatrix) (ilhs irhs : nat) : nat := ilhs * num_matchers_ g + irhs.

Definition HasEdge (g : MatchMatrix) (ilhs irhs : nat) : outcome bool :=
  or_fault InvalidDeref (matched_ g !! SpaceIndex g ilhs irhs).
Definition SetEdge (g : MatchMatrix) (ilhs irhs : nat) (b : bool) : outcome MatchMatrix :=
  _ ← HasEdge g ilhs irhs;
  Ok (mkMatchMatrix (num_elements_ g) (num_matchers_ g)
        (<[SpaceIndex g ilhs irhs := b]> (matched_ g))).

(** The pairs of indices that the double loop over a matrix visits. *)
Definition cells (n m : nat) : list (nat * nat) :=
  i ← seq 0 n; (fun j => (i, j)) <$> seq 0 m.

Fixpoint next_graph_loop (visits : list (nat * nat)) (g : MatchMatrix)
    : outcome (bool * MatchMatrix) :=
  match visits with
  | [] => Ok (false, g)
  | (ilhs, irhs) :: visits =>
      b ← HasEdge g ilhs irhs;
      if negb b then g ← SetEdge g ilhs irhs true; Ok (true, g)
      else g ← SetEdge g ilhs irhs false; next_graph_loop visits g
  end.
Definition NextGraph (g : MatchMatrix) : outcome (bool * MatchMatrix) :=
  next_graph_loop (cells (LhsSize g) (RhsSize g)) g.

Fixpoint debug_row (g : MatchMatrix) (i : nat) (js : list nat) : outcome text :=
  match js with
  | [] => Ok []
  | j :: js =>
      b ← HasEdge g i j; rest ← debug_row g i js;
      Ok ((if b : bool then str "1" else str "0") ++ rest)
  end.
Fixpoint debug_rows (g : MatchMatrix) (sep : text) (is_ : list nat) : outcome text :=
  match is_ with
  | [] => Ok []
  | i :: is_ =>
      row ← debug_row g i (seq 0 (RhsSize g)); rest ← debug_rows g (str ";") is_;
      Ok (sep ++ row ++ rest)
  end.
Definition DebugString (g : MatchMatrix) : outcome text :=
  debug_rows g [] (seq 0 (LhsSize g)).

(** ** The search for a maximum matching *)

Record MaxBipartiteMatchState : Type := mkState {
  left_ : list (option nat);
  right_ : list (option nat);
}.
Definition new_state (g : MatchMatrix) : MaxBipartiteMatchState :=
  mkState (replicate (LhsSize g) None) (replicate (RhsSize g) None).

(** The loop of [TryAugment] over the right nodes; [self] is the recursive call. *)
Fixpoint try_edges
    (self : nat -> MaxBipartiteMatchState -> list bool ->
            outcome (bool * MaxBipartiteMatchState * list bool))
    (g : MatchMatrix) (ilhs : nat) (irhss : list nat)
    (s : MaxBipartiteMatchState) (seen : list bool)
    : outcome (bool * MaxBipartiteMatchState * list bool) :=
  match irhss with
  | [] => Ok (false, s, seen)
  | irhs :: irhss =>
      was_seen ← or_fault InvalidDeref (seen !! irhs);
      if was_seen : bool then try_edges self g ilhs irhss s seen else
      edge ← HasEdge g ilhs irhs;
      if negb edge then try_edges self g ilhs irhss s seen else
      let seen := <[irhs := true]> seen in
      owner ← or_fault InvalidDeref (right_ s !! irhs);
      '(found, s, seen) ← (match owner with
                           | None => Ok (true, s, seen)
                           | Some l => self l s seen
                           end);
      if found : bool then
        _ ← or_fault InvalidDeref (left_ s !! ilhs);
        Ok (true, mkState (<[ilhs := Some irhs]> (left_ s)) (<[irhs := Some ilhs]> (right_ s)),
            seen)
      else try_edges self g ilhs irhss s seen
  end.

Fixpoint TryAugment (fuel : nat) (g : MatchMatrix) (ilhs : nat)
    (s : MaxBipartiteMatchState) (seen : list bool)
    : outcome (bool * MaxBipartiteMatchState * list bool) :=
  match fuel with
  | O => Err Diverges
  | S fuel => try_edges (TryAugment fuel g) g ilhs (seq 0 (RhsSize g)) s seen
  end.

(** The first loop of [Compute]; [GTEST_CHECK_] aborts. *)
Fixpoint compute_loop (g : MatchMatrix) (ilhss : list nat) (s : MaxBipartiteMatchState)
    : outcome MaxBipartiteMatchState :=
  match ilhss with
  | [] => Ok s
  | ilhs :: ilhss =>
      partner ← or_fault InvalidDeref (left_ s !! ilhs);
      _ ← c_assert (bool_decide (partner = None));
      let seen := replicate (RhsSize g) false in
      '(_, s, _) ← TryAugment (S (RhsSize g)) g ilhs s seen;
      compute_loop g ilhss s
  end.

Definition ElementMatcherPairs : Type := list (nat * nat).

(** The second loop. *)
Fixpoint collect (ilhs : nat) (partners : list (option nat)) : ElementMatcherPairs :=
  match partners with
  | [] => []
  | None :: partners => collect (S ilhs) partners
  | Some irhs :: partners => (ilhs, irhs) :: collect (S ilhs) partners
  end.

Definition Compute_ (g : MatchMatrix) (s : MaxBipartiteMatchState) : outcome ElementMatcherPairs :=
  s ← compute_loop g (seq 0 (LhsSize g)) s;
  Ok (collect 0 (left_ s)).
Definition FindMaxBipartiteMatching (g : MatchMatrix) : outcome ElementMatcherPairs :=
  Compute_ g (new_state g).

(** ** Descriptions *)

Inductive Flags : Type := Superset | Subset | ExactMatch.
(** [match_flags() & UnorderedMatcherRequire::Superset] and [... ::Subset]. *)
Definition has_Superset (f : Flags) : bool :=
  match f with Superset | ExactMatch => true | Subset => false end.
Definition has_Subset (f : Flags) : bool :=
  match f with Subset | ExactMatch => true | Superset => false end.
Definition is_ExactMatch (f : Flags) : bool :=
  match f with ExactMatch => true | Superset | Subset => false end.

Record Describer : Type := { DescribeTo : text; DescribeNegationTo : text }.

Definition size_text (n : nat) : text := dec (Z.of_nat n).
Definition Elements (n : nat) : text :=
  size_text n ++ str " element" ++ (if bool_decide (n = 1%nat) then [] else str "s").

(** The loop at the end of the two description functions. *)
Fixpoint describe_loop (flags : Flags) (sep : text) (i : nat) (ds : list Describer) : text :=
  match ds with
  | [] => []
  | d :: ds =>
      sep ++ (if is_ExactMatch flags then str " - element #" ++ size_text i ++ str " "
              else str " - an element ") ++
      DescribeTo d ++
      describe_loop flags (if is_ExactMatch flags then str ", and" ++ [LF] else [LF]) (S i) ds
  end.

Definition DescribeToImpl (flags : Flags) (describers : list Describer) : text :=
  let rest := describe_loop flags [] 0 describers in
  match flags, describers with
  | ExactMatch, [] => str "is empty"
  | ExactMatch, [d] => str "has " ++ Elements 1 ++ str " and that element " ++ DescribeTo d
  | ExactMatch, _ =>
      str "has " ++ Elements (List.length describers) ++
      str " and there exists some permutation of elements such that:" ++ [LF] ++ rest
  | Superset, _ =>
      str "a surjection from elements to requirements exists such that:" ++ [LF] ++ rest
  | Subset, _ =>
      str "an injection from elements to requirements exists such that:" ++ [LF] ++ rest
  end.

Definition DescribeNegationToImpl (flags : Flags) (describers : list Describer) : text :=
  let rest := describe_loop flags [] 0 describers in
  match flags, describers with
  | ExactMatch, [] => str "isn't empty"
  | ExactMatch, [d] =>
      str "doesn't have " ++ Elements 1 ++ str ", or has " ++ Elements 1 ++ str " that " ++
      DescribeNegationTo d
  | ExactMatch, _ =>
      str "doesn't have " ++ Elements (List.length describers) ++
      str ", or there exists no permutation of elements such that:" ++ [LF] ++ rest
  | Superset, _ =>
      str "no surjection from elements to requirements exists such that:" ++ [LF] ++ rest
  | Subset, _ =>
      str "no injection from elements to requirements exists such that:" ++ [LF] ++ rest
  end.

Definition FormatMatcherDescription (negation : bool) (matcher_name : text)
    (param_names param_values : list text) : outcome text :=
  let result := ConvertIdentifierNameToWords matcher_name in
  result ← (match param_values with
            | [] => Ok result
            | _ => tuple ← JoinAsKeyValueTuple param_names param_values;
                   Ok (result ++ str " " ++ tuple)
            end);
  Ok (if negation then str "not (" ++ result ++ str ")" else result).

(** ** The match *)

Definition listener : Type := option text.
Definition IsInterested (l : listener) : bool := bool_decide (is_Some l).
Definition say (t : text) (l : listener) : listener := (fun written => written ++ t) <$> l.

(** The double loop of [VerifyMatchMatrix]. *)
Fixpoint mark_loop (g : MatchMatrix) (visits : list (nat * nat))
    (element_matched matcher_matched : list bool) : outcome (list bool * list bool) :=
  match visits with
  | [] => Ok (element_matched, matcher_matched)
  | (ilhs, irhs) :: visits =>
      matched ← HasEdge g ilhs irhs;
      e ← or_fault InvalidDeref (element_matched !! ilhs);
      m ← or_fault InvalidDeref (matcher_matched !! irhs);
      mark_loop g visits (<[ilhs := e || matched]> element_matched)
        (<[irhs := m || matched]> matcher_matched)
  end.

(** The loop over the matchers. *)
Fixpoint unmatched_matchers (describers : list Describer) (mi : nat) (sep : text)
    (matcher_matched : list bool) (result : bool) (l : listener) : outcome (bool * listener) :=
  match matcher_matched with
  | [] => Ok (result, l)
  | true :: matcher_matched =>
      unmatched_matchers describers (S mi) sep matcher_matched result l
  | false :: matcher_matched =>
      if IsInterested l then
        d ← or_fault InvalidDeref (describers !! mi);
        unmatched_matchers describers (S mi) (str "," ++ [LF]) matcher_matched false
          (say (sep ++ str "matcher #" ++ size_text mi ++ str ": " ++ DescribeTo d) l)
      else unmatched_matchers describers (S mi) sep matcher_matched false l
  end.

(** The loop over the elements. *)
Fixpoint unmatched_elements (printouts : list text) (ei : nat) (outer_sep sep : text)
    (element_matched : list bool) (result : bool) (l : listener) : outcome (bool * listener) :=
  match element_matched with
  | [] => Ok (result, l)
  | true :: element_matched =>
      unmatched_elements printouts (S ei) outer_sep sep element_matched result l
  | false :: element_matched =>
      if IsInterested l then
        p ← or_fault InvalidDeref (printouts !! ei);
        unmatched_elements printouts (S ei) [] (str "," ++ [LF]) element_matched false
          (say (outer_sep ++ sep ++ str "element #" ++ size_text ei ++ str ": " ++ p) l)
      else unmatched_elements printouts (S ei) outer_sep sep element_matched false l
  end.

Definition VerifyMatchMatrix (flags : Flags) (describers : list Describer)
    (element_printouts : list text) (matrix : MatchMatrix) (l : listener)
    : outcome (bool * listener) :=
  if (LhsSize matrix =? 0)%nat && (RhsSize matrix =? 0)%nat then Ok (true, l) else
  let is_exact_match_with_size_discrepency :=
    is_ExactMatch flags && negb (LhsSize matrix =? RhsSize matrix)%nat in
  let l := if is_exact_match_with_size_discrepency &&
              negb (LhsSize matrix =? 0)%nat && IsInterested l
           then say (str "which has " ++ Elements (LhsSize matrix) ++ [LF]) l else l in
  let result := negb is_exact_match_with_size_discrepency in
  '(element_matched, matcher_matched) ←
    mark_loop matrix (cells (LhsSize matrix) (RhsSize matrix))
      (replicate (LhsSize matrix) false) (replicate (RhsSize matrix) false);
  '(result, l) ←
    (if has_Superset flags
     then unmatched_matchers describers 0
            (str "where the following matchers don't match any elements:" ++ [LF])
            matcher_matched result l
     else Ok (result, l));
  if has_Subset flags
  then unmatched_elements element_printouts 0
         (if result : bool then [] else [LF] ++ str "and ")
         (str "where the following elements don't match any matchers:" ++ [LF])
         element_matched result l
  else Ok (result, l).

Fixpoint log_pairs (sep : text) (pairs : ElementMatcherPairs) : text :=
  match pairs with
  | [] => []
  | (e, m) :: pairs =>
      sep ++ [LF] ++ str "  (element #" ++ size_text e ++ str ", matcher #" ++ size_text m ++
      str ")" ++ log_pairs (str ",") pairs
  end.
Definition LogElementMatcherPairVec (pairs : ElementMatcherPairs) : text :=
  str "{" ++ log_pairs [] pairs ++ [LF] ++ str "}".

(** The loop at the end of [FindPairing]. *)
Fixpoint explain_pairs (sep : text) (pairs : ElementMatcherPairs) : text :=
  match pairs with
  | [] => []
  | (e, m) :: pairs =>
      sep ++ str " - element #" ++ size_text e ++ str " is matched by matcher #" ++
      size_text m ++ explain_pairs (str "," ++ [LF]) pairs
  end.

Definition FindPairing (flags : Flags) (matrix : MatchMatrix) (l : listener)
    : outcome (bool * listener) :=
  matches ← FindMaxBipartiteMatching matrix;
  let max_flow := List.length matches in
  let closest := size_text max_flow ++ str " of " ++ size_text (RhsSize matrix) ++
                 str " matchers with the pairings:" ++ [LF] in
  if has_Superset flags && (max_flow <? RhsSize matrix)%nat then
    Ok (false, say (str "where no permutation of the elements can satisfy all " ++
                    str "matchers, and the closest match is " ++ closest ++
                    LogElementMatcherPairVec matches) l)
  else if has_Subset flags && (max_flow <? LhsSize matrix)%nat then
    Ok (false, say (str "where not all elements can be matched, and the closest match is " ++
                    closest ++ LogElementMatcherPairVec matches) l)
  else if (1 <? max_flow)%nat then
    Ok (true, say (explain_pairs (str "where:" ++ [LF]) matches) l)
  else Ok (true, l).

(** ** UnorderedElementsAreMatcherImpl

    A matcher is a predicate on the elements; [print] is [PrintToString]. *)

Section matcher.
Context {E : Type} (print : E -> text).

Fixpoint AnalyzeElements_loop (matchers : list (E -> bool)) (elems : list E) (l : listener)
    (element_printouts : list text) (did_match : list bool) : list text * list bool :=
  match elems with
  | [] => (element_printouts, did_match)
  | e :: elems =>
      AnalyzeElements_loop matchers elems l
        (if IsInterested l then element_printouts ++ [print e] else element_printouts)
        (did_match ++ ((fun m => m e) <$> matchers))
  end.

Fixpoint set_edges (visits : list (nat * nat)) (did_match : list bool) (g : MatchMatrix)
    : outcome MatchMatrix :=
  match visits with
  | [] => Ok g
  | (ilhs, irhs) :: visits =>
      match did_match with
      | [] => Err InvalidIterator
      | b :: did_match => g ← SetEdge g ilhs irhs b; set_edges visits did_match g
      end
  end.

Definition AnalyzeElements (matchers : list (E -> bool)) (elems : list E) (l : listener)
    : outcome (list text * MatchMatrix) :=
  let '(element_printouts, did_match) := AnalyzeElements_loop matchers elems l [] [] in
  let num_elements := List.length elems in
  matrix ← set_edges (cells num_elements (List.length matchers)) did_match
             (new_MatchMatrix num_elements (List.length matchers));
  Ok (element_printouts, matrix).

Definition MatchAndExplain (flags : Flags) (describers : list Describer)
    (matchers : list (E -> bool)) (container : list E) (l : listener)
    : outcome (bool * listener) :=
  '(element_printouts, matrix) ← AnalyzeElements matchers container l;
  '(verified, l) ← VerifyMatchMatrix flags describers element_printouts matrix l;
  if verified : bool then FindPairing flags matrix l else Ok (false, l).
End matcher.

(** ** Edges and matchings *)

Definition well_sized (g : MatchMatrix) : Prop :=
  List.length (matched_ g) = (num_elements_ g * num_matchers_ g)%nat.
Definition edge (g : MatchMatrix) (l r : nat) : Prop :=
  (l < LhsSize g)%nat /\ (r < RhsSize g)%nat /\ matched_ g !! SpaceIndex g l r = Some true.

(** Edges of the graph that share no node. *)
Record matching (g : MatchMatrix) (M : ElementMatcherPairs) : Prop := {
  matching_edge l r : (l, r) ∈ M -> edge g l r;
  matching_left : NoDup M.*1;
  matching_right : NoDup M.*2;
}.
