(* ===== verification/MaxMatching.v ===== *)
(** * The search of MaxBipartiteMatchState finds a maximum matching

    A failed search leaves a set of seen right nodes, all of them taken, such
    that every neighbour of [l] and of the partners of the seen nodes is seen:
    no matching of the left nodes up to [l] can be larger.  A search that finds
    a path moves each left node on it to a new right node. *)

From S2P Require Import Prelude Outcome CStr Bipartite.

(** ** Edges *)

Lemma SpaceIndex_lt g l r :
  (l < LhsSize g)%nat -> (r < RhsSize g)%nat ->
  (SpaceIndex g l r < num_elements_ g * num_matchers_ g)%nat.
Proof. unfold LhsSize, RhsSize, SpaceIndex. nia. Qed.

Lemma HasEdge_ok g l r :
  well_sized g -> (l < LhsSize g)%nat -> (r < RhsSize g)%nat ->
  exists b, HasEdge g l r = Ok b /\ (b = true <-> edge g l r).
Proof.
  intros Hg Hl Hr. unfold HasEdge, edge.
  destruct (lookup_lt_is_Some_2 (matched_ g) (SpaceIndex g l r)) as [b Hb].
  { rewrite Hg. by apply SpaceIndex_lt. }
  rewrite Hb. exists b. split; [done |].
  split; [intros ->; done | intros (_ & _ & [= ->]); done].
Qed.

(** ** What the search does

    [mL] and [mR] are the partner of a node. *)

Definition mL (s : MaxBipartiteMatchState) (l : nat) : option nat := mjoin (left_ s !! l).
Definition mR (s : MaxBipartiteMatchState) (r : nat) : option nat := mjoin (right_ s !! r).

Definition seen_at (seen : list bool) (r : nat) : Prop := seen !! r = Some true.
Definition unseen (seen : list bool) : nat := List.length (filter (fun b => b = false) seen).

Record sized (g : MatchMatrix) (s : MaxBipartiteMatchState) : Prop := {
  sized_left : List.length (left_ s) = LhsSize g;
  sized_right : List.length (right_ s) = RhsSize g;
}.

Record consistent (g : MatchMatrix) (s : MaxBipartiteMatchState) : Prop := {
  consistent_sized : sized g s;
  consistent_mutual l r : mL s l = Some r <-> mR s r = Some l;
  consistent_edge l r : mL s l = Some r -> edge g l r;
}.

(** After a search from [l] that found a path: every left node keeps or gets a
    partner; only the old partner of [l] may still point to [l]. *)
Record augmented (g : MatchMatrix) (l : nat) (seen : list bool)
    (s s' : MaxBipartiteMatchState) : Prop := {
  augmented_sized : sized g s';
  augmented_left l1 r1 : mL s' l1 = Some r1 -> mR s' r1 = Some l1;
  augmented_right l1 r1 :
    mR s' r1 = Some l1 -> mL s' l1 = Some r1 \/ (l1 = l /\ mL s l = Some r1);
  augmented_seen r : seen_at seen r -> mR s' r = mR s r;
  augmented_dom l1 : is_Some (mL s' l1) <-> is_Some (mL s l1) \/ l1 = l;
  augmented_edge l1 r1 : mL s' l1 = Some r1 -> edge g l1 r1;
  augmented_fresh r : mL s' l = Some r -> ~ seen_at seen r;
}.

Definition closed (g : MatchMatrix) (l : nat) (seen : list bool) : Prop :=
  forall r, edge g l r -> seen_at seen r.

(** After a search that found none. *)
Definition dead_end (g : MatchMatrix) (s : MaxBipartiteMatchState) (seen seen' : list bool) : Prop :=
  forall r, seen_at seen' r -> seen_at seen r \/
    exists l, mR s r = Some l /\ closed g l seen'.

Definition grows (seen seen' : list bool) : Prop :=
  List.length seen' = List.length seen /\ (forall r, seen_at seen r -> seen_at seen' r) /\
  (unseen seen' <= unseen seen)%nat.

Lemma grows_refl seen : grows seen seen.
Proof. split_and!; auto. Qed.
Lemma grows_trans a b c : grows a b -> grows b c -> grows a c.
Proof. intros (? & ? & ?) (? & ? & ?). split_and!; [congruence | auto | lia]. Qed.

Lemma closed_mono g l a b : grows a b -> closed g l a -> closed g l b.
Proof. intros (_ & H & _) Hc r Hr. auto. Qed.

Lemma mark_unseen seen r :
  seen !! r = Some false -> S (unseen (<[r := true]> seen)) = unseen seen.
Proof.
  intros Hr. rewrite insert_take_drop by (by eapply lookup_lt_Some).
  rewrite <- (take_drop_middle seen r false Hr) at 3. unfold unseen.
  rewrite !filter_app, !filter_cons, !length_app.
  destruct (decide (true = false)) as [| _]; [done |].
  destruct (decide (false = false)) as [_ |]; [simpl; lia | done].
Qed.

Lemma mark_seen seen r r' :
  (r < List.length seen)%nat -> seen_at (<[r := true]> seen) r' <-> seen_at seen r' \/ r' = r.
Proof.
  intros Hr. unfold seen_at. destruct (decide (r' = r)) as [-> | Hne].
  - rewrite list_lookup_insert_eq by done. naive_solver.
  - rewrite list_lookup_insert_ne by done. naive_solver.
Qed.

Lemma mark_grows seen r : seen !! r = Some false -> grows seen (<[r := true]> seen).
Proof.
  intros Hr. pose proof (lookup_lt_Some _ _ _ Hr) as Hlt.
  split_and!; [apply length_insert | intros r' Hr'; apply mark_seen; auto |].
  pose proof (mark_unseen _ _ Hr). lia.
Qed.

Lemma mL_insert s l r l1 :
  (l < List.length (left_ s))%nat ->
  mL (mkState (<[l := Some r]> (left_ s)) (right_ s)) l1 = if decide (l1 = l) then Some r else mL s l1.
Proof.
  intros Hl. unfold mL. simpl. destruct (decide (l1 = l)) as [-> | Hne].
  - by rewrite list_lookup_insert_eq.
  - by rewrite list_lookup_insert_ne.
Qed.

(** The state in which the right node [r] has become free for [l]. *)
Record freed (g : MatchMatrix) (l r : nat) (seen : list bool)
    (s s1 : MaxBipartiteMatchState) : Prop := {
  freed_sized : sized g s1;
  freed_left l1 r1 : mL s1 l1 = Some r1 -> mR s1 r1 = Some l1 /\ r1 <> r;
  freed_right l1 r1 : mR s1 r1 = Some l1 -> r1 <> r -> mL s1 l1 = Some r1;
  freed_seen r1 : seen_at seen r1 -> mR s1 r1 = mR s r1;
  freed_dom l1 : is_Some (mL s1 l1) <-> is_Some (mL s l1);
  freed_edge l1 r1 : mL s1 l1 = Some r1 -> edge g l1 r1;
  freed_same : mL s1 l = mL s l;
}.

(** The two assignments of [TryAugment]. *)
Definition link (l r : nat) (s : MaxBipartiteMatchState) : MaxBipartiteMatchState :=
  mkState (<[l := Some r]> (left_ s)) (<[r := Some l]> (right_ s)).

Lemma mL_link g l r s l1 :
  sized g s -> edge g l r -> mL (link l r s) l1 = if decide (l1 = l) then Some r else mL s l1.
Proof. intros [Hs _] (Hl & _). apply mL_insert. by rewrite Hs. Qed.

Lemma mR_link g l r s r1 :
  sized g s -> edge g l r -> mR (link l r s) r1 = if decide (r1 = r) then Some l else mR s r1.
Proof.
  intros [_ Hs] (_ & Hr & _). unfold mR, link. simpl. destruct (decide (r1 = r)) as [-> | Hne].
  - rewrite list_lookup_insert_eq; [done | by rewrite Hs].
  - by rewrite list_lookup_insert_ne.
Qed.

Lemma freed_link g l r seen s s1 :
  freed g l r seen s s1 -> edge g l r -> ~ seen_at seen r -> augmented g l seen s (link l r s1).
Proof.
  intros F He Hr. pose proof (freed_sized _ _ _ _ _ _ F) as Hs.
  pose proof (fun x => mL_link g l r s1 x Hs He) as HL.
  pose proof (fun x => mR_link g l r s1 x Hs He) as HR.
  split.
  - destruct Hs as [H1 H2]. split; unfold link; simpl; by rewrite length_insert.
  - intros l1 r1. rewrite HL, HR. destruct (decide (l1 = l)) as [-> | Hl].
    + intros [= ->]. by rewrite decide_True.
    + intros H. destruct (freed_left _ _ _ _ _ _ F _ _ H) as [H' Hne]. by rewrite decide_False.
  - intros l1 r1. rewrite HL, HR. destruct (decide (r1 = r)) as [-> | Hne].
    + intros [= ->]. left. by rewrite decide_True.
    + intros H%(freed_right _ _ _ _ _ _ F); [| done].
      destruct (decide (l1 = l)) as [-> | Hl]; [right | by left].
      by rewrite <- (freed_same _ _ _ _ _ _ F).
  - intros r1 Hs1. rewrite HR, decide_False by (intros ->; done).
    by apply (freed_seen _ _ _ _ _ _ F).
  - intros l1. rewrite HL. destruct (decide (l1 = l)) as [-> | Hl]; [naive_solver |].
    rewrite (freed_dom _ _ _ _ _ _ F). naive_solver.
  - intros l1 r1. rewrite HL. destruct (decide (l1 = l)) as [-> | Hl].
    + by intros [= ->].
    + apply (freed_edge _ _ _ _ _ _ F).
  - intros r1. rewrite HL, decide_True by done. by intros [= <-].
Qed.

Lemma freed_free g l r seen s :
  consistent g s -> mR s r = None -> freed g l r seen s s.
Proof.
  intros C Hr. split; try done.
  - apply C.
  - intros l1 r1 H. apply C in H. split; [done | intros ->; congruence].
  - intros l1 r1 H _. by apply C.
  - intros l1 r1. apply C.
Qed.

Lemma freed_augmented g l l' r seen s s1 :
  consistent g s -> mR s r = Some l' -> (forall r0, mL s l = Some r0 -> seen_at seen r0) ->
  (r < List.length seen)%nat -> ~ seen_at seen r ->
  augmented g l' (<[r := true]> seen) s s1 -> freed g l r seen s s1.
Proof.
  intros C Hl' Hseen Hlt Hr A.
  assert (HL' : mL s l' = Some r) by by apply C.
  assert (Hne : l <> l').
  { intros ->. by specialize (Hseen _ HL'). }
  assert (Hrs : seen_at (<[r := true]> seen) r) by (apply mark_seen; auto).
  assert (Hr1 : mR s1 r = Some l') by by rewrite (augmented_seen _ _ _ _ _ A).
  assert (Hnor : forall l1, mL s1 l1 <> Some r).
  { intros l1 H1. pose proof (augmented_left _ _ _ _ _ A _ _ H1) as H2.
    rewrite Hr1 in H2. injection H2 as ->.
    by apply (augmented_fresh _ _ _ _ _ A _ H1). }
  split.
  - apply A.
  - intros l1 r1 H. split; [by apply (augmented_left _ _ _ _ _ A) |].
    intros ->. by apply (Hnor l1).
  - intros l1 r1 H Hn. destruct (augmented_right _ _ _ _ _ A _ _ H) as [? | [-> H2]]; [done |].
    congruence.
  - intros r1 H1. apply (augmented_seen _ _ _ _ _ A). apply mark_seen; auto.
  - intros l1. rewrite (augmented_dom _ _ _ _ _ A). split; [| by left].
    intros [? | ->]; [done | by rewrite HL'].
  - apply A.
  - destruct (mL s l) as [r0 |] eqn:H0.
    + specialize (Hseen _ eq_refl).
      assert (H1 : mR s1 r0 = Some l).
      { rewrite (augmented_seen _ _ _ _ _ A) by (apply mark_seen; auto). by apply C. }
      destruct (augmented_right _ _ _ _ _ A _ _ H1) as [? | [? ?]]; congruence.
    + destruct (mL s1 l) eqn:H1; [| done].
      destruct (proj1 (augmented_dom _ _ _ _ _ A l)) as [[? ?] | ?]; [eauto | congruence | congruence].
Qed.

Definition search_post (g : MatchMatrix) (l : nat) (s : MaxBipartiteMatchState) (seen : list bool)
    : bool * MaxBipartiteMatchState * list bool -> Prop := fun '(found, s', seen') =>
  grows seen seen' /\
  if found : bool then augmented g l seen s s'
  else s' = s /\ closed g l seen' /\ dead_end g s seen seen'.

Record search_pre (g : MatchMatrix) (l : nat) (s : MaxBipartiteMatchState) (seen : list bool)
    : Prop := {
  pre_left : (l < LhsSize g)%nat;
  pre_seen : List.length seen = RhsSize g;
  pre_partner r : mL s l = Some r -> seen_at seen r;
}.

Lemma search_pre_grows g l s a b : search_pre g l s a -> grows a b -> search_pre g l s b.
Proof.
  intros [? ? ?] (H1 & H2 & _). split; [done | congruence | auto].
Qed.

Lemma augmented_grows g l s s' a b : grows a b -> augmented g l b s s' -> augmented g l a s s'.
Proof.
  intros (_ & Hg & _) [? ? ? ? ? ? Hf]. split; auto.
  intros r Hr Ha. apply (Hf r Hr). auto.
Qed.

Lemma dead_end_refl g s a : dead_end g s a a.
Proof. intros r Hr. by left. Qed.

Lemma dead_end_trans g s a b c :
  grows b c -> dead_end g s a b -> dead_end g s b c -> dead_end g s a c.
Proof.
  intros Hg Hab Hbc r [Hr | ?]%Hbc; [| by right].
  destruct (Hab r Hr) as [? | (l & Hl & Hc)]; [by left | right].
  exists l. split; [done | by eapply closed_mono].
Qed.

Lemma dead_end_mark g s r l seen seen' :
  mR s r = Some l -> closed g l seen' -> (r < List.length seen)%nat ->
  dead_end g s (<[r := true]> seen) seen' -> dead_end g s seen seen'.
Proof.
  intros Hl Hc Hlt Hd r' [Hr | ?]%Hd; [| by right].
  apply mark_seen in Hr as [? | ->]; [by left | right; eauto | done].
Qed.

Section search.
Variable g : MatchMatrix.
Hypothesis Hg : well_sized g.
Variable s : MaxBipartiteMatchState.
Hypothesis Hs : consistent g s.

Lemma right_lookup r : (r < RhsSize g)%nat -> right_ s !! r = Some (mR s r).
Proof.
  intros Hr. unfold mR. destruct (lookup_lt_is_Some_2 (right_ s) r) as [x Hx].
  - by rewrite (sized_right _ _ (consistent_sized _ _ Hs)).
  - by rewrite Hx.
Qed.

Lemma left_lookup g' s' l : sized g' s' -> (l < LhsSize g')%nat -> left_ s' !! l = Some (mL s' l).
Proof.
  intros [H _] Hl. unfold mL. destruct (lookup_lt_is_Some_2 (left_ s') l) as [x Hx].
  - by rewrite H.
  - by rewrite Hx.
Qed.

Definition searches (fuel : nat) (self : nat -> MaxBipartiteMatchState -> list bool ->
    outcome (bool * MaxBipartiteMatchState * list bool)) : Prop :=
  forall l seen, search_pre g l s seen -> (unseen seen < fuel)%nat ->
  self l s seen ⇓ search_post g l s seen.

(** The loop, from the right node [k]; [seen0] is the vector on entry. *)
Lemma try_edges_spec fuel self l seen0 n k seen :
  searches fuel self -> search_pre g l s seen0 -> (unseen seen < S fuel)%nat ->
  (k + n = RhsSize g)%nat -> grows seen0 seen -> dead_end g s seen0 seen ->
  (forall r, (r < k)%nat -> edge g l r -> seen_at seen r) ->
  try_edges self g l (seq k n) s seen ⇓ search_post g l s seen0.
Proof.
  intros Hself Hpre. revert k seen. induction n as [| n IH]; intros k seen Hfuel Hk H0 Hd Hdone.
  { simpl. split_and!; try done. intros r Hr. apply Hdone; [| done]. destruct Hr as (_ & ? & _). lia. }
  pose proof (search_pre_grows _ _ _ _ _ Hpre H0) as Hpre'.
  destruct (lookup_lt_is_Some_2 seen k) as [b Hb]; [rewrite (pre_seen _ _ _ _ Hpre'); lia |].
  assert (Hskip : (edge g l k -> seen_at seen k) ->
    try_edges self g l (seq (S k) n) s seen ⇓ search_post g l s seen0).
  { intros He. apply IH; try done; [lia |]. intros r Hr Hr1.
    destruct (decide (r = k)) as [-> | ?]; [by apply He | apply Hdone; [lia | done]]. }
  simpl. rewrite Hb. simpl. destruct b; [by apply Hskip |].
  destruct (HasEdge_ok g l k Hg) as (b & Hedge & Hiff); [apply Hpre | lia |].
  rewrite Hedge. simpl. destruct b; simpl; [| by apply Hskip; intros ?%Hiff].
  assert (He : edge g l k) by by apply Hiff. clear Hiff Hskip.
  assert (Hns : ~ seen_at seen k) by (unfold seen_at; congruence).
  assert (Hklt : (k < List.length seen)%nat) by (by eapply lookup_lt_Some).
  pose proof (mark_grows _ _ Hb) as Hm. pose proof (mark_unseen _ _ Hb) as Hu.
  rewrite (right_lookup k) by lia. simpl. destruct (mR s k) as [l' |] eqn:HR.
  - apply returns_bind. eapply returns_mono.
    { apply Hself; [| lia]. assert (mL s l' = Some k) by by apply Hs.
      split; [by eapply consistent_edge | by rewrite length_insert, (pre_seen _ _ _ _ Hpre') |].
      intros r Hr. apply mark_seen; [done | right; congruence]. }
    intros [[found s'] seen'] (Hg' & Hpost). destruct found; simpl.
    + assert (F : freed g l k seen s s').
      { eapply freed_augmented; try done. apply Hpre'. }
      rewrite (left_lookup g) by (apply F || apply Hpre). simpl.
      split; [by eapply grows_trans, grows_trans |].
      eapply augmented_grows; [done |]. by apply freed_link.
    + destruct Hpost as (-> & Hc & Hd').
      assert (Hg2 : grows seen seen') by by eapply grows_trans.
      apply IH; [destruct Hg2 as (_ & _ & ?); lia | lia | by eapply grows_trans | | ].
      * eapply dead_end_trans; [done | done |]. by eapply dead_end_mark.
      * intros r Hr Hr1. destruct (decide (r = k)) as [-> | ?].
        -- apply Hg', mark_seen; auto.
        -- apply Hg2, Hdone; [lia | done].
  - rewrite bind_ok. cbn beta iota.
    rewrite (left_lookup g) by (apply Hs || apply Hpre). simpl.
    split; [by eapply grows_trans |]. eapply augmented_grows; [done |].
    apply freed_link; [by apply freed_free | done | done].
Qed.

Lemma TryAugment_spec fuel : searches fuel (TryAugment fuel g).
Proof.
  induction fuel as [| fuel IH]; intros l seen Hpre Hfuel; [lia |]. simpl.
  eapply (try_edges_spec fuel); try done; solve [apply grows_refl | by apply dead_end_refl | lia].
Qed.

End search.

(** ** The matching is maximum *)

Lemma elem_of_collect k partners l r :
  (l, r) ∈ collect k partners <-> (k <= l)%nat /\ mjoin (partners !! (l - k)%nat) = Some r.
Proof.
  revert k. induction partners as [| p ps IH]; intros k; simpl.
  { split; [by intros ?%elem_of_nil | by intros []]. }
  assert (Hstep : (k <= l)%nat /\ mjoin ((p :: ps) !! (l - k)%nat) = Some r <->
    (l = k /\ p = Some r) \/ ((S k <= l)%nat /\ mjoin (ps !! (l - S k)%nat) = Some r)).
  { destruct (decide (l = k)) as [-> | Hl].
    - rewrite Nat.sub_diag. simpl. split; [intros []; auto |]. intros [[]|[]]; [auto | lia].
    - destruct (decide (k < l)%nat) as [Hlt |]; [| split; [lia | intros [[]|[]]; lia]].
      replace (l - k)%nat with (S (l - S k)) by lia. simpl.
      split; [intros [? ?]; right; split; [lia | done] |].
      intros [[? ?]|[? ?]]; [lia | split; [lia | done]]. }
  rewrite Hstep. destruct p as [r' |].
  - rewrite elem_of_cons, IH. naive_solver.
  - rewrite IH. naive_solver.
Qed.

Lemma collect_NoDup k partners : NoDup (collect k partners).*1.
Proof.
  revert k. induction partners as [| [r |] ps IH]; intros k; simpl; [constructor | | apply IH].
  constructor; [| apply IH]. intros ((l, r') & Hl & Hin)%list_elem_of_fmap. simpl in Hl. subst l.
  apply elem_of_collect in Hin as [? _]. lia.
Qed.

Definition pairs (s : MaxBipartiteMatchState) : ElementMatcherPairs := collect 0 (left_ s).

Lemma elem_of_pairs s l r : (l, r) ∈ pairs s <-> mL s l = Some r.
Proof.
  unfold pairs, mL. rewrite elem_of_collect, Nat.sub_0_r. split; [naive_solver | split; [lia | done]].
Qed.

Lemma NoDup_fst_inj {A B} (M : list (A * B)) a b b' :
  NoDup M.*1 -> (a, b) ∈ M -> (a, b') ∈ M -> b = b'.
Proof.
  induction M as [| [x y] M IH]; simpl; [by intros _ ?%elem_of_nil |].
  intros [Hx Hn]%NoDup_cons Hb Hb'.
  assert (Hfst : forall c, (x, c) ∈ M -> False).
  { intros c Hc. apply Hx, list_elem_of_fmap. by exists (x, c). }
  apply elem_of_cons in Hb as [[= -> ->] | Hb]; apply elem_of_cons in Hb' as [[= ] | Hb'];
    subst; eauto; exfalso; eauto.
Qed.

Lemma NoDup_snd {A B} (M : list (A * B)) :
  NoDup M.*1 -> (forall a a' b, (a, b) ∈ M -> (a', b) ∈ M -> a = a') -> NoDup M.*2.
Proof.
  induction M as [| [a b] M IH]; simpl; [constructor |].
  intros [Ha Hn]%NoDup_cons Hinj. constructor.
  - intros ([a' b'] & Hb & Hin)%list_elem_of_fmap. simpl in Hb. subst b'.
    apply Ha, list_elem_of_fmap. exists (a, b). split; [done |].
    rewrite (Hinj a a' b); [done | by left | by right].
  - apply IH; [done |]. intros x y z Hx Hy. apply (Hinj x y z); by right.
Qed.

Lemma pairs_matching g s : consistent g s -> matching g (pairs s).
Proof.
  intros C. split.
  - intros l r H%elem_of_pairs. by eapply consistent_edge.
  - apply collect_NoDup.
  - apply NoDup_snd; [apply collect_NoDup |]. intros l l' r H%elem_of_pairs H'%elem_of_pairs.
    apply C in H, H'. congruence.
Qed.

Lemma length_incl {A B} (f : A -> B) (l : list A) (k : list B) :
  NoDup (f <$> l) -> (forall x, x ∈ l -> f x ∈ k) -> (List.length l <= List.length k)%nat.
Proof.
  intros Hn Hin. rewrite <- (length_fmap f l). apply submseteq_length, NoDup_submseteq; [done |].
  intros y (x & -> & Hx)%list_elem_of_fmap. auto.
Qed.

Lemma length_split {A} (P : A -> Prop) `{!forall x, Decision (P x)}
    `{!forall x, Decision (~ P x)} (l : list A) :
  (List.length l = List.length (filter P l) + List.length (filter (fun x => ~ P x) l))%nat.
Proof.
  induction l as [| x l IH]; [done |]. rewrite !filter_cons.
  repeat case_decide; simpl; lia || done.
Qed.

Lemma NoDup_fmap_filter {A B} (f : A -> B) (P : A -> Prop) `{!forall x, Decision (P x)} l :
  NoDup (f <$> l) -> NoDup (f <$> filter P l).
Proof. intros Hn. eapply sublist_NoDup; [exact Hn |]. apply fmap_sublist, sublist_filter. Qed.

Lemma matching_filter g M (P : nat * nat -> Prop) `{!forall x, Decision (P x)} :
  matching g M -> matching g (filter P M).
Proof.
  intros [He Hl Hr]. split; [| by apply NoDup_fmap_filter ..].
  intros l r [_ Hin]%list_elem_of_filter. auto.
Qed.

(** ** One step of the loop *)

Definition below (i : nat) (M : ElementMatcherPairs) : Prop :=
  forall l r, (l, r) ∈ M -> (l < i)%nat.

(** The state before the left node [i]. *)
Record processed (g : MatchMatrix) (i : nat) (s : MaxBipartiteMatchState) : Prop := {
  processed_consistent : consistent g s;
  processed_rest l : (i <= l)%nat -> mL s l = None;
  processed_max M : matching g M -> below i M -> (List.length M <= List.length (pairs s))%nat;
}.

Lemma below_step g i M :
  matching g M ->
  (List.length M <= S (List.length (filter (fun p => p.1 <> i) M)))%nat.
Proof.
  intros HM. rewrite (length_split (fun p => p.1 = i) M) at 1.
  assert (List.length (filter (fun p => p.1 = i) M) <= 1)%nat as H1;
    [| unfold ElementMatcherPairs in *; lia].
  change 1%nat with (List.length [i]).
  apply (length_incl fst).
  - apply NoDup_fmap_filter, HM.
  - intros [l r] [Hl _]%list_elem_of_filter. simpl in *. subst. by left.
Qed.

Lemma below_filter i M :
  below (S i) M -> below i (filter (fun p => p.1 <> i) M).
Proof.
  intros HM l r [Hl Hin]%list_elem_of_filter. simpl in Hl. specialize (HM _ _ Hin). lia.
Qed.

Lemma augmented_consistent g l seen s s' :
  augmented g l seen s s' -> mL s l = None -> consistent g s'.
Proof.
  intros A Hl. split; [apply A | | apply A].
  intros l1 r1. split; [apply A |]. intros [? | [-> ?]]%(augmented_right _ _ _ _ _ A); [done |].
  congruence.
Qed.

Lemma augmented_length g l seen s s' :
  consistent g s -> augmented g l seen s s' -> mL s l = None ->
  List.length (pairs s') = S (List.length (pairs s)).
Proof.
  intros C A Hl.
  assert (Hdom : forall s l, l ∈ (pairs s).*1 <-> is_Some (mL s l)).
  { intros s1 l1. rewrite list_elem_of_fmap. split.
    - intros ([l2 r] & -> & H%elem_of_pairs). by eexists.
    - intros [r H%elem_of_pairs]. by exists (l1, r). }
  rewrite <- (length_fmap fst (pairs s')), <- (length_fmap fst (pairs s)).
  change (S ?n) with (1 + n)%nat. rewrite <- (length_app [l] (pairs s).*1).
  apply Permutation_length, NoDup_Permutation; [apply collect_NoDup | | ].
  - simpl. constructor; [| apply collect_NoDup]. rewrite Hdom, Hl. by intros [].
  - intros l1. rewrite Hdom, (augmented_dom _ _ _ _ _ A). simpl. rewrite elem_of_cons, Hdom. tauto.
Qed.

Lemma step_found g i seen s s' :
  processed g i s -> augmented g i seen s s' -> processed g (S i) s'.
Proof.
  intros [C Hrest Hmax] A. pose proof (Hrest i (le_n i)) as Hi. split.
  - by eapply augmented_consistent.
  - intros l Hl. destruct (mL s' l) eqn:H; [| done].
    destruct (proj1 (augmented_dom _ _ _ _ _ A l)) as [[? H'] | ->]; [eauto | | lia].
    rewrite Hrest in H' by lia. done.
  - intros M HM Hb. rewrite (augmented_length _ _ _ _ _ C A Hi).
    pose proof (below_step g i M HM).
    pose proof (Hmax _ (matching_filter g M _ HM) (below_filter i M Hb)). lia.
Qed.

Section dead.
Variables (g : MatchMatrix) (i : nat) (s : MaxBipartiteMatchState) (seen : list bool).
Hypotheses (Hp : processed g i s) (Hclosed : closed g i seen)
  (Hdead : forall r, seen_at seen r -> exists l, mR s r = Some l /\ closed g l seen).

#[local] Instance seen_at_dec r : Decision (seen_at seen r).
Proof. unfold seen_at. apply _. Defined.

(** The edges of [M] to a node that was not seen, and those of the state to
    the seen ones, share no node. *)
Lemma dead_exchange M :
  matching g M -> below (S i) M ->
  let M' := filter (fun p => ~ seen_at seen p.2) M ++ filter (fun p => seen_at seen p.2) (pairs s) in
  matching g M' /\ below i M'.
Proof.
  intros HM Hb. destruct Hp as [C Hrest _]. pose proof (pairs_matching g s C) as HP.
  pose proof (matching_filter g M (fun p => ~ seen_at seen p.2) HM) as H1.
  pose proof (matching_filter g (pairs s) (fun p => seen_at seen p.2) HP) as H2.
  split; [split |].
  - intros l r [H|H]%elem_of_app; [by apply H1 | by apply H2].
  - rewrite fmap_app. apply NoDup_app. split; [apply H1 |]. split; [| apply H2].
    intros l ([l1 r1] & -> & [Hn Hin]%list_elem_of_filter)%list_elem_of_fmap
      ([l2 r2] & Hl & [Hy Hin2]%list_elem_of_filter)%list_elem_of_fmap. simpl in *. subst l2.
    apply elem_of_pairs, C in Hin2. destruct (Hdead _ Hy) as (l & Hl & Hc).
    rewrite Hin2 in Hl. injection Hl as <-. by apply Hn, Hc, (matching_edge _ _ HM).
  - rewrite fmap_app. apply NoDup_app. split; [apply H1 |]. split; [| apply H2].
    intros r ([l1 r1] & -> & [Hn _]%list_elem_of_filter)%list_elem_of_fmap
      ([l2 r2] & Hr & [Hy _]%list_elem_of_filter)%list_elem_of_fmap. simpl in *. by subst.
  - intros l r [[Hn Hin]%list_elem_of_filter | [_ Hin]%list_elem_of_filter]%elem_of_app.
    + pose proof (Hb _ _ Hin). destruct (decide (l = i)) as [-> | ?]; [| lia].
      destruct Hn. by apply Hclosed, (matching_edge _ _ HM).
    + apply elem_of_pairs in Hin. destruct (decide (l < i)%nat); [done |].
      rewrite Hrest in Hin by lia. done.
Qed.

Lemma step_dead : processed g (S i) s.
Proof.
  destruct Hp as [C Hrest Hmax]. split; [done | intros l Hl; apply Hrest; lia |].
  intros M HM Hb. destruct (dead_exchange M HM Hb) as [HM' Hb'].
  pose proof (Hmax _ HM' Hb') as Hle. rewrite length_app in Hle.
  rewrite (length_split (fun p => seen_at seen p.2) M).
  assert (List.length (filter (fun p => seen_at seen p.2) M) <=
    List.length (filter (fun p => seen_at seen p.2) (pairs s)).*2)%nat as Hs.
  { apply (length_incl snd); [apply NoDup_fmap_filter, HM |].
    intros [l r] [Hy _]%list_elem_of_filter. simpl in *.
    destruct (Hdead _ Hy) as (l' & Hl' & _). apply list_elem_of_fmap.
    exists (l', r). split; [done |]. apply list_elem_of_filter. split; [done |].
    by apply elem_of_pairs, C. }
  rewrite length_fmap in Hs. unfold ElementMatcherPairs in *. lia.
Qed.

End dead.

(** ** The whole search *)

Lemma matching_nil g : matching g [].
Proof. split; [by intros l r ?%elem_of_nil | constructor ..]. Qed.

Lemma new_state_lookup {A} n (i : nat) : mjoin (replicate n (@None A) !! i) = None.
Proof. destruct (replicate n None !! i) eqn:H; [| done]. by apply lookup_replicate in H as [-> _]. Qed.

Lemma new_state_processed g : processed g 0 (new_state g).
Proof.
  assert (HL : forall l, mL (new_state g) l = None) by (intros; apply new_state_lookup).
  assert (HR : forall r, mR (new_state g) r = None) by (intros; apply new_state_lookup).
  split; [split | by intros l _ |].
  - split; apply length_replicate.
  - intros l r. by rewrite HL, HR.
  - intros l r. by rewrite HL.
  - intros [| [l r] M] _ Hb; [simpl; lia |]. specialize (Hb l r ltac:(by left)). lia.
Qed.

Lemma seen_replicate n r : ~ seen_at (replicate n false) r.
Proof. unfold seen_at. by intros [? _]%lookup_replicate. Qed.

Lemma unseen_replicate n : unseen (replicate n false) = n.
Proof. induction n as [| n IH]; [done |]. unfold unseen in *. simpl. by rewrite <- IH at 2. Qed.

Lemma compute_loop_spec g n k s :
  well_sized g -> (k + n = LhsSize g)%nat -> processed g k s ->
  compute_loop g (seq k n) s ⇓ processed g (LhsSize g).
Proof.
  intros Hg. revert k s. induction n as [| n IH]; intros k s Hk Hp; cbn [seq compute_loop].
  { simpl. by replace (LhsSize g) with k by lia. }
  pose proof (processed_consistent _ _ _ Hp) as C.
  rewrite (left_lookup g) by (apply C || lia). cbn [or_fault].
  rewrite bind_ok, (processed_rest _ _ _ Hp) by lia.
  rewrite bool_decide_true by done. cbn [c_assert]. rewrite bind_ok. apply returns_bind. eapply returns_mono.
  { apply (TryAugment_spec g Hg s C (S (RhsSize g))).
    - split; [lia | apply length_replicate |]. intros r. by rewrite (processed_rest _ _ _ Hp).
    - rewrite unseen_replicate. lia. }
  intros [[found s'] seen'] (_ & Hpost). apply IH; [lia |]. destruct found.
  - by eapply step_found.
  - destruct Hpost as (-> & Hc & Hd). eapply step_dead; [done | exact Hc |].
    intros r [?%seen_replicate | ?]%Hd; done.
Qed.

Definition maximum (g : MatchMatrix) (M : ElementMatcherPairs) : Prop :=
  forall M', matching g M' -> (List.length M' <= List.length M)%nat.

Lemma FindMaxBipartiteMatching_spec g :
  well_sized g -> FindMaxBipartiteMatching g ⇓ fun M => matching g M /\ maximum g M.
Proof.
  intros Hg. unfold FindMaxBipartiteMatching, Compute_. apply returns_bind.
  eapply returns_mono; [by apply (compute_loop_spec g _ 0), new_state_processed |].
  intros s Hp. simpl. change (collect 0 (left_ s)) with (pairs s).
  split; [apply pairs_matching, Hp |]. intros M HM. apply (processed_max _ _ _ Hp); [done |].
  intros l r Hin. by destruct (matching_edge _ _ HM l r Hin).
Qed.
