(* ===== verification/Unordered.v ===== *)
(** * What UnorderedElementsAre, IsSupersetOf and IsSubsetOf accept

    A pairing of the elements with the matchers uses no element and no matcher
    twice, and every matcher in it accepts its element.  [MatchAndExplain]
    answers whether some pairing covers all the matchers ([Superset]), all the
    elements ([Subset]) or both ([ExactMatch]). *)

From S2P Require Import Prelude Outcome CStr Bipartite MaxMatching.

(** ** The double loops *)

Lemma cells_S n m : cells (S n) m = cells n m ++ ((fun j => (n, j)) <$> seq 0 m).
Proof. unfold cells. rewrite seq_S, bind_app. simpl. by rewrite app_nil_r. Qed.

Lemma elem_of_cells n m i j : (i, j) ∈ cells n m <-> (i < n)%nat /\ (j < m)%nat.
Proof.
  unfold cells. rewrite list_elem_of_bind. setoid_rewrite list_elem_of_fmap.
  setoid_rewrite elem_of_seq. split.
  - intros (k & (y & [= -> ->] & ?) & ?). lia.
  - intros [? ?]. exists i. split; [exists j; split; [done | lia] | lia].
Qed.

Lemma cells_index g n :
  (fun '(i, j) => SpaceIndex g i j) <$> cells n (RhsSize g) = seq 0 (n * RhsSize g).
Proof.
  induction n as [| n IH]; [done |].
  rewrite cells_S, fmap_app, IH. replace (S n * RhsSize g)%nat with (n * RhsSize g + RhsSize g)%nat by lia.
  rewrite seq_app. f_equal. simpl. rewrite <- list_fmap_compose.
  rewrite <- (Nat.add_0_r (n * RhsSize g)), <- fmap_add_seq.
  apply list_fmap_ext. intros i x _. done.
Qed.

(** ** AnalyzeElements *)

Lemma set_edges_spec visits did_match g k :
  (fun '(i, j) => SpaceIndex g i j) <$> visits = seq k (List.length did_match) ->
  (k + List.length did_match = List.length (matched_ g))%nat ->
  set_edges visits did_match g =
    Ok (mkMatchMatrix (num_elements_ g) (num_matchers_ g) (take k (matched_ g) ++ did_match)).
Proof.
  revert did_match g k. induction visits as [| [i j] visits IH]; intros [| b did_match] g k Hv Hk;
    try discriminate.
  - simpl in Hk. rewrite app_nil_r, take_ge by lia. by destruct g.
  - simpl in Hv, Hk. injection Hv as Hij Hv. simpl. unfold SetEdge, HasEdge.
    destruct (lookup_lt_is_Some_2 (matched_ g) (SpaceIndex g i j)) as [x Hx]; [lia |].
    rewrite Hx. simpl. rewrite (IH did_match _ (S k)); simpl.
    + f_equal. f_equal. rewrite Hij, (take_S_r _ _ b).
      * rewrite take_insert_ge by lia. by rewrite <- app_assoc.
      * apply list_lookup_insert_eq. lia.
    + done.
    + rewrite length_insert. lia.
Qed.

Section analyze.
Context {E : Type} (print : E -> text).
Implicit Types (ms : list (E -> bool)) (es : list E).

Lemma AnalyzeElements_loop_spec ms es l printouts did :
  AnalyzeElements_loop print ms es l printouts did =
    (printouts ++ (if IsInterested l then print <$> es else []),
     did ++ (e ← es; (fun m => m e) <$> ms)).
Proof.
  revert printouts did. induction es as [| e es IH]; intros printouts did; simpl.
  { destruct (IsInterested l); by rewrite !app_nil_r. }
  rewrite IH. destruct (IsInterested l); simpl; by rewrite <- !app_assoc.
Qed.

Definition table ms es : list bool := e ← es; (fun m => m e) <$> ms.

Lemma table_length ms es : List.length (table ms es) = (List.length es * List.length ms)%nat.
Proof. induction es as [| e es IH]; simpl; [done | by rewrite length_app, length_fmap, IH]. Qed.

Lemma table_lookup ms es l r :
  (r < List.length ms)%nat ->
  table ms es !! (l * List.length ms + r)%nat = (e ← es !! l; m ← ms !! r; Some (m e)).
Proof.
  intros Hr. revert l. induction es as [| e es IH]; intros l; simpl.
  - done.
  - destruct l as [| l]; simpl.
    + rewrite lookup_app_l by by rewrite length_fmap. rewrite list_lookup_fmap. by destruct (ms !! r).
    + rewrite lookup_app_r by (rewrite length_fmap; lia). rewrite length_fmap.
      rewrite <- IH. unfold table. f_equal. lia.
Qed.

Definition matrix_of ms es : MatchMatrix :=
  mkMatchMatrix (List.length es) (List.length ms) (table ms es).

Lemma AnalyzeElements_spec ms es l :
  AnalyzeElements print ms es l =
    Ok (if IsInterested l then print <$> es else [], matrix_of ms es).
Proof.
  unfold AnalyzeElements. rewrite AnalyzeElements_loop_spec. simpl.
  rewrite (set_edges_spec _ _ _ 0).
  - done.
  - pose proof (cells_index (new_MatchMatrix (List.length es) (List.length ms)) (List.length es)) as H.
    unfold RhsSize in H. simpl in H. rewrite H. f_equal. symmetry. apply table_length.
  - simpl. rewrite length_replicate. apply table_length.
Qed.

Lemma matrix_of_sized ms es : well_sized (matrix_of ms es).
Proof. apply table_length. Qed.

Lemma matrix_of_edge ms es l r :
  edge (matrix_of ms es) l r <-> exists e m, es !! l = Some e /\ ms !! r = Some m /\ m e = true.
Proof.
  unfold edge, LhsSize, RhsSize, SpaceIndex. simpl. split.
  - intros (Hl & Hr & H). rewrite table_lookup in H by done.
    destruct (es !! l) as [e |] eqn:He; [| done]. destruct (ms !! r) as [m |] eqn:Hm; [| done].
    simpl in H. injection H as H. eauto.
  - intros (e & m & He & Hm & H). pose proof (lookup_lt_Some _ _ _ He).
    pose proof (lookup_lt_Some _ _ _ Hm). rewrite table_lookup, He, Hm by done. simpl.
    by rewrite H.
Qed.

End analyze.

(** ** VerifyMatchMatrix *)

(** The marks after some visits: a mark stays, and an edge visited is marked. *)
Definition marks (g : MatchMatrix) (visits : list (nat * nat)) (em mm : list bool)
    : list bool * list bool -> Prop := fun '(em', mm') =>
  List.length em' = List.length em /\ List.length mm' = List.length mm /\
  (forall i, em !! i = Some true -> em' !! i = Some true) /\
  (forall i, mm !! i = Some true -> mm' !! i = Some true) /\
  (forall l r, (l, r) ∈ visits -> edge g l r -> em' !! l = Some true /\ mm' !! r = Some true).

Lemma mark_stays (v : list bool) i j b x :
  v !! i = Some x -> v !! j = Some true -> <[i := x || b]> v !! j = Some true.
Proof.
  intros Hi Hj. destruct (decide (i = j)) as [-> | Hne].
  - rewrite list_lookup_insert_eq by (by eapply lookup_lt_Some).
    rewrite Hi in Hj. by injection Hj as ->.
  - by rewrite list_lookup_insert_ne.
Qed.

Lemma mark_loop_spec g visits em mm :
  well_sized g -> List.length em = LhsSize g -> List.length mm = RhsSize g ->
  (forall l r, (l, r) ∈ visits -> (l < LhsSize g)%nat /\ (r < RhsSize g)%nat) ->
  mark_loop g visits em mm ⇓ marks g visits em mm.
Proof.
  intros Hg. revert em mm. induction visits as [| [l r] visits IH]; intros em mm He Hm Hin; simpl.
  { split_and!; auto. by intros l r ?%elem_of_nil. }
  destruct (Hin l r) as [Hl Hr]; [by left |].
  destruct (HasEdge_ok g l r Hg Hl Hr) as (b & -> & Hb). simpl.
  destruct (lookup_lt_is_Some_2 em l) as [e Hel]; [lia |]. rewrite Hel. simpl.
  destruct (lookup_lt_is_Some_2 mm r) as [m Hmr]; [lia |]. rewrite Hmr. simpl.
  eapply returns_mono.
  { apply IH; [by rewrite length_insert .. |]. intros ???. apply Hin. by right. }
  intros [em' mm'] (H1 & H2 & H3 & H4 & H5). rewrite length_insert in H1, H2.
  split_and!; try done.
  - intros i Hi. apply H3. by apply mark_stays.
  - intros i Hi. apply H4. by apply mark_stays.
  - intros l' r' [[= -> ->] | Hv]%elem_of_cons Hedge; [| by apply H5].
    apply Hb in Hedge as ->. rewrite !orb_true_r in *.
    split; [apply H3 | apply H4]; apply list_lookup_insert_eq; lia.
Qed.

(** A loop that reports the unmarked ones answers [true] only without any. *)
Definition reported (v : list bool) (result : bool) (l : listener) : bool * listener -> Prop :=
  fun '(b, l') => IsInterested l' = IsInterested l /\
    (b = false -> result = false \/ false ∈ v).

Lemma IsInterested_say t l : IsInterested (say t l) = IsInterested l.
Proof. by destruct l. Qed.

Lemma reported_cons x v result l p : reported v result l p -> reported (x :: v) result l p.
Proof.
  destruct p as [b l']. intros [? H]. split; [done |].
  intros [?|?]%H; [by left | right; by right].
Qed.

Lemma reported_false v result l l1 p :
  IsInterested l1 = IsInterested l -> reported v false l1 p -> reported (false :: v) result l p.
Proof.
  destruct p as [b l']. intros Hl [? _]. split; [congruence |]. intros _. right. by left.
Qed.

Lemma unmatched_matchers_spec ds mi sep v result l :
  (mi + List.length v <= List.length ds)%nat ->
  unmatched_matchers ds mi sep v result l ⇓ reported v result l.
Proof.
  revert mi sep result l. induction v as [| [] v IH]; intros mi sep result l Hmi; simpl in *.
  - split; [done | by left].
  - eapply returns_mono; [apply IH; lia | apply reported_cons].
  - destruct (IsInterested l) eqn:Hl.
    + destruct (lookup_lt_is_Some_2 ds mi) as [d Hd]; [lia |]. rewrite Hd. simpl.
      eapply returns_mono; [apply IH; lia | intros p; apply reported_false, IsInterested_say].
    + eapply returns_mono; [apply IH; lia | intros p; by apply reported_false].
Qed.

Lemma unmatched_elements_spec ps ei osep sep v result l :
  (IsInterested l = true -> (ei + List.length v <= List.length ps)%nat) ->
  unmatched_elements ps ei osep sep v result l ⇓ reported v result l.
Proof.
  revert ei osep sep result l.
  induction v as [| [] v IH]; intros ei osep sep result l Hei; simpl in *.
  - split; [done | by left].
  - eapply returns_mono; [apply IH; intros H%Hei; lia | apply reported_cons].
  - destruct (IsInterested l) eqn:Hl.
    + specialize (Hei eq_refl).
      destruct (lookup_lt_is_Some_2 ps ei) as [d Hd]; [lia |]. rewrite Hd. simpl.
      eapply returns_mono; [apply IH; lia | intros p; apply reported_false, IsInterested_say].
    + eapply returns_mono; [apply IH; congruence | intros p; by apply reported_false].
Qed.

(** Every node of a side that the flags ask for is on an edge. *)
Definition covers (f : Flags) (g : MatchMatrix) (M : ElementMatcherPairs) : Prop :=
  (has_Superset f = true -> forall r, (r < RhsSize g)%nat -> r ∈ M.*2) /\
  (has_Subset f = true -> forall l, (l < LhsSize g)%nat -> l ∈ M.*1).

Lemma length_range M n : NoDup M -> (forall x : nat, x ∈ M -> (x < n)%nat) -> (List.length M <= n)%nat.
Proof.
  intros Hn Hr. rewrite <- (length_seq n 0). apply submseteq_length, NoDup_submseteq; [done |].
  intros x Hx. apply elem_of_seq. specialize (Hr x Hx). lia.
Qed.

Lemma full_range M n :
  NoDup M -> (forall x : nat, x ∈ M -> (x < n)%nat) ->
  (forall x, (x < n)%nat -> x ∈ M) <-> List.length M = n.
Proof.
  intros Hn Hr. split.
  - intros Hall. apply Nat.le_antisymm; [by apply length_range |].
    rewrite <- (length_seq n 0) at 1. apply submseteq_length, NoDup_submseteq; [apply NoDup_seq |].
    intros x Hx%elem_of_seq. apply Hall. lia.
  - intros Hlen x Hx. assert (Hp : M ≡ₚ seq 0 n).
    { apply submseteq_length_Permutation; [| by rewrite length_seq, Hlen].
      apply NoDup_submseteq; [done |]. intros y Hy. apply elem_of_seq. specialize (Hr y Hy). lia. }
    rewrite Hp. apply elem_of_seq. lia.
Qed.

Lemma matching_left_length g M : matching g M -> (List.length M <= LhsSize g)%nat.
Proof.
  intros HM. rewrite <- (length_fmap fst). apply length_range; [apply HM |].
  intros l ([l' r] & -> & Hin)%list_elem_of_fmap. by destruct (matching_edge _ _ HM l' r Hin).
Qed.

Lemma covers_length f g M :
  matching g M -> covers f g M <->
  (has_Superset f = true -> List.length M = RhsSize g) /\
  (has_Subset f = true -> List.length M = LhsSize g).
Proof.
  intros HM. unfold covers.
  assert (HL : (forall l, (l < LhsSize g)%nat -> l ∈ M.*1) <-> List.length M = LhsSize g).
  { rewrite (full_range _ _ (matching_left _ _ HM)), length_fmap; [done |].
    intros l ([l' r] & -> & Hin)%list_elem_of_fmap. by destruct (matching_edge _ _ HM l' r Hin). }
  assert (HR : (forall r, (r < RhsSize g)%nat -> r ∈ M.*2) <-> List.length M = RhsSize g).
  { rewrite (full_range _ _ (matching_right _ _ HM)), length_fmap; [done |].
    intros r ([l r'] & -> & Hin)%list_elem_of_fmap. by destruct (matching_edge _ _ HM l r' Hin) as (_ & ? & _). }
  tauto.
Qed.

(** A negative answer of VerifyMatchMatrix is right; a positive one is only a
    filter for FindPairing. *)
Lemma VerifyMatchMatrix_spec f ds ps g l :
  well_sized g -> List.length ds = RhsSize g ->
  (IsInterested l = true -> List.length ps = LhsSize g) ->
  VerifyMatchMatrix f ds ps g l ⇓ fun '(b, l') =>
    IsInterested l' = IsInterested l /\
    (b = false -> forall M, matching g M -> ~ covers f g M).
Proof.
  intros Hg Hds Hps. unfold VerifyMatchMatrix.
  destruct (_ && _); [done |].
  set (discrepancy := is_ExactMatch f && negb (LhsSize g =? RhsSize g)%nat).
  set (l0 := if discrepancy && _ && _ then _ else l).
  assert (Hl0 : IsInterested l0 = IsInterested l).
  { unfold l0. destruct (discrepancy && _ && _); [apply IsInterested_say | done]. }
  assert (Hdis : negb discrepancy = false -> forall M, matching g M -> ~ covers f g M).
  { unfold discrepancy. intros H M HM [H1 H2]%(covers_length _ _ _ HM).
    destruct f; try done. simpl in *. specialize (H1 eq_refl). specialize (H2 eq_refl).
    apply negb_false_iff, negb_true_iff, Nat.eqb_neq in H. congruence. }
  apply returns_bind. eapply returns_mono.
  { apply (mark_loop_spec g); [done | by rewrite length_replicate .. |].
    intros ???%elem_of_cells. done. }
  intros [em mm] (He & Hm & _ & _ & Hmark). rewrite length_replicate in He, Hm.
  assert (HnoL : false ∈ em -> has_Subset f = true -> forall M, matching g M -> ~ covers f g M).
  { intros (i & Hi)%list_elem_of_lookup Hf M HM [_ Hc].
    assert (Hlt : (i < LhsSize g)%nat) by (rewrite <- He; by eapply lookup_lt_Some).
    apply (Hc Hf) in Hlt as ([l' r] & -> & Hin)%list_elem_of_fmap.
    pose proof (matching_edge _ _ HM _ _ Hin) as Hedge.
    destruct (Hmark l' r); [| done | simpl in *; congruence].
    apply elem_of_cells. by destruct Hedge as (? & ? & _). }
  assert (HnoR : false ∈ mm -> has_Superset f = true -> forall M, matching g M -> ~ covers f g M).
  { intros (i & Hi)%list_elem_of_lookup Hf M HM [Hc _].
    assert (Hlt : (i < RhsSize g)%nat) by (rewrite <- Hm; by eapply lookup_lt_Some).
    apply (Hc Hf) in Hlt as ([l' r] & -> & Hin)%list_elem_of_fmap.
    pose proof (matching_edge _ _ HM _ _ Hin) as Hedge.
    destruct (Hmark l' r); [| done | simpl in *; congruence].
    apply elem_of_cells. by destruct Hedge as (? & ? & _). }
  apply returns_bind. eapply (returns_mono _ (fun '(b, l') => IsInterested l' = IsInterested l /\
    (b = false -> forall M, matching g M -> ~ covers f g M))).
  { destruct (has_Superset f) eqn:Hf; [| done].
    eapply returns_mono; [apply unmatched_matchers_spec; simpl; lia |].
    intros [b l'] [Hl' Hb]. split; [congruence |]. intros [?|?]%Hb; auto. }
  intros [b l1] [Hl1 Hb]. destruct (has_Subset f) eqn:Hf; [| done].
  eapply returns_mono.
  { apply unmatched_elements_spec. rewrite Hl1. intros H%Hps. simpl. lia. }
  intros [b' l'] [Hl' Hb']. split; [congruence |]. intros [?|?]%Hb'; auto.
Qed.

Lemma FindPairing_spec f g l :
  well_sized g ->
  FindPairing f g l ⇓ fun '(b, _) => b = true <-> exists M, matching g M /\ covers f g M.
Proof.
  intros Hg. unfold FindPairing. apply returns_bind.
  eapply returns_mono; [by apply FindMaxBipartiteMatching_spec |].
  intros M [HM Hmax]. pose proof (matching_left_length g M HM) as HL.
  assert (HR : (List.length M <= RhsSize g)%nat).
  { rewrite <- (length_fmap snd). apply length_range; [apply HM |].
    intros r ([l' r'] & -> & Hin)%list_elem_of_fmap.
    by destruct (matching_edge _ _ HM l' r' Hin) as (_ & ? & _). }
  assert (Hcov : (exists M, matching g M /\ covers f g M) <-> covers f g M).
  { split; [| eauto]. intros (M' & HM' & Hc). specialize (Hmax M' HM').
    apply (covers_length _ _ _ HM') in Hc as [H1 H2]. apply (covers_length _ _ _ HM).
    split; intros Hf; [specialize (H1 Hf) | specialize (H2 Hf)]; lia. }
  assert (Hiff : covers f g M <->
    has_Superset f && (List.length M <? RhsSize g)%nat = false /\
    has_Subset f && (List.length M <? LhsSize g)%nat = false).
  { rewrite (covers_length _ _ _ HM), !andb_false_iff, !Nat.ltb_ge.
    destruct (has_Superset f), (has_Subset f); naive_solver lia. }
  destruct (has_Superset f && _) eqn:E1; simpl.
  { rewrite Hcov, Hiff. naive_solver. }
  destruct (has_Subset f && _) eqn:E2; simpl.
  { rewrite Hcov, Hiff. naive_solver. }
  destruct (1 <? _)%nat; simpl; rewrite Hcov, Hiff; naive_solver.
Qed.

(** ** Pairings as lists of values

    [M] pairs indices of [la] with indices of [lb]. *)

Section assign.
Context {A B : Type} (R : A -> B -> Prop).
Implicit Types (la : list A) (lb : list B) (M : list (nat * nat)).

Record assigns la lb M : Prop := {
  assigns_pair i j : (i, j) ∈ M -> exists a b, la !! i = Some a /\ lb !! j = Some b /\ R a b;
  assigns_left : NoDup M.*1;
  assigns_right : NoDup M.*2;
}.

Lemma omap_seq la : omap (la !!.) (seq 0 (List.length la)) = la.
Proof.
  induction la as [| a la IH] using rev_ind; [done |].
  rewrite length_app, Nat.add_1_r, seq_S, omap_app. simpl.
  rewrite list_lookup_middle by done. f_equal. rewrite <- IH at 2.
  apply list_omap_ext, Forall2_same_length_lookup_2; [done |].
  intros i x y Hx Hy. assert (x = y) as -> by congruence.
  apply lookup_seq in Hy as [-> Hlt]. simpl. rewrite lookup_app_l by lia. done.
Qed.

(** Indices without a repetition pick a part of the list. *)
Lemma omap_part la (is_ : list nat) :
  NoDup is_ -> (forall i, i ∈ is_ -> (i < List.length la)%nat) -> omap (la !!.) is_ ⊆+ la.
Proof.
  intros Hn Hr. assert (Hs : is_ ⊆+ seq 0 (List.length la)).
  { apply NoDup_submseteq; [done |]. intros i Hi%Hr. apply elem_of_seq. lia. }
  apply submseteq_Permutation in Hs as [k Hk].
  trans (omap (la !!.) (seq 0 (List.length la))); [| by rewrite omap_seq].
  rewrite Hk, omap_app. by apply submseteq_inserts_r.
Qed.

Lemma assigns_Permutation la lb M M' : M ≡ₚ M' -> assigns la lb M -> assigns la lb M'.
Proof.
  intros HP [Hp Hl Hr]. split; [intros i j; rewrite <- HP; auto | by rewrite <- HP ..].
Qed.

Lemma assigns_Forall2 la lb M k :
  assigns la lb M -> M.*2 = seq k (List.length (drop k lb)) ->
  Forall2 R (omap (la !!.) M.*1) (drop k lb).
Proof.
  intros [Hp _ _]. revert k. induction M as [| [i j] M IH]; intros k Hk; simpl in *.
  { destruct (drop k lb); [constructor | done]. }
  destruct (Hp i j) as (a & b & Ha & Hb & Hab); [by left |].
  destruct (drop k lb) as [| b' rest] eqn:Hd; [done |]. simpl in Hk. injection Hk as -> Hk.
  rewrite Ha. apply drop_S in Hb as Hd'. rewrite Hd in Hd'. injection Hd' as <- ->.
  constructor; [done |]. apply IH; [| done]. intros i' j' Hin. apply Hp. by right.
Qed.

Lemma assigns_iff la lb :
  (exists M, assigns la lb M /\ forall j, (j < List.length lb)%nat -> j ∈ M.*2) <->
  exists la', la' ⊆+ la /\ Forall2 R la' lb.
Proof.
  split.
  - intros (M & HM & Hc).
    assert (HP : seq 0 (List.length lb) ≡ₚ M.*2).
    { apply NoDup_Permutation; [apply NoDup_seq | apply HM |]. intros j. rewrite elem_of_seq.
      split; [intros ?; apply Hc; lia |].
      intros ([i j'] & -> & Hin)%list_elem_of_fmap.
      destruct (assigns_pair _ _ _ HM i j' Hin) as (? & b & _ & Hb%lookup_lt_Some & _). simpl. lia. }
    apply Permutation_map_inv in HP as (M' & HM' & HP).
    pose proof (assigns_Permutation _ _ _ _ HP HM) as H'.
    exists (omap (la !!.) M'.*1). split.
    + apply omap_part; [apply H' |]. intros i ([i' j] & -> & Hin)%list_elem_of_fmap.
      destruct (assigns_pair _ _ _ H' i' j Hin) as (a & ? & Ha%lookup_lt_Some & _). done.
    + apply (assigns_Forall2 la lb M' 0); done.
  - intros (la' & Hs & HF). apply submseteq_Permutation in Hs as [k Hk].
    symmetry in Hk. apply Permutation_inj in Hk as (_ & f & Hf & Hlook).
    exists ((fun j => (f j, j)) <$> seq 0 (List.length lb)). split; [split |].
    + intros i j (j' & [= -> ->] & Hj%elem_of_seq)%list_elem_of_fmap.
      destruct (lookup_lt_is_Some_2 lb j') as [b Hb]; [lia |].
      destruct (Forall2_lookup_r _ _ _ _ _ HF Hb) as (a & Ha & Hab).
      exists a, b. rewrite <- Hlook, lookup_app_l by (by eapply lookup_lt_Some). done.
    + rewrite <- list_fmap_compose. apply NoDup_fmap_2; [intros x y; apply Hf | apply NoDup_seq].
    + rewrite <- list_fmap_compose. apply NoDup_fmap_2; [by intros x y | apply NoDup_seq].
    + intros j Hj. rewrite <- list_fmap_compose. apply list_elem_of_fmap.
      exists j. split; [done | apply elem_of_seq; lia].
Qed.

End assign.

Lemma fmap_swap {A B} (M : list (A * B)) : (prod_swap <$> M).*1 = M.*2 /\ (prod_swap <$> M).*2 = M.*1.
Proof. by split; rewrite <- list_fmap_compose; apply list_fmap_ext; intros ? []. Qed.

Lemma assigns_swap {A B} (R : A -> B -> Prop) la lb M :
  assigns R la lb M -> assigns (flip R) lb la (prod_swap <$> M).
Proof.
  intros [Hp Hl Hr]. destruct (fmap_swap M) as [H1 H2]. split.
  - intros j i ([i' j'] & [= -> ->] & Hin)%list_elem_of_fmap.
    destruct (Hp _ _ Hin) as (a & b & Ha & Hb & Hab). by exists b, a.
  - exact (eq_ind_r NoDup Hr H1).
  - exact (eq_ind_r NoDup Hl H2).
Qed.

(** ** What the matchers promise *)

Definition accepts {E} (e : E) (m : E -> bool) : Prop := m e = true.

Definition satisfied {E} (f : Flags) (ms : list (E -> bool)) (es : list E) : Prop :=
  match f with
  | ExactMatch => exists ms', ms ≡ₚ ms' /\ Forall2 accepts es ms'
  | Superset => exists es', es' ⊆+ es /\ Forall2 accepts es' ms
  | Subset => exists ms', ms' ⊆+ ms /\ Forall2 (flip accepts) ms' es
  end.

Section satisfied.
Context {E : Type}.
Implicit Types (ms : list (E -> bool)) (es : list E).

Lemma matching_assigns ms es M : matching (matrix_of ms es) M <-> assigns accepts es ms M.
Proof.
  split; intros [H1 H2 H3]; split; try done; intros l r Hin; by apply matrix_of_edge, H1.
Qed.

Lemma covers_left ms es :
  (exists M, matching (matrix_of ms es) M /\ forall l, (l < List.length es)%nat -> l ∈ M.*1) <->
  exists ms', ms' ⊆+ ms /\ Forall2 (flip accepts) ms' es.
Proof.
  rewrite <- assigns_iff. split; intros (M & HM & Hc); exists (prod_swap <$> M);
    destruct (fmap_swap M) as [H1 H2].
  - split; [apply assigns_swap; by apply matching_assigns |].
    intros j Hj. rewrite H2. auto.
  - split; [apply matching_assigns; exact (assigns_swap _ _ _ _ HM) |].
    intros j Hj. apply (eq_ind_r (fun l => j ∈ l) (Hc j Hj) H1).
Qed.

Lemma covers_satisfied f ms es :
  (exists M, matching (matrix_of ms es) M /\ covers f (matrix_of ms es) M) <-> satisfied f ms es.
Proof.
  destruct f; simpl.
  - rewrite <- assigns_iff. unfold covers. simpl.
    split; intros (M & HM & Hc); exists M; (split; [by apply matching_assigns | naive_solver]).
  - rewrite <- covers_left. unfold covers. simpl.
    split; intros (M & HM & Hc); exists M; (split; [done | naive_solver]).
  - split.
    + intros (M & HM & Hc).
      pose proof (proj1 (covers_length _ _ _ HM) Hc) as [H1 H2].
      specialize (H1 eq_refl). specialize (H2 eq_refl). destruct Hc as [_ Hc].
      destruct (proj1 (covers_left ms es)) as (ms' & Hs & HF); [eauto |].
      exists ms'. split; [| by apply Forall2_flip].
      symmetry. apply submseteq_length_Permutation; [done |].
      rewrite (Forall2_length _ _ _ HF). change (RhsSize _) with (List.length ms) in H1.
      change (LhsSize _) with (List.length es) in H2. lia.
    + intros (ms' & HP & HF). pose proof (Forall2_length _ _ _ HF) as Hlen.
      destruct (proj2 (covers_left ms es)) as (M & HM & Hc).
      { exists ms'. split; [by rewrite HP | by apply Forall2_flip]. }
      exists M. split; [done |]. apply (covers_length ExactMatch _ M HM).
      assert (HL : List.length M = LhsSize (matrix_of ms es)).
      { apply (covers_length Subset _ M HM); [| done]. split; [done | intros _; exact Hc]. }
      split; intros _; [| done]. rewrite HL. unfold LhsSize, RhsSize. simpl.
      by rewrite Hlen, <- (Permutation_length HP).
Qed.

End satisfied.

(** ** The matcher as a whole *)

Lemma MatchAndExplain_decides {E : Type} (print : E -> text) (f : Flags) (ds : list Describer)
    (ms : list (E -> bool)) (es : list E) (l : listener) : List.length ds = List.length ms ->
  exists b l', MatchAndExplain print f ds ms es l = Ok (b, l') /\ (b = true <-> satisfied f ms es).
Proof.
  intros Hds.
  unfold MatchAndExplain. rewrite AnalyzeElements_spec, bind_ok.
  assert (H : (('(verified, l) ← VerifyMatchMatrix f ds (if IsInterested l then print <$> es else [])
                                    (matrix_of ms es) l;
               if verified : bool then FindPairing f (matrix_of ms es) l else Ok (false, l))
              ⇓ fun '(b, _) => b = true <-> satisfied f ms es)).
  { apply returns_bind. eapply returns_mono.
    { apply VerifyMatchMatrix_spec; [apply matrix_of_sized | done |].
      intros ->. by rewrite length_fmap. }
    intros [verified l1] [_ Hv]. destruct verified.
    - eapply returns_mono; [apply FindPairing_spec, matrix_of_sized |].
      intros [b l2]. by rewrite covers_satisfied.
    - simpl. split; [done |]. intros (M & HM & Hc)%covers_satisfied.
      by destruct (Hv eq_refl M HM). }
  apply returns_iff in H as ([b l'] & Heq & H). by exists b, l'.
Qed.
