(* ===== verification/Assertions.v ===== *)
(** * Assertions (gtest.cc, gtest.h, gtest-assertion-result.h, gtest-internal.h)

    The predicates behind EXPECT_EQ, EXPECT_STREQ, EXPECT_NEAR, EXPECT_DOUBLE_EQ
    and their kin, and the messages they make.  A floating point number is known
    by its bits, as [FloatingPoint] sees it, and its value is a [spec_float];
    how numbers and values of other types are printed is a parameter. *)

From Stdlib Require Import SpecFloat.
From S2P Require Import Prelude Outcome Common CStr EditDistance Printers TestResult.

(** ** Messages and results *)

(** What [Message << s] shows of a C string. *)
Definition show_c_str (s : option text) : text :=
  match s with None => str "(null)" | Some s => c_str s end.

Record AssertionResult : Type := mkAssertionResult { success_ : bool; message_ : option text }.

Definition AssertionSuccess : AssertionResult := mkAssertionResult true None.
Definition AssertionFailure : AssertionResult := mkAssertionResult false None.

(** [operator<<] with a value that prints as the text. *)
Definition AppendMessage (r : AssertionResult) (a_message : text) : AssertionResult :=
  mkAssertionResult (success_ r) (Some (default [] (message_ r) ++ c_str (StringStreamToString a_message))).

Definition message (r : AssertionResult) : text := c_str (default [] (message_ r)).

(** [operator!]. *)
Definition negation (r : AssertionResult) : AssertionResult :=
  match message_ r with
  | None => mkAssertionResult (negb (success_ r)) None
  | Some m => AppendMessage (mkAssertionResult (negb (success_ r)) None) m
  end.

Definition ShouldEmitStackTraceForResultType (type : TestPartType) : bool :=
  match type with kSuccess | kSkip => false | _ => true end.

Definition GetBoolAssertionFailureMessage (assertion_result : AssertionResult)
    (expression_text actual_predicate_value expected_predicate_value : text) : text :=
  let actual_message := message assertion_result in
  StringStreamToString
    (str "Value of: " ++ expression_text ++ LF :: str "  Actual: " ++ actual_predicate_value ++
     (if bool_decide (actual_message = []) then [] else str " (" ++ actual_message ++ str ")") ++
     LF :: str "Expected: " ++ expected_predicate_value).

(** ** Equality *)

(** The loop of [SplitEscapedString]; [line] is what has been read of the line,
    in reverse, without a backslash that is pending ([escaped]). *)
Fixpoint split_escaped (s : text) (line : text) (escaped : bool) : list text :=
  match s with
  | [] => [rev line]
  | [c] => [rev (c :: line)]
  | c :: s =>
      if escaped then
        if bool_decide (c = "n"%char) then rev (tail line) :: split_escaped s [] false
        else split_escaped s (c :: line) false
      else split_escaped s (c :: line) (bool_decide (c = backslash))
  end.
Definition unquoted (s : text) : text :=
  match s with
  | c :: r => if (2 <? length s)%nat && bool_decide (c = quote) && bool_decide (last s = Some quote)
              then removelast r else s
  | [] => []
  end.
Definition SplitEscapedString (s : text) : list text := split_escaped (unquoted s) [] false.

Definition with_diff_context : nat := 2.

Definition EqFailure (lhs_expression rhs_expression lhs_value rhs_value : text) (ignoring_case : bool)
    : outcome AssertionResult :=
  let which (value expression : text) :=
    if bool_decide (value = expression) then [] else LF :: str "    Which is: " ++ value in
  let msg := str "Expected equality of these values:" ++
             LF :: str "  " ++ lhs_expression ++ which lhs_value lhs_expression ++
             LF :: str "  " ++ rhs_expression ++ which rhs_value rhs_expression ++
             (if ignoring_case then LF :: str "Ignoring case" else []) in
  let lhs_lines := SplitEscapedString lhs_value in
  let rhs_lines := SplitEscapedString rhs_value in
  diff ← (if negb (bool_decide (lhs_value = [])) && negb (bool_decide (rhs_value = [])) &&
             ((1 <? length lhs_lines)%nat || (1 <? length rhs_lines)%nat)
          then d ← CreateUnifiedDiff lhs_lines rhs_lines with_diff_context;
               Ok (LF :: str "With diff:" ++ LF :: d)
          else Ok []);
  Ok (AppendMessage AssertionFailure (StringStreamToString (msg ++ diff))).

(** Values of any types: [==], and [FormatForComparisonFailureMessage]. *)
Definition CmpHelperEQ {T1 T2} (equal : T1 -> T2 -> bool) (format1 : T1 -> T2 -> text)
    (format2 : T2 -> T1 -> text) (lhs_expression rhs_expression : text) (lhs : T1) (rhs : T2)
    : outcome AssertionResult :=
  if equal lhs rhs then Ok AssertionSuccess
  else EqFailure lhs_expression rhs_expression (format1 lhs rhs) (format2 rhs lhs) false.

(** [CmpHelperNE], [LE], [LT], [GE], [GT], by their operator. *)
Definition CmpHelperOp {T1 T2} (op : text) (holds : T1 -> T2 -> bool) (format1 : T1 -> T2 -> text)
    (format2 : T2 -> T1 -> text) (expr1 expr2 : text) (val1 : T1) (val2 : T2) : AssertionResult :=
  if holds val1 val2 then AssertionSuccess
  else AppendMessage AssertionFailure
         (str "Expected: (" ++ expr1 ++ str ") " ++ op ++ str " (" ++ expr2 ++ str "), actual: " ++
          format1 val1 val2 ++ str " vs " ++ format2 val2 val1).

(** ** C strings *)

(** [PrintToString] of a [const char*], for the flag [--gtest_print_utf8]. *)
Definition PrintToString_c_str (print_utf8 : bool) (s : option text) : text :=
  match s with None => str "NULL" | Some s => PrintStringTo print_utf8 (c_str s) end.

Definition CmpHelperSTREQ (print_utf8 : bool) (lhs_expression rhs_expression : text)
    (lhs rhs : option text) : outcome AssertionResult :=
  if Gtest_String.CStringEquals lhs rhs then Ok AssertionSuccess
  else EqFailure lhs_expression rhs_expression (PrintToString_c_str print_utf8 lhs)
         (PrintToString_c_str print_utf8 rhs) false.

Definition CmpHelperSTRCASEEQ (print_utf8 : bool) (lhs_expression rhs_expression : text)
    (lhs rhs : option text) : outcome AssertionResult :=
  if Gtest_String.CaseInsensitiveCStringEquals lhs rhs then Ok AssertionSuccess
  else EqFailure lhs_expression rhs_expression (PrintToString_c_str print_utf8 lhs)
         (PrintToString_c_str print_utf8 rhs) true.

Definition CmpHelperSTRNE (s1_expression s2_expression : text) (s1 s2 : option text) : AssertionResult :=
  if negb (Gtest_String.CStringEquals s1 s2) then AssertionSuccess
  else AppendMessage AssertionFailure
         (str "Expected: (" ++ s1_expression ++ str ") != (" ++ s2_expression ++ str "), actual: " ++
          quote :: show_c_str s1 ++ quote :: str " vs " ++ quote :: show_c_str s2 ++ [quote]).

Definition CmpHelperSTRCASENE (s1_expression s2_expression : text) (s1 s2 : option text)
    : AssertionResult :=
  if negb (Gtest_String.CaseInsensitiveCStringEquals s1 s2) then AssertionSuccess
  else AppendMessage AssertionFailure
         (str "Expected: (" ++ s1_expression ++ str ") != (" ++ s2_expression ++
          str ") (ignoring case), actual: " ++
          quote :: show_c_str s1 ++ quote :: str " vs " ++ quote :: show_c_str s2 ++ [quote]).

(** ** Substrings *)

Section substring.
(** Characters, narrow or wide, the NUL character among them, and how a string
    of them is streamed. *)
Context {A : Type} `{!EqDecision A} (is_wide_string : bool) (nul : A).

(** What a function of C sees of a string. *)
Fixpoint up_to_nul (s : list A) : list A :=
  match s with
  | [] => []
  | c :: s => if bool_decide (c = nul) then [] else c :: up_to_nul s
  end.

Fixpoint starts_with (needle haystack : list A) : bool :=
  match needle, haystack with
  | [], _ => true
  | _, [] => false
  | c :: needle, d :: haystack => if bool_decide (c = d) then starts_with needle haystack else false
  end.

(** [strstr], [wcsstr] and [find]: whether there is an occurrence. *)
Fixpoint occurs (needle haystack : list A) : bool :=
  starts_with needle haystack ||
  match haystack with
  | [] => false
  | _ :: haystack => occurs needle haystack
  end.

(** The overloads for pointers, which may be null, and for strings. *)
Definition IsSubstringPred_ptr (needle haystack : option (list A)) : bool :=
  match needle, haystack with
  | Some needle, Some haystack => occurs (up_to_nul needle) (up_to_nul haystack)
  | None, None => true
  | _, _ => false
  end.
Definition IsSubstringPred_string (needle haystack : list A) : bool := occurs needle haystack.

Definition IsSubstringImpl {StringType : Type} (pred : StringType -> StringType -> bool)
    (show : StringType -> text) (expected_to_be_substring : bool) (needle_expr haystack_expr : text)
    (needle haystack : StringType) : AssertionResult :=
  if Bool.eqb (pred needle haystack) expected_to_be_substring then AssertionSuccess
  else
    let begin_string_quote := (if is_wide_string then str "L" else []) ++ [quote] in
    AppendMessage AssertionFailure
      (str "Value of: " ++ needle_expr ++ LF ::
       str "  Actual: " ++ begin_string_quote ++ show needle ++ quote :: LF ::
       str "Expected: " ++ (if expected_to_be_substring then [] else str "not ") ++
       str "a substring of " ++ haystack_expr ++ LF ::
       str "Which is: " ++ begin_string_quote ++ show haystack ++ [quote]).

Definition IsSubstring {StringType : Type} (pred : StringType -> StringType -> bool)
    (show : StringType -> text) : text -> text -> StringType -> StringType -> AssertionResult :=
  IsSubstringImpl pred show true.
Definition IsNotSubstring {StringType : Type} (pred : StringType -> StringType -> bool)
    (show : StringType -> text) : text -> text -> StringType -> StringType -> AssertionResult :=
  IsSubstringImpl pred show false.

End substring.

(** ** Floating point numbers *)

(** [FloatingPoint<RawType>]: a type with [digits] binary digits and [kBitCount]
    bits.  The masks are written out with the operations of the code, on
    unsigned numbers of this width. *)
Record RawType : Type := mkRawType { kBitCount : Z; digits_ : Z }.
Definition Float : RawType := mkRawType 32 24.
Definition Double : RawType := mkRawType 64 53.

Section floating_point.
Context (R : RawType).

Definition Bits (z : Z) : Z := z mod 2 ^ kBitCount R.
Definition bits_not (z : Z) : Z := Bits (Z.lnot z).

Definition kFractionBitCount : Z := digits_ R - 1.
Definition kExponentBitCount : Z := kBitCount R - 1 - kFractionBitCount.
Definition kSignBitMask : Z := Bits (Z.shiftl 1 (kBitCount R - 1)).
Definition kFractionBitMask : Z := Z.shiftr (bits_not 0) (kExponentBitCount + 1).
Definition kExponentBitMask : Z := bits_not (Z.lor kSignBitMask kFractionBitMask).
Definition kMaxUlps : Z := 4.

Definition exponent_bits (bits : Z) : Z := Z.land kExponentBitMask bits.
Definition fraction_bits (bits : Z) : Z := Z.land kFractionBitMask bits.
Definition sign_bit (bits : Z) : Z := Z.land kSignBitMask bits.
Definition Infinity : Z := kExponentBitMask.

Definition is_nan (bits : Z) : bool :=
  (exponent_bits bits =? kExponentBitMask) && negb (fraction_bits bits =? 0).

Definition SignAndMagnitudeToBiased (sam : Z) : Z :=
  if negb (Z.land kSignBitMask sam =? 0) then Bits (bits_not sam + 1)
  else Z.lor kSignBitMask sam.

Definition DistanceBetweenSignAndMagnitudeNumbers (sam1 sam2 : Z) : Z :=
  let biased1 := SignAndMagnitudeToBiased sam1 in
  let biased2 := SignAndMagnitudeToBiased sam2 in
  if biased2 <=? biased1 then Bits (biased1 - biased2) else Bits (biased2 - biased1).

Definition AlmostEquals (bits rhs : Z) : bool :=
  if is_nan bits || is_nan rhs then false
  else DistanceBetweenSignAndMagnitudeNumbers bits rhs <=? kMaxUlps.

(** The number that bits represent, in the interchange format of IEEE 754. *)
Definition emax_ : Z := 2 ^ (kExponentBitCount - 1).
Definition value_of (bits : Z) : spec_float :=
  let s := negb (sign_bit bits =? 0) in
  let e := Z.shiftr (exponent_bits bits) kFractionBitCount in
  let f := fraction_bits bits in
  if e =? 2 ^ kExponentBitCount - 1 then
    if f =? 0 then S754_infinity s else S754_nan
  else if e =? 0 then
    match f with Zpos m => S754_finite s m (emin (digits_ R) emax_) | _ => S754_zero s end
  else match f + 2 ^ kFractionBitCount with
       | Zpos m => S754_finite s m (e - 1 + emin (digits_ R) emax_)
       | _ => S754_nan
       end.

Definition less (bits rhs : Z) : bool := SFltb (value_of bits) (value_of rhs).

(** How a number is printed with [digits10 + 2] digits. *)
Variable print : Z -> text.

Definition CmpHelperFloatingPointEQ (lhs_expression rhs_expression : text) (lhs_value rhs_value : Z)
    : outcome AssertionResult :=
  if AlmostEquals lhs_value rhs_value then Ok AssertionSuccess
  else EqFailure lhs_expression rhs_expression (StringStreamToString (print lhs_value))
         (StringStreamToString (print rhs_value)) false.

(** [FloatLE] and [DoubleLE]. *)
Definition FloatingPointLE (expr1 expr2 : text) (val1 val2 : Z) : AssertionResult :=
  if less val1 val2 then AssertionSuccess
  else if AlmostEquals val1 val2 then AssertionSuccess
  else AppendMessage AssertionFailure
         (str "Expected: (" ++ expr1 ++ str ") <= (" ++ expr2 ++ str ")" ++ LF ::
          str "  Actual: " ++ StringStreamToString (print val1) ++ str " vs " ++
          StringStreamToString (print val2)).

End floating_point.

(** ** EXPECT_NEAR *)

Section near.
(** How a [double] is streamed. *)
Variable print : spec_float -> text.
Abbreviation sub := (SFsub 53 1024).
Definition isnan (x : spec_float) : bool := match x with S754_nan => true | _ => false end.

Definition DoubleNearPredFormat (expr1 expr2 abs_error_expr : text) (val1 val2 abs_error : spec_float)
    : AssertionResult :=
  let diff := SFabs (sub val1 val2) in
  if SFleb diff abs_error then AssertionSuccess
  else
    let min_abs := if SFltb (SFabs val2) (SFabs val1) then SFabs val2 else SFabs val1 in
    let epsilon := sub (SFsucc 53 1024 min_abs) min_abs in
    if negb (isnan val1) && negb (isnan val2) && SFltb (S754_zero false) abs_error &&
       SFltb abs_error epsilon then
      AppendMessage AssertionFailure
        (str "The difference between " ++ expr1 ++ str " and " ++ expr2 ++ str " is " ++ print diff ++
         str ", where" ++ LF :: expr1 ++ str " evaluates to " ++ print val1 ++ str "," ++ LF ::
         expr2 ++ str " evaluates to " ++ print val2 ++ str "." ++ LF :: str "The abs_error parameter " ++
         abs_error_expr ++ str " evaluates to " ++ print abs_error ++
         str " which is smaller than the minimum distance between doubles for " ++
         str "numbers of this magnitude which is " ++ print epsilon ++
         str ", thus making this EXPECT_NEAR check equivalent to " ++
         str "EXPECT_EQUAL. Consider using EXPECT_DOUBLE_EQ instead.")
    else
      AppendMessage AssertionFailure
        (str "The difference between " ++ expr1 ++ str " and " ++ expr2 ++ str " is " ++ print diff ++
         str ", which exceeds " ++ abs_error_expr ++ str ", where" ++ LF ::
         expr1 ++ str " evaluates to " ++ print val1 ++ str "," ++ LF ::
         expr2 ++ str " evaluates to " ++ print val2 ++ str ", and" ++ LF ::
         abs_error_expr ++ str " evaluates to " ++ print abs_error ++ str ".").
End near.

(** ** Lemmas: splitting and substrings *)

Definition ESCAPED_LF : text := [backslash; "n"%char].

Lemma split_escaped_step c d s line escaped : split_escaped (c :: d :: s) line escaped =
  if escaped then
    if bool_decide (c = "n"%char) then rev (tail line) :: split_escaped (d :: s) [] false
    else split_escaped (d :: s) (c :: line) false
  else split_escaped (d :: s) (c :: line) (bool_decide (c = backslash)).
Proof. done. Qed.

Lemma split_escaped_nonempty s line escaped : split_escaped s line escaped <> [].
Proof.
  revert line escaped. induction s as [|c [|d s] IH]; intros line escaped; [done|done|].
  rewrite split_escaped_step.
  destruct escaped; [case_bool_decide|]; [done|apply IH..].
Qed.

(** The lines, joined by the two characters of an escaped line feed, are the
    text again. *)
Lemma split_escaped_join s line escaped :
  (escaped = true -> exists line', line = backslash :: line') ->
  join ESCAPED_LF (split_escaped s line escaped) = rev line ++ s.
Proof.
  revert line escaped. induction s as [|c [|d s] IH]; intros line escaped H.
  - cbn. by rewrite app_nil_r.
  - done.
  - rewrite split_escaped_step.
    assert (Hc : rev line ++ c :: d :: s = rev (c :: line) ++ d :: s) by (cbn; by rewrite <- app_assoc).
    destruct escaped.
    + case_bool_decide as Hn.
      * destruct (H eq_refl) as [line' ->]. subst c. cbn [tail].
        pose proof (split_escaped_nonempty (d :: s) [] false) as Hne.
        assert (E : forall l p, l <> [] -> join ESCAPED_LF (p :: l) = p ++ ESCAPED_LF ++ join ESCAPED_LF l)
          by (intros [|? ?] ? ?; done).
        rewrite E by done. rewrite IH by done. cbn. by rewrite <- app_assoc.
      * rewrite IH by done. done.
    + rewrite IH; [done|]. intros Hb%bool_decide_eq_true. subst c. by exists line.
Qed.

Lemma SplitEscapedString_join s : join ESCAPED_LF (SplitEscapedString s) = unquoted s.
Proof. apply (split_escaped_join _ [] false). done. Qed.

Lemma starts_with_spec {A} `{!EqDecision A} (needle haystack : list A) :
  starts_with needle haystack = true <-> exists b, haystack = needle ++ b.
Proof.
  revert haystack. induction needle as [|c needle IH]; intros [|d haystack]; cbn.
  - split; [by exists []|done].
  - split; [by eexists|done].
  - split; [done|]. by intros [b ?].
  - case_bool_decide as E.
    + subst d. rewrite IH. split; intros [b Hb]; exists b; [by rewrite Hb|by injection Hb].
    + split; [done|]. intros [b Hb]. by injection Hb as ->.
Qed.

Lemma occurs_spec {A} `{!EqDecision A} (needle haystack : list A) :
  occurs needle haystack = true <-> exists a b, haystack = a ++ needle ++ b.
Proof.
  induction haystack as [|c haystack IH]; cbn [occurs]; rewrite orb_true_iff, starts_with_spec.
  - split.
    + intros [[b Hb]|?]; [|done]. by exists [], b.
    + intros ([|? a] & b & Hb); [|done]. left. by exists b.
  - rewrite IH. split.
    + intros [[b Hb]|(a & b & ->)]; [by exists [], b|by exists (c :: a), b].
    + intros ([|d a] & b & Hb); [left; by exists b|]. right. injection Hb as -> Hb. by exists a, b.
Qed.

(** ** Lemmas: floating point numbers *)

Section ulps.
(** Fraction and exponent bits. *)
Context (f e : Z) (Hf : 1 <= f) (He : 2 <= e).
#[local] Abbreviation R := (mkRawType (f + e + 1) (f + 1)).

Definition mag (bits : Z) : Z := bits mod 2 ^ (f + e).
Definition negative (bits : Z) : bool := 2 ^ (f + e) <=? bits.
Definition rank_ (bits : Z) : Z := if negative bits then - mag bits else mag bits.
Definition exponent (bits : Z) : Z := (bits / 2 ^ f) mod 2 ^ e.
Definition fraction (bits : Z) : Z := bits mod 2 ^ f.

Definition in_width (bits : Z) : Prop := 0 <= bits < 2 ^ (f + e + 1).

Lemma pow_sum : 2 ^ (f + e) = 2 ^ f * 2 ^ e.
Proof. apply Z.pow_add_r; lia. Qed.
Lemma pow_width : 2 ^ (f + e + 1) = 2 * 2 ^ (f + e).
Proof. rewrite Z.pow_add_r by lia. lia. Qed.
Lemma pow_f : 0 < 2 ^ f.
Proof. apply Z.pow_pos_nonneg; lia. Qed.
Lemma pow_e : 4 <= 2 ^ e.
Proof. change 4 with (2 ^ 2). apply Z.pow_le_mono_r; lia. Qed.

Lemma kFractionBitCount_f : kFractionBitCount R = f.
Proof. unfold kFractionBitCount. cbn. lia. Qed.
Lemma kExponentBitCount_e : kExponentBitCount R = e.
Proof. unfold kExponentBitCount. rewrite kFractionBitCount_f. cbn. lia. Qed.

Lemma bits_not_eq z : in_width z -> bits_not R z = 2 ^ (f + e + 1) - 1 - z.
Proof.
  intros Hz. unfold in_width in Hz. unfold bits_not, Bits. cbn [kBitCount].
  rewrite Z.lnot_eq_pred_opp. symmetry. apply Z.mod_unique with (-1); lia.
Qed.

Lemma Bits_small z : in_width z -> Bits R z = z.
Proof. apply Z.mod_small. Qed.

(** A field of bits. *)
Lemma land_field m n z : 0 <= m -> 0 <= n ->
  Z.land (Z.shiftl (Z.ones m) n) z = ((z / 2 ^ n) mod 2 ^ m) * 2 ^ n.
Proof.
  intros Hm Hn. rewrite <- Z.land_ones, <- Z.shiftr_div_pow2, <- Z.shiftl_mul_pow2 by done.
  apply Z.bits_inj'. intros i Hi. rewrite Z.land_spec. destruct (Z.ltb_spec i n).
  - rewrite !Z.shiftl_spec_low by done. done.
  - rewrite !Z.shiftl_spec by done. rewrite Z.land_spec, Z.shiftr_spec by lia.
    rewrite andb_comm. f_equal. f_equal. lia.
Qed.

Lemma kSignBitMask_eq : kSignBitMask R = 2 ^ (f + e).
Proof.
  unfold kSignBitMask. cbn [kBitCount]. replace (f + e + 1 - 1) with (f + e) by lia.
  rewrite Z.shiftl_1_l. apply Bits_small. split; [apply Z.pow_nonneg; lia|].
  rewrite pow_width. pose proof (Z.pow_pos_nonneg 2 (f + e)). lia.
Qed.

Lemma kFractionBitMask_eq : kFractionBitMask R = Z.ones f.
Proof.
  unfold kFractionBitMask. rewrite kExponentBitCount_e, bits_not_eq.
  2:{ split; [lia|]. apply Z.pow_pos_nonneg; lia. }
  rewrite Z.sub_0_r, Z.shiftr_div_pow2, Z.ones_equiv by lia.
  replace (f + e + 1) with (f + (e + 1)) by lia. rewrite Z.pow_add_r by lia.
  symmetry. apply Z.div_unique with (2 ^ (e + 1) - 1); [|lia].
  pose proof (Z.pow_pos_nonneg 2 (e + 1)). lia.
Qed.

Lemma kExponentBitMask_eq : kExponentBitMask R = Z.shiftl (Z.ones e) f.
Proof.
  pose proof pow_f. pose proof pow_e. pose proof pow_sum. pose proof pow_width.
  unfold kExponentBitMask. rewrite kSignBitMask_eq, kFractionBitMask_eq, Z.ones_equiv.
  rewrite pow_sum, (Z.mul_comm (2 ^ f)), lor_disjoint by lia.
  rewrite bits_not_eq by (split; nia). rewrite Z.shiftl_mul_pow2, Z.ones_equiv by lia. nia.
Qed.

Lemma exponent_bits_eq bits : exponent_bits R bits = exponent bits * 2 ^ f.
Proof. unfold exponent_bits. rewrite kExponentBitMask_eq. apply land_field; lia. Qed.

Lemma fraction_bits_eq bits : fraction_bits R bits = fraction bits.
Proof.
  unfold fraction_bits. rewrite kFractionBitMask_eq, Z.land_comm. apply Z.land_ones. lia.
Qed.

Lemma sign_bit_eq bits : in_width bits -> (sign_bit R bits =? 0) = negb (negative bits).
Proof.
  intros Hb. unfold sign_bit, negative. rewrite kSignBitMask_eq.
  replace (2 ^ (f + e)) with (Z.shiftl (Z.ones 1) (f + e)) at 1 by (rewrite Z.shiftl_mul_pow2 by lia; change (Z.ones 1) with 1; lia).
  rewrite land_field by lia. unfold in_width in Hb. rewrite pow_width in Hb.
  pose proof (Z.pow_pos_nonneg 2 (f + e)) as Hp. destruct (Z.leb_spec (2 ^ (f + e)) bits); cbn [negb].
  - apply Z.eqb_neq. rewrite <- (Z.div_unique bits (2 ^ (f + e)) 1 (bits - 2 ^ (f + e))) by lia. change (1 mod 2 ^ 1) with 1. lia.
  - apply Z.eqb_eq. by rewrite Z.div_small by lia.
Qed.

(** The magnitude is the exponent and the fraction. *)
Lemma mag_fields bits : 0 <= bits -> mag bits = exponent bits * 2 ^ f + fraction bits.
Proof.
  intros Hb. unfold mag, exponent, fraction. rewrite pow_sum. pose proof pow_f. pose proof pow_e.
  rewrite Z.rem_mul_r by lia. lia.
Qed.

Lemma field_bounds bits : 0 <= exponent bits < 2 ^ e /\ 0 <= fraction bits < 2 ^ f.
Proof.
  pose proof pow_f. pose proof pow_e. split; apply Z.mod_pos_bound; lia.
Qed.

Lemma is_nan_eq bits :
  is_nan R bits = (exponent bits =? 2 ^ e - 1) && negb (fraction bits =? 0).
Proof.
  unfold is_nan. rewrite exponent_bits_eq, fraction_bits_eq, kExponentBitMask_eq. f_equal.
  rewrite Z.shiftl_mul_pow2, Z.ones_equiv by lia. pose proof pow_f.
  destruct (Z.eqb_spec (exponent bits) (2 ^ e - 1)) as [->|Hne]; [apply Z.eqb_eq; lia|].
  apply Z.eqb_neq. nia.
Qed.

Lemma is_nan_mag bits : in_width bits -> is_nan R bits = ((2 ^ e - 1) * 2 ^ f <? mag bits).
Proof.
  intros [Hb _]. rewrite is_nan_eq, mag_fields by done. destruct (field_bounds bits) as [H1 H2].
  pose proof pow_f. destruct (Z.eqb_spec (exponent bits) (2 ^ e - 1)) as [->|Hne]; cbn [andb].
  - destruct (Z.eqb_spec (fraction bits) 0) as [->|Hnz]; cbn [negb]; symmetry.
    + apply Z.ltb_ge. lia.
    + apply Z.ltb_lt. lia.
  - symmetry. apply Z.ltb_ge. nia.
Qed.

Lemma biased_eq bits : in_width bits -> SignAndMagnitudeToBiased R bits = 2 ^ (f + e) + rank_ bits.
Proof.
  intros Hb. pose proof (sign_bit_eq _ Hb) as Hs. unfold sign_bit in Hs.
  unfold SignAndMagnitudeToBiased, rank_, mag. rewrite Hs, kSignBitMask_eq, negb_involutive.
  pose proof Hb as Hb'. unfold in_width in Hb'. rewrite pow_width in Hb'.
  pose proof (Z.pow_pos_nonneg 2 (f + e)) as Hp. unfold negative. destruct (Z.leb_spec (2 ^ (f + e)) bits).
  - rewrite bits_not_eq by done. rewrite pow_width.
    rewrite <- (Z.mod_unique bits (2 ^ (f + e)) 1 (bits - 2 ^ (f + e))) by lia.
    rewrite Bits_small by (unfold in_width; rewrite pow_width; lia). lia.
  - rewrite Z.mod_small by lia.
    replace (2 ^ (f + e)) with (1 * 2 ^ (f + e)) by lia. by rewrite lor_disjoint by lia.
Qed.

Lemma rank_bounds bits : - 2 ^ (f + e) < rank_ bits < 2 ^ (f + e).
Proof.
  unfold rank_, mag. pose proof (Z.pow_pos_nonneg 2 (f + e)) as Hp.
  pose proof (Z.mod_pos_bound bits (2 ^ (f + e))). destruct (negative bits); lia.
Qed.

Lemma distance_eq b1 b2 : in_width b1 -> in_width b2 ->
  DistanceBetweenSignAndMagnitudeNumbers R b1 b2 = Z.abs (rank_ b1 - rank_ b2).
Proof.
  intros H1 H2. unfold DistanceBetweenSignAndMagnitudeNumbers. rewrite !biased_eq by done.
  pose proof (rank_bounds b1). pose proof (rank_bounds b2).
  destruct (Z.leb_spec (2 ^ (f + e) + rank_ b2) (2 ^ (f + e) + rank_ b1));
    rewrite Bits_small by (unfold in_width; rewrite pow_width; lia); lia.
Qed.

Lemma AlmostEquals_eq b1 b2 : in_width b1 -> in_width b2 ->
  AlmostEquals R b1 b2 = negb (is_nan R b1) && negb (is_nan R b2) && (Z.abs (rank_ b1 - rank_ b2) <=? 4).
Proof.
  intros H1 H2. unfold AlmostEquals. rewrite distance_eq by done. by destruct (is_nan R b1), (is_nan R b2).
Qed.

(** ** The values behind the bits *)

Definition emin_ : Z := emin (f + 1) (emax_ R).
Definition largest : Z := (2 ^ e - 1) * 2 ^ f.

(** A finite number with its magnitude: mantissa and exponent are canonical. *)
Definition canonical (m : positive) (ex k : Z) : Prop :=
  k = (ex - emin_) * 2 ^ f + Zpos m /\ Zpos m < 2 * 2 ^ f /\ emin_ <= ex /\
  (ex = emin_ \/ 2 ^ f <= Zpos m).

(** What a number that is not NaN can be. *)
Definition represents (v : spec_float) (s : bool) (k : Z) : Prop :=
  match v with
  | S754_nan => False
  | S754_infinity s' => s' = s /\ k = largest
  | S754_zero s' => s' = s /\ k = 0
  | S754_finite s' m ex => s' = s /\ canonical m ex k /\ k < largest
  end.

Lemma value_of_represents bits : in_width bits ->
  if is_nan R bits then value_of R bits = S754_nan
  else represents (value_of R bits) (negative bits) (mag bits).
Proof.
  intros Hb. pose proof pow_f as Hpf. pose proof pow_e as Hpe. pose proof (field_bounds bits) as [He1 Hf1].
  pose proof Hb as [Hb0 _]. unfold value_of.
  rewrite is_nan_eq, exponent_bits_eq, fraction_bits_eq, sign_bit_eq, negb_involutive by done.
  rewrite kFractionBitCount_f, kExponentBitCount_e. rewrite Z.shiftr_div_pow2, Z.div_mul by lia.
  rewrite (mag_fields bits Hb0). unfold largest. cbn [digits_]. fold emin_.
  destruct (Z.eqb_spec (exponent bits) (2 ^ e - 1)) as [E|E]; cbn [andb].
  { destruct (Z.eqb_spec (fraction bits) 0) as [->|Hn]; cbn [negb]; [|done]. rewrite E. cbn. split; [done|]. unfold largest. lia. }
  destruct (Z.eqb_spec (exponent bits) 0) as [E0|E0].
  - rewrite E0. destruct (fraction bits) as [|m|m] eqn:Em; cbn [represents]; [split; [done|lia]| |lia].
    split; [done|]. unfold canonical, largest. rewrite Z.sub_diag. nia.
  - destruct (fraction bits + 2 ^ f) as [|m|m] eqn:Em; [lia| |lia]. cbn [represents].
    split; [done|]. unfold canonical, largest. nia.
Qed.

Lemma canonical_compare m1 e1 k1 m2 e2 k2 : canonical m1 e1 k1 -> canonical m2 e2 k2 ->
  (k1 ?= k2) = match e1 ?= e2 with Lt => Lt | Gt => Gt | Eq => Pos.compare_cont Eq m1 m2 end.
Proof.
  pose proof pow_f as Hpf. intros (-> & Hm1 & Hl1 & Hc1) (-> & Hm2 & Hl2 & Hc2).
  destruct (Z.compare_spec e1 e2) as [->|H|H].
  - change (Pos.compare_cont Eq m1 m2) with (Zpos m1 ?= Zpos m2).
    destruct (Z.compare_spec (Zpos m1) (Zpos m2)) as [E|E|E];
      [apply Z.compare_eq_iff|apply Z.compare_lt_iff|apply Z.compare_gt_iff]; lia.
  - apply Z.compare_lt_iff. nia.
  - apply Z.compare_gt_iff. nia.
Qed.

Lemma canonical_pos m ex k : canonical m ex k -> 0 < k.
Proof. pose proof pow_f as Hpf. intros (-> & _ & Hex & _). nia. Qed.

Lemma largest_pos : 0 < largest.
Proof. unfold largest. pose proof pow_f as Hpf. pose proof pow_e as Hpe. nia. Qed.

#[local] Ltac decide_compare :=
  symmetry; repeat case_match; rewrite ?Z.compare_refl; try done;
  first [apply Z.compare_eq_iff; lia | apply Z.compare_lt_iff; lia | apply Z.compare_gt_iff; lia].

(** The values compare as the signed magnitudes do. *)
Lemma represents_compare v1 s1 k1 v2 s2 k2 : represents v1 s1 k1 -> represents v2 s2 k2 ->
  SFcompare v1 v2 = Some ((if s1 then - k1 else k1) ?= (if s2 then - k2 else k2)).
Proof.
  pose proof largest_pos as Hl.
  assert (Hp : forall s m ex s' k, represents (S754_finite s m ex) s' k -> 0 < k < largest).
  { intros s m ex s' k (_ & Hc & Hk). split; [by eapply canonical_pos|done]. }
  destruct v1 as [t1|t1| |t1 m1 e1], v2 as [t2|t2| |t2 m2 e2]; try done; intros H1 H2;
    try (pose proof (Hp _ _ _ _ _ H1)); try (pose proof (Hp _ _ _ _ _ H2));
    cbn [represents] in H1, H2; destruct H1 as [-> H1], H2 as [-> H2]; cbn [SFcompare]; f_equal.
  9: { destruct H1 as [C1 _], H2 as [C2 _]. pose proof (canonical_compare _ _ _ _ _ _ C1 C2) as E.
       destruct s1, s2; [|decide_compare|decide_compare|by rewrite E].
       assert (Hopp : (- k1 ?= - k2) = CompOpp (k1 ?= k2)).
         { by rewrite <- Z.compare_antisym, <- Z.compare_opp, !Z.opp_involutive. }
         rewrite Hopp, E. by destruct (e1 ?= e2). }
  all: decide_compare.
Qed.

End ulps.

(** ** Theorems *)

Section comparisons.
Context (f e : Z) (Hf : 1 <= f) (He : 2 <= e).
#[local] Abbreviation R := (mkRawType (f + e + 1) (f + 1)).

Lemma value_of_nan bits : in_width f e bits -> value_of R bits = S754_nan <-> is_nan R bits = true.
Proof.
  intros Hb. pose proof (value_of_represents f e Hf He bits Hb) as H.
  destruct (is_nan R bits); [done|]. by destruct (value_of R bits).
Qed.

Lemma rank_compare b1 b2 : in_width f e b1 -> in_width f e b2 ->
  is_nan R b1 = false -> is_nan R b2 = false ->
  SFcompare (value_of R b1) (value_of R b2) = Some (rank_ f e b1 ?= rank_ f e b2).
Proof.
  intros H1 H2 N1 N2. pose proof (value_of_represents f e Hf He b1 H1) as V1.
  pose proof (value_of_represents f e Hf He b2 H2) as V2. rewrite N1 in V1. rewrite N2 in V2.
  unfold rank_. by apply (represents_compare f e Hf He).
Qed.

Lemma nan_rank bits : in_width f e bits ->
  is_nan R bits = false <-> Z.abs (rank_ f e bits) <= largest f e.
Proof.
  intros Hb. rewrite is_nan_mag, Z.ltb_ge by done. unfold rank_, largest.
  pose proof (Z.mod_pos_bound bits (2 ^ (f + e))) as Hm. pose proof (Z.pow_pos_nonneg 2 (f + e)).
  fold (mag f e bits) in Hm. destruct (negative f e bits); lia.
Qed.

(** Each rank is taken by a number. *)
Lemma rank_onto k : Z.abs k <= largest f e ->
  exists bits, in_width f e bits /\ is_nan R bits = false /\ rank_ f e bits = k.
Proof.
  intros Hk.
  assert (Hl : largest f e < 2 ^ (f + e)).
  { unfold largest. rewrite (pow_sum f e Hf He). pose proof (pow_f f Hf). nia. }
  assert (H : exists bits, in_width f e bits /\ rank_ f e bits = k).
  2:{ destruct H as (b & Hb & <-). exists b. by rewrite nan_rank. }
  unfold in_width, rank_, negative, mag. rewrite (pow_width f e Hf He).
  destruct (Z.ltb_spec k 0).
  - exists (2 ^ (f + e) - k). split; [lia|].
    destruct (Z.leb_spec (2 ^ (f + e)) (2 ^ (f + e) - k)); [|lia].
    rewrite <- (Z.mod_unique (2 ^ (f + e) - k) (2 ^ (f + e)) 1 (- k)) by lia. lia.
  - exists k. split; [lia|]. destruct (Z.leb_spec (2 ^ (f + e)) k); [lia|]. by apply Z.mod_small; lia.
Qed.

Lemma less_rank b1 b2 : in_width f e b1 -> in_width f e b2 ->
  less R b1 b2 = negb (is_nan R b1) && negb (is_nan R b2) && (rank_ f e b1 <? rank_ f e b2).
Proof.
  intros H1 H2. unfold less, SFltb.
  destruct (is_nan R b1) eqn:N1; [apply value_of_nan in N1 as ->; done|].
  destruct (is_nan R b2) eqn:N2.
  { apply value_of_nan in N2 as ->; [|done]. by destruct (value_of R b1). }
  rewrite rank_compare by done. cbn [negb andb]. unfold Z.ltb. by destruct (_ ?= _).
Qed.

Lemma FloatingPointLE_rank (print : Z -> text) expr1 expr2 b1 b2 : in_width f e b1 -> in_width f e b2 ->
  success_ (FloatingPointLE R print expr1 expr2 b1 b2) =
  negb (is_nan R b1) && negb (is_nan R b2) && (rank_ f e b1 <=? rank_ f e b2 + 4).
Proof.
  intros H1 H2. unfold FloatingPointLE. rewrite less_rank, (AlmostEquals_eq f e) by done.
  destruct (is_nan R b1), (is_nan R b2); try done. cbn [negb andb].
  destruct (Z.ltb_spec (rank_ f e b1) (rank_ f e b2)) as [E|E].
  { symmetry. apply Z.leb_le. lia. }
  destruct (Z.leb_spec (Z.abs (rank_ f e b1 - rank_ f e b2)) 4); symmetry; [apply Z.leb_le|apply Z.leb_gt]; lia.
Qed.

End comparisons.

(** C38. Floating point numbers are compared by units in the last place.  For a
    format with [f] bits of fraction and [e] bits of exponent ([float] and
    [double] are two) number the values that are not NaN by their rank, so that
    the ranks compare as the values do and no rank is left out between two
    values (so the difference of two ranks is how many steps of the format lie
    between the values, and the two zeros have the same rank).  Then
    [AlmostEquals] holds exactly when neither number is NaN and they are at most
    four steps apart, computed on unsigned words without overflow; and
    [FloatingPointLE] succeeds exactly when neither is NaN and the first is at
    most four steps above the second. *)
Theorem AlmostEquals_correct (f e : Z) (print : Z -> text) expr1 expr2 b1 b2 :
  1 <= f -> 2 <= e -> in_width f e b1 -> in_width f e b2 ->
  let R := mkRawType (f + e + 1) (f + 1) in
  let rank := rank_ f e in
  (is_nan R b1 = true <-> value_of R b1 = S754_nan) /\
  (is_nan R b1 = false -> is_nan R b2 = false ->
   SFcompare (value_of R b1) (value_of R b2) = Some (rank b1 ?= rank b2) /\
   forall k, rank b1 <= k <= rank b2 ->
     exists b, in_width f e b /\ is_nan R b = false /\ rank b = k) /\
  (AlmostEquals R b1 b2 = true <->
   is_nan R b1 = false /\ is_nan R b2 = false /\ Z.abs (rank b1 - rank b2) <= 4) /\
  (success_ (FloatingPointLE R print expr1 expr2 b1 b2) = true <->
   is_nan R b1 = false /\ is_nan R b2 = false /\ rank b1 <= rank b2 + 4).
Proof.
  intros Hf He H1 H2. cbn zeta. split_and!.
  - symmetry. by apply value_of_nan.
  - intros N1 N2. split; [by apply rank_compare|]. intros k Hk. apply rank_onto; [done..|].
    apply (nan_rank f e Hf He) in N1, N2; [lia|done..].
  - rewrite (AlmostEquals_eq f e), !andb_true_iff, !negb_true_iff, Z.leb_le by done. tauto.
  - rewrite (FloatingPointLE_rank f e), !andb_true_iff, !negb_true_iff, Z.leb_le by done. tauto.
Qed.

(** 1.0f and the number four steps above it are almost equal; the largest
    [float] and infinity are, too. *)
Lemma AlmostEquals_correct_witness :
  AlmostEquals Float 0x3F800000 0x3F800004 = true /\ AlmostEquals Float 0x3F800000 0x3F800005 = false /\
  AlmostEquals Float 0x7F7FFFFF 0x7F800000 = true /\ AlmostEquals Double 0 (2 ^ 63) = true /\
  (AlmostEquals Float 0x3F800000 0x3F800004 = true <->
   is_nan Float 0x3F800000 = false /\ is_nan Float 0x3F800004 = false /\
   Z.abs (rank_ 23 8 0x3F800000 - rank_ 23 8 0x3F800004) <= 4).
Proof.
  do 4 (split; [by vm_compute|]).
  assert (W1 : in_width 23 8 0x3F800000) by (vm_compute; split; [by intros|done]).
  assert (W2 : in_width 23 8 0x3F800004) by (vm_compute; split; [by intros|done]).
  destruct (AlmostEquals_correct 23 8 (fun _ => []) [] [] 0x3F800000 0x3F800004
              ltac:(lia) ltac:(lia) W1 W2) as (_ & _ & H & _).
  exact H.
Defined.
