(* ===== verification/Matchers.v ===== *)
(** * Matchers (gtest-matchers.h, gmock-matchers.h, gmock-more-matchers.h)

    A matcher of values of type [T] has its two descriptions and a function that
    decides about a value and writes to a listener; a matcher of the user may
    also fail.  The listener is the text written so far, or nothing where nobody
    listens.  What the universal printer makes of values of a type and the name
    of the type are the operations of a class.  A container is the list of its
    elements, a reference with an identity a value that has an address. *)

From Stdlib Require Import SpecFloat.
From S2P Require Import Prelude Outcome Common CStr GmockUtils Printers Bipartite Unordered Assertions.

Class Printable (T : Type) : Type := {
  UniversalPrint : T -> text;
  PrintToString : T -> text;
  TypeName : text;
}.
Arguments TypeName T {_}.

Record Matcher (T : Type) : Type := mkMatcher {
  describer : Describer;
  MatchAndExplain : T -> listener -> outcome (bool * listener);
}.
Arguments mkMatcher {T} _ _.
Arguments describer {T} _.
Arguments MatchAndExplain {T} _ _ _.

Definition describes {T} (m : Matcher T) : text := DescribeTo (describer m).
Definition describes_negation {T} (m : Matcher T) : text := DescribeNegationTo (describer m).
Definition mkDescriber (phrase negated : text) : Describer :=
  {| DescribeTo := phrase; DescribeNegationTo := negated |}.

(** The default of [DescribeNegationTo]. *)
Definition default_negation (description : text) : text := str "not (" ++ description ++ str ")".

(** With the listener [DummyMatchResultListener]. *)
Definition Matches {T} (m : Matcher T) (x : T) : outcome bool :=
  '(matches, _) ← MatchAndExplain m x None; Ok matches.

(** With a [StringMatchResultListener]: the result and the explanation. *)
Definition explained {T} (m : Matcher T) (x : T) : outcome (bool * text) :=
  '(matches, inner_listener) ← MatchAndExplain m x (Some []); Ok (matches, default [] inner_listener).

(** Many matchers only look at the value. *)
Definition silent {T} (d : Describer) (p : T -> bool) : Matcher T :=
  mkMatcher d (fun x l => Ok (p x, l)).

(** A matcher of [U] for values of [T], which convert to [U]. *)
Definition MatcherCast {T U} (convert : T -> U) (source_matcher : Matcher U) : Matcher T :=
  mkMatcher (describer source_matcher) (fun x l => MatchAndExplain source_matcher (convert x) l).

(** ** Helpers *)

Definition PrintIfNotEmpty (explanation : text) (l : listener) : listener :=
  if bool_decide (explanation = []) then l else say (str ", " ++ explanation) l.

Definition IsReadableTypeName (type_name : text) : bool :=
  (length type_name <=? 20)%nat ||
  negb (existsb (fun c => bool_decide (c = "<"%char) || bool_decide (c = "("%char)) type_name).

Definition MatchPrintAndExplain {T} `{!Printable T} (value : T) (matcher : Matcher T) (l : listener)
    : outcome (bool * listener) :=
  if negb (IsInterested l) then b ← Matches matcher value; Ok (b, l)
  else
    '(match_, inner) ← explained matcher value;
    let l := say (UniversalPrint value) l in
    let l := if IsReadableTypeName (TypeName T) then say (str " (of type " ++ TypeName T ++ str ")") l
             else l in
    Ok (match_, PrintIfNotEmpty inner l).

(** ** Comparisons *)

Section comparisons.
Context {Lhs Rhs : Type} `{!Printable Rhs}.

Definition ComparisonBase (Desc NegatedDesc : text) (Op : Lhs -> Rhs -> bool) (rhs_ : Rhs) : Matcher Lhs :=
  silent (mkDescriber (Desc ++ str " " ++ UniversalPrint rhs_) (NegatedDesc ++ str " " ++ UniversalPrint rhs_))
         (fun lhs => Op lhs rhs_).

Definition EqMatcher := ComparisonBase (str "is equal to") (str "isn't equal to").
Definition NeMatcher := ComparisonBase (str "isn't equal to") (str "is equal to").
Definition LtMatcher := ComparisonBase (str "is <") (str "isn't <").
Definition GtMatcher := ComparisonBase (str "is >") (str "isn't >").
Definition LeMatcher := ComparisonBase (str "is <=") (str "isn't <=").
Definition GeMatcher := ComparisonBase (str "is >=") (str "isn't >=").
End comparisons.

(** The two fields of a pair. *)
Section pairs.
Context {T1 T2 : Type}.

Definition PairMatchBase (Desc : text) (Op : T1 -> T2 -> bool) : Matcher (T1 * T2) :=
  silent (mkDescriber (str "are " ++ Desc) (str "aren't " ++ Desc)) (fun args => Op args.1 args.2).

Definition Eq2Matcher := PairMatchBase (str "an equal pair").
Definition Ne2Matcher := PairMatchBase (str "an unequal pair").
Definition Lt2Matcher := PairMatchBase (str "a pair where the first < the second").
Definition Gt2Matcher := PairMatchBase (str "a pair where the first > the second").
Definition Le2Matcher := PairMatchBase (str "a pair where the first <= the second").
Definition Ge2Matcher := PairMatchBase (str "a pair where the first >= the second").
End pairs.

(** ** Anything, null pointers, references and truth *)

Definition AnythingMatcher {T} : Matcher T :=
  silent (mkDescriber (str "is anything") (str "never matches")) (fun _ => true).

Definition IsNullMatcher {T} : Matcher (option T) :=
  silent (mkDescriber (str "is NULL") (str "isn't NULL"))
         (fun p => match p with None => true | Some _ => false end).
Definition NotNullMatcher {T} : Matcher (option T) :=
  silent (mkDescriber (str "isn't NULL") (str "is NULL"))
         (fun p => match p with None => false | Some _ => true end).

(** [Ref]: [print_address] prints [static_cast<const void*>(&x)]. *)
Definition RefMatcher {T Address} `{!EqDecision Address, !Printable T} (addressof : T -> Address)
    (print_address : Address -> text) (object_ : T) : Matcher T :=
  mkMatcher (mkDescriber (str "references the variable " ++ UniversalPrint object_)
                         (str "does not reference the variable " ++ UniversalPrint object_))
    (fun x l => Ok (bool_decide (addressof x = addressof object_),
                    say (str "which is located @" ++ print_address (addressof x)) l)).

Definition IsTrue {T} (to_bool : T -> bool) : Matcher T :=
  silent (mkDescriber (str "is true") (str "is false")) to_bool.
Definition IsFalse {T} (to_bool : T -> bool) : Matcher T :=
  silent (mkDescriber (str "is false") (str "is true")) (fun x => negb (to_bool x)).

Definition TrulyMatcher {T} (predicate_ : T -> bool) : Matcher T :=
  mkMatcher (mkDescriber (str "satisfies the given predicate") (str "doesn't satisfy the given predicate"))
    (fun x l => if predicate_ x then Ok (true, l)
                else Ok (false, say (str "didn't satisfy the given predicate") l)).

(** ** Strings *)

Definition find_nul (s : text) : option nat := fst <$> list_find (fun c => c = NUL) s.

Fixpoint case_insensitive_equals (fuel : nat) (s1 s2 : text) : outcome bool :=
  match fuel with
  | O => Err Diverges
  | S fuel =>
      if negb (Gtest_String.CaseInsensitiveCStringEquals (Some s1) (Some s2)) then Ok false
      else match find_nul s1, find_nul s2 with
           | Some i1, Some i2 => case_insensitive_equals fuel (drop (i1 + 1) s1) (drop (i2 + 1) s2)
           | None, None => Ok true
           | _, _ => Ok false
           end
  end.
Definition CaseInsensitiveStringEquals (s1 s2 : text) : outcome bool :=
  case_insensitive_equals (S (length s1)) s1 s2.

Section strings.
(** How the universal printer writes a [std::string]. *)
Context `{!Printable text}.

Definition StrEqualityMatcher (string_ : text) (expect_eq_ case_sensitive_ : bool) : Matcher text :=
  let DescribeToHelper (expect_eq : bool) :=
    (if expect_eq then str "is " else str "isn't ") ++ str "equal to " ++
    (if case_sensitive_ then [] else str "(ignoring case) ") ++ UniversalPrint string_ in
  mkMatcher (mkDescriber (DescribeToHelper expect_eq_) (DescribeToHelper (negb expect_eq_)))
    (fun s2 l =>
       eq ← (if case_sensitive_ then Ok (bool_decide (s2 = string_))
             else CaseInsensitiveStringEquals s2 string_);
       Ok (Bool.eqb expect_eq_ eq, l)).

Definition HasSubstrMatcher (substring_ : text) : Matcher text :=
  silent (mkDescriber (str "has substring " ++ UniversalPrint substring_)
                      (str "has no substring " ++ UniversalPrint substring_))
    (fun s => occurs substring_ s).

Definition StartsWithMatcher (prefix_ : text) : Matcher text :=
  silent (mkDescriber (str "starts with " ++ UniversalPrint prefix_)
                      (str "doesn't start with " ++ UniversalPrint prefix_))
    (fun s2 => (length prefix_ <=? length s2)%nat && bool_decide (take (length prefix_) s2 = prefix_)).

Definition EndsWithMatcher (suffix_ : text) : Matcher text :=
  silent (mkDescriber (str "ends with " ++ UniversalPrint suffix_)
                      (str "doesn't end with " ++ UniversalPrint suffix_))
    (fun s2 => (length suffix_ <=? length s2)%nat &&
               bool_decide (drop (length s2 - length suffix_) s2 = suffix_)).

(** [full_match] and [partial_match] are [RE::FullMatch] and [RE::PartialMatch]
    with the expression. *)
Definition MatchesRegexMatcher (pattern : text) (full_match partial_match : text -> bool) (full_match_ : bool)
    : Matcher text :=
  silent (mkDescriber ((if full_match_ then str "matches" else str "contains") ++
                       str " regular expression " ++ UniversalPrint pattern)
                      (str "doesn't " ++ (if full_match_ then str "match" else str "contain") ++
                       str " regular expression " ++ UniversalPrint pattern))
    (fun s2 => if full_match_ then full_match s2 else partial_match s2).

(** The overloads for pointers: the answer for a null pointer. *)
Definition on_pointer (null_result : bool) (m : Matcher text) : Matcher (option text) :=
  mkMatcher (describer m)
    (fun s l => match s with None => Ok (null_result, l) | Some s => MatchAndExplain m (c_str s) l end).
Definition StrEqualityMatcher_ptr (string_ : text) (expect_eq_ case_sensitive_ : bool) :=
  on_pointer (negb expect_eq_) (StrEqualityMatcher string_ expect_eq_ case_sensitive_).

Definition WhenBase64UnescapedMatcher (internal_matcher_ : Matcher text) : Matcher text :=
  mkMatcher (mkDescriber (str "matches after Base64Unescape " ++ describes internal_matcher_)
                         (str "does not match after Base64Unescape " ++ describes internal_matcher_))
    (fun s2 l =>
       '(valid, unescaped) ← Base64Unescape s2;
       if negb valid then Ok (false, say (str "is not a valid base64 escaped string") l)
       else MatchPrintAndExplain unescaped internal_matcher_ l).
End strings.

(** ** Not, AllOf, AnyOf, Conditional *)

Section combining.
Context {T : Type}.

Definition NotMatcherImpl (matcher_ : Matcher T) : Matcher T :=
  mkMatcher (mkDescriber (describes_negation matcher_) (describes matcher_))
    (fun x l => '(b, l) ← MatchAndExplain matcher_ x l; Ok (negb b, l)).

(** The descriptions between parentheses. *)
Definition parenthesised (word : text) (descriptions : list text) : text :=
  str "(" ++ join (str ") " ++ word ++ str " (") descriptions ++ str ")".

Fixpoint all_of_loop (matchers : list (Matcher T)) (x : T) (all_match_result : text) (l : listener)
    : outcome (bool * listener) :=
  match matchers with
  | [] => Ok (true, say all_match_result l)
  | matcher :: matchers =>
      '(b, explanation) ← explained matcher x;
      if negb b then
        Ok (false, say (if bool_decide (explanation = [])
                        then str "which doesn't match (" ++ describes matcher ++ str ")"
                        else explanation) l)
      else
        let explanation := if bool_decide (explanation = []) then describes matcher else explanation in
        all_of_loop matchers x
          (if bool_decide (all_match_result = []) then explanation
           else if bool_decide (explanation = []) then all_match_result
           else all_match_result ++ str ", and " ++ explanation) l
  end.
Definition AllOfMatcherImpl (matchers_ : list (Matcher T)) : Matcher T :=
  mkMatcher (mkDescriber (parenthesised (str "and") (describes <$> matchers_))
                         (parenthesised (str "or") (describes_negation <$> matchers_)))
    (fun x l => all_of_loop matchers_ x [] l).

Fixpoint any_of_loop (matchers : list (Matcher T)) (x : T) (no_match_result : text) (l : listener)
    : outcome (bool * listener) :=
  match matchers with
  | [] => Ok (false, say no_match_result l)
  | matcher :: matchers =>
      '(b, result) ← explained matcher x;
      if b : bool then Ok (true, say result l)
      else any_of_loop matchers x
             (if bool_decide (no_match_result = []) then result
              else if bool_decide (result = []) then no_match_result
              else no_match_result ++ str ", and " ++ result) l
  end.
Definition AnyOfMatcherImpl (matchers_ : list (Matcher T)) : Matcher T :=
  mkMatcher (mkDescriber (parenthesised (str "or") (describes <$> matchers_))
                         (parenthesised (str "and") (describes_negation <$> matchers_)))
    (fun x l => any_of_loop matchers_ x [] l).

Definition ConditionalMatcher (condition_ : bool) (matcher_true_ matcher_false_ : Matcher T) : Matcher T :=
  if condition_ then matcher_true_ else matcher_false_.

(** [EXPECT_THAT] and [ASSERT_THAT]. *)
Definition PredicateFormatterFromMatcher `{!Printable T} (matcher : Matcher T) (value_text : text) (x : T)
    : outcome AssertionResult :=
  matches ← Matches matcher x;
  if matches : bool then Ok AssertionSuccess
  else
    let ss := str "Value of: " ++ value_text ++ LF :: str "Expected: " ++ describes matcher in
    '(passed, listener) ← MatchPrintAndExplain x matcher (Some []);
    let ss := if passed : bool
              then ss ++ LF :: str "  The matcher failed on the initial attempt; but passed when " ++
                   str "rerun to generate the explanation."
              else ss in
    Ok (AppendMessage AssertionFailure (ss ++ LF :: str "  Actual: " ++ default [] listener)).
End combining.

(** ** Floating point numbers *)

Section floating_point_matchers.
(** Numbers by their bits; how they are streamed, by their value, with the
    default precision and with [digits10 + 2] digits. *)
Context (R : RawType) (stream stream_precise : spec_float -> text).
Abbreviation value := (value_of R).

Definition IsNanMatcher : Matcher Z :=
  silent (mkDescriber (str "is NaN") (str "isn't NaN")) (fun f => isnan (value f)).

(** A negative [max_abs_error_] stands for the comparison by ULPs. *)
Definition HasMaxAbsError (max_abs_error_ : spec_float) : bool := SFleb (S754_zero false) max_abs_error_.
Definition minus_one : spec_float := S754_finite true (2 ^ (Z.to_pos (digits_ R) - 1)) (1 - digits_ R).

Definition FloatingEqMatcher_Impl (expected_ : Z) (nan_eq_nan_ : bool) (max_abs_error_ : spec_float)
    : Matcher Z :=
  let describe (never negated : text) (verb relation : text) (nan : text) :=
    if is_nan R expected_ then (if nan_eq_nan_ then nan else never)
    else verb ++ str " approximately " ++ stream_precise (value expected_) ++
         (if HasMaxAbsError max_abs_error_
          then str " (absolute error " ++ relation ++ str " " ++ stream_precise max_abs_error_ ++ str ")"
          else []) in
  mkMatcher
    (mkDescriber (describe (str "never matches") [] (str "is") (str "<=") (str "is NaN"))
                 (describe (str "is anything") [] (str "isn't") (str ">") (str "isn't NaN")))
    (fun actual l =>
       if is_nan R actual || is_nan R expected_ then
         Ok (if is_nan R actual && is_nan R expected_ then nan_eq_nan_ else false, l)
       else if HasMaxAbsError max_abs_error_ then
         if SFeqb (value actual) (value expected_) then Ok (true, l)
         else
           let diff := SFsub (digits_ R) (emax_ R) (value actual) (value expected_) in
           if SFleb (SFabs diff) max_abs_error_ then Ok (true, l)
           else Ok (false, say (str "which is " ++ stream diff ++ str " from " ++ stream (value expected_)) l)
       else Ok (AlmostEquals R actual expected_, l)).

Definition FloatingEqMatcher (expected : Z) (nan_eq_nan : bool) : Matcher Z :=
  FloatingEqMatcher_Impl expected nan_eq_nan minus_one.
(** With an error bound; the constructor checks it. *)
Definition FloatingNearMatcher (expected : Z) (nan_eq_nan : bool) (max_abs_error : spec_float)
    : outcome (Matcher Z) :=
  if SFleb (S754_zero false) max_abs_error
  then Ok (FloatingEqMatcher_Impl expected nan_eq_nan max_abs_error) else Err ProcessExit.

Definition FloatingEq2Matcher (max_abs_error_ : spec_float) (nan_eq_nan_ : bool) : Matcher (Z * Z) :=
  mkMatcher (mkDescriber (str "are an almost-equal pair") (str "aren't an almost-equal pair"))
    (fun args l =>
       fm ← (if SFeqb max_abs_error_ minus_one then Ok (FloatingEqMatcher args.1 nan_eq_nan_)
             else FloatingNearMatcher args.1 nan_eq_nan_ max_abs_error_);
       MatchAndExplain fm args.2 l).
End floating_point_matchers.

(** ** Pointers and members *)

Section members.
Context {T U : Type} `{!Printable U}.

(** A raw or smart pointer is null or points to a value. *)
Definition PointeeMatcher (matcher_ : Matcher U) : Matcher (option U) :=
  mkMatcher (mkDescriber (str "points to a value that " ++ describes matcher_)
                         (str "does not point to a value that " ++ describes matcher_))
    (fun pointer l =>
       match pointer with
       | None => Ok (false, l)
       | Some pointee => MatchPrintAndExplain pointee matcher_ (say (str "which points to ") l)
       end).

(** [GetRawPointer] gives the pointer of a smart pointer. *)
Definition PointerMatcher (GetRawPointer : T -> U) (matcher_ : Matcher U) : Matcher T :=
  mkMatcher (mkDescriber (str "is a pointer that " ++ describes matcher_)
                         (str "is not a pointer that " ++ describes matcher_))
    (fun pointer l =>
       MatchPrintAndExplain (GetRawPointer pointer) matcher_ (say (str "which is a pointer that ") l)).

Definition AddressMatcher (addressof : T -> U) (matcher_ : Matcher U) : Matcher T :=
  mkMatcher (mkDescriber (str "has address that " ++ describes matcher_)
                         (str "does not have address that " ++ describes matcher_))
    (fun object l => MatchPrintAndExplain (addressof object) matcher_ (say (str "which has address ") l)).

(** What [Field] and [Property] share: the value of a member. *)
Definition MemberMatcher (whose_member_ : text) (member_ : T -> U) (matcher_ : Matcher U) : Matcher T :=
  mkMatcher (mkDescriber (str "is an object " ++ whose_member_ ++ describes matcher_)
                         (str "is an object " ++ whose_member_ ++ describes_negation matcher_))
    (fun obj l => MatchPrintAndExplain (member_ obj) matcher_ (say (whose_member_ ++ str "is ") l)).
(** On a pointer to the object. *)
Definition member_of_pointee (m : Matcher T) : Matcher (option T) :=
  mkMatcher (describer m)
    (fun p l => match p with
                | None => Ok (false, l)
                | Some obj => MatchAndExplain m obj (say (str "which points to an object ") l)
                end).

Definition whose (kind : text) (name : option text) : text :=
  match name with
  | None => str "whose given " ++ kind ++ str " "
  | Some name => str "whose " ++ kind ++ str " `" ++ name ++ str "` "
  end.
Definition FieldMatcher (field_name : option text) := MemberMatcher (whose (str "field") field_name).
Definition PropertyMatcher (property_name : option text) := MemberMatcher (whose (str "property") property_name).

Definition ResultOfMatcher (result_description_ : text) (callable_ : T -> U) (matcher_ : Matcher U) : Matcher T :=
  let phrase := if bool_decide (result_description_ = [])
                then str "is mapped by the given callable to a value that "
                else str "whose " ++ result_description_ ++ str " " in
  mkMatcher (mkDescriber (phrase ++ describes matcher_) (phrase ++ describes_negation matcher_))
    (fun obj l =>
       MatchPrintAndExplain (callable_ obj) matcher_
         (say (if bool_decide (result_description_ = []) then str "which is mapped by the given callable to "
               else str "whose " ++ result_description_ ++ str " is ") l)).

Definition verdict (matches : bool) : text := if matches then str " matches" else str " doesn't match".

(** [optional<>]. *)
Definition OptionalMatcher (value_matcher_ : Matcher U) : Matcher (option U) :=
  mkMatcher (mkDescriber (str "value " ++ describes value_matcher_)
                         (str "value " ++ describes_negation value_matcher_))
    (fun optional l =>
       match optional with
       | None => Ok (false, say (str "which is not engaged") l)
       | Some value =>
           '(match_, explanation) ← explained value_matcher_ value;
           Ok (match_, PrintIfNotEmpty explanation
                         (say (str "whose value " ++ PrintToString value ++ verdict match_) l))
       end).

(** [VariantWith] and [AnyWith]: [cast] is [get<T>] with [holds_alternative<T>],
    or [any_cast<T>]; [kind] is what the descriptions call the type. *)
Definition CastMatcher (kind : text) (cast : T -> option U) (matcher_ : Matcher U) : Matcher T :=
  mkMatcher (mkDescriber (str "is " ++ kind ++ str " with value of type '" ++ TypeName U ++
                          str "' and the value " ++ describes matcher_)
                         (str "is " ++ kind ++ str " with value of type other than '" ++ TypeName U ++
                          str "' or the value " ++ describes_negation matcher_))
    (fun value l =>
       if negb (IsInterested l) then
         match cast value with
         | None => Ok (false, l)
         | Some elem => b ← Matches matcher_ elem; Ok (b, l)
         end
       else
         match cast value with
         | None => Ok (false, say (str "whose value is not of type '" ++ TypeName U ++ str "'") l)
         | Some elem =>
             '(match_, explanation) ← explained matcher_ elem;
             Ok (match_, PrintIfNotEmpty explanation
                           (say (str "whose value " ++ PrintToString elem ++ verdict match_) l))
         end).
Definition VariantMatcher := CastMatcher (str "a variant<>").
Definition AnyCastMatcher := CastMatcher (str "an 'any' type").
End members.

(** ** Exceptions *)

(** What a call does, as the catch clauses of [Throws] see it. *)
Inductive Thrown (E : Type) : Type :=
  | Nothing
  | OfType (err : E)
  | StdException (type_name what : text)
  | Unknown.
Arguments Nothing {E}.
Arguments OfType {E} err.
Arguments StdException {E} type_name what.
Arguments Unknown {E}.

Definition WithWhatMatcherImpl {E} (what : E -> text) (matcher_ : Matcher text) : Matcher E :=
  mkMatcher (mkDescriber (str "contains .what() that " ++ describes matcher_)
                         (str "contains .what() that does not " ++ describes matcher_))
    (fun err l => MatchAndExplain matcher_ (what err)
                    (say (str "which contains .what() (of value = " ++ what err ++ str ") that ") l)).

Definition ExceptionMatcherImpl {E} `{!Printable E} (matcher_ : Matcher E) : Matcher (Thrown E) :=
  mkMatcher (mkDescriber (str "throws an exception which is a " ++ TypeName E ++ str " which " ++
                          describes matcher_)
                         (str "throws an exception which is not a " ++ TypeName E ++ str " which " ++
                          describes_negation matcher_))
    (fun x l =>
       match x with
       | OfType err =>
           MatchAndExplain matcher_ err (say (str "throws an exception which is a " ++ TypeName E ++ str " ") l)
       | StdException type_name what =>
           Ok (false, say (str "throws an exception of type " ++ type_name ++ str " with description " ++
                           quote :: what ++ [quote]) l)
       | Unknown => Ok (false, say (str "throws an exception of an unknown type") l)
       | Nothing => Ok (false, say (str "does not throw any exception") l)
       end).

(** ** Containers *)

Definition SizeIsMatcher {C} (size : C -> Z) (size_matcher_ : Matcher Z) : Matcher C :=
  mkMatcher (mkDescriber (str "has a size that " ++ describes size_matcher_)
                         (str "has a size that " ++ describes_negation size_matcher_))
    (fun container l =>
       let size := size container in
       '(result, explanation) ← explained size_matcher_ size;
       Ok (result, PrintIfNotEmpty explanation
                     (say (str "whose size " ++ dec size ++ verdict result) l))).

(** [IsEmpty]. *)
Definition IsEmptyMatcher {C} (size : C -> Z) : Matcher C :=
  mkMatcher (mkDescriber (str "is empty") (str "isn't empty"))
    (fun c l => if size c =? 0 then Ok (true, l)
                else Ok (false, say (str "whose size is " ++ dec (size c)) l)).

Section containers.
Context {E : Type} `{!Printable E}.

Definition BeginEndDistanceIsMatcher (distance_matcher_ : Matcher Z) : Matcher (list E) :=
  mkMatcher (mkDescriber (str "distance between begin() and end() " ++ describes distance_matcher_)
                         (str "distance between begin() and end() " ++ describes_negation distance_matcher_))
    (fun container l =>
       let distance := Z.of_nat (length container) in
       '(result, explanation) ← explained distance_matcher_ distance;
       Ok (result, PrintIfNotEmpty explanation
                     (say (str "whose distance between begin() and end() " ++ dec distance ++
                           verdict result) l))).

(** The elements that are not in the other container, after a header. *)
Definition listed (header : text) (elements : list E) : text :=
  match elements with
  | [] => []
  | _ => header ++ join (str ", ") (UniversalPrint <$> elements)
  end.
Definition ContainerEqMatcher `{!EqDecision E, !Printable (list E)} (expected_ : list E) : Matcher (list E) :=
  mkMatcher (mkDescriber (str "equals " ++ UniversalPrint expected_)
                         (str "does not equal " ++ UniversalPrint expected_))
    (fun lhs l =>
       if bool_decide (lhs = expected_) then Ok (true, l)
       else
         let unexpected := filter (fun x => x ∉ expected_) lhs in
         let missing := filter (fun x => x ∉ lhs) expected_ in
         let printed_header := negb (bool_decide (unexpected = [])) in
         Ok (false,
             say (listed (str "which has these unexpected elements: ") unexpected ++
                  listed ((if printed_header then str "," ++ LF :: str "and" else str "which") ++
                          str " doesn't have these expected elements: ") missing) l)).

(** [std_sort] is [std::sort] with the comparator. *)
Definition WhenSortedByMatcher `{!Printable (list E)} (std_sort : list E -> list E)
    (matcher_ : Matcher (list E)) : Matcher (list E) :=
  mkMatcher (mkDescriber (str "(when sorted) " ++ describes matcher_)
                         (str "(when sorted) " ++ describes_negation matcher_))
    (fun lhs l =>
       let sorted_container := std_sort lhs in
       if negb (IsInterested l) then b ← Matches matcher_ sorted_container; Ok (b, l)
       else
         let l := say (str "which is " ++ UniversalPrint sorted_container ++ str " when sorted") l in
         '(match_, explanation) ← explained matcher_ sorted_container;
         Ok (match_, PrintIfNotEmpty explanation l)).

(** *** Contains and Each *)

Section quantifier.
Variable inner_matcher_ : Matcher E.

Fixpoint quantifier_loop (all_elements_should_match : bool) (container : list E) (i : nat) (l : listener)
    : outcome (bool * listener) :=
  match container with
  | [] => Ok (all_elements_should_match, l)
  | it :: container =>
      '(matches, explanation) ← explained inner_matcher_ it;
      if negb (Bool.eqb matches all_elements_should_match) then
        Ok (negb all_elements_should_match,
            PrintIfNotEmpty explanation
              (say (str "whose element #" ++ size_text i ++ verdict matches) l))
      else quantifier_loop all_elements_should_match container (S i) l
  end.
Definition MatchAndExplainImpl (all_elements_should_match : bool) (container : list E) (l : listener)
    : outcome (bool * listener) := quantifier_loop all_elements_should_match container 0 l.

(** The indices of the elements that match. *)
Fixpoint match_elements_loop (container : list E) (i : nat) : outcome (list nat) :=
  match container with
  | [] => Ok []
  | it :: container =>
      '(matches, _) ← explained inner_matcher_ it;
      match_elements ← match_elements_loop container (S i);
      Ok (if matches : bool then i :: match_elements else match_elements)
  end.

Definition MatchAndExplainImpl_count (count_matcher : Matcher Z) (container : list E) (l : listener)
    : outcome (bool * listener) :=
  match_elements ← match_elements_loop container 0;
  let l := if IsInterested l then
             say (match match_elements with
                  | [] => str "has no element that matches"
                  | [e] => str "whose element #" ++ size_text e ++ str " matches"
                  | _ => str "whose elements (" ++ join (str ", ") (size_text <$> match_elements) ++
                         str ") match"
                  end) l
           else l in
  let count := Z.of_nat (length match_elements) in
  '(matches, explanation) ← explained count_matcher count;
  if matches : bool then
    Ok (true, PrintIfNotEmpty explanation
                (say (str " and whose match quantity of " ++ dec count ++ str " matches") l))
  else
    Ok (false, PrintIfNotEmpty explanation
                 (say ((if bool_decide (match_elements = []) then str " and" else str " but") ++
                       str " whose match quantity of " ++ dec count ++ str " does not match") l)).

Definition ContainsMatcher : Matcher (list E) :=
  mkMatcher (mkDescriber (str "contains at least one element that " ++ describes inner_matcher_)
                         (str "doesn't contain any element that " ++ describes inner_matcher_))
    (fun container l => MatchAndExplainImpl false container l).
Definition EachMatcher : Matcher (list E) :=
  mkMatcher (mkDescriber (str "only contains elements that " ++ describes inner_matcher_)
                         (str "contains some element that " ++ describes_negation inner_matcher_))
    (fun container l => MatchAndExplainImpl true container l).
(** [Contains(m).Times(n)]. *)
Definition ContainsTimesMatcher (count_matcher_ : Matcher Z) : Matcher (list E) :=
  let subject := str "quantity of elements that match " ++ describes inner_matcher_ ++ str " " in
  mkMatcher (mkDescriber (subject ++ describes count_matcher_)
                         (subject ++ describes_negation count_matcher_))
    (fun container l => MatchAndExplainImpl_count count_matcher_ container l).
End quantifier.

(** *** ElementsAre *)

Definition Elements_ (count : nat) : text :=
  size_text count ++ (if (count =? 1)%nat then str " element" else str " elements").

(** The elements with their numbers. *)
Definition numbered (sep : text) (descriptions : list text) : text :=
  join sep (imap (fun i d => str "element #" ++ size_text i ++ str " " ++ d) descriptions).
Definition describe_elements (matchers_ : list (Matcher E)) : Describer :=
  mkDescriber
    (match matchers_ with
     | [] => str "is empty"
     | [m] => str "has 1 element that " ++ describes m
     | _ => str "has " ++ Elements_ (length matchers_) ++ str " where" ++ LF ::
            numbered (str "," ++ [LF]) (describes <$> matchers_)
     end)
    (match matchers_ with
     | [] => str "isn't empty"
     | _ => str "doesn't have " ++ Elements_ (length matchers_) ++ str ", or" ++ LF ::
            numbered (str ", or" ++ [LF]) (describes_negation <$> matchers_)
     end).

(** The walk over elements and matchers; the result is whether there is a
    mismatch, [exam_pos], the elements from [it] on and [explanations]. *)
Fixpoint elements_loop (listener_interested : bool) (matchers : list (Matcher E)) (elements : list E)
    (exam_pos : nat) (explanations : list text) : outcome (bool * nat * list E * list text) :=
  match elements, matchers with
  | it :: elements', m :: matchers' =>
      '(match_, explanations) ←
        (if listener_interested
         then '(b, s) ← explained m it; Ok (b, <[exam_pos := s]> explanations)
         else b ← Matches m it; Ok (b, explanations));
      if negb match_ then Ok (true, exam_pos, elements, explanations)
      else elements_loop listener_interested matchers' elements' (S exam_pos) explanations
  | _, _ => Ok (false, exam_pos, elements, explanations)
  end.

(** What is said about the elements that match. *)
Fixpoint reasons (i : nat) (reason_printed : bool) (explanations : list text) : text :=
  match explanations with
  | [] => []
  | s :: explanations =>
      if bool_decide (s = []) then reasons (S i) reason_printed explanations
      else (if reason_printed then str "," ++ LF :: str "and " else []) ++
           str "whose element #" ++ size_text i ++ str " matches, " ++ s ++ reasons (S i) true explanations
  end.

Definition ElementsAreMatcherImpl (matchers_ : list (Matcher E)) : Matcher (list E) :=
  mkMatcher (describe_elements matchers_)
    (fun container l =>
       let listener_interested := IsInterested l in
       let count := length matchers_ in
       '(mismatch_found, exam_pos, rest, explanations) ←
         elements_loop listener_interested matchers_ container 0 (replicate count []);
       let actual_count := (exam_pos + length rest)%nat in
       if negb (actual_count =? count)%nat then
         Ok (false, if listener_interested && negb (actual_count =? 0)%nat
                    then say (str "which has " ++ Elements_ actual_count) l else l)
       else if mismatch_found : bool then
         if listener_interested then
           explanation ← or_fault InvalidDeref (explanations !! exam_pos);
           Ok (false, PrintIfNotEmpty explanation
                        (say (str "whose element #" ++ size_text exam_pos ++ str " doesn't match") l))
         else Ok (false, l)
       else Ok (true, if listener_interested then say (reasons 0 false explanations) l else l)).

(** *** UnorderedElementsAre, IsSupersetOf, IsSubsetOf

    All elements are matched against all matchers first, with nobody listening;
    the search for a pairing goes on with these results. *)
Definition answer (m : Matcher E) (x : E) : bool :=
  match Matches m x with Ok b => b | Err _ => false end.
Definition UnorderedElementsAreMatcherImpl (match_flags : Flags) (matchers_ : list (Matcher E))
    : Matcher (list E) :=
  let matcher_describers_ := describer <$> matchers_ in
  mkMatcher (mkDescriber (DescribeToImpl match_flags matcher_describers_)
                         (DescribeNegationToImpl match_flags matcher_describers_))
    (fun container l =>
       _ ← mapM (fun elem => mapM (fun m => Matches m elem) matchers_) container;
       Bipartite.MatchAndExplain PrintToString match_flags matcher_describers_ (answer <$> matchers_)
         container l).
End containers.

(** *** Pointwise and UnorderedPointwise *)

Section pointwise.
Context {L E : Type} `{!Printable L, !Printable E, !Printable (list E)}.

Fixpoint pointwise_loop (tuple_matcher_ : Matcher (L * E)) (lhs : list L) (rhs : list E) (i : nat)
    (l : listener) : outcome (bool * listener) :=
  match lhs, rhs with
  | x :: lhs, y :: rhs =>
      if IsInterested l then
        '(b, explanation) ← explained tuple_matcher_ (x, y);
        if negb b then
          Ok (false, PrintIfNotEmpty explanation
                       (say (str "where the value pair (" ++ UniversalPrint x ++ str ", " ++
                             UniversalPrint y ++ str ") at index #" ++ size_text i ++
                             str " don't match") l))
        else pointwise_loop tuple_matcher_ lhs rhs (S i) l
      else
        b ← Matches tuple_matcher_ (x, y);
        if negb b then Ok (false, l) else pointwise_loop tuple_matcher_ lhs rhs (S i) l
  | _, _ => Ok (true, l)
  end.

Definition PointwiseMatcher (tuple_matcher_ : Matcher (L * E)) (rhs_ : list E) : Matcher (list L) :=
  let size := size_text (length rhs_) in
  mkMatcher
    (mkDescriber
       (str "contains " ++ size ++
        str " values, where each value and its corresponding value in " ++ UniversalPrint rhs_ ++
        str " " ++ describes tuple_matcher_)
       (str "doesn't contain exactly " ++ size ++
        str " values, or contains a value x at some index i" ++ str " where x and the i-th value of " ++
        UniversalPrint rhs_ ++ str " " ++ describes_negation tuple_matcher_))
    (fun lhs l =>
       let actual_size := length lhs in
       if negb (actual_size =? length rhs_)%nat
       then Ok (false, say (str "which contains " ++ size_text actual_size ++ str " values") l)
       else pointwise_loop tuple_matcher_ lhs rhs_ 0 l).

(** [MatcherBindSecond]. *)
Definition BoundSecondMatcher (tuple2_matcher_ : Matcher (L * E)) (second_value_ : E) : Matcher L :=
  let description := str "and " ++ UniversalPrint second_value_ ++ str " " ++ describes tuple2_matcher_ in
  mkMatcher (mkDescriber description (default_negation description))
    (fun x l => MatchAndExplain tuple2_matcher_ (x, second_value_) l).
Definition UnorderedPointwise (tuple2_matcher : Matcher (L * E)) (rhs_container : list E) : Matcher (list L) :=
  UnorderedElementsAreMatcherImpl ExactMatch (BoundSecondMatcher tuple2_matcher <$> rhs_container).
End pointwise.

(** ** Pairs and tuples *)

Section pair.
Context {K V : Type}.

Definition KeyMatcherImpl (inner_matcher_ : Matcher K) : Matcher (K * V) :=
  mkMatcher (mkDescriber (str "has a key that " ++ describes inner_matcher_)
                         (str "doesn't have a key that " ++ describes inner_matcher_))
    (fun key_value l =>
       '(match_, explanation) ← explained inner_matcher_ key_value.1;
       Ok (match_, if bool_decide (explanation = []) then l
                   else say (str "whose first field is a value " ++ explanation) l)).

Definition ExplainSuccess (first_explanation second_explanation : text) : text :=
  str "whose both fields match" ++
  (if bool_decide (first_explanation = []) then []
   else str ", where the first field is a value " ++ first_explanation) ++
  (if bool_decide (second_explanation = []) then []
   else str ", " ++ (if bool_decide (first_explanation = []) then str "where " else str "and ") ++
        str "the second field is a value " ++ second_explanation).

Definition PairMatcherImpl (first_matcher_ : Matcher K) (second_matcher_ : Matcher V) : Matcher (K * V) :=
  mkMatcher (mkDescriber (str "has a first field that " ++ describes first_matcher_ ++
                          str ", and has a second field that " ++ describes second_matcher_)
                         (str "has a first field that " ++ describes_negation first_matcher_ ++
                          str ", or has a second field that " ++ describes_negation second_matcher_))
    (fun a_pair l =>
       if negb (IsInterested l) then
         b ← Matches first_matcher_ a_pair.1;
         if b : bool then b ← Matches second_matcher_ a_pair.2; Ok (b, l) else Ok (false, l)
       else
         '(b, first_explanation) ← explained first_matcher_ a_pair.1;
         if negb b then Ok (false, PrintIfNotEmpty first_explanation
                                     (say (str "whose first field does not match") l))
         else
           '(b, second_explanation) ← explained second_matcher_ a_pair.2;
           if negb b then Ok (false, PrintIfNotEmpty second_explanation
                                       (say (str "whose second field does not match") l))
           else Ok (true, say (ExplainSuccess first_explanation second_explanation) l)).
End pair.

(** Values of different types, and a matcher for each. *)
Fixpoint ValueTuple (Ts : list Type) : Type :=
  match Ts with [] => unit | T :: Ts => T * ValueTuple Ts end.
Inductive MatcherTuple : list Type -> Type :=
  | NoMatchers : MatcherTuple []
  | MoreMatchers {T Ts} (matcher : Matcher T) (print : Printable T) (matchers : MatcherTuple Ts)
      : MatcherTuple (T :: Ts).
Arguments MoreMatchers {T Ts} matcher {print} matchers.

(** [TuplePrefix<N>::Matches], for all fields. *)
Fixpoint TupleMatches {Ts} (matcher_tuple : MatcherTuple Ts) : ValueTuple Ts -> outcome bool :=
  match matcher_tuple with
  | NoMatchers => fun _ => Ok true
  | MoreMatchers matcher matchers => fun values =>
      b ← Matches matcher values.1;
      if b : bool then TupleMatches matchers values.2 else Ok false
  end.

(** [TuplePrefix<N>::ExplainMatchFailuresTo]: the fields from number [n] on. *)
Fixpoint ExplainMatchFailuresTo {Ts} (n : nat) (matchers : MatcherTuple Ts) : ValueTuple Ts -> outcome text :=
  match matchers with
  | NoMatchers => fun _ => Ok []
  | @MoreMatchers _ _ matcher print matchers => fun values =>
      '(b, explanation) ← explained matcher values.1;
      rest ← ExplainMatchFailuresTo (S n) matchers values.2;
      Ok (if b : bool then rest
          else str "  Expected arg #" ++ size_text n ++ str ": " ++ describes matcher ++ LF ::
               str "           Actual: " ++ UniversalPrint values.1 ++
               default [] (PrintIfNotEmpty explanation (Some [])) ++ LF :: rest)
  end.
Definition ExplainMatchFailureTupleTo {Ts} (matchers : MatcherTuple Ts) (values : ValueTuple Ts) : outcome text :=
  ExplainMatchFailuresTo 0 matchers values.

(** *** FieldsAre *)

Fixpoint fields_described {Ts} (describe : forall T, Matcher T -> text) (n : nat) (matchers : MatcherTuple Ts)
    : list text :=
  match matchers with
  | NoMatchers => []
  | MoreMatchers matcher matchers =>
      (str "has field #" ++ size_text n ++ str " that " ++ describe _ matcher) ::
      fields_described describe (S n) matchers
  end.

(** The position of the first field that does not match, if any, and the
    explanations up to it. *)
Fixpoint fields_loop {Ts} (n : nat) (matchers : MatcherTuple Ts) : ValueTuple Ts -> outcome (option nat * list text) :=
  match matchers with
  | NoMatchers => fun _ => Ok (None, [])
  | MoreMatchers matcher matchers => fun values =>
      '(b, explanation) ← explained matcher values.1;
      if negb b then Ok (Some n, [explanation])
      else '(failed_pos, explanations) ← fields_loop (S n) matchers values.2;
           Ok (failed_pos, explanation :: explanations)
  end.

Fixpoint field_reasons (separator : text) (index : nat) (explanations : list text) : text :=
  match explanations with
  | [] => []
  | s :: explanations =>
      if bool_decide (s = []) then field_reasons separator (S index) explanations
      else separator ++ str " field #" ++ size_text index ++ str " is a value " ++ s ++
           field_reasons (str ", and") (S index) explanations
  end.

(** [UnpackStruct] gives the fields of a struct. *)
Definition FieldsAreMatcherImpl {S_ Ts} (UnpackStruct : S_ -> ValueTuple Ts) (matchers_ : MatcherTuple Ts) : Matcher S_ :=
  mkMatcher (mkDescriber (join (str ", and ") (fields_described (fun _ m => describes m) 0 matchers_))
                         (join (str ", or ") (fields_described (fun _ m => describes_negation m) 0 matchers_)))
    (fun t l =>
       let tuple := UnpackStruct t in
       if negb (IsInterested l) then good ← TupleMatches matchers_ tuple; Ok (good, l)
       else
         '(failed_pos, inner_listener) ← fields_loop 0 matchers_ tuple;
         match failed_pos with
         | Some failed_pos =>
             explanation ← or_fault InvalidDeref (inner_listener !! failed_pos);
             Ok (false, PrintIfNotEmpty explanation
                          (say (str "whose field #" ++ size_text failed_pos ++ str " does not match") l))
         | None =>
             Ok (true, say (str "whose all elements match" ++
                            field_reasons (str ", where") 0 inner_listener) l)
         end).

(** *** Args *)

Definition PrintIndices (k : list nat) : text :=
  str "whose fields (" ++ join (str ", ") ((fun i => str "#" ++ size_text i) <$> k) ++ str ") ".
(** [select] gives the fields with the numbers [k]. *)
Definition ArgsMatcherImpl {A S_} `{!Printable S_} (k : list nat) (select : A -> S_) (inner_matcher_ : Matcher S_)
    : Matcher A :=
  mkMatcher (mkDescriber (str "are a tuple " ++ PrintIndices k ++ describes inner_matcher_)
                         (str "are a tuple " ++ PrintIndices k ++ describes_negation inner_matcher_))
    (fun args l =>
       let selected_args := select args in
       if negb (IsInterested l) then b ← Matches inner_matcher_ selected_args; Ok (b, l)
       else
         let l := say (PrintIndices k ++ str "are " ++ PrintToString selected_args) l in
         '(match_, explanation) ← explained inner_matcher_ selected_args;
         Ok (match_, PrintIfNotEmpty explanation l)).

(** ** The functions that make matchers

    The names a test uses.  A function with overloads for iterators, pointers
    with a count, arrays, containers and initializer lists is given for the
    elements it gets; only the pointer with a count can reach too far. *)

Module Make.

Definition A {T} : Matcher T := AnythingMatcher.
Definition An {T} : Matcher T := AnythingMatcher.
Definition IsNull {T} : Matcher (option T) := IsNullMatcher.
Definition NotNull {T} : Matcher (option T) := NotNullMatcher.
Definition Ref {T Address} `{!EqDecision Address, !Printable T} (addressof : T -> Address) (print_address : Address -> text)
    (x : T) : Matcher T := RefMatcher addressof print_address x.

Section comparisons.
Context {Lhs Rhs : Type} `{!Printable Rhs} (op : Lhs -> Rhs -> bool).
(** [op] is the operator of the two types. *)
Definition Eq (x : Rhs) : Matcher Lhs := EqMatcher op x.
Definition TypedEq (rhs : Rhs) : Matcher Lhs := Eq rhs.
Definition Ge (x : Rhs) : Matcher Lhs := GeMatcher op x.
Definition Gt (x : Rhs) : Matcher Lhs := GtMatcher op x.
Definition Le (x : Rhs) : Matcher Lhs := LeMatcher op x.
Definition Lt (x : Rhs) : Matcher Lhs := LtMatcher op x.
Definition Ne (x : Rhs) : Matcher Lhs := NeMatcher op x.
(** Of the fields of a pair. *)
Definition Eq2 : Matcher (Lhs * Rhs) := Eq2Matcher op.
Definition Ge2 : Matcher (Lhs * Rhs) := Ge2Matcher op.
Definition Gt2 : Matcher (Lhs * Rhs) := Gt2Matcher op.
Definition Le2 : Matcher (Lhs * Rhs) := Le2Matcher op.
Definition Lt2 : Matcher (Lhs * Rhs) := Lt2Matcher op.
Definition Ne2 : Matcher (Lhs * Rhs) := Ne2Matcher op.
End comparisons.

(** *** Floating point numbers *)
Section floats.
Context (stream stream_precise : spec_float -> text).
Definition IsNan (R : RawType) : Matcher Z := IsNanMatcher R.
Definition DoubleEq (rhs : Z) := FloatingEqMatcher Double stream stream_precise rhs false.
Definition NanSensitiveDoubleEq (rhs : Z) := FloatingEqMatcher Double stream stream_precise rhs true.
Definition DoubleNear (rhs : Z) (max_abs_error : spec_float) :=
  FloatingNearMatcher Double stream stream_precise rhs false max_abs_error.
Definition NanSensitiveDoubleNear (rhs : Z) (max_abs_error : spec_float) :=
  FloatingNearMatcher Double stream stream_precise rhs true max_abs_error.
Definition FloatEq (rhs : Z) := FloatingEqMatcher Float stream stream_precise rhs false.
Definition NanSensitiveFloatEq (rhs : Z) := FloatingEqMatcher Float stream stream_precise rhs true.
Definition FloatNear (rhs : Z) (max_abs_error : spec_float) :=
  FloatingNearMatcher Float stream stream_precise rhs false max_abs_error.
Definition NanSensitiveFloatNear (rhs : Z) (max_abs_error : spec_float) :=
  FloatingNearMatcher Float stream stream_precise rhs true max_abs_error.
(** Of the fields of a pair. *)
Definition FloatEq2 := FloatingEq2Matcher Float stream stream_precise (minus_one Float) false.
Definition DoubleEq2 := FloatingEq2Matcher Double stream stream_precise (minus_one Double) false.
Definition NanSensitiveFloatEq2 := FloatingEq2Matcher Float stream stream_precise (minus_one Float) true.
Definition NanSensitiveDoubleEq2 := FloatingEq2Matcher Double stream stream_precise (minus_one Double) true.
Definition FloatNear2 (max_abs_error : spec_float) :=
  FloatingEq2Matcher Float stream stream_precise max_abs_error false.
Definition DoubleNear2 (max_abs_error : spec_float) :=
  FloatingEq2Matcher Double stream stream_precise max_abs_error false.
Definition NanSensitiveFloatNear2 (max_abs_error : spec_float) :=
  FloatingEq2Matcher Float stream stream_precise max_abs_error true.
Definition NanSensitiveDoubleNear2 (max_abs_error : spec_float) :=
  FloatingEq2Matcher Double stream stream_precise max_abs_error true.
End floats.

(** *** Strings *)
Section strings.
Context `{!Printable text}.
Definition StrEq (str_ : text) : Matcher text := StrEqualityMatcher str_ true true.
Definition StrNe (str_ : text) : Matcher text := StrEqualityMatcher str_ false true.
Definition StrCaseEq (str_ : text) : Matcher text := StrEqualityMatcher str_ true false.
Definition StrCaseNe (str_ : text) : Matcher text := StrEqualityMatcher str_ false false.
Definition HasSubstr (substring : text) : Matcher text := HasSubstrMatcher substring.
Definition StartsWith (prefix : text) : Matcher text := StartsWithMatcher prefix.
Definition EndsWith (suffix : text) : Matcher text := EndsWithMatcher suffix.
Definition WhenBase64Unescaped (internal_matcher : Matcher text) : Matcher text :=
  WhenBase64UnescapedMatcher internal_matcher.
(** [RE::FullMatch] and [RE::PartialMatch] of the expression. *)
Definition MatchesRegex (regex : text) (full_match partial_match : text -> bool) : Matcher text :=
  MatchesRegexMatcher regex full_match partial_match true.
Definition ContainsRegex (regex : text) (full_match partial_match : text -> bool) : Matcher text :=
  MatchesRegexMatcher regex full_match partial_match false.
End strings.

(** *** Members of a value *)
Section members.
Context {T U : Type} `{!Printable U}.
Definition Pointee (inner_matcher : Matcher U) : Matcher (option U) := PointeeMatcher inner_matcher.
Definition Pointer (GetRawPointer : T -> U) (inner_matcher : Matcher U) : Matcher T :=
  PointerMatcher GetRawPointer inner_matcher.
Definition Address (addressof : T -> U) (inner_matcher : Matcher U) : Matcher T :=
  AddressMatcher addressof inner_matcher.
Definition Field (field : T -> U) (matcher : Matcher U) : Matcher T := FieldMatcher None field matcher.
Definition Field_named (field_name : text) (field : T -> U) (matcher : Matcher U) : Matcher T :=
  FieldMatcher (Some field_name) field matcher.
Definition Property (property : T -> U) (matcher : Matcher U) : Matcher T := PropertyMatcher None property matcher.
Definition Property_named (property_name : text) (property : T -> U) (matcher : Matcher U) : Matcher T :=
  PropertyMatcher (Some property_name) property matcher.
Definition ResultOf (callable : T -> U) (matcher : Matcher U) : Matcher T := ResultOfMatcher [] callable matcher.
Definition ResultOf_described (result_description : text) (callable : T -> U) (matcher : Matcher U) : Matcher T :=
  ResultOfMatcher result_description callable matcher.
Definition Optional (value_matcher : Matcher U) : Matcher (option U) := OptionalMatcher value_matcher.
Definition VariantWith (get : T -> option U) (matcher : Matcher U) : Matcher T := VariantMatcher get matcher.
Definition AnyWith (any_cast : T -> option U) (matcher : Matcher U) : Matcher T := AnyCastMatcher any_cast matcher.
Definition Args (k : list nat) (select : T -> U) (matcher : Matcher U) : Matcher T := ArgsMatcherImpl k select matcher.
End members.
Definition AllArgs {T} (matcher : Matcher T) : Matcher T := matcher.
Definition Truly {T} (pred : T -> bool) : Matcher T := TrulyMatcher pred.

Section exceptions.
Context {E : Type} `{!Printable E}.
Definition Throws : Matcher (Thrown E) := ExceptionMatcherImpl A.
Definition Throws_which (exception_matcher : Matcher E) : Matcher (Thrown E) := ExceptionMatcherImpl exception_matcher.
Definition ThrowsMessage (what : E -> text) (message_matcher : Matcher text) : Matcher (Thrown E) :=
  Throws_which (WithWhatMatcherImpl what message_matcher).
End exceptions.

(** *** Combining *)
Definition Not {T} (m : Matcher T) : Matcher T := NotMatcherImpl m.
Definition AllOf {T} (matchers : list (Matcher T)) : Matcher T := AllOfMatcherImpl matchers.
Definition AnyOf {T} (matchers : list (Matcher T)) : Matcher T := AnyOfMatcherImpl matchers.
Definition AllOfArray {T} (xs : list (Matcher T)) : Matcher T := AllOf xs.
Definition AnyOfArray {T} (xs : list (Matcher T)) : Matcher T := AnyOf xs.
Definition Conditional {T} (condition : bool) (matcher_true matcher_false : Matcher T) : Matcher T :=
  ConditionalMatcher condition matcher_true matcher_false.

(** The elements from a pointer on; [array] is all there is. *)
Definition elements_at {X} (array : list X) (count : nat) : outcome (list X) :=
  if (count <=? length array)%nat then Ok (take count array) else Err InvalidDeref.

(** *** Containers *)
Definition SizeIs {C} (size : C -> Z) (size_matcher : Matcher Z) : Matcher C := SizeIsMatcher size size_matcher.
Definition IsEmpty {C} (size : C -> Z) : Matcher C := IsEmptyMatcher size.
Section containers.
Context {E : Type} `{!Printable E}.
Definition BeginEndDistanceIs (distance_matcher : Matcher Z) : Matcher (list E) :=
  BeginEndDistanceIsMatcher distance_matcher.
Definition ContainerEq `{!EqDecision E, !Printable (list E)} (rhs : list E) : Matcher (list E) := ContainerEqMatcher rhs.
(** [std::sort] with the comparator, or with [<]. *)
Definition WhenSortedBy `{!Printable (list E)} (sort_by : list E -> list E) (container_matcher : Matcher (list E)) :=
  WhenSortedByMatcher sort_by container_matcher.
Definition WhenSorted `{!Printable (list E)} (sort : list E -> list E) (container_matcher : Matcher (list E)) :=
  WhenSortedByMatcher sort container_matcher.
Definition Contains (matcher : Matcher E) : Matcher (list E) := ContainsMatcher matcher.
Definition Contains_Times (matcher : Matcher E) (count_matcher : Matcher Z) : Matcher (list E) :=
  ContainsTimesMatcher matcher count_matcher.
Definition Each (matcher : Matcher E) : Matcher (list E) := EachMatcher matcher.

Definition ElementsAre (matchers : list (Matcher E)) : Matcher (list E) := ElementsAreMatcherImpl matchers.
Definition ElementsAreArray (matchers : list (Matcher E)) : Matcher (list E) := ElementsAreMatcherImpl matchers.
Definition UnorderedElementsAre (matchers : list (Matcher E)) : Matcher (list E) :=
  UnorderedElementsAreMatcherImpl ExactMatch matchers.
Definition UnorderedElementsAreArray (matchers : list (Matcher E)) : Matcher (list E) :=
  UnorderedElementsAreMatcherImpl ExactMatch matchers.
Definition IsSupersetOf (matchers : list (Matcher E)) : Matcher (list E) :=
  UnorderedElementsAreMatcherImpl Superset matchers.
Definition IsSubsetOf (matchers : list (Matcher E)) : Matcher (list E) :=
  UnorderedElementsAreMatcherImpl Subset matchers.
Definition ElementsAreArray_count (pointer : list (Matcher E)) (count : nat) : outcome (Matcher (list E)) :=
  ms ← elements_at pointer count; Ok (ElementsAreArray ms).
End containers.
Definition Pointwise {L R_} `{!Printable L, !Printable R_, !Printable (list R_)} (tuple_matcher : Matcher (L * R_))
    (rhs : list R_) : Matcher (list L) := PointwiseMatcher tuple_matcher rhs.
Definition Key {K V} (inner_matcher : Matcher K) : Matcher (K * V) := KeyMatcherImpl inner_matcher.
Definition Pair {K V} (first_matcher : Matcher K) (second_matcher : Matcher V) : Matcher (K * V) :=
  PairMatcherImpl first_matcher second_matcher.
Definition FieldsAre {S_ Ts} (UnpackStruct : S_ -> ValueTuple Ts) (matchers : MatcherTuple Ts) : Matcher S_ :=
  FieldsAreMatcherImpl UnpackStruct matchers.

(** *** Using a matcher *)
Definition MatcherAsPredicate {T} (m : Matcher T) (x : T) : outcome bool := Matches m x.
Definition Value {T} (value : T) (m : Matcher T) : outcome bool := MatcherAsPredicate m value.
Definition ExplainMatchResult {T} (matcher : Matcher T) (value : T) (l : listener) : outcome (bool * listener) :=
  MatchAndExplain matcher value l.
Definition DescribeMatcher {T} (matcher : Matcher T) (negation : bool) : text :=
  if negation then describes_negation matcher else describes matcher.
(** The macro [MATCHER]; its description may be empty and may use [negation]. *)
Definition FormatDescription (name : text) (description : bool -> text) (negation : bool) : outcome text :=
  match description negation with
  | [] => FormatMatcherDescription negation name [] []
  | gmock_description => Ok gmock_description
  end.
Definition MATCHER {T} (name : text) (description : bool -> text)
    (body : T -> listener -> outcome (bool * listener)) : outcome (Matcher T) :=
  d ← FormatDescription name description false;
  n ← FormatDescription name description true;
  Ok (mkMatcher (mkDescriber d n) body).

End Make.
