(* ===== verification/MatcherTheorems.v ===== *)
(** * What matchers decide

    [Decides m P] says that [m], with or without a listener, returns and answers
    whether [P] holds, and only writes to the listener; there is an instance for
    every combinator, so that the properties of a composed matcher are found by
    the search for instances. *)

From Stdlib Require Import SpecFloat.
From S2P Require Import Prelude Outcome Common CStr GmockUtils Printers Bipartite Unordered Assertions Matchers.

(** ** What a matcher decides *)

(** A listener that has only been written to. *)
Definition extends (l l' : listener) : Prop := exists e, l' = say e l.

Definition said (r : outcome (bool * listener)) (l : listener) (P : Prop) : Prop :=
  exists b l', r = Ok (b, l') /\ extends l l' /\ (b = true <-> P).

Class Decides {T} (m : Matcher T) (P : T -> Prop) : Prop :=
  decides x l : said (MatchAndExplain m x l) l (P x).
(** Each of a list of matchers. *)
Class AllDecide {T} (ms : list (Matcher T)) (Ps : list (T -> Prop)) : Prop :=
  all_decide : Forall2 (fun m P => Decides m P) ms Ps.

#[export] Instance AllDecide_nil {T} : @AllDecide T [] [].
Proof. by constructor. Qed.
#[export] Instance AllDecide_cons {T} (m : Matcher T) ms P Ps :
  Decides m P -> AllDecide ms Ps -> AllDecide (m :: ms) (P :: Ps).
Proof. by constructor. Qed.

Lemma extends_refl l : extends l l.
Proof. exists []. destruct l as [t|]; [|done]. cbn. by rewrite app_nil_r. Qed.
Lemma explanation_extends_trans l1 l2 l3 : extends l1 l2 -> extends l2 l3 -> extends l1 l3.
Proof.
  intros [a ->] [b ->]. exists (a ++ b). destruct l1 as [t|]; [|done]. cbn. by rewrite app_assoc.
Qed.
Lemma extends_say e l l' : extends l l' -> extends l (say e l').
Proof. intros H. eapply explanation_extends_trans; [exact H|]. by exists e. Qed.
Lemma extends_print e l l' : extends l l' -> extends l (PrintIfNotEmpty e l').
Proof. unfold PrintIfNotEmpty. case_bool_decide; [done|apply extends_say]. Qed.
Lemma extends_if (c : bool) l l1 l2 : extends l l1 -> extends l l2 -> extends l (if c then l1 else l2).
Proof. by destruct c. Qed.
Lemma extends_none l : extends None l -> l = None.
Proof. by intros [e ->]. Qed.
Lemma extends_interested l l' : extends l l' -> IsInterested l' = IsInterested l.
Proof. intros [e ->]. apply IsInterested_say. Qed.

Create HintDb matchers.
#[export] Hint Resolve extends_refl extends_say extends_print extends_if : matchers.

Lemma said_ok b l l' (P : Prop) : extends l l' -> (b = true <-> P) -> said (Ok (b, l')) l P.
Proof. intros He HP. by exists b, l'. Qed.
Lemma said_iff r l (P Q : Prop) : said r l P -> (P <-> Q) -> said r l Q.
Proof. intros (b & l' & -> & He & Hb) HPQ. apply said_ok; [done|tauto]. Qed.
Lemma said_after r l l' P : extends l l' -> said r l' P -> said r l P.
Proof. intros H (b & l'' & -> & He & Hb). apply said_ok; [by eapply explanation_extends_trans|done]. Qed.

Lemma Decides_iff {T} (m : Matcher T) (P Q : T -> Prop) : Decides m P -> (forall x, P x <-> Q x) -> Decides m Q.
Proof. intros H HPQ x l. eapply said_iff; [apply H|apply HPQ]. Qed.

(** Nobody listens; an inner listener; the value is printed, too. *)
Section run.
Context {T : Type} (m : Matcher T) (P : T -> Prop) `{!Decides m P}.

Lemma Matches_ok x : exists b, Matches m x = Ok b /\ (b = true <-> P x).
Proof. destruct (decides x None) as (b & l & H & _ & Hb). exists b. unfold Matches. by rewrite H. Qed.
Lemma explained_ok x : exists b e, explained m x = Ok (b, e) /\ (b = true <-> P x).
Proof.
  destruct (decides x (Some [])) as (b & l & H & _ & Hb). exists b, (default [] l).
  unfold explained. by rewrite H.
Qed.
Lemma print_ok `{!Printable T} x l : said (MatchPrintAndExplain x m l) l (P x).
Proof.
  unfold MatchPrintAndExplain. destruct (IsInterested l); cbn [negb].
  - destruct (explained_ok x) as (b & e & -> & Hb). apply said_ok; [|done]. auto 6 with matchers.
  - destruct (Matches_ok x) as (b & -> & Hb). apply said_ok; [|done]. auto with matchers.
Qed.
Lemma answer_ok x : answer m x = true <-> P x.
Proof. unfold answer. destruct (Matches_ok x) as (b & -> & Hb). done. Qed.
End run.

(** [run m x as H]: the inner matcher is run on the value. *)
Ltac step_matcher :=
  match goal with
  | |- context [explained ?m ?x] =>
      let b := fresh "b" in let e := fresh "e" in let H := fresh "Hb" in
      destruct (explained_ok m _ x) as (b & e & -> & H); rewrite bind_ok
  | |- context [Matches ?m ?x] =>
      let b := fresh "b" in let H := fresh "Hb" in
      destruct (Matches_ok m _ x) as (b & -> & H); rewrite bind_ok
  end.
Ltac said_done := apply said_ok; [auto 8 with matchers|].

Section leaves.
Context {T : Type}.

#[export] Instance silent_decides d (p : T -> bool) : Decides (silent d p) (fun x => p x = true).
Proof. intros x l. by said_done. Qed.

#[export] Instance Cast_decides {U} (f : T -> U) m P : Decides m P -> Decides (MatcherCast f m) (fun x => P (f x)).
Proof. intros H x l. apply H. Qed.

#[export] Instance Comparison_decides {Rhs} `{!Printable Rhs} a b (Op : T -> Rhs -> bool) rhs :
  Decides (ComparisonBase a b Op rhs) (fun x => Op x rhs = true).
Proof. apply silent_decides. Qed.

#[export] Instance Anything_decides : Decides (@AnythingMatcher T) (fun _ => True).
Proof. intros x l. by said_done. Qed.
#[export] Instance IsNull_decides : Decides (@IsNullMatcher T) (fun p => p = None).
Proof. intros [x|] l; by said_done. Qed.
#[export] Instance NotNull_decides : Decides (@NotNullMatcher T) is_Some.
Proof. intros [x|] l; said_done; [done|]. split; [done|by intros [? ?]]. Qed.
#[export] Instance Ref_decides {A} `{!EqDecision A, !Printable T} (addressof : T -> A) pr o :
  Decides (RefMatcher addressof pr o) (fun x => addressof x = addressof o).
Proof. intros x l. said_done. by rewrite bool_decide_eq_true. Qed.
#[export] Instance Truly_decides (p : T -> bool) : Decides (TrulyMatcher p) (fun x => p x = true).
Proof. intros x l. cbn. destruct (p x); by said_done. Qed.
#[export] Instance IsTrue_decides (p : T -> bool) : Decides (IsTrue p) (fun x => p x = true).
Proof. apply silent_decides. Qed.
#[export] Instance IsFalse_decides (p : T -> bool) : Decides (IsFalse p) (fun x => p x = false).
Proof. intros x l. said_done. apply negb_true_iff. Qed.
End leaves.

(** *** Not, AllOf, AnyOf *)

Section combining_decides.
Context {T : Type}.
Implicit Types (m : Matcher T) (P : T -> Prop).

Lemma negb_iff (b : bool) (P : Prop) : (b = true <-> P) -> (negb b = true <-> ~ P).
Proof. destruct b; cbn; intros H; split; try done; [intros Hn; destruct Hn; by apply H|intros _ HP; by apply H in HP]. Qed.

#[export] Instance Not_decides m P : Decides m P -> Decides (NotMatcherImpl m) (fun x => ~ P x).
Proof.
  intros H x l. cbn. destruct (H x l) as (b & l' & -> & He & Hb). rewrite bind_ok.
  apply said_ok; [done|by apply negb_iff].
Qed.

Lemma all_of_loop_said ms Ps x text_ l : AllDecide ms Ps ->
  said (all_of_loop ms x text_ l) l (Forall (fun P => P x) Ps).
Proof.
  intros H. revert text_. induction H as [|m P ms Ps Hm Hms IH]; intros text_; cbn [all_of_loop].
  - by said_done.
  - step_matcher. destruct b; cbn [negb].
    + eapply said_iff; [apply IH|]. rewrite Forall_cons. tauto.
    + said_done. rewrite Forall_cons. split; [done|]. tauto.
Qed.
#[export] Instance AllOf_decides ms Ps : AllDecide ms Ps ->
  Decides (AllOfMatcherImpl ms) (fun x => Forall (fun P => P x) Ps).
Proof. intros H x l. by apply all_of_loop_said. Qed.

Lemma any_of_loop_said ms Ps x text_ l : AllDecide ms Ps ->
  said (any_of_loop ms x text_ l) l (Exists (fun P => P x) Ps).
Proof.
  intros H. revert text_. induction H as [|m P ms Ps Hm Hms IH]; intros text_; cbn [any_of_loop].
  - said_done. by rewrite Exists_nil.
  - step_matcher. destruct b.
    + said_done. rewrite Exists_cons. tauto.
    + eapply said_iff; [apply IH|]. rewrite Exists_cons. split; [tauto|]. intros [HP|HP]; [by apply Hb in HP|done].
Qed.
#[export] Instance AnyOf_decides ms Ps : AllDecide ms Ps ->
  Decides (AnyOfMatcherImpl ms) (fun x => Exists (fun P => P x) Ps).
Proof. intros H x l. by apply any_of_loop_said. Qed.

#[export] Instance Conditional_decides (c : bool) m1 m2 P1 P2 : Decides m1 P1 -> Decides m2 P2 ->
  Decides (ConditionalMatcher c m1 m2) (fun x => if c then P1 x else P2 x).
Proof. by destruct c. Qed.
End combining_decides.

(** *** Strings *)

Section strings_decide.
Context `{!Printable text}.

Lemma ToLower_nul c : ToLower c = NUL <-> c = NUL.
Proof. split; [|by intros ->]. destruct c as [[] [] [] [] [] [] [] []]; vm_compute; congruence. Qed.

Lemma find_nul_spec s : c_str s = match find_nul s with Some i => take i s | None => s end /\
  match find_nul s with Some i => s = take i s ++ NUL :: drop (i + 1) s | None => True end.
Proof.
  unfold find_nul. induction s as [|c s [IH1 IH2]]; [done|]. cbn [c_str list_find].
  destruct (decide (c = NUL)) as [->|Hc]; [by rewrite bool_decide_eq_true_2|].
  rewrite bool_decide_eq_false_2 by done.
  destruct (list_find (fun c => c = NUL) s) as [[i d]|]; cbn in *; [|by rewrite IH1].
  split; [by rewrite IH1|]. by rewrite <- IH2.
Qed.

Lemma nul_split (a b a' b' : text) : NUL ∉ a -> NUL ∉ a' -> a ++ NUL :: b = a' ++ NUL :: b' -> a = a' /\ b = b'.
Proof.
  revert a'. induction a as [|c a IH]; intros [|c' a'] H H' E.
  - by injection E.
  - injection E as <- _. destruct H'. left.
  - injection E as -> _. destruct H. left.
  - injection E as -> E. destruct (IH a') as [-> ->]; try done; intros Hin; [destruct H|destruct H']; by right.
Qed.

Lemma c_str_no_nul s : NUL ∉ map ToLower (c_str s).
Proof.
  induction s as [|c s IH]; cbn; [inversion 1|]. case_bool_decide as E; [inversion 1|].
  cbn. intros [H|H]%elem_of_cons; [|done]. by apply E, ToLower_nul.
Qed.
Lemma lower_no_nul s : find_nul s = None -> NUL ∉ map ToLower s.
Proof.
  intros H. destruct (find_nul_spec s) as [Hs _]. rewrite H in Hs. rewrite <- Hs. apply c_str_no_nul.
Qed.

Lemma case_insensitive_loop fuel s1 s2 : (length s1 < fuel)%nat ->
  case_insensitive_equals fuel s1 s2 = Ok (bool_decide (map ToLower s1 = map ToLower s2)).
Proof.
  revert s1 s2. induction fuel as [|fuel IH]; intros s1 s2 Hf; [lia|]. cbn [case_insensitive_equals].
  destruct (find_nul_spec s1) as [C1 E1], (find_nul_spec s2) as [C2 E2].
  cbn [Gtest_String.CaseInsensitiveCStringEquals].
  pose proof (c_str_no_nul s1) as N1. pose proof (c_str_no_nul s2) as N2.
  destruct (find_nul s1) as [i1|] eqn:F1, (find_nul s2) as [i2|] eqn:F2; rewrite C1, C2 in *.
  - assert (Hl : map ToLower s1 = map ToLower s2 <-> map ToLower (take i1 s1) = map ToLower (take i2 s2) /\
                 map ToLower (drop (i1 + 1) s1) = map ToLower (drop (i2 + 1) s2)).
    { rewrite E1 at 1. rewrite E2 at 1. rewrite !map_app. cbn [map]. change (ToLower NUL) with NUL.
      split; [by apply nul_split|]. by intros [-> ->]. }
    assert (Hd : (length (drop (i1 + 1) s1) < fuel)%nat).
    { rewrite length_drop. destruct s1; cbn in *; [by destruct i1|lia]. }
    case_bool_decide as H1; cbn [negb].
    + rewrite IH by done. f_equal. apply bool_decide_ext. tauto.
    + by rewrite bool_decide_eq_false_2 by tauto.
  - assert (Hne : map ToLower s1 <> map ToLower s2).
    { intros E. apply (lower_no_nul s2 F2). rewrite <- E, E1, map_app. apply elem_of_app. right. left. }
    rewrite (bool_decide_eq_false_2 (map ToLower s1 = map ToLower s2)) by done. by case_bool_decide.
  - assert (Hne : map ToLower s1 <> map ToLower s2).
    { intros E. apply (lower_no_nul s1 F1). rewrite E, E2, map_app. apply elem_of_app. right. left. }
    rewrite (bool_decide_eq_false_2 (map ToLower s1 = map ToLower s2)) by done. by case_bool_decide.
  - by case_bool_decide.
Qed.
Lemma CaseInsensitiveStringEquals_eq s1 s2 :
  CaseInsensitiveStringEquals s1 s2 = Ok (bool_decide (map ToLower s1 = map ToLower s2)).
Proof. apply case_insensitive_loop. lia. Qed.

(** Equality of strings as the flag says. *)
Definition same_string (case_sensitive : bool) (s1 s2 : text) : Prop :=
  if case_sensitive then s1 = s2 else map ToLower s1 = map ToLower s2.

#[export] Instance StrEquality_decides s expect_eq cs :
  Decides (StrEqualityMatcher s expect_eq cs)
          (fun x => if expect_eq : bool then same_string cs x s else ~ same_string cs x s).
Proof.
  intros x l. unfold StrEqualityMatcher, same_string. cbn [MatchAndExplain]. destruct cs; rewrite ?CaseInsensitiveStringEquals_eq, ?bind_ok; said_done;
    destruct expect_eq; case_bool_decide; cbn; naive_solver.
Qed.
#[export] Instance HasSubstr_decides needle :
  Decides (HasSubstrMatcher needle) (fun s => exists a b, s = a ++ needle ++ b).
Proof. intros x l. said_done. apply occurs_spec. Qed.
#[export] Instance StartsWith_decides prefix : Decides (StartsWithMatcher prefix) (fun s => exists b, s = prefix ++ b).
Proof.
  intros x l. said_done. rewrite andb_true_iff, Nat.leb_le, bool_decide_eq_true. split.
  - intros [_ H]. exists (drop (length prefix) x). rewrite <- H at 1. symmetry. apply take_drop.
  - intros [b ->]. rewrite length_app, take_app_length. split; [lia|done].
Qed.
#[export] Instance EndsWith_decides suffix : Decides (EndsWithMatcher suffix) (fun s => exists a, s = a ++ suffix).
Proof.
  intros x l. said_done. rewrite andb_true_iff, Nat.leb_le, bool_decide_eq_true. split.
  - intros [_ H]. exists (take (length x - length suffix) x). rewrite <- H at 2. symmetry. apply take_drop.
  - intros [a ->]. rewrite length_app. split; [lia|].
    replace (length a + length suffix - length suffix)%nat with (length a) by lia. apply drop_app_length.
Qed.
#[export] Instance Regex_decides pattern full partial (f : bool) :
  Decides (MatchesRegexMatcher pattern full partial f) (fun s => (if f then full s else partial s) = true).
Proof. apply silent_decides. Qed.
#[export] Instance pointer_decides (null_result : bool) m P : Decides m P ->
  Decides (on_pointer null_result m)
          (fun p => match p with None => null_result = true | Some s => P (c_str s) end).
Proof. intros H [s|] l; [apply H|by said_done]. Qed.
End strings_decide.

(** *** Floating point numbers *)

Section floats_decide.
Context (R : RawType) (stream stream_precise : spec_float -> text).

(** NaN equals NaN if that is asked for; other numbers as [equal] says. *)
Definition float_equal (nan_eq_nan : bool) (equal : Prop) (actual expected : Z) : Prop :=
  if is_nan R actual || is_nan R expected
  then is_nan R actual = true /\ is_nan R expected = true /\ nan_eq_nan = true
  else equal.
Definition within (max_abs_error : spec_float) (actual expected : Z) : Prop :=
  SFeqb (value_of R actual) (value_of R expected) = true \/
  SFleb (SFabs (SFsub (digits_ R) (emax_ R) (value_of R actual) (value_of R expected))) max_abs_error = true.

Lemma Floating_decides expected nan_eq_nan max_abs_error :
  Decides (FloatingEqMatcher_Impl R stream stream_precise expected nan_eq_nan max_abs_error)
    (fun actual => float_equal nan_eq_nan
       (if HasMaxAbsError max_abs_error then within max_abs_error actual expected
        else AlmostEquals R actual expected = true) actual expected).
Proof.
  intros actual l. cbn. unfold float_equal, within.
  destruct (is_nan R actual), (is_nan R expected); cbn [orb andb]; try (said_done; naive_solver).
  destruct (HasMaxAbsError max_abs_error); [|by said_done].
  destruct (SFeqb _ _); [said_done; naive_solver|]. destruct (SFleb _ _); said_done; naive_solver.
Qed.
#[export] Instance FloatingEq_decides expected nan_eq_nan :
  Decides (FloatingEqMatcher R stream stream_precise expected nan_eq_nan)
    (fun actual => float_equal nan_eq_nan (AlmostEquals R actual expected = true) actual expected).
Proof. apply Floating_decides. Qed.
Lemma FloatingNear_decides expected nan_eq_nan max_abs_error :
  SFleb (S754_zero false) max_abs_error = true ->
  exists m, FloatingNearMatcher R stream stream_precise expected nan_eq_nan max_abs_error = Ok m /\
    Decides m (fun actual => float_equal nan_eq_nan (within max_abs_error actual expected) actual expected).
Proof.
  intros H. unfold FloatingNearMatcher. rewrite H. eexists. split; [done|].
  eapply Decides_iff; [apply Floating_decides|]. intros x. cbn beta. unfold HasMaxAbsError. by rewrite H.
Qed.
#[export] Instance IsNan_decides : Decides (IsNanMatcher R) (fun f => value_of R f = S754_nan).
Proof. intros x l. said_done. by destruct (value_of R x). Qed.
End floats_decide.

(** *** Pointers, members and exceptions *)

Section members_decide.
Context {T U : Type} `{!Printable U}.
Implicit Types (m : Matcher U) (P : U -> Prop).

Lemma print_after m P x l e : Decides m P -> said (MatchPrintAndExplain x m (say e l)) l (P x).
Proof. intros H. apply said_after with (say e l); [auto with matchers|]. by apply print_ok. Qed.

#[export] Instance Pointee_decides m P : Decides m P ->
  Decides (PointeeMatcher m) (fun p => exists x, p = Some x /\ P x).
Proof.
  intros H [x|] l; cbn.
  - eapply said_iff; [by apply print_after|]. naive_solver.
  - said_done. naive_solver.
Qed.
#[export] Instance Pointer_decides (raw : T -> U) m P : Decides m P ->
  Decides (PointerMatcher raw m) (fun p => P (raw p)).
Proof. intros H x l. by apply print_after. Qed.
#[export] Instance Address_decides (addressof : T -> U) m P : Decides m P ->
  Decides (AddressMatcher addressof m) (fun x => P (addressof x)).
Proof. intros H x l. by apply print_after. Qed.
#[export] Instance Member_decides w (member : T -> U) m P : Decides m P ->
  Decides (MemberMatcher w member m) (fun x => P (member x)).
Proof. intros H x l. by apply print_after. Qed.
#[export] Instance member_of_pointee_decides (m : Matcher T) (P : T -> Prop) : Decides m P ->
  Decides (member_of_pointee m) (fun p => exists x, p = Some x /\ P x).
Proof.
  intros H [x|] l; cbn.
  - eapply said_after; [by apply extends_say, extends_refl|]. eapply said_iff; [apply H|]. naive_solver.
  - said_done. naive_solver.
Qed.
#[export] Instance ResultOf_decides d (f : T -> U) m P : Decides m P ->
  Decides (ResultOfMatcher d f m) (fun x => P (f x)).
Proof. intros H x l. by apply print_after. Qed.
#[export] Instance Optional_decides m P : Decides m P ->
  Decides (OptionalMatcher m) (fun o => exists x, o = Some x /\ P x).
Proof. intros H [x|] l; cbn; [step_matcher|]; said_done; naive_solver. Qed.
#[export] Instance Cast_to_decides kind (cast : T -> option U) m P : Decides m P ->
  Decides (CastMatcher kind cast m) (fun v => exists x, cast v = Some x /\ P x).
Proof.
  intros H v l. cbn. destruct (IsInterested l); cbn [negb]; destruct (cast v) as [x|];
    try step_matcher; said_done; naive_solver.
Qed.
End members_decide.

(** A string outside ASCII can break the decoder; on others the matcher
    decides. *)
Lemma Base64_said `{!Printable text} m P valid bytes s l : Decides m P ->
  Base64Unescape s = Ok (valid, bytes) ->
  said (MatchAndExplain (WhenBase64UnescapedMatcher m) s l) l (valid = true /\ P bytes).
Proof.
  intros H E. cbn. rewrite E, bind_ok. destruct valid; cbn [negb].
  - eapply said_iff; [by apply print_ok|]. tauto.
  - said_done. naive_solver.
Qed.

#[export] Instance WithWhat_decides {E} (what : E -> text) m P : Decides m P ->
  Decides (WithWhatMatcherImpl what m) (fun x => P (what x)).
Proof. intros H x l. eapply said_after; [by apply extends_say, extends_refl|]. apply H. Qed.
#[export] Instance Exception_decides {E} `{!Printable E} (m : Matcher E) P : Decides m P ->
  Decides (ExceptionMatcherImpl m) (fun t => exists err, t = OfType err /\ P err).
Proof.
  intros H [|err|ty what|] l; cbn.
  1, 3, 4: said_done; naive_solver.
  eapply said_after; [by apply extends_say, extends_refl|]. eapply said_iff; [apply H|]. naive_solver.
Qed.

(** *** Containers *)

#[export] Instance SizeIs_decides {C} (size : C -> Z) m P : Decides m P ->
  Decides (SizeIsMatcher size m) (fun c => P (size c)).
Proof. intros H c l. cbn. step_matcher. by said_done. Qed.
#[export] Instance IsEmpty_decides {C} (size : C -> Z) : Decides (IsEmptyMatcher size) (fun c => size c = 0).
Proof. intros c l. cbn. destruct (Z.eqb_spec (size c) 0); by said_done. Qed.

(** How many elements have the property. *)
Inductive counted {E} (P : E -> Prop) : list E -> nat -> Prop :=
  | counted_nil : counted P [] 0
  | counted_yes x xs n : P x -> counted P xs n -> counted P (x :: xs) (S n)
  | counted_no x xs n : ~ P x -> counted P xs n -> counted P (x :: xs) n.

Lemma counted_unique {E} (P : E -> Prop) xs n1 n2 : counted P xs n1 -> counted P xs n2 -> n1 = n2.
Proof. intros H. revert n2. induction H; intros n2 H2; inversion H2; subst; try done; try f_equal; auto. Qed.

Section containers_decide.
Context {E : Type} `{!Printable E}.
Implicit Types (m : Matcher E) (P : E -> Prop).

#[export] Instance Distance_decides (d : Matcher Z) (Q : Z -> Prop) : Decides d Q ->
  Decides (@BeginEndDistanceIsMatcher E d) (fun c => Q (Z.of_nat (length c))).
Proof. intros H c l. cbn. step_matcher. by said_done. Qed.

#[export] Instance ContainerEq_decides `{!EqDecision E, !Printable (list E)} expected :
  Decides (ContainerEqMatcher expected) (fun c => c = expected).
Proof. intros c l. cbn. case_bool_decide; said_done; done. Qed.

#[export] Instance WhenSorted_decides `{!Printable (list E)} (std_sort : list E -> list E)
    (m : Matcher (list E)) (P : list E -> Prop) : Decides m P ->
  Decides (WhenSortedByMatcher std_sort m) (fun c => P (std_sort c)).
Proof. intros H c l. cbn. destruct (IsInterested l); cbn [negb]; step_matcher; by said_done. Qed.

Lemma quantifier_said m P (all : bool) c i l : Decides m P ->
  said (quantifier_loop m all c i l) l (if all then Forall P c else Exists P c).
Proof.
  intros H. revert i. induction c as [|x c IH]; intros i; cbn [quantifier_loop].
  - said_done. destruct all; [done|]. by rewrite Exists_nil.
  - step_matcher. destruct b, all; cbn [Bool.eqb negb].
    + eapply said_iff; [apply IH|]. rewrite Forall_cons. tauto.
    + said_done. rewrite Exists_cons. tauto.
    + said_done. rewrite Forall_cons. split; [done|]. tauto.
    + eapply said_iff; [apply IH|]. cbn beta iota. rewrite Exists_cons.
      split; [tauto|]. intros [HP|HP]; [by apply Hb in HP|done].
Qed.
#[export] Instance Contains_decides m P : Decides m P -> Decides (ContainsMatcher m) (Exists P).
Proof. intros H c l. by apply (quantifier_said m P false). Qed.
#[export] Instance Each_decides m P : Decides m P -> Decides (EachMatcher m) (Forall P).
Proof. intros H c l. by apply (quantifier_said m P true). Qed.

Lemma match_elements_ok m P c i : Decides m P ->
  exists es, match_elements_loop m c i = Ok es /\ counted P c (length es).
Proof.
  intros H. revert i. induction c as [|x c IH]; intros i; cbn [match_elements_loop].
  - exists []. split; [done|constructor].
  - step_matcher. destruct (IH (S i)) as (es & -> & Hc). rewrite bind_ok. eexists. split; [done|].
    destruct b; [apply counted_yes|apply counted_no]; try done; [by apply Hb|]. intros HP. by apply Hb in HP.
Qed.
#[export] Instance Times_decides m P (n : Matcher Z) (Q : Z -> Prop) : Decides m P -> Decides n Q ->
  Decides (ContainsTimesMatcher m n) (fun c => exists k, counted P c k /\ Q (Z.of_nat k)).
Proof.
  intros H Hn c l. cbn [MatchAndExplain ContainsTimesMatcher]. unfold MatchAndExplainImpl_count.
  destruct (match_elements_ok m P c 0 H) as (es & -> & Hc). rewrite bind_ok. step_matcher.
  assert (Hk : (exists k, counted P c k /\ Q (Z.of_nat k)) <-> Q (Z.of_nat (length es))).
  { split; [|by eauto]. intros (k & Hk & HQ). by rewrite (counted_unique _ _ _ _ Hc Hk). }
  destruct b; said_done; rewrite Hk; done.
Qed.

(** *** ElementsAre *)

Lemma elements_loop_ok ms Ps interested xs pos expl : AllDecide ms Ps -> length expl = (pos + length ms)%nat ->
  exists mismatch pos' rest expl', elements_loop interested ms xs pos expl = Ok (mismatch, pos', rest, expl') /\
    length expl' = length expl /\ (pos' + length rest)%nat = (pos + length xs)%nat /\
    (mismatch = true -> (pos' < length expl)%nat) /\
    (length xs = length ms -> (mismatch = false <-> Forall2 (fun P x => P x) Ps xs)).
Proof.
  intros H. revert xs pos expl. induction H as [|m P ms Ps Hm Hms IH]; intros xs pos expl Hl.
  { exists false, pos, xs, expl. destruct xs; cbn in *; repeat split; try done; lia. }
  destruct xs as [|x xs]; cbn [elements_loop].
  { exists false, pos, [], expl. cbn. repeat split; try done; lia. }
  assert (Hs : exists b expl', (if interested then '(b, s) ← explained m x; Ok (b, <[pos := s]> expl)
                                else b ← Matches m x; Ok (b, expl)) = Ok (b, expl') /\
               length expl' = length expl /\ (b = true <-> P x)).
  { destruct interested; step_matcher; do 2 eexists; (split; [done|]); (split; [|exact Hb]).
    - apply length_insert.
    - done. }
  destruct Hs as (b & expl1 & -> & Hl1 & Hb). rewrite bind_ok. cbn in Hl.
  destruct b; cbn [negb].
  - destruct (IH xs (S pos) expl1 ltac:(lia)) as (mis & pos' & rest & expl' & -> & H1 & H2 & H3 & H4).
    exists mis, pos', rest, expl'. cbn [length]. split_and!; [done|lia|lia| |].
    + rewrite <- Hl1. done.
    + intros Hlen. rewrite H4 by lia. split; [by constructor; [apply Hb|]|by inversion 1].
  - exists true, pos, (x :: xs), expl1. split_and!; try done; [lia|]. intros _. split; [done|].
    inversion 1; subst. naive_solver.
Qed.

#[export] Instance ElementsAre_decides ms Ps : AllDecide ms Ps ->
  Decides (ElementsAreMatcherImpl ms) (fun xs => Forall2 (fun P x => P x) Ps xs).
Proof.
  intros H xs l. cbn [MatchAndExplain ElementsAreMatcherImpl].
  destruct (elements_loop_ok ms Ps (IsInterested l) xs 0 (replicate (length ms) []) H ltac:(by rewrite length_replicate))
    as (mis & pos & rest & expl & -> & H1 & H2 & H3 & H4). rewrite bind_ok. cbn beta iota.
  rewrite length_replicate in H1, H3. cbn in H2. pose proof (Forall2_length _ _ _ H) as HlP.
  destruct (Nat.eqb_spec (pos + length rest) (length ms)) as [Hc|Hc]; cbn [negb].
  2:{ said_done. split; [done|]. intros HF%Forall2_length. lia. }
  specialize (H4 ltac:(lia)). destruct mis.
  - destruct (IsInterested l).
    + destruct (lookup_lt_is_Some_2 expl pos) as [e He]; [rewrite H1; by apply H3|]. rewrite He. cbn.
      said_done. by rewrite <- H4.
    + said_done. by rewrite <- H4.
  - said_done. by rewrite <- H4.
Qed.

(** *** UnorderedElementsAre *)

(** Some elements and some properties are assigned to each other as the flag
    asks for: each property has its element, each element its property. *)
Definition assigned (f : Flags) (Ps : list (E -> Prop)) (xs : list E) : Prop :=
  match f with
  | ExactMatch => exists Ps', Ps ≡ₚ Ps' /\ Forall2 (fun P x => P x) Ps' xs
  | Superset => exists xs', xs' ⊆+ xs /\ Forall2 (fun P x => P x) Ps xs'
  | Subset => exists Ps', Ps' ⊆+ Ps /\ Forall2 (fun P x => P x) Ps' xs
  end.

Lemma Forall2_Permutation_r {A B} (R : A -> B -> Prop) la la' lb : la ≡ₚ la' -> Forall2 R la lb ->
  exists lb', lb ≡ₚ lb' /\ Forall2 R la' lb'.
Proof.
  intros Hp. revert lb. induction Hp as [|a la la' _ IH|a b la|la1 la2 la3 _ IH1 _ IH2]; intros lb HF.
  - by exists lb.
  - inversion HF as [|? y ? lb0 Hy HF']; subst. destruct (IH lb0 HF') as (lb' & Hp & HF2).
    exists (y :: lb'). split; [by rewrite Hp|by constructor].
  - inversion HF as [|? y ? lb0 Hy HF']; subst. inversion HF' as [|? z ? lb1 Hz HF'']; subst.
    exists (z :: y :: lb1). split; [constructor|by repeat constructor].
  - destruct (IH1 lb HF) as (lb1 & Hp1 & HF1). destruct (IH2 lb1 HF1) as (lb2 & Hp2 & HF2).
    exists lb2. split; [by rewrite Hp1|done].
Qed.
Lemma Forall2_submseteq_r {A B} (R : A -> B -> Prop) la' la lb : la' ⊆+ la -> Forall2 R la lb ->
  exists lb', lb' ⊆+ lb /\ Forall2 R la' lb'.
Proof.
  intros [k Hk]%submseteq_Permutation HF. destruct (Forall2_Permutation_r R _ _ _ Hk HF) as (lb1 & Hp & HF1).
  apply Forall2_app_inv_l in HF1 as (lb2 & lb3 & H2 & _ & ->). exists lb2. split; [|done].
  rewrite Hp. apply submseteq_inserts_r. done.
Qed.

Lemma decides_pointwise ms Ps : AllDecide ms Ps ->
  Forall2 (fun (p : E -> bool) P => forall x, p x = true <-> P x) (answer <$> ms) Ps.
Proof.
  intros H. apply Forall2_fmap_l. eapply Forall2_impl; [exact H|]. intros m P Hm x. by apply answer_ok.
Qed.
Lemma pointwise_Forall2 ps Ps xs : Forall2 (fun (p : E -> bool) P => forall x, p x = true <-> P x) ps Ps ->
  Forall2 (fun p x => p x = true) ps xs <-> Forall2 (fun P x => P x) Ps xs.
Proof.
  intros H. revert xs. induction H as [|p P ps Ps Hp _ IH]; intros xs.
  - split; inversion 1; constructor.
  - split; inversion 1; subst; constructor; try (by apply Hp); by apply IH.
Qed.

Lemma satisfied_assigned f ps Ps xs : Forall2 (fun (p : E -> bool) P => forall x, p x = true <-> P x) ps Ps ->
  satisfied f ps xs <-> assigned f Ps xs.
Proof.
  intros H. pose proof H as H'. apply Forall2_flip in H'. destruct f; cbn.
  - split.
    + intros (xs' & Hs & HF). exists xs'. split; [done|]. apply (pointwise_Forall2 ps); [done|].
      apply Forall2_flip in HF. exact HF.
    + intros (xs' & Hs & HF). exists xs'. split; [done|]. apply (pointwise_Forall2 ps) in HF; [|done].
      apply Forall2_flip. exact HF.
  - split.
    + intros (ps' & Hs & HF). destruct (Forall2_submseteq_r _ _ _ _ Hs H) as (Ps' & HsP & HP).
      exists Ps'. split; [done|]. apply (pointwise_Forall2 ps'); [done|exact HF].
    + intros (Ps' & Hs & HF). destruct (Forall2_submseteq_r _ _ _ _ Hs H') as (ps' & Hsp & HP).
      exists ps'. split; [done|]. apply Forall2_flip in HP. by apply (pointwise_Forall2 ps') in HF.
  - split.
    + intros (ps' & Hs & HF). destruct (Forall2_Permutation_r _ _ _ _ Hs H) as (Ps' & HsP & HP).
      exists Ps'. split; [done|]. apply (pointwise_Forall2 ps'); [done|]. apply Forall2_flip. exact HF.
    + intros (Ps' & Hs & HF). destruct (Forall2_Permutation_r _ _ _ _ Hs H') as (ps' & Hsp & HP).
      exists ps'. split; [done|]. apply Forall2_flip in HP. apply (pointwise_Forall2 ps') in HF; [|done].
      apply Forall2_flip. exact HF.
Qed.
End containers_decide.

(** The matcher only writes to the listener. *)
Definition writes (r : outcome (bool * listener)) (l : listener) : Prop :=
  forall b l', r = Ok (b, l') -> extends l l'.

Lemma writes_ok b l l' : extends l l' -> writes (Ok (b, l')) l.
Proof. intros H b1 l1 [= _ <-]. done. Qed.
Lemma writes_err f l : writes (Err f) l.
Proof. by intros ? ?. Qed.
Lemma writes_bind {A} (r : outcome A) k l : (forall a, writes (k a) l) -> writes (r ≫= k) l.
Proof. intros H. destruct r; [apply H|apply writes_err]. Qed.
Lemma writes_then (r : outcome (bool * listener)) k l : writes r l ->
  (forall b l', extends l l' -> writes (k (b, l')) l') -> writes (r ≫= k) l.
Proof.
  intros H Hk. destruct r as [[b l']|]; [|apply writes_err]. intros b2 l2 E2.
  eapply explanation_extends_trans; [by eapply H|]. eapply Hk; [by eapply H|exact E2].
Qed.
Lemma writes_from r l l' : extends l l' -> writes r l' -> writes r l.
Proof. intros H Hr b l2 E. eapply explanation_extends_trans; [exact H|by eapply Hr]. Qed.

Lemma unmatched_matchers_writes ds mi sep v result l : writes (unmatched_matchers ds mi sep v result l) l.
Proof.
  revert mi sep result l. induction v as [|[] v IH]; intros mi sep result l; cbn [unmatched_matchers].
  - apply writes_ok, extends_refl.
  - apply IH.
  - destruct (IsInterested l); [|apply IH]. apply writes_bind. intros d.
    eapply writes_from; [|apply IH]. apply extends_say, extends_refl.
Qed.
Lemma unmatched_elements_writes ps ei osep sep v result l : writes (unmatched_elements ps ei osep sep v result l) l.
Proof.
  revert ei osep sep result l. induction v as [|[] v IH]; intros ei osep sep result l; cbn [unmatched_elements].
  - apply writes_ok, extends_refl.
  - apply IH.
  - destruct (IsInterested l); [|apply IH]. apply writes_bind. intros d.
    eapply writes_from; [|apply IH]. apply extends_say, extends_refl.
Qed.
Lemma VerifyMatchMatrix_writes f ds ps g l : writes (VerifyMatchMatrix f ds ps g l) l.
Proof.
  unfold VerifyMatchMatrix. destruct (_ && _); [apply writes_ok, extends_refl|].
  set (l1 := if _ && _ then say _ l else l).
  apply writes_from with l1. { apply extends_if; [apply extends_say|]; apply extends_refl. }
  apply writes_bind. intros [em mm]. apply writes_then.
  - destruct (has_Superset f); [apply unmatched_matchers_writes|apply writes_ok, extends_refl].
  - intros b l2 _. destruct (has_Subset f); [apply unmatched_elements_writes|apply writes_ok, extends_refl].
Qed.
Lemma FindPairing_writes f g l : writes (FindPairing f g l) l.
Proof.
  unfold FindPairing. apply writes_bind. intros M.
  repeat case_match; apply writes_ok; auto with matchers.
Qed.
Lemma Bipartite_writes {E} (print : E -> text) f ds ms es l : writes (Bipartite.MatchAndExplain print f ds ms es l) l.
Proof.
  unfold Bipartite.MatchAndExplain. apply writes_bind. intros [ps g]. apply writes_then.
  - apply VerifyMatchMatrix_writes.
  - intros b l' _. destruct b; [apply FindPairing_writes|apply writes_ok, extends_refl].
Qed.

Section unordered_decides.
Context {E : Type} `{!Printable E}.

Lemma mapM_total {A B} (f : A -> outcome B) xs : (forall x, x ∈ xs -> exists y, f x = Ok y) ->
  exists ys, mapM f xs = Ok ys.
Proof.
  induction xs as [|x xs IH]; intros H; [by exists []|]. cbn.
  destruct (H x ltac:(left)) as [y ->]. rewrite bind_ok.
  destruct IH as [ys ->]; [intros x' Hx'; apply H; by right|]. by eexists.
Qed.

#[export] Instance Unordered_decides f (ms : list (Matcher E)) Ps : AllDecide ms Ps ->
  Decides (UnorderedElementsAreMatcherImpl f ms) (assigned f Ps).
Proof.
  intros H xs l. cbn [MatchAndExplain UnorderedElementsAreMatcherImpl].
  destruct (mapM_total (fun elem => mapM (fun m => Matches m elem) ms) xs) as [ys ->].
  { intros x _. apply mapM_total. intros m Hm. apply list_elem_of_lookup in Hm as [i Hi].
    destruct (Forall2_lookup_l _ _ _ _ _ H Hi) as (P & _ & HP).
    destruct (Matches_ok m P x) as (b & Hb & _). by exists b. }
  rewrite bind_ok.
  destruct (MatchAndExplain_decides PrintToString f (describer <$> ms) (answer <$> ms) xs l) as (b & l' & Heq & Hb).
  { by rewrite !length_fmap. }
  exists b, l'. split; [exact Heq|]. split; [by eapply Bipartite_writes|].
  rewrite Hb. apply satisfied_assigned. by apply decides_pointwise.
Qed.
End unordered_decides.

(** *** Pointwise *)

Section pointwise_decides.
Context {L E : Type} `{!Printable L, !Printable E, !Printable (list E)}.
Context (m : Matcher (L * E)) (P : L * E -> Prop) `{!Decides m P}.

Lemma pointwise_said xs ys i l : length xs = length ys ->
  said (pointwise_loop m xs ys i l) l (Forall2 (fun x y => P (x, y)) xs ys).
Proof.
  revert ys i. induction xs as [|x xs IH]; intros [|y ys] i Hl; try done; cbn [pointwise_loop].
  { said_done. split; [constructor|done]. }
  injection Hl as Hl. destruct (IsInterested l); step_matcher; destruct b; cbn [negb].
  1, 3: eapply said_iff; [by apply IH|]; rewrite Forall2_cons; naive_solver.
  all: said_done; rewrite Forall2_cons; naive_solver.
Qed.
#[export] Instance Pointwise_decides rhs :
  Decides (PointwiseMatcher m rhs) (fun lhs => Forall2 (fun x y => P (x, y)) lhs rhs).
Proof.
  intros xs l. cbn [MatchAndExplain PointwiseMatcher].
  destruct (Nat.eqb_spec (length xs) (length rhs)) as [H|H]; cbn [negb]; [by apply pointwise_said|].
  said_done. split; [done|]. by intros ?%Forall2_length.
Qed.
#[export] Instance BoundSecond_decides y : Decides (BoundSecondMatcher m y) (fun x => P (x, y)).
Proof. intros x l. exact (decides (x, y) l). Qed.
#[export] Instance UnorderedPointwise_decides rhs :
  Decides (UnorderedPointwise m rhs) (assigned ExactMatch ((fun y x => P (x, y)) <$> rhs)).
Proof.
  apply Unordered_decides. apply Forall2_fmap_l, Forall2_fmap_r. apply Forall_Forall2_diag, Forall_true.
  intros y. apply BoundSecond_decides.
Qed.
End pointwise_decides.

(** *** Pairs and tuples *)

Section pair_decides.
Context {K V : Type} (m1 : Matcher K) (P1 : K -> Prop) `{!Decides m1 P1}.

#[export] Instance Key_decides : Decides (@KeyMatcherImpl K V m1) (fun p => P1 p.1).
Proof. intros p l. cbn. step_matcher. said_done. done. Qed.
#[export] Instance Pair_decides (m2 : Matcher V) (P2 : V -> Prop) : Decides m2 P2 ->
  Decides (PairMatcherImpl m1 m2) (fun p => P1 p.1 /\ P2 p.2).
Proof.
  intros H [k v] l. cbn [MatchAndExplain PairMatcherImpl fst snd].
  destruct (IsInterested l); cbn [negb]; step_matcher; destruct b; cbn [negb]; try step_matcher;
    try (destruct b; cbn [negb]); said_done; naive_solver.
Qed.
End pair_decides.

(** A property of each field. *)
Fixpoint TupleProp (Ts : list Type) : Type :=
  match Ts with [] => unit | T :: Ts => (T -> Prop) * TupleProp Ts end.
Fixpoint tuple_decides {Ts} (ms : MatcherTuple Ts) : TupleProp Ts -> Prop :=
  match ms with
  | NoMatchers => fun _ => True
  | MoreMatchers m ms => fun Ps => Decides m Ps.1 /\ tuple_decides ms Ps.2
  end.
Fixpoint fields_hold {Ts} : TupleProp Ts -> ValueTuple Ts -> Prop :=
  match Ts with
  | [] => fun _ _ => True
  | T :: Ts => fun Ps values => Ps.1 values.1 /\ fields_hold Ps.2 values.2
  end.

Lemma TupleMatches_ok {Ts} (ms : MatcherTuple Ts) Ps values : tuple_decides ms Ps ->
  exists b, TupleMatches ms values = Ok b /\ (b = true <-> fields_hold Ps values).
Proof.
  revert Ps values. induction ms as [|T Ts m print ms IH]; intros Ps values H; [by exists true|].
  destruct H as [H1 H2]. cbn [TupleMatches fields_hold]. step_matcher. destruct b.
  - destruct (IH _ values.2 H2) as (b & -> & Hb2). exists b. split; [done|]. rewrite Hb2. naive_solver.
  - exists false. split; [done|]. naive_solver.
Qed.

Lemma fields_loop_ok {Ts} n (ms : MatcherTuple Ts) Ps values : tuple_decides ms Ps ->
  exists failed_pos explanations, fields_loop n ms values = Ok (failed_pos, explanations) /\
    match failed_pos with
    | None => fields_hold Ps values
    | Some k => ~ fields_hold Ps values /\ (n <= k < n + length explanations)%nat
    end.
Proof.
  revert n Ps values. induction ms as [|T Ts m print ms IH]; intros n Ps values H; [by exists None, []|].
  destruct H as [H1 H2]. cbn [fields_loop fields_hold]. step_matcher. destruct b; cbn [negb].
  - destruct (IH (S n) _ values.2 H2) as ([k|] & es & -> & Hk); do 2 eexists; (split; [done|]).
    + cbn [length]. split; [naive_solver|lia].
    + split; [by apply Hb|done].
  - do 2 eexists. split; [done|]. cbn [length]. split; [naive_solver|lia].
Qed.

Lemma FieldsAre_decides {S_ Ts} (unpack : S_ -> ValueTuple Ts) (ms : MatcherTuple Ts) Ps : tuple_decides ms Ps ->
  Decides (FieldsAreMatcherImpl unpack ms) (fun s => fields_hold Ps (unpack s)).
Proof.
  intros H s l. cbn [MatchAndExplain FieldsAreMatcherImpl]. destruct (IsInterested l); cbn [negb].
  - destruct (fields_loop_ok 0 ms Ps (unpack s) H) as ([k|] & es & -> & Hk); rewrite bind_ok.
    + destruct Hk as [Hn Hk]. destruct (lookup_lt_is_Some_2 es k) as [e He]; [lia|]. rewrite He. cbn.
      said_done. split; [done|naive_solver].
    + said_done. done.
  - destruct (TupleMatches_ok ms Ps (unpack s) H) as (b & -> & Hb). by said_done.
Qed.

#[export] Instance Args_decides {A S_} `{!Printable S_} k (select : A -> S_) m P : Decides m P ->
  Decides (ArgsMatcherImpl k select m) (fun args => P (select args)).
Proof. intros H args l. cbn. destruct (IsInterested l); cbn [negb]; step_matcher; by said_done. Qed.

(** *** The arguments of a call *)

Lemma ExplainFailures_ok {Ts} n (ms : MatcherTuple Ts) Ps values : tuple_decides ms Ps ->
  exists t, ExplainMatchFailuresTo n ms values = Ok t /\ (t = [] <-> fields_hold Ps values).
Proof.
  revert n Ps values. induction ms as [|T Ts m print ms IH]; intros n Ps values H; [by exists []|].
  destruct H as [H1 H2]. cbn [ExplainMatchFailuresTo fields_hold]. step_matcher.
  destruct (IH (S n) _ values.2 H2) as (t & -> & Ht). rewrite bind_ok. eexists. split; [done|].
  destruct b; [rewrite Ht; naive_solver|]. split; [done|]. naive_solver.
Qed.

(** [ExplainMatchFailureTupleTo] writes nothing exactly if [TupleMatches] holds,
    which is when every argument has the property of its matcher. *)
Theorem call_arguments_explained {Ts} (ms : MatcherTuple Ts) Ps values (H : tuple_decides ms Ps) :
  exists b t, TupleMatches ms values = Ok b /\ ExplainMatchFailureTupleTo ms values = Ok t /\
    (b = true <-> fields_hold Ps values) /\ (t = [] <-> b = true).
Proof.
  destruct (TupleMatches_ok ms Ps values H) as (b & Hm & Hb).
  destruct (ExplainFailures_ok 0 ms Ps values H) as (t & He & Ht).
  exists b, t. split_and!; try done; [apply Hb..|]. by rewrite Ht, Hb.
Qed.

(** ** Theorems *)

(** C39. What the matchers a test writes decide.  If the inner matchers return and
    decide properties, whoever listens and only writing to the listener, so do the
    combinators: [Not] the negation, [AllOf] and [AnyOf] the conjunction and
    disjunction over their list (though they stop early and collect
    explanations), [Each] and [Contains] the quantifiers over the elements,
    [Contains(m).Times(n)] the property of the number of elements that match,
    [ElementsAre] one property per element in order, [UnorderedElementsAre],
    [IsSupersetOf] and [IsSubsetOf] the existence of an assignment, [Pair], [Key],
    [Optional], [Pointee], [Field], [ResultOf] and [ThrowsMessage] the properties
    of the parts; the string matchers decide equality up to case, substrings,
    prefixes and suffixes, with embedded NULs, and [DoubleEq] closeness in ULPs
    with NaN equal to nothing. *)
Theorem matchers_decide {T U : Type} `{!Printable T, !Printable U, !Printable (list T), !Printable text}
    (m : Matcher T) P (m2 : Matcher U) P2 (ms : list (Matcher T)) (Ps : list (T -> Prop)) (n : Matcher Z) Q
    (ts : Matcher text) R (member : U -> T) (what : T -> text) (s : text)
    (stream stream_precise : spec_float -> text) (rhs : Z)
    (Hm : Decides m P) (Hm2 : Decides m2 P2) (Hms : AllDecide ms Ps) (Hn : Decides n Q) (Hts : Decides ts R) :
  (Decides (Make.Not m) (fun x => ~ P x) /\
   Decides (Make.AllOf ms) (fun x => Forall (fun P => P x) Ps) /\
   Decides (Make.AnyOf ms) (fun x => Exists (fun P => P x) Ps)) /\
  (Decides (Make.Each m) (Forall P) /\ Decides (Make.Contains m) (Exists P) /\
   Decides (Make.Contains_Times m n) (fun xs => exists k, counted P xs k /\ Q (Z.of_nat k)) /\
   Decides (Make.ElementsAre ms) (fun xs => Forall2 (fun P x => P x) Ps xs) /\
   Decides (Make.UnorderedElementsAre ms) (assigned ExactMatch Ps) /\
   Decides (Make.IsSupersetOf ms) (assigned Superset Ps) /\ Decides (Make.IsSubsetOf ms) (assigned Subset Ps)) /\
  (Decides (Make.Pair m m2) (fun p => P p.1 /\ P2 p.2) /\
   Decides (@Make.Key T U m) (fun p => P p.1) /\
   Decides (Make.Optional m) (fun o => exists x, o = Some x /\ P x) /\
   Decides (Make.Pointee m) (fun o => exists x, o = Some x /\ P x) /\
   Decides (Make.Field member m) (fun x => P (member x)) /\
   Decides (Make.ResultOf member m) (fun x => P (member x)) /\
   Decides (Make.ThrowsMessage what ts) (fun t => exists err, t = OfType err /\ R (what err))) /\
  (Decides (Make.StrEq s) (fun x => x = s) /\ Decides (Make.StrNe s) (fun x => x <> s) /\
   Decides (Make.StrCaseEq s) (fun x => map ToLower x = map ToLower s) /\
   Decides (Make.StrCaseNe s) (fun x => map ToLower x <> map ToLower s) /\
   Decides (Make.HasSubstr s) (fun x => exists a b, x = a ++ s ++ b) /\
   Decides (Make.StartsWith s) (fun x => exists b, x = s ++ b) /\
   Decides (Make.EndsWith s) (fun x => exists a, x = a ++ s)) /\
  Decides (Make.DoubleEq stream stream_precise rhs)
    (fun x => is_nan Double x = false /\ is_nan Double rhs = false /\ AlmostEquals Double x rhs = true).
Proof.
  split_and!; try exact _.
  - exact (StrEquality_decides s true true).
  - exact (StrEquality_decides s false true).
  - exact (StrEquality_decides s true false).
  - exact (StrEquality_decides s false false).
  - eapply Decides_iff; [apply FloatingEq_decides|]. intros x. unfold float_equal.
    destruct (is_nan Double x), (is_nan Double rhs); cbn; naive_solver.
Qed.

#[export] Instance Printable_Z : Printable Z :=
  {| UniversalPrint := dec; PrintToString := dec; TypeName := str "int" |}.
#[export] Instance Printable_list_Z : Printable (list Z) :=
  let print xs := str "{ " ++ join (str ", ") (dec <$> xs) ++ str " }" in
  {| UniversalPrint := print; PrintToString := print; TypeName := str "std::vector<int>" |}.
#[export] Instance Printable_text : Printable text :=
  {| UniversalPrint := PrintStringTo true; PrintToString := PrintStringTo true; TypeName := str "std::string" |}.

(** [AllOf(Gt(1), Not(Eq(5)))] on 3 and on 5. *)
Definition sample_matchers : list (Matcher Z) :=
  [GtMatcher Z.gtb 1; NotMatcherImpl (EqMatcher Z.eqb 5)].
Definition sample_properties : list (Z -> Prop) :=
  [fun x => (x >? 1) = true; fun x => ~ (x =? 5) = true].
Lemma sample_decides : AllDecide sample_matchers sample_properties.
Proof. apply AllDecide_cons; [exact _|]. apply AllDecide_cons; exact _. Qed.

Lemma matchers_decide_witness :
  MatchAndExplain (AllOfMatcherImpl sample_matchers) 5 (Some []) =
    Ok (false, Some (str "which doesn't match (isn't equal to 5)")) /\
  MatchAndExplain (UnorderedElementsAreMatcherImpl (E := Z) ExactMatch sample_matchers) [5; 3] None = Ok (true, None) /\
  said (MatchAndExplain (AllOfMatcherImpl sample_matchers) 3 None) None
       (Forall (fun P => P 3) sample_properties).
Proof.
  split; [vm_compute; reflexivity|]. split; [vm_compute; reflexivity|].
  destruct (@matchers_decide Z Z _ _ _ _ (EqMatcher Z.eqb 5) (fun x => (x =? 5) = true)
              (EqMatcher Z.eqb 5) (fun x => (x =? 5) = true) sample_matchers sample_properties
              (EqMatcher Z.eqb 5) (fun x => (x =? 5) = true) (HasSubstrMatcher []) _ id dec []
              (fun _ => []) (fun _ => []) 0 _ _ sample_decides _ _) as ((_ & H & _) & _).
  exact (H 3 None).
Defined.

(** C40. [EXPECT_THAT] succeeds exactly if the value has the property of the
    matcher, and then has no message.  Otherwise the message names the value as
    the test writes it, what the matcher expects, and the value as it is printed,
    with its type if the name is readable and with the explanation of the
    matcher, if it has one; it never says that the matcher passed when it was run
    again. *)
Theorem EXPECT_THAT_correct {T : Type} `{!Printable T} (m : Matcher T) P (value_text : text) (x : T)
    (Hm : Decides m P) :
  exists r, PredicateFormatterFromMatcher m value_text x = Ok r /\
    (success_ r = true <-> P x) /\
    (success_ r = true -> message_ r = None) /\
    (success_ r = false -> exists explanation, explained m x = Ok (false, explanation) /\
       message_ r = Some (c_str (StringStreamToString
         (str "Value of: " ++ value_text ++ [LF] ++ str "Expected: " ++ describes m ++ [LF] ++
          str "  Actual: " ++ UniversalPrint x ++
          (if IsReadableTypeName (TypeName T) then str " (of type " ++ TypeName T ++ str ")" else []) ++
          (if bool_decide (explanation = []) then [] else str ", " ++ explanation))))).
Proof.
  unfold PredicateFormatterFromMatcher.
  destruct (Matches_ok m P x) as (b & -> & Hb). rewrite bind_ok. destruct b.
  { exists AssertionSuccess. split_and!; try done. }
  unfold MatchPrintAndExplain. change (negb (IsInterested (Some []))) with false. cbn iota.
  destruct (explained_ok m P x) as (b & e & He & Hb').
  assert (b = false) as -> by (destruct b; [|done]; symmetry; apply Hb, Hb'; done).
  rewrite He, !bind_ok.
  eexists. split; [done|]. cbn [success_ AppendMessage AssertionFailure message_ default].
  split; [exact Hb|]. split; [done|]. intros _. exists e. split; [done|]. do 3 f_equal.
  unfold PrintIfNotEmpty. rewrite <- !app_assoc. cbn [app].
  destruct (IsReadableTypeName _), (bool_decide (e = [])); cbn [say fmap option_fmap option_map default];
    rewrite ?app_nil_r, <- ?app_assoc; done.
Qed.

Lemma EXPECT_THAT_correct_witness :
  exists r, PredicateFormatterFromMatcher (T := Z) (EqMatcher Z.eqb 5) (str "n") 3 = Ok r /\
    message_ r = Some (str "Value of: n" ++ [LF] ++ str "Expected: is equal to 5" ++ [LF] ++
                       str "  Actual: 3 (of type int)") /\ ~ (3 =? 5) = true.
Proof.
  destruct (@EXPECT_THAT_correct Z _ (EqMatcher Z.eqb 5) (fun x => (x =? 5) = true) (str "n") 3 _)
    as (r & H1 & H2 & _ & H4).
  exists r. split; [exact H1|]. split; [|discriminate].
  assert (Hr : PredicateFormatterFromMatcher (T := Z) (EqMatcher Z.eqb 5) (str "n") 3 =
               Ok (mkAssertionResult false (Some (str "Value of: n" ++ [LF] ++ str "Expected: is equal to 5" ++
                     [LF] ++ str "  Actual: 3 (of type int)")))) by (vm_compute; reflexivity).
  rewrite H1 in Hr. injection Hr as ->. reflexivity.
Defined.
