(* ===== verification/UnitTest.v ===== *)
(** * The unit test: registration of tests and its state (gtest.cc,
    gtest-internal-inl.h)

    [UnitTestImpl] without the parts that only a run uses: the suites and their
    order, the global environments, the result of assertions outside of tests,
    the counts of suites, how a test is registered, and the list that
    [--gtest_list_tests] prints.  The map from names to suites is looked up in
    the list of suites itself, which it indexes. *)

From S2P Require Import Prelude Outcome Common CStr FilePath TestFilter TestResult TestSelect.

(** An environment is known by its identity. *)
Record UnitTest : Type := mkUnitTest {
  unit_suites : Suites; environments_ : list Z; unit_ad_hoc : TestResult;
  original_working_dir_ : FilePath; random_seed_ : Z; random_state_ : Z;
  unit_start_timestamp_ : Z; unit_elapsed_time_ : Z }.

Definition with_suites (u : UnitTest) (s : Suites) : UnitTest :=
  mkUnitTest s (environments_ u) (unit_ad_hoc u) (original_working_dir_ u) (random_seed_ u)
    (random_state_ u) (unit_start_timestamp_ u) (unit_elapsed_time_ u).
Definition with_environments (u : UnitTest) (e : list Z) : UnitTest :=
  mkUnitTest (unit_suites u) e (unit_ad_hoc u) (original_working_dir_ u) (random_seed_ u)
    (random_state_ u) (unit_start_timestamp_ u) (unit_elapsed_time_ u).
Definition with_ad_hoc (u : UnitTest) (r : TestResult) : UnitTest :=
  mkUnitTest (unit_suites u) (environments_ u) r (original_working_dir_ u) (random_seed_ u)
    (random_state_ u) (unit_start_timestamp_ u) (unit_elapsed_time_ u).
Definition with_random (u : UnitTest) (seed state : Z) : UnitTest :=
  mkUnitTest (unit_suites u) (environments_ u) (unit_ad_hoc u) (original_working_dir_ u) seed
    state (unit_start_timestamp_ u) (unit_elapsed_time_ u).
Definition with_unit_times (u : UnitTest) (start elapsed : Z) : UnitTest :=
  mkUnitTest (unit_suites u) (environments_ u) (unit_ad_hoc u) (original_working_dir_ u)
    (random_seed_ u) (random_state_ u) start elapsed.

(** The constructor: -1 is no death test suite; the seeds are overwritten later. *)
Definition new_Suites : Suites := mkSuites [] [] (-1).
Definition new_UnitTest : UnitTest :=
  mkUnitTest new_Suites [] new_TestResult FilePath_empty 0 0 0 0.

(** ** Counts of suites *)

Definition TestSuitePassed (s : TestSuite) : outcome bool :=
  if suite_should_run_ s then suite_Passed s else Ok false.
Definition TestSuiteFailed (s : TestSuite) : outcome bool :=
  if suite_should_run_ s then suite_Failed s else Ok false.

(** [CountIf] with a predicate that counts itself. *)
Definition count_suites (f : TestSuite -> outcome bool) (suites : list TestSuite) : outcome Z :=
  foldl (fun count s => n ← count; b ← f s; if b : bool then iadd n 1 else Ok n) (Ok 0) suites.

Definition successful_test_suite_count (u : UnitTest) : outcome Z :=
  count_suites TestSuitePassed (test_suites_ (unit_suites u)).
Definition failed_test_suite_count (u : UnitTest) : outcome Z :=
  count_suites TestSuiteFailed (test_suites_ (unit_suites u)).
Definition total_test_suite_count (u : UnitTest) : Z :=
  Z.of_nat (length (test_suites_ (unit_suites u))).
Definition test_suite_to_run_count (u : UnitTest) : outcome Z :=
  CountIf (test_suites_ (unit_suites u)) suite_should_run_.

(** [UnitTestImpl::Failed] and [Passed]. *)
Definition unit_Failed (u : UnitTest) : outcome bool :=
  n ← failed_test_suite_count u; Ok ((0 <? n) || Failed (unit_ad_hoc u)).
Definition unit_Passed (u : UnitTest) : outcome bool := f ← unit_Failed u; Ok (negb f).

(** ** Registration *)

Definition kDeathTestSuiteFilter : text := str "*DeathTest:*DeathTest/*".

Definition is_death_test_suite (name : text) : bool :=
  MatchesName (UnitTestFilter_of kDeathTestSuiteFilter) name.

Definition new_TestSuite (a_name : text) (a_type_param : option text)
    (set_up_tc tear_down_tc : option Z) : TestSuite :=
  mkTestSuite a_name a_type_param [] [] set_up_tc tear_down_tc false new_TestResult 0 0.

(** [vector::insert] at [begin() + i]. *)
Definition insert_suite (i : Z) (s : TestSuite) (suites : list TestSuite)
    : outcome (list TestSuite) :=
  if (0 <=? i) && (i <=? Z.of_nat (length suites))
  then Ok (take (Z.to_nat i) suites ++ s :: drop (Z.to_nat i) suites)
  else Err InvalidIterator.

Definition find_suite (name : text) (suites : list TestSuite) : option nat :=
  fst <$> list_find (fun s => suite_name_ s = name) suites.

(** The end of [UnitTestImpl::GetTestSuite], which creates the suite. *)
Definition create_suite (u : Suites) (test_suite_name : text) (type_param : option text)
    (set_up_tc tear_down_tc : option Z) : outcome (Suites * nat) :=
  let new_test_suite := new_TestSuite test_suite_name type_param set_up_tc tear_down_tc in
  let indices := test_suite_indices_ u ++ [Z.of_nat (length (test_suite_indices_ u))] in
  if is_death_test_suite test_suite_name then
    last_death ← iadd (last_death_test_suite_ u) 1;
    suites ← insert_suite last_death new_test_suite (test_suites_ u);
    Ok (mkSuites suites indices last_death, Z.to_nat last_death)
  else
    Ok (mkSuites (test_suites_ u ++ [new_test_suite]) indices (last_death_test_suite_ u),
        length (test_suites_ u)).

(** [UnitTestImpl::GetTestSuite]: the suites, and where the suite is among them. *)
Definition GetTestSuite_named (u : Suites) (test_suite_name : text) (type_param : option text)
    (set_up_tc tear_down_tc : option Z) : outcome (Suites * nat) :=
  if match last (test_suites_ u) with
     | Some s => bool_decide (suite_name_ s = test_suite_name)
     | None => false
     end
  then Ok (u, (length (test_suites_ u) - 1)%nat)
  else match find_suite test_suite_name (test_suites_ u) with
       | Some i => Ok (u, i)
       | None => create_suite u test_suite_name type_param set_up_tc tear_down_tc
       end.

(** The constructor of [TestInfo]. *)
Definition new_TestInfo (a_test_suite_name a_name : text) (a_type_param a_value_param : option text)
    (a_code_location : CodeLocation) (fixture_class_id factory : Z) : TestInfo :=
  mkTestInfo a_test_suite_name a_name a_type_param a_value_param a_code_location fixture_class_id
    false false false false factory new_TestResult.

Section registration.
Context {FS : Type} `{!FileSystem FS}.

(** [UnitTestImpl::AddTestInfo]. *)
Definition unit_AddTestInfo (fs : FS) (u : UnitTest) (set_up_tc tear_down_tc : option Z)
    (test_info : TestInfo) : outcome UnitTest :=
  dir ← (if IsEmpty (original_working_dir_ u)
         then let d := GetCurrentDir fs in _ ← c_assert (negb (IsEmpty d)); Ok d
         else Ok (original_working_dir_ u));
  '(suites, i) ← GetTestSuite_named (unit_suites u) (test_suite_name_ test_info)
                   (type_param_ test_info) set_up_tc tear_down_tc;
  s ← or_fault InvalidDeref (test_suites_ suites !! i);
  Ok (mkUnitTest (mkSuites (<[i := AddTestInfo s test_info]> (test_suites_ suites))
                    (test_suite_indices_ suites) (last_death_test_suite_ suites))
        (environments_ u) (unit_ad_hoc u) dir (random_seed_ u) (random_state_ u)
        (unit_start_timestamp_ u) (unit_elapsed_time_ u)).

Definition MakeAndRegisterTestInfo (fs : FS) (u : UnitTest) (test_suite_name name : text)
    (type_param value_param : option text) (code_location : CodeLocation) (fixture_class_id : Z)
    (set_up_tc tear_down_tc : option Z) (factory : Z) : outcome UnitTest :=
  unit_AddTestInfo fs u set_up_tc tear_down_tc
    (new_TestInfo test_suite_name name type_param value_param code_location fixture_class_id
       factory).

End registration.

(** [AddEnvironment]; null is not added. *)
Definition AddEnvironment (u : UnitTest) (env : option Z) : UnitTest :=
  match env with
  | None => u
  | Some env => with_environments u (environments_ u ++ [env])
  end.

(** [ClearNonAdHocTestResult]. *)
Definition ClearNonAdHocTestResult (u : UnitTest) : UnitTest :=
  let s := unit_suites u in
  with_suites u (mkSuites (map ClearResult (test_suites_ s)) (test_suite_indices_ s)
                   (last_death_test_suite_ s)).

(** ** The list of tests *)

Definition kTypeParamLabel : text := str "TypeParam".
Definition kValueParamLabel : text := str "GetParam()".
Definition kMaxParamLength : Z := 250.

(** The loop of [PrintOnOneLine] from [i] on. *)
Fixpoint on_one_line (s : text) (max_length i : Z) : text :=
  match s with
  | [] => []
  | c :: s => if max_length <=? i then str "..."
              else if bool_decide (c = LF) then str "\n" ++ on_one_line s max_length (i + 2)
              else c :: on_one_line s max_length (i + 1)
  end.
Definition PrintOnOneLine (s : option text) (max_length : Z) : text :=
  match s with None => [] | Some s => on_one_line (c_str s) max_length 0 end.

(** A label with a parameter, as a comment. *)
Definition param_comment (label : text) (param : option text) : text :=
  match param with
  | None => []
  | Some _ => str "  # " ++ label ++ str " = " ++ PrintOnOneLine param kMaxParamLength
  end.

(** The inner loop of [ListTestsMatchingFilter]. *)
Fixpoint list_tests (s : TestSuite) (tests : list TestInfo) (printed_test_suite_name : bool)
    : text :=
  match tests with
  | [] => []
  | t :: tests =>
      if matches_filter_ t then
        (if printed_test_suite_name then []
         else suite_name_ s ++ str "." ++ param_comment kTypeParamLabel (suite_type_param_ s) ++
              [LF]) ++
        str "  " ++ test_name_ t ++ param_comment kValueParamLabel (value_param_ t) ++ LF ::
        list_tests s tests true
      else list_tests s tests printed_test_suite_name
  end.

(** What [ListTestsMatchingFilter] prints. *)
Definition tests_listed (suites : list TestSuite) : text :=
  flat_map (fun s => list_tests s (test_info_list_ s) false) suites.

(** ** Registration keeps the suites in order *)

Definition identity_order (n : nat) : list Z := map Z.of_nat (seq 0 n).

Lemma identity_order_S n : identity_order (S n) = identity_order n ++ [Z.of_nat n].
Proof. unfold identity_order. by rewrite seq_S, map_app. Qed.

Lemma identity_order_length n : length (identity_order n) = n.
Proof. unfold identity_order. by rewrite length_map, length_seq. Qed.

(** A suite that has its tests in the order of registration. *)
Definition suite_registered (s : TestSuite) : Prop :=
  test_indices_ s = identity_order (length (test_info_list_ s)) /\
  Forall (fun t => test_suite_name_ t = suite_name_ s) (test_info_list_ s).

(** The death test suites come first, and no two suites have the same name. *)
Record registered (u : Suites) : Prop := {
  reg_order : test_suite_indices_ u = identity_order (length (test_suites_ u));
  reg_names : NoDup (map suite_name_ (test_suites_ u));
  reg_suites : Forall suite_registered (test_suites_ u);
  reg_deaths : exists deaths others, test_suites_ u = deaths ++ others /\
    last_death_test_suite_ u = Z.of_nat (length deaths) - 1 /\
    Forall (fun s => is_death_test_suite (suite_name_ s) = true) deaths /\
    Forall (fun s => is_death_test_suite (suite_name_ s) = false) others }.

Lemma registered_empty : registered new_Suites.
Proof. split; simpl; [done|constructor|constructor|]. by exists [], []. Qed.

(** The tests registered under a name. *)
Definition tests_named (name : text) (suites : list TestSuite) : list TestInfo :=
  flat_map (fun s => if decide (suite_name_ s = name) then test_info_list_ s else []) suites.

Lemma tests_named_app name l1 l2 : tests_named name (l1 ++ l2) = tests_named name l1 ++ tests_named name l2.
Proof. unfold tests_named. by rewrite flat_map_app. Qed.

Lemma tests_named_absent name l : name ∉ map suite_name_ l -> tests_named name l = [].
Proof.
  induction l as [|s l IH]; simpl; [done|]. rewrite not_elem_of_cons. intros [Hs Hl].
  by rewrite decide_False, IH by done.
Qed.

Lemma find_suite_spec name suites :
  match find_suite name suites with
  | Some i => exists s, suites !! i = Some s /\ suite_name_ s = name
  | None => name ∉ map suite_name_ suites
  end.
Proof.
  unfold find_suite. destruct (list_find _ suites) as [[i s]|] eqn:E; simpl.
  - apply list_find_Some in E as (Hi & Hn & _). eauto.
  - apply list_find_None in E. rewrite list_elem_of_fmap. intros (s & -> & Hs).
    by apply (proj1 (Forall_forall _ _) E s Hs).
Qed.

(** The names of the suites after a name has been looked up: deaths, others. *)
Definition add_name (names : list text * list text) (name : text) : list text * list text :=
  if decide (name ∈ fst names ++ snd names) then names
  else if is_death_test_suite name then (fst names ++ [name], snd names)
  else (fst names, snd names ++ [name]).

Definition names_of (u : Suites) : list text * list text :=
  let n := Z.to_nat (last_death_test_suite_ u + 1) in
  (take n (map suite_name_ (test_suites_ u)), drop n (map suite_name_ (test_suites_ u))).

Lemma names_of_app deaths others idx :
  names_of (mkSuites (deaths ++ others) idx (Z.of_nat (length deaths) - 1)) =
  (map suite_name_ deaths, map suite_name_ others).
Proof.
  unfold names_of. cbn [test_suites_ last_death_test_suite_]. rewrite map_app.
  replace (Z.to_nat _) with (length (map suite_name_ deaths)) by (rewrite length_map; lia).
  by rewrite take_app_length, drop_app_length.
Qed.

Lemma create_suite_spec u name tp su td :
  registered u -> name ∉ map suite_name_ (test_suites_ u) ->
  Z.of_nat (length (test_suites_ u)) < INT_MAX ->
  exists u' i, create_suite u name tp su td = Ok (u', i) /\ registered u' /\
    test_suites_ u' !! i = Some (new_TestSuite name tp su td) /\
    length (test_suites_ u') = S (length (test_suites_ u)) /\
    (forall n, tests_named n (test_suites_ u') = tests_named n (test_suites_ u)) /\
    names_of u' = add_name (names_of u) name.
Proof.
  intros [Horder Hnames Hsuites (deaths & others & Hu & Hlast & Hd & Ho)] Hnew Hmax.
  destruct u as [suites idx last_]. cbn [test_suites_ test_suite_indices_ last_death_test_suite_] in *.
  subst suites idx last_. rewrite length_app in Hmax.
  set (s := new_TestSuite name tp su td).
  assert (Hs : suite_registered s) by (split; [done | constructor]).
  assert (Hreg : forall deaths' others' idx,
    deaths' ++ others' ≡ₚ s :: deaths ++ others ->
    idx = identity_order (length (deaths' ++ others')) ->
    Forall (fun s => is_death_test_suite (suite_name_ s) = true) deaths' ->
    Forall (fun s => is_death_test_suite (suite_name_ s) = false) others' ->
    registered (mkSuites (deaths' ++ others') idx (Z.of_nat (length deaths') - 1))).
  { intros deaths' others' idx HP -> Hd' Ho'. split; cbn [test_suites_ test_suite_indices_]; [done| | |].
    - eapply (NoDup_Permutation_proper _ _ (fmap_Permutation suite_name_ _ _ HP)).
      simpl. by constructor.
    - rewrite HP. by constructor.
    - by exists deaths', others'. }
  unfold create_suite. fold s. cbn [test_suites_ test_suite_indices_ last_death_test_suite_].
  rewrite identity_order_length, <- identity_order_S.
  assert (Hname : add_name (names_of (mkSuites (deaths ++ others)
            (identity_order (length (deaths ++ others))) (Z.of_nat (length deaths) - 1))) name =
          if is_death_test_suite name then (map suite_name_ (deaths ++ [s]), map suite_name_ others)
          else (map suite_name_ deaths, map suite_name_ (others ++ [s]))).
  { unfold add_name. rewrite names_of_app. cbn [fst snd]. rewrite decide_False by (by rewrite <- map_app).
    by rewrite !map_app. }
  rewrite Hname. clear Hname. destruct (is_death_test_suite name) eqn:Edeath.
  - rewrite iadd_ok by range. rewrite bind_ok.
    replace (Z.of_nat (length deaths) - 1 + 1) with (Z.of_nat (length deaths)) by lia.
    unfold insert_suite. rewrite length_app, (proj2 (Z.leb_le 0 _)), (proj2 (Z.leb_le _ _)) by lia.
    cbn [andb]. rewrite Nat2Z.id, take_app_length, drop_app_length, bind_ok.
    replace (deaths ++ s :: others) with ((deaths ++ [s]) ++ others) by by rewrite <- app_assoc.
    exists (mkSuites ((deaths ++ [s]) ++ others) (identity_order (S (length deaths + length others)))
              (Z.of_nat (length (deaths ++ [s])) - 1)), (length deaths).
    split; [do 3 f_equal; rewrite length_app; simpl; lia|]. split_and!.
    + apply Hreg; [by rewrite <- Permutation_middle, app_nil_r| |apply Forall_app; auto|done].
      f_equal. rewrite !length_app. simpl. lia.
    + cbn [test_suites_]. rewrite <- app_assoc. by apply list_lookup_middle.
    + cbn [test_suites_]. rewrite !length_app. simpl. lia.
    + intros n. cbn [test_suites_]. rewrite !tests_named_app. simpl. by case_decide; rewrite app_nil_r.
    + apply names_of_app.
  - rewrite <- app_assoc. do 2 eexists. split; [done|]. split_and!.
    + apply Hreg; [| |done|apply Forall_app; auto].
      * rewrite app_assoc. symmetry. apply Permutation_cons_append.
      * f_equal. rewrite !length_app. simpl. lia.
    + cbn [test_suites_]. rewrite app_assoc. by apply list_lookup_middle.
    + cbn [test_suites_]. rewrite !length_app. simpl. lia.
    + intros n. cbn [test_suites_]. rewrite !tests_named_app. simpl. by case_decide; rewrite !app_nil_r.
    + apply names_of_app.
Qed.

Lemma add_name_old u name i s :
  registered u -> test_suites_ u !! i = Some s -> suite_name_ s = name ->
  add_name (names_of u) name = names_of u.
Proof.
  intros _ Hi <-. unfold add_name, names_of. cbn [fst snd]. rewrite take_drop.
  rewrite decide_True; [done|]. apply list_elem_of_fmap. exists s. split; [done|].
  by eapply list_elem_of_lookup_2.
Qed.

(** Adding a test to its suite. *)
Lemma registered_insert u i s t :
  registered u -> test_suites_ u !! i = Some s -> test_suite_name_ t = suite_name_ s ->
  let u' := mkSuites (<[i := AddTestInfo s t]> (test_suites_ u)) (test_suite_indices_ u)
              (last_death_test_suite_ u) in
  registered u' /\ names_of u' = names_of u /\
  forall n, tests_named n (test_suites_ u') =
            tests_named n (test_suites_ u) ++ if decide (test_suite_name_ t = n) then [t] else [].
Proof.
  intros [Horder Hnames Hsuites Hdeaths] Hi Ht u'.
  assert (Hmap : map suite_name_ (test_suites_ u') = map suite_name_ (test_suites_ u)).
  { unfold u'. cbn [test_suites_]. change (map suite_name_) with (fmap suite_name_ (M := list)).
    rewrite list_fmap_insert. apply list_insert_id. by rewrite list_lookup_fmap, Hi. }
  split; [split|split].
  - unfold u'. cbn [test_suites_ test_suite_indices_]. by rewrite length_insert.
  - by rewrite Hmap.
  - apply Forall_insert; [done|]. destruct (proj1 (Forall_lookup _ _) Hsuites _ _ Hi) as [Hidx Hall].
    split; unfold AddTestInfo; cbn [test_indices_ test_info_list_ with_tests suite_name_].
    + rewrite Hidx, length_app, Nat.add_1_r, identity_order_S, identity_order_length. done.
    + apply Forall_app. auto.
  - destruct Hdeaths as (deaths & others & Hu & Hlast & Hd & Ho).
    exists (take (length deaths) (test_suites_ u')), (drop (length deaths) (test_suites_ u')).
    split; [by rewrite take_drop|].
    assert (Hlen : length (take (length deaths) (test_suites_ u')) = length deaths).
    { rewrite length_take. unfold u'. cbn [test_suites_]. rewrite length_insert, Hu, length_app. lia. }
    rewrite Hlen. split; [done|].
    assert (Hf : forall l l' b, map suite_name_ l = map suite_name_ l' ->
      Forall (fun s => is_death_test_suite (suite_name_ s) = b) l' ->
      Forall (fun s => is_death_test_suite (suite_name_ s) = b) l).
    { intros l l' b E H. apply (Forall_map suite_name_ (fun n => is_death_test_suite n = b)).
      rewrite E. by apply Forall_map. }
    split; [eapply Hf; [|exact Hd] | eapply Hf; [|exact Ho]].
    + by rewrite <- firstn_map, Hmap, Hu, map_app, take_app_length' by (by rewrite length_map).
    + by rewrite <- skipn_map, Hmap, Hu, map_app, drop_app_length' by (by rewrite length_map).
  - unfold names_of. by rewrite Hmap.
  - intros n. unfold u'. cbn [test_suites_]. clear u' Hmap Horder Hsuites Hdeaths.
    apply list_elem_of_split_length in Hi as (l1 & l2 & E & ->). rewrite E in Hnames |- *.
    rewrite insert_middle, !tests_named_app.
    assert (Hn2 : tests_named n (s :: l2) ++ (if decide (test_suite_name_ t = n) then [t] else []) =
                  tests_named n (AddTestInfo s t :: l2)); [|by rewrite <- Hn2, app_assoc].
    change (tests_named n (s :: l2)) with
      ((if decide (suite_name_ s = n) then test_info_list_ s else []) ++ tests_named n l2).
    change (tests_named n (AddTestInfo s t :: l2)) with
      ((if decide (suite_name_ s = n) then test_info_list_ s ++ [t] else []) ++ tests_named n l2).
    rewrite <- Ht. case_decide as En; [|by rewrite app_nil_r].
    rewrite (tests_named_absent n l2), !app_nil_r; [done|].
    rewrite map_app in Hnames. apply NoDup_app in Hnames as (_ & _ & Hn).
    simpl in Hn. apply NoDup_cons in Hn as [Hn _]. congruence.
Qed.

Section registration_run.
Context {FS : Type} `{!FileSystem FS} (fs : FS).

(** The arguments of a registration that matter here. *)
Record Registration : Type := mkRegistration {
  reg_set_up : option Z; reg_tear_down : option Z; reg_test : TestInfo }.

Definition register_all (rs : list Registration) (u : UnitTest) : outcome UnitTest :=
  foldl (fun u r => u ← u; unit_AddTestInfo fs u (reg_set_up r) (reg_tear_down r) (reg_test r))
    (Ok u) rs.

Lemma GetTestSuite_named_spec u name tp su td :
  registered u -> Z.of_nat (length (test_suites_ u)) < INT_MAX ->
  exists u' i s, GetTestSuite_named u name tp su td = Ok (u', i) /\ registered u' /\
    test_suites_ u' !! i = Some s /\ suite_name_ s = name /\
    (length (test_suites_ u') <= S (length (test_suites_ u)))%nat /\
    (forall n, tests_named n (test_suites_ u') = tests_named n (test_suites_ u)) /\
    names_of u' = add_name (names_of u) name.
Proof.
  intros Hreg Hmax. unfold GetTestSuite_named.
  assert (Hold : forall i s, test_suites_ u !! i = Some s -> suite_name_ s = name ->
    exists u' i0 s, Ok (u, i) = Ok (u', i0) /\ registered u' /\
      test_suites_ u' !! i0 = Some s /\ suite_name_ s = name /\
      (length (test_suites_ u') <= S (length (test_suites_ u)))%nat /\
      (forall n, tests_named n (test_suites_ u') = tests_named n (test_suites_ u)) /\
      names_of u' = add_name (names_of u) name).
  { intros i s Hi Hs. exists u, i, s. split_and!; try done; [lia|].
    by rewrite (add_name_old u name i s). }
  assert (Hfind : exists u' i s,
    match find_suite name (test_suites_ u) with
    | Some i => Ok (u, i) | None => create_suite u name tp su td end = Ok (u', i) /\
    registered u' /\ test_suites_ u' !! i = Some s /\ suite_name_ s = name /\
    (length (test_suites_ u') <= S (length (test_suites_ u)))%nat /\
    (forall n, tests_named n (test_suites_ u') = tests_named n (test_suites_ u)) /\
    names_of u' = add_name (names_of u) name).
  { pose proof (find_suite_spec name (test_suites_ u)) as Hf.
    destruct (find_suite name (test_suites_ u)) as [i|].
    - destruct Hf as (s & Hi & Hs). by eapply Hold.
    - destruct (create_suite_spec u name tp su td Hreg Hf Hmax) as
        (u' & i & -> & Hr & Hi & Hl & Ht & Hn).
      exists u', i. eexists. split_and!; [done|done|exact Hi|done|lia|done|done]. }
  destruct (last (test_suites_ u)) as [s|] eqn:El; [|exact Hfind].
  case_bool_decide as Hs; [|exact Hfind]. eapply Hold; [|exact Hs].
  rewrite last_lookup in El. by replace (_ - 1)%nat with (Nat.pred (length (test_suites_ u))) by lia.
Qed.

Lemma unit_AddTestInfo_spec u r :
  registered (unit_suites u) ->
  Z.of_nat (length (test_suites_ (unit_suites u))) < INT_MAX ->
  IsEmpty (GetCurrentDir fs) = false ->
  exists u', unit_AddTestInfo fs u (reg_set_up r) (reg_tear_down r) (reg_test r) = Ok u' /\
    registered (unit_suites u') /\
    (length (test_suites_ (unit_suites u')) <= S (length (test_suites_ (unit_suites u))))%nat /\
    (forall n, tests_named n (test_suites_ (unit_suites u')) =
               tests_named n (test_suites_ (unit_suites u)) ++
               if decide (test_suite_name_ (reg_test r) = n) then [reg_test r] else []) /\
    names_of (unit_suites u') = add_name (names_of (unit_suites u)) (test_suite_name_ (reg_test r)).
Proof.
  intros Hreg Hmax Hdir. unfold unit_AddTestInfo.
  destruct (GetTestSuite_named_spec (unit_suites u) (test_suite_name_ (reg_test r))
              (type_param_ (reg_test r)) (reg_set_up r) (reg_tear_down r) Hreg Hmax) as
    (s1 & i & s & E & Hr1 & Hi & Hs & Hl & Ht & Hn).
  destruct (registered_insert s1 i s (reg_test r) Hr1 Hi (eq_sym Hs)) as (Hr2 & Hn2 & Ht2).
  set (dir := if IsEmpty (original_working_dir_ u) then _ else _).
  assert (Hd : exists d, dir = Ok d).
  { unfold dir. destruct (IsEmpty (original_working_dir_ u)); [|eauto]. cbn zeta.
    rewrite Hdir. by eexists. }
  clearbody dir. destruct Hd as (d & ->). rewrite bind_ok, E, bind_ok, Hi. cbn [or_fault].
  rewrite bind_ok. eexists. split; [done|]. cbn [unit_suites]. split_and!; [exact Hr2| |..].
  - cbn [test_suites_]. by rewrite length_insert.
  - intros n. by rewrite Ht2, Ht.
  - by rewrite Hn2.
Qed.

End registration_run.

(** ** Registration of tests: what the unit test holds

    Every [TEST], [TEST_F] and [RegisterTest] ends in [AddTestInfo]; the theorem
    says where the tests are after any sequence of registrations. *)

Section run.
Context {FS : Type} `{!FileSystem FS} (fs : FS).

Lemma register_all_from rs u :
  registered (unit_suites u) ->
  Z.of_nat (length (test_suites_ (unit_suites u)) + length rs) < INT_MAX ->
  IsEmpty (GetCurrentDir fs) = false ->
  exists u', register_all fs rs u = Ok u' /\ registered (unit_suites u') /\
    (forall n, tests_named n (test_suites_ (unit_suites u')) =
               tests_named n (test_suites_ (unit_suites u)) ++
               List.filter (fun t => bool_decide (test_suite_name_ t = n)) (map reg_test rs)) /\
    names_of (unit_suites u') =
      foldl add_name (names_of (unit_suites u)) (map (fun r => test_suite_name_ (reg_test r)) rs).
Proof.
  intros Hreg Hmax Hdir. unfold register_all. revert u Hreg Hmax.
  induction rs as [|r rs IH]; intros u Hreg Hmax.
  { exists u. split_and!; try done. intros n. by rewrite app_nil_r. }
  cbn [length] in Hmax. cbn [foldl map List.filter]. rewrite bind_ok.
  destruct (unit_AddTestInfo_spec fs u r Hreg) as (u1 & -> & Hr1 & Hl1 & Ht1 & Hn1); [lia|done|].
  destruct (IH u1 Hr1) as (u2 & E & Hr2 & Ht2 & Hn2); [lia|].
  exists u2. split; [exact E|]. split; [exact Hr2|]. split; [|by rewrite Hn2, Hn1].
  intros n. rewrite Ht2, Ht1, <- app_assoc. case_bool_decide; [by rewrite decide_True|by rewrite decide_False].
Qed.

End run.

(** C24. Registration: after any sequence of registrations in an empty unit test
    (fewer than INT_MAX, and the current directory can be inspected) no check
    fails; every suite exists once, the death test suites before the others and
    each group in the order in which its first test was registered; a suite
    holds exactly the tests registered under its name, in that order, and the
    running order is the order of registration. *)
Theorem registration_correct {FS} `{!FileSystem FS} (fs : FS) rs :
  Z.of_nat (length rs) < INT_MAX -> IsEmpty (GetCurrentDir fs) = false ->
  exists u, register_all fs rs new_UnitTest = Ok u /\ registered (unit_suites u) /\
    (forall n, tests_named n (test_suites_ (unit_suites u)) =
               List.filter (fun t => bool_decide (test_suite_name_ t = n)) (map reg_test rs)) /\
    names_of (unit_suites u) =
      foldl add_name ([], []) (map (fun r => test_suite_name_ (reg_test r)) rs).
Proof.
  intros Hmax Hdir.
  destruct (register_all_from fs rs new_UnitTest registered_empty) as (u & E & Hr & Ht & Hn);
    [exact Hmax|done|]. exists u. split_and!; [exact E|exact Hr|exact Ht|exact Hn].
Qed.

(** A file system with one directory. *)
#[local] Instance one_directory : FileSystem unit := {
  fs_stat _ _ := Some true; fs_mkdir _ _ := (true, tt); fs_getcwd _ := Some (str "/tmp") }.

Definition registered_as (suite test : String.string) : Registration :=
  mkRegistration None None
    (new_TestInfo (str suite) (str test) None None (mkCodeLocation (str "a.cc") 1) 7 0).

Lemma registration_correct_witness :
  exists u, register_all tt [registered_as "Book" "A"; registered_as "SideDeathTest" "B";
                             registered_as "Level" "C"; registered_as "Book" "D"] new_UnitTest = Ok u /\
    registered (unit_suites u) /\
    tests_named (str "Book") (test_suites_ (unit_suites u)) =
      map reg_test [registered_as "Book" "A"; registered_as "Book" "D"] /\
    names_of (unit_suites u) = ([str "SideDeathTest"], [str "Book"; str "Level"]).
Proof.
  destruct (registration_correct tt [registered_as "Book" "A"; registered_as "SideDeathTest" "B";
                             registered_as "Level" "C"; registered_as "Book" "D"]) as (u & E & Hr & Ht & Hn);
    [reflexivity|reflexivity|].
  exists u. split; [exact E|]. split; [exact Hr|]. split; [rewrite Ht; reflexivity|].
  rewrite Hn. vm_compute. reflexivity.
Defined.
