(* ===== verification/ReportFormat.v ===== *)
(** * Numbers, times and text as the reports of GoogleTest write them (gtest.cc)

    Seconds as doubles with a chosen number of decimals or in the default format
    of a stream ([%g] with six digits), dates from [localtime_r], which is a
    parameter, and the counted nouns of the console. *)

From S2P Require Import Prelude Outcome Common CStr Price Format.
From Stdlib Require Import SpecFloat.

(** The texts of a sequence of writes to a stream. *)
Definition emit {A} (writes : list (outcome (list A))) : outcome (list A) :=
  foldr (fun w rest => a ← w; b ← rest; Ok (a ++ b)) (Ok []) writes.

(** ** Doubles in decimal *)

(** The magnitude [m * 2 ^ e] times [10 ^ k], rounded to the nearest integer. *)
Definition scaled (m : positive) (e k : Z) : Z :=
  div_half_even (Zpos m * 2 ^ Z.max 0 e * 10 ^ Z.max 0 k) (2 ^ Z.max 0 (- e) * 10 ^ Z.max 0 (- k)).

Definition sign_text (negative : bool) : text := if negative then str "-" else [].

(** [p] decimals of the number [c / 10 ^ p]; the point is always shown. *)
Definition decimals (p c : Z) : text :=
  dec (c / 10 ^ p) ++ str "." ++ (if p =? 0 then [] else pad_left "0" p (dec (c mod 10 ^ p))).

(** [std::fixed << std::setprecision(p) << std::showpoint << f]. *)
Definition print_fixed_showpoint (p : Z) (f : spec_float) : text :=
  match f with
  | S754_nan => str "nan"
  | S754_infinity s => sign_text s ++ str "inf"
  | S754_zero s => sign_text s ++ decimals p 0
  | S754_finite s m e => sign_text s ++ decimals p (scaled m e p)
  end.

(** The exponent of the leading digit, at least [- fuel]. *)
Fixpoint low_exponent (fuel : nat) (m : positive) (e k : Z) : Z :=
  match fuel with
  | O => - k
  | S fuel =>
      if 2 ^ Z.max 0 (- e) <=? Zpos m * 2 ^ Z.max 0 e * 10 ^ k then - k
      else low_exponent fuel m e (k + 1)
  end.
Definition leading_exponent (m : positive) (e : Z) : Z :=
  let whole := (Zpos m * 2 ^ Z.max 0 e) / 2 ^ Z.max 0 (- e) in
  if 0 <? whole then Z.of_nat (length (dec whole)) - 1 else low_exponent 400 m e 1.

Fixpoint strip_zeros (s : text) : text :=
  match s with
  | c :: s' => if bool_decide (c = "0"%char) then strip_zeros s' else s
  | [] => []
  end.
(** The zeros at the end of the decimals, and the point if none is left. *)
Definition strip_decimals (s : text) : text :=
  match strip_zeros (rev s) with
  | c :: s' => if bool_decide (c = "."%char) then rev s' else rev (c :: s')
  | [] => []
  end.

(** [stream << f] of a double: [%g] with precision 6. *)
Definition print_general (f : spec_float) : text :=
  match f with
  | S754_nan => str "nan"
  | S754_infinity s => sign_text s ++ str "inf"
  | S754_zero s => sign_text s ++ str "0"
  | S754_finite s m e =>
      let x := leading_exponent m e in
      let q := scaled m e (5 - x) in
      let '(q, x) := if q =? 10 ^ 6 then (10 ^ 5, x + 1) else (q, x) in
      sign_text s ++
      if (x <? -4) || (6 <=? x) then
        strip_decimals (decimals 5 q) ++ str "e" ++ (if x <? 0 then str "-" else str "+") ++
        pad_left "0" 2 (dec (Z.abs x))
      else strip_decimals (decimals (5 - x) q)
  end.

(** [static_cast<double>(ms) * 1e-3]. *)
Definition seconds_of (ms : Z) : spec_float :=
  SFmul prec emax (double_of_Z ms) (double_of_frac 1 1000).

Definition FormatTimeInMillisAsSeconds (ms : Z) : text :=
  print_fixed_showpoint
    (if Z.rem ms 1000 =? 0 then 0 else if Z.rem ms 100 =? 0 then 1
     else if Z.rem ms 10 =? 0 then 2 else 3)
    (seconds_of ms).

Definition FormatTimeInMillisAsDuration (ms : Z) : text := print_general (seconds_of ms) ++ str "s".

(** ** Dates *)

Record tm : Type := mk_tm {
  tm_year : Z; tm_mon : Z; tm_mday : Z; tm_hour : Z; tm_min : Z; tm_sec : Z }.

Section dates.
Variable localtime_r : Z -> option tm.

Definition PortableLocaltime (seconds : Z) : option tm := localtime_r seconds.

Definition FormatEpochTimeInMillisAsIso8601 (ms : Z) : outcome text :=
  match PortableLocaltime (Z.quot ms 1000) with
  | None => Ok []
  | Some time_struct =>
      year ← iadd (tm_year time_struct) 1900;
      mon ← iadd (tm_mon time_struct) 1;
      Ok (dec year ++ str "-" ++ Gtest_String.FormatIntWidth2 mon ++ str "-" ++
          Gtest_String.FormatIntWidth2 (tm_mday time_struct) ++ str "T" ++
          Gtest_String.FormatIntWidth2 (tm_hour time_struct) ++ str ":" ++
          Gtest_String.FormatIntWidth2 (tm_min time_struct) ++ str ":" ++
          Gtest_String.FormatIntWidth2 (tm_sec time_struct) ++ str "." ++
          Gtest_String.FormatIntWidthN (Z.rem ms 1000) 3)
  end.

Definition FormatEpochTimeInMillisAsRFC3339 (ms : Z) : outcome text :=
  match PortableLocaltime (Z.quot ms 1000) with
  | None => Ok []
  | Some time_struct =>
      year ← iadd (tm_year time_struct) 1900;
      mon ← iadd (tm_mon time_struct) 1;
      Ok (dec year ++ str "-" ++ Gtest_String.FormatIntWidth2 mon ++ str "-" ++
          Gtest_String.FormatIntWidth2 (tm_mday time_struct) ++ str "T" ++
          Gtest_String.FormatIntWidth2 (tm_hour time_struct) ++ str ":" ++
          Gtest_String.FormatIntWidth2 (tm_min time_struct) ++ str ":" ++
          Gtest_String.FormatIntWidth2 (tm_sec time_struct) ++ str "Z")
  end.

End dates.

(** ** Counted nouns *)

Definition FormatCountableNoun (count : Z) (singular_form plural_form : text) : text :=
  dec count ++ str " " ++ if count =? 1 then singular_form else plural_form.
Definition FormatTestCount (test_count : Z) : text :=
  FormatCountableNoun test_count (str "test") (str "tests").
Definition FormatTestSuiteCount (test_suite_count : Z) : text :=
  FormatCountableNoun test_suite_count (str "test suite") (str "test suites").

(** ** Examples *)

Example seconds_examples :
  map FormatTimeInMillisAsSeconds [0; 10; 300; 2000; 1234; -500; 1234567] =
  map str ["0."; "0.01"; "0.3"; "2."; "1.234"; "-0.5"; "1234.567"].
Proof. vm_compute. reflexivity. Qed.

Example duration_examples :
  map FormatTimeInMillisAsDuration [0; 3; 10; 200; 3000; 1234567; 1234567890; 9999999] =
  map str ["0s"; "0.003s"; "0.01s"; "0.2s"; "3s"; "1234.57s"; "1.23457e+06s"; "10000s"].
Proof. vm_compute. reflexivity. Qed.
