(* ===== verification/CommandLine.v ===== *)
(** * The flags and the command line of GoogleTest (gtest.cc)

    The variables [FLAGS_gtest_...], their values from the environment, the
    parser of the command line, which removes what it recognises from [argv],
    the file of flags, the coloured help text, and what [--gtest_output] means.
    A flag is a constructor of the enumeration of its type and [Flags] holds
    the values.  [argv] is the array with its null pointer; every access is
    checked.  The contents of files and the environment are parameters;
    [GTEST_LOG_(FATAL)] aborts ([AssertionFailed]). *)

From S2P Require Import Prelude Outcome Common CStr FilePath TestFilter TestResult TestSelect.

(** ** Flags *)

Module Flag.

Inductive bool_flag : Type :=
  | also_run_disabled_tests | break_on_failure | catch_exceptions | death_test_use_fork
  | fail_fast | list_tests | brief | print_time | print_utf8
  | recreate_environments_when_repeating | shuffle | throw_on_failure
  | install_failure_signal_handler | show_internal_stack_frames.
Inductive int_flag : Type := random_seed | repeat | stack_trace_depth.
Inductive string_flag : Type :=
  | color | death_test_style | filter | internal_run_death_test | output
  | stream_result_to | flagfile.

(** The name of a flag without the prefix, [#flag_name] in the macros. *)
Definition bool_name (f : bool_flag) : text :=
  match f with
  | also_run_disabled_tests => str "also_run_disabled_tests"
  | break_on_failure => str "break_on_failure" | catch_exceptions => str "catch_exceptions"
  | death_test_use_fork => str "death_test_use_fork" | fail_fast => str "fail_fast"
  | list_tests => str "list_tests" | brief => str "brief" | print_time => str "print_time"
  | print_utf8 => str "print_utf8"
  | recreate_environments_when_repeating => str "recreate_environments_when_repeating"
  | shuffle => str "shuffle" | throw_on_failure => str "throw_on_failure"
  | install_failure_signal_handler => str "install_failure_signal_handler"
  | show_internal_stack_frames => str "show_internal_stack_frames"
  end.
Definition int_name (f : int_flag) : text :=
  match f with
  | random_seed => str "random_seed" | repeat => str "repeat"
  | stack_trace_depth => str "stack_trace_depth"
  end.
Definition string_name (f : string_flag) : text :=
  match f with
  | color => str "color" | death_test_style => str "death_test_style" | filter => str "filter"
  | internal_run_death_test => str "internal_run_death_test" | output => str "output"
  | stream_result_to => str "stream_result_to" | flagfile => str "flagfile"
  end.

(** A flag of any type. *)
Inductive any : Type := B (f : bool_flag) | I (f : int_flag) | S (f : string_flag).
Definition name (f : any) : text :=
  match f with B f => bool_name f | I f => int_name f | S f => string_name f end.

End Flag.

#[export] Instance bool_flag_eq_dec : EqDecision Flag.bool_flag.
Proof. solve_decision. Defined.
#[export] Instance int_flag_eq_dec : EqDecision Flag.int_flag.
Proof. solve_decision. Defined.
#[export] Instance string_flag_eq_dec : EqDecision Flag.string_flag.
Proof. solve_decision. Defined.
#[export] Instance any_flag_eq_dec : EqDecision Flag.any.
Proof. solve_decision. Defined.

(** The variables; [GTEST_FLAG_GET] is a projection applied to the flag. *)
Record Flags : Type := mkFlags {
  bools : Flag.bool_flag -> bool; ints : Flag.int_flag -> Z;
  strings : Flag.string_flag -> text }.

(** [GTEST_FLAG_SET]. *)
Definition update {K V} `{EqDecision K} (f : K -> V) (k : K) (v : V) : K -> V :=
  fun k' => if decide (k' = k) then v else f k'.
Definition set_bool (fl : Flags) (k : Flag.bool_flag) (v : bool) : Flags :=
  mkFlags (update (bools fl) k v) (ints fl) (strings fl).
Definition set_int (fl : Flags) (k : Flag.int_flag) (v : Z) : Flags :=
  mkFlags (bools fl) (update (ints fl) k v) (strings fl).
Definition set_string (fl : Flags) (k : Flag.string_flag) (v : text) : Flags :=
  mkFlags (bools fl) (ints fl) (update (strings fl) k v).

Definition kMaxStackTraceDepth : Z := 100.
Definition kDefaultDeathTestStyle : text := str "fast".

(** *** Initial values, from the environment *)

Section environment.
Variable getenv : text -> option text.

Definition GetDefaultFilter : text :=
  match getenv (str "TESTBRIDGE_TEST_ONLY") with
  | Some testbridge_test_only => testbridge_test_only
  | None => kUniversalFilter
  end.
Definition GetDefaultFailFast : bool :=
  match getenv (str "TESTBRIDGE_TEST_RUNNER_FAIL_FAST") with
  | Some v => bool_decide (v = str "1")
  | None => false
  end.

Definition default_bool (f : Flag.bool_flag) : bool :=
  let env := BoolFromGTestEnv getenv (Flag.bool_name f) in
  match f with
  | Flag.fail_fast => env GetDefaultFailFast
  | Flag.catch_exceptions | Flag.print_time | Flag.print_utf8 => env true
  | Flag.list_tests | Flag.show_internal_stack_frames => false
  | _ => env false
  end.
Definition default_int (f : Flag.int_flag) : Z :=
  fst (Int32FromGTestEnv getenv (Flag.int_name f)
         match f with
         | Flag.random_seed => 0 | Flag.repeat => 1
         | Flag.stack_trace_depth => kMaxStackTraceDepth
         end).
Definition default_string (f : Flag.string_flag) : text :=
  let env d := default [] (StringFromGTestEnv getenv (Flag.string_name f) (Some d)) in
  match f with
  | Flag.color => env (str "auto")
  | Flag.filter => env GetDefaultFilter
  | Flag.output => env (OutputFlagAlsoCheckEnvVar getenv)
  | Flag.stream_result_to | Flag.flagfile => env []
  | Flag.death_test_style => env kDefaultDeathTestStyle
  | Flag.internal_run_death_test => []
  end.
Definition initial_flags : Flags := mkFlags default_bool default_int default_string.

End environment.

(** *** [GTestFlagSaver]: what it saves and restores *)

Definition saved_bools : list Flag.bool_flag :=
  [Flag.also_run_disabled_tests; Flag.break_on_failure; Flag.catch_exceptions;
   Flag.death_test_use_fork; Flag.fail_fast; Flag.list_tests; Flag.brief; Flag.print_time;
   Flag.print_utf8; Flag.recreate_environments_when_repeating; Flag.shuffle;
   Flag.throw_on_failure].
Definition saved_ints : list Flag.int_flag :=
  [Flag.random_seed; Flag.repeat; Flag.stack_trace_depth].
Definition saved_strings : list Flag.string_flag :=
  [Flag.color; Flag.death_test_style; Flag.filter; Flag.internal_run_death_test; Flag.output;
   Flag.stream_result_to].

Definition restore (saved now : Flags) : Flags :=
  mkFlags (fun f => if bool_decide (f ∈ saved_bools) then bools saved f else bools now f)
          (fun f => if bool_decide (f ∈ saved_ints) then ints saved f else ints now f)
          (fun f => if bool_decide (f ∈ saved_strings) then strings saved f else strings now f).

(** ** One flag *)

(** [SkipPrefix]: the rest of the text after the prefix. *)
Fixpoint SkipPrefix (prefix pstr : text) : option text :=
  match prefix, pstr with
  | [], _ => Some pstr
  | c :: prefix, d :: pstr => if bool_decide (c = d) then SkipPrefix prefix pstr else None
  | _ :: _, [] => None
  end.

(** [ParseFlagValue]; the flag's name is never null. *)
Definition ParseFlagValue (s : option text) (flag_name : text) (def_optional : bool)
    : option text :=
  match s with
  | None => None
  | Some s =>
      let flag_str := str "--" ++ GTEST_FLAG_PREFIX_ ++ flag_name in
      match SkipPrefix flag_str s with
      | None => None
      | Some flag_end =>
          if def_optional && bool_decide (flag_end = []) then Some flag_end
          else match flag_end with
               | c :: rest => if bool_decide (c = "="%char) then Some rest else None
               | [] => None
               end
      end
  end.

Definition bool_of_value (value_str : text) : bool :=
  match value_str with
  | c :: _ => negb (bool_decide (c = "0"%char) || bool_decide (c = "f"%char) ||
                    bool_decide (c = "F"%char))
  | [] => true
  end.

(** The three overloads of [ParseFlag]: the value if the parsing succeeds; the
    one for integers may print a warning. *)
Definition ParseFlag_bool (s : option text) (flag_name : text) : option bool :=
  match ParseFlagValue s flag_name true with
  | None => None
  | Some value_str => Some (bool_of_value value_str)
  end.
Definition ParseFlag_int32 (s : option text) (flag_name : text) : option Z * text :=
  match ParseFlagValue s flag_name false with
  | None => (None, [])
  | Some value_str => ParseInt32 (str "The value of flag --" ++ flag_name) value_str
  end.
Definition ParseFlag_string (s : option text) (flag_name : text) : option text :=
  ParseFlagValue s flag_name false.

Definition GTEST_FLAG_PREFIX_DASH_ : text := str "gtest-".

(** [SkipPrefix] moves the pointer only if it succeeds. *)
Definition HasGoogleTestFlagPrefix (s : text) : bool :=
  let dashes := match SkipPrefix (str "--") s with
                | Some s => Some s
                | None => match SkipPrefix (str "-") s with
                          | Some s => Some s
                          | None => SkipPrefix (str "/") s
                          end
                end in
  match dashes with
  | None => false
  | Some s =>
      match SkipPrefix (GTEST_FLAG_PREFIX_ ++ str "internal_") s with
      | Some _ => false
      | None => bool_decide (SkipPrefix GTEST_FLAG_PREFIX_ s <> None) ||
                bool_decide (SkipPrefix GTEST_FLAG_PREFIX_DASH_ s <> None)
      end
  end.

(** ** Coloured output *)

Inductive GTestColor : Type := kDefault | kRed | kGreen | kYellow.

#[export] Instance GTestColor_eq_dec : EqDecision GTestColor.
Proof. solve_decision. Defined.

(** A piece of text and the colour [ColoredPrintf] is given for it. *)
Abbreviation chunk := (GTestColor * text)%type.

(** [PrintColorEncoded]: the text up to the next '@', the escape, the rest. *)
Fixpoint PrintColorEncoded_loop (color : GTestColor) (segment s : text) : list chunk :=
  match s with
  | [] => [(color, rev segment)]
  | c :: s' =>
      if bool_decide (c = "@"%char) then
        (color, rev segment) ::
        match s' with
        | [] => PrintColorEncoded_loop color [] s'
        | ch :: s'' =>
            if bool_decide (ch = "@"%char)
            then (color, str "@") :: PrintColorEncoded_loop color [] s''
            else if bool_decide (ch = "D"%char) then PrintColorEncoded_loop kDefault [] s''
            else if bool_decide (ch = "R"%char) then PrintColorEncoded_loop kRed [] s''
            else if bool_decide (ch = "G"%char) then PrintColorEncoded_loop kGreen [] s''
            else if bool_decide (ch = "Y"%char) then PrintColorEncoded_loop kYellow [] s''
            else PrintColorEncoded_loop color [] s'
        end
      else PrintColorEncoded_loop color (c :: segment) s'
  end.
Definition PrintColorEncoded (s : text) : list chunk := PrintColorEncoded_loop kDefault [] s.

Section terminal.
Variable getenv : text -> option text.

Definition color_terms : list text :=
  [str "xterm"; str "xterm-color"; str "xterm-kitty"; str "alacritty"; str "screen";
   str "tmux"; str "rxvt-unicode"; str "linux"; str "cygwin"].

Definition ShouldUseColor (fl : Flags) (stdout_is_tty : bool) : bool :=
  let gtest_color := strings fl Flag.color in
  let is_ci w := Gtest_String.CaseInsensitiveCStringEquals (Some gtest_color) (Some w) in
  if is_ci (str "auto") then
    let term_supports_color :=
      match getenv (str "TERM") with
      | None => false
      | Some term => existsb (fun t => Gtest_String.CStringEquals (Some term) (Some t))
                       color_terms ||
                     Gtest_String.EndsWithCaseInsensitive term (str "-256color")
      end in
    stdout_is_tty && term_supports_color
  else is_ci (str "yes") || is_ci (str "true") || is_ci (str "t") ||
       Gtest_String.CStringEquals (Some gtest_color) (Some (str "1")).

End terminal.

(** The default colour has no code: an assertion of the code. *)
Definition GetAnsiColorCode (color : GTestColor) : outcome text :=
  match color with
  | kRed => Ok (str "1") | kGreen => Ok (str "2") | kYellow => Ok (str "3")
  | kDefault => Err AssertionFailed
  end.

Definition ESC : ascii := "027".

(** [ColoredPrintf] of a text that is formatted already. *)
Definition ColoredPrintf (in_color_mode : bool) (color : GTestColor) (s : text) : outcome text :=
  let use_color := in_color_mode && negb (bool_decide (color = kDefault)) in
  if negb use_color then Ok s
  else code ← GetAnsiColorCode color;
       Ok (ESC :: str "[0;3" ++ code ++ str "m" ++ s ++ ESC :: str "[m").

(** ** The command line *)

Record CmdState : Type := mkCmdState {
  flags : Flags; g_help_flag : bool; cmd_printed : list chunk }.

Definition with_flags (st : CmdState) (fl : Flags) : CmdState :=
  mkCmdState fl (g_help_flag st) (cmd_printed st).
Definition set_help (st : CmdState) : CmdState :=
  mkCmdState (flags st) true (cmd_printed st).
Definition cmd_print (st : CmdState) (out : text) : CmdState :=
  mkCmdState (flags st) (g_help_flag st)
    (cmd_printed st ++ if bool_decide (out = []) then [] else [(kDefault, out)]).

(** [GTEST_INTERNAL_PARSE_FLAG]: whether the flag is the one meant, and the state. *)
Definition parse_one (f : Flag.any) (arg : text) (st : CmdState) : bool * CmdState :=
  match f with
  | Flag.B f => match ParseFlag_bool (Some arg) (Flag.bool_name f) with
                | Some value => (true, with_flags st (set_bool (flags st) f value))
                | None => (false, st)
                end
  | Flag.I f => let '(value, out) := ParseFlag_int32 (Some arg) (Flag.int_name f) in
                match value with
                | Some value => (true, with_flags (cmd_print st out) (set_int (flags st) f value))
                | None => (false, cmd_print st out)
                end
  | Flag.S f => match ParseFlag_string (Some arg) (Flag.string_name f) with
                | Some value => (true, with_flags st (set_string (flags st) f value))
                | None => (false, st)
                end
  end.

Fixpoint parse_first (order : list Flag.any) (arg : text) (st : CmdState) : bool * CmdState :=
  match order with
  | [] => (false, st)
  | f :: order => let '(parsed, st) := parse_one f arg st in
                  if parsed : bool then (true, st) else parse_first order arg st
  end.

Definition parse_order : list Flag.any :=
  [Flag.B Flag.also_run_disabled_tests; Flag.B Flag.break_on_failure;
   Flag.B Flag.catch_exceptions; Flag.S Flag.color; Flag.S Flag.death_test_style;
   Flag.B Flag.death_test_use_fork; Flag.B Flag.fail_fast; Flag.S Flag.filter;
   Flag.S Flag.internal_run_death_test; Flag.B Flag.list_tests; Flag.S Flag.output;
   Flag.B Flag.brief; Flag.B Flag.print_time; Flag.B Flag.print_utf8; Flag.I Flag.random_seed;
   Flag.I Flag.repeat; Flag.B Flag.recreate_environments_when_repeating; Flag.B Flag.shuffle;
   Flag.I Flag.stack_trace_depth; Flag.S Flag.stream_result_to; Flag.B Flag.throw_on_failure].

Definition ParseGoogleTestFlag (arg : text) (st : CmdState) : bool * CmdState :=
  parse_first parse_order arg st.

(** *** The help text *)

(** Text in which a grave accent stands for a double quote, and a line of it. *)
Definition quoted (s : String.string) : text :=
  map (fun c => if bool_decide (c = "`"%char) then "034"%char else c) (str s).
Definition line (s : String.string) : text := quoted s ++ [LF].

Definition GTEST_NAME_ : text := str "Google Test".
Definition GTEST_FLAG_PREFIX_UPPER_ : text := str "GTEST_".
Definition GTEST_PROJECT_URL_ : text := str "https://github.com/google/googletest/".
Definition GTEST_DEV_EMAIL_ : text := str "googletestframework@@googlegroups.com".
Definition GTEST_PATH_SEP_ : text := str "/".

(** An indented flag of the list, in green. *)
Definition help_flag (s : text) : text := str "  @G--" ++ GTEST_FLAG_PREFIX_ ++ s ++ [LF].

Definition kColorEncodedHelpMessage : text :=
  quoted "This program contains tests written using " ++ GTEST_NAME_ ++
  line ". You can use the" ++
  line "following command line flags to control its behavior:" ++ [LF] ++
  line "Test Selection:" ++
  help_flag (quoted "list_tests@D") ++
  line "      List the names of all tests instead of running them. The name of" ++
  line "      TEST(Foo, Bar) is `Foo.Bar`." ++
  help_flag (quoted "filter=@YPOSITIVE_PATTERNS[@G-@YNEGATIVE_PATTERNS]@D") ++
  line "      Run only the tests whose name matches one of the positive patterns but" ++
  line "      none of the negative patterns. '?' matches any single character; '*'" ++
  line "      matches any substring; ':' separates two patterns." ++
  help_flag (quoted "also_run_disabled_tests@D") ++
  line "      Run all disabled tests too." ++ [LF] ++
  line "Test Execution:" ++
  help_flag (quoted "repeat=@Y[COUNT]@D") ++
  line "      Run the tests repeatedly; use a negative count to repeat forever." ++
  help_flag (quoted "shuffle@D") ++
  line "      Randomize tests' orders on every iteration." ++
  help_flag (quoted "random_seed=@Y[NUMBER]@D") ++
  line "      Random number seed to use for shuffling test orders (between 1 and" ++
  line "      99999, or 0 to use a seed based on the current time)." ++
  help_flag (quoted "recreate_environments_when_repeating@D") ++
  line "      Sets up and tears down the global test environment on each repeat" ++
  line "      of the test." ++ [LF] ++
  line "Test Output:" ++
  help_flag (quoted "color=@Y(@Gyes@Y|@Gno@Y|@Gauto@Y)@D") ++
  line "      Enable/disable colored output. The default is @Gauto@D." ++
  help_flag (quoted "brief=1@D") ++
  line "      Only print test failures." ++
  help_flag (quoted "print_time=0@D") ++
  line "      Don't print the elapsed time of each test." ++
  help_flag (quoted "output=@Y(@Gjson@Y|@Gxml@Y)[@G:@YDIRECTORY_PATH@G" ++ GTEST_PATH_SEP_ ++
             quoted "@Y|@G:@YFILE_PATH]@D") ++
  line "      Generate a JSON or XML report in the given directory or with the given" ++
  line "      file name. @YFILE_PATH@D defaults to @Gtest_detail.xml@D." ++
  help_flag (quoted "stream_result_to=@YHOST@G:@YPORT@D") ++
  line "      Stream test results to the given server." ++ [LF] ++
  line "Assertion Behavior:" ++
  help_flag (quoted "death_test_style=@Y(@Gfast@Y|@Gthreadsafe@Y)@D") ++
  line "      Set the default death test style." ++
  help_flag (quoted "break_on_failure@D") ++
  line "      Turn assertion failures into debugger break-points." ++
  help_flag (quoted "throw_on_failure@D") ++
  line "      Turn assertion failures into C++ exceptions for use by an external" ++
  line "      test framework." ++
  help_flag (quoted "catch_exceptions=0@D") ++
  line "      Do not report exceptions as test failures. Instead, allow them" ++
  line "      to crash the program or throw a pop-up (on Windows)." ++ [LF] ++
  quoted "Except for @G--" ++ GTEST_FLAG_PREFIX_ ++
  quoted "list_tests@D, you can alternatively set the corresponding" ++ [LF] ++
  line "environment variable of a flag (all letters in upper-case). For example, to" ++
  quoted "disable colored text output, you can either specify @G--" ++ GTEST_FLAG_PREFIX_ ++
  line "color=no@D or set" ++
  quoted "the @G" ++ GTEST_FLAG_PREFIX_UPPER_ ++
  line "COLOR@D environment variable to @Gno@D." ++ [LF] ++
  quoted "For more information, please read the " ++ GTEST_NAME_ ++
  line " documentation at" ++
  quoted "@G" ++ GTEST_PROJECT_URL_ ++ quoted "@D. If you find a bug in " ++ GTEST_NAME_ ++ [LF] ++
  line "(not one in your own code or tests), please report it to" ++
  quoted "@G<" ++ GTEST_DEV_EMAIL_ ++ line ">@D.".

(** *** Files of flags, and [argv] *)

Section files.
(** What [fopen] and [ReadEntireFile] give for a path. *)
Variable read_file : text -> option text.

Definition LoadFlagsFromFile (path : text) (st : CmdState) : outcome CmdState :=
  match read_file path with
  | None => Err AssertionFailed
  | Some contents =>
      Ok (foldl (fun st line_ =>
            if bool_decide (line_ = []) then st
            else let '(parsed, st) := ParseGoogleTestFlag (c_str line_) st in
                 if parsed : bool then st else set_help st)
          st (SplitString contents LF))
  end.

(** [for (int j = i + 1; j < *argc; ++j) argv[j - 1] = argv[j];] *)
Fixpoint shift_args (count j : nat) (argv : list (option text)) : outcome (list (option text)) :=
  match count with
  | O => Ok argv
  | S count =>
      x ← or_fault InvalidDeref (argv !! j);
      _ ← or_fault InvalidDeref (argv !! (j - 1)%nat);
      shift_args count (S j) (<[(j - 1)%nat := x]> argv)
  end.

(** The branch on one argument: whether it is to be removed. *)
Definition parse_argument (arg : text) (st : CmdState) : outcome (bool * CmdState) :=
  let '(parsed, st) := ParseGoogleTestFlag arg st in
  if parsed : bool then Ok (true, st)
  else match ParseFlag_string (Some arg) (Flag.string_name Flag.flagfile) with
       | Some flagfile_value =>
           st ← LoadFlagsFromFile flagfile_value
                  (with_flags st (set_string (flags st) Flag.flagfile flagfile_value));
           Ok (true, st)
       | None =>
           Ok (false, if bool_decide (arg = str "--help") || HasGoogleTestFlagPrefix arg
                      then set_help st else st)
       end.

(** The loop over [argv]; the fuel is the number of arguments that are left. *)
Fixpoint parse_loop (fuel i argc : nat) (argv : list (option text)) (st : CmdState)
    : outcome (nat * list (option text) * CmdState) :=
  if (i <? argc)%nat then
    match fuel with
    | O => Err Diverges
    | S fuel =>
        p ← or_fault InvalidDeref (argv !! i);
        '(remove_flag, st) ← parse_argument (default (str "(null)") p) st;
        if remove_flag : bool then
          argv ← shift_args (argc - (i + 1)) (i + 1) argv;
          let argc := (argc - 1)%nat in
          _ ← or_fault InvalidDeref (argv !! argc);
          parse_loop fuel i argc (<[argc := None]> argv) st
        else parse_loop fuel (S i) argc argv st
    end
  else Ok (argc, argv, st).

Definition ParseGoogleTestFlagsOnly (argc : nat) (argv : list (option text)) (st : CmdState)
    : outcome (nat * list (option text) * CmdState) :=
  '(argc, argv, st) ← parse_loop argc 1 argc argv st;
  Ok (argc, argv,
      if g_help_flag st
      then mkCmdState (flags st) true
             (cmd_printed st ++ PrintColorEncoded kColorEncodedHelpMessage)
      else st).

End files.

(** ** [--gtest_output] *)

Definition kDefaultOutputFormat : text := str "xml".
Definition kDefaultOutputFile : text := str "test_detail".

Definition GetOutputFormat (fl : Flags) : text :=
  let gtest_output_flag := c_str (strings fl Flag.output) in
  match find_char ":" gtest_output_flag with
  | None => gtest_output_flag
  | Some colon => take colon gtest_output_flag
  end.

(** [g_argvs] is the command line that [InitGoogleTest] was given. *)
Definition GetCurrentExecutableName (g_argvs : list text) : FilePath :=
  let result := match g_argvs with
                | arg0 :: _ => FilePath_of arg0
                | [] => FilePath_empty
                end in
  RemoveDirectoryName result.

Section output_file.
Context {FS : Type} `{!FileSystem FS}.

Definition GetAbsolutePathToOutputFile (fuel : nat) (fs : FS) (original_working_dir : text)
    (g_argvs : list text) (fl : Flags) : outcome text :=
  let gtest_output_flag := c_str (strings fl Flag.output) in
  let format := GetOutputFormat fl in
  let format := if bool_decide (format = []) then kDefaultOutputFormat else format in
  match find_char ":" gtest_output_flag with
  | None => Ok (pathname_ (MakeFileName (FilePath_of original_working_dir)
                             (FilePath_of kDefaultOutputFile) 0 format))
  | Some colon =>
      let rest := drop (S colon) gtest_output_flag in
      let output_name := FilePath_of rest in
      let output_name := if negb (IsAbsolutePath output_name)
                         then ConcatPaths (FilePath_of original_working_dir) (FilePath_of rest)
                         else output_name in
      if negb (IsDirectory output_name) then Ok (pathname_ output_name)
      else
        result ← GenerateUniqueFileName fuel fs output_name
                   (GetCurrentExecutableName g_argvs) (GetOutputFormat fl);
        Ok (pathname_ result)
  end.

End output_file.

(** ** Recognising one flag *)

Lemma SkipPrefix_spec p s r : SkipPrefix p s = Some r <-> s = p ++ r.
Proof.
  revert s; induction p as [|c p IH]; intros s; simpl; [naive_solver|].
  destruct s as [|d s]; [done|]. case_bool_decide; [subst; rewrite IH|]; naive_solver.
Qed.

(** The text of the argument that names the flag. *)
Definition flag_text (n : text) : text := str "--" ++ GTEST_FLAG_PREFIX_ ++ n.

Lemma ParseFlagValue_spec s n opt v :
  ParseFlagValue (Some s) n opt = Some v <->
  s = flag_text n ++ "="%char :: v \/ opt = true /\ v = [] /\ s = flag_text n.
Proof.
  unfold ParseFlagValue. fold (flag_text n).
  destruct (SkipPrefix _ s) as [r|] eqn:E.
  - apply SkipPrefix_spec in E as ->. split.
    + case_bool_decide as Hr; [|rewrite andb_false_r].
      * subst r. rewrite andb_true_r, app_nil_r. destruct opt; naive_solver.
      * destruct r as [|c r]; [done|]. case_bool_decide; [|done]. naive_solver.
    + intros [Hr|(-> & -> & Hr)].
      * apply app_inv_head in Hr as ->. rewrite bool_decide_false, andb_false_r by done.
        by rewrite bool_decide_true.
      * rewrite <- (app_nil_r (flag_text n)) in Hr at 2. by apply app_inv_head in Hr as ->.
  - split; [done|]. intros [->|(_ & _ & ->)].
    + by rewrite (proj2 (SkipPrefix_spec _ _ _) eq_refl) in E.
    + by rewrite (proj2 (SkipPrefix_spec _ _ []) ltac:(by rewrite app_nil_r)) in E.
Qed.

(** What follows the name is nothing or a value. *)
Definition value_part (r : text) : Prop := r = [] \/ exists v, r = "="%char :: v.

Lemma split_at_equals (a b x y : text) :
  "="%char ∉ a -> "="%char ∉ b -> value_part x -> value_part y -> a ++ x = b ++ y ->
  a = b /\ x = y.
Proof.
  intros Ha Hb Hx Hy. revert b Hb; induction a as [|c a IH]; intros [|d b] Hb; simpl; [done|..].
  - intros ->. destruct Hx as [?|(v & [= ?])]; [done|]. set_solver.
  - intros <-. destruct Hy as [?|(v & [= ?])]; [done|]. set_solver.
  - intros [= -> E]. destruct (IH ltac:(set_solver) b ltac:(set_solver) E) as [-> ->]. done.
Qed.

Definition all_flags : list Flag.any :=
  parse_order ++ [Flag.S Flag.flagfile; Flag.B Flag.install_failure_signal_handler;
                  Flag.B Flag.show_internal_stack_frames].

Lemma all_flags_complete f : f ∈ all_flags.
Proof. refine (proj1 (bool_decide_eq_true _) _). destruct f as [[]|[]|[]]; vm_compute; reflexivity. Qed.

Lemma names_distinct : NoDup (map Flag.name all_flags).
Proof. refine (proj1 (bool_decide_eq_true _) _). vm_compute. reflexivity. Qed.

Lemma NoDup_map_inj {A B} (f : A -> B) l x y :
  NoDup (map f l) -> x ∈ l -> y ∈ l -> f x = f y -> x = y.
Proof.
  induction l as [|a l IH]; simpl; [set_solver|]. rewrite NoDup_cons. intros [Ha Hl] Hx Hy E.
  apply elem_of_cons in Hx as [->|Hx], Hy as [->|Hy]; [done|..].
  - destruct Ha. rewrite E. by apply list_elem_of_fmap_2.
  - destruct Ha. rewrite <- E. by apply list_elem_of_fmap_2.
  - auto.
Qed.

#[export] Instance flag_name_inj : Inj (=) (=) Flag.name.
Proof.
  intros f g. apply (NoDup_map_inj _ _ _ _ names_distinct); apply all_flags_complete.
Qed.

Lemma name_no_equals f : "="%char ∉ Flag.name f.
Proof. refine (proj1 (bool_decide_eq_true _) _). destruct f as [[]|[]|[]]; vm_compute; reflexivity. Qed.

Lemma flag_text_inj f g x y :
  value_part x -> value_part y ->
  flag_text (Flag.name f) ++ x = flag_text (Flag.name g) ++ y -> f = g /\ x = y.
Proof.
  unfold flag_text. intros Hx Hy. rewrite <- !app_assoc.
  intros E%app_inv_head%app_inv_head.
  apply split_at_equals in E as [E ->]; [|apply name_no_equals..|done|done].
  by apply (inj Flag.name) in E as ->.
Qed.

(** The values that switch a Boolean flag off: those that start with 0, f or F. *)
Definition false_value (v : text) : Prop :=
  exists c v', v = c :: v' /\ (c = "0"%char \/ c = "f"%char \/ c = "F"%char).

Lemma bool_of_value_false v : bool_of_value v = false <-> false_value v.
Proof.
  unfold bool_of_value, false_value. destruct v as [|c v]; [naive_solver|].
  rewrite negb_false_iff, !orb_true_iff, !bool_decide_eq_true. naive_solver.
Qed.

(** [denotes arg f g]: the argument is an occurrence of flag [f] and its effect
    on the flags is [g]. *)
Inductive denotes : text -> Flag.any -> (Flags -> Flags) -> Prop :=
  | denotes_bare f :
      denotes (flag_text (Flag.bool_name f)) (Flag.B f) (fun fl => set_bool fl f true)
  | denotes_bool f v b :
      (b = false <-> false_value v) ->
      denotes (flag_text (Flag.bool_name f) ++ "="%char :: v) (Flag.B f)
        (fun fl => set_bool fl f b)
  | denotes_int f v z :
      fst (ParseInt32 (str "The value of flag --" ++ Flag.int_name f) v) = Some z ->
      denotes (flag_text (Flag.int_name f) ++ "="%char :: v) (Flag.I f)
        (fun fl => set_int fl f z)
  | denotes_string f v :
      denotes (flag_text (Flag.string_name f) ++ "="%char :: v) (Flag.S f)
        (fun fl => set_string fl f v).

Lemma denotes_text arg f g :
  denotes arg f g -> exists r, value_part r /\ arg = flag_text (Flag.name f) ++ r.
Proof.
  destruct 1; [exists [] | eexists ("="%char :: v)..]; unfold value_part;
    (split; [eauto|]); by rewrite ?app_nil_r.
Qed.

Lemma denotes_unique arg f g f' g' : denotes arg f g -> denotes arg f' g' -> f = f'.
Proof.
  intros (r & Hr & E)%denotes_text (r' & Hr' & E')%denotes_text.
  rewrite E in E'. by apply flag_text_inj in E' as [-> _].
Qed.

Lemma ParseInt32_silent src s z out : ParseInt32 src s = (Some z, out) -> out = [].
Proof.
  unfold ParseInt32. destruct (strtol s). repeat (case_match; try done). by intros [= _ <-].
Qed.

Lemma cmd_print_nil st : cmd_print st [] = st.
Proof. destruct st. unfold cmd_print. simpl. by rewrite app_nil_r. Qed.

(** The same flags and help flag, with some more text printed. *)
Definition same_flags (st st' : CmdState) : Prop :=
  flags st' = flags st /\ g_help_flag st' = g_help_flag st.

(** What one flag does to an argument; only a malformed number of its own makes
    a flag print something without being parsed. *)
Lemma parse_one_spec f arg st :
  (exists g, denotes arg f g /\ parse_one f arg st = (true, with_flags st (g (flags st)))) \/
  ((forall g, ~ denotes arg f g) /\
   exists st', parse_one f arg st = (false, st') /\ same_flags st st' /\
     (st' = st \/ exists r, value_part r /\ arg = flag_text (Flag.name f) ++ r)).
Proof.
  destruct f as [f|f|f]; cbn [parse_one]; unfold ParseFlag_bool, ParseFlag_int32, ParseFlag_string;
    destruct (ParseFlagValue (Some arg) _ _) as [v|] eqn:E.
  - apply ParseFlagValue_spec in E. left.
    destruct E as [->|(_ & -> & ->)]; eexists; (split; [constructor; apply bool_of_value_false|done]).
  - right. split; [|exists st; split_and!; [done..|by left]]. intros g D; inversion D; subst.
    + by rewrite (proj2 (ParseFlagValue_spec _ _ true [] ) ltac:(right; done)) in E.
    + by rewrite (proj2 (ParseFlagValue_spec _ _ true v) ltac:(by left)) in E.
  - apply ParseFlagValue_spec in E as [->|(? & _)]; [|done].
    destruct (ParseInt32 _ v) as [[z|] out] eqn:Ep.
    + left. eexists. split; [constructor; by rewrite Ep|].
      apply ParseInt32_silent in Ep as ->. by rewrite cmd_print_nil.
    + right. split.
      * intros g D; inversion D as [| |f' v' z Hz [E _]|]; subst.
        apply app_inv_head in E as [= ->]. by rewrite Ep in Hz.
      * eexists. split_and!; [done|by split|]. right. eexists. split; [right; by eexists|done].
  - right. split; [|exists st; rewrite cmd_print_nil; split_and!; [done..|by left]].
    intros g D; inversion D as [| |f' v z Hz Ev|]; subst.
    by rewrite (proj2 (ParseFlagValue_spec _ (Flag.int_name f) false v) ltac:(by left)) in E.
  - apply ParseFlagValue_spec in E as [->|(? & _)]; [|done].
    left. eexists. split; [constructor|done].
  - right. split; [|exists st; split_and!; [done..|by left]].
    intros g D; inversion D as [| | |f' v Ev]; subst.
    by rewrite (proj2 (ParseFlagValue_spec _ (Flag.string_name f) false v) ltac:(by left)) in E.
Qed.

Lemma parse_first_spec order arg st :
  (exists f g, f ∈ order /\ denotes arg f g /\
     parse_first order arg st = (true, with_flags st (g (flags st)))) \/
  ((forall f g, f ∈ order -> ~ denotes arg f g) /\
   exists st', parse_first order arg st = (false, st') /\ same_flags st st').
Proof.
  revert st; induction order as [|f order IH]; intros st; cbn [parse_first].
  { right. split; [set_solver | by exists st]. }
  destruct (parse_one_spec f arg st) as [(g & D & ->)|(Hno & st1 & -> & Hsame & Hst)].
  { left. exists f, g. split; [by left|done]. }
  destruct (IH st1) as [(f' & g & Hf & D & ->)|(Hno' & st2 & -> & Hsame')].
  - left. exists f', g. split; [by right|]. split; [done|].
    destruct Hst as [->|(r & Hr & Earg)]; [done|]. exfalso.
    destruct (denotes_text _ _ _ D) as (r' & Hr' & Earg').
    rewrite Earg in Earg'. apply flag_text_inj in Earg' as [<- _]; [|done..]. by eapply Hno.
  - right. split; [|exists st2; split; [done|]].
    + intros f' g [->|Hf]%elem_of_cons; eauto.
    + destruct Hsame, Hsame'. split; congruence.
Qed.

(** ** The loop over [argv] *)

(** What the loop does, on the list of arguments: which of them stay. *)
Fixpoint parse_args (read_file : text -> option text) (args : list text) (st : CmdState)
    : outcome (list text * CmdState) :=
  match args with
  | [] => Ok ([], st)
  | arg :: args =>
      '(remove_flag, st) ← parse_argument read_file arg st;
      '(kept, st) ← parse_args read_file args st;
      Ok (if remove_flag : bool then kept else arg :: kept, st)
  end.

Lemma shift_args_spec (pre l tail : list (option text)) x :
  exists y, shift_args (length l) (S (length pre)) (pre ++ x :: l ++ tail) = Ok (pre ++ l ++ y :: tail).
Proof.
  revert pre x; induction l as [|z l IH]; intros pre x; [by exists x|].
  cbn [length shift_args].
  replace ((pre ++ x :: (z :: l) ++ tail) !! S (length pre)) with (Some z)
    by (rewrite lookup_app_r by lia; by replace (S _ - _)%nat with 1%nat by lia).
  cbn [or_fault]. rewrite bind_ok, Nat.sub_succ, Nat.sub_0_r, list_lookup_middle by done.
  cbn [or_fault]. rewrite bind_ok. cbn [app]. rewrite insert_middle.
  destruct (IH (pre ++ [z]) z) as (y & Hy).
  exists y. rewrite length_app, Nat.add_comm, <- !app_assoc in Hy. exact Hy.
Qed.

(** The array [argv]: the arguments and [n + 1] null pointers. *)
Definition argv_of (args : list text) (n : nat) : list (option text) :=
  map Some args ++ replicate (S n) None.

Lemma parse_args_length read_file args st kept st' :
  parse_args read_file args st = Ok (kept, st') -> (length kept <= length args)%nat.
Proof.
  revert st kept st'; induction args as [|arg args IH]; intros st kept st'; cbn [parse_args].
  { by intros [= <- _]. }
  destruct (parse_argument read_file arg st) as [[b st1]|]; [|done]. rewrite bind_ok.
  destruct (parse_args read_file args st1) as [[k st2]|] eqn:E; [|done]. rewrite bind_ok.
  intros [= <- _]. apply IH in E. destruct b; simpl; lia.
Qed.

Lemma argv_of_split done_ arg todo n :
  argv_of (done_ ++ arg :: todo) n =
  map Some done_ ++ Some arg :: map Some todo ++ replicate (S n) None.
Proof. unfold argv_of. by rewrite map_app, <- app_assoc. Qed.

Lemma parse_loop_refines read_file fuel done_ todo n st :
  (length todo <= fuel)%nat ->
  parse_loop read_file fuel (length done_) (length (done_ ++ todo)) (argv_of (done_ ++ todo) n) st =
  ('(kept, st) ← parse_args read_file todo st;
   Ok (length (done_ ++ kept), argv_of (done_ ++ kept) (n + (length todo - length kept)), st)).
Proof.
  revert fuel done_ n st; induction todo as [|arg todo IH]; intros fuel done_ n st Hfuel.
  { rewrite app_nil_r. destruct fuel; cbn [parse_loop parse_args];
      rewrite Nat.ltb_irrefl, bind_ok; by rewrite Nat.add_0_r, app_nil_r. }
  destruct fuel as [|fuel]; [simpl in Hfuel; lia|]. cbn [parse_loop parse_args].
  rewrite (proj2 (Nat.ltb_lt _ _)) by (rewrite length_app; simpl; lia).
  rewrite argv_of_split, list_lookup_middle by (by rewrite length_map).
  cbn [or_fault]. rewrite bind_ok. change (default _ (Some arg)) with arg.
  destruct (parse_argument read_file arg st) as [[[] st1]|]; [..|done]; rewrite !bind_ok.
  - destruct (shift_args_spec (map Some done_) (map Some todo) (replicate (S n) None) (Some arg))
      as (y & Hy). rewrite !length_map in Hy.
    replace (length (done_ ++ arg :: todo) - (length done_ + 1))%nat with (length todo)
      by (rewrite length_app; simpl; lia).
    rewrite Nat.add_1_r, Hy, bind_ok.
    replace (length (done_ ++ arg :: todo) - 1)%nat with (length (done_ ++ todo))
      by (rewrite !length_app; simpl; lia).
    rewrite app_assoc, <- map_app, list_lookup_middle by (by rewrite length_map).
    cbn [or_fault]. rewrite bind_ok.
    rewrite <- (length_map (Some (A := text)) (done_ ++ todo)) at 2. rewrite insert_middle.
    change (map Some (done_ ++ todo) ++ None :: replicate (S n) None) with
      (argv_of (done_ ++ todo) (S n)).
    rewrite IH by (simpl in Hfuel; lia).
    destruct (parse_args read_file todo st1) as [[kept st2]|] eqn:E; [|done]. rewrite !bind_ok.
    apply parse_args_length in E. cbn [length]. do 4 f_equal. lia.
  - specialize (IH fuel (done_ ++ [arg]) n st1 ltac:(simpl in Hfuel; lia)).
    rewrite <- !app_assoc, length_app, Nat.add_1_r in IH. cbn [app] in IH.
    rewrite <- argv_of_split, IH.
    destruct (parse_args read_file todo st1) as [[kept st2]|] eqn:E; [|done]. rewrite !bind_ok.
    by rewrite <- app_assoc.
Qed.

(** ** Which arguments are recognised *)

(** The flags an argument may set: those of [ParseGoogleTestFlag] and the file. *)
Definition recognised (arg : text) : Prop :=
  exists f g, f ∈ Flag.S Flag.flagfile :: parse_order /\ denotes arg f g.

Lemma eq_iff_false (b b' : bool) : (b = false <-> b' = false) -> b = b'.
Proof. destruct b, b'; naive_solver. Qed.

Lemma denotes_functional arg f g g' :
  denotes arg f g -> denotes arg f g' -> forall fl, g fl = g' fl.
Proof.
  assert (Hne : forall n v : text, n ++ "="%char :: v <> n).
  { intros n v E. rewrite <- (app_nil_r n) in E at 2. by apply app_inv_head in E. }
  intros D D' fl. destruct D; inversion D'; subst; try done.
  - exfalso. by eapply Hne.
  - exfalso. by eapply Hne.
  - match goal with H : Flag.bool_name _ ++ _ = _ |- _ => apply app_inv_head in H as [= ->] end.
    match goal with |- set_bool _ _ ?b = set_bool _ _ ?b' => assert (b = b') as ->; [|done] end.
    by apply eq_iff_false; etransitivity.
  - match goal with H : Flag.int_name _ ++ _ = _ |- _ => apply app_inv_head in H as [= ->] end.
    congruence.
  - match goal with H : Flag.string_name _ ++ _ = _ |- _ => by apply app_inv_head in H as [= ->] end.
Qed.

Lemma ParseFlag_flagfile arg v :
  ParseFlag_string (Some arg) (Flag.string_name Flag.flagfile) = Some v <->
  arg = flag_text (str "flagfile") ++ "="%char :: v.
Proof. unfold ParseFlag_string. rewrite ParseFlagValue_spec. naive_solver. Qed.

(** Files are readable if an argument asks for them. *)
Definition files_readable (read_file : text -> option text) (args : list text) : Prop :=
  forall path, flag_text (str "flagfile") ++ "="%char :: path ∈ args -> is_Some (read_file path).

(** The lines of a file of flags that count, as C strings. *)
Definition flag_file_lines (contents : text) : list text :=
  map c_str (filter (fun l => l <> []) (SplitString contents LF)).

(** [sets_lines ls fl fl']: the lines that denote flags, one after the other, take
    the flags from [fl] to [fl']; a file cannot name another file. *)
Definition known_line (line_ : text) : Prop := exists f g, f ∈ parse_order /\ denotes line_ f g.
Inductive sets_lines : list text -> Flags -> Flags -> Prop :=
  | lines_end fl : sets_lines [] fl fl
  | lines_flag line_ ls f g fl fl' :
      f ∈ parse_order -> denotes line_ f g -> sets_lines ls (g fl) fl' -> sets_lines (line_ :: ls) fl fl'
  | lines_other line_ ls fl fl' : ~ known_line line_ -> sets_lines ls fl fl' -> sets_lines (line_ :: ls) fl fl'.

(** The same of the arguments: the lines of a file of flags count where the file is
    named. *)
Inductive sets_flags (read_file : text -> option text) : list text -> Flags -> Flags -> Prop :=
  | sets_end fl : sets_flags read_file [] fl fl
  | sets_flag arg args f g fl fl' :
      f ∈ parse_order -> denotes arg f g -> sets_flags read_file args (g fl) fl' ->
      sets_flags read_file (arg :: args) fl fl'
  | sets_file path contents args fl fl1 fl' :
      read_file path = Some contents ->
      sets_lines (flag_file_lines contents) (set_string fl Flag.flagfile path) fl1 ->
      sets_flags read_file args fl1 fl' ->
      sets_flags read_file ((flag_text (str "flagfile") ++ "="%char :: path) :: args) fl fl'
  | sets_other arg args fl fl' :
      ~ recognised arg -> sets_flags read_file args fl fl' -> sets_flags read_file (arg :: args) fl fl'.

(** The argument names a file of flags with a line that is no flag. *)
Definition file_asks_help (read_file : text -> option text) (arg : text) : Prop :=
  exists path contents line_, arg = flag_text (str "flagfile") ++ "="%char :: path /\
    read_file path = Some contents /\ line_ ∈ flag_file_lines contents /\ ~ known_line line_.

Lemma file_lines_spec ls st :
  let st' := foldl (fun st line_ =>
      if bool_decide (line_ = []) then st
      else let '(parsed, st) := ParseGoogleTestFlag (c_str line_) st in
           if parsed : bool then st else set_help st) st ls in
  let lines := map c_str (filter (fun l => l <> []) ls) in
  sets_lines lines (flags st) (flags st') /\
  (g_help_flag st' = true <-> g_help_flag st = true \/ exists l, l ∈ lines /\ ~ known_line l).
Proof.
  revert st; induction ls as [|l ls IH]; intros st; cbn [foldl].
  { split; [constructor|]. split; [by left|]. intros [?|(l & Hl & _)]; [done|]. by apply elem_of_nil in Hl. }
  cbv zeta in *. case_bool_decide as El; [by rewrite filter_cons_False by (by intros ?)|].
  rewrite filter_cons_True by done. cbn [map]. unfold ParseGoogleTestFlag.
  destruct (parse_first_spec parse_order (c_str l) st) as [(f & g & Hf & D & ->)|(Hno & st3 & -> & Hfl & Hh)].
  - destruct (IH (with_flags st (g (flags st)))) as [H1 H2]. split; [by eapply lines_flag|]. rewrite H2.
    assert (known_line (c_str l)) by (by exists f, g). cbn [g_help_flag with_flags].
    setoid_rewrite elem_of_cons. naive_solver.
  - destruct (IH (set_help st3)) as [H1 H2]. cbn [flags set_help] in H1. rewrite Hfl in H1.
    assert (~ known_line (c_str l)) by (intros (f & g & Hf & D); by eapply Hno).
    split; [by apply lines_other|]. rewrite H2. cbn [g_help_flag set_help].
    setoid_rewrite elem_of_cons. naive_solver.
Qed.

Lemma parse_argument_spec read_file arg st :
  files_readable read_file [arg] ->
  (recognised arg /\ exists st', parse_argument read_file arg st = Ok (true, st') /\
     (forall args fl', sets_flags read_file args (flags st') fl' ->
                       sets_flags read_file (arg :: args) (flags st) fl') /\
     (g_help_flag st' = true <-> g_help_flag st = true \/ file_asks_help read_file arg)) \/
  (~ recognised arg /\ exists st', parse_argument read_file arg st = Ok (false, st') /\
     flags st' = flags st /\
     g_help_flag st' = g_help_flag st || bool_decide (arg = str "--help") ||
                       HasGoogleTestFlagPrefix arg).
Proof.
  intros Hread. unfold parse_argument, ParseGoogleTestFlag.
  destruct (parse_first_spec parse_order arg st) as
    [(f & g & Hf & D & ->)|(Hno & st1 & -> & Hfl & Hh)].
  { left. split; [by exists f, g; split; [right|]|]. eexists. split; [done|].
    split; [intros args fl' H; by eapply sets_flag|]. cbn [g_help_flag with_flags].
    split; [by left|]. intros [?|(path & c & l & -> & _)]; [done|]. exfalso.
    pose proof (denotes_unique _ _ _ _ _ D (denotes_string Flag.flagfile path)) as ->.
    revert Hf. refine (proj1 (bool_decide_eq_false _) _). vm_compute. reflexivity. }
  destruct (ParseFlag_string _ _) as [path|] eqn:E.
  - apply ParseFlag_flagfile in E as ->. left. split.
    { exists (Flag.S Flag.flagfile). eexists. split; [by left|].
      apply (denotes_string Flag.flagfile). }
    destruct (Hread path ltac:(by left)) as [contents Hc]. unfold LoadFlagsFromFile.
    rewrite Hc, bind_ok. eexists. split; [done|].
    destruct (file_lines_spec (SplitString contents LF)
      (with_flags st1 (set_string (flags st1) Flag.flagfile path))) as [H1 H2]. split.
    { intros args fl' H. eapply sets_file; [exact Hc| |exact H]. rewrite <- Hfl. exact H1. }
    rewrite H2. cbn [g_help_flag with_flags]. rewrite Hh. unfold file_asks_help.
    split; (intros [?|H]; [by left|right]).
    + destruct H as (l & Hl & Hk). by exists path, contents, l.
    + destruct H as (path' & c & l & Epath & Hc' & Hl & Hk). apply app_inv_head in Epath as [= <-].
      rewrite Hc in Hc'. injection Hc' as <-. by exists l.
  - right. split.
    + intros (f & g & [->|Hf]%elem_of_cons & D); [|by eapply Hno].
      inversion D as [| | |f' v Ev]; subst.
      change (Flag.string_name Flag.flagfile) with (str "flagfile") in E.
      by rewrite (proj2 (ParseFlag_flagfile _ _) eq_refl) in E.
    + eexists. split; [done|]. rewrite <- Hh. split; destruct (g_help_flag st1) eqn:Eh; simpl;
        repeat case_bool_decide; simpl; try done;
        destruct (HasGoogleTestFlagPrefix arg); simpl; congruence.
Qed.

(** *** Printing the flags *)

Definition flag_arg (fl : Flags) (f : Flag.any) : text :=
  flag_text (Flag.name f) ++ "="%char ::
  match f with
  | Flag.B f => if bools fl f then str "1" else str "0"
  | Flag.I f => dec (ints fl f)
  | Flag.S f => strings fl f
  end.

Definition copy_flag (fl : Flags) (f : Flag.any) (now : Flags) : Flags :=
  match f with
  | Flag.B f => set_bool now f (bools fl f)
  | Flag.I f => set_int now f (ints fl f)
  | Flag.S f => set_string now f (strings fl f)
  end.

Lemma flag_arg_denotes fl f :
  (forall i, int_ok (ints fl i) = true) ->
  exists g, denotes (flag_arg fl f) f g /\ forall now, g now = copy_flag fl f now.
Proof.
  intros Hint. destruct f as [f|f|f]; unfold flag_arg; cbn [Flag.name].
  - eexists. split; [by apply denotes_bool, bool_of_value_false|]. intros now. simpl. by destruct (bools fl f).
  - eexists. split; [apply denotes_int with (z := ints fl f)|done].
    pose proof (ParseInt32_dec (str "The value of flag --" ++ Flag.int_name f) [] (ints fl f)
                  ltac:(constructor)) as H. by rewrite Hint in H.
  - eexists. split; [constructor|done].
Qed.

Lemma parse_flag_arg fl f st :
  (forall i, int_ok (ints fl i) = true) -> f ∈ parse_order ->
  ParseGoogleTestFlag (flag_arg fl f) st = (true, with_flags st (copy_flag fl f (flags st))).
Proof.
  intros Hint Hf. destruct (flag_arg_denotes fl f Hint) as (g & D & Hg).
  unfold ParseGoogleTestFlag.
  destruct (parse_first_spec parse_order (flag_arg fl f) st) as
    [(f' & g' & _ & D' & ->)|(Hno & _)]; [|by edestruct Hno].
  pose proof (denotes_unique _ _ _ _ _ D D') as ->.
  by rewrite <- Hg, (denotes_functional _ _ _ _ D D').
Qed.

Lemma parse_flag_args read_file fl fs st :
  (forall i, int_ok (ints fl i) = true) -> fs ⊆ parse_order ->
  parse_args read_file (map (flag_arg fl) fs) st =
  Ok ([], with_flags st (foldl (fun now f => copy_flag fl f now) (flags st) fs)).
Proof.
  intros Hint. revert st; induction fs as [|f fs IH]; intros st Hsub; cbn [map parse_args foldl].
  { by destruct st. }
  unfold parse_argument. rewrite parse_flag_arg by (done || apply Hsub; by left).
  rewrite bind_ok, IH; [done|]. set_solver.
Qed.

(** The flags that [fs] lists are copied, the others are kept. *)
Lemma copy_flags_spec fl fs now :
  let now' := foldl (fun now f => copy_flag fl f now) now fs in
  (forall f, bools now' f = if bool_decide (Flag.B f ∈ fs) then bools fl f else bools now f) /\
  (forall f, ints now' f = if bool_decide (Flag.I f ∈ fs) then ints fl f else ints now f) /\
  (forall f, strings now' f = if bool_decide (Flag.S f ∈ fs) then strings fl f else strings now f).
Proof.
  revert now; induction fs as [|g fs IH]; intros now; simpl.
  { done. }
  destruct (IH (copy_flag fl g now)) as (Hb & Hi & Hs).
  split_and!; intros f; rewrite ?Hb, ?Hi, ?Hs; clear;
    (match goal with |- context [ bool_decide (?X ∈ _ :: _) ] =>
       destruct (decide (X ∈ fs)); [by rewrite !bool_decide_true by set_solver|];
       rewrite (bool_decide_false (X ∈ fs)) by done;
       destruct (decide (X = g)) as [<-|Hg];
         [rewrite bool_decide_true by set_solver; simpl; unfold update; by rewrite decide_True|];
       rewrite bool_decide_false by set_solver;
       destruct g; simpl; unfold update; try done; rewrite decide_False by congruence; done
     end).
Qed.

(** *** Coloured text *)

Definition color_letter (color : GTestColor) : ascii :=
  match color with kDefault => "D" | kRed => "R" | kGreen => "G" | kYellow => "Y" end.

(** The encoding of characters with their colours, when [cur] is current. *)
Fixpoint color_encode (cur : GTestColor) (cs : list (GTestColor * ascii)) : text :=
  match cs with
  | [] => []
  | (color, c) :: cs =>
      (if decide (color = cur) then [] else ["@"%char; color_letter color]) ++
      (if decide (c = "@"%char) then str "@@" else [c]) ++ color_encode color cs
  end.

(** The characters of the output, each with its colour. *)
Definition coloured (chunks : list chunk) : list (GTestColor * ascii) :=
  flat_map (fun '(color, s) => map (pair color) s) chunks.

Lemma loop_at color seg s :
  PrintColorEncoded_loop color seg (str "@@" ++ s) =
  (color, rev seg) :: (color, str "@") :: PrintColorEncoded_loop color [] s.
Proof. done. Qed.

Lemma loop_color color seg color' s :
  PrintColorEncoded_loop color seg ("@"%char :: color_letter color' :: s) =
  (color, rev seg) :: PrintColorEncoded_loop color' [] s.
Proof. by destruct color'. Qed.

Lemma loop_plain color seg c s :
  c <> "@"%char ->
  PrintColorEncoded_loop color seg (c :: s) = PrintColorEncoded_loop color (c :: seg) s.
Proof. intros H. cbn [PrintColorEncoded_loop]. by rewrite bool_decide_false. Qed.

Lemma PrintColorEncoded_encode color segment cs :
  coloured (PrintColorEncoded_loop color segment (color_encode color cs)) =
  map (pair color) (rev segment) ++ cs.
Proof.
  revert color segment; induction cs as [|[color' c] cs IH]; intros color segment;
    cbn [color_encode]; [by simpl; rewrite !app_nil_r|].
  assert (Hc : forall seg, coloured (PrintColorEncoded_loop color' seg
      ((if decide (c = "@"%char) then str "@@" else [c]) ++ color_encode color' cs)) =
      map (pair color') (rev seg) ++ (color', c) :: cs).
  { intros seg. destruct (decide (c = "@"%char)) as [->|Hn].
    - rewrite loop_at. unfold coloured in *. cbn [flat_map map]. by rewrite IH.
    - cbn [app]. rewrite loop_plain, IH by done. simpl. by rewrite map_app, <- app_assoc. }
  destruct (decide (color' = color)) as [->|Hn]; [apply Hc|].
  cbn [app]. rewrite loop_color. unfold coloured in *. cbn [flat_map]. by rewrite Hc.
Qed.

(** *** Deciding whether an argument is recognised *)

Definition no_state : CmdState := mkCmdState (initial_flags (fun _ => None)) false [].

#[export] Instance recognised_dec arg : Decision (recognised arg).
Proof.
  destruct (parse_first parse_order arg no_state) as [b st] eqn:E.
  destruct (ParseFlag_string (Some arg) (Flag.string_name Flag.flagfile)) as [v|] eqn:Ev.
  - left. apply ParseFlag_flagfile in Ev as ->. exists (Flag.S Flag.flagfile).
    eexists. split; [by left|]. apply (denotes_string Flag.flagfile).
  - destruct b; [left|right].
    + destruct (parse_first_spec parse_order arg no_state) as
        [(f & g & Hf & D & _)|(_ & st' & H & _)]; [|congruence].
      exists f, g. split; [by right|done].
    + intros (f & g & [->|Hf]%elem_of_cons & D).
      * inversion D as [| | |f' v Ed]; subst. change (Flag.string_name Flag.flagfile) with (str "flagfile") in *.
        by rewrite (proj2 (ParseFlag_flagfile _ _) eq_refl) in Ev.
      * destruct (parse_first_spec parse_order arg no_state) as
          [(f' & g' & _ & _ & H)|(Hno & _)]; [congruence | by eapply Hno].
Defined.

(** What asks for the help. *)
Definition asks_help (arg : text) : bool :=
  bool_decide (arg = str "--help") || HasGoogleTestFlagPrefix arg.

Lemma parse_args_spec read_file args st :
  files_readable read_file args ->
  exists st', parse_args read_file args st = Ok (filter (fun a => ~ recognised a) args, st') /\
    sets_flags read_file args (flags st) (flags st') /\
    (g_help_flag st' = true <-> g_help_flag st = true \/
       existsb asks_help (filter (fun a => ~ recognised a) args) = true \/
       exists arg, arg ∈ args /\ file_asks_help read_file arg).
Proof.
  revert st; induction args as [|arg args IH]; intros st Hread; cbn [parse_args].
  { exists st. split; [done|]. split; [constructor|]. split; [by left|].
    intros [?|[?|(a & Ha & _)]]; [done|done|]. by apply elem_of_nil in Ha. }
  destruct (parse_argument_spec read_file arg st) as
    [(Hr & st1 & -> & Hset & Hh)|(Hr & st1 & -> & Hfl & Hh)];
    [intros v Hv; apply Hread; set_solver|..]; rewrite bind_ok;
    (destruct (IH st1) as (st2 & -> & H1 & H2); [intros v Hv; apply Hread; set_solver|]);
    rewrite bind_ok; exists st2; setoid_rewrite elem_of_cons; rewrite H2.
  - rewrite filter_cons_False by naive_solver. split; [done|]. split; [by apply Hset|]. rewrite Hh.
    split; [intros [[?|?]|[?|(a & ? & ?)]]; eauto 6|intros [?|[?|(a & [->|?] & ?)]]; eauto].
  - rewrite filter_cons_True by done. cbn [existsb]. split; [done|]. split.
    { apply sets_other; [done|]. by rewrite <- Hfl. }
    assert (Hno : ~ file_asks_help read_file arg).
    { intros (path & c & l & -> & _). apply Hr. exists (Flag.S Flag.flagfile). eexists.
      split; [by left|]. apply (denotes_string Flag.flagfile). }
    rewrite Hh. unfold asks_help at 2. rewrite !orb_true_iff.
    split; [intros [[[?|?]|?]|[?|(a & ? & ?)]]; eauto 6|intros [?|[[[?|?]|?]|(a & [->|?] & ?)]]; eauto; done].
Qed.

(** ** Death tests (gtest-death-test.cc, gtest-internal-inl.h)

    The flag that tells a child process which death test it runs. *)

(** [ParseNaturalNumber] for an [int]; [strtoull] saturates with an error. *)
Definition ParseNaturalNumber (s : text) : option Z :=
  match s with
  | [] => None
  | c :: _ =>
      if negb (IsDigit c) then None
      else
        let '(parsed, end_) := digits_value 0 (c_str s) in
        let parse_success := bool_decide (end_ = []) && (parsed <? 2 ^ 64) in
        let result := to_int32 parsed in
        if parse_success && (result mod 2 ^ 64 =? parsed) then Some result else None
  end.

Record InternalRunDeathTestFlag : Type := mkInternalRunDeathTestFlag {
  flag_file : text; flag_line : Z; flag_index : Z; flag_write_fd : Z }.

(** A flag that cannot be read ends the process. *)
Definition ParseInternalRunDeathTestFlag (fl : Flags) : outcome (option InternalRunDeathTestFlag) :=
  let flag := strings fl Flag.internal_run_death_test in
  if bool_decide (flag = []) then Ok None
  else match SplitString flag "|" with
       | [file; line; index; write_fd] =>
           match ParseNaturalNumber line, ParseNaturalNumber index, ParseNaturalNumber write_fd with
           | Some line, Some index, Some write_fd =>
               Ok (Some (mkInternalRunDeathTestFlag file line index write_fd))
           | _, _, _ => Err ProcessExit
           end
       | _ => Err ProcessExit
       end.

(** Numbers from 2^64 - 2^31 on are taken for negative ones. *)
Lemma ParseNaturalNumber_negative : ParseNaturalNumber (str "18446744073709551615") = Some (-1).
Proof. vm_compute. reflexivity. Qed.
