(* ===== verification/XmlReport.v ===== *)
(** * The XML report (gtest.cc, XmlUnitTestResultPrinter)

    The text of the report, write by write.  The checks of attribute names and
    the accesses to tests and parts can fail and return an [outcome].  The flags
    and [localtime_r] are parameters. *)

From S2P Require Import Prelude Outcome Common CStr TestResult TestSelect UnitTest ReportFormat CommandLine.

(** ** Characters *)

Definition QUOTE : ascii := "034".
Definition TAB : ascii := "009".
Definition CR : ascii := "013".

Definition IsNormalizableWhitespace (c : ascii) : bool :=
  bool_decide (c = TAB) || bool_decide (c = LF) || bool_decide (c = CR).
Definition IsValidXmlCharacter (c : ascii) : bool :=
  IsNormalizableWhitespace c || (32 <=? code c).

(** One character of [EscapeXml]. *)
Definition escape_xml_char (is_attribute : bool) (ch : ascii) : text :=
  if bool_decide (ch = "<"%char) then str "&lt;"
  else if bool_decide (ch = ">"%char) then str "&gt;"
  else if bool_decide (ch = "&"%char) then str "&amp;"
  else if bool_decide (ch = "'"%char) then (if is_attribute then str "&apos;" else str "'")
  else if bool_decide (ch = QUOTE) then (if is_attribute then str "&quot;" else [QUOTE])
  else if IsValidXmlCharacter ch then
    if is_attribute && IsNormalizableWhitespace ch
    then str "&#x" ++ Gtest_String.FormatByte (code ch) ++ str ";"
    else [ch]
  else [].
Definition EscapeXml (s : text) (is_attribute : bool) : text :=
  flat_map (escape_xml_char is_attribute) s.
Definition EscapeXmlAttribute (s : text) : text := EscapeXml s true.
Definition EscapeXmlText (s : text) : text := EscapeXml (c_str s) false.

Definition RemoveInvalidXmlCharacters (s : text) : text := List.filter IsValidXmlCharacter s.

(** The loop of [OutputXmlCDataSection] over the segments between "]]>". *)
Fixpoint cdata_loop (fuel : nat) (segment : text) : outcome text :=
  match fuel with
  | O => Err Diverges
  | S fuel =>
      match find_text (str "]]>") segment with
      | Some i => rest ← cdata_loop fuel (drop (i + length (str "]]>")) segment);
                  Ok (take i segment ++ str "]]>]]&gt;<![CDATA[" ++ rest)
      | None => Ok segment
      end
  end.
Definition OutputXmlCDataSection (data : text) : outcome text :=
  body ← cdata_loop (S (length data)) data;
  Ok (str "<![CDATA[" ++ body ++ str "]]>").

Definition quoted_value (value : text) : text := QUOTE :: EscapeXmlAttribute value ++ [QUOTE].

Definition OutputXmlAttribute (element_name name value : text) : outcome text :=
  allowed_names ← GetReservedOutputAttributesForElement element_name;
  _ ← c_assert (bool_decide (name ∈ allowed_names));
  Ok (str " " ++ name ++ str "=" ++ quoted_value value).

(** ** Results *)

Definition TestPropertiesAsXmlAttributes (result : TestResult) : text :=
  flat_map (fun p => str " " ++ prop_key p ++ str "=" ++ quoted_value (prop_value p))
    (test_properties_ result).

Definition OutputXmlTestProperties (result : TestResult) : text :=
  if test_property_count result <=? 0 then []
  else str "      <properties>" ++ [LF] ++
       flat_map (fun p => str "        <property" ++ str " name=" ++ quoted_value (prop_key p) ++
                          str " value=" ++ quoted_value (prop_value p) ++ str "/>" ++ [LF])
         (test_properties_ result) ++
       str "      </properties>" ++ [LF].

(** The element of one failure or skip. *)
Definition xml_location (part : TestPartResult) : text :=
  FormatCompilerIndependentFileLocation (part_file_name part) (line_number_ part).
Definition xml_summary (part : TestPartResult) : text :=
  xml_location part ++ LF :: summary_ part.
Definition xml_detail (part : TestPartResult) : text :=
  xml_location part ++ LF :: message_ part.

Definition xml_failure (part : TestPartResult) : outcome text :=
  emit [Ok (str "      <failure message=" ++ quoted_value (xml_summary part) ++
            str " type=" ++ quoted_value [] ++ str ">");
        OutputXmlCDataSection (c_str (RemoveInvalidXmlCharacters (xml_detail part)));
        Ok (str "</failure>" ++ [LF])].
Definition xml_skipped (part : TestPartResult) : outcome text :=
  emit [Ok (str "      <skipped message=" ++ quoted_value (c_str (xml_summary part)) ++ str ">");
        OutputXmlCDataSection (c_str (RemoveInvalidXmlCharacters (xml_detail part)));
        Ok (str "</skipped>" ++ [LF])].

(** The loop over the parts: what is written, and the two counters. *)
Fixpoint xml_parts (parts : list TestPartResult) (failures skips : Z) : outcome (text * Z * Z) :=
  match parts with
  | [] => Ok ([], failures, skips)
  | part :: parts =>
      if failed part then
        failures ← iadd failures 1;
        element ← xml_failure part;
        '(rest, f, s) ← xml_parts parts failures skips;
        Ok ((if (failures =? 1) && (skips =? 0) then str ">" ++ [LF] else []) ++ element ++ rest,
            f, s)
      else if skipped part then
        skips ← iadd skips 1;
        element ← xml_skipped part;
        '(rest, f, s) ← xml_parts parts failures skips;
        Ok ((if (skips =? 1) && (failures =? 0) then str ">" ++ [LF] else []) ++ element ++ rest,
            f, s)
      else xml_parts parts failures skips
  end.

Definition OutputXmlTestResult (result : TestResult) : outcome text :=
  '(body, failures, skips) ← xml_parts (test_part_results_ result) 0 0;
  let none := (failures =? 0) && (skips =? 0) in
  Ok (body ++
      if none && (test_property_count result =? 0) then str " />" ++ [LF]
      else (if none then str ">" ++ [LF] else []) ++
           OutputXmlTestProperties result ++ str "    </testcase>" ++ [LF]).

(** ** Tests, suites, the program *)

Section report.
Variable localtime_r : Z -> option tm.
Variable fl : Flags.

Definition attribute (element name : String.string) (value : text) : outcome text :=
  OutputXmlAttribute (str element) (str name) value.

(** An attribute whose value is a count. *)
Definition count_attribute (element name : String.string) (count : outcome Z) : outcome text :=
  n ← count; attribute element name (dec n).
Definition time_attribute (element : String.string) (ms : Z) : outcome text :=
  attribute element "time" (FormatTimeInMillisAsSeconds ms).
Definition timestamp_attribute (element : String.string) (ms : Z) : outcome text :=
  t ← FormatEpochTimeInMillisAsIso8601 localtime_r ms; attribute element "timestamp" t.
(** An attribute that may be missing. *)
Definition optional_attribute (element name : String.string) (value : option text)
    : outcome text :=
  match value with None => Ok [] | Some v => attribute element name v end.

Definition OutputXmlTestSuiteForTestResult (result : TestResult) : outcome text :=
  emit [Ok (str "  <testsuite");
        attribute "testsuite" "name" (str "NonTestSuiteFailure");
        attribute "testsuite" "tests" (str "1");
        attribute "testsuite" "failures" (str "1");
        attribute "testsuite" "disabled" (str "0");
        attribute "testsuite" "skipped" (str "0");
        attribute "testsuite" "errors" (str "0");
        time_attribute "testsuite" (elapsed_time_ result);
        timestamp_attribute "testsuite" (start_timestamp_ result);
        Ok (str ">");
        Ok (str "    <testcase");
        attribute "testcase" "name" [];
        attribute "testcase" "status" (str "run");
        attribute "testcase" "result" (str "completed");
        attribute "testcase" "classname" [];
        time_attribute "testcase" (elapsed_time_ result);
        timestamp_attribute "testcase" (start_timestamp_ result);
        OutputXmlTestResult result;
        Ok (str "  </testsuite>" ++ [LF])].

(** The text of the attribute "result". *)
Definition result_status (t : TestInfo) : outcome text :=
  if should_run_ t then
    s ← Skipped (result_ t); Ok (if s : bool then str "skipped" else str "completed")
  else Ok (str "suppressed").

Definition OutputXmlTestInfo (test_suite_name : text) (t : TestInfo) : outcome text :=
  if is_in_another_shard_ t then Ok []
  else
    emit [Ok (str "    <testcase");
          attribute "testcase" "name" (test_name_ t);
          optional_attribute "testcase" "value_param" (value_param_ t);
          optional_attribute "testcase" "type_param" (type_param_ t);
          attribute "testcase" "file" (loc_file (location_ t));
          attribute "testcase" "line" (dec (loc_line (location_ t)));
          if bools fl Flag.list_tests then Ok (str " />" ++ [LF])
          else
            emit [attribute "testcase" "status" (if should_run_ t then str "run" else str "notrun");
                  (r ← result_status t; attribute "testcase" "result" r);
                  time_attribute "testcase" (elapsed_time_ (result_ t));
                  timestamp_attribute "testcase" (start_timestamp_ (result_ t));
                  attribute "testcase" "classname" test_suite_name;
                  OutputXmlTestResult (result_ t)]].

(** The i-th test, which is not null. *)
Definition deref_test (s : TestSuite) (i : nat) : outcome TestInfo :=
  t ← GetTestInfo s (Z.of_nat i); or_fault InvalidDeref t.

Definition PrintXmlTestSuite (s : TestSuite) : outcome text :=
  emit [Ok (str "  <testsuite");
        attribute "testsuite" "name" (suite_name_ s);
        count_attribute "testsuite" "tests" (reportable_test_count s);
        if bools fl Flag.list_tests then Ok []
        else
          emit [count_attribute "testsuite" "failures" (failed_test_count s);
                count_attribute "testsuite" "disabled" (reportable_disabled_test_count s);
                count_attribute "testsuite" "skipped" (skipped_test_count s);
                attribute "testsuite" "errors" (str "0");
                time_attribute "testsuite" (suite_elapsed_time_ s);
                timestamp_attribute "testsuite" (suite_start_timestamp_ s);
                Ok (TestPropertiesAsXmlAttributes (ad_hoc_test_result_ s))];
        Ok (str ">" ++ [LF]);
        emit (map (fun i => t ← deref_test s i;
                            if is_reportable t then OutputXmlTestInfo (suite_name_ s) t else Ok [])
                  (seq 0 (length (test_info_list_ s))));
        Ok (str "  </testsuite>" ++ [LF])].

(** The i-th suite, which is not null. *)
Definition deref_suite (u : UnitTest) (i : nat) : outcome TestSuite :=
  s ← GetTestSuite (unit_suites u) (Z.of_nat i); or_fault InvalidDeref s.

Definition xml_declaration : text :=
  str "<?xml version=" ++ QUOTE :: str "1.0" ++ QUOTE :: str " encoding=" ++ QUOTE ::
  str "UTF-8" ++ QUOTE :: str "?>" ++ [LF].

Definition PrintXmlUnitTest (u : UnitTest) : outcome text :=
  let suites := test_suites_ (unit_suites u) in
  emit [Ok (xml_declaration ++ str "<testsuites");
        count_attribute "testsuites" "tests" (UnitTestImpl.reportable_test_count suites);
        count_attribute "testsuites" "failures" (UnitTestImpl.failed_test_count suites);
        count_attribute "testsuites" "disabled" (UnitTestImpl.reportable_disabled_test_count suites);
        attribute "testsuites" "errors" (str "0");
        time_attribute "testsuites" (unit_elapsed_time_ u);
        timestamp_attribute "testsuites" (unit_start_timestamp_ u);
        (if bools fl Flag.shuffle then attribute "testsuites" "random_seed" (dec (random_seed_ u))
         else Ok []);
        Ok (TestPropertiesAsXmlAttributes (unit_ad_hoc u));
        attribute "testsuites" "name" (str "AllTests");
        Ok (str ">" ++ [LF]);
        emit (map (fun i => s ← deref_suite u i;
                            n ← reportable_test_count s;
                            if 0 <? n then PrintXmlTestSuite s else Ok [])
                  (seq 0 (length suites)));
        (if Failed (unit_ad_hoc u) then OutputXmlTestSuiteForTestResult (unit_ad_hoc u)
         else Ok []);
        Ok (str "</testsuites>" ++ [LF])].

(** [total_tests += test_suite->total_test_count()], an [int]. *)
Definition sum_tests (test_suites : list TestSuite) : outcome Z :=
  foldl (fun total s => n ← total; iadd n (total_test_count s)) (Ok 0) test_suites.

Definition PrintXmlTestsList (test_suites : list TestSuite) : outcome text :=
  emit [Ok (xml_declaration ++ str "<testsuites");
        count_attribute "testsuites" "tests" (sum_tests test_suites);
        attribute "testsuites" "name" (str "AllTests");
        Ok (str ">" ++ [LF]);
        emit (map PrintXmlTestSuite test_suites);
        Ok (str "</testsuites>" ++ [LF])].

End report.
