(* ===== verification/XmlGrammar.v ===== *)
(** * Well-formed XML and what it denotes

    The part of XML 1.0 that the report uses, as relations between a text and
    what it stands for: attribute values and character data with references and
    CDATA sections, elements with distinct attributes, documents; and the proof
    that the escapes of XmlReport.v are written in it. *)

From S2P Require Import Prelude Outcome Common CStr Printers Utf8 TestResult TestSelect ReportFormat CommandLine XmlReport.

(** An element with its attributes and children, or character data. *)
Inductive node : Type :=
  | Elem (name : text) (attrs : list (text * text)) (children : list node)
  | Chars (s : text).

(** The references the report uses: the entities and three characters. *)
Definition references : list (text * ascii) :=
  [(str "&lt;", "<"%char); (str "&gt;", ">"%char); (str "&amp;", "&"%char);
   (str "&apos;", "'"%char); (str "&quot;", QUOTE);
   (str "&#x09;", TAB); (str "&#x0A;", LF); (str "&#x0D;", CR)].

(** Characters that stand for themselves in the value of an attribute. *)
Definition plain_in_value (c : ascii) : bool :=
  (32 <=? code c) && negb (bool_decide (c = "<"%char)) && negb (bool_decide (c = "&"%char)) &&
  negb (bool_decide (c = QUOTE)).

Inductive value_of : text -> text -> Prop :=
  | value_nil : value_of [] []
  | value_plain c s v : plain_in_value c = true -> value_of s v -> value_of (c :: s) (c :: v)
  | value_reference r c s v : (r, c) ∈ references -> value_of s v -> value_of (r ++ s) (c :: v).

(** Names, as far as the report needs them. *)
Definition xml_name_start (c : ascii) : bool := IsAlpha c || bool_decide (c = "_"%char).
Definition xml_name_char (c : ascii) : bool :=
  xml_name_start c || IsDigit c || bool_decide (c = "-"%char) || bool_decide (c = "."%char).
Definition xml_name (n : text) : bool :=
  match n with c :: n' => xml_name_start c && forallb xml_name_char n' | [] => false end.

(** Attributes, each after a blank. *)
Inductive attributes_of : text -> list (text * text) -> Prop :=
  | attributes_nil : attributes_of [] []
  | attributes_cons n raw v s al :
      xml_name n = true -> value_of raw v -> attributes_of s al ->
      attributes_of (str " " ++ n ++ str "=" ++ (QUOTE :: raw ++ [QUOTE]) ++ s) ((n, v) :: al).

(** Character data; a CDATA section ends at the first "]]>". *)
Inductive char_data : text -> text -> Prop :=
  | data_nil : char_data [] []
  | data_plain c s d : plain_in_value c = true -> c <> ">"%char -> char_data s d ->
      char_data (c :: s) (c :: d)
  | data_reference r c s d : (r, c) ∈ references -> char_data s d -> char_data (r ++ s) (c :: d)
  | data_cdata section s d : find_text (str "]]>") section = None ->
      Forall (fun c => IsValidXmlCharacter c = true) section -> char_data s d ->
      char_data (str "<![CDATA[" ++ section ++ str "]]>" ++ s) (section ++ d).

(** White space between elements, the elements, and lists of them. *)
Definition xml_space (s : text) : Prop := Forall (fun c => IsSpace c = true) s.

Inductive element_of : text -> node -> Prop :=
  | element_empty n a al space :
      xml_name n = true -> attributes_of a al -> NoDup (map fst al) -> xml_space space ->
      element_of (str "<" ++ n ++ a ++ space ++ str "/>") (Elem n al [])
  | element_data n a al s d :
      xml_name n = true -> attributes_of a al -> NoDup (map fst al) -> char_data s d ->
      element_of (str "<" ++ n ++ a ++ str ">" ++ s ++ str "</" ++ n ++ str ">")
        (Elem n al [Chars d])
  | element_nested n a al s children :
      xml_name n = true -> attributes_of a al -> NoDup (map fst al) -> content_of s children ->
      element_of (str "<" ++ n ++ a ++ str ">" ++ s ++ str "</" ++ n ++ str ">")
        (Elem n al children)
with content_of : text -> list node -> Prop :=
  | content_nil space : xml_space space -> content_of space []
  | content_cons space e n s ns :
      xml_space space -> element_of e n -> content_of s ns -> content_of (space ++ e ++ s) (n :: ns).

Definition document_of (doc : text) (root : node) : Prop :=
  exists e space, element_of e root /\ xml_space space /\ doc = xml_declaration ++ e ++ space.

(** ** The escapes *)

(** What is left of a text in the report. *)
Definition xml_text (s : text) : text := List.filter IsValidXmlCharacter s.

(** What one character becomes, by cases that a computation checks. *)
Definition escape_check (c : ascii) : bool :=
  let e := escape_xml_char true c in
  if IsValidXmlCharacter c
  then (bool_decide (e = [c]) && plain_in_value c) || bool_decide ((e, c) ∈ references)
  else bool_decide (e = []).

Lemma escape_checked c : escape_check c = true.
Proof. revert c. apply every_char. vm_compute. reflexivity. Qed.

Lemma EscapeXmlAttribute_value s : value_of (EscapeXmlAttribute s) (xml_text s).
Proof.
  unfold EscapeXmlAttribute, EscapeXml, xml_text. induction s as [|c s IH]; [constructor|].
  cbn [flat_map List.filter]. pose proof (escape_checked c) as H. unfold escape_check in H.
  destruct (IsValidXmlCharacter c).
  - apply orb_true_iff in H as [[H Hp]%andb_true_iff|H]; apply bool_decide_eq_true in H.
    + rewrite H. by apply value_plain.
    + by apply value_reference.
  - apply bool_decide_eq_true in H. by rewrite H.
Qed.

(** A value can be read in one way only, up to its closing quote. *)
Definition reference_facts : bool :=
  forallb (fun '(r, c) => forallb (fun '(r', c') =>
    (bool_decide (r = r') && bool_decide (c = c')) ||
    negb (has_prefix r r') && negb (has_prefix r' r)) references) references &&
  forallb (fun '(r, _) => bool_decide (head r = Some "&"%char)) references.

Lemma reference_facts_hold : reference_facts = true.
Proof. vm_compute. reflexivity. Qed.

Lemma reference_head r c : (r, c) ∈ references -> exists r', r = "&"%char :: r'.
Proof.
  pose proof reference_facts_hold as H. apply andb_true_iff in H as [_ H].
  intros Hr%list_elem_of_In. pose proof (proj1 (forallb_forall _ _) H _ Hr) as Hh. simpl in Hh.
  apply bool_decide_eq_true in Hh. destruct r as [|a r]; [done|]. injection Hh as ->. eauto.
Qed.

Lemma app_prefix (a b x y : text) : a ++ x = b ++ y -> has_prefix a b = true \/ has_prefix b a = true.
Proof.
  revert b; induction a as [|c a IH]; intros [|d b]; simpl; [by left..|by right|].
  intros [= -> E]. rewrite bool_decide_true by done. by apply IH.
Qed.

Lemma reference_unique r c r' c' (x y : text) :
  (r, c) ∈ references -> (r', c') ∈ references -> r ++ x = r' ++ y -> r = r' /\ c = c' /\ x = y.
Proof.
  intros Hr Hr' E. pose proof reference_facts_hold as H. apply andb_true_iff in H as [H _].
  apply list_elem_of_In in Hr, Hr'.
  pose proof (proj1 (forallb_forall _ _) H _ Hr) as H1. cbn beta iota in H1.
  pose proof (proj1 (forallb_forall _ _) H1 _ Hr') as H2. cbn beta iota in H2.
  clear H H1. rename H2 into H.
  apply orb_true_iff in H as [H|H].
  - apply andb_true_iff in H as [->%bool_decide_eq_true ->%bool_decide_eq_true].
    by apply app_inv_head in E as ->.
  - apply andb_true_iff in H as [H1%negb_true_iff H2%negb_true_iff].
    apply app_prefix in E as [E|E]; congruence.
Qed.

Lemma value_unique s v v' : value_of s v -> value_of s v' -> v = v'.
Proof.
  assert (Hamp : plain_in_value "&" = false) by reflexivity.
  intros H. revert v'. induction H as [|c s v Hc H IH|r c s v Hr H IH]; intros v' H'.
  - inversion H' as [| |r c s v Hr Hv E]; [done|].
    destruct (reference_head r c Hr) as (r' & ->). done.
  - inversion H' as [|c' s' w Hc' Hw|r c' s' w Hr Hw E]; subst.
    + f_equal. auto.
    + destruct (reference_head _ _ Hr) as (r' & ->). injection E as <- _. congruence.
  - inversion H' as [E|c' s' w Hc' Hw E|r' c' s' w Hr' Hw E]; subst.
    + destruct (reference_head _ _ Hr) as (q & ->). done.
    + destruct (reference_head _ _ Hr) as (q & ->). injection E as -> _. congruence.
    + destruct (reference_unique _ _ _ _ _ _ Hr' Hr E) as (-> & -> & ->). f_equal. auto.
Qed.

(** *** CDATA sections *)

Lemma has_prefix_app_l n s t : has_prefix n s = true -> has_prefix n (s ++ t) = true.
Proof.
  rewrite !has_prefix_spec. intros (r & ->). exists (r ++ t). by rewrite app_assoc.
Qed.

Lemma find_text_some n s i :
  n <> [] -> find_text n s = Some i ->
  exists pre post, s = pre ++ n ++ post /\ length pre = i /\ find_text n pre = None.
Proof.
  intros Hn. revert i; induction s as [|c s IH]; intros i; cbn [find_text];
    (destruct (has_prefix n _) eqn:E; [|]); try done.
  - destruct n; [done|]. done.
  - intros [= <-]. apply has_prefix_spec in E as (post & ->). exists [], post.
    split_and!; [done|done|]. destruct n; [done|]. done.
  - destruct (find_text n s) as [j|]; [|done]. intros [= <-].
    destruct (IH j eq_refl) as (pre & post & -> & <- & Hp). exists (c :: pre), post.
    split_and!; [done|done|]. cbn [find_text]. rewrite Hp.
    destruct (has_prefix n (c :: pre)) eqn:E'; [|done].
    apply (has_prefix_app_l _ _ (n ++ post)) in E'. simpl in E'. congruence.
Qed.

Lemma cdata_loop_data fuel segment s d :
  (length segment < fuel)%nat -> Forall (fun c => IsValidXmlCharacter c = true) segment ->
  char_data s d ->
  exists body, cdata_loop fuel segment = Ok body /\
    char_data (str "<![CDATA[" ++ body ++ str "]]>" ++ s) (segment ++ d).
Proof.
  revert segment; induction fuel as [|fuel IH]; intros segment Hfuel Hvalid Hs; [lia|].
  cbn [cdata_loop]. destruct (find_text (str "]]>") segment) as [i|] eqn:E.
  - apply find_text_some in E as (pre & post & -> & <- & Hpre); [|done].
    rewrite !Forall_app in Hvalid. destruct Hvalid as (Hv1 & _ & Hv2).
    rewrite !length_app in Hfuel. simpl in Hfuel.
    destruct (IH post ltac:(lia) Hv2 Hs) as (body & Hb & Hd).
    replace (drop (length pre + length (str "]]>")) (pre ++ str "]]>" ++ post)) with post
      by (rewrite <- drop_drop, drop_app_length; done).
    rewrite Hb, bind_ok, take_app_length. eexists. split; [done|].
    change (str "]]>]]&gt;<![CDATA[") with (str "]]>" ++ str "]]" ++ str "&gt;" ++ str "<![CDATA[").
    rewrite <- !app_assoc. apply data_cdata; [done|done|].
    change (str "]]>" ++ post ++ d) with ("]"%char :: "]"%char :: ">"%char :: post ++ d).
    change (str "]]" ++ ?x) with ("]"%char :: "]"%char :: x).
    apply data_plain; [done|done|]. apply data_plain; [done|done|].
    apply data_reference; [by right; left|done].
  - exists segment. split; [done|]. by apply data_cdata.
Qed.

Lemma OutputXmlCDataSection_data data :
  Forall (fun c => IsValidXmlCharacter c = true) data ->
  exists s, OutputXmlCDataSection data = Ok s /\ char_data s data.
Proof.
  intros Hv. destruct (cdata_loop_data (S (length data)) data [] [] ltac:(lia) Hv) as (body & Hb & Hd);
    [constructor|].
  unfold OutputXmlCDataSection. rewrite Hb, bind_ok. eexists. split; [done|].
  by rewrite !app_nil_r in Hd.
Qed.

Lemma RemoveInvalid_valid s :
  Forall (fun c => IsValidXmlCharacter c = true) (RemoveInvalidXmlCharacters s).
Proof. apply Forall_forall. intros c Hc%list_elem_of_In%filter_In. tauto. Qed.

(** No NUL is left. *)
Lemma RemoveInvalid_c_str s : c_str (RemoveInvalidXmlCharacters s) = RemoveInvalidXmlCharacters s.
Proof.
  apply c_str_id. intros H. pose proof (proj1 (Forall_forall _ _) (RemoveInvalid_valid s) _ H). done.
Qed.

(** *** Attributes *)

(** The attributes as they are written, before the escape. *)
Definition attributes_text (al : list (text * text)) : text :=
  flat_map (fun '(n, v) => str " " ++ n ++ str "=" ++ quoted_value v) al.
Definition attributes_denoted (al : list (text * text)) : list (text * text) :=
  map (fun '(n, v) => (n, xml_text v)) al.

Lemma attributes_text_app al bl :
  attributes_text (al ++ bl) = attributes_text al ++ attributes_text bl.
Proof. unfold attributes_text. by rewrite flat_map_app. Qed.

Lemma attributes_text_denoted al :
  Forall (fun '(n, _) => xml_name n = true) al ->
  attributes_of (attributes_text al) (attributes_denoted al).
Proof.
  induction 1 as [|[n v] al Hn _ IH]; [constructor|].
  cbn [attributes_text attributes_denoted flat_map map]. rewrite <- !app_assoc.
  apply attributes_cons; [done | apply EscapeXmlAttribute_value | exact IH].
Qed.

Lemma attributes_denoted_names al : map fst (attributes_denoted al) = map fst al.
Proof. induction al as [|[n v] al IH]; simpl; [done|]. by rewrite IH. Qed.

(** *** Lists of elements *)

Lemma content_app s ns t ms : content_of s ns -> content_of t ms -> content_of (s ++ t) (ns ++ ms).
Proof.
  intros H Ht. induction H as [space Hs|space e n s ns Hs He H IH].
  - destruct Ht as [space' Hs'|space' e n t ms Hs' He Ht].
    + constructor. apply Forall_app. by split.
    + rewrite app_assoc. constructor; [apply Forall_app; by split|done|done].
  - rewrite <- !app_assoc. cbn [app]. by constructor.
Qed.

Lemma content_element space e n space' :
  xml_space space -> element_of e n -> xml_space space' -> content_of (space ++ e ++ space') [n].
Proof. intros. constructor; [done..|]. by constructor. Qed.

Lemma content_concat ss nss : Forall2 content_of ss nss -> content_of (concat ss) (concat nss).
Proof.
  induction 1; simpl; [repeat constructor|]. by apply content_app.
Qed.

(** [emit] of writes that succeed. *)
Lemma emit_ok {A} ms (ss : list (list A)) : Forall2 (fun m s => m = Ok s) ms ss -> emit ms = Ok (concat ss).
Proof. induction 1 as [|m s ms ss -> _ IH]; [done|]. cbn [emit foldr]. fold (emit ms). by rewrite IH. Qed.

(** The space the report writes: blanks and line feeds. *)
Definition report_space (s : text) : bool := forallb IsSpace s.
Lemma report_space_ok s : report_space s = true -> xml_space s.
Proof. unfold report_space, xml_space. rewrite forallb_forall, Forall_forall. intros H c Hc. by apply H, list_elem_of_In. Qed.

(** *** Elements with written attributes *)

Definition names_ok (al : list (text * text)) : Prop :=
  Forall (fun n => xml_name n = true) (map fst al) /\ NoDup (map fst al).

Lemma names_ok_attributes al :
  names_ok al -> attributes_of (attributes_text al) (attributes_denoted al) /\
  NoDup (map fst (attributes_denoted al)).
Proof.
  intros [Hn Hd]. split; [|by rewrite attributes_denoted_names].
  apply attributes_text_denoted. apply Forall_map in Hn. eapply Forall_impl; [exact Hn|].
  by intros [n v].
Qed.

(** Decided on concrete names. *)
Lemma names_ok_check al :
  forallb xml_name (map fst al) && bool_decide (NoDup (map fst al)) = true -> names_ok al.
Proof.
  intros [H1 H2%bool_decide_eq_true]%andb_true_iff. split; [|done].
  apply Forall_forall. intros n Hn%list_elem_of_In. by apply (proj1 (forallb_forall _ _) H1).
Qed.

Section written.
Context (n : text) (al : list (text * text)) (Hn : xml_name n = true) (Hal : names_ok al).

Lemma written_empty space :
  report_space space = true ->
  element_of (str "<" ++ n ++ attributes_text al ++ space ++ str "/>")
    (Elem n (attributes_denoted al) []).
Proof.
  intros Hs. destruct (names_ok_attributes al Hal). by apply element_empty; [..|apply report_space_ok].
Qed.

Lemma written_data s d :
  char_data s d ->
  element_of (str "<" ++ n ++ attributes_text al ++ str ">" ++ s ++ str "</" ++ n ++ str ">")
    (Elem n (attributes_denoted al) [Chars d]).
Proof. intros Hd. destruct (names_ok_attributes al Hal). by apply element_data. Qed.

Lemma written_nested s children :
  content_of s children ->
  element_of (str "<" ++ n ++ attributes_text al ++ str ">" ++ s ++ str "</" ++ n ++ str ">")
    (Elem n (attributes_denoted al) children).
Proof. intros Hd. destruct (names_ok_attributes al Hal). by apply element_nested. Qed.

End written.

(** An element on lines of its own. *)
Lemma content_line before e n after s :
  report_space before = true -> report_space after = true -> element_of e n ->
  s = before ++ e ++ after -> content_of s [n].
Proof. intros Hb Ha He ->. apply content_element; [by apply report_space_ok..|done|by apply report_space_ok]. Qed.

(** ** The encoding

    The declaration says UTF-8: the bytes of a document must be an encoding of
    characters that XML allows.  All delimiters are ASCII, so that the relations
    above, on bytes, read such a document as its characters. *)

Definition encoded (Q : Z -> Prop) (s : text) : Prop := exists cps, Forall Q cps /\ s = encode cps.

(** The characters of XML 1.0, and the texts the report can show: Unicode without
    the two noncharacters that XML excludes; control characters are left out. *)
Definition xml_code_point (cp : Z) : Prop :=
  cp = 9 \/ cp = 10 \/ cp = 13 \/ (32 <= cp /\ scalar cp /\ cp <> 65534 /\ cp <> 65535).
Definition shown_code_point (cp : Z) : Prop := scalar cp /\ cp <> 65534 /\ cp <> 65535.
Definition xml_chars (s : text) : Prop := encoded xml_code_point s.
Definition textual (s : text) : Prop := encoded shown_code_point s.

Lemma encode_app a b : encode (a ++ b) = encode a ++ encode b.
Proof. unfold encode. by rewrite map_app, concat_app. Qed.

Lemma encoded_app Q s t : encoded Q s -> encoded Q t -> encoded Q (s ++ t).
Proof.
  intros (a & Ha & ->) (b & Hb & ->). exists (a ++ b). split; [by apply Forall_app|by rewrite encode_app].
Qed.
Lemma encoded_nil Q : encoded Q [].
Proof. by exists []. Qed.
Lemma encoded_concat Q ss : Forall (encoded Q) ss -> encoded Q (concat ss).
Proof. induction 1; [apply encoded_nil|by apply encoded_app]. Qed.

Lemma xml_code_point_scalar cp : xml_code_point cp -> scalar cp.
Proof. unfold xml_code_point, scalar. lia. Qed.

(** An ASCII character is one byte, the bytes of the others are not ASCII. *)
Lemma encode_ascii cp cps : 0 <= cp < 128 -> encode (cp :: cps) = to_char cp :: encode cps.
Proof.
  intros H. unfold encode. cbn [map concat]. unfold utf8_bytes.
  change kMaxCodePoint1 with 127. by rewrite (proj2 (Z.leb_le cp 127)) by lia.
Qed.
Lemma encode_other cp cps :
  128 <= cp -> scalar cp ->
  exists bs, encode (cp :: cps) = bs ++ encode cps /\ bs = encode [cp] /\ bs <> [] /\
    Forall (fun c => 128 <= code c) bs.
Proof.
  intros H Hs. exists (map to_char (utf8_bytes cp)). split; [done|].
  split; [unfold encode; cbn; by rewrite app_nil_r|]. pose proof (scalar_max cp Hs) as Hm.
  rewrite utf8_bytes_rfc by done. pose proof (rfc3629_range cp Hm) as Hr.
  assert (Hb : Forall (fun b => 128 <= b) (rfc3629 cp) /\ rfc3629 cp <> []).
  { change kMaxCodePoint4 with 2097151 in Hm. unfold rfc3629. clear Hr.
    repeat zcase; split; try done; repeat constructor; Z.to_euclidean_division_equations; lia. }
  destruct Hb as [Hb Hne]. split; [by destruct (rfc3629 cp)|].
  apply Forall_map. clear Hne. induction Hb as [|b bs Hb _ IH]; [constructor|].
  apply Forall_cons in Hr as [Hr1 Hr2]. constructor; [by rewrite code_to_char|by apply IH].
Qed.

(** An ASCII character is a boundary. *)
Lemma encoded_split Q a c b :
  (forall cp, Q cp -> scalar cp) -> code c < 128 -> encoded Q (a ++ c :: b) ->
  encoded Q a /\ encoded Q b.
Proof.
  intros HQ Hc (cps & Hcps & E). revert a E. induction Hcps as [|cp cps Hcp Hcps IH]; intros a E.
  { by destruct a. }
  pose proof (HQ cp Hcp) as Hs. destruct (Z.lt_ge_cases cp 128) as [Hlt|Hge].
  - rewrite encode_ascii in E by (unfold scalar in Hs; lia). destruct a as [|d a].
    + injection E as -> ->. split; [apply encoded_nil|by exists cps].
    + injection E as -> E. destruct (IH a E) as [(l & Hl & ->) Hb]. split; [|done].
      exists (cp :: l). split; [by constructor|]. by rewrite encode_ascii by (unfold scalar in Hs; lia).
  - destruct (encode_other cp cps Hge Hs) as (bs & Ebs & Ecp & _ & Hbs). rewrite Ebs in E.
    assert (Ha : exists a', a = bs ++ a').
    { clear -Hbs E Hc. revert a E. induction Hbs as [|x bs Hx _ IH]; intros a E; [by exists a|].
      destruct a as [|d a]; [injection E as -> _; lia|]. injection E as -> E.
      destruct (IH a E) as (a' & ->). by exists a'. }
    destruct Ha as (a' & ->). rewrite <- app_assoc in E. apply app_inv_head in E.
    destruct (IH a' E) as [(l & Hl & ->) Hb]. split; [|done]. exists (cp :: l).
    split; [by constructor|]. destruct (encode_other cp l Hge Hs) as (bs' & -> & -> & _). by rewrite Ecp.
Qed.

(** Texts in ASCII. *)
Definition printable (s : text) : bool := forallb (fun c => (32 <=? code c) && (code c <? 127)) s.

Definition xml_ascii (s : text) : bool := forallb (fun c => IsValidXmlCharacter c && (code c <? 128)) s.

Lemma xml_ascii_chars s : xml_ascii s = true -> xml_chars s.
Proof.
  induction s as [|c s IH]; intros H; [apply encoded_nil|]. cbn [xml_ascii forallb] in H.
  apply andb_true_iff in H as [[Hv Hc%Z.ltb_lt]%andb_true_iff H]. destruct (IH H) as (cps & Hcps & ->).
  pose proof (code_range c). exists (code c :: cps).
  split; [|by rewrite encode_ascii, to_char_code by lia]. constructor; [|done].
  unfold IsValidXmlCharacter, IsNormalizableWhitespace in Hv. unfold xml_code_point, scalar.
  apply orb_true_iff in Hv as [Hv|Hv%Z.leb_le]; [|lia].
  rewrite !orb_true_iff, !bool_decide_eq_true in Hv. destruct Hv as [[->| ->]| ->]; [by left|right; by left|].
  right; right; by left.
Qed.

Lemma printable_textual s : printable s = true -> textual s.
Proof.
  induction s as [|c s IH]; intros H; [apply encoded_nil|]. cbn [printable forallb] in H.
  apply andb_true_iff in H as [[Hl%Z.leb_le Hc%Z.ltb_lt]%andb_true_iff H].
  destruct (IH H) as (cps & Hcps & ->). exists (code c :: cps).
  split; [|by rewrite encode_ascii, to_char_code by lia]. constructor; [|done].
  unfold shown_code_point, scalar. lia.
Qed.

Lemma printable_app s t : printable (s ++ t) = printable s && printable t.
Proof. apply forallb_app. Qed.

(** A rewriting of the ASCII characters. *)
Lemma rewritten_chars f s :
  (forall c, (if code c <? 128 then xml_ascii (f c) else bool_decide (f c = [c])) = true) ->
  textual s -> xml_chars (flat_map f s).
Proof.
  intros Hf (cps & Hcps & ->). induction Hcps as [|cp cps (Hs & Hn1 & Hn2) _ IH]; [apply encoded_nil|].
  destruct (Z.lt_ge_cases cp 128) as [Hlt|Hge].
  - rewrite encode_ascii by (unfold scalar in Hs; lia). cbn [flat_map]. apply encoded_app; [|done].
    specialize (Hf (to_char cp)). rewrite code_to_char, (proj2 (Z.ltb_lt cp 128)) in Hf
      by (unfold scalar in Hs; lia). by apply xml_ascii_chars.
  - destruct (encode_other cp cps Hge Hs) as (bs & -> & Ecp & _ & Hbs). rewrite flat_map_app.
    apply encoded_app; [|done].
    assert (E : flat_map f bs = bs).
    { clear Ecp. induction Hbs as [|c bs Hc _ IHb]; [done|]. cbn [flat_map]. rewrite IHb.
      specialize (Hf c). rewrite (proj2 (Z.ltb_ge (code c) 128)) in Hf by lia.
      by apply bool_decide_eq_true in Hf as ->. }
    rewrite E, Ecp. exists [cp]. split; [|done]. constructor; [|done]. right; right; right. split; [lia|done].
Qed.

Lemma EscapeXmlAttribute_chars s : textual s -> xml_chars (EscapeXmlAttribute s).
Proof. apply rewritten_chars. apply every_char. vm_compute. reflexivity. Qed.

Lemma RemoveInvalid_chars s : textual s -> xml_chars (RemoveInvalidXmlCharacters s).
Proof.
  assert (E : RemoveInvalidXmlCharacters s = flat_map (fun c => if IsValidXmlCharacter c then [c] else []) s).
  { unfold RemoveInvalidXmlCharacters. induction s as [|c s IH]; [done|]. cbn. rewrite IH.
    by destruct (IsValidXmlCharacter c). }
  rewrite E. apply rewritten_chars. apply every_char. vm_compute. reflexivity.
Qed.

Lemma textual_c_str s : textual s -> textual (c_str s).
Proof.
  intros H. destruct (decide (NUL ∈ s)) as [Hin|Hno]; [|by rewrite c_str_id].
  assert (E : exists rest, s = c_str s ++ NUL :: rest).
  { clear H. induction s as [|c s IH]; [by apply elem_of_nil in Hin|]. cbn [c_str].
    case_bool_decide as Ec; [subst; by exists s|].
    apply elem_of_cons in Hin as [|Hin]; [congruence|]. destruct (IH Hin) as (rest & Er). exists rest.
    cbn [app]. by f_equal. }
  destruct E as (rest & E). rewrite E in H.
  apply (encoded_split _ _ NUL rest) in H as [H _]; [done|by intros cp []|done].
Qed.

Lemma cdata_loop_chars fuel segment body :
  cdata_loop fuel segment = Ok body -> xml_chars segment -> xml_chars body.
Proof.
  revert segment body; induction fuel as [|fuel IH]; intros segment body; [done|]. cbn [cdata_loop].
  destruct (find_text (str "]]>") segment) as [i|] eqn:E; [|by intros [= ->]].
  apply find_text_some in E as (pre & post & -> & <- & _); [|done].
  replace (drop (length pre + length (str "]]>")) (pre ++ str "]]>" ++ post)) with post
    by (rewrite <- drop_drop, drop_app_length; done).
  destruct (cdata_loop fuel post) as [rest|] eqn:Er; [|done]. rewrite bind_ok, take_app_length.
  intros [= <-] H. cbn [app str String.list_ascii_of_string] in H.
  apply encoded_split in H as [Hpre H]; [|apply xml_code_point_scalar|done].
  apply (encoded_split _ [_]) in H as [_ H]; [|apply xml_code_point_scalar|done].
  apply encoded_app; [done|]. apply (encoded_app _ (str "]]>]]&gt;<![CDATA["));
    [by apply xml_ascii_chars|by eapply IH].
Qed.

Lemma OutputXmlCDataSection_chars data s :
  OutputXmlCDataSection data = Ok s -> xml_chars data -> xml_chars s.
Proof.
  unfold OutputXmlCDataSection. destruct (cdata_loop _ _) as [body|] eqn:E; [|done]. rewrite bind_ok.
  intros [= <-] H. apply (encoded_app _ (str "<![CDATA[")); [by apply xml_ascii_chars|].
  apply encoded_app; [by eapply cdata_loop_chars|by apply xml_ascii_chars].
Qed.

(** *** Numbers and times *)

Lemma digits_loop_printable fuel n acc :
  0 <= n -> printable acc = true -> printable (digits_loop fuel 10 n acc) = true.
Proof.
  revert n acc; induction fuel as [|fuel IH]; intros n acc Hn H; [done|]. cbn [digits_loop].
  assert (Hd : printable (digit_char (n mod 10) :: acc) = true).
  { cbn [printable forallb]. destruct (digit_char_spec (n mod 10)) as [_ ->];
      [apply Z.mod_pos_bound; lia|]. pose proof (Z.mod_pos_bound n 10 ltac:(lia)).
    rewrite (proj2 (Z.leb_le 32 _)), (proj2 (Z.ltb_lt _ 127)) by lia. done. }
  destruct (n <? 10); [done|]. apply IH; [|done]. apply Z.div_pos; lia.
Qed.
Lemma dec_printable n : printable (dec n) = true.
Proof.
  unfold dec, digits. destruct (Z.ltb_spec n 0); [|by apply digits_loop_printable].
  cbn [printable forallb]. apply digits_loop_printable; [lia|done].
Qed.
Lemma pad_left_printable width s : printable s = true -> printable (pad_left "0" width s) = true.
Proof.
  intros H. unfold pad_left. rewrite printable_app, H, andb_true_r.
  induction (Z.to_nat _) as [|n IH]; [done|]. exact IH.
Qed.
Lemma decimals_printable p c : printable (decimals p c) = true.
Proof.
  unfold decimals. rewrite !printable_app, dec_printable. destruct (p =? 0); [done|].
  apply pad_left_printable, dec_printable.
Qed.
Lemma seconds_printable ms : printable (FormatTimeInMillisAsSeconds ms) = true.
Proof.
  unfold FormatTimeInMillisAsSeconds, print_fixed_showpoint. generalize (seconds_of ms). intros f.
  destruct f as [[]|[]| |[]]; rewrite ?printable_app, ?decimals_printable; done.
Qed.
Lemma date_printable localtime_r ms t :
  FormatEpochTimeInMillisAsIso8601 localtime_r ms = Ok t -> printable t = true.
Proof.
  unfold FormatEpochTimeInMillisAsIso8601. destruct (PortableLocaltime _ _) as [tm_|]; [|by intros [= <-]].
  destruct (iadd _ 1900); [|done]. rewrite bind_ok. destruct (iadd _ 1); [|done]. rewrite bind_ok.
  intros [= <-]. unfold Gtest_String.FormatIntWidth2, Gtest_String.FormatIntWidthN.
  assert (Happ : forall s t, printable s = true -> printable t = true -> printable (s ++ t) = true)
    by (intros s t Hs Ht; by rewrite printable_app, Hs).
  repeat first [apply dec_printable | apply pad_left_printable | apply Happ | done].
Qed.
