(* ===== verification/XmlTheorems.v ===== *)
(** * The XML report is a well-formed document that says what happened

    [report_tree] is the report as a tree: what its elements, attributes and
    texts are.  [PrintXmlUnitTest] writes a document of XmlGrammar.v that denotes
    this tree. *)

From S2P Require Import Prelude Outcome Common CStr Printers Utf8 TestResult TestSelect UnitTest ReportFormat CommandLine XmlReport XmlGrammar.

Lemma attributes_text_cons n v al :
  attributes_text ((n, v) :: al) =
  (str " " ++ n ++ str "=" ++ quoted_value v) ++ attributes_text al.
Proof. done. Qed.

(** Equality of texts that differ in how they are put together. *)
Ltac text_eq :=
  repeat first [rewrite attributes_text_cons | rewrite attributes_text_app];
  unfold attributes_text, quoted_value, attribute;
  cbn [flat_map app str String.list_ascii_of_string];
  repeat (rewrite <- app_assoc; cbn [app]); rewrite ?app_nil_r; reflexivity.

(** ** The tree of the report *)

Section tree.
Variable localtime_r : Z -> option tm.
Variable fl : Flags.

Definition stamp (ms : Z) : text :=
  match FormatEpochTimeInMillisAsIso8601 localtime_r ms with Ok t => t | Err _ => [] end.

(** Failures and skips are reported, successes are not. *)
Definition reported (p : TestPartResult) : bool := failed p || skipped p.

Definition part_node (p : TestPartResult) : node :=
  if failed p then
    Elem (str "failure") [(str "message", xml_text (xml_summary p)); (str "type", [])]
      [Chars (xml_text (xml_detail p))]
  else Elem (str "skipped") [(str "message", xml_text (c_str (xml_summary p)))]
         [Chars (xml_text (xml_detail p))].

Definition property_node (p : TestProperty) : node :=
  Elem (str "property") [(str "name", xml_text (prop_key p)); (str "value", xml_text (prop_value p))] [].

Definition result_children (r : TestResult) : list node :=
  map part_node (List.filter reported (test_part_results_ r)) ++
  match test_properties_ r with
  | [] => []
  | ps => [Elem (str "properties") [] (map property_node ps)]
  end.

Definition property_attributes (r : TestResult) : list (text * text) :=
  map (fun p => (prop_key p, prop_value p)) (test_properties_ r).

(** The attributes before the escape. *)
Definition optional (name : String.string) (v : option text) : list (text * text) :=
  match v with None => [] | Some v => [(str name, v)] end.
Definition test_attributes (suite_name : text) (t : TestInfo) : list (text * text) :=
  [(str "name", test_name_ t)] ++ optional "value_param" (value_param_ t) ++
  optional "type_param" (type_param_ t) ++
  [(str "file", loc_file (location_ t)); (str "line", dec (loc_line (location_ t)))] ++
  if bools fl Flag.list_tests then []
  else [(str "status", if should_run_ t then str "run" else str "notrun");
        (str "result", if should_run_ t
                       then if skipped_result (result_ t) then str "skipped" else str "completed"
                       else str "suppressed");
        (str "time", FormatTimeInMillisAsSeconds (elapsed_time_ (result_ t)));
        (str "timestamp", stamp (start_timestamp_ (result_ t)));
        (str "classname", suite_name)].
Definition test_node (suite_name : text) (t : TestInfo) : node :=
  Elem (str "testcase") (attributes_denoted (test_attributes suite_name t))
    (if bools fl Flag.list_tests then [] else result_children (result_ t)).

(** The tests of a suite in the order in which they run. *)
Definition tests_in_order (s : TestSuite) : list TestInfo :=
  omap (fun i => test_info_list_ s !! Z.to_nat i) (test_indices_ s).

Definition suite_attributes (s : TestSuite) : list (text * text) :=
  [(str "name", suite_name_ s); (str "tests", dec (tests_where is_reportable s))] ++
  if bools fl Flag.list_tests then []
  else [(str "failures", dec (tests_where TestFailed s));
        (str "disabled", dec (tests_where TestReportableDisabled s));
        (str "skipped", dec (tests_where (fun t => should_run_ t && skipped_result (result_ t)) s));
        (str "errors", str "0");
        (str "time", FormatTimeInMillisAsSeconds (suite_elapsed_time_ s));
        (str "timestamp", stamp (suite_start_timestamp_ s))] ++
       property_attributes (ad_hoc_test_result_ s).
Definition suite_node (s : TestSuite) : node :=
  Elem (str "testsuite") (attributes_denoted (suite_attributes s))
    (map (test_node (suite_name_ s)) (List.filter is_reportable (tests_in_order s))).

(** Failures outside of the tests are reported as a suite with one test. *)
Definition ad_hoc_node (r : TestResult) : node :=
  Elem (str "testsuite")
    (attributes_denoted
       [(str "name", str "NonTestSuiteFailure"); (str "tests", str "1"); (str "failures", str "1");
        (str "disabled", str "0"); (str "skipped", str "0"); (str "errors", str "0");
        (str "time", FormatTimeInMillisAsSeconds (elapsed_time_ r));
        (str "timestamp", stamp (start_timestamp_ r))])
    [Elem (str "testcase")
       (attributes_denoted
          [(str "name", []); (str "status", str "run"); (str "result", str "completed");
           (str "classname", []);
           (str "time", FormatTimeInMillisAsSeconds (elapsed_time_ r));
           (str "timestamp", stamp (start_timestamp_ r))])
       (result_children r)].

Definition program_attributes (u : UnitTest) : list (text * text) :=
  let suites := test_suites_ (unit_suites u) in
  [(str "tests", dec (zsum (tests_where is_reportable) suites));
   (str "failures", dec (zsum (tests_where TestFailed) suites));
   (str "disabled", dec (zsum (tests_where TestReportableDisabled) suites));
   (str "errors", str "0");
   (str "time", FormatTimeInMillisAsSeconds (unit_elapsed_time_ u));
   (str "timestamp", stamp (unit_start_timestamp_ u))] ++
  (if bools fl Flag.shuffle then [(str "random_seed", dec (random_seed_ u))] else []) ++
  property_attributes (unit_ad_hoc u) ++ [(str "name", str "AllTests")].
Definition report_tree (u : UnitTest) : node :=
  Elem (str "testsuites") (attributes_denoted (program_attributes u))
    (map suite_node (List.filter (fun s => 0 <? tests_where is_reportable s)
                       (test_suites_ (unit_suites u))) ++
     if Failed (unit_ad_hoc u) then [ad_hoc_node (unit_ad_hoc u)] else []).

(** ** What the report relies on *)

(** Dates within the range of an [int]. *)
Definition dates_ok : Prop :=
  forall s t, localtime_r s = Some t -> int_ok (tm_year t + 1900) = true /\ int_ok (tm_mon t + 1) = true.

(** Properties that become attributes: names that XML allows and, as
    [RecordProperty] ensures, that are distinct and not taken by the report. *)
Definition properties_ok (reserved : list text) (r : TestResult) : Prop :=
  Forall (fun p => xml_name (prop_key p) = true /\ prop_key p ∉ reserved) (test_properties_ r) /\
  NoDup (map prop_key (test_properties_ r)).

Definition report_suite_ok (s : TestSuite) : Prop :=
  suite_ok s /\ test_indices_ s ≡ₚ map Z.of_nat (seq 0 (length (test_info_list_ s))) /\
  properties_ok kReservedTestSuiteAttributes (ad_hoc_test_result_ s).

Definition report_ok (u : UnitTest) : Prop :=
  let suites := test_suites_ (unit_suites u) in
  Forall report_suite_ok suites /\ zsum total_test_count suites <= INT_MAX /\
  test_suite_indices_ (unit_suites u) ≡ₚ map Z.of_nat (seq 0 (length suites)) /\
  properties_ok kReservedTestSuitesAttributes (unit_ad_hoc u) /\
  int_list (test_part_results_ (unit_ad_hoc u)).

(** ** The results of a test *)

Lemma emit_three a b c (x y z : text) :
  a = Ok x -> b = Ok y -> c = Ok z -> emit [a; b; c] = Ok (x ++ y ++ z).
Proof. intros -> -> ->. cbn. by rewrite app_nil_r. Qed.

Lemma xml_detail_data p :
  exists s, OutputXmlCDataSection (c_str (RemoveInvalidXmlCharacters (xml_detail p))) = Ok s /\
    char_data s (xml_text (xml_detail p)).
Proof. rewrite RemoveInvalid_c_str. apply OutputXmlCDataSection_data, RemoveInvalid_valid. Qed.

Lemma xml_failure_node p :
  failed p = true -> exists s, xml_failure p = Ok s /\ content_of s [part_node p].
Proof.
  intros Hp. destruct (xml_detail_data p) as (s & Hs & Hd). unfold xml_failure.
  erewrite emit_three by (reflexivity || exact Hs). eexists. split; [reflexivity|].
  unfold part_node. rewrite Hp.
  eapply (content_line (str "      ") _ _ [LF]); [done|done| |].
  - apply (written_data (str "failure") [(str "message", xml_summary p); (str "type", [])]);
      [done | by apply names_ok_check | exact Hd].
  - text_eq.
Qed.

Lemma xml_skipped_node p :
  failed p = false -> exists s, xml_skipped p = Ok s /\ content_of s [part_node p].
Proof.
  intros Hp. destruct (xml_detail_data p) as (s & Hs & Hd). unfold xml_skipped.
  erewrite emit_three by (reflexivity || exact Hs). eexists. split; [reflexivity|].
  unfold part_node. rewrite Hp.
  eapply (content_line (str "      ") _ _ [LF]); [done|done| |].
  - apply (written_data (str "skipped") [(str "message", c_str (xml_summary p))]);
      [done | by apply names_ok_check | exact Hd].
  - text_eq.
Qed.

(** The loop over the parts: its elements, after the end of the tag if it writes any. *)
Lemma xml_parts_nodes parts f s :
  0 <= f -> 0 <= s -> f + s + Z.of_nat (length parts) <= INT_MAX ->
  exists pre body f' s', xml_parts parts f s = Ok (pre ++ body, f', s') /\
    f <= f' /\ s <= s' /\ f' + s' = f + s + Z.of_nat (length (List.filter reported parts)) /\
    pre = (if (f + s =? 0) && (0 <? Z.of_nat (length (List.filter reported parts))) then str ">" ++ [LF] else []) /\
    content_of body (map part_node (List.filter reported parts)) /\
    (List.filter reported parts = [] -> body = []).
Proof.
  revert f s; induction parts as [|p parts IH]; intros f s Hf Hs Hmax.
  { exists [], [], f, s. cbn [List.filter length map xml_parts]. rewrite andb_false_r.
    split_and!; try done; [lia|repeat constructor]. }
  cbn [length] in Hmax. cbn [xml_parts List.filter].
  destruct (failed p) eqn:Ef; [|destruct (skipped p) eqn:Es];
    (destruct (reported p) eqn:Er; unfold reported in Er; rewrite Ef, ?Es in Er; try discriminate Er);
    clear Er; cbn [length map].
  - rewrite iadd_ok by range. rewrite bind_ok. destruct (xml_failure_node p Ef) as (e & -> & He).
    rewrite bind_ok. destruct (IH (f + 1) s ltac:(lia) Hs ltac:(lia)) as
      (pre & body & f' & s' & -> & Hf' & Hs' & Hn & Hpre & Hb & _). rewrite bind_ok.
    replace (f + 1 + s =? 0) with false in Hpre by (symmetry; apply Z.eqb_neq; lia).
    cbn [andb] in Hpre. subst pre. cbn [app].
    exists (if (f + 1 =? 1) && (s =? 0) then str ">" ++ [LF] else []), (e ++ body), f', s'.
    split_and!; [done|lia|lia|lia| |by apply (content_app e [part_node p])|done].
    rewrite (proj2 (Z.ltb_lt 0 _)), andb_true_r by lia.
    replace (f + s =? 0) with ((f + 1 =? 1) && (s =? 0)); [done|].
    destruct (Z.eqb_spec (f + 1) 1), (Z.eqb_spec s 0), (Z.eqb_spec (f + s) 0); simpl; try done; lia.
  - rewrite iadd_ok by range. rewrite bind_ok. destruct (xml_skipped_node p Ef) as (e & -> & He).
    rewrite bind_ok. destruct (IH f (s + 1) Hf ltac:(lia) ltac:(lia)) as
      (pre & body & f' & s' & -> & Hf' & Hs' & Hn & Hpre & Hb & _). rewrite bind_ok.
    replace (f + (s + 1) =? 0) with false in Hpre by (symmetry; apply Z.eqb_neq; lia).
    cbn [andb] in Hpre. subst pre. cbn [app].
    exists (if (s + 1 =? 1) && (f =? 0) then str ">" ++ [LF] else []), (e ++ body), f', s'.
    split_and!; [done|lia|lia|lia| |by apply (content_app e [part_node p])|done].
    rewrite (proj2 (Z.ltb_lt 0 _)), andb_true_r by lia.
    replace (f + s =? 0) with ((s + 1 =? 1) && (f =? 0)); [done|].
    destruct (Z.eqb_spec (s + 1) 1), (Z.eqb_spec f 0), (Z.eqb_spec (f + s) 0); simpl; try done; lia.
  - destruct (IH f s Hf Hs ltac:(lia)) as (pre & body & f' & s' & E & H).
    exists pre, body, f', s'. split; [exact E|exact H].
Qed.

Lemma property_line_node p :
  content_of (str "        <property" ++ str " name=" ++ quoted_value (prop_key p) ++
              str " value=" ++ quoted_value (prop_value p) ++ str "/>" ++ [LF]) [property_node p].
Proof.
  eapply (content_line (str "        ") _ _ [LF]); [done|done| |].
  - apply (written_empty (str "property") [(str "name", prop_key p); (str "value", prop_value p)])
      with (space := []); [done | by apply names_ok_check | done].
  - text_eq.
Qed.

Lemma OutputXmlTestProperties_nodes r :
  content_of (OutputXmlTestProperties r)
    match test_properties_ r with
    | [] => []
    | ps => [Elem (str "properties") [] (map property_node ps)]
    end.
Proof.
  unfold OutputXmlTestProperties, test_property_count.
  destruct (test_properties_ r) as [|p ps]; [repeat constructor|].
  rewrite (proj2 (Z.leb_gt _ _)) by (simpl; lia).
  eapply (content_line (str "      ") _ _ [LF]); [done|done| |].
  - apply (written_nested (str "properties") []) with
      (s := [LF] ++ concat (map (fun p => str "        <property" ++ str " name=" ++
              quoted_value (prop_key p) ++ str " value=" ++ quoted_value (prop_value p) ++
              str "/>" ++ [LF]) (p :: ps)) ++ str "      ")
      (children := map property_node (p :: ps)); [done | by apply names_ok_check |].
    refine (content_app [LF] [] _ _ _ _); [by constructor; apply report_space_ok|].
    rewrite <- (app_nil_r (map property_node _)).
    refine (content_app _ (map property_node (p :: ps)) _ [] _ _);
      [|by constructor; apply report_space_ok].
    replace (map property_node (p :: ps)) with (concat (map (fun p => [property_node p]) (p :: ps)))
      by (clear; induction (p :: ps) as [|q qs IH]; simpl; congruence).
    apply content_concat. clear. induction (p :: ps); simpl; constructor;
      [apply property_line_node | done].
  - rewrite flat_map_concat_map. text_eq.
Qed.

(** The end of the tag, the parts and the properties of a result. *)
Lemma result_element al r :
  int_list (test_part_results_ r) -> names_ok al ->
  exists out e, OutputXmlTestResult r = Ok out /\
    element_of e (Elem (str "testcase") (attributes_denoted al) (result_children r)) /\
    str "    <testcase" ++ attributes_text al ++ out = str "    " ++ e ++ [LF].
Proof.
  intros Hint Hal. unfold OutputXmlTestResult.
  destruct (xml_parts_nodes (test_part_results_ r) 0 0) as
    (pre & body & f & s & -> & Hf & Hs & Hn & Hpre & Hb & Hnil); [lia|lia|unfold int_list in Hint; lia|].
  rewrite bind_ok. set (reports := List.filter reported (test_part_results_ r)) in *.
  assert (Hnone : (f =? 0) && (s =? 0) = bool_decide (reports = [])).
  { destruct reports; cbn [length] in Hn; [|rewrite bool_decide_false by done];
      destruct (Z.eqb_spec f 0), (Z.eqb_spec s 0); simpl; try done; lia. }
  rewrite Hnone. clear Hnone. unfold test_property_count, result_children. fold reports.
  pose proof (OutputXmlTestProperties_nodes r) as Hprops.
  assert (Hfull : exists e, (reports <> [] \/ test_properties_ r <> []) ->
    element_of e (Elem (str "testcase") (attributes_denoted al)
      (map part_node reports ++ match test_properties_ r with
        | [] => [] | ps => [Elem (str "properties") [] (map property_node ps)] end)) /\
    str "    <testcase" ++ attributes_text al ++ str ">" ++ [LF] ++ body ++
      OutputXmlTestProperties r ++ str "    </testcase>" ++ [LF] = str "    " ++ e ++ [LF]).
  { eexists. intros _. split.
    - apply (written_nested (str "testcase") al) with
        (s := [LF] ++ body ++ OutputXmlTestProperties r ++ str "    "); [done|done|].
      refine (content_app [LF] [] _ _ _ _); [by constructor; apply report_space_ok|].
      apply content_app; [exact Hb|]. rewrite <- (app_nil_r (match _ with [] => _ | _ => _ end)).
      apply content_app; [exact Hprops|by constructor; apply report_space_ok].
    - text_eq. }
  destruct Hfull as (e & Hfull). case_bool_decide as Er.
  - rewrite Er in *. specialize (Hnil eq_refl). subst body. cbn in Hpre. subst pre.
    destruct (test_properties_ r) as [|p ps] eqn:Ep.
    + eexists. exists (str "<" ++ str "testcase" ++ attributes_text al ++ str " " ++ str "/>").
      split; [reflexivity|]. split; [by apply written_empty|]. cbn [length Z.of_nat Z.eqb andb].
      text_eq.
    + rewrite (proj2 (Z.eqb_neq (Z.of_nat (length (p :: ps))) 0)) by (cbn [length]; lia).
      eexists. exists e. split; [reflexivity|].
      destruct (Hfull ltac:(by right)) as [He E]. split; [exact He|]. exact E.
  - eexists. exists e. rewrite andb_false_l. split; [reflexivity|].
    destruct (Hfull ltac:(by left)) as [He E]. split; [exact He|].
    rewrite <- E. rewrite Hpre. destruct reports; [done|]. cbn [length]. text_eq.
Qed.

(** ** Sequences of attributes *)

Definition allowed (element name : String.string) : bool :=
  match GetReservedOutputAttributesForElement (str element) with
  | Ok names => bool_decide (str name ∈ names)
  | Err _ => false
  end.

Lemma attribute_ok element name v :
  allowed element name = true ->
  attribute element name v = Ok (attributes_text [(str name, v)]).
Proof.
  unfold allowed, attribute, OutputXmlAttribute.
  destruct (GetReservedOutputAttributesForElement (str element)) as [names|]; [|done].
  intros H. rewrite bind_ok, H. cbn [c_assert]. rewrite bind_ok. cbn [attributes_text flat_map].
  by rewrite app_nil_r.
Qed.

Lemma stamp_ok ms :
  dates_ok -> FormatEpochTimeInMillisAsIso8601 localtime_r ms = Ok (stamp ms).
Proof.
  intros Hd. unfold stamp, FormatEpochTimeInMillisAsIso8601, PortableLocaltime.
  destruct (localtime_r (Z.quot ms 1000)) as [t|] eqn:E; [|done].
  destruct (Hd _ _ E) as [Hy Hm]. by rewrite !iadd_ok by (by apply int_ok_iff).
Qed.

Lemma count_ok element name n z :
  allowed element name = true -> n = Ok z ->
  count_attribute element name n = Ok (attributes_text [(str name, dec z)]).
Proof. intros Ha ->. by apply attribute_ok. Qed.

Lemma timestamp_ok element ms :
  allowed element "timestamp" = true -> dates_ok ->
  timestamp_attribute localtime_r element ms = Ok (attributes_text [(str "timestamp", stamp ms)]).
Proof. intros Ha Hd. unfold timestamp_attribute. rewrite stamp_ok by done. by apply attribute_ok. Qed.

Lemma optional_ok element name v :
  allowed element name = true ->
  optional_attribute element name v = Ok (attributes_text (optional name v)).
Proof. intros Ha. destruct v; [by apply attribute_ok|done]. Qed.

(** One more write of attributes before the rest. *)
Lemma emit_attributes m ms al bl out :
  m = Ok (attributes_text al) -> emit ms = Ok (attributes_text bl ++ out) ->
  emit (m :: ms) = Ok (attributes_text (al ++ bl) ++ out).
Proof.
  intros -> E. cbn [emit foldr]. fold (emit ms). rewrite E, !bind_ok, attributes_text_app.
  by rewrite <- app_assoc.
Qed.

Lemma emit_attributes_nil m ms bl out :
  m = Ok [] -> emit ms = Ok (attributes_text bl ++ out) ->
  emit (m :: ms) = Ok (attributes_text bl ++ out).
Proof. intros -> E. cbn [emit foldr]. fold (emit ms). by rewrite E. Qed.

Lemma emit_open x ms (out : text) : emit ms = Ok out -> emit (Ok x :: ms) = Ok (x ++ out).
Proof. intros E. cbn [emit foldr]. fold (emit ms). by rewrite E. Qed.

Lemma emit_rest ms out : emit ms = Ok out -> emit ms = Ok (attributes_text [] ++ out).
Proof. done. Qed.

Lemma emit_all ms al : emit ms = Ok (attributes_text al ++ []) -> emit ms = Ok (attributes_text al).
Proof. by rewrite app_nil_r. Qed.

Lemma emit_nested l ms (out rest : text) :
  emit l = Ok out -> emit ms = Ok rest -> emit (emit l :: ms) = Ok (out ++ rest).
Proof. intros -> E. cbn [emit foldr]. fold (emit ms). by rewrite E. Qed.

Lemma emit_last m (out : text) : m = Ok out -> emit [m] = Ok out.
Proof. intros ->. cbn. by rewrite app_nil_r. Qed.

Hypothesis Hdates : dates_ok.

Ltac attr :=
  first [ apply attribute_ok; reflexivity | apply optional_ok; reflexivity
        | apply timestamp_ok; [reflexivity | exact Hdates]
        | unfold time_attribute; apply attribute_ok; reflexivity
        | apply count_ok; [reflexivity|] ].

Lemma test_names sn t : names_ok (test_attributes sn t).
Proof.
  apply names_ok_check. unfold test_attributes, optional.
  destruct (value_param_ t), (type_param_ t), (bools fl Flag.list_tests); vm_compute; reflexivity.
Qed.

Lemma result_status_ok t :
  int_list (test_part_results_ (result_ t)) ->
  (r ← result_status t; attribute "testcase" "result" r) =
  Ok (attributes_text [(str "result", if should_run_ t
         then if skipped_result (result_ t) then str "skipped" else str "completed"
         else str "suppressed")]).
Proof.
  intros H. unfold result_status. destruct (should_run_ t); [rewrite Skipped_pure by done|];
    rewrite ?bind_ok; by apply attribute_ok.
Qed.

Lemma test_element sn t :
  is_in_another_shard_ t = false -> int_list (test_part_results_ (result_ t)) ->
  exists e, OutputXmlTestInfo localtime_r fl sn t = Ok (str "    " ++ e ++ [LF]) /\
    element_of e (test_node sn t).
Proof.
  intros Hshard Hint. unfold OutputXmlTestInfo. rewrite Hshard.
  pose proof (test_names sn t) as Hn.
  destruct (result_element (test_attributes sn t) (result_ t) Hint Hn) as (out & e & Hout & He & Ee).
  unfold test_node. destruct (bools fl Flag.list_tests) eqn:El.
  - exists (str "<" ++ str "testcase" ++ attributes_text (test_attributes sn t) ++ str " " ++ str "/>").
    split; [|by apply written_empty].
    erewrite emit_open; [|eapply emit_attributes; [attr|]; eapply emit_attributes; [attr|];
      eapply emit_attributes; [attr|]; eapply emit_attributes; [attr|];
      eapply emit_attributes; [attr|]; apply emit_rest, emit_last; reflexivity].
    f_equal. unfold test_attributes. rewrite El. cbn [app].
    text_eq.
  - exists e. split; [|exact He]. rewrite <- Ee. clear He Ee.
    erewrite emit_open; [|eapply emit_attributes; [attr|]; eapply emit_attributes; [attr|];
      eapply emit_attributes; [attr|]; eapply emit_attributes; [attr|];
      eapply emit_attributes; [attr|]; apply emit_rest, emit_last;
      eapply emit_attributes; [attr|]; eapply emit_attributes; [by apply result_status_ok|];
      eapply emit_attributes; [attr|]; eapply emit_attributes; [attr|];
      eapply emit_attributes; [attr|]; apply emit_rest, emit_last; exact Hout].
    f_equal. unfold test_attributes. rewrite El. cbn [app].
    text_eq.
Qed.

(** ** Suites *)

Lemma properties_text r :
  TestPropertiesAsXmlAttributes r = attributes_text (property_attributes r).
Proof.
  unfold TestPropertiesAsXmlAttributes, attributes_text, property_attributes.
  rewrite !flat_map_concat_map, map_map. done.
Qed.

Lemma names_ok_properties reserved al r :
  names_ok al -> Forall (fun n => n ∈ reserved) (map fst al) -> properties_ok reserved r ->
  names_ok (al ++ property_attributes r).
Proof.
  intros [Hn Hd] Hres [Hp Hpd].
  assert (E : map fst (property_attributes r) = map prop_key (test_properties_ r))
    by (unfold property_attributes; by rewrite map_map).
  unfold names_ok. rewrite map_app, E. split.
  - apply Forall_app. split; [done|]. apply Forall_map. eapply Forall_impl; [exact Hp|]. by intros p [? _].
  - apply NoDup_app. split; [done|]. split; [|done]. intros x Hx (p & -> & Hin)%list_elem_of_fmap.
    apply (proj1 (Forall_forall _ _) Hp _ Hin). by apply (proj1 (Forall_forall _ _) Hres).
Qed.

Lemma names_ok_perm al bl : al ≡ₚ bl -> names_ok al -> names_ok bl.
Proof.
  intros HP. pose proof (Permutation_map fst HP) as Hm. unfold names_ok. by rewrite Hm.
Qed.

(** All names of a list are reserved: decided on concrete names. *)
Lemma reserved_check (al : list (text * text)) (reserved : list text) :
  forallb (fun n => bool_decide (n ∈ reserved)) (map fst al) = true ->
  Forall (fun n => n ∈ reserved) (map fst al).
Proof.
  intros H. apply Forall_forall. intros n Hn%list_elem_of_In.
  apply (proj1 (forallb_forall _ _) H) in Hn. by apply bool_decide_eq_true in Hn.
Qed.

Lemma suite_names s :
  properties_ok kReservedTestSuiteAttributes (ad_hoc_test_result_ s) ->
  names_ok (suite_attributes s).
Proof.
  intros Hp. unfold suite_attributes. destruct (bools fl Flag.list_tests).
  - by apply names_ok_check.
  - rewrite !app_assoc. eapply names_ok_properties; [by apply names_ok_check| |exact Hp].
    by apply reserved_check.
Qed.

Lemma tests_in_order_spec s :
  test_indices_ s ≡ₚ map Z.of_nat (seq 0 (length (test_info_list_ s))) ->
  Forall2 (fun i t => deref_test s i = Ok t) (seq 0 (length (test_info_list_ s)))
    (tests_in_order s) /\
  forall t, t ∈ tests_in_order s -> t ∈ test_info_list_ s.
Proof.
  intros HP. set (tests := test_info_list_ s) in *. set (idx := test_indices_ s) in *.
  assert (Hidx : forall z, z ∈ idx -> exists t, tests !! Z.to_nat z = Some t /\ 0 <= z).
  { intros z Hz. rewrite HP in Hz. apply list_elem_of_fmap in Hz as (k & -> & Hk).
    apply elem_of_seq in Hk. rewrite Nat2Z.id. destruct (lookup_lt_is_Some_2 tests k); [lia|].
    eexists. split; [done|lia]. }
  assert (H2 : Forall2 (fun z t => tests !! Z.to_nat z = Some t /\ 0 <= z) idx (tests_in_order s)).
  { unfold tests_in_order. fold tests idx. clear HP. induction idx as [|z l IH]; simpl; [constructor|].
    destruct (Hidx z ltac:(by left)) as (t & Ht & Hz). rewrite Ht. constructor; [done|].
    apply IH. intros z' Hz'. apply Hidx. by right. }
  assert (Hlen : length idx = length tests) by (rewrite HP, length_map, length_seq; done).
  split.
  - apply Forall2_same_length_lookup. split; [by rewrite length_seq, <- Hlen, (Forall2_length _ _ _ H2)|].
    intros i k t Hk Ht. apply lookup_seq in Hk as [-> Hi].
    destruct (Forall2_lookup_r _ _ _ _ _ H2 Ht) as (z & Hz & Hzt & Hz0). cbn [plus].
    unfold deref_test, GetTestInfo, GetElementOr. fold idx tests.
    rewrite (proj2 (Z.ltb_ge (Z.of_nat i) 0)), (proj2 (Z.leb_gt (Z.of_nat (length idx)) _)) by lia.
    cbn [orb]. rewrite Nat2Z.id, Hz. change (default (-1) (Some z)) with z.
    rewrite (proj2 (Z.ltb_ge z 0)), Hzt by lia. done.
  - intros t Ht. apply list_elem_of_lookup in Ht as (i & Ht).
    destruct (Forall2_lookup_r _ _ _ _ _ H2 Ht) as (z & _ & Hzt & _). by eapply list_elem_of_lookup_2.
Qed.

(** The elements of the tests that are reported. *)
Lemma tests_content sn tests :
  Forall (fun t => int_list (test_part_results_ (result_ t))) tests ->
  exists out, emit (map (fun t => if is_reportable t then OutputXmlTestInfo localtime_r fl sn t
                                  else Ok []) tests) = Ok out /\
    content_of out (map (test_node sn) (List.filter is_reportable tests)).
Proof.
  induction 1 as [|t tests Ht _ (out & E & Hc)]; [exists []; split; [done|repeat constructor]|].
  cbn [map List.filter emit foldr].
  fold (emit (map (fun t => if is_reportable t then OutputXmlTestInfo localtime_r fl sn t else Ok []) tests)).
  rewrite E. destruct (is_reportable t) eqn:Er.
  - destruct (test_element sn t) as (e & -> & He); [|done|].
    { unfold is_reportable in Er. apply andb_true_iff in Er as [_ Er]. by apply negb_true_iff in Er. }
    rewrite !bind_ok. eexists. split; [reflexivity|]. cbn [map].
    refine (content_app _ [_] _ _ _ Hc). by eapply (content_line (str "    ") e _ [LF]).
  - rewrite !bind_ok. by exists out.
Qed.

Lemma emit_map_Forall2 {A B C} (f : A -> outcome B) (g : B -> outcome (list C)) is_ ts :
  Forall2 (fun i t => f i = Ok t) is_ ts ->
  emit (map (fun i => f i ≫= g) is_) = emit (map g ts).
Proof.
  induction 1 as [|i t is_ ts E _ IH]; [done|]. cbn [map emit foldr].
  fold (emit (map (fun i => f i ≫= g) is_)). fold (emit (map g ts)). by rewrite IH, E.
Qed.

Lemma suite_element s :
  report_suite_ok s ->
  exists e, PrintXmlTestSuite localtime_r fl s = Ok (str "  " ++ e ++ [LF]) /\
    element_of e (suite_node s).
Proof.
  intros (Hok & HP & Hprops). destruct (tests_in_order_spec s HP) as [Hderef Hin].
  destruct (tests_content (suite_name_ s) (tests_in_order s)) as (out & Hout & Hc).
  { apply Forall_forall. intros t Ht. apply (proj1 (Forall_forall _ _) (proj2 Hok)). auto. }
  rewrite <- (emit_map_Forall2 _ _ _ _ Hderef) in Hout.
  exists (str "<" ++ str "testsuite" ++ attributes_text (suite_attributes s) ++ str ">" ++
          ([LF] ++ out ++ str "  ") ++ str "</" ++ str "testsuite" ++ str ">").
  split; [|apply written_nested; [done|by apply suite_names|]].
  - unfold PrintXmlTestSuite, suite_attributes. destruct Hok as [Hlen Hparts].
    assert (Hrep : reportable_test_count s = Ok (tests_where is_reportable s))
      by (by apply CountIf_length).
    destruct (bools fl Flag.list_tests) eqn:El.
    + erewrite emit_open; [|eapply emit_attributes; [attr|]; eapply emit_attributes;
        [apply count_ok; [reflexivity|exact Hrep]|];
        eapply emit_attributes_nil; [reflexivity|]; apply emit_rest, emit_open;
        eapply emit_nested; [exact Hout|]; apply emit_last; reflexivity].
      f_equal. text_eq.
    + erewrite emit_open; [|eapply emit_attributes; [attr|]; eapply emit_attributes;
        [apply count_ok; [reflexivity|exact Hrep]|];
        eapply emit_attributes;
          [apply emit_all; eapply emit_attributes; [apply count_ok; [reflexivity|by apply CountIf_length]|];
           eapply emit_attributes; [apply count_ok; [reflexivity|by apply CountIf_length]|];
           eapply emit_attributes; [apply count_ok; [reflexivity|by apply skipped_count]|];
           eapply emit_attributes; [attr|]; eapply emit_attributes; [attr|];
           eapply emit_attributes; [attr|];
           eapply emit_attributes; [by rewrite properties_text|]; exact (emit_rest [] [] eq_refl)|];
        apply emit_rest, emit_open; eapply emit_nested; [exact Hout|]; apply emit_last; reflexivity].
      f_equal. text_eq.
  - refine (content_app [LF] [] _ _ _ _); [by constructor; apply report_space_ok|].
    rewrite <- (app_nil_r (map _ _)).
    refine (content_app _ _ _ [] Hc _). by constructor; apply report_space_ok.
Qed.

(** ** The program *)

Lemma suites_in_order u :
  test_suite_indices_ (unit_suites u) ≡ₚ
    map Z.of_nat (seq 0 (length (test_suites_ (unit_suites u)))) ->
  Forall2 (fun i s => deref_suite u i = Ok s) (seq 0 (length (test_suites_ (unit_suites u))))
    (test_suites_ (unit_suites u)).
Proof.
  intros HP. set (suites := test_suites_ (unit_suites u)) in *.
  set (idx := test_suite_indices_ (unit_suites u)) in *.
  assert (Hlen : length idx = length suites) by (rewrite HP, length_map, length_seq; done).
  apply Forall2_same_length_lookup. split; [by rewrite length_seq|].
  intros i k s Hk Hs. apply lookup_seq in Hk as [-> Hi]. cbn [plus].
  unfold deref_suite, GetTestSuite, GetElementOr. fold idx suites.
  rewrite (proj2 (Z.ltb_ge (Z.of_nat i) 0)), (proj2 (Z.leb_gt (Z.of_nat (length idx)) _)) by lia.
  cbn [orb]. rewrite Nat2Z.id. destruct (lookup_lt_is_Some_2 idx i) as [z Hz]; [lia|]. rewrite Hz.
  assert (Hz' : z ∈ idx) by (by eapply list_elem_of_lookup_2).
  rewrite HP in Hz'. apply list_elem_of_fmap in Hz' as (m & -> & _).
  change (default (-1) (Some (Z.of_nat m))) with (Z.of_nat m).
  rewrite (proj2 (Z.ltb_ge (Z.of_nat m) 0)), Hs by lia. done.
Qed.

Definition has_reportable (s : TestSuite) : bool := 0 <? tests_where is_reportable s.

Lemma suites_content suites :
  Forall report_suite_ok suites ->
  exists out, emit (map (fun s => n ← reportable_test_count s;
                                  if 0 <? n then PrintXmlTestSuite localtime_r fl s else Ok [])
                        suites) = Ok out /\
    content_of out (map suite_node (List.filter has_reportable suites)).
Proof.
  induction 1 as [|s suites Hs _ (out & E & Hc)]; [exists []; split; [done|repeat constructor]|].
  cbn [map List.filter emit foldr].
  fold (emit (map (fun s => n ← reportable_test_count s;
                            if 0 <? n then PrintXmlTestSuite localtime_r fl s else Ok []) suites)).
  rewrite E. assert (Hrep : reportable_test_count s = Ok (tests_where is_reportable s))
    by (apply CountIf_length; apply Hs).
  rewrite Hrep, bind_ok. unfold has_reportable at 1. destruct (0 <? tests_where is_reportable s).
  - destruct (suite_element s Hs) as (e & -> & He). rewrite !bind_ok. eexists. split; [reflexivity|].
    cbn [map]. refine (content_app _ [_] _ _ _ Hc).
    by eapply (content_line (str "  ") e _ [LF]).
  - rewrite !bind_ok. by exists out.
Qed.

Lemma program_names u :
  properties_ok kReservedTestSuitesAttributes (unit_ad_hoc u) -> names_ok (program_attributes u).
Proof.
  intros Hp. unfold program_attributes.
  match goal with |- names_ok (?a ++ ?b ++ ?p ++ ?c) =>
    apply (names_ok_perm ((a ++ b ++ c) ++ p)); [by rewrite <- !app_assoc, (Permutation_app_comm c p)|];
    eapply names_ok_properties; [| |exact Hp] end.
  - apply names_ok_check. by destruct (bools fl Flag.shuffle).
  - apply reserved_check. by destruct (bools fl Flag.shuffle).
Qed.

Lemma ad_hoc_element r :
  int_list (test_part_results_ r) ->
  exists e, OutputXmlTestSuiteForTestResult localtime_r r = Ok (str "  " ++ e ++ [LF]) /\
    element_of e (ad_hoc_node r).
Proof.
  intros Hint. unfold ad_hoc_node.
  set (al := [(str "name", str "NonTestSuiteFailure"); (str "tests", str "1"); (str "failures", str "1");
        (str "disabled", str "0"); (str "skipped", str "0"); (str "errors", str "0");
        (str "time", FormatTimeInMillisAsSeconds (elapsed_time_ r));
        (str "timestamp", stamp (start_timestamp_ r))]).
  set (bl := [(str "name", []); (str "status", str "run"); (str "result", str "completed");
           (str "classname", []);
           (str "time", FormatTimeInMillisAsSeconds (elapsed_time_ r));
           (str "timestamp", stamp (start_timestamp_ r))] : list (text * text)).
  destruct (result_element bl r Hint) as (out & e & Hout & He & Ee); [by apply names_ok_check|].
  exists (str "<" ++ str "testsuite" ++ attributes_text al ++ str ">" ++
          (str "    " ++ e ++ [LF] ++ str "  ") ++ str "</" ++ str "testsuite" ++ str ">").
  split; [|apply written_nested; [done|by apply names_ok_check|]].
  - unfold OutputXmlTestSuiteForTestResult.
    erewrite emit_open; [|do 8 (eapply emit_attributes; [attr|]); apply emit_rest, emit_open, emit_open;
      do 6 (eapply emit_attributes; [attr|]); apply emit_rest].
    2: { cbn [emit foldr]. rewrite Hout, !bind_ok. reflexivity. }
    f_equal. transitivity (str "  <testsuite" ++ attributes_text al ++ str ">" ++
      (str "    <testcase" ++ attributes_text bl ++ out) ++ str "  </testsuite>" ++ [LF]).
    + unfold al, bl. text_eq.
    + rewrite Ee. text_eq.
  - eapply (content_line (str "    ") e _ ([LF] ++ str "  ")); done.
Qed.

Lemma count_program u p method :
  report_ok u ->
  (forall s, report_suite_ok s -> method s = Ok (tests_where p s)) ->
  SumOverTestSuiteList (test_suites_ (unit_suites u)) method =
  Ok (zsum (tests_where p) (test_suites_ (unit_suites u))).
Proof.
  intros (Hs & Ht & _) Hm. apply program_count; [|exact Ht].
  intros s Hin. apply Hm. by apply (proj1 (Forall_forall _ _) Hs).
Qed.

Lemma program_element u :
  report_ok u ->
  exists e, PrintXmlUnitTest localtime_r fl u = Ok (xml_declaration ++ e ++ [LF]) /\
    element_of e (report_tree u).
Proof.
  intros Hu. pose proof Hu as (Hs & Ht & HP & Hprops & Hint).
  destruct (suites_content _ Hs) as (out & Hout & Hc).
  rewrite <- (emit_map_Forall2 _ _ _ _ (suites_in_order u HP)) in Hout.
  assert (Had : exists out', (if Failed (unit_ad_hoc u)
      then OutputXmlTestSuiteForTestResult localtime_r (unit_ad_hoc u) else Ok []) = Ok out' /\
      content_of out' (if Failed (unit_ad_hoc u) then [ad_hoc_node (unit_ad_hoc u)] else [])).
  { destruct (Failed (unit_ad_hoc u)); [|exists []; split; [done|repeat constructor]].
    destruct (ad_hoc_element (unit_ad_hoc u) Hint) as (e & -> & He). eexists. split; [reflexivity|].
    by eapply (content_line (str "  ") e _ [LF]). }
  destruct Had as (out' & Hout' & Hc').
  exists (str "<" ++ str "testsuites" ++ attributes_text (program_attributes u) ++ str ">" ++
          ([LF] ++ out ++ out') ++ str "</" ++ str "testsuites" ++ str ">").
  split; [|apply written_nested; [done|by apply program_names|]].
  - unfold PrintXmlUnitTest.
    assert (H1 : UnitTestImpl.reportable_test_count (test_suites_ (unit_suites u)) =
      Ok (zsum (tests_where is_reportable) (test_suites_ (unit_suites u))))
      by (apply count_program; [exact Hu|]; intros s Hok; apply CountIf_length, Hok).
    assert (H2 : UnitTestImpl.failed_test_count (test_suites_ (unit_suites u)) =
      Ok (zsum (tests_where TestFailed) (test_suites_ (unit_suites u))))
      by (apply count_program; [exact Hu|]; intros s Hok; apply CountIf_length, Hok).
    assert (H3 : UnitTestImpl.reportable_disabled_test_count (test_suites_ (unit_suites u)) =
      Ok (zsum (tests_where TestReportableDisabled) (test_suites_ (unit_suites u))))
      by (apply count_program; [exact Hu|]; intros s Hok; apply CountIf_length, Hok).
    erewrite emit_open; [|eapply emit_attributes; [apply count_ok; [reflexivity|exact H1]|];
       eapply emit_attributes; [apply count_ok; [reflexivity|exact H2]|];
       eapply emit_attributes; [apply count_ok; [reflexivity|exact H3]|];
       eapply emit_attributes; [attr|]; eapply emit_attributes; [attr|];
       eapply emit_attributes; [attr|];
       eapply (emit_attributes _ _ (if bools fl Flag.shuffle
                 then [(str "random_seed", dec (random_seed_ u))] else []));
         [by destruct (bools fl Flag.shuffle); [apply attribute_ok|]|];
       eapply emit_attributes; [by rewrite properties_text|]; eapply emit_attributes; [attr|];
       apply emit_rest, emit_open; eapply emit_nested; [exact Hout|]].
    2: { cbn [emit foldr]. rewrite Hout', !bind_ok. reflexivity. }
    f_equal. unfold program_attributes. text_eq.
  - refine (content_app [LF] [] _ _ _ _); [by constructor; apply report_space_ok|].
    by apply content_app.
Qed.
End tree.

(** ** The bytes of the report *)

(** All texts the user gives are Unicode. *)
Definition part_textual (p : TestPartResult) : Prop :=
  textual (default kUnknownFile (part_file_name p)) /\ textual (summary_ p) /\ textual (message_ p).
Definition result_textual (r : TestResult) : Prop :=
  Forall part_textual (test_part_results_ r) /\
  Forall (fun p => textual (prop_key p) /\ textual (prop_value p)) (test_properties_ r).
Definition optional_textual (v : option text) : Prop := match v with None => True | Some v => textual v end.
Definition test_textual (t : TestInfo) : Prop :=
  textual (test_name_ t) /\ optional_textual (value_param_ t) /\ optional_textual (type_param_ t) /\
  textual (loc_file (location_ t)) /\ result_textual (result_ t).
Definition suite_textual (s : TestSuite) : Prop :=
  textual (suite_name_ s) /\ Forall test_textual (test_info_list_ s) /\ result_textual (ad_hoc_test_result_ s).
Definition unit_textual (u : UnitTest) : Prop :=
  Forall suite_textual (test_suites_ (unit_suites u)) /\ result_textual (unit_ad_hoc u).

(** What a computation writes, if it ends, are characters of XML. *)
Definition writes_chars (m : outcome text) : Prop := forall s, m = Ok s -> xml_chars s.

Lemma xml_writes_ok s : xml_chars s -> writes_chars (Ok s).
Proof. by intros H ? [= <-]. Qed.
Lemma xml_writes_bind {A} (m : outcome A) k : (forall x, m = Ok x -> writes_chars (k x)) -> writes_chars (m ≫= k).
Proof. intros H. destruct m as [x|]; [|done]. by apply H. Qed.
Lemma writes_emit ms : Forall writes_chars ms -> writes_chars (emit ms).
Proof.
  induction 1 as [|m ms Hm _ IH]; [apply xml_writes_ok, encoded_nil|]. cbn [emit foldr]. fold (emit ms).
  apply xml_writes_bind. intros x Hx. apply xml_writes_bind. intros y Hy. apply xml_writes_ok, encoded_app; [by apply Hm|by apply IH].
Qed.
Lemma writes_emit_map {A} (f : A -> outcome text) l :
  (forall x, x ∈ l -> writes_chars (f x)) -> writes_chars (emit (map f l)).
Proof. intros H. apply writes_emit, Forall_map, Forall_forall. exact H. Qed.

Lemma literal_chars s : xml_ascii (str s) = true -> xml_chars (str s).
Proof. apply xml_ascii_chars. Qed.
Lemma quoted_value_chars v : textual v -> xml_chars (quoted_value v).
Proof.
  intros H. apply (encoded_app _ [QUOTE]); [by apply xml_ascii_chars|].
  apply encoded_app; [by apply EscapeXmlAttribute_chars|by apply xml_ascii_chars].
Qed.

Lemma writes_attribute element name v :
  xml_ascii (str name) = true -> textual v -> writes_chars (attribute element name v).
Proof.
  intros Hn Hv. unfold attribute, OutputXmlAttribute. apply xml_writes_bind. intros names _.
  apply xml_writes_bind. intros _ _. apply xml_writes_ok.
  repeat apply encoded_app; try (by apply xml_ascii_chars). by apply quoted_value_chars.
Qed.
Lemma writes_count element name n : xml_ascii (str name) = true -> writes_chars (count_attribute element name n).
Proof.
  intros Hn. apply xml_writes_bind. intros z _. apply writes_attribute; [done|apply printable_textual, dec_printable].
Qed.
Lemma writes_time element ms : writes_chars (time_attribute element ms).
Proof. apply writes_attribute; [done|apply printable_textual, seconds_printable]. Qed.
Lemma writes_timestamp localtime_r element ms : writes_chars (timestamp_attribute localtime_r element ms).
Proof.
  apply xml_writes_bind. intros t Ht. apply writes_attribute; [done|].
  by eapply printable_textual, date_printable.
Qed.
Lemma writes_optional element name v :
  xml_ascii (str name) = true -> optional_textual v -> writes_chars (optional_attribute element name v).
Proof. intros Hn Hv. destruct v; [by apply writes_attribute|apply xml_writes_ok, encoded_nil]. Qed.

(** Writes of literals and attributes, one after the other. *)
Ltac writes :=
  repeat first
    [ apply writes_count; reflexivity | apply writes_time | apply writes_timestamp
    | apply writes_optional; [reflexivity|done]
    | apply writes_attribute; [reflexivity|
        first [done | apply printable_textual; first [reflexivity | apply dec_printable]]]
    | apply xml_writes_ok; first [by apply xml_ascii_chars | apply encoded_nil] ].

Section bytes.
Variable localtime_r : Z -> option tm.
Variable fl : Flags.

Lemma location_textual p : part_textual p -> textual (xml_location p).
Proof.
  intros [H _]. unfold xml_location, FormatCompilerIndependentFileLocation.
  destruct (line_number_ p <? 0); [done|]. apply encoded_app; [done|].
  apply printable_textual. by rewrite printable_app, dec_printable.
Qed.
Lemma located_textual p t : part_textual p -> textual t -> textual (xml_location p ++ LF :: t).
Proof.
  intros Hp Ht. apply encoded_app; [by apply location_textual|]. apply (encoded_app _ [LF]); [|done].
  exists [10]. split; [|reflexivity]. constructor; [|done]. unfold shown_code_point, scalar. lia.
Qed.
Lemma writes_detail p :
  part_textual p -> writes_chars (OutputXmlCDataSection (c_str (RemoveInvalidXmlCharacters (xml_detail p)))).
Proof.
  intros Hp s E. eapply OutputXmlCDataSection_chars; [exact E|]. rewrite RemoveInvalid_c_str.
  apply RemoveInvalid_chars, located_textual; [done|apply Hp].
Qed.

Lemma writes_failure p : part_textual p -> writes_chars (xml_failure p).
Proof.
  intros Hp. apply writes_emit. repeat constructor; writes; [|by apply writes_detail].
  apply xml_writes_ok. repeat apply encoded_app; try (by apply literal_chars); apply quoted_value_chars.
  - apply located_textual; [done|apply Hp].
  - apply encoded_nil.
Qed.
Lemma writes_skipped p : part_textual p -> writes_chars (xml_skipped p).
Proof.
  intros Hp. apply writes_emit. repeat constructor; writes; [|by apply writes_detail].
  apply xml_writes_ok. repeat apply encoded_app; try (by apply literal_chars). apply quoted_value_chars.
  apply textual_c_str, located_textual; [done|apply Hp].
Qed.

Lemma parts_chars parts f s out f' s' :
  Forall part_textual parts -> xml_parts parts f s = Ok (out, f', s') -> xml_chars out.
Proof.
  intros H. revert f s out f' s'. induction H as [|p parts Hp _ IH]; intros f s out f' s'; cbn [xml_parts].
  { intros [= <- _ _]. apply encoded_nil. }
  assert (Hopen : forall b : bool, xml_chars (if b then str ">" ++ [LF] else [])).
  { intros []; [by apply xml_ascii_chars|apply encoded_nil]. }
  destruct (failed p); [|destruct (skipped p); [|apply IH]].
  - destruct (iadd f 1) as [f1|]; [|done]. rewrite bind_ok.
    destruct (xml_failure p) as [e|] eqn:Ee; [|done]. rewrite bind_ok.
    destruct (xml_parts parts f1 s) as [[[rest f2] s2]|] eqn:Er; [|done]. rewrite bind_ok. intros [= <- _ _].
    apply encoded_app; [apply Hopen|]. apply encoded_app; [by eapply writes_failure|by eapply IH].
  - destruct (iadd s 1) as [s1|]; [|done]. rewrite bind_ok.
    destruct (xml_skipped p) as [e|] eqn:Ee; [|done]. rewrite bind_ok.
    destruct (xml_parts parts f s1) as [[[rest f2] s2]|] eqn:Er; [|done]. rewrite bind_ok. intros [= <- _ _].
    apply encoded_app; [apply Hopen|]. apply encoded_app; [by eapply writes_skipped|by eapply IH].
Qed.

Lemma test_properties_chars r : result_textual r -> xml_chars (OutputXmlTestProperties r).
Proof.
  intros [_ H]. unfold OutputXmlTestProperties. destruct (_ <=? 0); [apply encoded_nil|].
  apply encoded_app; [by apply literal_chars|]. apply encoded_app; [by apply xml_ascii_chars|].
  apply encoded_app; [|by apply xml_ascii_chars]. rewrite flat_map_concat_map.
  apply encoded_concat, Forall_map. eapply Forall_impl; [exact H|]. intros p [Hk Hv].
  repeat apply encoded_app; try (by apply xml_ascii_chars); by apply quoted_value_chars.
Qed.

Lemma writes_result r : result_textual r -> writes_chars (OutputXmlTestResult r).
Proof.
  intros H. unfold OutputXmlTestResult. destruct (xml_parts _ 0 0) as [[[body f] s]|] eqn:E; [|done].
  rewrite bind_ok. apply xml_writes_ok. apply encoded_app; [by eapply parts_chars; [apply H|]|].
  destruct (_ && _); [by apply xml_ascii_chars|].
  apply encoded_app; [destruct (_ && _); [by apply xml_ascii_chars|apply encoded_nil]|].
  apply encoded_app; [by apply test_properties_chars|by apply xml_ascii_chars].
Qed.

Lemma property_attributes_chars reserved r :
  properties_ok reserved r -> result_textual r -> xml_chars (TestPropertiesAsXmlAttributes r).
Proof.
  intros [Hk _] [_ Ht]. unfold TestPropertiesAsXmlAttributes. rewrite flat_map_concat_map.
  apply encoded_concat, Forall_map, Forall_forall. intros p Hp.
  apply (proj1 (Forall_forall _ _) Hk) in Hp as Hname. apply (proj1 (Forall_forall _ _) Ht) in Hp as [_ Hv].
  destruct Hname as [Hname _].
  assert (Hkey : xml_ascii (prop_key p) = true).
  { assert (Hchar : forall c, (negb (xml_name_char c) || (IsValidXmlCharacter c && (code c <? 128))) = true)
      by (apply every_char; vm_compute; reflexivity).
    unfold xml_name in Hname. destruct (prop_key p) as [|c n]; [done|].
    apply andb_true_iff in Hname as [Hc Hn]. apply forallb_forall. intros d [<-|Hd].
    - specialize (Hchar c). unfold xml_name_char in Hchar. by rewrite Hc in Hchar.
    - specialize (Hchar d). by rewrite (proj1 (forallb_forall _ _) Hn _ Hd) in Hchar. }
  repeat apply encoded_app; try (by apply xml_ascii_chars). by apply quoted_value_chars.
Qed.

Lemma writes_test sn t : textual sn -> test_textual t -> writes_chars (OutputXmlTestInfo localtime_r fl sn t).
Proof.
  intros Hsn (Hn & Hv & Ht & Hf & Hr). unfold OutputXmlTestInfo.
  destruct (is_in_another_shard_ t); [apply xml_writes_ok, encoded_nil|].
  apply writes_emit. repeat constructor; writes.
  destruct (bools fl Flag.list_tests); [by writes|]. apply writes_emit. repeat constructor; writes.
  - destruct (should_run_ t); writes.
  - apply xml_writes_bind. intros x Hx. apply writes_attribute; [reflexivity|]. apply printable_textual.
    unfold result_status in Hx. destruct (should_run_ t); [|by injection Hx as <-].
    destruct (Skipped _) as [[]|]; [| |done]; by injection Hx as <-.
  - by apply writes_result.
Qed.

Lemma deref_test_in s i t : deref_test s i = Ok t -> t ∈ test_info_list_ s.
Proof.
  unfold deref_test, GetTestInfo. destruct (_ <? 0); [done|].
  destruct (test_info_list_ s !! _) as [t'|] eqn:E; [|done]. cbn. intros [= <-].
  by eapply list_elem_of_lookup_2.
Qed.
Lemma deref_suite_in u i s : deref_suite u i = Ok s -> s ∈ test_suites_ (unit_suites u).
Proof.
  unfold deref_suite, GetTestSuite. destruct (_ <? 0); [done|].
  destruct (test_suites_ (unit_suites u) !! _) as [s'|] eqn:E; [|done]. cbn. intros [= <-].
  by eapply list_elem_of_lookup_2.
Qed.

Lemma writes_suite s :
  report_suite_ok s -> suite_textual s -> writes_chars (PrintXmlTestSuite localtime_r fl s).
Proof.
  intros (_ & _ & Hprops) (Hn & Ht & Hr). apply writes_emit. repeat constructor; writes.
  - destruct (bools fl Flag.list_tests); [by writes|]. apply writes_emit. repeat constructor; writes.
    apply xml_writes_ok. by eapply property_attributes_chars.
  - apply writes_emit_map. intros i _. apply xml_writes_bind. intros t Hti.
    apply deref_test_in, (proj1 (Forall_forall _ _) Ht) in Hti.
    destruct (is_reportable t); [by apply writes_test|by writes].
Qed.

Lemma writes_ad_hoc r : result_textual r -> writes_chars (OutputXmlTestSuiteForTestResult localtime_r r).
Proof.
  intros H. apply writes_emit. repeat constructor; writes; [..|by apply writes_result];
    apply writes_attribute; try reflexivity; apply encoded_nil.
Qed.

Lemma report_chars u :
  report_ok u -> unit_textual u -> writes_chars (PrintXmlUnitTest localtime_r fl u).
Proof.
  intros (Hs & _ & _ & Hprops & _) [Ht Hr]. apply writes_emit. repeat constructor; writes.
  - destruct (bools fl Flag.shuffle); writes.
  - apply xml_writes_ok. by eapply property_attributes_chars.
  - apply writes_emit_map. intros i _. apply xml_writes_bind. intros s Hsi.
    apply deref_suite_in in Hsi. pose proof (proj1 (Forall_forall _ _) Hs _ Hsi).
    pose proof (proj1 (Forall_forall _ _) Ht _ Hsi). apply xml_writes_bind. intros n _.
    destruct (0 <? n); [by apply writes_suite|by writes].
  - destruct (Failed (unit_ad_hoc u)); [by apply writes_ad_hoc|by writes].
Qed.
End bytes.

(** C26. The XML report: for every state of the unit test whose counts fit an
    [int], whose dates [localtime_r] can represent and whose properties of suites
    and of the program have names that XML allows and the report does not use
    itself, [PrintXmlUnitTest] fails no check and writes a document that has the
    structure of XML and denotes [report_tree]: names, counts, times and every
    failure and skip with its location and message, whatever characters they contain
    (those that XML forbids are left out), whether the tests are listed or have run;
    the properties of a test are elements below it.  If all texts are Unicode (in
    UTF-8, without U+FFFE and U+FFFF), the document is well-formed: its bytes are the
    UTF-8 encoding of characters that XML allows, as its declaration says. *)
Theorem xml_report_well_formed localtime_r fl u :
  dates_ok localtime_r -> report_ok u ->
  exists doc, PrintXmlUnitTest localtime_r fl u = Ok doc /\
    document_of doc (report_tree localtime_r fl u) /\
    (unit_textual u -> xml_chars doc).
Proof.
  intros Hd Hu. destruct (program_element localtime_r fl Hd u Hu) as (e & E & He).
  exists (xml_declaration ++ e ++ [LF]). split; [exact E|]. split.
  - exists e, [LF]. split; [exact He|]. split; [|done]. by apply report_space_ok.
  - intros Ht. by eapply report_chars.
Qed.

(** A test that failed with a message full of markup. *)
Definition markup_test : TestInfo :=
  mkTestInfo (str "Book") (str "Cross") None (Some (str "<1, 2>"))
    (mkCodeLocation (str "book_test.cc") 7) 0 true false true false 0
    (mkTestResult [new_TestPartResult kFatalFailure (Some (str "a.cc")) 3 (str "x < y && z]]>" ++ [QUOTE; NUL])]
       [mkTestProperty (str "key") (str "a'b")] 0 0 12).
Definition markup_unit : UnitTest :=
  mkUnitTest
    (mkSuites [mkTestSuite (str "Book") None [markup_test] [0] None None true new_TestResult 0 12]
       [0] (-1))
    [] (AddTestPartResult new_TestResult (new_TestPartResult kNonFatalFailure None (-1) (str "late")))
    FilePath.FilePath_empty 0 0 0 34.

Lemma xml_report_well_formed_witness :
  exists doc, PrintXmlUnitTest (fun _ => Some (mk_tm 124 0 2 3 4 5)) no_state.(flags) markup_unit = Ok doc /\
    document_of doc (report_tree (fun _ => Some (mk_tm 124 0 2 3 4 5)) no_state.(flags) markup_unit) /\
    xml_chars doc.
Proof.
  destruct (xml_report_well_formed (fun _ => Some (mk_tm 124 0 2 3 4 5)) no_state.(flags) markup_unit)
    as (doc & E & Hdoc & Hchars).
  - intros s t [= <-]. split; reflexivity.
  - split_and!; [|vm_compute; congruence|reflexivity|split; [constructor|constructor]|
      vm_compute; congruence].
    apply Forall_singleton. split_and!; [|reflexivity|split; constructor].
    split; [vm_compute; congruence|]. apply Forall_singleton. vm_compute. congruence.
  - exists doc. split; [exact E|]. split; [exact Hdoc|]. apply Hchars.
    assert (Hmsg : textual (str "x < y && z]]>" ++ [QUOTE; NUL])).
    { apply (encoded_app _ (str "x < y && z]]>" ++ [QUOTE])); [by apply printable_textual|].
      exists [0]. split; [|reflexivity]. constructor; [|constructor]. unfold shown_code_point, scalar. lia. }
    assert (Hpart : part_textual (new_TestPartResult kFatalFailure (Some (str "a.cc")) 3
                                    (str "x < y && z]]>" ++ [QUOTE; NUL]))).
    { split; [by apply printable_textual|]. split; [|exact Hmsg]. exact Hmsg. }
    split; [|split; [|constructor]].
    + apply Forall_singleton. split; [by apply printable_textual|]. split; [|split; constructor].
      apply Forall_singleton. split; [by apply printable_textual|].
      split; [by apply printable_textual|]. split; [exact I|]. split; [by apply printable_textual|].
      split; [by apply Forall_singleton|]. apply Forall_singleton. split; by apply printable_textual.
    + apply Forall_singleton. split; [by apply printable_textual|]. split; by apply printable_textual.
Defined.

(** A message that is not UTF-8 is written as it is: the document is no UTF-8. *)
Theorem xml_not_utf8 :
  let r := AddTestPartResult new_TestResult
             (new_TestPartResult kNonFatalFailure None (-1) (str "caf" ++ ["233"%char])) in
  let u := mkUnitTest (mkSuites [] [] (-1)) [] r FilePath.FilePath_empty 0 0 0 0 in
  match PrintXmlUnitTest (fun _ => None) no_state.(flags) u with
  | Ok doc => IsValidUTF8 doc = false
  | Err _ => False
  end.
Proof. vm_compute. reflexivity. Qed.
