(* ===== verification/JsonReport.v ===== *)
(** * The JSON report (gtest.cc, JsonUnitTestResultPrinter)

    The text of the report, write by write, as for XmlReport.v.  A [char] is
    signed: [EscapeJson] takes every byte from 0x80 on for a control character. *)

From S2P Require Import Prelude Outcome Common CStr TestResult TestSelect UnitTest ReportFormat CommandLine XmlReport.

Definition BACKSLASH : ascii := "092".

(** One character of [EscapeJson]. *)
Definition escape_json_char (ch : ascii) : text :=
  if bool_decide (ch = BACKSLASH) || bool_decide (ch = QUOTE) || bool_decide (ch = "/"%char)
  then [BACKSLASH; ch]
  else if code ch =? 8 then [BACKSLASH; "b"%char]
  else if bool_decide (ch = TAB) then [BACKSLASH; "t"%char]
  else if bool_decide (ch = LF) then [BACKSLASH; "n"%char]
  else if code ch =? 12 then [BACKSLASH; "f"%char]
  else if bool_decide (ch = CR) then [BACKSLASH; "r"%char]
  else if scode ch <? 32 then BACKSLASH :: str "u00" ++ Gtest_String.FormatByte (code ch)
  else [ch].
Definition EscapeJson (s : text) : text := flat_map escape_json_char s.

Definition Indent (width : nat) : text := replicate width " "%char.
Definition COMMA_LF : text := str "," ++ [LF].

(** A name or a text in quotes. *)
Definition in_quotes (s : text) : text := QUOTE :: s ++ [QUOTE].

(** The two overloads of [OutputJsonKey]. *)
Definition OutputJsonKey (element_name name value indent : text) (comma : bool) : outcome text :=
  allowed_names ← GetReservedOutputAttributesForElement element_name;
  _ ← c_assert (bool_decide (name ∈ allowed_names));
  Ok (indent ++ in_quotes name ++ str ": " ++ in_quotes (EscapeJson value) ++
      if comma then COMMA_LF else []).
Definition OutputJsonKey_int (element_name name : text) (value : Z) (indent : text) (comma : bool)
    : outcome text :=
  allowed_names ← GetReservedOutputAttributesForElement element_name;
  _ ← c_assert (bool_decide (name ∈ allowed_names));
  Ok (indent ++ in_quotes name ++ str ": " ++ dec value ++ if comma then COMMA_LF else []).

Definition TestPropertiesAsJson (result : TestResult) (indent : text) : text :=
  flat_map (fun p => COMMA_LF ++ indent ++ in_quotes (prop_key p) ++ str ": " ++
                     in_quotes (EscapeJson (prop_value p)))
    (test_properties_ result).

(** ** The parts of a result *)

Definition json_message (part : TestPartResult) : text :=
  EscapeJson (xml_location part ++ LF :: message_ part).
Definition json_failure (part : TestPartResult) : text :=
  Indent 10 ++ str "  {" ++ [LF] ++
  Indent 10 ++ str "    " ++ in_quotes (str "failure") ++ str ": " ++
    in_quotes (json_message part) ++ COMMA_LF ++
  Indent 10 ++ str "    " ++ in_quotes (str "type") ++ str ": " ++ in_quotes [] ++ [LF] ++
  Indent 10 ++ str "  }".
Definition json_skipped (part : TestPartResult) : text :=
  Indent 10 ++ str "  {" ++ [LF] ++
  Indent 10 ++ str "    " ++ in_quotes (str "message") ++ str ": " ++
    in_quotes (json_message part) ++ [LF] ++
  Indent 10 ++ str "  }".

(** One of the two loops: [n] parts of the kind have been written. *)
Fixpoint json_parts (kind : text) (wanted : TestPartResult -> bool)
    (element : TestPartResult -> text) (parts : list TestPartResult) (n : Z)
    : outcome (text * Z) :=
  match parts with
  | [] => Ok ([], n)
  | part :: parts =>
      if wanted part then
        n ← iadd n 1;
        '(rest, m) ← json_parts kind wanted element parts n;
        Ok (COMMA_LF ++
            (if n =? 1 then Indent 10 ++ in_quotes kind ++ str ": [" ++ [LF] else []) ++
            element part ++ rest, m)
      else json_parts kind wanted element parts n
  end.
Definition json_kind (kind : text) (wanted : TestPartResult -> bool)
    (element : TestPartResult -> text) (result : TestResult) : outcome text :=
  '(body, n) ← json_parts kind wanted element (test_part_results_ result) 0;
  Ok (body ++ if 0 <? n then [LF] ++ Indent 10 ++ str "]" else []).

Definition OutputJsonTestResult (result : TestResult) : outcome text :=
  emit [json_kind (str "failures") failed json_failure result;
        json_kind (str "skipped") skipped json_skipped result;
        Ok ([LF] ++ Indent 8 ++ str "}")].

(** ** Tests, suites, the program *)

Section report.
Variable localtime_r : Z -> option tm.
Variable fl : Flags.

Definition key (element name : String.string) (value indent : text) (comma : bool) : outcome text :=
  OutputJsonKey (str element) (str name) value indent comma.
Definition key_int (element name : String.string) (value : outcome Z) (indent : text) (comma : bool)
    : outcome text :=
  n ← value; OutputJsonKey_int (str element) (str name) n indent comma.
Definition key_stamp (element : String.string) (ms : Z) (indent : text) : outcome text :=
  t ← FormatEpochTimeInMillisAsRFC3339 localtime_r ms;
  key element "timestamp" t indent true.
Definition key_time (element : String.string) (ms : Z) (indent : text) (comma : bool) : outcome text :=
  key element "time" (FormatTimeInMillisAsDuration ms) indent comma.
Definition key_optional (element name : String.string) (value : option text) (indent : text)
    : outcome text :=
  match value with None => Ok [] | Some v => key element name v indent true end.

Definition OutputJsonTestSuiteForTestResult (result : TestResult) : outcome text :=
  emit [Ok (Indent 4 ++ str "{" ++ [LF]);
        key "testsuite" "name" (str "NonTestSuiteFailure") (Indent 6) true;
        key_int "testsuite" "tests" (Ok 1) (Indent 6) true;
        (if bools fl Flag.list_tests then Ok []
         else emit [key_int "testsuite" "failures" (Ok 1) (Indent 6) true;
                    key_int "testsuite" "disabled" (Ok 0) (Indent 6) true;
                    key_int "testsuite" "skipped" (Ok 0) (Indent 6) true;
                    key_int "testsuite" "errors" (Ok 0) (Indent 6) true;
                    key_time "testsuite" (elapsed_time_ result) (Indent 6) true;
                    key_stamp "testsuite" (start_timestamp_ result) (Indent 6)]);
        Ok (Indent 6 ++ in_quotes (str "testsuite") ++ str ": [" ++ [LF]);
        Ok (Indent 8 ++ str "{" ++ [LF]);
        key "testcase" "name" [] (Indent 10) true;
        key "testcase" "status" (str "RUN") (Indent 10) true;
        key "testcase" "result" (str "COMPLETED") (Indent 10) true;
        key_stamp "testcase" (start_timestamp_ result) (Indent 10);
        key_time "testcase" (elapsed_time_ result) (Indent 10) true;
        key "testcase" "classname" [] (Indent 10) false;
        Ok (TestPropertiesAsJson result (Indent 10));
        OutputJsonTestResult result;
        Ok ([LF] ++ Indent 6 ++ str "]" ++ [LF] ++ Indent 4 ++ str "}")].

Definition json_status (t : TestInfo) : outcome text :=
  if should_run_ t then
    s ← Skipped (result_ t); Ok (if s : bool then str "SKIPPED" else str "COMPLETED")
  else Ok (str "SUPPRESSED").

Definition OutputJsonTestInfo (test_suite_name : text) (t : TestInfo) : outcome text :=
  let kIndent := Indent 10 in
  emit [Ok (Indent 8 ++ str "{" ++ [LF]);
        key "testcase" "name" (test_name_ t) kIndent true;
        key_optional "testcase" "value_param" (value_param_ t) kIndent;
        key_optional "testcase" "type_param" (type_param_ t) kIndent;
        key "testcase" "file" (loc_file (location_ t)) kIndent true;
        key_int "testcase" "line" (Ok (loc_line (location_ t))) kIndent false;
        if bools fl Flag.list_tests then Ok ([LF] ++ Indent 8 ++ str "}")
        else
          emit [Ok COMMA_LF;
                key "testcase" "status" (if should_run_ t then str "RUN" else str "NOTRUN") kIndent true;
                (r ← json_status t; key "testcase" "result" r kIndent true);
                key_stamp "testcase" (start_timestamp_ (result_ t)) kIndent;
                key_time "testcase" (elapsed_time_ (result_ t)) kIndent true;
                key "testcase" "classname" test_suite_name kIndent false;
                Ok (TestPropertiesAsJson (result_ t) kIndent);
                OutputJsonTestResult (result_ t)]].

(** The loop over the elements of an array that are wanted: [comma] tells
    whether one has been written. *)
Fixpoint json_array {A} (get : nat -> outcome A) (wanted : A -> outcome bool)
    (element : A -> outcome text) (is_ : list nat) (comma : bool) : outcome (text * bool) :=
  match is_ with
  | [] => Ok ([], comma)
  | i :: is_ =>
      x ← get i;
      w ← wanted x;
      if w : bool then
        e ← element x;
        '(rest, c) ← json_array get wanted element is_ true;
        Ok ((if comma then COMMA_LF else []) ++ e ++ rest, c)
      else json_array get wanted element is_ comma
  end.

Definition PrintJsonTestSuite (s : TestSuite) : outcome text :=
  let kIndent := Indent 6 in
  emit [Ok (Indent 4 ++ str "{" ++ [LF]);
        key "testsuite" "name" (suite_name_ s) kIndent true;
        key_int "testsuite" "tests" (reportable_test_count s) kIndent true;
        (if bools fl Flag.list_tests then Ok []
         else emit [key_int "testsuite" "failures" (failed_test_count s) kIndent true;
                    key_int "testsuite" "disabled" (reportable_disabled_test_count s) kIndent true;
                    key_int "testsuite" "errors" (Ok 0) kIndent true;
                    key_stamp "testsuite" (suite_start_timestamp_ s) kIndent;
                    key_time "testsuite" (suite_elapsed_time_ s) kIndent false;
                    Ok (TestPropertiesAsJson (ad_hoc_test_result_ s) kIndent ++ COMMA_LF)]);
        Ok (kIndent ++ in_quotes (str "testsuite") ++ str ": [" ++ [LF]);
        ('(tests, _) ← json_array (deref_test s) (fun t => Ok (is_reportable t))
           (OutputJsonTestInfo (suite_name_ s)) (seq 0 (length (test_info_list_ s))) false;
         Ok tests);
        Ok ([LF] ++ kIndent ++ str "]" ++ [LF] ++ Indent 4 ++ str "}")].

Definition PrintJsonUnitTest (u : UnitTest) : outcome text :=
  let suites := test_suites_ (unit_suites u) in
  let kIndent := Indent 2 in
  emit [Ok (str "{" ++ [LF]);
        key_int "testsuites" "tests" (UnitTestImpl.reportable_test_count suites) kIndent true;
        key_int "testsuites" "failures" (UnitTestImpl.failed_test_count suites) kIndent true;
        key_int "testsuites" "disabled" (UnitTestImpl.reportable_disabled_test_count suites)
          kIndent true;
        key_int "testsuites" "errors" (Ok 0) kIndent true;
        (if bools fl Flag.shuffle
         then key_int "testsuites" "random_seed" (Ok (random_seed_ u)) kIndent true else Ok []);
        key_stamp "testsuites" (unit_start_timestamp_ u) kIndent;
        key_time "testsuites" (unit_elapsed_time_ u) kIndent false;
        Ok (TestPropertiesAsJson (unit_ad_hoc u) kIndent ++ COMMA_LF);
        key "testsuites" "name" (str "AllTests") kIndent true;
        Ok (kIndent ++ in_quotes (str "testsuites") ++ str ": [" ++ [LF]);
        ('(tests, comma) ← json_array (deref_suite u)
           (fun s => n ← reportable_test_count s; Ok (0 <? n))
           PrintJsonTestSuite (seq 0 (length suites)) false;
         more ← (if Failed (unit_ad_hoc u) then
                   e ← OutputJsonTestSuiteForTestResult (unit_ad_hoc u);
                   Ok ((if comma : bool then COMMA_LF else []) ++ e)
                 else Ok []);
         Ok (tests ++ more));
        Ok ([LF] ++ kIndent ++ str "]" ++ [LF] ++ str "}" ++ [LF])].

(** The comma before every suite but the first. *)
Definition PrintJsonTestList (test_suites : list TestSuite) : outcome text :=
  let kIndent := Indent 2 in
  emit [Ok (str "{" ++ [LF]);
        key_int "testsuites" "tests" (sum_tests test_suites) kIndent true;
        key "testsuites" "name" (str "AllTests") kIndent true;
        Ok (kIndent ++ in_quotes (str "testsuites") ++ str ": [" ++ [LF]);
        emit (imap (fun i s => e ← PrintJsonTestSuite s;
                               Ok ((if (i =? 0)%nat then [] else COMMA_LF) ++ e)) test_suites);
        Ok ([LF] ++ kIndent ++ str "]" ++ [LF] ++ str "}" ++ [LF])].

End report.
