(* ===== verification/JsonTheorems.v ===== *)
(** * The JSON report is a JSON text that says what happened

    [json_tree] is the report as a JSON value; [PrintJsonUnitTest] writes a text
    that the grammar below reads as that value. *)

From S2P Require Import Prelude Outcome Common CStr TestResult TestSelect UnitTest ReportFormat CommandLine XmlReport XmlGrammar XmlTheorems.
From S2P Require Import JsonReport.

(** ** JSON texts and what they denote

    The grammar of RFC 8259 as far as the report uses it, as relations between a
    text and a value; strings denote their UTF-8 bytes.  Then how the pieces of
    the report, put together with commas, are read by it. *)

Inductive json : Type :=
  | JString (s : text)
  | JNumber (z : Z)
  | JArray (vs : list json)
  | JObject (ms : list (text * json)).

(** UTF-8 of a code point below 0x800. *)
Definition utf8_short (n : Z) : text :=
  if n <? 128 then [to_char n] else [to_char (192 + n / 64); to_char (128 + n mod 64)].

Definition plain_in_string (c : ascii) : bool :=
  (32 <=? code c) && negb (bool_decide (c = QUOTE)) && negb (bool_decide (c = BACKSLASH)).

(** The escapes of two characters. *)
Definition short_escapes : list (ascii * ascii) :=
  [(BACKSLASH, BACKSLASH); (QUOTE, QUOTE); ("/", "/"); ("b", to_char 8); ("f", to_char 12);
   ("n", LF); ("r", CR); ("t", TAB)]%char.

Inductive string_of : text -> text -> Prop :=
  | string_nil : string_of [] []
  | string_plain c s v : plain_in_string c = true -> string_of s v -> string_of (c :: s) (c :: v)
  | string_short e c s v : (e, c) ∈ short_escapes -> string_of s v ->
      string_of (BACKSLASH :: e :: s) (c :: v)
  | string_unicode n s v : 0 <= n < 2048 -> string_of s v ->
      string_of (BACKSLASH :: str "u" ++ pad_left "0" 4 (digits 16 n) ++ s) (utf8_short n ++ v).

Definition json_space (s : text) : Prop :=
  Forall (fun c => c = " "%char \/ c = TAB \/ c = LF \/ c = CR) s.

Inductive value : text -> json -> Prop :=
  | value_string raw s : string_of raw s -> value (in_quotes raw) (JString s)
  | value_number z : value (dec z) (JNumber z)
  | value_empty sp : json_space sp -> value (str "[" ++ sp ++ str "]") (JArray [])
  | value_array s vs : elements s vs -> value (str "[" ++ s ++ str "]") (JArray vs)
  | value_object s ms : members s ms -> value (str "{" ++ s ++ str "}") (JObject ms)
with elements : text -> list json -> Prop :=
  | elements_one sp s x sp' : json_space sp -> json_space sp' -> value s x ->
      elements (sp ++ s ++ sp') [x]
  | elements_more sp s x sp' t xs : json_space sp -> json_space sp' -> value s x ->
      elements t xs -> elements (sp ++ s ++ sp' ++ str "," ++ t) (x :: xs)
with members : text -> list (text * json) -> Prop :=
  | members_one k sp name s x sp' sp'' : json_space sp -> json_space sp' -> json_space sp'' ->
      string_of k name -> value s x ->
      members (sp ++ in_quotes k ++ str ":" ++ sp' ++ s ++ sp'') [(name, x)]
  | members_more k sp name s x sp' sp'' t ms : json_space sp -> json_space sp' ->
      json_space sp'' -> string_of k name -> value s x -> members t ms ->
      members (sp ++ in_quotes k ++ str ":" ++ sp' ++ s ++ sp'' ++ str "," ++ t) ((name, x) :: ms).

(** ** Strings *)

(** What a byte stands for after [EscapeJson]: the character of that number. *)
Definition json_text (s : text) : text := flat_map (fun c => utf8_short (code c)) s.

Definition escape_json_check (c : ascii) : bool :=
  let e := escape_json_char c in
  (bool_decide (e = [c]) && plain_in_string c && (code c <? 128)) ||
  existsb (fun '(e', c') => bool_decide (e = [BACKSLASH; e']) && bool_decide (c' = c) &&
                            (code c <? 128)) short_escapes ||
  bool_decide (e = BACKSLASH :: str "u" ++ pad_left "0" 4 (digits 16 (code c))).

Lemma escape_json_checked c : escape_json_check c = true.
Proof. revert c. apply every_char. vm_compute. reflexivity. Qed.

Lemma utf8_short_ascii c : code c < 128 -> utf8_short (code c) = [c].
Proof. intros H. unfold utf8_short. by rewrite (proj2 (Z.ltb_lt _ _) H), to_char_code. Qed.

Lemma EscapeJson_string s : string_of (EscapeJson s) (json_text s).
Proof.
  unfold EscapeJson, json_text. induction s as [|c s IH]; [constructor|]. cbn [flat_map].
  pose proof (escape_json_checked c) as H. unfold escape_json_check in H.
  apply orb_true_iff in H as [[H|H]%orb_true_iff|H].
  - apply andb_true_iff in H as [[H%bool_decide_eq_true Hp]%andb_true_iff Hc%Z.ltb_lt].
    rewrite H, utf8_short_ascii by done. by apply string_plain.
  - apply existsb_exists in H as ([e c'] & Hin%list_elem_of_In & H).
    apply andb_true_iff in H as [[H%bool_decide_eq_true ->%bool_decide_eq_true]%andb_true_iff Hc%Z.ltb_lt].
    rewrite H, utf8_short_ascii by done. by apply string_short.
  - apply bool_decide_eq_true in H. rewrite H.
    rewrite <- app_comm_cons, <- app_assoc. apply string_unicode; [|done].
    pose proof (code_range c). lia.
Qed.

(** The number that the four digits of an escape stand for. *)
Definition hex_number (s : text) : Z :=
  foldl (fun n c => 16 * n + if code c <? 58 then code c - 48 else (code c - 7) mod 16) 0 s.

Lemma escape_digits n :
  0 <= n < 2048 ->
  length (pad_left "0" 4 (digits 16 n)) = 4%nat /\ hex_number (pad_left "0" 4 (digits 16 n)) = n.
Proof.
  intros Hn. assert (H : forallb (fun k => let s := pad_left "0" 4 (digits 16 (Z.of_nat k)) in
      (length s =? 4)%nat && (hex_number s =? Z.of_nat k)) (seq 0 2048) = true)
    by (vm_compute; reflexivity).
  apply (proj1 (forallb_forall _ _)) with (x := Z.to_nat n) in H; [|apply in_seq; lia].
  rewrite Z2Nat.id in H by lia. cbv zeta in H.
  apply andb_true_iff in H as [H1%Nat.eqb_eq H2%Z.eqb_eq]. done.
Qed.

(** A string denotes one text. *)
Lemma string_of_unique s v w : string_of s v -> string_of s w -> v = w.
Proof.
  intros H. revert w. induction H as [|c s v Hc _ IH|e c s v He _ IH|n s v Hn _ IH]; intros w H;
    inversion H as [|? ? v' Hc' H'|? ? ? v' He' H'|n' s' v' Hn' H']; subst; try done;
    try match goal with
        | C : plain_in_string BACKSLASH = true |- _ => by vm_compute in C
        | C : ("u"%char, _) ∈ short_escapes |- _ =>
            unfold short_escapes in C; set_unfold; destruct_or?; simplify_eq
        end.
  - f_equal. auto.
  - f_equal; [|by auto]. clear -He He'. unfold short_escapes in He, He'.
    set_unfold. destruct_or?; simplify_eq; done.
  - destruct (escape_digits n Hn) as [L E], (escape_digits n' Hn') as [L' E'].
    match goal with E0 : _ ++ s' = _ ++ s |- _ => apply app_inj_1 in E0 as [E1 ->]; [|congruence] end.
    assert (n = n') as -> by congruence. f_equal. auto.
Qed.

(** ASCII text is denoted as it is. *)
Lemma json_text_ascii s : Forall (fun c => code c < 128) s -> json_text s = s.
Proof.
  induction 1 as [|c s Hc _ IH]; [done|]. cbn [json_text flat_map].
  change (flat_map _ s) with (json_text s). by rewrite utf8_short_ascii, IH by done.
Qed.

(** ** Pieces and commas *)

Definition after (ps : list text) : text := flat_map (fun p => COMMA_LF ++ p) ps.
Definition lines (ps : list text) : text := flat_map (fun p => p ++ COMMA_LF) ps.

Lemma lines_app ps qs : lines (ps ++ qs) = lines ps ++ lines qs.
Proof. apply flat_map_app. Qed.
Lemma after_app ps qs : after (ps ++ qs) = after ps ++ after qs.
Proof. apply flat_map_app. Qed.

Lemma join_after p ps : join COMMA_LF (p :: ps) = p ++ after ps.
Proof.
  revert p; induction ps as [|q ps IH]; intros p; [by cbn; rewrite app_nil_r|].
  change (join COMMA_LF (p :: q :: ps)) with (p ++ COMMA_LF ++ join COMMA_LF (q :: ps)).
  rewrite IH. cbn [after flat_map]. by rewrite <- app_assoc.
Qed.

Lemma lines_cons q ps : lines (q :: ps) = q ++ COMMA_LF ++ lines ps.
Proof. unfold lines. cbn [flat_map]. by rewrite <- app_assoc. Qed.
Lemma after_cons q ps : after (q :: ps) = COMMA_LF ++ q ++ after ps.
Proof. unfold after. cbn [flat_map]. by rewrite <- app_assoc. Qed.

Lemma lines_after ps p qs : lines ps ++ p ++ after qs = join COMMA_LF (ps ++ p :: qs).
Proof.
  induction ps as [|q ps IH]; [cbn [app]; by rewrite join_after|].
  rewrite lines_cons, <- !app_assoc, IH. cbn [app]. rewrite join_after.
  by destruct ps as [|r ps]; cbn [app]; rewrite join_after, after_cons.
Qed.

(** A piece that is a member of an object, an element of an array. *)
Definition member_of (p : text) (m : text * json) : Prop :=
  exists sp k sp' s, p = sp ++ in_quotes k ++ str ":" ++ sp' ++ s /\ json_space sp /\
    json_space sp' /\ string_of k (fst m) /\ value s (snd m).
Definition element_piece (p : text) (x : json) : Prop :=
  exists sp s, p = sp ++ s /\ json_space sp /\ value s x.

Lemma json_space_cons c s : (c = " "%char \/ c = TAB \/ c = LF \/ c = CR) -> json_space s -> json_space (c :: s).
Proof. by constructor. Qed.

Lemma members_join ps ms sp :
  ps <> [] -> Forall2 member_of ps ms -> json_space sp ->
  members (LF :: join COMMA_LF ps ++ sp) ms.
Proof.
  intros Hne H Hsp. induction H as [|p m ps ms Hp H IH]; [done|]. clear Hne.
  destruct Hp as (sp1 & k & sp2 & s & -> & Hsp1 & Hsp2 & Hk & Hs). destruct m as [name x].
  assert (Hlf : json_space (LF :: sp1)) by (apply json_space_cons; auto).
  rewrite join_after. destruct H as [|q n ps ms Hq H].
  - change (after []) with ([] : text). rewrite app_nil_r, <- !app_assoc.
    by apply (members_one k (LF :: sp1)).
  - rewrite after_cons. unfold COMMA_LF at 1. rewrite <- !app_assoc.
    apply (members_more k (LF :: sp1) name s x sp2 []); [done|done|constructor|done|done|].
    rewrite join_after, <- app_assoc in IH. by apply IH.
Qed.

Lemma elements_join ps xs sp :
  ps <> [] -> Forall2 element_piece ps xs -> json_space sp ->
  elements (LF :: join COMMA_LF ps ++ sp) xs.
Proof.
  intros Hne H Hsp. induction H as [|p x ps xs Hp H IH]; [done|]. clear Hne.
  destruct Hp as (sp1 & s & -> & Hsp1 & Hs).
  assert (Hlf : json_space (LF :: sp1)) by (apply json_space_cons; auto).
  rewrite join_after. destruct H as [|q y ps xs Hq H].
  - change (after []) with ([] : text). rewrite app_nil_r, <- !app_assoc.
    by apply (elements_one (LF :: sp1)).
  - rewrite after_cons. unfold COMMA_LF at 1. rewrite <- !app_assoc.
    apply (elements_more (LF :: sp1) s x []); [done|constructor|done|].
    rewrite join_after, <- app_assoc in IH. by apply IH.
Qed.

(** An array, also of no elements. *)
Lemma array_join ps xs sp :
  Forall2 element_piece ps xs -> json_space sp ->
  value (str "[" ++ LF :: join COMMA_LF ps ++ sp ++ str "]") (JArray xs).
Proof.
  intros H Hsp. destruct ps as [|p ps].
  - inversion H; subst. apply (value_empty (LF :: sp)). apply json_space_cons; auto.
  - rewrite app_assoc. apply (value_array (LF :: join COMMA_LF (p :: ps) ++ sp)).
    by apply elements_join.
Qed.

Lemma Indent_space n : json_space (Indent n).
Proof. apply Forall_replicate. by left. Qed.

Lemma lf_indent n : json_space ([LF] ++ Indent n).
Proof. apply json_space_cons; [auto|apply Indent_space]. Qed.

(** ** The pieces of the report *)

Definition piece (indent name v : text) : text :=
  indent ++ in_quotes name ++ str ": " ++ in_quotes (EscapeJson v).
Definition piece_int (indent name : text) (z : Z) : text :=
  indent ++ in_quotes name ++ str ": " ++ dec z.

Lemma plain_string s : forallb plain_in_string s = true -> string_of s s.
Proof. induction s as [|c s IH]; simpl; [constructor|]. intros [Hc Hs]%andb_true_iff. by apply string_plain; auto. Qed.

Lemma one_blank : json_space (str " ").
Proof. repeat constructor. Qed.

Lemma piece_member n name v :
  forallb plain_in_string name = true ->
  member_of (piece (Indent n) name v) (name, JString (json_text v)).
Proof.
  intros Hn. exists (Indent n), name, (str " "), (in_quotes (EscapeJson v)).
  split_and!; [done|apply Indent_space|apply one_blank|by apply plain_string|].
  apply value_string, EscapeJson_string.
Qed.

Lemma piece_int_member n name z :
  forallb plain_in_string name = true -> member_of (piece_int (Indent n) name z) (name, JNumber z).
Proof.
  intros Hn. exists (Indent n), name, (str " "), (dec z).
  split_and!; [done|apply Indent_space|apply one_blank|by apply plain_string|]. apply value_number.
Qed.

(** A member whose value is an array, with its bracket after [sp]. *)
Lemma array_member n name ps xs sp :
  forallb plain_in_string name = true -> Forall2 element_piece ps xs -> json_space sp ->
  member_of (Indent n ++ in_quotes name ++ str ": [" ++ LF :: join COMMA_LF ps ++ sp ++ str "]")
    (name, JArray xs).
Proof.
  intros Hn Hps Hsp. exists (Indent n), name, (str " "), (str "[" ++ LF :: join COMMA_LF ps ++ sp ++ str "]").
  split_and!; [done|apply Indent_space|apply one_blank|by apply plain_string|]. by apply array_join.
Qed.

(** An object on lines of its own. *)
Lemma object_piece n ps ms :
  ps <> [] -> Forall2 member_of ps ms ->
  element_piece (Indent n ++ str "{" ++ LF :: join COMMA_LF ps ++ ([LF] ++ Indent n) ++ str "}")
    (JObject ms).
Proof.
  intros Hne Hps. exists (Indent n). eexists. split; [done|]. split; [apply Indent_space|].
  rewrite app_assoc. apply (value_object (LF :: join COMMA_LF ps ++ _)).
  apply members_join; [done|done|apply lf_indent].
Qed.

(** ** The value of the report *)

Section tree.
Variable localtime_r : Z -> option tm.
Variable fl : Flags.

Definition rfc_stamp (ms : Z) : text :=
  match FormatEpochTimeInMillisAsRFC3339 localtime_r ms with Ok t => t | Err _ => [] end.

Definition str_member (name : String.string) (v : text) : text * json :=
  (str name, JString (json_text v)).
Definition int_member (name : String.string) (z : Z) : text * json := (str name, JNumber z).
Definition array_member_of (name : String.string) (vs : list json) : text * json :=
  (str name, JArray vs).

Definition part_text (p : TestPartResult) : text := xml_location p ++ LF :: message_ p.
Definition failure_value (p : TestPartResult) : json :=
  JObject [str_member "failure" (part_text p); str_member "type" []].
Definition skipped_value (p : TestPartResult) : json :=
  JObject [str_member "message" (part_text p)].

(** The arrays of failures and of skips are left out when they have no element. *)
Definition parts_member (name : String.string) (wanted : TestPartResult -> bool)
    (node : TestPartResult -> json) (r : TestResult) : list (text * json) :=
  match List.filter wanted (test_part_results_ r) with
  | [] => []
  | ps => [array_member_of name (map node ps)]
  end.
Definition result_members (r : TestResult) : list (text * json) :=
  parts_member "failures" failed failure_value r ++ parts_member "skipped" skipped skipped_value r.
Definition property_members (r : TestResult) : list (text * json) :=
  map (fun p => (prop_key p, JString (json_text (prop_value p)))) (test_properties_ r).
Definition optional_member (name : String.string) (v : option text) : list (text * json) :=
  match v with None => [] | Some v => [str_member name v] end.

Definition test_members (suite_name : text) (t : TestInfo) : list (text * json) :=
  [str_member "name" (test_name_ t)] ++ optional_member "value_param" (value_param_ t) ++
  optional_member "type_param" (type_param_ t) ++
  [str_member "file" (loc_file (location_ t)); int_member "line" (loc_line (location_ t))] ++
  if bools fl Flag.list_tests then []
  else [str_member "status" (if should_run_ t then str "RUN" else str "NOTRUN");
        str_member "result" (if should_run_ t
                             then if skipped_result (result_ t) then str "SKIPPED"
                                  else str "COMPLETED"
                             else str "SUPPRESSED");
        str_member "timestamp" (rfc_stamp (start_timestamp_ (result_ t)));
        str_member "time" (FormatTimeInMillisAsDuration (elapsed_time_ (result_ t)));
        str_member "classname" suite_name] ++
       property_members (result_ t) ++ result_members (result_ t).
Definition test_value (suite_name : text) (t : TestInfo) : json :=
  JObject (test_members suite_name t).

Definition suite_members (s : TestSuite) : list (text * json) :=
  [str_member "name" (suite_name_ s); int_member "tests" (tests_where is_reportable s)] ++
  (if bools fl Flag.list_tests then []
   else [int_member "failures" (tests_where TestFailed s);
         int_member "disabled" (tests_where TestReportableDisabled s);
         int_member "errors" 0;
         str_member "timestamp" (rfc_stamp (suite_start_timestamp_ s));
         str_member "time" (FormatTimeInMillisAsDuration (suite_elapsed_time_ s))] ++
        property_members (ad_hoc_test_result_ s)) ++
  [array_member_of "testsuite"
     (map (test_value (suite_name_ s)) (List.filter is_reportable (tests_in_order s)))].
Definition suite_value (s : TestSuite) : json := JObject (suite_members s).

(** Failures outside of the tests: a suite with one test. *)
Definition ad_hoc_members (r : TestResult) : list (text * json) :=
  [str_member "name" (str "NonTestSuiteFailure"); int_member "tests" 1] ++
  (if bools fl Flag.list_tests then []
   else [int_member "failures" 1; int_member "disabled" 0; int_member "skipped" 0;
         int_member "errors" 0; str_member "time" (FormatTimeInMillisAsDuration (elapsed_time_ r));
         str_member "timestamp" (rfc_stamp (start_timestamp_ r))]) ++
  [array_member_of "testsuite"
     [JObject ([str_member "name" []; str_member "status" (str "RUN");
                str_member "result" (str "COMPLETED");
                str_member "timestamp" (rfc_stamp (start_timestamp_ r));
                str_member "time" (FormatTimeInMillisAsDuration (elapsed_time_ r));
                str_member "classname" []] ++ property_members r ++ result_members r)]].

Definition program_members (u : UnitTest) : list (text * json) :=
  let suites := test_suites_ (unit_suites u) in
  [int_member "tests" (zsum (tests_where is_reportable) suites);
   int_member "failures" (zsum (tests_where TestFailed) suites);
   int_member "disabled" (zsum (tests_where TestReportableDisabled) suites);
   int_member "errors" 0] ++
  (if bools fl Flag.shuffle then [int_member "random_seed" (random_seed_ u)] else []) ++
  [str_member "timestamp" (rfc_stamp (unit_start_timestamp_ u));
   str_member "time" (FormatTimeInMillisAsDuration (unit_elapsed_time_ u))] ++
  property_members (unit_ad_hoc u) ++
  [str_member "name" (str "AllTests");
   array_member_of "testsuites"
     (map suite_value (List.filter has_reportable suites) ++
      if Failed (unit_ad_hoc u) then [JObject (ad_hoc_members (unit_ad_hoc u))] else [])].
Definition json_tree (u : UnitTest) : json := JObject (program_members u).

(** ** What the report relies on *)

(** Keys of properties are written as they are. *)
Definition plain_keys (r : TestResult) : Prop :=
  Forall (fun p => forallb plain_in_string (prop_key p) = true) (test_properties_ r).

Definition json_suite_ok (s : TestSuite) : Prop :=
  suite_ok s /\ test_indices_ s ≡ₚ map Z.of_nat (seq 0 (length (test_info_list_ s))) /\
  plain_keys (ad_hoc_test_result_ s) /\ Forall (fun t => plain_keys (result_ t)) (test_info_list_ s).

Definition json_ok (u : UnitTest) : Prop :=
  let suites := test_suites_ (unit_suites u) in
  Forall json_suite_ok suites /\ zsum total_test_count suites <= INT_MAX /\
  test_suite_indices_ (unit_suites u) ≡ₚ map Z.of_nat (seq 0 (length suites)) /\
  plain_keys (unit_ad_hoc u) /\ int_list (test_part_results_ (unit_ad_hoc u)).

(** ** The results of a test *)

(** Equality of texts that differ in how they are put together. *)
Ltac json_eq :=
  unfold piece, piece_int, in_quotes, COMMA_LF, Indent;
  cbn [replicate app str String.list_ascii_of_string join lines after flat_map];
  repeat (rewrite <- app_assoc; cbn [app]); rewrite ?app_nil_r; reflexivity.

(** The members of the goal one by one. *)
Ltac members_ok :=
  lazymatch goal with
  | |- Forall2 _ [] [] => apply Forall2_nil_2
  | |- Forall2 _ (_ :: _) (_ :: _) => apply Forall2_cons_2; [members_ok | members_ok]
  | |- member_of (piece _ _ _) _ => apply piece_member; reflexivity
  | |- member_of (piece_int _ _ _) _ => apply piece_int_member; reflexivity
  | |- _ => idtac
  end.

Lemma failure_piece p : element_piece (json_failure p) (failure_value p).
Proof.
  replace (json_failure p) with (Indent 12 ++ str "{" ++ LF :: join COMMA_LF
      [piece (Indent 14) (str "failure") (part_text p); piece (Indent 14) (str "type") []] ++
      ([LF] ++ Indent 12) ++ str "}").
  - apply object_piece; [done|]. members_ok.
  - unfold json_failure, json_message, part_text. json_eq.
Qed.

Lemma skipped_piece p : element_piece (json_skipped p) (skipped_value p).
Proof.
  replace (json_skipped p) with (Indent 12 ++ str "{" ++ LF :: join COMMA_LF
      [piece (Indent 14) (str "message") (part_text p)] ++ ([LF] ++ Indent 12) ++ str "}").
  - apply object_piece; [done|]. members_ok.
  - unfold json_skipped, json_message, part_text. json_eq.
Qed.

(** The loop over the parts, once it has opened the array. *)
Lemma json_parts_rest kind wanted element parts n :
  0 < n -> n + Z.of_nat (length parts) <= INT_MAX ->
  exists m, json_parts kind wanted element parts n =
    Ok (after (map element (List.filter wanted parts)), m) /\ n <= m.
Proof.
  revert n; induction parts as [|p parts IH]; intros n Hn Hmax; [exists n; split; [done|lia]|].
  cbn [length] in Hmax. cbn [json_parts List.filter].
  destruct (wanted p); [|by apply IH; [|lia]].
  rewrite iadd_ok by range. rewrite bind_ok. destruct (IH (n + 1)) as (m & -> & Hm); [lia|lia|].
  rewrite bind_ok, (proj2 (Z.eqb_neq (n + 1) 1)) by lia. cbn [map app].
  exists m. rewrite after_cons. split; [done|lia].
Qed.

Definition kind_piece (name : String.string) (element : TestPartResult -> text)
    (ps : list TestPartResult) : text :=
  Indent 10 ++ in_quotes (str name) ++ str ": [" ++ LF :: join COMMA_LF (map element ps) ++
  ([LF] ++ Indent 10) ++ str "]".
Definition kind_pieces (name : String.string) wanted element (r : TestResult) : list text :=
  match List.filter wanted (test_part_results_ r) with
  | [] => []
  | ps => [kind_piece name element ps]
  end.

Lemma json_kind_ok name wanted element r :
  int_list (test_part_results_ r) ->
  json_kind (str name) wanted element r = Ok (after (kind_pieces name wanted element r)).
Proof.
  unfold int_list, json_kind, kind_pieces. induction (test_part_results_ r) as [|p parts IH];
    intros Hmax; [done|]. cbn [length] in Hmax. cbn [json_parts List.filter].
  destruct (wanted p); [|apply IH; lia].
  rewrite iadd_ok by range. rewrite bind_ok.
  destruct (json_parts_rest (str name) wanted element parts (0 + 1)) as (m & -> & Hm); [lia|lia|].
  rewrite !bind_ok, (proj2 (Z.ltb_lt 0 m)) by lia. f_equal.
  unfold kind_piece. cbn [map]. rewrite join_after. change (0 + 1 =? 1) with true. json_eq.
Qed.

Lemma kind_members name wanted element node r :
  forallb plain_in_string (str name) = true -> (forall p, element_piece (element p) (node p)) ->
  Forall2 member_of (kind_pieces name wanted element r) (parts_member name wanted node r).
Proof.
  intros Hn Hel. unfold kind_pieces, parts_member.
  destruct (List.filter wanted (test_part_results_ r)) as [|p ps]; [done|].
  apply Forall2_cons; split; [|done]. apply array_member; [done| |apply lf_indent].
  apply Forall2_fmap_2, Forall_Forall2_diag. apply Forall_forall. auto.
Qed.

Definition result_pieces (r : TestResult) : list text :=
  kind_pieces "failures" failed json_failure r ++ kind_pieces "skipped" skipped json_skipped r.

Lemma OutputJsonTestResult_ok r :
  int_list (test_part_results_ r) ->
  OutputJsonTestResult r = Ok (after (result_pieces r) ++ [LF] ++ Indent 8 ++ str "}").
Proof.
  intros H. unfold OutputJsonTestResult, result_pieces. cbn [emit foldr].
  rewrite !json_kind_ok, !bind_ok, after_app, app_nil_r, <- app_assoc by done. done.
Qed.

Lemma result_members_ok r : Forall2 member_of (result_pieces r) (result_members r).
Proof.
  apply Forall2_app; apply kind_members; try reflexivity; [apply failure_piece|apply skipped_piece].
Qed.

Definition property_pieces (n : nat) (r : TestResult) : list text :=
  map (fun p => piece (Indent n) (prop_key p) (prop_value p)) (test_properties_ r).

Lemma TestPropertiesAsJson_ok n r : TestPropertiesAsJson r (Indent n) = after (property_pieces n r).
Proof.
  unfold TestPropertiesAsJson, property_pieces, after. rewrite !flat_map_concat_map, map_map. done.
Qed.

Lemma property_members_ok n r :
  plain_keys r -> Forall2 member_of (property_pieces n r) (property_members r).
Proof.
  intros H. apply Forall2_fmap_2, Forall_Forall2_diag. eapply Forall_impl; [exact H|].
  intros p Hp. by apply piece_member.
Qed.

(** ** Sequences of members *)

(** What ends the line of a member. *)
Definition ended (comma : bool) (p : text) : text := p ++ if comma then COMMA_LF else [].

Lemma key_ok element name v n comma :
  allowed element name = true ->
  key element name v (Indent n) comma = Ok (ended comma (piece (Indent n) (str name) v)).
Proof.
  unfold allowed, key, OutputJsonKey.
  destruct (GetReservedOutputAttributesForElement (str element)) as [names|]; [|done].
  intros H. rewrite bind_ok, H. cbn [c_assert]. rewrite bind_ok. unfold ended, piece, in_quotes.
  f_equal. destruct comma; json_eq.
Qed.

Lemma key_int_ok element name v z n comma :
  allowed element name = true -> v = Ok z ->
  key_int element name v (Indent n) comma = Ok (ended comma (piece_int (Indent n) (str name) z)).
Proof.
  unfold allowed, key_int, OutputJsonKey_int. intros H ->. rewrite bind_ok.
  destruct (GetReservedOutputAttributesForElement (str element)) as [names|]; [|done].
  rewrite bind_ok, H. cbn [c_assert]. rewrite bind_ok. unfold ended, piece_int.
  f_equal. destruct comma; json_eq.
Qed.

Lemma stamp_key_ok element ms n :
  dates_ok localtime_r -> allowed element "timestamp" = true ->
  key_stamp localtime_r element ms (Indent n) =
  Ok (ended true (piece (Indent n) (str "timestamp") (rfc_stamp ms))).
Proof.
  intros Hd Ha. unfold key_stamp, rfc_stamp.
  assert (H : exists t, FormatEpochTimeInMillisAsRFC3339 localtime_r ms = Ok t).
  { unfold FormatEpochTimeInMillisAsRFC3339, PortableLocaltime.
    destruct (localtime_r (Z.quot ms 1000)) as [t|] eqn:E; [|by eexists].
    destruct (Hd _ _ E) as [Hy Hm]. rewrite !iadd_ok by (by apply int_ok_iff). by eexists. }
  destruct H as [t ->]. rewrite bind_ok. by apply key_ok.
Qed.

Definition optional_pieces (n : nat) (name : String.string) (v : option text) : list text :=
  match v with None => [] | Some v => [piece (Indent n) (str name) v] end.

(** One write before the rest: of whole lines, of the last member but for what
    follows it, of anything else. *)
Lemma emit_lines m ms ps qs out :
  m = Ok (lines ps) -> emit ms = Ok (lines qs ++ out) ->
  emit (m :: ms) = Ok (lines (ps ++ qs) ++ out).
Proof. intros -> E. cbn [emit foldr]. fold (emit ms). by rewrite E, !bind_ok, lines_app, <- app_assoc. Qed.

Lemma emit_line m ms p qs out :
  m = Ok (ended true p) -> emit ms = Ok (lines qs ++ out) ->
  emit (m :: ms) = Ok (lines (p :: qs) ++ out).
Proof.
  intros -> E. apply (emit_lines _ _ [p]); [|done]. unfold lines. cbn [flat_map]. by rewrite app_nil_r.
Qed.

Lemma emit_member m ms p qs out :
  m = Ok (ended false p) -> emit ms = Ok (after qs ++ out) ->
  emit (m :: ms) = Ok (lines [] ++ p ++ after qs ++ out).
Proof.
  intros -> E. cbn [emit foldr]. fold (emit ms). rewrite E, !bind_ok. unfold ended.
  by rewrite app_nil_r.
Qed.

Lemma emit_after m ms ps qs out :
  m = Ok (after ps) -> emit ms = Ok (after qs ++ out) ->
  emit (m :: ms) = Ok (after (ps ++ qs) ++ out).
Proof. intros -> E. cbn [emit foldr]. fold (emit ms). by rewrite E, !bind_ok, after_app, <- app_assoc. Qed.

Lemma optional_lines element name v n :
  allowed element name = true ->
  key_optional element name v (Indent n) = Ok (lines (optional_pieces n name v)).
Proof.
  intros Ha. destruct v as [v|]; [|done]. cbn [key_optional optional_pieces].
  rewrite key_ok by done. unfold lines, ended. cbn [flat_map]. by rewrite app_nil_r.
Qed.

Lemma lines_middle ps p qs out :
  lines ps ++ p ++ after qs ++ out = join COMMA_LF (ps ++ p :: qs) ++ out.
Proof. by rewrite <- lines_after, <- !app_assoc. Qed.

Lemma lines_comma ps p qs out :
  lines ps ++ p ++ COMMA_LF ++ lines qs ++ out = lines (ps ++ p :: qs) ++ out.
Proof. by rewrite lines_app, lines_cons, <- !app_assoc. Qed.

Hypothesis Hdates : dates_ok localtime_r.

Ltac line :=
  lazymatch goal with
  | |- key_int _ _ _ _ _ = _ => apply key_int_ok; reflexivity
  | |- key_stamp _ _ _ _ = _ => apply stamp_key_ok; [exact Hdates | reflexivity]
  | |- key_time _ _ _ _ = _ => unfold key_time; apply key_ok; reflexivity
  | |- key _ _ _ _ _ = _ => apply key_ok; reflexivity
  end.

(** ** Tests *)

Definition head_pieces (t : TestInfo) : list text :=
  [piece (Indent 10) (str "name") (test_name_ t)] ++
  optional_pieces 10 "value_param" (value_param_ t) ++
  optional_pieces 10 "type_param" (type_param_ t) ++
  [piece (Indent 10) (str "file") (loc_file (location_ t))].
Definition status_text (t : TestInfo) : text :=
  if should_run_ t then if skipped_result (result_ t) then str "SKIPPED" else str "COMPLETED"
  else str "SUPPRESSED".
Definition run_pieces (t : TestInfo) : list text :=
  [piece (Indent 10) (str "status") (if should_run_ t then str "RUN" else str "NOTRUN");
   piece (Indent 10) (str "result") (status_text t);
   piece (Indent 10) (str "timestamp") (rfc_stamp (start_timestamp_ (result_ t)));
   piece (Indent 10) (str "time") (FormatTimeInMillisAsDuration (elapsed_time_ (result_ t)))].
Definition test_pieces (sn : text) (t : TestInfo) : list text :=
  head_pieces t ++ piece_int (Indent 10) (str "line") (loc_line (location_ t)) ::
  if bools fl Flag.list_tests then []
  else run_pieces t ++ piece (Indent 10) (str "classname") sn ::
       property_pieces 10 (result_ t) ++ result_pieces (result_ t).

Definition object_text (n : nat) (ps : list text) : text :=
  Indent n ++ str "{" ++ LF :: join COMMA_LF ps ++ ([LF] ++ Indent n) ++ str "}".

Lemma test_members_ok sn t :
  plain_keys (result_ t) -> Forall2 member_of (test_pieces sn t) (test_members sn t).
Proof.
  intros Hk. unfold test_pieces, test_members, head_pieces, run_pieces, optional_pieces, optional_member.
  destruct (value_param_ t), (type_param_ t), (bools fl Flag.list_tests); cbn [app];
    members_ok;
    (apply Forall2_app; [by apply property_members_ok | apply result_members_ok]).
Qed.

Lemma status_key_ok t :
  int_list (test_part_results_ (result_ t)) ->
  (r ← json_status t; key "testcase" "result" r (Indent 10) true) =
  Ok (ended true (piece (Indent 10) (str "result") (status_text t))).
Proof.
  intros H. unfold json_status, status_text.
  destruct (should_run_ t); [rewrite Skipped_pure by done|]; rewrite ?bind_ok;
    [destruct (skipped_result (result_ t))|]; line.
Qed.

(** The members of a test that has run, after its line. *)
Lemma run_text sn t :
  int_list (test_part_results_ (result_ t)) ->
  emit [key "testcase" "status" (if should_run_ t then str "RUN" else str "NOTRUN") (Indent 10) true;
        (r ← json_status t; key "testcase" "result" r (Indent 10) true);
        key_stamp localtime_r "testcase" (start_timestamp_ (result_ t)) (Indent 10);
        key_time "testcase" (elapsed_time_ (result_ t)) (Indent 10) true;
        key "testcase" "classname" sn (Indent 10) false;
        Ok (TestPropertiesAsJson (result_ t) (Indent 10));
        OutputJsonTestResult (result_ t)] =
  Ok (lines (run_pieces t) ++ piece (Indent 10) (str "classname") sn ++
      after (property_pieces 10 (result_ t) ++ result_pieces (result_ t)) ++
      [LF] ++ Indent 8 ++ str "}").
Proof.
  intros Hint. unfold run_pieces.
  eapply emit_line; [line|]. eapply emit_line; [by apply status_key_ok|].
  eapply emit_line; [line|]. eapply emit_line; [line|]. eapply (emit_member _ _ _ (_ ++ _)); [line|].
  eapply emit_after; [by rewrite TestPropertiesAsJson_ok|].
  apply emit_last. by apply OutputJsonTestResult_ok.
Qed.

Lemma emit_bare ms out : emit ms = Ok out -> emit ms = Ok (lines [] ++ out).
Proof. done. Qed.

Lemma emit_ended m p l : m = Ok (ended false p) -> forall out, l = Ok out -> emit [m; l] = Ok (p ++ out).
Proof. intros -> out ->. cbn. unfold ended. by rewrite !app_nil_r. Qed.

Lemma test_text sn t :
  int_list (test_part_results_ (result_ t)) ->
  OutputJsonTestInfo localtime_r fl sn t = Ok (object_text 8 (test_pieces sn t)).
Proof.
  intros Hint. unfold OutputJsonTestInfo, test_pieces, object_text. cbv zeta.
  pose proof (emit_open COMMA_LF _ _ (run_text sn t Hint)) as Hrun.
  destruct (bools fl Flag.list_tests);
    (erewrite emit_open; [|eapply emit_line; [line|]; eapply emit_lines; [by apply optional_lines|];
       eapply emit_lines; [by apply optional_lines|]; eapply emit_line; [line|];
       apply emit_bare, emit_ended; [line|]; first [reflexivity | exact Hrun]]);
    f_equal.
  all: change (piece (Indent 10) (str "name") (test_name_ t) :: _) with (head_pieces t);
    rewrite <- !app_assoc; do 2 f_equal.
  - rewrite <- lines_after, <- !app_assoc. reflexivity.
  - rewrite lines_comma, lines_middle, <- !app_assoc. reflexivity.
Qed.

Lemma test_element_piece sn t :
  int_list (test_part_results_ (result_ t)) -> plain_keys (result_ t) ->
  exists p, OutputJsonTestInfo localtime_r fl sn t = Ok p /\ element_piece p (test_value sn t).
Proof.
  intros Hint Hk. eexists. split; [by apply test_text|].
  apply object_piece; [|by apply test_members_ok].
  unfold test_pieces. intros E. by apply app_nil in E as [_ ?].
Qed.

(** ** Arrays *)

Lemma json_array_ok {A} (get : nat -> outcome A) (wanted : A -> outcome bool) (w : A -> bool)
    (element : A -> outcome text) (val : A -> json) is_ xs comma :
  Forall2 (fun i x => get i = Ok x) is_ xs ->
  Forall (fun x => wanted x = Ok (w x) /\
            exists p, element x = Ok p /\ element_piece p (val x)) xs ->
  exists ps, json_array get wanted element is_ comma =
      Ok (if comma then after ps else join COMMA_LF ps, comma || (0 <? length ps)%nat) /\
    Forall2 element_piece ps (map val (List.filter w xs)).
Proof.
  intros H. revert comma. induction H as [|i x is_ xs Hx _ IH]; intros comma Hxs.
  { exists []. split; [by destruct comma|constructor]. }
  apply Forall_cons in Hxs as [[Hw (p & Hp & Hpiece)] Hxs]. cbn [json_array List.filter].
  rewrite Hx, bind_ok, Hw, bind_ok. destruct (w x).
  - rewrite Hp, bind_ok. destruct (IH true Hxs) as (ps & -> & Hps). rewrite bind_ok.
    exists (p :: ps). split; [|by constructor]. f_equal. f_equal; [|by destruct comma].
    destruct comma; [by rewrite after_cons|by rewrite join_after].
  - destruct (IH comma Hxs) as (ps & -> & Hps). by exists ps.
Qed.

Lemma emit_cons m ms (x out : text) : m = Ok x -> emit ms = Ok out -> emit (m :: ms) = Ok (x ++ out).
Proof. intros -> E. cbn [emit foldr]. fold (emit ms). by rewrite E. Qed.

(** A member that is an array, over several lines. *)
Definition array_piece (n : nat) (name : String.string) (ps : list text) : text :=
  Indent n ++ in_quotes (str name) ++ str ": [" ++ LF :: join COMMA_LF ps ++ ([LF] ++ Indent n) ++
  str "]".

(** ** Suites *)

(** A last member that more lines follow. *)
Lemma lines_last ps p qs : lines ps ++ p ++ after qs ++ COMMA_LF = lines (ps ++ p :: qs).
Proof.
  rewrite lines_app, lines_cons. f_equal. f_equal.
  induction qs as [|q qs IH]; [by rewrite app_nil_r|].
  by rewrite after_cons, lines_cons, <- !app_assoc, IH.
Qed.

Definition suite_run (s : TestSuite) : list text :=
  [piece_int (Indent 6) (str "failures") (tests_where TestFailed s);
   piece_int (Indent 6) (str "disabled") (tests_where TestReportableDisabled s);
   piece_int (Indent 6) (str "errors") 0;
   piece (Indent 6) (str "timestamp") (rfc_stamp (suite_start_timestamp_ s))] ++
  piece (Indent 6) (str "time") (FormatTimeInMillisAsDuration (suite_elapsed_time_ s)) ::
  property_pieces 6 (ad_hoc_test_result_ s).

Lemma suite_run_text s :
  json_suite_ok s ->
  emit [key_int "testsuite" "failures" (failed_test_count s) (Indent 6) true;
        key_int "testsuite" "disabled" (reportable_disabled_test_count s) (Indent 6) true;
        key_int "testsuite" "errors" (Ok 0) (Indent 6) true;
        key_stamp localtime_r "testsuite" (suite_start_timestamp_ s) (Indent 6);
        key_time "testsuite" (suite_elapsed_time_ s) (Indent 6) false;
        Ok (TestPropertiesAsJson (ad_hoc_test_result_ s) (Indent 6) ++ COMMA_LF)] =
  Ok (lines (suite_run s)).
Proof.
  intros (Hok & _). unfold suite_run. rewrite <- lines_last.
  apply emit_line; [apply key_int_ok; [reflexivity|apply CountIf_length, Hok]|].
  apply emit_line; [apply key_int_ok; [reflexivity|apply CountIf_length, Hok]|].
  do 2 (apply emit_line; [line|]). apply emit_member; [line|].
  rewrite TestPropertiesAsJson_ok. by apply emit_last.
Qed.

Definition suite_pieces (s : TestSuite) (tests : list text) : list text :=
  [piece (Indent 6) (str "name") (suite_name_ s);
   piece_int (Indent 6) (str "tests") (tests_where is_reportable s)] ++
  (if bools fl Flag.list_tests then [] else suite_run s) ++ [array_piece 6 "testsuite" tests].

Lemma suite_members_ok s tests :
  json_suite_ok s ->
  Forall2 element_piece tests
    (map (test_value (suite_name_ s)) (List.filter is_reportable (tests_in_order s))) ->
  Forall2 member_of (suite_pieces s tests) (suite_members s).
Proof.
  intros (_ & _ & Hk & _) Ht. unfold suite_pieces, suite_members.
  repeat apply Forall2_app; [members_ok| |].
  - destruct (bools fl Flag.list_tests); [done|]. unfold suite_run. cbn [app].
    members_ok. by apply property_members_ok.
  - apply Forall2_cons; split; [|done]. apply array_member; [done|done|apply lf_indent].
Qed.

(** An object that ends with an array. *)
Lemma object_array n k name ps es :
  (Indent n ++ str "{" ++ [LF]) ++ lines ps ++ (Indent k ++ in_quotes (str name) ++ str ": [" ++ [LF]) ++
    join COMMA_LF es ++ [LF] ++ Indent k ++ str "]" ++ [LF] ++ Indent n ++ str "}" =
  object_text n (ps ++ [array_piece k name es]).
Proof.
  unfold object_text. rewrite <- lines_after. unfold array_piece. change (after []) with ([] : text).
  rewrite app_nil_r. repeat (rewrite <- app_assoc; cbn [app]). reflexivity.
Qed.

Lemma emit_object n ms ps p qs close :
  emit ms = Ok (lines ps ++ p ++ after qs ++ ([LF] ++ Indent n ++ str "}") ++ close) ->
  emit (Ok (Indent n ++ str "{" ++ [LF]) :: ms) = Ok (object_text n (ps ++ p :: qs) ++ close).
Proof.
  intros E. rewrite (emit_open _ _ _ E), lines_middle. unfold object_text. f_equal.
  repeat (rewrite <- app_assoc; cbn [app]). reflexivity.
Qed.

Lemma suite_text s :
  json_suite_ok s ->
  exists p, PrintJsonTestSuite localtime_r fl s = Ok p /\ element_piece p (suite_value s).
Proof.
  intros Hs. pose proof Hs as (Hok & HP & Hk & Hkt).
  destruct (tests_in_order_spec s HP) as [Hderef Hin].
  destruct (json_array_ok (deref_test s) (fun t => Ok (is_reportable t)) is_reportable
    (OutputJsonTestInfo localtime_r fl (suite_name_ s)) (test_value (suite_name_ s))
    _ _ false Hderef) as (tests & Harr & Htests).
  { apply Forall_forall. intros t Ht. split; [done|]. apply test_element_piece.
    - apply (proj1 (Forall_forall _ _) (proj2 Hok)). auto.
    - apply (proj1 (Forall_forall _ _) Hkt). auto. }
  exists (object_text 4 (suite_pieces s tests)). split.
  - unfold suite_pieces. rewrite app_assoc, <- object_array. unfold PrintJsonTestSuite. cbv zeta.
    apply emit_open. cbn [app].
    apply emit_line; [line|]. apply emit_line; [apply key_int_ok; [reflexivity|apply CountIf_length, Hok]|].
    apply emit_cons with (x := lines (if bools fl Flag.list_tests then [] else suite_run s));
      [by destruct (bools fl Flag.list_tests); [|apply suite_run_text]|].
    apply emit_open. rewrite Harr, bind_ok. apply emit_cons; [done|]. apply emit_last. done.
  - apply object_piece; [done|]. by apply suite_members_ok.
Qed.

(** ** The program *)

Definition ad_hoc_test_pieces (r : TestResult) : list text :=
  [piece (Indent 10) (str "name") []; piece (Indent 10) (str "status") (str "RUN");
   piece (Indent 10) (str "result") (str "COMPLETED");
   piece (Indent 10) (str "timestamp") (rfc_stamp (start_timestamp_ r));
   piece (Indent 10) (str "time") (FormatTimeInMillisAsDuration (elapsed_time_ r))] ++
  piece (Indent 10) (str "classname") [] :: property_pieces 10 r ++ result_pieces r.
Definition ad_hoc_run (r : TestResult) : list text :=
  [piece_int (Indent 6) (str "failures") 1; piece_int (Indent 6) (str "disabled") 0;
   piece_int (Indent 6) (str "skipped") 0; piece_int (Indent 6) (str "errors") 0;
   piece (Indent 6) (str "time") (FormatTimeInMillisAsDuration (elapsed_time_ r));
   piece (Indent 6) (str "timestamp") (rfc_stamp (start_timestamp_ r))].
Definition ad_hoc_pieces (r : TestResult) : list text :=
  [piece (Indent 6) (str "name") (str "NonTestSuiteFailure"); piece_int (Indent 6) (str "tests") 1] ++
  (if bools fl Flag.list_tests then [] else ad_hoc_run r) ++
  [array_piece 6 "testsuite" [object_text 8 (ad_hoc_test_pieces r)]].

Lemma ad_hoc_piece r :
  plain_keys r -> element_piece (object_text 4 (ad_hoc_pieces r)) (JObject (ad_hoc_members r)).
Proof.
  intros Hk. apply object_piece; [done|]. unfold ad_hoc_pieces, ad_hoc_members.
  repeat apply Forall2_app; [members_ok| |].
  - destruct (bools fl Flag.list_tests); [done|]. unfold ad_hoc_run; members_ok.
  - apply Forall2_cons; split; [|done]. apply array_member; [done| |apply lf_indent].
    apply Forall2_cons; split; [|done]. apply object_piece; [done|]. unfold ad_hoc_test_pieces.
    cbn [app]. members_ok. apply Forall2_app; [by apply property_members_ok | apply result_members_ok].
Qed.

Lemma ad_hoc_text r :
  int_list (test_part_results_ r) ->
  OutputJsonTestSuiteForTestResult localtime_r fl r = Ok (object_text 4 (ad_hoc_pieces r)).
Proof.
  intros Hint. unfold ad_hoc_pieces. rewrite app_assoc, <- object_array.
  unfold OutputJsonTestSuiteForTestResult. apply emit_open. cbn [app].
  apply emit_line; [line|]. apply emit_line; [line|].
  apply emit_cons with (x := lines (if bools fl Flag.list_tests then [] else ad_hoc_run r)).
  { destruct (bools fl Flag.list_tests); [done|]. rewrite <- (app_nil_r (lines _)).
    do 6 (apply emit_line; [line|]). done. }
  apply emit_open. cbn [join]. unfold ad_hoc_test_pieces. apply emit_object.
  do 5 (apply emit_line; [line|]). apply emit_member; [line|].
  rewrite after_app, <- app_assoc. apply emit_cons; [by rewrite TestPropertiesAsJson_ok|].
  rewrite (app_assoc (after _)). apply emit_cons; [by apply OutputJsonTestResult_ok|].
  by apply emit_last.
Qed.

Definition program_head (u : UnitTest) : list text :=
  let suites := test_suites_ (unit_suites u) in
  [piece_int (Indent 2) (str "tests") (zsum (tests_where is_reportable) suites);
   piece_int (Indent 2) (str "failures") (zsum (tests_where TestFailed) suites);
   piece_int (Indent 2) (str "disabled") (zsum (tests_where TestReportableDisabled) suites);
   piece_int (Indent 2) (str "errors") 0] ++
  (if bools fl Flag.shuffle then [piece_int (Indent 2) (str "random_seed") (random_seed_ u)] else []) ++
  [piece (Indent 2) (str "timestamp") (rfc_stamp (unit_start_timestamp_ u))].
Definition program_lines (u : UnitTest) : list text :=
  (program_head u ++ piece (Indent 2) (str "time") (FormatTimeInMillisAsDuration (unit_elapsed_time_ u)) ::
   property_pieces 2 (unit_ad_hoc u)) ++ [piece (Indent 2) (str "name") (str "AllTests")].

Lemma program_members_ok u es :
  plain_keys (unit_ad_hoc u) ->
  Forall2 element_piece es
    (map suite_value (List.filter has_reportable (test_suites_ (unit_suites u))) ++
      if Failed (unit_ad_hoc u) then [JObject (ad_hoc_members (unit_ad_hoc u))] else []) ->
  Forall2 member_of (program_lines u ++ [array_piece 2 "testsuites" es]) (program_members u).
Proof.
  intros Hk Hes. unfold program_lines, program_head, program_members. rewrite <- !app_assoc. cbn [app].
  members_ok. apply Forall2_app; [destruct (bools fl Flag.shuffle); [members_ok|done]|].
  members_ok. apply Forall2_app; [by apply property_members_ok|].
  members_ok. apply array_member; [done|done|apply lf_indent].
Qed.


Lemma program_counts u p method :
  json_ok u -> (forall s, json_suite_ok s -> method s = Ok (tests_where p s)) ->
  SumOverTestSuiteList (test_suites_ (unit_suites u)) method =
  Ok (zsum (tests_where p) (test_suites_ (unit_suites u))).
Proof.
  intros (Hs & Ht & _) Hm. apply program_count; [|exact Ht].
  intros s Hin. apply Hm. by apply (proj1 (Forall_forall _ _) Hs).
Qed.

Lemma program_lines_text u out :
  lines (program_lines u) ++ out =
  lines (program_head u) ++
  piece (Indent 2) (str "time") (FormatTimeInMillisAsDuration (unit_elapsed_time_ u)) ++
  after (property_pieces 2 (unit_ad_hoc u)) ++ COMMA_LF ++
  lines [piece (Indent 2) (str "name") (str "AllTests")] ++ out.
Proof. unfold program_lines. by rewrite lines_app, <- lines_last, <- !app_assoc. Qed.

Lemma program_text u :
  json_ok u ->
  exists es, PrintJsonUnitTest localtime_r fl u =
      Ok (object_text 0 (program_lines u ++ [array_piece 2 "testsuites" es]) ++ [LF]) /\
    Forall2 element_piece es
      (map suite_value (List.filter has_reportable (test_suites_ (unit_suites u))) ++
        if Failed (unit_ad_hoc u) then [JObject (ad_hoc_members (unit_ad_hoc u))] else []).
Proof.
  intros Hu. pose proof Hu as (Hs & Ht & HP & Hk & Hint).
  destruct (json_array_ok (deref_suite u) (fun s => n ← reportable_test_count s; Ok (0 <? n))
    has_reportable (PrintJsonTestSuite localtime_r fl) suite_value _ _ false (suites_in_order u HP))
    as (es & Harr & Hes).
  { apply Forall_forall. intros s Hin. pose proof (proj1 (Forall_forall _ _) Hs s Hin) as Hok.
    split; [|by apply suite_text].
    assert (Hrep : reportable_test_count s = Ok (tests_where is_reportable s))
      by (apply CountIf_length; apply Hok).
    by rewrite Hrep. }
  assert (Hall : exists all, (tests ← Ok (join COMMA_LF es);
      more ← (if Failed (unit_ad_hoc u) then
                e ← OutputJsonTestSuiteForTestResult localtime_r fl (unit_ad_hoc u);
                Ok ((if (0 <? length es)%nat then COMMA_LF else []) ++ e)
              else Ok []);
      Ok (tests ++ more)) = Ok (join COMMA_LF all) /\
    Forall2 element_piece all
      (map suite_value (List.filter has_reportable (test_suites_ (unit_suites u))) ++
        if Failed (unit_ad_hoc u) then [JObject (ad_hoc_members (unit_ad_hoc u))] else [])).
  { destruct (Failed (unit_ad_hoc u)); [|exists es; rewrite !bind_ok, !app_nil_r; done].
    rewrite bind_ok, ad_hoc_text, !bind_ok by done.
    eexists (es ++ [_]). split; [|apply Forall2_app; [exact Hes|]; apply Forall2_cons_2;
      [by apply ad_hoc_piece|done]].
    f_equal. destruct es as [|e es]; [done|]. cbn [app length]. rewrite !join_after, after_app.
    rewrite <- app_assoc. unfold after at 3. cbn [flat_map]. by rewrite app_nil_r. }
  destruct Hall as (all & Hall & Helems). exists all. split; [|exact Helems].
  rewrite <- object_array, <- !(app_assoc (Indent 0 ++ _)). unfold PrintJsonUnitTest. cbv zeta.
  apply (emit_open (str "{" ++ [LF])). rewrite <- (app_assoc (lines _)), program_lines_text.
  unfold program_head. cbn [app].
  apply emit_line; [apply key_int_ok; [reflexivity|]; apply program_counts; [done|];
    intros s Hok; apply CountIf_length, Hok|].
  apply emit_line; [apply key_int_ok; [reflexivity|]; apply program_counts; [done|];
    intros s Hok; apply CountIf_length, Hok|].
  apply emit_line; [apply key_int_ok; [reflexivity|]; apply program_counts; [done|];
    intros s Hok; apply CountIf_length, Hok|].
  apply emit_line; [line|].
  apply emit_lines; [destruct (bools fl Flag.shuffle); [|done]|].
  { by rewrite lines_cons, app_nil_r; apply key_int_ok. }
  apply emit_line; [line|]. apply emit_member; [line|].
  rewrite TestPropertiesAsJson_ok, (app_assoc (after _)). apply emit_open.
  apply emit_line with (qs := []); [line|]. apply emit_bare. rewrite <- app_assoc. apply emit_open. rewrite bind_ok in Hall. rewrite Harr, bind_ok.
  rewrite <- app_assoc. apply emit_cons; [exact Hall|]. apply emit_last. reflexivity.
Qed.
End tree.

(** C27. The JSON report: for every state of the unit test whose counts fit an
    [int], whose dates [localtime_r] can represent and whose properties have
    keys that need no escape, [PrintJsonUnitTest] fails no check and writes one
    JSON text (and a line feed) that the grammar reads as [json_tree]: all
    suites and tests that are reported, in the order in which they run, with
    their counts, statuses, times, properties, and every failure and skip with
    its location and message.  Texts are denoted byte by byte ([json_text]).  The
    tree has the member names of the code, which are not those of the documentation:
    a failed test has an array "failures" of objects with the members "failure" and
    "type", where docs/advanced.md has "failures" and "type" in its schema and
    "message" and "type" in its sample. *)
Theorem json_report_valid localtime_r fl u :
  dates_ok localtime_r -> json_ok u ->
  exists doc, PrintJsonUnitTest localtime_r fl u = Ok (doc ++ [LF]) /\
    value doc (json_tree localtime_r fl u).
Proof.
  intros Hd Hu. destruct (program_text localtime_r fl Hd u Hu) as (es & E & Hes).
  eexists. split; [exact E|]. unfold object_text. change (Indent 0 ++ ?x) with x. rewrite app_assoc.
  apply (value_object (LF :: join COMMA_LF _ ++ _)). apply members_join; [| |apply lf_indent].
  - intros [_ E']%app_nil. done.
  - apply program_members_ok; [apply Hu|exact Hes].
Qed.

(** A failed test with a property, a suite without tests to report and a failure
    outside of the tests. *)
Definition json_unit : UnitTest :=
  mkUnitTest
    (mkSuites [mkTestSuite (str "Book") None [markup_test] [0] None None true new_TestResult 0 12;
               mkTestSuite (str "Side") None [] [] None None true new_TestResult 0 12]
       [0; 1] (-1))
    [] (AddTestPartResult new_TestResult (new_TestPartResult kNonFatalFailure None (-1) (str "late")))
    FilePath.FilePath_empty 0 0 0 34.

Lemma json_report_valid_witness :
  exists doc, PrintJsonUnitTest (fun _ => Some (mk_tm 124 0 2 3 4 5)) no_state.(flags) json_unit = Ok (doc ++ [LF]) /\
    value doc (json_tree (fun _ => Some (mk_tm 124 0 2 3 4 5)) no_state.(flags) json_unit).
Proof.
  apply json_report_valid.
  - intros s t [= <-]. split; reflexivity.
  - split_and!; [|vm_compute; congruence|reflexivity|constructor|vm_compute; congruence].
    assert (Hkey : plain_keys (result_ markup_test)) by (apply Forall_singleton; reflexivity).
    apply Forall_cons_2; [|apply Forall_singleton]; (split; [|split; [reflexivity|]]).
    + split; [vm_compute; congruence|]. apply Forall_singleton. vm_compute. congruence.
    + split; [constructor|]. by apply Forall_singleton.
    + split; [vm_compute; congruence|constructor].
    + split; constructor.
Defined.

(** ** What the report gets wrong *)

Definition with_property (key v : text) : TestInfo :=
  mkTestInfo (str "Book") (str "Cross") None None (mkCodeLocation (str "book_test.cc") 7)
    0 true false true false 0 (mkTestResult [] [mkTestProperty key v] 0 0 12).
Definition names_of_members (v : json) : list text :=
  match v with JObject ms => map fst ms | _ => [] end.

(** [RecordProperty] takes the key "result" for a test, which the JSON report
    writes next to its own. *)
Lemma json_duplicate_member :
  ValidateTestProperty (str "testcase") (mkTestProperty (str "result") (str "x")) = Ok (true, []) /\
  ~ NoDup (names_of_members (test_value (fun _ => None) no_state.(flags) (str "Book")
             (with_property (str "result") (str "x")))).
Proof.
  split; [reflexivity|]. intros H. apply (bool_decide_eq_true_2 _) in H. vm_compute in H. done.
Qed.

(** A byte from 0x80 on becomes the code point of its number: text that is UTF-8
    is denoted by something else. *)
Lemma json_not_utf8 : exists s, json_text s <> s /\ string_of (EscapeJson s) (json_text s).
Proof.
  exists [to_char 195; to_char 169]. split; [vm_compute; congruence|apply EscapeJson_string].
Qed.
