(* ===== verification/Listeners.v ===== *)
(** * Test event listeners (gtest.cc, TestEventRepeater and TestEventListeners)

    The events of a run, the list of listeners and the order in which the
    repeater forwards an event to them.  A listener only observes: what reaches
    it is recorded. *)

From S2P Require Import Prelude Outcome Common CStr TestResult TestSelect UnitTest.

(** The methods of [TestEventListener], with the object they are called on as it
    is at that moment. *)
Inductive Event : Type :=
  | OnTestProgramStart (u : UnitTest)
  | OnTestIterationStart (u : UnitTest) (iteration : Z)
  | OnEnvironmentsSetUpStart (u : UnitTest)
  | OnEnvironmentsSetUpEnd (u : UnitTest)
  | OnTestSuiteStart (s : TestSuite)
  | OnTestCaseStart (s : TestSuite)
  | OnTestStart (t : TestInfo)
  | OnTestDisabled (t : TestInfo)
  | OnTestPartResult (p : TestPartResult)
  | OnTestEnd (t : TestInfo)
  | OnTestSuiteEnd (s : TestSuite)
  | OnTestCaseEnd (s : TestSuite)
  | OnEnvironmentsTearDownStart (u : UnitTest)
  | OnEnvironmentsTearDownEnd (u : UnitTest)
  | OnTestIterationEnd (u : UnitTest) (iteration : Z)
  | OnTestProgramEnd (u : UnitTest).

(** The events that the repeater forwards in reverse order: [GTEST_REVERSE_REPEATER_METHOD_]
    and [OnTestIterationEnd]. *)
Definition reversed (e : Event) : bool :=
  match e with
  | OnEnvironmentsSetUpEnd _ | OnEnvironmentsTearDownEnd _ | OnTestEnd _ | OnTestCaseEnd _
  | OnTestSuiteEnd _ | OnTestProgramEnd _ | OnTestIterationEnd _ _ => true
  | _ => false
  end.

(** What a listener does with the events; the file of the report printers. *)
Inductive ListenerKind : Type :=
  | PrettyUnitTestResultPrinter
  | BriefUnitTestResultPrinter
  | XmlUnitTestResultPrinter (output_file_ : text)
  | JsonUnitTestResultPrinter (output_file_ : text)
  | StreamingListener (host port : text)
  | UserListener.

#[export] Instance ListenerKind_eq_dec : EqDecision ListenerKind.
Proof. solve_decision. Defined.

(** An object, by its address. *)
Record Listener : Type := mkListener { listener_address : Z; listener_kind : ListenerKind }.

#[export] Instance Listener_eq_dec : EqDecision Listener.
Proof. solve_decision. Defined.

(** ** The repeater *)

Record TestEventRepeater : Type := mkRepeater {
  forwarding_enabled_ : bool; listeners_ : list Listener }.

Definition new_Repeater : TestEventRepeater := mkRepeater true [].

Definition repeater_Append (r : TestEventRepeater) (listener : Listener) : TestEventRepeater :=
  mkRepeater (forwarding_enabled_ r) (listeners_ r ++ [listener]).

(** The loop of [Release], from the first listener on. *)
Fixpoint release_first (listener : Listener) (ls : list Listener) : list Listener * bool :=
  match ls with
  | [] => ([], false)
  | l :: ls => if decide (l = listener) then (ls, true)
               else let '(ls, found) := release_first listener ls in (l :: ls, found)
  end.
Definition repeater_Release (r : TestEventRepeater) (listener : option Listener)
    : TestEventRepeater * option Listener :=
  match listener with
  | None => (r, None)
  | Some l => let '(ls, found) := release_first l (listeners_ r) in
              (mkRepeater (forwarding_enabled_ r) ls, if found : bool then Some l else None)
  end.

Definition set_forwarding_enabled (r : TestEventRepeater) (enable : bool) : TestEventRepeater :=
  mkRepeater enable (listeners_ r).

(** The calls that forwarding an event makes, in order. *)
Definition forward (r : TestEventRepeater) (e : Event) : list (Listener * Event) :=
  if forwarding_enabled_ r
  then map (fun l => (l, e)) (if reversed e then rev (listeners_ r) else listeners_ r)
  else [].

(** ** The list of listeners *)

Record TestEventListeners : Type := mkListeners {
  repeater_ : TestEventRepeater; default_result_printer_ : option Listener;
  default_xml_generator_ : option Listener }.

Definition new_TestEventListeners : TestEventListeners := mkListeners new_Repeater None None.

Definition Append (ls : TestEventListeners) (listener : Listener) : TestEventListeners :=
  mkListeners (repeater_Append (repeater_ ls) listener) (default_result_printer_ ls)
    (default_xml_generator_ ls).

Definition Release (ls : TestEventListeners) (listener : option Listener)
    : TestEventListeners * option Listener :=
  let '(r, released) := repeater_Release (repeater_ ls) listener in
  (if decide (listener = default_result_printer_ ls)
   then mkListeners r None (default_xml_generator_ ls)
   else if decide (listener = default_xml_generator_ ls)
   then mkListeners r (default_result_printer_ ls) None
   else mkListeners r (default_result_printer_ ls) (default_xml_generator_ ls), released).

Definition append_some (ls : TestEventListeners) (listener : option Listener) : TestEventListeners :=
  match listener with None => ls | Some l => Append ls l end.

Definition SetDefaultResultPrinter (ls : TestEventListeners) (listener : option Listener)
    : TestEventListeners :=
  if decide (default_result_printer_ ls = listener) then ls
  else let '(ls, _) := Release ls (default_result_printer_ ls) in
       append_some (mkListeners (repeater_ ls) listener (default_xml_generator_ ls)) listener.

Definition SetDefaultXmlGenerator (ls : TestEventListeners) (listener : option Listener)
    : TestEventListeners :=
  if decide (default_xml_generator_ ls = listener) then ls
  else let '(ls, _) := Release ls (default_xml_generator_ ls) in
       append_some (mkListeners (repeater_ ls) (default_result_printer_ ls) listener) listener.

Definition SuppressEventForwarding (ls : TestEventListeners) (suppress : bool) : TestEventListeners :=
  mkListeners (set_forwarding_enabled (repeater_ ls) (negb suppress)) (default_result_printer_ ls)
    (default_xml_generator_ ls).
Definition EventForwardingEnabled (ls : TestEventListeners) : bool :=
  forwarding_enabled_ (repeater_ ls).

(** ** What a listener sees *)

Definition seen_by (l : Listener) (calls : list (Listener * Event)) : list Event :=
  map snd (List.filter (fun c => bool_decide (fst c = l)) calls).

Lemma seen_by_app l c1 c2 : seen_by l (c1 ++ c2) = seen_by l c1 ++ seen_by l c2.
Proof. unfold seen_by. by rewrite List.filter_app, map_app. Qed.

Lemma seen_by_absent l ls e : l ∉ ls -> seen_by l (map (fun l => (l, e)) ls) = [].
Proof.
  unfold seen_by. induction ls as [|l' ls IH]; [done|]. rewrite not_elem_of_cons. intros [Hl Hls].
  cbn [map List.filter fst]. rewrite bool_decide_false by congruence. auto.
Qed.

Lemma seen_by_once l ls e : NoDup ls -> l ∈ ls -> seen_by l (map (fun l => (l, e)) ls) = [e].
Proof.
  intros Hnd. induction Hnd as [|l' ls Hl' _ IH]; intros Hl; [by apply elem_of_nil in Hl|].
  change (seen_by l (map (fun l => (l, e)) (l' :: ls))) with
    (seen_by l ([(l', e)] ++ map (fun l => (l, e)) ls)).
  rewrite seen_by_app. destruct (decide (l' = l)) as [->|Hne].
  - rewrite seen_by_absent by done. unfold seen_by. cbn [List.filter fst map].
    by rewrite bool_decide_true.
  - apply elem_of_cons in Hl as [->|Hl]; [done|]. rewrite IH by done. unfold seen_by at 1.
    cbn [List.filter fst map]. by rewrite bool_decide_false.
Qed.

(** Every listener in the list receives the event once. *)
Lemma forward_seen r e l :
  forwarding_enabled_ r = true -> NoDup (listeners_ r) -> l ∈ listeners_ r ->
  seen_by l (forward r e) = [e].
Proof.
  intros Hf Hnd Hl. unfold forward. rewrite Hf. apply seen_by_once.
  - destruct (reversed e); [|done]. by rewrite <- Permutation_rev.
  - destruct (reversed e); [|done]. by rewrite <- Permutation_rev.
Qed.

(** A suppressed repeater forwards nothing. *)
Lemma forward_suppressed ls e : forward (repeater_ (SuppressEventForwarding ls true)) e = [].
Proof. done. Qed.

(** The default printer is always in the list, and at most one. *)
Definition listeners_ok (ls : TestEventListeners) : Prop :=
  NoDup (listeners_ (repeater_ ls)) /\
  (forall l, default_result_printer_ ls = Some l -> l ∈ listeners_ (repeater_ ls)) /\
  (forall l, default_xml_generator_ ls = Some l -> l ∈ listeners_ (repeater_ ls)) /\
  (default_result_printer_ ls = default_xml_generator_ ls -> default_result_printer_ ls = None).

Lemma release_first_spec l ls :
  NoDup ls -> let '(ls', found) := release_first l ls in
  NoDup ls' /\ found = bool_decide (l ∈ ls) /\ forall x, x ∈ ls' <-> x ∈ ls /\ x <> l.
Proof.
  induction 1 as [|l' ls Hl' Hnd IH]; cbn [release_first].
  { split; [constructor|]. split; [done|]. intros x. split; [by intros H%elem_of_nil|].
    by intros [H%elem_of_nil _]. }
  destruct (decide (l' = l)) as [->|Hne].
  - split; [done|]. split; [rewrite bool_decide_true; [done|by left]|]. intros x.
    rewrite elem_of_cons. split; [|by intros [[->|?] ?]]. intros Hx. split; [by right|]. by intros ->.
  - destruct (release_first l ls) as [ls' found]. destruct IH as (Hnd' & -> & Hin).
    split; [constructor; [|done]; by rewrite Hin; intros [? _]|].
    split; [apply bool_decide_ext; rewrite elem_of_cons; naive_solver|].
    intros x. rewrite !elem_of_cons, Hin. naive_solver.
Qed.

Lemma Release_ok ls listener : listeners_ok ls -> listeners_ok (fst (Release ls listener)).
Proof.
  intros (Hnd & Hp & Hx & Hd). unfold Release, repeater_Release. destruct listener as [l|].
  - pose proof (release_first_spec l (listeners_ (repeater_ ls)) Hnd) as Hr.
    destruct (release_first l (listeners_ (repeater_ ls))) as [ls' found].
    destruct Hr as (Hnd' & _ & Hin).
    assert (H : forall p x, (forall y, p = Some y -> y ∈ listeners_ (repeater_ ls)) -> p <> Some l ->
      p = Some x -> x ∈ ls').
    { intros p x Hy Hne ->. apply Hin. split; [by apply Hy|congruence]. }
    destruct (decide _) as [E|Hne]; [|destruct (decide _) as [E|Hne']]; cbn [fst];
      (split; [exact Hnd'|]); cbn; split_and!; intros; try done; try (by eapply H; [|congruence|]; eauto);
      naive_solver congruence.
  - destruct (decide _) as [E|Hne]; [|destruct (decide _) as [E|Hne']]; cbn [fst];
      (split; [exact Hnd|]); cbn; split_and!; naive_solver.
Qed.

Lemma append_some_ok r p x l :
  NoDup (listeners_ r) -> l ∉ listeners_ r ->
  (forall y, p = Some y -> y ∈ listeners_ r \/ y = l) ->
  (forall y, x = Some y -> y ∈ listeners_ r \/ y = l) -> (p = x -> p = None) ->
  listeners_ok (append_some (mkListeners r p x) (Some l)).
Proof.
  intros Hnd Hl Hp Hx Hne. split; [|split; [|split]]; cbn.
  - apply NoDup_app. split; [done|]. split; [|apply NoDup_singleton].
    intros y Hy ->%list_elem_of_singleton. done.
  - intros y Hy. apply elem_of_app. destruct (Hp y Hy) as [?| ->]; [by left|right; by left].
  - intros y Hy. apply elem_of_app. destruct (Hx y Hy) as [?| ->]; [by left|right; by left].
  - exact Hne.
Qed.

Lemma Release_sub ls o x :
  x ∈ listeners_ (repeater_ (fst (Release ls o))) -> x ∈ listeners_ (repeater_ ls).
Proof.
  unfold Release, repeater_Release. destruct o as [l|].
  - assert (H : forall ls' found, release_first l (listeners_ (repeater_ ls)) = (ls', found) ->
      x ∈ ls' -> x ∈ listeners_ (repeater_ ls)).
    { induction (listeners_ (repeater_ ls)) as [|l' l2 IH]; intros ls' found; cbn [release_first];
        [by intros [= <- _]|]. destruct (decide (l' = l)).
      - intros [= <- _]. by right.
      - destruct (release_first l l2) as [l3 f3]. intros [= <- _].
        rewrite !elem_of_cons. intros [?|?]; [by left|]. right. by eapply IH. }
    destruct (release_first l (listeners_ (repeater_ ls))) as [ls' found].
    destruct (decide _); [|destruct (decide _)]; cbn; by eapply H.
  - destruct (decide _); [|destruct (decide _)]; done.
Qed.

(** A new default listener takes the place of the old one. *)
Lemma SetDefault_ok ls l :
  listeners_ok ls -> l ∉ listeners_ (repeater_ ls) ->
  listeners_ok (SetDefaultResultPrinter ls (Some l)) /\
  listeners_ok (SetDefaultXmlGenerator ls (Some l)) /\
  default_result_printer_ (SetDefaultResultPrinter ls (Some l)) = Some l /\
  default_xml_generator_ (SetDefaultXmlGenerator ls (Some l)) = Some l.
Proof.
  intros Hok Hl. pose proof Hok as (_ & Hp & Hx & _).
  unfold SetDefaultResultPrinter, SetDefaultXmlGenerator.
  rewrite !decide_False by (intros E; apply Hl; auto).
  pose proof (Release_ok ls (default_result_printer_ ls) Hok) as (Hnd1 & Hp1 & Hx1 & _).
  pose proof (Release_ok ls (default_xml_generator_ ls) Hok) as (Hnd2 & Hp2 & Hx2 & _).
  pose proof (Release_sub ls (default_result_printer_ ls) l) as H1.
  pose proof (Release_sub ls (default_xml_generator_ ls) l) as H2.
  destruct (Release ls (default_result_printer_ ls)) as [ls1 o1].
  destruct (Release ls (default_xml_generator_ ls)) as [ls2 o2]. cbn [fst] in *.
  split_and!; [| |done|done]; apply append_some_ok; try done; try tauto; try (intros y [= ->]; by right);
    try (by intros y Hy; left; auto).
  - intros E. exfalso. apply Hl, H1, Hx1. done.
  - intros E. exfalso. apply Hl, H2, Hp2. done.
Qed.
