(* ===== verification/Console.v ===== *)
(** * Console output and streaming (gtest.cc, gtest-internal-inl.h)

    What the pretty printer and the brief printer write to the console about the
    events of a run, and what the streaming listener sends to its socket.  Text
    for the console is a list of pieces with the colour [ColoredPrintf] is given,
    plain text with the default colour.  The counters of the unit test can
    overflow and accesses to suites and tests are checked. *)

From S2P Require Import Prelude Outcome Common CStr TestFilter TestResult TestSelect UnitTest ReportFormat CommandLine XmlReport Listeners.

(** ** Printing *)

Abbreviation output := (outcome (list chunk)).
Definition printf (s : text) : output := Ok [(kDefault, s)].
Definition coloured_printf (color : GTestColor) (s : text) : output := Ok [(color, s)].
Definition nothing : output := Ok [].
Definition prints (writes : list output) : output := emit writes.
(** [for (int i = 0; i < n; ++i)]. *)
Definition print_loop (n : nat) (body : nat -> output) : output := emit (map body (seq 0 n)).
Definition line (s : text) : text := s ++ [LF].
(** [%2d]. *)
Definition d2 (n : Z) : text := pad_left " " 2 (dec n).

(** What a terminal is sent. *)
Definition rendered (in_color_mode : bool) (out : list chunk) : outcome text :=
  emit (map (fun p => ColoredPrintf in_color_mode p.1 p.2) out).

Definition TestPartResultTypeToString (type : TestPartType) : text :=
  match type with
  | kSkip => line (str "Skipped")
  | kSuccess => str "Success"
  | kNonFatalFailure | kFatalFailure => line (str "Failure")
  end.
Definition PrintTestPartResultToString (r : TestPartResult) : text :=
  StringStreamToString
    (FormatFileLocation (part_file_name r) (line_number_ r) ++ str " " ++
     TestPartResultTypeToString (type_ r) ++ c_str (message_ r)).
Definition PrintTestPartResult (r : TestPartResult) : output := printf (line (PrintTestPartResultToString r)).

Definition PrintFullTestCommentIfPresent (t : TestInfo) : text :=
  match type_param_ t, value_param_ t with
  | None, None => []
  | Some ty, None => str ", where " ++ kTypeParamLabel ++ str " = " ++ c_str ty
  | None, Some v => str ", where " ++ kValueParamLabel ++ str " = " ++ c_str v
  | Some ty, Some v => str ", where " ++ kTypeParamLabel ++ str " = " ++ c_str ty ++ str " and " ++
                       kValueParamLabel ++ str " = " ++ c_str v
  end.

Definition PrintTestName (test_suite test : text) : text := c_str test_suite ++ str "." ++ c_str test.
Definition name_line (t : TestInfo) : text := PrintTestName (test_suite_name_ t) (test_name_ t).

Definition suites_of (u : UnitTest) : list TestSuite := test_suites_ (unit_suites u).

(** ** The parts of both printers *)

(** "4 tests from 2 test suites". *)
Definition counts (u : UnitTest) : outcome text :=
  tests ← UnitTestImpl.test_to_run_count (suites_of u);
  suites ← test_suite_to_run_count u;
  Ok (FormatTestCount tests ++ str " from " ++ FormatTestSuiteCount suites).

Definition ms_suffix (fl : Flags) (elapsed_time : Z) : text :=
  if bools fl Flag.print_time then line (str " (" ++ dec elapsed_time ++ str " ms)") else [LF].

(** The head of [OnTestIterationEnd]: how many ran and passed. *)
Definition ran_and_passed (fl : Flags) (u : UnitTest) : output :=
  prints [coloured_printf kGreen (str "[==========] ");
          (c ← counts u; printf (c ++ str " ran."));
          (if bools fl Flag.print_time
           then printf (str " (" ++ dec (unit_elapsed_time_ u) ++ str " ms total)") else nothing);
          printf [LF];
          coloured_printf kGreen (str "[  PASSED  ] ");
          (n ← UnitTestImpl.successful_test_count (suites_of u); printf (line (FormatTestCount n ++ str ".")))].

(** Its end: the disabled tests. *)
Definition disabled_note (fl : Flags) (u : UnitTest) : output :=
  num_disabled ← UnitTestImpl.reportable_disabled_test_count (suites_of u);
  if negb (num_disabled =? 0) && negb (bools fl Flag.also_run_disabled_tests) then
    prints [(passed ← unit_Passed u; if passed : bool then printf [LF] else nothing);
            coloured_printf kYellow (str "  YOU HAVE " ++ dec num_disabled ++ str " DISABLED " ++
                                     (if num_disabled =? 1 then str "TEST" else str "TESTS") ++ [LF; LF])]
  else nothing.

Definition OnTestPartResult_ (r : TestPartResult) : output :=
  match type_ r with kSuccess => nothing | _ => PrintTestPartResult r end.

(** ** PrettyUnitTestResultPrinter *)

Module Pretty.
Section pretty.
(** The environment and the flags. *)
Context (getenv : text -> option text) (fl : Flags).

Definition OnTestIterationStart (u : UnitTest) (iteration : Z) : output :=
  prints
    [(if negb (ints fl Flag.repeat =? 1)
      then i ← iadd iteration 1;
           printf (LF :: str "Repeating all tests (iteration " ++ dec i ++ str ") . . ." ++ [LF; LF])
      else nothing);
     (let filter := strings fl Flag.filter in
      if negb (Gtest_String.CStringEquals (Some filter) (Some kUniversalFilter))
      then coloured_printf kYellow (line (str "Note: " ++ GTEST_NAME_ ++ str " filter = " ++ c_str filter))
      else nothing);
     (shard ← ShouldShard getenv kTestTotalShards kTestShardIndex false;
      if shard : bool then
        shard_index ← Int32FromEnvOrDie getenv kTestShardIndex (-1);
        index ← iadd shard_index 1;
        total ← or_fault InvalidDeref (getenv kTestTotalShards);
        coloured_printf kYellow (line (str "Note: This is test shard " ++ dec index ++ str " of " ++ total ++ str "."))
      else nothing);
     (if bools fl Flag.shuffle
      then coloured_printf kYellow (line (str "Note: Randomizing tests' orders with a seed of " ++
                                          dec (random_seed_ u) ++ str " ."))
      else nothing);
     coloured_printf kGreen (str "[==========] ");
     (c ← counts u; printf (line (str "Running " ++ c ++ str ".")))].

Definition OnEnvironmentsSetUpStart : output :=
  prints [coloured_printf kGreen (str "[----------] "); printf (line (str "Global test environment set-up."))].
Definition OnEnvironmentsTearDownStart : output :=
  prints [coloured_printf kGreen (str "[----------] "); printf (line (str "Global test environment tear-down"))].

Definition suite_counts (s : TestSuite) : outcome text :=
  n ← test_to_run_count s;
  Ok (FormatCountableNoun n (str "test") (str "tests") ++ str " from " ++ c_str (suite_name_ s)).
Definition OnTestCaseStart (s : TestSuite) : output :=
  c ← suite_counts s;
  prints [coloured_printf kGreen (str "[----------] "); printf c;
          printf (line (match suite_type_param_ s with
                        | None => []
                        | Some ty => str ", where " ++ kTypeParamLabel ++ str " = " ++ c_str ty
                        end))].
Definition OnTestCaseEnd (s : TestSuite) : output :=
  if negb (bools fl Flag.print_time) then nothing
  else c ← suite_counts s;
       prints [coloured_printf kGreen (str "[----------] ");
               printf (c ++ str " (" ++ dec (suite_elapsed_time_ s) ++ str " ms total)" ++ [LF; LF])].

Definition OnTestStart (t : TestInfo) : output :=
  prints [coloured_printf kGreen (str "[ RUN      ] "); printf (line (name_line t))].
Definition OnTestDisabled (t : TestInfo) : output :=
  prints [coloured_printf kYellow (str "[ DISABLED ] "); printf (line (name_line t))].
Definition OnTestEnd (t : TestInfo) : output :=
  passed ← Passed (result_ t);
  skipped ← (if passed : bool then Ok false else Skipped (result_ t));
  prints [(if passed : bool then coloured_printf kGreen (str "[       OK ] ")
           else if skipped : bool then coloured_printf kGreen (str "[  SKIPPED ] ")
           else coloured_printf kRed (str "[  FAILED  ] "));
          printf (name_line t ++
                  (if Failed (result_ t) then PrintFullTestCommentIfPresent t else []) ++
                  ms_suffix fl (elapsed_time_ (result_ t)))].

(** The lists at the end of an iteration. *)
Definition PrintFailedTests (u : UnitTest) : output :=
  failed_test_count_ ← UnitTestImpl.failed_test_count (suites_of u);
  prints
    [coloured_printf kRed (str "[  FAILED  ] ");
     printf (line (FormatTestCount failed_test_count_ ++ str ", listed below:"));
     print_loop (length (suites_of u)) (fun i =>
       s ← deref_suite u i;
       skip ← (if negb (suite_should_run_ s) then Ok true else n ← failed_test_count s; Ok (n =? 0));
       if skip : bool then nothing
       else print_loop (length (test_info_list_ s)) (fun j =>
         t ← deref_test s j;
         if negb (should_run_ t) || negb (Failed (result_ t)) then nothing
         else prints [coloured_printf kRed (str "[  FAILED  ] ");
                      printf (line (PrintTestName (suite_name_ s) (test_name_ t) ++
                                    PrintFullTestCommentIfPresent t))]));
     printf (line (LF :: d2 failed_test_count_ ++ str " FAILED " ++
                   (if failed_test_count_ =? 1 then str "TEST" else str "TESTS")))].

Definition PrintFailedTestSuites (u : UnitTest) : output :=
  suites ← mapM (deref_suite u) (seq 0 (length (suites_of u)));
  let failed := List.filter (fun s => suite_should_run_ s && Failed (ad_hoc_test_result_ s)) suites in
  let suite_failure_count := Z.of_nat (length failed) in
  _ ← (if suite_failure_count <=? INT_MAX then Ok tt else Err IntOverflow);
  prints
    [prints (map (fun s => prints [coloured_printf kRed (str "[  FAILED  ] ");
                                   printf (line (c_str (suite_name_ s) ++
                                                 str ": SetUpTestSuite or TearDownTestSuite"))]) failed);
     (if 0 <? suite_failure_count
      then printf (line (LF :: d2 suite_failure_count ++ str " FAILED TEST " ++
                         (if suite_failure_count =? 1 then str "SUITE" else str "SUITES")))
      else nothing)].

Definition PrintSkippedTests (u : UnitTest) : output :=
  skipped_test_count_ ← UnitTestImpl.skipped_test_count (suites_of u);
  if skipped_test_count_ =? 0 then nothing
  else print_loop (length (suites_of u)) (fun i =>
    s ← deref_suite u i;
    skip ← (if negb (suite_should_run_ s) then Ok true else n ← skipped_test_count s; Ok (n =? 0));
    if skip : bool then nothing
    else print_loop (length (test_info_list_ s)) (fun j =>
      t ← deref_test s j;
      skipped ← (if negb (should_run_ t) then Ok false else Skipped (result_ t));
      if negb skipped then nothing
      else prints [coloured_printf kGreen (str "[  SKIPPED ] ");
                   printf (line (PrintTestName (suite_name_ s) (test_name_ t)))])).

Definition OnTestIterationEnd (u : UnitTest) : output :=
  prints
    [ran_and_passed fl u;
     (n ← UnitTestImpl.skipped_test_count (suites_of u);
      if 0 <? n
      then prints [coloured_printf kGreen (str "[  SKIPPED ] ");
                   printf (line (FormatTestCount n ++ str ", listed below:")); PrintSkippedTests u]
      else nothing);
     (passed ← unit_Passed u;
      if passed : bool then nothing else prints [PrintFailedTests u; PrintFailedTestSuites u]);
     disabled_note fl u].

Definition on_event (e : Event) : output :=
  match e with
  | Listeners.OnTestIterationStart u iteration => OnTestIterationStart u iteration
  | Listeners.OnEnvironmentsSetUpStart _ => OnEnvironmentsSetUpStart
  | Listeners.OnTestCaseStart s => OnTestCaseStart s
  | Listeners.OnTestStart t => OnTestStart t
  | Listeners.OnTestDisabled t => OnTestDisabled t
  | Listeners.OnTestPartResult r => OnTestPartResult_ r
  | Listeners.OnTestEnd t => OnTestEnd t
  | Listeners.OnTestCaseEnd s => OnTestCaseEnd s
  | Listeners.OnEnvironmentsTearDownStart _ => OnEnvironmentsTearDownStart
  | Listeners.OnTestIterationEnd u _ => OnTestIterationEnd u
  | _ => nothing
  end.
End pretty.
End Pretty.

(** ** BriefUnitTestResultPrinter *)

Module Brief.
Section brief.
Context (fl : Flags).

Definition OnTestEnd (t : TestInfo) : output :=
  if Failed (result_ t) then
    prints [coloured_printf kRed (str "[  FAILED  ] ");
            printf (name_line t ++ PrintFullTestCommentIfPresent t ++ ms_suffix fl (elapsed_time_ (result_ t)))]
  else nothing.

Definition OnTestIterationEnd (u : UnitTest) : output :=
  prints
    [ran_and_passed fl u;
     (n ← UnitTestImpl.skipped_test_count (suites_of u);
      if 0 <? n
      then prints [coloured_printf kGreen (str "[  SKIPPED ] "); printf (line (FormatTestCount n ++ str "."))]
      else nothing);
     disabled_note fl u].

Definition on_event (e : Event) : output :=
  match e with
  | Listeners.OnTestPartResult r => OnTestPartResult_ r
  | Listeners.OnTestEnd t => OnTestEnd t
  | Listeners.OnTestIterationEnd u _ => OnTestIterationEnd u
  | _ => nothing
  end.
End brief.
End Brief.

(** What a printer writes about a sequence of events. *)
Definition printed (on_event : Event -> output) (events : list Event) : output := prints (map on_event events).

(** ** StreamingListener

    The lines that are sent; the socket is not modelled. *)

Module Streaming.

Definition url_special (ch : ascii) : bool :=
  bool_decide (ch = "%"%char) || bool_decide (ch = "="%char) || bool_decide (ch = "&"%char) ||
  bool_decide (ch = LF).
Fixpoint UrlEncode (s : text) : text :=
  match s with
  | [] => []
  | ch :: s => if bool_decide (ch = NUL) then []
               else if url_special ch then "%"%char :: Gtest_String.FormatByte (code ch) ++ UrlEncode s
               else ch :: UrlEncode s
  end.

Definition FormatBool (value : bool) : text := if value then str "1" else str "0".
Definition SendLn (message : text) : outcome text := Ok (line message).
Definition Start : outcome text := SendLn (str "gtest_streaming_protocol_version=1.0").

Definition on_event (e : Event) : outcome text :=
  match e with
  | OnTestProgramStart _ => SendLn (str "event=TestProgramStart")
  | OnTestProgramEnd u =>
      passed ← unit_Passed u; SendLn (str "event=TestProgramEnd&passed=" ++ FormatBool passed)
  | OnTestIterationStart _ iteration =>
      SendLn (str "event=TestIterationStart&iteration=" ++ dec iteration)
  | OnTestIterationEnd u _ =>
      passed ← unit_Passed u;
      SendLn (str "event=TestIterationEnd&passed=" ++ FormatBool passed ++ str "&elapsed_time=" ++
              dec (unit_elapsed_time_ u) ++ str "ms")
  | OnTestSuiteStart s => SendLn (str "event=TestCaseStart&name=" ++ c_str (suite_name_ s))
  | OnTestSuiteEnd s =>
      passed ← suite_Passed s;
      SendLn (str "event=TestCaseEnd&passed=" ++ FormatBool passed ++ str "&elapsed_time=" ++
              dec (suite_elapsed_time_ s) ++ str "ms")
  | OnTestStart t => SendLn (str "event=TestStart&name=" ++ c_str (test_name_ t))
  | OnTestEnd t =>
      passed ← Passed (result_ t);
      SendLn (str "event=TestEnd&passed=" ++ FormatBool passed ++ str "&elapsed_time=" ++
              dec (elapsed_time_ (result_ t)) ++ str "ms")
  | OnTestPartResult r =>
      SendLn (str "event=TestPartResult&file=" ++ UrlEncode (default [] (part_file_name r)) ++
              str "&line=" ++ dec (line_number_ r) ++ str "&message=" ++ UrlEncode (message_ r))
  | _ => Ok []
  end.

(** All that is sent about the events. *)
Definition sent (events : list Event) : outcome text := emit (Start :: map on_event events).

End Streaming.
