(* ===== verification/ConsoleTheorems.v ===== *)
(** * The console's summary and the streamed lines

    [OnTestIterationEnd] walks the suites and tests by index, counts again in
    each suite and skips what has nothing to list.  It writes the summary that is
    given here by filtering the tests in the order they ran: every test that was
    selected is counted as passed, skipped or failed, and the skipped and the
    failed ones are listed.  [UrlEncode] loses nothing and its result holds none
    of the characters that separate fields and lines. *)

From S2P Require Import Prelude Outcome Common CStr Printers TestResult TestSelect UnitTest ReportFormat CommandLine XmlReport XmlGrammar XmlTheorems Listeners Console.

(** ** The summary *)

Definition test_passed (t : TestInfo) : bool := should_run_ t && passed_result (result_ t).
Definition test_skipped (t : TestInfo) : bool := should_run_ t && skipped_result (result_ t).

(** The tests with a property, suite by suite in the order they ran. *)
Definition tests_with (p : TestInfo -> bool) (u : UnitTest) : list (TestSuite * TestInfo) :=
  flat_map (fun s => map (pair s) (List.filter p (tests_in_order s))) (suites_of u).
Definition suites_with (p : TestSuite -> bool) (u : UnitTest) : list TestSuite := List.filter p (suites_of u).
Definition suite_broken (s : TestSuite) : bool := suite_should_run_ s && Failed (ad_hoc_test_result_ s).
Definition count_of {A} (l : list A) : Z := Z.of_nat (length l).

(** Nothing failed: no test, no set-up or tear-down of a suite, nothing outside. *)
Definition run_passed (u : UnitTest) : bool :=
  bool_decide (tests_with TestFailed u = []) && bool_decide (suites_with suite_broken u = []) &&
  negb (Failed (unit_ad_hoc u)).

Definition tagged (color : GTestColor) (tag s : text) : list chunk := [(color, tag); (kDefault, s)].
Definition listed (color : GTestColor) (tag : text) (comment : TestInfo -> text) (l : list (TestSuite * TestInfo)) :=
  flat_map (fun st => tagged color tag (line (PrintTestName (suite_name_ st.1) (test_name_ st.2) ++ comment st.2))) l.
Definition plural (n : Z) (one many : string) : text := if n =? 1 then str one else str many.

Definition failed_part (u : UnitTest) : list chunk :=
  let failed := tests_with TestFailed u in
  let broken := suites_with suite_broken u in
  tagged kRed (str "[  FAILED  ] ") (line (FormatTestCount (count_of failed) ++ str ", listed below:")) ++
  listed kRed (str "[  FAILED  ] ") PrintFullTestCommentIfPresent failed ++
  [(kDefault, line (LF :: d2 (count_of failed) ++ str " FAILED " ++ plural (count_of failed) "TEST" "TESTS"))] ++
  flat_map (fun s => tagged kRed (str "[  FAILED  ] ")
                       (line (c_str (suite_name_ s) ++ str ": SetUpTestSuite or TearDownTestSuite"))) broken ++
  (if 0 <? count_of broken
   then [(kDefault, line (LF :: d2 (count_of broken) ++ str " FAILED TEST " ++
                          plural (count_of broken) "SUITE" "SUITES"))] else []).

Definition skipped_part (u : UnitTest) : list chunk :=
  let l := tests_with test_skipped u in
  if 0 <? count_of l
  then tagged kGreen (str "[  SKIPPED ] ") (line (FormatTestCount (count_of l) ++ str ", listed below:")) ++
       listed kGreen (str "[  SKIPPED ] ") (fun _ => []) l
  else [].

Definition disabled_part (fl : Flags) (u : UnitTest) : list chunk :=
  let n := zsum (tests_where TestReportableDisabled) (suites_of u) in
  if negb (n =? 0) && negb (bools fl Flag.also_run_disabled_tests) then
    (if run_passed u then [(kDefault, [LF])] else []) ++
    [(kYellow, str "  YOU HAVE " ++ dec n ++ str " DISABLED " ++ plural n "TEST" "TESTS" ++ [LF; LF])]
  else [].

Definition summary (fl : Flags) (u : UnitTest) : list chunk :=
  tagged kGreen (str "[==========] ")
    (FormatTestCount (count_of (tests_with should_run_ u)) ++ str " from " ++
     FormatTestSuiteCount (count_of (suites_with suite_should_run_ u)) ++ str " ran.") ++
  (if bools fl Flag.print_time
   then [(kDefault, str " (" ++ dec (unit_elapsed_time_ u) ++ str " ms total)")] else []) ++
  (kDefault, [LF]) ::
  tagged kGreen (str "[  PASSED  ] ") (line (FormatTestCount (count_of (tests_with test_passed u)) ++ str ".")) ++
  skipped_part u ++
  (if run_passed u then [] else failed_part u) ++
  disabled_part fl u.

(** What the counters can hold, orders that are permutations, and suites that
    are run if one of their tests is. *)
Definition summary_suite_ok (s : TestSuite) : Prop :=
  suite_ok s /\ test_indices_ s ≡ₚ map Z.of_nat (seq 0 (length (test_info_list_ s))) /\
  (suite_should_run_ s = false -> List.filter should_run_ (test_info_list_ s) = []).
Definition summary_ok (u : UnitTest) : Prop :=
  Forall summary_suite_ok (suites_of u) /\ int_list (suites_of u) /\
  zsum total_test_count (suites_of u) <= INT_MAX /\
  test_suite_indices_ (unit_suites u) ≡ₚ map Z.of_nat (seq 0 (length (suites_of u))).

(** ** The tests in their order *)

Lemma tests_in_order_Permutation s :
  test_indices_ s ≡ₚ map Z.of_nat (seq 0 (length (test_info_list_ s))) -> tests_in_order s ≡ₚ test_info_list_ s.
Proof.
  intros HP. unfold tests_in_order. rewrite HP. generalize (test_info_list_ s). clear. intros l.
  enough (G : forall l' n, drop n l = l' -> omap (fun i => l !! Z.to_nat i) (map Z.of_nat (seq n (length l'))) = l')
    by (by rewrite (G l 0%nat)).
  induction l' as [|t l' IH]; intros n E; [done|]. cbn [length seq map].
  assert (Ht : l !! n = Some t) by (rewrite <- (Nat.add_0_r n), <- lookup_drop; by rewrite E).
  cbn. rewrite Nat2Z.id, Ht. f_equal. apply IH.
  rewrite <- Nat.add_1_r, <- drop_drop, E. done.
Qed.

Lemma filter_Permutation_length {A} (p : A -> bool) l l' :
  l ≡ₚ l' -> length (List.filter p l) = length (List.filter p l').
Proof. induction 1; simpl; repeat case_match; simpl; congruence. Qed.

Lemma count_tests_with p u : Forall summary_suite_ok (suites_of u) ->
  zsum (tests_where p) (suites_of u) = count_of (tests_with p u).
Proof.
  unfold tests_with, count_of. induction 1 as [|s suites (_ & HP & _) _ IH]; [done|].
  rewrite zsum_cons, IH. cbn [flat_map]. rewrite length_app, length_map.
  rewrite (filter_Permutation_length p _ _ (tests_in_order_Permutation s HP)). unfold tests_where. lia.
Qed.

Lemma counter_pure p method u : summary_ok u ->
  (forall s, suite_ok s -> method s = Ok (tests_where p s)) ->
  SumOverTestSuiteList (suites_of u) method = Ok (count_of (tests_with p u)).
Proof.
  intros (Hs & _ & Ht & _) Hm. rewrite (program_count _ _ p); [by rewrite count_tests_with| |done].
  intros s Hin. apply Hm. rewrite Forall_forall in Hs. by apply Hs.
Qed.

(** ** The loops *)

Lemma emit_filter {A B} (g : A -> outcome (list B)) p f l :
  (forall x, x ∈ l -> g x = Ok (if p x : bool then f x else [])) ->
  emit (map g l) = Ok (flat_map f (List.filter p l)).
Proof.
  intros H. rewrite (emit_ok _ (map (fun x => if p x then f x else []) l)).
  - f_equal. clear H. induction l as [|x l IH]; [done|]. cbn. rewrite IH. by destruct (p x).
  - induction l as [|x l IH]; constructor; [apply H; by left|]. apply IH. intros y Hy. apply H. by right.
Qed.

Lemma emit_each {A B} (g : A -> outcome (list B)) f l : (forall x, x ∈ l -> g x = Ok (f x)) ->
  emit (map g l) = Ok (flat_map f l).
Proof.
  intros H. rewrite (emit_filter g (fun _ => true) f) by done. f_equal. clear H.
  induction l as [|x l IH]; [done|]. cbn in *. by rewrite IH.
Qed.

Lemma prints_cons w ws a b : w = Ok a -> prints ws = Ok b -> prints (w :: ws) = Ok (a ++ b).
Proof. unfold prints. intros -> E. cbn [emit foldr]. fold (emit ws). by rewrite E. Qed.

Lemma prints_two w1 w2 a b out : w1 = Ok a -> w2 = Ok b -> out = a ++ b -> prints [w1; w2] = Ok out.
Proof. intros -> -> ->. cbn. by rewrite app_nil_r. Qed.

Lemma listed_app c tag f l1 l2 : listed c tag f (l1 ++ l2) = listed c tag f l1 ++ listed c tag f l2.
Proof. apply flat_map_app. Qed.

(** The nested loop of both lists. *)
Lemma list_loop u p method color tag comment body : summary_ok u ->
  (forall t, p t = true -> should_run_ t = true) ->
  (forall s, suite_ok s -> method s = Ok (tests_where p s)) ->
  (forall s t, s ∈ suites_of u -> t ∈ test_info_list_ s ->
     body s t = if p t then prints [coloured_printf color tag;
                  printf (line (PrintTestName (suite_name_ s) (test_name_ t) ++ comment t))] else nothing) ->
  print_loop (length (suites_of u)) (fun i =>
    s ← deref_suite u i;
    skip ← (if negb (suite_should_run_ s) then Ok true else n ← method s; Ok (n =? 0));
    if skip : bool then nothing
    else print_loop (length (test_info_list_ s)) (fun j => t ← deref_test s j; body s t)) =
  Ok (listed color tag comment (tests_with p u)).
Proof.
  intros (Hs & _ & _ & HP) Hrun Hm Hbody. unfold print_loop.
  rewrite (emit_map_Forall2 _ _ _ _ (suites_in_order u HP)). fold (suites_of u).
  rewrite (emit_each _ (fun s => listed color tag comment (map (pair s) (List.filter p (tests_in_order s))))).
  - f_equal. unfold tests_with. clear. induction (suites_of u) as [|s l IH]; [done|].
    cbn [flat_map]. by rewrite IH, listed_app.
  - intros s Hin. rewrite Forall_forall in Hs. destruct (Hs s Hin) as (Hok & HPs & Hsel).
    destruct (tests_in_order_spec s HPs) as [Hderef Hsub].
    assert (Hall : emit (map (fun j => t ← deref_test s j; body s t) (seq 0 (length (test_info_list_ s)))) =
      Ok (listed color tag comment (map (pair s) (List.filter p (tests_in_order s))))).
    { rewrite (emit_map_Forall2 _ _ _ _ Hderef).
      rewrite (emit_filter _ p (fun t => tagged color tag
        (line (PrintTestName (suite_name_ s) (test_name_ t) ++ comment t)))).
      - f_equal. unfold listed. rewrite !flat_map_concat_map, map_map. done.
      - intros t Ht. rewrite Hbody by auto. by destruct (p t). }
    assert (Hnone : tests_where p s = 0 -> List.filter p (tests_in_order s) = []).
    { unfold tests_where. rewrite <- (filter_Permutation_length p _ _ (tests_in_order_Permutation s HPs)).
      destruct (List.filter p _); cbn; [done|lia]. }
    destruct (suite_should_run_ s) eqn:Esel; cbn [negb].
    + rewrite Hm by done. rewrite !bind_ok. destruct (Z.eqb_spec (tests_where p s) 0) as [E|_]; [|exact Hall].
      by rewrite (Hnone E).
    + rewrite bind_ok. rewrite Hnone; [done|]. unfold tests_where.
      specialize (Hsel eq_refl). destruct (List.filter p (test_info_list_ s)) as [|t l] eqn:E; [done|].
      assert (Hin' : In t (List.filter p (test_info_list_ s))) by (rewrite E; by left).
      apply List.filter_In in Hin' as [Hin' Hp].
      assert (Hf : In t (List.filter should_run_ (test_info_list_ s))) by (apply List.filter_In; auto).
      by rewrite Hsel in Hf.
Qed.

(** ** The verdict *)

Lemma count_suites_pure f p suites : int_list suites ->
  (forall s, s ∈ suites -> f s = Ok (p s)) -> count_suites f suites = Ok (count_of (List.filter p suites)).
Proof.
  intros Hlen Hf. unfold count_of. rewrite <- (CountIf_length suites p Hlen). unfold count_suites, CountIf.
  clear Hlen. generalize (Ok 0). induction suites as [|s suites IH]; intros n; [done|].
  cbn [foldl]. rewrite IH by set_solver. f_equal. destruct n; [|done]. rewrite !bind_ok, Hf by set_solver. done.
Qed.

Definition suite_not_passed (s : TestSuite) : bool :=
  suite_should_run_ s && ((0 <? tests_where TestFailed s) || Failed (ad_hoc_test_result_ s)).

Lemma filter_nil {A} (p : A -> bool) l : List.filter p l = [] <-> forall x, x ∈ l -> p x = false.
Proof.
  split.
  - intros H x Hx. destruct (p x) eqn:E; [|done].
    assert (In x (List.filter p l)) by (apply List.filter_In; split; [by apply list_elem_of_In|done]).
    by rewrite H in *.
  - induction l as [|x l IH]; intros H; [done|]. cbn. rewrite (H x) by set_solver. apply IH. set_solver.
Qed.

Lemma tests_with_nil p u :
  tests_with p u = [] <-> forall s, s ∈ suites_of u -> List.filter p (tests_in_order s) = [].
Proof.
  unfold tests_with. induction (suites_of u) as [|s l IH]; cbn [flat_map]; [split; [set_solver|done]|].
  rewrite app_nil, IH. split.
  - intros [H1%map_eq_nil H2] s' [->|H]%elem_of_cons; auto.
  - intros H. split; [rewrite H by set_solver; done|]. intros s' Hs'. apply H. set_solver.
Qed.

Lemma not_passed_spec u : summary_ok u ->
  List.filter suite_not_passed (suites_of u) = [] <-> tests_with TestFailed u = [] /\ suites_with suite_broken u = [].
Proof.
  intros (Hs & _). rewrite Forall_forall in Hs. unfold suites_with. rewrite tests_with_nil, !filter_nil.
  assert (Hfail : forall s, s ∈ suites_of u -> (suite_should_run_ s && (0 <? tests_where TestFailed s) = false) <->
                                              List.filter TestFailed (tests_in_order s) = []).
  { intros s Hin. destruct (Hs s Hin) as (_ & HP & Hsel).
    pose proof (filter_Permutation_length TestFailed _ _ (tests_in_order_Permutation s HP)) as Hlen.
    unfold tests_where. rewrite <- Hlen. destruct (suite_should_run_ s); cbn [andb].
    - destruct (List.filter _ (tests_in_order s)); cbn; split; done || lia.
    - specialize (Hsel eq_refl). rewrite filter_nil in Hsel.
      assert (E : List.filter TestFailed (test_info_list_ s) = []).
      { apply filter_nil. intros t Ht. unfold TestFailed. by rewrite Hsel. }
      rewrite E in Hlen. destruct (List.filter _ (tests_in_order s)); done. }
  unfold suite_not_passed, suite_broken. split.
  - intros H. split; intros s Hin; specialize (H s Hin); rewrite andb_orb_distrib_r in H; apply orb_false_iff in H as [H1 H2].
    + by apply Hfail.
    + done.
  - intros [H1 H2] s Hin. rewrite andb_orb_distrib_r. apply orb_false_iff. split; [by apply Hfail, H1|by apply H2].
Qed.

Lemma unit_Passed_pure u : summary_ok u -> unit_Passed u = Ok (run_passed u).
Proof.
  intros Hu. unfold unit_Passed, unit_Failed, failed_test_suite_count. fold (suites_of u).
  rewrite (count_suites_pure _ suite_not_passed); [|apply Hu|].
  - rewrite !bind_ok. f_equal. unfold run_passed. pose proof (not_passed_spec u Hu) as H.
    rewrite negb_orb. f_equal. unfold count_of.
    destruct (List.filter suite_not_passed _) eqn:E.
    + destruct H as [H _]. destruct (H eq_refl) as [-> ->]. done.
    + symmetry. cbn. apply andb_false_iff. destruct (decide (tests_with TestFailed u = [])) as [H1|H1];
        [right|left]; apply bool_decide_eq_false; [|done]. intros H2. discriminate (proj2 H (conj H1 H2)).
  - intros s Hin. destruct Hu as (Hs & _). rewrite Forall_forall in Hs. destruct (Hs s Hin) as ([Hlen _] & _).
    unfold TestSuiteFailed, suite_not_passed. destruct (suite_should_run_ s); [|done].
    unfold suite_Failed, failed_test_count. by rewrite CountIf_length.
Qed.

(** ** The theorem *)

Lemma counts_pure u : summary_ok u ->
  counts u = Ok (FormatTestCount (count_of (tests_with should_run_ u)) ++ str " from " ++
                 FormatTestSuiteCount (count_of (suites_with suite_should_run_ u))).
Proof.
  intros Hu. unfold counts, UnitTestImpl.test_to_run_count.
  rewrite (counter_pure should_run_ _ u Hu) by (intros s [H _]; by apply CountIf_length).
  unfold test_suite_to_run_count. fold (suites_of u). rewrite CountIf_length by apply Hu. done.
Qed.

Lemma failed_count s : suite_ok s -> failed_test_count s = Ok (tests_where TestFailed s).
Proof. intros [H _]. by apply CountIf_length. Qed.

Lemma filter_length_le {A} (p : A -> bool) l : int_list l -> count_of (List.filter p l) <= INT_MAX.
Proof. unfold int_list, count_of. pose proof (List.filter_length_le p l). lia. Qed.

Lemma mapM_pointwise {A B} (f : A -> outcome B) l k : Forall2 (fun a b => f a = Ok b) l k -> mapM f l = Ok k.
Proof. induction 1 as [|a b l k E _ IH]; [done|]. cbn. rewrite E. cbn. by rewrite IH. Qed.

Lemma PrintFailedTestSuites_pure u : summary_ok u -> Pretty.PrintFailedTestSuites u = Ok
  (flat_map (fun s => tagged kRed (str "[  FAILED  ] ")
     (line (c_str (suite_name_ s) ++ str ": SetUpTestSuite or TearDownTestSuite"))) (suites_with suite_broken u) ++
   (if 0 <? count_of (suites_with suite_broken u)
    then [(kDefault, line (LF :: d2 (count_of (suites_with suite_broken u)) ++ str " FAILED TEST " ++
                           plural (count_of (suites_with suite_broken u)) "SUITE" "SUITES"))] else [])).
Proof.
  intros (_ & Hlen & _ & HP). unfold Pretty.PrintFailedTestSuites.
  assert (E : mapM (deref_suite u) (seq 0 (length (suites_of u))) = Ok (suites_of u)).
  { apply mapM_pointwise, (suites_in_order u HP). }
  rewrite E, bind_ok. fold suite_broken. fold (suites_with suite_broken u).
  pose proof (filter_length_le suite_broken _ Hlen) as H. unfold count_of in H. fold (suites_with suite_broken u) in H.
  rewrite (proj2 (Z.leb_le _ _)) by exact H. rewrite bind_ok. unfold count_of.
  apply prints_cons.
  - apply emit_each. intros s _. reflexivity.
  - by destruct (0 <? _).
Qed.

Lemma PrintFailedTests_pure u : summary_ok u -> Pretty.PrintFailedTests u = Ok
  (tagged kRed (str "[  FAILED  ] ") (line (FormatTestCount (count_of (tests_with TestFailed u)) ++ str ", listed below:")) ++
   listed kRed (str "[  FAILED  ] ") PrintFullTestCommentIfPresent (tests_with TestFailed u) ++
   [(kDefault, line (LF :: d2 (count_of (tests_with TestFailed u)) ++ str " FAILED " ++
                     plural (count_of (tests_with TestFailed u)) "TEST" "TESTS"))]).
Proof.
  intros Hu. unfold Pretty.PrintFailedTests, UnitTestImpl.failed_test_count.
  rewrite (counter_pure TestFailed _ u Hu failed_count), bind_ok.
  apply (prints_cons _ _ [_] _); [reflexivity|]. apply (prints_cons _ _ [_] _); [reflexivity|].
  apply prints_cons; [|by apply (prints_cons _ _ [_] [])].
  apply (list_loop u TestFailed failed_test_count); [done| |apply failed_count|].
  - intros t [H _]%andb_true_iff. done.
  - intros s t _ _. unfold TestFailed. by destruct (should_run_ t), (Failed (result_ t)).
Qed.

Lemma skipped_part_pure u : summary_ok u ->
  (n ← UnitTestImpl.skipped_test_count (suites_of u);
   if 0 <? n
   then prints [coloured_printf kGreen (str "[  SKIPPED ] ");
                printf (line (FormatTestCount n ++ str ", listed below:")); Pretty.PrintSkippedTests u]
   else nothing) = Ok (skipped_part u).
Proof.
  intros Hu. unfold skipped_part. assert (Hn : UnitTestImpl.skipped_test_count (suites_of u) =
    Ok (count_of (tests_with test_skipped u))) by (apply (counter_pure _ _ u Hu), skipped_count).
  rewrite Hn, bind_ok. destruct (Z.ltb_spec 0 (count_of (tests_with test_skipped u))) as [Hpos|]; [|done].
  apply (prints_cons _ _ [_] _); [reflexivity|]. apply (prints_cons _ _ [_] _); [reflexivity|].
  rewrite <- (app_nil_r (listed _ _ _ _)). apply prints_cons; [|done].
  unfold Pretty.PrintSkippedTests. rewrite Hn, bind_ok, (proj2 (Z.eqb_neq _ 0)) by lia.
  apply (list_loop u test_skipped skipped_test_count); [done| |apply skipped_count|].
  - intros t [H _]%andb_true_iff. done.
  - intros s t Hs Ht. unfold test_skipped. destruct (should_run_ t); [|done].
    destruct Hu as (Hall & _). rewrite Forall_forall in Hall. destruct (Hall s Hs) as ([_ Hparts] & _).
    rewrite Forall_forall in Hparts. cbn [negb andb]. rewrite Skipped_pure, bind_ok by auto.
    rewrite app_nil_r. by destruct (skipped_result (result_ t)).
Qed.

Lemma disabled_note_pure fl u : summary_ok u -> disabled_note fl u = Ok (disabled_part fl u).
Proof.
  intros Hu. unfold disabled_note, disabled_part, UnitTestImpl.reportable_disabled_test_count.
  rewrite (counter_pure TestReportableDisabled _ u Hu) by (intros s [H _]; by apply CountIf_length).
  rewrite (count_tests_with _ _ (proj1 Hu)), bind_ok. destruct (negb _ && negb _); [|done].
  rewrite unit_Passed_pure, bind_ok by done. apply prints_cons; [by destruct (run_passed u)|done].
Qed.

(** A state in which every list fits into an [int], the orders are permutations
    and a suite that is not run has no test to run: [OnTestIterationEnd]
    completes and writes [summary]: the tests that ran, those that passed,
    those that were skipped and, if the run did not pass, those that failed,
    listed suite by suite in the order they ran, the suites whose set-up or
    tear-down failed and how many tests are disabled.  Every selected test is
    counted exactly once. *)
Theorem OnTestIterationEnd_correct fl u : summary_ok u ->
  Pretty.OnTestIterationEnd fl u = Ok (summary fl u) /\
  count_of (tests_with should_run_ u) =
    count_of (tests_with test_passed u) + count_of (tests_with test_skipped u) + count_of (tests_with TestFailed u).
Proof.
  intros Hu. split.
  - unfold Pretty.OnTestIterationEnd, summary. rewrite <- (app_nil_r (disabled_part fl u)).
    match goal with |- _ = Ok (?a ++ ?b ++ ?c :: ?d ++ ?e) =>
      replace (a ++ b ++ c :: d ++ e) with ((a ++ b ++ c :: d) ++ e) by (rewrite <- !app_assoc; reflexivity) end.
    apply prints_cons; [|apply prints_cons; [by apply skipped_part_pure|apply prints_cons; [|apply prints_cons]]].
    + unfold ran_and_passed. apply (prints_cons _ _ [_] _); [reflexivity|].
      apply (prints_cons _ _ [_] _); [rewrite counts_pure, bind_ok by done; unfold printf; by rewrite <- app_assoc|].
      apply prints_cons; [by destruct (bools fl Flag.print_time)|].
      apply (prints_cons _ _ [_] _); [reflexivity|]. apply (prints_cons _ _ [_] _); [reflexivity|].
      apply (prints_cons _ _ [_] []); [|done]. unfold UnitTestImpl.successful_test_count.
      by rewrite (counter_pure test_passed _ u Hu) by apply successful_count.
    + rewrite unit_Passed_pure, bind_ok by done. destruct (run_passed u); [done|].
      eapply prints_two; [by apply PrintFailedTests_pure|by apply PrintFailedTestSuites_pure|].
      unfold failed_part. by rewrite <- !app_assoc.
    + by apply disabled_note_pure.
    + done.
  - rewrite <- !(count_tests_with _ _ (proj1 Hu)). apply zsum_add3, run_partition.
Qed.

(** A run with a passed, a skipped and two failed tests, in shuffled order; the
    tear-down of the second suite failed. *)
Definition ran (name : string) (parts : list TestPartType) : TestInfo :=
  mkTestInfo (str "Book") (str name) None None (mkCodeLocation (str "book_test.cc") 7)
    0 true false true false 0
    (mkTestResult (map (fun p => new_TestPartResult p (Some (str "book_test.cc")) 7 (str "why")) parts) [] 0 0 12).
Definition mixed_unit : UnitTest :=
  mkUnitTest
    (mkSuites
       [mkTestSuite (str "Book") None
          [ran "Add" []; ran "Trade" [kNonFatalFailure]; ran "Cancel" [kSkip]; ran "Modify" [kFatalFailure]]
          [3; 0; 2; 1] None None true new_TestResult 0 12;
        mkTestSuite (str "Side") None [ran "Match" []] [0] None None true
          (AddTestPartResult new_TestResult (new_TestPartResult kNonFatalFailure None (-1) (str "late"))) 0 12]
       [1; 0] (-1))
    [] new_TestResult FilePath.FilePath_empty 0 0 0 34.

Lemma OnTestIterationEnd_correct_witness :
  Pretty.OnTestIterationEnd no_state.(flags) mixed_unit = Ok (summary no_state.(flags) mixed_unit) /\
  map (fun st => test_name_ st.2) (tests_with TestFailed mixed_unit) = [str "Modify"; str "Trade"] /\
  count_of (tests_with should_run_ mixed_unit) = 5.
Proof.
  split; [apply OnTestIterationEnd_correct|split; reflexivity].
  split_and!; [|vm_compute; congruence|vm_compute; congruence|].
  - repeat (apply Forall_cons_2; [split_and!; [split|apply (bool_decide_eq_true_1 _); reflexivity|done]|]); [..|constructor].
    all: unfold int_list; apply (bool_decide_eq_true_1 _); vm_compute; reflexivity.
  - apply (bool_decide_eq_true_1 _). reflexivity.
Defined.

(** ** The streaming listener *)

Fixpoint UrlDecode (s : text) : text :=
  match s with
  | [] => []
  | "%"%char :: a :: b :: s => to_char (16 * xdigit_value a + xdigit_value b) :: UrlDecode s
  | c :: s => c :: UrlDecode s
  end.

Definition escape_ok (ch : ascii) : bool :=
  match Gtest_String.FormatByte (code ch) with
  | [a; b] => bool_decide (to_char (16 * xdigit_value a + xdigit_value b) = ch) &&
              IsXDigit a && IsXDigit b
  | _ => false
  end.
Lemma escape_byte ch : escape_ok ch = true.
Proof. destruct ch as [[] [] [] [] [] [] [] []]; vm_compute; reflexivity. Qed.

Lemma FormatByte_two ch : exists a b, Gtest_String.FormatByte (code ch) = [a; b] /\
  to_char (16 * xdigit_value a + xdigit_value b) = ch /\ IsXDigit a = true /\ IsXDigit b = true.
Proof.
  pose proof (escape_byte ch) as H. unfold escape_ok in H.
  destruct (Gtest_String.FormatByte (code ch)) as [|a [|b [|]]]; try done.
  apply andb_true_iff in H as [[H%bool_decide_eq_true Ha]%andb_true_iff Hb]. by exists a, b.
Qed.

Lemma UrlDecode_plain ch s : ch <> "%"%char -> UrlDecode (ch :: s) = ch :: UrlDecode s.
Proof. intros H. destruct ch as [[] [] [] [] [] [] [] []]; done. Qed.

(** The separators of fields and lines. *)
Definition separator (ch : ascii) : bool :=
  bool_decide (ch = "="%char) || bool_decide (ch = "&"%char) || bool_decide (ch = LF) || bool_decide (ch = NUL).

Lemma xdigit_not_separator a : IsXDigit a = true -> separator a = false.
Proof. destruct a as [[] [] [] [] [] [] [] []]; vm_compute; done. Qed.

(** [UrlEncode] is undone by [UrlDecode] up to the text's first NUL, and its
    result has no character that ends a field or a line. *)
Theorem UrlEncode_roundtrip s :
  UrlDecode (Streaming.UrlEncode s) = c_str s /\
  Forall (fun ch => separator ch = false) (Streaming.UrlEncode s).
Proof.
  induction s as [|ch s [IH1 IH2]]; [split; [done|constructor]|].
  cbn [Streaming.UrlEncode]. destruct (bool_decide_reflect (ch = NUL)) as [->|Hnul]; [split; [done|constructor]|].
  assert (Hc : c_str (ch :: s) = ch :: c_str s) by (destruct ch as [[] [] [] [] [] [] [] []]; done).
  rewrite Hc. destruct (Streaming.url_special ch) eqn:E.
  - destruct (FormatByte_two ch) as (a & b & -> & Hab & Ha & Hb). cbn [app]. split.
    + change (UrlDecode ("%"%char :: a :: b :: ?s)) with (to_char (16 * xdigit_value a + xdigit_value b) :: UrlDecode s).
      by rewrite Hab, IH1.
    + repeat apply Forall_cons_2; [done|by apply xdigit_not_separator..|done].
  - unfold Streaming.url_special in E. rewrite !orb_false_iff, !bool_decide_eq_false in E.
    destruct E as [[[E1 E2] E3] E4]. split; [by rewrite UrlDecode_plain, IH1|].
    apply Forall_cons_2; [|done]. unfold separator. by rewrite !bool_decide_eq_false_2.
Qed.
