(* ===== verification/DeathTest.v ===== *)
(** * Death tests (gtest-death-test.cc, gtest-death-test-internal.h)

    A death test runs a statement in a child process and looks at how the child
    ends: by its exit status, by what it wrote to stderr, and by a byte in a
    pipe that says that the statement came to its end after all.  The processes
    are computations that go on with a value or end ([ending]); a child is what
    its parent can see of it ([child]): the pipe, stderr, the status for
    [wait].  [fork] runs what the copy does from there on.  What the system
    answers (which calls are interrupted or fail, how the bytes of the pipe
    reach [read], what a program does that [execv] starts) is a record, [System].
    [program] is a test program with one test, whose death tests start it again
    in the style "threadsafe". *)

From S2P Require Import Prelude Outcome Common CStr Utf8 GmockUtils FilePath TestFilter TestResult TestSelect.
From S2P Require Import CommandLine Matchers.

(** ** The status of a process (<sys/wait.h>) *)

Inductive ending : Type :=
  | exited (exit_code : Z)
  | signaled (signum : Z) (core : bool).

(** What [waitpid] reports. *)
Definition wait_status (e : ending) : Z :=
  match e with
  | exited exit_code => Z.shiftl (Z.land exit_code 255) 8
  | signaled signum core => Z.lor signum (if core : bool then 128 else 0)
  end.

Definition WTERMSIG (status : Z) : Z := Z.land status 127.
Definition WIFEXITED (status : Z) : bool := WTERMSIG status =? 0.
Definition WEXITSTATUS (status : Z) : Z := Z.shiftr (Z.land status 65280) 8.
(** [((signed char) ((status & 0x7f) + 1) >> 1) > 0]. *)
Definition WIFSIGNALED (status : Z) : bool :=
  0 <? Z.shiftr (scode (to_char (WTERMSIG status + 1))) 1.
Definition WCOREDUMP (status : Z) : bool := negb (Z.land status 128 =? 0).

Definition SIGABRT : Z := 6.
Definition EINTR : Z := 4.
Definition EBADF : Z := 9.

(** ** Predicates and descriptions of a status *)

Definition ExitedWithCode (exit_code_ exit_status : Z) : bool :=
  WIFEXITED exit_status && (WEXITSTATUS exit_status =? exit_code_).
Definition KilledBySignal (signum_ exit_status : Z) : bool :=
  WIFSIGNALED exit_status && (WTERMSIG exit_status =? signum_).
Definition ExitedUnsuccessfully (exit_status : Z) : bool := negb (ExitedWithCode 0 exit_status).

Definition ExitSummary (exit_code : Z) : text :=
  (if WIFEXITED exit_code then str "Exited with exit status " ++ dec (WEXITSTATUS exit_code)
   else if WIFSIGNALED exit_code then str "Terminated by signal " ++ dec (WTERMSIG exit_code)
   else []) ++
  (if WCOREDUMP exit_code then str " (core dumped)" else []).

Definition DeathTestThreadWarning (thread_count : Z) : text :=
  str "Death tests use fork(), which is unsafe particularly" ++
  str " in a threaded context. For this test, " ++ GTEST_NAME_ ++ str " " ++
  (if thread_count =? 0 then str "couldn't detect the number of threads."
   else str "detected " ++ dec thread_count ++ str " threads.") ++
  str " See https://github.com/google/googletest/blob/main/docs/advanced.md#death-tests-and-threads" ++
  str " for more explanation and suggested solutions, especially if" ++
  str " this is the last message you see before your test times out.".

Definition kDeathTestLived : ascii := "L".
Definition kDeathTestReturned : ascii := "R".
Definition kDeathTestThrew : ascii := "T".
Definition kDeathTestInternalError : ascii := "I".

Inductive DeathTestOutcome : Type := IN_PROGRESS | DIED | LIVED | RETURNED | THREW.
Inductive TestRole : Type := OVERSEE_TEST | EXECUTE_TEST.
Inductive AbortReason : Type :=
  | TEST_ENCOUNTERED_RETURN_STATEMENT | TEST_THREW_EXCEPTION | TEST_DID_NOT_DIE.

(** ** Reading from a pipe

    Each call of [read] takes the next answer; one that has none blocks. *)

Inductive read : Type :=
  | minus_one (errno : Z)
  | bytes (b : text).

Definition posix_Read (count : nat) (pipe : list read) : outcome (read * list read) :=
  match pipe with
  | [] => Err Diverges
  | minus_one errno :: pipe => Ok (minus_one errno, pipe)
  | bytes [] :: _ => Ok (bytes [], pipe)
  | bytes b :: pipe =>
      Ok (bytes (take count b), if (length b <=? count)%nat then pipe else bytes (drop count b) :: pipe)
  end.

(** The first loop of [ReadAndInterpretStatusByte]. *)
Fixpoint read_status_byte (pipe : list read) : outcome (read * list read) :=
  match pipe with
  | minus_one errno :: rest => if errno =? EINTR then read_status_byte rest else Ok (minus_one errno, rest)
  | _ => posix_Read 1 pipe
  end.

(** The loops of [FailFromInternalError]: the message and the last error.  Each
    turn takes an answer or up to 255 bytes. *)
Definition pipe_size (pipe : list read) : nat :=
  sum_list_with (fun r => match r with minus_one _ => 1 | bytes b => S (length b) end)%nat pipe.

Fixpoint internal_error_loop (fuel : nat) (error : text) (pipe : list read) : outcome (text * option Z) :=
  match fuel with
  | O => Err Diverges
  | S fuel =>
      '(num_read, pipe) ← posix_Read 255 pipe;
      match num_read with
      | bytes [] => Ok (error, None)
      | bytes buffer => internal_error_loop fuel (error ++ c_str buffer) pipe
      | minus_one errno => if errno =? EINTR then internal_error_loop fuel error pipe
                           else Ok (error, Some errno)
      end
  end.

(** ** Lines of output *)

Fixpoint FormatDeathTestOutput_loop (fuel : nat) (output : text) : outcome text :=
  match fuel with
  | O => Err Diverges
  | S fuel =>
      match find_char LF output with
      | None => Ok (str "[  DEATH   ] " ++ output)
      | Some line_end =>
          ret ← FormatDeathTestOutput_loop fuel (drop (S line_end) output);
          Ok (str "[  DEATH   ] " ++ take (S line_end) output ++ ret)
      end
  end.
Definition FormatDeathTestOutput (output : text) : outcome text :=
  FormatDeathTestOutput_loop (S (length output)) output.

(** ** Processes *)

(** The state of a process: the flags and the parsed one, the test that runs,
    the static members, whether events reach the listeners, what it has written
    to the pipe of its parent and to stderr. *)
Record process : Type := mkProcess {
  flags_ : Flags; internal_run_death_test_flag_ : option InternalRunDeathTestFlag;
  current_test_info_ : option TestInfo; last_death_test_message_ : text;
  g_in_fast_death_test_child : bool; forward_events : bool;
  to_parent : text; stderr_ : text }.

Definition P (A : Type) : Type := process -> outcome (process * (A + ending)).

Definition ret {A} (a : A) : P A := fun st => Ok (st, inl a).
Definition bind {A B} (m : P A) (k : A -> P B) : P B := fun st =>
  '(st, r) ← m st; match r with inl a => k a st | inr e => Ok (st, inr e) end.
Definition get {A} (f : process -> A) : P A := fun st => Ok (st, inl (f st)).
Definition modify (f : process -> process) : P unit := fun st => Ok (f st, inl tt).
Definition lift {A} (o : outcome A) : P A := fun st => a ← o; Ok (st, inl a).
(** The process ends. *)
Definition end_ {A} (e : ending) : P A := fun st => Ok (st, inr e).

#[local] Notation "x ⇐ m ;; k" := (bind m (fun x => k))
  (at level 63, m at next level, right associativity).
#[local] Notation "m ;;; k" := (bind m (fun _ => k)) (at level 63, right associativity).

Definition write_stderr (out : text) : P unit := modify (fun st =>
  mkProcess (flags_ st) (internal_run_death_test_flag_ st) (current_test_info_ st)
    (last_death_test_message_ st) (g_in_fast_death_test_child st) (forward_events st) (to_parent st)
    (stderr_ st ++ out)).
Definition write_pipe (out : text) : P unit := modify (fun st =>
  mkProcess (flags_ st) (internal_run_death_test_flag_ st) (current_test_info_ st)
    (last_death_test_message_ st) (g_in_fast_death_test_child st) (forward_events st)
    (to_parent st ++ out) (stderr_ st)).
Definition set_last_death_test_message (message : text) : P unit := modify (fun st =>
  mkProcess (flags_ st) (internal_run_death_test_flag_ st) (current_test_info_ st)
    message (g_in_fast_death_test_child st) (forward_events st) (to_parent st) (stderr_ st)).
Definition set_current_test_info (info : TestInfo) : P unit := modify (fun st =>
  mkProcess (flags_ st) (internal_run_death_test_flag_ st) (Some info)
    (last_death_test_message_ st) (g_in_fast_death_test_child st) (forward_events st) (to_parent st)
    (stderr_ st)).
(** In the child of a fast death test. *)
Definition enter_fast_child : P unit := modify (fun st =>
  mkProcess (flags_ st) (internal_run_death_test_flag_ st) (current_test_info_ st)
    (last_death_test_message_ st) true false (to_parent st) (stderr_ st)).

Definition LastMessage : P text := get (fun st => c_str (last_death_test_message_ st)).

Definition InDeathTestChild (st : process) : bool :=
  if bool_decide (strings (flags_ st) Flag.death_test_style = str "threadsafe")
  then negb (bool_decide (strings (flags_ st) Flag.internal_run_death_test = []))
  else g_in_fast_death_test_child st.

(** ** Children and the system *)

(** What a parent sees of a child. *)
Record child : Type := mkChild { pipe_ : list read; captured_stderr : text; status_value : Z }.

(** The calls are told apart by the lines they stand on: [errnos] has the errors
    of the attempts of a call that fail before one that succeeds, [succeeds]
    says whether a call that is made once does.  [pipe_write_fd] is the descriptor
    that [pipe] returns for the write end, [delivers] how what a child has
    written to the pipe reaches [read]. *)
Record System : Type := mkSystem {
  errnos : Z -> list Z; succeeds : Z -> bool; strerror : Z -> text;
  thread_count_ : Z; pipe_write_fd : Z; delivers : text -> list read;
  page_size : Z; mmap_address : Z; stack_grows_down : bool;
  original_working_dir : text; exec : list text -> outcome child }.

Section processes.
(** [__FILE__] in gtest-death-test.cc and whether [abort] dumps core. *)
Variables (FILE : text) (dumps_core : bool) (sys : System).

Definition posix_Abort {A} : P A := end_ (signaled SIGABRT dumps_core).

(** A process that has ended, as its parent sees it. *)
Definition child_of (st : process) (e : ending) : child :=
  mkChild (delivers sys (to_parent st)) (stderr_ st) (wait_status e).

(** [fork]: what the copy does; its stderr is captured. *)
Definition fork_ (in_child : P Empty_set) : P child := fun st =>
  '(st', r) ← in_child (mkProcess (flags_ st) (internal_run_death_test_flag_ st) (current_test_info_ st)
      (last_death_test_message_ st) (g_in_fast_death_test_child st) (forward_events st) [] []);
  Ok (st, inl (match r return child with
               | inl never => match never : Empty_set with end
               | inr e => child_of st' e
               end)).

(** [GTestLog]; a fatal one aborts. *)
Definition log_line (marker : text) (line : Z) (message : text) : text :=
  [LF] ++ marker ++ str " " ++ FormatFileLocation (Some FILE) line ++ str ": " ++ message ++ [LF].
Definition LOG_WARNING (line : Z) (message : text) : P unit :=
  write_stderr (log_line (str "[WARNING]") line message).
Definition LOG_FATAL {A} (line : Z) (message : text) : P A :=
  write_stderr (log_line (str "[ FATAL ]") line message) ;;; posix_Abort.

Definition DeathTestAbort {A} (message : text) : P A :=
  flag ⇐ get internal_run_death_test_flag_ ;;
  match flag with
  | Some _ => write_pipe [kDeathTestInternalError] ;;; write_pipe (c_str message) ;;; end_ (exited 1)
  | None => write_stderr (c_str message) ;;; posix_Abort
  end.

Definition check_failed {A} (line : Z) (expression : text) : P A :=
  DeathTestAbort (str "CHECK failed: File " ++ FILE ++ str ", line " ++ dec line ++ str ": " ++ expression).

Definition GTEST_DEATH_TEST_CHECK_ (line : Z) (expression : text) (holds : bool) : P unit :=
  if holds then ret tt else check_failed line expression.

(** The loop of [GTEST_DEATH_TEST_CHECK_SYSCALL_]. *)
Fixpoint check_syscall (line : Z) (expression : text) (attempts : list Z) : P unit :=
  match attempts with
  | [] => ret tt
  | errno :: attempts => if errno =? EINTR then check_syscall line expression attempts
                         else check_failed line (expression ++ str " != -1")
  end.
Definition GTEST_DEATH_TEST_CHECK_SYSCALL_ (line : Z) (expression : text) : P unit :=
  check_syscall line expression (errnos sys line).

Definition GetLastErrnoDescription (errno : Z) : text := if errno =? 0 then [] else strerror sys errno.

Definition FailFromInternalError {A} (pipe : list read) : P A :=
  r ⇐ lift (internal_error_loop (pipe_size pipe) [] pipe) ;;
  let '(error, last_error) := r in
  match last_error with
  | None => LOG_FATAL 367 (StringStreamToString error)
  | Some last_error =>
      LOG_FATAL 370 (str "Error while reading death test internal: " ++
                     GetLastErrnoDescription last_error ++ str " [" ++ dec last_error ++ str "]")
  end.

(** ** A death test *)

Inductive death_test_class : Type :=
  | ExecDeathTest (file_ : text) (line_ : Z)
  | NoExecDeathTest.

(** The members; [child_] is the process with the pid [child_pid_], [read_fd_]
    the pipe behind the descriptor. *)
Record DeathTest : Type := mkDeathTest {
  class_ : death_test_class; statement_ : text; matcher_ : Matcher text;
  spawned_ : bool; status_ : Z; outcome_ : DeathTestOutcome;
  read_fd_ : option (list read); write_fd_ : Z; child_ : option child }.

(** The constructors; [DeathTest::DeathTest] looks for the test. *)
Definition new_DeathTest (c : death_test_class) (statement : text) (matcher : Matcher text) : P DeathTest :=
  info ⇐ get current_test_info_ ;;
  match info with
  | None => DeathTestAbort (str "Cannot run a death test outside of a TEST or TEST_F construct")
  | Some _ => ret (mkDeathTest c statement matcher false (-1) IN_PROGRESS None (-1) None)
  end.

Definition set_write_fd (dt : DeathTest) (fd : Z) : DeathTest :=
  mkDeathTest (class_ dt) (statement_ dt) (matcher_ dt) (spawned_ dt) (status_ dt) (outcome_ dt)
    (read_fd_ dt) fd (child_ dt).
(** [set_child_pid], [set_read_fd] and [set_spawned]. *)
Definition set_child (dt : DeathTest) (c : child) : DeathTest :=
  mkDeathTest (class_ dt) (statement_ dt) (matcher_ dt) true (status_ dt) (outcome_ dt)
    (Some (pipe_ c)) (write_fd_ dt) (Some c).
(** [set_outcome] and [set_read_fd(-1)]. *)
Definition set_outcome (dt : DeathTest) (o : DeathTestOutcome) : DeathTest :=
  mkDeathTest (class_ dt) (statement_ dt) (matcher_ dt) (spawned_ dt) (status_ dt) o None
    (write_fd_ dt) (child_ dt).
Definition set_status (dt : DeathTest) (status : Z) : DeathTest :=
  mkDeathTest (class_ dt) (statement_ dt) (matcher_ dt) (spawned_ dt) status (outcome_ dt)
    (read_fd_ dt) (write_fd_ dt) (child_ dt).

(** [~DeathTestImpl]. *)
Definition destroy (dt : DeathTest) : P unit :=
  GTEST_DEATH_TEST_CHECK_ 418 (str "read_fd_ == -1") (match read_fd_ dt with None => true | Some _ => false end).

(** The status byte of the child, or the end of the pipe. *)
Definition interpret_status_byte (bytes_read : read) (pipe : list read) : P DeathTestOutcome :=
  match bytes_read with
  | bytes [] => ret DIED
  | bytes (flag :: _) =>
      if bool_decide (flag = kDeathTestReturned) then ret RETURNED
      else if bool_decide (flag = kDeathTestThrew) then ret THREW
      else if bool_decide (flag = kDeathTestLived) then ret LIVED
      else if bool_decide (flag = kDeathTestInternalError) then FailFromInternalError pipe
      else LOG_FATAL 499 (str "Death test child process reported " ++ str "unexpected status byte (" ++
                          dec (scode flag mod 2 ^ 32) ++ str ")")
  | minus_one errno =>
      LOG_FATAL 504 (str "Read from death test child process failed: " ++ GetLastErrnoDescription errno)
  end.

(** Where the descriptor is -1, [read] fails. *)
Definition ReadAndInterpretStatusByte (dt : DeathTest) : P DeathTest :=
  r ⇐ lift (read_status_byte (default [minus_one EBADF] (read_fd_ dt))) ;;
  let '(bytes_read, pipe) := r in
  o ⇐ interpret_status_byte bytes_read pipe ;;
  GTEST_DEATH_TEST_CHECK_SYSCALL_ 507 (str "posix::Close(read_fd())") ;;;
  ret (set_outcome dt o).

(** [DeathTestImpl::Abort]: a byte for the parent, and [_Exit]. *)
Definition DeathTestImpl_Abort {A} (reason : AbortReason) : P A :=
  let status_ch := match reason with
                   | TEST_DID_NOT_DIE => kDeathTestLived
                   | TEST_THREW_EXCEPTION => kDeathTestThrew
                   | TEST_ENCOUNTERED_RETURN_STATEMENT => kDeathTestReturned
                   end in
  GTEST_DEATH_TEST_CHECK_SYSCALL_ 525 (str "posix::Write(write_fd(), &status_ch, 1)") ;;;
  write_pipe [status_ch] ;;;
  end_ (exited 1).

Definition GetErrorLogs (dt : DeathTest) : text := default [] (captured_stderr <$> child_ dt).

Definition DeathTestImpl_Passed (dt : DeathTest) (status_ok : bool) : P bool :=
  if negb (spawned_ dt) then ret false
  else
    let error_message := GetErrorLogs dt in
    let buffer := str "Death test: " ++ statement_ dt ++ [LF] in
    output ⇐ lift (FormatDeathTestOutput error_message) ;;
    r ⇐ match outcome_ dt with
        | LIVED => ret (false, str "    Result: failed to die." ++ [LF] ++ str " Error msg:" ++ [LF] ++ output)
        | THREW => ret (false, str "    Result: threw an exception." ++ [LF] ++
                               str " Error msg:" ++ [LF] ++ output)
        | RETURNED => ret (false, str "    Result: illegal return in test statement." ++ [LF] ++
                                  str " Error msg:" ++ [LF] ++ output)
        | DIED =>
            if status_ok then
              matches ⇐ lift (Matches (matcher_ dt) error_message) ;;
              if matches : bool then ret (true, [])
              else ret (false, str "    Result: died but not with expected error." ++ [LF] ++
                               str "  Expected: " ++ describes (matcher_ dt) ++ [LF] ++
                               str "Actual msg:" ++ [LF] ++ output)
            else ret (false, str "    Result: died but not with expected exit code:" ++ [LF] ++
                             str "            " ++ ExitSummary (status_ dt) ++ [LF] ++
                             str "Actual msg:" ++ [LF] ++ output)
        | IN_PROGRESS => LOG_FATAL 622 (str "DeathTest::Passed somehow called before conclusion of test")
        end ;;
    let '(success, result) := r in
    set_last_death_test_message (StringStreamToString (buffer ++ result)) ;;;
    ret success.

(** [ForkingDeathTest::Wait]. *)
Definition Wait (dt : DeathTest) : P (Z * DeathTest) :=
  if negb (spawned_ dt) then ret (0, dt)
  else
    dt ⇐ ReadAndInterpretStatusByte dt ;;
    GTEST_DEATH_TEST_CHECK_SYSCALL_ 1085 (str "waitpid(child_pid_, &status_value, 0)") ;;;
    let status_value := default 0 (status_value <$> child_ dt) in
    ret (status_value, set_status dt status_value).

(** ** Taking a role

    [executes] is what the process does with the role [EXECUTE_TEST]: in the fast
    style the copy goes on with it. *)

Definition NoExecDeathTest_AssumeRole (executes : DeathTest -> P Empty_set) (dt : DeathTest)
    : P (TestRole * DeathTest) :=
  let thread_count := thread_count_ sys in
  (if negb (thread_count =? 1) then LOG_WARNING 1104 (DeathTestThreadWarning thread_count) else ret tt) ;;;
  GTEST_DEATH_TEST_CHECK_ 1108 (str "pipe(pipe_fd) != -1") (succeeds sys 1108) ;;;
  set_last_death_test_message [] ;;;
  GTEST_DEATH_TEST_CHECK_ 1122 (str "child_pid != -1") (succeeds sys 1122) ;;;
  c ⇐ fork_ (GTEST_DEATH_TEST_CHECK_SYSCALL_ 1125 (str "close(pipe_fd[0])") ;;;
             enter_fast_child ;;;
             executes (set_write_fd dt (pipe_write_fd sys))) ;;
  GTEST_DEATH_TEST_CHECK_SYSCALL_ 1137 (str "close(pipe_fd[1])") ;;;
  ret (OVERSEE_TEST, set_child dt c).

(** The child of a threadsafe death test until the program starts again. *)
Definition ExecDeathTestChildMain (argv : list text) : P child :=
  GTEST_DEATH_TEST_CHECK_SYSCALL_ 1187 (str "close(args->close_fd)") ;;;
  let original_dir := original_working_dir sys in
  match errnos sys 1195 with
  | errno :: _ =>
      DeathTestAbort (str "chdir(" ++ ["034"%char] ++ original_dir ++ ["034"%char] ++ str ") failed: " ++
                      GetLastErrnoDescription errno)
  | [] =>
      match errnos sys 1206 with
      | errno :: _ =>
          DeathTestAbort (str "execv(" ++ default [] (head argv) ++ str ", ...) in " ++ original_dir ++
                          str " failed: " ++ GetLastErrnoDescription errno)
      | [] => lift (exec sys (map c_str argv))
      end
  end.

(** [clone] or [fork] with [ExecDeathTestChildMain]. *)
Definition start_child (argv : list text) : P child := fun st =>
  '(st', r) ← ExecDeathTestChildMain argv (mkProcess (flags_ st) (internal_run_death_test_flag_ st)
      (current_test_info_ st) (last_death_test_message_ st) (g_in_fast_death_test_child st)
      (forward_events st) [] []);
  Ok (st, inl (match r with inl c => c | inr e => child_of st' e end)).

Definition kMaxStackAlignment : Z := 64.

(** With [clone], on a stack of its own. *)
Definition clone_child (argv : list text) : P child :=
  let stack_size := page_size sys * 2 in
  GTEST_DEATH_TEST_CHECK_ 1313 (str "stack != MAP_FAILED") (succeeds sys 1313) ;;;
  let stack_top := mmap_address sys +
                   (if stack_grows_down sys then stack_size - kMaxStackAlignment else 0) in
  GTEST_DEATH_TEST_CHECK_ 1325
    (str "static_cast<size_t>(stack_size) > kMaxStackAlignment && " ++
     str "reinterpret_cast<uintptr_t>(stack_top) % kMaxStackAlignment == 0")
    ((kMaxStackAlignment <? stack_size) && (stack_top mod kMaxStackAlignment =? 0)) ;;;
  child_pid ⇐ start_child argv ;;
  GTEST_DEATH_TEST_CHECK_ 1331 (str "munmap(stack, stack_size) != -1") (succeeds sys 1331) ;;;
  ret child_pid.

Definition ExecDeathTestSpawnChild (argv : list text) : P child :=
  GTEST_DEATH_TEST_CHECK_SYSCALL_ 1300
    (str "sigaction(SIGPROF, &ignore_sigprof_action, &saved_sigprof_action)") ;;;
  use_fork ⇐ get (fun st => bools (flags_ st) Flag.death_test_use_fork) ;;
  child_pid ⇐ (if negb use_fork then clone_child argv else start_child argv) ;;
  GTEST_DEATH_TEST_CHECK_SYSCALL_ 1342 (str "sigaction(SIGPROF, &saved_sigprof_action, nullptr)") ;;;
  GTEST_DEATH_TEST_CHECK_ 1346 (str "child_pid != -1") (succeeds sys 1346) ;;;
  ret child_pid.

Definition filter_argument (suite name : text) : text :=
  str "--" ++ GTEST_FLAG_PREFIX_ ++ str "filter=" ++ suite ++ str "." ++ name.
Definition internal_argument (file : text) (line index fd : Z) : text :=
  str "--" ++ GTEST_FLAG_PREFIX_ ++ str "internal_run_death_test=" ++ file ++ str "|" ++ dec line ++
  str "|" ++ dec index ++ str "|" ++ dec fd.

(** [argvs] is [GetInjectableArgvs()]: the arguments of this process. *)
Definition ExecDeathTest_AssumeRole (argvs : list text) (file_ : text) (line_ : Z) (dt : DeathTest)
    : P (TestRole * DeathTest) :=
  flag ⇐ get internal_run_death_test_flag_ ;;
  info ⇐ get current_test_info_ ;;
  info ⇐ lift (or_fault InvalidDeref info) ;;
  let death_test_index := death_test_count_ (result_ info) in
  match flag with
  | Some flag => ret (EXECUTE_TEST, set_write_fd dt (flag_write_fd flag))
  | None =>
      GTEST_DEATH_TEST_CHECK_ 1367 (str "pipe(pipe_fd) != -1") (succeeds sys 1367) ;;;
      GTEST_DEATH_TEST_CHECK_ 1370 (str "fcntl(pipe_fd[1], F_SETFD, 0) != -1") (succeeds sys 1370) ;;;
      let args := argvs ++ [filter_argument (test_suite_name_ info) (test_name_ info);
                            internal_argument file_ line_ death_test_index (pipe_write_fd sys)] in
      set_last_death_test_message [] ;;;
      c ⇐ ExecDeathTestSpawnChild args ;;
      GTEST_DEATH_TEST_CHECK_SYSCALL_ 1393 (str "close(pipe_fd[1])") ;;;
      ret (OVERSEE_TEST, set_child dt c)
  end.

Definition AssumeRole (argvs : list text) (executes : DeathTest -> P Empty_set) (dt : DeathTest)
    : P (TestRole * DeathTest) :=
  match class_ dt with
  | ExecDeathTest file_ line_ => ExecDeathTest_AssumeRole argvs file_ line_ dt
  | NoExecDeathTest => NoExecDeathTest_AssumeRole executes dt
  end.

(** ** The factory *)

Definition increment_death_test_count (info : TestInfo) : outcome TestInfo :=
  let r := result_ info in
  n ← iadd (death_test_count_ r) 1;
  Ok (with_result info (mkTestResult (test_part_results_ r) (test_properties_ r) n (start_timestamp_ r)
                          (elapsed_time_ r))).

(** [DefaultDeathTestFactory::Create]: false, no test, or a test. *)
Definition Create (statement : text) (matcher : Matcher text) (file : text) (line : Z)
    : P (bool * option DeathTest) :=
  flag ⇐ get internal_run_death_test_flag_ ;;
  info ⇐ get current_test_info_ ;;
  info ⇐ lift (or_fault InvalidDeref info) ;;
  info ⇐ lift (increment_death_test_count info) ;;
  set_current_test_info info ;;;
  let death_test_index := death_test_count_ (result_ info) in
  let make :=
    style ⇐ get (fun st => strings (flags_ st) Flag.death_test_style) ;;
    if bool_decide (style = str "threadsafe") then
      dt ⇐ new_DeathTest (ExecDeathTest file line) statement matcher ;; ret (true, Some dt)
    else if bool_decide (style = str "fast") then
      dt ⇐ new_DeathTest NoExecDeathTest statement matcher ;; ret (true, Some dt)
    else
      set_last_death_test_message (str "Unknown death test style " ++ ["034"%char] ++ style ++ ["034"%char] ++
                                   str " encountered") ;;;
      ret (false, None) in
  match flag with
  | None => make
  | Some flag =>
      if flag_index flag <? death_test_index then
        set_last_death_test_message (str "Death test count (" ++ dec death_test_index ++
                                     str ") somehow exceeded expected maximum (" ++ dec (flag_index flag) ++
                                     str ")") ;;;
        ret (false, None)
      else if bool_decide (flag_file flag = file) && (flag_line flag =? line) &&
              (flag_index flag =? death_test_index)
      then make
      else ret (true, None)
  end.

(** ** The macro

    What the statement does when it is executed: what it writes to stderr and
    how it comes to its end; an exception of the standard library has a text. *)

Inductive finish : Type :=
  | dies (e : ending)
  | completes
  | returns_
  | throws (what : option text).

Record DeathTestStatement : Type := mkDeathTestStatement {
  statement : text; predicate : Z -> bool; matcher : Matcher text; file : text; line : Z;
  error_output : text; finishes : finish }.

(** [GTEST_EXECUTE_DEATH_TEST_STATEMENT_] under a [ReturnSentinel], then
    [Abort(TEST_DID_NOT_DIE)]. *)
Definition execute_statement (s : DeathTestStatement) (dt : DeathTest) : P Empty_set :=
  write_stderr (error_output s) ;;;
  match finishes s with
  | dies e => end_ e
  | completes => DeathTestImpl_Abort TEST_DID_NOT_DIE
  | returns_ => DeathTestImpl_Abort TEST_ENCOUNTERED_RETURN_STATEMENT
  | throws (Some what) =>
      write_stderr ([LF] ++ FormatFileLocation (Some (file s)) (line s) ++
                    str ": Caught std::exception-derived exception escaping the " ++
                    str "death test statement. Exception message: " ++ c_str what ++ [LF]) ;;;
      DeathTestImpl_Abort TEST_THREW_EXCEPTION
  | throws None => DeathTestImpl_Abort TEST_THREW_EXCEPTION
  end.

(** The case [OVERSEE_TEST] of the macro. *)
Definition oversee (s : DeathTestStatement) (gtest_dt : DeathTest) : P (option text) :=
  r ⇐ Wait gtest_dt ;;
  let '(status, gtest_dt) := r in
  passed ⇐ DeathTestImpl_Passed gtest_dt (predicate s status) ;;
  destroy gtest_dt ;;;
  if passed : bool then ret None else message ⇐ LastMessage ;; ret (Some message).

(** [GTEST_DEATH_TEST_]: the message of the failure, if it fails. *)
Definition GTEST_DEATH_TEST_ (argvs : list text) (s : DeathTestStatement) : P (option text) :=
  r ⇐ Create (statement s) (matcher s) (file s) (line s) ;;
  let '(created, gtest_dt) := r in
  if negb created then message ⇐ LastMessage ;; ret (Some message)
  else match gtest_dt with
       | None => ret None
       | Some gtest_dt =>
           r ⇐ AssumeRole argvs (execute_statement s) gtest_dt ;;
           let '(role, gtest_dt) := r in
           match role with
           | OVERSEE_TEST => oversee s gtest_dt
           | EXECUTE_TEST => never ⇐ execute_statement s gtest_dt ;; match never with end
           end
       end.

(** ** A test program *)

(** The body of a test: other code, which writes to stderr, and death tests,
    fatal ones ([ASSERT_EXIT], [ASSERT_DEATH]) or not. *)
Inductive item : Type :=
  | code_ (output : text)
  | death_test (fatal : bool) (s : DeathTestStatement).

Fixpoint run_body (argvs : list text) (body : list item) : P (list (option text)) :=
  match body with
  | [] => ret []
  | code_ output :: body => write_stderr output ;;; run_body argvs body
  | death_test fatal s :: body =>
      message ⇐ GTEST_DEATH_TEST_ argvs s ;;
      if fatal && bool_decide (message <> None) then ret [message]
      else messages ⇐ run_body argvs body ;; ret (message :: messages)
  end.

End processes.

(** EXPECT_EXIT and its kin; [at_] is where the macro stands and [does] what its
    statement does. *)
Section macros.
Context (statement : text) (predicate : Z -> bool) (matcher : Matcher text) (at_ : text * Z)
  (does : text * finish).

Definition EXIT (fatal : bool) : item :=
  death_test fatal (mkDeathTestStatement statement predicate matcher at_.1 at_.2 does.1 does.2).
Definition EXPECT_EXIT : item := EXIT false.
Definition ASSERT_EXIT : item := EXIT true.
End macros.
Definition EXPECT_DEATH (statement : text) := EXPECT_EXIT statement ExitedUnsuccessfully.
Definition ASSERT_DEATH (statement : text) := ASSERT_EXIT statement ExitedUnsuccessfully.

(** [MakeDeathTestMatcher] of a regular expression; [partial_match] is what the
    regular expressions of the system find. *)
Definition MakeDeathTestMatcher `{!Printable text} (regex : text) (partial_match : text -> bool) : Matcher text :=
  Make.ContainsRegex regex (fun _ => false) partial_match.

(** [InitDeathTestSubprocessControlInfo] and [SuppressTestEventsIfInSubprocess]. *)
Definition InitDeathTestSubprocessControlInfo (dumps_core : bool) : P unit := fun st =>
  let with_flag flag :=
    mkProcess (flags_ st) flag (current_test_info_ st) (last_death_test_message_ st)
      (g_in_fast_death_test_child st) (forward_events st && bool_decide (flag = None)) (to_parent st)
      (stderr_ st) in
  match ParseInternalRunDeathTestFlag (flags_ st) with
  | Ok flag => Ok (with_flag flag, inl tt)
  | Err ProcessExit =>
      DeathTestAbort dumps_core (str "Bad --gtest_internal_run_death_test flag: " ++
                                 strings (flags_ st) Flag.internal_run_death_test) st
  | Err f => Err f
  end.

(** The environment of the properties: the least program around a death test, with
    one test.  It parses its command line, runs the test if the filter selects it,
    and returns 1 if it has failed.  It stands for no code of its own and leaves out
    what RUN_ALL_TESTS() does beyond that (list_tests, repetition, sharding, which a
    child ignores, and disabled tests); these are in Runner.v. *)
Section program.
Variables (FILE : text) (dumps_core : bool) (getenv : text -> option text)
  (read_file : text -> option text) (info : TestInfo) (body : list item).

Definition start (fl : Flags) : process := mkProcess fl None None [] false true [] [].

Definition program (sys : System) (argv : list text)
    : outcome (process * (list (option text) + ending)) :=
  '(_, _, cmd) ← ParseGoogleTestFlagsOnly read_file (length argv) (argv_of argv 0)
                   (mkCmdState (initial_flags getenv) false []);
  let fl := flags cmd in
  (InitDeathTestSubprocessControlInfo dumps_core ;;;
   if g_help_flag cmd ||
      negb (FilterMatchesTest (strings fl Flag.filter) (test_suite_name_ info) (test_name_ info))
   then ret []
   else set_current_test_info info ;;; run_body FILE dumps_core sys argv body) (start fl).

(** What the process that started the program sees: [main] returns 1 if the test
    has failed. *)
Definition run_program (sys : System) (argv : list text) : outcome child :=
  '(st, r) ← program sys argv;
  let e := match r with
           | inl messages => exited (if existsb (fun m => bool_decide (m <> None)) messages then 1 else 0)
           | inr e => e
           end in
  Ok (child_of sys st e).

Definition with_exec (sys : System) (exec : list text -> outcome child) : System :=
  mkSystem (errnos sys) (succeeds sys) (strerror sys) (thread_count_ sys) (pipe_write_fd sys)
    (delivers sys) (page_size sys) (mmap_address sys) (stack_grows_down sys)
    (original_working_dir sys) exec.

(** The system on which [execv] starts this program; what it starts does not
    start it once more. *)
Definition executing (sys : System) : System :=
  with_exec sys (run_program (with_exec sys (fun _ => Err Diverges))).
End program.

(** ** What death tests mean *)

(** The stderr of the child that executes the statement, what it writes to the
    pipe and how it ends. *)
Definition child_output (s : DeathTestStatement) : text :=
  error_output s ++
  match finishes s with
  | throws (Some what) =>
      [LF] ++ FormatFileLocation (Some (file s)) (line s) ++
      str ": Caught std::exception-derived exception escaping the " ++
      str "death test statement. Exception message: " ++ c_str what ++ [LF]
  | _ => []
  end.
Definition child_byte (s : DeathTestStatement) : text :=
  match finishes s with
  | dies _ => [] | completes => str "L" | returns_ => str "R" | throws _ => str "T"
  end.
Definition child_ending (s : DeathTestStatement) : ending :=
  match finishes s with dies e => e | _ => exited 1 end.

(** Each line of the output with its mark. *)
Definition marked (output : text) : text :=
  join [LF] (map (fun l => str "[  DEATH   ] " ++ l) (SplitString output LF)).

(** The statement ends its process with an accepted status, and what its process
    has written to stderr matches. *)
Definition dies_as_expected (s : DeathTestStatement) (err : text) : Prop :=
  exists e, finishes s = dies e /\ predicate s (wait_status e) = true /\ Matches (matcher s) err = Ok true.

(** The message of a death test whose child has written [err], and whether it
    has passed. *)
Definition judge (s : DeathTestStatement) (err : text) : bool * text :=
  let result phrase actual := phrase ++ [LF] ++ actual ++ [LF] ++ marked err in
  let '(success, r) :=
    match finishes s with
    | completes => (false, result (str "    Result: failed to die.") (str " Error msg:"))
    | throws _ => (false, result (str "    Result: threw an exception.") (str " Error msg:"))
    | returns_ => (false, result (str "    Result: illegal return in test statement.") (str " Error msg:"))
    | dies e =>
        if predicate s (wait_status e) then
          match Matches (matcher s) err with
          | Ok true => (true, [])
          | _ => (false, result (str "    Result: died but not with expected error." ++ [LF] ++
                                 str "  Expected: " ++ describes (matcher s)) (str "Actual msg:"))
          end
        else (false, result (str "    Result: died but not with expected exit code:" ++ [LF] ++
                             str "            " ++ ExitSummary (wait_status e)) (str "Actual msg:"))
    end in
  (success, StringStreamToString ((str "Death test: " ++ statement s ++ [LF]) ++ r)).

Definition verdict (s : DeathTestStatement) (err : text) : option text :=
  let '(success, message) := judge s err in if success then None else Some (c_str message).

(** The death tests of a body; [before] is what the code before them has written.
    The child of a threadsafe death test writes it again. *)
Definition stderr_before (style before : text) : text :=
  if bool_decide (style = str "threadsafe") then before else [].
Fixpoint verdicts (style before : text) (body : list item) : list (option text) :=
  match body with
  | [] => []
  | code_ output :: body => verdicts style (before ++ output) body
  | death_test fatal s :: body =>
      let message := verdict s (stderr_before style before ++ child_output s) in
      if fatal && bool_decide (message <> None) then [message]
      else message :: verdicts style before body
  end.

(** *** The system works: calls may be interrupted, but succeed in the end *)

(** What the calls of [read] return for a pipe with these bytes whose other end
    gets closed. *)
Inductive carries : list read -> text -> Prop :=
  | carries_end pipe : carries (bytes [] :: pipe) []
  | carries_interrupted pipe out : carries pipe out -> carries (minus_one EINTR :: pipe) out
  | carries_bytes b pipe out : b <> [] -> carries pipe out -> carries (bytes b :: pipe) (b ++ out).

Record reliable (sys : System) : Prop := {
  reliable_errnos line : Forall (eq EINTR) (errnos sys line);
  reliable_exec : errnos sys 1195 = [] /\ errnos sys 1206 = [];
  reliable_succeeds line : succeeds sys line = true;
  reliable_stack : kMaxStackAlignment < page_size sys * 2 /\
    (mmap_address sys + (if stack_grows_down sys then page_size sys * 2 - kMaxStackAlignment else 0))
      mod kMaxStackAlignment = 0;
  reliable_fd : 0 <= pipe_write_fd sys <= INT_MAX;
  reliable_pipe out : carries (delivers sys out) out }.

(** *** What can be asked of a body *)

Definition death_tests (body : list item) : Z :=
  zsum (fun i => match i with death_test _ _ => 1 | code_ _ => 0 end) body.
Definition outputs (body : list item) : text :=
  mjoin (map (fun i => match i with code_ output => output | death_test _ _ => [] end) body).

Lemma death_tests_code output body : death_tests (code_ output :: body) = death_tests body.
Proof. done. Qed.
Lemma death_tests_cons fatal s body : death_tests (death_test fatal s :: body) = 1 + death_tests body.
Proof. done. Qed.
Lemma death_tests_app a b : death_tests (a ++ b) = death_tests a + death_tests b.
Proof. apply zsum_app. Qed.
Lemma outputs_app a b : outputs (a ++ b) = outputs a ++ outputs b.
Proof. unfold outputs. by rewrite map_app, join_app. Qed.
Lemma death_tests_nonneg body : 0 <= death_tests body.
Proof. apply zsum_nonneg, Forall_forall. by intros []. Qed.

(** The place can be told to the child, and the matcher decides. *)
Definition sane (i : item) : Prop :=
  match i with
  | code_ _ => True
  | death_test _ s =>
      ("|"%char ∉ file s) /\ (NUL ∉ file s) /\ (0 <= line s <= INT_MAX)%Z /\
      (forall err, exists b, Matches (matcher s) err = Ok b)
  end.

(** ** The status *)

Definition valid_ending (e : ending) : Prop :=
  match e with exited _ => True | signaled signum _ => 0 < signum < 127 end.

Lemma all_bytes (p : Z -> bool) n :
  forallb p (map Z.of_nat (seq 0 n)) = true -> forall x, 0 <= x < Z.of_nat n -> p x = true.
Proof.
  rewrite forallb_forall. intros H x Hx. apply H, in_map_iff. exists (Z.to_nat x).
  rewrite in_seq. lia.
Qed.

(** The fields of a status: whether it is an exit, the code, whether it is a
    signal, the signal, and a dump. *)
Definition fields (status : Z) : bool * Z * bool * Z * bool :=
  (WIFEXITED status, WEXITSTATUS status, WIFSIGNALED status, WTERMSIG status, WCOREDUMP status).

Lemma fields_exited exit_code :
  fields (wait_status (exited exit_code)) = (true, exit_code mod 256, false, 0, false).
Proof.
  cbn [wait_status]. change 255 with (Z.ones 8). rewrite Z.land_ones by lia.
  change (2 ^ 8) with 256. pose proof (Z.mod_pos_bound exit_code 256 ltac:(lia)) as Hx.
  revert Hx. generalize (exit_code mod 256). intros x Hx.
  pose (p x := bool_decide (fields (Z.shiftl x 8) = (true, x, false, 0, false))).
  assert (Hp : p x = true) by (apply (all_bytes p 256); [vm_compute; reflexivity | done]).
  by apply bool_decide_eq_true in Hp.
Qed.

Lemma fields_signaled signum core :
  0 < signum < 127 ->
  exists code, fields (wait_status (signaled signum core)) = (false, code, true, signum, core).
Proof.
  intros H. cbn [wait_status]. exists 0.
  pose (p x := (x =? 0) || bool_decide (fields (Z.lor x (if core then 128 else 0)) =
                                        (false, 0, true, x, core))).
  assert (Hp : p signum = true)
    by (apply (all_bytes p 127); [destruct core; vm_compute; reflexivity | lia]).
  subst p. cbv beta in Hp. apply orb_true_iff in Hp as [Hp|Hp]; [lia|].
  by apply bool_decide_eq_true in Hp.
Qed.

(** What the predicates say of a process that has ended. *)
Lemma predicates_wait_status e :
  valid_ending e ->
  (forall c, 0 <= c < 256 ->
     ExitedWithCode c (wait_status e) = true <-> exists exit_code, e = exited exit_code /\ exit_code mod 256 = c) /\
  (forall signum, KilledBySignal signum (wait_status e) = true <-> exists core, e = signaled signum core) /\
  (ExitedUnsuccessfully (wait_status e) = true <->
     forall exit_code, e = exited exit_code -> exit_code mod 256 <> 0).
Proof.
  unfold ExitedUnsuccessfully, ExitedWithCode, KilledBySignal. intros Hv.
  destruct e as [code|signum core].
  - pose proof (fields_exited code) as E. revert E. generalize (wait_status (exited code)).
    intros w [= E1 E2 E3 E4 _].
    rewrite E1, E2, E3, negb_true_iff. cbn [andb]. split_and!.
    + intros c Hc. rewrite Z.eqb_eq. naive_solver.
    + naive_solver.
    + rewrite Z.eqb_neq. naive_solver.
  - destruct (fields_signaled signum core Hv) as (c & E). revert E.
    generalize (wait_status (signaled signum core)). intros w [= E1 E2 E3 E4 _].
    rewrite E1, E3, E4. cbn [andb negb]. split_and!; [naive_solver| |naive_solver].
    intros s. rewrite Z.eqb_eq. naive_solver.
Qed.

Lemma ExitSummary_wait_status e :
  valid_ending e ->
  ExitSummary (wait_status e) =
  match e with
  | exited exit_code => str "Exited with exit status " ++ dec (exit_code mod 256)
  | signaled signum core => str "Terminated by signal " ++ dec signum ++
                            (if core then str " (core dumped)" else [])
  end.
Proof.
  intros Hv. unfold ExitSummary. destruct e as [code|signum core].
  - pose proof (fields_exited code) as E. revert E. generalize (wait_status (exited code)).
    intros w [= E1 E2 E3 E4 E5]. rewrite E1, E2, E5. by rewrite app_nil_r.
  - destruct (fields_signaled signum core Hv) as (c & E). revert E.
    generalize (wait_status (signaled signum core)). intros w [= E1 E2 E3 E4 E5].
    rewrite E1, E3, E4, E5. by rewrite <- app_assoc.
Qed.

(** ** Marked lines *)

Lemma find_char_split d s :
  match find_char d s with
  | None => SplitString s d = [s]
  | Some i => take (S i) s = take i s ++ [d] /\
              SplitString s d = take i s :: SplitString (drop (S i) s) d /\ (i < length s)%nat
  end.
Proof.
  induction s as [|c s IH]; simpl; [done|]. case_bool_decide as Hc; [subst; split_and!; [done..|lia]|].
  destruct (find_char d s) as [i|]; simpl in IH |- *.
  - destruct IH as (-> & -> & ?). split_and!; [done..|lia].
  - by rewrite IH.
Qed.

Lemma FormatDeathTestOutput_marked output : FormatDeathTestOutput output = Ok (marked output).
Proof.
  unfold FormatDeathTestOutput, marked.
  assert (H : (length output < S (length output))%nat) by lia. revert H.
  generalize (S (length output)) as fuel. intros fuel. revert output.
  induction fuel as [|fuel IH]; intros output Hf; [lia|]. cbn [FormatDeathTestOutput_loop].
  pose proof (find_char_split LF output) as Hs. destruct (find_char LF output) as [i|].
  - destruct Hs as (-> & -> & Hi). rewrite IH, bind_ok by (rewrite length_drop; lia).
    cbn [map]. pose proof (SplitString_nonempty (drop (S i) output) LF) as Hne.
    destruct (SplitString _ LF) as [|p ps]; [done|]. cbn [map join]. by rewrite <- !app_assoc.
  - by rewrite Hs.
Qed.

(** ** Pipes *)

Lemma read_status_byte_carries pipe out :
  carries pipe out ->
  exists pipe', read_status_byte pipe = Ok (bytes (take 1 out), pipe') /\
    (out <> [] -> carries pipe' (drop 1 out)).
Proof.
  induction 1 as [pipe|pipe out H IH|b pipe out Hb H _]; [by eexists|exact IH|].
  destruct b as [|c b]; [done|]. cbn [read_status_byte posix_Read app take drop].
  eexists. split; [done|]. intros _. destruct b as [|d b]; [done|]. by apply carries_bytes.
Qed.

(** The whole message of an internal error is read, in whatever pieces it comes. *)
Lemma internal_error_loop_carries fuel error pipe out :
  carries pipe out -> NUL ∉ out -> (pipe_size pipe <= fuel)%nat ->
  internal_error_loop fuel error pipe = Ok (error ++ out, None).
Proof.
  revert error pipe out; induction fuel as [|fuel IH]; intros error pipe out H Hnul Hf.
  { destruct H; simpl in Hf; lia. }
  destruct H as [pipe|pipe out H|b pipe out Hb H]; cbn [internal_error_loop posix_Read].
  - by rewrite bind_ok, app_nil_r.
  - rewrite bind_ok. cbn. apply IH; [done..|simpl in Hf; lia].
  - destruct b as [|c b]; [done|]. rewrite bind_ok. cbn [take]. set (l := c :: take 254 b).
    assert (El : l = take 255 (c :: b)) by done. clearbody l.
    assert (Hl : NUL ∉ l).
    { subst l. intros Hin. apply Hnul, elem_of_app. left.
      rewrite <- (take_drop 255 (c :: b)). apply elem_of_app. by left. }
    assert (Hne : l <> []) by (by subst l).
    destruct l as [|c' l']; [done|]. rewrite c_str_id by done. rewrite El.
    destruct (Nat.leb_spec (length (c :: b)) 255) as [Hlen|Hlen].
    + rewrite take_ge by done. rewrite (IH _ pipe out); [by rewrite <- app_assoc|done|set_solver|].
      simpl in Hf. lia.
    + rewrite (IH _ _ (drop 255 (c :: b) ++ out)).
      * by rewrite <- app_assoc, (app_assoc (take _ _)), take_drop.
      * apply carries_bytes; [|done]. intros E. apply (f_equal length) in E.
        rewrite length_drop in E. simpl in E, Hlen. lia.
      * intros Hin. apply Hnul. rewrite <- (take_drop 255 (c :: b)), <- app_assoc. set_solver.
      * simpl in Hf, Hlen |- *. rewrite length_skipn. lia.
Qed.

(** ** Processes *)

Lemma bind_inl {A B} (m : P A) (k : A -> P B) st st' a :
  m st = Ok (st', inl a) -> bind m k st = k a st'.
Proof. intros H. unfold bind. by rewrite H, bind_ok. Qed.
Lemma bind_inr {A B} (m : P A) (k : A -> P B) st st' e :
  m st = Ok (st', inr e) -> bind m k st = Ok (st', inr e).
Proof. intros H. unfold bind. by rewrite H, bind_ok. Qed.

Lemma bind_ret {A B} (a : A) (k : A -> P B) st : bind (ret a) k st = k a st.
Proof. done. Qed.
Lemma bind_get {A B} (f : process -> A) (k : A -> P B) st : bind (get f) k st = k (f st) st.
Proof. done. Qed.
Lemma bind_modify {B} f (k : unit -> P B) st : bind (modify f) k st = k tt (f st).
Proof. done. Qed.

(** A process that has written to the pipe and to stderr. *)
Definition wrote (st : process) (out err : text) : process :=
  mkProcess (flags_ st) (internal_run_death_test_flag_ st) (current_test_info_ st)
    (last_death_test_message_ st) (g_in_fast_death_test_child st) (forward_events st)
    (to_parent st ++ out) (stderr_ st ++ err).

Lemma wrote_wrote st a b c d : wrote (wrote st a b) c d = wrote st (a ++ c) (b ++ d).
Proof. unfold wrote. cbn. by rewrite <- !app_assoc. Qed.
Lemma write_stderr_eq st err : write_stderr err st = Ok (wrote st [] err, inl tt).
Proof. unfold write_stderr, modify, wrote. by rewrite app_nil_r. Qed.
Lemma write_pipe_eq st out : write_pipe out st = Ok (wrote st out [], inl tt).
Proof. unfold write_pipe, modify, wrote. by rewrite app_nil_r. Qed.

Section correct.
Context (FILE : text) (dumps_core : bool) (sys : System) (Hsys : reliable sys).

Lemma check_syscall_ok line expression st :
  GTEST_DEATH_TEST_CHECK_SYSCALL_ FILE dumps_core sys line expression st = Ok (st, inl tt).
Proof.
  unfold GTEST_DEATH_TEST_CHECK_SYSCALL_. pose proof (reliable_errnos _ Hsys line) as H.
  induction H as [|errno l <- _ IH]; [done|exact IH].
Qed.

Lemma check_ok line expression b st :
  b = true -> GTEST_DEATH_TEST_CHECK_ FILE dumps_core line expression b st = Ok (st, inl tt).
Proof. by intros ->. Qed.

Lemma execute_statement_ends s dt st :
  execute_statement FILE dumps_core sys s dt st =
  Ok (wrote st (child_byte s) (child_output s), inr (child_ending s)).
Proof.
  assert (Habort : forall reason st, DeathTestImpl_Abort FILE dumps_core sys (A := Empty_set) reason st =
      Ok (wrote st [match reason with TEST_DID_NOT_DIE => "L"%char | TEST_THREW_EXCEPTION => "T"%char
                    | TEST_ENCOUNTERED_RETURN_STATEMENT => "R"%char end] [], inr (exited 1))).
  { intros reason st'. unfold DeathTestImpl_Abort.
    rewrite (bind_inl _ _ _ _ _ (check_syscall_ok _ _ _)), (bind_inl _ _ _ _ _ (write_pipe_eq _ _)).
    by destruct reason. }
  unfold execute_statement, child_byte, child_output, child_ending.
  rewrite (bind_inl _ _ _ _ _ (write_stderr_eq _ _)).
  destruct (finishes s) as [e| | |[what|]]; rewrite ?(bind_inl _ _ _ _ _ (write_stderr_eq _ _));
    rewrite ?Habort, ?wrote_wrote, ?app_nil_r; done.
Qed.

(** *** The parent *)

(** The last message of the death tests. *)
Definition said (st : process) (message : text) : process :=
  mkProcess (flags_ st) (internal_run_death_test_flag_ st) (current_test_info_ st) message
    (g_in_fast_death_test_child st) (forward_events st) (to_parent st) (stderr_ st).

(** A child that has executed the statement. *)
Definition reports (s : DeathTestStatement) (err : text) (c : child) : Prop :=
  carries (pipe_ c) (child_byte s) /\ captured_stderr c = err /\
  status_value c = wait_status (child_ending s).

(** How the death test concludes. *)
Definition conclusion (s : DeathTestStatement) : DeathTestOutcome :=
  match finishes s with dies _ => DIED | completes => LIVED | returns_ => RETURNED | throws _ => THREW end.

Lemma Wait_reports s err dt c st :
  reports s err c ->
  Wait FILE dumps_core sys (set_child dt c) st =
  Ok (st, inl (wait_status (child_ending s),
               set_status (set_outcome (set_child dt c) (conclusion s)) (wait_status (child_ending s)))).
Proof.
  intros (Hc & _ & Hs). unfold Wait. cbn [spawned_ set_child negb].
  assert (E : ReadAndInterpretStatusByte FILE dumps_core sys (set_child dt c) st =
              Ok (st, inl (set_outcome (set_child dt c) (conclusion s)))).
  { unfold ReadAndInterpretStatusByte. cbn [read_fd_ set_child default].
    destruct (read_status_byte_carries _ _ Hc) as (pipe' & Hr & _).
    assert (El : lift (read_status_byte (pipe_ c)) st = Ok (st, inl (bytes (take 1 (child_byte s)), pipe')))
      by (unfold lift; by rewrite Hr, bind_ok).
    assert (Ei : interpret_status_byte FILE dumps_core sys (bytes (take 1 (child_byte s))) pipe' st =
                 Ok (st, inl (conclusion s)))
      by (unfold conclusion, child_byte; by destruct (finishes s)).
    rewrite (bind_inl _ _ _ _ _ El), (bind_inl _ _ _ _ _ Ei).
    by rewrite (bind_inl _ _ _ _ _ (check_syscall_ok _ _ _)). }
  rewrite (bind_inl _ _ _ _ _ E), (bind_inl _ _ _ _ _ (check_syscall_ok _ _ _)).
  cbn [child_ set_outcome set_child fmap option_fmap option_map default]. by rewrite Hs.
Qed.

Lemma lift_ok {A} (o : outcome A) a st : o = Ok a -> lift o st = Ok (st, inl a).
Proof. by intros ->. Qed.

Lemma Passed_judges s err dt c st :
  reports s err c -> statement_ dt = statement s -> matcher_ dt = matcher s ->
  (exists b, Matches (matcher s) err = Ok b) ->
  let status := wait_status (child_ending s) in
  DeathTestImpl_Passed FILE dumps_core
    (set_status (set_outcome (set_child dt c) (conclusion s)) status) (predicate s status) st =
  Ok (said st (judge s err).2, inl (judge s err).1).
Proof.
  intros (_ & He & _) Hst Hm [b Hb] status. unfold DeathTestImpl_Passed, GetErrorLogs.
  cbn [set_status set_outcome set_child spawned_ negb child_ fmap option_fmap option_map default
       statement_ matcher_ outcome_ status_].
  rewrite He, Hst, Hm, (bind_inl _ _ _ _ _ (lift_ok _ _ _ (FormatDeathTestOutput_marked err))).
  unfold judge, conclusion. subst status. unfold child_ending.
  destruct (finishes s) as [e| | |what]; [|by (erewrite bind_inl; [|reflexivity])..].
  destruct (predicate s (wait_status e)); [|by erewrite bind_inl; [|reflexivity]].
  rewrite Hb. destruct b; by (erewrite bind_inl; [|by rewrite (bind_inl _ _ _ _ _ (lift_ok _ _ _ Hb))]).
Qed.

Lemma oversee_verdict s err dt c st :
  reports s err c -> statement_ dt = statement s -> matcher_ dt = matcher s ->
  (exists b, Matches (matcher s) err = Ok b) ->
  oversee FILE dumps_core sys s (set_child dt c) st = Ok (said st (judge s err).2, inl (verdict s err)).
Proof.
  intros Hc Hst Hm Hb. unfold oversee, verdict. rewrite (bind_inl _ _ _ _ _ (Wait_reports _ _ dt _ _ Hc)).
  rewrite (bind_inl _ _ _ _ _ (Passed_judges _ _ _ _ _ Hc Hst Hm Hb)).
  unfold destroy. rewrite (bind_inl _ _ _ _ _ (check_ok _ _ _ _ eq_refl)).
  by destruct (judge s err) as [[] message].
Qed.

Lemma verdict_None s err : verdict s err = None <-> dies_as_expected s err.
Proof.
  unfold verdict, judge, dies_as_expected.
  destruct (finishes s) as [e| | |what]; [|split; [done | by intros (? & ? & _)]..].
  destruct (predicate s (wait_status e)) eqn:E; [|split; [done | intros (? & [= <-] & Hp & _); congruence]].
  destruct (Matches (matcher s) err) as [[]|];
    (split; [try done; intros _; by exists e | try done; by intros (? & _ & _ & ?)]).
Qed.

(** The process in which the test runs, after [n] death tests. *)
Definition overseeing (info0 : TestInfo) (fl : Flags) (n : Z) (st : process) : Prop :=
  flags_ st = fl /\ internal_run_death_test_flag_ st = None /\
  exists info, current_test_info_ st = Some info /\ test_suite_name_ info = test_suite_name_ info0 /\
    test_name_ info = test_name_ info0 /\ death_test_count_ (result_ info) = n.

Lemma overseeing_said info0 fl n st message :
  overseeing info0 fl n st -> overseeing info0 fl n (said st message).
Proof. done. Qed.
Lemma overseeing_wrote info0 fl n st out err :
  overseeing info0 fl n st -> overseeing info0 fl n (wrote st out err).
Proof. done. Qed.

Definition style_class (style file : text) (line : Z) : death_test_class :=
  if bool_decide (style = str "threadsafe") then ExecDeathTest file line else NoExecDeathTest.

(** A death test before it has a role. *)
Definition fresh (s : DeathTestStatement) (style : text) : DeathTest :=
  mkDeathTest (style_class style (file s) (line s)) (statement s) (matcher s) false (-1) IN_PROGRESS None
    (-1) None.

Definition counted (info : TestInfo) : TestInfo :=
  let r := result_ info in
  with_result info (mkTestResult (test_part_results_ r) (test_properties_ r) (death_test_count_ r + 1)
                      (start_timestamp_ r) (elapsed_time_ r)).

Lemma increment_ok info n :
  death_test_count_ (result_ info) = n -> 0 <= n < INT_MAX ->
  increment_death_test_count info = Ok (counted info).
Proof.
  intros Hn Hlt. unfold increment_death_test_count.
  rewrite Hn, iadd_ok by (unfold INT_MIN, INT_MAX in *; lia). rewrite bind_ok. unfold counted. by rewrite Hn.
Qed.

Lemma Create_overseeing info0 fl n st s :
  let style := strings fl Flag.death_test_style in
  (style = str "threadsafe" \/ style = str "fast") ->
  overseeing info0 fl n st -> 0 <= n < INT_MAX ->
  exists st', Create dumps_core (statement s) (matcher s) (file s) (line s) st =
              Ok (st', inl (true, Some (fresh s style))) /\ overseeing info0 fl (n + 1) st'.
Proof.
  intros style Hstyle (Hf & Hflag & info & Hi & H1 & H2 & Hn) Hlt. unfold Create.
  rewrite bind_get, bind_get, Hflag, Hi. cbn [or_fault].
  rewrite (bind_inl _ _ _ _ _ (lift_ok _ _ _ eq_refl)).
  rewrite (bind_inl _ _ _ _ _ (lift_ok _ _ _ (increment_ok _ _ Hn ltac:(lia)))).
  unfold fresh, style_class, set_current_test_info, new_DeathTest. rewrite bind_modify, bind_get.
  cbn [flags_]. rewrite Hf. fold style.
  destruct Hstyle as [-> | ->]; (eexists; split; [reflexivity|]; split_and!; [done..|];
     exists (counted info); split_and!; [done..|cbn; lia]).
Qed.

(** The copy in the fast style executes the statement. *)
Lemma NoExecDeathTest_AssumeRole_oversees info0 fl n s dt st :
  overseeing info0 fl n st ->
  exists c st', NoExecDeathTest_AssumeRole FILE dumps_core sys (execute_statement FILE dumps_core sys s) dt st =
                Ok (st', inl (OVERSEE_TEST, set_child dt c)) /\
    reports s (child_output s) c /\ overseeing info0 fl n st'.
Proof.
  intros Hst. unfold NoExecDeathTest_AssumeRole.
  pose (st1 := wrote st [] (if negb (thread_count_ sys =? 1)
    then log_line FILE (str "[WARNING]") 1104 (DeathTestThreadWarning (thread_count_ sys)) else [])).
  assert (Hw : (if negb (thread_count_ sys =? 1)
                then LOG_WARNING FILE 1104 (DeathTestThreadWarning (thread_count_ sys)) else ret tt) st =
               Ok (st1, inl tt)).
  { subst st1. destruct (thread_count_ sys =? 1); cbn [negb]; [|apply write_stderr_eq].
    destruct st. unfold wrote, ret. cbn. by rewrite !app_nil_r. }
  rewrite (bind_inl _ _ _ _ _ Hw), (bind_inl _ _ _ _ _ (check_ok _ _ _ _ (reliable_succeeds _ Hsys _))).
  unfold set_last_death_test_message. rewrite bind_modify.
  rewrite (bind_inl _ _ _ _ _ (check_ok _ _ _ _ (reliable_succeeds _ Hsys _))).
  erewrite bind_inl.
  2:{ unfold fork_. rewrite (bind_inl _ _ _ _ _ (check_syscall_ok _ _ _)).
      unfold enter_fast_child. rewrite bind_modify, execute_statement_ends, bind_ok. reflexivity. }
  rewrite (bind_inl _ _ _ _ _ (check_syscall_ok _ _ _)). eexists _, _. split; [reflexivity|].
  split; [|exact Hst]. split_and!; [|done..]. apply (reliable_pipe _ Hsys).
Qed.

Lemma ExecDeathTestSpawnChild_starts args c st :
  exec sys (map c_str args) = Ok c ->
  ExecDeathTestSpawnChild FILE dumps_core sys args st = Ok (st, inl c).
Proof.
  intros Hc. unfold ExecDeathTestSpawnChild. rewrite (bind_inl _ _ _ _ _ (check_syscall_ok _ _ _)), bind_get.
  assert (Hs : start_child FILE dumps_core sys args st = Ok (st, inl c)).
  { unfold start_child, ExecDeathTestChildMain. rewrite (bind_inl _ _ _ _ _ (check_syscall_ok _ _ _)).
    destruct (reliable_exec _ Hsys) as [-> ->]. unfold lift. by rewrite Hc, !bind_ok. }
  assert (Hc' : clone_child FILE dumps_core sys args st = Ok (st, inl c)).
  { unfold clone_child. destruct (reliable_stack _ Hsys) as [Hk1%Z.ltb_lt Hk2%Z.eqb_eq].
    rewrite (bind_inl _ _ _ _ _ (check_ok _ _ _ _ (reliable_succeeds _ Hsys _))).
    rewrite (bind_inl _ _ _ _ _ (check_ok _ _ _ _ (proj2 (andb_true_iff _ _) (conj Hk1 Hk2)))).
    by rewrite (bind_inl _ _ _ _ _ Hs), (bind_inl _ _ _ _ _ (check_ok _ _ _ _ (reliable_succeeds _ Hsys _))). }
  erewrite bind_inl; [|by destruct (bools _ _); cbn [negb]].
  rewrite (bind_inl _ _ _ _ _ (check_syscall_ok _ _ _)).
  by rewrite (bind_inl _ _ _ _ _ (check_ok _ _ _ _ (reliable_succeeds _ Hsys _))).
Qed.

Lemma GTEST_DEATH_TEST_oversees info0 fl n st argvs s before :
  let style := strings fl Flag.death_test_style in
  let err := stderr_before style before ++ child_output s in
  (style = str "threadsafe" \/ style = str "fast") ->
  overseeing info0 fl n st -> 0 <= n < INT_MAX -> (exists b, Matches (matcher s) err = Ok b) ->
  (style = str "threadsafe" ->
   exists c, exec sys (map c_str (argvs ++ [filter_argument (test_suite_name_ info0) (test_name_ info0);
                internal_argument (file s) (line s) (n + 1) (pipe_write_fd sys)])) = Ok c /\
             reports s (before ++ child_output s) c) ->
  exists st', GTEST_DEATH_TEST_ FILE dumps_core sys argvs s st = Ok (st', inl (verdict s err)) /\
    overseeing info0 fl (n + 1) st'.
Proof.
  intros style err Hstyle Hst Hn Hm Hexec. unfold GTEST_DEATH_TEST_.
  destruct (Create_overseeing _ _ _ _ s Hstyle Hst Hn) as (st1 & Hc & Hst1).
  rewrite (bind_inl _ _ _ _ _ Hc). cbn [negb]. fold style in Hst1 |- *.
  assert (Hrole : exists c st2, AssumeRole FILE dumps_core sys argvs (execute_statement FILE dumps_core sys s)
      (fresh s style) st1 = Ok (st2, inl (OVERSEE_TEST, set_child (fresh s style) c)) /\
      reports s err c /\ overseeing info0 fl (n + 1) st2).
  { unfold AssumeRole, fresh, style_class, err, stderr_before. cbn [class_].
    case_bool_decide as Hs; [|by apply NoExecDeathTest_AssumeRole_oversees].
    destruct (Hexec Hs) as (c & Hx & Hc'). destruct Hst1 as (H1 & H2 & info & H3 & H4 & H5 & H6).
    unfold ExecDeathTest_AssumeRole. rewrite bind_get, bind_get, H2, H3. cbn [or_fault].
    rewrite (bind_inl _ _ _ _ _ (lift_ok _ _ _ eq_refl)).
    rewrite !(bind_inl _ _ _ _ _ (check_ok _ _ _ _ (reliable_succeeds _ Hsys _))).
    rewrite H4, H5, H6. unfold set_last_death_test_message. rewrite bind_modify.
    rewrite (bind_inl _ _ _ _ _ (ExecDeathTestSpawnChild_starts _ _ _ Hx)).
    rewrite (bind_inl _ _ _ _ _ (check_syscall_ok _ _ _)).
    eexists c, _. split; [reflexivity|]. split; [done|]. split_and!; [done..|by exists info]. }
  destruct Hrole as (c & st2 & Hr & Hc' & Hst2). rewrite (bind_inl _ _ _ _ _ Hr).
  rewrite (oversee_verdict s err (fresh s style) c st2 Hc' eq_refl eq_refl Hm).
  eexists. split; [done|]. exact Hst2.
Qed.

(** *** The child of a threadsafe death test *)

(** It looks for death test [k] and has met [n]. *)
Definition looking (file : text) (line k fd n : Z) (st : process) : Prop :=
  strings (flags_ st) Flag.death_test_style = str "threadsafe" /\
  internal_run_death_test_flag_ st = Some (mkInternalRunDeathTestFlag file line k fd) /\
  exists info, current_test_info_ st = Some info /\ death_test_count_ (result_ info) = n.

Lemma Create_looking s file_ line_ k fd n st :
  looking file_ line_ k fd n st -> 0 <= n < k -> k <= INT_MAX ->
  (k = n + 1 -> file s = file_ /\ line s = line_) ->
  exists st', Create dumps_core (statement s) (matcher s) (file s) (line s) st =
      Ok (st', inl (true, if decide (k = n + 1) then Some (fresh s (str "threadsafe")) else None)) /\
    looking file_ line_ k fd (n + 1) st' /\ to_parent st' = to_parent st /\ stderr_ st' = stderr_ st.
Proof.
  intros (Hs & Hf & info & Hi & Hn) Hlt Hk Hat. unfold Create.
  rewrite bind_get, bind_get, Hf, Hi. cbn [or_fault].
  rewrite (bind_inl _ _ _ _ _ (lift_ok _ _ _ eq_refl)).
  rewrite (bind_inl _ _ _ _ _ (lift_ok _ _ _ (increment_ok _ _ Hn ltac:(lia)))).
  unfold set_current_test_info. rewrite bind_modify.
  cbn [result_ with_result counted death_test_count_ flag_index flag_file flag_line].
  rewrite Hn, (proj2 (Z.ltb_ge k (n + 1))) by lia.
  case_decide as Hd.
  - destruct (Hat Hd) as [<- <-]. rewrite bool_decide_true, !(proj2 (Z.eqb_eq _ _)) by done. cbn [andb].
    unfold new_DeathTest. rewrite bind_get. cbn [flags_]. rewrite Hs.
    eexists. split; [reflexivity|]. split; [|done]. split_and!; [done..|].
    exists (counted info). cbn. auto with lia.
  - rewrite (proj2 (Z.eqb_neq _ _) Hd), andb_false_r.
    eexists. split; [reflexivity|]. split; [|done]. split_and!; [done..|].
    exists (counted info). cbn. auto with lia.
Qed.

(** The body of the child, from the start or after some of it. *)
Lemma run_body_executes argvs s fatal fd pre post n k st :
  looking (file s) (line s) k fd n st -> 0 <= n -> k = n + death_tests pre + 1 -> k <= INT_MAX ->
  exists st', run_body FILE dumps_core sys argvs (pre ++ death_test fatal s :: post) st =
      Ok (st', inr (child_ending s)) /\
    to_parent st' = to_parent st ++ child_byte s /\
    stderr_ st' = stderr_ st ++ outputs pre ++ child_output s.
Proof.
  revert n st; induction pre as [|[output|fatal' s'] pre IH]; intros n st Hst Hn Hk Hmax;
    rewrite ?death_tests_code, ?death_tests_cons in Hk; cbn [app run_body].
  - change (death_tests []) with 0 in Hk.
    destruct (Create_looking s _ _ _ _ _ _ Hst ltac:(lia) Hmax) as
      (st1 & Hc & (Hs1 & Hf1 & info & Hi & _) & <- & <-); [done|].
    rewrite decide_True in Hc by lia. unfold GTEST_DEATH_TEST_.
    erewrite bind_inr; [eexists; split; [reflexivity|]|].
    2:{ rewrite (bind_inl _ _ _ _ _ Hc). cbn [negb]. unfold AssumeRole, fresh. cbn [class_].
        unfold style_class. rewrite bool_decide_true by done. unfold ExecDeathTest_AssumeRole.
        erewrite bind_inl.
        2:{ rewrite bind_get, bind_get, Hf1, Hi. cbn [or_fault].
            by rewrite (bind_inl _ _ _ _ _ (lift_ok _ _ _ eq_refl)). }
        cbv beta iota zeta. by rewrite (bind_inr _ _ _ _ _ (execute_statement_ends _ _ _)). }
    done.
  - rewrite (bind_inl _ _ _ _ _ (write_stderr_eq _ _)).
    destruct (IH n (wrote st [] output) Hst) as (st' & Hr & E1 & E2); [done..|].
    exists st'. split; [exact Hr|]. rewrite E1, E2. cbn. by rewrite app_nil_r, <- !app_assoc.
  - pose proof (death_tests_nonneg pre).
    destruct (Create_looking s' _ _ _ _ _ _ Hst ltac:(lia) Hmax) as (st1 & Hc & Hst1 & Ep & Ee); [lia|].
    rewrite decide_False in Hc by lia.
    erewrite bind_inl; [|unfold GTEST_DEATH_TEST_; by rewrite (bind_inl _ _ _ _ _ Hc)].
    rewrite bool_decide_false, andb_false_r by auto.
    destruct (IH (n + 1) st1 Hst1) as (st' & Hr & E1 & E2); [lia..|].
    exists st'. rewrite (bind_inr _ _ _ _ _ Hr). by rewrite E1, E2, Ep, Ee.
Qed.

(** The parent of a child that has failed on its own account logs the message of
    the child and aborts. *)
Theorem internal_error_reported dt c message st :
  carries (pipe_ c) (kDeathTestInternalError :: message) -> (NUL ∉ message) ->
  Wait FILE dumps_core sys (set_child dt c) st =
  Ok (wrote st [] (log_line FILE (str "[ FATAL ]") 367 message), inr (signaled SIGABRT dumps_core)).
Proof.
  intros Hc Hnul. unfold Wait, ReadAndInterpretStatusByte. cbn [spawned_ set_child negb read_fd_ default].
  destruct (read_status_byte_carries _ _ Hc) as (pipe' & Hr & Hc').
  cbn [take drop] in Hr, Hc'. specialize (Hc' ltac:(done)).
  pose proof (internal_error_loop_carries _ [] _ _ Hc' Hnul (Nat.le_refl _)) as He.
  apply bind_inr. rewrite (bind_inl _ _ _ _ _ (lift_ok _ _ _ Hr)). apply bind_inr.
  unfold interpret_status_byte. do 3 (rewrite bool_decide_false by done). rewrite bool_decide_true by done.
  unfold FailFromInternalError. rewrite (bind_inl _ _ _ _ _ (lift_ok _ _ _ He)).
  unfold LOG_FATAL. cbn [app]. rewrite StringStreamToString_id by done.
  by rewrite (bind_inl _ _ _ _ _ (write_stderr_eq _ _)).
Qed.
End correct.

(** ** Numbers and texts of the flag *)

Lemma dec_spec n :
  0 <= n -> dec n = digits 10 n /\ exists D, dec n = D /\ D <> [] /\
    Forall (fun c => IsDigit c = true) D /\ digits_fold 0 D = n.
Proof.
  intros Hn. assert (E : dec n = digits 10 n) by (unfold dec; by rewrite (proj2 (Z.ltb_ge _ _)) by lia).
  split; [done|]. rewrite E. by apply digits_spec.
Qed.

Lemma dec_free n c : 0 <= n -> IsDigit c = false -> c ∉ dec n.
Proof.
  intros (_ & D & -> & _ & H & _)%dec_spec Hc Hin. rewrite Forall_forall in H. by rewrite H in Hc.
Qed.

Lemma ParseNaturalNumber_dec n : 0 <= n <= INT_MAX -> ParseNaturalNumber (dec n) = Some n.
Proof.
  intros Hn. destruct (dec_spec n ltac:(lia)) as (_ & D & HD & Hne & Hall & Hv).
  assert (Hnul : NUL ∉ dec n) by (apply dec_free; [lia|done]).
  unfold ParseNaturalNumber. rewrite (c_str_id _ Hnul), HD, digits_value_all, Hv by done.
  destruct D as [|c D]; [done|]. rewrite (Forall_inv Hall). cbn [negb].
  rewrite bool_decide_true by done. cbn [andb]. unfold INT_MAX in Hn.
  assert (to_int32 n = n) as -> by (unfold to_int32; rewrite Z.mod_small; lia).
  by rewrite (proj2 (Z.ltb_lt _ _)), Z.mod_small, Z.eqb_refl by lia.
Qed.

Definition flag_value (file : text) (line index fd : Z) : text :=
  file ++ "|"%char :: dec line ++ "|"%char :: dec index ++ "|"%char :: dec fd.

Lemma ParseInternalRunDeathTestFlag_value fl file line index fd :
  strings fl Flag.internal_run_death_test = flag_value file line index fd ->
  ("|"%char ∉ file) -> 0 <= line <= INT_MAX -> 0 <= index <= INT_MAX -> 0 <= fd <= INT_MAX ->
  ParseInternalRunDeathTestFlag fl = Ok (Some (mkInternalRunDeathTestFlag file line index fd)).
Proof.
  intros Hfl Hf Hl Hi Hd. unfold ParseInternalRunDeathTestFlag. rewrite Hfl. unfold flag_value.
  rewrite bool_decide_false by (by destruct file).
  rewrite !SplitString_app_delimiter.
  assert (Hdec : forall n, 0 <= n <= INT_MAX -> SplitString (dec n) "|" = [dec n])
    by (intros n Hn; apply SplitString_whole, dec_free; [lia|done]).
  rewrite SplitString_whole, !Hdec by done. cbn [app].
  by rewrite !ParseNaturalNumber_dec by done.
Qed.

Lemma internal_argument_text file line index fd :
  internal_argument file line index fd =
  flag_text (Flag.string_name Flag.internal_run_death_test) ++ "="%char :: flag_value file line index fd.
Proof. done. Qed.
Lemma filter_argument_text suite name :
  filter_argument suite name =
  flag_text (Flag.string_name Flag.filter) ++ "="%char :: (suite ++ str "." ++ name).
Proof. done. Qed.

Lemma flag_text_free n : (NUL ∉ n) -> NUL ∉ flag_text n ++ ["="%char].
Proof.
  intros H. unfold flag_text. rewrite !not_elem_of_app. split_and!; [..|done|];
    refine (proj1 (bool_decide_eq_true _) _); vm_compute; reflexivity.
Qed.

Lemma filter_argument_free suite name :
  (NUL ∉ suite ++ str "." ++ name) -> NUL ∉ filter_argument suite name.
Proof.
  intros H. rewrite filter_argument_text, (cons_middle "="%char), app_assoc, not_elem_of_app.
  split; [apply flag_text_free|done]. refine (proj1 (bool_decide_eq_true _) _). vm_compute. reflexivity.
Qed.

Lemma internal_argument_free file line index fd :
  (NUL ∉ file) -> 0 <= line -> 0 <= index -> 0 <= fd -> NUL ∉ internal_argument file line index fd.
Proof.
  intros Hf Hl Hi Hd. rewrite internal_argument_text, (cons_middle "="%char), app_assoc, not_elem_of_app.
  split; [apply flag_text_free; refine (proj1 (bool_decide_eq_true _) _); vm_compute; reflexivity|].
  unfold flag_value. rewrite !not_elem_of_app, !not_elem_of_cons.
  pose proof (fun n Hn => dec_free n NUL Hn eq_refl). rewrite !not_elem_of_app, !not_elem_of_cons.
  rewrite ?not_elem_of_app, ?not_elem_of_cons. split_and!; auto.
Qed.

(** A name that is its own filter. *)
Definition plain_name (name : text) : Prop :=
  IsGlobPattern name = false /\ (":"%char ∉ name) /\ ("-"%char ∉ name) /\ (NUL ∉ name).

Lemma FilterMatchesTest_own suite name :
  plain_name (suite ++ str "." ++ name) -> FilterMatchesTest (suite ++ str "." ++ name) suite name = true.
Proof.
  intros (Hg & Hc & Hd & _). unfold FilterMatchesTest, MatchesTest.
  rewrite PN_positive_only, MatchesName_spec by done. exists (suite ++ str "." ++ name).
  rewrite SplitString_whole, glob_exact by done. split; [by left|done].
Qed.

(** ** Arguments *)

Lemma parse_args_app read_file a b st :
  parse_args read_file (a ++ b) st =
  '(kept1, st1) ← parse_args read_file a st;
  '(kept2, st2) ← parse_args read_file b st1;
  Ok (kept1 ++ kept2, st2).
Proof.
  revert st; induction a as [|arg a IH]; intros st; cbn [app parse_args].
  { rewrite bind_ok. by destruct (parse_args read_file b st) as [[]|]. }
  destruct (parse_argument read_file arg st) as [[remove st1]|]; [|done]. rewrite !bind_ok, IH.
  destruct (parse_args read_file a st1) as [[k1 st2]|]; [|done]. rewrite !bind_ok.
  destruct (parse_args read_file b st2) as [[k2 st3]|]; [|done]. rewrite !bind_ok. by destruct remove.
Qed.

Lemma parse_argument_string read_file f v st :
  Flag.S f ∈ parse_order ->
  parse_argument read_file (flag_text (Flag.string_name f) ++ "="%char :: v) st =
  Ok (true, with_flags st (set_string (flags st) f v)).
Proof.
  intros Hf. unfold parse_argument, ParseGoogleTestFlag. set (arg := _ ++ _ :: v).
  assert (D : denotes arg (Flag.S f) (fun fl => set_string fl f v)) by constructor.
  destruct (parse_first_spec parse_order arg st) as [(f' & g & _ & D' & ->)|(Hno & _)].
  - pose proof (denotes_unique _ _ _ _ _ D D') as <-.
    by rewrite (denotes_functional _ _ _ _ D' D).
  - exfalso. by eapply Hno.
Qed.

Lemma ParseGoogleTestFlagsOnly_parsed read_file prog args st kept cmd :
  parse_args read_file args st = Ok (kept, cmd) -> g_help_flag cmd = false ->
  exists argc argv, ParseGoogleTestFlagsOnly read_file (length (prog :: args)) (argv_of (prog :: args) 0) st =
                    Ok (argc, argv, cmd).
Proof.
  intros E Hh. unfold ParseGoogleTestFlagsOnly.
  pose proof (parse_loop_refines read_file (S (length args)) [prog] args 0 st ltac:(lia)) as Hl.
  change (length [prog]) with 1%nat in Hl. change ([prog] ++ args) with (prog :: args) in Hl.
  change (length (prog :: args)) with (S (length args)) in *.
  rewrite Hl, E, !bind_ok, Hh. by eexists _, _.
Qed.

(** ** The program *)

Section whole.
Context (FILE : text) (dumps_core : bool) (getenv : text -> option text) (read_file : text -> option text)
  (info : TestInfo) (body : list item) (sys : System) (prog : text) (args kept : list text) (cmd : CmdState).
Let fl : Flags := flags cmd.
Let style : text := strings fl Flag.death_test_style.
Let name : text := test_suite_name_ info ++ str "." ++ test_name_ info.

(** The program is started to run the death tests. *)
Record started : Prop := {
  started_reliable : reliable sys;
  started_args : parse_args read_file args (mkCmdState (initial_flags getenv) false []) = Ok (kept, cmd);
  started_help : g_help_flag cmd = false;
  started_parent : strings fl Flag.internal_run_death_test = [];
  started_style : style = str "threadsafe" \/ style = str "fast";
  started_filter : FilterMatchesTest (strings fl Flag.filter) (test_suite_name_ info) (test_name_ info) = true;
  started_name : plain_name name;
  started_texts : Forall (fun a => NUL ∉ a) (prog :: args);
  started_count : death_test_count_ (result_ info) = 0;
  started_body : Forall sane body;
  started_size : death_tests body <= INT_MAX }.
Hypothesis Hstarted : started.

Let child_system := with_exec sys (fun _ => Err Diverges).

Lemma child_system_reliable exec : reliable (with_exec sys exec).
Proof. by destruct (started_reliable Hstarted). Qed.

Lemma program_runs sys' args' kept' cmd' flag :
  parse_args read_file args' (mkCmdState (initial_flags getenv) false []) = Ok (kept', cmd') ->
  g_help_flag cmd' = false -> ParseInternalRunDeathTestFlag (flags cmd') = Ok flag ->
  FilterMatchesTest (strings (flags cmd') Flag.filter) (test_suite_name_ info) (test_name_ info) = true ->
  exists forward, program FILE dumps_core getenv read_file info body sys' (prog :: args') =
    run_body FILE dumps_core sys' (prog :: args') body
      (mkProcess (flags cmd') flag (Some info) [] false forward [] []).
Proof.
  intros Hargs Hh Hflag Hfilter.
  destruct (ParseGoogleTestFlagsOnly_parsed _ prog _ _ _ _ Hargs Hh) as (argc & argv & Hparse).
  unfold program. rewrite Hparse, bind_ok.
  assert (Hi : InitDeathTestSubprocessControlInfo dumps_core (start (flags cmd')) =
               Ok (mkProcess (flags cmd') flag None [] false (bool_decide (flag = None)) [] [], inl tt))
    by (unfold InitDeathTestSubprocessControlInfo; cbn [flags_ start]; by rewrite Hflag).
  rewrite (bind_inl _ _ _ _ _ Hi), Hh, Hfilter. by eexists.
Qed.

(** The program that the parent starts executes the death test. *)
Lemma run_program_executes pre fatal s post :
  body = pre ++ death_test fatal s :: post -> style = str "threadsafe" ->
  exists c, run_program FILE dumps_core getenv read_file info body child_system
      (map c_str ((prog :: args) ++ [filter_argument (test_suite_name_ info) (test_name_ info);
         internal_argument (file s) (line s) (death_tests pre + 1) (pipe_write_fd sys)])) = Ok c /\
    reports s (outputs pre ++ child_output s) c.
Proof.
  intros Hbody Hs. destruct Hstarted as [Hr Ha Hh _ _ _ Hn Ht Hc Hsane Hsize].
  pose proof (death_tests_nonneg pre) as Hp. pose proof (death_tests_nonneg post).
  assert (Hk : death_tests pre + 1 <= INT_MAX).
  { rewrite Hbody in Hsize. unfold death_tests in Hsize, Hp |- *. rewrite zsum_app, zsum_cons in Hsize.
    unfold death_tests in *. lia. }
  rewrite Hbody in Hsane. apply Forall_app in Hsane as [_ [(Hbar & Hnul & Hline & _) _]%Forall_cons_1].
  set (last := [_; _]).
  assert (Hmap : map c_str ((prog :: args) ++ last) = prog :: (args ++ last)).
  { rewrite <- app_comm_cons. rewrite <- (map_id (prog :: args ++ last)) at 2. apply map_ext_in.
    intros a Ha'. apply c_str_id. rewrite Forall_forall in Ht. apply list_elem_of_In in Ha'.
    rewrite app_comm_cons in Ha'. apply elem_of_app in Ha' as [Ha'|Ha']; [by apply Ht|].
    pose proof (reliable_fd _ Hr). destruct Hn as (_ & _ & _ & Hn).
    apply list_elem_of_In in Ha' as [<-|[<-|[]]]; [by apply filter_argument_free|].
    apply internal_argument_free; [done|lia..]. }
  rewrite Hmap.
  pose (cmd1 := with_flags cmd (set_string fl Flag.filter name)).
  pose (cmd2 := with_flags cmd1 (set_string (flags cmd1) Flag.internal_run_death_test
                  (flag_value (file s) (line s) (death_tests pre + 1) (pipe_write_fd sys)))).
  assert (Hargs : parse_args read_file (args ++ last) (mkCmdState (initial_flags getenv) false []) =
                  Ok (kept ++ [], cmd2)).
  { rewrite parse_args_app, Ha, bind_ok. subst last. cbn [parse_args].
    rewrite filter_argument_text, internal_argument_text, !parse_argument_string, !bind_ok by
      (apply (bool_decide_eq_true_1 _); vm_compute; reflexivity).
    rewrite !parse_argument_string by (apply (bool_decide_eq_true_1 _); vm_compute; reflexivity).
    by rewrite !bind_ok. }
  assert (Hf : ParseInternalRunDeathTestFlag (flags cmd2) = Ok (Some (mkInternalRunDeathTestFlag (file s)
      (line s) (death_tests pre + 1) (pipe_write_fd sys)))).
  { apply ParseInternalRunDeathTestFlag_value; [done|done|done|lia|apply Hr]. }
  destruct (program_runs child_system _ _ _ _ Hargs Hh Hf (FilterMatchesTest_own _ _ Hn)) as (forward & Hrun).
  unfold run_program. rewrite Hrun, Hbody.
  destruct (run_body_executes FILE dumps_core child_system (child_system_reliable _) (prog :: args ++ last)
              s fatal (pipe_write_fd sys) pre post 0 (death_tests pre + 1)
              (mkProcess (flags cmd2) (Some (mkInternalRunDeathTestFlag (file s) (line s) (death_tests pre + 1)
                 (pipe_write_fd sys))) (Some info) [] false forward [] [])) as (st & -> & Ep & Ee); [|lia..|].
  { split_and!; [done|done|by exists info]. }
  rewrite bind_ok. eexists. split; [reflexivity|]. cbn [to_parent stderr_ app] in Ep, Ee.
  split_and!; [rewrite <- Ep; apply Hr | done | done].
Qed.

(** The parent: what is left of the body after [pre]. *)
Lemma run_body_verdicts pre post st :
  body = pre ++ post -> overseeing info fl (death_tests pre) st ->
  exists st', run_body FILE dumps_core (executing FILE dumps_core getenv read_file info body sys)
      (prog :: args) post st = Ok (st', inl (verdicts style (outputs pre) post)).
Proof.
  revert pre st; induction post as [|[output|fatal s] post IH]; intros pre st Hbody Hst; cbn [run_body].
  - by eexists.
  - rewrite (bind_inl _ _ _ _ _ (write_stderr_eq _ _)).
    destruct (IH (pre ++ [code_ output]) (wrote st [] output)) as (st' & Hr).
    + by rewrite <- app_assoc.
    + rewrite death_tests_app. change (death_tests [code_ output]) with 0. by rewrite Z.add_0_r.
    + exists st'. rewrite Hr, outputs_app. cbn [verdicts]. unfold outputs at 2. cbn. by rewrite app_nil_r.
  - assert (Hsys : reliable (executing FILE dumps_core getenv read_file info body sys))
      by apply child_system_reliable.
    pose proof (death_tests_nonneg pre). pose proof (death_tests_nonneg post).
    pose proof (started_size Hstarted) as Hsize. pose proof (started_body Hstarted) as Hsane.
    rewrite Hbody, death_tests_app, death_tests_cons in Hsize.
    rewrite Hbody in Hsane. apply Forall_app in Hsane as [_ [(_ & _ & _ & Hm) _]%Forall_cons_1].
    destruct (GTEST_DEATH_TEST_oversees FILE dumps_core _ Hsys info fl _ st (prog :: args) s (outputs pre)
                (started_style Hstarted) Hst ltac:(lia) (Hm _)) as (st1 & Hr & Hst1).
    { intros Hs. exact (run_program_executes pre fatal s post Hbody Hs). }
    rewrite (bind_inl _ _ _ _ _ Hr). fold style. cbn [verdicts].
    case_match; [by eexists|].
    destruct (IH (pre ++ [death_test fatal s]) st1) as (st' & Hr').
    + by rewrite <- app_assoc.
    + by rewrite death_tests_app.
    + exists st'. rewrite (bind_inl _ _ _ _ _ Hr'), outputs_app.
      unfold outputs at 2. cbn. by rewrite app_nil_r.
Qed.
End whole.

(** C23. A test program whose death tests run in the style of the flag.  Each death
    test gets its verdict from what the statement does and from the stderr of its
    child, which in the style "threadsafe" starts with what the body has written
    before: it passes if and only if the statement ends the process with a status
    that the predicate accepts and the stderr matches; the messages of the others
    are those of [judge].  Calls that are interrupted, pieces in which the pipe
    is read, arguments and flags of the program, other code in the body and
    assertions that end it make no difference. *)
Theorem death_tests_correct FILE dumps_core getenv read_file info body sys prog args kept cmd
    (H : started getenv read_file info body sys prog args kept cmd) :
  let style := strings (flags cmd) Flag.death_test_style in
  (exists st, program FILE dumps_core getenv read_file info body
                (executing FILE dumps_core getenv read_file info body sys) (prog :: args) =
              Ok (st, inl (verdicts style [] body))) /\
  (forall s err, verdict s err = None <-> dies_as_expected s err) /\
  (forall e, valid_ending e ->
     (ExitedUnsuccessfully (wait_status e) = true <->
      forall exit_code, e = exited exit_code -> exit_code mod 256 <> 0)).
Proof.
  intros style. split_and!; [|apply verdict_None|by intros e (_ & _ & He)%predicates_wait_status].
  assert (Hflag : ParseInternalRunDeathTestFlag (flags cmd) = Ok None).
  { unfold ParseInternalRunDeathTestFlag. rewrite (started_parent _ _ _ _ _ _ _ _ _ H).
    by rewrite bool_decide_true. }
  destruct (program_runs FILE dumps_core getenv read_file info body prog
              (executing FILE dumps_core getenv read_file info body sys) args kept cmd None) as (forward & ->);
    [apply H|apply H|done|apply H|].
  apply (run_body_verdicts FILE dumps_core _ _ _ _ _ _ _ _ _ H [] body); [done|].
  split_and!; [done..|]. exists info. split_and!; [done..|]. by rewrite (started_count _ _ _ _ _ _ _ _ _ H).
Qed.

(** *** A program *)

Definition example_info : TestInfo :=
  mkTestInfo (str "Dies") (str "Hard") None None (mkCodeLocation (str "dies.cc") 3) 0 true false true false 0
    new_TestResult.
Definition example_matcher (expected : text) : Matcher text :=
  silent (mkDescriber (str "is " ++ expected) (str "is not " ++ expected))
    (fun err => bool_decide (err = expected)).
Definition example_system : System :=
  mkSystem (fun line => if (line =? 507) || (line =? 1085) then [EINTR; EINTR] else []) (fun _ => true)
    (fun _ => str "error") 1 5
    (fun out => minus_one EINTR :: (if bool_decide (out = []) then [] else [bytes out]) ++ [bytes []])
    4096 65536 true (str "/tmp") (fun _ => Err Diverges).
Definition example_body (file : text) : list item :=
  [code_ (str "a ");
   EXPECT_DEATH (str "abort()") (example_matcher (str "a boom")) (file, 5) (str "boom", dies (signaled SIGABRT true));
   code_ (str "b ");
   EXPECT_EXIT (str "exit(3)") (ExitedWithCode 3) (example_matcher (str "a b ")) (file, 7) ([], dies (exited 259));
   ASSERT_DEATH (str "f()") (example_matcher (str "a b ")) (file, 8) ([], completes);
   EXPECT_DEATH (str "g()") (example_matcher []) (file, 9) ([], dies (exited 1))].
Definition example_args : list text := [str "--gtest_death_test_style=threadsafe"; str "input"].
Definition example_cmd : CmdState :=
  with_flags (mkCmdState (initial_flags (fun _ => None)) false [])
    (set_string (initial_flags (fun _ => None)) Flag.death_test_style (str "threadsafe")).

Lemma example_reliable : reliable example_system.
Proof.
  split; try done; cbn.
  - intros line. destruct (_ || _); repeat constructor.
  - intros out. case_bool_decide as E; cbn; constructor; [subst; constructor|].
    rewrite <- (app_nil_r out) at 2. constructor; [done|constructor].
Qed.

Lemma death_tests_correct_witness :
  (exists st, program (str "gtest-death-test.cc") true (fun _ => None) (fun _ => None) example_info
     (example_body (str "dies.cc"))
     (executing (str "gtest-death-test.cc") true (fun _ => None) (fun _ => None) example_info
        (example_body (str "dies.cc")) example_system) (str "./dies" :: example_args) =
   Ok (st, inl (verdicts (str "threadsafe") [] (example_body (str "dies.cc"))))) /\
  verdicts (str "threadsafe") [] (example_body (str "dies.cc")) =
    [None; None; Some (str "Death test: f()" ++ [LF] ++ str "    Result: failed to die." ++ [LF] ++
                       str " Error msg:" ++ [LF] ++ str "[  DEATH   ] a b ")].
Proof.
  split; [|vm_compute; reflexivity].
  refine (proj1 (death_tests_correct _ _ _ _ _ _ _ _ _ [str "input"] example_cmd _)).
  apply Build_started.
  - exact example_reliable.
  - vm_compute. reflexivity.
  - reflexivity.
  - reflexivity.
  - by left.
  - vm_compute. reflexivity.
  - split_and!; [reflexivity|..]; refine (proj1 (bool_decide_eq_true _) _); vm_compute; reflexivity.
  - refine (proj1 (bool_decide_eq_true _) _); vm_compute; reflexivity.
  - reflexivity.
  - unfold example_body. repeat constructor; cbn; try done;
      first [by eexists | refine (proj1 (bool_decide_eq_true _) _); vm_compute; reflexivity].
  - vm_compute. discriminate.
Defined.

(** A file name with a '|' cannot be told to the child: its flag has a field too
    many, the child aborts before it gets to the test, and a death test that
    accepts any message passes although its statement does not die. *)
Lemma bar_in_file_name_passes :
  let body := [EXPECT_DEATH (str "f()") AnythingMatcher (str "a|b.cc", 5) ([], completes)] in
  exists st, program (str "gtest-death-test.cc") true (fun _ => None) (fun _ => None) example_info body
    (executing (str "gtest-death-test.cc") true (fun _ => None) (fun _ => None) example_info body
       example_system) (str "./dies" :: example_args) = Ok (st, inl [None]).
Proof. eexists. vm_compute. reflexivity. Qed.

(** Outside of a test [Create] dereferences a null pointer; the constructor of
    [DeathTest], which has a message for that, is not reached. *)
Lemma Create_outside_of_a_test dumps_core statement matcher file line st :
  current_test_info_ st = None -> Create dumps_core statement matcher file line st = Err InvalidDeref.
Proof. intros E. unfold Create. by rewrite bind_get, bind_get, E. Qed.
