(* ===== verification/ParamGenerators.v ===== *)
(** * Parameter generators (gtest-param-util.h, gtest-param-test.h)

    [Range], [Values], [ValuesIn], [Bool], [Combine] and [ConvertGenerator].  A
    generator makes iterators, and the range-based [for] of the framework walks
    from [begin] to [end].  A generator and what it needs of its components is an
    interface, [ParamGeneratorInterface] with its operations; [generates] is the
    contract, that a generator's iterators walk along a list. *)

From S2P Require Import Prelude Outcome Common.

(** ** The interface *)

(** [Current] is given the iterator as it is after the call, since one of the
    implementations caches the value.  Two iterators that are compared are
    different objects, so [operator==] is [Equals]; a copy is made by [Clone]. *)
Record ParamGeneratorInterface (T : Type) : Type := mkGenerator {
  Iterator : Type;
  Begin : outcome Iterator;
  End_ : outcome Iterator;
  Advance : Iterator -> outcome Iterator;
  Clone : Iterator -> Iterator;
  Current : Iterator -> outcome (T * Iterator);
  Equals : Iterator -> Iterator -> outcome bool }.
Arguments mkGenerator {T} _ _ _ _ _ _ _.
Arguments Iterator {T} _.
Arguments Begin {T} _.
Arguments End_ {T} _.
Arguments Advance {T} _ _.
Arguments Clone {T} _ _.
Arguments Current {T} _ _.
Arguments Equals {T} _ _ _.

(** [GTEST_CHECK_(BaseGenerator() == other.BaseGenerator())]: generators are
    known by their addresses. *)
Definition check_base (base other : Z) : outcome unit := c_assert (base =? other).

(** [for (const auto& param : generator) body]; the body changes a state. *)
Fixpoint range_for {S T} (fuel : nat) (g : ParamGeneratorInterface T) (body : S -> T -> outcome S)
    (it last_ : Iterator g) (s : S) : outcome S :=
  match fuel with
  | O => Err Diverges
  | S fuel =>
      done ← Equals g it last_;
      if done : bool then Ok s
      else '(param, it) ← Current g it;
           s ← body s param;
           it ← Advance g it;
           range_for fuel g body it last_ s
  end.
Definition for_each_param {S T} (fuel : nat) (g : ParamGeneratorInterface T)
    (body : S -> T -> outcome S) (s : S) : outcome S :=
  it ← Begin g; last_ ← End_ g; range_for fuel g body it last_ s.

(** ** Range *)

Module Range.
Section range.
(** [static_cast<T>(value + step)] and [operator<]. *)
Context {T IncrementT : Type} (plus : T -> IncrementT -> outcome T) (less : T -> T -> bool).

Record RangeIterator : Type := mkIterator {
  base_ : Z; value_ : T; index_ : Z; step_ : IncrementT }.

Fixpoint end_index_loop (fuel : nat) (i last_ : T) (step : IncrementT) (end_index : Z) : outcome Z :=
  match fuel with
  | O => Err Diverges
  | S fuel =>
      if less i last_ then
        end_index ← iadd end_index 1;
        i ← plus i step;
        end_index_loop fuel i last_ step end_index
      else Ok end_index
  end.
Definition CalculateEndIndex (fuel : nat) (begin last_ : T) (step : IncrementT) : outcome Z :=
  end_index_loop fuel begin last_ step 0.

Definition advance (it : RangeIterator) : outcome RangeIterator :=
  value ← plus (value_ it) (step_ it);
  index ← iadd (index_ it) 1;
  Ok (mkIterator (base_ it) value index (step_ it)).

Definition equals (it other : RangeIterator) : outcome bool :=
  _ ← check_base (base_ it) (base_ other);
  Ok (index_ it =? index_ other).

(** The constructor; [this] is its address. *)
Definition RangeGenerator (fuel : nat) (this : Z) (begin last_ : T) (step : IncrementT)
    : outcome (ParamGeneratorInterface T) :=
  end_index ← CalculateEndIndex fuel begin last_ step;
  Ok (mkGenerator RangeIterator
        (Ok (mkIterator this begin 0 step)) (Ok (mkIterator this last_ end_index step))
        advance id (fun it => Ok (value_ it, it)) equals).

End range.
End Range.

(** ** ValuesIn *)

Module ValuesIn.
Section values.
Context {T : Type}.

(** [iterator_] is a position of the container that the generator has copied;
    a copy of an iterator does not copy the cached value. *)
Record ValuesIterator : Type := mkIterator {
  base_ : Z; iterator_ : nat; value_ : option T }.

Definition advance (container : list T) (it : ValuesIterator) : outcome ValuesIterator :=
  if (iterator_ it <? length container)%nat
  then Ok (mkIterator (base_ it) (S (iterator_ it)) None)
  else Err InvalidIterator.

Definition current (container : list T) (it : ValuesIterator) : outcome (T * ValuesIterator) :=
  match value_ it with
  | Some x => Ok (x, it)
  | None => x ← or_fault InvalidIterator (container !! iterator_ it);
            Ok (x, mkIterator (base_ it) (iterator_ it) (Some x))
  end.

Definition equals (it other : ValuesIterator) : outcome bool :=
  _ ← check_base (base_ it) (base_ other);
  Ok (iterator_ it =? iterator_ other)%nat.

Definition ValuesInIteratorRangeGenerator (this : Z) (container : list T)
    : ParamGeneratorInterface T :=
  mkGenerator ValuesIterator
    (Ok (mkIterator this 0 None)) (Ok (mkIterator this (length container) None))
    (advance container) (fun it => mkIterator (base_ it) (iterator_ it) None)
    (current container) equals.

End values.
End ValuesIn.

(** [Values] converts to the generator of a vector of its arguments. *)
Definition Values {T} (this : Z) (v : list T) : ParamGeneratorInterface T :=
  ValuesIn.ValuesInIteratorRangeGenerator this v.
Definition Bool (this : Z) : ParamGeneratorInterface bool := Values this [false; true].

(** ** Combine *)

(** A [std::tuple] of generators, of iterators, of values. *)
Inductive Generators : list Type -> Type :=
  | NoGenerators : Generators []
  | MoreGenerators {T : Type} {Ts : list Type} (g : ParamGeneratorInterface T)
      (gs : Generators Ts) : Generators (T :: Ts).

Fixpoint Tuple (Ts : list Type) : Type :=
  match Ts with
  | [] => unit
  | T :: Ts => T * Tuple Ts
  end.

Fixpoint Iterators {Ts} (gs : Generators Ts) : Type :=
  match gs with
  | NoGenerators => unit
  | MoreGenerators g gs => Iterator g * Iterators gs
  end.

Module Combine.

Fixpoint begins {Ts} (gs : Generators Ts) : outcome (Iterators gs) :=
  match gs with
  | NoGenerators => Ok tt
  | MoreGenerators g gs => it ← Begin g; its ← begins gs; Ok (it, its)
  end.

Fixpoint ends {Ts} (gs : Generators Ts) : outcome (Iterators gs) :=
  match gs with
  | NoGenerators => Ok tt
  | MoreGenerators g gs => it ← End_ g; its ← ends gs; Ok (it, its)
  end.

Fixpoint clones {Ts} (gs : Generators Ts) : Iterators gs -> Iterators gs :=
  match gs with
  | NoGenerators => fun its => its
  | MoreGenerators g gs => fun its => (Clone g its.1, clones gs its.2)
  end.

(** [AtEnd]: some component is at its end. *)
Fixpoint at_end {Ts} (gs : Generators Ts) : Iterators gs -> Iterators gs -> outcome bool :=
  match gs with
  | NoGenerators => fun _ _ => Ok false
  | MoreGenerators g gs => fun current_ end_ =>
      b ← Equals g current_.1 end_.1;
      if b : bool then Ok true else at_end gs current_.2 end_.2
  end.

(** All components are equal. *)
Fixpoint same {Ts} (gs : Generators Ts) : Iterators gs -> Iterators gs -> outcome bool :=
  match gs with
  | NoGenerators => fun _ _ => Ok true
  | MoreGenerators g gs => fun current_ other =>
      b ← Equals g current_.1 other.1;
      if b : bool then same gs current_.2 other.2 else Ok false
  end.

(** The tuple of the values the components point at. *)
Fixpoint values {Ts} (gs : Generators Ts) : Iterators gs -> outcome (Tuple Ts * Iterators gs) :=
  match gs with
  | NoGenerators => fun _ => Ok (tt, tt)
  | MoreGenerators g gs => fun current_ =>
      '(x, it) ← Current g current_.1;
      '(xs, its) ← values gs current_.2;
      Ok ((x, xs), (it, its))
  end.

(** [++] on the last component and [AdvanceIfEnd] from there up to the first.
    The result says whether the component to the left is to be advanced: past
    the last one it is, a component that is not at its end stops the propagation,
    and the first ([is_first]) stays at its end. *)
Fixpoint advance_from {Ts} (gs : Generators Ts) (is_first : bool)
    : Iterators gs -> Iterators gs -> Iterators gs -> outcome (Iterators gs * bool) :=
  match gs with
  | NoGenerators => fun _ _ _ => Ok (tt, true)
  | MoreGenerators g gs => fun begin_ end_ current_ =>
      '(its, next) ← advance_from gs false begin_.2 end_.2 current_.2;
      if next : bool then
        it ← Advance g current_.1;
        b ← Equals g it end_.1;
        if negb b then Ok ((it, its), false)
        else if is_first then Ok ((it, its), false)
        else Ok ((Clone g begin_.1, its), true)
      else Ok ((current_.1, its), false)
  end.

Section product.
Context {Ts : list Type} (gs : Generators Ts).

Record ProductIterator : Type := mkIterator {
  base_ : Z; begin_ : Iterators gs; end_ : Iterators gs; current_ : Iterators gs;
  current_value_ : option (Tuple Ts) }.

Definition AtEnd (it : ProductIterator) : outcome bool := at_end gs (current_ it) (end_ it).

Definition ComputeCurrentValue (it : ProductIterator) : outcome ProductIterator :=
  b ← AtEnd it;
  if b : bool then Ok it
  else '(v, its) ← values gs (current_ it);
       Ok (mkIterator (base_ it) (begin_ it) (end_ it) its (Some v)).

(** The constructor of [IteratorImpl]. *)
Definition new_iterator (base : Z) (is_end : bool) : outcome ProductIterator :=
  b ← begins gs;
  e ← ends gs;
  ComputeCurrentValue (mkIterator base b e (clones gs (if is_end then e else b)) None).

Definition advance (it : ProductIterator) : outcome ProductIterator :=
  b ← AtEnd it;
  _ ← c_assert (negb b);
  '(its, _) ← advance_from gs true (begin_ it) (end_ it) (current_ it);
  ComputeCurrentValue (mkIterator (base_ it) (begin_ it) (end_ it) its (current_value_ it)).

Definition current (it : ProductIterator) : outcome (Tuple Ts * ProductIterator) :=
  v ← or_fault InvalidDeref (current_value_ it); Ok (v, it).

Definition equals (it typed_other : ProductIterator) : outcome bool :=
  _ ← check_base (base_ it) (base_ typed_other);
  a ← AtEnd it;
  b ← (if a : bool then AtEnd typed_other else Ok false);
  if b : bool then Ok true else same gs (current_ it) (current_ typed_other).

Definition clone (it : ProductIterator) : ProductIterator :=
  mkIterator (base_ it) (clones gs (begin_ it)) (clones gs (end_ it)) (clones gs (current_ it))
    (current_value_ it).

End product.

(** [Combine(g, ...)]: there is a first generator. *)
Definition CartesianProductGenerator {T Ts} (this : Z) (g : ParamGeneratorInterface T)
    (gs : Generators Ts) : ParamGeneratorInterface (Tuple (T :: Ts)) :=
  let generators_ := MoreGenerators g gs in
  mkGenerator (ProductIterator generators_) (new_iterator generators_ this false)
    (new_iterator generators_ this true) (advance generators_) (clone generators_)
    (current generators_) (equals generators_).

End Combine.

(** ** ConvertGenerator *)

Module Convert.
Section convert.
(** [static_cast<To>]. *)
Context {From To : Type} (cast : From -> To) (generator_ : ParamGeneratorInterface From).

Record ConvertIterator : Type := mkIterator {
  base_ : Z; it_ : Iterator generator_; end_ : Iterator generator_; value_ : option To }.

(** [if (it_ != end_) value_ = ...], in the constructor and in [Advance]. *)
Definition update_value (it : ConvertIterator) : outcome ConvertIterator :=
  b ← Equals generator_ (it_ it) (end_ it);
  if b : bool then Ok it
  else '(x, i) ← Current generator_ (it_ it);
       Ok (mkIterator (base_ it) i (end_ it) (Some (cast x))).

Definition new_iterator (base : Z) (it end_ : Iterator generator_) : outcome ConvertIterator :=
  update_value (mkIterator base (Clone generator_ it) (Clone generator_ end_) None).

Definition advance (it : ConvertIterator) : outcome ConvertIterator :=
  i ← Advance generator_ (it_ it);
  update_value (mkIterator (base_ it) i (end_ it) (value_ it)).

Definition current (it : ConvertIterator) : outcome (To * ConvertIterator) :=
  v ← or_fault InvalidDeref (value_ it); Ok (v, it).

Definition equals (it other : ConvertIterator) : outcome bool :=
  _ ← check_base (base_ it) (base_ other);
  Equals generator_ (it_ it) (Clone generator_ (it_ other)).

Definition clone (it : ConvertIterator) : ConvertIterator :=
  mkIterator (base_ it) (Clone generator_ (it_ it)) (Clone generator_ (end_ it)) (value_ it).

Definition ParamGeneratorConverter (this : Z) : ParamGeneratorInterface To :=
  mkGenerator ConvertIterator
    (b ← Begin generator_; e ← End_ generator_; new_iterator this b e)
    (b ← End_ generator_; e ← End_ generator_; new_iterator this b e)
    advance clone current equals.

End convert.
End Convert.

(** ** What a generator generates *)

(** The iterators of [g] walk along [l]: [at_ k it] says that [it] is at the
    position [k] of the list (a position may have several representations). *)
Record walks {T} (g : ParamGeneratorInterface T) (l : list T) (at_ : nat -> Iterator g -> Prop)
    : Prop := {
  walk_begin : exists it, Begin g = Ok it /\ at_ 0%nat it;
  walk_end : exists it, End_ g = Ok it /\ at_ (length l) it;
  walk_advance k it : at_ k it -> (k < length l)%nat ->
    exists it', Advance g it = Ok it' /\ at_ (S k) it';
  walk_clone k it : at_ k it -> at_ k (Clone g it);
  walk_current k it x : at_ k it -> l !! k = Some x ->
    exists it', Current g it = Ok (x, it') /\ at_ k it';
  walk_equals j k it other : at_ j it -> at_ k other -> (j <= length l)%nat -> (k <= length l)%nat ->
    Equals g it other = Ok (bool_decide (j = k)) }.

Definition generates {T} (g : ParamGeneratorInterface T) (l : list T) : Prop :=
  exists at_, walks g l at_.

(** A loop over the list itself. *)
Definition for_each_of {S T} (body : S -> T -> outcome S) (l : list T) (s : S) : outcome S :=
  foldl (fun o x => s ← o; body s x) (Ok s) l.

Lemma foldl_err {S T} (body : S -> T -> outcome S) l f :
  foldl (fun o x => s ← o; body s x) (Err f) l = Err f.
Proof. by induction l. Qed.

Lemma for_each_of_cons {S T} (body : S -> T -> outcome S) x l s :
  for_each_of body (x :: l) s = (s ← body s x; for_each_of body l s).
Proof.
  unfold for_each_of. cbn [foldl]. rewrite bind_ok. destruct (body s x); [done|]. apply foldl_err.
Qed.

Lemma range_for_walks {S T} (g : ParamGeneratorInterface T) l at_ (body : S -> T -> outcome S)
    fuel k it last_ s :
  walks g l at_ -> at_ k it -> at_ (length l) last_ -> (k <= length l)%nat ->
  (length l - k < fuel)%nat ->
  range_for fuel g body it last_ s = for_each_of body (drop k l) s.
Proof.
  intros W. revert k it s. induction fuel as [|fuel IH]; intros k it s Hit Hlast Hk Hfuel; [lia|].
  cbn [range_for]. rewrite (walk_equals _ _ _ W _ _ _ _ Hit Hlast) by lia. rewrite bind_ok.
  case_bool_decide as E; [by rewrite drop_ge by lia|].
  destruct (lookup_lt_is_Some_2 l k) as [x Hx]; [lia|].
  rewrite (drop_S _ _ _ Hx), for_each_of_cons.
  destruct (walk_current _ _ _ W _ _ _ Hit Hx) as (it1 & -> & Hit1). rewrite bind_ok.
  destruct (body s x) as [s'|]; [|done]. cbn [mbind outcome_bind].
  destruct (walk_advance _ _ _ W _ _ Hit1) as (it2 & -> & Hit2); [lia|].
  cbn [mbind outcome_bind]. apply IH; [done|done|lia|lia].
Qed.

(** The loop of the framework over a generator is a loop over its list. *)
Lemma for_each_param_generates {S T} (g : ParamGeneratorInterface T) l
    (body : S -> T -> outcome S) fuel s :
  generates g l -> (length l < fuel)%nat ->
  for_each_param fuel g body s = for_each_of body l s.
Proof.
  intros [at_ W] Hfuel. unfold for_each_param.
  destruct (walk_begin _ _ _ W) as (b & -> & Hb). destruct (walk_end _ _ _ W) as (e & -> & He).
  rewrite !bind_ok. rewrite (range_for_walks g l at_ body fuel 0 b e s W Hb He) by lia. done.
Qed.

(** ** Range generates the steps from [begin] on *)

Section range_spec.
Context {T IncrementT : Type} (plus : T -> IncrementT -> outcome T) (less : T -> T -> bool).

(** The values from [i] on, by steps, that are less than [last_]. *)
Inductive stepped (last_ : T) (step : IncrementT) : T -> list T -> Prop :=
  | stepped_end i : less i last_ = false -> stepped last_ step i []
  | stepped_more i j l : less i last_ = true -> plus i step = Ok j ->
      stepped last_ step j l -> stepped last_ step i (i :: l).

Lemma end_index_stepped last_ step i l fuel n :
  stepped last_ step i l -> (length l < fuel)%nat -> 0 <= n ->
  n + Z.of_nat (length l) <= INT_MAX ->
  Range.end_index_loop plus less fuel i last_ step n = Ok (n + Z.of_nat (length l)).
Proof.
  intros H. revert fuel n. induction H as [i Hi|i j l Hi Hp _ IH]; intros [|fuel] n Hfuel Hn Hmax;
    cbn [length] in *; try lia; cbn [Range.end_index_loop]; rewrite Hi.
  - f_equal. lia.
  - rewrite iadd_ok by range. rewrite bind_ok, Hp, bind_ok, IH by lia. f_equal. lia.
Qed.

Lemma stepped_lookup last_ step i l :
  stepped last_ step i l -> l !! 0%nat = Some i \/ l = [].
Proof. destruct 1; [by right|by left]. Qed.

Lemma stepped_step last_ step i l k x :
  stepped last_ step i l -> l !! k = Some x ->
  exists y, plus x step = Ok y /\ ((S k < length l)%nat -> l !! S k = Some y).
Proof.
  intros H. revert k. induction H as [|i j l Hi Hp H IH]; intros k; [done|].
  destruct k as [|k]; simpl.
  - intros [= ->]. exists j. split; [done|]. intros Hlen.
    destruct (stepped_lookup _ _ _ _ H) as [E | ->]; [done|simpl in Hlen; lia].
  - intros Hk. destruct (IH k Hk) as (y & Hy & Hnext). exists y. split; [done|]. intros. apply Hnext. lia.
Qed.

Lemma RangeGenerator_generates this begin last_ step l fuel :
  stepped last_ step begin l -> (length l < fuel)%nat -> Z.of_nat (length l) <= INT_MAX ->
  exists g, Range.RangeGenerator plus less fuel this begin last_ step = Ok g /\ generates g l.
Proof.
  intros H Hfuel Hmax. unfold Range.RangeGenerator, Range.CalculateEndIndex.
  rewrite (end_index_stepped _ _ _ _ _ 0 H) by lia. rewrite bind_ok. eexists. split; [done|].
  exists (fun k it => Range.base_ it = this /\ Range.index_ it = Z.of_nat k /\ Range.step_ it = step /\
    ((k < length l)%nat -> l !! k = Some (Range.value_ it))).
  split; cbn [Iterator Begin End_ Advance Clone Current Equals id].
  - eexists. split; [done|]. cbn. split_and!; try done. intros Hl.
    destruct (stepped_lookup _ _ _ _ H) as [E | ->]; [done|simpl in Hl; lia].
  - eexists. split; [done|]. cbn. split_and!; try done; lia.
  - intros k [b v i s] (Hb & Hi & Hs & Hv) Hk. cbn in *. subst b i s. specialize (Hv Hk).
    destruct (stepped_step _ _ _ _ _ _ H Hv) as (y & Hy & Hnext).
    unfold Range.advance. cbn. rewrite Hy. cbn [mbind outcome_bind]. rewrite iadd_ok by range.
    eexists. split; [done|]. cbn. split_and!; try done; lia.
  - done.
  - intros k it x (? & ? & ? & Hv) Hx. exists it. split; [|done].
    rewrite Hv in Hx by (by eapply lookup_lt_Some). by injection Hx as ->.
  - intros j k it other (Hb & Hi & _) (Hb' & Hi' & _) _ _. unfold Range.equals, check_base.
    rewrite Hb, Hb', Hi, Hi', Z.eqb_refl. cbn [c_assert]. rewrite bind_ok. f_equal.
    destruct (Z.eqb_spec (Z.of_nat j) (Z.of_nat k)); case_bool_decide; lia || done.
Qed.

End range_spec.

(** A range of ints. *)
Definition int_range (begin step : Z) (n : nat) : list Z :=
  map (fun k => begin + Z.of_nat k * step) (seq 0 n).

Lemma int_stepped begin last_ step n :
  int_ok begin = true -> int_ok (begin + Z.of_nat n * step) = true -> 0 < step ->
  last_ <= begin + Z.of_nat n * step ->
  (forall k, (k < n)%nat -> begin + Z.of_nat k * step < last_) ->
  stepped iadd Z.ltb last_ step begin (int_range begin step n).
Proof.
  intros Hb Hok Hstep Hlast. revert begin Hb Hok Hlast. unfold int_range.
  induction n as [|n IH]; intros begin Hb Hok Hlast Hin.
  { constructor. apply Z.ltb_ge. lia. }
  cbn [seq map]. rewrite Z.mul_0_l, Z.add_0_r. apply int_ok_iff in Hb, Hok.
  assert (Hj : int_ok (begin + step) = true) by (apply int_ok_iff; nia).
  econstructor; [apply Z.ltb_lt; specialize (Hin 0%nat); lia | apply iadd_ok, int_ok_iff, Hj |].
  rewrite <- seq_shift, map_map.
  rewrite (map_ext _ (fun k => begin + step + Z.of_nat k * step)) by (intros; lia).
  apply IH; [done|apply int_ok_iff; lia|lia|].
  intros k Hk. specialize (Hin (S k)). lia.
Qed.

(** ** ValuesIn generates the elements of the container *)

Lemma ValuesIn_generates {T} this (container : list T) :
  generates (ValuesIn.ValuesInIteratorRangeGenerator this container) container.
Proof.
  exists (fun k it => ValuesIn.base_ it = this /\ ValuesIn.iterator_ it = k /\
    (forall x, ValuesIn.value_ it = Some x -> container !! k = Some x)).
  split; cbn [Iterator Begin End_ Advance Clone Current Equals ValuesIn.ValuesInIteratorRangeGenerator].
  - eexists. split; [done|]. by cbn.
  - eexists. split; [done|]. by cbn.
  - intros k [b i v] (Hb & Hi & _) Hk. cbn in *. subst b i. unfold ValuesIn.advance. cbn [ValuesIn.iterator_].
    rewrite (proj2 (Nat.ltb_lt _ _) Hk). eexists. split; [done|]. by cbn.
  - intros k it (? & ? & _). by cbn.
  - intros k [b i [v|]] x (Hb & Hi & Hv) Hx; cbn in *; subst b i; unfold ValuesIn.current; cbn.
    + exists (ValuesIn.mkIterator this k (Some v)). rewrite (Hv v eq_refl) in Hx.
      injection Hx as ->. done.
    + rewrite Hx. cbn. eexists. split; [done|]. by split_and!; cbn; try congruence.
  - intros j k it other (Hb & Hi & _) (Hb' & Hi' & _) _ _. unfold ValuesIn.equals, check_base.
    rewrite Hb, Hb', Hi, Hi', Z.eqb_refl. cbn [c_assert]. rewrite bind_ok. f_equal.
    destruct (Nat.eqb_spec j k); case_bool_decide; lia || done.
Qed.

(** ** Combine generates the product *)

(** A list for each component; the product, with the last component fastest. *)
Fixpoint Lists (Ts : list Type) : Type :=
  match Ts with
  | [] => unit
  | T :: Ts => list T * Lists Ts
  end.

Fixpoint product {Ts : list Type} : Lists Ts -> list (Tuple Ts) :=
  match Ts with
  | [] => fun _ => [tt]
  | T :: Ts => fun ls => flat_map (fun x => map (pair x) (product ls.2)) ls.1
  end.

Fixpoint all_generate {Ts} (gs : Generators Ts) : Lists Ts -> Prop :=
  match gs with
  | NoGenerators => fun _ => True
  | MoreGenerators g gs => fun ls => generates g ls.1 /\ all_generate gs ls.2
  end.

Section pairs.
Context {A B : Type} (l : list A) (r : list B).

Lemma pairs_length : length (flat_map (fun x => map (pair x) r) l) = (length l * length r)%nat.
Proof.
  induction l as [|x l' IH]; [done|]. cbn [flat_map length]. rewrite length_app, length_map, IH. lia.
Qed.

Lemma pairs_lookup i j x v : l !! i = Some x -> r !! j = Some v ->
  flat_map (fun x => map (pair x) r) l !! (i * length r + j)%nat = Some (x, v).
Proof.
  revert i. induction l as [|y l' IH]; intros i Hi Hj; [done|].
  cbn [flat_map]. destruct i as [|i]; simpl in Hi.
  - injection Hi as ->. rewrite lookup_app_l by (rewrite length_map; by eapply lookup_lt_Some).
    rewrite Nat.mul_0_l, Nat.add_0_l. exact (list_lookup_fmap_Some_2 (pair x) r j v Hj).
  - rewrite lookup_app_r by (rewrite length_map; nia). rewrite length_map.
    replace (_ - _)%nat with (i * length r + j)%nat by nia. by apply IH.
Qed.
End pairs.

Lemma product_length_cons {T} {Ts} (l : list T) (ls : Lists Ts) :
  length (product (Ts := T :: Ts) (l, ls)) = (length l * length (product ls))%nat.
Proof. exact (pairs_length l (product ls)). Qed.

Lemma product_lookup {T} {Ts} (l : list T) (ls : Lists Ts) i j x v :
  l !! i = Some x -> product ls !! j = Some v ->
  product (Ts := T :: Ts) (l, ls) !! (i * length (product ls) + j)%nat = Some (x, v).
Proof. exact (pairs_lookup l (product ls) i j x v). Qed.

(** Where the iterators of the components are. *)
Fixpoint Positions {Ts} (gs : Generators Ts) : Type :=
  match gs with
  | NoGenerators => unit
  | MoreGenerators g gs => (nat -> Iterator g -> Prop) * Positions gs
  end.

Fixpoint all_walk {Ts} (gs : Generators Ts) : Lists Ts -> Positions gs -> Prop :=
  match gs with
  | NoGenerators => fun _ _ => True
  | MoreGenerators g gs => fun ls ps => walks g ls.1 ps.1 /\ all_walk gs ls.2 ps.2
  end.

Lemma all_generate_walk {Ts} (gs : Generators Ts) ls : all_generate gs ls -> exists ps, all_walk gs ls ps.
Proof.
  induction gs as [|T Ts g gs IH]; [by exists tt|]. intros [[at_ W] H].
  destruct (IH _ H) as [ps Hps]. by exists (at_, ps).
Qed.

(** All components at the position [f] of their lists: [fun _ => 0] for the
    beginning, [length] for the end. *)
Fixpoint all_at {Ts} (f : forall T, list T -> nat) (gs : Generators Ts)
    : Lists Ts -> Positions gs -> Iterators gs -> Prop :=
  match gs with
  | NoGenerators => fun _ _ _ => True
  | MoreGenerators g gs => fun ls ps its =>
      ps.1 (f _ ls.1) its.1 /\ all_at f gs ls.2 ps.2 its.2
  end.
Abbreviation begin_at := (all_at (fun _ _ => 0%nat)).
Abbreviation end_at := (all_at (fun T l => length l)).

(** Each component somewhere on its list or at its end. *)
Fixpoint within {Ts} (gs : Generators Ts) : Lists Ts -> Positions gs -> Iterators gs -> Prop :=
  match gs with
  | NoGenerators => fun _ _ _ => True
  | MoreGenerators g gs => fun ls ps its =>
      (exists i, (i <= length ls.1)%nat /\ ps.1 i its.1) /\ within gs ls.2 ps.2 its.2
  end.

(** All components on their lists, together at the place [k] of the product. *)
Fixpoint tuple_at {Ts} (gs : Generators Ts) : Lists Ts -> Positions gs -> nat -> Iterators gs -> Prop :=
  match gs with
  | NoGenerators => fun _ _ k _ => k = 0%nat
  | MoreGenerators g gs => fun ls ps k its => exists i j,
      ps.1 i its.1 /\ (i < length ls.1)%nat /\ tuple_at gs ls.2 ps.2 j its.2 /\
      k = (i * length (product ls.2) + j)%nat
  end.

(** Some component at its end. *)
Fixpoint finished {Ts} (gs : Generators Ts) : Lists Ts -> Positions gs -> Iterators gs -> Prop :=
  match gs with
  | NoGenerators => fun _ _ _ => False
  | MoreGenerators g gs => fun ls ps its =>
      (ps.1 (length ls.1) its.1 /\ within gs ls.2 ps.2 its.2) \/
      (exists i, (i < length ls.1)%nat /\ ps.1 i its.1 /\ finished gs ls.2 ps.2 its.2)
  end.

Lemma begins_at {Ts} (gs : Generators Ts) ls ps : all_walk gs ls ps ->
  exists its, Combine.begins gs = Ok its /\ begin_at gs ls ps its.
Proof.
  revert ls ps. induction gs as [|T Ts' g gs' IH]; intros ls ps W; [by exists tt|]. destruct W as [W Ws].
  cbn [Combine.begins]. destruct (walk_begin _ _ _ W) as (it & -> & Hit).
  destruct (IH _ _ Ws) as (its & -> & Hits). by exists (it, its).
Qed.

Lemma ends_at {Ts} (gs : Generators Ts) ls ps : all_walk gs ls ps ->
  exists its, Combine.ends gs = Ok its /\ end_at gs ls ps its.
Proof.
  revert ls ps. induction gs as [|T Ts' g gs' IH]; intros ls ps W; [by exists tt|]. destruct W as [W Ws].
  cbn [Combine.ends]. destruct (walk_end _ _ _ W) as (it & -> & Hit).
  destruct (IH _ _ Ws) as (its & -> & Hits). by exists (it, its).
Qed.

Lemma clones_at {Ts} (gs : Generators Ts) f ls ps its : all_walk gs ls ps -> all_at f gs ls ps its ->
  all_at f gs ls ps (Combine.clones gs its).
Proof.
  revert ls ps its. induction gs as [|T Ts' g gs' IH]; intros ls ps its W H; [done|].
  destruct W as [W Ws], H as [H Hs]. split; [exact (walk_clone _ _ _ W _ _ H)|by apply IH].
Qed.

Lemma clones_tuple_at {Ts} (gs : Generators Ts) ls ps k its : all_walk gs ls ps -> tuple_at gs ls ps k its ->
  tuple_at gs ls ps k (Combine.clones gs its).
Proof.
  revert ls ps k its. induction gs as [|T Ts' g gs' IH]; intros ls ps k its W H; [done|].
  destruct W as [W Ws], H as (i & j & H & Hi & Hs & ->). exists i, j.
  split_and!; [exact (walk_clone _ _ _ W _ _ H)|done|by apply IH|done].
Qed.

Lemma clones_within {Ts} (gs : Generators Ts) ls ps its : all_walk gs ls ps -> within gs ls ps its ->
  within gs ls ps (Combine.clones gs its).
Proof.
  revert ls ps its. induction gs as [|T Ts' g gs' IH]; intros ls ps its W H; [done|].
  destruct W as [W Ws], H as [(i & Hi & H) Hs].
  split; [exists i; split; [done|exact (walk_clone _ _ _ W _ _ H)]|by apply IH].
Qed.

Lemma clones_finished {Ts} (gs : Generators Ts) ls ps its : all_walk gs ls ps -> finished gs ls ps its ->
  finished gs ls ps (Combine.clones gs its).
Proof.
  revert ls ps its. induction gs as [|T Ts' g gs' IH]; intros ls ps its W H; [done|].
  destruct W as [W Ws], H as [[H Hs]|(i & Hi & H & Hs)]; [left|right].
  - split; [exact (walk_clone _ _ _ W _ _ H)|by apply clones_within].
  - exists i. split_and!; [done|exact (walk_clone _ _ _ W _ _ H)|by apply IH].
Qed.

Lemma tuple_at_lt {Ts} (gs : Generators Ts) ls ps k its : tuple_at gs ls ps k its -> (k < length (product ls))%nat.
Proof.
  revert ls ps k its. induction gs as [|T Ts' g gs' IH]; intros ls ps k its H.
  - cbn in *. lia.
  - destruct H as (i & j & _ & Hi & Hs & ->), ls as [l ls]. apply IH in Hs.
    rewrite product_length_cons. cbn [fst snd] in *. nia.
Qed.

Lemma begin_within {Ts} (gs : Generators Ts) ls ps its : begin_at gs ls ps its -> within gs ls ps its.
Proof.
  revert ls ps its. induction gs as [|T Ts' g gs' IH]; intros ls ps its H; [done|].
  destruct H as [H Hs]. split; [exists 0%nat; split; [lia|done]|by apply IH].
Qed.

Lemma end_within {Ts} (gs : Generators Ts) ls ps its : end_at gs ls ps its -> within gs ls ps its.
Proof.
  revert ls ps its. induction gs as [|T Ts' g gs' IH]; intros ls ps its H; [done|].
  destruct H as [H Hs]. split; [by exists (length ls.1)|by apply IH].
Qed.

Lemma tuple_within {Ts} (gs : Generators Ts) ls ps k its : tuple_at gs ls ps k its -> within gs ls ps its.
Proof.
  revert ls ps k its. induction gs as [|T Ts' g gs' IH]; intros ls ps k its H; [done|].
  destruct H as (i & j & H & Hi & Hs & _). split; [exists i; split; [lia|done]|by eapply IH].
Qed.

(** At the beginning the tuple is the first one, if there is one. *)
Lemma begin_tuple {Ts} (gs : Generators Ts) ls ps its : begin_at gs ls ps its ->
  match length (product ls) with
  | O => finished gs ls ps its
  | S _ => tuple_at gs ls ps 0 its
  end.
Proof.
  revert ls ps its. induction gs as [|T Ts' g gs' IH]; intros ls ps its H; [done|].
  destruct ls as [l ls], H as [H Hs]. rewrite product_length_cons.
  specialize (IH _ _ _ Hs). cbn [fst snd] in *. destruct l as [|x l]; cbn [length Nat.mul].
  - left. split; [done|by apply begin_within].
  - destruct (length (product ls)) eqn:E; cbn [Nat.add]; rewrite ?Nat.mul_0_r.
    + right. exists 0%nat. cbn. split_and!; [lia|done|done].
    + exists 0%nat, 0%nat. cbn. split_and!; [done|lia|done|done].
Qed.

Lemma at_end_tuple {Ts} (gs : Generators Ts) ls ps k its es : all_walk gs ls ps -> tuple_at gs ls ps k its ->
  end_at gs ls ps es -> Combine.at_end gs its es = Ok false.
Proof.
  revert ls ps k its es. induction gs as [|T Ts' g gs' IH]; intros ls ps k its es W H He; [done|].
  destruct W as [W Ws], H as (i & j & H & Hi & Hs & _), He as [He Hes]. cbn [Combine.at_end].
  rewrite (walk_equals _ _ _ W _ _ _ _ H He) by lia. rewrite bool_decide_false by lia.
  rewrite bind_ok. by eapply IH.
Qed.

Lemma at_end_finished {Ts} (gs : Generators Ts) ls ps its es : all_walk gs ls ps -> finished gs ls ps its ->
  end_at gs ls ps es -> Combine.at_end gs its es = Ok true.
Proof.
  revert ls ps its es. induction gs as [|T Ts' g gs' IH]; intros ls ps its es W H He; [done|].
  destruct W as [W Ws], He as [He Hes]. cbn [Combine.at_end].
  destruct H as [[H _]|(i & Hi & H & Hs)]; rewrite (walk_equals _ _ _ W _ _ _ _ H He) by lia.
  - by rewrite bool_decide_true.
  - rewrite bool_decide_false by lia. rewrite bind_ok. by eapply IH.
Qed.

Lemma same_tuples {Ts} (gs : Generators Ts) ls ps j k its other : all_walk gs ls ps -> tuple_at gs ls ps j its ->
  tuple_at gs ls ps k other -> Combine.same gs its other = Ok (bool_decide (j = k)).
Proof.
  revert ls ps j k its other.
  induction gs as [|T Ts' g gs' IH]; intros ls ps j k its other W H H'.
  { cbn in *. subst. done. }
  destruct W as [W Ws], H as (i1 & j1 & H & Hi & Hs & ->), H' as (i2 & j2 & H' & Hi' & Hs' & ->).
  cbn [Combine.same]. rewrite (walk_equals _ _ _ W _ _ _ _ H H') by lia. rewrite bind_ok.
  case_bool_decide as E.
  - subst i2. rewrite (IH _ _ _ _ _ _ Ws Hs Hs'). f_equal. apply bool_decide_ext. lia.
  - rewrite bool_decide_false; [done|]. apply tuple_at_lt in Hs, Hs'. nia.
Qed.

Lemma same_finished {Ts} (gs : Generators Ts) ls ps k its other : all_walk gs ls ps -> tuple_at gs ls ps k its ->
  finished gs ls ps other -> Combine.same gs its other = Ok false /\ Combine.same gs other its = Ok false.
Proof.
  revert ls ps k its other.
  induction gs as [|T Ts' g gs' IH]; intros ls ps k its other W H F; [done|].
  destruct W as [W Ws], H as (i1 & j1 & H & Hi & Hs & _). cbn [Combine.same].
  destruct F as [[F _]|(i2 & Hi2 & F & Fs)];
    rewrite (walk_equals _ _ _ W _ _ _ _ H F), (walk_equals _ _ _ W _ _ _ _ F H) by lia;
    rewrite !bind_ok.
  - by rewrite !bool_decide_false by lia.
  - case_bool_decide as E; [|by rewrite bool_decide_false by lia].
    rewrite bool_decide_true by done. by eapply IH.
Qed.

Lemma values_tuple {Ts} (gs : Generators Ts) ls ps k its : all_walk gs ls ps -> tuple_at gs ls ps k its ->
  exists v its', Combine.values gs its = Ok (v, its') /\ product ls !! k = Some v /\
    tuple_at gs ls ps k its'.
Proof.
  revert ls ps k its. induction gs as [|T Ts' g gs' IH]; intros ls ps k its W H.
  { cbn in *. subst. by exists tt, tt. }
  destruct ls as [l ls], W as [W Ws], H as (i & j & H & Hi & Hs & ->). cbn [fst snd] in *.
  destruct (lookup_lt_is_Some_2 l i Hi) as [x Hx].
  cbn [Combine.values]. destruct (walk_current _ _ _ W _ _ _ H Hx) as (it & -> & Hit).
  destruct (IH _ _ _ _ Ws Hs) as (xs & its' & -> & Hxs & Hits).
  exists (x, xs), (it, its'). split; [done|]. split; [by apply product_lookup|].
  exists i, j. by split_and!.
Qed.

(** [++] on the last component and the propagation: the next tuple, or the first
    one again with a carry. *)
Lemma advance_from_tuple {Ts} (gs : Generators Ts) ls ps k its bs es : all_walk gs ls ps -> tuple_at gs ls ps k its ->
  begin_at gs ls ps bs -> end_at gs ls ps es ->
  exists its' carry, Combine.advance_from gs false bs es its = Ok (its', carry) /\
    if carry : bool then S k = length (product ls) /\ tuple_at gs ls ps 0 its'
    else tuple_at gs ls ps (S k) its'.
Proof.
  revert ls ps k its bs es. induction gs as [|T Ts' g gs' IH]; intros ls ps k its bs es W H Hb He.
  { cbn in *. subst. by exists tt, true. }
  destruct ls as [l ls], W as [W Ws], H as (i & j & H & Hi & Hs & ->), Hb as [Hb Hbs], He as [He Hes].
  rewrite product_length_cons. cbn [fst snd Combine.advance_from] in *.
  destruct (IH _ _ _ _ _ _ Ws Hs Hbs Hes) as (its' & [] & -> & Hnext); rewrite bind_ok.
  - destruct Hnext as [HN Hnext]. destruct (walk_advance _ _ _ W _ _ H Hi) as (it & -> & Hit).
    rewrite bind_ok, (walk_equals _ _ _ W _ _ _ _ Hit He) by lia. rewrite bind_ok.
    case_bool_decide as E; cbn [negb]; do 2 eexists; (split; [done|]); cbn.
    + split; [nia|]. exists 0%nat, 0%nat. split_and!; [exact (walk_clone _ _ _ W _ _ Hb)|lia|done|done].
    + exists (S i), 0%nat. split_and!; [done|lia|done|nia].
  - do 2 eexists. split; [done|]. cbn. exists i, (S j). split_and!; [done|done|done|lia].
Qed.


(** [Advance] of a tuple: the next tuple, or the end. *)
Lemma advance_first {T Ts} (g : ParamGeneratorInterface T) (gs : Generators Ts) ls ps k its bs es :
  let gs' := MoreGenerators g gs in
  all_walk gs' ls ps -> tuple_at gs' ls ps k its -> begin_at gs' ls ps bs -> end_at gs' ls ps es ->
  exists its' next, Combine.advance_from gs' true bs es its = Ok (its', next) /\
    (tuple_at gs' ls ps (S k) its' \/ S k = length (product ls) /\ finished gs' ls ps its').
Proof.
  destruct ls as [l ls], ps as [at_ ps], its as [it its], bs as [b bs], es as [e es].
  intros gs' [W Ws] (i & j & H & Hi & Hs & ->) [Hb Hbs] [He Hes]. unfold gs'. clear gs'.
  rewrite product_length_cons. cbn [fst snd Combine.advance_from] in *.
  destruct (advance_from_tuple _ _ _ _ _ _ _ Ws Hs Hbs Hes) as (its' & [] & -> & Hnext); rewrite bind_ok.
  - destruct Hnext as [HN Hnext]. destruct (walk_advance _ _ _ W _ _ H Hi) as (it' & -> & Hit).
    rewrite bind_ok, (walk_equals _ _ _ W _ _ _ _ Hit He) by lia. rewrite bind_ok.
    case_bool_decide as E; cbn [negb]; do 2 eexists; (split; [done|]).
    + right. split; [nia|]. left. cbn. rewrite <- E. split; [done|]. by eapply tuple_within.
    + left. exists (S i), 0%nat. cbn. split_and!; [done|lia|done|nia].
  - do 2 eexists. split; [done|]. left. exists i, (S j). cbn. split_and!; [done|done|done|lia].
Qed.

Section combine.
Context {T : Type} {Ts : list Type} (this : Z) (g : ParamGeneratorInterface T) (gs : Generators Ts).
Context (ls : Lists (T :: Ts)) (ps : Positions (MoreGenerators g gs)).
Context (W : all_walk (MoreGenerators g gs) ls ps).
#[local] Abbreviation generators_ := (MoreGenerators g gs).

(** An iterator at the place [k], and what [ComputeCurrentValue] is given. *)
Definition placed (k : nat) (its : Iterators generators_) : Prop :=
  tuple_at generators_ ls ps k its \/
  k = length (product ls) /\ finished generators_ ls ps its.

Definition product_at (k : nat) (it : Combine.ProductIterator generators_) : Prop :=
  Combine.base_ _ it = this /\ begin_at generators_ ls ps (Combine.begin_ _ it) /\
  end_at generators_ ls ps (Combine.end_ _ it) /\ placed k (Combine.current_ _ it) /\
  forall v, product ls !! k = Some v -> Combine.current_value_ _ it = Some v.

Lemma finished_not_tuple k its : k = length (product ls) -> ~ tuple_at generators_ ls ps k its.
Proof. intros -> H%tuple_at_lt. lia. Qed.

Lemma ComputeCurrentValue_at k b e its v :
  begin_at generators_ ls ps b -> end_at generators_ ls ps e -> placed k its ->
  exists it, Combine.ComputeCurrentValue generators_ (Combine.mkIterator _ this b e its v) = Ok it /\
    product_at k it.
Proof.
  intros Hb He [H|[-> H]]; unfold Combine.ComputeCurrentValue, Combine.AtEnd;
    cbn [Combine.current_ Combine.end_].
  - rewrite (at_end_tuple _ _ _ _ _ _ W H He), bind_ok.
    destruct (values_tuple _ _ _ _ _ W H) as (x & its' & -> & Hx & Hits). eexists. split; [done|].
    split_and!; [done|done|done|by left|]. intros y Hy. rewrite Hx in Hy. exact Hy.
  - rewrite (at_end_finished _ _ _ _ _ W H He), bind_ok. eexists. split; [done|].
    split_and!; [done|done|done|by right|]. intros y Hy%lookup_lt_Some. lia.
Qed.

Lemma AtEnd_at k it : product_at k it ->
  Combine.AtEnd generators_ it = Ok (bool_decide (k = length (product ls))).
Proof.
  intros (_ & _ & He & [H|[-> H]] & _); unfold Combine.AtEnd.
  - rewrite (at_end_tuple _ _ _ _ _ _ W H He), bool_decide_false; [done|]. apply tuple_at_lt in H. lia.
  - by rewrite (at_end_finished _ _ _ _ _ W H He), bool_decide_true.
Qed.

Lemma begin_placed b : begin_at generators_ ls ps b -> placed 0 b.
Proof.
  intros H%begin_tuple. destruct (length (product ls)) eqn:E; [right; by rewrite E|by left].
Qed.

Lemma end_placed e : end_at generators_ ls ps e -> placed (length (product ls)) e.
Proof. intros [H Hs]. right. split; [done|]. left. split; [done|by apply end_within]. Qed.

Lemma clones_placed k its : placed k its -> placed k (Combine.clones generators_ its).
Proof.
  intros [H|[-> H]]; [left; by apply clones_tuple_at|right]. split; [done|by apply clones_finished].
Qed.

Lemma new_iterator_at is_end :
  exists it, Combine.new_iterator generators_ this is_end = Ok it /\
    product_at (if is_end : bool then length (product ls) else 0) it.
Proof.
  unfold Combine.new_iterator.
  destruct (begins_at _ _ _ W) as (b & -> & Hb), (ends_at _ _ _ W) as (e & -> & He).
  rewrite !bind_ok. apply ComputeCurrentValue_at; [done..|]. apply clones_placed.
  destruct is_end; [by apply end_placed|by apply begin_placed].
Qed.

Lemma product_advance_at k it : product_at k it -> (k < length (product ls))%nat ->
  exists it', Combine.advance generators_ it = Ok it' /\ product_at (S k) it'.
Proof.
  intros H Hk. unfold Combine.advance. rewrite (AtEnd_at _ _ H), bool_decide_false by lia.
  rewrite bind_ok. cbn [negb c_assert]. rewrite bind_ok.
  destruct H as (Hbase & Hb & He & [H|[-> _]] & _); [|lia].
  destruct (advance_first _ _ _ _ _ _ _ _ W H Hb He) as (its & next & E & Hnext).
  rewrite E, bind_ok, Hbase. apply ComputeCurrentValue_at; [done..|].
  destruct Hnext as [?|?]; [by left|by right].
Qed.

Lemma product_equals_at j k it other : product_at j it -> product_at k other ->
  Combine.equals generators_ it other = Ok (bool_decide (j = k)).
Proof.
  intros Hj Hk. unfold Combine.equals, check_base. rewrite (AtEnd_at _ _ Hj), (AtEnd_at _ _ Hk).
  destruct Hj as (-> & _ & _ & Hj & _), Hk as (-> & _ & _ & Hk & _).
  rewrite Z.eqb_refl. cbn [c_assert]. rewrite !bind_ok.
  destruct Hj as [Hj|[-> Hj]], Hk as [Hk|[-> Hk]].
  - rewrite bool_decide_false by (intros E; by apply finished_not_tuple in Hj).
    rewrite bind_ok. by apply (same_tuples _ _ _ _ _ _ _ W).
  - rewrite bool_decide_false by (intros E; by apply finished_not_tuple in Hj).
    rewrite bind_ok. destruct (same_finished _ _ _ _ _ _ W Hj Hk) as [-> _]. done.
  - rewrite bool_decide_true by done. rewrite bool_decide_false by (intros E; by apply finished_not_tuple in Hk).
    rewrite bind_ok. destruct (same_finished _ _ _ _ _ _ W Hk Hj) as [_ ->].
    rewrite bool_decide_false; [done|]. intros E. by apply finished_not_tuple in Hk.
  - by rewrite !bool_decide_true by done.
Qed.

Lemma product_walks : walks (Combine.CartesianProductGenerator this g gs) (product ls) product_at.
Proof.
  split; cbn [Iterator Begin End_ Advance Clone Current Equals Combine.CartesianProductGenerator].
  - apply (new_iterator_at false).
  - apply (new_iterator_at true).
  - apply product_advance_at.
  - intros k it (Hbase & Hb & He & H & Hv). split_and!; [done| | | |done].
    + exact (clones_at generators_ _ ls ps _ W Hb).
    + exact (clones_at generators_ _ ls ps _ W He).
    + by apply clones_placed.
  - intros k it v H Hv. exists it. split; [|done]. destruct H as (_ & _ & _ & _ & H).
    unfold Combine.current. by rewrite (H v Hv).
  - intros. by apply product_equals_at.
Qed.

End combine.

Lemma Combine_generates {T Ts} this (g : ParamGeneratorInterface T) (gs : Generators Ts) ls :
  all_generate (MoreGenerators g gs) ls ->
  generates (Combine.CartesianProductGenerator this g gs) (product ls).
Proof.
  intros H. destruct (all_generate_walk _ _ H) as [ps W]. eexists. by apply product_walks.
Qed.

(** ** ConvertGenerator generates the converted values *)

Section convert.
Context {From To : Type} (cast : From -> To) (g : ParamGeneratorInterface From) (this : Z).
Context (l : list From) (at_ : nat -> Iterator g -> Prop) (W : walks g l at_).

Definition converted_at (k : nat) (it : Convert.ConvertIterator (To := To) g) : Prop :=
  Convert.base_ _ it = this /\ (k <= length l)%nat /\ at_ k (Convert.it_ _ it) /\
  at_ (length l) (Convert.end_ _ it) /\
  forall x, l !! k = Some x -> Convert.value_ _ it = Some (cast x).

Lemma update_value_at k i e v : (k <= length l)%nat -> at_ k i -> at_ (length l) e ->
  exists it, Convert.update_value cast g (Convert.mkIterator g this i e v) = Ok it /\ converted_at k it.
Proof.
  intros Hk Hi He. unfold Convert.update_value. cbn [Convert.it_ Convert.end_ Convert.base_].
  rewrite (walk_equals _ _ _ W _ _ _ _ Hi He) by lia. rewrite bind_ok. case_bool_decide as E.
  - eexists. split; [done|]. split_and!; try done. intros x Hx%lookup_lt_Some. lia.
  - destruct (lookup_lt_is_Some_2 l k) as [x Hx]; [lia|].
    destruct (walk_current _ _ _ W _ _ _ Hi Hx) as (i' & -> & Hi'). eexists. split; [done|].
    split_and!; try done. intros y. cbn. congruence.
Qed.

Lemma new_converted_at k i e : (k <= length l)%nat -> at_ k i -> at_ (length l) e ->
  exists it, Convert.new_iterator cast g this i e = Ok it /\ converted_at k it.
Proof. intros. apply update_value_at; [done|by eapply walk_clone..]. Qed.

Lemma Convert_walks : walks (Convert.ParamGeneratorConverter cast g this) (map cast l) converted_at.
Proof.
  destruct (walk_begin _ _ _ W) as (b & Eb & Hb), (walk_end _ _ _ W) as (e & Ee & He).
  split; cbn [Iterator Begin End_ Advance Clone Current Equals Convert.ParamGeneratorConverter];
    rewrite ?length_map.
  - rewrite Eb, Ee, !bind_ok. apply new_converted_at; [lia|done..].
  - rewrite Ee, !bind_ok. by apply new_converted_at.
  - intros k it (Hbase & _ & Hi & Hend & _) Hk. unfold Convert.advance.
    destruct (walk_advance _ _ _ W _ _ Hi Hk) as (i' & -> & Hi'). rewrite bind_ok, Hbase.
    by apply update_value_at.
  - intros k it (? & ? & ? & ? & ?). split_and!; try done; cbn; by eapply walk_clone.
  - intros k it y H Hy. exists it. split; [|done]. destruct H as (_ & _ & _ & _ & Hv).
    apply list_lookup_fmap_Some in Hy as (x & -> & Hx). unfold Convert.current. by rewrite (Hv x Hx).
  - intros j k it other (Hb1 & _ & Hj & _) (Hb2 & _ & Hk & _) Hjl Hkl.
    unfold Convert.equals, check_base. rewrite Hb1, Hb2, Z.eqb_refl. cbn [c_assert]. rewrite bind_ok.
    apply (walk_equals _ _ _ W); [done|by eapply walk_clone|lia|lia].
Qed.

End convert.

Lemma Convert_generates {From To} (cast : From -> To) g this l :
  generates g l -> generates (Convert.ParamGeneratorConverter cast g this) (map cast l).
Proof. intros [at_ W]. eexists. by apply Convert_walks. Qed.

(** ** The loop over a combination *)

(** A tuple of elements of the lists. *)
Fixpoint tuple_of {Ts : list Type} : Lists Ts -> Tuple Ts -> Prop :=
  match Ts with
  | [] => fun _ _ => True
  | T :: Ts => fun ls v => v.1 ∈ ls.1 /\ tuple_of ls.2 v.2
  end.

Lemma product_elem {Ts : list Type} (ls : Lists Ts) v : v ∈ product ls <-> tuple_of ls v.
Proof.
  induction Ts as [|T Ts IH].
  - destruct v. split; [done|]. intros _. by left.
  - destruct ls as [l ls], v as [x v]. cbn [product tuple_of fst snd]. rewrite <- IH.
    rewrite list_elem_of_In, in_flat_map, !list_elem_of_In. split.
    + intros (y & Hy & Hin). apply in_map_iff in Hin as (w & E & Hw). by injection E as -> ->.
    + intros [Hx Hv]. exists x. split; [done|]. apply in_map_iff. by exists v.
Qed.

(** A tuple comes before those that are greater in the first component at which
    they differ: [position] is the number in mixed radix. *)
Fixpoint position {Ts : list Type} : Lists Ts -> list nat -> nat :=
  match Ts with
  | [] => fun _ _ => 0%nat
  | T :: Ts => fun ls is_ => match is_ with
                             | [] => 0%nat
                             | i :: is_ => (i * length (product ls.2) + position ls.2 is_)%nat
                             end
  end.
Fixpoint components {Ts : list Type} : Lists Ts -> list nat -> option (Tuple Ts) :=
  match Ts with
  | [] => fun _ _ => Some tt
  | T :: Ts => fun ls is_ => match is_ with
                             | [] => None
                             | i :: is_ => x ← ls.1 !! i; v ← components ls.2 is_; Some (x, v)
                             end
  end.

Lemma product_position {Ts : list Type} (ls : Lists Ts) is_ v :
  components ls is_ = Some v -> product ls !! position ls is_ = Some v.
Proof.
  revert is_. induction Ts as [|T Ts IH]; intros is_; [by destruct v|].
  destruct ls as [l ls], is_ as [|i is_]; [done|]. cbn [components position fst snd].
  destruct (l !! i) as [x|] eqn:Hx; [|done]. destruct (components ls is_) as [w|] eqn:Hw; [|done].
  intros [= <-]. apply product_lookup; [done|by apply IH].
Qed.

(** C35. [for (const auto& param : Combine(g1, ..., gn))]: if every component generates
    its list, the loop runs over all tuples of elements, each at the position
    that the last component, changing fastest, gives it. *)
Theorem Combine_correct {S T Ts} this (g : ParamGeneratorInterface T) (gs : Generators Ts) ls
    (body : S -> Tuple (T :: Ts) -> outcome S) fuel s :
  all_generate (MoreGenerators g gs) ls -> (length (product ls) < fuel)%nat ->
  for_each_param fuel (Combine.CartesianProductGenerator this g gs) body s =
    for_each_of body (product ls) s /\
  (forall v, v ∈ product ls <-> tuple_of ls v) /\
  (forall is_ v, components ls is_ = Some v -> product ls !! position ls is_ = Some v).
Proof.
  intros H Hfuel. split; [|split].
  - apply for_each_param_generates; [by apply Combine_generates|done].
  - apply product_elem.
  - apply product_position.
Qed.

Definition collect {T} (acc : list T) (x : T) : outcome (list T) := Ok (acc ++ [x]).

Lemma Combine_correct_witness :
  exists g, Range.RangeGenerator iadd Z.ltb 3 1 1 4 2 = Ok g /\
    for_each_param 9
      (Combine.CartesianProductGenerator 2 g
         (MoreGenerators (Bool 3) (MoreGenerators
            (Convert.ParamGeneratorConverter Z.opp (Values 4 [5; 6]) 5) NoGenerators)))
      collect [] =
    Ok [(1, (false, (-5, tt))); (1, (false, (-6, tt))); (1, (true, (-5, tt))); (1, (true, (-6, tt)));
        (3, (false, (-5, tt))); (3, (false, (-6, tt))); (3, (true, (-5, tt))); (3, (true, (-6, tt)))].
Proof.
  destruct (RangeGenerator_generates iadd Z.ltb 1 1 4 2 [1; 3] 3) as (g & Eg & Hg).
  - apply (int_stepped 1 4 2 2); [done..|]. intros k Hk. lia.
  - simpl. lia.
  - done.
  - exists g. split; [exact Eg|].
    destruct (Combine_correct 2 g
         (MoreGenerators (Bool 3) (MoreGenerators
            (Convert.ParamGeneratorConverter Z.opp (Values 4 [5; 6]) 5) NoGenerators))
         ([1; 3], ([false; true], ([-5; -6], tt))) collect 9 []) as [E _].
    + split; [exact Hg|]. split; [apply ValuesIn_generates|].
      split; [exact (Convert_generates Z.opp _ _ [5; 6] (ValuesIn_generates 4 [5; 6]))|exact I].
    + simpl. lia.
    + rewrite E. reflexivity.
Defined.

(** ** Ranges that go wrong *)

(** The end index is found by stepping past the end: the last step may overflow
    although every value of the range is an [int]. *)
Lemma range_overflows this : Range.RangeGenerator iadd Z.ltb 3 this (INT_MAX - 1) INT_MAX 2 = Err IntOverflow.
Proof. reflexivity. Qed.

(** In a narrow type it wraps around, and the loop does not end: [Range] from 0
    to 255 by 2 over [unsigned char] makes no generator. *)
Definition plus_uchar (x step : Z) : outcome Z := Ok ((x + step) mod 256).

Lemma range_uchar_never_ends this fuel :
  exists e, Range.RangeGenerator plus_uchar Z.ltb fuel this 0 255 2 = Err e.
Proof.
  unfold Range.RangeGenerator, Range.CalculateEndIndex.
  assert (H : forall i n, 0 <= i < 256 -> Z.even i = true ->
            exists e, Range.end_index_loop plus_uchar Z.ltb fuel i 255 2 n = Err e).
  { induction fuel as [|fuel IH]; intros i n Hi Heven; [by eexists|]. cbn [Range.end_index_loop].
    assert (i <> 255) by (by intros ->). rewrite (proj2 (Z.ltb_lt _ _)) by lia.
    destruct (iadd n 1); [|by eexists]. rewrite bind_ok.
    change (plus_uchar i 2) with (@Ok Z ((i + 2) mod 256)). rewrite bind_ok.
    apply IH; [apply Z.mod_pos_bound; lia|].
    apply Z.even_spec in Heven as [k ->]. apply Z.even_spec. exists ((k + 1) mod 128).
    replace (2 * k + 2) with (2 * (k + 1)) by lia.
    rewrite <- (Z.mul_mod_distr_l (k + 1) 128 2) by lia. done. }
  destruct (H 0 0) as [e ->]; [lia|done|by eexists].
Qed.
