(* ===== verification/Runner.v ===== *)
(** * Running the tests (gtest.cc)

    From [UnitTest::Run] down to the methods of a fixture.  The code of the user
    (fixtures, tests, environments) is a parameter: for every piece of it, and
    every state of the user's program, a [body], the tree of what it does that
    the framework can see.  The listeners only observe, the reporters of test
    parts are the default ones, and exceptions of the framework are not caught
    by the user. *)

From S2P Require Import Prelude Outcome Common CStr FilePath TestFilter TestResult TestSelect UnitTest ReportFormat CommandLine XmlReport JsonReport Listeners.

(** ** The code of the user *)

(** What can be thrown. *)
Inductive exn : Type :=
  | AssertionException
  | GoogleTestFailureException
  | StdException (what : text)
  | OtherException.

(** The pieces of code that the framework calls, by the identity of the factory,
    function or environment. *)
Inductive UserCode : Type :=
  | CreateTest (factory : Z) | SetUp (factory : Z) | TestBody (factory : Z)
  | TearDown (factory : Z) | DeleteSelf (factory : Z)
  | SetUpTestSuite (set_up_tc : Z) | TearDownTestSuite (tear_down_tc : Z)
  | EnvSetUp (env : Z) | EnvTearDown (env : Z).

Record TraceInfo : Type := mkTraceInfo {
  trace_file : text; trace_line : Z; trace_message : text }.

(** [Done] is the end of a block, [Return] leaves the function, as a fatal
    assertion does after its report.  [Scoped] is the rest of a block after a
    [SCOPED_TRACE] and what follows the block. *)
Inductive body (U : Type) : Type :=
  | Done
  | Return
  | Throw (e : exn)
  | SetUser (u : U) (k : body U)
  | SetFlags (fl : Flags) (k : body U)
  | Report (result_type : TestPartType) (file_name : option text) (line_number : Z)
      (message : text) (k : body U)
  | Property (key value : text) (k : body U)
  | Scoped (trace : TraceInfo) (block k : body U)
  | AskFatalFailure (k : bool -> body U)
  | AskSkipped (k : bool -> body U).
Arguments Done {U}. Arguments Return {U}. Arguments Throw {U}. Arguments SetUser {U}.
Arguments SetFlags {U}. Arguments Report {U}. Arguments Property {U}. Arguments Scoped {U}.
Arguments AskFatalFailure {U}. Arguments AskSkipped {U}.

(** ** The state of a run *)

(** What happens, in order: a piece of user code starts, a listener is called. *)
Inductive Step : Type :=
  | Called (c : UserCode)
  | Delivered (l : Listener) (e : Event).

(** The state of the initialisation: the variables [g_argvs] and [g_help_flag],
    what [PostFlagParsingInit] sets, and the address of the next new listener. *)
Record Setup : Type := mkSetup {
  g_argvs : list text; help_flag : bool; post_flag_parse_init_performed_ : bool;
  internal_run_death_test_flag_ : option InternalRunDeathTestFlag; next_address : Z }.

(** [current_test_suite_] and [current_test_info_] are the positions of the suite
    and of the test in it. *)
Record World (U : Type) : Type := mkWorld {
  user : U; unit_ : UnitTest;
  current_test_suite_ : option nat; current_test_info_ : option (nat * nat);
  gtest_trace_stack : list TraceInfo; flags_ : Flags; catch_exceptions_ : bool;
  listeners : TestEventListeners; steps : list Step; printed : text; ticks : nat; setup : Setup }.
Arguments mkWorld {U}. Arguments user {U}. Arguments unit_ {U}.
Arguments current_test_suite_ {U}. Arguments current_test_info_ {U}.
Arguments gtest_trace_stack {U}. Arguments flags_ {U}. Arguments catch_exceptions_ {U}.
Arguments listeners {U}. Arguments steps {U}. Arguments printed {U}. Arguments ticks {U}.
Arguments setup {U}.

Section setters.
Context {U : Type}.
Implicit Type w : World U.

Definition with_user w u : World U :=
  mkWorld u (unit_ w) (current_test_suite_ w) (current_test_info_ w) (gtest_trace_stack w)
    (flags_ w) (catch_exceptions_ w) (listeners w) (steps w) (printed w) (ticks w) (setup w).
Definition with_unit w u : World U :=
  mkWorld (user w) u (current_test_suite_ w) (current_test_info_ w) (gtest_trace_stack w)
    (flags_ w) (catch_exceptions_ w) (listeners w) (steps w) (printed w) (ticks w) (setup w).
Definition with_current w s t : World U :=
  mkWorld (user w) (unit_ w) s t (gtest_trace_stack w)
    (flags_ w) (catch_exceptions_ w) (listeners w) (steps w) (printed w) (ticks w) (setup w).
Definition with_trace_stack w ts : World U :=
  mkWorld (user w) (unit_ w) (current_test_suite_ w) (current_test_info_ w) ts
    (flags_ w) (catch_exceptions_ w) (listeners w) (steps w) (printed w) (ticks w) (setup w).
Definition with_flags_ w fl : World U :=
  mkWorld (user w) (unit_ w) (current_test_suite_ w) (current_test_info_ w) (gtest_trace_stack w)
    fl (catch_exceptions_ w) (listeners w) (steps w) (printed w) (ticks w) (setup w).
Definition set_catch_exceptions w c : World U :=
  mkWorld (user w) (unit_ w) (current_test_suite_ w) (current_test_info_ w) (gtest_trace_stack w)
    (flags_ w) c (listeners w) (steps w) (printed w) (ticks w) (setup w).
Definition add_steps w (ss : list Step) : World U :=
  mkWorld (user w) (unit_ w) (current_test_suite_ w) (current_test_info_ w) (gtest_trace_stack w)
    (flags_ w) (catch_exceptions_ w) (listeners w) (steps w ++ ss) (printed w) (ticks w) (setup w).
Definition add_printed w (out : text) : World U :=
  mkWorld (user w) (unit_ w) (current_test_suite_ w) (current_test_info_ w) (gtest_trace_stack w)
    (flags_ w) (catch_exceptions_ w) (listeners w) (steps w) (printed w ++ out) (ticks w) (setup w).
Definition tick w : World U :=
  mkWorld (user w) (unit_ w) (current_test_suite_ w) (current_test_info_ w) (gtest_trace_stack w)
    (flags_ w) (catch_exceptions_ w) (listeners w) (steps w) (printed w) (S (ticks w)) (setup w).
Definition with_listeners w ls : World U :=
  mkWorld (user w) (unit_ w) (current_test_suite_ w) (current_test_info_ w) (gtest_trace_stack w)
    (flags_ w) (catch_exceptions_ w) ls (steps w) (printed w) (ticks w) (setup w).
Definition with_setup w st : World U :=
  mkWorld (user w) (unit_ w) (current_test_suite_ w) (current_test_info_ w) (gtest_trace_stack w)
    (flags_ w) (catch_exceptions_ w) (listeners w) (steps w) (printed w) (ticks w) st.
End setters.

(** ** Results, by position *)

(** Where a test part or property goes: [current_test_result]. *)
Inductive Place : Type := InTest (si ti : nat) | InSuite (si : nat) | InProgram.

Definition place {U} (w : World U) : Place :=
  match current_test_info_ w with
  | Some (si, ti) => InTest si ti
  | None => match current_test_suite_ w with Some si => InSuite si | None => InProgram end
  end.

Definition suites_of (u : UnitTest) : list TestSuite := test_suites_ (unit_suites u).
Definition set_suites (u : UnitTest) (l : list TestSuite) : UnitTest :=
  with_suites u (mkSuites l (test_suite_indices_ (unit_suites u))
                   (last_death_test_suite_ (unit_suites u))).
Definition update_suite (si : nat) (f : TestSuite -> TestSuite) (u : UnitTest) : UnitTest :=
  set_suites u (alter f si (suites_of u)).
Definition set_tests (s : TestSuite) (l : list TestInfo) : TestSuite :=
  with_tests s l (test_indices_ s) (suite_should_run_ s) (ad_hoc_test_result_ s).
Definition set_ad_hoc (s : TestSuite) (r : TestResult) : TestSuite :=
  with_tests s (test_info_list_ s) (test_indices_ s) (suite_should_run_ s) r.
Definition update_test (si ti : nat) (f : TestInfo -> TestInfo) : UnitTest -> UnitTest :=
  update_suite si (fun s => set_tests s (alter f ti (test_info_list_ s))).

Definition result_at (p : Place) (u : UnitTest) : option TestResult :=
  match p with
  | InTest si ti => s ← suites_of u !! si; t ← test_info_list_ s !! ti; Some (result_ t)
  | InSuite si => s ← suites_of u !! si; Some (ad_hoc_test_result_ s)
  | InProgram => Some (unit_ad_hoc u)
  end.
Definition update_result (p : Place) (f : TestResult -> TestResult) (u : UnitTest) : UnitTest :=
  match p with
  | InTest si ti => update_test si ti (fun t => with_result t (f (result_ t))) u
  | InSuite si => update_suite si (fun s => set_ad_hoc s (f (ad_hoc_test_result_ s))) u
  | InProgram => with_ad_hoc u (f (unit_ad_hoc u))
  end.

Definition set_start (ms : Z) (r : TestResult) : TestResult :=
  mkTestResult (test_part_results_ r) (test_properties_ r) (death_test_count_ r) ms
    (elapsed_time_ r).
Definition set_elapsed (ms : Z) (r : TestResult) : TestResult :=
  mkTestResult (test_part_results_ r) (test_properties_ r) (death_test_count_ r)
    (start_timestamp_ r) ms.

(** ** State and exceptions *)

Inductive res (A : Type) : Type := Val (a : A) | Exn (e : exn).
Arguments Val {A}. Arguments Exn {A}.

Section runner.
Context {U : Type}.

Definition M (A : Type) : Type := World U -> outcome (World U * res A).

Definition ret {A} (a : A) : M A := fun w => Ok (w, Val a).
Definition bind {A B} (m : M A) (k : A -> M B) : M B := fun w =>
  '(w, r) ← m w; match r with Val a => k a w | Exn e => Ok (w, Exn e) end.
Definition throw {A} (e : exn) : M A := fun w => Ok (w, Exn e).
Definition get {A} (f : World U -> A) : M A := fun w => Ok (w, Val (f w)).
Definition modify (f : World U -> World U) : M unit := fun w => Ok (f w, Val tt).
Definition lift {A} (o : outcome A) : M A := fun w => a ← o; Ok (w, Val a).

#[local] Notation "x ⇐ m ;; k" := (bind m (fun x => k))
  (at level 63, m at next level, right associativity).
#[local] Notation "m ;;; k" := (bind m (fun _ => k)) (at level 63, right associativity).

(** [try { m } catch] with a handler for each exception. *)
Definition catch {A} (m : M A) (handler : exn -> M A) : M A := fun w =>
  '(w, r) ← m w; match r with Val a => Ok (w, Val a) | Exn e => handler e w end.

Definition when (b : bool) (m : M unit) : M unit := if b then m else ret tt.
Fixpoint for_each {A} (l : list A) (f : A -> M unit) : M unit :=
  match l with [] => ret tt | x :: l => f x ;;; for_each l f end.

(** What the environment of the program supplies: the user's code, the two
    clocks by the number of readings before, the name under which gtest.cc was
    compiled, the environment variables and the terminal. *)
Variable program : UserCode -> U -> body U.
Variables system_clock steady_clock : nat -> Z.
Variable gtest_cc : text.
Variable getenv : text -> option text.
Variable stdout_is_tty : bool.

(** [GetTestTypeId]: the fixture class of [TEST]. *)
Variable GetTestTypeId : Z.

(** ** Reporting *)

(** A call of a method of the repeater. *)
Definition broadcast (e : World U -> Event) : M unit :=
  modify (fun w => add_steps w (map (fun c => Delivered (fst c) (snd c))
                                  (forward (repeater_ (listeners w)) (e w)))).

Definition trace_text (ts : list TraceInfo) : text :=
  match ts with
  | [] => []
  | _ => LF :: GTEST_NAME_ ++ str " trace:" ++
         flat_map (fun t => LF :: FormatFileLocation (Some (trace_file t)) (trace_line t) ++ str " " ++
                            trace_message t) (rev ts)
  end.

(** The two default reporters, one after the other. *)
Definition ReportTestPartResult (result : TestPartResult) : M unit :=
  p ⇐ get place ;;
  r ⇐ get (fun w => result_at p (unit_ w)) ;;
  lift (or_fault InvalidDeref r) ;;;
  modify (fun w => with_unit w (update_result p (fun r => AddTestPartResult r result) (unit_ w))) ;;;
  broadcast (fun _ => OnTestPartResult result).

(** [UnitTest::AddTestPartResult]; [break_on_failure] ends the process. *)
Definition UnitTest_AddTestPartResult (result_type : TestPartType) (file_name : option text)
    (line_number : Z) (message os_stack_trace : text) : M unit :=
  ts ⇐ get gtest_trace_stack ;;
  let msg := message ++ trace_text ts ++
             (if bool_decide (os_stack_trace = []) then [LF]
              else kStackTraceMarker ++ os_stack_trace) in
  let result := new_TestPartResult result_type file_name line_number (StringStreamToString msg) in
  ReportTestPartResult result ;;;
  match result_type with
  | kSuccess | kSkip => ret tt
  | _ =>
      fl ⇐ get flags_ ;;
      if bools fl Flag.break_on_failure then lift (Err ProcessExit)
      else if bools fl Flag.throw_on_failure then throw GoogleTestFailureException
      else ret tt
  end.

(** [ADD_FAILURE() << message] at a line of gtest.cc. *)
Definition ADD_FAILURE (line : Z) (message : text) : M unit :=
  UnitTest_AddTestPartResult kNonFatalFailure (Some gtest_cc) line
    (AppendUserMessage (str "Failed") message) [].

Definition ReportFailureInUnknownLocation (result_type : TestPartType) (message : text) : M unit :=
  UnitTest_AddTestPartResult result_type None (-1) message [].

(** [UnitTest::RecordProperty]. *)
Definition element_of_place (p : Place) : text :=
  match p with
  | InTest _ _ => str "testcase" | InSuite _ => str "testsuite" | InProgram => str "testsuites"
  end.
Definition UnitTest_RecordProperty (key value : text) : M unit :=
  p ⇐ get place ;;
  o ⇐ get (fun w => result_at p (unit_ w)) ;;
  r ⇐ lift (or_fault InvalidDeref o) ;;
  out ⇐ lift (RecordProperty r (element_of_place p) (mkTestProperty key value)) ;;
  modify (fun w => with_unit w (update_result p
            (fun r => with_properties r (test_properties_ (fst out))) (unit_ w))) ;;;
  for_each (snd out) (fun failure => ADD_FAILURE 2409 failure).

(** ** Queries of the current result *)

Definition current_result : M TestResult :=
  o ⇐ get (fun w => result_at (place w) (unit_ w)) ;; lift (or_fault InvalidDeref o).
Definition Test_HasFatalFailure : M bool := r ⇐ current_result ;; lift (HasFatalFailure r).
Definition Test_IsSkipped : M bool := r ⇐ current_result ;; lift (Skipped r).
(** [!HasFatalFailure() && !IsSkipped()]. *)
Definition may_go_on : M bool :=
  fatal ⇐ Test_HasFatalFailure ;;
  if fatal : bool then ret false else skipped ⇐ Test_IsSkipped ;; ret (negb skipped).

(** ** Running a piece of user code *)

(** Whether the function has returned before its end. *)
Fixpoint run_body (b : body U) : M bool :=
  match b with
  | Done => ret false
  | Return => ret true
  | Throw e => throw e
  | SetUser u k => modify (fun w => with_user w u) ;;; run_body k
  | SetFlags fl k => modify (fun w => with_flags_ w fl) ;;; run_body k
  | Report result_type file_name line_number message k =>
      UnitTest_AddTestPartResult result_type file_name line_number message [] ;;; run_body k
  | Property key value k => UnitTest_RecordProperty key value ;;; run_body k
  | Scoped trace block k =>
      modify (fun w => with_trace_stack w (gtest_trace_stack w ++ [trace])) ;;;
      returned ⇐ catch (run_body block)
                   (fun e => modify (fun w => with_trace_stack w (removelast (gtest_trace_stack w))) ;;;
                             throw e) ;;
      modify (fun w => with_trace_stack w (removelast (gtest_trace_stack w))) ;;;
      if returned : bool then ret true else run_body k
  | AskFatalFailure k => b ⇐ Test_HasFatalFailure ;; run_body (k b)
  | AskSkipped k => b ⇐ Test_IsSkipped ;; run_body (k b)
  end.

Definition call (c : UserCode) : M unit :=
  modify (fun w => add_steps w [Called c]) ;;;
  u ⇐ get user ;;
  run_body (program c u) ;;;
  ret tt.

(** ** Exceptions *)

Definition FormatCxxExceptionMessage (description : option text) (location : text) : text :=
  match description with
  | Some d => str "C++ exception with description " ++ QUOTE :: d ++ [QUOTE]
  | None => str "Unknown C++ exception"
  end ++ str " thrown in " ++ location ++ str ".".

(** [zero] is the 0-value of the result. *)
Definition HandleExceptionsInMethodIfSupported {A} (zero : A) (method : M A)
    (location : String.string) : M A :=
  catch_exceptions ⇐ get catch_exceptions_ ;;
  if catch_exceptions : bool then
    catch method (fun e =>
      match e with
      | AssertionException => ret zero
      | GoogleTestFailureException => throw GoogleTestFailureException
      | StdException what =>
          ReportFailureInUnknownLocation kFatalFailure
            (FormatCxxExceptionMessage (Some what) (str location)) ;;; ret zero
      | OtherException =>
          ReportFailureInUnknownLocation kFatalFailure
            (FormatCxxExceptionMessage None (str location)) ;;; ret zero
      end)
  else method.

(** ** Test *)

(** An object of a fixture class; the constructor of [Test] saves the flags. *)
Record TestObject : Type := mkTestObject { object_factory : Z; gtest_flag_saver_ : Flags }.

Definition restore_flags (saved : Flags) : M unit :=
  modify (fun w => with_flags_ w (restore saved (flags_ w))).

(** [TestFactoryImpl::CreateTest]: if the constructor throws, the destructor of
    the base class still restores the flags. *)
Definition CreateTest_ (factory : Z) : M (option TestObject) :=
  saved ⇐ get flags_ ;;
  catch (call (CreateTest factory)) (fun e => restore_flags saved ;;; throw e) ;;;
  ret (Some (mkTestObject factory saved)).

(** [DeleteSelf_]: an exception that leaves a destructor ends the process. *)
Definition DeleteSelf_ (test : TestObject) : M unit :=
  catch (call (DeleteSelf (object_factory test))) (fun _ => lift (Err ProcessExit)) ;;;
  restore_flags (gtest_flag_saver_ test).

Definition suite_at (si : nat) : M TestSuite :=
  o ⇐ get (fun w => suites_of (unit_ w) !! si) ;; lift (or_fault InvalidDeref o).
Definition test_at (si ti : nat) : M TestInfo :=
  s ⇐ suite_at si ;; lift (or_fault InvalidDeref (test_info_list_ s !! ti)).

(** The message of [HasSameFixtureClass], by whether one of the two is a [TEST]. *)
Definition mixed_fixture_text (suite_name TEST_F_name TEST_name : text) : text :=
  str "All tests in the same test suite must use the same test fixture" ++ [LF] ++
  str "class, so mixing TEST_F and TEST in the same test suite is" ++ [LF] ++
  str "illegal.  In test suite " ++ suite_name ++ str "," ++ [LF] ++
  str "test " ++ TEST_F_name ++ str " is defined using TEST_F but" ++ [LF] ++
  str "test " ++ TEST_name ++ str " is defined using TEST.  You probably" ++ [LF] ++
  str "want to change the TEST to TEST_F or move it to another test" ++ [LF] ++ str "case.".
Definition two_fixtures_text (suite_name first_test_name this_test_name : text) : text :=
  str "All tests in the same test suite must use the same test fixture" ++ [LF] ++
  str "class.  However, in test suite " ++ suite_name ++ str "," ++ [LF] ++
  str "you defined test " ++ first_test_name ++ str " and test " ++ this_test_name ++ [LF] ++
  str "using two different test fixture classes.  This can happen if" ++ [LF] ++
  str "the two classes are from different namespaces or translation" ++ [LF] ++
  str "units and have the same name.  You should probably rename one" ++ [LF] ++
  str "of the classes to put the tests into different test suites.".

Definition HasSameFixtureClass : M bool :=
  cs ⇐ get current_test_suite_ ;;
  si ⇐ lift (or_fault InvalidDeref cs) ;;
  first_test_info ⇐ test_at si 0 ;;
  ct ⇐ get current_test_info_ ;;
  pos ⇐ lift (or_fault InvalidDeref ct) ;;
  this_test_info ⇐ test_at (fst pos) (snd pos) ;;
  let first_fixture_id := fixture_class_id_ first_test_info in
  let this_fixture_id := fixture_class_id_ this_test_info in
  if this_fixture_id =? first_fixture_id then ret true
  else
    let first_is_TEST := first_fixture_id =? GetTestTypeId in
    let this_is_TEST := this_fixture_id =? GetTestTypeId in
    let first_test_name := test_name_ first_test_info in
    let this_test_name := test_name_ this_test_info in
    (if first_is_TEST || this_is_TEST then
       ADD_FAILURE 2562 (mixed_fixture_text (test_suite_name_ this_test_info)
         (if first_is_TEST then this_test_name else first_test_name)
         (if first_is_TEST then first_test_name else this_test_name))
     else
       ADD_FAILURE 2574 (two_fixtures_text (test_suite_name_ this_test_info) first_test_name
         this_test_name)) ;;;
    ret false.

(** [Test::Run]. *)
Definition Test_Run (test : TestObject) : M unit :=
  same ⇐ HasSameFixtureClass ;;
  if negb same then ret tt else
  HandleExceptionsInMethodIfSupported tt (call (SetUp (object_factory test))) "SetUp()" ;;;
  go_on ⇐ may_go_on ;;
  when go_on (HandleExceptionsInMethodIfSupported tt (call (TestBody (object_factory test)))
                "the test body") ;;;
  HandleExceptionsInMethodIfSupported tt (call (TearDown (object_factory test))) "TearDown()".

(** ** TestInfo *)

(** A reading of a clock; the time that a timer shows, in milliseconds. *)
Definition GetTimeInMillis : M Z :=
  t ⇐ get (fun w => system_clock (ticks w)) ;; modify tick ;;; ret t.
Definition new_Timer : M Z :=
  t ⇐ get (fun w => steady_clock (ticks w)) ;; modify tick ;;; ret t.
Definition Elapsed (start_ : Z) : M Z :=
  t ⇐ get (fun w => steady_clock (ticks w)) ;; modify tick ;;; ret (Z.quot (t - start_) 1000000).

Definition set_current_test_info (t : option (nat * nat)) : M unit :=
  modify (fun w => with_current w (current_test_suite_ w) t).
Definition set_current_test_suite (s : option nat) : M unit :=
  modify (fun w => with_current w s (current_test_info_ w)).
Definition modify_unit (f : UnitTest -> UnitTest) : M unit :=
  modify (fun w => with_unit w (f (unit_ w))).

(** An event about the test or suite at a position, as it is now. *)
Definition test_event (e : TestInfo -> Event) (si ti : nat) : M unit :=
  t ⇐ test_at si ti ;; broadcast (fun _ => e t).
Definition suite_event (e : TestSuite -> Event) (si : nat) : M unit :=
  s ⇐ suite_at si ;; broadcast (fun _ => e s).

(** [TestInfo::Run] of the test at a position. *)
Definition TestInfo_Run (si ti : nat) : M unit :=
  this ⇐ test_at si ti ;;
  if negb (should_run_ this) then
    when (is_disabled_ this && matches_filter_ this) (test_event OnTestDisabled si ti)
  else
    set_current_test_info (Some (si, ti)) ;;;
    test_event OnTestStart si ti ;;;
    now ⇐ GetTimeInMillis ;;
    modify_unit (update_result (InTest si ti) (set_start now)) ;;;
    timer ⇐ new_Timer ;;
    test ⇐ HandleExceptionsInMethodIfSupported None (CreateTest_ (factory_ this))
             "the test fixture's constructor" ;;
    go_on ⇐ may_go_on ;;
    when go_on (object ⇐ lift (or_fault InvalidDeref test) ;; Test_Run object) ;;;
    match test with
    | None => ret tt
    | Some object => HandleExceptionsInMethodIfSupported tt (DeleteSelf_ object)
                       "the test fixture's destructor"
    end ;;;
    elapsed ⇐ Elapsed timer ;;
    modify_unit (update_result (InTest si ti) (set_elapsed elapsed)) ;;;
    test_event OnTestEnd si ti ;;;
    set_current_test_info None.

Definition TestInfo_Skip (si ti : nat) : M unit :=
  this ⇐ test_at si ti ;;
  if negb (should_run_ this) then ret tt
  else
    set_current_test_info (Some (si, ti)) ;;;
    test_event OnTestStart si ti ;;;
    ReportTestPartResult
      (new_TestPartResult kSkip (Some (c_str (loc_file (location_ this)))) (loc_line (location_ this)) []) ;;;
    test_event OnTestEnd si ti ;;;
    set_current_test_info None.


(** ** TestSuite *)

(** [std::strcmp(a, b) < 0] and [std::strcmp(a, b) != 0], of bytes as unsigned. *)
Fixpoint strcmp_lt (a b : text) : bool :=
  match a, b with
  | _, [] => false
  | [], _ :: _ => true
  | x :: a, y :: b => (code x <? code y) || ((code x =? code y) && strcmp_lt a b)
  end.
Definition comes_before (a b : TestInfo) : bool :=
  let file t := c_str (loc_file (location_ t)) in
  if negb (bool_decide (file a = file b)) then strcmp_lt (file a) (file b)
  else loc_line (location_ a) <? loc_line (location_ b).

(** [std::stable_sort]: equivalent elements keep their order. *)
Fixpoint insert_stable {A} (lt : A -> A -> bool) (x : A) (l : list A) : list A :=
  match l with
  | [] => [x]
  | y :: l => if lt y x then y :: insert_stable lt x l else x :: y :: l
  end.
Definition stable_sort {A} (lt : A -> A -> bool) (l : list A) : list A :=
  foldr (insert_stable lt) [] l.

Definition sort_tests (s : TestSuite) : TestSuite :=
  set_tests s (stable_sort comes_before (test_info_list_ s)).

(** [GetMutableTestInfo(i)]: the position of the test; -1 is a null pointer. *)
Definition GetMutableTestInfo (si i : nat) : M nat :=
  s ⇐ suite_at si ;;
  let index := GetElementOr (test_indices_ s) (Z.of_nat i) (-1) in
  if index <? 0 then lift (Err InvalidDeref) else ret (Z.to_nat index).

Definition Skip_nth (si i : nat) : M unit := ti ⇐ GetMutableTestInfo si i ;; TestInfo_Skip si ti.

(** The loop of [TestSuite::Run], from the test [i] on. *)
Fixpoint suite_loop (si : nat) (skip_all : bool) (is_ : list nat) : M unit :=
  match is_ with
  | [] => ret tt
  | i :: is_ =>
      ti ⇐ GetMutableTestInfo si i ;;
      (if skip_all then TestInfo_Skip si ti else TestInfo_Run si ti) ;;;
      fl ⇐ get flags_ ;;
      if bools fl Flag.fail_fast then
        t ⇐ test_at si ti ;;
        if Failed (result_ t) then for_each is_ (Skip_nth si)
        else suite_loop si skip_all is_
      else suite_loop si skip_all is_
  end.

Definition RunSetUpTestSuite (s : TestSuite) : M unit :=
  match set_up_tc_ s with None => ret tt | Some f => call (SetUpTestSuite f) end.
Definition RunTearDownTestSuite (s : TestSuite) : M unit :=
  match tear_down_tc_ s with None => ret tt | Some f => call (TearDownTestSuite f) end.

Definition set_suite_times (start elapsed : Z -> Z) (s : TestSuite) : TestSuite :=
  with_times s (start (suite_start_timestamp_ s)) (elapsed (suite_elapsed_time_ s)).

(** [TestSuite::Run] of the suite at a position. *)
Definition TestSuite_Run (si : nat) : M unit :=
  this ⇐ suite_at si ;;
  if negb (suite_should_run_ this) then ret tt
  else
    set_current_test_suite (Some si) ;;;
    modify_unit (update_suite si sort_tests) ;;;
    suite_event OnTestSuiteStart si ;;;
    suite_event OnTestCaseStart si ;;;
    HandleExceptionsInMethodIfSupported tt (RunSetUpTestSuite this) "SetUpTestSuite()" ;;;
    s ⇐ suite_at si ;;
    skip_all ⇐ (if Failed (ad_hoc_test_result_ s) then ret true
                else lift (Skipped (ad_hoc_test_result_ s))) ;;
    now ⇐ GetTimeInMillis ;;
    modify_unit (update_suite si (set_suite_times (fun _ => now) id)) ;;;
    timer ⇐ new_Timer ;;
    suite_loop si skip_all (seq 0 (length (test_info_list_ s))) ;;;
    elapsed ⇐ Elapsed timer ;;
    modify_unit (update_suite si (set_suite_times id (fun _ => elapsed))) ;;;
    HandleExceptionsInMethodIfSupported tt (RunTearDownTestSuite this) "TearDownTestSuite()" ;;;
    suite_event OnTestSuiteEnd si ;;;
    suite_event OnTestCaseEnd si ;;;
    set_current_test_suite None.

Definition TestSuite_Skip (si : nat) : M unit :=
  this ⇐ suite_at si ;;
  if negb (suite_should_run_ this) then ret tt
  else
    set_current_test_suite (Some si) ;;;
    suite_event OnTestSuiteStart si ;;;
    suite_event OnTestCaseStart si ;;;
    for_each (seq 0 (length (test_info_list_ this))) (Skip_nth si) ;;;
    suite_event OnTestSuiteEnd si ;;;
    suite_event OnTestCaseEnd si ;;;
    set_current_test_suite None.

(** ** UnitTestImpl *)

(** [GetMutableSuiteCase(i)], by its position. *)
Definition suite_position (i : nat) : M nat :=
  u ⇐ get unit_ ;;
  let index := GetElementOr (test_suite_indices_ (unit_suites u)) (Z.of_nat i) (-1) in
  if index <? 0 then lift (Err InvalidDeref) else ret (Z.to_nat index).
Definition suite_Skip_nth (i : nat) : M unit := si ⇐ suite_position i ;; TestSuite_Skip si.

(** The loop over the suites, from the suite [i] on. *)
Fixpoint suites_loop (is_ : list nat) : M unit :=
  match is_ with
  | [] => ret tt
  | i :: is_ =>
      si ⇐ suite_position i ;;
      TestSuite_Run si ;;;
      fl ⇐ get flags_ ;;
      if bools fl Flag.fail_fast then
        s ⇐ suite_at si ;;
        failed ⇐ lift (suite_Failed s) ;;
        if failed : bool then for_each is_ suite_Skip_nth else suites_loop is_
      else suites_loop is_
  end.

(** The messages of the skips of the global set-up. *)
Definition skip_messages (r : TestResult) : text :=
  flat_map (fun p => if skipped p then c_str (message_ p) ++ [LF] else []) (test_part_results_ r).

Definition unit_event (e : UnitTest -> Event) : M unit := broadcast (fun w => e (unit_ w)).

(** What runs between the set-up and the tear-down of the environments. *)
Definition run_suites : M unit :=
  skipped ⇐ Test_IsSkipped ;;
  n ⇐ get (fun w => length (suites_of (unit_ w))) ;;
  if skipped : bool then
    test_result ⇐ current_result ;;
    modify (fun w => add_printed w (skip_messages test_result))
  else
    fatal ⇐ Test_HasFatalFailure ;;
    if negb fatal then suites_loop (seq 0 n)
    else for_each (seq 0 n) suite_Skip_nth.

Definition clear_results (u : UnitTest) : UnitTest := ClearNonAdHocTestResult u.

Definition shuffle_unit : M unit :=
  u ⇐ get unit_ ;;
  out ⇐ lift (ShuffleTests (random_seed_ u) (unit_suites u)) ;;
  modify_unit (fun u => with_random (with_suites u (snd out)) (random_seed_ u) (fst out)).

(** One iteration of the loop of [RunAllTests]: whether it has passed. *)
Definition run_iteration (i repeat : Z) (recreate has_tests_to_run : bool) : M bool :=
  modify_unit clear_results ;;;
  timer ⇐ new_Timer ;;
  fl ⇐ get flags_ ;;
  when (has_tests_to_run && bools fl Flag.shuffle) shuffle_unit ;;;
  unit_event (fun u => OnTestIterationStart u i) ;;;
  when has_tests_to_run (
    when ((i =? 0) || recreate) (
      unit_event OnEnvironmentsSetUpStart ;;;
      u ⇐ get unit_ ;;
      for_each (environments_ u) (fun env => call (EnvSetUp env)) ;;;
      unit_event OnEnvironmentsSetUpEnd) ;;;
    run_suites ;;;
    last_iteration ⇐ lift (iadd repeat (-1)) ;;
    when ((i =? last_iteration) || recreate) (
      unit_event OnEnvironmentsTearDownStart ;;;
      u ⇐ get unit_ ;;
      for_each (rev (environments_ u)) (fun env => call (EnvTearDown env)) ;;;
      unit_event OnEnvironmentsTearDownEnd)) ;;;
  elapsed ⇐ Elapsed timer ;;
  modify_unit (fun u => with_unit_times u (unit_start_timestamp_ u) elapsed) ;;;
  unit_event (fun u => OnTestIterationEnd u i) ;;;
  u ⇐ get unit_ ;;
  passed ⇐ lift (unit_Passed u) ;;
  modify_unit (fun u => with_suites u (UnshuffleTests (unit_suites u))) ;;;
  fl ⇐ get flags_ ;;
  when (bools fl Flag.shuffle) (
    u ⇐ get unit_ ;;
    seed ⇐ lift (GetNextRandomSeed (random_seed_ u)) ;;
    modify_unit (fun u => with_random u seed (random_state_ u))) ;;;
  ret passed.

(** The loop, from the iteration [i] on: whether an iteration has failed.  With
    a negative [repeat] it goes on for ever. *)
Fixpoint iterations (fuel : nat) (i repeat : Z) (recreate has_tests_to_run failed : bool) : M bool :=
  if (repeat <? 0) || negb (i =? repeat) then
    match fuel with
    | O => lift (Err Diverges)
    | S fuel =>
        passed ⇐ run_iteration i repeat recreate has_tests_to_run ;;
        next ⇐ lift (iadd i 1) ;;
        iterations fuel next repeat recreate has_tests_to_run (failed || negb passed)
    end
  else ret failed.


(** ** Initialisation *)

Context {FS : Type} `{!FileSystem FS}.

(** The file system that is seen, how often a file name is tried, and what
    [fopen] gives for reading and whether it succeeds for writing. *)
Variable fs : FS.
Variable name_fuel : nat.
Variable read_file : text -> option text.
Variable can_write : text -> bool.

Definition new_listener (kind : ListenerKind) : M Listener :=
  st ⇐ get setup ;;
  modify (fun w => with_setup w (mkSetup (g_argvs st) (help_flag st)
            (post_flag_parse_init_performed_ st) (internal_run_death_test_flag_ st)
            (next_address st + 1))) ;;;
  ret (mkListener (next_address st) kind).
Definition modify_listeners (f : TestEventListeners -> TestEventListeners) : M unit :=
  modify (fun w => with_listeners w (f (listeners w))).
Definition print_text (out : text) : M unit := modify (fun w => add_printed w out).

Definition output_path : M text :=
  fl ⇐ get flags_ ;; u ⇐ get unit_ ;; st ⇐ get setup ;;
  lift (GetAbsolutePathToOutputFile name_fuel fs (pathname_ (original_working_dir_ u)) (g_argvs st) fl).

(** A warning goes to the log, which is not part of the state. *)
Definition ConfigureXmlOutput : M unit :=
  fl ⇐ get flags_ ;;
  let output_format := GetOutputFormat fl in
  if bool_decide (output_format = str "xml") then
    path ⇐ output_path ;;
    _ ⇐ lift (if bool_decide (path = []) then Err ProcessExit else Ok tt) ;;
    l ⇐ new_listener (XmlUnitTestResultPrinter (c_str path)) ;;
    modify_listeners (fun ls => SetDefaultXmlGenerator ls (Some l))
  else if bool_decide (output_format = str "json") then
    path ⇐ output_path ;;
    _ ⇐ lift (if bool_decide (path = []) then Err ProcessExit else Ok tt) ;;
    l ⇐ new_listener (JsonUnitTestResultPrinter (c_str path)) ;;
    modify_listeners (fun ls => SetDefaultXmlGenerator ls (Some l))
  else ret tt.

Definition ConfigureStreamingOutput : M unit :=
  fl ⇐ get flags_ ;;
  let target := strings fl Flag.stream_result_to in
  if bool_decide (target = []) then ret tt
  else match find_char ":" target with
       | Some pos =>
           l ⇐ new_listener (StreamingListener (take pos target) (drop (S pos) target)) ;;
           modify_listeners (fun ls => Append ls l)
       | None => ret tt
       end.

Definition SuppressTestEventsIfInSubprocess : M unit :=
  st ⇐ get setup ;;
  match internal_run_death_test_flag_ st with
  | None => ret tt
  | Some _ => modify_listeners (fun ls => SuppressEventForwarding ls true)
  end.

(** Parameterised tests are registered here, too: the tests of the model have
    been registered before. *)
Definition PostFlagParsingInit : M unit :=
  st ⇐ get setup ;;
  if post_flag_parse_init_performed_ st then ret tt
  else
    fl ⇐ get flags_ ;;
    flag ⇐ lift (ParseInternalRunDeathTestFlag fl) ;;
    modify (fun w => with_setup w (mkSetup (g_argvs st) (help_flag st) true flag (next_address st))) ;;;
    SuppressTestEventsIfInSubprocess ;;;
    ConfigureXmlOutput ;;;
    when (bools fl Flag.brief)
      (l ⇐ new_listener BriefUnitTestResultPrinter ;;
       modify_listeners (fun ls => SetDefaultResultPrinter ls (Some l))) ;;;
    ConfigureStreamingOutput.

(** [InitGoogleTest]: the arguments that are left. *)
Definition InitGoogleTest (argc : nat) (argv : list (option text)) : M (nat * list (option text)) :=
  st ⇐ get setup ;;
  if negb (bool_decide (g_argvs st = [])) then ret (argc, argv)
  else if (argc =? 0)%nat then ret (argc, argv)
  else
    let args := map (default (str "(null)")) (take argc argv) in
    fl ⇐ get flags_ ;;
    out ⇐ lift (ParseGoogleTestFlagsOnly read_file argc argv (mkCmdState fl (help_flag st) [])) ;;
    let '(argc, argv, cmd) := out in
    modify (fun w => with_flags_ w (flags cmd)) ;;;
    modify (fun w => with_setup w (mkSetup args (g_help_flag cmd) (post_flag_parse_init_performed_ st)
              (internal_run_death_test_flag_ st) (next_address st))) ;;;
    for_each (cmd_printed cmd) (fun chunk =>
      out ⇐ lift (ColoredPrintf (ShouldUseColor getenv (flags cmd) stdout_is_tty) (fst chunk) (snd chunk)) ;;
      print_text out) ;;;
    PostFlagParsingInit ;;;
    ret (argc, argv).

(** ** RunAllTests *)

Definition kTestShardStatusFile : text := str "GTEST_SHARD_STATUS_FILE".
Definition WriteToShardStatusFileIfNeeded : M unit :=
  match getenv kTestShardStatusFile with
  | None => ret tt
  | Some test_shard_file => if can_write test_shard_file then ret tt else lift (Err ProcessExit)
  end.

(** Files that are written as a whole. *)
Definition OpenFileForWriting (output_file : text) : M unit :=
  if can_write output_file then ret tt else lift (Err ProcessExit).

(** The text of the list of tests for [--gtest_output]. *)
Definition test_list_report (fl : Flags) (localtime_r : Z -> option tm) (u : UnitTest)
    : outcome (option text) :=
  let output_format := GetOutputFormat fl in
  if bool_decide (output_format = str "xml") then
    t ← PrintXmlTestsList localtime_r fl (suites_of u); Ok (Some t)
  else if bool_decide (output_format = str "json") then
    t ← PrintJsonTestList localtime_r fl (suites_of u); Ok (Some t)
  else Ok None.

Definition filter_unit (should_shard : bool) : M bool :=
  fl ⇐ get flags_ ;;
  u ⇐ get unit_ ;;
  out ⇐ lift (FilterTests getenv (mkFilterFlags (strings fl Flag.filter) (bools fl Flag.also_run_disabled_tests))
                (if should_shard then HONOR_SHARDING_PROTOCOL else IGNORE_SHARDING_PROTOCOL)
                (suites_of u)) ;;
  modify_unit (fun u => set_suites u (fst out)) ;;;
  ret (0 <? snd out).

Definition not_initialized_notice : text :=
  LF :: str "IMPORTANT NOTICE - DO NOT IGNORE:" ++ [LF] ++
  str "This test program did NOT call testing::InitGoogleTest() before calling RUN_ALL_TESTS(). " ++
  str "This is INVALID. Soon Google Test will start to enforce the valid usage. " ++
  str "Please fix it ASAP, or IT WILL START TO FAIL." ++ [LF].

(** The iterations and the events around them. *)
Definition run_program (fuel : nat) (in_subprocess_for_death_test has_tests_to_run : bool) : M bool :=
  start ⇐ GetTimeInMillis ;;
  modify_unit (fun u => with_unit_times u start (unit_elapsed_time_ u)) ;;;
  unit_event OnTestProgramStart ;;;
  fl ⇐ get flags_ ;;
  let repeat := if in_subprocess_for_death_test then 1 else ints fl Flag.repeat in
  failed ⇐ iterations fuel 0 repeat
             (bools fl Flag.recreate_environments_when_repeating || (repeat <? 0))
             has_tests_to_run false ;;
  unit_event OnTestProgramEnd ;;;
  modify_unit (fun u => with_environments u []) ;;;
  ret (negb failed).

(** The seed and the program. *)
Definition run_selected (fuel : nat) (in_subprocess_for_death_test has_tests_to_run : bool) : M bool :=
  fl ⇐ get flags_ ;;
  now ⇐ (if ints fl Flag.random_seed =? 0 then GetTimeInMillis else ret 0) ;;
  modify_unit (fun u => with_random u (GetRandomSeedFromFlag now (ints fl Flag.random_seed))
                          (random_state_ u)) ;;;
  run_program fuel in_subprocess_for_death_test has_tests_to_run.

Definition RunAllTests (fuel : nat) (localtime_r : Z -> option tm) : M bool :=
  st ⇐ get setup ;;
  let gtest_is_initialized_before_run_all_tests := negb (bool_decide (g_argvs st = [])) in
  if help_flag st then ret true
  else
    PostFlagParsingInit ;;;
    WriteToShardStatusFileIfNeeded ;;;
    st ⇐ get setup ;;
    let in_subprocess_for_death_test := bool_decide (is_Some (internal_run_death_test_flag_ st)) in
    should_shard ⇐ lift (ShouldShard getenv kTestTotalShards kTestShardIndex
                           in_subprocess_for_death_test) ;;
    has_tests_to_run ⇐ filter_unit should_shard ;;
    fl ⇐ get flags_ ;;
    u ⇐ get unit_ ;;
    if bools fl Flag.list_tests then
      print_text (tests_listed (suites_of u)) ;;;
      report ⇐ lift (test_list_report fl localtime_r u) ;;
      match report with
      | None => ret tt
      | Some _ => path ⇐ output_path ;; OpenFileForWriting path
      end ;;;
      ret true
    else
      passed ⇐ run_selected fuel in_subprocess_for_death_test has_tests_to_run ;;
      fl ⇐ get flags_ ;;
      when (negb gtest_is_initialized_before_run_all_tests)
        (out ⇐ lift (ColoredPrintf (ShouldUseColor getenv fl stdout_is_tty) kRed not_initialized_notice) ;;
         print_text out) ;;;
      ret passed.

(** [UnitTest::Run], the value of [RUN_ALL_TESTS()]. *)
Definition UnitTest_Run (fuel : nat) (localtime_r : Z -> option tm) : M Z :=
  fl ⇐ get flags_ ;;
  modify (fun w => set_catch_exceptions w (bools fl Flag.catch_exceptions)) ;;;
  passed ⇐ HandleExceptionsInMethodIfSupported false (RunAllTests fuel localtime_r)
             "auxiliary test code (environments or event listeners)" ;;
  ret (if passed : bool then 0 else 1).

(** The file that a report printer writes when an iteration ends. *)
Definition report_file (fl : Flags) (localtime_r : Z -> option tm) (l : Listener) (e : Event)
    : option (text * outcome text) :=
  match listener_kind l, e with
  | XmlUnitTestResultPrinter output_file_, OnTestIterationEnd u _ =>
      Some (output_file_, PrintXmlUnitTest localtime_r fl u)
  | JsonUnitTestResultPrinter output_file_, OnTestIterationEnd u _ =>
      Some (output_file_, PrintJsonUnitTest localtime_r fl u)
  | _, _ => None
  end.

End runner.
