(* ===== verification/ParamTests.v ===== *)
(** * Parameterised tests (gtest-param-util.h, gtest.cc)

    What TEST_P and INSTANTIATE_TEST_SUITE_P record, and how RegisterTests makes
    ordinary tests of it: one for every test pattern, instantiation and value of
    the instantiation's generator, in this order.  Suites without tests or
    instantiations get a test that fails. *)

From S2P Require Import Prelude Outcome Common CStr FilePath TestResult TestSelect UnitTest CommandLine Listeners ParamGenerators Runner.

(** ** Fixture classes *)

(** The addresses of the static member functions that a class has. *)
Record Fixture : Type := mkFixture {
  SetUpTestCase_ : Z; SetUpTestSuite_ : Z; TearDownTestCase_ : Z; TearDownTestSuite_ : Z }.

Definition GetNotDefaultOrNull (a def : Z) : option Z := if a =? def then None else Some a.

Section param_tests.
Context {FS : Type} `{!FileSystem FS} (fs : FS).

(** The class [testing::Test]; the fixture and the parameter type of the class
    with a given type id; [testing::PrintToString] for its parameters. *)
Variable Test_ : Fixture.
Variable fixture : Z -> Fixture.
Variable ParamType : Z -> Type.
Variable PrintToString : forall c, ParamType c -> text.

Definition case_or_suite (test_case test_suite default_case default_suite : Z) : outcome (option Z) :=
  let test_case_fp := GetNotDefaultOrNull test_case default_case in
  let test_suite_fp := GetNotDefaultOrNull test_suite default_suite in
  _ ← c_assert (match test_case_fp, test_suite_fp with Some _, Some _ => false | _, _ => true end);
  Ok (match test_case_fp with Some f => Some f | None => test_suite_fp end).
Definition GetSetUpCaseOrSuite (T : Fixture) : outcome (option Z) :=
  case_or_suite (SetUpTestCase_ T) (SetUpTestSuite_ T) (SetUpTestCase_ Test_) (SetUpTestSuite_ Test_).
Definition GetTearDownCaseOrSuite (T : Fixture) : outcome (option Z) :=
  case_or_suite (TearDownTestCase_ T) (TearDownTestSuite_ T) (TearDownTestCase_ Test_)
    (TearDownTestSuite_ Test_).

(** ** What the macros record *)

(** A test of TEST_P: its meta factory makes a factory for each parameter. *)
Record TestPattern (T : Type) : Type := mkTestPattern {
  test_base_name : text; test_meta_factory : T -> Z; pattern_location : CodeLocation }.
Arguments mkTestPattern {T}. Arguments test_base_name {T}. Arguments test_meta_factory {T}.
Arguments pattern_location {T}.

(** The generator is created by a call; the name of a parameter is a function
    of its value and index. *)
Record InstantiationInfo (T : Type) : Type := mkInstantiationInfo {
  inst_name : text; generator : outcome (ParamGeneratorInterface T); name_func : T -> nat -> text;
  inst_file : text; inst_line : Z }.
Arguments mkInstantiationInfo {T}. Arguments inst_name {T}. Arguments generator {T}.
Arguments name_func {T}. Arguments inst_file {T}. Arguments inst_line {T}.

Definition DefaultParamName {T} (param : T) (index : nat) : text := str (pretty index).

(** [ParameterizedTestSuiteInfo<TestSuite>] for the class [c]. *)
Record SuiteInfo (c : Z) : Type := mkSuiteInfo {
  test_suite_name_ : text; code_location_ : CodeLocation;
  tests_ : list (TestPattern (ParamType c));
  instantiations_ : list (InstantiationInfo (ParamType c)) }.
Arguments mkSuiteInfo {c}. Arguments test_suite_name_ {c}. Arguments code_location_ {c}.
Arguments tests_ {c}. Arguments instantiations_ {c}.

Definition AddTestPattern {c} (t : TestPattern (ParamType c)) (s : SuiteInfo c) : SuiteInfo c :=
  mkSuiteInfo (test_suite_name_ s) (code_location_ s) (tests_ s ++ [t]) (instantiations_ s).
Definition AddTestSuiteInstantiation {c} (i : InstantiationInfo (ParamType c)) (s : SuiteInfo c)
    : SuiteInfo c :=
  mkSuiteInfo (test_suite_name_ s) (code_location_ s) (tests_ s) (instantiations_ s ++ [i]).

Definition name_char (c : ascii) : bool := IsAlNum c || bool_decide (c = "_"%char).
Definition IsValidParamName (name : text) : bool :=
  negb (bool_decide (name = [])) && forallb name_char name.

(** ** Registration *)

(** What the loop over the values of one generator changes. *)
Record LoopState : Type := mkLoopState {
  loop_unit : UnitTest; generated_instantiations : bool; loop_index : nat;
  test_param_names : list text }.

Definition suite_name {c} (s : SuiteInfo c) (i : InstantiationInfo (ParamType c)) : text :=
  (if bool_decide (inst_name i = []) then [] else inst_name i ++ str "/") ++ test_suite_name_ s.

Definition full_test_name {T} (t : TestPattern T) (param_name : text) : text :=
  (if bool_decide (test_base_name t = []) then [] else test_base_name t ++ str "/") ++ param_name.

(** The body of the loop over the values. *)
Definition register_param {c} (s : SuiteInfo c) (t : TestPattern (ParamType c))
    (i : InstantiationInfo (ParamType c)) (st : LoopState) (param : ParamType c)
    : outcome LoopState :=
  let param_name := name_func i param (loop_index st) in
  _ ← c_assert (IsValidParamName param_name);
  _ ← c_assert (negb (bool_decide (param_name ∈ test_param_names st)));
  set_up ← GetSetUpCaseOrSuite (fixture c);
  tear_down ← GetTearDownCaseOrSuite (fixture c);
  u ← MakeAndRegisterTestInfo fs (loop_unit st) (suite_name s i)
        (c_str (full_test_name t param_name)) None (Some (c_str (PrintToString c param)))
        (pattern_location t) c set_up tear_down (test_meta_factory t param);
  Ok (mkLoopState u true (S (loop_index st)) (param_name :: test_param_names st)).

(** The loops over instantiations and tests: the unit test and
    [generated_instantiations]. *)
Definition register_instantiation (fuel : nat) {c} (s : SuiteInfo c) (t : TestPattern (ParamType c))
    (st : UnitTest * bool) (i : InstantiationInfo (ParamType c)) : outcome (UnitTest * bool) :=
  g ← generator i;
  st ← for_each_param fuel g (register_param s t i) (mkLoopState st.1 st.2 0 []);
  Ok (loop_unit st, generated_instantiations st).
Definition register_pattern (fuel : nat) {c} (s : SuiteInfo c) (st : UnitTest * bool)
    (t : TestPattern (ParamType c)) : outcome (UnitTest * bool) :=
  for_each_of (register_instantiation fuel s t) (instantiations_ s) st.

(** ** Tests that report what is missing *)

(** The class of these tests, and the factory that creates one. *)
Variable FailureTest_id : Z.
Variable failure_factory : CodeLocation -> text -> bool -> Z.

Definition kErrorOnUninstantiatedParameterizedTest : bool := true.
Definition kErrorOnUninstantiatedTypeParameterizedTest : bool := true.

Definition blank_line : text := [LF; LF].
Definition kMissingInstantiation : text :=
  str " is defined via TEST_P, but never instantiated. None of the test cases " ++
  str "will run. Either no INSTANTIATE_TEST_SUITE_P is provided or the only " ++
  str "ones provided expand to nothing." ++ blank_line ++
  str "Ideally, TEST_P definitions should only ever be included as part of " ++
  str "binaries that intend to use them. (As opposed to, for example, being " ++
  str "placed in a library that may be linked in to get other utilities.)".
Definition kMissingTestCase : text :=
  str " is instantiated via INSTANTIATE_TEST_SUITE_P, but no tests are " ++
  str "defined via TEST_P . No test cases will run." ++ blank_line ++
  str "Ideally, INSTANTIATE_TEST_SUITE_P should only ever be invoked from " ++
  str "code that always depend on code that provides TEST_P. Failing to do " ++
  str "so is often an indication of dead code, e.g. the last TEST_P was " ++
  str "removed but the rest got left behind.".
Definition how_to_allow (name : text) : text :=
  blank_line ++
  str "To suppress this error for this test suite, insert the following line " ++
  str "(in a non-header) in the namespace it is defined in:" ++ blank_line ++
  str "GTEST_ALLOW_UNINSTANTIATED_PARAMETERIZED_TEST(" ++ name ++ str ");".

(** [RegisterTest] for a [FailureTest], a class that overrides no function of
    its suite. *)
Definition failure_test (full_name : text) (location : CodeLocation) (message : text)
    (as_error : bool) : Registration :=
  mkRegistration None None
    (new_TestInfo (str "GoogleTestVerification") (c_str full_name) None None
       (mkCodeLocation (c_str (loc_file location)) (loc_line location)) FailureTest_id
       (failure_factory location message as_error)).
Definition register_failure_test (u : UnitTest) (full_name : text) (location : CodeLocation)
    (message : text) (as_error : bool) : outcome UnitTest :=
  let r := failure_test full_name location message as_error in
  unit_AddTestInfo fs u (reg_set_up r) (reg_tear_down r) (reg_test r).

(** [FailureTest::TestBody]; [AssertHelper] reports an empty assertion text and
    the message. *)
Definition FailureTest_TestBody {U} (loc : CodeLocation) (error_message : text) (as_error : bool)
    : body U :=
  if as_error then Report kNonFatalFailure (Some (c_str (loc_file loc))) (loc_line loc) error_message Done
  else Done.

Definition synthetic_message (name : text) (has_test_p : bool) : text :=
  str "Parameterized test suite " ++ name ++
  (if has_test_p then kMissingInstantiation else kMissingTestCase) ++ how_to_allow name.

Definition InsertSyntheticTestCase (ignored : list text) (u : UnitTest) (name : text)
    (location : CodeLocation) (has_test_p : bool) : outcome UnitTest :=
  if bool_decide (name ∈ ignored) then Ok u
  else register_failure_test u
         (str "UninstantiatedParameterizedTestSuite<" ++ name ++ str ">") location
         (synthetic_message name has_test_p) kErrorOnUninstantiatedParameterizedTest.

(** [ParameterizedTestSuiteInfo::RegisterTests]. *)
Definition RegisterTests (fuel : nat) (ignored : list text) {c} (s : SuiteInfo c) (u : UnitTest)
    : outcome UnitTest :=
  '(u, generated) ← for_each_of (register_pattern fuel s) (tests_ s) (u, false);
  if generated : bool then Ok u
  else InsertSyntheticTestCase ignored u (test_suite_name_ s) (code_location_ s)
         (negb (bool_decide (tests_ s = []))).

(** ** The registries *)

(** [ParameterizedTestSuiteRegistry]; an element of [test_suite_infos_] is a
    suite of some class. *)
Record ParamRegistry : Type := mkParamRegistry {
  test_suite_infos_ : list (sigT SuiteInfo); suite_name_to_info_index_ : gmap text nat }.
Definition new_ParamRegistry : ParamRegistry := mkParamRegistry [] ∅.

(** The suite for the class [c] under the name, and where it is; another class
    under the same name ends the program. *)
Definition GetTestSuitePatternHolder (r : ParamRegistry) (c : Z) (name : text)
    (code_location : CodeLocation) : outcome (ParamRegistry * nat) :=
  match suite_name_to_info_index_ r !! name with
  | Some i =>
      info ← or_fault InvalidDeref (test_suite_infos_ r !! i);
      if projT1 info =? c then Ok (r, i) else Err ProcessExit
  | None =>
      Ok (mkParamRegistry
            (test_suite_infos_ r ++ [existT c (mkSuiteInfo name code_location [] [])])
            (<[name := length (test_suite_infos_ r)]> (suite_name_to_info_index_ r)),
          length (test_suite_infos_ r))
  end.

(** A call of a method on a holder of the class [c]. *)
Definition at_class {c} (f : SuiteInfo c -> SuiteInfo c) (info : sigT SuiteInfo) : sigT SuiteInfo :=
  match decide (c = projT1 info) with
  | left E => existT (projT1 info) (match E in _ = d return SuiteInfo d -> SuiteInfo d with eq_refl => f end
                                      (projT2 info))
  | right _ => info
  end.
Definition on_holder {c} (name : text) (code_location : CodeLocation) (f : SuiteInfo c -> SuiteInfo c)
    (r : ParamRegistry) : outcome ParamRegistry :=
  '(r, i) ← GetTestSuitePatternHolder r c name code_location;
  Ok (mkParamRegistry (alter (at_class f) i (test_suite_infos_ r)) (suite_name_to_info_index_ r)).

(** TEST_P and INSTANTIATE_TEST_SUITE_P. *)
Definition TEST_P (c : Z) (test_suite_name : text) (loc : CodeLocation) (t : TestPattern (ParamType c))
    (r : ParamRegistry) : outcome ParamRegistry :=
  on_holder test_suite_name loc (AddTestPattern t) r.
Definition INSTANTIATE_TEST_SUITE_P (c : Z) (test_suite_name : text) (loc : CodeLocation)
    (i : InstantiationInfo (ParamType c)) (r : ParamRegistry) : outcome ParamRegistry :=
  on_holder test_suite_name loc (AddTestSuiteInstantiation i) r.

Definition registry_RegisterTests (fuel : nat) (ignored : list text) (r : ParamRegistry) (u : UnitTest)
    : outcome UnitTest :=
  for_each_of (fun u info => RegisterTests fuel ignored (projT2 info) u) (test_suite_infos_ r) u.

End param_tests.

(** ** Lists of registrations *)

Section register_all.
Context {FS : Type} `{!FileSystem FS} (fs : FS).

Lemma register_all_for_each rs u :
  register_all fs rs u =
  for_each_of (fun u r => unit_AddTestInfo fs u (reg_set_up r) (reg_tear_down r) (reg_test r)) rs u.
Proof. done. Qed.

Lemma for_each_of_app {S T} (body : S -> T -> outcome S) l1 l2 s :
  for_each_of body (l1 ++ l2) s = (s ← for_each_of body l1 s; for_each_of body l2 s).
Proof.
  revert s. induction l1 as [|x l1 IH]; intros s; [done|].
  cbn [app]. rewrite !for_each_of_cons, bind_assoc. destruct (body s x); [apply IH|done].
Qed.

Lemma register_all_app rs1 rs2 u :
  register_all fs (rs1 ++ rs2) u = (u ← register_all fs rs1 u; register_all fs rs2 u).
Proof. rewrite !register_all_for_each. apply for_each_of_app. Qed.

Lemma register_all_cons r rs u :
  register_all fs (r :: rs) u =
  (u ← unit_AddTestInfo fs u (reg_set_up r) (reg_tear_down r) (reg_test r); register_all fs rs u).
Proof. rewrite !register_all_for_each. by rewrite for_each_of_cons. Qed.

(** A loop whose body registers [f x] for each [x] registers all of them. *)
Lemma for_each_of_registers {T} (body : UnitTest -> T -> outcome UnitTest) f l u :
  (forall u x, x ∈ l -> body u x = register_all fs (f x) u) ->
  for_each_of body l u = register_all fs (l ≫= f) u.
Proof.
  revert u. induction l as [|x l IH]; intros u H; [done|].
  rewrite for_each_of_cons, bind_cons, register_all_app, H by left.
  destruct (register_all fs (f x) u); [|done]. apply IH. intros. apply H. by right.
Qed.

End register_all.

(** ** The names of parameters *)

(** The values of a generator with their indices. *)
Fixpoint enum {T} (n : nat) (l : list T) : list (nat * T) :=
  match l with
  | [] => []
  | x :: l => (n, x) :: enum (S n) l
  end.

Definition param_names {T} (i : InstantiationInfo T) (n : nat) (l : list T) : list text :=
  (fun p => name_func _ i p.2 p.1) <$> enum n l.

Definition names_valid {T} (i : InstantiationInfo T) (l : list T) : Prop :=
  Forall (fun n => IsValidParamName n = true) (param_names i 0 l) /\ NoDup (param_names i 0 l).

(** The generator of an instantiation is created and generates the list. *)
Definition provides {T} (fuel : nat) (i : InstantiationInfo T) (l : list T) : Prop :=
  exists g, generator _ i = Ok g /\ generates g l /\ (length l < fuel)%nat.

Lemma valid_name_chars n c : IsValidParamName n = true -> c ∈ n -> name_char c = true.
Proof.
  unfold IsValidParamName. intros [_ H]%andb_true_iff Hc. rewrite forallb_forall in H.
  by apply H, list_elem_of_In.
Qed.

Lemma name_char_slash : name_char "/"%char = false.
Proof. done. Qed.
Lemma name_char_NUL : name_char NUL = false.
Proof. done. Qed.

Lemma split_at_last {A} (c : A) a b x y : a ++ c :: x = b ++ c :: y -> c ∉ x -> c ∉ y -> a = b /\ x = y.
Proof.
  revert b. induction a as [|d a IH]; intros [|e b]; cbn [app]; intros E Hx Hy.
  - by injection E as ->.
  - injection E as -> ->. destruct Hx. apply elem_of_app. right. by left.
  - injection E as -> <-. destruct Hy. apply elem_of_app. right. by left.
  - injection E as -> E. destruct (IH _ E Hx Hy) as [-> ->]. done.
Qed.

(** The parts of a full name can be read off it. *)
Lemma full_test_name_inj {T} (t1 t2 : TestPattern T) n1 n2 :
  IsValidParamName n1 = true -> IsValidParamName n2 = true ->
  full_test_name t1 n1 = full_test_name t2 n2 ->
  test_base_name _ t1 = test_base_name _ t2 /\ n1 = n2.
Proof.
  intros H1 H2. assert (Hs : forall n, IsValidParamName n = true -> "/"%char ∉ n).
  { intros n Hn Hc. apply (valid_name_chars _ _ Hn) in Hc. by rewrite name_char_slash in Hc. }
  pose proof (Hs _ H1) as Hs1. pose proof (Hs _ H2) as Hs2. unfold full_test_name.
  assert (Hslash : str "/" = ["/"%char]) by done. rewrite Hslash.
  case_bool_decide as E1; case_bool_decide as E2; rewrite <- ?app_assoc; cbn [app].
  - intros ->. by rewrite E1, E2.
  - intros ->. destruct Hs1. apply elem_of_app. right. by left.
  - intros <-. destruct Hs2. apply elem_of_app. right. by left.
  - intros E. by apply split_at_last in E.
Qed.

Lemma NoDup_fmap_inj {A B} (f : A -> B) l x y :
  NoDup (f <$> l) -> x ∈ l -> y ∈ l -> f x = f y -> x = y.
Proof.
  intros Hnd [i Hi]%list_elem_of_lookup [j Hj]%list_elem_of_lookup E.
  assert (i = j) as ->; [|congruence]. eapply NoDup_lookup; [exact Hnd| |]; rewrite list_lookup_fmap.
  - by rewrite Hi.
  - by rewrite Hj, E.
Qed.

Lemma full_test_name_c_str {T} (t : TestPattern T) n :
  (NUL ∉ test_base_name _ t) -> IsValidParamName n = true -> c_str (full_test_name t n) = full_test_name t n.
Proof.
  intros Ht Hn. apply c_str_id. unfold full_test_name. rewrite not_elem_of_app. split.
  - case_bool_decide; [apply not_elem_of_nil|]. rewrite not_elem_of_app. split; [done|].
    change (str "/") with ["/"%char]. by rewrite list_elem_of_singleton.
  - intros Hc. apply (valid_name_chars _ _ Hn) in Hc. by rewrite name_char_NUL in Hc.
Qed.

(** ** What RegisterTests registers *)

Section registers.
Context {FS : Type} `{!FileSystem FS} (fs : FS).
Context (Test_ : Fixture) (fixture : Z -> Fixture) (ParamType : Z -> Type).
Context (PrintToString : forall c, ParamType c -> text).
Context (FailureTest_id : Z) (failure_factory : CodeLocation -> text -> bool -> Z).

Section suite.
Context {c : Z} (s : SuiteInfo ParamType c) (set_up tear_down : option Z).

Definition param_registration (t : TestPattern (ParamType c)) (i : InstantiationInfo (ParamType c))
    (p : nat * ParamType c) : Registration :=
  mkRegistration set_up tear_down
    (new_TestInfo (suite_name _ s i) (c_str (full_test_name t (name_func _ i p.2 p.1))) None
       (Some (c_str (PrintToString c p.2))) (pattern_location _ t) c (test_meta_factory _ t p.2)).

(** All tests, for the lists that the instantiations provide. *)
Definition instances (ls : list (list (ParamType c))) : list Registration :=
  tests_ _ _ s ≫= fun t => zip (instantiations_ _ _ s) ls ≫= fun il =>
    param_registration t il.1 <$> enum 0 il.2.

(** What is registered in the end. *)
Definition suite_registrations (ignored : list text) (ls : list (list (ParamType c)))
    : list Registration :=
  match instances ls with
  | [] => if bool_decide (test_suite_name_ _ _ s ∈ ignored) then []
          else [failure_test FailureTest_id failure_factory
                  (str "UninstantiatedParameterizedTestSuite<" ++ test_suite_name_ _ _ s ++ str ">")
                  (code_location_ _ _ s)
                  (synthetic_message (test_suite_name_ _ _ s) (negb (bool_decide (tests_ _ _ s = []))))
                  kErrorOnUninstantiatedParameterizedTest]
  | rs => rs
  end.

#[local] Abbreviation body := (register_param fs Test_ fixture ParamType PrintToString s).

Lemma register_param_ok t i u gen n ns x :
  GetSetUpCaseOrSuite Test_ (fixture c) = Ok set_up ->
  GetTearDownCaseOrSuite Test_ (fixture c) = Ok tear_down ->
  IsValidParamName (name_func _ i x n) = true -> name_func _ i x n ∉ ns ->
  let r := param_registration t i (n, x) in
  body t i (mkLoopState u gen n ns) x =
  (u ← unit_AddTestInfo fs u (reg_set_up r) (reg_tear_down r) (reg_test r);
   Ok (mkLoopState u true (S n) (name_func _ i x n :: ns))).
Proof.
  intros Hup Hdown Hv Hn r. unfold register_param. cbn [loop_index test_param_names loop_unit].
  rewrite Hv, bool_decide_false by done. cbn [c_assert negb]. by rewrite !bind_ok, Hup, Hdown, !bind_ok.
Qed.

Lemma register_param_inv t i u gen n ns x st' :
  body t i (mkLoopState u gen n ns) x = Ok st' ->
  IsValidParamName (name_func _ i x n) = true /\ (name_func _ i x n ∉ ns) /\
  exists u', st' = mkLoopState u' true (S n) (name_func _ i x n :: ns).
Proof.
  unfold register_param. cbn [loop_index test_param_names loop_unit].
  destruct (IsValidParamName _); [|done]. cbn [c_assert]. rewrite bind_ok.
  case_bool_decide; [done|]. cbn [c_assert negb]. rewrite bind_ok.
  destruct (GetSetUpCaseOrSuite _ _); [|done]. rewrite bind_ok.
  destruct (GetTearDownCaseOrSuite _ _); [|done]. rewrite bind_ok.
  destruct (MakeAndRegisterTestInfo _ _ _ _ _ _ _ _ _ _ _) as [u'|]; [|done]. rewrite bind_ok.
  intros [= <-]. eauto.
Qed.

Lemma register_params t i l st :
  GetSetUpCaseOrSuite Test_ (fixture c) = Ok set_up ->
  GetTearDownCaseOrSuite Test_ (fixture c) = Ok tear_down ->
  let names := param_names i (loop_index st) l in
  Forall (fun n => IsValidParamName n = true) names -> NoDup names ->
  (forall n, n ∈ names -> n ∉ test_param_names st) ->
  exists names',
    for_each_of (body t i) l st =
    (u ← register_all fs (param_registration t i <$> enum (loop_index st) l) (loop_unit st);
     Ok (mkLoopState u (generated_instantiations st || negb (bool_decide (l = [])))
           (loop_index st + length l) names')).
Proof.
  intros Hup Hdown. revert st. induction l as [|x l IH]; intros [u gen n ns];
    cbn [loop_index loop_unit generated_instantiations test_param_names param_names enum fmap list_fmap length].
  { exists ns. cbn. rewrite orb_false_r, Nat.add_0_r. done. }
  intros [Hv Hvs]%Forall_cons_1 [Hx Hnd]%NoDup_cons Hns. cbn [fst snd] in *.
  rewrite for_each_of_cons, register_all_cons, bool_decide_false by done. rewrite orb_true_r.
  rewrite register_param_ok; [|done|done|done|by apply Hns; left].
  destruct (unit_AddTestInfo _ _ _ _ _) as [u1|]; [|by exists []]. rewrite !bind_ok.
  destruct (IH (mkLoopState u1 true (S n) (name_func _ i x n :: ns))) as [names' E];
    cbn [loop_index loop_unit generated_instantiations test_param_names] in *; [done|done| |].
  - intros m Hm. rewrite not_elem_of_cons. split; [by intros ->|]. apply Hns. by right.
  - exists names'. rewrite E, orb_true_l. by rewrite Nat.add_succ_r.
Qed.

(** Success means that all names are valid and different. *)
Lemma register_params_names t i l st st' :
  for_each_of (body t i) l st = Ok st' ->
  let names := param_names i (loop_index st) l in
  Forall (fun n => IsValidParamName n = true) names /\ NoDup names /\
  (forall n, n ∈ names -> n ∉ test_param_names st).
Proof.
  revert st. induction l as [|x l IH]; intros [u gen n ns];
    cbn [loop_index test_param_names param_names enum fmap list_fmap].
  { intros _. split_and!; [constructor|constructor|]. by intros m ?%not_elem_of_nil. }
  rewrite for_each_of_cons. destruct (register_param _ _ _ _ _ _ _ _ _ _) as [st1|] eqn:E; [|done].
  apply register_param_inv in E as (Hv & Hn & u' & ->). rewrite bind_ok. cbn [fst snd].
  intros (Hvs & Hnd & Hns)%IH. cbn [loop_index test_param_names] in *. split_and!.
  - by constructor.
  - constructor; [|done]. intros Hx. apply (Hns _ Hx). by left.
  - intros m [->|Hm]%elem_of_cons; [done|]. intros ?. apply (Hns _ Hm). by right.
Qed.

Abbreviation register_instantiation := (register_instantiation fs Test_ fixture ParamType PrintToString).
Abbreviation register_pattern := (register_pattern fs Test_ fixture ParamType PrintToString).

Lemma register_instantiation_ok fuel t i l u gen :
  GetSetUpCaseOrSuite Test_ (fixture c) = Ok set_up ->
  GetTearDownCaseOrSuite Test_ (fixture c) = Ok tear_down ->
  provides fuel i l -> names_valid i l ->
  register_instantiation fuel s t (u, gen) i =
  (u ← register_all fs (param_registration t i <$> enum 0 l) u;
   Ok (u, gen || negb (bool_decide (l = [])))).
Proof.
  intros Hup Hdown (g & Hg & Hgen & Hl) [Hv Hnd]. unfold ParamTests.register_instantiation.
  cbn [fst snd]. rewrite Hg, bind_ok, (for_each_param_generates _ _ _ _ _ Hgen Hl).
  destruct (register_params t i l (mkLoopState u gen 0 []) Hup Hdown Hv Hnd) as [names' ->].
  { intros n _. apply not_elem_of_nil. }
  cbn [loop_index loop_unit generated_instantiations]. by destruct (register_all _ _ _).
Qed.

Lemma register_instantiation_names fuel t i l st st' : provides fuel i l ->
  register_instantiation fuel s t st i = Ok st' -> names_valid i l.
Proof.
  intros (g & Hg & Hgen & Hl). unfold ParamTests.register_instantiation.
  rewrite Hg, bind_ok, (for_each_param_generates _ _ _ _ _ Hgen Hl).
  destruct (for_each_of _ _ _) eqn:E; [|done]. intros _.
  apply register_params_names in E as (Hv & Hnd & _). by split.
Qed.

Lemma register_pattern_ok fuel t is_ ls u gen :
  GetSetUpCaseOrSuite Test_ (fixture c) = Ok set_up ->
  GetTearDownCaseOrSuite Test_ (fixture c) = Ok tear_down ->
  Forall2 (provides fuel) is_ ls -> Forall2 names_valid is_ ls ->
  for_each_of (register_instantiation fuel s t) is_ (u, gen) =
  (u ← register_all fs (zip is_ ls ≫= fun il => param_registration t il.1 <$> enum 0 il.2) u;
   Ok (u, gen || negb (forallb (fun l => bool_decide (l = [])) ls))).
Proof.
  intros Hup Hdown Hp. revert u gen. induction Hp as [|i l is_ ls Hi Hp IH]; intros u gen Hv.
  { cbn. by rewrite orb_false_r. }
  apply Forall2_cons in Hv as [Hv Hvs]. cbn [zip zip_with forallb]. rewrite for_each_of_cons, bind_cons, register_all_app.
  cbn [fst snd]. rewrite (register_instantiation_ok _ _ _ _ _ _ Hup Hdown Hi Hv).
  destruct (register_all fs (_ <$> _) u) as [u1|]; [|done]. rewrite !bind_ok, (IH _ _ Hvs).
  destruct (register_all _ _ _); [|done]. rewrite !bind_ok. do 2 f_equal.
  by rewrite negb_andb, orb_assoc.
Qed.

Lemma register_pattern_names fuel t is_ ls st st' : Forall2 (provides fuel) is_ ls ->
  for_each_of (register_instantiation fuel s t) is_ st = Ok st' -> Forall2 names_valid is_ ls.
Proof.
  intros Hp. revert st. induction Hp as [|i l is_ ls Hi Hp IH]; intros st; [constructor|].
  rewrite for_each_of_cons. destruct (ParamTests.register_instantiation _ _ _ _ _ _ _ _ _ _) eqn:E; [|done].
  rewrite bind_ok. intros H. constructor; [by eapply register_instantiation_names|by eapply IH].
Qed.

Lemma register_patterns_ok fuel ts ls u gen :
  GetSetUpCaseOrSuite Test_ (fixture c) = Ok set_up ->
  GetTearDownCaseOrSuite Test_ (fixture c) = Ok tear_down ->
  Forall2 (provides fuel) (instantiations_ _ _ s) ls -> Forall2 names_valid (instantiations_ _ _ s) ls ->
  for_each_of (register_pattern fuel s) ts (u, gen) =
  (u ← register_all fs (ts ≫= fun t => zip (instantiations_ _ _ s) ls ≫= fun il =>
                          param_registration t il.1 <$> enum 0 il.2) u;
   Ok (u, gen || negb (bool_decide (ts = []) || forallb (fun l => bool_decide (l = [])) ls))).
Proof.
  intros Hup Hdown Hp Hv. revert u gen. induction ts as [|t ts IH]; intros u gen.
  { cbn. by rewrite orb_false_r. }
  rewrite for_each_of_cons, bind_cons, register_all_app.
  change (register_pattern fuel s (u, gen) t)
    with (for_each_of (register_instantiation fuel s t) (instantiations_ _ _ s) (u, gen)).
  rewrite (register_pattern_ok _ _ _ _ _ _ Hup Hdown Hp Hv).
  destruct (register_all _ _ u) as [u1|]; [|done]. rewrite !bind_ok, IH.
  destruct (register_all _ _ _); [|done]. rewrite !bind_ok. do 2 f_equal.
  rewrite (bool_decide_false (t :: ts = [])) by done. destruct (bool_decide (ts = [])), (forallb _ ls), gen; done.
Qed.

(** Nothing is registered exactly if [generated_instantiations] stays false. *)
Lemma zip_enum_nil t is_ (ls : list (list (ParamType c))) : length ls = length is_ ->
  (zip is_ ls ≫= fun il => param_registration t il.1 <$> enum 0 il.2) = [] <->
  forallb (fun l => bool_decide (l = [])) ls = true.
Proof.
  revert ls. induction is_ as [|i is_ IH]; intros [|l ls] Hlen; try done.
  cbn [zip zip_with forallb]. rewrite bind_cons, andb_true_iff, bool_decide_eq_true.
  split.
  - intros [H1 H2]%app_nil. split; [|apply IH; [by injection Hlen|done]]. by destruct l.
  - intros [-> H]. cbn. apply IH; [by injection Hlen|done].
Qed.

Lemma instances_nil (ls : list (list (ParamType c))) : length ls = length (instantiations_ _ _ s) ->
  instances ls = [] <->
  bool_decide (tests_ _ _ s = []) || forallb (fun l => bool_decide (l = [])) ls = true.
Proof.
  intros Hlen. unfold instances. destruct (tests_ _ _ s) as [|t ts]; [done|].
  rewrite (bool_decide_false (t :: ts = [])) by done. rewrite orb_false_l, bind_cons. split.
  - intros [H _]%app_nil. by apply (zip_enum_nil t (instantiations_ _ _ s)).
  - intros H. rewrite (proj2 (zip_enum_nil t _ _ Hlen) H). cbn [app].
    induction ts as [|t' ts IH]; [done|]. rewrite bind_cons.
    by rewrite (proj2 (zip_enum_nil t' _ _ Hlen) H).
Qed.

Abbreviation RegisterTests :=
  (RegisterTests fs Test_ fixture ParamType PrintToString FailureTest_id failure_factory).

(** With valid and different names RegisterTests registers one test for every
    pattern, instantiation and value, in this order, or the test that fails. *)
Lemma RegisterTests_registers fuel ignored ls u :
  GetSetUpCaseOrSuite Test_ (fixture c) = Ok set_up ->
  GetTearDownCaseOrSuite Test_ (fixture c) = Ok tear_down ->
  Forall2 (provides fuel) (instantiations_ _ _ s) ls -> Forall2 names_valid (instantiations_ _ _ s) ls ->
  RegisterTests fuel ignored s u = register_all fs (suite_registrations ignored ls) u.
Proof.
  intros Hup Hdown Hp Hv. unfold ParamTests.RegisterTests.
  rewrite (register_patterns_ok _ _ _ _ _ Hup Hdown Hp Hv). fold (instances ls).
  pose proof (instances_nil ls (eq_sym (Forall2_length _ _ _ Hp))) as Hnil.
  unfold suite_registrations. destruct (instances ls) as [|r rs]; cbn [orb].
  - rewrite (proj1 Hnil eq_refl). cbn. unfold InsertSyntheticTestCase. destruct (bool_decide (_ ∈ ignored)); [done|].
    rewrite register_all_cons. unfold register_failure_test. by destruct (unit_AddTestInfo _ _ _ _ _).
  - destruct (bool_decide _ || _); [by discriminate (proj2 Hnil eq_refl)|].
    by destruct (register_all _ _ _).
Qed.

(** If it succeeds and there is a test, the names are valid and different. *)
Lemma RegisterTests_names fuel ignored ls u u' :
  Forall2 (provides fuel) (instantiations_ _ _ s) ls ->
  RegisterTests fuel ignored s u = Ok u' ->
  tests_ _ _ s = [] \/ Forall2 names_valid (instantiations_ _ _ s) ls.
Proof.
  intros Hp. unfold ParamTests.RegisterTests. destruct (tests_ _ _ s) as [|t ts]; [by left|].
  rewrite for_each_of_cons. intros H. right.
  change (ParamTests.register_pattern fs Test_ fixture ParamType PrintToString fuel s (u, false) t)
    with (for_each_of (register_instantiation fuel s t) (instantiations_ _ _ s) (u, false)) in H.
  destruct (for_each_of (register_instantiation fuel s t) _ _) eqn:E; [|done].
  by eapply register_pattern_names.
Qed.

(** The full name of a registered test. *)
Definition label (r : Registration) : text * text :=
  (TestResult.test_suite_name_ (reg_test r), test_name_ (reg_test r)).

Lemma suite_name_inj i1 i2 : suite_name _ s i1 = suite_name _ s i2 -> inst_name _ i1 = inst_name _ i2.
Proof.
  unfold suite_name. intros E%(inj (.++ _)). revert E.
  assert (Hslash : forall n, n ++ str "/" <> []) by (intros n H%(f_equal length); rewrite length_app in H; simpl in H; lia).
  case_bool_decide as E1; case_bool_decide as E2.
  - by rewrite E1, E2.
  - intros E. by destruct (Hslash (inst_name _ i2)).
  - intros E. by destruct (Hslash (inst_name _ i1)).
  - by intros E%(inj (.++ _)).
Qed.

Lemma instance_labels t il : (NUL ∉ test_base_name _ t) -> names_valid il.1 il.2 ->
  label <$> (param_registration t il.1 <$> enum 0 il.2) =
  (fun n => (suite_name _ s il.1, full_test_name t n)) <$> param_names il.1 0 il.2.
Proof.
  intros Ht [Hv _]. unfold param_names in *. rewrite <- !list_fmap_compose.
  rewrite Forall_fmap in Hv. apply list_fmap_ext. intros k p Hp.
  apply (Forall_lookup_1 _ _ _ _ Hv) in Hp.
  unfold compose, label, param_registration, new_TestInfo.
  cbn [reg_test TestResult.test_suite_name_ test_name_]. by rewrite full_test_name_c_str.
Qed.

(** No two registered tests have the same full name, if the tests have different
    base names and the instantiations different prefixes. *)
Lemma instances_distinct (ls : list (list (ParamType c))) :
  Forall (fun t => NUL ∉ test_base_name _ t) (tests_ _ _ s) ->
  NoDup (test_base_name _ <$> tests_ _ _ s) -> NoDup (inst_name _ <$> instantiations_ _ _ s) ->
  Forall2 names_valid (instantiations_ _ _ s) ls ->
  NoDup (label <$> instances ls).
Proof.
  intros HN Ht Hi Hv. unfold instances.
  assert (Hz : Forall (fun il => names_valid il.1 il.2) (zip (instantiations_ _ _ s) ls)).
  { clear -Hv. induction Hv; cbn; [constructor|]. by constructor. }
  assert (Hzi : NoDup ((inst_name _ ∘ fst) <$> zip (instantiations_ _ _ s) ls)).
  { rewrite list_fmap_compose, fst_zip; [done|]. by rewrite (Forall2_length _ _ _ Hv). }
  set (names := fun (t : TestPattern (ParamType c)) (il : InstantiationInfo (ParamType c) * list (ParamType c)) =>
    (fun n => (suite_name _ s il.1, full_test_name t n)) <$> param_names il.1 0 il.2).
  assert (E : label <$> (tests_ _ _ s ≫= fun t => zip (instantiations_ _ _ s) ls ≫= fun il =>
                param_registration t il.1 <$> enum 0 il.2) =
              (tests_ _ _ s ≫= fun t => zip (instantiations_ _ _ s) ls ≫= names t)).
  { clear -HN Hz. induction HN as [|t ts Ht HN IH]; [done|]. rewrite !bind_cons, fmap_app, IH. f_equal.
    clear -Ht Hz. induction Hz as [|il z Hil Hz IH]; [done|]. rewrite !bind_cons, fmap_app, IH.
    f_equal. by apply instance_labels. }
  rewrite E. clear E. rewrite Forall_forall in Hz.
  assert (Hin : forall t il y, il ∈ zip (instantiations_ _ _ s) ls -> y ∈ names t il ->
    y.1 = suite_name _ s il.1 /\ exists n, IsValidParamName n = true /\ y.2 = full_test_name t n).
  { intros t il y [Hil _]%Hz (n & -> & Hn)%list_elem_of_fmap. split; [done|]. exists n. split; [|done].
    rewrite Forall_forall in Hil. by apply Hil. }
  apply NoDup_bind; [| |by apply NoDup_fmap_1 in Ht].
  - intros t1 t2 y H1 H2 (il1 & Hy1 & Hil1)%list_elem_of_bind (il2 & Hy2 & Hil2)%list_elem_of_bind.
    apply (Hin _ _ _ Hil1) in Hy1 as (_ & n1 & Hn1 & E1). apply (Hin _ _ _ Hil2) in Hy2 as (_ & n2 & Hn2 & E2).
    rewrite E1 in E2. apply full_test_name_inj in E2 as [E2 _]; [|done..]. by eapply NoDup_fmap_inj.
  - intros t Htt. apply NoDup_bind; [| |by apply NoDup_fmap_1 in Hzi].
    + intros il1 il2 y Hil1 Hil2 Hy1 Hy2. apply (Hin _ _ _ Hil1) in Hy1 as [E1 _].
      apply (Hin _ _ _ Hil2) in Hy2 as [E2 _]. rewrite E1 in E2. apply suite_name_inj in E2.
      by eapply (NoDup_fmap_inj _ _ _ _ Hzi).
    + intros il Hil. apply NoDup_fmap_2_strong; [|by apply Hz].
      intros n1 n2 H1 H2 [= E]. destruct (Hz _ Hil) as [Hv1 _]. rewrite Forall_forall in Hv1.
      apply full_test_name_inj in E as [_ E]; [done|by apply Hv1..].
Qed.

End suite.
(** ** The registry *)

Definition name_of (info : sigT (SuiteInfo ParamType)) : text := test_suite_name_ _ _ (projT2 info).

(** The index leads to the suite of the name, and every suite is in it. *)
Definition registry_ok (r : ParamRegistry ParamType) : Prop :=
  forall n i, suite_name_to_info_index_ _ r !! n = Some i <->
              (name_of <$> test_suite_infos_ _ r) !! i = Some n.

Lemma registry_ok_empty : registry_ok (new_ParamRegistry ParamType).
Proof. intros n i. cbn. by rewrite lookup_empty. Qed.

Lemma at_class_same c (f : SuiteInfo ParamType c -> SuiteInfo ParamType c) s :
  at_class _ f (existT c s) = existT c (f s).
Proof.
  unfold at_class. cbn [projT1 projT2]. destruct (decide (c = c)) as [E|]; [|done].
  by rewrite (proof_irrel E eq_refl).
Qed.

Lemma at_class_name {c} (f : SuiteInfo ParamType c -> SuiteInfo ParamType c) info :
  (forall s, test_suite_name_ _ _ (f s) = test_suite_name_ _ _ s) ->
  name_of (at_class _ f info) = name_of info.
Proof.
  intros Hf. destruct info as [d s]. destruct (decide (c = d)) as [<-|Hne].
  - rewrite at_class_same. apply Hf.
  - unfold at_class. cbn [projT1]. by destruct (decide (c = d)).
Qed.

Lemma alter_same {A B} (g : A -> B) (f : A -> A) (i : nat) (l : list A) : (forall x, g (f x) = g x) -> g <$> alter f i l = g <$> l.
Proof.
  intros H. apply list_eq. intros j. rewrite !list_lookup_fmap, list_lookup_alter.
  case_decide as E; [|done]. subst j. destruct (l !! i); cbn; [by rewrite H|done].
Qed.

Lemma list_alter_at {A} (f : A -> A) (i : nat) (l : list A) x :
  l !! i = Some x -> alter f i l = alter (fun _ => f x) i l.
Proof.
  intros H. apply list_eq. intros j. rewrite !list_lookup_alter. case_decide; [|done]. by rewrite H.
Qed.

Lemma registry_ok_new r n x : registry_ok r -> suite_name_to_info_index_ _ r !! n = None -> name_of x = n ->
  registry_ok (mkParamRegistry _ (test_suite_infos_ _ r ++ [x])
                 (<[n := length (test_suite_infos_ _ r)]> (suite_name_to_info_index_ _ r))).
Proof.
  intros Hr Hn Hx m j. cbn [test_suite_infos_ suite_name_to_info_index_]. rewrite fmap_app.
  rewrite lookup_insert. case_decide as E.
  - subst m. split.
    + intros [= <-]. rewrite lookup_app_r by (by rewrite length_fmap).
      rewrite length_fmap, Nat.sub_diag. cbn. by rewrite Hx.
    + intros [Hj|[Hl Hj]]%lookup_app_Some; [by rewrite <- (Hr n j), Hn in Hj|].
      rewrite length_fmap in *. apply lookup_lt_Some in Hj. cbn in Hj. f_equal. lia.
  - rewrite (Hr m j), lookup_app_Some. split; [by left|]. intros [?|[_ Hj]]; [done|].
    destruct (j - _)%nat; cbn in Hj; [|done]. injection Hj as Hj. by rewrite Hx in Hj.
Qed.

(** A statement of a macro: it creates the suite or finds it, and ends the
    program only if the name has been used for another class. *)
Lemma on_holder_spec {c} (f : SuiteInfo ParamType c -> SuiteInfo ParamType c) n loc r :
  registry_ok r -> (forall s, test_suite_name_ _ _ (f s) = test_suite_name_ _ _ s) ->
  match on_holder _ n loc f r with
  | Ok r' => registry_ok r' /\
      ((exists i s, test_suite_infos_ _ r !! i = Some (existT c s) /\ test_suite_name_ _ _ s = n /\
          test_suite_infos_ _ r' = <[i := existT c (f s)]> (test_suite_infos_ _ r)) \/
       (n ∉ name_of <$> test_suite_infos_ _ r) /\
         test_suite_infos_ _ r' =
           test_suite_infos_ _ r ++ [existT c (f (mkSuiteInfo _ _ n loc [] []))])
  | Err e => e = ProcessExit /\
      exists info, info ∈ test_suite_infos_ _ r /\ name_of info = n /\ projT1 info <> c
  end.
Proof.
  intros Hr Hf. unfold on_holder, GetTestSuitePatternHolder.
  destruct (suite_name_to_info_index_ _ r !! n) as [i|] eqn:E.
  - pose proof (proj1 (Hr _ _) E) as Hi. rewrite list_lookup_fmap in Hi.
    destruct (test_suite_infos_ _ r !! i) as [[d s]|] eqn:Ei; [|done]. injection Hi as Hn.
    cbn [or_fault]. rewrite bind_ok. cbn [projT1]. destruct (Z.eqb_spec d c) as [->|Hne].
    + rewrite bind_ok. split.
      * intros m j. cbn [test_suite_infos_ suite_name_to_info_index_]. rewrite alter_same; [apply Hr|].
        intros x. by apply at_class_name.
      * left. exists i, s. split_and!; [done|done|]. cbn [test_suite_infos_].
        rewrite <- at_class_same, list_insert_alter. by apply list_alter_at.
    + split; [done|]. exists (existT d s). split_and!; [by eapply list_elem_of_lookup_2|done|done].
  - rewrite bind_ok. cbn [test_suite_infos_ suite_name_to_info_index_].
    replace (alter _ _ _) with (test_suite_infos_ _ r ++ [existT c (f (mkSuiteInfo _ _ n loc [] []))]).
    2:{ rewrite alter_app_r_alt, Nat.sub_diag by lia. cbn. by rewrite at_class_same. }
    split; [apply registry_ok_new; [done|done|apply Hf]|]. right. split; [|done].
    intros [i Hi]%list_elem_of_lookup. by rewrite <- (Hr n i), E in Hi.
Qed.

(** The registry registers the tests of its suites, in their order. *)
Lemma registry_RegisterTests_registers fuel ignored r rss u :
  Forall2 (fun info rs => forall u,
      RegisterTests fs Test_ fixture ParamType PrintToString FailureTest_id failure_factory
        fuel ignored (projT2 info) u = register_all fs rs u) (test_suite_infos_ _ r) rss ->
  registry_RegisterTests fs Test_ fixture ParamType PrintToString FailureTest_id failure_factory
    fuel ignored r u = register_all fs (concat rss) u.
Proof.
  unfold registry_RegisterTests. intros H. revert u. induction H as [|info rs l rss Hi _ IH]; intros u; [done|].
  rewrite for_each_of_cons, Hi. cbn [concat]. rewrite register_all_app.
  destruct (register_all fs rs u); [|done]. apply IH.
Qed.

End registers.

(** ** Registration of a suite *)

(** C36. RegisterTests of a suite whose fixture has at most one of each pair of set-up
    and tear-down functions, and whose instantiations provide the lists [ls]:
    with valid and different names it registers exactly one test for every TEST_P,
    every instantiation and every value, in this order, and for a suite without
    any the test that reports it (unless that is allowed).  If it succeeds and the
    suite has a TEST_P, all names were valid and different: the checks miss none.
    No two of the tests have the same full name, given that the TEST_Ps and the
    instantiations of the suite have names of their own. *)
Theorem RegisterTests_correct {FS} `{!FileSystem FS} (fs : FS) Test_ fixture ParamType PrintToString
    FailureTest_id failure_factory {c} (s : SuiteInfo ParamType c) set_up tear_down fuel ignored ls u
    (Hup : GetSetUpCaseOrSuite Test_ (fixture c) = Ok set_up)
    (Hdown : GetTearDownCaseOrSuite Test_ (fixture c) = Ok tear_down)
    (Hprovides : Forall2 (provides fuel) (instantiations_ ParamType c s) ls) :
  (Forall2 names_valid (instantiations_ ParamType c s) ls ->
   RegisterTests fs Test_ fixture ParamType PrintToString FailureTest_id failure_factory fuel ignored s u =
   register_all fs (suite_registrations ParamType PrintToString FailureTest_id failure_factory s
                      set_up tear_down ignored ls) u) /\
  (forall u', RegisterTests fs Test_ fixture ParamType PrintToString FailureTest_id failure_factory
                fuel ignored s u = Ok u' ->
     tests_ ParamType c s = [] \/ Forall2 names_valid (instantiations_ ParamType c s) ls) /\
  (Forall (fun t => NUL ∉ test_base_name _ t) (tests_ ParamType c s) ->
   NoDup (test_base_name _ <$> tests_ ParamType c s) ->
   NoDup (inst_name _ <$> instantiations_ ParamType c s) ->
   Forall2 names_valid (instantiations_ ParamType c s) ls ->
   NoDup (label <$> instances ParamType PrintToString s set_up tear_down ls)).
Proof.
  split; [|split].
  - by apply RegisterTests_registers.
  - intros u'. by apply RegisterTests_names.
  - by apply instances_distinct.
Qed.

(** Two tests over the orders of a book, instantiated with quantities. *)
Section sample.
#[local] Instance one_directory : FileSystem unit := {
  fs_stat _ _ := Some true; fs_mkdir _ _ := (true, tt); fs_getcwd _ := Some (str "/tmp") }.

Definition sample_fixture : Fixture := mkFixture 1 2 3 4.
Definition quantities : Z -> Type := fun _ => Z.
Definition sample_location : CodeLocation := mkCodeLocation (str "book_test.cc") 12.
Definition sample_param_suite : SuiteInfo quantities 9 :=
  mkSuiteInfo quantities 9 (str "Fill") sample_location
    [mkTestPattern Z (str "Part") (fun q => q) sample_location;
     mkTestPattern Z (str "All") (fun q => 100 + q) sample_location]
    [mkInstantiationInfo Z (str "Lots") (Ok (Values 1 [5; 7])) DefaultParamName (str "book_test.cc") 20].

Definition sample_print : forall c, quantities c -> text := fun _ q => str (pretty q).
Definition sample_register (ls : list (list Z)) : outcome UnitTest :=
  RegisterTests tt sample_fixture (fun _ => sample_fixture) quantities sample_print 0
    (fun _ _ _ => 0) 3 [] sample_param_suite new_UnitTest.

Lemma RegisterTests_correct_witness :
  exists u, sample_register [[5; 7]] = Ok u /\
    (fun t => (TestResult.test_suite_name_ t, test_name_ t, value_param_ t, factory_ t)) <$>
      tests_named (str "Lots/Fill") (TestSelect.test_suites_ (unit_suites u)) =
    [(str "Lots/Fill", str "Part/0", Some (str "5"), 5); (str "Lots/Fill", str "Part/1", Some (str "7"), 7);
     (str "Lots/Fill", str "All/0", Some (str "5"), 105); (str "Lots/Fill", str "All/1", Some (str "7"), 107)].
Proof.
  destruct (RegisterTests_correct tt sample_fixture (fun _ => sample_fixture) quantities sample_print 0
    (fun _ _ _ => 0) sample_param_suite None None 3 [] [[5; 7]] new_UnitTest) as (E & _ & _).
  - reflexivity.
  - reflexivity.
  - constructor; [|constructor]. exists (Values 1 [5; 7]). split; [reflexivity|].
    split; [apply ValuesIn_generates|simpl; lia].
  - eexists. split.
    + etransitivity; [apply E|vm_compute; reflexivity]. constructor; [|constructor].
      split; [vm_compute; repeat constructor|]. apply (bool_decide_unpack _). vm_compute. exact I.
    + vm_compute. reflexivity.
Defined.
End sample.
