(* ===== verification/TypedTests.v ===== *)
(** * Typed and type-parameterised tests (gtest-typed-test.cc, gtest-internal.h,
    gtest.cc)

    Names are taken from the text of the arguments of a macro.  A
    [TypedTestSuitePState] checks that REGISTER_TYPED_TEST_SUITE_P lists exactly
    the tests that have been defined; INSTANTIATE_TYPED_TEST_SUITE_P registers
    every test for every type; a registry remembers which suites have been
    instantiated.  Types are known by numbers. *)

From S2P Require Import Prelude Outcome Common CStr FilePath TestResult TestSelect UnitTest ParamGenerators ParamTests.

(** ** Lists of names in C strings *)

Definition COMMA : ascii := ","%char.

Fixpoint SkipSpaces (s : text) : text :=
  match s with
  | c :: s' => if IsSpace c then SkipSpaces s' else s
  | [] => []
  end.

(** Null if there is no comma. *)
Fixpoint SkipComma (s : text) : option text :=
  match s with
  | [] => None
  | c :: s' => if bool_decide (c = COMMA) then Some (SkipSpaces s') else SkipComma s'
  end.

Fixpoint GetPrefixUntilComma (s : text) : text :=
  match s with
  | [] => []
  | c :: s' => if bool_decide (c = COMMA) then [] else c :: GetPrefixUntilComma s'
  end.

Definition first_name (s : text) : text := StripTrailingSpaces (GetPrefixUntilComma s).

(** Each turn skips a comma. *)
Fixpoint split_loop (fuel : nat) (src : text) : outcome (list text) :=
  match fuel with
  | O => Err Diverges
  | S fuel =>
      match SkipComma src with
      | None => Ok [first_name src]
      | Some rest => names ← split_loop fuel rest; Ok (first_name src :: names)
      end
  end.
Definition SplitIntoTestNames (src : text) : outcome (list text) :=
  split_loop (S (length src)) (SkipSpaces src).

(** ** Maps with names as keys *)

(** [operator<] of [std::string]. *)
Fixpoint text_ltb (s t : text) : bool :=
  match s, t with
  | _, [] => false
  | [], _ :: _ => true
  | c :: s, d :: t =>
      if (nat_of_ascii c <? nat_of_ascii d)%nat then true
      else if bool_decide (c = d) then text_ltb s t else false
  end.

(** [std::map::emplace], which keeps what is there. *)
Fixpoint map_emplace {V} (k : text) (v : V) (m : list (text * V)) : list (text * V) :=
  match m with
  | [] => [(k, v)]
  | (k', v') :: m' =>
      if bool_decide (k = k') then m
      else if text_ltb k k' then (k, v) :: m else (k', v') :: map_emplace k v m'
  end.
Definition map_get {V} (k : text) (m : list (text * V)) : option V :=
  snd <$> List.find (fun p => bool_decide (p.1 = k)) m.

(** ** The state of a type-parameterised suite *)

Record TypedTestSuitePState : Type := mkState {
  registered_ : bool; registered_tests_ : list (text * CodeLocation) }.
Definition new_State : TypedTestSuitePState := mkState false [].

Definition AddTestName (s : TypedTestSuitePState) (file : text) (line : Z) (test_name : text)
    : outcome TypedTestSuitePState :=
  if registered_ s then Err ProcessExit
  else Ok (mkState (registered_ s) (map_emplace test_name (mkCodeLocation file line) (registered_tests_ s))).

Definition TestExists (s : TypedTestSuitePState) (test_name : text) : bool :=
  bool_decide (is_Some (map_get test_name (registered_tests_ s))).

Definition GetCodeLocation (s : TypedTestSuitePState) (test_name : text) : outcome CodeLocation :=
  or_fault AssertionFailed (map_get test_name (registered_tests_ s)).

(** ** The registry of type-parameterised suites *)

Record TypedSuiteInfo : Type := mkTypedSuiteInfo { typed_location : CodeLocation; instantiated : bool }.
Abbreviation TypedRegistry := (list (text * TypedSuiteInfo)).

Definition RegisterTestSuite (suites_ : TypedRegistry) (test_suite_name : text) (loc : CodeLocation)
    : TypedRegistry :=
  map_emplace test_suite_name (mkTypedSuiteInfo loc false) suites_.

(** An unknown suite is only logged. *)
Definition RegisterInstantiation (suites_ : TypedRegistry) (test_suite_name : text) : TypedRegistry :=
  map (fun p => if bool_decide (p.1 = test_suite_name)
                then (p.1, mkTypedSuiteInfo (typed_location p.2) true) else p) suites_.

(** ** VerifyRegisteredTestNames *)

(** The loops over the listed names and over the defined tests: the messages. *)
Fixpoint listed_errors (s : TypedTestSuitePState) (name_vec tests : list text) : text * list text :=
  match name_vec with
  | [] => ([], tests)
  | name :: name_vec =>
      if bool_decide (name ∈ tests) then
        let '(errors, tests) := listed_errors s name_vec tests in
        (str "Test " ++ name ++ str " is listed more than once." ++ [LF] ++ errors, tests)
      else if TestExists s name then listed_errors s name_vec (name :: tests)
      else
        let '(errors, tests) := listed_errors s name_vec tests in
        (str "No test named " ++ name ++ str " can be found in this test suite." ++ [LF] ++ errors, tests)
  end.
Definition forgotten_errors (s : TypedTestSuitePState) (tests : list text) : text :=
  flat_map (fun p => if bool_decide (p.1 ∈ tests) then []
                     else str "You forgot to list test " ++ p.1 ++ str "." ++ [LF]) (registered_tests_ s).
Definition name_errors (s : TypedTestSuitePState) (name_vec : list text) : text :=
  let '(errors, tests) := listed_errors s name_vec [] in errors ++ forgotten_errors s tests.

(** The state and the registry; errors are printed and end the program. *)
Definition VerifyRegisteredTestNames (s : TypedTestSuitePState) (suites_ : TypedRegistry)
    (test_suite_name file : text) (line : Z) (registered_tests : text)
    : outcome (TypedTestSuitePState * TypedRegistry) :=
  let suites_ := RegisterTestSuite suites_ test_suite_name (mkCodeLocation file line) in
  name_vec ← SplitIntoTestNames registered_tests;
  if bool_decide (name_errors s name_vec = []) then Ok (mkState true (registered_tests_ s), suites_)
  else Err ProcessExit.

(** ** Registration of the tests *)

Section register.
Context {FS : Type} `{!FileSystem FS} (fs : FS) (Test_ : Fixture).

(** [GetTypeName], the type id of the fixture for a type; a test class is known
    by a number and has, for each type, its functions and a factory. *)
Variable GetTypeName : Z -> text.
Variable FixtureClass : Z -> Z.
Variable TestClass : Z -> Z -> Fixture.
Variable TestFactoryImpl : Z -> Z -> Z.

(** A name generator gives the name of a type at an index. *)
Definition DefaultNameGenerator (type_ : Z) (i : nat) : text := str (pretty i).
Fixpoint GenerateNamesRecursively (GetName : Z -> nat -> text) (types : list Z) (i : nat) : list text :=
  match types with
  | [] => []
  | T :: types => GetName T i :: GenerateNamesRecursively GetName types (S i)
  end.
Definition GenerateNames (GetName : Z -> nat -> text) (types : list Z) : list text :=
  GenerateNamesRecursively GetName types 0.

(** [TypeParameterizedTest::Register], a recursion over the types; [type_names]
    is indexed without a check. *)
Fixpoint register_types (prefix : text) (code_location : CodeLocation) (case_name test_names : text)
    (TestSel : Z) (types : list Z) (index : nat) (type_names : list text) (u : UnitTest)
    : outcome UnitTest :=
  match types with
  | [] => Ok u
  | T :: types =>
      type_name ← or_fault InvalidDeref (type_names !! index);
      set_up ← GetSetUpCaseOrSuite Test_ (TestClass TestSel T);
      tear_down ← GetTearDownCaseOrSuite Test_ (TestClass TestSel T);
      u ← MakeAndRegisterTestInfo fs u
            (prefix ++ (if bool_decide (prefix = []) then [] else str "/") ++ case_name ++ str "/" ++ type_name)
            (c_str (first_name test_names)) (Some (c_str (GetTypeName T))) None code_location
            (FixtureClass T) set_up tear_down (TestFactoryImpl TestSel T);
      register_types prefix code_location case_name test_names TestSel types (S index) type_names u
  end.

(** TYPED_TEST. *)
Definition TYPED_TEST (GetName : Z -> nat -> text) (types : list Z) (CaseName TestName : text)
    (code_location : CodeLocation) (TestSel : Z) (u : UnitTest) : outcome UnitTest :=
  register_types [] code_location CaseName TestName TestSel types 0 (GenerateNames GetName types) u.

(** [TypeParameterizedTestSuite::Register], a recursion over the tests; the
    names advance with [SkipComma], which is null after the last. *)
Fixpoint register_tests (prefix : text) (state : TypedTestSuitePState) (case_name : text)
    (test_names : option text) (Tests types : list Z) (type_names : list text)
    (suites_ : TypedRegistry) (u : UnitTest) : outcome (TypedRegistry * UnitTest) :=
  match Tests with
  | [] => Ok (suites_, u)
  | Head :: Tests =>
      let suites_ := RegisterInstantiation suites_ case_name in
      names ← or_fault InvalidDeref test_names;
      if negb (TestExists state (first_name names)) then Err ProcessExit
      else
        test_location ← GetCodeLocation state (first_name names);
        u ← register_types prefix test_location case_name names Head types 0 type_names u;
        register_tests prefix state case_name (SkipComma names) Tests types type_names suites_ u
  end.

(** INSTANTIATE_TYPED_TEST_SUITE_P. *)
Definition INSTANTIATE_TYPED_TEST_SUITE_P (prefix : text) (state : TypedTestSuitePState)
    (SuiteName registered_test_names : text) (gtest_AllTests_ types : list Z)
    (GetName : Z -> nat -> text) (suites_ : TypedRegistry) (u : UnitTest)
    : outcome (TypedRegistry * UnitTest) :=
  register_tests prefix state SuiteName (Some registered_test_names) gtest_AllTests_ types
    (GenerateNames GetName types) suites_ u.

(** ** Suites that have not been instantiated *)

Variable FailureTest_id : Z.
Variable failure_factory : CodeLocation -> text -> bool -> Z.

Definition typed_message (name : text) : text :=
  str "Type parameterized test suite " ++ name ++
  str " is defined via REGISTER_TYPED_TEST_SUITE_P, but never instantiated " ++
  str "via INSTANTIATE_TYPED_TEST_SUITE_P. None of the test cases will run." ++ blank_line ++
  str "Ideally, TYPED_TEST_P definitions should only ever be included as " ++
  str "part of binaries that intend to use them. (As opposed to, for " ++
  str "example, being placed in a library that may be linked in to get " ++
  str "other utilities.)" ++ how_to_allow name.

Definition CheckForInstantiations (ignored : list text) (suites_ : TypedRegistry) (u : UnitTest)
    : outcome UnitTest :=
  for_each_of (fun u testcase =>
    if instantiated testcase.2 then Ok u
    else if bool_decide (testcase.1 ∈ ignored) then Ok u
    else register_failure_test fs FailureTest_id failure_factory u
           (str "UninstantiatedTypeParameterizedTestSuite<" ++ testcase.1 ++ str ">")
           (typed_location testcase.2) (typed_message testcase.1)
           kErrorOnUninstantiatedTypeParameterizedTest) suites_ u.

(** [UnitTestImpl::RegisterParameterizedTests], with its flag. *)
Definition RegisterParameterizedTests (fixture : Z -> Fixture) (ParamType : Z -> Type)
    (PrintToString : forall c, ParamType c -> text) (fuel : nat) (ignored : list text)
    (parameterized_test_registry_ : ParamRegistry ParamType) (suites_ : TypedRegistry)
    (parameterized_tests_registered_ : bool) (u : UnitTest) : outcome (bool * UnitTest) :=
  if parameterized_tests_registered_ then Ok (parameterized_tests_registered_, u)
  else
    u ← registry_RegisterTests fs Test_ fixture ParamType PrintToString FailureTest_id failure_factory
          fuel ignored parameterized_test_registry_ u;
    u ← CheckForInstantiations ignored suites_ u;
    Ok (true, u).

End register.

(** ** Lists of names *)

(** A name as C++ has it. *)
Definition identifier (n : text) : Prop :=
  n <> [] /\ Forall (fun c => c <> COMMA /\ IsSpace c = false) n.

(** What [#__VA_ARGS__] makes of the names. *)
Definition stringified (names : list text) : text := join (str ", ") names.

Lemma SkipSpaces_length s : (length (SkipSpaces s) <= length s)%nat.
Proof. induction s as [|c s IH]; cbn; [done|]. destruct (IsSpace c); cbn; lia. Qed.

Lemma SkipComma_length s r : SkipComma s = Some r -> (length r < length s)%nat.
Proof.
  induction s as [|c s IH]; cbn; [done|]. case_bool_decide.
  - intros [= <-]. pose proof (SkipSpaces_length s). lia.
  - intros Hr%IH. lia.
Qed.

Lemma split_loop_total fuel src : (length src < fuel)%nat -> exists names, split_loop fuel src = Ok names.
Proof.
  revert src. induction fuel as [|fuel IH]; intros src H; [lia|]. cbn.
  destruct (SkipComma src) as [r|] eqn:E; [|by eexists]. apply SkipComma_length in E.
  destruct (IH r) as [names ->]; [lia|]. by eexists.
Qed.

Lemma SplitIntoTestNames_total src : exists names, SplitIntoTestNames src = Ok names.
Proof.
  apply split_loop_total. pose proof (SkipSpaces_length src). lia.
Qed.

Lemma prefix_comma n r : Forall (fun c => c <> COMMA /\ IsSpace c = false) n ->
  GetPrefixUntilComma (n ++ COMMA :: r) = n /\ SkipComma (n ++ COMMA :: r) = Some (SkipSpaces r).
Proof.
  induction 1 as [|c n [Hc _] _ [IH1 IH2]]; cbn; [by rewrite bool_decide_true|].
  rewrite !bool_decide_false by done. by rewrite IH1, IH2.
Qed.

Lemma prefix_no_comma n : Forall (fun c => c <> COMMA /\ IsSpace c = false) n ->
  GetPrefixUntilComma n = n /\ SkipComma n = None.
Proof.
  induction 1 as [|c n [Hc _] _ [IH1 IH2]]; cbn; [done|].
  rewrite !bool_decide_false by done. by rewrite IH1, IH2.
Qed.

Lemma identifier_strip n : identifier n -> StripTrailingSpaces n = n.
Proof.
  intros [Hne H]. unfold StripTrailingSpaces. rewrite <- (rev_involutive n) at 2. f_equal.
  destruct (rev n) as [|c r] eqn:E; [done|]. cbn.
  assert (Hc : c ∈ n) by (rewrite <- (rev_involutive n), E; cbn; apply elem_of_app; right; by left).
  rewrite Forall_forall in H. by destruct (H _ Hc) as [_ ->].
Qed.

Lemma identifier_SkipSpaces n r : identifier n -> SkipSpaces (n ++ r) = n ++ r.
Proof.
  intros [Hne H]. destruct H as [|c n [_ Hc] _]; [done|]. cbn. by rewrite Hc.
Qed.

Lemma first_name_cons n names : identifier n -> first_name (stringified (n :: names)) = n.
Proof.
  intros Hn. unfold first_name, stringified. pose proof Hn as [_ H]. destruct names as [|m names]; cbn.
  - rewrite (proj1 (prefix_no_comma n H)). by apply identifier_strip.
  - rewrite (proj1 (prefix_comma n _ H)). by apply identifier_strip.
Qed.

Lemma SkipComma_cons n m names : identifier n -> identifier m ->
  SkipComma (stringified (n :: m :: names)) = Some (stringified (m :: names)).
Proof.
  intros [_ H] Hm. unfold stringified. cbn. rewrite (proj2 (prefix_comma n _ H)).
  f_equal. cbn. destruct names; [rewrite <- (app_nil_r m)|]; by apply identifier_SkipSpaces.
Qed.

Lemma split_loop_S fuel src : split_loop (S fuel) src =
  match SkipComma src with
  | None => Ok [first_name src]
  | Some rest => names ← split_loop fuel rest; Ok (first_name src :: names)
  end.
Proof. done. Qed.

Lemma SplitIntoTestNames_stringified names : names <> [] -> Forall identifier names ->
  SplitIntoTestNames (stringified names) = Ok names.
Proof.
  intros Hne H. unfold SplitIntoTestNames.
  assert (E : SkipSpaces (stringified names) = stringified names).
  { destruct H as [|n [|m l] Hn _]; [done|rewrite <- (app_nil_r n)|]; by apply identifier_SkipSpaces. }
  rewrite E. assert (Hlen : (length names <= length (stringified names))%nat).
  { clear E Hne. induction H as [|n [|m l] [Hn _] Hl IH]; [done| |]; cbn in *.
    - destruct n; [done|]. cbn. lia.
    - rewrite length_app. cbn. lia. }
  revert Hlen. generalize (length (stringified names)) as k. clear E.
  induction H as [|n l Hn Hl IH]; [done|]. intros [|k] Hk; cbn in Hk; [lia|].
  rewrite split_loop_S, first_name_cons by done. destruct Hl as [|m l Hm Hl].
  - destruct Hn as [_ H]. unfold stringified. cbn. by rewrite (proj2 (prefix_no_comma n H)).
  - rewrite SkipComma_cons by done. rewrite IH; [done|done|cbn in *; lia].
Qed.

(** ** Maps with names as keys *)

Lemma text_ltb_trans s t u : text_ltb s t = true -> text_ltb t u = true -> text_ltb s u = true.
Proof.
  revert t u. induction s as [|c s IH]; intros [|d t] [|e u]; cbn [text_ltb]; try done.
  destruct (Nat.ltb_spec (nat_of_ascii c) (nat_of_ascii d)) as [H1|H1];
    destruct (Nat.ltb_spec (nat_of_ascii d) (nat_of_ascii e)) as [H2|H2]; intros E1 E2.
  - by rewrite (proj2 (Nat.ltb_lt _ _)) by lia.
  - case_bool_decide; [subst|done]. by rewrite (proj2 (Nat.ltb_lt _ _)) by lia.
  - case_bool_decide; [subst|done]. by rewrite (proj2 (Nat.ltb_lt _ _)) by lia.
  - case_bool_decide; [subst|done]. case_bool_decide; [subst|done].
    rewrite (proj2 (Nat.ltb_ge _ _)) by lia. by eapply IH.
Qed.

Lemma text_ltb_irrefl s : text_ltb s s = false.
Proof.
  induction s as [|c s IH]; [done|]. cbn [text_ltb]. by rewrite Nat.ltb_irrefl, bool_decide_true.
Qed.

Lemma text_ltb_total s t : text_ltb s t = true \/ s = t \/ text_ltb t s = true.
Proof.
  revert t. induction s as [|c s IH]; intros [|d t]; cbn [text_ltb]; [tauto..|].
  destruct (Nat.ltb_spec (nat_of_ascii c) (nat_of_ascii d)) as [H1|H1]; [tauto|].
  destruct (Nat.ltb_spec (nat_of_ascii d) (nat_of_ascii c)) as [H2|H2]; [tauto|].
  assert (c = d) as -> by (rewrite <- (ascii_nat_embedding c), <- (ascii_nat_embedding d); f_equal; lia).
  rewrite !bool_decide_true by done. destruct (IH t) as [?|[->|?]]; tauto.
Qed.

Definition keys_sorted {V} (m : list (text * V)) : Prop :=
  StronglySorted (fun k k' => text_ltb k k' = true) (map fst m).

Lemma map_emplace_keys {V} k (v : V) m k' :
  k' ∈ map fst (map_emplace k v m) <-> k' = k \/ k' ∈ map fst m.
Proof.
  induction m as [|[k1 v1] m IH]; cbn; [set_solver|].
  case_bool_decide; [subst; cbn; set_solver|]. destruct (text_ltb k k1); cbn; set_solver.
Qed.

Lemma map_emplace_sorted {V} k (v : V) m : keys_sorted m -> keys_sorted (map_emplace k v m).
Proof.
  unfold keys_sorted. induction m as [|[k1 v1] m IH]; cbn; [repeat constructor|].
  intros [Hs Hf]%StronglySorted_inv. case_bool_decide as E; [by constructor|].
  destruct (text_ltb k k1) eqn:El; cbn.
  - repeat (constructor; try done). eapply Forall_impl; [exact Hf|]. intros k2. by apply text_ltb_trans.
  - constructor; [by apply IH|]. rewrite Forall_forall in *. intros k2 [->|Hk]%map_emplace_keys; [|by apply Hf].
    by destruct (text_ltb_total k k1) as [?|[?|?]]; [congruence|done|].
Qed.

Lemma keys_sorted_NoDup {V} (m : list (text * V)) : keys_sorted m -> NoDup (map fst m).
Proof.
  unfold keys_sorted. induction 1 as [|k l _ IH Hf]; [constructor|]. constructor; [|done].
  intros Hk. rewrite Forall_forall in Hf. specialize (Hf _ Hk). by rewrite text_ltb_irrefl in Hf.
Qed.

Lemma map_get_key {V} k (m : list (text * V)) : is_Some (map_get k m) <-> k ∈ map fst m.
Proof.
  unfold map_get. induction m as [|[k1 v1] m IH]; cbn.
  - split; [by intros [? ?]|by intros ?%not_elem_of_nil].
  - case_bool_decide; cbn; [subst; split; [by left|eauto]|]. rewrite IH. set_solver.
Qed.

(** ** The check of the names *)

Definition test_names_of (s : TypedTestSuitePState) : list text := map fst (registered_tests_ s).

Lemma TestExists_spec s n : TestExists s n = true <-> n ∈ test_names_of s.
Proof. unfold TestExists. rewrite bool_decide_eq_true. apply map_get_key. Qed.

Lemma listed_errors_nil s names tests :
  (fst (listed_errors s names tests) = [] <->
   NoDup names /\ forall n, n ∈ names -> (n ∉ tests) /\ n ∈ test_names_of s) /\
  (fst (listed_errors s names tests) = [] ->
   forall n, n ∈ snd (listed_errors s names tests) <-> n ∈ names \/ n ∈ tests).
Proof.
  revert tests. induction names as [|m names IH]; intros tests; cbn [listed_errors].
  { cbn. split; [|set_solver]. split; [|done]. intros _. split; [constructor|]. by intros n ?%not_elem_of_nil. }
  case_bool_decide as Hm.
  { destruct (listed_errors s names tests) as [e t]. cbn. split; [|by destruct e].
    split; [by destruct e|]. intros [_ H]. by destruct (H m) as [? _]; [left|]. }
  destruct (TestExists s m) eqn:E.
  - apply TestExists_spec in E. destruct (IH (m :: tests)) as [IH1 IH2]. split.
    + rewrite IH1, NoDup_cons. split.
      * intros [Hnd H]. split_and!; [|done|].
        -- intros Hin. destruct (H m Hin) as [Hmt _]. apply Hmt. by left.
        -- intros n [->|Hn]%elem_of_cons; [done|]. destruct (H n Hn) as [Hnt ?]. split; [|done].
           intros ?. apply Hnt. by right.
      * intros [[Hmn Hnd] H]. split; [done|]. intros n Hn. destruct (H n) as [Hnt ?]; [by right|].
        split; [|done]. rewrite not_elem_of_cons. split; [by intros ->|done].
    + intros He n. rewrite (IH2 He n), !elem_of_cons. tauto.
  - destruct (listed_errors s names tests) as [e t]. cbn. split; [|by destruct e].
    split; [by destruct e|]. intros [_ H]. destruct (H m) as [_ Hin]; [by left|].
    apply TestExists_spec in Hin. congruence.
Qed.

Lemma forgotten_errors_nil s tests :
  forgotten_errors s tests = [] <-> forall n, n ∈ test_names_of s -> n ∈ tests.
Proof.
  unfold forgotten_errors, test_names_of. induction (registered_tests_ s) as [|[k v] m IH]; cbn [flat_map map fst].
  { split; [|done]. by intros _ n ?%not_elem_of_nil. }
  case_bool_decide as Hk.
  - cbn [app]. rewrite IH. split; [|set_solver]. intros H n [->|?]%elem_of_cons; [done|by apply H].
  - split; [done|]. intros H. destruct Hk. apply H. by left.
Qed.

(** No errors: the names are the tests that have been defined, in some order. *)
Lemma name_errors_nil s names : keys_sorted (registered_tests_ s) ->
  (name_errors s names = [] <-> names ≡ₚ test_names_of s).
Proof.
  intros Hs%keys_sorted_NoDup. unfold name_errors.
  pose proof (listed_errors_nil s names []) as [H1 H2].
  destruct (listed_errors s names []) as [e tests]. cbn [fst snd] in *. split.
  - intros [He Hf]%app_nil. pose proof (proj1 (forgotten_errors_nil _ _) Hf) as Hall.
    apply H1 in He as He'. destruct He' as [Hnd Hin]. apply NoDup_Permutation; [done|done|].
    intros n. split; [intros Hn; by apply (Hin n)|]. intros Hn%Hall. apply (H2 He) in Hn as [?|Hn]; [done|].
    by apply not_elem_of_nil in Hn.
  - intros HP. assert (He : e = []).
    { apply H1. split; [by rewrite HP|]. intros n Hn. split; [apply not_elem_of_nil|by rewrite <- HP]. }
    rewrite He. cbn. apply forgotten_errors_nil. intros n Hn. apply (H2 He). left. by rewrite HP.
Qed.

Lemma VerifyRegisteredTestNames_spec s suites_ name file line src : keys_sorted (registered_tests_ s) ->
  exists names, SplitIntoTestNames src = Ok names /\
    VerifyRegisteredTestNames s suites_ name file line src =
    if bool_decide (names ≡ₚ test_names_of s)
    then Ok (mkState true (registered_tests_ s), RegisterTestSuite suites_ name (mkCodeLocation file line))
    else Err ProcessExit.
Proof.
  intros Hs. destruct (SplitIntoTestNames_total src) as [names E]. exists names. split; [done|].
  unfold VerifyRegisteredTestNames. rewrite E, bind_ok.
  by rewrite (bool_decide_ext _ _ (name_errors_nil s names Hs)).
Qed.

(** The tests that TYPED_TEST_P defines, before REGISTER_TYPED_TEST_SUITE_P. *)
Definition add_tests (defined : list (text * CodeLocation)) (s : TypedTestSuitePState)
    : outcome TypedTestSuitePState :=
  for_each_of (fun s d => AddTestName s (loc_file d.2) (loc_line d.2) d.1) defined s.

Lemma add_tests_spec defined s : registered_ s = false -> keys_sorted (registered_tests_ s) ->
  exists s', add_tests defined s = Ok s' /\ registered_ s' = false /\ keys_sorted (registered_tests_ s') /\
    (forall n, n ∈ test_names_of s' <-> n ∈ map fst defined \/ n ∈ test_names_of s).
Proof.
  revert s. unfold add_tests. induction defined as [|[n loc] defined IH]; intros s Hr Hs.
  { exists s. split_and!; [done..|]. set_solver. }
  rewrite for_each_of_cons. cbn [fst snd].
  assert (E1 : AddTestName s (loc_file loc) (loc_line loc) n =
    Ok (mkState (registered_ s) (map_emplace n (mkCodeLocation (loc_file loc) (loc_line loc)) (registered_tests_ s))))
    by (unfold AddTestName; by rewrite Hr).
  rewrite E1, bind_ok.
  destruct (IH (mkState (registered_ s) (map_emplace n (mkCodeLocation (loc_file loc) (loc_line loc)) (registered_tests_ s))))
    as (s' & E & Hr' & Hs' & Hn); [done|by apply map_emplace_sorted|].
  exists s'. split_and!; [exact E|done|done|]. intros m. rewrite (Hn m). unfold test_names_of.
  cbn [registered_tests_ map fst]. rewrite map_emplace_keys. set_solver.
Qed.

(** ** What is registered *)

Section registered.
Context {FS : Type} `{!FileSystem FS} (fs : FS) (Test_ : Fixture).
Context (GetTypeName : Z -> text) (FixtureClass : Z -> Z) (TestClass : Z -> Z -> Fixture).
Context (TestFactoryImpl : Z -> Z -> Z) (set_up tear_down : Z -> Z -> option Z).
Context (Hup : forall Sel T, GetSetUpCaseOrSuite Test_ (TestClass Sel T) = Ok (set_up Sel T)).
Context (Hdown : forall Sel T, GetTearDownCaseOrSuite Test_ (TestClass Sel T) = Ok (tear_down Sel T)).

Definition typed_suite_name (prefix case_name type_name : text) : text :=
  prefix ++ (if bool_decide (prefix = []) then [] else str "/") ++ case_name ++ str "/" ++ type_name.

(** The test [Sel] with a name, for the type [T] at an index. *)
Definition typed_registration (prefix case_name name : text) (loc : CodeLocation) (GetName : Z -> nat -> text)
    (Sel : Z) (p : nat * Z) : Registration :=
  mkRegistration (set_up Sel p.2) (tear_down Sel p.2)
    (new_TestInfo (typed_suite_name prefix case_name (GetName p.2 p.1)) (c_str name)
       (Some (c_str (GetTypeName p.2))) None loc (FixtureClass p.2) (TestFactoryImpl Sel p.2)).

Abbreviation register_types := (register_types fs Test_ GetTypeName FixtureClass TestClass TestFactoryImpl).
Abbreviation register_tests := (register_tests fs Test_ GetTypeName FixtureClass TestClass TestFactoryImpl).

Lemma GenerateNames_lookup GetName types i k T :
  types !! k = Some T -> GenerateNamesRecursively GetName types i !! k = Some (GetName T (i + k)%nat).
Proof.
  revert i k. induction types as [|T' types IH]; intros i [|k]; cbn; try done.
  - intros [= ->]. by rewrite Nat.add_0_r.
  - intros H. rewrite <- Nat.add_succ_comm. exact (IH (S i) k H).
Qed.

Lemma register_types_spec prefix loc case_name names GetName Sel types all index u :
  (forall k T, types !! k = Some T -> all !! (index + k)%nat = Some (GetName T (index + k)%nat)) ->
  register_types prefix loc case_name names Sel types index all u =
  register_all fs (typed_registration prefix case_name (first_name names) loc GetName Sel <$>
                     enum index types) u.
Proof.
  revert index u. induction types as [|T types IH]; intros index u H; [done|].
  cbn [TypedTests.register_types enum fmap list_fmap]. rewrite register_all_cons.
  specialize (H 0%nat T eq_refl) as H0. rewrite Nat.add_0_r in H0. rewrite H0. cbn [or_fault].
  rewrite bind_ok, Hup, Hdown, !bind_ok. unfold MakeAndRegisterTestInfo.
  cbn [typed_registration reg_set_up reg_tear_down reg_test fst snd].
  destruct (unit_AddTestInfo _ _ _ _ _) as [u1|]; [|done]. rewrite !bind_ok. apply IH.
  intros k T' HT. replace (S index + k)%nat with (index + S k)%nat by lia. by apply H.
Qed.

Lemma RegisterInstantiation_twice suites_ n :
  RegisterInstantiation (RegisterInstantiation suites_ n) n = RegisterInstantiation suites_ n.
Proof.
  unfold RegisterInstantiation. rewrite map_map. apply map_ext. intros [k v]. cbn.
  destruct (decide (k = n)) as [E|E].
  - by rewrite !(bool_decide_true _ E).
  - by rewrite !(bool_decide_false _ E).
Qed.

Definition typed_instances (prefix case_name : text) (s : TypedTestSuitePState) (GetName : Z -> nat -> text)
    (names : list text) (Tests types : list Z) : list Registration :=
  zip names Tests ≫= fun nt =>
    typed_registration prefix case_name nt.1
      (default (mkCodeLocation [] 0) (map_get nt.1 (registered_tests_ s))) GetName nt.2 <$> enum 0 types.

Lemma register_tests_spec prefix s case_name GetName names Tests types suites_ u :
  Forall identifier names -> (forall n, n ∈ names -> n ∈ test_names_of s) ->
  length names = length Tests ->
  register_tests prefix s case_name (match names with [] => None | _ => Some (stringified names) end)
    Tests types (GenerateNames GetName types) suites_ u =
  (u ← register_all fs (typed_instances prefix case_name s GetName names Tests types) u;
   Ok (match Tests with [] => suites_ | _ => RegisterInstantiation suites_ case_name end, u)).
Proof.
  intros Hid. revert Tests suites_ u.
  induction Hid as [|n names Hn Hid IH]; intros [|Sel Tests] suites_ u Hin Hlen; try done.
  cbn [TypedTests.register_tests or_fault]. rewrite bind_ok, (first_name_cons n names Hn).
  assert (Hex : n ∈ test_names_of s) by (apply Hin; by left).
  rewrite (proj2 (TestExists_spec s n) Hex). cbn [negb]. unfold GetCodeLocation.
  apply map_get_key in Hex as [loc Hloc]. rewrite Hloc. cbn [or_fault]. rewrite bind_ok.
  rewrite (register_types_spec prefix loc case_name _ GetName Sel types _ 0).
  2:{ intros k T HT. by apply GenerateNames_lookup. }
  rewrite (first_name_cons n names Hn). unfold typed_instances. cbn [zip zip_with].
  rewrite bind_cons, register_all_app. cbn [fst snd]. rewrite Hloc. cbn [default].
  destruct (register_all fs (_ <$> enum 0 types) u) as [u1|]; [|done]. rewrite !bind_ok.
  assert (E : SkipComma (stringified (n :: names)) =
              match names with [] => None | _ => Some (stringified names) end).
  { destruct Hid as [|m names Hm _]; [|by apply SkipComma_cons].
    destruct Hn as [_ Hn]. unfold stringified. cbn. apply (prefix_no_comma n Hn). }
  rewrite E, IH; [|intros m Hm; apply Hin; by right|by injection Hlen].
  destruct (register_all _ _ u1); [|done]. rewrite !bind_ok.
  destruct Tests; [done|]. by rewrite RegisterInstantiation_twice.
Qed.

End registered.

(** The suites that are reported, in the order of their names. *)
Definition uninstantiated (FailureTest_id : Z) (failure_factory : CodeLocation -> text -> bool -> Z)
    (ignored : list text) (testcase : text * TypedSuiteInfo) : list Registration :=
  if instantiated testcase.2 || bool_decide (testcase.1 ∈ ignored) then []
  else [failure_test FailureTest_id failure_factory
          (str "UninstantiatedTypeParameterizedTestSuite<" ++ testcase.1 ++ str ">")
          (typed_location testcase.2) (typed_message testcase.1)
          kErrorOnUninstantiatedTypeParameterizedTest].

Lemma CheckForInstantiations_registers {FS} `{!FileSystem FS} (fs : FS) FailureTest_id failure_factory
    ignored suites_ u :
  CheckForInstantiations fs FailureTest_id failure_factory ignored suites_ u =
  register_all fs (suites_ ≫= uninstantiated FailureTest_id failure_factory ignored) u.
Proof.
  apply for_each_of_registers. intros u' [n [loc i]] _. unfold uninstantiated. cbn [fst snd instantiated].
  destruct i; [done|]. cbn [orb]. destruct (bool_decide (n ∈ ignored)); [done|].
  rewrite register_all_cons. unfold register_failure_test. by destruct (unit_AddTestInfo _ _ _ _ _).
Qed.

(** The names of REGISTER_TYPED_TEST_SUITE_P are the tests that TYPED_TEST_P
    has defined, each once. *)
Definition lists_exactly (names : list text) (defined : list (text * CodeLocation)) : Prop :=
  NoDup names /\ forall n, n ∈ names <-> n ∈ map fst defined.

(** C37. A type-parameterised suite: the tests are defined, then
    REGISTER_TYPED_TEST_SUITE_P gets the text of their names.  It succeeds exactly
    if the names are the defined tests, each listed once; if not, the program
    ends.  INSTANTIATE_TYPED_TEST_SUITE_P then registers every test for every type,
    with the names in the order of the list, and marks the suite as instantiated. *)
Theorem typed_suite_correct {FS} `{!FileSystem FS} (fs : FS) Test_ GetTypeName FixtureClass TestClass
    TestFactoryImpl set_up tear_down defined names Tests suites_ suite file line
    (Hup : forall Sel T, GetSetUpCaseOrSuite Test_ (TestClass Sel T) = Ok (set_up Sel T))
    (Hdown : forall Sel T, GetTearDownCaseOrSuite Test_ (TestClass Sel T) = Ok (tear_down Sel T))
    (Hnames : names <> []) (Hid : Forall identifier names) (Hlen : length names = length Tests) :
  exists s, add_tests defined new_State = Ok s /\
  (~ lists_exactly names defined ->
   VerifyRegisteredTestNames s suites_ suite file line (stringified names) = Err ProcessExit) /\
  (lists_exactly names defined ->
   exists s' suites', 
     VerifyRegisteredTestNames s suites_ suite file line (stringified names) = Ok (s', suites') /\
     (forall test loc, AddTestName s' loc line test = Err ProcessExit) /\
     forall prefix types GetName u,
       INSTANTIATE_TYPED_TEST_SUITE_P fs Test_ GetTypeName FixtureClass TestClass TestFactoryImpl
         prefix s' suite (stringified names) Tests types GetName suites' u =
       (u ← register_all fs (typed_instances GetTypeName FixtureClass TestFactoryImpl set_up tear_down
                               prefix suite s' GetName names Tests types) u;
        Ok (RegisterInstantiation suites' suite, u))).
Proof.
  destruct (add_tests_spec defined new_State) as (s & E & _ & Hs & Hn); [done|constructor|].
  exists s. split; [exact E|].
  destruct (VerifyRegisteredTestNames_spec s suites_ suite file line (stringified names) Hs) as (names' & Es & Ev).
  rewrite SplitIntoTestNames_stringified in Es by done. injection Es as <-. rewrite Ev.
  assert (Hiff : names ≡ₚ test_names_of s <-> lists_exactly names defined).
  { unfold lists_exactly. assert (Hm : forall n, n ∈ test_names_of s <-> n ∈ map fst defined).
    { intros n. rewrite Hn. split; [|by left]. intros [?|?%not_elem_of_nil]; done. }
    setoid_rewrite <- Hm. split.
    - intros HP. split; [rewrite HP; by apply keys_sorted_NoDup|]. intros n. by rewrite HP.
    - intros [Hnd Hall]. apply NoDup_Permutation; [done|by apply keys_sorted_NoDup|done]. }
  split; intros H.
  - rewrite bool_decide_false; [done|]. by rewrite Hiff.
  - rewrite bool_decide_true by by apply Hiff. do 2 eexists. split; [done|]. split; [done|].
    intros prefix types GetName u. unfold INSTANTIATE_TYPED_TEST_SUITE_P.
    pose proof (register_tests_spec fs Test_ GetTypeName FixtureClass TestClass TestFactoryImpl set_up
      tear_down Hup Hdown prefix (mkState true (registered_tests_ s)) suite GetName names Tests types
      (RegisterTestSuite suites_ suite (mkCodeLocation file line)) u Hid) as R.
    destruct names as [|n names]; [done|]. rewrite R; [|intros m Hm; apply H in Hm; apply Hn; by left|done].
    by destruct Tests.
Qed.

Section sample.
#[local] Instance typed_directory : FileSystem unit := {
  fs_stat _ _ := Some true; fs_mkdir _ _ := (true, tt); fs_getcwd _ := Some (str "/tmp") }.

Definition typed_defined : list (text * CodeLocation) :=
  [(str "Empty", mkCodeLocation (str "side_test.cc") 10); (str "Crosses", mkCodeLocation (str "side_test.cc") 20)].
Definition typed_type (T : Z) : text := if T =? 0 then str "Bid" else str "Ask".

(** "Crosses, Empty", and the types 0 and 1. *)
Lemma typed_suite_correct_witness :
  exists s s' suites' u,
    add_tests typed_defined new_State = Ok s /\
    VerifyRegisteredTestNames s [] (str "Side") (str "side_test.cc") 30 (str "Crosses, Empty") = Ok (s', suites') /\
    INSTANTIATE_TYPED_TEST_SUITE_P tt sample_fixture typed_type (fun T => 50 + T)
      (fun _ _ => sample_fixture) (fun Sel T => 10 * Sel + T) (str "My") s' (str "Side")
      (str "Crosses, Empty") [3; 4] [0; 1] DefaultNameGenerator suites' new_UnitTest =
    Ok ([(str "Side", mkTypedSuiteInfo (mkCodeLocation (str "side_test.cc") 30) true)], u) /\
    (fun t => (test_name_ t, type_param_ t, loc_line (location_ t), factory_ t)) <$>
      tests_named (str "My/Side/1") (TestSelect.test_suites_ (unit_suites u)) =
    [(str "Crosses", Some (str "Ask"), 20, 31); (str "Empty", Some (str "Ask"), 10, 41)].
Proof.
  destruct (typed_suite_correct tt sample_fixture typed_type (fun T => 50 + T) (fun _ _ => sample_fixture)
    (fun Sel T => 10 * Sel + T) (fun _ _ => None) (fun _ _ => None) typed_defined
    [str "Crosses"; str "Empty"] [3; 4] [] (str "Side") (str "side_test.cc") 30) as (s & E & _ & H).
  - reflexivity.
  - reflexivity.
  - done.
  - repeat constructor; discriminate.
  - reflexivity.
  - destruct H as (s' & suites' & Ev & _ & Hi).
    { split; [apply (bool_decide_unpack _); vm_compute; exact I|]. intros n. cbn. set_solver. }
    eexists s, s', suites', _. split; [exact E|]. split; [exact Ev|].
    vm_compute in E. injection E as <-. vm_compute in Ev. injection Ev as <- <-. split.
    + etransitivity; [apply (Hi (str "My") [0; 1])|]. vm_compute. reflexivity.
    + vm_compute. reflexivity.
Defined.
End sample.
