(* ===== verification/RunnerSteps.v ===== *)
(** * Reasoning about a run: one piece of user code

    [safe m w Q]: from [w] the computation [m] ends in a state and with a value
    or exception that satisfy [Q], or a counter leaves the range of an [int]; no
    other fault happens.  [did p w w' ss]: the steps [ss] were seen by the
    listener that is watched, and their test parts, and nothing else, went to
    the result at [p]. *)

From S2P Require Import Prelude Outcome Common CStr FilePath TestFilter TestResult TestSelect UnitTest ReportFormat CommandLine XmlReport JsonReport Listeners Runner.

(** ** Safety *)

Section safe.
Context {U : Type}.
Implicit Types w : World U.

Definition safe_outcome {A} (o : outcome A) (Q : A -> Prop) : Prop :=
  match o with Ok a => Q a | Err IntOverflow => True | Err _ => False end.
Definition safe {A} (m : M (U := U) A) w (Q : World U -> res A -> Prop) : Prop :=
  safe_outcome (m w) (fun p => Q (fst p) (snd p)).

Lemma safe_outcome_mono {A} (o : outcome A) (P Q : A -> Prop) :
  safe_outcome o P -> (forall a, P a -> Q a) -> safe_outcome o Q.
Proof. destruct o as [a|[]]; cbn; auto. Qed.

Lemma safe_outcome_bind {A B} (o : outcome A) (k : A -> outcome B) Q :
  safe_outcome o (fun a => safe_outcome (k a) Q) -> safe_outcome (o ≫= k) Q.
Proof. by destruct o as [a|[]]. Qed.

Lemma safe_mono {A} (m : M A) w P Q :
  safe m w P -> (forall w' r, P w' r -> Q w' r) -> safe m w Q.
Proof. intros H HPQ. eapply safe_outcome_mono; [exact H|]. intros [w' r]. apply HPQ. Qed.

(** The result itself. *)
Lemma safe_result {A} (m : M A) w Q :
  safe m w Q -> safe m w (fun w' r => Q w' r /\ m w = Ok (w', r)).
Proof. unfold safe. by destruct (m w) as [[w' r]|[]]. Qed.

Lemma safe_ret {A} (a : A) w Q : Q w (Val a) -> safe (ret a) w Q.
Proof. done. Qed.
Lemma safe_throw {A} e w (Q : World U -> res A -> Prop) : Q w (Exn e) -> safe (throw e) w Q.
Proof. done. Qed.
Lemma safe_get {A} (f : World U -> A) w Q : Q w (Val (f w)) -> safe (get f) w Q.
Proof. done. Qed.
Lemma safe_modify f w (Q : World U -> res unit -> Prop) : Q (f w) (Val tt) -> safe (modify f) w Q.
Proof. done. Qed.
Lemma safe_lift {A} (o : outcome A) w Q :
  safe_outcome o (fun a => Q w (Val a)) -> safe (lift o) w Q.
Proof. intros H. unfold safe, lift. by apply safe_outcome_bind. Qed.

Lemma safe_bind {A B} (m : M A) (k : A -> M B) w Q :
  safe m w (fun w' r => match r with Val a => safe (k a) w' Q | Exn e => Q w' (Exn e) end) ->
  safe (bind m k) w Q.
Proof.
  intros H. unfold safe, bind. apply safe_outcome_bind. eapply safe_outcome_mono; [exact H|].
  intros [w' [a|e]]; done.
Qed.

(** A computation that returns a value, whatever follows. *)
Lemma safe_val {A B} (m : M A) (k : A -> M B) w P Q :
  safe m w (fun w' r => exists a, r = Val a /\ P w' a) ->
  (forall w' a, P w' a -> safe (k a) w' Q) -> safe (bind m k) w Q.
Proof.
  intros H Hk. apply safe_bind. eapply safe_mono; [exact H|]. intros w' r (a & -> & Ha). auto.
Qed.

Lemma safe_val_with {A B C} (m : M A) (k : A -> M B) w (P : World U -> A -> C -> Prop) Q :
  safe m w (fun w' r => exists a c, r = Val a /\ P w' a c) ->
  (forall w' a c, P w' a c -> safe (k a) w' Q) -> safe (bind m k) w Q.
Proof.
  intros H Hk. apply safe_bind. eapply safe_mono; [exact H|]. intros w' r (a & c & -> & Ha). eauto.
Qed.

Lemma safe_unit {B} (m : M unit) (k : unit -> M B) w P Q :
  safe m w (fun w' r => r = Val tt /\ P w') -> (forall w', P w' -> safe (k tt) w' Q) ->
  safe (bind m k) w Q.
Proof.
  intros H Hk. apply safe_bind. eapply safe_mono; [exact H|]. intros w' r (-> & Ha). auto.
Qed.

Lemma safe_assoc {A B C} (m : M A) (k : A -> M B) (k' : B -> M C) w Q :
  safe (bind (bind m k) k') w Q -> safe (bind m (fun x => bind (k x) k')) w Q.
Proof.
  unfold safe, bind. destruct (m w) as [[w' [a|e]]|f]; cbn; [|done|done]. by destruct (k a w').
Qed.

Lemma safe_catch {A} (m : M A) (h : exn -> M A) w Q :
  safe m w (fun w' r => match r with Val a => Q w' (Val a) | Exn e => safe (h e) w' Q end) ->
  safe (catch m h) w Q.
Proof.
  intros H. unfold safe, catch. apply safe_outcome_bind. eapply safe_outcome_mono; [exact H|].
  intros [w' [a|e]]; done.
Qed.
End safe.

(** Counting can only overflow. *)
Lemma CountIf_safe {A} (l : list A) p :
  safe_outcome (CountIf l p) (fun n => (0 <? n) = existsb p l).
Proof.
  unfold CountIf.
  enough (G : forall n, 0 <= n -> safe_outcome
     (foldl (fun count x => n ← count; if p x then iadd n 1 else Ok n) (Ok n) l)
     (fun m => n <= m /\ (0 <? m) = (0 <? n) || existsb p l)).
  { eapply safe_outcome_mono; [apply (G 0); lia|]. intros n [_ H]. exact H. }
  induction l as [|x l IH]; intros n Hn; cbn [foldl existsb].
  - cbn. rewrite orb_false_r. split; [lia|done].
  - rewrite bind_ok. destruct (p x) eqn:Ep.
    + unfold iadd. destruct (int_ok (n + 1)).
      * eapply safe_outcome_mono; [apply IH; lia|]. intros m [Hm _]. split; [lia|].
        rewrite (proj2 (Z.ltb_lt 0 m)) by lia. by rewrite orb_true_r.
      * clear IH. induction l as [|y l IH']; [done|]. exact IH'.
    + eapply safe_outcome_mono; [by apply IH|]. done.
Qed.

Lemma HasFatalFailure_safe r :
  safe_outcome (HasFatalFailure r) (fun b => b = existsb fatally_failed (test_part_results_ r)).
Proof.
  unfold HasFatalFailure. apply safe_outcome_bind. eapply safe_outcome_mono; [apply CountIf_safe|].
  intros n. done.
Qed.

Lemma Skipped_safe r : safe_outcome (Skipped r) (fun b => b = skipped_result r).
Proof.
  unfold Skipped, skipped_result. destruct (Failed r); [done|].
  apply safe_outcome_bind. eapply safe_outcome_mono; [apply CountIf_safe|]. intros n. done.
Qed.

(** ** Places in the unit test *)

Definition erase_test (t : TestInfo) : TestInfo := with_result t new_TestResult.
Definition erase_suite (s : TestSuite) : TestSuite :=
  with_times (with_tests s (map erase_test (test_info_list_ s)) (test_indices_ s)
                (suite_should_run_ s) new_TestResult) 0 0.
(** What does not change while tests run. *)
Definition static (u : UnitTest) : UnitTest :=
  with_unit_times (with_ad_hoc (set_suites u (map erase_suite (suites_of u))) new_TestResult) 0 0.

Definition parts_at (p : Place) (u : UnitTest) : option (list TestPartResult) :=
  test_part_results_ <$> result_at p u.

Lemma suites_update_suite si f u : suites_of (update_suite si f u) = alter f si (suites_of u).
Proof. done. Qed.

Lemma map_alter_id {A B} (g : A -> B) (f : A -> A) (i : nat) (l : list A) :
  (forall x, g (f x) = g x) -> map g (alter f i l) = map g l.
Proof.
  intros H. revert i; induction l as [|x l IH]; intros [|i]; cbn; try done; by rewrite ?H, ?IH.
Qed.

Lemma static_update_suite si f u :
  (forall s, erase_suite (f s) = erase_suite s) -> static (update_suite si f u) = static u.
Proof.
  intros H. unfold static. rewrite suites_update_suite, (map_alter_id erase_suite) by done. done.
Qed.

Lemma static_update_result p f u : static (update_result p f u) = static u.
Proof.
  destruct p as [si ti|si|]; cbn [update_result]; [| |done].
  - apply static_update_suite. intros s. unfold erase_suite, set_tests, with_times, with_tests.
    cbn. by rewrite (map_alter_id erase_test).
  - by apply static_update_suite.
Qed.

Lemma result_at_update_same p f u r :
  result_at p u = Some r -> result_at p (update_result p f u) = Some (f r).
Proof.
  destruct p as [si ti|si|]; cbn [result_at update_result]; [| |by intros [= <-]].
  - unfold update_test. rewrite suites_update_suite, list_lookup_alter_eq.
    destruct (suites_of u !! si) as [s|]; [|done].
    cbn [fmap option_fmap option_map mbind option_bind set_tests with_tests test_info_list_].
    rewrite list_lookup_alter_eq. destruct (test_info_list_ s !! ti) as [t|]; [|done]. by intros [= <-].
  - rewrite suites_update_suite, list_lookup_alter_eq.
    destruct (suites_of u !! si) as [s|]; [|done]. by intros [= <-].
Qed.

#[export] Instance Place_eq_dec : EqDecision Place.
Proof. solve_decision. Defined.

Lemma result_at_update_other p q f u :
  q <> p -> result_at q (update_result p f u) = result_at q u.
Proof.
  intros Hne. destruct p as [si ti|si|], q as [sj tj|sj|]; cbn [result_at update_result]; try done;
    unfold update_test; try rewrite suites_update_suite.
  - destruct (decide (sj = si)) as [->|]; [|by rewrite list_lookup_alter_ne by congruence].
    rewrite list_lookup_alter_eq. destruct (suites_of u !! si) as [s|]; [|done].
    cbn [fmap option_fmap option_map mbind option_bind set_tests with_tests test_info_list_].
    by rewrite list_lookup_alter_ne by congruence.
  - destruct (decide (sj = si)) as [->|]; [|by rewrite list_lookup_alter_ne by congruence].
    rewrite list_lookup_alter_eq. by destruct (suites_of u !! si).
  - destruct (decide (sj = si)) as [->|]; [|by rewrite list_lookup_alter_ne by congruence].
    rewrite list_lookup_alter_eq. by destruct (suites_of u !! si).
  - by rewrite list_lookup_alter_ne by congruence.
Qed.

(** ** What a listener sees of a run *)

Inductive Seen : Type := Code (c : UserCode) | Saw (e : Event).

Definition part_seen (p : TestPartResult) : Seen := Saw (OnTestPartResult p).
Definition parts_of (ss : list Seen) : list TestPartResult :=
  omap (fun s => match s with Saw (OnTestPartResult p) => Some p | _ => None end) ss.

Lemma parts_of_app s1 s2 : parts_of (s1 ++ s2) = parts_of s1 ++ parts_of s2.
Proof. apply omap_app. Qed.
Lemma parts_of_seen ps : parts_of (map part_seen ps) = ps.
Proof. induction ps as [|p ps IH]; [done|]. cbn. by f_equal. Qed.

(** Flags with which a failed assertion neither throws nor traps. *)
Definition quiet (fl : Flags) : Prop :=
  bools fl Flag.break_on_failure = false /\ bools fl Flag.throw_on_failure = false.

(** User code that leaves these flags alone and throws only exceptions in [E]. *)
Fixpoint tame {U} (E : exn -> Prop) (b : body U) : Prop :=
  match b with
  | Done | Return => True
  | Throw e => E e
  | SetFlags fl k => quiet fl /\ tame E k
  | SetUser _ k | Report _ _ _ _ k | Property _ _ k => tame E k
  | Scoped _ block k => tame E block /\ tame E k
  | AskFatalFailure k | AskSkipped k => forall b, tame E (k b)
  end.

Definition threw {A} (E : exn -> Prop) (r : res A) : Prop :=
  match r with Val _ => True | Exn e => E e end.

(** Exceptions of the user: the framework's own are not among them. *)
Definition user_exn (e : exn) : Prop := e <> GoogleTestFailureException.

(** Test parts that are appended to the result at a place. *)
Definition grown (p : Place) (ps : list TestPartResult) (u u' : UnitTest) : Prop :=
  static u' = static u /\ (forall q, q <> p -> result_at q u' = result_at q u) /\
  exists l, parts_at p u = Some l /\ parts_at p u' = Some (l ++ ps).

Lemma parts_grown_refl p u l : parts_at p u = Some l -> grown p [] u u.
Proof. intros H. split_and!; [done|done|]. exists l. by rewrite app_nil_r. Qed.

Lemma parts_grown_trans p ps qs u1 u2 u3 : grown p ps u1 u2 -> grown p qs u2 u3 -> grown p (ps ++ qs) u1 u3.
Proof.
  intros (Hs1 & Ho1 & l & Hl & Hl1) (Hs2 & Ho2 & l' & Hl' & Hl2). split_and!; [congruence| |].
  - intros q Hq. by rewrite Ho2, Ho1.
  - exists l. split; [done|]. rewrite Hl2, app_assoc. congruence.
Qed.

Lemma grown_update p f ps u r :
  result_at p u = Some r -> test_part_results_ (f r) = test_part_results_ r ++ ps ->
  grown p ps u (update_result p f u).
Proof.
  intros Hr Hf. split_and!; [apply static_update_result|intros q Hq; by apply result_at_update_other|].
  exists (test_part_results_ r). unfold parts_at. rewrite (result_at_update_same _ _ _ _ Hr), Hr.
  cbn. by rewrite Hf.
Qed.

Section seen.
Context {U : Type} (l : Listener).
Implicit Types w : World U.

Definition view (ss : list Step) : list Seen :=
  flat_map (fun s => match s with
                     | Called c => [Code c]
                     | Delivered l' e => if bool_decide (l' = l) then [Saw e] else []
                     end) ss.

Lemma view_app s1 s2 : view (s1 ++ s2) = view s1 ++ view s2.
Proof. apply flat_map_app. Qed.

Lemma view_delivered cs :
  view (map (fun c => Delivered (fst c) (snd c)) cs) = map Saw (seen_by l cs).
Proof.
  unfold view, seen_by. induction cs as [|[l' e] cs IH]; [done|]. cbn [map flat_map List.filter fst snd].
  rewrite IH. by case_bool_decide.
Qed.

Definition watched w : Prop :=
  let r := repeater_ (listeners w) in
  forwarding_enabled_ r = true /\ NoDup (listeners_ r) /\ l ∈ listeners_ r.

(** What user code and the framework leave as it is, and what they keep. *)
Record frame w w' : Prop := {
  frame_listeners : listeners w' = listeners w;
  frame_catch : catch_exceptions_ w' = catch_exceptions_ w;
  frame_trace : gtest_trace_stack w' = gtest_trace_stack w;
  frame_setup : setup w' = setup w;
  frame_quiet : quiet (flags_ w') }.

Lemma frame_refl w : quiet (flags_ w) -> frame w w.
Proof. by split. Qed.
Lemma frame_trans w1 w2 w3 : frame w1 w2 -> frame w2 w3 -> frame w1 w3.
Proof. intros [] []. split; congruence || done. Qed.

Definition cur w := (current_test_suite_ w, current_test_info_ w).

Definition did (p : Place) w w' (ss : list Seen) : Prop :=
  frame w w' /\ view (steps w') = view (steps w) ++ ss /\ grown p (parts_of ss) (unit_ w) (unit_ w').

Lemma did_trans p w1 w2 w3 s1 s2 : did p w1 w2 s1 -> did p w2 w3 s2 -> did p w1 w3 (s1 ++ s2).
Proof.
  intros (Hf1 & Hv1 & Hg1) (Hf2 & Hv2 & Hg2). split_and!.
  - by eapply frame_trans.
  - by rewrite Hv2, Hv1, app_assoc.
  - rewrite parts_of_app. by eapply parts_grown_trans.
Qed.

Lemma did_refl p w r : quiet (flags_ w) -> result_at p (unit_ w) = Some r -> did p w w [].
Proof.
  intros Hq Hr. split_and!; [by apply frame_refl|by rewrite app_nil_r|].
  apply (parts_grown_refl _ _ (test_part_results_ r)). unfold parts_at. by rewrite Hr.
Qed.

(** The result at the place is still there. *)
Lemma did_place p w w' ss : did p w w' ss -> exists r, result_at p (unit_ w') = Some r.
Proof.
  intros (_ & _ & _ & _ & k & _ & H). unfold parts_at in H.
  destruct (result_at p (unit_ w')) as [r|]; [eauto|done].
Qed.

Lemma did_parts p w w' ss ps :
  did p w w' ss -> parts_at p (unit_ w) = Some ps -> parts_at p (unit_ w') = Some (ps ++ parts_of ss).
Proof. intros (_ & _ & _ & _ & k & Hk & H) E. congruence. Qed.

Lemma did_watched p w w' ss : did p w w' ss -> watched w -> watched w'.
Proof. intros ([Hl _ _ _ _] & _) H. unfold watched. by rewrite Hl. Qed.

Lemma did_quiet p w w' ss : did p w w' ss -> quiet (flags_ w').
Proof. by intros ([] & _). Qed.

Lemma place_cur w w' : cur w' = cur w -> place w' = place w.
Proof. unfold cur, place. by intros [= -> ->]. Qed.

(** A state in which code can run. *)
Definition ready w : Prop :=
  watched w /\ quiet (flags_ w) /\ exists r, result_at (place w) (unit_ w) = Some r.

(** The steps [ss], with the current test and suite unchanged. *)
Definition went w w' (ss : list Seen) : Prop := did (place w) w w' ss /\ cur w' = cur w.

Lemma went_trans w1 w2 w3 s1 s2 : went w1 w2 s1 -> went w2 w3 s2 -> went w1 w3 (s1 ++ s2).
Proof.
  intros [H1 C1] [H2 C2]. split; [|congruence]. rewrite (place_cur _ _ C1) in H2. by eapply did_trans.
Qed.
Lemma went_ready w w' ss : went w w' ss -> ready w -> ready w'.
Proof.
  intros [H C] (Hw & _ & _). split; [by eapply did_watched|]. split; [by eapply did_quiet|].
  rewrite (place_cur _ _ C). by eapply did_place.
Qed.
Lemma went_refl w : ready w -> went w w [].
Proof. intros (_ & Hq & r & Hr). split; [by eapply did_refl|done]. Qed.

(** ** The primitives *)

Definition is_part (e : Event) : bool := match e with OnTestPartResult _ => true | _ => false end.

(** An event that is not about a test part. *)
Lemma broadcast_did p (e : World U -> Event) w r :
  watched w -> quiet (flags_ w) -> result_at p (unit_ w) = Some r -> is_part (e w) = false ->
  safe (broadcast e) w (fun w' v => v = Val tt /\ did p w w' [Saw (e w)] /\ cur w' = cur w /\
                                    unit_ w' = unit_ w).
Proof.
  intros (Hf & Hnd & Hl) Hq Hr He. apply safe_modify. split; [done|]. split; [|done]. split_and!.
  - by split.
  - cbn [steps add_steps]. by rewrite view_app, view_delivered, (forward_seen _ _ l).
  - replace (parts_of [Saw (e w)]) with ([] : list TestPartResult) by (by destruct (e w)).
    apply (parts_grown_refl _ _ (test_part_results_ r)). unfold parts_at. by rewrite Hr.
Qed.

Lemma ReportTestPartResult_safe w p :
  ready w -> safe (ReportTestPartResult p) w (fun w' v => v = Val tt /\ went w w' [part_seen p]).
Proof.
  intros (Hw & Hq & r & Hr). unfold ReportTestPartResult.
  apply safe_bind, safe_get. apply safe_bind, safe_get. rewrite Hr.
  apply safe_bind, safe_lift. cbn [or_fault safe_outcome]. apply safe_bind, safe_modify.
  set (u' := update_result _ _ _). apply safe_modify. split; [done|]. split; [|done]. split_and!.
  - by split.
  - cbn [steps add_steps with_unit listeners]. destruct Hw as (Hf & Hnd & Hl).
    by rewrite view_app, view_delivered, (forward_seen _ _ l).
  - change (grown (place w) [p] (unit_ w) u'). by apply (grown_update _ _ _ _ r).
Qed.

Lemma UnitTest_AddTestPartResult_safe w type file line msg stack :
  ready w -> safe (UnitTest_AddTestPartResult type file line msg stack) w
    (fun w' v => v = Val tt /\ exists p, type_ p = type /\ went w w' [part_seen p]).
Proof.
  intros Hw. unfold UnitTest_AddTestPartResult. apply safe_bind, safe_get.
  apply safe_bind. eapply safe_mono; [by apply ReportTestPartResult_safe|].
  intros w1 v [-> Hwent]. pose proof Hwent as [(_ & _ & _) _].
  assert (Hq : quiet (flags_ w1)) by (by eapply did_quiet, Hwent).
  assert (G : exists p, type_ p = type /\ went w w1 [part_seen p]) by (eexists; split; [|exact Hwent]; done).
  destruct type; try (apply safe_ret; by split).
  all: apply safe_bind, safe_get; rewrite (proj1 Hq), (proj2 Hq); apply safe_ret; by split.
Qed.

Lemma current_result_safe w Q :
  ready w -> (forall r, result_at (place w) (unit_ w) = Some r -> Q w (Val r)) ->
  safe current_result w Q.
Proof.
  intros (_ & _ & r & Hr) H. unfold current_result. apply safe_bind, safe_get.
  apply safe_lift. rewrite Hr. by apply H.
Qed.

Lemma UnitTest_RecordProperty_safe gtest_cc w key value :
  ready w -> safe (UnitTest_RecordProperty gtest_cc key value) w
    (fun w' v => v = Val tt /\ exists ps, went w w' (map part_seen ps)).
Proof.
  intros Hw. pose proof Hw as (Hwt & Hq & r & Hr). unfold UnitTest_RecordProperty.
  apply safe_bind, safe_get. apply safe_bind, safe_get. apply safe_bind, safe_lift. rewrite Hr.
  cbn [or_fault safe_outcome]. apply safe_bind, safe_lift.
  assert (Hrec : exists r' fs, RecordProperty r (element_of_place (place w)) (mkTestProperty key value) =
      Ok (r', fs) /\ test_part_results_ r' = test_part_results_ r).
  { unfold RecordProperty, ValidateTestProperty.
    assert (Hres : exists names, GetReservedAttributesForElement (element_of_place (place w)) = Ok names)
      by (destruct (place w); by eexists).
    destruct Hres as (names & ->). rewrite bind_ok.
    destruct (ValidateTestPropertyName _ _) as [[] fs]; rewrite bind_ok; do 2 eexists; by split. }
  destruct Hrec as (r' & fs & -> & Hparts). cbn [safe_outcome fst snd].
  apply safe_bind, safe_modify. set (f := fun x => with_properties x _).
  set (w1 := with_unit w _).
  assert (H1 : went w w1 []).
  { split; [|done]. split_and!; [by split|by rewrite app_nil_r|].
    apply (grown_update _ f _ _ r); [done|]. by rewrite app_nil_r. }
  assert (G : forall fs w2 ps0, went w w2 (map part_seen ps0) ->
    safe (for_each fs (fun failure => ADD_FAILURE gtest_cc 2409 failure)) w2
      (fun w' v => v = Val tt /\ exists ps, went w w' (map part_seen ps))).
  { clear -Hw. induction fs as [|m fs IH]; intros w2 ps0 H2; cbn [for_each].
    - apply safe_ret. split; [done|]. eauto.
    - apply safe_bind. eapply safe_mono.
      { apply UnitTest_AddTestPartResult_safe. by eapply went_ready. }
      intros w3 v (-> & p & _ & H3). apply (IH _ (ps0 ++ [p])). rewrite map_app.
      by eapply went_trans. }
  apply (G _ _ []). exact H1.
Qed.

(** ** User code *)

Definition went_parts w w' : Prop := exists ps, went w w' (map part_seen ps).

Lemma went_parts_trans w1 w2 w3 : went_parts w1 w2 -> went_parts w2 w3 -> went_parts w1 w3.
Proof.
  intros [ps H1] [qs H2]. exists (ps ++ qs). rewrite map_app. by eapply went_trans.
Qed.
Lemma went_parts_ready w w' : went_parts w w' -> ready w -> ready w'.
Proof. intros [ps H]. by eapply went_ready. Qed.
Lemma went_parts_refl w : ready w -> went_parts w w.
Proof. intros H. exists []. by apply went_refl. Qed.

(** A change of the user's state, of the flags or of the clock. *)
Lemma went_other w w' :
  ready w -> listeners w' = listeners w -> catch_exceptions_ w' = catch_exceptions_ w ->
  gtest_trace_stack w' = gtest_trace_stack w -> setup w' = setup w -> quiet (flags_ w') ->
  steps w' = steps w -> unit_ w' = unit_ w -> cur w' = cur w -> went w w' [].
Proof.
  intros (_ & _ & r & Hr) Hl Hc Ht Hs Hq Hst Hu Hcur. split; [|done]. split_and!.
  - by split.
  - by rewrite Hst, app_nil_r.
  - rewrite Hu. apply (parts_grown_refl _ _ (test_part_results_ r)). unfold parts_at. by rewrite Hr.
Qed.
Lemma went_nil_parts w w' : went w w' [] -> went_parts w w'.
Proof. by exists []. Qed.

Lemma removelast_app_one {A} (ts : list A) t : removelast (ts ++ [t]) = ts.
Proof. rewrite removelast_app by done. cbn. by rewrite app_nil_r. Qed.

(** What a [SCOPED_TRACE] pushes is popped at the end of its block. *)
Lemma went_parts_scope w t w2 :
  went_parts (with_trace_stack w (gtest_trace_stack w ++ [t])) w2 ->
  went_parts w (with_trace_stack w2 (removelast (gtest_trace_stack w2))).
Proof.
  intros (ps & ([Hl Hc Ht Hs Hq] & Hv & Hg) & Hcur). exists ps. split; [|exact Hcur].
  split_and!; [|exact Hv|exact Hg]. split; try done. cbn [with_trace_stack gtest_trace_stack].
  rewrite Ht. apply removelast_app_one.
Qed.

Lemma run_body_safe gtest_cc E (b : body U) w :
  ready w -> tame E b ->
  safe (run_body gtest_cc b) w (fun w' r => went_parts w w' /\ threw E r).
Proof.
  revert w. induction b as [| |e|u k IH|fl k IH|type file line msg k IH|key value k IH
    |trace block IHb k IH|k IH|k IH]; intros w Hw Ht; cbn [run_body tame] in *.
  - apply safe_ret. split; [by apply went_parts_refl|done].
  - apply safe_ret. split; [by apply went_parts_refl|done].
  - apply safe_throw. split; [by apply went_parts_refl|done].
  - apply safe_bind, safe_modify. assert (G : went_parts w (with_user w u))
      by (apply went_nil_parts, went_other; try done; apply Hw).
    eapply safe_mono; [apply IH; [by eapply went_parts_ready|done]|].
    intros w' r [H Hr]. split; [by eapply went_parts_trans|done].
  - destruct Ht as [Hq Ht]. apply safe_bind, safe_modify.
    assert (G : went_parts w (with_flags_ w fl)) by (by apply went_nil_parts, went_other).
    eapply safe_mono; [apply IH; [by eapply went_parts_ready|done]|].
    intros w' r [H Hr]. split; [by eapply went_parts_trans|done].
  - apply safe_bind. eapply safe_mono; [by apply UnitTest_AddTestPartResult_safe|].
    intros w1 v (-> & p & _ & H1). assert (G : went_parts w w1) by (by exists [p]).
    eapply safe_mono; [apply IH; [by eapply went_parts_ready|done]|].
    intros w' r [H Hr]. split; [by eapply went_parts_trans|done].
  - apply safe_bind. eapply safe_mono; [by apply UnitTest_RecordProperty_safe|].
    intros w1 v (-> & G). 
    eapply safe_mono; [apply IH; [by eapply went_parts_ready|done]|].
    intros w' r [H Hr]. split; [by eapply went_parts_trans|done].
  - destruct Ht as [Htb Ht]. apply safe_bind, safe_modify.
    apply safe_bind, safe_catch. eapply safe_mono; [apply IHb; [exact Hw|done]|].
    intros w2 [returned|e] [H2 Hr2]; pose proof (went_parts_scope _ _ _ H2) as H2'.
    + apply safe_bind, safe_modify. destruct returned; [apply safe_ret; by split|].
      eapply safe_mono; [apply IH; [by eapply went_parts_ready|done]|].
      intros w' r [H Hr]. split; [by eapply went_parts_trans|done].
    + apply safe_bind, safe_modify, safe_throw. split; [done|congruence].
  - apply safe_bind. unfold Test_HasFatalFailure. apply safe_bind, current_result_safe; [done|].
    intros r Hr. apply safe_lift. eapply safe_outcome_mono; [apply HasFatalFailure_safe|]. auto.
  - apply safe_bind. unfold Test_IsSkipped. apply safe_bind, current_result_safe; [done|].
    intros r Hr. apply safe_lift. eapply safe_outcome_mono; [apply Skipped_safe|]. auto.
Qed.

(** The steps of one piece of user code. *)
Definition piece (c : UserCode) (ss : list Seen) : Prop := exists ps, ss = Code c :: map part_seen ps.

Lemma call_safe program gtest_cc E c w :
  ready w -> tame E (program c (user w)) ->
  safe (call program gtest_cc c) w
    (fun w' r => (exists ss, piece c ss /\ went w w' ss) /\ threw E r).
Proof.
  intros Hw Ht. unfold call. apply safe_bind, safe_modify. apply safe_bind, safe_get.
  set (w1 := add_steps w _). assert (H1 : went w w1 [Code c]).
  { destruct Hw as (Hwt & Hq & r & Hr). split; [|done]. split_and!; [by split| |].
    - cbn [w1 steps add_steps]. by rewrite view_app.
    - apply (parts_grown_refl _ _ (test_part_results_ r)). unfold parts_at. by rewrite Hr. }
  apply safe_bind. eapply safe_mono; [eapply run_body_safe; [by eapply went_ready|exact Ht]|].
  intros w' r [[ps H] Hr]. assert (G : exists ss, piece c ss /\ went w w' ss).
  { exists (Code c :: map part_seen ps). split; [by exists ps|]. by apply (went_trans w w1 w' [Code c]). }
  destruct r as [b|e]; [|by split]. apply safe_ret. by split.
Qed.

(** ** Exceptions *)

(** The steps of a method whose exceptions are handled: a fatal failure is added
    for an exception other than an [AssertionException]. *)
Definition handled {A} (zero : A) (P : res A -> list Seen -> Prop) (a : A) (ss : list Seen) : Prop :=
  P (Val a) ss \/
  a = zero /\ (P (Exn AssertionException) ss \/
               exists e ss0 p, P (Exn e) ss0 /\ e <> AssertionException /\
                 fatally_failed p = true /\ ss = ss0 ++ [part_seen p]).

Lemma Handle_safe {A} (zero : A) (m : M A) location w (P : res A -> list Seen -> Prop) :
  ready w -> catch_exceptions_ w = true ->
  safe m w (fun w' r => (exists ss, P r ss /\ went w w' ss) /\ threw user_exn r) ->
  safe (HandleExceptionsInMethodIfSupported zero m location) w
    (fun w' r => exists a, r = Val a /\ exists ss, handled zero P a ss /\ went w w' ss).
Proof.
  intros Hw Hc Hm. unfold HandleExceptionsInMethodIfSupported. apply safe_bind, safe_get.
  rewrite Hc. apply safe_catch. eapply safe_mono; [exact Hm|].
  intros w1 [a|e] [(ss & HP & H) Hne].
  { exists a. split; [done|]. exists ss. split; [by left|done]. }
  assert (G : forall msg, e <> AssertionException ->
    safe (bind (ReportFailureInUnknownLocation kFatalFailure msg) (fun _ => ret zero)) w1
      (fun w' r => exists a, r = Val a /\ exists ss, handled zero P a ss /\ went w w' ss)).
  { intros msg He. apply safe_bind. eapply safe_mono.
    { apply UnitTest_AddTestPartResult_safe. by eapply went_ready. }
    intros w2 v (-> & p & Hp & H2). apply safe_ret. exists zero. split; [done|].
    exists (ss ++ [part_seen p]). split; [|by eapply went_trans].
    right. split; [done|]. right. exists e, ss, p. split_and!; try done.
    unfold fatally_failed. by rewrite bool_decide_true. }
  destruct e; [|done|by apply G|by apply G].
  apply safe_ret. exists zero. split; [done|]. exists ss. split; [|done]. right. split; [done|]. by left.
Qed.

(** A handled piece is a piece. *)
Lemma handled_piece c (a : unit) ss :
  handled tt (fun _ ss => piece c ss) a ss -> piece c ss.
Proof.
  intros [H|(_ & [H|(e & ss0 & p & (ps & ->) & _ & _ & ->)])]; [done|done|].
  exists (ps ++ [p]). by rewrite map_app.
Qed.

Lemma handled_call_safe program gtest_cc c location w :
  ready w -> catch_exceptions_ w = true -> tame user_exn (program c (user w)) ->
  safe (HandleExceptionsInMethodIfSupported tt (call program gtest_cc c) location) w
    (fun w' r => r = Val tt /\ exists ss, piece c ss /\ went w w' ss).
Proof.
  intros Hw Hc Ht. eapply safe_mono.
  { apply (Handle_safe _ _ _ _ (fun _ ss => piece c ss)); [done|done|]. by apply call_safe. }
  intros w' r ([] & -> & ss & H & Hwent). split; [done|]. exists ss. split; [|done].
  by eapply handled_piece.
Qed.

Lemma went_catch w w' ss : went w w' ss -> catch_exceptions_ w' = catch_exceptions_ w.
Proof. by intros [([] & _) _]. Qed.

(** [may_go_on] looks at the parts of the current result. *)
Definition blocked (ps : list TestPartResult) : bool :=
  existsb fatally_failed ps || (negb (existsb failed ps) && existsb skipped ps).

Lemma may_go_on_safe w ps Q :
  ready w -> parts_at (place w) (unit_ w) = Some ps -> Q w (Val (negb (blocked ps))) ->
  safe may_go_on w Q.
Proof.
  intros Hw Hps HQ. unfold parts_at in Hps.
  destruct (result_at (place w) (unit_ w)) as [r|] eqn:Hr; [|done]. injection Hps as <-.
  unfold may_go_on, Test_HasFatalFailure, Test_IsSkipped, blocked in *.
  apply safe_bind, safe_bind, current_result_safe; [done|].
  intros r' Hr'. assert (r' = r) as -> by congruence.
  apply safe_lift. eapply safe_outcome_mono; [apply HasFatalFailure_safe|]. intros b ->.
  destruct (existsb fatally_failed (test_part_results_ r)); [by apply safe_ret|].
  apply safe_bind, safe_bind, current_result_safe; [done|].
  intros r' Hr''. assert (r' = r) as -> by congruence.
  apply safe_lift. eapply safe_outcome_mono; [apply Skipped_safe|]. intros b ->.
  by apply safe_ret.
Qed.

End seen.

(** ** Tests and suites by position *)

Definition tested (u : UnitTest) (si ti : nat) : option TestInfo :=
  s ← suites_of u !! si; test_info_list_ s !! ti.

Lemma result_at_tested u si ti : result_at (InTest si ti) u = result_ <$> tested u si ti.
Proof. unfold tested. cbn. destruct (suites_of u !! si) as [s|]; [|done]. cbn. by destruct (_ !! ti). Qed.

Lemma static_suites u u' : static u' = static u -> map erase_suite (suites_of u') = map erase_suite (suites_of u).
Proof. intros H. by apply (f_equal suites_of) in H. Qed.

Lemma static_suite u u' si s :
  static u' = static u -> suites_of u !! si = Some s ->
  exists s', suites_of u' !! si = Some s' /\ erase_suite s' = erase_suite s.
Proof.
  intros H%static_suites Hs. apply (f_equal (fun l => l !! si)) in H.
  change (map erase_suite) with (fmap erase_suite (M := list)) in H.
  rewrite !list_lookup_fmap, Hs in H. destruct (suites_of u' !! si) as [s'|]; [|done].
  exists s'. split; [done|]. cbn in H. congruence.
Qed.

Lemma erase_suite_test s s' ti t :
  erase_suite s' = erase_suite s -> test_info_list_ s !! ti = Some t ->
  exists t', test_info_list_ s' !! ti = Some t' /\ erase_test t' = erase_test t.
Proof.
  intros H Ht. apply (f_equal (fun s => test_info_list_ s !! ti)) in H. cbn in H.
  change (map erase_test) with (fmap erase_test (M := list)) in H.
  rewrite !list_lookup_fmap, Ht in H. destruct (test_info_list_ s' !! ti) as [t'|]; [|done].
  exists t'. split; [done|]. cbn in H. congruence.
Qed.

Lemma static_tested u u' si ti t :
  static u' = static u -> tested u si ti = Some t ->
  exists t', tested u' si ti = Some t' /\ erase_test t' = erase_test t.
Proof.
  unfold tested. intros H Ht. destruct (suites_of u !! si) as [s|] eqn:Hs; [|done].
  destruct (static_suite _ _ _ _ H Hs) as (s' & -> & Es). by eapply erase_suite_test.
Qed.

Lemma suite_at_safe {U} (w : World U) si s Q :
  suites_of (unit_ w) !! si = Some s -> Q w (Val s) -> safe (suite_at si) w Q.
Proof. intros Hs H. unfold suite_at. apply safe_bind, safe_get, safe_lift. by rewrite Hs. Qed.

Lemma test_at_safe {U} (w : World U) si ti t Q :
  tested (unit_ w) si ti = Some t -> Q w (Val t) -> safe (test_at si ti) w Q.
Proof.
  unfold tested. intros Ht H. destruct (suites_of (unit_ w) !! si) as [s|] eqn:Hs; [|done].
  unfold test_at. apply safe_bind. eapply suite_at_safe; [exact Hs|]. apply safe_lift.
  cbn in Ht. by rewrite Ht.
Qed.
