(* ===== verification/RunnerTest.v ===== *)
(** * One test: what [TestInfo::Run] and [TestInfo::Skip] do *)

From S2P Require Import Prelude Outcome Common CStr FilePath TestFilter TestResult TestSelect UnitTest ReportFormat CommandLine XmlReport JsonReport Listeners Runner RunnerSteps.

(** What each piece of user code may throw: a constructor no [AssertionException],
    a destructor and an environment nothing. *)
Definition may_throw (c : UserCode) : exn -> Prop :=
  match c with
  | CreateTest _ => fun e => user_exn e /\ e <> AssertionException
  | DeleteSelf _ | EnvSetUp _ | EnvTearDown _ => fun _ => False
  | _ => user_exn
  end.
Definition civil {U} (program : UserCode -> U -> body U) : Prop :=
  forall c u, tame (may_throw c) (program c u).

(** ** What a test does *)

(** What constructors do: [constructs f ss r], the constructor of the fixture [f]
    can take the steps [ss] and end with [r], with an object or by a throw. *)
Class Constructors := constructs : Z -> list Seen -> res unit -> Prop.

Section steps.
Context {constructors : Constructors}.

(** The constructor has ended, so that there is an object; or it has thrown, so
    that there is none, and what it threw was reported as a fatal failure. *)
Definition object_made (f : Z) (ss : list Seen) : Prop :=
  piece (CreateTest f) ss /\ constructs f ss (Val tt).
Definition constructor_threw (f : Z) (ss : list Seen) : Prop :=
  exists e s0 p, piece (CreateTest f) s0 /\ constructs f s0 (Exn e) /\
    fatally_failed p = true /\ ss = s0 ++ [part_seen p].

(** The steps between the start and the end of a test of the fixture [f]; [before]
    are the parts that its result has, [same] whether its suite has this fixture
    class.  The test body runs exactly if neither the constructor nor [SetUp] has
    failed fatally or skipped; [TearDown] follows every [SetUp], the destructor
    every constructor that has made an object, and no other. *)
Inductive test_run (f : Z) (same : bool) (before : list TestPartResult) : list Seen -> Prop :=
  | run_no_object s0 : constructor_threw f s0 -> test_run f same before s0
  | run_blocked s0 s4 :
      object_made f s0 -> blocked (before ++ parts_of s0) = true ->
      piece (DeleteSelf f) s4 -> test_run f same before (s0 ++ s4)
  | run_other_fixture s0 p s4 :
      object_made f s0 -> blocked (before ++ parts_of s0) = false -> same = false ->
      nonfatally_failed p = true -> piece (DeleteSelf f) s4 ->
      test_run f same before (s0 ++ [part_seen p] ++ s4)
  | run_set_up_only s0 s1 s3 s4 :
      object_made f s0 -> blocked (before ++ parts_of s0) = false -> same = true ->
      piece (SetUp f) s1 -> blocked (before ++ parts_of (s0 ++ s1)) = true ->
      piece (TearDown f) s3 -> piece (DeleteSelf f) s4 ->
      test_run f same before (s0 ++ s1 ++ s3 ++ s4)
  | run_whole s0 s1 s2 s3 s4 :
      object_made f s0 -> blocked (before ++ parts_of s0) = false -> same = true ->
      piece (SetUp f) s1 -> blocked (before ++ parts_of (s0 ++ s1)) = false ->
      piece (TestBody f) s2 -> piece (TearDown f) s3 -> piece (DeleteSelf f) s4 ->
      test_run f same before (s0 ++ s1 ++ s2 ++ s3 ++ s4).

(** The test at the end: the same test, with the parts that were seen. *)
Definition ended (t t' : TestInfo) (ss : list Seen) : Prop :=
  erase_test t' = erase_test t /\
  test_part_results_ (result_ t') = test_part_results_ (result_ t) ++ parts_of ss.

Inductive test_trace (first_fixture : Z) (t : TestInfo) : list Seen -> Prop :=
  | trace_not_run : should_run_ t = false -> is_disabled_ t && matches_filter_ t = false ->
      test_trace first_fixture t []
  | trace_disabled : should_run_ t = false -> is_disabled_ t && matches_filter_ t = true ->
      test_trace first_fixture t [Saw (OnTestDisabled t)]
  | trace_run mid t' : should_run_ t = true ->
      test_run (factory_ t) (fixture_class_id_ t =? first_fixture)
        (test_part_results_ (result_ t)) mid ->
      ended t t' mid ->
      test_trace first_fixture t ([Saw (OnTestStart t)] ++ mid ++ [Saw (OnTestEnd t')]).

End steps.

Inductive skip_trace (t : TestInfo) : list Seen -> Prop :=
  | skip_not_run : should_run_ t = false -> skip_trace t []
  | skip_run p t' : should_run_ t = true -> skipped p = true -> ended t t' [part_seen p] ->
      skip_trace t [Saw (OnTestStart t); part_seen p; Saw (OnTestEnd t')].

Section test.
Context {U : Type} (program : UserCode -> U -> body U) (system_clock steady_clock : nat -> Z)
  (gtest_cc : text) (GetTestTypeId : Z) (l : Listener).
Hypothesis Hcivil : civil program.
Implicit Types w : World U.

(** The constructors of this program: from some state their code takes these steps
    and ends so. *)
Definition constructors_of : Constructors := fun f ss r =>
  exists w w', ready l w /\ call program gtest_cc (CreateTest f) w = Ok (w', r) /\
    view l (steps w') = view l (steps w) ++ ss.
#[local] Instance own_constructors : Constructors := constructors_of.

Lemma civil_tame c u : (forall e, may_throw c e -> user_exn e) -> tame user_exn (program c u).
Proof.
  intros H. pose proof (Hcivil c u) as Ht. induction (program c u); cbn in *; naive_solver.
Qed.

Lemma restore_quiet saved now : quiet saved -> quiet (restore saved now).
Proof. intros [Hb Ht]. split; [exact Hb|exact Ht]. Qed.

(** The restored flags. *)
Lemma restore_went w saved :
  ready l w -> quiet saved -> went l w (with_flags_ w (restore saved (flags_ w))) [].
Proof. intros Hw Hq. by apply went_other. Qed.

Definition created (f : Z) (r : res (option TestObject)) (ss : list Seen) : Prop :=
  piece (CreateTest f) ss /\
  match r with
  | Val None => False
  | Val (Some o) => constructs f ss (Val tt) /\ object_factory o = f /\ quiet (gtest_flag_saver_ o)
  | Exn e => constructs f ss (Exn e) /\ e <> AssertionException
  end.

Lemma CreateTest_safe f w :
  ready l w ->
  safe (CreateTest_ program gtest_cc f) w
    (fun w' r => (exists ss, created f r ss /\ went l w w' ss) /\ threw user_exn r).
Proof.
  intros Hw. assert (Hq : quiet (flags_ w)) by apply Hw.
  unfold CreateTest_. apply safe_bind, safe_get. apply safe_bind, safe_catch.
  eapply safe_mono; [apply safe_result; eapply (call_safe l); [exact Hw|apply Hcivil]|].
  intros w1 [[]|e] [[(ss & Hp & H1) He] Hcall].
  - assert (Hc : constructs f ss (Val tt)) by (exists w, w1; split_and!; [done|done|apply H1]).
    apply safe_ret. split; [|done]. exists ss. split; [|done]. by split.
  - assert (Hc : constructs f ss (Exn e)) by (exists w, w1; split_and!; [done|done|apply H1]).
    apply safe_bind, safe_modify, safe_throw. destruct He as [He Hea]. split; [|done].
    exists ss. split; [by split|]. rewrite <- (app_nil_r ss). eapply went_trans; [exact H1|].
    apply restore_went; [by eapply went_ready|done].
Qed.

Lemma DeleteSelf_safe o w :
  ready l w -> catch_exceptions_ w = true -> quiet (gtest_flag_saver_ o) ->
  safe (HandleExceptionsInMethodIfSupported tt (DeleteSelf_ program gtest_cc o)
          "the test fixture's destructor") w
    (fun w' r => r = Val tt /\ exists ss, piece (DeleteSelf (object_factory o)) ss /\ went l w w' ss).
Proof.
  intros Hw Hc Hq. eapply safe_mono.
  { apply (Handle_safe l _ _ _ _ (fun _ ss => piece (DeleteSelf (object_factory o)) ss)); [done|done|].
    unfold DeleteSelf_. apply safe_bind, safe_catch.
    eapply safe_mono; [eapply (call_safe l); [exact Hw|apply Hcivil]|].
    intros w1 [[]|e] [(ss & Hp & H1) He]; [|done].
    apply safe_modify. split; [|done]. exists ss. split; [done|]. rewrite <- (app_nil_r ss).
    eapply went_trans; [exact H1|]. apply restore_went; [by eapply went_ready|done]. }
  intros w' r ([] & -> & ss & H & H1). split; [done|]. exists ss. split; [|done]. by eapply handled_piece.
Qed.


(** [w] runs the test [ti] of the suite [si], whose first test is [t0]. *)
Definition in_test w (si ti : nat) (t0 t : TestInfo) : Prop :=
  ready l w /\ catch_exceptions_ w = true /\ cur w = (Some si, Some (si, ti)) /\
  (exists t0', tested (unit_ w) si 0 = Some t0' /\ erase_test t0' = erase_test t0) /\
  (exists t', tested (unit_ w) si ti = Some t' /\ erase_test t' = erase_test t).

Lemma in_test_went w w' ss si ti t0 t : in_test w si ti t0 t -> went l w w' ss -> in_test w' si ti t0 t.
Proof.
  intros (Hw & Hc & Hcur & (t0' & H0 & E0) & (t' & Ht & Et)) H. pose proof H as [(_ & _ & Hs & _) Hcur'].
  split; [by eapply went_ready|]. split; [by rewrite (went_catch l _ _ _ H)|]. split; [congruence|]. split.
  - destruct (static_tested _ _ _ _ _ Hs H0) as (t2 & H2 & E2). exists t2. split; [done|congruence].
  - destruct (static_tested _ _ _ _ _ Hs Ht) as (t2 & H2 & E2). exists t2. split; [done|congruence].
Qed.

Lemma in_test_place w si ti t0 t : in_test w si ti t0 t -> place w = InTest si ti.
Proof. intros (_ & _ & Hcur & _). unfold place. by injection Hcur as _ ->. Qed.

Lemma erase_fixture t t' : erase_test t' = erase_test t ->
  fixture_class_id_ t' = fixture_class_id_ t /\ factory_ t' = factory_ t /\
  should_run_ t' = should_run_ t /\ is_disabled_ t' = is_disabled_ t /\
  matches_filter_ t' = matches_filter_ t.
Proof. intros H. by injection H as _ _ _ _ _ -> -> -> -> _ ->. Qed.

Lemma HasSameFixtureClass_safe w si ti t0 t :
  in_test w si ti t0 t ->
  safe (HasSameFixtureClass gtest_cc GetTestTypeId) w (fun w' r =>
    if fixture_class_id_ t =? fixture_class_id_ t0 then r = Val true /\ went l w w' []
    else r = Val false /\ exists p, nonfatally_failed p = true /\ went l w w' [part_seen p]).
Proof.
  intros Hin. pose proof Hin as (Hw & _ & Hcur & (t0' & H0 & E0) & (t' & Ht & Et)).
  injection Hcur as Hsi Hti. unfold HasSameFixtureClass.
  apply safe_bind, safe_get. apply safe_bind, safe_lift. rewrite Hsi. cbn [or_fault safe_outcome].
  apply safe_bind. eapply test_at_safe; [exact H0|].
  apply safe_bind, safe_get. apply safe_bind, safe_lift. rewrite Hti. cbn [or_fault safe_outcome fst snd].
  apply safe_bind. eapply test_at_safe; [exact Ht|]. cbv zeta.
  destruct (erase_fixture _ _ E0) as [-> _], (erase_fixture _ _ Et) as [-> _].
  destruct (fixture_class_id_ t =? fixture_class_id_ t0).
  - apply safe_ret. split; [done|]. by apply went_refl.
  - apply safe_bind.
    assert (G : forall line msg, safe (ADD_FAILURE gtest_cc line msg) w (fun w' r =>
      match r with Val a => safe (ret false) w' (fun w' r => r = Val false /\
         exists p, nonfatally_failed p = true /\ went l w w' [part_seen p]) | Exn e => False end)).
    { intros line msg. eapply safe_mono; [by apply (UnitTest_AddTestPartResult_safe l)|].
      intros w1 r (-> & p & Hp & H1). apply safe_ret. split; [done|]. exists p. split; [|done].
      unfold nonfatally_failed. by rewrite bool_decide_true. }
    destruct (_ || _); (eapply safe_mono; [apply G|]; intros w1 [] H; [exact H|done]).
Qed.

(** [Test::Run] after a constructor that has not blocked the test. *)
Lemma Test_Run_safe w si ti t0 t before o s0 :
  in_test w si ti t0 t -> parts_at (InTest si ti) (unit_ w) = Some (before ++ parts_of s0) ->
  object_made (factory_ t) s0 -> blocked (before ++ parts_of s0) = false ->
  object_factory o = factory_ t ->
  safe (Test_Run program gtest_cc GetTestTypeId o) w (fun w' r => r = Val tt /\
    exists ss, went l w w' ss /\ forall s4, piece (DeleteSelf (factory_ t)) s4 ->
      test_run (factory_ t) (fixture_class_id_ t =? fixture_class_id_ t0) before (s0 ++ ss ++ s4)).
Proof.
  intros Hin Hps Hp0 Hb0 Ho. unfold Test_Run. rewrite Ho. apply safe_bind.
  eapply safe_mono; [by eapply HasSameFixtureClass_safe|]. intros w1 r Hfix.
  destruct (fixture_class_id_ t =? fixture_class_id_ t0) eqn:Efix.
  2: { destruct Hfix as (-> & p & Hp & H1). apply safe_ret. split; [done|]. exists [part_seen p].
       split; [done|]. intros s4 H4. by apply run_other_fixture. }
  destruct Hfix as [-> H1]. pose proof (in_test_went _ _ _ _ _ _ _ Hin H1) as Hin1.
  assert (Hhandled : forall c loc w, in_test w si ti t0 t -> (forall e, may_throw c e -> user_exn e) ->
    safe (HandleExceptionsInMethodIfSupported tt (call program gtest_cc c) loc) w
      (fun w' r => exists a, r = Val a /\ exists ss, piece c ss /\ went l w w' ss)).
  { intros c loc v Hv Hc. eapply safe_mono.
    { apply (handled_call_safe l); [apply Hv|apply Hv|by apply civil_tame]. }
    intros w' r [-> H]. by exists tt. }
  eapply safe_val; [apply Hhandled; [exact Hin1|done]|].
  intros w2 [] (s1 & Hs1 & H2). pose proof (in_test_went _ _ _ _ _ _ _ Hin1 H2) as Hin2.
  pose proof (went_trans l _ _ _ _ _ H1 H2) as H02. cbn [app] in H02.
  assert (Hps2 : parts_at (place w2) (unit_ w2) = Some (before ++ parts_of (s0 ++ s1))).
  { rewrite (in_test_place _ _ _ _ _ Hin2), parts_of_app, app_assoc.
    destruct H02 as [H02 _]. rewrite (in_test_place _ _ _ _ _ Hin) in H02. by eapply did_parts. }
  apply safe_bind. eapply may_go_on_safe; [apply Hin2|exact Hps2|]. cbn beta iota.
  destruct (blocked (before ++ parts_of (s0 ++ s1))) eqn:Hb1; cbn [negb when].
  - apply safe_bind, safe_ret. eapply safe_mono; [apply Hhandled; [exact Hin2|done]|].
    intros w3 r ([] & -> & s3 & Hs3 & H3). split; [done|]. exists (s1 ++ s3).
    split; [by eapply went_trans|]. intros s4 H4. rewrite <- app_assoc. by apply run_set_up_only.
  - eapply safe_val; [apply Hhandled; [exact Hin2|done]|].
    intros w3 [] (s2 & Hs2 & H3). pose proof (in_test_went _ _ _ _ _ _ _ Hin2 H3) as Hin3.
    eapply safe_mono; [apply Hhandled; [exact Hin3|done]|].
    intros w4 r ([] & -> & s3 & Hs3 & H4). split; [done|]. exists (s1 ++ s2 ++ s3).
    split; [eapply went_trans; [exact H02|]; by eapply went_trans|].
    intros s4 Hs4. rewrite <- !app_assoc. by apply run_whole.
Qed.


(** ** The framework's own steps inside of a test *)

Lemma test_event_safe w (e : TestInfo -> Event) si ti t :
  ready l w -> tested (unit_ w) si ti = Some t -> is_part (e t) = false ->
  safe (test_event e si ti) w (fun w' r => r = Val tt /\ went l w w' [Saw (e t)] /\ unit_ w' = unit_ w).
Proof.
  intros (Hw & Hq & r & Hr) Ht He. unfold test_event. apply safe_bind.
  eapply test_at_safe; [exact Ht|]. eapply safe_mono; [by eapply (broadcast_did l (place w))|].
  intros w' v (-> & H & Hc & Hu). by split.
Qed.

Lemma clock_safe {A} w (f : World U -> A) :
  ready l w -> safe (bind (get f) (fun t => bind (modify tick) (fun _ => ret t))) w
    (fun w' r => exists t, r = Val t /\ went l w w' [] /\ unit_ w' = unit_ w).
Proof.
  intros Hw. apply safe_bind, safe_get, safe_bind, safe_modify, safe_ret. eexists. split; [done|].
  split; [|done]. apply went_other; try done. apply Hw.
Qed.

(** Times of the current result. *)
Lemma set_time_safe w f si ti t0 t :
  in_test w si ti t0 t -> (forall r, test_part_results_ (f r) = test_part_results_ r) ->
  safe (modify_unit (update_result (InTest si ti) f)) w (fun w' r => r = Val tt /\ went l w w' []).
Proof.
  intros Hin Hf. pose proof Hin as ((_ & Hq & r & Hr) & _). apply safe_modify. split; [done|].
  split; [|done]. split_and!; [by split|by rewrite app_nil_r|].
  rewrite (in_test_place _ _ _ _ _ Hin) in *. apply (grown_update _ f _ _ r); [done|].
  by rewrite Hf, app_nil_r.
Qed.

Lemma in_test_start w si ti t0' t0 t :
  watched l w -> quiet (flags_ w) -> catch_exceptions_ w = true ->
  current_test_suite_ w = Some si ->
  tested (unit_ w) si 0 = Some t0' -> erase_test t0' = erase_test t0 ->
  tested (unit_ w) si ti = Some t ->
  in_test (with_current w (Some si) (Some (si, ti))) si ti t0 t.
Proof.
  intros Hw Hq Hc Hs H0 E0 Ht. split; [|by eauto 10]. split; [exact Hw|]. split; [exact Hq|].
  cbn [place current_test_info_ with_current unit_]. rewrite result_at_tested, Ht. by eexists.
Qed.

(** Steps between the start and the end of a test, seen from outside. *)
Lemma did_around p w v w' a b ss :
  did l p (with_current w a b) v ss -> with_current v (current_test_suite_ w) (current_test_info_ w) = w' ->
  did l p w w' ss /\ cur w' = cur w.
Proof. intros ([H1 H2 H3 H4 H5] & Hv & Hg) <-. split; [|done]. split_and!; [by split|done|done]. Qed.

(** What the constructor leaves to the rest of the test: an object, or a fatal
    failure after a throw. *)
Definition made_or_threw (f : Z) (before : list TestPartResult) (s0 : list Seen) (obj : option TestObject)
    : Prop :=
  match obj with
  | Some o => object_made f s0 /\ object_factory o = f /\ quiet (gtest_flag_saver_ o)
  | None => constructor_threw f s0 /\ blocked (before ++ parts_of s0) = true
  end.

Lemma handled_created f before s0 obj :
  handled None (created f) obj s0 -> made_or_threw f before s0 obj.
Proof.
  intros [[Hp Ho]|(-> & [[_ [_ Ho]]|(e & s1 & p & [Hp [Hthrew He]] & _ & Hfatal & ->)])].
  - destruct obj as [o|]; [|done]. by destruct Ho as (? & ? & ?).
  - done.
  - split; [by exists e, s1, p|]. unfold blocked.
    rewrite parts_of_app, !existsb_app. cbn. by rewrite Hfatal, !orb_true_r.
Qed.

(** The test and the destructor, after the constructor. *)
Lemma object_safe w si ti t0 t before s0 obj :
  in_test w si ti t0 t -> parts_at (InTest si ti) (unit_ w) = Some (before ++ parts_of s0) ->
  made_or_threw (factory_ t) before s0 obj ->
  safe (bind (when (negb (blocked (before ++ parts_of s0)))
          (bind (lift (or_fault InvalidDeref obj))
             (fun object => Test_Run program gtest_cc GetTestTypeId object)))
        (fun _ => match obj with
                  | None => ret tt
                  | Some object => HandleExceptionsInMethodIfSupported tt (DeleteSelf_ program gtest_cc object)
                                     "the test fixture's destructor"
                  end)) w
    (fun w' r => r = Val tt /\ exists ss, went l w w' ss /\
       test_run (factory_ t) (fixture_class_id_ t =? fixture_class_id_ t0) before (s0 ++ ss)).
Proof.
  intros Hin Hps Hobj. destruct (blocked (before ++ parts_of s0)) eqn:Hb; cbn [negb when].
  - apply safe_bind, safe_ret. destruct obj as [o|].
    + destruct Hobj as (Hmade & Ho & Hqo).
      eapply safe_mono; [apply DeleteSelf_safe; [apply Hin|apply Hin|done]|].
      intros w' r (-> & s4 & H4 & H). split; [done|]. exists s4. split; [done|].
      rewrite Ho in H4. by apply run_blocked.
    + apply safe_ret. split; [done|]. exists []. split; [apply went_refl, Hin|].
      rewrite app_nil_r. apply run_no_object, Hobj.
  - destruct obj as [o|]; [|destruct Hobj as [_ Hb']; congruence]. destruct Hobj as (Hmade & Ho & Hqo).
    apply safe_bind, safe_bind, safe_lift. cbn [or_fault safe_outcome].
    eapply safe_mono; [by eapply Test_Run_safe|].
    intros w1 r (-> & ss & H1 & Hrun). pose proof (in_test_went _ _ _ _ _ _ _ Hin H1) as Hin1.
    eapply safe_mono; [apply DeleteSelf_safe; [apply Hin1|apply Hin1|done]|].
    intros w' r (-> & s4 & H4 & H). split; [done|]. exists (ss ++ s4).
    split; [by eapply went_trans|]. rewrite Ho in H4. by apply Hrun.
Qed.

Lemma TestInfo_Run_safe w si ti t0' t0 t :
  watched l w -> quiet (flags_ w) -> catch_exceptions_ w = true -> cur w = (Some si, None) ->
  tested (unit_ w) si 0 = Some t0' -> erase_test t0' = erase_test t0 ->
  tested (unit_ w) si ti = Some t ->
  safe (TestInfo_Run program system_clock steady_clock gtest_cc GetTestTypeId si ti) w
    (fun w' r => r = Val tt /\ cur w' = cur w /\
       exists ss, did l (InTest si ti) w w' ss /\ test_trace (fixture_class_id_ t0) t ss).
Proof.
  intros Hw Hq Hc Hcur H0 E0 Ht. injection Hcur as Hsi Hti.
  assert (Hr : result_at (InTest si ti) (unit_ w) = Some (result_ t)) by (by rewrite result_at_tested, Ht).
  unfold TestInfo_Run. apply safe_bind. eapply test_at_safe; [exact Ht|].
  destruct (should_run_ t) eqn:Erun; cbn [negb].
  2: { destruct (is_disabled_ t && matches_filter_ t) eqn:Ed; cbn [when].
       - unfold test_event. apply safe_bind. eapply test_at_safe; [exact Ht|].
         eapply safe_mono; [by eapply (broadcast_did l (InTest si ti))|].
         intros w' r (-> & H & Hc' & _). split_and!; [done|done|]. eexists. split; [exact H|].
         by apply trace_disabled.
       - apply safe_ret. split_and!; [done|done|]. exists []. split; [by eapply did_refl|].
         by apply trace_not_run. }
  pose proof (in_test_start w si ti t0' t0 t Hw Hq Hc Hsi H0 E0 Ht) as Hin.
  apply safe_bind, safe_modify. rewrite Hsi. set (w1 := with_current w _ _) in *.
  eapply safe_unit; [eapply test_event_safe; [apply Hin|exact Ht|done]|].
  intros w2 (H2 & Hu2). pose proof (in_test_went _ _ _ _ _ _ _ Hin H2) as Hin2.
  eapply safe_val; [apply clock_safe, Hin2|].
  intros w3 now (H3 & _). pose proof (in_test_went _ _ _ _ _ _ _ Hin2 H3) as Hin3.
  eapply safe_unit; [by eapply (set_time_safe _ (set_start now))|].
  intros w4 H4. pose proof (in_test_went _ _ _ _ _ _ _ Hin3 H4) as Hin4.
  eapply safe_val; [apply clock_safe, Hin4|].
  intros w5 timer (H5 & _). pose proof (in_test_went _ _ _ _ _ _ _ Hin4 H5) as Hin5.
  pose proof (went_trans l _ _ _ _ _ (went_trans l _ _ _ _ _ (went_trans l _ _ _ _ _ H2 H3) H4) H5) as H15.
  cbn [app] in H15. clear H2 H3 H4 H5 Hu2 Hin2 Hin3 Hin4.
  (* the constructor *)
  eapply safe_val; [apply (Handle_safe l _ _ _ _ (created (factory_ t)));
    [apply Hin5|apply Hin5|apply CreateTest_safe, Hin5]|].
  intros w6 obj (s0 & Hobj & H6). pose proof (in_test_went _ _ _ _ _ _ _ Hin5 H6) as Hin6.
  pose proof (went_trans l _ _ _ _ _ H15 H6) as H16. cbn [app] in H16.
  set (before := test_part_results_ (result_ t)).
  assert (Hps : parts_at (InTest si ti) (unit_ w6) = Some (before ++ parts_of s0)).
  { destruct H16 as [H16 _]. rewrite (in_test_place _ _ _ _ _ Hin) in H16.
    apply (did_parts l _ _ _ _ before H16). unfold parts_at. change (unit_ w1) with (unit_ w).
    by rewrite Hr. }
  apply (handled_created _ before) in Hobj.
  apply safe_bind. eapply may_go_on_safe; [apply Hin6|by rewrite (in_test_place _ _ _ _ _ Hin6)|].
  cbn beta iota.
  apply safe_assoc. eapply safe_unit; [by apply (object_safe w6 si ti t0 t before s0)|]. clear Hobj Hps.
  intros w7 (ss & H7 & Hrun). pose proof (in_test_went _ _ _ _ _ _ _ Hin6 H7) as Hin7.
  eapply safe_val; [apply clock_safe, Hin7|].
  intros w8 elapsed (H8 & _). pose proof (in_test_went _ _ _ _ _ _ _ Hin7 H8) as Hin8.
  eapply safe_unit; [by eapply (set_time_safe _ (set_elapsed elapsed))|].
  intros w9 H9. pose proof (in_test_went _ _ _ _ _ _ _ Hin8 H9) as Hin9.
  pose proof (went_trans l _ _ _ _ _ (went_trans l _ _ _ _ _ (went_trans l _ _ _ _ _ H16 H7) H8) H9) as H19.
  rewrite !app_nil_r in H19. cbn [app] in H19. clear H7 H8 H9 H6.
  pose proof Hin9 as (Hw9 & _ & Hcur9 & _ & (t' & Ht' & Et')).
  eapply safe_unit; [eapply test_event_safe; [exact Hw9|exact Ht'|done]|].
  intros w10 (H10 & _). apply safe_modify. split; [done|].
  pose proof (went_trans l _ _ _ _ _ H19 H10) as [Hall Hcur10].
  rewrite (in_test_place _ _ _ _ _ Hin) in Hall.
  destruct (did_around (InTest si ti) w w10 (with_current w10 (current_test_suite_ w10) None) _ _ _ Hall)
    as [Hdid Hcur']; [f_equal; [by injection Hcur10 as -> _; rewrite Hsi|done]|].
  split; [exact Hcur'|]. eexists. split; [exact Hdid|]. apply (trace_run _ _ (s0 ++ ss)); [done|exact Hrun|].
  split; [done|]. destruct H19 as [H19 _]. rewrite (in_test_place _ _ _ _ _ Hin) in H19.
  assert (Hps : parts_at (InTest si ti) (unit_ w1) = Some before)
    by (unfold parts_at; change (unit_ w1) with (unit_ w); by rewrite Hr).
  pose proof (did_parts l _ _ _ _ _ H19 Hps) as Hend. unfold parts_at in Hend.
  rewrite result_at_tested, Ht' in Hend. cbn in Hend. by injection Hend as ->.
Qed.

Lemma TestInfo_Skip_safe w si ti t :
  watched l w -> quiet (flags_ w) -> catch_exceptions_ w = true -> cur w = (Some si, None) ->
  tested (unit_ w) si ti = Some t ->
  safe (TestInfo_Skip si ti) w (fun w' r => r = Val tt /\ cur w' = cur w /\
    exists ss, did l (InTest si ti) w w' ss /\ skip_trace t ss).
Proof.
  intros Hw Hq Hc Hcur Ht. injection Hcur as Hsi Hti.
  assert (Hr : result_at (InTest si ti) (unit_ w) = Some (result_ t)) by (by rewrite result_at_tested, Ht).
  unfold TestInfo_Skip. apply safe_bind. eapply test_at_safe; [exact Ht|].
  destruct (should_run_ t) eqn:Erun; cbn [negb].
  2: { apply safe_ret. split_and!; [done|done|]. exists []. split; [by eapply did_refl|].
       by apply skip_not_run. }
  apply safe_bind, safe_modify. rewrite Hsi. set (w1 := with_current w _ _).
  assert (Hready : ready l w1).
  { split; [exact Hw|]. split; [exact Hq|]. by exists (result_ t). }
  eapply safe_unit; [eapply test_event_safe; [exact Hready|exact Ht|done]|].
  intros w2 (H2 & Hu2). eapply safe_unit.
  { apply (ReportTestPartResult_safe l). by eapply went_ready. }
  intros w3 H3. set (p := new_TestPartResult _ _ _ _) in *.
  pose proof (went_trans l _ _ _ _ _ H2 H3) as H13. pose proof H13 as [(Hf13 & Hv13 & Hg13) Hcur13].
  destruct (static_tested _ _ _ _ _ (proj1 Hg13) Ht) as (t' & Ht' & Et').
  eapply safe_unit; [eapply test_event_safe; [by eapply went_ready|exact Ht'|done]|].
  intros w4 (H4 & _). apply safe_modify. split; [done|].
  pose proof (went_trans l _ _ _ _ _ H13 H4) as [Hall Hcur4]. cbn [app] in Hall.
  destruct (did_around (InTest si ti) w w4 (with_current w4 (current_test_suite_ w4) None) _ _ _ Hall)
    as [Hdid Hcur']; [f_equal; [by injection Hcur4 as -> _; rewrite Hsi|done]|].
  split; [exact Hcur'|]. eexists. split; [exact Hdid|]. apply skip_run; [done|done|].
  split; [done|]. destruct H13 as [H13 _]. change (place w1) with (InTest si ti) in H13.
  assert (Hps : parts_at (InTest si ti) (unit_ w1) = Some (test_part_results_ (result_ t)))
    by (unfold parts_at; change (unit_ w1) with (unit_ w); by rewrite Hr).
  pose proof (did_parts l _ _ _ _ _ H13 Hps) as Hend. unfold parts_at in Hend.
  rewrite result_at_tested, Ht' in Hend. cbn in Hend. by injection Hend as ->.
Qed.

End test.
