(* ===== verification/RunnerSuite.v ===== *)
(** * One suite: what [TestSuite::Run] and [TestSuite::Skip] do *)

From S2P Require Import Prelude Outcome Common CStr FilePath TestFilter TestResult TestSelect UnitTest ReportFormat CommandLine XmlReport XmlTheorems JsonReport Listeners Runner RunnerSteps RunnerTest.

(** ** Where the test parts go *)

(** A test part is in some result. *)
Definition recorded (u : UnitTest) (pr : TestPartResult) : Prop :=
  exists q ps, parts_at q u = Some ps /\ pr ∈ ps.

(** Places whose result counts: of tests and suites that should run. *)
Definition runs (u : UnitTest) (p : Place) : Prop :=
  match p with
  | InTest si ti => exists s t, suites_of u !! si = Some s /\ test_info_list_ s !! ti = Some t /\
                                suite_should_run_ s = true /\ should_run_ t = true
  | InSuite si => exists s, suites_of u !! si = Some s /\ suite_should_run_ s = true
  | InProgram => True
  end.

(** Between [u] and [u'] results at places in [X] have changed; the test parts
    [ps] were added, at places that count. *)
Record moved (X : Place -> Prop) (u u' : UnitTest) (ps : list TestPartResult) : Prop := {
  moved_static : static u' = static u;
  moved_other : forall q, ~ X q -> result_at q u' = result_at q u;
  moved_idle : forall q, ~ runs u q -> parts_at q u' = parts_at q u;
  moved_at : forall q k pr, parts_at q u' = Some k -> pr ∈ k ->
    pr ∈ ps \/ exists k0, parts_at q u = Some k0 /\ pr ∈ k0;
  moved_recorded : forall pr, recorded u' pr <-> recorded u pr \/ pr ∈ ps }.

Lemma runs_static u u' p : static u' = static u -> runs u p -> runs u' p.
Proof.
  intros H. destruct p as [si ti|si|]; cbn; [| |done].
  - intros (s & t & Hs & Ht & Hrs & Hrt). destruct (static_suite _ _ _ _ H Hs) as (s' & Hs' & Es).
    destruct (erase_suite_test _ _ _ _ Es Ht) as (t' & Ht' & Et). exists s', t'. split_and!; [done|done| |].
    + injection Es as _ _ _ _ _ _ ->. done.
    + by destruct (erase_fixture _ _ Et) as (_ & _ & -> & _).
  - intros (s & Hs & Hrs). destruct (static_suite _ _ _ _ H Hs) as (s' & Hs' & Es).
    exists s'. split; [done|]. injection Es as _ _ _ _ _ _ ->. done.
Qed.

Lemma moved_refl X u : moved X u u [].
Proof.
  split; [done|done|done|eauto|]. intros pr. split; [by left|]. intros [?|H]; [done|].
  by apply elem_of_nil in H.
Qed.

Lemma moved_trans (X : Place -> Prop) u1 u2 u3 ps qs :
  moved X u1 u2 ps -> moved X u2 u3 qs -> moved X u1 u3 (ps ++ qs).
Proof.
  intros [S1 O1 I1 A1 R1] [S2 O2 I2 A2 R2]. split; [congruence| | | |].
  - intros q Hq. by rewrite O2, O1.
  - intros q Hq. rewrite I2, I1; [done|done|]. intros H. apply Hq. by eapply runs_static.
  - intros q k pr Hk Hpr. rewrite elem_of_app. destruct (A2 q k pr Hk Hpr) as [?|(k2 & H2 & Hpr2)]; [auto|].
    destruct (A1 q k2 pr H2 Hpr2); auto.
  - intros pr. rewrite R2, R1, elem_of_app. tauto.
Qed.

Lemma moved_mono (X Y : Place -> Prop) u u' ps :
  (forall q, X q -> Y q) -> moved X u u' ps -> moved Y u u' ps.
Proof. intros H [S O I A R]. split; auto. Qed.

Lemma grown_moved p ps u u' :
  grown p ps u u' -> runs u p \/ ps = [] -> moved (eq p) u u' ps.
Proof.
  intros (Hs & Ho & k & Hk & Hk') Hr. split; [done| | | |].
  - intros q Hq. apply Ho. congruence.
  - intros q Hq. destruct (decide (q = p)) as [->|Hne].
    + destruct Hr as [?| ->]; [done|]. by rewrite Hk', Hk, app_nil_r.
    + unfold parts_at. by rewrite Ho.
  - intros q k1 pr Hk1 Hpr. destruct (decide (q = p)) as [->|Hne].
    + rewrite Hk' in Hk1. injection Hk1 as <-. apply elem_of_app in Hpr as [?|?]; eauto.
    + right. exists k1. split; [|done]. unfold parts_at in *. by rewrite Ho in Hk1.
  - intros pr. split.
    + intros (q & l & Hq & Hpr). destruct (decide (q = p)) as [->|Hne].
      * rewrite Hk' in Hq. injection Hq as <-. apply elem_of_app in Hpr as [?|?]; [|by right].
        left. by exists p, k.
      * left. exists q, l. split; [|done]. unfold parts_at in *. by rewrite Ho in Hq.
    + intros [(q & l & Hq & Hpr)|Hpr].
      * destruct (decide (q = p)) as [->|Hne].
        -- exists p, (k ++ ps). split; [done|]. apply elem_of_app. left. congruence.
        -- exists q, l. split; [|done]. unfold parts_at in *. by rewrite Ho.
      * exists p, (k ++ ps). split; [done|]. apply elem_of_app. by right.
Qed.

(** The same test at the same position. *)
Lemma tested_same u u' si ti t :
  static u' = static u -> result_at (InTest si ti) u' = result_at (InTest si ti) u ->
  tested u si ti = Some t -> tested u' si ti = Some t.
Proof.
  intros Hs Hr Ht. destruct (static_tested _ _ _ _ _ Hs Ht) as (t' & Ht' & Et).
  rewrite !result_at_tested, Ht, Ht' in Hr. cbn in Hr. injection Hr as Hr.
  rewrite Ht'. f_equal. destruct t, t'; unfold erase_test, with_result in Et; cbn in *.
  injection Et as -> -> -> -> -> -> -> -> -> -> ->. by subst.
Qed.

(** ** The order of the tests *)

Lemma insert_stable_perm {A} (lt : A -> A -> bool) x l : insert_stable lt x l ≡ₚ x :: l.
Proof.
  induction l as [|y l IH]; [done|]. cbn [insert_stable]. destruct (lt y x); [|done].
  rewrite IH. apply Permutation_swap.
Qed.

Lemma stable_sort_perm {A} (lt : A -> A -> bool) l : stable_sort lt l ≡ₚ l.
Proof. induction l as [|x l IH]; [done|]. cbn. by rewrite insert_stable_perm, IH. Qed.

Lemma insert_stable_map {A B} (lt : A -> A -> bool) (lt' : B -> B -> bool) (f : A -> B) x l :
  (forall a b, lt' (f a) (f b) = lt a b) ->
  insert_stable lt' (f x) (map f l) = map f (insert_stable lt x l).
Proof.
  intros H. induction l as [|y l IH]; [done|]. cbn [map insert_stable]. rewrite H.
  destruct (lt y x); [|done]. cbn. by rewrite IH.
Qed.

Lemma stable_sort_map {A B} (lt : A -> A -> bool) (lt' : B -> B -> bool) (f : A -> B) l :
  (forall a b, lt' (f a) (f b) = lt a b) -> stable_sort lt' (map f l) = map f (stable_sort lt l).
Proof.
  intros H. induction l as [|x l IH]; [done|]. cbn. rewrite <- (insert_stable_map lt lt' f) by done.
  by f_equal.
Qed.

(** No test comes before the one that precedes it. *)
Inductive in_place {A} (lt : A -> A -> bool) : list A -> Prop :=
  | in_place_nil : in_place lt []
  | in_place_one x : in_place lt [x]
  | in_place_cons x y l : lt y x = false -> in_place lt (y :: l) -> in_place lt (x :: y :: l).

Lemma insert_in_place {A} (lt : A -> A -> bool) x l :
  (forall a b, lt a b = true -> lt b a = false) -> in_place lt l -> in_place lt (insert_stable lt x l).
Proof.
  intros Hasym H. induction H as [|y|y z l Hzy H IH]; cbn [insert_stable].
  - constructor.
  - destruct (lt y x) eqn:E; repeat constructor; auto.
  - destruct (lt y x) eqn:E; [|by repeat constructor]. cbn [insert_stable] in IH.
    destruct (lt z x) eqn:E'; constructor; auto.
Qed.

Lemma stable_sort_in_place {A} (lt : A -> A -> bool) l :
  (forall a b, lt a b = true -> lt b a = false) -> in_place lt (stable_sort lt l).
Proof.
  intros H. induction l as [|x l IH]; [constructor|]. by apply insert_in_place.
Qed.

Lemma stable_sort_id {A} (lt : A -> A -> bool) l : in_place lt l -> stable_sort lt l = l.
Proof.
  intros H. induction H as [|x|x y l Hyx H IH]; [done|done|].
  cbn [stable_sort foldr] in *. rewrite IH. cbn. by rewrite Hyx.
Qed.

Lemma strcmp_lt_asym a b : strcmp_lt a b = true -> strcmp_lt b a = false.
Proof.
  revert b; induction a as [|x a IH]; intros [|y b]; cbn; try done.
  intros [H%Z.ltb_lt|[H%Z.eqb_eq H']%andb_true_iff]%orb_true_iff.
  - rewrite (proj2 (Z.ltb_ge _ _)), (proj2 (Z.eqb_neq _ _)) by lia. done.
  - rewrite H, Z.ltb_irrefl, IH by done. by rewrite andb_false_r.
Qed.

Lemma comes_before_asym a b : comes_before a b = true -> comes_before b a = false.
Proof.
  unfold comes_before. set (f := fun t => c_str (loc_file (location_ t))). cbv zeta.
  change (c_str (loc_file (location_ a))) with (f a). change (c_str (loc_file (location_ b))) with (f b).
  destruct (decide (f a = f b)) as [E|E].
  - rewrite E, !bool_decide_true by done. cbn [negb]. intros H%Z.ltb_lt. apply Z.ltb_ge. lia.
  - rewrite !bool_decide_false by congruence. cbn [negb]. apply strcmp_lt_asym.
Qed.

(** Sorting twice changes nothing, and no test is before its predecessor. *)
Lemma sort_tests_in_place s : in_place comes_before (test_info_list_ (sort_tests s)).
Proof. apply stable_sort_in_place, comes_before_asym. Qed.

Lemma sort_tests_idem s : sort_tests (sort_tests s) = sort_tests s.
Proof.
  unfold sort_tests at 1. rewrite stable_sort_id by apply sort_tests_in_place. by destruct s.
Qed.

Lemma erase_sort s : erase_suite (sort_tests s) = sort_tests (erase_suite s).
Proof.
  unfold sort_tests, set_tests, erase_suite, with_times, with_tests. cbn. f_equal.
  by apply eq_sym, stable_sort_map.
Qed.

(** ** The steps of a suite *)

Definition skips (ts : list TestInfo) (ss : list Seen) : Prop :=
  exists sss, Forall2 skip_trace ts sss /\ ss = concat sss.

Section steps.
Context {constructors : Constructors}.

(** The tests of a suite, in order: with [skip] none runs.  After a failed test
    the rest may be skipped ([--gtest_fail_fast]). *)
Inductive tests_trace (first_fixture : Z) : bool -> list TestInfo -> list Seen -> Prop :=
  | tests_none : tests_trace first_fixture false [] []
  | tests_run t ts s1 s2 : test_trace first_fixture t s1 ->
      tests_trace first_fixture false ts s2 -> tests_trace first_fixture false (t :: ts) (s1 ++ s2)
  | tests_stop t ts s1 s2 : test_trace first_fixture t s1 ->
      existsb failed (parts_of s1) = true -> skips ts s2 ->
      tests_trace first_fixture false (t :: ts) (s1 ++ s2)
  | tests_skip ts ss : skips ts ss -> tests_trace first_fixture true ts ss.

End steps.

Definition optional_piece (c : Z -> UserCode) (f : option Z) (ss : list Seen) : Prop :=
  match f with None => ss = [] | Some f => piece (c f) ss end.

(** No test has a result yet. *)
Definition fresh (s : TestSuite) : Prop :=
  test_part_results_ (ad_hoc_test_result_ s) = [] /\
  Forall (fun t => test_part_results_ (result_ t) = []) (test_info_list_ s).

Definition first_fixture (s : TestSuite) : Z :=
  match test_info_list_ s with [] => 0 | t :: _ => fixture_class_id_ t end.

(** Failed or skipped set-up of the suite. *)
Definition set_up_stops (ps : list TestPartResult) : bool := existsb failed ps || existsb skipped ps.

Definition suite_brackets (s1 s2 : TestSuite) (mid : list Seen) : list Seen :=
  [Saw (OnTestSuiteStart s1); Saw (OnTestCaseStart s1)] ++ mid ++
  [Saw (OnTestSuiteEnd s2); Saw (OnTestCaseEnd s2)].

Inductive suite_trace {constructors : Constructors} (s : TestSuite) : list Seen -> Prop :=
  | suite_not_run : suite_should_run_ s = false -> suite_trace s []
  | suite_run s1 s2 up tests down :
      suite_should_run_ s = true -> erase_suite s1 = erase_suite (sort_tests s) ->
      erase_suite s2 = erase_suite (sort_tests s) ->
      optional_piece SetUpTestSuite (set_up_tc_ s) up ->
      tests_trace (first_fixture (sort_tests s)) (set_up_stops (parts_of up))
        (tests_in_order (sort_tests s)) tests ->
      optional_piece TearDownTestSuite (tear_down_tc_ s) down ->
      suite_trace s (suite_brackets s1 s2 (up ++ tests ++ down)).

Inductive suite_skip_trace (s : TestSuite) : list Seen -> Prop :=
  | suite_skip_not_run : suite_should_run_ s = false -> suite_skip_trace s []
  | suite_skipped s1 s2 tests :
      suite_should_run_ s = true -> erase_suite s1 = erase_suite s -> erase_suite s2 = erase_suite s ->
      skips (tests_in_order s) tests -> suite_skip_trace s (suite_brackets s1 s2 tests).

(** ** The positions at which the tests of a suite run *)

(** Every element has one place in the order. *)
Definition is_order {A} (idx : list Z) (l : list A) : Prop :=
  idx ≡ₚ map Z.of_nat (seq 0 (length l)).

Lemma is_order_spec {A} (idx : list Z) (l : list A) : is_order idx l ->
  NoDup (map Z.to_nat idx) /\
  Forall2 (fun i k => GetElementOr idx (Z.of_nat i) (-1) = Z.of_nat k) (seq 0 (length l))
    (map Z.to_nat idx) /\
  Forall2 (fun k x => l !! k = Some x) (map Z.to_nat idx) (omap (fun i => l !! Z.to_nat i) idx).
Proof.
  unfold is_order. intros HP.
  assert (Hpos : map Z.to_nat idx ≡ₚ seq 0 (length l)).
  { rewrite HP, map_map. rewrite (map_ext _ (fun n => n)) by (intros; apply Nat2Z.id). by rewrite map_id. }
  assert (Hin : forall z, z ∈ idx -> 0 <= z /\ is_Some (l !! Z.to_nat z)).
  { intros z Hz. rewrite HP in Hz. apply list_elem_of_fmap in Hz as (k & -> & Hk).
    apply elem_of_seq in Hk. rewrite Nat2Z.id. split; [lia|]. apply lookup_lt_is_Some_2. lia. }
  assert (Hlen : length idx = length l) by (rewrite HP, length_map, length_seq; done).
  split_and!.
  - rewrite Hpos. apply NoDup_seq.
  - apply Forall2_same_length_lookup. split; [by rewrite length_seq, length_map|].
    intros i k ti Hk Hti. apply lookup_seq in Hk as [-> Hi]. cbn [plus].
    rewrite list_lookup_fmap_Some in Hti. destruct Hti as (z & -> & Hz).
    destruct (Hin z) as [Hz0 _]; [by eapply list_elem_of_lookup_2|]. unfold GetElementOr.
    rewrite (proj2 (Z.ltb_ge (Z.of_nat i) 0)), (proj2 (Z.leb_gt (Z.of_nat (length idx)) _)) by lia.
    cbn [orb]. rewrite Nat2Z.id, Hz. cbn. lia.
  - clear HP Hlen Hpos. induction idx as [|z idx IH]; cbn; [constructor|].
    destruct (Hin z) as [_ [t Ht]]; [by left|]. rewrite Ht. constructor; [done|].
    apply IH. intros z' Hz'. apply Hin. by right.
Qed.

(** Every test runs once. *)
Definition ordered (s : TestSuite) : Prop := is_order (test_indices_ s) (test_info_list_ s).

Definition positions_of (s : TestSuite) : list nat := map Z.to_nat (test_indices_ s).

Lemma sort_ordered s : ordered s -> ordered (sort_tests s).
Proof.
  unfold ordered, is_order. cbn. intros H. by rewrite (Permutation_length (stable_sort_perm _ _)).
Qed.
Lemma sort_fresh s : fresh s -> fresh (sort_tests s).
Proof.
  intros [H1 H2]. split; [done|]. cbn. by rewrite (stable_sort_perm comes_before (test_info_list_ s)).
Qed.

Lemma test_trace_idle `{Constructors} ff t ss : should_run_ t = false -> test_trace ff t ss -> parts_of ss = [].
Proof. intros E []; try done. congruence. Qed.
Lemma skip_trace_idle t ss : should_run_ t = false -> skip_trace t ss -> parts_of ss = [].
Proof. intros H []; [done|congruence]. Qed.

Section suite.
Context {U : Type} (program : UserCode -> U -> body U) (system_clock steady_clock : nat -> Z)
  (gtest_cc : text) (GetTestTypeId : Z) (l : Listener).
Hypothesis Hcivil : civil program.
Implicit Types w : World U.
#[local] Instance own_constructors : Constructors := constructors_of program gtest_cc l.

(** The steps [ss] and their effect on results at places in [X]. *)
Definition ran w w' (X : Place -> Prop) (ss : list Seen) : Prop :=
  frame w w' /\ view l (steps w') = view l (steps w) ++ ss /\
  moved X (unit_ w) (unit_ w') (parts_of ss).

Lemma ran_trans w1 w2 w3 X s1 s2 : ran w1 w2 X s1 -> ran w2 w3 X s2 -> ran w1 w3 X (s1 ++ s2).
Proof.
  intros (F1 & V1 & M1) (F2 & V2 & M2). split; [by eapply frame_trans|].
  split; [by rewrite V2, V1, app_assoc|]. rewrite parts_of_app. by eapply moved_trans.
Qed.
Lemma ran_mono w w' (X Y : Place -> Prop) ss : (forall q, X q -> Y q) -> ran w w' X ss -> ran w w' Y ss.
Proof. intros H (F & V & M). split_and!; [done|done|by eapply moved_mono]. Qed.
Lemma ran_refl w X : quiet (flags_ w) -> ran w w X [].
Proof. intros H. split_and!; [by apply frame_refl|by rewrite app_nil_r|apply moved_refl]. Qed.
Lemma did_ran p w w' ss :
  did l p w w' ss -> runs (unit_ w) p \/ parts_of ss = [] -> ran w w' (eq p) ss.
Proof. intros (F & V & G) H. split_and!; [done|done|by apply grown_moved]. Qed.

(** What every part of a run starts from. *)
Definition able w (c : option nat * option (nat * nat)) : Prop :=
  watched l w /\ quiet (flags_ w) /\ catch_exceptions_ w = true /\ cur w = c.

Lemma able_ran w w' X ss c : able w c -> ran w w' X ss -> cur w' = cur w -> able w' c.
Proof.
  intros (Hw & Hq & Hc & Hcur) ([Hl Hcc _ _ Hq'] & _) E. split_and!.
  - unfold watched. by rewrite Hl.
  - done.
  - congruence.
  - congruence.
Qed.

Lemma GetMutableTestInfo_safe w si i s ti Q :
  suites_of (unit_ w) !! si = Some s ->
  GetElementOr (test_indices_ s) (Z.of_nat i) (-1) = Z.of_nat ti ->
  Q w (Val ti) -> safe (GetMutableTestInfo si i) w Q.
Proof.
  intros Hs Hi H. unfold GetMutableTestInfo. apply safe_bind. eapply suite_at_safe; [exact Hs|].
  cbv zeta. rewrite Hi, (proj2 (Z.ltb_ge (Z.of_nat ti) 0)), Nat2Z.id by lia. by apply safe_ret.
Qed.

(** The suite that is running: its order of tests does not change. *)
Definition suite_is w si (idx : list Z) : Prop :=
  exists s, suites_of (unit_ w) !! si = Some s /\ test_indices_ s = idx /\ suite_should_run_ s = true.

Lemma suite_is_moved w w' X ss si idx : ran w w' X ss -> suite_is w si idx -> suite_is w' si idx.
Proof.
  intros (_ & _ & [Hs _ _ _ _]) (s & Hsi & Hidx & Hrun).
  destruct (static_suite _ _ _ _ Hs Hsi) as (s' & Hs' & Es). exists s'.
  injection Es as _ _ _ Hi _ _ Hr. split_and!; congruence.
Qed.

(** The tests at the positions, none of which has run. *)
Definition waiting w si (positions : list nat) (ts : list TestInfo) : Prop :=
  NoDup positions /\
  Forall2 (fun ti t => tested (unit_ w) si ti = Some t /\ test_part_results_ (result_ t) = [])
    positions ts.

Lemma waiting_moved w w' si ti positions t ts ss :
  waiting w si (ti :: positions) (t :: ts) -> ran w w' (eq (InTest si ti)) ss ->
  waiting w' si positions ts.
Proof.
  intros [Hnd H] (_ & _ & [Hs Ho _ _ _]). apply NoDup_cons in Hnd as [Hti Hnd].
  apply Forall2_cons in H as [_ H]. split; [done|].
  apply Forall2_same_length_lookup. apply Forall2_same_length_lookup in H as [Hlen H].
  split; [done|]. intros j tj t' Hj Hj'. destruct (H j tj t' Hj Hj') as [Ht Hp].
  apply list_elem_of_lookup_2 in Hj. split; [|done]. eapply tested_same; [exact Hs| |exact Ht].
  apply Ho. intros [= ->]. done.
Qed.

Definition tests_at si (positions : list nat) (q : Place) : Prop :=
  exists ti, ti ∈ positions /\ q = InTest si ti.

Lemma runs_test w si idx ti t :
  suite_is w si idx -> tested (unit_ w) si ti = Some t -> should_run_ t = true ->
  runs (unit_ w) (InTest si ti).
Proof.
  intros (s & Hs & _ & Hrun) Ht Hr. exists s, t. unfold tested in Ht. rewrite Hs in Ht. done.
Qed.

Lemma test_ran w w' si ti t ss (Tr : TestInfo -> list Seen -> Prop) idx :
  (forall t ss, should_run_ t = false -> Tr t ss -> parts_of ss = []) ->
  suite_is w si idx -> tested (unit_ w) si ti = Some t -> did l (InTest si ti) w w' ss -> Tr t ss ->
  ran w w' (eq (InTest si ti)) ss.
Proof.
  intros Hidle Hs Ht Hd Htr. apply did_ran; [done|]. destruct (should_run_ t) eqn:Hr.
  - left. by eapply runs_test.
  - right. by eapply Hidle.
Qed.

Lemma Skip_all_safe w si idx is_ positions ts :
  able w (Some si, None) -> suite_is w si idx ->
  Forall2 (fun i ti => GetElementOr idx (Z.of_nat i) (-1) = Z.of_nat ti) is_ positions ->
  waiting w si positions ts ->
  safe (for_each is_ (Skip_nth si)) w (fun w' r => r = Val tt /\ cur w' = cur w /\
    exists ss, ran w w' (tests_at si positions) ss /\ skips ts ss).
Proof.
  intros Hab Hs Hpos. revert w ts Hab Hs. induction Hpos as [|i ti is_ positions Hi _ IH];
    intros w ts Hab Hs Hwait.
  { destruct Hwait as [_ H]. apply Forall2_nil_inv_l in H as ->. apply safe_ret.
    split_and!; [done|done|]. exists []. split; [apply ran_refl; apply Hab|]. by exists []. }
  pose proof Hwait as [_ H2]. apply Forall2_cons_inv_l in H2 as (t & ts' & [Ht Hp] & _ & ->).
  cbn [for_each]. unfold Skip_nth at 1. pose proof Hs as (s & Hsi & Hidx & _).
  apply safe_bind, safe_bind. eapply GetMutableTestInfo_safe; [exact Hsi|by rewrite Hidx|].
  destruct Hab as (Hw & Hq & Hc & Hcur).
  eapply safe_mono; [by eapply (TestInfo_Skip_safe l)|].
  intros w1 r (-> & Hcur1 & s1 & Hd & Htr).
  pose proof (test_ran _ _ _ _ _ _ skip_trace _ skip_trace_idle Hs Ht Hd Htr) as Hran1.
  assert (Hab1 : able w1 (Some si, None)) by (by eapply able_ran; [|exact Hran1|]).
  eapply safe_mono; [apply IH; [exact Hab1|by eapply suite_is_moved|by eapply waiting_moved]|].
  intros w' r (-> & Hcur' & s2 & Hran2 & (sss & Hsk & ->)). split_and!; [done|congruence|].
  exists (s1 ++ concat sss). split.
  - eapply ran_trans; eapply ran_mono; [|exact Hran1| |exact Hran2].
    + intros q <-. exists ti. split; [by left|done].
    + intros q (tj & Hj & ->). exists tj. split; [by right|done].
  - exists (s1 :: sss). split; [by constructor|done].
Qed.

Lemma suite_loop_safe w si idx skip is_ positions ts t0 :
  able w (Some si, None) -> suite_is w si idx ->
  (exists t0', tested (unit_ w) si 0 = Some t0' /\ erase_test t0' = erase_test t0) ->
  Forall2 (fun i ti => GetElementOr idx (Z.of_nat i) (-1) = Z.of_nat ti) is_ positions ->
  waiting w si positions ts ->
  safe (suite_loop program system_clock steady_clock gtest_cc GetTestTypeId si skip is_) w
    (fun w' r => r = Val tt /\ cur w' = cur w /\
      exists ss, ran w w' (tests_at si positions) ss /\ tests_trace (fixture_class_id_ t0) skip ts ss).
Proof.
  intros Hab Hs H0 Hpos. revert w ts Hab Hs H0. induction Hpos as [|i ti is_ positions Hi Hpos IH];
    intros w ts Hab Hs H0 Hwait.
  { destruct Hwait as [_ H]. apply Forall2_nil_inv_l in H as ->. apply safe_ret.
    split_and!; [done|done|]. exists []. split; [apply ran_refl; apply Hab|].
    destruct skip; constructor. by exists []. }
  pose proof Hwait as [_ H2]. apply Forall2_cons_inv_l in H2 as (t & ts' & [Ht Hp] & _ & ->).
  cbn [suite_loop]. pose proof Hs as (s & Hsi & Hidx & _).
  apply safe_bind. eapply GetMutableTestInfo_safe; [exact Hsi|by rewrite Hidx|].
  pose proof Hab as (Hw & Hq & Hc & Hcur).
  set (Tr := if skip then skip_trace else test_trace (fixture_class_id_ t0)).
  assert (Hone : safe (if skip then TestInfo_Skip si ti
      else TestInfo_Run program system_clock steady_clock gtest_cc GetTestTypeId si ti) w
    (fun w' r => r = Val tt /\ (cur w' = cur w /\
       exists ss, ran w w' (eq (InTest si ti)) ss /\ did l (InTest si ti) w w' ss /\ Tr t ss))).
  { destruct skip.
    - eapply safe_mono; [by eapply (TestInfo_Skip_safe l)|].
      intros w1 r (-> & Hcur1 & s1 & Hd & Htr). split_and!; [done|done|]. exists s1.
      split; [|by split]. by eapply (test_ran _ _ _ _ _ _ skip_trace); [exact skip_trace_idle|..].
    - destruct H0 as (t0' & H0 & E0). eapply safe_mono; [by eapply (TestInfo_Run_safe _ _ _ _ _ l)|].
      intros w1 r (-> & Hcur1 & s1 & Hd & Htr). split_and!; [done|done|]. exists s1.
      split; [|by split]. by eapply (test_ran _ _ _ _ _ _ (test_trace _)); [apply test_trace_idle|..]. }
  eapply safe_unit; [exact Hone|]. clear Hone.
  intros w1 (Hcur1 & s1 & Hran1 & Hd & Htr).
  assert (Hab1 : able w1 (Some si, None)) by (by eapply able_ran; [|exact Hran1|]).
  pose proof (suite_is_moved _ _ _ _ _ _ Hran1 Hs) as Hs1.
  pose proof (waiting_moved _ _ _ _ _ _ _ _ Hwait Hran1) as Hwait1.
  assert (H01 : exists t0', tested (unit_ w1) si 0 = Some t0' /\ erase_test t0' = erase_test t0).
  { destruct H0 as (t0' & H0 & E0). destruct Hd as (_ & _ & Hst & _).
    destruct (static_tested _ _ _ _ _ Hst H0) as (t2 & H2 & E2). exists t2. split; [done|congruence]. }
  assert (Hgo : forall w' s2, cur w' = cur w1 -> ran w1 w' (tests_at si positions) s2 ->
    cur w' = cur w /\ ran w w' (tests_at si (ti :: positions)) (s1 ++ s2)).
  { intros w' s2 Hcur' Hran2. split; [congruence|].
    eapply ran_trans; eapply ran_mono; [|exact Hran1| |exact Hran2].
    - intros q <-. exists ti. split; [by left|done].
    - intros q (tj & Hj & ->). exists tj. split; [by right|done]. }
  assert (Hnext : safe (suite_loop program system_clock steady_clock gtest_cc GetTestTypeId si skip is_) w1
    (fun w' r => r = Val tt /\ cur w' = cur w /\ exists ss, ran w w' (tests_at si (ti :: positions)) ss /\
       tests_trace (fixture_class_id_ t0) skip (t :: ts') ss)).
  { eapply safe_mono; [by apply IH|]. intros w' r (-> & Hcur' & s2 & Hran2 & Htr2).
    destruct (Hgo w' s2 Hcur' Hran2) as [Hc' Hr']. split_and!; [done|done|]. exists (s1 ++ s2).
    split; [done|]. unfold Tr in Htr. destruct skip; [|by apply tests_run].
    inversion Htr2 as [| | |? ? (sss & Hsk & ->)]; subst. apply tests_skip.
    exists (s1 :: sss). split; [by constructor|done]. }
  apply safe_bind, safe_get. destruct (bools (flags_ w1) Flag.fail_fast); [|exact Hnext].
  destruct Hd as (_ & _ & Hst & _ & k & Hk & Hk').
  destruct (static_tested _ _ _ _ _ Hst Ht) as (t1 & Ht1 & _).
  apply safe_bind. eapply test_at_safe; [exact Ht1|].
  destruct (Failed (result_ t1)) eqn:Hf; [|exact Hnext].
  eapply safe_mono; [by eapply Skip_all_safe|].
  intros w' r (-> & Hcur' & s2 & Hran2 & Hsk). destruct (Hgo w' s2 Hcur' Hran2) as [Hc' Hr'].
  split_and!; [done|done|]. exists (s1 ++ s2). split; [done|].
  unfold Tr in Htr. destruct skip.
  - apply tests_skip. destruct Hsk as (sss & Hsk & ->). exists (s1 :: sss). split; [by constructor|done].
  - apply tests_stop; [done| |done]. unfold parts_at in Hk, Hk'.
    rewrite result_at_tested, Ht in Hk. rewrite result_at_tested, Ht1 in Hk'. cbn in Hk, Hk'.
    injection Hk as <-. injection Hk' as Hk'. unfold Failed in Hf. rewrite Hk', Hp in Hf. done.
Qed.

(** ** The framework's own steps in a suite *)

(** The suite [si] runs; [s] is it without results and times. *)
Definition in_suite w si (s : TestSuite) : Prop :=
  able w (Some si, None) /\
  exists s', suites_of (unit_ w) !! si = Some s' /\ erase_suite s' = erase_suite s /\
             suite_should_run_ s' = true.

Lemma in_suite_ran w w' X ss si s :
  in_suite w si s -> ran w w' X ss -> cur w' = cur w -> in_suite w' si s.
Proof.
  intros [Hab (s1 & Hs & Es & Hr)] H Hc. split; [by eapply able_ran|].
  destruct H as (_ & _ & [Hst _ _ _ _]). destruct (static_suite _ _ _ _ Hst Hs) as (s2 & Hs2 & Es2).
  exists s2. split_and!; [done|congruence|]. injection Es2 as _ _ _ _ _ _ ->. done.
Qed.

Lemma in_suite_ready w si s : in_suite w si s -> ready l w /\ place w = InSuite si.
Proof.
  intros [(Hw & Hq & _ & Hcur) (s1 & Hs & _)]. injection Hcur as Hsi Hti.
  assert (Hp : place w = InSuite si) by (unfold place; by rewrite Hti, Hsi).
  split; [|done]. split_and!; [done|done|]. rewrite Hp. cbn. rewrite Hs. by eexists.
Qed.

Lemma in_suite_runs w si s : in_suite w si s -> runs (unit_ w) (InSuite si).
Proof. intros [_ (s' & Hs & _ & Hr)]. by exists s'. Qed.

(** What [went] in a suite. *)
Lemma in_suite_went w w' si s ss :
  in_suite w si s -> went l w w' ss -> ran w w' (eq (InSuite si)) ss /\ cur w' = cur w.
Proof.
  intros Hin [Hd Hc]. split; [|done]. destruct (in_suite_ready _ _ _ Hin) as [_ Hp]. rewrite Hp in Hd.
  apply did_ran; [done|]. left. by eapply in_suite_runs.
Qed.

(** Times of the suite. *)
Lemma moved_suite X u si f :
  (forall s, erase_suite (f s) = erase_suite s /\ test_info_list_ (f s) = test_info_list_ s /\
             ad_hoc_test_result_ (f s) = ad_hoc_test_result_ s) ->
  moved X u (update_suite si f u) [].
Proof.
  intros H. assert (Hr : forall q, result_at q (update_suite si f u) = result_at q u).
  { intros [sj tj|sj|]; [| |done]; cbn [result_at]; rewrite suites_update_suite;
      (destruct (decide (sj = si)) as [->|]; [|by rewrite list_lookup_alter_ne by done]);
      rewrite list_lookup_alter_eq; destruct (suites_of u !! si) as [s|]; [|done| |done];
      destruct (H s) as (_ & Ht & Ha); cbn; by rewrite ?Ht, ?Ha. }
  split; [apply static_update_suite; intros s; apply H|auto| | |].
  - intros q _. unfold parts_at. by rewrite Hr.
  - intros q k pr. unfold parts_at. rewrite Hr. eauto.
  - intros pr. unfold recorded, parts_at. setoid_rewrite Hr. split; [by left|].
    by intros [?|?%elem_of_nil].
Qed.

Lemma suite_times_safe w si s f g X :
  in_suite w si s ->
  safe (modify_unit (update_suite si (set_suite_times f g))) w
    (fun w' r => r = Val tt /\ ran w w' X [] /\ cur w' = cur w).
Proof.
  intros [(_ & Hq & _) _]. apply safe_modify. split_and!; [done| |done].
  split_and!; [by split|by rewrite app_nil_r|]. by apply moved_suite.
Qed.

Lemma suite_event_safe w (e : TestSuite -> Event) si s s1 :
  in_suite w si s -> suites_of (unit_ w) !! si = Some s1 -> is_part (e s1) = false ->
  safe (suite_event e si) w
    (fun w' r => r = Val tt /\ ran w w' (eq (InSuite si)) [Saw (e s1)] /\ cur w' = cur w /\
                 unit_ w' = unit_ w).
Proof.
  intros Hin Hs He. pose proof (in_suite_ready _ _ _ Hin) as ((Hw & Hq & r & Hr) & Hp).
  rewrite Hp in Hr. unfold suite_event. apply safe_bind. eapply suite_at_safe; [exact Hs|].
  eapply safe_mono; [by eapply (broadcast_did l (InSuite si))|].
  intros w' v (-> & H & Hc & Hu). split_and!; [done| |done|done].
  apply did_ran; [done|]. left. by eapply in_suite_runs.
Qed.

(** The two events at the start or at the end of a suite. *)
Lemma suite_events_safe {B} w (e1 e2 : TestSuite -> Event) si s (k : M B) Q :
  in_suite w si s -> (forall s, is_part (e1 s) = false) -> (forall s, is_part (e2 s) = false) ->
  (forall w' s1, ran w w' (eq (InSuite si)) [Saw (e1 s1); Saw (e2 s1)] -> cur w' = cur w ->
     unit_ w' = unit_ w -> erase_suite s1 = erase_suite s -> safe k w' Q) ->
  safe (bind (suite_event e1 si) (fun _ => bind (suite_event e2 si) (fun _ => k))) w Q.
Proof.
  intros Hin He1 He2 Hk. pose proof Hin as [_ (s1 & Hs & Es & _)].
  eapply safe_unit; [by eapply suite_event_safe|]. intros w1 (H1 & Hc1 & Hu1).
  pose proof (in_suite_ran _ _ _ _ _ _ Hin H1 Hc1) as Hin1.
  eapply safe_unit; [eapply suite_event_safe; [done|by rewrite Hu1|done]|].
  intros w2 (H2 & Hc2 & Hu2). eapply Hk; [|congruence|congruence|exact Es].
  by apply (ran_trans _ _ _ _ _ _ H1 H2).
Qed.

(** [SetUpTestSuite] or [TearDownTestSuite], if the suite has it. *)
Lemma suite_piece_safe w si s (c : Z -> UserCode) f location :
  in_suite w si s -> (forall f e, may_throw (c f) e -> user_exn e) ->
  safe (HandleExceptionsInMethodIfSupported tt
          (match f with None => ret tt | Some f => call program gtest_cc (c f) end) location) w
    (fun w' r => r = Val tt /\ exists ss, optional_piece c f ss /\ went l w w' ss).
Proof.
  intros Hin Hc. pose proof (in_suite_ready _ _ _ Hin) as [Hw _].
  assert (Hcatch : catch_exceptions_ w = true) by apply Hin. destruct f as [f|]; cbn [optional_piece].
  - apply (handled_call_safe l); [done|done|]. apply civil_tame; [done|]. apply Hc.
  - unfold HandleExceptionsInMethodIfSupported. apply safe_bind, safe_get. rewrite Hcatch.
    apply safe_catch, safe_ret. split; [done|]. exists []. split; [done|]. by apply went_refl.
Qed.

(** ** The suite *)

Lemma waiting_start w si s s' :
  ordered s -> fresh s -> suites_of (unit_ w) !! si = Some s' ->
  test_info_list_ s' = test_info_list_ s -> waiting w si (positions_of s) (tests_in_order s).
Proof.
  intros Ho [_ Hf] Hs Ht. destruct (is_order_spec _ _ Ho) as (Hnd & _ & H2). split; [done|].
  eapply Forall2_impl; [exact H2|]. intros ti t Hti. unfold tested. rewrite Hs. cbn. rewrite Ht.
  split; [exact Hti|]. rewrite Forall_forall in Hf. apply Hf. eapply list_elem_of_lookup_2. exact Hti.
Qed.

(** The tests of a suite are the same after a step that only concerns the suite. *)
Lemma tests_after w w' si s s' ss :
  suites_of (unit_ w) !! si = Some s -> ran w w' (eq (InSuite si)) ss ->
  suites_of (unit_ w') !! si = Some s' -> test_info_list_ s' = test_info_list_ s.
Proof.
  intros Hs (_ & _ & [Hst Ho _ _ _]) Hs'. apply list_eq. intros ti.
  destruct (test_info_list_ s !! ti) as [t|] eqn:Ht.
  - assert (G : tested (unit_ w) si ti = Some t) by (unfold tested; by rewrite Hs).
    apply (tested_same _ (unit_ w')) in G; [|done|by apply Ho].
    unfold tested in G. by rewrite Hs' in G.
  - destruct (static_suite _ _ _ _ Hst Hs) as (s2 & Hs2 & E). assert (s2 = s') as -> by congruence.
    apply lookup_ge_None in Ht. apply lookup_ge_None. etransitivity; [|exact Ht].
    apply (f_equal (fun s => length (test_info_list_ s))) in E. cbn in E. rewrite !length_map in E. lia.
Qed.

Definition places_of si (q : Place) : Prop := q = InSuite si \/ exists ti, q = InTest si ti.

Lemma suite_place si q : InSuite si = q -> places_of si q.
Proof. intros <-. by left. Qed.
Lemma tests_places si positions q : tests_at si positions q -> places_of si q.
Proof. intros (ti & _ & ->). right. by exists ti. Qed.

(** The tests of the suite, after its set-up. *)
Lemma suite_tests_safe w si s s' skip :
  in_suite w si s -> ordered s -> fresh s -> suites_of (unit_ w) !! si = Some s' ->
  test_info_list_ s' = test_info_list_ s ->
  safe (suite_loop program system_clock steady_clock gtest_cc GetTestTypeId si skip
          (seq 0 (length (test_info_list_ s)))) w
    (fun w' r => r = Val tt /\ cur w' = cur w /\
      exists ss, ran w w' (places_of si) ss /\ tests_trace (first_fixture s) skip (tests_in_order s) ss).
Proof.
  intros [Hab (s1 & Hs1 & Es1 & Hr1)] Ho Hf Hs' Ht. assert (s1 = s') as -> by congruence.
  pose proof (waiting_start w si s s' Ho Hf Hs' Ht) as Hwait.
  destruct (is_order_spec _ _ Ho) as (_ & Hpos & _). unfold first_fixture.
  assert (Hidx : test_indices_ s' = test_indices_ s) by (by injection Es1).
  destruct (test_info_list_ s) as [|t0 tests] eqn:Etests.
  - cbn [length seq] in *. apply Forall2_nil_inv_l in Hpos. unfold positions_of in Hwait. rewrite Hpos in Hwait.
    destruct Hwait as [_ H]. apply Forall2_nil_inv_l in H. rewrite H. apply safe_ret.
    split_and!; [done|done|]. exists []. split; [apply ran_refl; apply Hab|].
    destruct skip; constructor. by exists [].
  - eapply safe_mono; [eapply (suite_loop_safe w si (test_indices_ s) skip _ _ _ t0);
      [done|by exists s'| |exact Hpos|exact Hwait]|].
    + exists t0. split; [|done]. unfold tested. rewrite Hs'. cbn. by rewrite Ht.
    + intros w' r (-> & Hc & ss & Hran & Htr). split_and!; [done|done|]. exists ss. split; [|done].
      eapply ran_mono; [|exact Hran]. apply tests_places.
Qed.

(** The state with the suite sorted, which [TestSuite::Run] starts with. *)
Definition sorted_at si w : World U := with_unit w (update_suite si sort_tests (unit_ w)).

Lemma suite_starts w si s s1 :
  able w (None, None) -> suites_of (unit_ w) !! si = Some s1 -> erase_suite s1 = erase_suite s ->
  suite_should_run_ s1 = true -> in_suite (with_current w (Some si) (current_test_info_ w)) si s.
Proof.
  intros (Hw & Hq & Hc & Hcur) Hs Es Hr. injection Hcur as _ Hti. split; [|by exists s1].
  split_and!; [done|done|done|]. unfold cur. cbn. by rewrite Hti.
Qed.

(** Steps in a suite, seen from outside. *)
Lemma ran_around w w2 X ss a b c d :
  ran (with_current w a b) w2 X ss -> ran w (with_current w2 c d) X ss.
Proof. intros ([] & Hv & Hm). split_and!; [by split|done|exact Hm]. Qed.

Lemma TestSuite_Run_safe w si s :
  able w (None, None) -> suites_of (unit_ w) !! si = Some s -> ordered s -> fresh s ->
  safe (TestSuite_Run program system_clock steady_clock gtest_cc GetTestTypeId si) w
    (fun w' r => r = Val tt /\ cur w' = (None, None) /\ exists ss, suite_trace s ss /\
       ran (if suite_should_run_ s then sorted_at si w else w) w' (places_of si) ss).
Proof.
  intros Hab Hs Hord Hf. unfold TestSuite_Run. apply safe_bind. eapply suite_at_safe; [exact Hs|].
  destruct (suite_should_run_ s) eqn:Hrun; cbn [negb].
  2: { apply safe_ret. split_and!; [done|apply Hab|]. exists [].
       split; [by apply suite_not_run|apply ran_refl; apply Hab]. }
  assert (Hs0 : suites_of (unit_ (sorted_at si w)) !! si = Some (sort_tests s)).
  { cbn [sorted_at unit_ with_unit]. by rewrite suites_update_suite, list_lookup_alter_eq, Hs. }
  pose proof (sort_ordered _ Hord) as Hord'. pose proof (sort_fresh _ Hf) as Hf'.
  set (s0 := sort_tests s) in *.
  apply safe_bind, safe_modify, safe_bind, safe_modify.
  assert (Hin0 : in_suite (with_current (sorted_at si w) (Some si) (current_test_info_ w)) si s0)
    by (by eapply (suite_starts (sorted_at si w))).
  change (with_unit (with_current w (Some si) (current_test_info_ w)) _)
    with (with_current (sorted_at si w) (Some si) (current_test_info_ w)).
  set (w0 := with_current (sorted_at si w) _ _) in *.
  eapply suite_events_safe; [exact Hin0|done|done|]. intros w1 s1 H1 Hc1 Hu1 Es1.
  pose proof (in_suite_ran _ _ _ _ _ _ Hin0 H1 Hc1) as Hin1.
  eapply safe_unit; [by apply (suite_piece_safe _ si s0 SetUpTestSuite)|].
  intros w2 (up & Hup & Hwent2). destruct (in_suite_went _ _ _ _ _ Hin1 Hwent2) as [H2 Hc2].
  pose proof (in_suite_ran _ _ _ _ _ _ Hin1 H2 Hc2) as Hin2.
  pose proof Hin2 as [_ (s2 & Hs2 & Es2 & _)].
  pose proof (ran_trans _ _ _ _ _ _ H1 H2) as H02.
  assert (Htests : test_info_list_ s2 = test_info_list_ s0)
    by (by apply (tests_after w0 w2 si s0 s2 _ Hs0 H02)).
  assert (Hup_parts : test_part_results_ (ad_hoc_test_result_ s2) = parts_of up).
  { destruct (in_suite_ready _ _ _ Hin1) as [_ Hp1]. destruct Hwent2 as [Hd2 _]. rewrite Hp1 in Hd2.
    assert (Hp0 : parts_at (InSuite si) (unit_ w1) = Some []).
    { rewrite Hu1. unfold parts_at. cbn [result_at]. change (unit_ w0) with (unit_ (sorted_at si w)).
      rewrite Hs0. cbn. f_equal. apply Hf'. }
    pose proof (did_parts l _ _ _ _ _ Hd2 Hp0) as Hp2. unfold parts_at in Hp2. cbn [result_at] in Hp2.
    rewrite Hs2 in Hp2. by injection Hp2. }
  apply safe_bind. eapply suite_at_safe; [exact Hs2|].
  eapply (safe_val _ _ _ (fun w' b => w' = w2 /\ b = set_up_stops (parts_of up))).
  { destruct (Failed (ad_hoc_test_result_ s2)) eqn:Hfail.
    - apply safe_ret. eexists. split; [done|]. split; [done|]. unfold set_up_stops.
      unfold Failed in Hfail. by rewrite <- Hup_parts, Hfail.
    - apply safe_lift. eapply safe_outcome_mono; [apply Skipped_safe|]. intros b ->.
      eexists. split; [done|]. split; [done|]. unfold skipped_result, set_up_stops. rewrite Hfail.
      unfold Failed in Hfail. by rewrite <- Hup_parts, Hfail. }
  intros ? ? [-> ->]. rewrite Htests.
  eapply safe_val; [apply (clock_safe l), (in_suite_ready _ _ _ Hin2)|].
  intros w3 now (Hwent3 & Hu3). destruct (in_suite_went _ _ _ _ _ Hin2 Hwent3) as [H3 Hc3].
  pose proof (in_suite_ran _ _ _ _ _ _ Hin2 H3 Hc3) as Hin3.
  eapply safe_unit; [apply (suite_times_safe _ _ _ _ _ (eq (InSuite si)) Hin3)|].
  intros w4 (H4 & Hc4). pose proof (in_suite_ran _ _ _ _ _ _ Hin3 H4 Hc4) as Hin4.
  eapply safe_val; [apply (clock_safe l), (in_suite_ready _ _ _ Hin4)|].
  intros w5 timer (Hwent5 & Hu5). destruct (in_suite_went _ _ _ _ _ Hin4 Hwent5) as [H5 Hc5].
  pose proof (in_suite_ran _ _ _ _ _ _ Hin4 H5 Hc5) as Hin5.
  pose proof (ran_trans _ _ _ _ _ _ (ran_trans _ _ _ _ _ _ (ran_trans _ _ _ _ _ _ H02 H3) H4) H5) as H05.
  rewrite !app_nil_r in H05. clear H1 H2 H3 H4 H5 H02 Hwent2 Hwent3 Hwent5.
  pose proof Hin5 as [_ (s5 & Hs5 & Es5 & _)].
  eapply safe_unit; [eapply (suite_tests_safe _ si s0 s5); [done|done|done|exact Hs5|
    by apply (tests_after w0 w5 si s0 s5 _ Hs0 H05)]|].
  intros w6 (Hc6 & tests & H6 & Htr). pose proof (in_suite_ran _ _ _ _ _ _ Hin5 H6 Hc6) as Hin6.
  eapply safe_val; [apply (clock_safe l), (in_suite_ready _ _ _ Hin6)|].
  intros w7 elapsed (Hwent7 & Hu7). destruct (in_suite_went _ _ _ _ _ Hin6 Hwent7) as [H7 Hc7].
  pose proof (in_suite_ran _ _ _ _ _ _ Hin6 H7 Hc7) as Hin7.
  eapply safe_unit; [apply (suite_times_safe _ _ _ _ _ (eq (InSuite si)) Hin7)|].
  intros w8 (H8 & Hc8). pose proof (in_suite_ran _ _ _ _ _ _ Hin7 H8 Hc8) as Hin8.
  eapply safe_unit; [by apply (suite_piece_safe _ si s0 TearDownTestSuite)|].
  intros w9 (down & Hdown & Hwent9). destruct (in_suite_went _ _ _ _ _ Hin8 Hwent9) as [H9 Hc9].
  pose proof (in_suite_ran _ _ _ _ _ _ Hin8 H9 Hc9) as Hin9.
  pose proof (ran_trans _ _ _ _ _ _ (ran_trans _ _ _ _ _ _ H7 H8) H9) as H79. cbn [app] in H79.
  eapply suite_events_safe; [exact Hin9|done|done|]. intros w10 s10 H10 Hc10 Hu10 Es10.
  apply safe_modify. split; [done|].
  assert (Hcur : cur w10 = (Some si, None)) by (rewrite Hc10; apply Hin9).
  split; [by injection Hcur as _ Ht10; unfold cur; cbn; rewrite Ht10|].
  pose proof (ran_mono _ _ _ _ _ (suite_place si) H05) as G1.
  pose proof (ran_mono _ _ _ _ _ (suite_place si) (ran_trans _ _ _ _ _ _ H79 H10)) as G2.
  pose proof (ran_trans _ _ _ _ _ _ G1 (ran_trans _ _ _ _ _ _ H6 G2)) as G.
  eexists. split; [|apply (ran_around (sorted_at si w) w10 _ _ _ _ _ _ G)].
  pose proof (suite_run s s1 s10 up tests down Hrun Es1 Es10 Hup Htr Hdown) as Htrace.
  unfold suite_brackets in Htrace. rewrite <- !app_assoc in *. exact Htrace.
Qed.

Lemma TestSuite_Skip_safe w si s :
  able w (None, None) -> suites_of (unit_ w) !! si = Some s -> ordered s -> fresh s ->
  safe (TestSuite_Skip si) w
    (fun w' r => r = Val tt /\ cur w' = (None, None) /\ exists ss, suite_skip_trace s ss /\
       ran w w' (places_of si) ss).
Proof.
  intros Hab Hs Hord Hf. unfold TestSuite_Skip. apply safe_bind. eapply suite_at_safe; [exact Hs|].
  destruct (suite_should_run_ s) eqn:Hrun; cbn [negb].
  2: { apply safe_ret. split_and!; [done|apply Hab|]. exists [].
       split; [by apply suite_skip_not_run|apply ran_refl; apply Hab]. }
  apply safe_bind, safe_modify.
  assert (Hin0 : in_suite (with_current w (Some si) (current_test_info_ w)) si s)
    by (by eapply suite_starts).
  set (w0 := with_current w _ _) in *.
  eapply suite_events_safe; [exact Hin0|done|done|]. intros w1 s1 H1 Hc1 Hu1 Es1.
  pose proof (in_suite_ran _ _ _ _ _ _ Hin0 H1 Hc1) as Hin1.
  destruct (is_order_spec _ _ Hord) as (_ & Hpos & _).
  assert (Hs1 : suites_of (unit_ w1) !! si = Some s) by (rewrite Hu1; exact Hs).
  eapply safe_unit.
  { eapply Skip_all_safe; [apply Hin1|by exists s|exact Hpos|by apply (waiting_start w1 si s s)]. }
  intros w2 (Hc2 & tests & H2 & Hsk). pose proof (in_suite_ran _ _ _ _ _ _ Hin1 H2 Hc2) as Hin2.
  eapply suite_events_safe; [exact Hin2|done|done|]. intros w3 s3 H3 Hc3 Hu3 Es3.
  apply safe_modify. split; [done|].
  assert (Hcur : cur w3 = (Some si, None)) by (rewrite Hc3; apply Hin2).
  split; [by injection Hcur as _ Ht3; unfold cur; cbn; rewrite Ht3|].
  pose proof (ran_mono _ _ _ _ _ (suite_place si) H1) as G1.
  pose proof (ran_mono _ _ _ _ _ (tests_places si _) H2) as G2.
  pose proof (ran_mono _ _ _ _ _ (suite_place si) H3) as G3.
  pose proof (ran_trans _ _ _ _ _ _ G1 (ran_trans _ _ _ _ _ _ G2 G3)) as G.
  eexists. split; [|apply (ran_around w w3 _ _ _ _ _ _ G)].
  exact (suite_skipped s s1 s3 tests Hrun Es1 Es3 Hsk).
Qed.

End suite.
