(* ===== verification/RunnerProgram.v ===== *)
(** * The whole program: iterations, environments and the exit code *)

From S2P Require Import Prelude Outcome Common CStr FilePath TestFilter TestResult TestSelect UnitTest ReportFormat CommandLine XmlReport XmlTheorems JsonReport Listeners Runner RunnerSteps RunnerTest RunnerSuite.

(** ** The same program *)

(** What a suite and the program are apart from results, times and the order
    within a suite. *)
Definition form_suite (s : TestSuite) : TestSuite := sort_tests (erase_suite s).
Definition form (u : UnitTest) : UnitTest :=
  set_suites (with_unit_times (with_ad_hoc u new_TestResult) 0 0) (map form_suite (suites_of u)).

(** A suite without its times. *)
Definition timeless (s : TestSuite) : TestSuite := with_times s 0 0.

(** No test part is at a place that does not run. *)
Definition clean (u : UnitTest) : Prop :=
  forall q k, ~ runs u q -> parts_at q u = Some k -> k = [].

(** Every place of [u] has its counterpart in [u']. *)
Definition mirrors (u u' : UnitTest) : Prop :=
  forall q r, result_at q u = Some r -> exists q', result_at q' u' = Some r /\ (runs u' q' <-> runs u q).

Lemma mirrors_recorded u u' pr : mirrors u u' -> recorded u pr -> recorded u' pr.
Proof.
  intros H (q & k & Hk & Hpr). unfold parts_at in Hk. destruct (result_at q u) as [r|] eqn:Hr; [|done].
  injection Hk as <-. destruct (H q r Hr) as (q' & Hr' & _). exists q', (test_part_results_ r).
  split; [|done]. unfold parts_at. by rewrite Hr'.
Qed.

Lemma mirrors_clean u u' : mirrors u' u -> clean u -> clean u'.
Proof.
  intros H Hc q k Hq Hk. unfold parts_at in Hk. destruct (result_at q u') as [r|] eqn:Hr; [|done].
  injection Hk as <-. destruct (H q r Hr) as (q' & Hr' & Hiff). apply (Hc q'); [by rewrite Hiff|].
  unfold parts_at. by rewrite Hr'.
Qed.

(** Suites that differ in the order of their tests. *)
Definition similar (s s' : TestSuite) : Prop :=
  test_info_list_ s' ≡ₚ test_info_list_ s /\ suite_should_run_ s' = suite_should_run_ s /\
  ad_hoc_test_result_ s' = ad_hoc_test_result_ s.

#[export] Instance similar_equiv : Equivalence similar.
Proof.
  split.
  - by intros s.
  - intros s s' (H1 & H2 & H3). by split_and!.
  - intros s1 s2 s3 (H1 & H2 & H3) (G1 & G2 & G3). split_and!; [by rewrite G1|congruence|congruence].
Qed.

Lemma similar_mirrors u u' :
  Forall2 similar (suites_of u) (suites_of u') -> unit_ad_hoc u' = unit_ad_hoc u -> mirrors u u'.
Proof.
  intros Hs Hu [sj ti|sj|] r; cbn [result_at].
  - destruct (suites_of u !! sj) as [s|] eqn:Es; [|done]. cbn [mbind option_bind].
    destruct (test_info_list_ s !! ti) as [t|] eqn:Et; [|done]. intros [= <-].
    destruct (Forall2_lookup_l _ _ _ _ _ Hs Es) as (s' & Es' & Hp & Hr & _).
    apply list_elem_of_lookup_2 in Et as Hin. rewrite <- Hp in Hin.
    apply list_elem_of_lookup in Hin as [tj Et']. exists (InTest sj tj). cbn. rewrite Es'. cbn.
    rewrite Et'. split; [done|]. split; intros (a & b & Ha & Hb & ?); simplify_eq.
    + exists s, t. by rewrite <- Hr.
    + exists s', t. by rewrite Hr.
  - destruct (suites_of u !! sj) as [s|] eqn:Es; [|done]. intros [= <-].
    destruct (Forall2_lookup_l _ _ _ _ _ Hs Es) as (s' & Es' & _ & Hr & Ha).
    exists (InSuite sj). cbn. rewrite Es'. cbn. rewrite Ha. split; [done|].
    split; intros (a & Hx & ?); simplify_eq; eexists; (split; [done|congruence]).
  - intros [= <-]. exists InProgram. cbn. by rewrite Hu.
Qed.

Lemma Forall2_alter {A} (R : A -> A -> Prop) `{!Reflexive R} f (i : nat) (l : list A) :
  (forall x, R x (f x)) -> Forall2 R l (alter f i l).
Proof.
  intros H. revert i; induction l as [|x l IH]; intros [|i]; cbn; constructor.
  - apply H.
  - by apply Forall_Forall2_diag, Forall_true.
  - done.
  - apply IH.
Qed.

Lemma sort_similar s : similar s (sort_tests s).
Proof. split; [|done]. apply stable_sort_perm. Qed.

Lemma sorted_similar si u : Forall2 similar (suites_of u) (suites_of (update_suite si sort_tests u)).
Proof. rewrite suites_update_suite. apply Forall2_alter; [apply _|apply sort_similar]. Qed.

Lemma form_suite_sorted s : form_suite (sort_tests s) = form_suite s.
Proof. unfold form_suite. by rewrite erase_sort, sort_tests_idem. Qed.

Lemma form_sorted si u : form (update_suite si sort_tests u) = form u.
Proof.
  unfold form. rewrite suites_update_suite, (map_alter_id form_suite) by apply form_suite_sorted. done.
Qed.

Lemma static_form u u' : static u' = static u -> form u' = form u.
Proof.
  assert (E : forall u, form u = set_suites (static u) (map sort_tests (suites_of (static u)))).
  { intros v. unfold form, static. cbn. unfold suites_of, set_suites. cbn. by rewrite map_map. }
  intros H. by rewrite !E, H.
Qed.

(** ** Results and the verdict *)

Lemma count_suites_safe f p suites :
  (forall s, safe_outcome (f s) (fun b => b = p s)) ->
  safe_outcome (count_suites f suites) (fun n => (0 <? n) = existsb p suites).
Proof.
  intros Hf. unfold count_suites.
  enough (G : forall n, 0 <= n -> safe_outcome
     (foldl (fun count s => n ← count; b ← f s; if b : bool then iadd n 1 else Ok n) (Ok n) suites)
     (fun m => n <= m /\ (0 <? m) = (0 <? n) || existsb p suites)).
  { eapply safe_outcome_mono; [apply (G 0); lia|]. intros n [_ H]. exact H. }
  assert (Hstop : forall l, safe_outcome (foldl (fun count s => n ← count; b ← f s;
      if b : bool then iadd n 1 else Ok n) (Err IntOverflow) l) (fun _ : Z => False)).
  { induction l as [|y l IH']; [done|]. exact IH'. }
  induction suites as [|s suites IH]; intros n Hn; cbn [foldl existsb].
  - cbn. rewrite orb_false_r. split; [lia|done].
  - rewrite bind_ok. pose proof (Hf s) as Hs. destruct (f s) as [b|[]]; try done.
    + rewrite bind_ok. cbn in Hs. subst b. destruct (p s) eqn:Ep.
      * unfold iadd. destruct (int_ok (n + 1)).
        -- eapply safe_outcome_mono; [apply IH; lia|]. intros m [Hm _]. split; [lia|].
           rewrite (proj2 (Z.ltb_lt 0 m)) by lia. by rewrite orb_true_r.
        -- eapply safe_outcome_mono; [apply Hstop|]. done.
      * eapply safe_outcome_mono; [by apply IH|]. done.
    + eapply safe_outcome_mono; [apply Hstop|]. done.
Qed.

Definition suite_fails (s : TestSuite) : bool :=
  existsb TestFailed (test_info_list_ s) || Failed (ad_hoc_test_result_ s).

Lemma suite_Failed_safe s : safe_outcome (suite_Failed s) (fun b => b = suite_fails s).
Proof.
  unfold suite_Failed. apply safe_outcome_bind. eapply safe_outcome_mono; [apply CountIf_safe|].
  intros n H. cbn. unfold suite_fails. by rewrite H.
Qed.

(** The parts at a place. *)
Lemma parts_at_spec p u k :
  parts_at p u = Some k <->
  match p with
  | InTest si ti => exists s t, suites_of u !! si = Some s /\ test_info_list_ s !! ti = Some t /\
                                k = test_part_results_ (result_ t)
  | InSuite si => exists s, suites_of u !! si = Some s /\ k = test_part_results_ (ad_hoc_test_result_ s)
  | InProgram => k = test_part_results_ (unit_ad_hoc u)
  end.
Proof.
  unfold parts_at. destruct p as [si ti|si|]; cbn [result_at].
  - destruct (suites_of u !! si) as [s|]; cbn [mbind option_bind].
    + destruct (test_info_list_ s !! ti) as [t|] eqn:Et; cbn; split; try naive_solver.
    + split; [done|]. by intros (? & ? & ? & _).
  - destruct (suites_of u !! si) as [s|]; cbn; split; naive_solver.
  - cbn. naive_solver.
Qed.

(** A failed test or suite has a failed part at a place that runs. *)
Lemma suite_fails_spec u :
  existsb (fun s => suite_should_run_ s && suite_fails s) (suites_of u) = true <->
  exists q k pr, q <> InProgram /\ runs u q /\ parts_at q u = Some k /\ pr ∈ k /\ failed pr = true.
Proof.
  rewrite existsb_elem. unfold suite_fails. split.
  - intros (s & [si Es]%list_elem_of_lookup & [Er [Hf|Hf]%orb_true_iff]%andb_true_iff).
    + apply existsb_elem in Hf as (t & [ti Et]%list_elem_of_lookup & [Ht Hf]%andb_true_iff).
      apply existsb_elem in Hf as (pr & Hpr & Hf). exists (InTest si ti), (test_part_results_ (result_ t)), pr.
      split_and!; [done|by exists s, t| |done|done]. apply parts_at_spec. eauto.
    + apply existsb_elem in Hf as (pr & Hpr & Hf).
      exists (InSuite si), (test_part_results_ (ad_hoc_test_result_ s)), pr.
      split_and!; [done|by exists s| |done|done]. apply parts_at_spec. eauto.
  - intros ([si ti|si|] & k & pr & Hq & Hr & Hk & Hpr & Hf); [| |done]; apply parts_at_spec in Hk.
    + destruct Hk as (s & t & Es & Et & ->), Hr as (s' & t' & Es' & Et' & Hrs & Hrt).
      assert (s' = s) as -> by congruence. assert (t' = t) as -> by congruence.
      exists s. split; [by eapply list_elem_of_lookup_2|]. rewrite Hrs. apply orb_true_iff. left.
      apply existsb_elem. exists t. split; [by eapply list_elem_of_lookup_2|].
      unfold TestFailed, Failed. rewrite Hrt. apply existsb_elem. by exists pr.
    + destruct Hk as (s & Es & ->), Hr as (s' & Es' & Hrs). assert (s' = s) as -> by congruence.
      exists s. split; [by eapply list_elem_of_lookup_2|]. rewrite Hrs. apply orb_true_iff. right.
      apply existsb_elem. by exists pr.
Qed.

#[export] Instance runs_dec u q : Decision (runs u q).
Proof.
  destruct q as [si ti|si|]; cbn; [| |by left].
  - destruct (suites_of u !! si) as [s|]; [|by right; intros (? & ? & ? & _)].
    destruct (test_info_list_ s !! ti) as [t|] eqn:Et;
      [|right; intros (? & ? & [= ->] & ? & _); congruence].
    destruct (suite_should_run_ s && should_run_ t) eqn:Er.
    + left. apply andb_true_iff in Er as [? ?]. by exists s, t.
    + right. intros (s' & t' & [= ->] & Ht & H1 & H2). assert (t' = t) as -> by congruence.
      by rewrite H1, H2 in Er.
  - destruct (suites_of u !! si) as [s|]; [|by right; intros (? & ? & _)].
    destruct (suite_should_run_ s) eqn:Er; [by left; exists s|]. right. intros (? & [= ->] & ?). congruence.
Defined.

Lemma unit_Passed_safe u :
  clean u ->
  safe_outcome (unit_Passed u) (fun b => b = true <-> forall pr, recorded u pr -> failed pr = false).
Proof.
  intros Hclean. unfold unit_Passed, unit_Failed. apply safe_outcome_bind, safe_outcome_bind.
  eapply safe_outcome_mono.
  { apply (count_suites_safe _ (fun s => suite_should_run_ s && suite_fails s)). intros s.
    unfold TestSuiteFailed. destruct (suite_should_run_ s); [apply suite_Failed_safe|done]. }
  intros n ->. cbn [safe_outcome]. rewrite negb_true_iff, <- not_true_iff_false, orb_true_iff.
  change (test_suites_ (unit_suites u)) with (suites_of u). rewrite suite_fails_spec.
  unfold Failed. rewrite existsb_elem. split.
  - intros H pr (q & k & Hk & Hpr). apply not_true_iff_false. intros Hf. apply H.
    destruct (decide (q = InProgram)) as [->|Hq].
    + apply parts_at_spec in Hk as ->. right. by exists pr.
    + left. exists q, k, pr. split_and!; try done. destruct (decide (runs u q)) as [|Hn]; [done|].
      rewrite (Hclean q k Hn Hk) in Hpr. by apply elem_of_nil in Hpr.
  - intros H [(q & k & pr & _ & _ & Hk & Hpr & Hf)|(pr & Hpr & Hf)].
    + rewrite H in Hf; [done|]. by exists q, k.
    + rewrite H in Hf; [done|]. exists InProgram, (test_part_results_ (unit_ad_hoc u)).
      split; [by apply parts_at_spec|done].
Qed.

(** ** What a program does *)

Definition suites_skipped (suites : list TestSuite) (ss : list Seen) : Prop :=
  exists sss, Forall2 suite_skip_trace suites sss /\ ss = concat sss.

Section steps.
Context {constructors : Constructors}.

(** The suites one after the other; after a failed suite the rest may be skipped
    ([--gtest_fail_fast]). *)
Inductive suites_trace : list TestSuite -> list Seen -> Prop :=
  | suites_none : suites_trace [] []
  | suites_run s suites s1 s2 : suite_trace s s1 -> suites_trace suites s2 ->
      suites_trace (s :: suites) (s1 ++ s2)
  | suites_stop s suites s1 s2 : suite_trace s s1 -> existsb failed (parts_of s1) = true ->
      suites_skipped suites s2 -> suites_trace (s :: suites) (s1 ++ s2).

(** What follows the set-up of the environments, by the parts outside of tests:
    nothing after a skip, skipped suites after a fatal failure. *)
Definition tests_part (ad_hoc : list TestPartResult) (suites : list TestSuite) (ss : list Seen) : Prop :=
  if negb (existsb failed ad_hoc) && existsb skipped ad_hoc then ss = []
  else if existsb fatally_failed ad_hoc then suites_skipped suites ss else suites_trace suites ss.

(** The suites in the order of the run. *)
Definition suites_to_run (u : UnitTest) : list TestSuite :=
  omap (fun i => suites_of u !! Z.to_nat i) (test_suite_indices_ (unit_suites u)).

(** Steps between two events about the program. *)
Definition spanned (start end_ : UnitTest -> Event) (u : UnitTest) (mid ss : list Seen) : Prop :=
  exists u1 u2, form u1 = form u /\ form u2 = form u /\ ss = Saw (start u1) :: mid ++ [Saw (end_ u2)].

(** The set-up or tear-down of the environments. *)
Definition environment_part (happens : bool) (c : Z -> UserCode) (start end_ : UnitTest -> Event)
    (envs : list Z) (u : UnitTest) (ss : list Seen) : Prop :=
  if happens then exists pss, Forall2 (fun env ps => piece (c env) ps) envs pss /\
                              spanned start end_ u (concat pss) ss
  else ss = [].

(** The steps of one iteration of the program [u] and the parts outside of tests
    before and after it. *)
Definition iteration_trace (u : UnitTest) (i : Z) (set_up tear_down has_tests : bool)
    (before : list TestPartResult) (ss : list Seen) (after : list TestPartResult) : Prop :=
  exists mid, spanned (fun u => OnTestIterationStart u i) (fun u => OnTestIterationEnd u i) u mid ss /\
    if has_tests then exists up run down, mid = up ++ run ++ down /\
      environment_part set_up EnvSetUp OnEnvironmentsSetUpStart OnEnvironmentsSetUpEnd
        (environments_ u) u up /\
      tests_part (before ++ parts_of up) (suites_to_run u) run /\
      environment_part tear_down EnvTearDown OnEnvironmentsTearDownStart OnEnvironmentsTearDownEnd
        (rev (environments_ u)) u down /\
      after = before ++ parts_of up ++ parts_of down
    else mid = [] /\ after = before.

(** The iterations from [i] on. *)
Inductive iterations_trace (P : UnitTest -> Prop) (repeat : Z) (recreate has_tests : bool)
    : Z -> list TestPartResult -> list Seen -> Prop :=
  | iterations_end before : iterations_trace P repeat recreate has_tests repeat before []
  | iterations_next i before u s1 after s2 :
      i <> repeat -> P u ->
      iteration_trace u i ((i =? 0) || recreate) ((i =? repeat - 1) || recreate) has_tests before s1 after ->
      iterations_trace P repeat recreate has_tests (i + 1) after s2 ->
      iterations_trace P repeat recreate has_tests i before (s1 ++ s2).

End steps.

(** ** Steps of the program *)

Section program.
Context {U : Type} (program : UserCode -> U -> body U) (system_clock steady_clock : nat -> Z)
  (gtest_cc : text) (GetTestTypeId : Z) (l : Listener).
Hypothesis Hcivil : civil program.
Implicit Types w : World U.
#[local] Instance own_constructors : Constructors := constructors_of program gtest_cc l.

(** Between [u] and [u'] the parts [ps] were added, at places that run. *)
Record progress (u u' : UnitTest) (ps : list TestPartResult) : Prop := {
  progress_form : form u' = form u;
  progress_clean : clean u -> clean u';
  progress_recorded : forall pr, recorded u' pr <-> recorded u pr \/ pr ∈ ps }.

Lemma progress_refl u : progress u u [].
Proof. split; [done|done|]. intros pr. split; [by left|]. by intros [?|?%elem_of_nil]. Qed.
Lemma progress_trans u1 u2 u3 ps qs :
  progress u1 u2 ps -> progress u2 u3 qs -> progress u1 u3 (ps ++ qs).
Proof.
  intros [F1 C1 R1] [F2 C2 R2]. split; [congruence|auto|].
  intros pr. rewrite R2, R1, elem_of_app. tauto.
Qed.

Lemma moved_progress X u u' ps : moved X u u' ps -> progress u u' ps.
Proof.
  intros [Hs _ Hi _ Hr]. split; [by apply static_form| |exact Hr].
  intros Hc q k Hq Hk. assert (Hq' : ~ runs u q) by (intros H; apply Hq; by eapply runs_static).
  rewrite (Hi q Hq') in Hk. by eapply Hc.
Qed.

Lemma sorted_progress si u : progress u (update_suite si sort_tests u) [].
Proof.
  pose proof (sorted_similar si u) as H.
  assert (M1 : mirrors u (update_suite si sort_tests u)) by (by apply similar_mirrors).
  assert (M2 : mirrors (update_suite si sort_tests u) u).
  { apply similar_mirrors; [|done]. apply Forall2_flip. eapply Forall2_impl; [exact H|].
    intros s s' Hss. by apply (@symmetry _ similar _). }
  split; [apply form_sorted|by apply mirrors_clean|].
  intros pr. split; [intros Hr; left; by eapply mirrors_recorded|].
  intros [Hr|?%elem_of_nil]; [by eapply mirrors_recorded|done].
Qed.

Definition advanced w w' (ss : list Seen) : Prop :=
  frame w w' /\ view l (steps w') = view l (steps w) ++ ss /\
  progress (unit_ w) (unit_ w') (parts_of ss).

Lemma advanced_trans w1 w2 w3 s1 s2 : advanced w1 w2 s1 -> advanced w2 w3 s2 -> advanced w1 w3 (s1 ++ s2).
Proof.
  intros (F1 & V1 & M1) (F2 & V2 & M2). split; [by eapply frame_trans|].
  split; [by rewrite V2, V1, app_assoc|]. rewrite parts_of_app. by eapply progress_trans.
Qed.
Lemma advanced_refl w : quiet (flags_ w) -> advanced w w [].
Proof. intros H. split_and!; [by apply frame_refl|by rewrite app_nil_r|apply progress_refl]. Qed.
Lemma ran_advanced w w' X ss : ran l w w' X ss -> advanced w w' ss.
Proof. intros (F & V & M). split_and!; [done|done|by eapply moved_progress]. Qed.

(** Between suites. *)
Definition between w : Prop := able l w (None, None).

Lemma between_advanced w w' ss : between w -> advanced w w' ss -> cur w' = (None, None) -> between w'.
Proof.
  intros (Hw & Hq & Hc & Hcur) ([Hl Hcc _ _ Hq'] & _) E. split_and!; try done.
  - unfold watched. by rewrite Hl.
  - congruence.
Qed.

Lemma between_ready w : between w -> ready l w /\ place w = InProgram.
Proof.
  intros (Hw & Hq & Hc & Hcur). injection Hcur as Hs Ht.
  assert (Hp : place w = InProgram) by (unfold place; by rewrite Ht, Hs).
  split; [|done]. split_and!; [done|done|]. rewrite Hp. by eexists.
Qed.

(** The parts outside of tests. *)
Definition ad_hoc w : list TestPartResult := test_part_results_ (unit_ad_hoc (unit_ w)).

(** The other suites stay as they are. *)
Definition keeps si (w w' : World U) : Prop :=
  ad_hoc w' = ad_hoc w /\
  forall sj s, sj <> si -> suites_of (unit_ w) !! sj = Some s ->
    exists s', suites_of (unit_ w') !! sj = Some s' /\ timeless s' = timeless s.

(** A suite at whose places nothing happens. *)
Lemma ran_suite w w' (X : Place -> Prop) sj s ss :
  ran l w w' X ss -> (forall q, X q -> ~ places_of sj q) -> suites_of (unit_ w) !! sj = Some s ->
  exists s', suites_of (unit_ w') !! sj = Some s' /\ timeless s' = timeless s.
Proof.
  intros (_ & _ & [Hst Ho _ _ _]) HX Hs. destruct (static_suite _ _ _ _ Hst Hs) as (s' & Hs' & Es).
  exists s'. split; [done|].
  assert (Ha : ad_hoc_test_result_ s' = ad_hoc_test_result_ s).
  { assert (H : result_at (InSuite sj) (unit_ w') = result_at (InSuite sj) (unit_ w)).
    { apply Ho. intros H. apply (HX _ H). by left. }
    cbn [result_at] in H. rewrite Hs, Hs' in H. by injection H. }
  assert (Ht : test_info_list_ s' = test_info_list_ s).
  { apply list_eq. intros ti. destruct (test_info_list_ s !! ti) as [t|] eqn:Et.
    - assert (G : tested (unit_ w) sj ti = Some t) by (unfold tested; by rewrite Hs).
      apply (tested_same _ (unit_ w')) in G; [|done|].
      + unfold tested in G. by rewrite Hs' in G.
      + apply Ho. intros H. apply (HX _ H). right. by exists ti.
    - apply lookup_ge_None in Et. apply lookup_ge_None. etransitivity; [|exact Et].
      apply (f_equal (fun s => length (test_info_list_ s))) in Es. cbn in Es. rewrite !length_map in Es. lia. }
  unfold timeless, with_times. unfold erase_suite, with_times, with_tests in Es.
  injection Es as -> -> _ -> -> -> ->. by rewrite Ha, Ht.
Qed.

Lemma ran_keeps w w' si ss : ran l w w' (places_of si) ss -> keeps si w w'.
Proof.
  intros H. split.
  - destruct H as (_ & _ & [_ Ho _ _ _]). unfold ad_hoc.
    assert (G : result_at InProgram (unit_ w') = result_at InProgram (unit_ w)).
    { apply Ho. intros [?|[? ?]]; done. }
    by injection G as ->.
  - intros sj s Hj Hs. eapply ran_suite; [exact H| |exact Hs].
    intros q [->|[ti ->]] [|[tj ?]]; congruence.
Qed.

(** A suite without its times does the same. *)
Lemma timeless_fields s s' : timeless s' = timeless s ->
  test_info_list_ s' = test_info_list_ s /\ test_indices_ s' = test_indices_ s /\
  set_up_tc_ s' = set_up_tc_ s /\ tear_down_tc_ s' = tear_down_tc_ s /\
  suite_should_run_ s' = suite_should_run_ s /\ ad_hoc_test_result_ s' = ad_hoc_test_result_ s /\
  erase_suite s' = erase_suite s /\ sort_tests s' = with_times (sort_tests s) (suite_start_timestamp_ s') (suite_elapsed_time_ s').
Proof.
  destruct s, s'. unfold timeless, with_times. cbn. intros H. injection H as -> -> -> -> -> -> -> ->. done.
Qed.

Lemma timeless_ok s s' : timeless s' = timeless s -> (ordered s -> ordered s') /\ (fresh s -> fresh s').
Proof.
  intros H. destruct (timeless_fields _ _ H) as (Ht & Hi & _ & _ & _ & Ha & _).
  unfold ordered, fresh. by rewrite Ht, Hi, Ha.
Qed.

Lemma suite_trace_timeless s s' ss : timeless s' = timeless s -> suite_trace s' ss -> suite_trace s ss.
Proof.
  intros H. destruct (timeless_fields _ _ H) as (_ & _ & Hu & Hd & Hr & _ & _ & Hsort).
  intros [Hnot|s1 s2 up tests down Hrun E1 E2 Hup Htr Hdown]; [apply suite_not_run; congruence|].
  rewrite Hsort in Htr, E1, E2. rewrite Hu in Hup. rewrite Hd in Hdown.
  apply suite_run; [congruence|exact E1|exact E2|exact Hup|exact Htr|exact Hdown].
Qed.

Lemma suite_skip_trace_timeless s s' ss :
  timeless s' = timeless s -> suite_skip_trace s' ss -> suite_skip_trace s ss.
Proof.
  intros H. destruct (timeless_fields _ _ H) as (Ht & Hi & _ & _ & Hr & _ & He & _).
  intros [Hnot|s1 s2 tests Hrun E1 E2 Hsk]; [apply suite_skip_not_run; congruence|].
  apply suite_skipped; [congruence|congruence|congruence|]. unfold tests_in_order in *.
  by rewrite Ht, Hi in Hsk.
Qed.

(** A suite that was fresh has failed only if a failure was seen. *)
Lemma suite_fails_seen w w' X si s s' ss :
  suites_of (unit_ w) !! si = Some s -> fresh s -> ran l w w' X ss ->
  suites_of (unit_ w') !! si = Some s' -> suite_fails s' = true -> existsb failed (parts_of ss) = true.
Proof.
  intros Hs [Hf1 Hf2] (_ & _ & [Hst _ _ Ha _]) Hs' Hf. apply existsb_elem.
  apply orb_true_iff in Hf as [Hf|Hf].
  - apply existsb_elem in Hf as (t' & [ti Et']%list_elem_of_lookup & [_ Hf]%andb_true_iff).
    apply existsb_elem in Hf as (pr & Hpr & Hf). exists pr. split; [|done].
    destruct (Ha (InTest si ti) (test_part_results_ (result_ t')) pr) as [|(k & Hk & Hk')];
      [apply parts_at_spec; eauto|done|done|].
    apply parts_at_spec in Hk as (s0 & t & Hs0 & Et & ->). assert (s0 = s) as -> by congruence.
    rewrite Forall_forall in Hf2. rewrite (Hf2 t) in Hk'; [by apply elem_of_nil in Hk'|].
    by eapply list_elem_of_lookup_2.
  - apply existsb_elem in Hf as (pr & Hpr & Hf). exists pr. split; [|done].
    destruct (Ha (InSuite si) (test_part_results_ (ad_hoc_test_result_ s')) pr) as [|(k & Hk & Hk')];
      [apply parts_at_spec; eauto|done|done|].
    apply parts_at_spec in Hk as (s0 & Hs0 & ->). assert (s0 = s) as -> by congruence.
    rewrite Hf1 in Hk'. by apply elem_of_nil in Hk'.
Qed.

(** One suite of the program. *)
Lemma suite_run_safe w si s s0 :
  between w -> suites_of (unit_ w) !! si = Some s0 -> timeless s0 = timeless s -> ordered s -> fresh s ->
  safe (TestSuite_Run program system_clock steady_clock gtest_cc GetTestTypeId si) w
    (fun w' r => r = Val tt /\ cur w' = (None, None) /\ exists ss, suite_trace s ss /\
       advanced w w' ss /\ keeps si w w' /\
       exists s', suites_of (unit_ w') !! si = Some s' /\
                  (suite_fails s' = true -> existsb failed (parts_of ss) = true)).
Proof.
  intros Hb Hs Ht Ho Hf. destruct (timeless_ok _ _ Ht) as [Ho0 Hf0].
  eapply safe_mono; [eapply (TestSuite_Run_safe _ _ _ _ _ l); [done|exact Hb|exact Hs|auto|auto]|].
  intros w' r (-> & Hc & ss & Htr & Hran). split_and!; [done|done|]. exists ss.
  split; [by eapply suite_trace_timeless|].
  set (v := if suite_should_run_ s0 then sorted_at si w else w) in *.
  assert (Hv : exists s1, suites_of (unit_ v) !! si = Some s1 /\ fresh s1).
  { unfold v. destruct (suite_should_run_ s0); [|eauto]. exists (sort_tests s0).
    split; [|by apply sort_fresh; auto]. cbn [sorted_at unit_ with_unit].
    by rewrite suites_update_suite, list_lookup_alter_eq, Hs. }
  destruct Hv as (s1 & Hs1 & Hf1). split_and!.
  - apply (advanced_trans _ v _ []); [|by eapply ran_advanced]. unfold v.
    destruct (suite_should_run_ s0); [|apply advanced_refl; apply Hb].
    split_and!; [split; try done; apply Hb|by rewrite app_nil_r|apply sorted_progress].
  - destruct (ran_keeps _ _ _ _ Hran) as [Ha Hk]. split.
    + rewrite Ha. unfold v. by destruct (suite_should_run_ s0).
    + intros sj s2 Hj Hsj. apply Hk; [done|]. unfold v. destruct (suite_should_run_ s0); [|done].
      cbn [sorted_at unit_ with_unit]. by rewrite suites_update_suite, list_lookup_alter_ne.
  - pose proof Hran as (_ & _ & [Hst _ _ _ _]). destruct (static_suite _ _ _ _ Hst Hs1) as (s' & Hs' & _).
    exists s'. split; [done|]. intros Hfail. by eapply (suite_fails_seen v w').
Qed.

Lemma suite_skip_safe w si s s0 :
  between w -> suites_of (unit_ w) !! si = Some s0 -> timeless s0 = timeless s -> ordered s -> fresh s ->
  safe (TestSuite_Skip si) w
    (fun w' r => r = Val tt /\ cur w' = (None, None) /\ exists ss, suite_skip_trace s ss /\
       advanced w w' ss /\ keeps si w w').
Proof.
  intros Hb Hs Ht Ho Hf. destruct (timeless_ok _ _ Ht) as [Ho0 Hf0].
  eapply safe_mono; [eapply (TestSuite_Skip_safe l); [exact Hb|exact Hs|auto|auto]|].
  intros w' r (-> & Hc & ss & Htr & Hran). split_and!; [done|done|]. exists ss.
  split; [by eapply suite_skip_trace_timeless|]. split; [by eapply ran_advanced|by eapply ran_keeps].
Qed.

(** ** All suites *)

(** The suites at the positions have not run. *)
Definition suites_wait w (positions : list nat) (suites : list TestSuite) : Prop :=
  NoDup positions /\
  Forall2 (fun si s => ordered s /\ fresh s /\
             exists s0, suites_of (unit_ w) !! si = Some s0 /\ timeless s0 = timeless s) positions suites.

Lemma suites_wait_keeps w w' si positions s suites :
  suites_wait w (si :: positions) (s :: suites) -> keeps si w w' -> suites_wait w' positions suites.
Proof.
  intros [Hnd H] [_ Hk]. apply NoDup_cons in Hnd as [Hsi Hnd]. apply Forall2_cons in H as [_ H].
  split; [done|]. apply Forall2_same_length_lookup. apply Forall2_same_length_lookup in H as [Hlen H].
  split; [done|]. intros j sj s' Hj Hs'. destruct (H j sj s' Hj Hs') as (Ho & Hf & s0 & Hs0 & Ht).
  split_and!; [done|done|]. destruct (Hk sj s0) as (s1 & Hs1 & Ht1); [|done|exists s1; split; congruence].
  intros ->. apply list_elem_of_lookup_2 in Hj. done.
Qed.

(** The order of the suites. *)
Definition order_is w (idx : list Z) : Prop := test_suite_indices_ (unit_suites (unit_ w)) = idx.

Lemma order_advanced w w' ss idx : advanced w w' ss -> order_is w idx -> order_is w' idx.
Proof.
  unfold order_is. intros (_ & _ & [Hform _ _]) <-.
  by apply (f_equal (fun u => test_suite_indices_ (unit_suites u))) in Hform.
Qed.

Lemma suite_position_safe w idx i si Q :
  order_is w idx -> GetElementOr idx (Z.of_nat i) (-1) = Z.of_nat si -> Q w (Val si) ->
  safe (suite_position i) w Q.
Proof.
  intros <- Hi H. unfold suite_position. apply safe_bind, safe_get. cbv zeta.
  rewrite Hi, (proj2 (Z.ltb_ge (Z.of_nat si) 0)), Nat2Z.id by lia. by apply safe_ret.
Qed.

Lemma skip_suites_safe w idx is_ positions suites :
  between w -> order_is w idx ->
  Forall2 (fun i si => GetElementOr idx (Z.of_nat i) (-1) = Z.of_nat si) is_ positions ->
  suites_wait w positions suites ->
  safe (for_each is_ suite_Skip_nth) w (fun w' r => r = Val tt /\ cur w' = (None, None) /\
    ad_hoc w' = ad_hoc w /\ exists ss, advanced w w' ss /\ suites_skipped suites ss).
Proof.
  intros Hb Hidx Hpos. revert w suites Hb Hidx.
  induction Hpos as [|i si is_ positions Hi _ IH]; intros w suites Hb Hidx Hwait.
  { destruct Hwait as [_ H]. apply Forall2_nil_inv_l in H as ->. apply safe_ret.
    split_and!; [done|apply Hb|done|]. exists []. split; [apply advanced_refl; apply Hb|]. by exists []. }
  pose proof Hwait as [_ H2]. apply Forall2_cons_inv_l in H2 as (s & suites' & (Ho & Hf & s0 & Hs0 & Ht) & _ & ->).
  cbn [for_each]. unfold suite_Skip_nth at 1.
  apply safe_bind, safe_bind. eapply suite_position_safe; [exact Hidx|exact Hi|].
  eapply safe_mono; [by eapply suite_skip_safe|].
  intros w1 r (-> & Hc1 & s1 & Htr & H1 & Hk1).
  eapply safe_mono; [apply IH; [by eapply between_advanced|by eapply order_advanced|by eapply suites_wait_keeps]|].
  intros w' r (-> & Hc' & Ha' & ss & H' & (sss & Hsk & ->)). destruct Hk1 as [Ha1 _].
  split_and!; [done|done|congruence|]. exists (s1 ++ concat sss). split; [by eapply advanced_trans|].
  exists (s1 :: sss). split; [by constructor|done].
Qed.

Lemma suites_loop_safe w idx is_ positions suites :
  between w -> order_is w idx ->
  Forall2 (fun i si => GetElementOr idx (Z.of_nat i) (-1) = Z.of_nat si) is_ positions ->
  suites_wait w positions suites ->
  safe (suites_loop program system_clock steady_clock gtest_cc GetTestTypeId is_) w
    (fun w' r => r = Val tt /\ cur w' = (None, None) /\
       ad_hoc w' = ad_hoc w /\ exists ss, advanced w w' ss /\ suites_trace suites ss).
Proof.
  intros Hb Hidx Hpos. revert w suites Hb Hidx.
  induction Hpos as [|i si is_ positions Hi Hpos IH]; intros w suites Hb Hidx Hwait.
  { destruct Hwait as [_ H]. apply Forall2_nil_inv_l in H as ->. apply safe_ret.
    split_and!; [done|apply Hb|done|]. exists []. split; [apply advanced_refl; apply Hb|constructor]. }
  pose proof Hwait as [_ H2]. apply Forall2_cons_inv_l in H2 as (s & suites' & (Ho & Hf & s0 & Hs0 & Ht) & _ & ->).
  cbn [suites_loop]. apply safe_bind. eapply suite_position_safe; [exact Hidx|exact Hi|].
  eapply safe_unit; [by eapply suite_run_safe|].
  intros w1 (Hc1 & s1 & Htr & H1 & Hk1 & s' & Hs' & Hfails).
  assert (Hb1 : between w1) by (by eapply between_advanced).
  pose proof (order_advanced _ _ _ _ H1 Hidx) as Hidx1.
  pose proof (suites_wait_keeps _ _ _ _ _ _ Hwait Hk1) as Hwait1. destruct Hk1 as [Ha1 _].
  assert (Hnext : safe (suites_loop program system_clock steady_clock gtest_cc GetTestTypeId is_) w1
    (fun w' r => r = Val tt /\ cur w' = (None, None) /\ ad_hoc w' = ad_hoc w /\
       exists ss, advanced w w' ss /\ suites_trace (s :: suites') ss)).
  { eapply safe_mono; [by apply IH|]. intros w' r (-> & Hc' & Ha' & ss & H' & Htr').
    split_and!; [done|done|congruence|]. exists (s1 ++ ss). split; [by eapply advanced_trans|].
    by apply suites_run. }
  apply safe_bind, safe_get. destruct (bools (flags_ w1) Flag.fail_fast); [|exact Hnext].
  apply safe_bind. eapply suite_at_safe; [exact Hs'|]. apply safe_bind, safe_lift.
  eapply safe_outcome_mono; [apply suite_Failed_safe|]. intros b ->.
  destruct (suite_fails s') eqn:Hf'; [|exact Hnext].
  eapply safe_mono; [by eapply skip_suites_safe|].
  intros w' r (-> & Hc' & Ha' & ss & H' & Hsk). split_and!; [done|done|congruence|].
  exists (s1 ++ ss). split; [by eapply advanced_trans|]. apply suites_stop; auto.
Qed.

(** ** The environments *)

Lemma program_went w w' ss :
  between w -> went l w w' ss ->
  ran l w w' (eq InProgram) ss /\ cur w' = (None, None) /\ ad_hoc w' = ad_hoc w ++ parts_of ss.
Proof.
  intros Hb [Hd Hc]. destruct (between_ready _ Hb) as [_ Hp]. rewrite Hp in Hd. split_and!.
  - apply did_ran; [done|]. by left.
  - rewrite Hc. apply Hb.
  - pose proof (did_parts l _ _ _ _ (ad_hoc w) Hd) as H. unfold parts_at in H. cbn in H.
    specialize (H eq_refl). by injection H.
Qed.

Lemma program_suite w w' ss sj s :
  ran l w w' (eq InProgram) ss -> suites_of (unit_ w) !! sj = Some s ->
  exists s', suites_of (unit_ w') !! sj = Some s' /\ timeless s' = timeless s.
Proof. intros H. eapply ran_suite; [exact H|]. intros q <- [|[? ?]]; done. Qed.

Lemma suites_wait_program w w' ss positions suites :
  suites_wait w positions suites -> ran l w w' (eq InProgram) ss -> suites_wait w' positions suites.
Proof.
  intros [Hnd H] Hran. split; [done|]. eapply Forall2_impl; [exact H|].
  intros si s (Ho & Hf & s0 & Hs0 & Ht). split_and!; [exact Ho|exact Hf|].
  destruct (program_suite _ _ _ _ _ Hran Hs0) as (s1 & Hs1 & Ht1). exists s1. split; congruence.
Qed.

Lemma unit_event_safe w (e : UnitTest -> Event) :
  between w -> is_part (e (unit_ w)) = false ->
  safe (unit_event e) w (fun w' r => r = Val tt /\ went l w w' [Saw (e (unit_ w))] /\ unit_ w' = unit_ w).
Proof.
  intros Hb He. destruct (between_ready _ Hb) as [(Hw & Hq & r & Hr) Hp].
  eapply safe_mono; [by eapply (broadcast_did l (place w))|]. intros w' v (-> & H & Hc & Hu). by split.
Qed.

Lemma env_pieces_safe w (c : Z -> UserCode) envs :
  between w -> (forall env e, ~ may_throw (c env) e) ->
  safe (for_each envs (fun env => call program gtest_cc (c env))) w (fun w' r => r = Val tt /\
    exists pss, Forall2 (fun env ps => piece (c env) ps) envs pss /\ went l w w' (concat pss)).
Proof.
  intros Hb Hc. revert w Hb. induction envs as [|env envs IH]; intros w Hb; cbn [for_each].
  { apply safe_ret. split; [done|]. exists []. split; [constructor|]. apply went_refl.
    apply (between_ready _ Hb). }
  apply safe_bind. eapply safe_mono; [eapply (call_safe l); [apply (between_ready _ Hb)|apply Hcivil]|].
  intros w1 [[]|e] [(ps & Hp & H1) He]; [|by apply Hc in He].
  destruct (program_went _ _ _ Hb H1) as (Hran & Hcur & _).
  eapply safe_mono; [apply IH; eapply between_advanced; [exact Hb|by eapply ran_advanced|done]|].
  intros w' r (-> & pss & Hps & H'). split; [done|]. exists (ps :: pss).
  split; [by constructor|]. by eapply went_trans.
Qed.

Lemma form_fields u u' : form u' = form u ->
  environments_ u' = environments_ u /\ test_suite_indices_ (unit_suites u') = test_suite_indices_ (unit_suites u) /\
  last_death_test_suite_ (unit_suites u') = last_death_test_suite_ (unit_suites u) /\
  random_seed_ u' = random_seed_ u /\ map form_suite (suites_of u') = map form_suite (suites_of u).
Proof.
  intros H. split_and!.
  - by apply (f_equal environments_) in H.
  - by apply (f_equal (fun u => test_suite_indices_ (unit_suites u))) in H.
  - by apply (f_equal (fun u => last_death_test_suite_ (unit_suites u))) in H.
  - by apply (f_equal random_seed_) in H.
  - by apply (f_equal suites_of) in H.
Qed.

Definition not_parts (e : UnitTest -> Event) : Prop := forall u, is_part (e u) = false.

Lemma environment_part_safe w u happens (c : Z -> UserCode) start end_ (order : list Z -> list Z) :
  between w -> form (unit_ w) = form u -> (forall env e, ~ may_throw (c env) e) ->
  not_parts start -> not_parts end_ ->
  safe (when happens (
          bind (unit_event start) (fun _ => bind (get unit_) (fun u =>
          bind (for_each (order (environments_ u)) (fun env => call program gtest_cc (c env)))
               (fun _ => unit_event end_))))) w
    (fun w' r => r = Val tt /\ exists ss, went l w w' ss /\
       environment_part happens c start end_ (order (environments_ u)) u ss).
Proof.
  intros Hb Hform Hc Hstart Hend. unfold environment_part. destruct happens; cbn [when].
  2: { apply safe_ret. split; [done|]. exists []. split; [|done]. apply went_refl, (between_ready _ Hb). }
  eapply safe_unit; [by apply unit_event_safe|]. intros w1 (H1 & Hu1).
  destruct (program_went _ _ _ Hb H1) as (Hran1 & Hcur1 & _).
  assert (Hb1 : between w1) by (eapply between_advanced; [exact Hb|by eapply ran_advanced|done]).
  apply safe_bind, safe_get. rewrite Hu1. destruct (form_fields _ _ Hform) as (-> & _).
  eapply safe_unit; [by apply env_pieces_safe|]. intros w2 (pss & Hpss & H2).
  destruct (program_went _ _ _ Hb1 H2) as (Hran2 & Hcur2 & _).
  assert (Hb2 : between w2) by (eapply between_advanced; [exact Hb1|by eapply ran_advanced|done]).
  eapply safe_mono; [by apply unit_event_safe|]. intros w3 r (-> & H3 & _). split; [done|].
  eexists. split; [exact (went_trans l _ _ _ _ _ H1 (went_trans l _ _ _ _ _ H2 H3))|].
  exists pss. split; [done|]. exists (unit_ w), (unit_ w2). split_and!; [done| |done].
  pose proof Hran2 as (_ & _ & [Hst _ _ _ _]). rewrite (static_form _ _ Hst). congruence.
Qed.

(** ** The suites, depending on the environments *)

(** Every suite has its tests in some order, and none has a result. *)
Record prepared (u : UnitTest) : Prop := {
  prepared_order : is_order (test_suite_indices_ (unit_suites u)) (suites_of u);
  prepared_suites : Forall ordered (suites_of u);
  prepared_fresh : Forall fresh (suites_of u) }.

Lemma suites_wait_start w : prepared (unit_ w) ->
  suites_wait w (map Z.to_nat (test_suite_indices_ (unit_suites (unit_ w)))) (suites_to_run (unit_ w)).
Proof.
  intros [Hord Ho Hf]. destruct (is_order_spec _ _ Hord) as (Hnd & _ & H). split; [done|].
  eapply Forall2_impl; [exact H|]. intros si s Hs. cbn in Hs.
  rewrite Forall_lookup in Ho. rewrite Forall_lookup in Hf. split_and!; [by eapply Ho|by eapply Hf|by exists s].
Qed.

Lemma run_suites_safe w idx n suites :
  between w -> order_is w idx -> length (suites_of (unit_ w)) = n ->
  Forall2 (fun i si => GetElementOr idx (Z.of_nat i) (-1) = Z.of_nat si) (seq 0 n) (map Z.to_nat idx) ->
  suites_wait w (map Z.to_nat idx) suites ->
  safe (run_suites program system_clock steady_clock gtest_cc GetTestTypeId) w
    (fun w' r => r = Val tt /\ cur w' = (None, None) /\ ad_hoc w' = ad_hoc w /\
       exists ss, advanced w w' ss /\ tests_part (ad_hoc w) suites ss).
Proof.
  intros Hb Hidx Hn Hpos Hwait. destruct (between_ready _ Hb) as [Hready Hp].
  unfold run_suites, Test_IsSkipped, Test_HasFatalFailure, tests_part.
  assert (Hr : forall r, result_at (place w) (unit_ w) = Some r -> test_part_results_ r = ad_hoc w).
  { rewrite Hp. intros r. cbn. by intros [= <-]. }
  apply safe_bind, safe_bind, (current_result_safe l); [done|]. intros r Hres. apply safe_lift.
  eapply safe_outcome_mono; [apply Skipped_safe|]. intros b ->. unfold skipped_result, Failed.
  rewrite (Hr r Hres). apply safe_bind, safe_get.
  destruct (negb (existsb failed (ad_hoc w)) && existsb skipped (ad_hoc w)).
  { apply safe_bind, (current_result_safe l); [done|]. intros r' _. apply safe_modify.
    split_and!; [done|apply Hb|done|]. exists []. split; [|done].
    split_and!; [split; try done; apply Hb|by rewrite app_nil_r|apply progress_refl]. }
  apply safe_bind, safe_bind, (current_result_safe l); [done|]. intros r' Hres'. apply safe_lift.
  eapply safe_outcome_mono; [apply HasFatalFailure_safe|]. intros b ->. rewrite (Hr r' Hres'), Hn.
  destruct (existsb fatally_failed (ad_hoc w)); cbn [negb].
  - by eapply skip_suites_safe.
  - by eapply suites_loop_safe.
Qed.

End program.
