(* ===== verification/RunnerIterations.v ===== *)
(** * The loop of [RunAllTests] and the value of [RUN_ALL_TESTS()] *)

From S2P Require Import Prelude Outcome Common CStr FilePath TestFilter TestResult TestSelect UnitTest ReportFormat CommandLine XmlReport XmlTheorems JsonReport Listeners Runner RunnerSteps RunnerTest RunnerSuite RunnerProgram.

(** ** The program between iterations *)

(** What stays of a program whatever runs, and in whatever order. *)
Definition base_suite (s : TestSuite) : TestSuite := with_indices (form_suite s) [].
Definition base (u : UnitTest) : list Z * Z * list TestSuite :=
  (environments_ u, last_death_test_suite_ (unit_suites u), map base_suite (suites_of u)).

(** The order of registration. *)
Definition in_order (u : UnitTest) : Prop :=
  test_suite_indices_ (unit_suites u) = map Z.of_nat (seq 0 (length (suites_of u))) /\
  Forall (fun s => test_indices_ s = map Z.of_nat (seq 0 (length (test_info_list_ s)))) (suites_of u).

(** What the random generator can handle. *)
Definition small (u : UnitTest) : Prop :=
  -1 <= last_death_test_suite_ (unit_suites u) < Z.of_nat (length (suites_of u)) /\
  Z.of_nat (length (suites_of u)) <= kMaxRange /\
  Forall (fun s => Z.of_nat (length (test_info_list_ s)) <= kMaxRange) (suites_of u).
Definition seeded (u : UnitTest) : Prop := 1 <= random_seed_ u <= kMaxRandomSeed.

Lemma form_base u u' : form u' = form u -> base u' = base u.
Proof.
  intros H. destruct (form_fields _ _ H) as (He & _ & Hd & _ & Hs). unfold base. rewrite He, Hd. f_equal.
  change base_suite with (fun s => with_indices (form_suite s) []).
  rewrite <- !(map_map form_suite (fun s => with_indices s [])). by rewrite Hs.
Qed.

Lemma form_suite_length s : length (test_info_list_ (form_suite s)) = length (test_info_list_ s).
Proof.
  change (test_info_list_ (form_suite s)) with (stable_sort comes_before (map erase_test (test_info_list_ s))).
  by rewrite (Permutation_length (stable_sort_perm _ _)), length_map.
Qed.
Lemma base_suite_length s s' : base_suite s' = base_suite s ->
  length (test_info_list_ s') = length (test_info_list_ s).
Proof.
  intros H. rewrite <- (form_suite_length s'), <- (form_suite_length s).
  by apply (f_equal (fun s => length (test_info_list_ s))) in H.
Qed.

Lemma base_small u u' : base u' = base u -> small u -> small u'.
Proof.
  unfold base, small. intros [= _ Hd Hs] (H1 & H2 & H3).
  assert (Hlen : length (suites_of u') = length (suites_of u)).
  { apply (f_equal (@length _)) in Hs. by rewrite !length_map in Hs. }
  rewrite Hd, Hlen. split_and!; [lia|lia|done|].
  apply Forall_lookup. intros i s' Hs'. apply (f_equal (fun l => l !! i)) in Hs.
  change (map base_suite) with (fmap base_suite (M := list)) in Hs.
  rewrite !list_lookup_fmap, Hs' in Hs. destruct (suites_of u !! i) as [s|] eqn:Es; [|done].
  apply (inj Some) in Hs. rewrite (base_suite_length _ _ Hs). rewrite Forall_lookup in H3. by apply (H3 i).
Qed.

(** ** Clearing, shuffling, unshuffling *)

Lemma map_base_ext f suites :
  (forall s, base_suite (f s) = base_suite s) -> map base_suite (map f suites) = map base_suite suites.
Proof. intros H. rewrite map_map. by apply map_ext. Qed.

Lemma erase_ClearResult s : erase_suite (ClearResult s) = erase_suite s.
Proof.
  unfold erase_suite, ClearResult, with_times, with_tests. cbn. by rewrite map_map.
Qed.

Lemma clear_fresh u : Forall fresh (suites_of (clear_results u)).
Proof.
  cbn. apply Forall_map, Forall_true. intros s. split; [done|]. cbn. by apply Forall_map, Forall_true.
Qed.

(** Fresh suites have no parts. *)
Lemma fresh_recorded u pr :
  Forall fresh (suites_of u) -> (recorded u pr <-> pr ∈ test_part_results_ (unit_ad_hoc u)).
Proof.
  rewrite Forall_lookup. intros Hf. split.
  - intros ([si ti|si|] & k & Hk & Hpr); apply parts_at_spec in Hk.
    + destruct Hk as (s & t & Hs & Ht & ->). destruct (Hf si s Hs) as [_ H]. rewrite Forall_lookup in H.
      rewrite (H ti t Ht) in Hpr. by apply elem_of_nil in Hpr.
    + destruct Hk as (s & Hs & ->). destruct (Hf si s Hs) as [H _]. rewrite H in Hpr. by apply elem_of_nil in Hpr.
    + by rewrite <- Hk.
  - intros H. exists InProgram, (test_part_results_ (unit_ad_hoc u)). split; [|done]. by apply parts_at_spec.
Qed.

Lemma fresh_clean u : Forall fresh (suites_of u) -> clean u.
Proof.
  rewrite Forall_lookup. intros Hf [si ti|si|] k Hr Hk; apply parts_at_spec in Hk.
  - destruct Hk as (s & t & Hs & Ht & ->). destruct (Hf si s Hs) as [_ H]. rewrite Forall_lookup in H. by apply (H ti).
  - destruct Hk as (s & Hs & ->). by destruct (Hf si s Hs).
  - by destruct Hr.
Qed.

Lemma clear_base u : base (clear_results u) = base u.
Proof.
  unfold base. f_equal. cbn. apply map_base_ext. intros s. unfold base_suite, form_suite.
  by rewrite erase_ClearResult.
Qed.

Lemma clear_in_order u : in_order u -> in_order (clear_results u).
Proof.
  intros [H1 H2]. split; cbn.
  - by rewrite length_map.
  - apply Forall_map. eapply Forall_impl; [exact H2|]. intros s. cbn. by rewrite length_map.
Qed.

Lemma in_order_prepared u : in_order u -> Forall fresh (suites_of u) -> prepared u.
Proof.
  intros [H1 H2] H. split; [by unfold is_order; rewrite H1| |done].
  eapply Forall_impl; [exact H2|]. intros s E. unfold ordered, is_order. by rewrite E.
Qed.

(** The program in the order of a shuffle: death test suites still come first. *)
Definition deaths_first (u : UnitTest) : Prop :=
  let n := Z.to_nat (last_death_test_suite_ (unit_suites u) + 1) in
  take n (test_suite_indices_ (unit_suites u)) ≡ₚ map Z.of_nat (seq 0 n).

Lemma is_order_with_indices s i : i ≡ₚ test_indices_ s -> ordered s -> ordered (with_indices s i).
Proof. unfold ordered, is_order. cbn. by intros ->. Qed.

Lemma seq_take k m n : (k <= n)%nat -> take k (map Z.of_nat (seq m n)) = map Z.of_nat (seq m k).
Proof. intros H. rewrite <- fmap_take. f_equal. by rewrite take_seq, Nat.min_l. Qed.

Lemma base_with_indices s i : base_suite (with_indices s i) = base_suite s.
Proof. done. Qed.

Lemma shuffle_safe u random :
  in_order u -> small u -> Forall fresh (suites_of u) ->
  exists random' s', ShuffleTests random (unit_suites u) = Ok (random', s') /\
    let u' := with_random (with_suites u s') (random_seed_ u) random' in
    base u' = base u /\ prepared u' /\ deaths_first u'.
Proof.
  intros [H1 H2] (Hd & Hn & Ht) Hf.
  destruct (ShuffleTests_runs random (unit_suites u)) as (random' & s' & E & Hp1 & Hp2 & Hs & Hu).
  { exact Hd. } { exact H1. } { exact Hn. }
  { change (test_suites_ (unit_suites u)) with (suites_of u). clear -H2 Ht. rewrite Forall_forall in *.
    intros s Hs. rewrite (H2 s Hs), length_map, length_seq. split; [by apply Ht|done]. }
  exists random', s'. split; [exact E|]. cbv zeta. set (u' := with_random _ _ _).
  change (test_suites_ (unit_suites u)) with (suites_of u) in *.
  change (test_suites_ s') with (suites_of u') in Hs.
  assert (Hdeath : last_death_test_suite_ (unit_suites u') = last_death_test_suite_ (unit_suites u))
    by (by apply (f_equal last_death_test_suite_) in Hu).
  split_and!.
  - unfold base. f_equal; [by rewrite Hdeath|]. clear -Hs.
    induction Hs as [|s s1 l l' [-> _] _ IH]; [done|]. cbn [map]. by rewrite base_with_indices, IH.
  - split.
    + unfold is_order. rewrite <- (Forall2_length _ _ _ Hs), <- H1. change (unit_suites u') with s'.
      set (k := Z.to_nat (last_death_test_suite_ (unit_suites u) + 1)) in *.
      rewrite <- (take_drop k (test_suite_indices_ s')), Hp1, Hp2. by rewrite take_drop.
    + clear -Hs H2. induction Hs as [|s s1 l l' [-> Hp] _ IH]; [constructor|].
      apply Forall_cons in H2 as [H2 H3]. constructor; [|by apply IH]. apply is_order_with_indices; [done|].
      unfold ordered, is_order. by rewrite H2.
    + clear -Hs Hf. induction Hs as [|s s1 l l' [-> Hp] _ IH]; [constructor|].
      apply Forall_cons in Hf as [H2 H3]. constructor; [done|by apply IH].
  - unfold deaths_first. cbv zeta. rewrite Hdeath. change (unit_suites u') with s'. rewrite Hp1, H1, seq_take; [done|lia].
Qed.

(** The end of an iteration restores the order. *)
Lemma unshuffle_base u : base (with_suites u (UnshuffleTests (unit_suites u))) = base u.
Proof. unfold base. f_equal. cbn. by apply map_base_ext. Qed.

Lemma unshuffle_in_order u : prepared u \/ Forall ordered (suites_of u) ->
  in_order (with_suites u (UnshuffleTests (unit_suites u))).
Proof.
  intros H. assert (Ho : Forall ordered (suites_of u)) by (destruct H as [[]|]; done).
  split; cbn; [by rewrite length_map|]. apply Forall_map. eapply Forall_impl; [exact Ho|].
  intros s Hs. cbn. do 2 f_equal. unfold ordered, is_order in Hs.
  by rewrite (Permutation_length Hs), length_map, length_seq.
Qed.

(** Suites keep an order of their tests whatever runs. *)
Lemma form_ordered u u' : form u' = form u -> Forall ordered (suites_of u) -> Forall ordered (suites_of u').
Proof.
  intros H. destruct (form_fields _ _ H) as (_ & _ & _ & _ & Hs). rewrite !Forall_lookup.
  intros Ho i s' Hs'. apply (f_equal (fun l => l !! i)) in Hs.
  change (map form_suite) with (fmap form_suite (M := list)) in Hs.
  rewrite !list_lookup_fmap, Hs' in Hs. destruct (suites_of u !! i) as [s|] eqn:Es; [|done].
  apply (inj Some) in Hs. specialize (Ho i s Es). unfold ordered, is_order in *.
  assert (Hi : test_indices_ s' = test_indices_ s) by (by apply (f_equal test_indices_) in Hs).
  rewrite <- form_suite_length, Hs, form_suite_length. by rewrite Hi.
Qed.

(** ** One iteration *)

(** The order in which an iteration runs the program. *)
Definition run_order (u0 u : UnitTest) (shuffled : bool) : Prop :=
  base u = base u0 /\ prepared u /\ (if shuffled then deaths_first u else in_order u).
Definition variant (u0 u : UnitTest) : Prop := exists shuffled, run_order u0 u shuffled.

Section iterations.
Context {U : Type} (program : UserCode -> U -> body U) (system_clock steady_clock : nat -> Z)
  (gtest_cc : text) (GetTestTypeId : Z) (l : Listener).
Hypothesis Hcivil : civil program.
#[local] Instance own_constructors : Constructors := constructors_of program gtest_cc l.
Implicit Types w : World U.

(** Steps that no listener sees. *)
Definition plain w w' : Prop :=
  frame w w' /\ steps w' = steps w /\ cur w' = cur w /\ flags_ w' = flags_ w.

Lemma plain_trans w1 w2 w3 : plain w1 w2 -> plain w2 w3 -> plain w1 w3.
Proof.
  intros (F1 & S1 & C1 & L1) (F2 & S2 & C2 & L2). split; [by eapply frame_trans|split_and!; congruence].
Qed.

Lemma plain_unit w u : between l w -> plain w (with_unit w u).
Proof. intros (_ & Hq & _). split; [by split|done]. Qed.
Lemma plain_refl w : between l w -> plain w w.
Proof. intros (_ & Hq & _). split; [by split|done]. Qed.

Lemma plain_between w w' : between l w -> plain w w' -> between l w'.
Proof.
  intros (Hw & Hq & Hc & Hcur) ([Hl Hcc _ _ Hq'] & _ & E & _). split_and!; try done.
  - unfold watched. by rewrite Hl.
  - congruence.
  - congruence.
Qed.

Lemma modify_unit_safe {B} w f (k : unit -> M B) Q :
  between l w -> (forall w', plain w w' -> unit_ w' = f (unit_ w) -> safe (k tt) w' Q) ->
  safe (bind (modify_unit f) k) w Q.
Proof.
  intros (Hw & Hq & _) H. apply safe_bind, safe_modify. apply H; [|done]. by split_and!.
Qed.

Lemma timer_safe {A B} w (f : World U -> A) (k : A -> M B) Q :
  between l w -> (forall w' t, plain w w' -> unit_ w' = unit_ w -> safe (k t) w' Q) ->
  safe (bind (bind (get f) (fun t => bind (modify tick) (fun _ => ret t))) k) w Q.
Proof.
  intros (Hw & Hq & _) H. apply safe_bind, safe_bind, safe_get, safe_bind, safe_modify, safe_ret.
  apply H; [|done]. by split_and!.
Qed.

(** The results are cleared; the order is that of the run. *)
Lemma shuffle_unit_safe w shuffles :
  between l w -> in_order (unit_ w) -> small (unit_ w) -> Forall fresh (suites_of (unit_ w)) ->
  safe (when shuffles shuffle_unit) w (fun w' r => r = Val tt /\ plain w w' /\
    ad_hoc w' = ad_hoc w /\ random_seed_ (unit_ w') = random_seed_ (unit_ w) /\
    run_order (unit_ w) (unit_ w') shuffles).
Proof.
  intros Hb Hin Hsm Hf. destruct shuffles; cbn [when].
  2: { apply safe_ret. split; [done|]. split; [by apply plain_refl|]. split; [done|]. split; [done|].
       split; [done|]. split; [by apply in_order_prepared|done]. }
  destruct (shuffle_safe (unit_ w) (random_seed_ (unit_ w)) Hin Hsm Hf) as (random' & s' & E & H).
  unfold shuffle_unit. apply safe_bind, safe_get. apply safe_bind, safe_lift. rewrite E. cbn [safe_outcome].
  apply safe_modify. split; [done|]. split; [by apply plain_unit|].
  split; [done|]. split; [done|]. exact H.
Qed.

(** Between the events of the iteration. *)
Lemma iteration_body_safe w u i repeat recreate :
  between l w -> prepared (unit_ w) -> unit_ w = u ->
  safe (bind (when ((i =? 0) || recreate) (
          bind (unit_event OnEnvironmentsSetUpStart) (fun _ => bind (get unit_) (fun u =>
          bind (for_each (environments_ u) (fun env => call program gtest_cc (EnvSetUp env)))
               (fun _ => unit_event OnEnvironmentsSetUpEnd)))))
        (fun _ => bind (run_suites program system_clock steady_clock gtest_cc GetTestTypeId)
        (fun _ => bind (lift (iadd repeat (-1))) (fun last_iteration =>
        when ((i =? last_iteration) || recreate) (
          bind (unit_event OnEnvironmentsTearDownStart) (fun _ => bind (get unit_) (fun u =>
          bind (for_each (rev (environments_ u)) (fun env => call program gtest_cc (EnvTearDown env)))
               (fun _ => unit_event OnEnvironmentsTearDownEnd)))))))) w
    (fun w' r => r = Val tt /\ cur w' = (None, None) /\ exists up run down,
       advanced l w w' (up ++ run ++ down) /\
       ad_hoc w' = ad_hoc w ++ parts_of up ++ parts_of down /\
       environment_part ((i =? 0) || recreate) EnvSetUp OnEnvironmentsSetUpStart OnEnvironmentsSetUpEnd
         (environments_ u) u up /\
       tests_part (ad_hoc w ++ parts_of up) (suites_to_run u) run /\
       environment_part ((i =? repeat - 1) || recreate) EnvTearDown OnEnvironmentsTearDownStart
         OnEnvironmentsTearDownEnd (rev (environments_ u)) u down).
Proof.
  intros Hb Hprep <-. pose proof (suites_wait_start w Hprep) as Hwait.
  destruct (is_order_spec _ _ (prepared_order _ Hprep)) as (_ & Hpos & _).
  set (idx := test_suite_indices_ (unit_suites (unit_ w))) in *.
  eapply safe_unit.
  { apply (environment_part_safe program gtest_cc l Hcivil w (unit_ w) ((i =? 0) || recreate) EnvSetUp
      OnEnvironmentsSetUpStart OnEnvironmentsSetUpEnd (fun es => es)); try done. by intros ? ? []. }
  intros w1 (up & H1 & Hup). destruct (program_went _ _ _ _ Hb H1) as (Hran1 & Hcur1 & Hadhoc1).
  pose proof (ran_advanced _ _ _ _ _ Hran1) as Hadv1.
  assert (Hb1 : between l w1) by (by eapply between_advanced).
  assert (Hidx1 : order_is w1 idx) by (by eapply order_advanced).
  assert (Hlen1 : length (suites_of (unit_ w1)) = length (suites_of (unit_ w))).
  { pose proof Hran1 as (_ & _ & [Hst _ _ _ _]). apply static_suites in Hst.
    apply (f_equal (@length _)) in Hst. by rewrite !length_map in Hst. }
  eapply safe_unit.
  { eapply run_suites_safe; [done|exact Hb1|exact Hidx1|exact Hlen1|exact Hpos|].
    by eapply suites_wait_program. }
  intros w2 (Hcur2 & Hadhoc2 & run & Hadv2 & Hrun).
  assert (Hb2 : between l w2) by (by eapply between_advanced).
  apply safe_bind, safe_lift. unfold iadd. destruct (int_ok (repeat + -1)); [|done]. cbn [safe_outcome].
  replace (repeat + -1) with (repeat - 1) by lia.
  pose proof (advanced_trans _ _ _ _ _ _ Hadv1 Hadv2) as Hadv12.
  eapply safe_mono.
  { apply (environment_part_safe program gtest_cc l Hcivil w2 (unit_ w) ((i =? repeat - 1) || recreate)
      EnvTearDown OnEnvironmentsTearDownStart OnEnvironmentsTearDownEnd (@rev Z)); try done; [|by intros ? ? []].
    apply Hadv12. }
  intros w3 r (-> & down & H3 & Hdown). destruct (program_went _ _ _ _ Hb2 H3) as (Hran3 & Hcur3 & Hadhoc3).
  split_and!; [done|done|]. exists up, run, down. split_and!; [| |exact Hup| |exact Hdown].
  - rewrite app_assoc. eapply advanced_trans; [exact Hadv12|]. by eapply ran_advanced.
  - rewrite Hadhoc3, Hadhoc2, Hadhoc1. by rewrite <- app_assoc.
  - by rewrite <- Hadhoc1.
Qed.

(** What holds between iterations of the program [u0]. *)
Record standing (u0 : UnitTest) w : Prop := {
  standing_between : between l w;
  standing_base : base (unit_ w) = base u0;
  standing_order : in_order (unit_ w);
  standing_small : small (unit_ w);
  standing_seed : seeded (unit_ w) }.

Lemma next_seed_safe u Q :
  seeded u -> (forall seed, 1 <= seed <= kMaxRandomSeed -> Q seed) ->
  safe_outcome (GetNextRandomSeed (random_seed_ u)) Q.
Proof.
  intros [H1 H2] HQ. unfold GetNextRandomSeed.
  rewrite (proj2 (Z.leb_le 1 _)), (proj2 (Z.leb_le _ kMaxRandomSeed)) by done. cbn [andb c_assert].
  rewrite bind_ok. cbn [safe_outcome]. apply HQ. destruct (Z.ltb_spec kMaxRandomSeed (random_seed_ u + 1)).
  - by vm_compute.
  - lia.
Qed.

Definition all_passed (ps : list TestPartResult) : Prop := forall pr, pr ∈ ps -> failed pr = false.

(** The end of an iteration: the program [u] has run. *)
Lemma iteration_end_safe u0 w u i before ss :
  between l w -> form (unit_ w) = form u -> clean (unit_ w) -> base u = base u0 -> prepared u -> small u ->
  seeded u -> (forall pr, recorded (unit_ w) pr <-> pr ∈ before ++ parts_of ss) ->
  safe (bind (unit_event (fun u => OnTestIterationEnd u i)) (fun _ =>
        bind (get unit_) (fun u => bind (lift (unit_Passed u)) (fun passed =>
        bind (modify_unit (fun u => with_suites u (UnshuffleTests (unit_suites u)))) (fun _ =>
        bind (get flags_) (fun fl =>
        bind (when (bools fl Flag.shuffle)
          (bind (get unit_) (fun u => bind (lift (GetNextRandomSeed (random_seed_ u))) (fun seed =>
           modify_unit (fun u => with_random u seed (random_state_ u)))))) (fun _ => ret passed))))))) w
    (fun w' r => exists passed, r = Val passed /\ standing u0 w' /\ ad_hoc w' = ad_hoc w /\
       frame w w' /\ view l (steps w') = view l (steps w) ++ [Saw (OnTestIterationEnd (unit_ w) i)] /\
       (passed = true <-> all_passed (before ++ parts_of ss))).
Proof.
  intros Hb Hform Hclean Hbase Hprep Hsmall Hseed Hrec.
  eapply safe_unit; [by apply (unit_event_safe l)|]. intros w1 (Hw1 & Hu1).
  pose proof Hw1 as [(Hf1 & Hv1 & _) Hc1].
  assert (Hb1 : between l w1).
  { destruct (program_went _ _ _ _ Hb Hw1) as (Hran & Hcur & _).
    eapply between_advanced; [exact Hb|by eapply ran_advanced|done]. }
  apply safe_bind, safe_get, safe_bind, safe_lift. rewrite Hu1.
  eapply safe_outcome_mono; [by apply unit_Passed_safe|]. intros passed Hpassed.
  apply modify_unit_safe; [done|]. intros w2 Hp2 Hu2. rewrite Hu1 in Hu2.
  pose proof (plain_between _ _ Hb1 Hp2) as Hb2. pose proof Hp2 as (Hf2 & Hs2 & Hc2 & _).
  assert (Hstand : standing u0 w2).
  { assert (Hbase2 : base (unit_ w2) = base u0).
    { rewrite Hu2, unshuffle_base, (form_base _ _ Hform). done. }
    split; [done|done| | |].
    - rewrite Hu2. apply unshuffle_in_order. right.
      eapply form_ordered; [exact Hform|by apply prepared_suites].
    - apply (base_small u); [|done]. congruence.
    - unfold seeded. rewrite Hu2. change (1 <= random_seed_ (unit_ w) <= kMaxRandomSeed).
      destruct (form_fields _ _ Hform) as (_ & _ & _ & -> & _). exact Hseed. }
  assert (Hdone : (passed = true <-> all_passed (before ++ parts_of ss))).
  { rewrite Hpassed. unfold all_passed. by setoid_rewrite Hrec. }
  apply safe_bind, safe_get.
  eapply (safe_unit _ _ _ (fun w3 => standing u0 w3 /\ plain w2 w3 /\ ad_hoc w3 = ad_hoc w2)).
  { destruct (bools (flags_ w2) Flag.shuffle); cbn [when].
    2: { apply safe_ret. split_and!; [done|done|by apply plain_refl|done]. }
    apply safe_bind, safe_get, safe_bind, safe_lift. apply next_seed_safe; [apply Hstand|].
    intros seed Hs. apply safe_modify. split_and!; [done| |by apply plain_unit|done].
    destruct Hstand as [? ? ? ? ?]. by split. }
  intros w3 (Hstand3 & (Hf3 & Hs3 & Hc3 & _) & Ha3). apply safe_ret. exists passed. split_and!; [done|done| | | |done].
  - rewrite Ha3. unfold ad_hoc. by rewrite Hu2.
  - eapply frame_trans; [exact Hf1|]. by eapply frame_trans.
  - by rewrite Hs3, Hs2, Hv1.
Qed.

Lemma run_iteration_safe u0 w i repeat recreate has_tests :
  standing u0 w ->
  safe (run_iteration program system_clock steady_clock gtest_cc GetTestTypeId i repeat recreate has_tests) w
    (fun w' r => exists passed u ss, r = Val passed /\ standing u0 w' /\ frame w w' /\
       view l (steps w') = view l (steps w) ++ ss /\
       run_order u0 u (has_tests && bools (flags_ w) Flag.shuffle) /\
       iteration_trace u i ((i =? 0) || recreate) ((i =? repeat - 1) || recreate) has_tests
         (ad_hoc w) ss (ad_hoc w') /\
       (passed = true <-> all_passed (ad_hoc w ++ parts_of ss))).
Proof.
  intros [Hb Hbase Hin Hsm Hseed]. unfold run_iteration.
  apply modify_unit_safe; [done|]. intros w1 Hp1 Hu1.
  pose proof (plain_between _ _ Hb Hp1) as Hb1.
  apply timer_safe; [done|]. intros w2 timer Hp2 Hu2.
  pose proof (plain_between _ _ Hb1 Hp2) as Hb2. pose proof (plain_trans _ _ _ Hp1 Hp2) as Hp02.
  apply safe_bind, safe_get. assert (Hfl : flags_ w2 = flags_ w) by apply Hp02. rewrite Hfl.
  rewrite Hu1 in Hu2. eapply safe_unit.
  { apply shuffle_unit_safe; [done|rewrite Hu2..].
    - by apply clear_in_order.
    - eapply base_small; [apply clear_base|done].
    - apply clear_fresh. }
  intros w3 (Hp3 & Ha3 & Hr3 & Hbase3 & Hprep3 & Hord3). pose proof (plain_between _ _ Hb2 Hp3) as Hb3.
  pose proof (plain_trans _ _ _ Hp02 Hp3) as Hp03.
  assert (Hbase3' : base (unit_ w3) = base u0) by (rewrite Hbase3, Hu2, clear_base; done).
  assert (Hadhoc3 : ad_hoc w3 = ad_hoc w) by (rewrite Ha3; unfold ad_hoc; by rewrite Hu2).
  set (u := unit_ w3) in *.
  assert (Hstart : safe (unit_event (fun u => OnTestIterationStart u i)) w3 (fun w' r => r = Val tt /\
    went l w3 w' [Saw (OnTestIterationStart u i)] /\ unit_ w' = u))
    by (by apply (unit_event_safe l w3 (fun u => OnTestIterationStart u i))).
  eapply safe_unit; [exact Hstart|]. intros w4 (Hw4 & Hu4).
  destruct (program_went _ _ _ _ Hb3 Hw4) as (Hran4 & Hcur4 & Hadhoc4). cbn [parts_of omap list_omap] in Hadhoc4.
  rewrite app_nil_r in Hadhoc4.
  assert (Hb4 : between l w4) by (eapply between_advanced; [exact Hb3|by eapply ran_advanced|done]).
  eapply (safe_unit _ _ _ (fun w5 => cur w5 = (None, None) /\ exists mid, advanced l w4 w5 mid /\
    if has_tests then exists up run down, mid = up ++ run ++ down /\
      environment_part ((i =? 0) || recreate) EnvSetUp OnEnvironmentsSetUpStart OnEnvironmentsSetUpEnd
        (environments_ u) u up /\
      tests_part (ad_hoc w ++ parts_of up) (suites_to_run u) run /\
      environment_part ((i =? repeat - 1) || recreate) EnvTearDown OnEnvironmentsTearDownStart
        OnEnvironmentsTearDownEnd (rev (environments_ u)) u down /\
      ad_hoc w5 = ad_hoc w ++ parts_of up ++ parts_of down
    else mid = [] /\ ad_hoc w5 = ad_hoc w)).
  { assert (Hadhoc : ad_hoc w4 = ad_hoc w) by congruence. destruct has_tests; cbn [when].
    2: { apply safe_ret. split_and!; [done|done|]. exists []. split; [apply advanced_refl; apply Hb4|done]. }
    eapply safe_mono; [apply (iteration_body_safe w4 u i repeat recreate); [done|by rewrite Hu4|done]|].
    intros w5 r (-> & Hcur & up & run & down & Hadv & Ha & Hup & Hrun & Hdown). rewrite Hadhoc in *.
    split_and!; [done|done|]. exists (up ++ run ++ down). split; [done|]. by exists up, run, down. }
  intros w5 (Hcur5 & mid & Hadv5 & Hmid).
  assert (Hb5 : between l w5) by (by eapply between_advanced).
  apply timer_safe; [done|]. intros w6 elapsed Hp6 Hu6. pose proof (plain_between _ _ Hb5 Hp6) as Hb6.
  apply modify_unit_safe; [done|]. intros w7 Hp7 Hu7. pose proof (plain_between _ _ Hb6 Hp7) as Hb7.
  pose proof (plain_trans _ _ _ Hp6 Hp7) as Hp57. rewrite Hu6 in Hu7.
  pose proof Hadv5 as (Hf5 & Hv5 & [Hform5 Hclean5 Hrec5]). rewrite Hu4 in Hform5, Hclean5, Hrec5.
  pose proof (prepared_fresh _ Hprep3) as Hfresh.
  eapply safe_mono.
  { apply (iteration_end_safe u0 w7 u i (ad_hoc w) mid Hb7).
    - rewrite Hu7. exact Hform5.
    - rewrite Hu7. exact (Hclean5 (fresh_clean _ Hfresh)).
    - exact Hbase3'.
    - exact Hprep3.
    - apply (base_small (unit_ w)); [congruence|done].
    - unfold seeded. rewrite Hr3, Hu2. exact Hseed.
    - intros pr. rewrite elem_of_app, Hu7, <- Hadhoc3.
      change (ad_hoc w3) with (test_part_results_ (unit_ad_hoc u)).
      rewrite <- (fresh_recorded u pr Hfresh). exact (Hrec5 pr). }
  intros w8 r (passed & -> & Hstand & Ha8 & Hf8 & Hv8 & Hpassed).
  assert (Hadhoc8 : ad_hoc w8 = ad_hoc w5) by (rewrite Ha8; unfold ad_hoc; by rewrite Hu7).
  exists passed, u, (Saw (OnTestIterationStart u i) :: mid ++ [Saw (OnTestIterationEnd (unit_ w7) i)]).
  split; [done|]. split; [done|]. split.
  { destruct Hp03 as (F1 & _), Hran4 as (F2 & _), Hp57 as (F3 & _).
    eapply frame_trans; [exact F1|]. eapply frame_trans; [exact F2|]. eapply frame_trans; [exact Hf5|].
    eapply frame_trans; [exact F3|exact Hf8]. }
  split.
  { destruct Hp03 as (_ & S1 & _), Hran4 as (_ & V2 & _), Hp57 as (_ & S3 & _).
    rewrite Hv8, S3, Hv5, V2, S1. by rewrite <- !app_assoc. }
  split; [by split_and!|]. split.
  - exists mid. split.
    + exists u, (unit_ w7). split_and!; [done| |done]. by rewrite Hu7.
    + destruct has_tests.
      * destruct Hmid as (up & run & down & -> & Hup & Hrun & Hdown & Ha5). exists up, run, down.
        split_and!; [done|done|done|done|congruence].
      * destruct Hmid as (-> & Ha5). split; [done|congruence].
  - rewrite Hpassed. cbn [parts_of omap list_omap]. change (omap _ ?x) with (parts_of x).
    by rewrite parts_of_app, app_nil_r.
Qed.

(** ** The loop *)

Lemma environment_part_parts happens c start end_ envs u ss :
  not_parts start -> not_parts end_ -> environment_part happens c start end_ envs u ss ->
  happens = false -> parts_of ss = [].
Proof. intros _ _ H ->. by rewrite H. Qed.

(** Parts outside of tests are among those that were there or were seen. *)
Lemma iteration_parts {constructors : Constructors} u i set_up tear_down has_tests before ss after :
  iteration_trace u i set_up tear_down has_tests before ss after ->
  (forall pr, pr ∈ after -> pr ∈ before ++ parts_of ss) /\ (forall pr, pr ∈ before -> pr ∈ after).
Proof.
  intros (mid & (u1 & u2 & _ & _ & ->) & H).
  assert (Hparts : parts_of (Saw (OnTestIterationStart u1 i) :: mid ++ [Saw (OnTestIterationEnd u2 i)]) = parts_of mid).
  { cbn [parts_of omap list_omap]. change (omap _ ?x) with (parts_of x). by rewrite parts_of_app, app_nil_r. }
  rewrite Hparts. destruct has_tests.
  - destruct H as (up & run & down & -> & _ & _ & _ & ->). rewrite !parts_of_app.
    split; intros pr; rewrite !elem_of_app; tauto.
  - destruct H as (-> & ->). split; intros pr; [rewrite elem_of_app; by left|done].
Qed.

Lemma iterations_safe u0 fuel w i repeat recreate has_tests failed_ :
  standing u0 w -> 0 <= i <= repeat -> repeat <= INT_MAX -> repeat - i <= Z.of_nat fuel ->
  safe (iterations program system_clock steady_clock gtest_cc GetTestTypeId fuel i repeat recreate
          has_tests failed_) w
    (fun w' r => exists f ss, r = Val f /\ standing u0 w' /\ frame w w' /\
       view l (steps w') = view l (steps w) ++ ss /\
       iterations_trace (variant u0) repeat recreate has_tests i (ad_hoc w) ss /\
       (f = false <-> failed_ = false /\ (i = repeat \/ all_passed (ad_hoc w ++ parts_of ss)))).
Proof.
  intros Hst Hi Hmax. revert w i failed_ Hst Hi. induction fuel as [|fuel IH]; intros w i failed_ Hst Hi Hfuel.
  - assert (i = repeat) as -> by lia. cbn [iterations].
    rewrite (proj2 (Z.ltb_ge repeat 0)), Z.eqb_refl by lia. apply safe_ret. exists failed_, [].
    split_and!; [done|done|apply frame_refl; apply Hst|by rewrite app_nil_r|constructor|].
    intuition.
  - cbn [iterations]. rewrite (proj2 (Z.ltb_ge repeat 0)) by lia. cbn [orb].
    destruct (Z.eqb_spec i repeat) as [->|Hne]; cbn [negb].
    { apply safe_ret. exists failed_, [].
      split_and!; [done|done|apply frame_refl; apply Hst|by rewrite app_nil_r|constructor|].
      intuition. }
    eapply safe_val.
    { eapply safe_mono; [by apply run_iteration_safe|].
      intros w1 r (passed & u & s1 & -> & H). exists passed. split; [done|]. exact (ex_intro _ u (ex_intro _ s1 H)). }
    intros w1 passed (u & s1 & Hst1 & Hf1 & Hv1 & Hord & Htr & Hpassed).
    apply safe_bind, safe_lift. rewrite iadd_ok by range. cbn [safe_outcome].
    eapply safe_mono; [apply IH; [done|lia|lia]|].
    intros w2 r (f & s2 & -> & Hst2 & Hf2 & Hv2 & Htr2 & Hfail). exists f, (s1 ++ s2).
    split_and!; [done|done|by eapply frame_trans|by rewrite Hv2, Hv1, app_assoc| |].
    + eapply iterations_next; [done|by eexists|exact Htr|exact Htr2].
    + destruct (iteration_parts _ _ _ _ _ _ _ _ Htr) as [Hsub Hsup].
      rewrite Hfail, orb_false_iff, negb_false_iff, Hpassed, parts_of_app. unfold all_passed.
      assert (Hs2 : i + 1 = repeat -> parts_of s2 = []).
      { intros E. inversion Htr2; subst; [done|]. congruence. }
      split.
      * intros [[-> H1] H2]. split; [done|]. right. intros pr. rewrite app_assoc, elem_of_app.
        intros [Hpr|Hpr]; [by apply H1|]. destruct H2 as [E|H2].
        -- rewrite (Hs2 E) in Hpr. by apply elem_of_nil in Hpr.
        -- apply H2, elem_of_app. by right.
      * intros [-> [E|H]]; [done|]. split_and!; [done| |].
        -- intros pr Hpr. apply H. rewrite app_assoc, elem_of_app. by left.
        -- right. intros pr [Hpr|Hpr]%elem_of_app; apply H; rewrite app_assoc, elem_of_app; [left; by apply Hsub|by right].
Qed.

(** ** The program *)

(** The steps of a program, and the parts outside of tests before it. *)
Definition program_trace {constructors : Constructors} (u0 : UnitTest) (repeat : Z) (recreate has_tests : bool)
    (before : list TestPartResult) (ss : list Seen) : Prop :=
  exists u1 u2 iters, base u1 = base u0 /\ base u2 = base u0 /\
    ss = Saw (OnTestProgramStart u1) :: iters ++ [Saw (OnTestProgramEnd u2)] /\
    iterations_trace (variant u0) repeat recreate has_tests 0 before iters.

Lemma unit_event_plain u0 w (e : UnitTest -> Event) :
  standing u0 w -> is_part (e (unit_ w)) = false ->
  safe (unit_event e) w (fun w' r => r = Val tt /\ standing u0 w' /\ frame w w' /\ ad_hoc w' = ad_hoc w /\
    flags_ w' = flags_ w /\ view l (steps w') = view l (steps w) ++ [Saw (e (unit_ w))]).
Proof.
  intros [Hb Hbase Hin Hsm Hseed] He. destruct (between_ready _ _ Hb) as [(Hw & Hq & r & Hr) Hp].
  apply safe_modify. split; [done|]. split; [by split|].
  split; [by split|]. split; [done|]. split; [done|]. destruct Hw as (Hf & Hnd & Hl).
  cbn [steps add_steps]. by rewrite view_app, view_delivered, (forward_seen _ _ l).
Qed.

Lemma run_program_safe w fuel (sub has_tests : bool) :
  standing (unit_ w) w ->
  let repeat := if sub then 1 else ints (flags_ w) Flag.repeat in
  let recreate := bools (flags_ w) Flag.recreate_environments_when_repeating in
  0 <= repeat <= INT_MAX -> repeat <= Z.of_nat fuel ->
  safe (run_program program system_clock steady_clock gtest_cc GetTestTypeId fuel sub has_tests) w
    (fun w' r => exists passed ss, r = Val passed /\ between l w' /\ frame w w' /\
       view l (steps w') = view l (steps w) ++ ss /\
       program_trace (unit_ w) repeat recreate has_tests (ad_hoc w) ss /\
       (passed = true <-> repeat = 0 \/ all_passed (ad_hoc w ++ parts_of ss))).
Proof.
  intros Hst repeat recreate Hrep Hfuel. unfold run_program. set (u0 := unit_ w) in *.
  pose proof (standing_between _ _ Hst) as Hb.
  apply timer_safe; [done|]. intros w1 start Hp1 Hu1. pose proof (plain_between _ _ Hb Hp1) as Hb1.
  apply modify_unit_safe; [done|]. intros w2 Hp2 Hu2. rewrite Hu1 in Hu2.
  pose proof (plain_trans _ _ _ Hp1 Hp2) as Hp02.
  assert (Hst2 : standing u0 w2).
  { destruct Hst as [_ Hbase Hin Hsm Hseed]. split; [by eapply plain_between|by rewrite Hu2..]. }
  eapply safe_unit; [by apply (unit_event_plain u0)|]. intros w3 (Hst3 & Hf3 & Ha3 & Hfl3 & Hv3).
  assert (Hfl : flags_ w3 = flags_ w) by (rewrite Hfl3; apply Hp02).
  assert (Ha : ad_hoc w3 = ad_hoc w) by (rewrite Ha3; unfold ad_hoc; by rewrite Hu2).
  apply safe_bind, safe_get. rewrite Hfl. fold repeat.
  rewrite (proj2 (Z.ltb_ge repeat 0)), orb_false_r by lia. fold recreate.
  eapply safe_val_with.
  { apply (iterations_safe u0 fuel w3 0 repeat recreate has_tests false); [done|lia..]. }
  intros w4 f iters (Hst4 & Hf4 & Hv4 & Htr & Hfail). rewrite Ha in *.
  eapply safe_unit; [by apply (unit_event_plain u0)|]. intros w5 (Hst5 & Hf5 & Ha5 & Hfl5 & Hv5).
  apply modify_unit_safe; [by destruct Hst5|]. intros w6 Hp6 Hu6. apply safe_ret.
  exists (negb f), (Saw (OnTestProgramStart (unit_ w2)) :: iters ++ [Saw (OnTestProgramEnd (unit_ w4))]).
  split; [done|]. split; [eapply plain_between; [apply Hst5|done]|].
  destruct Hp02 as (F1 & S1 & _), Hp6 as (F6 & S6 & _). split.
  { eapply frame_trans; [exact F1|]. eapply frame_trans; [exact Hf3|]. eapply frame_trans; [exact Hf4|].
    eapply frame_trans; [exact Hf5|exact F6]. }
  split; [rewrite S6, Hv5, Hv4, Hv3, S1; by rewrite <- !app_assoc|]. split.
  - exists (unit_ w2), (unit_ w4), iters. split_and!; [apply Hst2|apply Hst4|done|exact Htr].
  - cbn [parts_of omap list_omap]. change (omap _ ?x) with (parts_of x). rewrite parts_of_app, app_nil_r.
    rewrite negb_true_iff, Hfail. naive_solver.
Qed.

End iterations.

(** ** The filter *)

(** A test or suite after the filter. *)
Definition filtered (s s' : TestSuite) : Prop :=
  test_indices_ s' = test_indices_ s /\ ad_hoc_test_result_ s' = ad_hoc_test_result_ s /\
  map result_ (test_info_list_ s') = map result_ (test_info_list_ s).

Lemma filter_tests_results flags shard n i name tests r k tests' r' k' :
  filter_tests flags shard n i name tests r k = Ok (tests', r', k') -> map result_ tests' = map result_ tests.
Proof.
  revert r k tests' r' k'; induction tests as [|t tests IH]; intros r k tests' r' k'; cbn [filter_tests].
  { by intros [= <- _ _]. }
  unfold filter_test. cbv zeta. destruct (iadd r _) as [r1|]; [|done]. rewrite bind_ok.
  destruct (iadd k _) as [k1|]; [|done]. rewrite bind_ok.
  destruct (filter_tests _ _ _ _ _ _ r1 k1) as [[[ts r2] k2]|] eqn:E; [|done]. rewrite bind_ok.
  intros [= <- _ _]. cbn [map result_]. f_equal. by eapply IH.
Qed.

Lemma filter_suites_filtered flags shard n i suites r k suites' m :
  filter_suites flags shard n i suites r k = Ok (suites', m) -> Forall2 filtered suites suites'.
Proof.
  revert r k suites' m; induction suites as [|s suites IH]; intros r k suites' m; cbn [filter_suites].
  { by intros [= <- _]. }
  destruct (filter_tests _ _ _ _ _ _ _ _) as [[[ts r'] k']|] eqn:Et; [|done]. rewrite bind_ok.
  destruct (filter_suites _ _ _ _ _ r' k') as [[ss m']|] eqn:Es; [|done]. rewrite bind_ok.
  intros [= <- _]. constructor; [|by eapply IH]. apply filter_tests_results in Et. by split_and!.
Qed.

Lemma FilterTests_filtered getenv flags shard suites suites' n :
  FilterTests getenv flags shard suites = Ok (suites', n) -> Forall2 filtered suites suites'.
Proof.
  unfold FilterTests. destruct shard; [|apply filter_suites_filtered].
  destruct (Int32FromEnvOrDie getenv kTestTotalShards (-1)) as [a|]; [|done]. rewrite bind_ok.
  destruct (Int32FromEnvOrDie getenv kTestShardIndex (-1)) as [b|]; [|done]. apply filter_suites_filtered.
Qed.

Lemma filtered_length s s' : filtered s s' -> length (test_info_list_ s') = length (test_info_list_ s).
Proof. intros (_ & _ & H). apply (f_equal (@length _)) in H. by rewrite !length_map in H. Qed.

Lemma filtered_unit u suites' :
  Forall2 filtered (suites_of u) suites' -> in_order u -> small u -> Forall fresh (suites_of u) ->
  in_order (set_suites u suites') /\ small (set_suites u suites') /\ Forall fresh suites'.
Proof.
  intros H [H1 H2] (Hd & Hn & Ht) Hf. pose proof (Forall2_length _ _ _ H) as Hlen. split_and!.
  - split; cbn; [by rewrite <- Hlen|]. clear -H H2. induction H as [|s s' l l' Hs _ IH]; [constructor|].
    apply Forall_cons in H2 as [H2 H3]. constructor; [|by apply IH].
    rewrite (filtered_length _ _ Hs). destruct Hs as (-> & _). exact H2.
  - split_and!; cbn; [lia|by rewrite <- Hlen; apply Hd|by rewrite <- Hlen|]. clear -H Ht.
    induction H as [|s s' l l' Hs _ IH]; [constructor|]. apply Forall_cons in Ht as [H2 H3].
    constructor; [|by apply IH]. by rewrite (filtered_length _ _ Hs).
  - clear -H Hf. induction H as [|s s' l l' (_ & Ha & Hr) _ IH]; [constructor|].
    apply Forall_cons in Hf as [[H2 H3] H4]. constructor; [|by apply IH]. split; [by rewrite Ha|].
    apply Forall_map with (f := result_) (P := fun r => test_part_results_ r = []). rewrite Hr.
    by apply Forall_map.
Qed.
