(* ===== verification/RunnerTheorems.v ===== *)
(** * Running tests: the properties *)

From S2P Require Import Prelude Outcome Common CStr FilePath TestFilter TestResult TestSelect Unordered UnitTest ReportFormat CommandLine.
From S2P Require Import XmlReport XmlTheorems JsonReport Listeners Runner RunnerSteps RunnerTest RunnerSuite RunnerProgram RunnerIterations.

(** ** Every selected test starts and ends once in an iteration *)

(** A test by the names of its suite and its own. *)
Definition name_of (t : TestInfo) : text * text := (test_suite_name_ t, test_name_ t).
Definition starts (ss : list Seen) : list (text * text) :=
  omap (fun s => match s with Saw (OnTestStart t) => Some (name_of t) | _ => None end) ss.
Definition ends (ss : list Seen) : list (text * text) :=
  omap (fun s => match s with Saw (OnTestEnd t) => Some (name_of t) | _ => None end) ss.

(** The tests that should run. *)
Definition tests_to_run (ts : list TestInfo) : list (text * text) :=
  omap (fun t => if should_run_ t then Some (name_of t) else None) ts.
Definition suite_to_run (s : TestSuite) : list (text * text) :=
  if suite_should_run_ s then tests_to_run (test_info_list_ s) else [].
Definition names_to_run (suites : list TestSuite) : list (text * text) := flat_map suite_to_run suites.

(** The events around the set-up and the tear-down of the environments. *)
Definition set_up_starts (e : Event) : bool := match e with OnEnvironmentsSetUpStart _ => true | _ => false end.
Definition set_up_ends (e : Event) : bool := match e with OnEnvironmentsSetUpEnd _ => true | _ => false end.
Definition tear_down_starts (e : Event) : bool :=
  match e with OnEnvironmentsTearDownStart _ => true | _ => false end.
Definition tear_down_ends (e : Event) : bool := match e with OnEnvironmentsTearDownEnd _ => true | _ => false end.
Definition environment_event (e : Event) : bool :=
  set_up_starts e || set_up_ends e || tear_down_starts e || tear_down_ends e.
Definition spans (ss : list Seen) : list Event :=
  omap (fun s => match s with Saw e => if environment_event e then Some e else None | Code _ => None end) ss.

(** The tests [names] start and end in the steps, in this order, and no environment
    is set up or torn down. *)
Definition covers (ss : list Seen) (names : list (text * text)) : Prop :=
  starts ss = names /\ ends ss = names /\ spans ss = [].

Section rounds.
Context {constructors : Constructors}.

Lemma covers_app s1 s2 n1 n2 : covers s1 n1 -> covers s2 n2 -> covers (s1 ++ s2) (n1 ++ n2).
Proof.
  intros (<- & E1 & F1) (<- & E2 & F2). unfold covers, starts, ends, spans in *.
  by rewrite !omap_app, E1, E2, F1, F2.
Qed.
Lemma covers_nil : covers [] [].
Proof. done. Qed.

Lemma covers_parts ps : covers (map part_seen ps) [].
Proof. induction ps as [|p ps IH]; [done|]. exact IH. Qed.
Lemma covers_piece c ss : piece c ss -> covers ss [].
Proof. intros (ps & ->). apply (covers_parts ps). Qed.

Lemma covers_none s1 s2 : covers s1 [] -> covers s2 [] -> covers (s1 ++ s2) [].
Proof. apply (covers_app _ _ [] []). Qed.

Lemma covers_test_run f same before ss : test_run f same before ss -> covers ss [].
Proof.
  intros [s0 (e & s & p & Hp & _ & _ & ->)| | | |]; unfold object_made in *; destruct_and?;
    repeat first [apply covers_none | by eapply covers_piece | apply (covers_parts [_])].
Qed.

Lemma erase_name t t' : erase_test t' = erase_test t -> name_of t' = name_of t.
Proof. intros H. unfold name_of. by injection H as -> ->. Qed.

Lemma covers_bracket t t' mid :
  erase_test t' = erase_test t -> covers mid [] ->
  covers ([Saw (OnTestStart t)] ++ mid ++ [Saw (OnTestEnd t')]) [name_of t].
Proof.
  intros E (H1 & H2 & H3). unfold covers, starts, ends, spans in *. rewrite !omap_app, H1, H2, H3. cbn.
  by rewrite (erase_name _ _ E).
Qed.

Lemma covers_test ff t ss : test_trace ff t ss -> covers ss (tests_to_run [t]).
Proof.
  intros [Hr _|Hr _|mid t' Hr Hrun [He _]]; cbn; rewrite Hr; [done|done|].
  apply (covers_bracket t t' mid He). by eapply covers_test_run.
Qed.

Lemma covers_skip t ss : skip_trace t ss -> covers ss (tests_to_run [t]).
Proof.
  intros [Hr|p t' Hr _ [He _]]; cbn; rewrite Hr; [done|].
  exact (covers_bracket t t' [part_seen p] He (covers_parts [p])).
Qed.

Lemma tests_to_run_cons t ts : tests_to_run (t :: ts) = tests_to_run [t] ++ tests_to_run ts.
Proof. exact (omap_app _ [t] ts). Qed.

Lemma covers_skips ts ss : skips ts ss -> covers ss (tests_to_run ts).
Proof.
  intros (sss & H & ->). induction H as [|t ss ts sss Ht _ IH]; [done|].
  rewrite tests_to_run_cons. apply covers_app; [by apply covers_skip|done].
Qed.

Lemma covers_tests ff skip ts ss : tests_trace ff skip ts ss -> covers ss (tests_to_run ts).
Proof.
  intros H. induction H as [|t ts s1 s2 Ht _ IH|t ts s1 s2 Ht _ Hs|ts ss Hs]; [done| | |].
  - rewrite tests_to_run_cons. apply covers_app; [by eapply covers_test|done].
  - rewrite tests_to_run_cons. apply covers_app; [by eapply covers_test|by apply covers_skips].
  - by apply covers_skips.
Qed.

Lemma covers_optional c f ss : optional_piece c f ss -> covers ss [].
Proof. destruct f; [apply covers_piece|intros ->; apply covers_nil]. Qed.

Lemma covers_brackets s1 s2 mid names : covers mid names -> covers (suite_brackets s1 s2 mid) names.
Proof.
  intros H. unfold suite_brackets. rewrite <- (app_nil_l names). apply covers_app; [done|].
  rewrite <- (app_nil_r names). by apply covers_app.
Qed.

(** The names of the tests of a suite, in the order in which they run. *)
Definition suite_order (s : TestSuite) : list (text * text) :=
  if suite_should_run_ s then tests_to_run (tests_in_order s) else [].

Lemma covers_suite s ss : suite_trace s ss -> covers ss (suite_order (sort_tests s)).
Proof.
  unfold suite_order. change (suite_should_run_ (sort_tests s)) with (suite_should_run_ s).
  intros [->|s1 s2 up tests down -> _ _ Hup Htr Hdown]; [done|]. apply covers_brackets.
  rewrite <- (app_nil_l (tests_to_run _)). apply covers_app; [by eapply covers_optional|].
  rewrite <- (app_nil_r (tests_to_run _)).
  apply covers_app; [by eapply covers_tests|by eapply covers_optional].
Qed.

Lemma covers_suite_skip s ss : suite_skip_trace s ss -> covers ss (suite_order s).
Proof.
  unfold suite_order. intros [->|s1 s2 tests -> _ _ Hsk]; [done|]. by apply covers_brackets, covers_skips.
Qed.

(** In whatever order, each test once. *)
Lemma tests_in_order_perm s : ordered s -> tests_in_order s ≡ₚ test_info_list_ s.
Proof.
  unfold ordered, is_order, tests_in_order. intros ->. 
  replace (omap _ _) with (omap (fun i => test_info_list_ s !! i) (seq 0 (length (test_info_list_ s)))).
  - by rewrite omap_seq.
  - generalize (seq 0 (length (test_info_list_ s))). induction l as [|i l IH]; [done|]. cbn.
    rewrite Nat2Z.id. by rewrite IH.
Qed.

Lemma suite_order_perm s : ordered s -> suite_order s ≡ₚ suite_to_run s.
Proof.
  intros H. unfold suite_order, suite_to_run. destruct (suite_should_run_ s); [|done].
  unfold tests_to_run. by rewrite (tests_in_order_perm s H).
Qed.

Lemma sort_to_run s : suite_to_run (sort_tests s) ≡ₚ suite_to_run s.
Proof.
  unfold suite_to_run. change (suite_should_run_ (sort_tests s)) with (suite_should_run_ s).
  destruct (suite_should_run_ s); [|done]. unfold tests_to_run.
  change (test_info_list_ (sort_tests s)) with (stable_sort comes_before (test_info_list_ s)).
  by rewrite stable_sort_perm.
Qed.

(** Each of the names starts and ends once, and no environment is set up or torn
    down. *)
Definition runs_once (ss : list Seen) (names : list (text * text)) : Prop :=
  starts ss = ends ss /\ starts ss ≡ₚ names /\ spans ss = [].

Lemma covers_once ss n names : covers ss n -> n ≡ₚ names -> runs_once ss names.
Proof. intros (H1 & H2 & H3) Hn. split; [congruence|]. by rewrite H1. Qed.

Lemma once_app s1 s2 n1 n2 : runs_once s1 n1 -> runs_once s2 n2 -> runs_once (s1 ++ s2) (n1 ++ n2).
Proof.
  intros (E1 & P1 & F1) (E2 & P2 & F2). unfold runs_once, starts, ends, spans in *. rewrite !omap_app.
  split; [congruence|]. split; [by rewrite P1, P2|by rewrite F1, F2].
Qed.

Lemma once_suites_skipped suites ss :
  Forall ordered suites -> suites_skipped suites ss -> runs_once ss (names_to_run suites).
Proof.
  intros Ho (sss & H & ->). induction H as [|s ss suites sss Hs _ IH]; [done|].
  apply Forall_cons in Ho as [Ho1 Ho2]. apply once_app; [|by apply IH].
  eapply covers_once; [by apply covers_suite_skip|by apply suite_order_perm].
Qed.

Lemma once_suites suites ss :
  Forall ordered suites -> suites_trace suites ss -> runs_once ss (names_to_run suites).
Proof.
  intros Ho H. assert (Hone : forall s ss, ordered s -> suite_trace s ss -> runs_once ss (suite_to_run s)).
  { intros s s1 Hs Htr. eapply covers_once; [by apply covers_suite|].
    by rewrite suite_order_perm, sort_to_run by (by apply sort_ordered). }
  induction H as [|s suites s1 s2 Hs _ IH|s suites s1 s2 Hs _ Hsk]; [done| |];
    apply Forall_cons in Ho as [Ho1 Ho2]; apply once_app; auto. by apply once_suites_skipped.
Qed.

(** ** Iterations *)

Lemma tests_to_run_erase ts : tests_to_run (map erase_test ts) = tests_to_run ts.
Proof.
  induction ts as [|t ts IH]; [done|]. cbn [map].
  by rewrite (tests_to_run_cons (erase_test t)), (tests_to_run_cons t), IH.
Qed.

Lemma base_to_run s s' : base_suite s' = base_suite s -> suite_to_run s' ≡ₚ suite_to_run s.
Proof.
  intros H. assert (Hr : suite_should_run_ s' = suite_should_run_ s) by (by apply (f_equal suite_should_run_) in H).
  apply (f_equal test_info_list_) in H.
  change (stable_sort comes_before (map erase_test (test_info_list_ s')) =
          stable_sort comes_before (map erase_test (test_info_list_ s))) in H.
  unfold suite_to_run. rewrite Hr. destruct (suite_should_run_ s); [|done].
  rewrite <- (tests_to_run_erase (test_info_list_ s')), <- (tests_to_run_erase (test_info_list_ s)).
  unfold tests_to_run. rewrite <- (stable_sort_perm comes_before (map erase_test (test_info_list_ s'))), H.
  by rewrite stable_sort_perm.
Qed.

Lemma base_names u u0 : base u = base u0 -> names_to_run (suites_of u) ≡ₚ names_to_run (suites_of u0).
Proof.
  unfold base. intros [= _ _ H]. revert H. generalize (suites_of u0). induction (suites_of u) as [|s ss IH];
    intros [|s0 ss0]; try done. intros H. cbn [map] in H.
  assert (H1 : base_suite s = base_suite s0) by congruence.
  assert (H2 : map base_suite ss = map base_suite ss0) by congruence.
  cbn. by rewrite (base_to_run _ _ H1), (IH _ H2).
Qed.

Lemma suites_to_run_perm u : prepared u -> suites_to_run u ≡ₚ suites_of u.
Proof.
  intros [H _ _]. unfold suites_to_run, is_order in *. rewrite H.
  replace (omap _ _) with (omap (fun i => suites_of u !! i) (seq 0 (length (suites_of u)))).
  - by rewrite omap_seq.
  - generalize (seq 0 (length (suites_of u))). induction l as [|i l IH]; [done|]. cbn.
    rewrite Nat2Z.id. by rewrite IH.
Qed.

(** The parts that are seen from an event [start] to the next [end_]; [within]
    whether there was such a start already. *)
Fixpoint parts_between (start end_ : Event -> bool) (within : bool) (ss : list Seen) : list TestPartResult :=
  match ss with
  | [] => []
  | Code _ :: ss => parts_between start end_ within ss
  | Saw (OnTestPartResult p) :: ss => (if within then [p] else []) ++ parts_between start end_ within ss
  | Saw e :: ss => parts_between start end_ (if start e then true else if end_ e then false else within) ss
  end.

(** The parts of the set-up of the environments, and of their tear-down: these are
    the parts outside of tests and suites. *)
Definition set_up_parts (ss : list Seen) : list TestPartResult :=
  parts_between set_up_starts set_up_ends false ss.
Definition tear_down_parts (ss : list Seen) : list TestPartResult :=
  parts_between tear_down_starts tear_down_ends false ss.
Definition outside_parts (ss : list Seen) : list TestPartResult := set_up_parts ss ++ tear_down_parts ss.

(** [Test::IsSkipped()] outside of tests, by the parts that were reported there. *)
Definition skipped_outside (parts : list TestPartResult) : bool :=
  negb (existsb failed parts) && existsb skipped parts.

(** The tests of an iteration that start, by the parts [outside] of tests when the
    tests are due: all of them, or none if something outside of tests has skipped
    and nothing there has failed. *)
Definition round_ok (has_tests : bool) (names : list (text * text)) (outside : list TestPartResult)
    (round : list (text * text)) : Prop :=
  if has_tests && negb (skipped_outside outside) then round ≡ₚ names else round = [].

(** The steps between two events of the iteration [i]. *)
Definition iteration_steps (i : Z) (ss : list Seen) : Prop :=
  exists u1 mid u2, ss = Saw (OnTestIterationStart u1 i) :: mid ++ [Saw (OnTestIterationEnd u2 i)].

Lemma between_unmarked start end_ within s1 s2 :
  (forall e, environment_event e = false -> start e = false /\ end_ e = false) -> spans s1 = [] ->
  parts_between start end_ within (s1 ++ s2) =
  (if within then parts_of s1 else []) ++ parts_between start end_ within s2.
Proof.
  intros Hmark. induction s1 as [|[c|e] s1 IH]; intros H; [by destruct within|by apply IH|].
  cbn [spans omap list_omap] in H. change (omap _ s1) with (spans s1) in H.
  destruct (environment_event e) eqn:Ee; [done|]. specialize (IH H). destruct (Hmark e Ee) as [Hs He].
  destruct e; cbn [app parts_between]; try (rewrite Hs, He, IH; by destruct within).
  rewrite IH. by destruct within.
Qed.

Lemma set_up_unmarked e : environment_event e = false -> set_up_starts e = false /\ set_up_ends e = false.
Proof. by destruct e. Qed.
Lemma tear_down_unmarked e :
  environment_event e = false -> tear_down_starts e = false /\ tear_down_ends e = false.
Proof. by destruct e. Qed.

Lemma outside_unmarked s1 s2 :
  spans s1 = [] -> set_up_parts (s1 ++ s2) = set_up_parts s2 /\ tear_down_parts (s1 ++ s2) = tear_down_parts s2.
Proof.
  intros H. unfold set_up_parts, tear_down_parts.
  by rewrite !(between_unmarked _ _ _ s1) by (done || apply set_up_unmarked || apply tear_down_unmarked).
Qed.
Lemma starts_app s1 s2 : starts (s1 ++ s2) = starts s1 ++ starts s2.
Proof. apply omap_app. Qed.
Lemma ends_app s1 s2 : ends (s1 ++ s2) = ends s1 ++ ends s2.
Proof. apply omap_app. Qed.

Lemma pieces_cover (c : Z -> UserCode) envs pss :
  Forall2 (fun env ps => piece (c env) ps) envs pss -> covers (concat pss) [].
Proof.
  induction 1 as [|env ps envs pss Hps _ IH]; [done|].
  apply (covers_app _ _ [] []); [by eapply covers_piece|done].
Qed.

(** The steps of the environments, as they are seen from the rest. *)
Lemma set_up_sees happens envs u up rest :
  environment_part happens EnvSetUp OnEnvironmentsSetUpStart OnEnvironmentsSetUpEnd envs u up ->
  starts up = [] /\ ends up = [] /\ set_up_parts (up ++ rest) = parts_of up ++ set_up_parts rest /\
  tear_down_parts (up ++ rest) = tear_down_parts rest.
Proof.
  unfold environment_part. destruct happens; [|by intros ->].
  intros (pss & Hp & u1 & u2 & _ & _ & ->). destruct (pieces_cover _ _ _ Hp) as (H1 & H2 & H3).
  unfold starts, ends, parts_of, set_up_parts, tear_down_parts in *.
  cbn [app omap list_omap parts_between set_up_starts tear_down_starts tear_down_ends].
  rewrite !omap_app, H1, H2, <- !app_assoc, !(between_unmarked _ _ _ (concat pss))
    by (done || apply set_up_unmarked || apply tear_down_unmarked).
  done.
Qed.

Lemma tear_down_sees happens envs u down rest :
  environment_part happens EnvTearDown OnEnvironmentsTearDownStart OnEnvironmentsTearDownEnd envs u down ->
  starts down = [] /\ ends down = [] /\ set_up_parts (down ++ rest) = set_up_parts rest /\
  tear_down_parts (down ++ rest) = parts_of down ++ tear_down_parts rest.
Proof.
  unfold environment_part. destruct happens; [|by intros ->].
  intros (pss & Hp & u1 & u2 & _ & _ & ->). destruct (pieces_cover _ _ _ Hp) as (H1 & H2 & H3).
  unfold starts, ends, parts_of, set_up_parts, tear_down_parts in *.
  cbn [app omap list_omap parts_between set_up_starts set_up_ends tear_down_starts].
  rewrite !omap_app, H1, H2, <- !app_assoc, !(between_unmarked _ _ _ (concat pss))
    by (done || apply set_up_unmarked || apply tear_down_unmarked).
  done.
Qed.

(** What the tests of an iteration see of the parts outside. *)
Lemma tests_round u0 u outside run :
  variant u0 u -> tests_part outside (suites_to_run u) run ->
  starts run = ends run /\ spans run = [] /\ round_ok true (names_to_run (suites_of u0)) outside (starts run).
Proof.
  intros (shuffled & Hbase & Hprep & _).
  assert (Hnames : names_to_run (suites_to_run u) ≡ₚ names_to_run (suites_of u0)).
  { rewrite <- (base_names _ _ Hbase). apply Permutation_flat_map. by apply suites_to_run_perm. }
  assert (Ho : Forall ordered (suites_to_run u)).
  { rewrite (suites_to_run_perm _ Hprep). by apply prepared_suites. }
  unfold tests_part, round_ok, skipped_outside. cbn [andb].
  destruct (negb (existsb failed outside) && existsb skipped outside); [by intros ->|]. cbn [negb].
  intros H. assert (Hr : runs_once run (names_to_run (suites_to_run u))).
  { destruct (existsb fatally_failed outside); [by apply once_suites_skipped|by apply once_suites]. }
  destruct Hr as (E & P & F). split; [done|]. split; [done|]. by rewrite P.
Qed.

Lemma iteration_round u0 u i set_up tear_down has_tests before ss after :
  variant u0 u -> iteration_trace u i set_up tear_down has_tests before ss after ->
  iteration_steps i ss /\ after = before ++ outside_parts ss /\ starts ss = ends ss /\
  round_ok has_tests (names_to_run (suites_of u0)) (before ++ set_up_parts ss) (starts ss).
Proof.
  intros Hvar (mid & (u1 & u2 & _ & _ & ->) & H). split; [by exists u1, mid, u2|].
  unfold outside_parts. set (ss := _ :: _).
  assert (Hss : starts ss = starts mid /\ ends ss = ends mid /\
    set_up_parts ss = set_up_parts (mid ++ [Saw (OnTestIterationEnd u2 i)]) /\
    tear_down_parts ss = tear_down_parts (mid ++ [Saw (OnTestIterationEnd u2 i)])).
  { subst ss. change (Saw (OnTestIterationStart u1 i) :: ?x) with ([Saw (OnTestIterationStart u1 i)] ++ x).
    rewrite !starts_app, !ends_app. cbn. rewrite !app_nil_r. done. }
  clearbody ss. destruct Hss as (-> & -> & -> & ->). destruct has_tests; [|by destruct H as [-> ->]; rewrite app_nil_r].
  destruct H as (up & run & down & -> & Hup & Hrun & Hdown & ->).
  destruct (tests_round _ _ _ _ Hvar Hrun) as (E & F & Hround). rewrite <- !app_assoc, !starts_app, !ends_app.
  set (rest := [Saw (OnTestIterationEnd u2 i)]).
  destruct (set_up_sees _ _ _ _ (run ++ down ++ rest) Hup) as (-> & -> & -> & ->).
  destruct (outside_unmarked run (down ++ rest) F) as [-> ->].
  destruct (tear_down_sees _ _ _ _ rest Hdown) as (-> & -> & -> & ->). cbn [rest set_up_parts tear_down_parts].
  rewrite !app_nil_r, E in *. done.
Qed.

(** All iterations from [i] on, with the parts outside of tests up to each. *)
Definition rounds_ok (has_tests : bool) (names : list (text * text)) (i : Z) (before : list TestPartResult)
    (iters : list (list Seen)) : Prop :=
  forall k ss, iters !! k = Some ss ->
    iteration_steps (i + Z.of_nat k) ss /\ starts ss = ends ss /\
    round_ok has_tests names (before ++ flat_map outside_parts (take k iters) ++ set_up_parts ss) (starts ss).

Lemma iterations_rounds u0 repeat recreate has_tests i before ss :
  iterations_trace (variant u0) repeat recreate has_tests i before ss -> i <= repeat ->
  exists iters, ss = concat iters /\ Z.of_nat (length iters) = repeat - i /\
    rounds_ok has_tests (names_to_run (suites_of u0)) i before iters.
Proof.
  induction 1 as [before|i before u s1 after s2 Hne Hvar Htr _ IH]; intros Hi.
  { exists []. split_and!; [done|cbn; lia|done]. }
  destruct IH as (iters & -> & Hlen & Hall); [lia|].
  destruct (iteration_round _ _ _ _ _ _ _ _ _ Hvar Htr) as (Hsteps & -> & E & Hround).
  exists (s1 :: iters). split_and!; [done|cbn [length]; lia|].
  intros [|k] ss Hk; cbn [lookup list_lookup take flat_map app] in *.
  - injection Hk as <-. by rewrite Z.add_0_r.
  - destruct (Hall k ss Hk) as (H1 & H2 & H3). rewrite <- !app_assoc in *.
    replace (i + Z.of_nat (S k)) with (i + 1 + Z.of_nat k) by lia. done.
Qed.
End rounds.

(** ** [RUN_ALL_TESTS()] *)

(** The state after the registration of the tests and [InitGoogleTest]: the
    listener [l] is attached, and the flags ask to run the tests, to catch
    exceptions and not to stop at a failure. *)
Record initialized {U} (l : Listener) (w : World U) : Prop := {
  init_watched : watched l w;
  init_outside : cur w = (None, None);
  init_args : g_argvs (setup w) <> [];
  init_help : help_flag (setup w) = false;
  init_parsed : post_flag_parse_init_performed_ (setup w) = true;
  init_parent : internal_run_death_test_flag_ (setup w) = None;
  init_quiet : quiet (flags_ w);
  init_catch : bools (flags_ w) Flag.catch_exceptions = true;
  init_run : bools (flags_ w) Flag.list_tests = false;
  init_registered : registered (unit_suites (unit_ w));
  init_size : Z.of_nat (length (suites_of (unit_ w))) <= kMaxRange /\
    Forall (fun s => Z.of_nat (length (test_info_list_ s)) <= kMaxRange) (suites_of (unit_ w));
  init_fresh : Forall fresh (suites_of (unit_ w)) }.

Lemma registered_in_order u : registered (unit_suites u) -> in_order u.
Proof.
  intros [H1 _ H3 _]. split; [exact H1|]. eapply Forall_impl; [exact H3|]. by intros s [? _].
Qed.

Lemma registered_small u :
  registered (unit_suites u) -> Z.of_nat (length (suites_of u)) <= kMaxRange ->
  Forall (fun s => Z.of_nat (length (test_info_list_ s)) <= kMaxRange) (suites_of u) -> small u.
Proof.
  intros [_ _ _ (deaths & others & Hu & Hd & _)] H1 H2. split; [|done]. unfold suites_of.
  rewrite Hu, Hd, length_app. lia.
Qed.

Lemma random_seed_flag_ok now v : 1 <= GetRandomSeedFromFlag now v <= kMaxRandomSeed.
Proof.
  unfold GetRandomSeedFromFlag, kMaxRandomSeed. cbv zeta.
  pose proof (Z.mod_pos_bound (((if v =? 0 then now else v) mod 2 ^ 32 - 1) mod 2 ^ 32) 99999). lia.
Qed.

Section run_all.
Context {U FS : Type} `{!FileSystem FS} (program : UserCode -> U -> body U)
  (system_clock steady_clock : nat -> Z) (gtest_cc : text) (getenv : text -> option text)
  (stdout_is_tty : bool) (GetTestTypeId : Z) (fs : FS) (name_fuel : nat) (can_write : text -> bool)
  (localtime_r : Z -> option tm) (l : Listener).
Implicit Types w : World U.
#[local] Instance own_constructors : Constructors := constructors_of program gtest_cc l.

(** The seed does not matter for what runs. *)
Lemma run_selected_safe w fuel has_tests :
  civil program -> watched l w -> cur w = (None, None) -> catch_exceptions_ w = true -> quiet (flags_ w) ->
  in_order (unit_ w) -> small (unit_ w) ->
  0 <= ints (flags_ w) Flag.repeat <= INT_MAX -> ints (flags_ w) Flag.repeat <= Z.of_nat fuel ->
  safe (run_selected program system_clock steady_clock gtest_cc GetTestTypeId fuel false has_tests) w
    (fun w' r => exists passed ss, r = Val passed /\ view l (steps w') = view l (steps w) ++ ss /\
       program_trace (unit_ w) (ints (flags_ w) Flag.repeat)
         (bools (flags_ w) Flag.recreate_environments_when_repeating) has_tests (ad_hoc w) ss /\
       (passed = true <-> ints (flags_ w) Flag.repeat = 0 \/ all_passed (ad_hoc w ++ parts_of ss))).
Proof.
  intros Hcivil Hw Hcur Hcatch Hq Hin Hsm Hrep Hfuel. unfold run_selected. apply safe_bind, safe_get.
  assert (Hnow : safe (if ints (flags_ w) Flag.random_seed =? 0 then GetTimeInMillis system_clock else ret 0) w
    (fun w' r => exists now, r = Val now /\ (w' = w \/ w' = tick w))).
  { destruct (_ =? 0).
    - apply safe_bind, safe_get, safe_bind, safe_modify, safe_ret. eauto.
    - apply safe_ret. eauto. }
  eapply safe_val; [exact Hnow|]. intros w2 now Hw2. apply safe_bind, safe_modify. set (w3 := with_unit w2 _).
  assert (Hw3 : flags_ w3 = flags_ w /\ steps w3 = steps w /\ ad_hoc w3 = ad_hoc w /\ unit_ w3 =
      with_random (unit_ w) (GetRandomSeedFromFlag now (ints (flags_ w) Flag.random_seed)) (random_state_ (unit_ w)) /\
      between l w3) by (destruct Hw2 as [-> | ->]; done).
  clearbody w3. destruct Hw3 as (Hfl3 & Hst3 & Ha3 & Hu3 & Hb3).
  eapply safe_mono.
  { apply (run_program_safe program system_clock steady_clock gtest_cc GetTestTypeId l Hcivil w3 fuel false has_tests);
      cbv zeta iota; rewrite ?Hfl3; [|done..].
    split; [done|done|rewrite Hu3; exact Hin|rewrite Hu3; exact Hsm|rewrite Hu3; apply random_seed_flag_ok]. }
  cbv zeta iota. rewrite Hfl3, Ha3, Hst3, Hu3. intros w4 r (passed & ss & -> & _ & _ & Hv & Htr & Hpass).
  exists passed, ss. done.
Qed.

Definition RUN_ALL_TESTS (fuel : nat) : M Z :=
  UnitTest_Run program system_clock steady_clock gtest_cc getenv stdout_is_tty GetTestTypeId fs
    name_fuel can_write fuel localtime_r.

(** The shard status file, if any, can be written. *)
Definition shard_status_ok : Prop :=
  match getenv kTestShardStatusFile with None => True | Some f => can_write f = true end.

(** The tests that are to run, as [RunAllTests] selects them. *)
Definition selected w (suites : list TestSuite) (count : Z) : Prop :=
  selects getenv
    (mkFilterFlags (strings (flags_ w) Flag.filter) (bools (flags_ w) Flag.also_run_disabled_tests))
    (suites_of (unit_ w)) suites count.

Lemma RUN_ALL_TESTS_safe w suites count fuel
    (Hcivil : civil program) (Hinit : initialized l w) (Hstatus : shard_status_ok)
    (Hselect : selected w suites count)
    (Hrepeat : 0 <= ints (flags_ w) Flag.repeat <= INT_MAX)
    (Hfuel : ints (flags_ w) Flag.repeat <= Z.of_nat fuel) :
  safe (RUN_ALL_TESTS fuel) w (fun w' r => exists code ss, r = Val code /\
    view l (steps w') = view l (steps w) ++ ss /\
    program_trace (set_suites (unit_ w) suites) (ints (flags_ w) Flag.repeat)
      (bools (flags_ w) Flag.recreate_environments_when_repeating) (0 <? count) (ad_hoc w) ss /\
    (code = 0 \/ code = 1) /\
    (code = 0 <-> ints (flags_ w) Flag.repeat = 0 \/ all_passed (ad_hoc w ++ parts_of ss))).
Proof.
  destruct Hinit as [Hw Hcur Hargs Hhelp Hparsed Hparent Hq Hcatch Hrun Hreg [Hn Ht] Hfresh].
  destruct Hselect as (should_shard & Hshard & Hfilter).
  pose proof (FilterTests_filtered _ _ _ _ _ _ Hfilter) as Hfiltered.
  destruct (filtered_unit _ _ Hfiltered (registered_in_order _ Hreg) (registered_small _ Hreg Hn Ht) Hfresh)
    as (Hin & Hsm & _).
  unfold RUN_ALL_TESTS, UnitTest_Run. apply safe_bind, safe_get. rewrite Hcatch.
  apply safe_bind, safe_modify. set (w0 := set_catch_exceptions w true).
  apply safe_bind. unfold HandleExceptionsInMethodIfSupported. apply safe_bind, safe_get.
  change (catch_exceptions_ w0) with true. cbv iota. apply safe_catch.
  unfold RunAllTests. apply safe_bind, safe_get. change (setup w0) with (setup w). rewrite Hhelp.
  unfold PostFlagParsingInit. apply safe_bind, safe_bind, safe_get. change (setup w0) with (setup w).
  rewrite Hparsed. apply safe_ret.
  assert (Hstat : safe (WriteToShardStatusFileIfNeeded getenv can_write) w0 (fun w' r => r = Val tt /\ w' = w0)).
  { unfold WriteToShardStatusFileIfNeeded, shard_status_ok in *. destruct (getenv kTestShardStatusFile);
      [rewrite Hstatus|]; by apply safe_ret. }
  eapply safe_unit; [exact Hstat|]. intros ? ->. apply safe_bind, safe_get.
  change (setup w0) with (setup w). rewrite Hparent, bool_decide_false by (by intros [? ?]).
  apply safe_bind, safe_lift. rewrite Hshard. cbn [safe_outcome].
  unfold filter_unit. apply safe_bind, safe_bind, safe_get, safe_bind, safe_get, safe_bind, safe_lift.
  change (flags_ w0) with (flags_ w). change (unit_ w0) with (unit_ w). rewrite Hfilter.
  cbn [safe_outcome fst snd]. apply safe_bind, safe_modify, safe_ret.
  set (u1 := set_suites (unit_ w) suites) in *. set (w1 := with_unit w0 u1).
  match goal with |- safe _ ?v _ => change v with w1 end.
  apply safe_bind, safe_get. change (flags_ w1) with (flags_ w). apply safe_bind, safe_get. rewrite Hrun.
  eapply safe_val_with.
  { apply (run_selected_safe w1 fuel (0 <? count)); done. }
  intros w4 passed ss (Hv4 & Htr & Hpass). apply safe_bind, safe_get.
  rewrite (bool_decide_false _ Hargs). cbn [negb when]. apply safe_bind, safe_ret, safe_ret, safe_ret.
  exists (if passed then 0 else 1), ss. split_and!; [done|exact Hv4|exact Htr|destruct passed; auto|].
  transitivity (passed = true); [by destruct passed|exact Hpass].
Qed.

End run_all.

(** C20. RUN_ALL_TESTS() of a registered program whose code throws nothing but
    exceptions of its own (from the places that C++ allows) and leaves
    [throw_on_failure] and [break_on_failure] off: unless a counter overflows, it
    returns.  What an attached listener has seen is a program: in every iteration
    the environments, then the suites and tests in their order, with set-up and
    tear-down as [test_run], [tests_trace] and [suite_trace] have them.  The value
    is 0 exactly if no failed test part was reported (or nothing was to be
    repeated), and 1 otherwise. *)
Theorem RUN_ALL_TESTS_correct {U FS} `{!FileSystem FS} (program : UserCode -> U -> body U)
    system_clock steady_clock gtest_cc getenv stdout_is_tty GetTestTypeId (fs : FS) name_fuel can_write
    localtime_r l (w : World U) suites count fuel
    (Hcivil : civil program) (Hinit : initialized l w) (Hstatus : shard_status_ok getenv can_write)
    (Hselect : selected getenv w suites count)
    (Hrepeat : 0 <= ints (flags_ w) Flag.repeat <= INT_MAX)
    (Hfuel : ints (flags_ w) Flag.repeat <= Z.of_nat fuel) :
  safe (RUN_ALL_TESTS program system_clock steady_clock gtest_cc getenv stdout_is_tty GetTestTypeId fs
          name_fuel can_write localtime_r fuel) w
    (fun w' r => exists code ss, r = Val code /\
      view l (steps w') = view l (steps w) ++ ss /\
      program_trace (constructors := constructors_of program gtest_cc l) (set_suites (unit_ w) suites)
        (ints (flags_ w) Flag.repeat) (bools (flags_ w) Flag.recreate_environments_when_repeating)
        (0 <? count) (ad_hoc w) ss /\
      (code = 0 \/ code = 1) /\
      (code = 0 <-> ints (flags_ w) Flag.repeat = 0 \/ all_passed (ad_hoc w ++ parts_of ss))).
Proof. by apply RUN_ALL_TESTS_safe. Qed.

(** C21. In every iteration every selected test starts and ends exactly once,
    whatever fails and in whatever order, or none starts.  None starts exactly if
    there is no test to run or if, when the tests of this iteration are due, the
    parts reported outside of tests (before the run, or in the set-up and tear-down
    of environments of this and earlier iterations) have a skip and no failure: a
    skip inside of a test leaves out nothing. *)
Theorem selected_tests_run_once {U FS} `{!FileSystem FS} (program : UserCode -> U -> body U)
    system_clock steady_clock gtest_cc getenv stdout_is_tty GetTestTypeId (fs : FS) name_fuel can_write
    localtime_r l (w : World U) suites count fuel
    (Hcivil : civil program) (Hinit : initialized l w) (Hstatus : shard_status_ok getenv can_write)
    (Hselect : selected getenv w suites count)
    (Hrepeat : 0 <= ints (flags_ w) Flag.repeat <= INT_MAX)
    (Hfuel : ints (flags_ w) Flag.repeat <= Z.of_nat fuel) :
  safe (RUN_ALL_TESTS program system_clock steady_clock gtest_cc getenv stdout_is_tty GetTestTypeId fs
          name_fuel can_write localtime_r fuel) w
    (fun w' _ => exists u1 u2 iters,
      view l (steps w') = view l (steps w) ++
        Saw (OnTestProgramStart u1) :: concat iters ++ [Saw (OnTestProgramEnd u2)] /\
      Z.of_nat (length iters) = ints (flags_ w) Flag.repeat /\
      rounds_ok (0 <? count) (names_to_run suites) 0 (ad_hoc w) iters).
Proof.
  eapply safe_mono; [by apply RUN_ALL_TESTS_safe|].
  intros w' r (code & ss & _ & Hv & (u1 & u2 & iters & _ & _ & -> & Htr) & _).
  destruct (iterations_rounds _ _ _ _ _ _ _ Htr) as (rounds & -> & Hlen & Hall); [lia|].
  exists u1, u2, rounds. split; [exact Hv|]. split; [lia|exact Hall].
Qed.

(** ** A program *)

(** A file system with one directory. *)
#[local] Instance one_directory : FileSystem unit := {
  fs_stat _ _ := Some true; fs_mkdir _ _ := (true, tt); fs_getcwd _ := Some (str "/tmp") }.

Definition sample_test (suite test : String.string) (line factory : Z) : Registration :=
  mkRegistration None None
    (new_TestInfo (str suite) (str test) None None (mkCodeLocation (str "a.cc") line) 7 factory).

(** Two suites; the second test of the first is registered from an earlier line. *)
Definition sample_unit : UnitTest :=
  match register_all tt [sample_test "Book" "Add" 20 1; sample_test "Book" "Cancel" 10 2;
                         sample_test "Level" "DISABLED_Old" 5 3; sample_test "Level" "Add" 30 4]
          new_UnitTest with
  | Ok u => AddEnvironment u (Some 9)
  | Err _ => new_UnitTest
  end.

(** One test fails, another throws. *)
Definition sample_program (c : UserCode) (_ : unit) : body unit :=
  match c with
  | TestBody 2 => Report kNonFatalFailure (Some (str "a.cc")) 12 (str "no such order") Done
  | TestBody 4 => Throw (StdException (str "bad"))
  | _ => Done
  end.

Definition sample_printer : Listener := mkListener 1 PrettyUnitTestResultPrinter.
#[local] Abbreviation sample_constructors :=
  (constructors_of sample_program (str "gtest.cc") sample_printer).
Definition sample_world : World unit :=
  mkWorld tt sample_unit None None [] (initial_flags (fun _ => None)) false
    (SetDefaultResultPrinter new_TestEventListeners (Some sample_printer)) [] [] 0
    (mkSetup [str "book_test"] false true None 2).
#[local] Abbreviation sample_run :=
  (RUN_ALL_TESTS sample_program (fun _ => 0) (fun _ => 0) (str "gtest.cc") (fun _ => None) false 0 tt 5
    (fun _ => true) (fun _ => None) 1).
Definition sample_selected : list TestSuite * Z :=
  match FilterTests (fun _ => None) (mkFilterFlags (strings (flags_ sample_world) Flag.filter) false)
          IGNORE_SHARDING_PROTOCOL (suites_of sample_unit) with
  | Ok p => p
  | Err _ => ([], 0)
  end.

Lemma sample_civil : civil sample_program.
Proof.
  intros [f|f|f|f|f|f|f|f|f] []; try done. destruct f as [|p|p]; try done.
  do 3 (destruct p as [p|p|]; try done).
Qed.

Lemma sample_initialized : initialized sample_printer sample_world.
Proof.
  assert (Hreg : registered (unit_suites sample_unit)).
  { destruct (register_all_from tt [sample_test "Book" "Add" 20 1; sample_test "Book" "Cancel" 10 2;
      sample_test "Level" "DISABLED_Old" 5 3; sample_test "Level" "Add" 30 4] new_UnitTest registered_empty)
      as (u & E & Hr & _); [reflexivity|reflexivity|].
    unfold sample_unit. rewrite E. exact Hr. }
  split; [| | | | | | | | |exact Hreg| |].
  - split; [reflexivity|]. split; [apply NoDup_singleton|by left].
  - reflexivity.
  - discriminate.
  - reflexivity.
  - reflexivity.
  - reflexivity.
  - split; reflexivity.
  - reflexivity.
  - reflexivity.
  - split; [by vm_compute|]. apply (bool_decide_unpack _). vm_compute. exact I.
  - change (Forall fresh (suites_of sample_unit)).
    set (l := suites_of sample_unit). vm_compute in l. subst l. repeat constructor.
Qed.

Lemma sample_select : selected (fun _ => None) sample_world (fst sample_selected) (snd sample_selected).
Proof. exists false. split; reflexivity. Qed.

(** The run of the sample fails. *)
Lemma sample_value : exists w', sample_run sample_world = Ok (w', Val 1).
Proof.
  assert (H : match sample_run sample_world with Ok (_, Val code) => code | _ => -1 end = 1)
    by (vm_compute; reflexivity).
  destruct (sample_run sample_world) as [[w' [code|e]]|f]; [|done|done]. exists w'. by subst code.
Qed.

(** A result that is known satisfies what is proved of the computation. *)
Lemma safe_at {U A} (m : M (U := U) A) w Q w' r : safe m w Q -> m w = Ok (w', r) -> Q w' r.
Proof. unfold safe. intros H E. by rewrite E in H. Qed.

#[local] Abbreviation sample_suites := (set_suites (unit_ sample_world) (fst sample_selected)).

Lemma RUN_ALL_TESTS_correct_witness :
  exists w' ss, sample_run sample_world = Ok (w', Val 1) /\
    view sample_printer (steps w') = view sample_printer (steps sample_world) ++ ss /\
    program_trace (constructors := sample_constructors) sample_suites (ints (flags_ sample_world) Flag.repeat)
      (bools (flags_ sample_world) Flag.recreate_environments_when_repeating)
      (0 <? snd sample_selected) (ad_hoc sample_world) ss /\
    ~ all_passed (ad_hoc sample_world ++ parts_of ss).
Proof.
  destruct sample_value as [w' E]. exists w'.
  pose proof (RUN_ALL_TESTS_correct sample_program (fun _ => 0) (fun _ => 0) (str "gtest.cc") (fun _ => None)
    false 0 tt 5 (fun _ => true) (fun _ => None) sample_printer sample_world (fst sample_selected)
    (snd sample_selected) 1 sample_civil sample_initialized I sample_select) as H.
  specialize (H ltac:(vm_compute; split; discriminate) ltac:(vm_compute; discriminate)).
  pose proof (safe_at _ _ _ _ _ H E) as Hq. destruct Hq as (code & ss & Hcode & Hv & Htr & _ & Hiff).
  exists ss. split; [exact E|]. split; [exact Hv|]. split; [exact Htr|].
  intros Hall. injection Hcode as <-. apply (fun H => proj2 Hiff (or_intror H)) in Hall. discriminate.
Defined.

Lemma selected_tests_run_once_witness :
  exists w' u1 u2 iters, sample_run sample_world = Ok (w', Val 1) /\
    view sample_printer (steps w') = view sample_printer (steps sample_world) ++
      Saw (OnTestProgramStart u1) :: concat iters ++ [Saw (OnTestProgramEnd u2)] /\
    Z.of_nat (length iters) = ints (flags_ sample_world) Flag.repeat /\
    rounds_ok (0 <? snd sample_selected) (names_to_run (fst sample_selected)) 0 (ad_hoc sample_world) iters.
Proof.
  destruct sample_value as [w' E]. exists w'.
  pose proof (selected_tests_run_once sample_program (fun _ => 0) (fun _ => 0) (str "gtest.cc") (fun _ => None)
    false 0 tt 5 (fun _ => true) (fun _ => None) sample_printer sample_world (fst sample_selected)
    (snd sample_selected) 1 sample_civil sample_initialized I sample_select) as H.
  specialize (H ltac:(vm_compute; split; discriminate) ltac:(vm_compute; discriminate)).
  pose proof (safe_at _ _ _ _ _ H E) as Hq. destruct Hq as (u1 & u2 & iters & Hv & Hq).
  exists u1, u2, iters. split; [exact E|]. split; [exact Hv|exact Hq].
Defined.

(** ** One suite and one test *)

(** TestSuite::Run of a suite that has not run: the tests that run are sorted by
    their place in the source, the listener sees the start of the suite, its
    set-up, every test in the order of the suite (or skipped, after a set-up that
    failed or skipped, or after a failed test with fail_fast), its tear-down and
    its end; only results of this suite change, and every test part that was seen
    is recorded in one of them. *)
Theorem TestSuite_Run_correct {U} (program : UserCode -> U -> body U) system_clock steady_clock gtest_cc
    GetTestTypeId l (w : World U) si s
    (Hcivil : civil program) (Hw : able l w (None, None)) (Hs : suites_of (unit_ w) !! si = Some s)
    (Hord : ordered s) (Hfresh : fresh s) :
  safe (TestSuite_Run program system_clock steady_clock gtest_cc GetTestTypeId si) w
    (fun w' r => r = Val tt /\ cur w' = (None, None) /\ exists ss,
       suite_trace (constructors := constructors_of program gtest_cc l) s ss /\
       ran l (if suite_should_run_ s then sorted_at si w else w) w' (places_of si) ss).
Proof. by eapply TestSuite_Run_safe. Qed.

(** The state of the sample when its first suite starts. *)
Definition sample_started : World unit := set_catch_exceptions
  (with_unit sample_world (set_suites (unit_ sample_world) (fst sample_selected))) true.
Definition sample_suite : TestSuite :=
  default (new_TestSuite [] None None None) (fst sample_selected !! 0%nat).

Lemma sample_able : able sample_printer sample_started (None, None).
Proof.
  split; [exact (init_watched _ _ sample_initialized)|]. split; [exact (init_quiet _ _ sample_initialized)|].
  by split.
Qed.
Lemma sample_suite_is : suites_of (unit_ sample_started) !! 0%nat = Some sample_suite.
Proof. reflexivity. Qed.
Lemma sample_suite_ready : ordered sample_suite /\ fresh sample_suite.
Proof.
  split; [|set (s := sample_suite); vm_compute in s; subst s; repeat constructor].
  unfold ordered, is_order.
  replace (map Z.of_nat (seq 0 (length (test_info_list_ sample_suite)))) with (test_indices_ sample_suite); [done|].
  reflexivity.
Qed.

Lemma TestSuite_Run_correct_witness :
  safe (TestSuite_Run sample_program (fun _ => 0) (fun _ => 0) (str "gtest.cc") 0 0) sample_started
    (fun w' _ => exists ss, suite_trace (constructors := sample_constructors) sample_suite ss /\
       view sample_printer (steps w') = view sample_printer (steps sample_started) ++ ss /\
       starts ss = [(str "Book", str "Cancel"); (str "Book", str "Add")]).
Proof.
  destruct sample_suite_ready as [Hord Hfresh].
  eapply safe_mono.
  { apply (TestSuite_Run_correct sample_program (fun _ => 0) (fun _ => 0) (str "gtest.cc") 0 sample_printer
      sample_started 0 sample_suite sample_civil sample_able sample_suite_is Hord Hfresh). }
  intros w' r (_ & _ & ss & Htr & _ & Hv & _). exists ss. split; [exact Htr|]. split; [exact Hv|].
  destruct (covers_suite _ _ Htr) as [-> _]. reflexivity.
Defined.

(** C22. TestInfo::Run of a test, with exceptions caught, of user code that throws no
    exception of the framework itself (from a constructor no AssertionException
    either, see [constructor_assertion_crashes], and none from a destructor, which
    would end the process) and leaves break_on_failure and throw_on_failure off: a
    test that should run is started, its fixture is created, set up, run, torn down
    and deleted, and it is ended with the parts that were seen.  The test body runs
    exactly if neither the constructor nor SetUp failed fatally or skipped, TearDown
    follows every SetUp, and the destructor runs exactly if the constructor of this
    program made an object: after a throw, which is reported as a fatal failure,
    nothing more runs.  Only the result of this test changes. *)
Theorem TestInfo_Run_correct {U} (program : UserCode -> U -> body U) system_clock steady_clock gtest_cc
    GetTestTypeId l (w : World U) si ti first t
    (Hcivil : civil program) (Hw : able l w (Some si, None))
    (Hfirst : tested (unit_ w) si 0 = Some first) (Ht : tested (unit_ w) si ti = Some t) :
  safe (TestInfo_Run program system_clock steady_clock gtest_cc GetTestTypeId si ti) w
    (fun w' r => r = Val tt /\ cur w' = cur w /\
       exists ss, did l (InTest si ti) w w' ss /\
       test_trace (constructors := constructors_of program gtest_cc l) (fixture_class_id_ first) t ss).
Proof. destruct Hw as (Hw & Hq & Hc & Hcur). by eapply TestInfo_Run_safe. Qed.

Definition sample_test_info : TestInfo := default (new_TestInfo [] [] None None (mkCodeLocation [] 0) 0 0)
  (test_info_list_ sample_suite !! 1%nat).

Lemma TestInfo_Run_correct_witness :
  exists w', TestInfo_Run sample_program (fun _ => 0) (fun _ => 0) (str "gtest.cc") 0 0 1
               (with_current sample_started (Some 0%nat) None) = Ok (w', Val tt) /\
    exists ss, view sample_printer (steps w') = view sample_printer (steps sample_started) ++ ss /\
      test_trace (constructors := sample_constructors) 7 sample_test_info ss.
Proof.
  destruct sample_able as (Hw & Hq & Hc & _).
  pose proof (TestInfo_Run_correct sample_program (fun _ => 0) (fun _ => 0) (str "gtest.cc") 0 sample_printer
    (with_current sample_started (Some 0%nat) None) 0 1 _ sample_test_info sample_civil
    (conj Hw (conj Hq (conj Hc eq_refl))) eq_refl eq_refl) as H.
  assert (E : match TestInfo_Run sample_program (fun _ => 0) (fun _ => 0) (str "gtest.cc") 0 0 1
                (with_current sample_started (Some 0%nat) None) with Ok (_, Val tt) => true | _ => false end = true)
    by (vm_compute; reflexivity).
  destruct (TestInfo_Run _ _ _ _ _ _ _ _) as [[w' [[]|e]]|f] eqn:Erun; [|discriminate|discriminate].
  exists w'. split; [reflexivity|]. destruct (safe_at _ _ _ _ _ H Erun) as (_ & _ & ss & (_ & Hv & _) & Htr).
  exists ss. split; [exact Hv|exact Htr].
Defined.


(** A constructor that throws an [AssertionException] without a fatal failure
    leaves no object, which is then run. *)
Definition assertion_program (c : UserCode) (_ : unit) : body unit :=
  match c with CreateTest _ => Throw AssertionException | _ => Done end.

Lemma constructor_assertion_crashes :
  match TestInfo_Run assertion_program (fun _ => 0) (fun _ => 0) (str "gtest.cc") 0 0 1
          (with_current sample_started (Some 0%nat) None) with
  | Err InvalidDeref => true
  | _ => false
  end = true.
Proof. vm_compute. reflexivity. Qed.
