(* ===== verification/CommandLineTheorems.v ===== *)
(** * The command line: its properties

    What one argument means, what is left of [argv], that the flags are read
    back from their printed form, and the coloured help text. *)

From S2P Require Import Prelude Outcome Common CStr TestResult TestSelect CommandLine.

(** [ParseGoogleTestFlag] succeeds exactly if the argument denotes one of
    the flags it knows, that is "--gtest_" with the name of the flag, an equals
    sign and a value, or just the name of a Boolean flag; a number must fit an
    [int].  The flag is unique, it alone is changed, and to the value the
    argument denotes.  Otherwise no flag changes. *)
Theorem ParseGoogleTestFlag_correct arg st :
  (exists f g, f ∈ parse_order /\ denotes arg f g /\
     (forall f' g', denotes arg f' g' -> f' = f) /\
     ParseGoogleTestFlag arg st = (true, with_flags st (g (flags st)))) \/
  ((forall f g, f ∈ parse_order -> ~ denotes arg f g) /\
   exists st', ParseGoogleTestFlag arg st = (false, st') /\ same_flags st st').
Proof.
  destruct (parse_first_spec parse_order arg st) as [(f & g & Hf & D & E)|?]; [left|by right].
  exists f, g. split_and!; [done..| |done].
  intros f' g' D'. by eapply denotes_unique.
Qed.

(** C25. [ParseGoogleTestFlagsOnly] runs to the end without leaving [argv] if the
    files of flags can be read: it removes from [argv] exactly the arguments
    that it recognises, keeps the others in their order after the name of the
    program, and fills up with null pointers.  The flags change as the recognised
    arguments say, one after the other, and by nothing else: a Boolean flag is
    switched off exactly by a value that starts with 0, f or F, a number and a text
    are those of the argument, and a file of flags sets what its lines name, where
    it is named.  The help is asked for exactly by "--help", by what looks like a
    flag of Google Test but is not recognised, and by a line of a file of flags that
    is no flag. *)
Theorem ParseGoogleTestFlagsOnly_correct read_file prog args n st :
  files_readable read_file args ->
  let kept := filter (fun a => ~ recognised a) args in
  exists st',
    ParseGoogleTestFlagsOnly read_file (length (prog :: args)) (argv_of (prog :: args) n) st =
      Ok (length (prog :: kept), argv_of (prog :: kept) (n + (length args - length kept)), st') /\
    sets_flags read_file args (flags st) (flags st') /\
    (g_help_flag st' = true <-> g_help_flag st = true \/ existsb asks_help kept = true \/
       exists arg, arg ∈ args /\ file_asks_help read_file arg).
Proof.
  intros Hread kept. unfold ParseGoogleTestFlagsOnly.
  destruct (parse_args_spec read_file args st Hread) as (st1 & E & H1 & H2).
  pose proof (parse_loop_refines read_file (S (length args)) [prog] args n st ltac:(lia)) as Hl.
  change (length [prog]) with 1%nat in Hl. change ([prog] ++ args) with (prog :: args) in Hl.
  change (length (prog :: args)) with (S (length args)) in *.
  rewrite Hl, E, !bind_ok. fold kept in H2 |- *. cbn [app].
  eexists. split; [done|]. destruct (g_help_flag st1) eqn:Eh; cbn [g_help_flag flags]; rewrite ?Eh; auto.
Qed.

Definition sample_args : list text :=
  [str "--gtest_repeat=3"; str "book.txt"; str "--gtest_bogus"; str "--gtest_flagfile=f"].

Lemma ParseGoogleTestFlagsOnly_correct_witness :
  exists st', ParseGoogleTestFlagsOnly (fun _ => Some (str "--gtest_shuffle")) 5
                (argv_of (str "prog" :: sample_args) 0) no_state =
              Ok (3%nat, argv_of [str "prog"; str "book.txt"; str "--gtest_bogus"] 2, st') /\
              sets_flags (fun _ => Some (str "--gtest_shuffle")) sample_args (flags no_state) (flags st') /\
              g_help_flag st' = true.
Proof.
  destruct (ParseGoogleTestFlagsOnly_correct (fun _ => Some (str "--gtest_shuffle")) (str "prog")
              sample_args 0 no_state) as (st' & E & H & Hh); [by eexists|].
  exists st'. split; [|split; [exact H|apply (proj2 Hh); right; left; vm_compute; reflexivity]].
  etransitivity; [exact E|]. vm_compute. reflexivity.
Defined.

(** The flags survive the command line: a program that is started with every
    flag written out as "--gtest_name=value" leaves only its own name in [argv],
    prints nothing, and has each of these flags at the value it was written with;
    the remaining flags stay as they were. *)
Theorem flags_roundtrip read_file prog fl n st :
  (forall i, int_ok (ints fl i) = true) -> g_help_flag st = false ->
  exists st',
    ParseGoogleTestFlagsOnly read_file (S (length parse_order))
      (argv_of (prog :: map (flag_arg fl) parse_order) n) st =
      Ok (1%nat, argv_of [prog] (n + length parse_order), st') /\
    g_help_flag st' = false /\ cmd_printed st' = cmd_printed st /\
    (forall f, bools (flags st') f = if bool_decide (Flag.B f ∈ parse_order)
                                     then bools fl f else bools (flags st) f) /\
    (forall f, ints (flags st') f = ints fl f) /\
    (forall f, strings (flags st') f = if bool_decide (Flag.S f ∈ parse_order)
                                       then strings fl f else strings (flags st) f).
Proof.
  intros Hint Hh. unfold ParseGoogleTestFlagsOnly.
  pose proof (parse_loop_refines read_file (S (length parse_order)) [prog]
                (map (flag_arg fl) parse_order) n st ltac:(rewrite length_map; lia)) as Hl.
  cbn [app length] in Hl. rewrite length_map in Hl. rewrite Hl.
  rewrite (parse_flag_args read_file fl parse_order st Hint) by done. rewrite !bind_ok.
  eexists. cbn [length]. rewrite Nat.sub_0_r. split; [done|].
  cbn [g_help_flag with_flags]. rewrite Hh. cbn [flags cmd_printed with_flags].
  destruct (copy_flags_spec fl parse_order (flags st)) as (Hb & Hi & Hs). split_and!; auto.
  intros f. rewrite Hi. by destruct f.
Qed.

Lemma flags_roundtrip_witness :
  exists st', ParseGoogleTestFlagsOnly (fun _ => None) 22
    (argv_of (str "prog" :: map (flag_arg (set_int (flags no_state) Flag.repeat (-1))) parse_order)
       0) no_state = Ok (1%nat, argv_of [str "prog"] 21, st') /\
    ints (flags st') Flag.repeat = -1.
Proof.
  destruct (flags_roundtrip (fun _ => None) (str "prog")
              (set_int (flags no_state) Flag.repeat (-1)) 0 no_state) as (st' & E & _ & _ & _ & H & _);
    [by intros [] | done|].
  exists st'. split; [exact E | by rewrite H].
Defined.

(** Every text with colours can be written with the escapes of
    [PrintColorEncoded], '@' included, and is printed as it was meant, character
    by character and colour by colour. *)
Theorem PrintColorEncoded_roundtrip cs :
  coloured (PrintColorEncoded (color_encode kDefault cs)) = cs.
Proof. apply PrintColorEncoded_encode. Qed.

(** The assertion in [GetAnsiColorCode] never fails. *)
Lemma ColoredPrintf_ok mode color s : ColoredPrintf mode color s ⇓ fun _ => True.
Proof. unfold ColoredPrintf. by destruct mode, color. Qed.

(** The help text uses no escape but those for colours and for '@', and ends in
    the default colour. *)
Lemma help_text_plain :
  forallb (fun '(_, s) => negb (bool_decide ("@"%char ∈ s)) || bool_decide (s = str "@"))
    (PrintColorEncoded kColorEncodedHelpMessage) = true /\
  fst <$> last (PrintColorEncoded kColorEncodedHelpMessage) = Some kDefault.
Proof. split; vm_compute; reflexivity. Qed.

(** What looks like a number flag but is none prints a warning and asks for the
    help; an empty value is taken as 0. *)
Lemma repeat_examples :
  (let st := snd (ParseGoogleTestFlag (str "--gtest_repeat=x") no_state) in
   flags st = flags no_state /\ cmd_printed st <> []) /\
  ints (flags (snd (ParseGoogleTestFlag (str "--gtest_repeat=") no_state))) Flag.repeat = 0.
Proof. split; [split|]; by vm_compute. Qed.

(** [GTestFlagSaver] does not restore the flags it does not save. *)
Lemma flag_saver_incomplete saved now :
  (forall f, Flag.B f ∈ parse_order -> bools (restore saved now) f = bools saved f) /\
  (forall f, ints (restore saved now) f = ints saved f) /\
  (forall f, Flag.S f ∈ parse_order -> strings (restore saved now) f = strings saved f) /\
  strings (restore saved now) Flag.flagfile = strings now Flag.flagfile.
Proof.
  split_and!; [intros f H|intros f|intros f H|done]; destruct f; try done; exfalso;
    revert H; refine (proj1 (bool_decide_eq_false _) _); vm_compute; reflexivity.
Qed.
