(* ===== verification/GmockTheorems.v ===== *)
(** * GoogleMock: the properties

    Sequences of expected calls, the answer to a call, and the matchers that
    need a maximum matching. *)

From S2P Require Import Prelude Outcome Common CStr GmockUtils TestResult Cardinality Expectations ExpectationWalks ExpectationInv ExpectCall MockCall Bipartite MaxMatching Unordered.

(** ** A sample: two mock functions and three expectations in a sequence *)

Definition quiet : text := str "error".
Definition no_trace : Z -> text := fun _ => [].

Definition start_world : World nat nat :=
  mkWorld ∅ {[ 0%nat := mkFunctionMocker (Some 0%nat) (str "Foo") true [] [];
               1%nat := mkFunctionMocker (Some 0%nat) (str "Bar") true [] [] ]}
    {[ 0%nat := None ]} None (mkRegistry ∅ ∅) [] [].

Lemma empty_well_formed {Args Act} (ms : gmap nat (FunctionMocker Args Act)) s r :
  (forall k m, ms !! k = Some m -> untyped_expectations_ m = []) ->
  (forall k l, s !! k <> Some (Some l)) ->
  well_formed (mkWorld ∅ ms s None r [] []).
Proof.
  intros Hm Hs. split; [| by intros k l H%Hs | done].
  assert (Hno : forall e, ~ is_Some ((∅ : gmap nat (ExpectationBase Args Act)) !! e))
    by (intros e; rewrite lookup_empty; by intros [? ?]).
  split; [split | ..]; simpl.
  - by intros e ?%Hno.
  - by intros e p (x & Hx & _).
  - by intros e p (x & Hx & _).
  - by intros e p (x & Hx & _).
  - by intros e x Hx.
  - by intros e x Hx.
  - intros k m e Hk. rewrite (Hm k m Hk). by intros ?%elem_of_nil.
Qed.

Lemma start_well_formed : well_formed start_world.
Proof.
  apply empty_well_formed.
  - intros k m. rewrite lookup_insert_Some, lookup_singleton_Some. naive_solver.
  - intros k l. rewrite lookup_singleton_Some. naive_solver.
Qed.

Definition match_nat (n : nat) : Matcher nat :=
  mkMatcher (fun a => (a =? n)%nat) (fun _ => []) (str "is equal to").

(** [EXPECT_CALL(mock, Foo(n))] with some clauses, and in a sequence. *)
Definition expect_call (owner n : nat) (cs : list clause) (w : World nat nat) : World nat nat :=
  match EXPECT_CALL no_trace quiet None owner (Some (str "t.cc")) 1 (str "EXPECT_CALL(m, f)")
          (match_nat n) cs w with
  | Ok (_, w) => w
  | Err _ => w
  end.
Definition statement (owner n : nat) (cs : list clause) (w : World nat nat) : World nat nat :=
  expect_call owner n (cs ++ [CInSequence 0]) w.

Lemma expect_call_wf owner n cs w m :
  well_formed w -> mockers w !! owner = Some m -> is_Some (mock_obj_ m) ->
  (forall c, c ∈ cs -> valid (size (expectations w)) w c) -> well_formed (expect_call owner n cs w).
Proof.
  intros Hwf Hm Ho Hv. unfold expect_call.
  pose proof (EXPECT_CALL_spec no_trace quiet None owner m (Some (str "t.cc")) 1
    (str "EXPECT_CALL(m, f)") (match_nat n) _ w Hwf Hm Ho Hv) as H.
  by destruct (EXPECT_CALL _ _ _ _ _ _ _ _ _ _) as [[e w'] |]; [apply H |].
Qed.

Definition sample_world : World nat nat :=
  statement 1 2 [CTimes (mkCardinality 2 2)] (statement 0 1 [] start_world).

Lemma sample_valid (w : World nat nat) cs :
  is_Some (sequences w !! 0%nat) -> (cs = [] \/ cs = [CTimes (mkCardinality 2 2)]) ->
  forall c, c ∈ cs ++ [CInSequence 0] -> valid (size (expectations w)) w c.
Proof.
  intros Hs [-> | ->] c; simpl.
  - by intros ->%list_elem_of_singleton.
  - intros [-> | ->%list_elem_of_singleton]%elem_of_cons; [unfold valid, proper; simpl; lia | done].
Qed.

Lemma sample_well_formed : well_formed sample_world.
Proof.
  eapply expect_call_wf; [eapply expect_call_wf; [apply start_well_formed | reflexivity | by eexists |]
    | reflexivity | by eexists |]; apply sample_valid; auto; by eexists.
Qed.

Lemma sample_room n : n <= 1000 -> room sample_world n.
Proof.
  intros Hn e x Hx. assert (Hc : call_count_ x = 0); [| unfold INT_MAX; lia].
  assert (Hall : map_Forall (fun _ x => call_count_ x = 0) (expectations sample_world)).
  { apply map_Forall_to_list. vm_compute. repeat constructor. }
  by apply (Hall e).
Qed.

(** ** Sequences *)

(** C16. The statement EXPECT_CALL completes: it adds the next expectation, applies
    its clauses, and leaves a well-formed state, in which prerequisites are older than
    their successors, an expectation is retired only after its prerequisites, and one
    that was called in time has retired and satisfied prerequisites. *)
Theorem EXPECT_CALL_invariant {Args Act : Type} (stack_trace : Z -> text) (verbose : text)
    (current_test : option (text * text)) (owner : nat) (m : FunctionMocker Args Act) (file : option text) (line : Z) (src : text)
    (ms : Matcher Args) (cs : list clause) (w : World Args Act)
    (Hwf : well_formed w) (Hm : mockers w !! owner = Some m)
    (Ho : is_Some (mock_obj_ m))
    (Hv : forall c, c ∈ cs -> valid (size (expectations w)) w c) :
  exists w', EXPECT_CALL stack_trace verbose current_test owner file line src ms cs w =
      Ok (size (expectations w), w') /\
    well_formed w' /\ extends w w'.
Proof.
  pose proof (EXPECT_CALL_spec stack_trace verbose current_test owner m file line src ms cs w
    Hwf Hm Ho Hv) as H.
  apply returns_iff in H as ([e w'] & Heq & -> & H1 & H2). exists w'. split; [exact Heq | done].
Qed.

Lemma EXPECT_CALL_invariant_witness :
  exists w', EXPECT_CALL no_trace quiet None 0 None 1 (str "EXPECT_CALL(m, f)") (match_nat 1)
               [CInSequence 0; CWillOnce (Perform 5%nat)] start_world = Ok (0%nat, w') /\
    well_formed w'.
Proof.
  destruct (EXPECT_CALL_invariant no_trace quiet None 0
    (mkFunctionMocker (Some 0%nat) (str "Foo") true [] []) None 1 (str "EXPECT_CALL(m, f)")
    (match_nat 1) [CInSequence 0; CWillOnce (Perform 5%nat)] start_world) as (w' & H1 & H2 & _).
  - exact start_well_formed.
  - reflexivity.
  - by eexists.
  - intros c [-> | ->%list_elem_of_singleton]%elem_of_cons; [by eexists | done].
  - exists w'. split; [exact H1 | exact H2].
Defined.

(** C15. Calls follow the sequences: in every run of calls that cannot overflow a
    counter, once an expectation has answered a call in time none of its prerequisites,
    direct or not, answers any later call, and a retired expectation never answers;
    the run completes and keeps the invariant. *)
Theorem calls_in_order {Args Act : Type} (stack_trace : Z -> text) (verbose : text)
    (calls : list (nat * Args)) (w : World Args Act)
    (HI : Inv w) (Hroom : room w (Z.of_nat (List.length calls)))
    (Hk : forall k args, (k, args) ∈ calls -> is_Some (mockers w !! k)) :
  exists rs w', run_calls stack_trace verbose calls w = Ok (rs, w') /\
    Inv w' /\ List.length rs = List.length calls /\
    (forall p, retired_at w p -> unanswered p rs) /\ in_order w rs.
Proof.
  pose proof (run_calls_spec stack_trace verbose calls w HI Hroom Hk) as H.
  apply returns_iff in H as ([rs w'] & Heq & H). by exists rs, w'.
Qed.

(** Foo(1), Bar(2) twice, and Foo(1) again: the last call is unexpected. *)
Lemma calls_in_order_witness :
  exists rs w', run_calls no_trace quiet [(0, 1); (1, 2); (1, 2); (0, 1)]%nat sample_world = Ok (rs, w') /\
    match_expectation <$> rs = [Some 0; Some 1; Some 1; None]%nat /\ in_order sample_world rs.
Proof.
  destruct (calls_in_order no_trace quiet [(0, 1); (1, 2); (1, 2); (0, 1)]%nat sample_world)
    as (rs & w' & H1 & _ & _ & _ & H2).
  - apply sample_well_formed.
  - apply sample_room. simpl. lia.
  - intros k args Hin.
    assert (Hk : k = 0%nat \/ k = 1%nat) by (repeat (apply elem_of_cons in Hin as [[= -> ->] | Hin]; auto); by apply elem_of_nil in Hin).
    destruct Hk as [-> | ->]; by eexists.
  - exists rs, w'. split; [exact H1 |]. split; [| exact H2].
    assert (E : (match run_calls no_trace quiet [(0, 1); (1, 2); (1, 2); (0, 1)]%nat sample_world with
                 | Ok (rs, _) => match_expectation <$> rs | Err _ => [] end)
                = [Some 0; Some 1; Some 1; None]%nat) by (vm_compute; reflexivity).
    rewrite H1 in E. exact E.
Defined.

(** ** One call *)

(** The answer to a call: it comes from the newest expectation of the mock
    function that is active, matches the arguments and has only satisfied
    prerequisites, direct or not; there is none only if no expectation is like that,
    and then nothing changes but the log.  The call is excessive exactly if the
    expectation was saturated, and otherwise performs the action of its turn. *)
Theorem call_answered {Args Act : Type} (stack_trace : Z -> text) (verbose : text)
    (k : nat) (m : FunctionMocker Args Act) (args : Args) (w : World Args Act)
    (HI : Inv w) (Hroom : room w 1) (Hk : mockers w !! k = Some m) :
  exists r w', UntypedFindMatchingExpectation stack_trace verbose k args w = Ok (r, w') /\
    Inv w' /\ call_result w m args r w'.
Proof.
  pose proof (UntypedFindMatchingExpectation_spec stack_trace verbose k m args w HI Hroom Hk) as H.
  apply returns_iff in H as ([r w'] & Heq & H). by exists r, w'.
Qed.

Lemma call_answered_witness :
  exists r w', UntypedFindMatchingExpectation no_trace quiet 0 1%nat sample_world = Ok (r, w') /\
    Inv w' /\ match_expectation r = Some 0%nat.
Proof.
  destruct (call_answered no_trace quiet 0 (mkFunctionMocker (Some 0%nat) (str "Foo") true [] [0%nat])
    1%nat sample_world) as (r & w' & H1 & H2 & _).
  - apply sample_well_formed.
  - apply sample_room. lia.
  - vm_compute. reflexivity.
  - exists r, w'. split; [exact H1 |]. split; [exact H2 |].
    assert (E : (match UntypedFindMatchingExpectation no_trace quiet 0 1%nat sample_world with
                 | Ok (r, _) => match_expectation r | Err _ => None end) = Some 0%nat)
      by (vm_compute; reflexivity).
    rewrite H1 in E. exact E.
Defined.

(** C17. A call of a mock function, with actions that do not use the mock objects.
    It performs exactly one action, on the arguments and the state of the program
    at the call, and returns or throws what that action does: with expectations
    the one of [call_result] (the action whose turn it is in the newest active
    expectation that matches and has satisfied prerequisites, or the default),
    otherwise the default: the newest matching ON_CALL, or else the default
    value.  It keeps the invariant and reports one failure exactly if no
    expectation answers, the call is excessive or it is uninteresting and the
    mock strict; at the expectation if it is excessive. *)
Theorem mock_call_correct {Args Act R Ex U : Type}
    (act : Act -> Args -> U -> outcome (completion R Ex * U))
    (default_exists : U -> bool) (default_value : U -> outcome (completion R Ex * U))
    (error : text -> Ex) (args_text : Args -> text) (result_text : option (R -> text))
    (stack_trace : Z -> text) (verbose : text) (default_mock_behavior : Z)
    (k : nat) (m : FunctionMocker Args Act) (obj : nat) (args : Args) (w : World Args Act) (u : U)
    (HI : Inv w) (Hroom : room w 1) (Hk : mockers w !! k = Some m) (Hobj : mock_obj_ m = Some obj) :
  let call := @InvokeWith _ _ _ _ _ (outside act default_exists default_value error args_text result_text)
                stack_trace verbose default_mock_behavior k args (w, u) in
  let result := result_of act default_exists default_value error m in
  exists r w1 description, Inv w1 /\ reports w1 = reports w /\
    match untyped_expectations_ m with
    | [] => w1 = w /\ match_action r = None
    | _ => call_result w m args r w1
    end /\
    match result (match_action r) args description u with
    | Err f => call = Err f
    | Ok (c, u') =>
        exists w2, call = Ok (c, (w2, u')) /\ Inv w2 /\ agree w1 w2 /\
          reports w2 = reports w ++
            match untyped_expectations_ m with
            | [] => uninteresting_failures act default_exists default_value error args_text result_text default_mock_behavior m obj w args c
            | _ => call_failures args_text result_text m w1 r args c
            end
    end.
Proof.
  intros call result. destruct (untyped_expectations_ m) eqn:Hes.
  - destruct (uninteresting_call_correct act default_exists default_value error args_text result_text
      stack_trace verbose default_mock_behavior k m obj args w u Hk Hes Hobj) as [description H].
    exists (mkMatch None None false [] []), w, description. do 3 (split; [done|]).
    fold result call in H. cbn [match_action]. destruct (result None args description u) as [[c u']|]; [|exact H].
    destruct H as (w2 & H1 & Ha & H2). exists w2. split; [done|]. split; [by eapply agree_inv|done].
  - destruct (InvokeWith_spec act default_exists default_value error args_text result_text
      stack_trace verbose default_mock_behavior k m args w u HI Hroom Hk ltac:(by rewrite Hes))
      as (r & w1 & description & HI1 & Hq & Hr & H).
    by exists r, w1, description.
Qed.

(** [EXPECT_CALL(mock, Foo(1)).WillOnce(a)] where the action [a] adds to its
    argument and counts its calls, called twice: the second call is excessive and
    returns the default value. *)
Definition answering_world : World nat nat := expect_call 0 1 [CWillOnce (Perform 5%nat)] start_world.

Definition add_and_count (a n : nat) (calls : nat) : outcome (completion nat text * nat) :=
  Ok (Returned (a + n)%nat, S calls).

Definition answered : outcome (completion nat text * (World nat nat * nat)) :=
  @InvokeWith _ _ _ _ _ (outside add_and_count (fun _ => true) (fun calls => Ok (Returned 0%nat, calls))
      (fun t => t) (fun n => str "(" ++ dec (Z.of_nat n) ++ str ")") (Some (fun n => dec (Z.of_nat n))))
    no_trace quiet 0 0 1%nat (answering_world, 0%nat).

Lemma mock_call_correct_witness : exists w2, answered = Ok (Returned 6%nat, (w2, 1%nat)) /\ reports w2 = [].
Proof.
  assert (Hwf : well_formed answering_world).
  { eapply expect_call_wf; [apply start_well_formed|reflexivity|by eexists|].
    by intros c ->%list_elem_of_singleton. }
  destruct (mock_call_correct add_and_count (fun _ => true) (fun calls => Ok (Returned 0%nat, calls))
    (fun t => t) (fun n => str "(" ++ dec (Z.of_nat n) ++ str ")") (Some (fun n => dec (Z.of_nat n)))
    no_trace quiet 0 0 (mkFunctionMocker (Some 0%nat) (str "Foo") true [] [0%nat]) 0 1%nat answering_world 0%nat)
    as (r & w1 & description & _ & _ & Hr & H).
  - apply Hwf.
  - intros e x Hx. assert (Hall : map_Forall (fun _ x => call_count_ x = 0) (expectations answering_world))
      by (apply map_Forall_to_list; vm_compute; repeat constructor).
    pose proof (Hall e x Hx) as H0. cbn in H0. unfold INT_MAX. lia.
  - vm_compute. reflexivity.
  - reflexivity.
  - assert (E : match answered with Ok (c, (w2, u)) => (c, reports w2, u) | Err _ => (Thrown [], [], 0%nat) end =
      (Returned 6%nat, [], 1%nat)) by (vm_compute; reflexivity).
    destruct (result_of _ _ _ _ _ _ _ _ _) as [[c u']|f].
    + destruct H as (w2 & H & _). change (answered = Ok (c, (w2, u'))) in H. rewrite H in E. injection E as -> E2 ->. by exists w2.
    + change (answered = Err f) in H. rewrite H in E. discriminate E.
Defined.

(** What is found is a prerequisite, direct or not. *)
Lemma finds_tc {Args Act} (w : World Args Act) e p :
  finds w e p -> tc (prereq w) e p /\ ~ satisfied_at w p.
Proof.
  intros (e' & Hrtc & Hp & Hn). split; [| done].
  induction Hrtc as [e | e e1 e2 [H _] _ IH]; [by apply tc_once | eapply tc_l; [exact H | auto]].
Qed.

(** The walk misses no unsatisfied prerequisite altogether. *)
Lemma unsatisfied_finds {Args Act} (w : World Args Act) e p :
  Inv w -> tc (prereq w) e p -> ~ satisfied_at w p -> exists q, finds w e q.
Proof.
  intros HI. induction 1 as [e p Hep | e n p Hen Hnp IH]; intros Hn.
  { exists p, e. split; [apply rtc_refl | done]. }
  destruct (ordered_exists w (inv_ordered w HI) e n Hen) as [x Hx].
  destruct (IsSatisfied x) eqn:Hs.
  - destruct (decide (call_count_ x = 0)) as [Hc | Hc].
    + destruct (IH Hn) as (q & e' & Hrtc & Hq). exists q, e'. split; [| done].
      eapply rtc_l; [| exact Hrtc]. split; [done |]. by exists x.
    + destruct (inv_count w HI n x Hx) as [H0 _]. apply IsSatisfied_iff in Hs.
      destruct Hn. apply (inv_called w HI n x Hx); [lia | done].
  - exists n, e. split; [apply rtc_refl |]. split; [done |].
    intros (y & Hy & ?). congruence.
Qed.

Lemma satisfied_at_dec {Args Act} (w : World Args Act) p : satisfied_at w p \/ ~ satisfied_at w p.
Proof.
  unfold satisfied_at. destruct (expectations w !! p) as [x |]; [| right; by intros (y & ? & _)].
  destruct (IsSatisfied x) eqn:Hs; [left; eauto | right; intros (y & [= <-] & ?); congruence].
Qed.

(** The two walks over the prerequisites agree although the second one does not
    go below an expectation that was called or is unsatisfied: both end, everything
    that FindUnsatisfiedPrerequisites lists is an unsatisfied prerequisite, and it lists
    nothing exactly if AllPrerequisitesAreSatisfied answers true, which it does exactly
    if every prerequisite, direct or not, is satisfied. *)
Theorem unsatisfied_prerequisites_found {Args Act : Type} (e : nat) (w : World Args Act)
    (HI : Inv w) (He : is_Some (expectations w !! e)) :
  exists b r, AllPrerequisitesAreSatisfied e w = Ok b /\
    FindUnsatisfiedPrerequisites e ∅ w = Ok r /\
    (forall p, p ∈ r -> tc (prereq w) e p /\ ~ satisfied_at w p) /\
    (r = ∅ <-> b = true) /\ (b = true <-> forall p, tc (prereq w) e p -> satisfied_at w p).
Proof.
  destruct (AllPrerequisitesAreSatisfied_spec e w (inv_ordered w HI) He) as (b & Hb & Hall).
  destruct (FindUnsatisfiedPrerequisites_spec e w (inv_ordered w HI) He) as (r & Hr & Hf).
  exists b, r. split; [done |]. split; [done |]. split; [intros p Hp; by apply finds_tc, Hf |].
  split; [| done]. rewrite Hall. split.
  - intros -> p Hp. destruct (satisfied_at_dec w p) as [? | Hn]; [done |].
    destruct (unsatisfied_finds w e p HI Hp Hn) as [q Hq%Hf]. by apply elem_of_empty in Hq.
  - intros Hs. apply leibniz_equiv, elem_of_equiv_empty. intros p Hp%Hf%finds_tc.
    destruct Hp as [Hp Hn]. by apply Hn, Hs.
Qed.

Lemma unsatisfied_prerequisites_found_witness :
  exists r, FindUnsatisfiedPrerequisites 1 ∅ sample_world = Ok r /\ r <> ∅.
Proof.
  destruct (unsatisfied_prerequisites_found 1 sample_world) as (b & r & H1 & H2 & _ & H3 & _).
  - apply sample_well_formed.
  - vm_compute. eauto.
  - exists r. split; [exact H2 |]. intros H%H3.
    assert (E : AllPrerequisitesAreSatisfied 1 sample_world = Ok false) by (vm_compute; reflexivity).
    rewrite E in H1. injection H1 as <-. discriminate H.
Defined.

(** ** Verification *)

(** The expectations that the verification reports. *)
Definition reported_at {Args Act} (w : World Args Act) (e : nat) : bool :=
  match expectations w !! e with
  | Some x => negb (IsOverSaturated x) && negb (IsSatisfied x)
  | None => false
  end.

Lemma verify_loop_spec {Args Act} es met (w w0 : World Args Act) :
  expectations w0 = expectations w -> (forall e, e ∈ es -> is_Some (expectations w !! e)) ->
  verify_loop es met w0 ⇓ fun '(b, w') =>
    expectations w' = expectations w /\ mockers w' = mockers w0 /\
    (b = true <-> met = true /\ forall e, e ∈ es -> satisfied_at w e) /\
    List.length (reports w') = (List.length (reports w0) + List.length (filter (reported_at w) es))%nat.
Proof.
  revert met w0. induction es as [| e es IH]; intros met w0 H0 Hes; simpl.
  { split; [done |]. split; [done |]. split; [| simpl; lia]. split; [| by intros [? _]].
    intros ->. split; [done |]. by intros e ?%elem_of_nil. }
  destruct (Hes e) as [x Hx]; [by left |].
  rewrite (get_ok w0 e x) by (by rewrite H0). rewrite bind_ok.
  assert (Hes' : forall e, e ∈ es -> is_Some (expectations w !! e)) by (intros; apply Hes; by right).
  assert (Hrep : reported_at w e = negb (IsOverSaturated x) && negb (IsSatisfied x))
    by (unfold reported_at; by rewrite Hx).
  assert (Hsat : satisfied_at w e <-> IsSatisfied x = true) by (unfold satisfied_at; rewrite Hx; naive_solver).
  assert (Hcons : (forall e', e' ∈ e :: es -> satisfied_at w e') <->
    satisfied_at w e /\ forall e', e' ∈ es -> satisfied_at w e').
  { setoid_rewrite elem_of_cons. naive_solver. }
  rewrite filter_cons, Hrep.
  destruct (IsOverSaturated x) eqn:Ho.
  - assert (Hs : IsSatisfied x = false).
    { unfold IsOverSaturated, IsOverSaturatedByCallCount in Ho. unfold IsSatisfied.
      apply andb_true_iff in Ho as [_ Ho]. by apply negb_true_iff in Ho. }
    simpl. eapply returns_mono; [by apply (IH false w0) |].
    intros [b w'] (H1 & H2 & H3 & H4). split; [done |]. split; [done |].
    split; [rewrite H3, Hcons, Hsat; naive_solver | done].
  - destruct (IsSatisfied x) eqn:Hs; simpl.
    + eapply returns_mono; [by apply (IH met w0) |].
      intros [b w'] (H1 & H2 & H3 & H4). split; [done |]. split; [done |].
      split; [rewrite H3, Hcons, Hsat; naive_solver | done].
    + eapply returns_mono; [by apply (IH false) |].
      intros [b w'] (H1 & H2 & H3 & H4). split; [done |]. split; [done |].
      split; [rewrite H3, Hcons, Hsat; naive_solver |]. rewrite H4. simpl. rewrite length_app. simpl. lia.
Qed.

(** VerifyAndClearExpectationsLocked answers true exactly if every expectation of
    the mock function is satisfied, reports one failure for each expectation that was
    called too few times (and none for the others), and leaves the mock function without
    expectations. *)
Theorem VerifyAndClear_correct {Args Act : Type} (k : nat) (m : FunctionMocker Args Act)
    (w : World Args Act) (HI : Inv w) (Hk : mockers w !! k = Some m) :
  exists b w', VerifyAndClearExpectationsLocked k w = Ok (b, w') /\
    (b = true <-> forall e, e ∈ untyped_expectations_ m -> satisfied_at w e) /\
    List.length (reports w') =
      (List.length (reports w) + List.length (filter (reported_at w) (untyped_expectations_ m)))%nat /\
    (untyped_expectations_ <$> mockers w' !! k) = Some [].
Proof.
  unfold VerifyAndClearExpectationsLocked. rewrite Hk. cbn [or_fault]. rewrite bind_ok.
  pose proof (verify_loop_spec (untyped_expectations_ m) true w w eq_refl
    (fun e => inv_mockers w HI k m e Hk)) as H.
  apply returns_iff in H as ([b w1] & -> & H1 & H2 & H3 & H4). rewrite bind_ok.
  do 2 eexists. split; [reflexivity |]. split; [rewrite H3; naive_solver |]. split; [exact H4 |].
  simpl. by rewrite lookup_insert_eq.
Qed.

Lemma VerifyAndClear_correct_witness :
  exists b w', VerifyAndClearExpectationsLocked 0 sample_world = Ok (b, w') /\
    b = false /\ List.length (reports w') = 1%nat.
Proof.
  destruct (VerifyAndClear_correct 0 (mkFunctionMocker (Some 0%nat) (str "Foo") true [] [0%nat])
    sample_world) as (b & w' & H1 & _ & H2 & _).
  - apply sample_well_formed.
  - vm_compute. reflexivity.
  - exists b, w'. split; [exact H1 |]. split; [| rewrite H2; vm_compute; reflexivity].
    assert (E : (match VerifyAndClearExpectationsLocked 0 sample_world with
                 | Ok (b, _) => b | Err _ => true end) = false) by (vm_compute; reflexivity).
    rewrite H1 in E. exact E.
Defined.

(** ** Matchings *)

(** C18. FindMaxBipartiteMatching returns, and what it returns is a matching of the
    graph (edges that share no node) with as many edges as possible. *)
Theorem FindMaxBipartiteMatching_maximum (g : MatchMatrix) (Hg : well_sized g) :
  exists M, FindMaxBipartiteMatching g = Ok M /\ matching g M /\ maximum g M.
Proof.
  pose proof (FindMaxBipartiteMatching_spec g Hg) as H.
  apply returns_iff in H as (M & Heq & H). by exists M.
Qed.

(** Two left nodes compete for the right node 0; one must give way. *)
Definition sample_matrix : MatchMatrix :=
  mkMatchMatrix 3 3 [true; true; false; true; false; false; false; true; true].

Lemma FindMaxBipartiteMatching_maximum_witness :
  FindMaxBipartiteMatching sample_matrix = Ok [(0, 1); (1, 0); (2, 2)]%nat /\
  maximum sample_matrix [(0, 1); (1, 0); (2, 2)]%nat.
Proof.
  destruct (FindMaxBipartiteMatching_maximum sample_matrix) as (M & H1 & _ & H2); [reflexivity |].
  assert (E : FindMaxBipartiteMatching sample_matrix = Ok [(0, 1); (1, 0); (2, 2)]%nat)
    by (vm_compute; reflexivity).
  split; [exact E |]. rewrite H1 in E. injection E as ->. exact H2.
Defined.

(** C19. UnorderedElementsAre accepts a container exactly if some permutation of the
    matchers accepts its elements one by one, IsSupersetOf exactly if the matchers accept
    different elements of it, and IsSubsetOf exactly if different matchers accept its
    elements; whatever the listener, the match completes. *)
Theorem UnorderedElementsAre_correct {E : Type} (print : E -> text) (f : Flags)
    (ds : list Describer) (ms : list (E -> bool)) (es : list E) (l : listener)
    (Hds : List.length ds = List.length ms) :
  exists b l', MatchAndExplain print f ds ms es l = Ok (b, l') /\
    (b = true <-> satisfied f ms es).
Proof. by apply MatchAndExplain_decides. Qed.

Lemma UnorderedElementsAre_correct_witness :
  exists b l', MatchAndExplain (fun n => dec (Z.of_nat n)) ExactMatch
      (replicate 2 {| DescribeTo := str "d"; DescribeNegationTo := str "n" |})
      [fun n => (n <? 5)%nat; fun n => (n <? 9)%nat] [7; 2]%nat (Some []) = Ok (b, l') /\
    b = true /\ satisfied ExactMatch [fun n => (n <? 5)%nat; fun n => (n <? 9)%nat] [7; 2]%nat.
Proof.
  destruct (UnorderedElementsAre_correct (fun n => dec (Z.of_nat n)) ExactMatch
    (replicate 2 {| DescribeTo := str "d"; DescribeNegationTo := str "n" |})
    [fun n => (n <? 5)%nat; fun n => (n <? 9)%nat] [7; 2]%nat (Some [])) as (b & l' & H1 & H2).
  - reflexivity.
  - assert (Hb : b = true).
    { assert (E : (match MatchAndExplain (fun n => dec (Z.of_nat n)) ExactMatch
          (replicate 2 {| DescribeTo := str "d"; DescribeNegationTo := str "n" |})
          [fun n => (n <? 5)%nat; fun n => (n <? 9)%nat] [7; 2]%nat (Some []) with
                   | Ok (b, _) => b | Err _ => false end) = true) by (vm_compute; reflexivity).
      rewrite H1 in E. exact E. }
    exists b, l'. split; [exact H1 |]. split; [exact Hb |]. apply H2, Hb.
Defined.
