(* ===== verification/GtestTheorems.v ===== *)
(** * Theorems about the GoogleTest library

    The properties of the vendored test library, proved from the lemmas of its
    components, each with a witness at a concrete input. *)

From S2P Require Import Prelude Outcome Common CStr FilePath GmockUtils TestFilter EditDistance Printers Utf8 SimpleRegex TestResult TestSelect.

(** ** Path names *)

(** C30. The type invariant of FilePath: a name never holds two separators in a
    row.  The constructor from a string establishes it, without changing the
    list of names between separators or whether the path is absolute, and every
    operation keeps it; on a name that has it the constructor changes nothing. *)
Theorem FilePath_invariant (p q : FilePath) (s ext : text) (n : Z)
    (Hp : well_formed p) (Hq : well_formed q) :
  well_formed (FilePath_of s) /\
  path_names (pathname_ (FilePath_of s)) = path_names s /\
  IsAbsolutePath (FilePath_of s) = bool_decide (head s = Some kPathSeparator) /\
  FilePath_of (pathname_ p) = p /\
  well_formed (RemoveExtension p ext) /\
  well_formed (RemoveDirectoryName p) /\
  well_formed (RemoveFileName p) /\
  well_formed (RemoveTrailingPathSeparator p) /\
  well_formed (ConcatPaths p q) /\
  well_formed (MakeFileName p q n ext).
Proof.
  split_and!; auto with path.
  - apply Normalize_names.
  - rewrite <- (Normalize_head s). unfold IsAbsolutePath, CalculateRootLength. simpl.
    destruct (Normalize s) as [|c r]; [done|]. simpl. unfold IsPathSeparator.
    repeat case_bool_decide; naive_solver.
  - by apply FilePath_of_id.
  - unfold RemoveExtension. case_match; auto with path.
  - unfold RemoveDirectoryName. case_match; auto with path.
  - unfold RemoveFileName. auto with path.
  - unfold RemoveTrailingPathSeparator. case_match; auto with path.
  - unfold ConcatPaths. case_match; auto with path.
  - unfold MakeFileName, ConcatPaths. repeat case_match; auto with path.
Qed.

(** Path names for the witnesses. *)
Definition out_dir : FilePath := FilePath_of (str "out//xml/").
Definition report : FilePath := FilePath_of (str "report").

Lemma FilePath_invariant_witness :
  pathname_ (MakeFileName out_dir report 3 (str "xml")) = str "out/xml/report_3.xml" /\
  well_formed (MakeFileName out_dir report 3 (str "xml")).
Proof.
  split; [vm_compute; reflexivity|].
  apply (FilePath_invariant out_dir report (str "a///b") (str "xml") 3);
    vm_compute; reflexivity.
Defined.

(** Taking a path apart and putting it together: for a path with a separator
    and without NULs, RemoveFileName and RemoveDirectoryName return a directory
    (a name that ends with the separator) and a name without separators, and
    ConcatPaths of the two is the path. *)
Theorem path_roundtrip (p : FilePath) (Hwf : well_formed p)
    (Hnul : NUL ∉ pathname_ p) (Hsep : kPathSeparator ∈ pathname_ p) :
  IsDirectory (RemoveFileName p) = true /\
  (kPathSeparator ∉ pathname_ (RemoveDirectoryName p)) /\
  ConcatPaths (RemoveFileName p) (RemoveDirectoryName p) = p.
Proof.
  destruct (split_last_separator p Hwf Hnul Hsep) as (a & b & Hs & Hb & -> & ->).
  split_and!; simpl.
  - unfold IsDirectory. simpl. rewrite last_snoc. done.
  - done.
  - by apply ConcatPaths_split.
Qed.

Lemma path_roundtrip_witness :
  ConcatPaths (RemoveFileName (FilePath_of (str "/src/a.cc")))
    (RemoveDirectoryName (FilePath_of (str "/src/a.cc"))) = FilePath_of (str "/src/a.cc").
Proof.
  apply (path_roundtrip (FilePath_of (str "/src/a.cc"))).
  - vm_compute. reflexivity.
  - apply (bool_decide_unpack _). vm_compute. exact I.
  - apply (bool_decide_unpack _). vm_compute. exact I.
Defined.

(** ** Base64 *)

(** Decoding an encoding: a text whose characters other than blanks and
    padding are the Base64 digits (RFC 4648, either alphabet) of a sequence of
    bytes is decoded to exactly these bytes.  A significant character outside of
    the alphabet makes the decoder return false with an empty result if it is
    ASCII; for any other character the code indexes its table with a negative
    number. *)
Theorem Base64Unescape_roundtrip :
  (forall s bytes, base64_text s (base64_groups bytes) ->
     Base64Unescape s = Ok (true, bytes)) /\
  (forall s c rest, forallb (fun c => negb (significant c) || in_alphabet c) s = true ->
     significant c = true -> in_alphabet c = false ->
     Base64Unescape (s ++ c :: rest) =
       if code c <? 128 then Ok (false, []) else Err InvalidDeref).
Proof.
  split.
  - intros s bytes H. unfold Base64Unescape. rewrite unescape_skip.
    rewrite (unescape_groups _ _ _ _ _ (base64_groups_range bytes)); [| |exact H].
    + by rewrite groups_loop_bytes.
    + apply forallb_forall. intros c [_ Hc]%filter_In. exact Hc.
  - intros s c rest Hs Hc Ha. by apply unescape_stray.
Qed.

Lemma Base64Unescape_roundtrip_witness :
  Base64Unescape (str "T3Jk ZXI=") = Ok (true, str "Order") /\
  Base64Unescape (str "T3*k") = Ok (false, []).
Proof.
  split.
  - apply (proj1 Base64Unescape_roundtrip (str "T3Jk ZXI=") (str "Order")).
    vm_compute. reflexivity.
  - apply (proj2 Base64Unescape_roundtrip (str "T3") "*"%char (str "k"));
      vm_compute; reflexivity.
Defined.

(** ** Test filters *)

(** The linear-time matcher of PatternMatchesString terminates and answers
    whether the name is in the language of the pattern ('?' any character, '*'
    any characters). *)
Theorem PatternMatchesString_correct (name p : text) :
  exists b, PatternMatchesString name p = Some b /\ (b = true <-> glob p name).
Proof. apply PatternMatchesString_glob. Qed.

(** C28. What --gtest_filter selects: without a '-', the tests whose full name
    (suite.test) matches one of the patterns between the colons; with a '-', the
    tests that match a pattern before the first '-' (any test if there is none)
    and none of the patterns after it, in which further '-' are characters. *)
Theorem FilterMatchesTest_correct (pos neg suite test : text)
    (Hpos : "-"%char ∉ pos) :
  let full := suite ++ str "." ++ test in
  (FilterMatchesTest pos suite test = true <-> some_pattern_matches pos full) /\
  (FilterMatchesTest (pos ++ "-"%char :: neg) suite test = true <->
   (pos = [] \/ some_pattern_matches pos full) /\ ~ some_pattern_matches neg full).
Proof.
  intros full. unfold FilterMatchesTest, MatchesTest. fold full. split.
  - by rewrite PN_positive_only, MatchesName_spec.
  - rewrite PN_with_negative, andb_true_iff, negb_true_iff, <- not_true_iff_false by done.
    rewrite !MatchesName_spec. case_bool_decide as E; [|naive_solver].
    enough (some_pattern_matches kUniversalFilter full) by naive_solver.
    exists (str "*"). split; [left|]. rewrite <- (app_nil_r full). by repeat constructor.
Qed.

Lemma FilterMatchesTest_correct_witness :
  FilterMatchesTest (str "Order*:Book.?dd-*.Slow-*") (str "Book") (str "Add") = true /\
  (FilterMatchesTest (str "Order*") (str "Book") (str "Add") = true <->
   some_pattern_matches (str "Order*") (str "Book.Add")).
Proof.
  split; [vm_compute; reflexivity|].
  apply (FilterMatchesTest_correct (str "Order*") [] (str "Book") (str "Add")).
  apply (bool_decide_unpack _). vm_compute. exact I.
Defined.

(** ** Differences of lists of lines *)

(** C29. CalculateOptimalEdits terminates without an index out of range, and the
    edits it returns turn the left lines into the right ones (a match consumes
    equal lines, a replacement different ones).  CreateUnifiedDiff runs to its
    end, too; the diff is empty exactly for equal inputs or a context of 0. *)
Theorem CreateUnifiedDiff_correct (left right : list text) (context : nat) :
  (exists es, CalculateOptimalEdits_lines left right = Ok es /\ edits left right es) /\
  (CreateUnifiedDiff left right context ⇓ fun d => d = [] <-> left = right \/ context = O).
Proof.
  destruct (CalculateOptimalEdits_lines_edits left right) as (es & He & Hed & Hsame).
  split; [by exists es|]. unfold CreateUnifiedDiff. rewrite He, bind_ok.
  eapply returns_mono; [apply diff_loop_runs; [exact Hed | simpl; lia | done]|].
  intros d (t & -> & Ht). simpl. rewrite Ht. split; [|intros [->|?]; auto].
  intros [Hall|?]; [left; by eapply edits_all_match | by right].
Qed.

(** The edits need not be optimal, though: the code compares the costs of the
    neighbouring cells without the cost of the step, and takes a replacement when
    an addition and a removal tie below it.  For the lines a, b, a and b, a, b it
    replaces all three lines; removing the first and adding one at the end does
    it with two edits. *)
Theorem edits_not_optimal :
  let a := str "a" in let b := str "b" in
  CalculateOptimalEdits_lines [a; b; a] [b; a; b] = Ok [kReplace; kReplace; kReplace] /\
  edits [a; b; a] [b; a; b] [kRemove; kMatch; kMatch; kAdd].
Proof. split; [vm_compute; reflexivity | repeat constructor]. Qed.

(** ** Printing values *)

(** C31. A printed string reads back: what the universal printer writes for a
    std::string begins with what is, by the lexical rules of C++ (adjacent literals
    are joined, a hexadecimal escape takes all the digits that follow), a string
    literal for exactly the bytes of the string, provided no NUL stands before an
    octal digit.  With --gtest_print_utf8, as by default, the text itself follows in
    a line of its own exactly if it is valid UTF-8, not all ASCII, and has no control
    characters but tabulators and ends of lines; without the flag nothing follows.
    An array of characters is printed like the string without the NUL at its end,
    and with a remark if there is none.  Without the proviso the literal is wrong:
    NUL followed by 7 is written as the escape of the single character 7. *)
Theorem PrintStringTo_roundtrip :
  (forall s, no_ambiguous_NUL s = true -> literal_of (PrintStringTo false s) (map code s)) /\
  (forall s,
     let shown := Forall readable s /\ (exists cps, Forall scalar cps /\ s = encode cps) /\
                  Exists (fun c => 128 <= code c) s in
     (shown -> PrintStringTo true s = PrintStringTo false s ++ as_text s) /\
     (~ shown -> PrintStringTo true s = PrintStringTo false s)) /\
  (forall s, UniversalPrintCharArray char_type (map scode s ++ [0]) = PrintStringTo false s) /\
  (forall s, last s <> Some NUL -> UniversalPrintCharArray char_type (map scode s) =
                                   PrintStringTo false s ++ str " (no terminating NUL)") /\
  literal_of (PrintStringTo false [NUL; "7"%char]) [7].
Proof.
  split_and!; [apply PrintStringTo_literal| |apply UniversalPrintCharArray_NUL|
    apply UniversalPrintCharArray_open|vm_compute; reflexivity].
  intros s. rewrite (PrintStringTo_split true s). cbn [andb].
  assert (Hshown : bool_decide (Forall readable s) && IsValidUTF8 s && existsb (fun c => 128 <=? code c) s = true <->
    Forall readable s /\ (exists cps, Forall scalar cps /\ s = encode cps) /\ Exists (fun c => 128 <= code c) s).
  { rewrite !andb_true_iff, bool_decide_eq_true, (IsValidUTF8_spec s), existsb_elem, Exists_exists.
    setoid_rewrite Z.leb_le. tauto. }
  split; intros H.
  - by rewrite (proj2 Hshown H).
  - rewrite (not_true_is_false _ (fun E => H (proj1 Hshown E))). apply app_nil_r.
Qed.

(** A French word, with its accents in UTF-8, and other strings. *)
Lemma PrintStringTo_roundtrip_witness :
  literal_of (PrintStringTo false (str "Ask 7" ++ [LF; NUL; "200"%char] ++ str "Bid"))
    [65; 115; 107; 32; 55; 10; 0; 200; 66; 105; 100] /\
  (let s := encode [99; 244; 116; 233] in
   PrintStringTo true s = PrintStringTo false s ++ as_text s) /\
  PrintStringTo true (encode [99]) = PrintStringTo false (encode [99]) /\
  UniversalPrintCharArray char_type [99] = PrintStringTo false (str "c") ++ str " (no terminating NUL)".
Proof.
  destruct PrintStringTo_roundtrip as (H1 & H2 & _ & H4 & _). split; [|split; [|split]].
  - apply (H1 (str "Ask 7" ++ [LF; NUL; "200"%char] ++ str "Bid")). vm_compute. reflexivity.
  - apply (H2 (encode [99; 244; 116; 233])). split; [|split].
    + refine (proj1 (bool_decide_eq_true _) _). vm_compute. reflexivity.
    + exists [99; 244; 116; 233]. split; [|reflexivity]. repeat constructor; unfold scalar; lia.
    + apply Exists_cons_tl, Exists_cons_hd. vm_compute. discriminate.
  - apply (H2 (encode [99])). intros (_ & _ & H). apply Exists_exists in H as (c & Hc & Hcode).
    apply list_elem_of_singleton in Hc as ->. vm_compute in Hcode. by apply Hcode.
  - apply (H4 (str "c")). discriminate.
Defined.

(** 128-bit integers: the long division of the two 64-bit halves never wraps
    around and fits the buffer of 40 characters; the output is the decimal
    notation of the number, for every unsigned and every signed value. *)
Theorem PrintTo_int128_correct (v : Z) :
  (0 <= v < 2 ^ 128 -> PrintTo_uint128 v = Ok (dec v)) /\
  (- 2 ^ 127 <= v < 2 ^ 127 -> PrintTo_int128 v = Ok (dec v)).
Proof. split; [apply PrintTo_uint128_dec | apply PrintTo_int128_dec]. Qed.

Lemma PrintTo_int128_correct_witness :
  PrintTo_int128 (- 2 ^ 127) = Ok (str "-170141183460469231731687303715884105728").
Proof.
  transitivity (Ok (dec (- 2 ^ 127))); [|vm_compute; reflexivity].
  apply (PrintTo_int128_correct (- 2 ^ 127)). vm_compute. split; congruence.
Defined.

(** C32. UTF-8: IsValidUTF8 accepts exactly the encodings of sequences of Unicode
    scalar values; CodePointToUtf8 encodes every scalar value but U+0000, and
    WideStringToUtf8 (32-bit wchar_t) a wide string of them, as IsValidUTF8 wants
    it.  Code points between U+110000 and U+1FFFFF, which are no Unicode, are
    encoded instead of reported, and the result is not valid. *)
Theorem utf8_correct :
  (forall s, IsValidUTF8 s = true <-> exists cps, Forall scalar cps /\ s = encode cps) /\
  (forall cps, Forall (fun cp => scalar cp /\ cp <> 0) cps ->
     WideStringToUtf8 4 cps (-1) = encode cps /\
     Forall (fun cp => CodePointToUtf8 cp = encode [cp]) cps) /\
  IsValidUTF8 (CodePointToUtf8 1114112) = false.
Proof.
  split_and!.
  - apply IsValidUTF8_spec.
  - intros cps Hcps. split.
    + unfold WideStringToUtf8. simpl. rewrite wide_loop_encode by done.
      by apply StringStreamToString_id, encode_NUL_free.
    + eapply Forall_impl; [exact Hcps|]. intros cp [Hcp H0]. pose proof (scalar_max cp Hcp).
      rewrite CodePointToUtf8_encoded by (unfold scalar in *; lia).
      unfold encode. simpl. by rewrite app_nil_r.
  - vm_compute. reflexivity.
Qed.

Lemma utf8_correct_witness :
  WideStringToUtf8 4 [8364; 128512] (-1) = encode [8364; 128512].
Proof.
  apply (proj1 (proj2 utf8_correct)).
  do 2 (apply Forall_cons_2; [unfold scalar; lia|]). apply Forall_nil_2.
Defined.

(** ** Simple regular expressions *)

(** C33. For an expression that ValidateRegex accepts, the matcher terminates,
    never reads past the end of a string, and decides the language of the
    expression: PartialMatch whether a substring is in it (a prefix after '^', a
    suffix before '$'), FullMatch whether the whole string is.  The latter needs
    that a '$' at the end is no escaped one: the class takes the last character
    of the expression for an anchor, and the expression for a dollar sign
    "fully" matches any string that begins with one. *)
Theorem simple_regex_correct :
  (forall regex s, fst (ValidateRegex (Some regex)) = true ->
     let re := fst (RE_Init (Some regex)) in
     decides (PartialMatch (Some s) re) (matches_somewhere regex s) /\
     ((last regex = Some "$"%char -> snd <$> tokens_of (body regex) = Some true) ->
      decides (FullMatch (Some s) re) (matches_entirely regex s))) /\
  FullMatch (Some (str "$x")) (fst (RE_Init (Some (str "\$")))) = Ok true.
Proof.
  split; [|vm_compute; reflexivity]. intros regex s Hv re.
  destruct (ValidateRegex_tokens regex Hv) as (ts & e & H).
  destruct (RE_valid regex Hv) as (H1 & H2 & H3). split.
  - unfold PartialMatch. subst re. rewrite H1, H2. by eapply MatchRegexAnywhere_decides.
  - intros Hd. unfold FullMatch. subst re. rewrite H1, H3.
    apply (full_pattern_decides regex ts e s H). intros Hl. apply Hd in Hl.
    rewrite H in Hl. by injection Hl.
Qed.

Lemma simple_regex_correct_witness :
  FullMatch (Some (str "id=42;")) (fst (RE_Init (Some (str "\w+=\d*;?$")))) = Ok true /\
  decides (FullMatch (Some (str "id=42;")) (fst (RE_Init (Some (str "\w+=\d*;?$")))))
    (matches_entirely (str "\w+=\d*;?$") (str "id=42;")).
Proof.
  split; [vm_compute; reflexivity|].
  apply (proj1 simple_regex_correct (str "\w+=\d*;?$") (str "id=42;")); [vm_compute; reflexivity|].
  intros _. vm_compute. reflexivity.
Defined.

(** ** Results and their counts *)

(** The counters of a run: every test that should run is counted exactly once
    among the successful, the skipped and the failed tests, so over all suites
    the three counters of UnitTestImpl add up to the number of tests to run; none
    of the counters overflows as long as the number of tests fits into an int. *)
Theorem test_counts_partition (suites : list TestSuite)
    (Hok : Forall suite_ok suites) (Hmax : zsum total_test_count suites <= INT_MAX) :
  exists ok skip bad,
    UnitTestImpl.successful_test_count suites = Ok ok /\
    UnitTestImpl.skipped_test_count suites = Ok skip /\
    UnitTestImpl.failed_test_count suites = Ok bad /\
    UnitTestImpl.test_to_run_count suites = Ok (ok + skip + bad).
Proof.
  rewrite Forall_forall in Hok. do 3 eexists. split_and!.
  - apply program_count; [|done]. intros s Hs. by apply successful_count, Hok.
  - apply program_count; [|done]. intros s Hs. by apply skipped_count, Hok.
  - apply program_count; [|done]. intros s Hs. by apply CountIf_length, Hok.
  - rewrite <- (zsum_add3 (tests_where should_run_)) by apply run_partition.
    apply program_count; [|done]. intros s Hs. by apply CountIf_length, Hok.
Qed.

(** A test whose result has the given parts. *)
Definition sample_test (name : string) (parts : list TestPartType) : TestInfo :=
  mkTestInfo (str "Book") (str name) None None (mkCodeLocation (str "book_test.cc") 1) 0
    true false true false 0
    (mkTestResult (map (fun p => new_TestPartResult p None 1 []) parts) [] 0 0 0).
Definition sample_suite : TestSuite :=
  mkTestSuite (str "Book") None
    [sample_test "Add" [kSuccess]; sample_test "Cancel" [kSuccess; kNonFatalFailure];
     sample_test "Trade" [kSkip]; sample_test "Modify" []] [0; 1; 2; 3] None None
    true new_TestResult 0 0.

Lemma test_counts_partition_witness :
  exists ok skip bad,
    UnitTestImpl.successful_test_count [sample_suite] = Ok ok /\
    UnitTestImpl.skipped_test_count [sample_suite] = Ok skip /\
    UnitTestImpl.failed_test_count [sample_suite] = Ok bad /\
    UnitTestImpl.test_to_run_count [sample_suite] = Ok (ok + skip + bad).
Proof.
  apply test_counts_partition; [|vm_compute; congruence].
  apply Forall_singleton. split; [vm_compute; congruence|].
  repeat apply Forall_cons_2; try apply Forall_nil_2; vm_compute; congruence.
Defined.

(** Properties of a test: RecordProperty keeps the keys distinct; a valid
    property has the recorded value afterwards and the others are as before; a
    key that the report reserves for the element adds a failure and changes
    nothing. *)
Theorem RecordProperty_correct (r : TestResult) (element : text) (p : TestProperty)
    (reserved : list text) (Hr : GetReservedAttributesForElement element = Ok reserved)
    (Hkeys : NoDup (map prop_key (test_properties_ r))) :
  RecordProperty r element p ⇓ fun '(r', failures) =>
    NoDup (map prop_key (test_properties_ r')) /\
    test_part_results_ r' = test_part_results_ r /\
    (prop_key p ∈ reserved -> r' = r /\ failures <> []) /\
    ((prop_key p ∉ reserved) -> failures = [] /\
      forall k, property_value k (test_properties_ r') =
        if bool_decide (prop_key p = k) then Some (prop_value p)
        else property_value k (test_properties_ r)).
Proof.
  unfold RecordProperty, ValidateTestProperty. rewrite Hr. simpl.
  unfold ValidateTestPropertyName. case_bool_decide as E; simpl.
  - by split_and!.
  - split_and!; [by apply set_property_NoDup | done | done |].
    intros _. split; [done|]. intros k. apply set_property_value.
Qed.

Lemma RecordProperty_correct_witness :
  RecordProperty new_TestResult (str "testcase") (mkTestProperty (str "orders") (str "7")) ⇓
  fun '(r', failures) => NoDup (map prop_key (test_properties_ r')).
Proof.
  eapply returns_mono;
    [apply (RecordProperty_correct new_TestResult (str "testcase")
              (mkTestProperty (str "orders") (str "7")) kReservedTestCaseAttributes);
     [vm_compute; reflexivity | apply NoDup_nil_2]|].
  intros [r' failures] [H _]. exact H.
Defined.

(** ** Which tests run *)

(** Integers from flags and the environment: the decimal notation of a number,
    after any blanks, is parsed to that number if it fits into an int32_t and is
    rejected otherwise, however long it is; the empty string is accepted, as 0. *)
Theorem ParseInt32_roundtrip (src blanks : text) (v : Z)
    (Hblank : Forall (fun c => IsSpace c = true) blanks) :
  fst (ParseInt32 src (blanks ++ dec v)) = (if int_ok v then Some v else None) /\
  ParseInt32 src [] = (Some 0, []).
Proof. split; [by apply ParseInt32_dec | reflexivity]. Qed.

Lemma ParseInt32_roundtrip_witness :
  fst (ParseInt32 [] (str "  " ++ dec (-2147483648))) = Some (-2147483648) /\
  fst (ParseInt32 [] (str "99999999999999999999")) = None.
Proof.
  split.
  - apply (ParseInt32_roundtrip [] (str "  ") (-2147483648)).
    repeat (apply Forall_cons_2; [reflexivity|]). apply Forall_nil_2.
  - exact (proj1 (ParseInt32_roundtrip [] [] 99999999999999999999 (Forall_nil_2 _))).
Defined.

(** C34. Sharding partitions the tests.  [selects] is what RunAllTests runs: ShouldShard
    reads the two variables and decides whether FilterTests honours them.  When the n
    shards of a run are started with the same flags, each on the same program, every
    test that a run without the variables selects is selected on exactly one of the
    shards, and no other test on any; the number that is returned is that of the
    selected tests, and the child process of a death test ignores the variables.
    The tests of the program must be countable by an int. *)
Theorem shards_partition (flags : FilterFlags) (n : Z) (suites : list TestSuite) (k : nat)
    (b : bool) (env : text -> option text)
    (Hn : 0 < n <= INT_MAX) (Hk : runnables flags suites !! k = Some b)
    (Hlen : Z.of_nat (length (runnables flags suites)) <= INT_MAX)
    (Htotal : env kTestTotalShards = None) (Hindex : env kTestShardIndex = None) :
  (exists suites', selects env flags suites suites' (count_runnable 0 (selection suites')) /\
     selection suites' !! k = Some b) /\
  exists owner, 0 <= owner < n /\
    forall i, 0 <= i < n ->
      ShouldShard (shard_env n i) kTestTotalShards kTestShardIndex true = Ok false /\
      exists suites',
        selects (shard_env n i) flags suites suites' (count_runnable 0 (selection suites')) /\
        selection suites' !! k = Some (b && (i =? owner)).
Proof.
  split.
  - destruct (selects_unsharded env flags suites Htotal Hindex Hlen) as (suites' & H & E).
    exists suites'. split; [exact H|by rewrite E].
  - pose proof (count_runnable_nonneg 0 (take k (runnables flags suites)) ltac:(lia)).
    exists (Z.rem (count_runnable 0 (take k (runnables flags suites))) n).
    split; [apply Z.rem_bound_pos; lia|]. intros i Hi. split; [done|].
    destruct (selects_shard n i flags suites Hi (proj2 Hn) Hlen) as (suites' & Hsel & E).
    exists suites'. split; [exact Hsel|]. rewrite E. destruct (Z.ltb_spec 1 n).
    + by rewrite (shard_selection_lookup _ _ _ _ _ b Hk), (Z.eqb_sym i).
    + assert (n = 1 /\ i = 0) as [-> ->] by lia. by rewrite Z.rem_1_r, andb_true_r.
Qed.

Definition sample_flags : FilterFlags := mkFilterFlags (str "Book.*-*Trade") false.

Lemma shards_partition_witness :
  exists owner, 0 <= owner < 2 /\
    forall i, 0 <= i < 2 ->
      ShouldShard (shard_env 2 i) kTestTotalShards kTestShardIndex true = Ok false /\
      exists suites',
        selects (shard_env 2 i) sample_flags [sample_suite] suites' (count_runnable 0 (selection suites')) /\
        selection suites' !! 3%nat = Some (i =? owner).
Proof.
  apply (shards_partition sample_flags 2 [sample_suite] 3 true (fun _ => None)).
  - split; [lia | vm_compute; congruence].
  - vm_compute. reflexivity.
  - vm_compute. discriminate.
  - reflexivity.
  - reflexivity.
Defined.

(** Shuffling: the generator stays in its range, so ShuffleTests runs without
    a fault; it permutes the order of the suites with the death test suites still
    first and the order of the tests within each suite, and changes nothing else;
    UnshuffleTests restores the order of registration. *)
Theorem ShuffleTests_correct (random : Z) (u : Suites)
    (Hlast : -1 <= last_death_test_suite_ u < Z.of_nat (length (test_suites_ u)))
    (Hidx : test_suite_indices_ u = map Z.of_nat (seq 0 (length (test_suites_ u))))
    (Hmax : Z.of_nat (length (test_suites_ u)) <= kMaxRange)
    (Htests : Forall (fun s => Z.of_nat (length (test_indices_ s)) <= kMaxRange /\
       test_indices_ s = map Z.of_nat (seq 0 (length (test_indices_ s)))) (test_suites_ u)) :
  let deaths := Z.to_nat (last_death_test_suite_ u + 1) in
  exists random' u', ShuffleTests random u = Ok (random', u') /\
    take deaths (test_suite_indices_ u') ≡ₚ take deaths (test_suite_indices_ u) /\
    drop deaths (test_suite_indices_ u') ≡ₚ drop deaths (test_suite_indices_ u) /\
    Forall2 (fun s s' => s' = with_indices s (test_indices_ s') /\
                         test_indices_ s' ≡ₚ test_indices_ s) (test_suites_ u) (test_suites_ u') /\
    UnshuffleTests u' = u.
Proof. by apply ShuffleTests_runs. Qed.

Definition sample_suites : Suites := mkSuites [sample_suite; sample_suite] [0; 1] 0.

Lemma ShuffleTests_correct_witness :
  exists random' u', ShuffleTests 42 sample_suites = Ok (random', u') /\
    UnshuffleTests u' = sample_suites.
Proof.
  destruct (ShuffleTests_correct 42 sample_suites) as (r & u' & H1 & _ & _ & _ & H2).
  - vm_compute. split; congruence.
  - reflexivity.
  - vm_compute. congruence.
  - repeat apply Forall_cons_2; try apply Forall_nil_2;
      (split; [vm_compute; congruence | reflexivity]).
  - exists r, u'. split; [exact H1 | exact H2].
Defined.

(** The i-th suite in the order of the run: GetMutableSuiteCase follows the
    shuffled order; GetTestSuite, its constant version, bounds-checks the shuffled
    index but returns the i-th suite in the order of registration. *)
Theorem GetTestSuite_ignores_order (u : Suites) (i : nat) (k : nat) (s s' : TestSuite)
    (Hidx : test_suite_indices_ u !! i = Some (Z.of_nat k))
    (Hk : test_suites_ u !! k = Some s) (Hi : test_suites_ u !! i = Some s') :
  GetMutableSuiteCase u (Z.of_nat i) = Ok (Some s) /\
  GetTestSuite u (Z.of_nat i) = Ok (Some s').
Proof.
  assert (E : GetElementOr (test_suite_indices_ u) (Z.of_nat i) (-1) = Z.of_nat k).
  { unfold GetElementOr. pose proof (lookup_lt_Some _ _ _ Hidx).
    rewrite (proj2 (Z.ltb_ge _ _)), (proj2 (Z.leb_gt _ _)) by lia. simpl.
    by rewrite Nat2Z.id, Hidx. }
  unfold GetMutableSuiteCase, GetTestSuite. rewrite E, (proj2 (Z.ltb_ge _ _)), !Nat2Z.id by lia.
  by rewrite Hk, Hi.
Qed.

Lemma GetTestSuite_ignores_order_witness :
  let u := mkSuites [sample_suite; with_indices sample_suite [3; 2; 1; 0]] [1; 0] (-1) in
  GetMutableSuiteCase u 0 = Ok (Some (with_indices sample_suite [3; 2; 1; 0])) /\
  GetTestSuite u 0 = Ok (Some sample_suite).
Proof.
  apply (GetTestSuite_ignores_order
           (mkSuites [sample_suite; with_indices sample_suite [3; 2; 1; 0]] [1; 0] (-1)) 0 1);
    reflexivity.
Defined.
